(* ===== verification/_CoqProject ===== *)
-Q . S2P
Prelude.v
Queue.v
Mm.v
MmInv.v
MmHeap.v
MmAlloc.v
MmInit.v
MmInfo.v
MmBlocks.v
MmRealloc.v
MmAlign.v
MmSpec.v
Sched.v
SchedInv.v
SchedOps.v
SchedSpec.v
SchedThm.v
Sem.v
SemSpec.v
SemThm.v
Wdog.v
WdogSpec.v
WdogThm.v
Calendar.v
Clock.v
KHeap.v
Mq.v
MqWait.v
MqPool.v
MqSpec.v
MqInit.v
MqThm.v
Inode.v
InodeTree.v
InodeSpec.v
InodeThm.v
Files.v
FilesSpec.v
FilesCalls.v
FilesLists.v
FilesThm.v
Env.v
EnvSpec.v
EnvCalls.v
EnvThm.v
Names.v
NSem.v
NSemThm.v
MqName.v
MqNameInv.v
MqNameMem.v
MqNameSpec.v
MqNameDes.v
MqNameCalls.v
MqKeep.v
MqNameThm.v
Pid.v
SemTimed.v
SemTimedSpec.v
SemTimedCalls.v
SemTimedThm.v
Pthread.v
PthreadSpec.v
PthreadCalls.v
PthreadThm.v
Bytes.v
Qsort.v
QsortMem.v
QsortThm.v
Crc.v
Printf.v
PrintfNum.v
PrintfSpec.v
PrintfFmt.v
PrintfThm.v
Strto.v
