(* ===== verification/Prelude.v ===== *)
(** * A verification library for the NuttX kernel

    NuttX (src/nuttx) is a real-time operating system.  This library models the
    parts of its kernel that the others stand on and proves them correct against
    abstract specifications.

    ** The parts and how they interact

    Kernel objects are linked by the queues of lib/queue.  The memory manager
    (mm) gives out the memory of the heap.  The scheduler (sched/sched_*.c) keeps
    every task in one of its lists and runs the head of g_readytorun.  Semaphores
    (sched/sem_*.c) and message queues (sched/mq_*.c), which tasks open by name,
    block and unblock tasks through up_block_task and up_unblock_task; message queues take their
    structures from pools and from the heap.  Mutexes and condition variables
    (sched/pthread_mutex*.c, pthread_cond*.c) are semaphores with a holder, used
    under the scheduler lock.  Watchdogs (sched/wd_*.c) are the
    timers of the kernel, advanced by the timer interrupt, which also counts the
    ticks of the system clock (sched/clock_*.c); lib/time turns seconds into
    dates.  The inode tree (fs/fs_inode*.c) names the drivers and the mount
    points; its inodes live in the heap and its lock is a semaphore.  Tasks reach
    drivers through lists of open files (fs/fs_files.c, fs_open.c, fs_close.c and
    the other calls on descriptors), whose files refer to inodes; tasks get their
    lists from their creators (sched/sched_setup*files.c) and threads share them,
    as they do with the environment variables (sched/env_*.c), blocks of strings in
    the heap.  Tasks are known by IDs, which a hash table maps to TCBs
    (sched/task_setup.c, sched_gettcb.c).  A timed wait (sched/sem_timedwait.c) joins
    semaphores, watchdogs, clock and IDs: its watchdog finds the task by its ID and
    ends the wait.  Of the C library, besides queues and
    time, the library models sorting, checksums, formatted output and the
    conversion of strings to numbers, over a memory of bytes.

    ** The files

    - [Prelude]: pointers, faults, the error monad [res] and its weakest
      preconditions [wp], machine integers, lists with default ends.
    - [Queue]: sq_* and dq_* of lib/queue, for any object with links.
    - [Mm] (operations of src/nuttx/mm), [MmInv], [MmHeap], [MmAlloc], [MmInit],
      [MmInfo], [MmBlocks], [MmRealloc], [MmAlign] (lemmas), [MmSpec] (theorems).
    - [Sched] (operations), [SchedInv], [SchedOps], [SchedSpec] (abstract
      scheduler and refinement), [SchedThm] (theorems).
    - [Sem], [SemSpec], [SemThm]: semaphores and errno, over the scheduler.
    - [Wdog], [WdogSpec], [WdogThm]: watchdogs, over the queues.
    - [Calendar], [Clock]: dates and the system clock.
    - [KHeap]: the interface between the heap and its clients, a pair of type
      classes with the memory manager as instance.
    - [Mq] (operations), [MqWait], [MqPool], [MqSpec], [MqInit] (lemmas), [MqThm]
      (theorems): message queues, over the scheduler and [KHeap].
    - [Pthread] (operations), [PthreadSpec] (invariant), [PthreadCalls] (lemmas),
      [PthreadThm] (theorems): mutexes and condition variables, over [Sem].
    - [Inode] (operations), [InodeTree], [InodeSpec] (lemmas), [InodeThm]
      (theorems): the inode tree, over [KHeap].
    - [Files] (operations), [FilesSpec] (invariant), [FilesCalls], [FilesLists]
      (lemmas on the calls and on the lists of tasks), [FilesThm] (theorems): open
      files, over [Inode], [KHeap] and the class [Drivers].
    - [Env] (operations), [EnvSpec] (strings, invariant), [EnvCalls] (lemmas),
      [EnvThm] (theorems): environment variables, over [KHeap].
    - [Names]: objects with names, counts of connections and marks of unlinking,
      and the maps from names they stand for.
    - [NSem] (operations), [NSemThm] (theorems): named semaphores, over [Queue],
      [Sem], [KHeap] and [Names].
    - [MqName] (operations), [MqNameInv], [MqNameMem], [MqNameSpec], [MqNameDes],
      [MqNameCalls], [MqKeep] (invariant, specification and lemmas), [MqNameThm]
      (theorems): message queues by name and the descriptors of tasks, over [Mq],
      [KHeap] and [Names].
    - [Pid]: the table of task IDs.
    - [SemTimed] (operations), [SemTimedSpec], [SemTimedCalls] (lemmas on the timer
      interrupt and on the calls), [SemTimedThm] (theorems): sem_timedwait and the
      timer interrupt, over [Sem], [Wdog], [Clock] and [Pid].
    - [Bytes]: memory as bytes, for the files that follow.
    - [Qsort] (operations of lib/stdlib/lib_qsort.c), [QsortMem] (arrays in memory),
      [QsortThm] (theorem).
    - [Crc]: lib/misc/lib_crc32.c.
    - [Printf] (operations of lib/stdio/lib_libvsprintf.c, with the streams as a type
      class), [PrintfNum] (numerals), [PrintfSpec] (fields), [PrintfFmt] (formats),
      [PrintfThm] (theorem).
    - [Strto]: strtol and strtoul of lib/string, and the round trip with sprintf.

    Operations have the names of the C functions; a loop, or a part of a long
    function, is a definition of its own, named after what it does.  A structure
    is a record, a memory of objects of one type a [gmap] from addresses, a
    global variable a field of the state of its component.  A null or wild
    pointer, a failed assertion, a panic and a call that would have to wait where
    the model has no scheduler are faults, and the theorems of the form
    [wp (f s) Q] say that none happens and that the result satisfies [Q].

    ** What the theorems show

    - Queues: any sequence of calls behaves as on lists.
    - Heap: any sequence of legal calls from mm_initialize on refines an
      allocator of disjoint blocks; malloc takes a best fit, free merges, realloc
      keeps the contents, memalign aligns, mallinfo counts.
    - Scheduler: the linked lists refine lists of tasks; the highest ready task
      runs; the scheduler lock delays preemption; equal priorities are served in
      order and rotate with the time slice.
    - Semaphores: the calls refine a counter with a queue of waiters, and counts
      and waiters agree along any sequence of calls.
    - Watchdogs: the function of a watchdog started with a delay is called once,
      at its tick and not before; a timer interrupt ends also when the functions it
      calls start, restart and cancel watchdogs, and calls them in order.
    - Clock and calendar: the clock follows the ticks across the wrap of its
      counter; gmtime_r and mktime are inverse and agree with a calendar that
      counts days one by one, within limits that are exact.
    - Message queues: send and receive refine queues sorted by priority, first in
      first out within one, wake the right waiters, and no structure is lost or
      freed twice, by tasks and interrupt handlers in any order; mq_open, mq_close
      and mq_unlink refine a map from names to queues, each task has its own
      descriptors, and a queue goes away with its last descriptor once unlinked.
    - Mutexes and condition variables: no two tasks hold a mutex at once, along any
      sequence of calls with waits, signals and preemption; what each call returns;
      an unlock hands the mutex to the first waiter, which gets it when it runs;
      pthread_cond_wait releases and waits in one step; a broadcast wakes all.
      Recursive mutexes with trylock or condition variables, and destroying a
      mutex on its way to a waiter, are shown to break exclusion.
    - Inodes: lookup agrees with a search of the whole tree, a registered driver
      is found, removal takes away one subtree, the count of an inode is the number
      of references that callers hold, and memory is freed when the last one ends.
    - Open files: along any sequence of calls that keeps to the contract [vlegal],
      by any tasks, for any drivers, nothing faults and references are counted exactly; open gives the lowest
      descriptor or an error and no change; close undoes open; an open driver
      outlives its removal until it is closed; new tasks inherit files.  Lemmas
      show where dup, dup2, fcntl, lseek and ioctl differ from their comments.
    - Environment variables: the calls refine maps from names to values, one per
      task, without reading a character that was not written; getenv returns what
      setenv stored.  Lemmas show what goes wrong when threads that share an
      environment change it.
    - Named semaphores: the calls refine a map from names to semaphores, and a
      semaphore goes away with its last connection after sem_unlink, as long as no
      semaphore has more than 65535 connections.
    - Task IDs: IDs are unique, and there is one for a new task unless
      CONFIG_MAX_TASKS tasks exist, whatever the counter of IDs has come to.
    - Timed waits: a wait that nobody ends is not cut short before the given time and
      has ended with ETIMEDOUT once the clock is past it; what the call returns at once; every suspended call waits with its own watchdog or has been
      woken, no timeout outlives its call, and no watchdog is lost.
    - Sorting: qsort ends for every comparison, even an inconsistent one, permutes
      the elements, stays within the array, and sorts for a total preorder.
    - Checksums: the table-driven CRC is the shift register of its polynomial and
      detects every change within four bytes.
    - Formatted output: a format given as a list of items is written as the items
      say, on any stream that keeps the promises of [StreamOk]; buffers are never
      overrun; strtol and strtoul read back every integer that sprintf wrote.  The
      fields of numbers are those of C, for the flags of [flags_ok].  Lemmas show the
      departures from C for the others, and formats that are read past their end.

    ** The build that is modelled

    32-bit pointers, int, long and size_t; debug assertions on; no priority
    inheritance, paging or instrumentation; the context switches of the simulated
    target (arch/sim), where switching registers is the flag that an operation
    returns.  CONFIG_MAX_WDOGPARMS is 4, CONFIG_MQ_MAXMSGSIZE and
    CONFIG_PREALLOC_MQ_MSGS are 32, the tick is 10 ms, CONFIG_MM_SMALL and
    CONFIG_RTC are off, CONFIG_MUTEX_TYPES is on; there are no sockets and no
    streams; the number of descriptors and CONFIG_FDCLONE_STDIO are parameters
    ([FilesConfig]), as is CONFIG_MAX_TASKS, a power of two ([PidConfig]).  The methods of drivers are a parameter ([Drivers]); what is
    assumed of them ([DriversOk]) is that a method does not change which inode its
    file refers to, and a witness has a concrete driver.  The functions of watchdogs
    are reached through pointers and are a parameter ([entry_acts]); for timed waits
    those of others are assumed to wake no task that waits for a semaphore ([others_ok]).  Critical sections (irqsave) make each operation one
    step; where a call suspends its caller it is cut in two, and the second part
    runs when the caller is the running task again.

    ** Fuel

    A loop over linked objects has the fuel [list_fuel], two more than the
    number of objects in memory, and visits an object at most once; the loops of
    the calendar have a constant fuel of 8 for at most 4 years and 5 halvings;
    loops over strings have the length of the string or
    the size of the memory; the digits of a number are at most its 32 bits; qsort has
    one more than its elements.  The specifications of the
    loops show that the fuel is enough: running out of it is the fault [FFuel],
    which [wp] excludes.

    ** Not modelled

    Drivers, architecture ports, boards and graphics touch hardware registers or
    are configuration; applications are outside the kernel.  Task creation and
    exit, the rest of pthreads, signals, POSIX timers, the timed waits of message
    queues and condition variables, mq_notify, mount points,
    directories and polling, the file
    systems (FAT, ROMFS, NXFFS), the network stack (uIP), the files of stdio and the
    rest of the C library are not modelled: they stand on the parts above, on
    signals or on devices.  Register contexts, interrupt masks
    and the timing of instructions are below the model. *)

From Stdlib Require Export ZArith Lia.
From stdpp Require Export base tactics numbers gmap sets option.
From stdpp Require Export list.
Export list.

#[global] Open Scope Z_scope.

(** ** Pointers and faults *)

(** A C pointer is the address it holds; [NULL] is address zero. *)
Abbreviation ptr := Z (only parsing).
Abbreviation NULL := 0%Z (only parsing).

(** What can go wrong in C code that has no exceptions: a null or a wild
    pointer is dereferenced, an [ASSERT] fails, the kernel calls [PANIC], a
    call made in a sequential context would have to suspend its caller, or a
    loop of the model uses up its fuel (which the theorems exclude). *)
Inductive fault : Type :=
| FNull
| FWild
| FAssert
| FPanic
| FBlock
| FFuel.

Inductive res (A : Type) : Type :=
| Ok (a : A)
| Err (f : fault).
Arguments Ok {A} a.
Arguments Err {A} f.

#[export] Instance fault_eq_dec : EqDecision fault.
Proof. solve_decision. Defined.
#[export] Instance res_eq_dec `{EqDecision A} : EqDecision (res A).
Proof. solve_decision. Defined.

#[export] Instance res_ret : MRet res := fun A a => Ok a.
#[export] Instance res_bind : MBind res := fun A B k r =>
  match r with
  | Ok a => k a
  | Err f => Err f
  end.

(** [ASSERT(b)] and [PANIC(code)]. *)
Definition c_assert (b : bool) : res unit := if b then Ok tt else Err FAssert.
Definition c_panic {A} : res A := Err FPanic.

(** Reading the object a pointer refers to, and updating one of its fields. *)
Definition deref {A} (m : gmap Z A) (p : ptr) : res A :=
  if decide (p = NULL) then Err FNull
  else match m !! p with
       | Some x => Ok x
       | None => Err FWild
       end.

Definition store {A} (f : A -> A) (p : ptr) (m : gmap Z A) : res (gmap Z A) :=
  if decide (p = NULL) then Err FNull
  else match m !! p with
       | Some _ => Ok (alter f p m)
       | None => Err FWild
       end.

(** A pointer to a live object. *)
Definition valid {A} (m : gmap Z A) (p : ptr) : Prop := p <> NULL /\ is_Some (m !! p).

(** [wp e P]: the computation [e] returns (it neither faults nor runs out of
    fuel) and its result satisfies [P]. *)
Definition wp {A} (e : res A) (P : A -> Prop) : Prop :=
  match e with
  | Ok a => P a
  | Err _ => False
  end.

(** ** Machine integers *)

Definition u8 (z : Z) : Z := z mod 2 ^ 8.
Definition u16 (z : Z) : Z := z mod 2 ^ 16.
Definition u32 (z : Z) : Z := z mod 2 ^ 32.
Definition s32 (z : Z) : Z := (z + 2 ^ 31) mod 2 ^ 32 - 2 ^ 31.
Definition s16 (z : Z) : Z := (z + 2 ^ 15) mod 2 ^ 16 - 2 ^ 15.
Definition INT_MAX : Z := 2 ^ 31 - 1.

(** An error number that several components use (include/errno.h). *)
Definition ENOMEM : Z := 12.

(** Access modes of files and message queues (include/fcntl.h). *)
Definition O_RDOK : Z := 1.
Definition O_WROK : Z := 2.

(** ** First and last element with a default, the ends of a linked segment *)

Abbreviation hdp d l := (default d (list.head l)) (only parsing).
Abbreviation lastp d l := (default d (list.last l)) (only parsing).

Create HintDb nx discriminated.

(** ** Lemmas of the result monad and of memory access *)

Lemma bind_Ok {A B} (a : A) (k : A -> res B) : (x ← Ok a; k x) = k a.
Proof. reflexivity. Qed.

Lemma deref_Some {A} (m : gmap Z A) p x : p <> NULL -> m !! p = Some x -> deref m p = Ok x.
Proof. intros Hp Hx. unfold deref. rewrite decide_False by done. by rewrite Hx. Qed.

Lemma deref_Ok {A} (m : gmap Z A) p x : deref m p = Ok x -> p <> NULL /\ m !! p = Some x.
Proof. unfold deref. case_decide; [done|]. destruct (m !! p); naive_solver. Qed.

Lemma store_valid {A} (f : A -> A) p (m : gmap Z A) :
  valid m p -> store f p m = Ok (alter f p m).
Proof. intros [Hp [x Hx]]. unfold store. rewrite decide_False by done. by rewrite Hx. Qed.

Lemma valid_alter {A} (f : A -> A) p q (m : gmap Z A) : valid m p -> valid (alter f q m) p.
Proof.
  intros [Hp [x Hx]]. split; [done|]. rewrite lookup_alter. case_decide; subst; rewrite Hx; eauto.
Qed.

Lemma valid_alter_iff {A} (f : A -> A) p q (m : gmap Z A) : valid (alter f q m) p <-> valid m p.
Proof.
  split; [|apply valid_alter]. intros [Hp [x Hx]]. split; [done|].
  rewrite lookup_alter in Hx. case_decide; subst; destruct (m !! _); naive_solver.
Qed.

Lemma valid_insert {A} (x : A) p q (m : gmap Z A) : valid m p -> valid (<[q:=x]> m) p.
Proof.
  intros [Hp Hx]. split; [done|]. rewrite lookup_insert. case_decide; eauto.
Qed.

Lemma valid_insert_eq {A} (x : A) p (m : gmap Z A) : p <> NULL -> valid (<[p:=x]> m) p.
Proof. intros Hp. split; [done|]. rewrite lookup_insert_eq. eauto. Qed.

Lemma valid_lookup {A} (m : gmap Z A) p : valid m p -> exists x, m !! p = Some x.
Proof. intros [_ H]. exact H. Qed.

Lemma valid_ne {A} (m : gmap Z A) p : valid m p -> p <> NULL.
Proof. by intros [? _]. Qed.

#[export] Hint Resolve valid_alter valid_insert valid_insert_eq valid_ne : nx.

(** ** Machine integers that do not wrap *)

Lemma u32_id z : 0 <= z < 2 ^ 32 -> u32 z = z.
Proof. apply Z.mod_small. Qed.

Lemma u16_id z : 0 <= z < 2 ^ 16 -> u16 z = z.
Proof. apply Z.mod_small. Qed.

Lemma u8_id z : 0 <= z < 2 ^ 8 -> u8 z = z.
Proof. apply Z.mod_small. Qed.

Lemma s32_id z : - 2 ^ 31 <= z <= INT_MAX -> s32 z = z.
Proof. unfold INT_MAX. intros. unfold s32. rewrite Z.mod_small by lia. lia. Qed.

Lemma s16_id z : - 32768 <= z <= 32767 -> s16 z = z.
Proof. intros. unfold s16. rewrite Z.mod_small by lia. lia. Qed.

(** ** Lemmas on the ends of a list *)

Lemma hdp_app d (l1 l2 : list Z) : hdp d (l1 ++ l2) = hdp (hdp d l2) l1.
Proof. by destruct l1. Qed.

Lemma lastp_app d (l1 l2 : list Z) : lastp d (l1 ++ l2) = lastp (lastp d l1) l2.
Proof.
  induction l2 as [|x l2 _] using rev_ind; [by rewrite app_nil_r|].
  by rewrite app_assoc, !last_snoc.
Qed.

Lemma lastp_cons d (x : Z) l : lastp d (x :: l) = lastp x l.
Proof. apply (lastp_app d [x] l). Qed.

Lemma lastp_ne (l : list Z) d d' : l <> [] -> lastp d l = lastp d' l.
Proof. destruct l as [|x l] using rev_ind; [done|]. by rewrite last_snoc. Qed.

Lemma hdp_ne (l : list Z) d d' : l <> [] -> hdp d l = hdp d' l.
Proof. by destruct l. Qed.

Lemma hdp_app_ne d (l1 l2 : list Z) : l1 <> [] -> hdp d (l1 ++ l2) = hdp d l1.
Proof. intros. rewrite hdp_app. by apply hdp_ne. Qed.

Lemma lastp_app_ne d (l1 l2 : list Z) : l2 <> [] -> lastp d (l1 ++ l2) = lastp d l2.
Proof. intros. rewrite lastp_app. by apply lastp_ne. Qed.

Lemma lastp_snoc d (l : list Z) x : lastp d (l ++ [x]) = x.
Proof. by rewrite last_snoc. Qed.

Lemma lastp_mid d (l1 l2 : list Z) x : lastp d (l1 ++ x :: l2) = lastp x l2.
Proof. by rewrite lastp_app, lastp_cons. Qed.

Lemma hdp_mid d (l1 l2 : list Z) x : hdp d (l1 ++ x :: l2) = hdp x l1.
Proof. by rewrite hdp_app. Qed.

Lemma lastp_elem d (l : list Z) : l <> [] -> lastp d l ∈ l.
Proof.
  destruct l as [|x l] using rev_ind; [done|]. intros _. rewrite last_snoc. set_solver.
Qed.

Lemma hdp_elem d (l : list Z) : l <> [] -> hdp d l ∈ l.
Proof. destruct l; [done|]. intros _. set_solver. Qed.

Lemma hdp_null (l : list Z) : NULL ∉ l -> hdp NULL l = NULL <-> l = [].
Proof. destruct l; simpl; [done|]. set_solver. Qed.

Lemma lastp_null (l : list Z) : NULL ∉ l -> lastp NULL l = NULL <-> l = [].
Proof.
  destruct l as [|x l] using rev_ind; [done|]. rewrite last_snoc. simpl. intros Hn.
  split; [|by destruct l]. intros ->. set_solver.
Qed.

(** Changing an object that is there. *)
Lemma alter_at {A} (f : A -> A) (m : gmap Z A) p x : m !! p = Some x -> alter f p m = <[p := f x]> m.
Proof. intros Hx. apply map_eq. intros q. rewrite lookup_alter, lookup_insert. case_decide; [subst; by rewrite Hx|done]. Qed.

Lemma alter_new {A} (f : A -> A) (m : gmap Z A) p x : alter f p (<[p := x]> m) = <[p := f x]> m.
Proof. by rewrite (alter_at f _ p x), insert_insert_eq by apply lookup_insert_eq. Qed.

(** ** Sums over a map *)

Section msum.
  Context {A : Type}.
  Implicit Types (f : A -> Z) (m : gmap Z A).

Definition msum f m : Z := map_fold (fun _ a acc => f a + acc) 0 m.

Lemma msum_insert f m k a : m !! k = None -> msum f (<[k := a]> m) = f a + msum f m.
Proof. intros Hk. unfold msum. rewrite map_fold_insert_L; [done|intros; lia|done]. Qed.

Lemma msum_delete f m k a : m !! k = Some a -> msum f (delete k m) = msum f m - f a.
Proof. intros Hk. rewrite <-(insert_delete_id m k a) at 2 by done. rewrite msum_insert by apply lookup_delete_eq. lia. Qed.

Lemma msum_update f m k a b : m !! k = Some a -> msum f (<[k := b]> m) = msum f m - f a + f b.
Proof.
  intros Hk. rewrite <-insert_delete_eq, msum_insert by apply lookup_delete_eq. rewrite (msum_delete f m k a) by done. lia.
Qed.

Lemma msum_alter f m k a g : m !! k = Some a -> msum f (alter g k m) = msum f m - f a + f (g a).
Proof.
  intros Hk. rewrite <-(msum_update f m k a (g a)) by done. f_equal. apply map_eq. intros k'. destruct (decide (k = k')) as [<-|Hne].
  - by rewrite lookup_alter_eq, lookup_insert_eq, Hk.
  - by rewrite lookup_alter_ne, lookup_insert_ne.
Qed.

Lemma msum_nonneg f m : (forall a, 0 <= f a) -> 0 <= msum f m.
Proof. intros Hf. unfold msum. apply (map_fold_weak_ind (fun r _ => 0 <= r)); [done|]. intros k a m' r _ Hr. specialize (Hf a). lia. Qed.

Lemma msum_ge f m k a : (forall a, 0 <= f a) -> m !! k = Some a -> f a <= msum f m.
Proof. intros Hf Hk. pose proof (msum_delete f m k a Hk). pose proof (msum_nonneg f (delete k m) Hf). lia. Qed.

Lemma msum_zero f m : (forall k a, m !! k = Some a -> f a = 0) -> msum f m = 0.
Proof.
  induction m as [|k a m Hk IH] using map_ind; [done|]. intros H. rewrite msum_insert by done. rewrite (H k a) by apply lookup_insert_eq.
  rewrite IH; [done|]. intros k' a' E. apply (H k'). rewrite lookup_insert_ne; [done|]. intros ->. congruence.
Qed.

End msum.

(** ** Total correctness of a computation and its symbolic execution *)

Section wp.
  Context {A B : Type}.
  Implicit Types (P Q : A -> Prop).

Lemma wp_ret (a : A) P : P a -> wp (Ok a) P.
Proof. done. Qed.

Lemma wp_bind (e : res B) (k : B -> res A) P :
  wp e (fun b => wp (k b) P) -> wp (mbind k e) P.
Proof. by destruct e. Qed.

Lemma wp_bind_fold (e : res B) (k : B -> res A) P :
  wp (mbind k e) P -> wp e (fun b => wp (k b) P).
Proof. by destruct e. Qed.

Lemma wp_mono (e : res A) P Q : wp e P -> (forall a, P a -> Q a) -> wp e Q.
Proof. destruct e; simpl; auto. Qed.

Lemma wp_Ok (e : res A) P : wp e P <-> exists a, e = Ok a /\ P a.
Proof. destruct e; simpl; naive_solver. Qed.

Lemma wp_store (f : A -> A) p m (P : gmap Z A -> Prop) :
  valid m p -> P (alter f p m) -> wp (store f p m) P.
Proof. intros Hv HP. by rewrite store_valid. Qed.

Lemma wp_deref (m : gmap Z A) p x P : p <> NULL -> m !! p = Some x -> P x -> wp (deref m p) P.
Proof. intros Hp Hx HP. by rewrite (deref_Some _ _ x). Qed.

Lemma wp_deref_valid (m : gmap Z A) p P :
  valid m p -> (forall x, m !! p = Some x -> P x) -> wp (deref m p) P.
Proof. intros [Hp [x Hx]] HP. apply (wp_deref _ _ x); auto. Qed.

Lemma wp_assert (b : bool) (P : unit -> Prop) : b = true -> P tt -> wp (c_assert b) P.
Proof. by intros ->. Qed.

End wp.

(** [dec_simpl] resolves the branches whose condition is decided by the
    equations and disequations of the context. *)
Ltac dec_true := first [ done | congruence | split; congruence | left; congruence | right; congruence ].
Ltac dec_false := first [ done | congruence | intros [? ?]; congruence | intros [?|?]; congruence ].
Ltac dec_simpl :=
  repeat match goal with
  | |- context [decide ?P] =>
      first [ rewrite (decide_True (P := P)) by dec_true
            | rewrite (decide_False (P := P)) by dec_false ]
  end.

(** [wp_step] executes one step of the computation in a [wp] goal: a memory
    access through a pointer known to be valid, a returned value, or a branch
    the context decides. *)
Ltac wp_step :=
  match goal with
  | |- wp (mbind _ _) _ => apply wp_bind
  | |- wp (Ok _) _ => apply wp_ret; cbn beta iota zeta
  | |- wp (mret _) _ => apply wp_ret; cbn beta iota zeta
  | |- wp (store _ _ _) _ => apply wp_store; [solve [eauto 12 with nx] | cbn beta iota zeta]
  | |- wp (deref _ _) _ =>
      eapply wp_deref; [solve [eauto 12 with nx] | solve [eauto 12 with nx] | cbn beta iota zeta]
  | |- wp (if decide ?P then _ else _) _ =>
      first [ rewrite (decide_True (P := P)) by dec_true
            | rewrite (decide_False (P := P)) by dec_false ]
  end.
Ltac wp_go := repeat wp_step.
