(* ===== verification/Queue.v ===== *)
(** * Linked queues (src/nuttx/lib/queue, src/nuttx/include/queue.h)

    The C functions cast a kernel object to [sq_entry_t] or [dq_entry_t], a
    structure whose first fields are the links.  Here an object type is given
    its links by an instance of [SLinked] or [DLinked], a memory is a finite
    map from addresses to objects, and every queue function is generic in the
    object type.  The lemmas show that the functions keep a memory in the
    shape of a list and what that list becomes; the two simulation theorems
    show that any sequence of calls behaves as the list model says. *)

From S2P Require Import Prelude.

(** ** Objects with links *)

Class SLinked (N : Type) : Type := {
  sflink : N -> ptr;
  set_sflink : ptr -> N -> N;
  sflink_set : forall p n, sflink (set_sflink p n) = p;
  set_sflink_set : forall p q n, set_sflink p (set_sflink q n) = set_sflink p n
}.

Class DLinked (N : Type) : Type := {
  flink : N -> ptr;
  blink : N -> ptr;
  set_flink : ptr -> N -> N;
  set_blink : ptr -> N -> N;
  flink_set_flink : forall p n, flink (set_flink p n) = p;
  flink_set_blink : forall p n, flink (set_blink p n) = flink n;
  blink_set_blink : forall p n, blink (set_blink p n) = p;
  blink_set_flink : forall p n, blink (set_flink p n) = blink n;
  set_flink_set_flink : forall p q n, set_flink p (set_flink q n) = set_flink p n;
  set_blink_set_blink : forall p q n, set_blink p (set_blink q n) = set_blink p n;
  set_flink_set_blink : forall p q n,
    set_flink p (set_blink q n) = set_blink q (set_flink p n)
}.

(** [struct sq_queue_s] and [struct dq_queue_s] have the same two fields. *)
Record sq_queue : Type := SqQueue { sq_head : ptr; sq_tail : ptr }.
Record dq_queue : Type := DqQueue { dq_head : ptr; dq_tail : ptr }.

(** [sq_init] and [dq_init]. *)
Definition sq_init : sq_queue := SqQueue NULL NULL.
Definition dq_init : dq_queue := DqQueue NULL NULL.

(** ** Singly linked queues *)

Section sq.
  Context {N : Type} `{SLinked N}.
  Implicit Types (m : gmap Z N) (q : sq_queue) (node prev : ptr).

Definition sq_addfirst node q m : res (sq_queue * gmap Z N) :=
  m ← store (set_sflink (sq_head q)) node m;
  let q := if decide (sq_head q = NULL) then SqQueue (sq_head q) node else q in
  Ok (SqQueue node (sq_tail q), m).

Definition sq_addlast node q m : res (sq_queue * gmap Z N) :=
  m ← store (set_sflink NULL) node m;
  if decide (sq_head q = NULL) then Ok (SqQueue node node, m)
  else
    m ← store (set_sflink node) (sq_tail q) m;
    Ok (SqQueue (sq_head q) node, m).

Definition sq_addafter prev node q m : res (sq_queue * gmap Z N) :=
  if decide (sq_head q = NULL \/ prev = sq_tail q) then sq_addlast node q m
  else
    p ← deref m prev;
    m ← store (set_sflink (sflink p)) node m;
    m ← store (set_sflink node) prev m;
    Ok (q, m).

Definition sq_remfirst q m : res (ptr * (sq_queue * gmap Z N)) :=
  let ret := sq_head q in
  if decide (ret = NULL) then Ok (ret, (q, m))
  else
    r ← deref m ret;
    let q := SqQueue (sflink r) (sq_tail q) in
    let q := if decide (sq_head q = NULL) then SqQueue (sq_head q) NULL else q in
    m ← store (set_sflink NULL) ret m;
    Ok (ret, (q, m)).

Definition sq_remafter node q m : res (ptr * (sq_queue * gmap Z N)) :=
  n ← deref m node;
  let ret := sflink n in
  if decide (sq_head q = NULL \/ ret = NULL) then Ok (ret, (q, m))
  else
    '(q, m) ←
      (if decide (sq_tail q = ret) then
         m ← store (set_sflink NULL) node m;
         Ok (SqQueue (sq_head q) node, m)
       else
         r ← deref m ret;
         m ← store (set_sflink (sflink r)) node m;
         Ok (q, m));
    m ← store (set_sflink NULL) ret m;
    Ok (ret, (q, m)).

(** [for (prev = ...; prev && prev->flink != node; prev = prev->flink);], the
    search of [sq_rem] and [sq_remlast]. *)
Fixpoint sq_findprev (fuel : nat) m prev node : res ptr :=
  match fuel with
  | O => Err FFuel
  | S fuel =>
      if decide (prev = NULL) then Ok NULL
      else
        p ← deref m prev;
        if decide (sflink p = node) then Ok prev
        else sq_findprev fuel m (sflink p) node
  end.

(** A traversal visits each object at most once. *)
Definition list_fuel m : nat := S (S (size m)).

Definition sq_rem node q m : res (sq_queue * gmap Z N) :=
  if decide (sq_head q = NULL \/ node = NULL) then Ok (q, m)
  else if decide (node = sq_head q) then
    n ← deref m node;
    let q := SqQueue (sflink n) (sq_tail q) in
    Ok (if decide (node = sq_tail q) then SqQueue (sq_head q) NULL else q, m)
  else
    prev ← sq_findprev (list_fuel m) m (sq_head q) node;
    if decide (prev = NULL) then Ok (q, m)
    else
      '(_, s) ← sq_remafter prev q m;
      Ok s.

Definition sq_remlast q m : res (ptr * (sq_queue * gmap Z N)) :=
  let ret := sq_tail q in
  if decide (ret = NULL) then Ok (ret, (q, m))
  else
    '(q, m) ←
      (if decide (sq_head q = sq_tail q) then Ok (SqQueue NULL NULL, m)
       else
         prev ← sq_findprev (list_fuel m) m (sq_head q) ret;
         if decide (prev = NULL) then Ok (q, m)
         else
           m ← store (set_sflink NULL) prev m;
           Ok (SqQueue (sq_head q) prev, m));
    m ← store (set_sflink NULL) ret m;
    Ok (ret, (q, m)).

End sq.
Arguments list_fuel : simpl never.

(** ** Doubly linked queues *)

Section dq.
  Context {N : Type} `{DLinked N}.
  Implicit Types (m : gmap Z N) (q : dq_queue) (node prev next : ptr).

Definition dq_addfirst node q m : res (dq_queue * gmap Z N) :=
  m ← store (set_blink NULL) node m;
  m ← store (set_flink (dq_head q)) node m;
  if decide (dq_head q = NULL) then Ok (DqQueue node node, m)
  else
    m ← store (set_blink node) (dq_head q) m;
    Ok (DqQueue node (dq_tail q), m).

Definition dq_addlast node q m : res (dq_queue * gmap Z N) :=
  m ← store (set_flink NULL) node m;
  m ← store (set_blink (dq_tail q)) node m;
  if decide (dq_head q = NULL) then Ok (DqQueue node node, m)
  else
    m ← store (set_flink node) (dq_tail q) m;
    Ok (DqQueue (dq_head q) node, m).

Definition dq_addafter prev node q m : res (dq_queue * gmap Z N) :=
  if decide (dq_head q = NULL \/ prev = dq_tail q) then dq_addlast node q m
  else
    p ← deref m prev;
    let next := flink p in
    m ← store (set_blink prev) node m;
    m ← store (set_flink next) node m;
    m ← store (set_blink node) next m;
    m ← store (set_flink node) prev m;
    Ok (q, m).

Definition dq_addbefore next node q m : res (dq_queue * gmap Z N) :=
  if decide (dq_head q = NULL \/ next = dq_head q) then dq_addfirst node q m
  else
    n ← deref m next;
    let prev := blink n in
    m ← store (set_flink next) node m;
    m ← store (set_blink prev) node m;
    m ← store (set_flink node) prev m;
    m ← store (set_blink node) next m;
    Ok (q, m).

Definition dq_rem node q m : res (dq_queue * gmap Z N) :=
  n ← deref m node;
  let prev := blink n in
  let next := flink n in
  '(q, m) ←
    (if decide (prev = NULL) then Ok (DqQueue next (dq_tail q), m)
     else m ← store (set_flink next) prev m; Ok (q, m));
  '(q, m) ←
    (if decide (next = NULL) then Ok (DqQueue (dq_head q) prev, m)
     else m ← store (set_blink prev) next m; Ok (q, m));
  m ← store (set_flink NULL) node m;
  m ← store (set_blink NULL) node m;
  Ok (q, m).

Definition dq_remfirst q m : res (ptr * (dq_queue * gmap Z N)) :=
  let ret := dq_head q in
  if decide (ret = NULL) then Ok (ret, (q, m))
  else
    r ← deref m ret;
    let next := flink r in
    '(q, m) ←
      (if decide (next = NULL) then Ok (DqQueue NULL NULL, m)
       else m ← store (set_blink NULL) next m; Ok (DqQueue next (dq_tail q), m));
    m ← store (set_flink NULL) ret m;
    m ← store (set_blink NULL) ret m;
    Ok (ret, (q, m)).

Definition dq_remlast q m : res (ptr * (dq_queue * gmap Z N)) :=
  let ret := dq_tail q in
  if decide (ret = NULL) then Ok (ret, (q, m))
  else
    r ← deref m ret;
    let prev := blink r in
    '(q, m) ←
      (if decide (prev = NULL) then Ok (DqQueue NULL NULL, m)
       else m ← store (set_flink NULL) prev m; Ok (DqQueue (dq_head q) prev, m));
    m ← store (set_flink NULL) ret m;
    m ← store (set_blink NULL) ret m;
    Ok (ret, (q, m)).

End dq.

(** ** The shape of a queue in memory *)

(** The objects of [l] are linked forward, the last one to [next]. *)
Fixpoint sseg {N} `{SLinked N} (m : gmap Z N) (l : list Z) (next : ptr) : Prop :=
  match l with
  | [] => True
  | x :: l => (exists n, m !! x = Some n /\ sflink n = hdp next l) /\ sseg m l next
  end.

(** The objects of [l] are linked in both directions between [prev] and [next]. *)
Fixpoint dseg {N} `{DLinked N} (m : gmap Z N) (prev : ptr) (l : list Z) (next : ptr) : Prop :=
  match l with
  | [] => True
  | x :: l =>
      (exists n, m !! x = Some n /\ flink n = hdp next l /\ blink n = prev)
      /\ dseg m x l next
  end.

Record sq_repr {N} `{SLinked N} (m : gmap Z N) (q : sq_queue) (l : list Z) : Prop := SqRepr {
  sqr_head : sq_head q = hdp NULL l;
  sqr_tail : sq_tail q = lastp NULL l;
  sqr_seg : sseg m l NULL;
  sqr_nodup : NoDup l;
  sqr_nonnull : NULL ∉ l
}.

Record dq_repr {N} `{DLinked N} (m : gmap Z N) (q : dq_queue) (l : list Z) : Prop := DqRepr {
  dqr_head : dq_head q = hdp NULL l;
  dqr_tail : dq_tail q = lastp NULL l;
  dqr_seg : dseg m NULL l NULL;
  dqr_nodup : NoDup l;
  dqr_nonnull : NULL ∉ l
}.

(** An update that changes nothing but links, and those only of objects of [s]:
    an equivalence of memories coarser than equality. *)
Definition sunlink {N} `{SLinked N} (n : N) : N := set_sflink NULL n.
Definition dunlink {N} `{DLinked N} (n : N) : N := set_flink NULL (set_blink NULL n).

Definition frame {N} (u : N -> N) (s : list Z) (m m' : gmap Z N) : Prop :=
  (forall p, p ∉ s -> m' !! p = m !! p) /\ (forall p, u <$> m' !! p = u <$> m !! p).

Section frame.
  Context {N : Type} (u : N -> N).
  Implicit Types (m : gmap Z N) (s : list Z).

Lemma frame_refl s m : frame u s m m.
Proof. by split. Qed.

Lemma frame_trans s m1 m2 m3 : frame u s m1 m2 -> frame u s m2 m3 -> frame u s m1 m3.
Proof.
  intros [A1 B1] [A2 B2]. split; intros p; [intros Hp|].
  - by rewrite A2, A1.
  - by rewrite B2, B1.
Qed.

Lemma frame_mono s s' m m' : s ⊆ s' -> frame u s m m' -> frame u s' m m'.
Proof. intros Hs [A B]. split; [|done]. intros p Hp. apply A. set_solver. Qed.

Lemma frame_alter (f : N -> N) p s m m' :
  p ∈ s -> (forall n, u (f n) = u n) -> frame u s m m' -> frame u s m (alter f p m').
Proof.
  intros Hp Hf Hm. eapply frame_trans; [done|]. split.
  - intros x Hx. rewrite lookup_alter_ne; [done|]. intros ->. done.
  - intros x. rewrite lookup_alter. case_decide; subst; [|done].
    destruct (m' !! x); simpl; by rewrite ?Hf.
Qed.

Lemma frame_valid s m m' p : frame u s m m' -> valid m p -> valid m' p.
Proof.
  intros [_ B] [Hp [x Hx]]. split; [done|]. specialize (B p). rewrite Hx in B.
  destruct (m' !! p); [eauto|done].
Qed.

Lemma frame_lookup s m m' p n :
  frame u s m m' -> m !! p = Some n -> exists n', m' !! p = Some n' /\ u n' = u n.
Proof.
  intros [_ B] Hx. specialize (B p). rewrite Hx in B.
  destruct (m' !! p) as [n'|] eqn:E; naive_solver.
Qed.

Lemma frame_lookup_inv s m m' p n :
  frame u s m m' -> m' !! p = Some n -> exists n', m !! p = Some n' /\ u n' = u n.
Proof.
  intros [_ B] Hx. specialize (B p). rewrite Hx in B.
  destruct (m !! p) as [n'|] eqn:E; naive_solver.
Qed.

End frame.

(** ** Doubly linked segments *)

Section dseg_lemmas.
  Context {N : Type} `{DLinked N}.
  Implicit Types (m : gmap Z N) (l : list Z).

Lemma dseg_app m p l1 l2 n :
  dseg m p (l1 ++ l2) n <-> dseg m p l1 (hdp n l2) /\ dseg m (lastp p l1) l2 n.
Proof.
  revert p. induction l1 as [|x l1 IH]; intros p; [simpl; naive_solver|].
  rewrite lastp_cons. cbn [app dseg]. rewrite IH, hdp_app. naive_solver.
Qed.

Lemma dseg_ext m m' p l n :
  (forall x, x ∈ l -> m' !! x = m !! x) -> dseg m p l n -> dseg m' p l n.
Proof.
  revert p. induction l as [|x l IH]; intros p Hm; [done|].
  intros [(k & Hk & ?) ?]. split.
  - exists k. rewrite Hm; [done|set_solver].
  - apply IH; [|done]. intros; apply Hm; set_solver.
Qed.

Lemma dseg_frame u s m m' p l n :
  frame u s m m' -> (forall x, x ∈ s -> x ∉ l) -> dseg m p l n -> dseg m' p l n.
Proof. intros [A _] Hs. apply dseg_ext. intros x Hx. apply A. intros Hc. by apply (Hs x). Qed.

Lemma dseg_alter_ne m f x p l n : x ∉ l -> dseg m p l n -> dseg (alter f x m) p l n.
Proof.
  intros Hx. apply dseg_ext. intros y Hy. rewrite lookup_alter_ne; [done|]. by intros ->.
Qed.

(** Redirecting the back link of the first object. *)
Lemma dseg_set_blink m p p' x l n :
  x ∉ l -> dseg m p (x :: l) n -> dseg (alter (set_blink p') x m) p' (x :: l) n.
Proof.
  intros Hx [(k & Hk & Hf & Hb) Hs]. split; [|by apply dseg_alter_ne].
  exists (set_blink p' k). rewrite lookup_alter_eq, Hk. simpl.
  by rewrite flink_set_blink, blink_set_blink.
Qed.

(** Redirecting the forward link of the last object. *)
Lemma dseg_set_flink m p x l n n' :
  x ∉ l -> dseg m p (l ++ [x]) n -> dseg (alter (set_flink n') x m) p (l ++ [x]) n'.
Proof.
  intros Hx. rewrite !dseg_app. simpl. intros [Hl [(k & Hk & Hf & Hb) _]].
  split; [by apply dseg_alter_ne|]. split; [|done].
  exists (set_flink n' k). rewrite lookup_alter_eq, Hk. simpl.
  by rewrite flink_set_flink, blink_set_flink.
Qed.

(** A lone object whose two links have just been written. *)
Lemma dseg_one m p x n k :
  m !! x = Some k -> flink k = n -> blink k = p -> dseg m p [x] n.
Proof. intros. split; [|done]. simpl. eauto. Qed.

Lemma dseg_lookup m p l1 x l2 n :
  dseg m p (l1 ++ x :: l2) n ->
  exists k, m !! x = Some k /\ flink k = hdp n l2 /\ blink k = lastp p l1.
Proof. rewrite dseg_app. intros [_ [? _]]. done. Qed.

Lemma dseg_valid m p l n x : NULL ∉ l -> dseg m p l n -> x ∈ l -> valid m x.
Proof.
  intros H0 Hd Hx. apply list_elem_of_split in Hx as (l1 & l2 & ->).
  apply dseg_lookup in Hd as (k & Hk & _). split; [set_solver|eauto].
Qed.

Lemma dunlink_flink p n : dunlink (set_flink p n) = dunlink n.
Proof. unfold dunlink. by rewrite <- set_flink_set_blink, set_flink_set_flink. Qed.

Lemma dunlink_blink p n : dunlink (set_blink p n) = dunlink n.
Proof. unfold dunlink. by rewrite set_blink_set_blink. Qed.

Lemma frame_set_flink s m m' x p :
  x ∈ s -> frame dunlink s m m' -> frame dunlink s m (alter (set_flink p) x m').
Proof. intros Hx. apply frame_alter; [done|]. intros. apply dunlink_flink. Qed.

Lemma frame_set_blink s m m' x p :
  x ∈ s -> frame dunlink s m m' -> frame dunlink s m (alter (set_blink p) x m').
Proof. intros Hx. apply frame_alter; [done|]. intros. apply dunlink_blink. Qed.

Lemma dq_repr_valid m q l x : dq_repr m q l -> x ∈ l -> valid m x.
Proof. intros [_ _ Hs _ H0]. by apply (dseg_valid m NULL l NULL). Qed.

Lemma dq_repr_frame u s m m' q l :
  frame u s m m' -> (forall x, x ∈ s -> x ∉ l) -> dq_repr m q l -> dq_repr m' q l.
Proof. intros Hf Hs []. split; [done..| |done|done]. by eapply dseg_frame. Qed.

Lemma dq_repr_nil m : dq_repr m dq_init [].
Proof. split; [done|done|done|constructor|set_solver]. Qed.

End dseg_lemmas.

(** ** Inserting and removing one object

    Every function that links an object into a doubly linked list writes the
    same four links, in some order; [spliced] describes the resulting memory
    and [unspliced] the one after a removal. *)

Definition spliced {N} `{DLinked N} (m m' : gmap Z N) (a x b : ptr) : Prop :=
  forall y, m' !! y =
    if decide (y = x) then (fun n => set_flink b (set_blink a n)) <$> m !! y
    else if decide (a <> NULL /\ y = a) then set_flink x <$> m !! y
    else if decide (b <> NULL /\ y = b) then set_blink x <$> m !! y
    else m !! y.

(** The neighbours [a] and [b] of [x] are linked to each other. *)
Definition bypassed {N} `{DLinked N} (m m' : gmap Z N) (a x b : ptr) : Prop :=
  forall y, y <> x -> m' !! y =
    if decide (a <> NULL /\ y = a) then set_flink b <$> m !! y
    else if decide (b <> NULL /\ y = b) then set_blink a <$> m !! y
    else m !! y.

Definition unspliced {N} `{DLinked N} (m m' : gmap Z N) (a x b : ptr) : Prop :=
  forall y, m' !! y =
    if decide (y = x) then dunlink <$> m !! y
    else if decide (a <> NULL /\ y = a) then set_flink b <$> m !! y
    else if decide (b <> NULL /\ y = b) then set_blink a <$> m !! y
    else m !! y.

Section splice.
  Context {N : Type} `{DLinked N}.
  Implicit Types (m : gmap Z N) (q : dq_queue) (l : list Z).

Lemma unspliced_bypassed m m' a x b : unspliced m m' a x b -> bypassed m m' a x b.
Proof. intros Hu y Hy. by rewrite (Hu y), decide_False. Qed.

Lemma dunlink_idem n : dunlink (dunlink n) = dunlink n.
Proof. unfold dunlink at 2. by rewrite dunlink_flink, dunlink_blink. Qed.

Lemma spliced_ext m m1 m2 a x b :
  spliced m m1 a x b -> (forall y, m2 !! y = m1 !! y) -> spliced m m2 a x b.
Proof. intros Hs He y. by rewrite He, Hs. Qed.

Lemma spliced_frame m m' a x b s :
  (a <> NULL -> a ∈ s) -> (b <> NULL -> b ∈ s) -> x ∈ s ->
  spliced m m' a x b -> frame dunlink s m m'.
Proof.
  intros Ha Hb Hx Hs. split; intros y; [intros Hy|]; rewrite (Hs y).
  - repeat case_decide; naive_solver.
  - repeat case_decide; destruct (m !! y); simpl; try done;
      by rewrite ?dunlink_flink, ?dunlink_blink.
Qed.

Lemma unspliced_frame m m' a x b s :
  (a <> NULL -> a ∈ s) -> (b <> NULL -> b ∈ s) -> x ∈ s ->
  unspliced m m' a x b -> frame dunlink s m m'.
Proof.
  intros Ha Hb Hx Hs. split; intros y; [intros Hy|]; rewrite (Hs y).
  - repeat case_decide; naive_solver.
  - repeat case_decide; destruct (m !! y); simpl; try done;
      by rewrite ?dunlink_idem, ?dunlink_flink, ?dunlink_blink.
Qed.

(** The left part of a segment after its last forward link was redirected to
    [c], and the right part after its first back link was. *)
Lemma dseg_redirect_l m m' p l n c :
  NoDup l -> dseg m p l n ->
  (forall y, y ∈ l -> m' !! y = if decide (y = lastp NULL l) then set_flink c <$> m !! y else m !! y) ->
  dseg m' p l c.
Proof.
  intros Hd Hs Hm. destruct l as [|t l _] using rev_ind; [done|].
  apply NoDup_app in Hd as (_ & Hd & _). rewrite last_snoc in Hm. simpl in Hm.
  apply (dseg_ext (alter (set_flink c) t m)).
  - intros y Hy. rewrite (Hm y Hy), lookup_alter. repeat case_decide; congruence.
  - eapply dseg_set_flink; [set_solver|done].
Qed.

Lemma dseg_redirect_r m m' p l n c :
  NoDup l -> dseg m p l n ->
  (forall y, y ∈ l -> m' !! y = if decide (y = hdp NULL l) then set_blink c <$> m !! y else m !! y) ->
  dseg m' c l n.
Proof.
  intros Hd Hs Hm. destruct l as [|t l]; [done|]. apply NoDup_cons in Hd as [Hd _].
  apply (dseg_ext (alter (set_blink c) t m)).
  - intros y Hy. rewrite (Hm y Hy), lookup_alter. simpl. repeat case_decide; congruence.
  - by eapply dseg_set_blink.
Qed.

Lemma dseg_splice m m' l1 x l2 :
  dseg m NULL (l1 ++ l2) NULL -> NoDup (l1 ++ l2) -> NULL ∉ l1 ++ l2 ->
  valid m x -> x ∉ l1 ++ l2 ->
  spliced m m' (lastp NULL l1) x (hdp NULL l2) ->
  dseg m' NULL (l1 ++ x :: l2) NULL.
Proof.
  rewrite !dseg_app. intros [Hs1 Hs2] (Hd1 & Hd & Hd2)%NoDup_app H0 [_ [k Hk]] Hx Hs.
  assert (forall y, y ∈ l1 -> y ∈ l2 -> False) as Hdisj by set_solver.
  pose proof (lastp_elem NULL l1) as Hla. pose proof (hdp_elem NULL l2) as Hhd.
  split; [|split]; simpl.
  - eapply dseg_redirect_l; [done..|]. intros y Hy. rewrite (Hs y).
    rewrite decide_False by set_solver.
    destruct (decide (y = _)) as [->|].
    + rewrite decide_True; [done|]. split; [|done]. intros E. rewrite E in Hy. set_solver.
    + rewrite !decide_False; [done| |tauto]. intros [? ->]. apply (Hdisj (hdp NULL l2)); [done|].
      apply Hhd. by intros ->.
  - exists (set_flink (hdp NULL l2) (set_blink (lastp NULL l1) k)).
    rewrite (Hs x), decide_True, Hk by done. simpl.
    by rewrite flink_set_flink, blink_set_flink, blink_set_blink.
  - eapply dseg_redirect_r; [done..|]. intros y Hy. rewrite (Hs y).
    rewrite decide_False by set_solver.
    rewrite decide_False.
    + destruct (decide (y = _)) as [->|].
      * rewrite decide_True; [done|]. split; [|done]. intros E. rewrite E in Hy. set_solver.
      * rewrite decide_False; [done|tauto].
    + intros [? ->]. apply (Hdisj (lastp NULL l1)); [|done]. apply Hla. by intros ->.
Qed.

Lemma dseg_unsplice m m' l1 x l2 :
  dseg m NULL (l1 ++ x :: l2) NULL -> NoDup (l1 ++ x :: l2) -> NULL ∉ l1 ++ x :: l2 ->
  bypassed m m' (lastp NULL l1) x (hdp NULL l2) ->
  dseg m' NULL (l1 ++ l2) NULL.
Proof.
  rewrite !dseg_app. intros [Hs1 [_ Hs2]] (Hd1 & Hd & Hd2)%NoDup_app H0 Hs.
  apply NoDup_cons in Hd2 as [Hx2 Hd2].
  assert (forall y, y ∈ l1 -> y ∈ l2 -> False) as Hdisj by set_solver.
  assert (x ∉ l1) as Hx1 by set_solver.
  pose proof (lastp_elem NULL l1) as Hla. pose proof (hdp_elem NULL l2) as Hhd.
  split.
  - eapply dseg_redirect_l; [done..|]. intros y Hy. rewrite (Hs y) by set_solver.
    destruct (decide (y = _)) as [->|].
    + rewrite decide_True; [done|]. split; [|done]. intros E. rewrite E in Hy. set_solver.
    + rewrite !decide_False; [done| |tauto]. intros [? ->]. apply (Hdisj (hdp NULL l2)); [done|].
      apply Hhd. by intros ->.
  - eapply dseg_redirect_r; [done..|]. intros y Hy. rewrite (Hs y) by set_solver.
    rewrite decide_False.
    + destruct (decide (y = _)) as [->|].
      * rewrite decide_True; [done|]. split; [|done]. intros E. rewrite E in Hy. set_solver.
      * rewrite decide_False; [done|tauto].
    + intros [? ->]. apply (Hdisj (lastp NULL l1)); [|done]. apply Hla. by intros ->.
Qed.

Lemma dq_splice m m' q q' l l1 x l2 :
  dq_repr m q l -> valid m x -> x ∉ l -> l = l1 ++ l2 ->
  q' = DqQueue (hdp NULL (l1 ++ x :: l2)) (lastp NULL (l1 ++ x :: l2)) ->
  spliced m m' (lastp NULL l1) x (hdp NULL l2) ->
  dq_repr m' q' (l1 ++ x :: l2) /\ frame dunlink (x :: l) m m'.
Proof.
  intros [Hh Ht Hs Hd H0] Hv Hx -> -> Hsp. split.
  - split; [done|done|by eapply dseg_splice| |].
    + apply NoDup_app in Hd as (? & ? & ?). apply NoDup_app.
      split; [done|]. split; [set_solver|]. constructor; [set_solver|done].
    + apply valid_ne in Hv. set_solver.
  - eapply (spliced_frame _ _ _ x _ (x :: l1 ++ l2)); [| |set_solver|done]; intros E.
    + assert (lastp NULL l1 ∈ l1); [|set_solver]. apply lastp_elem. by intros ->.
    + assert (hdp NULL l2 ∈ l2); [|set_solver]. apply hdp_elem. by intros ->.
Qed.

Lemma dq_unsplice m m' q q' l l1 x l2 :
  dq_repr m q l -> l = l1 ++ x :: l2 ->
  q' = DqQueue (hdp NULL (l1 ++ l2)) (lastp NULL (l1 ++ l2)) ->
  unspliced m m' (lastp NULL l1) x (hdp NULL l2) ->
  dq_repr m' q' (l1 ++ l2) /\ frame dunlink l m m'.
Proof.
  intros [Hh Ht Hs Hd H0] -> -> Hsp. split.
  - split; [done|done|by eapply (dseg_unsplice _ _ _ x), unspliced_bypassed| |set_solver].
    apply NoDup_app in Hd as (? & ? & [??]%NoDup_cons). apply NoDup_app. set_solver.
  - eapply (unspliced_frame _ _ _ x); [| |set_solver|done]; intros E.
    + assert (lastp NULL l1 ∈ l1); [|set_solver]. apply lastp_elem. by intros ->.
    + assert (hdp NULL l2 ∈ l2); [|set_solver]. apply hdp_elem. by intros ->.
Qed.

End splice.

(** [solve_splice] proves that a chain of link updates has the effect
    [spliced] or [unspliced] describes, by cases on the object looked up. *)
Ltac solve_splice x a b :=
  let y := fresh "y" in
  intros y; rewrite ?lookup_alter;
  destruct (decide (y = x)) as [->|]; [|destruct (decide (y = a)) as [->|];
    [|destruct (decide (y = b)) as [->|]]];
  dec_simpl;
  match goal with
  | |- context [?m !! ?z] => destruct (m !! z); simpl
  end;
  unfold dunlink; rewrite ?set_flink_set_blink, ?set_flink_set_flink, ?set_blink_set_blink;
  try done.

(** ** The doubly linked operations on the represented list *)

Section dq_specs.
  Context {N : Type} `{DLinked N}.
  Implicit Types (m : gmap Z N) (q : dq_queue) (l : list Z).

(** The two neighbours of a place in a queue: each is null exactly at an end
    of the queue and is a live object of the queue otherwise. *)
Lemma dq_repr_split m q l1 l2 :
  dq_repr m q (l1 ++ l2) ->
  (lastp NULL l1 = NULL <-> l1 = []) /\ (hdp NULL l2 = NULL <-> l2 = [])
  /\ (l1 <> [] -> valid m (lastp NULL l1) /\ lastp NULL l1 ∈ l1)
  /\ (l2 <> [] -> valid m (hdp NULL l2) /\ hdp NULL l2 ∈ l2).
Proof.
  intros Hq. pose proof Hq as [_ _ _ _ H0]. split; [apply lastp_null; set_solver|].
  split; [apply hdp_null; set_solver|].
  split; intros Hl; (split; [eapply dq_repr_valid; [done|]|]).
  - pose proof (lastp_elem NULL l1 Hl). set_solver.
  - by apply lastp_elem.
  - pose proof (hdp_elem NULL l2 Hl). set_solver.
  - by apply hdp_elem.
Qed.

Lemma dq_addlast_spec m q l node :
  dq_repr m q l -> valid m node -> node ∉ l ->
  wp (dq_addlast node q m) (fun '(q', m') =>
    dq_repr m' q' (l ++ [node]) /\ frame dunlink (node :: l) m m').
Proof.
  intros Hq Hv Hn. pose proof Hq as [Hh Ht _ _ H0]. pose proof (valid_ne _ _ Hv).
  destruct (dq_repr_split m q l []) as (Hl0 & _ & Hval & _); [by rewrite app_nil_r|].
  unfold dq_addlast. rewrite Hh, Ht.
  destruct (decide (l = [])) as [->|Hl]; simpl.
  - wp_go. apply (dq_splice _ _ q _ [] [] node []); try done. solve_splice node NULL NULL.
  - destruct (Hval Hl) as [Hvl Hil]. pose proof (valid_ne _ _ Hvl).
    assert (node <> lastp NULL l) by (intros E; by rewrite E in Hn).
    assert (hdp NULL l <> NULL) by (by rewrite hdp_null).
    wp_go. apply (dq_splice _ _ q _ l l node []); try done; [by rewrite app_nil_r| |].
    + by rewrite hdp_app_ne, lastp_snoc.
    + solve_splice node (lastp NULL l) NULL.
Qed.

Lemma dq_addfirst_spec m q l node :
  dq_repr m q l -> valid m node -> node ∉ l ->
  wp (dq_addfirst node q m) (fun '(q', m') =>
    dq_repr m' q' (node :: l) /\ frame dunlink (node :: l) m m').
Proof.
  intros Hq Hv Hn. pose proof Hq as [Hh Ht _ _ H0]. pose proof (valid_ne _ _ Hv).
  destruct (dq_repr_split m q [] l Hq) as (_ & Hl0 & _ & Hval).
  unfold dq_addfirst. rewrite Hh, Ht.
  destruct (decide (l = [])) as [->|Hl]; simpl.
  - wp_go. apply (dq_splice _ _ q _ [] [] node []); try done. solve_splice node NULL NULL.
  - destruct (Hval Hl) as [Hvl Hil]. pose proof (valid_ne _ _ Hvl).
    assert (node <> hdp NULL l) by (intros E; by rewrite E in Hn).
    wp_go. apply (dq_splice _ _ q _ l [] node l); try done.
    + simpl. by rewrite lastp_cons, (lastp_ne l node NULL).
    + solve_splice node NULL (hdp NULL l).
Qed.

Lemma dq_addafter_spec m q l1 prev l2 node :
  dq_repr m q (l1 ++ prev :: l2) -> valid m node -> node ∉ l1 ++ prev :: l2 ->
  wp (dq_addafter prev node q m) (fun '(q', m') =>
    dq_repr m' q' (l1 ++ prev :: node :: l2)
    /\ frame dunlink (node :: l1 ++ prev :: l2) m m').
Proof.
  intros Hq Hv Hn. pose proof Hq as [Hh Ht Hs Hd H0]. rewrite hdp_mid in Hh. rewrite lastp_mid in Ht.
  pose proof (valid_ne _ _ Hv).
  assert (hdp prev l1 <> NULL) by (destruct l1; set_solver).
  assert (valid m prev) as Hvp by (eapply dq_repr_valid; [done|set_solver]).
  pose proof (valid_ne _ _ Hvp).
  apply NoDup_app in Hd as (_ & _ & [Hd _]%NoDup_cons).
  unfold dq_addafter. rewrite Hh, Ht.
  destruct (decide (l2 = [])) as [->|Hl].
  - rewrite decide_True by (by right).
    replace (l1 ++ [prev; node]) with ((l1 ++ [prev]) ++ [node]) by (by rewrite <- app_assoc).
    by apply dq_addlast_spec.
  - assert (hdp NULL l2 ∈ l2) as Hin by (by apply hdp_elem).
    assert (lastp prev l2 ∈ l2) as Hlast by (by apply lastp_elem).
    assert (valid m (hdp NULL l2)) as Hvn by (eapply dq_repr_valid; [done|set_solver]).
    pose proof (valid_ne _ _ Hvn).
    assert (prev <> lastp prev l2) by (intros E; by rewrite <- E in Hlast).
    apply dseg_lookup in Hs as (k & Hk & Hf & _). wp_step. wp_step. wp_step. rewrite Hf.
    assert (node <> prev) by set_solver.
    assert (node <> hdp NULL l2) by (intros E; rewrite <- E in Hin; set_solver).
    assert (prev <> hdp NULL l2) by (intros E; by rewrite <- E in Hin).
    wp_go. rewrite (cons_middle prev), app_assoc.
    apply (dq_splice _ _ q _ _ (l1 ++ [prev]) node l2); try done; [by rewrite <- app_assoc| |].
    + rewrite hdp_app_ne, hdp_mid, lastp_mid, (lastp_ne l2 node prev) by (by destruct l1).
      destruct q; simpl in *; congruence.
    + rewrite lastp_snoc. solve_splice node prev (hdp NULL l2).
Qed.

Lemma dq_addbefore_spec m q l1 next l2 node :
  dq_repr m q (l1 ++ next :: l2) -> valid m node -> node ∉ l1 ++ next :: l2 ->
  wp (dq_addbefore next node q m) (fun '(q', m') =>
    dq_repr m' q' (l1 ++ node :: next :: l2)
    /\ frame dunlink (node :: l1 ++ next :: l2) m m').
Proof.
  intros Hq Hv Hn. pose proof Hq as [Hh Ht Hs Hd H0]. rewrite hdp_mid in Hh. rewrite lastp_mid in Ht.
  pose proof (valid_ne _ _ Hv).
  assert (hdp next l1 <> NULL) by (destruct l1; set_solver).
  assert (valid m next) as Hvp by (eapply dq_repr_valid; [done|set_solver]).
  pose proof (valid_ne _ _ Hvp).
  assert (next ∉ l1) by (apply NoDup_app in Hd as (_ & Hd & _); set_solver).
  unfold dq_addbefore. rewrite Hh.
  destruct (decide (l1 = [])) as [->|Hl].
  - rewrite decide_True by (by right). by apply dq_addfirst_spec.
  - assert (lastp NULL l1 ∈ l1) as Hin by (by apply lastp_elem).
    assert (hdp next l1 ∈ l1) as Hfst by (by apply hdp_elem).
    assert (valid m (lastp NULL l1)) as Hvn by (eapply dq_repr_valid; [done|set_solver]).
    pose proof (valid_ne _ _ Hvn).
    assert (next <> hdp next l1) by (intros E; by rewrite <- E in Hfst).
    apply dseg_lookup in Hs as (k & Hk & _ & Hb). wp_step. wp_step. wp_step. rewrite Hb.
    assert (node <> next) by set_solver.
    assert (node <> lastp NULL l1) by (intros E; rewrite <- E in Hin; set_solver).
    assert (next <> lastp NULL l1) by (intros E; by rewrite <- E in Hin).
    wp_go. apply (dq_splice _ _ q _ _ l1 node (next :: l2)); try done.
    + rewrite hdp_mid, lastp_mid, lastp_cons, (hdp_ne l1 node next) by done.
      destruct q; simpl in *; congruence.
    + simpl. solve_splice node (lastp NULL l1) next.
Qed.

Lemma dq_rem_spec m q l1 node l2 :
  dq_repr m q (l1 ++ node :: l2) ->
  wp (dq_rem node q m) (fun '(q', m') =>
    dq_repr m' q' (l1 ++ l2) /\ frame dunlink (l1 ++ node :: l2) m m').
Proof.
  intros Hq. pose proof Hq as [Hh Ht Hs Hd H0]. rewrite hdp_mid in Hh. rewrite lastp_mid in Ht.
  assert (valid m node) as Hv by (eapply dq_repr_valid; [done|set_solver]).
  pose proof (valid_ne _ _ Hv).
  apply NoDup_app in Hd as (_ & Hd1 & [Hd2 _]%NoDup_cons).
  assert (node ∉ l1) as Hd1' by set_solver.
  assert (l1 <> [] -> valid m (lastp NULL l1) /\ lastp NULL l1 <> node /\ lastp NULL l1 ∈ l1) as Hl1.
  { intros Hl. pose proof (lastp_elem NULL l1 Hl) as Hi.
    split; [eapply dq_repr_valid; [done|set_solver]|]. split; [|done]. intros E. by rewrite E in Hi. }
  assert (l2 <> [] -> valid m (hdp NULL l2) /\ hdp NULL l2 <> node /\ hdp NULL l2 ∈ l2) as Hl2.
  { intros Hl. pose proof (hdp_elem NULL l2 Hl) as Hi.
    split; [eapply dq_repr_valid; [done|set_solver]|]. split; [|done]. intros E. by rewrite E in Hi. }
  apply dseg_lookup in Hs as (k & Hk & Hf & Hb).
  unfold dq_rem. do 2 wp_step. rewrite Hf, Hb.
  destruct (decide (l1 = [])) as [->|Hn1]; [|destruct (Hl1 Hn1) as (Hv1 & ? & ?); pose proof (valid_ne _ _ Hv1)];
    (destruct (decide (l2 = [])) as [->|Hn2]; [|destruct (Hl2 Hn2) as (Hv2 & ? & ?); pose proof (valid_ne _ _ Hv2)]);
    wp_go.
  - apply (dq_unsplice _ _ q _ _ [] node []); try done. solve_splice node NULL NULL.
  - apply (dq_unsplice _ _ q _ _ [] node l2); try done.
    + simpl. rewrite Ht, (lastp_ne l2 node NULL) by done. done.
    + solve_splice node NULL (hdp NULL l2).
  - apply (dq_unsplice _ _ q _ _ l1 node []); try done.
    + rewrite app_nil_r, Hh, (hdp_ne l1 node NULL) by done. done.
    + solve_splice node (lastp NULL l1) NULL.
  - apply (dq_unsplice _ _ q _ _ l1 node l2); try done.
    + rewrite hdp_app_ne, lastp_app_ne, (hdp_ne l1 NULL node), (lastp_ne l2 NULL node) by done.
      destruct q; simpl in *; congruence.
    + assert (lastp NULL l1 <> hdp NULL l2).
      { intros E. apply (Hd1 (lastp NULL l1)); [done|]. rewrite E. by constructor. }
      solve_splice node (lastp NULL l1) (hdp NULL l2).
Qed.

(** Removing an end of the queue is removing that object, so the two
    specialised functions agree with [dq_rem]. *)
Lemma dq_remfirst_spec m q l :
  dq_repr m q l ->
  wp (dq_remfirst q m) (fun '(ret, (q', m')) =>
    ret = hdp NULL l /\ dq_repr m' q' (tail l) /\ frame dunlink l m m').
Proof.
  intros Hq. pose proof Hq as [Hh Ht Hs Hd H0]. unfold dq_remfirst. rewrite Hh.
  destruct l as [|x l]; simpl.
  { wp_go. split; [done|]. split; [done|apply frame_refl]. }
  assert (valid m x) as Hv by (eapply dq_repr_valid; [done|set_solver]).
  pose proof (valid_ne _ _ Hv). apply NoDup_cons in Hd as [Hd _].
  destruct (dseg_lookup m NULL [] x l NULL Hs) as (k & Hk & Hf & Hb). do 3 wp_step. rewrite Hf.
  destruct (decide (l = [])) as [->|Hl].
  - wp_go. split; [done|]. apply (dq_unsplice _ _ q _ _ [] x []); try done.
    solve_splice x NULL NULL.
  - pose proof (hdp_elem NULL l Hl) as Hi.
    assert (valid m (hdp NULL l)) as Hv2 by (eapply dq_repr_valid; [done|set_solver]).
    pose proof (valid_ne _ _ Hv2). assert (hdp NULL l <> x) by (intros E; by rewrite E in Hi).
    wp_go. split; [done|]. apply (dq_unsplice _ _ q _ _ [] x l); try done.
    + simpl. by rewrite Ht, lastp_cons, (lastp_ne l x NULL).
    + solve_splice x NULL (hdp NULL l).
Qed.

Lemma dq_remlast_spec m q l x :
  dq_repr m q (l ++ [x]) ->
  wp (dq_remlast q m) (fun '(ret, (q', m')) =>
    ret = x /\ dq_repr m' q' l /\ frame dunlink (l ++ [x]) m m').
Proof.
  intros Hq. pose proof Hq as [Hh Ht Hs Hd H0]. unfold dq_remlast. rewrite Ht, lastp_snoc.
  assert (valid m x) as Hv by (eapply dq_repr_valid; [done|set_solver]).
  pose proof (valid_ne _ _ Hv). apply NoDup_app in Hd as (_ & Hd & _).
  assert (x ∉ l) as Hx by set_solver.
  apply dseg_lookup in Hs as (k & Hk & Hf & Hb). cbn beta zeta. do 3 wp_step. rewrite Hb.
  destruct (decide (l = [])) as [->|Hl].
  - wp_go. split; [done|]. apply (dq_unsplice _ _ q _ _ [] x []); try done.
    solve_splice x NULL NULL.
  - pose proof (lastp_elem NULL l Hl) as Hi.
    assert (valid m (lastp NULL l)) as Hv2 by (eapply dq_repr_valid; [done|set_solver]).
    pose proof (valid_ne _ _ Hv2). assert (lastp NULL l <> x) by (intros E; by rewrite E in Hi).
    wp_go. split; [done|].
    match goal with |- dq_repr ?m' ?q' _ /\ ?F => cut (dq_repr m' q' (l ++ []) /\ F); [by rewrite app_nil_r|] end.
    apply (dq_unsplice _ _ q _ _ l x []); try done.
    + by rewrite app_nil_r, Hh, hdp_app_ne.
    + solve_splice x (lastp NULL l) NULL.
Qed.

Lemma dq_remlast_nil m q :
  dq_repr m q [] -> dq_remlast q m = Ok (NULL, (q, m)).
Proof. intros [_ Ht _ _ _]. unfold dq_remlast. by rewrite Ht. Qed.

End dq_specs.

(** ** Singly linked segments *)

Section sseg_lemmas.
  Context {N : Type} `{SLinked N}.
  Implicit Types (m : gmap Z N) (q : sq_queue) (l : list Z).

Lemma sseg_app m l1 l2 n : sseg m (l1 ++ l2) n <-> sseg m l1 (hdp n l2) /\ sseg m l2 n.
Proof.
  induction l1 as [|x l1 IH]; [simpl; naive_solver|].
  cbn [app sseg]. rewrite IH, hdp_app. naive_solver.
Qed.

Lemma sseg_ext m m' l n :
  (forall x, x ∈ l -> m' !! x = m !! x) -> sseg m l n -> sseg m' l n.
Proof.
  induction l as [|x l IH]; intros Hm; [done|]. intros [(k & Hk & ?) ?]. split.
  - exists k. rewrite Hm; [done|set_solver].
  - apply IH; [|done]. intros; apply Hm; set_solver.
Qed.

Lemma sseg_alter_ne m f x l n : x ∉ l -> sseg m l n -> sseg (alter f x m) l n.
Proof.
  intros Hx. apply sseg_ext. intros y Hy. rewrite lookup_alter_ne; [done|]. by intros ->.
Qed.

Lemma sseg_set m l x n' :
  x ∉ l -> sseg m l x -> is_Some (m !! x) -> sseg (alter (set_sflink n') x m) (l ++ [x]) n'.
Proof.
  intros Hx Hl [k Hk]. rewrite sseg_app. split; [by apply sseg_alter_ne|]. split; [|done].
  exists (set_sflink n' k). rewrite lookup_alter_eq, Hk. simpl. by rewrite sflink_set.
Qed.

Lemma sseg_lookup m l1 x l2 n :
  sseg m (l1 ++ x :: l2) n -> exists k, m !! x = Some k /\ sflink k = hdp n l2.
Proof. rewrite sseg_app. intros [_ [? _]]. done. Qed.

Lemma sq_repr_valid m q l x : sq_repr m q l -> x ∈ l -> valid m x.
Proof.
  intros [_ _ Hs _ H0] Hx. apply list_elem_of_split in Hx as (l1 & l2 & ->).
  apply sseg_lookup in Hs as (k & Hk & _). split; [set_solver|eauto].
Qed.

Lemma sq_repr_frame u s m m' q l :
  frame u s m m' -> (forall x, x ∈ s -> x ∉ l) -> sq_repr m q l -> sq_repr m' q l.
Proof.
  intros [A _] Hs []. split; [done..| |done|done]. eapply sseg_ext; [|done].
  intros x Hx. apply A. intros Hc. by apply (Hs x).
Qed.

Lemma sq_repr_nil m : sq_repr m sq_init [].
Proof. split; [done|done|done|constructor|set_solver]. Qed.

Lemma sq_repr_length m q l : sq_repr m q l -> (length l <= size m)%nat.
Proof.
  intros Hq. rewrite <- (size_list_to_set (C := gset Z)) by (by destruct Hq).
  rewrite <- size_dom. apply subseteq_size. intros x Hx.
  apply elem_of_list_to_set in Hx. apply elem_of_dom. by eapply sq_repr_valid.
Qed.

Lemma frame_set_sflink s m m' x p :
  x ∈ s -> frame sunlink s m m' -> frame sunlink s m (alter (set_sflink p) x m').
Proof. intros Hx. apply frame_alter; [done|]. intros. apply set_sflink_set. Qed.

(** The three link updates the operations perform: a new first object, a
    redirected predecessor, and an object cut loose. *)
Lemma sq_repr_link m q q' l1 x l2 p :
  sq_repr m q (l1 ++ l2) -> valid m x -> x ∉ l1 ++ l2 -> p = lastp NULL l1 ->
  q' = SqQueue (hdp NULL (l1 ++ x :: l2)) (lastp NULL (l1 ++ x :: l2)) ->
  sq_repr (let m := alter (set_sflink (hdp NULL l2)) x m in
           if decide (l1 = []) then m else alter (set_sflink x) p m) q' (l1 ++ x :: l2).
Proof.
  intros [Hh Ht Hs Hd H0] Hv Hx -> ->. split; [done|done| | |].
  2:{ apply NoDup_app in Hd as (? & ? & ?). apply NoDup_app.
      split; [done|]. split; [set_solver|]. constructor; [set_solver|done]. }
  2:{ apply valid_ne in Hv. set_solver. }
  apply sseg_app in Hs as [Hs1 Hs2]. simpl.
  assert (sseg (alter (set_sflink (hdp NULL l2)) x m) (x :: l2) NULL) as Hx2.
  { destruct Hv as [_ [k Hk]]. split; [|apply sseg_alter_ne; [set_solver|done]].
    exists (set_sflink (hdp NULL l2) k). rewrite lookup_alter_eq, Hk. simpl. by rewrite sflink_set. }
  destruct l1 as [|t l1 _] using rev_ind; [by rewrite decide_True|].
  rewrite decide_False by (by destruct l1). rewrite lastp_snoc.
  apply sseg_app in Hs1 as [Hs1 [(k & Hk & _) _]].
  apply NoDup_app in Hd as (Hd1 & Hd & _). apply NoDup_app in Hd1 as (_ & Hd1 & _).
  rewrite <- app_assoc, sseg_app. split.
  - apply sseg_alter_ne; [set_solver|]. apply sseg_alter_ne; [set_solver|done].
  - split; [|apply sseg_alter_ne; [set_solver|done]]. exists (set_sflink x k).
    rewrite lookup_alter_eq, lookup_alter_ne by set_solver. rewrite Hk. simpl. by rewrite sflink_set.
Qed.

Lemma sq_repr_unlink m q q' l1 x l2 :
  sq_repr m q (l1 ++ x :: l2) ->
  q' = SqQueue (hdp NULL (l1 ++ l2)) (lastp NULL (l1 ++ l2)) ->
  sq_repr (if decide (l1 = []) then m
           else alter (set_sflink (hdp NULL l2)) (lastp NULL l1) m) q' (l1 ++ l2).
Proof.
  intros [Hh Ht Hs Hd H0] ->. split; [done|done| | |set_solver].
  2:{ apply NoDup_app in Hd as (? & ? & [??]%NoDup_cons). apply NoDup_app. set_solver. }
  apply sseg_app in Hs as [Hs1 [_ Hs2]].
  destruct l1 as [|t l1 _] using rev_ind; [by rewrite decide_True|].
  rewrite decide_False by (by destruct l1). rewrite lastp_snoc.
  apply sseg_app in Hs1 as [Hs1 [(k & Hk & _) _]].
  apply NoDup_app in Hd as (Hd1 & Hd & _). apply NoDup_app in Hd1 as (_ & Hd1 & _).
  rewrite sseg_app. split.
  - apply sseg_set; [set_solver|done|eauto].
  - apply sseg_alter_ne; [|done]. intros Hc. apply (Hd t); set_solver.
Qed.

Lemma sq_repr_alter_ne m q l f x : x ∉ l -> sq_repr m q l -> sq_repr (alter f x m) q l.
Proof. intros Hx []. split; [done..| |done|done]. by apply sseg_alter_ne. Qed.

End sseg_lemmas.

(** ** The singly linked operations on the represented list *)

Section sq_specs.
  Context {N : Type} `{SLinked N}.
  Implicit Types (m : gmap Z N) (q : sq_queue) (l : list Z).

Lemma sq_repr_queue m q l : sq_repr m q l -> q = SqQueue (hdp NULL l) (lastp NULL l).
Proof. intros [Hh Ht _ _ _]. destruct q; simpl in *; by subst. Qed.

Lemma sq_addfirst_spec m q l node :
  sq_repr m q l -> valid m node -> node ∉ l ->
  wp (sq_addfirst node q m) (fun '(q', m') =>
    sq_repr m' q' (node :: l) /\ frame sunlink [node] m m').
Proof.
  intros Hq Hv Hn. pose proof Hq as [Hh Ht _ _ H0]. unfold sq_addfirst. rewrite Hh. do 2 wp_step.
  apply wp_ret. split; [|apply frame_set_sflink, frame_refl; set_solver].
  eapply (sq_repr_link _ q _ [] node l NULL); [done|done|done|done|]. simpl.
  rewrite lastp_cons. f_equal. destruct (decide (l = [])) as [->|Hl]; [done|].
  rewrite decide_False by (rewrite hdp_null; [done|by destruct Hq]). by rewrite Ht, (lastp_ne l node NULL).
Qed.

Lemma sq_addlast_spec m q l node :
  sq_repr m q l -> valid m node -> node ∉ l ->
  wp (sq_addlast node q m) (fun '(q', m') =>
    sq_repr m' q' (l ++ [node]) /\ frame sunlink (node :: l) m m').
Proof.
  intros Hq Hv Hn. pose proof Hq as [Hh Ht _ _ H0]. unfold sq_addlast. rewrite Hh, Ht. do 2 wp_step.
  destruct (decide (l = [])) as [->|Hl].
  - simpl. split; [|apply frame_set_sflink, frame_refl; set_solver].
    by eapply (sq_repr_link _ q _ [] node [] NULL).
  - pose proof (lastp_elem NULL l Hl) as Hi. pose proof (sq_repr_valid _ _ _ _ Hq Hi) as Hvl.
    rewrite decide_False by (by rewrite hdp_null). wp_go.
    split; [|repeat apply frame_set_sflink; [set_solver..|apply frame_refl]].
    eapply (sq_repr_link _ q _ l node [] (lastp NULL l)) in Hv as Hr;
      [|by rewrite app_nil_r|by rewrite app_nil_r|done|done].
    rewrite decide_False in Hr by done. rewrite hdp_app_ne, lastp_snoc in Hr by done. exact Hr.
Qed.

Lemma sq_addafter_spec m q l1 prev l2 node :
  sq_repr m q (l1 ++ prev :: l2) -> valid m node -> node ∉ l1 ++ prev :: l2 ->
  wp (sq_addafter prev node q m) (fun '(q', m') =>
    sq_repr m' q' (l1 ++ prev :: node :: l2) /\ frame sunlink (node :: l1 ++ prev :: l2) m m').
Proof.
  intros Hq Hv Hn. pose proof Hq as [Hh Ht Hs Hd H0]. rewrite hdp_mid in Hh. rewrite lastp_mid in Ht.
  assert (hdp prev l1 <> NULL) by (destruct l1; set_solver).
  pose proof (sq_repr_valid _ _ _ prev Hq ltac:(set_solver)) as Hvp. pose proof (valid_ne _ _ Hvp).
  apply NoDup_app in Hd as (_ & _ & [Hd _]%NoDup_cons).
  unfold sq_addafter. rewrite Hh, Ht. destruct (decide (l2 = [])) as [->|Hl].
  - rewrite decide_True by (by right).
    replace (l1 ++ [prev; node]) with ((l1 ++ [prev]) ++ [node]) by (by rewrite <- app_assoc).
    by apply sq_addlast_spec.
  - assert (lastp prev l2 ∈ l2) as Hlast by (by apply lastp_elem).
    assert (prev <> lastp prev l2) by (intros E; by rewrite <- E in Hlast).
    apply sseg_lookup in Hs as (k & Hk & Hf). do 3 wp_step. rewrite Hf. wp_go.
    split; [|repeat apply frame_set_sflink; [set_solver..|apply frame_refl]].
    rewrite (cons_middle prev), app_assoc in Hq, Hn. rewrite (cons_middle prev), app_assoc.
    eapply (sq_repr_link _ q q (l1 ++ [prev]) node l2 prev) in Hv as Hr;
      [|done|done|by rewrite lastp_snoc|].
    + rewrite decide_False in Hr by (by destruct l1). exact Hr.
    + rewrite hdp_app_ne, hdp_mid, lastp_mid, (lastp_ne l2 node prev) by (by destruct l1).
      destruct q; simpl in *; congruence.
Qed.

Lemma sq_remfirst_spec m q l :
  sq_repr m q l ->
  wp (sq_remfirst q m) (fun '(ret, (q', m')) =>
    ret = hdp NULL l /\ sq_repr m' q' (tail l) /\ frame sunlink l m m').
Proof.
  intros Hq. pose proof Hq as [Hh Ht Hs Hd H0]. unfold sq_remfirst. rewrite Hh, Ht.
  destruct l as [|x l]; simpl; [wp_go; by split; [|split; [|apply frame_refl]]|].
  pose proof (sq_repr_valid _ _ _ x Hq ltac:(set_solver)) as Hv. pose proof (valid_ne _ _ Hv).
  destruct (sseg_lookup m [] x l NULL Hs) as (k & Hk & Hf). do 3 wp_step. rewrite Hf. wp_go.
  split; [done|]. split; [|apply frame_set_sflink, frame_refl; set_solver].
  apply NoDup_cons in Hd as [Hd _]. apply sq_repr_alter_ne; [done|].
  eapply (sq_repr_unlink m q _ [] x l); [done|]. simpl. destruct (decide (l = [])) as [->|Hl]; [done|].
  rewrite decide_False by (rewrite hdp_null; set_solver). by rewrite lastp_cons, (lastp_ne l x NULL).
Qed.

Lemma sq_remafter_spec m q l1 node x l2 :
  sq_repr m q (l1 ++ node :: x :: l2) ->
  wp (sq_remafter node q m) (fun '(ret, (q', m')) =>
    ret = x /\ sq_repr m' q' (l1 ++ node :: l2) /\ frame sunlink (l1 ++ node :: x :: l2) m m').
Proof.
  intros Hq. pose proof Hq as [Hh Ht Hs Hd H0]. rewrite hdp_mid in Hh.
  rewrite (cons_middle node), app_assoc, lastp_mid in Ht.
  assert (hdp node l1 <> NULL) by (destruct l1; set_solver).
  pose proof (sq_repr_valid _ _ _ node Hq ltac:(set_solver)) as Hv. pose proof (valid_ne _ _ Hv).
  pose proof (sq_repr_valid _ _ _ x Hq ltac:(set_solver)) as Hvx. pose proof (valid_ne _ _ Hvx).
  destruct (sseg_lookup _ _ _ _ _ Hs) as (k & Hk & Hf).
  rewrite (cons_middle node), app_assoc in Hs, Hd, Hq.
  destruct (sseg_lookup _ _ _ _ _ Hs) as (k' & Hk' & Hf'). simpl in Hf.
  apply NoDup_app in Hd as (_ & Hd & [Hd' _]%NoDup_cons).
  unfold sq_remafter. rewrite Hh, Ht. do 2 wp_step. rewrite Hf.
  assert (x ∉ (l1 ++ [node]) ++ l2) as Hx by set_solver.
  replace (l1 ++ node :: l2) with ((l1 ++ [node]) ++ l2) by (by rewrite <- app_assoc).
  destruct (decide (l2 = [])) as [->|Hl].
  - wp_go. split; [done|].
    split; [|repeat apply frame_set_sflink; [set_solver..|apply frame_refl]].
    apply sq_repr_alter_ne; [done|].
    eapply (sq_repr_unlink m q _ (l1 ++ [node]) x []) in Hq; [|done].
    rewrite decide_False in Hq by (by destruct l1). rewrite app_nil_r, !lastp_snoc, hdp_mid in *. exact Hq.
  - assert (lastp x l2 ∈ l2) as Hlast by (by apply lastp_elem).
    assert (x <> lastp x l2) by (intros E; by rewrite <- E in Hlast).
    do 5 wp_step. rewrite Hf'. wp_go. split; [done|].
    split; [|repeat apply frame_set_sflink; [set_solver..|apply frame_refl]].
    apply sq_repr_alter_ne; [done|].
    eapply (sq_repr_unlink m q q (l1 ++ [node]) x l2) in Hq.
    + rewrite decide_False in Hq by (by destruct l1). by rewrite lastp_snoc in Hq.
    + rewrite hdp_app_ne, hdp_mid, lastp_app_ne, (lastp_ne l2 NULL x) by (by destruct l1).
      destruct q; simpl in *; congruence.
Qed.

Lemma sq_findprev_found fuel m l1 a b l2 :
  sseg m (l1 ++ a :: b :: l2) NULL -> NoDup (l1 ++ a :: b :: l2) -> NULL ∉ l1 ++ a :: b :: l2 ->
  (length l1 < fuel)%nat -> sq_findprev fuel m (hdp a l1) b = Ok a.
Proof.
  revert fuel. induction l1 as [|x l1 IH]; intros [|fuel] Hs Hd H0 Hf; simpl in *; try lia.
  - destruct Hs as [(k & Hk & Hn) _]. rewrite decide_False by set_solver.
    rewrite (deref_Some _ _ k) by set_solver. simpl. by rewrite decide_True.
  - destruct Hs as [(k & Hk & Hn) Hs]. apply NoDup_cons in Hd as [Hx Hd].
    rewrite decide_False by set_solver. rewrite (deref_Some _ _ k) by set_solver. simpl.
    rewrite hdp_mid in Hn. rewrite decide_False.
    + rewrite Hn. apply IH; [done|done|set_solver|lia].
    + rewrite Hn. apply NoDup_app in Hd as (_ & Hd1 & [Hd2 _]%NoDup_cons).
      destruct l1 as [|y l1]; simpl; [set_solver|]. intros ->. apply (Hd1 b); set_solver.
Qed.

Lemma sq_findprev_none fuel m l node :
  sseg m l NULL -> NULL ∉ l -> node <> NULL -> node ∉ l -> (length l < fuel)%nat ->
  sq_findprev fuel m (hdp NULL l) node = Ok NULL.
Proof.
  revert fuel. induction l as [|x l IH]; intros [|fuel] Hs H0 Hn Hi Hf; simpl in *; try lia; [done|].
  destruct Hs as [(k & Hk & Hn') Hs]. rewrite decide_False by set_solver.
  rewrite (deref_Some _ _ k) by set_solver. simpl. rewrite Hn'. rewrite decide_False.
  - apply IH; [done|set_solver|done|set_solver|lia].
  - destruct l; simpl; set_solver.
Qed.

Lemma sq_rem_spec m q l1 node l2 :
  sq_repr m q (l1 ++ node :: l2) ->
  wp (sq_rem node q m) (fun '(q', m') =>
    sq_repr m' q' (l1 ++ l2) /\ frame sunlink (l1 ++ node :: l2) m m').
Proof.
  intros Hq. pose proof Hq as [Hh Ht Hs Hd H0]. pose proof (sq_repr_length _ _ _ Hq) as Hlen.
  rewrite hdp_mid in Hh. rewrite lastp_mid in Ht.
  assert (hdp node l1 <> NULL) by (destruct l1; set_solver).
  pose proof (sq_repr_valid _ _ _ node Hq ltac:(set_solver)) as Hv. pose proof (valid_ne _ _ Hv).
  unfold sq_rem. rewrite Hh, Ht.
  destruct l1 as [|a l1 _] using rev_ind.
  - destruct (sseg_lookup m [] node l2 NULL Hs) as (k & Hk & Hf). simpl in *. do 4 wp_step. rewrite Hf.
    wp_go. split; [|apply frame_refl]. eapply (sq_repr_unlink m q _ [] node l2); [done|].
    simpl. apply NoDup_cons in Hd as [Hd _]. destruct (decide (l2 = [])) as [->|Hl]; simpl.
    + by rewrite decide_True.
    + pose proof (lastp_elem node l2 Hl) as Hi. rewrite decide_False by (intros E; by rewrite <- E in Hi).
      by rewrite (lastp_ne l2 node NULL).
  - rewrite <- app_assoc in Hq, Hs, Hd, H0, Hlen |- *. simpl in Hq, Hs, Hd, H0.
    assert (node ∉ l1 ++ [a]) as Hna
      by (rewrite (cons_middle a), app_assoc in Hd; apply NoDup_app in Hd as (_ & Hd & _); set_solver).
    rewrite hdp_app in *. cbn [default head from_option id] in *.
    rewrite decide_False by (intros [?|?]; done).
    rewrite decide_False.
    2:{ destruct l1; simpl; set_solver. }
    rewrite (sq_findprev_found _ m l1 a node l2); [|done|done|done|].
    + cbn [mbind res_bind]. rewrite decide_False by set_solver. apply wp_bind.
      eapply wp_mono; [by apply (sq_remafter_spec _ _ l1 a node l2)|].
      intros [ret [q' m']] (-> & Hr & Hfr). simpl. rewrite <- app_assoc. done.
    + unfold list_fuel. rewrite length_app in Hlen. simpl in Hlen. lia.
Qed.

Lemma sq_rem_absent m q l node :
  sq_repr m q l -> node ∉ l -> sq_rem node q m = Ok (q, m).
Proof.
  intros Hq Hn. pose proof Hq as [Hh Ht Hs Hd H0]. pose proof (sq_repr_length _ _ _ Hq) as Hlen.
  unfold sq_rem. case_decide as Hc; [done|]. apply Decidable.not_or in Hc as [Hc1 Hc2].
  rewrite Hh in *. rewrite decide_False.
  - rewrite sq_findprev_none; [done|done|done|done|done|]. unfold list_fuel. lia.
  - intros ->. apply Hn, hdp_elem. by intros ->.
Qed.

Lemma sq_remlast_spec m q l x :
  sq_repr m q (l ++ [x]) ->
  wp (sq_remlast q m) (fun '(ret, (q', m')) =>
    ret = x /\ sq_repr m' q' l /\ frame sunlink (l ++ [x]) m m').
Proof.
  intros Hq. pose proof Hq as [Hh Ht Hs Hd H0]. pose proof (sq_repr_length _ _ _ Hq) as Hlen.
  pose proof (sq_repr_valid _ _ _ x Hq ltac:(set_solver)) as Hv. pose proof (valid_ne _ _ Hv).
  unfold sq_remlast. rewrite Hh, Ht, lastp_snoc. cbn beta zeta.
  rewrite decide_False by done. apply wp_bind. rewrite hdp_app.
  cbn [default head from_option id].
  destruct l as [|a l _] using rev_ind.
  - simpl. rewrite decide_True by done. wp_go. split; [done|].
    split; [|apply frame_set_sflink, frame_refl; set_solver].
    apply sq_repr_alter_ne; [set_solver|]. apply sq_repr_nil.
  - rewrite <- app_assoc in Hq, Hs, Hd, H0, Hlen |- *. simpl in Hq, Hs, Hd, H0.
    rewrite hdp_app. cbn [default head from_option id].
    rewrite (cons_middle a), app_assoc in Hq, Hd. pose proof Hd as Hd'. apply NoDup_app in Hd' as (_ & Hd' & _).
    pose proof (sq_repr_valid _ _ _ a Hq ltac:(set_solver)) as Hva. pose proof (valid_ne _ _ Hva).
    rewrite decide_False by (destruct l; simpl; set_solver).
    rewrite (sq_findprev_found _ m l a x []); [|done|by rewrite <- app_assoc in Hd|done|].
    + cbn [mbind res_bind]. wp_go. split; [done|].
      split; [|repeat apply frame_set_sflink; [set_solver..|apply frame_refl]].
      apply sq_repr_alter_ne; [set_solver|].
      eapply (sq_repr_unlink m q _ (l ++ [a]) x []) in Hq; [|done].
      rewrite decide_False in Hq by (by destruct l). rewrite app_nil_r, !lastp_snoc, hdp_mid in *. exact Hq.
    + unfold list_fuel. rewrite length_app in Hlen. simpl in Hlen. lia.
Qed.

Lemma sq_remlast_nil m q : sq_repr m q [] -> sq_remlast q m = Ok (NULL, (q, m)).
Proof. intros [_ Ht _ _ _]. unfold sq_remlast. by rewrite Ht. Qed.

(** Nothing comes after the last object. *)
Lemma sq_remafter_last m q l node : sq_repr m q (l ++ [node]) -> sq_remafter node q m = Ok (NULL, (q, m)).
Proof.
  intros Hq. pose proof Hq as [_ _ Hs _ _]. pose proof (sq_repr_valid _ _ _ node Hq ltac:(set_solver)) as Hv.
  destruct (sseg_lookup _ _ _ _ _ Hs) as (k & Hk & Hf). simpl in Hf. unfold sq_remafter.
  rewrite (deref_Some _ _ k) by (done || by eapply valid_ne). cbn [mbind res_bind]. rewrite Hf, decide_True by tauto. done.
Qed.

End sq_specs.

(** ** Sequences of calls and the list model

    A client sees a queue as a list.  [dq_model] and [sq_model] give the effect
    of one call on that list, and are undefined where the caller breaks the
    contract of the function (linking an object that is already in the queue,
    naming a neighbour that is not). *)

Fixpoint list_ins_after (p x : Z) (l : list Z) : list Z :=
  match l with
  | [] => [x]
  | y :: l => if decide (y = p) then y :: x :: l else y :: list_ins_after p x l
  end.

Fixpoint list_ins_before (p x : Z) (l : list Z) : list Z :=
  match l with
  | [] => [x]
  | y :: l => if decide (y = p) then x :: y :: l else y :: list_ins_before p x l
  end.

Fixpoint list_rem (x : Z) (l : list Z) : list Z :=
  match l with
  | [] => []
  | y :: l => if decide (y = x) then l else y :: list_rem x l
  end.

(** What comes after [p] in the list, and the list without it. *)
Fixpoint list_next (p : Z) (l : list Z) : Z :=
  match l with
  | [] => NULL
  | y :: l => if decide (y = p) then hdp NULL l else list_next p l
  end.

Fixpoint list_rem_after (p : Z) (l : list Z) : list Z :=
  match l with
  | [] => []
  | y :: l => if decide (y = p) then y :: tail l else y :: list_rem_after p l
  end.

Inductive q_call : Type :=
| CAddFirst (x : Z)
| CAddLast (x : Z)
| CAddAfter (p x : Z)
| CAddBefore (n x : Z)
| CRem (x : Z)
| CRemAfter (p : Z)
| CRemFirst
| CRemLast.

(** The object a call links into the queue, if it links one. *)
Definition call_node (c : q_call) : option Z :=
  match c with
  | CAddFirst x | CAddLast x | CAddAfter _ x | CAddBefore _ x => Some x
  | CRem _ | CRemAfter _ | CRemFirst | CRemLast => None
  end.

(** Returned value and resulting list; a [void] function returns no value.  The
    doubly linked functions have no [remafter]. *)
Definition dq_model (c : q_call) (l : list Z) : option (option Z * list Z) :=
  match c with
  | CAddFirst x => if decide (x ∈ l) then None else Some (None, x :: l)
  | CAddLast x => if decide (x ∈ l) then None else Some (None, l ++ [x])
  | CAddAfter p x =>
      if decide (x ∈ l \/ (l <> [] /\ p ∉ l)) then None else Some (None, list_ins_after p x l)
  | CAddBefore n x =>
      if decide (x ∈ l \/ (l <> [] /\ n ∉ l)) then None else Some (None, list_ins_before n x l)
  | CRem x => if decide (x ∈ l) then Some (None, list_rem x l) else None
  | CRemAfter _ => None
  | CRemFirst => Some (Some (hdp NULL l), tail l)
  | CRemLast => Some (Some (lastp NULL l), removelast l)
  end.

(** The singly linked functions have no [addbefore], and removing an absent
    object is allowed: it does nothing.  [sq_remafter] names an object of the
    queue, and there is nothing to remove after the last one. *)
Definition sq_model (c : q_call) (l : list Z) : option (option Z * list Z) :=
  match c with
  | CAddBefore _ _ => None
  | CRem x => Some (None, list_rem x l)
  | CRemAfter p => if decide (p ∈ l) then Some (Some (list_next p l), list_rem_after p l) else None
  | _ => dq_model c l
  end.

Definition model_run (f : q_call -> list Z -> option (option Z * list Z)) :
    list q_call -> list Z -> option (list (option Z) * list Z) :=
  fix run cs l :=
    match cs with
    | [] => Some ([], l)
    | c :: cs =>
        '(r, l) ← f c l;
        '(rs, l) ← run cs l;
        Some (r :: rs, l)
    end.

Definition dq_exec {N} `{DLinked N} (c : q_call) (s : dq_queue * gmap Z N) :
    res (option Z * (dq_queue * gmap Z N)) :=
  let '(q, m) := s in
  let void e := s ← e; Ok (None, s) in
  let value e := '(r, s) ← e; Ok (Some r, s) in
  match c with
  | CAddFirst x => void (dq_addfirst x q m)
  | CAddLast x => void (dq_addlast x q m)
  | CAddAfter p x => void (dq_addafter p x q m)
  | CAddBefore n x => void (dq_addbefore n x q m)
  | CRem x => void (dq_rem x q m)
  | CRemAfter _ => Err FWild
  | CRemFirst => value (dq_remfirst q m)
  | CRemLast => value (dq_remlast q m)
  end.

Definition sq_exec {N} `{SLinked N} (c : q_call) (s : sq_queue * gmap Z N) :
    res (option Z * (sq_queue * gmap Z N)) :=
  let '(q, m) := s in
  let void e := s ← e; Ok (None, s) in
  let value e := '(r, s) ← e; Ok (Some r, s) in
  match c with
  | CAddFirst x => void (sq_addfirst x q m)
  | CAddLast x => void (sq_addlast x q m)
  | CAddAfter p x => void (sq_addafter p x q m)
  | CAddBefore _ _ => Err FWild
  | CRem x => void (sq_rem x q m)
  | CRemAfter p => value (sq_remafter p q m)
  | CRemFirst => value (sq_remfirst q m)
  | CRemLast => value (sq_remlast q m)
  end.

Definition exec_run {S} (f : q_call -> S -> res (option Z * S)) :
    list q_call -> S -> res (list (option Z) * S) :=
  fix run cs s :=
    match cs with
    | [] => Ok ([], s)
    | c :: cs =>
        '(r, s) ← f c s;
        '(rs, s) ← run cs s;
        Ok (r :: rs, s)
    end.

(** The plain entries of queue.h. *)
Record sq_entry : Type := SqEntry { se_flink : ptr }.
Record dq_entry : Type := DqEntry { de_flink : ptr; de_blink : ptr }.

#[export] Program Instance sq_entry_linked : SLinked sq_entry := {
  sflink := se_flink;
  set_sflink p n := SqEntry p
}.
Solve All Obligations with done.

#[export] Program Instance dq_entry_linked : DLinked dq_entry := {
  flink := de_flink;
  blink := de_blink;
  set_flink p n := DqEntry p (de_blink n);
  set_blink p n := DqEntry (de_flink n) p
}.
Solve All Obligations with done.

Lemma list_ins_after_split p x l1 l2 :
  p ∉ l1 -> list_ins_after p x (l1 ++ p :: l2) = l1 ++ p :: x :: l2.
Proof.
  induction l1 as [|y l1 IH]; intros Hp; simpl; [by rewrite decide_True|].
  rewrite decide_False by set_solver. f_equal. apply IH. set_solver.
Qed.

Lemma list_ins_before_split p x l1 l2 :
  p ∉ l1 -> list_ins_before p x (l1 ++ p :: l2) = l1 ++ x :: p :: l2.
Proof.
  induction l1 as [|y l1 IH]; intros Hp; simpl; [by rewrite decide_True|].
  rewrite decide_False by set_solver. f_equal. apply IH. set_solver.
Qed.

Lemma list_rem_split x l1 l2 : x ∉ l1 -> list_rem x (l1 ++ x :: l2) = l1 ++ l2.
Proof.
  induction l1 as [|y l1 IH]; intros Hp; simpl; [by rewrite decide_True|].
  rewrite decide_False by set_solver. f_equal. apply IH. set_solver.
Qed.

Lemma list_rem_absent x l : x ∉ l -> list_rem x l = l.
Proof.
  induction l as [|y l IH]; intros Hp; simpl; [done|].
  rewrite decide_False by set_solver. f_equal. apply IH. set_solver.
Qed.

Lemma list_after_split p l1 l2 :
  p ∉ l1 -> list_next p (l1 ++ p :: l2) = hdp NULL l2 /\ list_rem_after p (l1 ++ p :: l2) = l1 ++ p :: tail l2.
Proof.
  induction l1 as [|y l1 IH]; intros Hp; simpl; [by rewrite !decide_True|].
  rewrite !decide_False by set_solver. destruct IH as [-> ->]; [set_solver|done].
Qed.

Lemma nodup_split (x : Z) l : NoDup l -> x ∈ l -> exists l1 l2, l = l1 ++ x :: l2 /\ x ∉ l1.
Proof.
  intros Hd Hx. apply list_elem_of_split in Hx as (l1 & l2 & ->). exists l1, l2. split; [done|].
  apply NoDup_app in Hd as (_ & Hd & _). set_solver.
Qed.

Section simulation.
  Context {N : Type}.

Lemma dq_exec_spec `{DLinked N} c (m : gmap Z N) q l r l' :
  dq_repr m q l -> (forall x, call_node c = Some x -> valid m x) -> dq_model c l = Some (r, l') ->
  wp (dq_exec c (q, m)) (fun '(r', (q', m')) =>
    r' = r /\ dq_repr m' q' l' /\ forall p, dunlink <$> m' !! p = dunlink <$> m !! p).
Proof.
  intros Hq Hv Hm. pose proof (dqr_nodup _ _ _ Hq) as Hd.
  destruct c; simpl in Hm |- *; repeat case_decide; simplify_eq; apply wp_bind;
    try specialize (Hv _ eq_refl).
  - eapply wp_mono; [by apply dq_addfirst_spec|]. intros [q' m'] [Hr [_ Hf]]. by split.
  - eapply wp_mono; [by apply dq_addlast_spec|]. intros [q' m'] [Hr [_ Hf]]. by split.
  - destruct (decide (l = [])) as [->|Hl].
    + unfold dq_addafter. rewrite decide_True by (left; by destruct Hq).
      eapply wp_mono; [apply (dq_addlast_spec _ _ []); [done|done|set_solver]|]. intros [q' m'] [Hr [_ Hf]]. by split.
    + destruct (nodup_split p l) as (l1 & l2 & -> & Hp); [done|destruct (decide (p ∈ l)); tauto|].
      rewrite list_ins_after_split by done.
      eapply wp_mono; [apply dq_addafter_spec; [done|done|tauto]|]. intros [q' m'] [Hr [_ Hf]]. by split.
  - destruct (decide (l = [])) as [->|Hl].
    + unfold dq_addbefore. rewrite decide_True by (left; by destruct Hq).
      eapply wp_mono; [apply (dq_addfirst_spec _ _ []); [done|done|set_solver]|]. intros [q' m'] [Hr [_ Hf]]. by split.
    + destruct (nodup_split n l) as (l1 & l2 & -> & Hp); [done|destruct (decide (n ∈ l)); tauto|].
      rewrite list_ins_before_split by done.
      eapply wp_mono; [apply dq_addbefore_spec; [done|done|tauto]|]. intros [q' m'] [Hr [_ Hf]]. by split.
  - destruct (nodup_split x l) as (l1 & l2 & -> & Hp); [done|done|].
    rewrite list_rem_split by done.
    eapply wp_mono; [by apply dq_rem_spec|]. intros [q' m'] [Hr [_ Hf]]. by split.
  - eapply wp_mono; [by apply dq_remfirst_spec|]. intros [x [q' m']] (-> & Hr & _ & Hf). by split.
  - destruct l as [|x l _] using rev_ind.
    + rewrite dq_remlast_nil by done. by split.
    + rewrite removelast_last, lastp_snoc.
      eapply wp_mono; [by apply dq_remlast_spec|]. intros [y [q' m']] (-> & Hr & _ & Hf). by split.
Qed.

Lemma sq_exec_spec `{SLinked N} c (m : gmap Z N) q l r l' :
  sq_repr m q l -> (forall x, call_node c = Some x -> valid m x) -> sq_model c l = Some (r, l') ->
  wp (sq_exec c (q, m)) (fun '(r', (q', m')) =>
    r' = r /\ sq_repr m' q' l' /\ forall p, sunlink <$> m' !! p = sunlink <$> m !! p).
Proof.
  intros Hq Hv Hm. pose proof (sqr_nodup _ _ _ Hq) as Hd.
  destruct c; simpl in Hm |- *; repeat case_decide; simplify_eq; apply wp_bind;
    try specialize (Hv _ eq_refl).
  - eapply wp_mono; [by apply sq_addfirst_spec|]. intros [q' m'] [Hr [_ Hf]]. by split.
  - eapply wp_mono; [by apply sq_addlast_spec|]. intros [q' m'] [Hr [_ Hf]]. by split.
  - destruct (decide (l = [])) as [->|Hl].
    + unfold sq_addafter. rewrite decide_True by (left; by destruct Hq).
      eapply wp_mono; [apply (sq_addlast_spec _ _ []); [done|done|set_solver]|]. intros [q' m'] [Hr [_ Hf]]. by split.
    + destruct (nodup_split p l) as (l1 & l2 & -> & Hp); [done|destruct (decide (p ∈ l)); tauto|].
      rewrite list_ins_after_split by done.
      eapply wp_mono; [apply sq_addafter_spec; [done|done|tauto]|]. intros [q' m'] [Hr [_ Hf]]. by split.
  - destruct (decide (x ∈ l)).
    + destruct (nodup_split x l) as (l1 & l2 & -> & Hp); [done|done|].
      rewrite list_rem_split by done.
      eapply wp_mono; [by apply sq_rem_spec|]. intros [q' m'] [Hr [_ Hf]]. by split.
    + rewrite (sq_rem_absent m q l), list_rem_absent by done. by split.
  - destruct (nodup_split p l) as (l1 & l2 & -> & Hp); [done|done|].
    destruct (list_after_split p l1 l2 Hp) as [-> ->]. destruct l2 as [|x l2].
    + rewrite (sq_remafter_last m q l1 p) by done. by split.
    + eapply wp_mono; [by apply sq_remafter_spec|]. intros [y [q' m']] (-> & Hr & _ & Hf). by split.
  - eapply wp_mono; [by apply sq_remfirst_spec|]. intros [x [q' m']] (-> & Hr & _ & Hf). by split.
  - destruct l as [|x l _] using rev_ind.
    + rewrite sq_remlast_nil by done. by split.
    + rewrite removelast_last, lastp_snoc.
      eapply wp_mono; [by apply sq_remlast_spec|]. intros [y [q' m']] (-> & Hr & _ & Hf). by split.
Qed.

(** Lifting a simulation of single calls to sequences of calls. *)
Lemma exec_run_spec {Q} (f : q_call -> Q * gmap Z N -> res (option Z * (Q * gmap Z N))) g
    (R : gmap Z N -> Q -> list Z -> Prop) (u : N -> N) :
  (forall c m q l r l', R m q l -> (forall x, call_node c = Some x -> valid m x) ->
     g c l = Some (r, l') ->
     wp (f c (q, m)) (fun '(r', (q', m')) =>
       r' = r /\ R m' q' l' /\ forall p, u <$> m' !! p = u <$> m !! p)) ->
  forall cs m q l rs l', R m q l -> Forall (fun c => forall x, call_node c = Some x -> valid m x) cs ->
  model_run g cs l = Some (rs, l') ->
  wp (exec_run f cs (q, m)) (fun '(rs', (q', m')) =>
    rs' = rs /\ R m' q' l' /\ forall p, u <$> m' !! p = u <$> m !! p).
Proof.
  intros Hstep. induction cs as [|c cs IH]; intros m q l rs l' HR Hv Hm; simpl in Hm |- *.
  { by simplify_eq. }
  apply Forall_cons in Hv as [Hc Hv].
  destruct (g c l) as [[r l1]|] eqn:Eg; [|done]. simpl in Hm.
  destruct (model_run g cs l1) as [[rs1 l2]|] eqn:Er; [|done]. simplify_eq/=.
  apply wp_bind. eapply wp_mono; [by eapply Hstep|]. intros [r' [q' m']] (-> & HR' & Hu). apply wp_bind.
  eapply wp_mono; [eapply IH; [done| |done]|].
  - eapply Forall_impl; [done|]. simpl. intros c' Hc' x Hx. specialize (Hc' x Hx).
    eapply (frame_valid u (elements (dom m) ++ elements (dom m'))); [|done]. split; [|done].
    intros p Hp. rewrite elem_of_app, !elem_of_elements, !elem_of_dom in Hp.
    destruct (m !! p) eqn:E1, (m' !! p) eqn:E2; naive_solver.
  - intros [rs' [q'' m'']] (-> & HR'' & Hu'). split; [done|]. split; [done|].
    intros p. by rewrite Hu', Hu.
Qed.

(** C39: any sequence of [dq_*] calls that respects the callers' contract, on a
    memory that holds a queue, completes without touching an invalid pointer,
    returns what the same calls return on the list the queue represents, leaves
    a memory that holds the resulting list, and changes no field of any object
    but its links. *)
Theorem dq_refines_list `{DLinked N} cs (m : gmap Z N) q l rs l' :
  dq_repr m q l -> Forall (fun c => forall x, call_node c = Some x -> valid m x) cs ->
  model_run dq_model cs l = Some (rs, l') ->
  wp (exec_run dq_exec cs (q, m)) (fun '(rs', (q', m')) =>
    rs' = rs /\ dq_repr m' q' l' /\ forall p, dunlink <$> m' !! p = dunlink <$> m !! p).
Proof. apply exec_run_spec. intros. by eapply dq_exec_spec. Qed.

(** C40: the same for any sequence of calls of the singly linked functions
    sq_addfirst, sq_addlast, sq_addafter, sq_rem, sq_remafter, sq_remfirst and
    sq_remlast that keeps to their contract: an object that is added is not in the
    queue, and an object named as a neighbour is.  [sq_rem] and
    [sq_remlast] search the list: the searches terminate and [sq_rem] of an
    absent object leaves the queue as it is.  [sq_remafter] returns the object
    after the one named, NULL after the last. *)
Theorem sq_refines_list `{SLinked N} cs (m : gmap Z N) q l rs l' :
  sq_repr m q l -> Forall (fun c => forall x, call_node c = Some x -> valid m x) cs ->
  model_run sq_model cs l = Some (rs, l') ->
  wp (exec_run sq_exec cs (q, m)) (fun '(rs', (q', m')) =>
    rs' = rs /\ sq_repr m' q' l' /\ forall p, sunlink <$> m' !! p = sunlink <$> m !! p).
Proof. apply exec_run_spec. intros. by eapply sq_exec_spec. Qed.

End simulation.

Definition sample_dq_mem : gmap Z dq_entry :=
  list_to_map [(16, DqEntry 0 0); (32, DqEntry 0 0); (48, DqEntry 0 0); (64, DqEntry 0 0)].

Definition sample_sq_mem : gmap Z sq_entry :=
  list_to_map [(16, SqEntry 0); (32, SqEntry 0); (48, SqEntry 0); (64, SqEntry 0)].

Definition sample_calls : list q_call :=
  [CAddLast 16; CAddFirst 32; CAddAfter 32 48; CAddBefore 48 64; CRem 32; CRemLast; CRemFirst].

Ltac solve_calls_valid :=
  repeat (apply Forall_cons_2;
          [intros x Hx; simpl in Hx; simplify_eq; (split; [done|by eexists])|]);
  apply Forall_nil_2.

Lemma dq_refines_list_witness :
  wp (exec_run dq_exec sample_calls (dq_init, sample_dq_mem)) (fun '(rs', (q', m')) =>
    rs' = [None; None; None; None; None; Some 16; Some 64] /\ dq_repr m' q' [48]
    /\ forall p, dunlink <$> m' !! p = dunlink <$> sample_dq_mem !! p).
Proof.
  apply (dq_refines_list sample_calls sample_dq_mem dq_init []).
  - apply dq_repr_nil.
  - solve_calls_valid.
  - reflexivity.
Defined.

Lemma sq_refines_list_witness :
  wp (exec_run sq_exec [CAddLast 16; CAddFirst 32; CAddAfter 32 48; CAddLast 64; CRemAfter 48; CRemAfter 64; CRem 16; CRem 48; CRemAfter 32; CRemLast; CAddLast 16]
        (sq_init, sample_sq_mem)) (fun '(rs', (q', m')) =>
    rs' = [None; None; None; None; Some 16; Some 0; None; None; Some 64; Some 32; None] /\ sq_repr m' q' [16]
    /\ forall p, sunlink <$> m' !! p = sunlink <$> sample_sq_mem !! p).
Proof.
  apply (sq_refines_list _ sample_sq_mem sq_init []).
  - apply sq_repr_nil.
  - solve_calls_valid.
  - reflexivity.
Defined.
