(* ===== verification/Mm.v ===== *)
(** * The memory manager: data and operations (src/nuttx/mm)

    The model is of the configuration with 32-bit sizes (CONFIG_MM_SMALL not
    defined) and CONFIG_MM_REGIONS heap regions.  The heap's chunk headers and
    the g_nodelist array live in a map from addresses to [mm_node], the union of
    [struct mm_allocnode_s] and [struct mm_freenode_s]; the bytes handed out to
    the program live in a second map.  An access to the fields of a node that
    already exists is [deref] or [store]; [carve] writes the header of a node
    whose address was just computed inside the heap. *)

From S2P Require Import Prelude Queue.

(** ** Constants of mm_internal.h *)

Definition MM_MIN_SHIFT : Z := 4.
Definition MM_MAX_SHIFT : Z := 22.
Definition MM_MIN_CHUNK : Z := Z.shiftl 1 MM_MIN_SHIFT.
Definition MM_MAX_CHUNK : Z := Z.shiftl 1 MM_MAX_SHIFT.
Definition MM_NNODES : Z := MM_MAX_SHIFT - MM_MIN_SHIFT + 1.
Definition MM_GRAN_MASK : Z := MM_MIN_CHUNK - 1.
Definition MM_ALLOC_BIT : Z := 0x80000000.
Definition SIZEOF_MM_ALLOCNODE : Z := 8.
Definition SIZEOF_MM_FREENODE : Z := 16.

(** 32-bit complement, for the masks of [MM_ALIGN_UP] and [&= ~MM_ALLOC_BIT]. *)
Definition not32 (z : Z) : Z := 2 ^ 32 - 1 - z.

Definition MM_ALIGN_UP (a : Z) : Z := Z.land (u32 (a + MM_GRAN_MASK)) (not32 MM_GRAN_MASK).
Definition MM_ALIGN_DOWN (a : Z) : Z := Z.land a (not32 MM_GRAN_MASK).

(** ** Nodes *)

Record mm_node : Type := MmNode {
  mm_size : Z;
  mm_preceding : Z;
  mm_flink : ptr;
  mm_blink : ptr
}.

Definition set_mm_size (s : Z) (n : mm_node) : mm_node :=
  MmNode s (mm_preceding n) (mm_flink n) (mm_blink n).
Definition set_mm_preceding (p : Z) (n : mm_node) : mm_node :=
  MmNode (mm_size n) p (mm_flink n) (mm_blink n).

#[export] Program Instance mm_node_linked : DLinked mm_node := {
  flink := mm_flink;
  blink := mm_blink;
  set_flink p n := MmNode (mm_size n) (mm_preceding n) p (mm_blink n);
  set_blink p n := MmNode (mm_size n) (mm_preceding n) (mm_flink n) p
}.
Solve All Obligations with done.

(** Is bit 31 of a [preceding] field set? *)
Definition is_allocated (preceding : Z) : bool := negb (Z.land preceding MM_ALLOC_BIT =? 0).

(** The header of a node at an address not used as a node so far. *)
Definition raw_node : mm_node := MmNode 0 0 NULL NULL.

Definition carve (size preceding : Z) (p : ptr) (m : gmap Z mm_node) : res (gmap Z mm_node) :=
  if decide (p = NULL) then Err FNull
  else
    let n := default raw_node (m !! p) in
    Ok (<[p := MmNode size preceding (mm_flink n) (mm_blink n)]> m).

(** ** The recursive lock of mm_sem.c *)

Record mm_sem : Type := MmSem {
  mm_semaphore : Z;
  g_holder : Z;
  g_counts_held : Z
}.

Definition mm_seminitialize : mm_sem := MmSem 1 (-1) 0.

(** [mm_trysemaphore]: [false] is ERROR. *)
Definition mm_trysemaphore (my_pid : Z) (s : mm_sem) : bool * mm_sem :=
  if g_holder s =? my_pid then
    (true, MmSem (mm_semaphore s) (g_holder s) (g_counts_held s + 1))
  else if mm_semaphore s <=? 0 then (false, s)
  else (true, MmSem (mm_semaphore s - 1) my_pid 1).

(** [sem_wait] in a sequential context: without an available count the caller
    would be suspended. *)
Definition mm_takesemaphore (my_pid : Z) (s : mm_sem) : res mm_sem :=
  if g_holder s =? my_pid then
    Ok (MmSem (mm_semaphore s) (g_holder s) (g_counts_held s + 1))
  else if mm_semaphore s <=? 0 then Err FBlock
  else Ok (MmSem (mm_semaphore s - 1) my_pid 1).

Definition mm_givesemaphore (my_pid : Z) (s : mm_sem) : res mm_sem :=
  _ ← c_assert (g_holder s =? my_pid);
  if 1 <? g_counts_held s then
    Ok (MmSem (mm_semaphore s) (g_holder s) (g_counts_held s - 1))
  else Ok (MmSem (mm_semaphore s + 1) (-1) 0).

(** ** The state of the memory manager *)

Record mm_state : Type := MmState {
  mm_nodes : gmap Z mm_node;
  mm_bytes : gmap Z Z;
  g_nodelist : ptr;
  g_heapsize : Z;
  g_heapstart : list ptr;
  g_heapend : list ptr;
  g_nregions : nat;
  mm_lock : mm_sem
}.

Definition set_nodes (m : gmap Z mm_node) (st : mm_state) : mm_state :=
  MmState m (mm_bytes st) (g_nodelist st) (g_heapsize st) (g_heapstart st) (g_heapend st)
    (g_nregions st) (mm_lock st).
Definition set_bytes (b : gmap Z Z) (st : mm_state) : mm_state :=
  MmState (mm_nodes st) b (g_nodelist st) (g_heapsize st) (g_heapstart st) (g_heapend st)
    (g_nregions st) (mm_lock st).
Definition set_lock (l : mm_sem) (st : mm_state) : mm_state :=
  MmState (mm_nodes st) (mm_bytes st) (g_nodelist st) (g_heapsize st) (g_heapstart st)
    (g_heapend st) (g_nregions st) l.

(** [&g_nodelist[i]] *)
Definition nodelist (base i : Z) : ptr := base + SIZEOF_MM_FREENODE * i.

(** ** mm_size2ndx.c *)

Fixpoint size2ndx_loop (fuel : nat) (size ndx : Z) : Z :=
  match fuel with
  | O => ndx
  | S fuel => if 1 <? size then size2ndx_loop fuel (Z.shiftr size 1) (ndx + 1) else ndx
  end.

Definition mm_size2ndx (size : Z) : Z :=
  if MM_MAX_CHUNK <=? size then MM_NNODES - 1
  else size2ndx_loop 32 (Z.shiftr size MM_MIN_SHIFT) 0.

(** ** mm_addfreechunk.c *)

(** [next && next->size && next->size < node->size; prev = next, next = next->flink] *)
Fixpoint addfree_search (fuel : nat) (m : gmap Z mm_node) (size : Z) (prev next : ptr) :
    res (ptr * ptr) :=
  match fuel with
  | O => Err FFuel
  | S fuel =>
      if decide (next = NULL) then Ok (prev, next)
      else
        n ← deref m next;
        if negb (mm_size n =? 0) && (mm_size n <? size)
        then addfree_search fuel m size next (mm_flink n)
        else Ok (prev, next)
  end.

Definition mm_addfreechunk (base : ptr) (node : ptr) (m : gmap Z mm_node) :
    res (gmap Z mm_node) :=
  n ← deref m node;
  let ndx := mm_size2ndx (mm_size n) in
  h ← deref m (nodelist base ndx);
  '(prev, next) ← addfree_search (list_fuel m) m (mm_size n) (nodelist base ndx) (mm_flink h);
  m ← store (set_flink node) prev m;
  m ← store (set_blink prev) node m;
  m ← store (set_flink next) node m;
  if decide (next = NULL) then Ok m else store (set_blink node) next m.

(** The removal of a free node from the node list, written out at each of its
    uses in the source:
    [DEBUGASSERT(node->blink); node->blink->flink = node->flink;
     if (node->flink) { node->flink->blink = node->blink; }] *)
Definition mm_unlink (node : ptr) (m : gmap Z mm_node) : res (gmap Z mm_node) :=
  n ← deref m node;
  _ ← c_assert (bool_decide (mm_blink n <> NULL));
  m ← store (set_flink (mm_flink n)) (mm_blink n) m;
  if decide (mm_flink n = NULL) then Ok m
  else store (set_blink (mm_blink n)) (mm_flink n) m.

(** ** mm_initialize.c *)

(** [memset(g_nodelist, 0, ...)] and the loop that links the node array. *)
Definition init_nodelist (base : ptr) (m : gmap Z mm_node) : res (gmap Z mm_node) :=
  let m := foldl (fun m i => <[nodelist base i := raw_node]> m) m (seqZ 0 MM_NNODES) in
  foldl (fun r i =>
      m ← r;
      m ← store (set_flink (nodelist base i)) (nodelist base (i - 1)) m;
      store (set_blink (nodelist base (i - 1))) (nodelist base i) m)
    (Ok m) (seqZ 1 (MM_NNODES - 1)).

(** [g_heapstart[IDX] = p]: the arrays have CONFIG_MM_REGIONS entries. *)
Definition array_set (a : list ptr) (i : nat) (p : ptr) : res (list ptr) :=
  if decide (i < length a)%nat then Ok (<[i := p]> a) else Err FWild.

Definition mm_addregion (heapstart heapsize : Z) (st : mm_state) : res mm_state :=
  let IDX := g_nregions st in
  let heapbase := MM_ALIGN_UP heapstart in
  let heapend := MM_ALIGN_DOWN (u32 (heapstart + heapsize)) in
  let heapsize := u32 (heapend - heapbase) in
  let total := u32 (g_heapsize st + heapsize) in
  starts ← array_set (g_heapstart st) IDX heapbase;
  m ← carve SIZEOF_MM_ALLOCNODE MM_ALLOC_BIT heapbase (mm_nodes st);
  let node := u32 (heapbase + SIZEOF_MM_ALLOCNODE) in
  let nsize := u32 (heapsize - 2 * SIZEOF_MM_ALLOCNODE) in
  m ← carve nsize SIZEOF_MM_ALLOCNODE node m;
  let tail := u32 (heapend - SIZEOF_MM_ALLOCNODE) in
  ends ← array_set (g_heapend st) IDX tail;
  m ← carve SIZEOF_MM_ALLOCNODE (Z.lor nsize MM_ALLOC_BIT) tail m;
  m ← mm_addfreechunk (g_nodelist st) node m;
  Ok (MmState m (mm_bytes st) (g_nodelist st) total starts ends (S IDX) (mm_lock st)).

Definition mm_initialize (heapstart heapsize : Z) (st : mm_state) : res mm_state :=
  m ← init_nodelist (g_nodelist st) (mm_nodes st);
  mm_addregion heapstart heapsize
    (MmState m (mm_bytes st) (g_nodelist st) 0 (g_heapstart st) (g_heapend st) 0 mm_seminitialize).

(** ** mm_malloc.c *)

(** [for (node = ...; node && node->size < size; node = node->flink);] *)
Fixpoint malloc_search (fuel : nat) (m : gmap Z mm_node) (size : Z) (node : ptr) : res ptr :=
  match fuel with
  | O => Err FFuel
  | S fuel =>
      if decide (node = NULL) then Ok NULL
      else
        n ← deref m node;
        if mm_size n <? size then malloc_search fuel m size (mm_flink n) else Ok node
  end.

Definition malloc (my_pid : Z) (size : Z) (st : mm_state) : res (ptr * mm_state) :=
  if size <=? 0 then Ok (NULL, st)
  else
    let size := MM_ALIGN_UP (u32 (size + SIZEOF_MM_ALLOCNODE)) in
    lk ← mm_takesemaphore my_pid (mm_lock st);
    let m := mm_nodes st in
    let base := g_nodelist st in
    let ndx := if MM_MAX_CHUNK <=? size then MM_NNODES - 1 else mm_size2ndx size in
    h ← deref m (nodelist base ndx);
    node ← malloc_search (list_fuel m) m size (mm_flink h);
    '(ret, m) ←
      (if decide (node = NULL) then Ok (NULL, m)
       else
         m ← mm_unlink node m;
         n ← deref m node;
         let remaining := u32 (mm_size n - size) in
         m ←
           (if SIZEOF_MM_FREENODE <=? remaining then
              let next := node + mm_size n in
              let remainder := node + size in
              m ← carve remaining size remainder m;
              m ← store (set_mm_size size) node m;
              x ← deref m next;
              m ← store (set_mm_preceding
                           (Z.lor remaining (Z.land (mm_preceding x) MM_ALLOC_BIT))) next m;
              mm_addfreechunk base remainder m
            else Ok m);
         n ← deref m node;
         m ← store (set_mm_preceding (Z.lor (mm_preceding n) MM_ALLOC_BIT)) node m;
         Ok (node + SIZEOF_MM_ALLOCNODE, m));
    lk ← mm_givesemaphore my_pid lk;
    Ok (ret, set_lock lk (set_nodes m st)).

(** ** mm_free.c *)

Definition free (my_pid : Z) (mem : ptr) (st : mm_state) : res mm_state :=
  if decide (mem = NULL) then Ok st
  else
    lk ← mm_takesemaphore my_pid (mm_lock st);
    let m := mm_nodes st in
    let node := mem - SIZEOF_MM_ALLOCNODE in
    n ← deref m node;
    m ← store (set_mm_preceding (Z.land (mm_preceding n) (not32 MM_ALLOC_BIT))) node m;
    let next := node + mm_size n in
    x ← deref m next;
    '(next, m) ←
      (if Z.land (mm_preceding x) MM_ALLOC_BIT =? 0 then
         let andbeyond := next + mm_size x in
         m ← mm_unlink next m;
         n ← deref m node;
         let size := u32 (mm_size n + mm_size x) in
         m ← store (set_mm_size size) node m;
         b ← deref m andbeyond;
         m ← store (set_mm_preceding (Z.lor size (Z.land (mm_preceding b) MM_ALLOC_BIT)))
               andbeyond m;
         Ok (andbeyond, m)
       else Ok (next, m));
    n ← deref m node;
    let prev := node - mm_preceding n in
    v ← deref m prev;
    '(node, m) ←
      (if Z.land (mm_preceding v) MM_ALLOC_BIT =? 0 then
         m ← mm_unlink prev m;
         v ← deref m prev;
         n ← deref m node;
         let size := u32 (mm_size v + mm_size n) in
         m ← store (set_mm_size size) prev m;
         x ← deref m next;
         m ← store (set_mm_preceding (Z.lor size (Z.land (mm_preceding x) MM_ALLOC_BIT))) next m;
         Ok (prev, m)
       else Ok (node, m));
    m ← mm_addfreechunk (g_nodelist st) node m;
    lk ← mm_givesemaphore my_pid lk;
    Ok (set_lock lk (set_nodes m st)).

(** ** mm_shrinkchunk.c *)

Definition mm_shrinkchunk (base : ptr) (node : ptr) (size : Z) (m : gmap Z mm_node) :
    res (gmap Z mm_node) :=
  n ← deref m node;
  let next := node + mm_size n in
  x ← deref m next;
  if Z.land (mm_preceding x) MM_ALLOC_BIT =? 0 then
    let andbeyond := next + mm_size x in
    m ← mm_unlink next m;
    let newnode := node + size in
    let nsize := u32 (mm_size x + mm_size n - size) in
    m ← carve nsize size newnode m;
    m ← store (set_mm_size size) node m;
    b ← deref m andbeyond;
    m ← store (set_mm_preceding (Z.lor nsize (Z.land (mm_preceding b) MM_ALLOC_BIT))) andbeyond m;
    mm_addfreechunk base newnode m
  else if u32 (size + SIZEOF_MM_FREENODE) <=? mm_size n then
    let newnode := node + size in
    let nsize := u32 (mm_size n - size) in
    m ← carve nsize size newnode m;
    m ← store (set_mm_size size) node m;
    m ← store (set_mm_preceding (Z.lor nsize MM_ALLOC_BIT)) next m;
    mm_addfreechunk base newnode m
  else Ok m.

(** ** Byte copies and fills *)

(** [memcpy] of lib_memcpy.c: bytes are copied one by one in ascending order.
    A byte that was never written (its key is absent) stays indeterminate. *)
Fixpoint memcpy (n : nat) (dest src : ptr) (b : gmap Z Z) : gmap Z Z :=
  match n with
  | O => b
  | S n => memcpy n (dest + 1) (src + 1) (partial_alter (fun _ => b !! src) dest b)
  end.

(** [memset] of lib_memset.c. *)
Fixpoint memset (n : nat) (s : ptr) (c : Z) (b : gmap Z Z) : gmap Z Z :=
  match n with
  | O => b
  | S n => memset n (s + 1) c (<[s := u8 c]> b)
  end.

(** ** mm_realloc.c *)

(** How the missing [needed] bytes are divided between the free chunks before
    and after: [(takeprev, takenext)]. *)
Definition realloc_take (needed prevsize nextsize : Z) : Z * Z :=
  let '(takeprev, takenext, needed) :=
    if (0 <? prevsize) && ((prevsize <=? nextsize) || (nextsize <=? 0)) then
      if prevsize <? needed then (prevsize, u32 (needed - prevsize), 0)
      else (needed, 0, 0)
    else (0, 0, needed) in
  if (0 <? nextsize) && negb (needed =? 0) then
    if nextsize <? needed then (u32 (needed - nextsize), nextsize)
    else (0, needed)
  else (takeprev, takenext).

(** [Extend into the previous free chunk]: returns the node and its size. *)
Definition realloc_prev (base oldnode prev next : ptr) (oldsize prevsize takeprev : Z)
    (m : gmap Z mm_node) : res (ptr * Z * gmap Z mm_node) :=
  m ← mm_unlink prev m;
  let newnode := oldnode - takeprev in
  m ←
    (if takeprev <? prevsize then
       p ← deref m prev;
       let psize := u32 (mm_size p - takeprev) in
       m ← store (set_mm_size psize) prev m;
       let nsize := u32 (oldsize + takeprev) in
       m ← carve nsize (Z.lor psize MM_ALLOC_BIT) newnode m;
       x ← deref m next;
       m ← store (set_mm_preceding (Z.lor nsize (Z.land (mm_preceding x) MM_ALLOC_BIT))) next m;
       mm_addfreechunk base prev m
     else
       n ← deref m newnode;
       let nsize := u32 (mm_size n + oldsize) in
       m ← store (set_mm_size nsize) newnode m;
       m ← store (set_mm_preceding (Z.lor (mm_preceding n) MM_ALLOC_BIT)) newnode m;
       x ← deref m next;
       store (set_mm_preceding (Z.lor nsize (Z.land (mm_preceding x) MM_ALLOC_BIT))) next m);
  n ← deref m newnode;
  Ok (newnode, mm_size n, m).

(** [Extend into the next free chunk]. *)
Definition realloc_next (base oldnode next : ptr) (oldsize nextsize takenext : Z)
    (m : gmap Z mm_node) : res (gmap Z mm_node) :=
  let andbeyond := next + nextsize in
  m ← mm_unlink next m;
  let osize := u32 (oldsize + takenext) in
  m ← store (set_mm_size osize) oldnode m;
  let newnode := oldnode + osize in
  if takenext <? nextsize then
    let nsize := u32 (nextsize - takenext) in
    m ← carve nsize osize newnode m;
    b ← deref m andbeyond;
    m ← store (set_mm_preceding (Z.lor nsize (Z.land (mm_preceding b) MM_ALLOC_BIT))) andbeyond m;
    mm_addfreechunk base newnode m
  else
    b ← deref m andbeyond;
    store (set_mm_preceding (Z.lor osize (Z.land (mm_preceding b) MM_ALLOC_BIT))) andbeyond m.

Definition realloc (my_pid : Z) (oldmem : ptr) (size : Z) (st : mm_state) : res (ptr * mm_state) :=
  if decide (oldmem = NULL) then malloc my_pid size st
  else if size <=? 0 then st ← free my_pid oldmem st; Ok (NULL, st)
  else
    let size := MM_ALIGN_UP (u32 (size + SIZEOF_MM_ALLOCNODE)) in
    let oldnode := oldmem - SIZEOF_MM_ALLOCNODE in
    let base := g_nodelist st in
    lk ← mm_takesemaphore my_pid (mm_lock st);
    let m := mm_nodes st in
    o ← deref m oldnode;
    let oldsize := mm_size o in
    if size <=? oldsize then
      m ← (if size <? oldsize then mm_shrinkchunk base oldnode size m else Ok m);
      lk ← mm_givesemaphore my_pid lk;
      Ok (oldmem, set_lock lk (set_nodes m st))
    else
      let next := oldnode + mm_size o in
      x ← deref m next;
      let nextsize := if Z.land (mm_preceding x) MM_ALLOC_BIT =? 0 then mm_size x else 0 in
      let prev := oldnode - Z.land (mm_preceding o) (not32 MM_ALLOC_BIT) in
      v ← deref m prev;
      let prevsize := if Z.land (mm_preceding v) MM_ALLOC_BIT =? 0 then mm_size v else 0 in
      if size <=? u32 (u32 (nextsize + prevsize) + oldsize) then
        let '(takeprev, takenext) := realloc_take (u32 (size - oldsize)) prevsize nextsize in
        '(oldnode, oldsize, newmem, bytes, m) ←
          (if negb (takeprev =? 0) then
             '(newnode, nsize, m) ← realloc_prev base oldnode prev next oldsize prevsize takeprev m;
             let newmem := newnode + SIZEOF_MM_ALLOCNODE in
             Ok (newnode, nsize, newmem,
                 memcpy (Z.to_nat (u32 (nsize - SIZEOF_MM_ALLOCNODE))) newmem oldmem (mm_bytes st), m)
           else Ok (oldnode, oldsize, oldmem, mm_bytes st, m));
        m ←
          (if negb (takenext =? 0) then realloc_next base oldnode next oldsize nextsize takenext m
           else Ok m);
        lk ← mm_givesemaphore my_pid lk;
        Ok (newmem, set_lock lk (set_bytes bytes (set_nodes m st)))
      else
        lk ← mm_givesemaphore my_pid lk;
        '(newmem, st) ← malloc my_pid size (set_lock lk st);
        if decide (newmem = NULL) then Ok (newmem, st)
        else
          st ← free my_pid oldmem
                 (set_bytes (memcpy (Z.to_nat oldsize) newmem oldmem (mm_bytes st)) st);
          Ok (newmem, st).

(** ** mm_memalign.c *)

(** [Check if there is free space at the beginning of the aligned chunk]: the
    aligned node, the aligned pointer, the size available and the nodes. *)
Definition memalign_lead (base node rawchunk alignedchunk alignment : Z) (m : gmap Z mm_node) :
    res (ptr * ptr * Z * gmap Z mm_node) :=
  n ← deref m node;
  let next := node + mm_size n in
  _ ← c_assert (rawchunk + 8 <=? alignedchunk);
  let newnode := alignedchunk - SIZEOF_MM_ALLOCNODE in
  let precedingsize := u32 (newnode - node) in
  let '(alignedchunk, newnode, precedingsize) :=
    if precedingsize <? SIZEOF_MM_FREENODE then
      let alignedchunk := u32 (alignedchunk + alignment) in
      let newnode := alignedchunk - SIZEOF_MM_ALLOCNODE in
      (alignedchunk, newnode, u32 (newnode - node))
    else (alignedchunk, newnode, precedingsize) in
  let nsize := u32 (next - newnode) in
  m ← carve nsize (Z.lor precedingsize MM_ALLOC_BIT) newnode m;
  m ← store (set_mm_size precedingsize) node m;
  n ← deref m node;
  m ← store (set_mm_preceding (Z.land (mm_preceding n) (not32 MM_ALLOC_BIT))) node m;
  x ← deref m next;
  m ← store (set_mm_preceding (Z.lor nsize (Z.land (mm_preceding x) MM_ALLOC_BIT))) next m;
  m ← mm_addfreechunk base node m;
  Ok (newnode, alignedchunk, u32 (nsize - SIZEOF_MM_ALLOCNODE), m).

Definition memalign (my_pid : Z) (alignment size : Z) (st : mm_state) : res (ptr * mm_state) :=
  let mask := u32 (alignment - 1) in
  if alignment <=? MM_MIN_CHUNK then malloc my_pid size st
  else
    let size := MM_ALIGN_UP size in
    let allocsize := u32 (size + 2 * alignment) in
    '(rawchunk, st) ← malloc my_pid allocsize st;
    if decide (rawchunk = NULL) then Ok (NULL, st)
    else
      lk ← mm_takesemaphore my_pid (mm_lock st);
      let node := rawchunk - SIZEOF_MM_ALLOCNODE in
      let alignedchunk := Z.land (u32 (rawchunk + mask)) (not32 mask) in
      '(node, alignedchunk, allocsize, m) ←
        (if negb (alignedchunk =? rawchunk) then
           memalign_lead (g_nodelist st) node rawchunk alignedchunk alignment (mm_nodes st)
         else Ok (node, alignedchunk, allocsize, mm_nodes st));
      m ←
        (if size <? allocsize then
           mm_shrinkchunk (g_nodelist st) node (u32 (size + SIZEOF_MM_ALLOCNODE)) m
         else Ok m);
      lk ← mm_givesemaphore my_pid lk;
      Ok (alignedchunk, set_lock lk (set_nodes m st)).

(** ** mm_zalloc.c and mm_calloc.c *)

Definition zalloc (my_pid : Z) (size : Z) (st : mm_state) : res (ptr * mm_state) :=
  '(alloc, st) ← malloc my_pid size st;
  if decide (alloc = NULL) then Ok (alloc, st)
  else Ok (alloc, set_bytes (memset (Z.to_nat size) alloc 0 (mm_bytes st)) st).

Definition calloc (my_pid : Z) (n elem_size : Z) (st : mm_state) : res (ptr * mm_state) :=
  if (0 <? n) && (0 <? elem_size) then zalloc my_pid (u32 (n * elem_size)) st
  else Ok (NULL, st).

(** ** mm_mallinfo.c *)

Record mallinfo_s : Type := Mallinfo {
  arena : Z;
  ordblks : Z;
  mxordblk : Z;
  uordblks : Z;
  fordblks : Z
}.

(** The visit of one region: [for (node = start; node < end; node += node->size)]. *)
Fixpoint mallinfo_region (fuel : nat) (m : gmap Z mm_node) (node heapend : ptr) (i : mallinfo_s) :
    res (ptr * mallinfo_s) :=
  match fuel with
  | O => Err FFuel
  | S fuel =>
      if node <? heapend then
        n ← deref m node;
        let i :=
          if negb (Z.land (mm_preceding n) MM_ALLOC_BIT =? 0) then
            Mallinfo (arena i) (ordblks i) (mxordblk i) (u32 (uordblks i + mm_size n)) (fordblks i)
          else
            Mallinfo (arena i) (ordblks i + 1)
              (if mxordblk i <? mm_size n then mm_size n else mxordblk i)
              (uordblks i) (u32 (fordblks i + mm_size n)) in
        mallinfo_region fuel m (node + mm_size n) heapend i
      else Ok (node, i)
  end.

Fixpoint mallinfo_regions (m : gmap Z mm_node) (heaps : list (ptr * ptr)) (i : mallinfo_s) :
    res mallinfo_s :=
  match heaps with
  | [] => Ok i
  | (heapstart, heapend) :: heaps =>
      '(node, i) ← mallinfo_region (list_fuel m) m heapstart heapend i;
      _ ← c_assert (node =? heapend);
      mallinfo_regions m heaps
        (Mallinfo (arena i) (ordblks i) (mxordblk i) (u32 (uordblks i + SIZEOF_MM_ALLOCNODE)) (fordblks i))
  end.

Definition mallinfo (st : mm_state) : res mallinfo_s :=
  i ← mallinfo_regions (mm_nodes st) (take (g_nregions st) (zip (g_heapstart st) (g_heapend st)))
        (Mallinfo (g_heapsize st) 0 0 0 0);
  _ ← c_assert (u32 (uordblks i + fordblks i) =? g_heapsize st);
  Ok i.
