(* ===== verification/MmInv.v ===== *)
(** * The memory manager: the heap invariant and its lemmas

    The abstract heap is a list of regions, each a base address and the sizes
    and states of the chunks that tile it.  [heap_repr] relates it to the node
    map: the headers of the chunks, and the doubly linked node list in which
    the 19 entries of g_nodelist alternate with the free chunks of their size
    class, in ascending order. *)

From Stdlib Require Import Sorted.
From S2P Require Import Prelude Queue Mm.

(** ** Chunks *)

(** The value of a [preceding] field. *)
Definition prec (s : Z) (b : bool) : Z := if b then Z.lor s MM_ALLOC_BIT else s.

Record chunk : Type := Ck {
  c_addr : Z;
  c_size : Z;
  c_prev : Z;
  c_alloc : bool
}.

(** The chunks with sizes and states [l] laid out from address [a] on, after a
    chunk of size [p]. *)
Fixpoint locate (a p : Z) (l : list (Z * bool)) : list chunk :=
  match l with
  | [] => []
  | (s, b) :: l => Ck a s p b :: locate (a + s) s l
  end.

Definition total (l : list (Z * bool)) : Z := foldr (fun c t => fst c + t) 0 l.
Definition lastsize (p : Z) (l : list (Z * bool)) : Z := default p (fst <$> last l).

Definition region : Type := Z * list (Z * bool).

Definition chunks_of (rs : list region) : list chunk := rs ≫= fun r => locate r.1 0 r.2.

Definition free_addrs (cs : list chunk) : list Z :=
  c_addr <$> filter (fun c => c_alloc c = false) cs.

(** ** The node map holds the chunks' headers *)

Definition has_header (m : gmap Z mm_node) (c : chunk) : Prop :=
  exists n, m !! c_addr c = Some n /\ mm_size n = c_size c
    /\ mm_preceding n = prec (c_prev c) (c_alloc c).

Definition has_headers (m : gmap Z mm_node) (cs : list chunk) : Prop := Forall (has_header m) cs.

(** ** The node list *)

(** The list through g_nodelist[i], the chunks of bucket i, g_nodelist[i+1], ... *)
Fixpoint weave (base i : Z) (bs : list (list Z)) : list Z :=
  match bs with
  | [] => []
  | b :: bs => nodelist base i :: b ++ weave base (i + 1) bs
  end.

Definition node_size (m : gmap Z mm_node) (x : Z) : Z := from_option mm_size 0 (m !! x).

Definition bucket_ok (m : gmap Z mm_node) (i : Z) (b : list Z) : Prop :=
  Forall (fun x => mm_size2ndx (node_size m x) = i /\ 0 < node_size m x) b
  /\ StronglySorted (fun x y => node_size m x <= node_size m y) b.

Record nodelist_ok (m : gmap Z mm_node) (base : Z) (bs : list (list Z)) : Prop := NodelistOk {
  nl_seg : dseg m NULL (weave base 0 bs) NULL;
  nl_nodup : NoDup (weave base 0 bs);
  nl_nonnull : NULL ∉ weave base 0 bs;
  nl_len : Z.of_nat (length bs) = MM_NNODES;
  nl_heads : forall i, 0 <= i < MM_NNODES -> node_size m (nodelist base i) = 0;
  nl_buckets : forall i b, bs !! i = Some b -> bucket_ok m (Z.of_nat i) b
}.

(** ** The [preceding] field *)

Lemma alloc_bit_pow : MM_ALLOC_BIT = 2 ^ 31.
Proof. reflexivity. Qed.

Lemma land_alloc_small s : 0 <= s < 2 ^ 31 -> Z.land s MM_ALLOC_BIT = 0.
Proof.
  intros Hs. rewrite alloc_bit_pow. apply Z.bits_inj'. intros i Hi.
  rewrite Z.land_spec, Z.bits_0, Z.pow2_bits_eqb by lia.
  destruct (Z.eqb_spec 31 i) as [<-|]; [|by rewrite andb_false_r].
  rewrite andb_true_r. destruct (decide (s = 0)) as [->|]; [apply Z.bits_0|].
  apply Z.bits_above_log2; [lia|]. apply Z.log2_lt_pow2; lia.
Qed.

Lemma land_alloc_prec s b :
  0 <= s < 2 ^ 31 -> Z.land (prec s b) MM_ALLOC_BIT = if b then MM_ALLOC_BIT else 0.
Proof.
  intros Hs. destruct b; simpl; [|by apply land_alloc_small].
  rewrite Z.land_lor_distr_l, land_alloc_small, Z.land_diag by done. apply Z.lor_0_l.
Qed.

(** [s | (preceding & MM_ALLOC_BIT)] *)
Lemma lor_land_prec s s' b :
  0 <= s' < 2 ^ 31 -> Z.lor s (Z.land (prec s' b) MM_ALLOC_BIT) = prec s b.
Proof. intros Hs. rewrite land_alloc_prec by done. destruct b; [done|]. apply Z.lor_0_r. Qed.

Lemma lor_alloc_prec s b : Z.lor (prec s b) MM_ALLOC_BIT = prec s true.
Proof. destruct b; simpl; [|done]. by rewrite <- Z.lor_assoc, Z.lor_diag. Qed.

(** [preceding & ~MM_ALLOC_BIT] *)
Lemma land_not_alloc s b : 0 <= s < 2 ^ 31 -> Z.land (prec s b) (not32 MM_ALLOC_BIT) = s.
Proof.
  intros Hs. change (not32 MM_ALLOC_BIT) with (Z.ones 31).
  rewrite Z.land_ones by lia. destruct b; simpl; [|by apply Z.mod_small].
  rewrite <- (Z.lxor_lor s MM_ALLOC_BIT), <- Z.add_nocarry_lxor by (by apply land_alloc_small).
  rewrite alloc_bit_pow, <- (Z.mul_1_l (2 ^ 31)), Z.mod_add by lia. by apply Z.mod_small.
Qed.

Lemma prec_zero_bit s b : 0 <= s < 2 ^ 31 -> (Z.land (prec s b) MM_ALLOC_BIT =? 0) = negb b.
Proof. intros Hs. rewrite land_alloc_prec by done. by destruct b. Qed.

(** ** Size classes *)

Lemma size2ndx_loop_log2 fuel s ndx :
  0 <= s -> Z.log2 s <= Z.of_nat fuel -> size2ndx_loop fuel s ndx = ndx + Z.log2 s.
Proof.
  revert s ndx. induction fuel as [|fuel IH]; intros s ndx Hs Hl.
  - simpl. pose proof (Z.log2_nonneg s). lia.
  - cbn [size2ndx_loop]. destruct (Z.ltb_spec 1 s) as [H1|H1].
    + assert (0 < Z.log2 s) by (apply Z.log2_pos; lia).
      assert (Z.log2 (Z.shiftr s 1) = Z.log2 s - 1) as E
        by (rewrite Z.log2_shiftr by lia; lia).
      rewrite IH; [lia| |lia]. apply Z.shiftr_nonneg. lia.
    + assert (s = 0 \/ s = 1) as [->| ->] by lia; change (Z.log2 _) with 0; lia.
Qed.

Lemma mm_size2ndx_log2 s : 0 <= s -> mm_size2ndx s = Z.min 18 (Z.log2 (s / 16)).
Proof.
  intros Hs. unfold mm_size2ndx. change MM_MAX_CHUNK with (2 ^ 22). change (MM_NNODES - 1) with 18.
  rewrite Z.shiftr_div_pow2 by done. change (2 ^ MM_MIN_SHIFT) with 16.
  destruct (Z.leb_spec (2 ^ 22) s) as [H|H].
  - assert (18 <= Z.log2 (s / 16)); [|lia].
    apply Z.log2_le_pow2; [|]; change (2 ^ 18) with (2 ^ 22 / 16).
    + apply Z.div_str_pos. lia.
    + apply Z.div_le_mono; lia.
  - assert (s / 16 < 2 ^ 18) as Hlt by (apply Z.div_lt_upper_bound; lia).
    assert (0 <= s / 16) by (apply Z.div_pos; lia).
    assert (Z.log2 (s / 16) < 18) as Hl.
    { destruct (decide (s / 16 = 0)) as [->|]; [done|]. apply Z.log2_lt_pow2; lia. }
    rewrite size2ndx_loop_log2 by lia. lia.
Qed.

Lemma mm_size2ndx_range s : 0 <= s -> 0 <= mm_size2ndx s < MM_NNODES.
Proof.
  intros Hs. rewrite mm_size2ndx_log2 by done. pose proof (Z.log2_nonneg (s / 16)).
  change MM_NNODES with 19. lia.
Qed.

Lemma mm_size2ndx_mono s s' : 0 <= s <= s' -> mm_size2ndx s <= mm_size2ndx s'.
Proof.
  intros Hs. rewrite !mm_size2ndx_log2 by lia.
  assert (Z.log2 (s / 16) <= Z.log2 (s' / 16)); [|lia].
  apply Z.log2_le_mono, Z.div_le_mono; lia.
Qed.

(** ** The node list as a list of buckets *)

Definition heads (base i : Z) (n : nat) : list Z := nodelist base <$> seqZ i (Z.of_nat n).

Lemma heads_S base i n : heads base i (S n) = nodelist base i :: heads base (i + 1) n.
Proof.
  unfold heads. rewrite Nat2Z.inj_succ, seqZ_cons by lia. simpl. f_equal. f_equal.
  f_equal; lia.
Qed.

Lemma weave_perm base i bs : weave base i bs ≡ₚ heads base i (length bs) ++ concat bs.
Proof.
  revert i. induction bs as [|b bs IH]; intros i; [done|]. cbn [weave length concat].
  rewrite heads_S, (IH (i + 1)). simpl. constructor. by rewrite Permutation_app_swap_app.
Qed.

Lemma elem_of_heads base i n x :
  x ∈ heads base i n <-> exists k, x = nodelist base k /\ i <= k < i + Z.of_nat n.
Proof.
  unfold heads. rewrite list_elem_of_fmap. setoid_rewrite elem_of_seqZ. naive_solver.
Qed.

Lemma weave_app base i bs1 bs2 :
  weave base i (bs1 ++ bs2) = weave base i bs1 ++ weave base (i + Z.of_nat (length bs1)) bs2.
Proof.
  revert i. induction bs1 as [|b bs1 IH]; intros i; [simpl; f_equal; lia|].
  cbn [app weave length]. rewrite (IH (i + 1)), <- app_assoc. simpl.
  do 3 f_equal. f_equal. lia.
Qed.

Lemma weave_mid base bs1 b bs2 :
  weave base 0 (bs1 ++ b :: bs2) =
  weave base 0 bs1 ++ nodelist base (Z.of_nat (length bs1)) :: b
    ++ weave base (Z.of_nat (length bs1) + 1) bs2.
Proof. rewrite weave_app. simpl. by rewrite Z.add_0_l. Qed.

Lemma node_size_frame s m m' x : frame dunlink s m m' -> node_size m' x = node_size m x.
Proof.
  intros [_ Hf]. specialize (Hf x). unfold node_size.
  destruct (m !! x), (m' !! x); try done. simpl in *. unfold dunlink in Hf. simpl in Hf. congruence.
Qed.

Lemma bucket_ok_frame s m m' i b : frame dunlink s m m' -> bucket_ok m i b -> bucket_ok m' i b.
Proof.
  intros Hf [H1 H2]. pose proof (node_size_frame s m m') as Hn. split.
  - eapply Forall_impl; [done|]. intros x. by rewrite (Hn x Hf).
  - clear H1. induction H2 as [|x b Hs IH Hx]; constructor; [done|].
    eapply Forall_impl; [done|]. intros y. simpl. by rewrite !(Hn _ Hf).
Qed.

Lemma nodelist_elem m base bs x i b :
  nodelist_ok m base bs -> bs !! i = Some b -> x ∈ b ->
  mm_size2ndx (node_size m x) = Z.of_nat i /\ 0 < node_size m x.
Proof.
  intros Hn Hb Hx. destruct (nl_buckets _ _ _ Hn i b Hb) as [Hf _].
  rewrite Forall_forall in Hf. by apply Hf.
Qed.

(** The bucket of a size class, and the rest of the list after it. *)
Lemma nodelist_split m base bs i :
  nodelist_ok m base bs -> 0 <= i < MM_NNODES ->
  exists bs1 b bs2, bs = bs1 ++ b :: bs2 /\ Z.of_nat (length bs1) = i /\ bucket_ok m i b
    /\ (weave base (i + 1) bs2 = [] \/ node_size m (hdp NULL (weave base (i + 1) bs2)) = 0).
Proof.
  intros Hn Hi. pose proof (nl_len _ _ _ Hn) as Hlen.
  destruct (bs !! Z.to_nat i) as [b|] eqn:Hb.
  2:{ apply lookup_ge_None in Hb. lia. }
  pose proof (nl_buckets _ _ _ Hn _ _ Hb) as Hbo. rewrite Z2Nat.id in Hbo by lia.
  apply list_elem_of_split_length in Hb as (bs1 & bs2 & -> & Hl).
  exists bs1, b, bs2. split; [done|]. split; [lia|]. split; [done|].
  destruct bs2 as [|b2 bs2]; [by left|]. right. simpl. apply (nl_heads _ _ _ Hn).
  rewrite length_app in Hlen. simpl in Hlen. lia.
Qed.

(** ** Adding to and removing from the node list *)

Lemma dseg_length {N} `{DLinked N} (m : gmap Z N) p l n :
  NoDup l -> NULL ∉ l -> dseg m p l n -> (length l <= size m)%nat.
Proof.
  intros Hd H0 Hs. rewrite <- (size_list_to_set (C := gset Z)) by done.
  rewrite <- size_dom. apply subseteq_size. intros x Hx.
  apply elem_of_list_to_set in Hx. apply elem_of_dom.
  by eapply (dseg_valid m p l n).
Qed.

Lemma node_size_lookup m x n : m !! x = Some n -> node_size m x = mm_size n.
Proof. unfold node_size. by intros ->. Qed.

Lemma addfree_search_spec fuel m s p prev b tl :
  dseg m p (b ++ tl) NULL -> NULL ∉ b ++ tl ->
  Forall (fun x => 0 < node_size m x) b ->
  (tl = [] \/ node_size m (hdp NULL tl) = 0) -> (length b < fuel)%nat ->
  exists b1 b2, b = b1 ++ b2
    /\ addfree_search fuel m s prev (hdp NULL (b ++ tl)) = Ok (lastp prev b1, hdp NULL (b2 ++ tl))
    /\ Forall (fun x => node_size m x < s) b1
    /\ (b2 = [] \/ s <= node_size m (hdp NULL b2)).
Proof.
  revert p prev b. induction fuel as [|fuel IH]; intros p prev b Hs H0 Hpos Htl Hf; [lia|].
  destruct b as [|x b].
  - exists [], []. split; [done|]. cbn [addfree_search app]. split; [|by auto].
    destruct tl as [|t tl]; simpl in *; [done|]. rewrite decide_False by set_solver.
    destruct Hs as [(n & Hn & _) _]. rewrite (deref_Some _ _ n) by set_solver.
    destruct Htl as [|Hz]; [done|]. rewrite (node_size_lookup _ _ n) in Hz by done.
    cbn [mbind res_bind]. rewrite Hz. done.
  - destruct Hs as [(n & Hn & Hfl & _) Hs]. fold (b ++ tl) in *. change ((x :: b) ++ tl) with (x :: b ++ tl) in *.
    apply Forall_cons in Hpos as [Hx Hpos]. rewrite (node_size_lookup _ _ n) in Hx by done.
    cbn [addfree_search head default from_option id]. rewrite decide_False by set_solver.
    rewrite (deref_Some _ _ n) by set_solver. cbn [mbind res_bind].
    destruct (Z.eqb_spec (mm_size n) 0) as [|_]; [lia|]. cbn [negb andb].
    destruct (Z.ltb_spec (mm_size n) s) as [Hlt|Hge].
    + destruct (IH x x b) as (b1 & b2 & -> & Hr & Hb1 & Hb2); [done|set_solver|done|done|simpl in Hf; lia|].
      exists (x :: b1), b2. split; [done|]. change (mm_flink n) with (flink n). rewrite Hfl, Hr.
      rewrite lastp_cons. split; [done|]. split; [|done]. constructor; [|done].
      by rewrite (node_size_lookup _ _ n).
    + exists [], (x :: b). split; [done|]. split; [done|]. split; [done|]. right.
      simpl. by rewrite (node_size_lookup _ _ n).
Qed.

Lemma sorted_insert m b1 b2 x :
  StronglySorted (fun x y => node_size m x <= node_size m y) (b1 ++ b2) ->
  Forall (fun y => node_size m y < node_size m x) b1 ->
  (b2 = [] \/ node_size m x <= node_size m (hdp NULL b2)) ->
  StronglySorted (fun x y => node_size m x <= node_size m y) (b1 ++ x :: b2).
Proof.
  induction b1 as [|y b1 IH]; intros Hs Hb1 Hb2; simpl in *.
  - constructor; [done|]. destruct b2 as [|z b2]; [done|]. destruct Hb2 as [|Hz]; [done|]. simpl in Hz.
    inversion Hs as [|? ? ? Hz']; subst. constructor; [done|].
    eapply Forall_impl; [done|]. simpl. intros. lia.
  - inversion Hs as [|? ? ? Hy]; subst. inversion Hb1 as [|? ? Hyx ?]; subst. constructor; [by apply IH|].
    rewrite Forall_app in Hy |- *. destruct Hy. split; [done|]. constructor; [lia|done].
Qed.

Lemma nodelist_ok_update m m' base bs1 b b' bs2 s :
  nodelist_ok m base (bs1 ++ b :: bs2) -> frame dunlink s m m' ->
  dseg m' NULL (weave base 0 (bs1 ++ b' :: bs2)) NULL ->
  NoDup (weave base 0 (bs1 ++ b' :: bs2)) -> NULL ∉ weave base 0 (bs1 ++ b' :: bs2) ->
  bucket_ok m (Z.of_nat (length bs1)) b' ->
  nodelist_ok m' base (bs1 ++ b' :: bs2).
Proof.
  intros Hn Hf Hs Hd H0 Hb. split; [done|done|done| | |].
  - rewrite <- (nl_len _ _ _ Hn), !length_app. done.
  - intros i Hi. rewrite (node_size_frame _ _ _ _ Hf). by apply (nl_heads _ _ _ Hn).
  - intros i c Hc. apply (bucket_ok_frame _ _ _ _ _ Hf).
    destruct (decide (i = length bs1)) as [->|Hne].
    + rewrite list_lookup_middle in Hc by done. by simplify_eq.
    + apply (nl_buckets _ _ _ Hn). rewrite <- Hc. rewrite !lookup_app.
      destruct (bs1 !! i) eqn:E; [done|]. apply lookup_ge_None in E.
      destruct (i - length bs1)%nat eqn:E2; [lia|done].
Qed.

Lemma perm_mid2 {A} (l1 l2 l3 : list A) h x :
  l1 ++ h :: l2 ++ x :: l3 ≡ₚ x :: l1 ++ h :: l2 ++ l3.
Proof.
  replace (l1 ++ h :: l2 ++ x :: l3) with ((l1 ++ h :: l2) ++ x :: l3) by (by rewrite <- app_assoc).
  replace (l1 ++ h :: l2 ++ l3) with ((l1 ++ h :: l2) ++ l3) by (by rewrite <- app_assoc).
  symmetry. apply Permutation_middle.
Qed.

Lemma nodup_weave_insert base bs1 b1 x b2 bs2 :
  x ∉ weave base 0 (bs1 ++ (b1 ++ b2) :: bs2) ->
  NoDup (weave base 0 (bs1 ++ (b1 ++ b2) :: bs2)) ->
  NoDup (weave base 0 (bs1 ++ (b1 ++ x :: b2) :: bs2)).
Proof.
  intros Hx Hd. assert (weave base 0 (bs1 ++ (b1 ++ x :: b2) :: bs2) ≡ₚ
    x :: weave base 0 (bs1 ++ (b1 ++ b2) :: bs2)) as ->; [|by constructor].
  rewrite !weave_mid, <- !app_assoc. apply perm_mid2.
Qed.

Lemma weave_mid_split base bs1 b1 b2 bs2 :
  weave base 0 (bs1 ++ (b1 ++ b2) :: bs2) =
  (weave base 0 bs1 ++ nodelist base (Z.of_nat (length bs1)) :: b1)
    ++ b2 ++ weave base (Z.of_nat (length bs1) + 1) bs2.
Proof. by rewrite weave_mid, <- !app_assoc. Qed.

(** Linking [x] between the two parts of the bucket of its size class. *)
Lemma nodelist_insert m m' base bs1 b1 b2 bs2 x l1 l2 :
  nodelist_ok m base (bs1 ++ (b1 ++ b2) :: bs2) -> valid m x ->
  x ∉ weave base 0 (bs1 ++ (b1 ++ b2) :: bs2) ->
  mm_size2ndx (node_size m x) = Z.of_nat (length bs1) -> 0 < node_size m x ->
  Forall (fun y => node_size m y < node_size m x) b1 ->
  (b2 = [] \/ node_size m x <= node_size m (hdp NULL b2)) ->
  l1 = weave base 0 bs1 ++ nodelist base (Z.of_nat (length bs1)) :: b1 ->
  l2 = b2 ++ weave base (Z.of_nat (length bs1) + 1) bs2 ->
  spliced m m' (lastp NULL l1) x (hdp NULL l2) ->
  exists bs', nodelist_ok m' base bs' /\ concat bs' ≡ₚ x :: concat (bs1 ++ (b1 ++ b2) :: bs2)
    /\ frame dunlink (x :: weave base 0 (bs1 ++ (b1 ++ b2) :: bs2)) m m'.
Proof.
  intros Hn Hv Hx Hidx Hpos Hlt Hge El1 El2 Hsp. exists (bs1 ++ (b1 ++ x :: b2) :: bs2).
  pose proof (weave_mid_split base bs1 b1 b2 bs2) as Ew. rewrite <- El1, <- El2 in Ew.
  pose proof (nl_seg _ _ _ Hn) as Hseg. pose proof (nl_nodup _ _ _ Hn) as Hd.
  pose proof (nl_nonnull _ _ _ Hn) as H0.
  destruct (nl_buckets _ _ _ Hn (length bs1) (b1 ++ b2)) as [Hb1 Hb2]; [by rewrite list_lookup_middle|].
  assert (frame dunlink (x :: l1 ++ l2) m m') as Hfr.
  { eapply (spliced_frame _ _ _ x _ (x :: l1 ++ l2)); [| |set_solver|done]; intros E.
    - assert (lastp NULL l1 ∈ l1); [|set_solver]. apply lastp_elem. by intros E'; rewrite E' in E.
    - assert (hdp NULL l2 ∈ l2); [|set_solver]. apply hdp_elem. by intros E'; rewrite E' in E. }
  rewrite Ew in Hx, Hseg, Hd, H0 |- *. split; [|split; [|done]].
  - eapply nodelist_ok_update; [done|done| | | |].
    + rewrite weave_mid_split, <- El1. simpl. rewrite <- El2. by apply (dseg_splice m).
    + apply nodup_weave_insert; by rewrite Ew.
    + rewrite weave_mid_split, <- El1. simpl. rewrite <- El2. apply valid_ne in Hv. set_solver.
    + split; [|by apply sorted_insert].
      rewrite Forall_app in Hb1 |- *. destruct Hb1. split; [done|]. by constructor.
  - rewrite !concat_app. cbn [concat]. rewrite <- !app_assoc. cbn [app].
    rewrite (app_assoc _ b1 (x :: _)), (app_assoc _ b1 (b2 ++ _)). symmetry. apply Permutation_middle.
Qed.

Lemma mm_addfreechunk_spec m base bs x n :
  nodelist_ok m base bs -> m !! x = Some n -> x <> NULL -> x ∉ weave base 0 bs -> 0 < mm_size n ->
  wp (mm_addfreechunk base x m) (fun m' => exists bs', nodelist_ok m' base bs'
    /\ concat bs' ≡ₚ x :: concat bs /\ frame dunlink (x :: weave base 0 bs) m m').
Proof.
  intros Hn Hx Hx0 Hxw Hsz. pose proof (node_size_lookup _ _ _ Hx) as Hns.
  assert (valid m x) as Hvx by (split; eauto).
  unfold mm_addfreechunk. apply wp_bind. eapply wp_deref; [done..|]. cbn beta zeta.
  destruct (nodelist_split m base bs (mm_size2ndx (mm_size n))) as (bs1 & b & bs2 & -> & Hl & Hb & Htl);
    [done|apply mm_size2ndx_range; lia|]. rewrite <- Hl in *.
  pose proof (nl_seg _ _ _ Hn) as Hseg. pose proof (nl_nodup _ _ _ Hn) as Hd.
  pose proof (nl_nonnull _ _ _ Hn) as H0. rewrite weave_mid in Hseg, Hd, H0.
  destruct (dseg_lookup _ _ _ _ _ _ Hseg) as (k & Hk & Hkf & _).
  apply wp_bind. eapply wp_deref; [set_solver|done|]. cbn beta.
  change (mm_flink k) with (flink k). rewrite Hkf.
  destruct (addfree_search_spec (list_fuel m) m (mm_size n)
    (nodelist base (Z.of_nat (length bs1))) (nodelist base (Z.of_nat (length bs1))) b
    (weave base (Z.of_nat (length bs1) + 1) bs2)) as (b1 & b2 & -> & -> & Hlt & Hge).
  { rewrite dseg_app in Hseg. by destruct Hseg as [_ [_ ?]]. }
  { set_solver. }
  { eapply Forall_impl; [apply Hb|]. by intros y []. }
  { done. }
  { pose proof (dseg_length _ _ _ _ Hd H0 Hseg) as Hle. rewrite length_app in Hle. simpl in Hle.
    rewrite length_app in Hle. unfold list_fuel. lia. }
  apply wp_bind, wp_ret. cbn beta iota.
  rewrite <- (lastp_mid NULL (weave base 0 bs1) b1 _).
  pose proof (weave_mid_split base bs1 b1 b2 bs2) as Ew. rewrite <- weave_mid, Ew in Hseg, Hd, H0.
  rewrite <- Hns in Hlt, Hge. rewrite <- Hns in Hl, Hsz.
  pose proof (fun m' => nodelist_insert m m' base bs1 b1 b2 bs2 x _ _ Hn Hvx Hxw (eq_sym Hl) Hsz Hlt Hge
    eq_refl eq_refl) as Hfin.
  rewrite Ew in Hxw.
  set (l1 := weave base 0 bs1 ++ _ :: b1) in *. set (l2 := b2 ++ weave base _ bs2) in *.
  assert (lastp NULL l1 ∈ l1) as Hpin by (apply lastp_elem; unfold l1; by destruct (weave base 0 bs1)).
  assert (valid m (lastp NULL l1)) as Hvp by (eapply dseg_valid; [done|done|set_solver]).
  pose proof (valid_ne _ _ Hvp). assert (lastp NULL l1 <> x) by (intros E; rewrite E in Hpin; set_solver).
  destruct (decide (hdp NULL l2 = NULL)) as [E2|E2].
  - rewrite E2 in *. wp_go. apply Hfin. solve_splice x (lastp NULL l1) NULL.
  - assert (hdp NULL l2 ∈ l2) as Hnin by (apply hdp_elem; by intros E; rewrite E in E2).
    assert (valid m (hdp NULL l2)) as Hvn by (eapply dseg_valid; [done|done|set_solver]).
    assert (hdp NULL l2 <> x) by (intros E; rewrite E in Hnin; set_solver).
    assert (lastp NULL l1 <> hdp NULL l2).
    { intros E. apply NoDup_app in Hd as (_ & Hd & _). apply (Hd (lastp NULL l1)); [done|by rewrite E]. }
    wp_go. apply Hfin. solve_splice x (lastp NULL l1) (hdp NULL l2).
Qed.

(** Bypassing a free chunk of the node list. *)
Lemma nodelist_remove m m' base bs1 b1 x b2 bs2 l1 l2 s :
  nodelist_ok m base (bs1 ++ (b1 ++ x :: b2) :: bs2) ->
  l1 = weave base 0 bs1 ++ nodelist base (Z.of_nat (length bs1)) :: b1 ->
  l2 = b2 ++ weave base (Z.of_nat (length bs1) + 1) bs2 ->
  bypassed m m' (lastp NULL l1) x (hdp NULL l2) -> frame dunlink s m m' ->
  nodelist_ok m' base (bs1 ++ (b1 ++ b2) :: bs2) /\ x ∉ weave base 0 (bs1 ++ (b1 ++ b2) :: bs2).
Proof.
  intros Hn El1 El2 Hby Hf.
  pose proof (weave_mid_split base bs1 b1 (x :: b2) bs2) as Ew. simpl in Ew. rewrite <- El1, <- El2 in Ew.
  pose proof (nl_seg _ _ _ Hn) as Hseg. pose proof (nl_nodup _ _ _ Hn) as Hd.
  pose proof (nl_nonnull _ _ _ Hn) as H0.
  destruct (nl_buckets _ _ _ Hn (length bs1) (b1 ++ x :: b2)) as [Hb1 Hb2]; [by rewrite list_lookup_middle|].
  pose proof (weave_mid_split base bs1 b1 b2 bs2) as Ew'. rewrite <- El1, <- El2 in Ew'.
  rewrite Ew in Hseg, Hd, H0. rewrite <- Permutation_middle in Hd.
  apply NoDup_cons in Hd as [Hx Hd]. split; [|by rewrite Ew'].
  eapply nodelist_ok_update; [done|done| | | |]; rewrite ?Ew'; [|done|set_solver|].
  - apply (dseg_unsplice m m' l1 x l2); [done| |done|done]. rewrite <- Permutation_middle. by constructor.
  - split; [rewrite Forall_app, Forall_cons in Hb1; rewrite Forall_app; naive_solver|].
    clear -Hb2. induction b1 as [|y b1 IH]; simpl in *; inversion Hb2 as [|? ? Hs Hy]; subst; [done|].
    constructor; [by apply IH|]. rewrite Forall_app, Forall_cons in Hy. rewrite Forall_app. naive_solver.
Qed.

Lemma mm_unlink_spec m base bs x :
  nodelist_ok m base bs -> x ∈ concat bs ->
  wp (mm_unlink x m) (fun m' => exists bs', nodelist_ok m' base bs'
    /\ concat bs ≡ₚ x :: concat bs' /\ x ∉ weave base 0 bs'
    /\ frame dunlink (weave base 0 bs) m m').
Proof.
  intros Hn Hx. apply list_elem_of_In, in_concat in Hx as (b & Hb & Hx).
  apply list_elem_of_In, list_elem_of_split in Hb as (bs1 & bs2 & ->).
  apply list_elem_of_In, list_elem_of_split in Hx as (b1 & b2 & ->).
  pose proof (fun m' s => nodelist_remove m m' base bs1 b1 x b2 bs2 _ _ s Hn eq_refl eq_refl) as Hfin.
  pose proof (weave_mid_split base bs1 b1 (x :: b2) bs2) as Ew. simpl in Ew.
  set (l1 := weave base 0 bs1 ++ _ :: b1) in *. set (l2 := b2 ++ weave base _ bs2) in *.
  pose proof (nl_seg _ _ _ Hn) as Hseg. pose proof (nl_nodup _ _ _ Hn) as Hd.
  pose proof (nl_nonnull _ _ _ Hn) as H0. rewrite Ew in Hseg, Hd, H0 |- *.
  assert (forall m', bypassed m m' (lastp NULL l1) x (hdp NULL l2) ->
    frame dunlink (l1 ++ x :: l2) m m' -> exists bs', nodelist_ok m' base bs'
    /\ concat (bs1 ++ (b1 ++ x :: b2) :: bs2) ≡ₚ x :: concat bs' /\ x ∉ weave base 0 bs'
    /\ frame dunlink (l1 ++ x :: l2) m m') as Hend.
  { intros m' Hby Hfr. destruct (Hfin _ _ Hby Hfr) as [??]. eexists. split; [done|]. split; [|done].
    rewrite !concat_app. cbn [concat]. rewrite <- !app_assoc. cbn [app].
    rewrite (app_assoc _ b1 (x :: _)), (app_assoc _ b1 (b2 ++ _)). symmetry. apply Permutation_middle. }
  destruct (dseg_lookup _ _ _ _ _ _ Hseg) as (k & Hk & Hkf & Hkb).
  assert (lastp NULL l1 ∈ l1) as Hpin by (apply lastp_elem; unfold l1; by destruct (weave base 0 bs1)).
  assert (valid m (lastp NULL l1)) as Hvp by (eapply dseg_valid; [done|done|set_solver]).
  pose proof (valid_ne _ _ Hvp).
  unfold mm_unlink. apply wp_bind. eapply wp_deref; [set_solver|done|]. cbn beta.
  change (mm_flink k) with (flink k). change (mm_blink k) with (blink k). rewrite Hkf, Hkb.
  rewrite bool_decide_true by done. wp_step. apply wp_ret. do 2 wp_step.
  destruct (decide (hdp NULL l2 = NULL)) as [E2|E2].
  - rewrite E2 in *. wp_go. apply Hend.
    + intros y Hy. rewrite lookup_alter. destruct (decide (y = lastp NULL l1)) as [->|]; by dec_simpl.
    + apply frame_set_flink, frame_refl. set_solver.
  - assert (hdp NULL l2 ∈ l2) as Hnin by (apply hdp_elem; by intros E; rewrite E in E2).
    assert (valid m (hdp NULL l2)) as Hvn by (eapply dseg_valid; [done|done|set_solver]).
    assert (lastp NULL l1 <> hdp NULL l2).
    { intros E. apply NoDup_app in Hd as (_ & Hd & _). apply (Hd (lastp NULL l1)); [done|].
      rewrite E. by constructor. }
    wp_go. apply Hend.
    + intros y Hy. rewrite !lookup_alter. destruct (decide (y = lastp NULL l1)) as [->|]; [by dec_simpl|].
      destruct (decide (y = hdp NULL l2)) as [->|]; by dec_simpl.
    + apply frame_set_blink; [set_solver|]. apply frame_set_flink, frame_refl. set_solver.
Qed.

(** ** Headers and node list together

    [hrep m base cs bs]: the node map holds the headers of the chunks [cs] and
    a node list with buckets [bs].  The lemmas below give the effect of each
    primitive step of the allocator on it; the order of [cs] is irrelevant. *)
Record hrep (m : gmap Z mm_node) (base : Z) (cs : list chunk) (bs : list (list Z)) : Prop := HRep {
  hr_headers : has_headers m cs;
  hr_nodelist : nodelist_ok m base bs;
  hr_nodup : NoDup (c_addr <$> cs);
  hr_addrs : Forall (fun c => c_addr c <> NULL /\ c_addr c ∉ heads base 0 (Z.to_nat MM_NNODES)) cs
}.

#[export] Instance hrep_proper m base : Proper ((≡ₚ) ==> (=) ==> iff) (hrep m base).
Proof.
  intros cs cs' Hp bs ? <-. split; intros [A B C D]; split; unfold has_headers in *; try done.
  all: by rewrite ?Hp || rewrite <- ?Hp.
Qed.

Lemma hrep_drop m base c cs bs : hrep m base (c :: cs) bs -> hrep m base cs bs.
Proof.
  intros [A B C D]. unfold has_headers in A. rewrite Forall_cons in A, D. rewrite fmap_cons, NoDup_cons in C.
  by split; try tauto.
Qed.

Lemma nl_weave m base bs x :
  nodelist_ok m base bs ->
  x ∈ weave base 0 bs <-> x ∈ heads base 0 (Z.to_nat MM_NNODES) \/ x ∈ concat bs.
Proof.
  intros Hn. rewrite (weave_perm base 0 bs), elem_of_app.
  by rewrite <- (nl_len _ _ _ Hn), Nat2Z.id.
Qed.

Definition node_links (n : mm_node) : Z * ptr * ptr := (mm_size n, mm_flink n, mm_blink n).

(** The node list does not depend on [preceding] fields nor on nodes outside it. *)
Lemma nodelist_ok_ext m m' base bs :
  (forall y, y ∈ weave base 0 bs -> node_links <$> m' !! y = node_links <$> m !! y) ->
  nodelist_ok m base bs -> nodelist_ok m' base bs.
Proof.
  intros Hm Hn. pose proof Hn as [Hs Hd H0 Hl Hh Hb].
  assert (forall y, y ∈ weave base 0 bs -> node_size m' y = node_size m y) as Hsz.
  { intros y Hy. specialize (Hm y Hy). unfold node_size.
    destruct (m !! y), (m' !! y); simpl in *; try done. unfold node_links in Hm. congruence. }
  assert (forall y, y ∈ concat bs -> node_size m' y = node_size m y) as Hsz'.
  { intros y Hy. apply Hsz, (nl_weave _ _ _ _ Hn). by right. }
  split; [|done|done|done| |].
  - clear -Hs Hm. revert Hs Hm. generalize (weave base 0 bs). generalize NULL at 1 3.
    intros p l. revert p. induction l as [|x l IH]; intros p Hs Hm; [done|].
    destruct Hs as [(n & Hx & Hf & Hb) Hs]. split.
    + specialize (Hm x ltac:(set_solver)). rewrite Hx in Hm.
      destruct (m' !! x) as [n'|]; [|done]. simpl in Hm. unfold node_links in Hm. simplify_eq.
      exists n'. simpl in *. split; [done|]. split; congruence.
    + apply IH; [done|]. intros y Hy. apply Hm. set_solver.
  - intros i Hi. rewrite Hsz; [by apply Hh|]. apply (nl_weave _ _ _ _ Hn). left.
    apply elem_of_heads. exists i. split; [done|]. rewrite Z2Nat.id by done. lia.
  - intros i b Hib. specialize (Hb i b Hib) as [Hb1 Hb2].
    assert (forall y, y ∈ b -> node_size m' y = node_size m y) as Hsb.
    { intros y Hy. apply Hsz'. apply list_elem_of_In, in_concat. exists b.
      split; apply list_elem_of_In; [by eapply list_elem_of_lookup_2|done]. }
    split.
    + rewrite Forall_forall in Hb1 |- *. intros y Hy. rewrite Hsb by done. by apply Hb1.
    + clear -Hb2 Hsb. induction Hb2 as [|x b Hs IH Hx]; constructor; [apply IH; set_solver|].
      rewrite Forall_forall in Hx |- *. intros y Hy. rewrite !Hsb by set_solver. by apply Hx.
Qed.

Lemma has_header_frame s m m' c : frame dunlink s m m' -> has_header m c -> has_header m' c.
Proof.
  intros Hf (n & Hn & Hs & Hp). destruct (frame_lookup _ _ _ _ _ _ Hf Hn) as (n' & Hn' & Hu).
  unfold dunlink in Hu. simpl in Hu. exists n'. split; [done|]. destruct n, n'. simpl in *. naive_solver.
Qed.

Lemma has_headers_ext m m' cs :
  (forall c, c ∈ cs -> m' !! c_addr c = m !! c_addr c) -> has_headers m cs -> has_headers m' cs.
Proof.
  intros Hm. unfold has_headers. rewrite !Forall_forall. intros H c Hc.
  destruct (H c Hc) as (n & ? & ?). exists n. by rewrite Hm.
Qed.

Lemma hrep_frame s m m' base cs bs bs' :
  frame dunlink s m m' -> nodelist_ok m' base bs' -> hrep m base cs bs -> hrep m' base cs bs'.
Proof.
  intros Hf Hn [A B C D]. split; [|done|done|done]. unfold has_headers in *.
  eapply Forall_impl; [exact A|]. intros c. by apply (has_header_frame s).
Qed.

Lemma hrep_not_weave m base c cs bs :
  hrep m base (c :: cs) bs -> c_addr c ∉ concat bs -> c_addr c ∉ weave base 0 bs.
Proof.
  intros [_ B _ D] Hc. rewrite (nl_weave m) by done. rewrite Forall_cons in D. naive_solver.
Qed.

Lemma hrep_deref m base cs bs x s p b (P : mm_node -> Prop) :
  hrep m base cs bs -> Ck x s p b ∈ cs ->
  (forall n, m !! x = Some n -> mm_size n = s -> mm_preceding n = prec p b -> P n) ->
  wp (deref m x) P.
Proof.
  intros [A _ _ D] Hc HP. unfold has_headers in A. rewrite Forall_forall in A, D.
  destruct (A _ Hc) as (n & Hn & Hs & Hp). destruct (D _ Hc) as [Hx _].
  eapply wp_deref; [done|done|]. by apply HP.
Qed.

Lemma hrep_unlink m base cs bs x :
  hrep m base cs bs -> x ∈ concat bs ->
  wp (mm_unlink x m) (fun m' => exists bs', hrep m' base cs bs' /\ concat bs ≡ₚ x :: concat bs').
Proof.
  intros Hr Hx. eapply wp_mono; [apply (mm_unlink_spec m base bs x); [apply Hr|done]|].
  intros m' (bs' & Hn & Hp & _ & Hf). exists bs'. split; [|done]. by eapply hrep_frame.
Qed.

Lemma hrep_addfree m base cs bs x s p b :
  hrep m base cs bs -> Ck x s p b ∈ cs -> 0 < s -> x ∉ concat bs ->
  wp (mm_addfreechunk base x m) (fun m' =>
    exists bs', hrep m' base cs bs' /\ concat bs' ≡ₚ x :: concat bs).
Proof.
  intros Hr Hc Hs Hx. pose proof Hr as [A B _ D]. unfold has_headers in A. rewrite Forall_forall in A, D.
  destruct (A _ Hc) as (n & Hn & Hns & _). destruct (D _ Hc) as [Hx0 Hxh]. simpl in *.
  eapply wp_mono; [apply (mm_addfreechunk_spec m base bs x n); [done|done|done| |lia]|].
  - rewrite (nl_weave m) by done. tauto.
  - intros m' (bs' & Hn' & Hp & Hf). exists bs'. split; [|done]. by eapply hrep_frame.
Qed.

Lemma hrep_set m m' base x s p b s' p' b' cs bs :
  hrep m base (Ck x s p b :: cs) bs -> (s' = s \/ x ∉ concat bs) ->
  m' = alter (fun n => MmNode s' (prec p' b') (mm_flink n) (mm_blink n)) x m ->
  hrep m' base (Ck x s' p' b' :: cs) bs.
Proof.
  intros Hr Hx ->. pose proof Hr as [A B C D]. split; [| |done|by rewrite Forall_cons in D |- *].
  - rewrite fmap_cons, NoDup_cons in C. destruct C as [Hxc _]. unfold has_headers in *.
    apply Forall_cons in A as [(n & Hn & _) A]. simpl in *. constructor.
    + eexists. simpl. rewrite lookup_alter_eq, Hn. by split.
    + eapply (has_headers_ext m); [|done]. intros c Hc. rewrite lookup_alter_ne; [done|].
      intros ->. apply Hxc. apply list_elem_of_fmap. eauto.
  - eapply nodelist_ok_ext; [|done]. intros y Hy. rewrite lookup_alter. case_decide as E; [|done]. subst y.
    unfold has_headers in A. apply Forall_cons in A as [(n & Hn & Hs & _) _]. simpl in *. rewrite Hn. simpl.
    unfold node_links. simpl. destruct Hx as [->|Hx]; [by rewrite Hs|].
    exfalso. by apply (hrep_not_weave _ _ _ _ _ Hr) in Hx.
Qed.

Lemma hrep_set_size m base x s p b s' cs bs :
  hrep m base (Ck x s p b :: cs) bs -> x ∉ concat bs ->
  wp (store (set_mm_size s') x m) (fun m' => hrep m' base (Ck x s' p b :: cs) bs).
Proof.
  intros Hr Hx. pose proof Hr as [A _ _ D]. unfold has_headers in A. rewrite Forall_cons in A, D.
  destruct A as [(n & Hn & Hs & Hp) _], D as [[Hx0 _] _]. simpl in *.
  apply wp_store; [split; eauto|]. eapply hrep_set; [done|by right|].
  apply map_eq. intros y. rewrite !lookup_alter. case_decide; [|done]. subst. rewrite Hn. simpl.
  unfold set_mm_size. by rewrite Hp.
Qed.

Lemma hrep_set_prec m base x s p b v p' b' cs bs :
  hrep m base (Ck x s p b :: cs) bs -> v = prec p' b' ->
  wp (store (set_mm_preceding v) x m) (fun m' => hrep m' base (Ck x s p' b' :: cs) bs).
Proof.
  intros Hr ->. pose proof Hr as [A _ _ D]. unfold has_headers in A. rewrite Forall_cons in A, D.
  destruct A as [(n & Hn & Hs & Hp) _], D as [[Hx0 _] _]. simpl in *.
  apply wp_store; [split; eauto|]. eapply hrep_set; [done|by left|].
  apply map_eq. intros y. rewrite !lookup_alter. case_decide; [|done]. subst. by rewrite Hn.
Qed.

Lemma hrep_carve m base x s v p b cs bs :
  hrep m base cs bs -> v = prec p b -> x <> NULL -> x ∉ heads base 0 (Z.to_nat MM_NNODES) ->
  x ∉ c_addr <$> cs -> x ∉ concat bs ->
  wp (carve s v x m) (fun m' => hrep m' base (Ck x s p b :: cs) bs).
Proof.
  intros [A B C D] -> Hx0 Hxh Hxc Hxb. unfold carve. rewrite decide_False by done. apply wp_ret.
  split.
  - constructor; [eexists; simpl; rewrite lookup_insert_eq; by split|].
    eapply has_headers_ext; [|done]. intros c Hc. rewrite lookup_insert_ne; [done|].
    intros ->. apply Hxc. apply list_elem_of_fmap. eauto.
  - eapply nodelist_ok_ext; [|done]. intros y Hy. rewrite lookup_insert_ne; [done|]. intros ->.
    rewrite (nl_weave m) in Hy by done. tauto.
  - rewrite fmap_cons. by constructor.
  - by constructor.
Qed.
