(* ===== verification/MmHeap.v ===== *)
(** * The memory manager: regions tiled by chunks

    [heap_ok g m base rs] is the invariant of the memory manager: the node map
    [m] represents the regions [rs], each tiled by chunks between its two guard
    nodes, no two neighbouring chunks are free, and the free chunks are exactly
    the chunks of the node list.  [g] is the granularity of the chunk sizes:
    16 as long as only [malloc], [free] and [realloc] are used, 8 once
    [memalign] has been. *)

From Stdlib Require Import Sorted.
From S2P Require Import Prelude Queue Mm MmInv.

(** ** Regions *)

Definition size_ok (g : Z) (c : Z * bool) : Prop := 16 <= c.1 /\ (g | c.1).

(** No two neighbours are both free. *)
Fixpoint coalesced (l : list (Z * bool)) : Prop :=
  match l with
  | [] => True
  | c :: l => match l with
              | [] => True
              | d :: _ => (c.2 || d.2) = true /\ coalesced l
              end
  end.

Record region_ok (g : Z) (r : region) : Prop := RegionOk {
  ro_base : 0 < r.1 /\ (16 | r.1) /\ r.1 + total r.2 <= 2 ^ 32;
  ro_total : total r.2 < 2 ^ 31;
  ro_shape : exists mid, r.2 = (8, true) :: mid ++ [(8, true)] /\ Forall (size_ok g) mid;
  ro_coalesced : coalesced r.2
}.

(** The address ranges of the regions and of g_nodelist do not meet. *)
Definition apart (x y : Z * Z) : Prop := x.1 + x.2 <= y.1 \/ y.1 + y.2 <= x.1.
Definition footprint (r : region) : Z * Z := (r.1, total r.2).

Definition all_apart (base : Z) (rs : list region) : Prop :=
  0 < base /\ StronglySorted apart ((base, 304) :: (footprint <$> rs)).

Record heap_ok (g : Z) (m : gmap Z mm_node) (base : Z) (rs : list region) : Prop := HeapOk {
  ho_rep : exists bs, hrep m base (chunks_of rs) bs /\ concat bs ≡ₚ free_addrs (chunks_of rs);
  ho_regions : Forall (region_ok g) rs;
  ho_apart : all_apart base rs
}.

(** ** Lists of chunks *)

Lemma total_app l1 l2 : total (l1 ++ l2) = total l1 + total l2.
Proof. induction l1 as [|c l1 IH]; [done|]. cbn. fold (total (l1 ++ l2)). unfold total in *. lia. Qed.

Lemma total_cons c l : total (c :: l) = c.1 + total l.
Proof. done. Qed.

Lemma lastsize_app p l1 l2 : lastsize p (l1 ++ l2) = lastsize (lastsize p l1) l2.
Proof.
  unfold lastsize. destruct l2 as [|c l2 _] using rev_ind; [by rewrite app_nil_r|].
  by rewrite app_assoc, !last_snoc.
Qed.

Lemma locate_app a p l1 l2 :
  locate a p (l1 ++ l2) = locate a p l1 ++ locate (a + total l1) (lastsize p l1) l2.
Proof.
  revert a p. induction l1 as [|[s b] l1 IH]; intros a p.
  - cbn. by rewrite Z.add_0_r.
  - cbn [app locate]. rewrite IH. cbn [app]. f_equal. f_equal. f_equal.
    + rewrite total_cons. simpl. lia.
    + symmetry. apply (lastsize_app p [(s, b)] l1).
Qed.

Lemma locate_mid a p l1 s b l2 :
  locate a p (l1 ++ (s, b) :: l2) =
  locate a p l1 ++ Ck (a + total l1) s (lastsize p l1) b :: locate (a + total l1 + s) s l2.
Proof. by rewrite locate_app. Qed.

Lemma chunks_of_app R1 R2 : chunks_of (R1 ++ R2) = chunks_of R1 ++ chunks_of R2.
Proof. unfold chunks_of. by rewrite bind_app. Qed.

Lemma chunks_of_mid R1 r R2 : chunks_of (R1 ++ r :: R2) = chunks_of R1 ++ locate r.1 0 r.2 ++ chunks_of R2.
Proof. by rewrite chunks_of_app. Qed.

Definition pos_sizes (l : list (Z * bool)) : Prop := Forall (fun c => 0 < c.1) l.

Lemma total_nonneg l : pos_sizes l -> 0 <= total l.
Proof. induction 1; [done|]. rewrite total_cons. lia. Qed.

Lemma locate_bounds a p l c :
  pos_sizes l -> c ∈ locate a p l -> a <= c_addr c /\ c_addr c + c_size c <= a + total l.
Proof.
  revert a p. induction l as [|[s b] l IH]; intros a p Hl Hc; [set_solver|].
  apply Forall_cons in Hl as [Hs Hl]. pose proof (total_nonneg l Hl). rewrite total_cons. simpl in *.
  apply elem_of_cons in Hc as [->|Hc]; simpl; [lia|]. destruct (IH _ _ Hl Hc). lia.
Qed.

Lemma locate_pos a p l c : pos_sizes l -> c ∈ locate a p l -> 0 < c_size c.
Proof.
  revert a p. induction l as [|[s b] l IH]; intros a p Hl Hc; [set_solver|].
  apply Forall_cons in Hl as [Hs Hl]. simpl in *. apply elem_of_cons in Hc as [->|Hc]; [done|]. by eapply IH.
Qed.

Lemma region_ok_pos g r : region_ok g r -> pos_sizes r.2.
Proof.
  intros [_ _ (mid & -> & Hm) _]. constructor; [done|]. apply Forall_app. split; [|by repeat constructor].
  eapply Forall_impl; [done|]. intros c [? _]. lia.
Qed.

Lemma apart_sym x y : apart x y -> apart y x.
Proof. unfold apart. lia. Qed.

Lemma sorted_apart_mid (l1 : list (Z * Z)) x l2 y :
  StronglySorted apart (l1 ++ x :: l2) -> y ∈ l1 ++ l2 -> apart x y.
Proof.
  induction l1 as [|z l1 IH]; intros Hs Hy; simpl in *; inversion Hs as [|? ? Hs' Hz]; subst.
  - rewrite Forall_forall in Hz. by apply Hz.
  - apply elem_of_cons in Hy as [->|Hy]; [|by apply IH].
    rewrite Forall_forall in Hz. apply apart_sym, Hz. set_solver.
Qed.

Lemma coalesced_app l1 l2 :
  coalesced (l1 ++ l2) <->
  coalesced l1 /\ coalesced l2
  /\ (forall c d, last l1 = Some c -> head l2 = Some d -> (c.2 || d.2) = true).
Proof.
  induction l1 as [|c l1 IH]; simpl; [naive_solver|].
  destruct l1 as [|d l1]; simpl in *.
  - destruct l2 as [|e l2]; simpl; naive_solver.
  - rewrite IH. naive_solver.
Qed.

(** ** Free chunks *)

Lemma free_addrs_cons c cs :
  free_addrs (c :: cs) = if c_alloc c then free_addrs cs else c_addr c :: free_addrs cs.
Proof.
  unfold free_addrs. rewrite filter_cons. destruct (c_alloc c) eqn:E; case_decide; naive_solver.
Qed.

#[export] Instance free_addrs_proper : Proper ((≡ₚ) ==> (≡ₚ)) free_addrs.
Proof. intros cs cs' Hp. unfold free_addrs. by rewrite Hp. Qed.

Lemma free_addrs_subseteq cs x : x ∈ free_addrs cs -> x ∈ c_addr <$> cs.
Proof.
  unfold free_addrs. rewrite !list_elem_of_fmap. intros (c & -> & Hc).
  apply list_elem_of_filter in Hc as [_ Hc]. eauto.
Qed.

Lemma elem_of_free_addrs cs x :
  x ∈ free_addrs cs <-> exists s p, Ck x s p false ∈ cs.
Proof.
  unfold free_addrs. rewrite list_elem_of_fmap. setoid_rewrite list_elem_of_filter. split.
  - intros ([y s p b] & -> & Hb & Hc). simpl in *. subst. eauto.
  - intros (s & p & Hc). by exists (Ck x s p false).
Qed.

(** ** Focusing on a few neighbouring chunks of a region

    The chunks [mid] of a region, the chunk that follows them, and the rest of
    the heap, which does not depend on how [mid] divides its range. *)

Definition rest_of (R1 : list region) (a : Z) (l1 : list (Z * bool)) (q s2 : Z)
    (l3 : list (Z * bool)) (R2 : list region) : list chunk :=
  chunks_of R1 ++ locate a 0 l1 ++ chunks_of R2 ++ locate q s2 l3.

Lemma chunks_focus R1 a l1 mid s2 b2 l3 R2 :
  chunks_of (R1 ++ (a, l1 ++ mid ++ (s2, b2) :: l3) :: R2) ≡ₚ
  locate (a + total l1) (lastsize 0 l1) mid
    ++ Ck (a + total l1 + total mid) s2 (lastsize (lastsize 0 l1) mid) b2
    :: rest_of R1 a l1 (a + total l1 + total mid + s2) s2 l3 R2.
Proof.
  rewrite chunks_of_mid. cbn [fst snd]. rewrite !locate_app. cbn [locate]. unfold rest_of.
  set (A := chunks_of R1). set (B := locate a 0 l1). set (C := locate _ _ mid).
  set (D := locate _ s2 l3). set (E := chunks_of R2). set (c := Ck _ _ _ _).
  rewrite <- !app_assoc. cbn [app].
  transitivity (C ++ c :: A ++ B ++ D ++ E); [|by rewrite (Permutation_app_comm D E)].
  rewrite (app_assoc A B (C ++ _)), (Permutation_app_comm (A ++ B) (C ++ _)).
  rewrite <- !app_assoc. cbn [app]. f_equiv. f_equiv.
  rewrite (app_assoc A B). apply Permutation_app_comm.
Qed.

Lemma region_ok_replace g a l1 mid mid' l2 :
  region_ok g (a, l1 ++ mid ++ l2) -> l1 <> [] -> l2 <> [] -> Forall (size_ok g) mid' ->
  total mid' = total mid -> coalesced (l1 ++ mid' ++ l2) -> region_ok g (a, l1 ++ mid' ++ l2).
Proof.
  intros [Hb Ht (inner & Hs & Hi) Hc] H1 H2 Hm Etot Hc'. simpl in *.
  assert (total (l1 ++ mid' ++ l2) = total (l1 ++ mid ++ l2)) as Et by (rewrite !total_app; lia).
  split; simpl; [by rewrite Et|by rewrite Et| |done].
  destruct l1 as [|c l1]; [done|]. destruct l2 as [|d l2 _] using rev_ind; [done|].
  simpl in Hs. injection Hs as -> Hs. rewrite !app_assoc in Hs. apply app_inj_tail in Hs as [<- ->].
  exists (l1 ++ mid' ++ l2). split; [simpl; by rewrite <- !app_assoc|].
  rewrite !Forall_app in Hi |- *. tauto.
Qed.

Lemma footprint_replace R1 a l l' R2 :
  total l' = total l ->
  footprint <$> (R1 ++ (a, l') :: R2) = footprint <$> (R1 ++ (a, l) :: R2).
Proof. intros E. rewrite !fmap_app, !fmap_cons. unfold footprint. simpl. by rewrite E. Qed.

(** Re-establishing the invariant after [mid] was replaced by [mid']. *)
Lemma heap_replace g m m' base R1 a l1 mid mid' s2 b2 l3 R2 bs :
  heap_ok g m base (R1 ++ (a, l1 ++ mid ++ (s2, b2) :: l3) :: R2) -> l1 <> [] ->
  Forall (size_ok g) mid' -> total mid' = total mid -> coalesced (l1 ++ mid' ++ (s2, b2) :: l3) ->
  hrep m' base (locate (a + total l1) (lastsize 0 l1) mid'
    ++ Ck (a + total l1 + total mid) s2 (lastsize (lastsize 0 l1) mid') b2
    :: rest_of R1 a l1 (a + total l1 + total mid + s2) s2 l3 R2) bs ->
  concat bs ≡ₚ free_addrs (locate (a + total l1) (lastsize 0 l1) mid'
    ++ Ck (a + total l1 + total mid) s2 (lastsize (lastsize 0 l1) mid') b2
    :: rest_of R1 a l1 (a + total l1 + total mid + s2) s2 l3 R2) ->
  heap_ok g m' base (R1 ++ (a, l1 ++ mid' ++ (s2, b2) :: l3) :: R2).
Proof.
  intros [_ Hr Ha] Hl1 Hm' Et Hc Hrep Hfree. split.
  - exists bs. by rewrite chunks_focus, Et.
  - rewrite Forall_app, Forall_cons in Hr |- *. destruct Hr as (? & ? & ?). split; [done|]. split; [|done].
    by eapply region_ok_replace.
  - unfold all_apart in *. erewrite footprint_replace; [done|]. rewrite !total_app. lia.
Qed.

(** ** Addresses inside a chunk are not chunk addresses *)

Lemma region_bounds g rs r c :
  Forall (region_ok g) rs -> r ∈ rs -> c ∈ locate r.1 0 r.2 ->
  r.1 <= c_addr c < r.1 + total r.2.
Proof.
  intros Hr Hin Hc. rewrite Forall_forall in Hr. specialize (Hr r Hin).
  pose proof (locate_bounds _ _ _ _ (region_ok_pos _ _ Hr) Hc).
  pose proof (locate_pos _ _ _ _ (region_ok_pos _ _ Hr) Hc). lia.
Qed.

Lemma inside_fresh g m base R1 a l1 s b l2 R2 x :
  heap_ok g m base (R1 ++ (a, l1 ++ (s, b) :: l2) :: R2) ->
  a + total l1 < x < a + total l1 + s ->
  x ∉ c_addr <$> chunks_of (R1 ++ (a, l1 ++ (s, b) :: l2) :: R2)
  /\ x ∉ heads base 0 (Z.to_nat MM_NNODES) /\ x <> NULL.
Proof.
  intros [_ Hr [Hb Ha]] Hx.
  assert (region_ok g (a, l1 ++ (s, b) :: l2)) as Hreg
    by (rewrite Forall_forall in Hr; apply Hr; set_solver).
  pose proof (region_ok_pos _ _ Hreg) as Hpos. simpl in Hpos.
  pose proof Hpos as Hpos'. apply Forall_app in Hpos' as [Hp1 Hp2%Forall_cons]. simpl in Hp2.
  pose proof (total_nonneg _ Hp1). pose proof (total_nonneg _ (proj2 Hp2)).
  assert (total (l1 ++ (s, b) :: l2) = total l1 + s + total l2) as Et
    by (rewrite total_app, total_cons; simpl; lia).
  destruct (ro_base _ _ Hreg) as (Ha0 & _ & _). simpl in Ha0.
  split; [|split; [|lia]].
  - intros Hin. apply list_elem_of_fmap in Hin as (c & -> & Hc).
    rewrite chunks_of_mid in Hc. cbn [fst snd] in Hc. rewrite !elem_of_app in Hc.
    destruct Hc as [Hc|[Hc|Hc]].
    2:{ rewrite locate_mid, elem_of_app, elem_of_cons in Hc. destruct Hc as [Hc|[->|Hc]]; simpl in Hx.
        - pose proof (locate_pos _ _ _ _ Hp1 Hc). pose proof (locate_bounds _ _ _ _ Hp1 Hc). lia.
        - lia.
        - pose proof (locate_bounds _ _ _ _ (proj2 Hp2) Hc). lia. }
    all: unfold chunks_of in Hc; apply list_elem_of_bind in Hc as (r & Hc & Hin).
    all: pose proof (fun Hi => region_bounds _ _ r _ Hr Hi Hc) as Hrb; specialize (Hrb ltac:(set_solver)).
    all: assert (apart (a, total (l1 ++ (s, b) :: l2)) (footprint r)) as Hap;
      [|unfold apart in Hap; simpl in Hap; lia].
    all: apply (sorted_apart_mid ((base, 304) :: (footprint <$> R1)) _ (footprint <$> R2));
      [by rewrite fmap_app, fmap_cons in Ha|].
    all: apply elem_of_app; rewrite elem_of_cons, !list_elem_of_fmap; eauto.
  - intros Hin. apply elem_of_heads in Hin as (k & -> & Hk). rewrite Z2Nat.id in Hk by done.
    change MM_NNODES with 19 in Hk. unfold nodelist, SIZEOF_MM_FREENODE in Hx.
    inversion Ha as [|? ? _ Hf]; subst. rewrite Forall_forall in Hf.
    assert (apart (base, 304) (a, total (l1 ++ (s, b) :: l2))) as Hap.
    { apply Hf. apply list_elem_of_fmap. exists (a, l1 ++ (s, b) :: l2). split; [done|set_solver]. }
    unfold apart in Hap. simpl in Hap. lia.
Qed.
