(* ===== verification/MmAlloc.v ===== *)
(** * The memory manager: malloc, free and chunk shrinking

    The effect of [malloc], [free] and [mm_shrinkchunk] on the abstract heap of
    MmHeap: which chunk is chosen, how it is split, how neighbours are merged,
    and that the heap invariant is preserved on every path. *)

From stdpp Require Import sorting.
From S2P Require Import Prelude Queue Mm MmInv MmHeap.

(** ** The search of malloc *)

Lemma malloc_search_spec fuel m s p l :
  dseg m p l NULL -> NULL ∉ l -> (length l < fuel)%nat ->
  wp (malloc_search fuel m s (hdp NULL l)) (fun x =>
    (x = NULL /\ Forall (fun y => node_size m y < s) l)
    \/ exists l1 l2, l = l1 ++ x :: l2 /\ Forall (fun y => node_size m y < s) l1
         /\ s <= node_size m x).
Proof.
  revert p l. induction fuel as [|fuel IH]; intros p l Hs H0 Hf; [lia|].
  destruct l as [|x l]; cbn [malloc_search head default from_option id]; [by left|].
  destruct Hs as [(n & Hn & Hfl & _) Hs].
  rewrite decide_False by set_solver. apply wp_bind. eapply wp_deref; [set_solver|done|].
  pose proof (node_size_lookup _ _ _ Hn) as En. cbn beta.
  destruct (Z.ltb_spec (mm_size n) s) as [Hlt|Hge].
  - change (mm_flink n) with (flink n). rewrite Hfl.
    eapply wp_mono; [apply (IH x l); [done|set_solver|simpl in Hf; lia]|].
    intros y [[-> Hl]|(l1 & l2 & -> & Hl1 & Hy)]; [left|right].
    + split; [done|]. constructor; [lia|done].
    + exists (x :: l1), l2. split; [done|]. split; [|done]. constructor; [lia|done].
  - apply wp_ret. right. exists [], l. split; [done|]. split; [done|]. lia.
Qed.

(** Along the node list sizes ascend, the headers of size zero apart. *)
Lemma weave_sorted m base bs i :
  (forall j b, bs !! j = Some b -> bucket_ok m (i + Z.of_nat j) b) ->
  (forall j, 0 <= j < Z.of_nat (length bs) -> node_size m (nodelist base (i + j)) = 0) ->
  StronglySorted (fun x y => node_size m y = 0 \/ node_size m x <= node_size m y) (weave base i bs)
  /\ Forall (fun y => node_size m y = 0 \/ (0 < node_size m y /\ i <= mm_size2ndx (node_size m y)))
       (weave base i bs).
Proof.
  revert i. induction bs as [|b bs IH]; intros i Hb Hh; [by repeat constructor|].
  assert (node_size m (nodelist base i) = 0) as Hi.
  { rewrite <- (Z.add_0_r i). apply Hh. simpl. lia. }
  destruct (Hb 0%nat b eq_refl) as [Hb1 Hb2]. simpl in Hb1. rewrite Z.add_0_r in Hb1.
  destruct (IH (i + 1)) as [IHs IHf].
  { intros j c Hc. replace (i + 1 + Z.of_nat j) with (i + Z.of_nat (S j)) by lia. by apply Hb. }
  { intros j Hj. replace (i + 1 + j) with (i + (1 + j)) by lia. apply Hh. simpl. lia. }
  assert (Forall (fun y => node_size m y = 0 \/ (0 < node_size m y /\ i <= mm_size2ndx (node_size m y)))
    (b ++ weave base (i + 1) bs)) as Hall.
  { apply Forall_app. split; (eapply Forall_impl; [done|]); simpl; intros y; lia. }
  cbn [weave]. split; [|constructor; [by left|done]]. constructor.
  - apply StronglySorted_app. split; [|split; [|done]].
    + intros x y Hx Hy. rewrite Forall_forall in Hb1, IHf.
      destruct (Hb1 x Hx) as [Ex Hx0]. destruct (IHf y Hy) as [|[Hy0 Ey]]; [by left|right].
      destruct (Z.le_gt_cases (node_size m x) (node_size m y)); [done|].
      pose proof (mm_size2ndx_mono (node_size m y) (node_size m x)). lia.
    + clear -Hb2. induction Hb2 as [|x b Hs IH Hx]; constructor; [done|].
      eapply Forall_impl; [done|]. simpl. lia.
  - eapply Forall_impl; [done|]. simpl. intros y. rewrite Hi. lia.
Qed.

(** The node found is a smallest free chunk that is large enough. *)
Lemma malloc_search_best m base bs s h :
  nodelist_ok m base bs -> 0 < s -> m !! nodelist base (mm_size2ndx s) = Some h ->
  wp (malloc_search (list_fuel m) m s (mm_flink h)) (fun x =>
    (x = NULL /\ forall y, y ∈ concat bs -> node_size m y < s)
    \/ (x ∈ concat bs /\ s <= node_size m x
        /\ forall y, y ∈ concat bs -> s <= node_size m y -> node_size m x <= node_size m y)).
Proof.
  intros Hn Hs Hh. pose proof (mm_size2ndx_range s ltac:(lia)) as Hr.
  destruct (nodelist_split m base bs _ Hn Hr) as (bs1 & b & bs2 & -> & Hl & _ & _).
  pose proof (nl_seg _ _ _ Hn) as Hseg. pose proof (nl_nodup _ _ _ Hn) as Hd.
  pose proof (nl_nonnull _ _ _ Hn) as H0. rewrite weave_mid, Hl in Hseg, Hd, H0.
  destruct (dseg_lookup _ _ _ _ _ _ Hseg) as (k & Hk & Hkf & _).
  rewrite Hh in Hk. simplify_eq. change (mm_flink k) with (flink k). rewrite Hkf.
  pose proof (dseg_length _ _ _ _ Hd H0 Hseg) as Hle. rewrite length_app in Hle. simpl in Hle.
  rewrite dseg_app in Hseg. destruct Hseg as [_ [_ Hseg]].
  destruct (weave_sorted m base (bs1 ++ b :: bs2) 0) as [Hsort _].
  { intros j c. apply (nl_buckets _ _ _ Hn). }
  { intros j Hj. rewrite (nl_len _ _ _ Hn) in Hj. by apply (nl_heads _ _ _ Hn). }
  rewrite weave_mid, Hl in Hsort.
  set (l := b ++ weave base (mm_size2ndx s + 1) bs2) in *.
  assert (forall y, y ∈ concat (bs1 ++ b :: bs2) -> s <= node_size m y -> y ∈ l) as Hin.
  { intros y Hy Hsy. apply list_elem_of_In, in_concat in Hy as (c & Hc & Hy).
    apply list_elem_of_In, list_elem_of_lookup in Hc as (j & Hc). apply list_elem_of_In in Hy.
    destruct (nodelist_elem _ _ _ _ _ _ Hn Hc Hy) as [Ej _].
    pose proof (mm_size2ndx_mono s (node_size m y) ltac:(lia)) as Hm.
    rewrite lookup_app_r in Hc by lia. unfold l. apply elem_of_app.
    destruct (j - length bs1)%nat as [|j'] eqn:E; simpl in Hc; [left; by simplify_eq|right].
    rewrite weave_perm. apply elem_of_app. right. apply list_elem_of_In, in_concat. exists c.
    split; apply list_elem_of_In; [by eapply list_elem_of_lookup_2|done]. }
  apply StronglySorted_app in Hsort as (_ & _ & Hsort). inversion Hsort as [|? ? Hsl _]; subst.
  eapply wp_mono; [eapply malloc_search_spec; [done|set_solver|]|].
  { unfold list_fuel. lia. }
  intros x [[-> Hall]|(l1 & l2 & El & Hl1 & Hx)]; [left|right].
  - split; [done|]. intros y Hy. rewrite Forall_forall in Hall.
    destruct (Z.lt_ge_cases (node_size m y) s) as [|Hge]; [done|]. by apply Hall, Hin.
  - assert (x ∈ weave base 0 (bs1 ++ b :: bs2)) as Hxw.
    { rewrite weave_mid, Hl. fold l. rewrite El. set_solver. }
    apply (nl_weave _ _ _ _ Hn) in Hxw as [Hxh|Hxc].
    { apply elem_of_heads in Hxh as (j & -> & Hj). rewrite Z2Nat.id in Hj by done.
      rewrite (nl_heads _ _ _ Hn) in Hx by lia. lia. }
    split; [done|]. split; [done|]. intros y Hy Hsy. specialize (Hin y Hy Hsy).
    rewrite El in Hin, Hsl. rewrite elem_of_app, elem_of_cons in Hin. rewrite Forall_forall in Hl1.
    destruct Hin as [Hy1|[->|Hy2]]; [specialize (Hl1 y Hy1); lia|lia|].
    apply StronglySorted_app in Hsl as (_ & _ & Hsl). inversion Hsl as [|? ? _ Hx2]; subst.
    rewrite Forall_forall in Hx2. specialize (Hx2 y Hy2). lia.
Qed.

(** ** The lock around each operation *)

Definition lock_wf (l : mm_sem) : Prop :=
  l = mm_seminitialize \/ (0 <= g_holder l /\ 1 <= g_counts_held l /\ mm_semaphore l = 0).

(** The lock is free or already held by the caller. *)
Definition lock_available (pid : Z) (l : mm_sem) : Prop :=
  0 <= pid /\ lock_wf l /\ (g_holder l = -1 \/ g_holder l = pid).

Lemma lock_cycle pid l :
  lock_available pid l ->
  exists l', mm_takesemaphore pid l = Ok l' /\ mm_givesemaphore pid l' = Ok l.
Proof.
  intros (Hp & [->|(H1 & H2 & H3)] & Hh); unfold mm_takesemaphore, mm_givesemaphore, mm_seminitialize;
    cbn [g_holder mm_semaphore g_counts_held].
  - destruct (Z.eqb_spec (-1) pid); [lia|]. eexists. split; [reflexivity|].
    cbn [g_holder]. by rewrite Z.eqb_refl.
  - destruct Hh as [?| <-]; [lia|]. rewrite Z.eqb_refl. eexists. split; [done|]. simpl.
    rewrite Z.eqb_refl. simpl. destruct (Z.ltb_spec 1 (g_counts_held l + 1)); [|lia].
    replace (g_counts_held l + 1 - 1) with (g_counts_held l) by lia. by destruct l.
Qed.

Lemma set_lock_nodes m st : set_lock (mm_lock st) (set_nodes m st) = set_nodes m st.
Proof. by destruct st. Qed.

(** ** Finding a chunk *)

Definition tiles (rs : list region) : list (Z * bool) := rs ≫= snd.

Lemma locate_elem x s p b a q l :
  Ck x s p b ∈ locate a q l ->
  exists l1 l2, l = l1 ++ (s, b) :: l2 /\ x = a + total l1 /\ p = lastsize q l1.
Proof.
  revert a q. induction l as [|[t c] l IH]; intros a q Hc; cbn [locate] in Hc; [set_solver|].
  apply elem_of_cons in Hc as [E|Hc].
  - simplify_eq. exists [], l. cbn. split; [done|]. split; [lia|done].
  - destruct (IH _ _ Hc) as (l1 & l2 & -> & -> & ->). exists ((t, c) :: l1), l2.
    split; [done|]. rewrite total_cons. simpl. split; [lia|].
    symmetry. apply (lastsize_app q [(t, c)] l1).
Qed.

Lemma chunks_elem x s p b rs :
  Ck x s p b ∈ chunks_of rs ->
  exists R1 a l1 l2 R2, rs = R1 ++ (a, l1 ++ (s, b) :: l2) :: R2
    /\ x = a + total l1 /\ p = lastsize 0 l1.
Proof.
  intros Hc. unfold chunks_of in Hc. apply list_elem_of_bind in Hc as ([a l] & Hc & Hr).
  apply list_elem_of_split in Hr as (R1 & R2 & ->).
  destruct (locate_elem _ _ _ _ _ _ _ Hc) as (l1 & l2 & El & ? & ?). simpl in *. subst l. eauto 10.
Qed.

Lemma tiles_elem rs s b : (s, b) ∈ tiles rs -> exists x p, Ck x s p b ∈ chunks_of rs.
Proof.
  unfold tiles. intros ([a l] & Hl & Hr)%list_elem_of_bind. simpl in Hl.
  apply list_elem_of_split in Hl as (l1 & l2 & ->).
  eexists _, _. unfold chunks_of. apply list_elem_of_bind. eexists (_, _). split; [|done]. simpl.
  rewrite locate_mid. apply elem_of_app. right. left.
Qed.

Lemma hrep_node_size m base cs bs x s p b :
  hrep m base cs bs -> Ck x s p b ∈ cs -> node_size m x = s.
Proof.
  intros [A _ _ _] Hc. unfold has_headers in A. rewrite Forall_forall in A.
  destruct (A _ Hc) as (n & Hn & Hs & _). simpl in *. by rewrite (node_size_lookup _ _ n).
Qed.

(** A free chunk is not one of the guards, and its neighbours are in use. *)
Lemma free_neighbours g a l1 s l2 :
  region_ok g (a, l1 ++ (s, false) :: l2) ->
  exists l0 s1 s2 l3, l1 = l0 ++ [(s1, true)] /\ l2 = (s2, true) :: l3 /\ size_ok g (s, false).
Proof.
  intros [_ _ (mid & E & Hm) Hc]. simpl in *.
  destruct l1 as [|[s1 b1] l0 _] using rev_ind; [by destruct l2|].
  destruct l2 as [|[s2 b2] l3].
  { rewrite app_comm_cons in E. apply app_inj_tail in E as [_ E]. done. }
  rewrite <- app_assoc in Hc. apply coalesced_app in Hc as (_ & Hc & _). simpl in Hc.
  rewrite orb_false_r in Hc. destruct Hc as (-> & -> & _).
  exists l0, s1, s2, l3. split; [done|]. split; [done|].
  assert ((s, false) ∈ (8, true) :: mid ++ [(8, true)]) as Hin by (rewrite <- E; set_solver).
  rewrite Forall_forall in Hm. apply Hm. set_solver.
Qed.

(** The chunk left when [need] bytes are taken from a chunk of [s] bytes. *)
Definition taken (need s : Z) : list (Z * bool) :=
  if SIZEOF_MM_FREENODE <=? s - need then [(need, true); (s - need, false)] else [(s, true)].

Lemma total_taken need s : total (taken need s) = s.
Proof. unfold taken. case_match; cbn; lia. Qed.

Definition need_of (size : Z) : Z := (size + 23) / 16 * 16.

(** Masking with the complement of [2 ^ k - 1] rounds down to a multiple. *)
Lemma land_mask k n :
  0 <= k <= 32 -> 0 <= n < 2 ^ 32 -> Z.land n (not32 (2 ^ k - 1)) = n / 2 ^ k * 2 ^ k.
Proof.
  intros Hk Hn. assert (not32 (2 ^ k - 1) = Z.ldiff (Z.ones 32) (Z.ones k)) as ->.
  { rewrite Z.ldiff_ones_r, Z.shiftl_mul_pow2, Z.shiftr_div_pow2 by lia. unfold not32. rewrite (Z.ones_equiv 32).
    assert (2 ^ 32 = 2 ^ (32 - k) * 2 ^ k) as -> by (rewrite <- Z.pow_add_r by lia; f_equal; lia).
    assert (0 < 2 ^ k) by (apply Z.pow_pos_nonneg; lia).
    assert (Z.pred (2 ^ (32 - k) * 2 ^ k) / 2 ^ k = 2 ^ (32 - k) - 1) as ->; [|lia].
    symmetry. apply (Z.div_unique _ _ _ (2 ^ k - 1)); lia. }
  rewrite <- Z.shiftr_div_pow2, <- Z.shiftl_mul_pow2, <- Z.ldiff_ones_r by lia.
  apply Z.bits_inj'. intros i Hi. rewrite Z.land_spec, !Z.ldiff_spec.
  destruct (Z.lt_ge_cases i 32) as [Hlt|Hge].
  - rewrite (Z.ones_spec_low 32 i) by lia. by destruct (Z.testbit n i).
  - rewrite (Z.ones_spec_high 32 i) by lia. simpl. rewrite andb_false_r.
    destruct (decide (n = 0)) as [->|]; [by rewrite Z.bits_0|].
    rewrite (Z.bits_above_log2 n i); [done|lia|]. assert (Z.log2 n < 32); [|lia].
    apply Z.log2_lt_pow2; lia.
Qed.

Lemma land_gran n : 0 <= n < 2 ^ 32 -> Z.land n (not32 MM_GRAN_MASK) = n / 16 * 16.
Proof. intros Hn. apply (land_mask 4 n); [lia|done]. Qed.

Lemma align_up_div a : 0 <= a -> a + 15 < 2 ^ 32 -> MM_ALIGN_UP a = (a + 15) / 16 * 16.
Proof.
  intros Ha Hb. unfold MM_ALIGN_UP, u32. change (a + MM_GRAN_MASK) with (a + 15).
  rewrite (Z.mod_small (a + 15)) by lia. apply land_gran. lia.
Qed.

Lemma align_down_div a : 0 <= a < 2 ^ 32 -> MM_ALIGN_DOWN a = a / 16 * 16.
Proof. apply land_gran. Qed.

Lemma need_of_spec size :
  0 < size -> size + 23 < 2 ^ 32 ->
  MM_ALIGN_UP (u32 (size + SIZEOF_MM_ALLOCNODE)) = need_of size
  /\ size + 8 <= need_of size /\ need_of size < size + 24 /\ (16 | need_of size) /\ 16 <= need_of size.
Proof.
  intros H0 H1. unfold u32, SIZEOF_MM_ALLOCNODE. rewrite Z.mod_small by lia.
  rewrite align_up_div by lia. unfold need_of. replace (size + 8 + 15) with (size + 23) by lia.
  split; [done|]. pose proof (Z.div_mod (size + 23) 16). pose proof (Z.mod_pos_bound (size + 23) 16).
  split; [lia|]. split; [lia|]. split; [by exists ((size + 23) / 16)|].
  assert (1 <= (size + 23) / 16); [|lia]. apply Z.div_le_lower_bound; lia.
Qed.

(** ** malloc *)

(** The state in which a chunk has been replaced: only the nodes change. *)
Definition heap_step (g : Z) (st st' : mm_state) (rs' : list region) : Prop :=
  exists m', st' = set_nodes m' st /\ heap_ok g m' (g_nodelist st) rs'.

Lemma coalesced_replace l1 mid mid' l2 :
  coalesced (l1 ++ mid ++ l2) -> coalesced mid' ->
  (forall c d, last l1 = Some c -> head mid' = Some d -> (c.2 || d.2) = true) ->
  (forall c d, last mid' = Some c -> head l2 = Some d -> (c.2 || d.2) = true) ->
  mid' <> [] -> coalesced (l1 ++ mid' ++ l2).
Proof.
  rewrite !coalesced_app. intros (H1 & (_ & H2 & _) & _) Hm Hl Hr Hne. split; [done|]. split; [done|].
  intros c d Hc Hd. apply (Hl c d Hc). by destruct mid'.
Qed.

(** The chunk at [x], its successor and the rest, and the buckets, after the
    chunk's state changed from free to [mid']. *)
Section malloc.
  Context (g : Z) (m : gmap Z mm_node) (base : Z).
  Context (R1 : list region) (a : Z) (l0 : list (Z * bool)) (s1 s s2 : Z) (l3 : list (Z * bool)).
  Context (R2 : list region).
Let l1 := l0 ++ [(s1, true)].
Let rs := R1 ++ (a, l1 ++ [(s, false)] ++ (s2, true) :: l3) :: R2.
Let x := a + total l1.
Let rest := rest_of R1 a l1 (x + s + s2) s2 l3 R2.
  Hypothesis Hg : (g | 16).
  Hypothesis Hok : heap_ok g m base rs.

Lemma malloc_focus :
  exists bs, hrep m base (Ck x s s1 false :: Ck (x + s) s2 s true :: rest) bs
    /\ concat bs ≡ₚ x :: free_addrs rest.
Proof.
  destruct (ho_rep _ _ _ _ Hok) as (bs & Hr & Hf). exists bs. unfold rs in Hr, Hf.
  assert (lastsize 0 l1 = s1) as El by (unfold l1; by rewrite lastsize_app).
  rewrite chunks_focus, El in Hr, Hf. cbn [locate app total foldr fst] in Hr, Hf.
  rewrite !free_addrs_cons in Hf. cbn [c_alloc c_addr] in Hf. rewrite Z.add_0_r in Hr, Hf. by split.
Qed.

Lemma malloc_bounds : 0 < x /\ 16 <= s < 2 ^ 31 /\ (g | s) /\ 0 < s2.
Proof.
  pose proof (ho_regions _ _ _ _ Hok) as Hr. unfold rs in Hr. rewrite Forall_app, Forall_cons in Hr.
  destruct Hr as (_ & Hr & _). pose proof Hr as [(Ha & _) Ht _ _].
  destruct (free_neighbours _ _ _ _ _ Hr) as (_ & _ & _ & _ & _ & _ & [Hs Hgs]).
  pose proof (region_ok_pos _ _ Hr) as Hp. unfold pos_sizes in Hp. simpl in Hp, Ht, Ha.
  rewrite Forall_app, !Forall_cons in Hp. destruct Hp as (Hp1 & _ & Hs2 & Hp3). simpl in *.
  rewrite total_app, !total_cons in Ht. simpl in Ht.
  pose proof (total_nonneg _ Hp1). pose proof (total_nonneg _ Hp3). unfold x.
  repeat split; try done; lia.
Qed.

(** Re-establishing the invariant once the chunk is in use. *)
Lemma malloc_restore m' need bs :
  (16 | need) -> 16 <= need <= s ->
  hrep m' base (locate x s1 (taken need s)
    ++ Ck (x + s) s2 (lastsize s1 (taken need s)) true :: rest) bs ->
  concat bs ≡ₚ free_addrs (locate x s1 (taken need s)) ++ free_addrs rest ->
  heap_ok g m' base (R1 ++ (a, l1 ++ taken need s ++ (s2, true) :: l3) :: R2).
Proof.
  intros H16 Hn Hr Hf. pose proof malloc_bounds as (_ & Hs & Hgs & _).
  assert (g | need) as Hgn by (by transitivity 16).
  assert (lastsize 0 l1 = s1) as El by (unfold l1; by rewrite lastsize_app).
  eapply (heap_replace g m m' base R1 a l1 [(s, false)] _ s2 true l3 R2 bs); [done|by destruct l0| | | | |].
  - unfold taken. case_match eqn:E; repeat constructor; simpl in *; try lia; try done.
    + apply Z.leb_le in E. done.
    + by apply Z.divide_sub_r.
  - rewrite total_taken. cbn. lia.
  - eapply coalesced_replace.
    + pose proof (ho_regions _ _ _ _ Hok) as Hr'. unfold rs in Hr'. rewrite Forall_app, Forall_cons in Hr'.
      destruct Hr' as (_ & [_ _ _ Hc] & _). exact Hc.
    + unfold taken. case_match; simpl; auto.
    + unfold l1. rewrite last_snoc. intros c d [= <-] _. done.
    + intros c d _ [= <-]. apply orb_true_r.
    + unfold taken. by case_match.
  - rewrite El. cbn. rewrite Z.add_0_r. exact Hr.
  - rewrite El. cbn [total foldr fst]. rewrite Z.add_0_r. fold x. fold rest. rewrite Hf.
    unfold free_addrs. rewrite filter_app, fmap_app, filter_cons. simpl. done.
Qed.

End malloc.

Lemma hrep_notin m base c cs bs : hrep m base (c :: cs) bs -> c_addr c ∉ c_addr <$> cs.
Proof. intros [_ _ Hd _]. rewrite fmap_cons in Hd. by apply NoDup_cons in Hd as [? _]. Qed.

Lemma notin_free x cs : x ∉ c_addr <$> cs -> x ∉ free_addrs cs.
Proof. intros Hx Hin%free_addrs_subseteq. done. Qed.

(** Finds the chunk at an address in a list of chunks. *)
Ltac find_ck := solve [repeat first [left | right]].

(** The steps that turn the free chunk at [x] into a used one. *)
Lemma malloc_take {B} (k : gmap Z mm_node -> res B) Q g m base R1 a l0 s1 s s2 l3 R2 need :
  let l1 := l0 ++ [(s1, true)] in
  let x := a + total l1 in
  (g | 16) -> (16 | need) -> 16 <= need <= s ->
  heap_ok g m base (R1 ++ (a, l1 ++ [(s, false)] ++ (s2, true) :: l3) :: R2) ->
  (forall m', heap_ok g m' base (R1 ++ (a, l1 ++ taken need s ++ (s2, true) :: l3) :: R2) -> wp (k m') Q) ->
  wp (m ← mm_unlink x m;
      n ← deref m x;
      let remaining := u32 (mm_size n - need) in
      m ←
        (if SIZEOF_MM_FREENODE <=? remaining then
           let next := x + mm_size n in
           let remainder := x + need in
           m ← carve remaining need remainder m;
           m ← store (set_mm_size need) x m;
           x ← deref m next;
           m ← store (set_mm_preceding
                        (Z.lor remaining (Z.land (mm_preceding x) MM_ALLOC_BIT))) next m;
           mm_addfreechunk base remainder m
         else Ok m);
      n ← deref m x;
      m ← store (set_mm_preceding (Z.lor (mm_preceding n) MM_ALLOC_BIT)) x m;
      k m) Q.
Proof.
  intros l1 x Hg H16 Hn Hok HK. pose proof (malloc_bounds _ _ _ _ _ _ _ _ _ _ _ Hok) as (Hx & Hs & _ & Hs2).
  destruct (malloc_focus _ _ _ _ _ _ _ _ _ _ _ Hok) as (bs & Hr & Hf). fold l1 in Hx, Hr, Hf. fold x in Hx, Hr, Hf.
  set (rest := rest_of _ _ _ _ _ _ _) in *.
  pose proof (fun m' bs => malloc_restore _ _ _ _ _ _ _ _ _ _ _ Hg Hok m' need bs H16 Hn) as Hend. fold l1 x rest in Hend.
  assert (16 <= s - need -> x + need ∉ (x :: x + s :: (c_addr <$> rest))
    /\ x + need ∉ heads base 0 (Z.to_nat MM_NNODES) /\ x + need <> NULL) as Hfresh.
  { intros Hsn. destruct (inside_fresh g m base R1 a l1 s false ((s2, true) :: l3) R2 (x + need) Hok) as (Hc & ?);
      [unfold x; lia|]. split; [|done]. change ((s, false) :: ?l) with ([(s, false)] ++ l) in Hc. rewrite chunks_focus in Hc.
    cbn [locate app total foldr fst fmap list_fmap c_addr] in Hc. rewrite Z.add_0_r in Hc. exact Hc. }
  apply wp_bind. eapply wp_mono; [apply (hrep_unlink _ _ _ _ x Hr); rewrite Hf; left|].
  intros m1 (bs1 & Hr1 & Hp1). rewrite Hf in Hp1. apply Permutation_cons_inv in Hp1.
  assert (forall y, y ∈ concat bs1 -> y ∈ c_addr <$> rest) as Hsub.
  { intros y Hy. rewrite <- Hp1 in Hy. by apply free_addrs_subseteq. }
  assert (x ∉ c_addr <$> rest /\ x + s ∉ c_addr <$> rest) as [Hx1 Hx2].
  { pose proof (hr_nodup _ _ _ _ Hr) as Hd. rewrite !fmap_cons, !NoDup_cons in Hd. set_solver. }
  apply wp_bind. eapply hrep_deref; [done|find_ck|]. intros n _ Hns _. cbn beta zeta. rewrite Hns.
  assert (u32 (s - need) = s - need) as -> by (apply Z.mod_small; lia).
  apply wp_bind. unfold taken in Hend, HK. destruct (Z.leb_spec SIZEOF_MM_FREENODE (s - need)) as [Hb|Hb].
  - destruct (Hfresh Hb) as (Hf1 & Hf2 & Hf3).
    apply wp_bind. eapply wp_mono; [eapply (hrep_carve _ _ _ _ _ need false _ _ Hr1);
      [done|done|done|done|]|]. { intros Hy%Hsub. set_solver. }
    cbn beta. intros m2 Hr2. rewrite perm_swap in Hr2.
    apply wp_bind. eapply wp_mono; [apply (hrep_set_size _ _ _ _ _ _ need _ _ Hr2); set_solver|].
    cbn beta. intros m3 Hr3. apply wp_bind. eapply hrep_deref; [done|find_ck|]. intros k' _ _ Hk. rewrite Hk.
    rewrite lor_land_prec by lia. rewrite !(perm_swap (Ck (x + s) _ _ _)) in Hr3.
    apply wp_bind. eapply wp_mono; [by apply (hrep_set_prec _ _ _ _ _ _ _ (s - need) true _ _ Hr3)|].
    cbn beta. intros m4 Hr4. eapply wp_mono; [eapply (hrep_addfree _ _ _ _ (x + need)); [done|find_ck|..]|].
    { unfold SIZEOF_MM_FREENODE in Hb. lia. } { intros Hy%Hsub. set_solver. }
    intros m5 (bs5 & Hr5 & Hp5). rewrite (perm_swap (Ck x _ _ _)) in Hr5.
    apply wp_bind. eapply hrep_deref; [done|find_ck|]. intros k'' _ _ Hk'. rewrite Hk', lor_alloc_prec.
    apply wp_bind. eapply wp_mono; [by apply (hrep_set_prec _ _ _ _ _ _ _ s1 true _ _ Hr5)|].
    cbn beta. intros m6 Hr6. apply HK. eapply Hend.
    + cbn [locate app lastsize last fmap option_fmap option_map fst default from_option id].
      by rewrite (perm_swap (Ck (x + s) _ _ _)).
    + cbn. by rewrite Hp5, Hp1.
  - apply wp_ret. apply wp_bind. eapply hrep_deref; [done|find_ck|]. intros k' _ _ Hk. rewrite Hk, lor_alloc_prec.
    apply wp_bind. eapply wp_mono; [by apply (hrep_set_prec _ _ _ _ _ _ _ s1 true _ _ Hr1)|].
    cbn beta. intros m6 Hr6. apply HK. eapply Hend; [done|]. cbn. by rewrite Hp1.
Qed.

(** The free chunk that is allocated: one of the smallest of those large enough. *)
Definition best_fit (rs : list region) (need s : Z) : Prop :=
  need <= s /\ forall s', (s', false) ∈ tiles rs -> need <= s' -> s <= s'.

Lemma malloc_spec g pid size st rs :
  heap_ok g (mm_nodes st) (g_nodelist st) rs -> (g | 16) -> lock_available pid (mm_lock st) ->
  0 < size -> size + 23 < 2 ^ 32 ->
  wp (malloc pid size st) (fun '(p, st') =>
    (p = NULL /\ st' = st /\ forall s, (s, false) ∈ tiles rs -> s < need_of size)
    \/ exists R1 a l1 s l2 R2, rs = R1 ++ (a, l1 ++ (s, false) :: l2) :: R2
         /\ best_fit rs (need_of size) s /\ p = a + total l1 + SIZEOF_MM_ALLOCNODE /\ l1 <> [] /\ l2 <> []
         /\ heap_step g st st' (R1 ++ (a, l1 ++ taken (need_of size) s ++ l2) :: R2)).
Proof.
  intros Hok Hg Hl H0 H1. destruct (need_of_spec size H0 H1) as (En & _ & _ & H16 & Hn).
  destruct (lock_cycle _ _ Hl) as (lk & Ht & Hgv). unfold malloc.
  destruct (Z.leb_spec size 0); [lia|]. cbn zeta. rewrite En, Ht. set (need := need_of size) in *.
  apply wp_bind, wp_ret. cbn beta.
  replace (if MM_MAX_CHUNK <=? need then MM_NNODES - 1 else mm_size2ndx need) with (mm_size2ndx need)
    by (unfold mm_size2ndx; by case_match).
  destruct (ho_rep _ _ _ _ Hok) as (bs & Hr & Hf).
  pose proof (hr_nodelist _ _ _ _ Hr) as Hnl. pose proof (mm_size2ndx_range need ltac:(lia)) as Hrg.
  assert (nodelist (g_nodelist st) (mm_size2ndx need) ∈ weave (g_nodelist st) 0 bs) as Hhd.
  { apply (nl_weave _ _ _ _ Hnl). left. apply elem_of_heads. eexists. split; [done|].
    rewrite Z2Nat.id by done. lia. }
  apply wp_bind, wp_deref_valid.
  { eapply dseg_valid; [apply Hnl|apply Hnl|done]. }
  intros h Hh. apply wp_bind. eapply wp_mono; [eapply malloc_search_best; [done|lia|done]|].
  assert (forall s, (s, false) ∈ tiles rs -> exists y, y ∈ concat bs /\ node_size (mm_nodes st) y = s) as Htl.
  { intros s (y & p & Hy)%tiles_elem. exists y. split; [|by eapply hrep_node_size].
    rewrite Hf. apply elem_of_free_addrs. eauto. }
  intros x [[-> Hnone]|(Hx & Hsx & Hbest)].
  - rewrite decide_True by done. apply wp_bind, wp_ret. cbn beta iota. rewrite Hgv.
    apply wp_ret. left. rewrite set_lock_nodes. split; [done|]. split; [by destruct st|].
    intros s (y & Hy & <-)%Htl. by apply Hnone.
  - rewrite Hf in Hx. apply elem_of_free_addrs in Hx as (s & p & Hc).
    rewrite (hrep_node_size _ _ _ _ _ _ _ _ Hr Hc) in Hsx, Hbest.
    assert (x <> NULL) as Hx0.
    { pose proof (hr_addrs _ _ _ _ Hr) as Ha. rewrite Forall_forall in Ha. by apply (Ha _ Hc). }
    destruct (chunks_elem _ _ _ _ _ Hc) as (R1 & a & l1 & l2 & R2 & -> & -> & _).
    pose proof (ho_regions _ _ _ _ Hok) as Hreg. rewrite Forall_app, Forall_cons in Hreg.
    destruct (free_neighbours _ _ _ _ _ (proj1 (proj2 Hreg))) as (l0 & s1 & s2 & l3 & -> & -> & _).
    rewrite decide_False by done. apply wp_bind.
    eapply malloc_take; [done|done|split; [done|exact Hsx]|exact Hok|]. intros m' Hok'.
    apply wp_ret. cbn beta iota. rewrite Hgv. apply wp_ret. right. rewrite set_lock_nodes.
    do 6 eexists. split; [done|]. split; [|split; [done|]].
    + split; [done|]. intros s' (y & Hy & <-)%Htl Hle. by apply Hbest.
    + split; [by destruct l0|]. split; [done|]. by exists m'.
Qed.

(** ** free *)

Lemma rest_of_cons R1 a l1 q s2 s4 b4 l4 R2 :
  rest_of R1 a l1 q s2 ((s4, b4) :: l4) R2 ≡ₚ Ck q s4 s2 b4 :: rest_of R1 a l1 (q + s4) s4 l4 R2.
Proof.
  unfold rest_of. cbn [locate]. rewrite !app_assoc. symmetry. apply Permutation_middle.
Qed.

Lemma rest_of_snoc R1 a l0 s0 b0 q s2 l3 R2 :
  rest_of R1 a (l0 ++ [(s0, b0)]) q s2 l3 R2 ≡ₚ
  Ck (a + total l0) s0 (lastsize 0 l0) b0 :: rest_of R1 a l0 q s2 l3 R2.
Proof.
  unfold rest_of. rewrite locate_mid. cbn [locate]. rewrite <- app_assoc. cbn [app].
  rewrite (app_assoc _ (locate a 0 l0)), (app_assoc _ (locate a 0 l0)).
  symmetry. apply Permutation_middle.
Qed.

(** Merging the chunk at [x] with the free chunk that follows it. *)
Lemma free_merge_next m base x s p s2 s4 b4 rest bs :
  hrep m base (Ck x s p false :: Ck (x + s) s2 s false :: Ck (x + s + s2) s4 s2 b4 :: rest) bs ->
  x + s ∈ concat bs -> x ∉ concat bs -> 0 < s -> 0 < s2 -> s + s2 < 2 ^ 31 ->
  wp (m ← mm_unlink (x + s) m;
      n ← deref m x;
      let size := u32 (mm_size n + s2) in
      m ← store (set_mm_size size) x m;
      b ← deref m (x + s + s2);
      m ← store (set_mm_preceding (Z.lor size (Z.land (mm_preceding b) MM_ALLOC_BIT))) (x + s + s2) m;
      Ok (x + s + s2, m))
    (fun '(nxt, m') => nxt = x + (s + s2) /\ exists bs',
       hrep m' base (Ck x (s + s2) p false :: Ck (x + (s + s2)) s4 (s + s2) b4 :: rest) bs'
       /\ concat bs ≡ₚ x + s :: concat bs').
Proof.
  intros Hr Hin Hx Hs Hs2 Hb. apply wp_bind.
  eapply wp_mono; [by apply (hrep_unlink _ _ _ _ (x + s) Hr)|]. intros m1 (bs1 & Hr1 & Hp1).
  assert (x ∉ concat bs1) as Hx1 by (rewrite Hp1 in Hx; set_solver).
  apply wp_bind. eapply hrep_deref; [done|find_ck|]. intros n _ Hns _. rewrite Hns. cbn zeta.
  assert (u32 (s + s2) = s + s2) as -> by (apply Z.mod_small; lia).
  apply wp_bind. eapply wp_mono; [apply (hrep_set_size _ _ _ _ _ _ (s + s2) _ _ Hr1 Hx1)|].
  cbn beta. intros m2 Hr2. rewrite perm_swap in Hr2. apply hrep_drop in Hr2. rewrite perm_swap in Hr2.
  apply wp_bind. eapply hrep_deref; [done|find_ck|]. intros b _ _ Hbp.
  rewrite Hbp, lor_land_prec by lia. apply wp_bind.
  eapply wp_mono; [by apply (hrep_set_prec _ _ _ _ _ _ _ (s + s2) b4 _ _ Hr2)|].
  cbn beta. intros m3 Hr3. apply wp_ret. split; [lia|]. exists bs1. split; [|done].
  rewrite Z.add_assoc. by rewrite perm_swap.
Qed.

(** Merging the chunk at [x] into the free chunk before it. *)
Lemma free_merge_prev m base v s0 p0 x s sn bn rest bs :
  hrep m base (Ck x s s0 false :: Ck (x + s) sn s bn :: Ck v s0 p0 false :: rest) bs ->
  v ∈ concat bs -> NoDup (concat bs) -> 0 < s0 -> 0 < s -> s0 + s < 2 ^ 31 ->
  wp (m ← mm_unlink v m;
      u ← deref m v;
      n ← deref m x;
      let size := u32 (mm_size u + mm_size n) in
      m ← store (set_mm_size size) v m;
      b ← deref m (x + s);
      m ← store (set_mm_preceding (Z.lor size (Z.land (mm_preceding b) MM_ALLOC_BIT))) (x + s) m;
      Ok (v, m))
    (fun '(node, m') => node = v /\ exists bs',
       hrep m' base (Ck v (s0 + s) p0 false :: Ck (x + s) sn (s0 + s) bn :: rest) bs'
       /\ concat bs ≡ₚ v :: concat bs').
Proof.
  intros Hr Hin Hd Hs0 Hs Hb. apply wp_bind.
  eapply wp_mono; [by apply (hrep_unlink _ _ _ _ v Hr)|]. intros m1 (bs1 & Hr1 & Hp1).
  assert (v ∉ concat bs1) as Hv1 by (rewrite Hp1 in Hd; by apply NoDup_cons in Hd as [? _]).
  apply wp_bind. eapply hrep_deref; [done|find_ck|]. intros u _ Hu _. rewrite Hu.
  apply wp_bind. eapply hrep_deref; [done|find_ck|]. intros n _ Hns _. rewrite Hns. cbn zeta.
  assert (u32 (s0 + s) = s0 + s) as -> by (apply Z.mod_small; lia).
  apply hrep_drop in Hr1. rewrite perm_swap in Hr1.
  apply wp_bind. eapply wp_mono; [apply (hrep_set_size _ _ _ _ _ _ (s0 + s) _ _ Hr1 Hv1)|].
  cbn beta. intros m2 Hr2. rewrite perm_swap in Hr2.
  apply wp_bind. eapply hrep_deref; [done|find_ck|]. intros b _ _ Hbp.
  rewrite Hbp, lor_land_prec by lia. apply wp_bind.
  eapply wp_mono; [by apply (hrep_set_prec _ _ _ _ _ _ _ (s0 + s) bn _ _ Hr2)|].
  cbn beta. intros m3 Hr3. apply wp_ret. split; [done|]. exists bs1. split; [|done]. by rewrite perm_swap.
Qed.

(** ** The abstract effect of free *)

(** The size after merging with a free successor, and what then follows. *)
Definition merge_next (s : Z) (l2 : list (Z * bool)) : Z * list (Z * bool) :=
  match l2 with
  | (s2, false) :: l3 => (s + s2, l3)
  | _ => (s, l2)
  end.

(** The chunks after merging a chunk of size [s] into a free predecessor. *)
Definition merge_prev (l1 : list (Z * bool)) (s : Z) (l2 : list (Z * bool)) : list (Z * bool) :=
  match last l1 with
  | Some (s0, false) => removelast l1 ++ (s0 + s, false) :: l2
  | _ => l1 ++ (s, false) :: l2
  end.

(** The chunks of a region after the chunk of size [s] between [l1] and [l2]
    is freed. *)
Definition freed (l1 : list (Z * bool)) (s : Z) (l2 : list (Z * bool)) : list (Z * bool) :=
  let '(s', l2') := merge_next s l2 in merge_prev l1 s' l2'.

Section free.
  Context (m : gmap Z mm_node) (base : Z) (R1 : list region) (a : Z) (l1 : list (Z * bool)) (R2 : list region).
Let rest q s l := rest_of R1 a l1 q s l R2.

(** The successor's branch, taken or not. *)
Lemma free_next_spec x s s0 s2 b2 l3 bs (y : mm_node) :
  hrep m base (Ck x s s0 false :: Ck (x + s) s2 s b2 :: rest (x + s + s2) s2 l3) bs ->
  concat bs ≡ₚ free_addrs (Ck (x + s) s2 s b2 :: rest (x + s + s2) s2 l3) ->
  (b2 = false -> exists s4 l4, l3 = (s4, true) :: l4) ->
  0 < s -> 0 < s2 -> s + s2 < 2 ^ 31 -> mm_size y = s2 -> mm_preceding y = prec s b2 ->
  wp (if Z.land (mm_preceding y) MM_ALLOC_BIT =? 0 then
         m ← mm_unlink (x + s) m;
         n ← deref m x;
         let size := u32 (mm_size n + mm_size y) in
         m ← store (set_mm_size size) x m;
         b ← deref m (x + s + mm_size y);
         m ← store (set_mm_preceding (Z.lor size (Z.land (mm_preceding b) MM_ALLOC_BIT)))
               (x + s + mm_size y) m;
         Ok (x + s + mm_size y, m)
       else Ok (x + s, m))
    (fun '(nxt, m') => exists s' sn l' bs', merge_next s ((s2, b2) :: l3) = (s', (sn, true) :: l')
       /\ nxt = x + s' /\ hrep m' base (Ck x s' s0 false :: Ck (x + s') sn s' true :: rest (x + s' + sn) sn l') bs'
       /\ concat bs' ≡ₚ free_addrs (rest (x + s' + sn) sn l')).
Proof.
  intros Hr Hf Hb2 Hs Hs2 Hlt Hy Hyp. rewrite Hyp, prec_zero_bit, Hy by lia.
  destruct b2; cbn [negb].
  - apply wp_ret. exists s, s2, l3, bs. split; [done|]. split; [done|]. split; [done|].
    by rewrite Hf, free_addrs_cons.
  - destruct (Hb2 eq_refl) as (s4 & l4 & ->). unfold rest in Hr, Hf. rewrite rest_of_cons in Hr, Hf.
    rewrite !free_addrs_cons in Hf. cbn [c_alloc c_addr] in Hf.
    pose proof (hr_nodup _ _ _ _ Hr) as Hd. rewrite !fmap_cons, !NoDup_cons in Hd. cbn [c_addr] in Hd.
    eapply wp_mono; [apply (free_merge_next _ _ _ _ _ _ _ _ _ _ Hr); try done|].
    + rewrite Hf. left.
    + rewrite Hf. intros [E|Hin%free_addrs_subseteq]%elem_of_cons; [lia|]. set_solver.
    + intros [nxt m'] (-> & bs' & Hr' & Hp'). exists (s + s2), s4, l4, bs'.
      split; [done|]. split; [done|]. split.
      * unfold rest. by replace (x + (s + s2) + s4) with (x + s + s2 + s4) by lia.
      * rewrite Hf in Hp'. apply Permutation_cons_inv in Hp'. rewrite <- Hp'.
        unfold rest. by replace (x + (s + s2) + s4) with (x + s + s2 + s4) by lia.
Qed.

End free.

Lemma inner_elem {A} (l1 l2 mid : list A) c y d :
  l1 ++ y :: l2 = c :: mid ++ [d] -> l1 <> [] -> l2 <> [] -> y ∈ mid.
Proof.
  intros E H1 H2. destruct l1 as [|c' l1]; [done|]. destruct l2 as [|d' l2 _] using rev_ind; [done|].
  injection E as _ E. rewrite app_comm_cons, app_assoc in E. apply app_inj_tail in E as [<- _]. set_solver.
Qed.

(** A used chunk of a region that is not one of its guards. *)
Lemma used_neighbours g a l1 s b l2 :
  region_ok g (a, l1 ++ (s, b) :: l2) -> l1 <> [] -> l2 <> [] ->
  exists l0 s0 b0 s2 b2 l3, l1 = l0 ++ [(s0, b0)] /\ l2 = (s2, b2) :: l3 /\ size_ok g (s, b)
    /\ (b0 = false -> exists l00 s00, l0 = l00 ++ [(s00, true)])
    /\ (b2 = false -> exists s4 l4, l3 = (s4, true) :: l4).
Proof.
  intros Hreg H1 H2. destruct l1 as [|[s0 b0] l0 _] using rev_ind; [done|].
  destruct l2 as [|[s2 b2] l3]; [done|]. exists l0, s0, b0, s2, b2, l3.
  split; [done|]. split; [done|]. split; [|split].
  - destruct Hreg as [_ _ (mid & E & Hm) _]. simpl in E.
    assert ((s, b) ∈ mid) as Hin by (eapply inner_elem; [exact E|by destruct l0|done]).
    rewrite Forall_forall in Hm. by apply Hm.
  - intros ->. rewrite <- app_assoc in Hreg.
    destruct (free_neighbours _ _ _ _ _ Hreg) as (l00 & s00 & _ & _ & -> & _). eauto.
  - intros ->. replace ((l0 ++ [(s0, b0)]) ++ (s, b) :: (s2, false) :: l3)
      with ((l0 ++ [(s0, b0); (s, b)]) ++ (s2, false) :: l3) in Hreg by (by rewrite <- !app_assoc).
    destruct (free_neighbours _ _ _ _ _ Hreg) as (_ & _ & s4 & l4 & _ & -> & _). eauto.
Qed.

(** Re-establishing the invariant around one free chunk between used ones. *)
Lemma free_restore g m m' base R1 a l1 mt s' sn l' R2 bs :
  let x := a + total l1 in
  let rest := rest_of R1 a l1 (x + s' + sn) sn l' R2 in
  heap_ok g m base (R1 ++ (a, l1 ++ mt ++ (sn, true) :: l') :: R2) ->
  (exists l0 s0, l1 = l0 ++ [(s0, true)]) -> total mt = s' -> size_ok g (s', false) ->
  hrep m' base (Ck x s' (lastsize 0 l1) false :: Ck (x + s') sn s' true :: rest) bs ->
  concat bs ≡ₚ x :: free_addrs rest ->
  heap_ok g m' base (R1 ++ (a, l1 ++ (s', false) :: (sn, true) :: l') :: R2).
Proof.
  intros x rest Hok (l0 & s0 & ->) Ht Hs Hr Hf.
  eapply (heap_replace g m m' base R1 a _ mt [(s', false)] sn true l' R2 bs);
    [done|by destruct l0|by constructor|cbn; lia| | |].
  - apply (coalesced_replace _ mt); [|done| | |done].
    + pose proof (ho_regions _ _ _ _ Hok) as Hr'. rewrite Forall_app, Forall_cons in Hr'.
      destruct Hr' as (_ & [_ _ _ Hc] & _). exact Hc.
    + rewrite last_snoc. intros c d [= <-] _. done.
    + intros c d _ [= <-]. apply orb_true_r.
  - by rewrite Ht.
  - rewrite Ht. cbn [locate app]. by rewrite !free_addrs_cons.
Qed.

Lemma merge_next_split g s l2 s' sn l' :
  merge_next s l2 = (s', (sn, true) :: l') -> Forall (size_ok g) ((s, true) :: take 1 l2) \/ s' = s ->
  size_ok g (s, true) ->
  exists mt, (s, true) :: l2 = mt ++ (sn, true) :: l' /\ total mt = s' /\ size_ok g (s', false).
Proof.
  intros E Hs Hs0. unfold merge_next in E. destruct l2 as [|[s2 []] l3]; simplify_eq.
  - exists [(s', true)]. split; [done|]. split; [cbn; lia|done].
  - exists [(s, true); (s2, false)]. split; [done|]. split; [cbn; lia|].
    destruct Hs as [Hs|Hs].
    + cbn [take] in Hs. rewrite !Forall_cons in Hs. destruct Hs as ([??] & [??] & _). split; simpl in *; [lia|].
      by apply Z.divide_add_r.
    + replace (s + s2) with s by lia. done.
Qed.

(** The predecessor's branch and the insertion into the node list. *)
Lemma free_prev_spec {B} (k : gmap Z mm_node -> res B) Q g m m2 base R1 a l0 s0 b0 mt s' sn l' R2 bs :
  let l1 := l0 ++ [(s0, b0)] in
  let x := a + total l1 in
  let rest := rest_of R1 a l1 (x + s' + sn) sn l' R2 in
  heap_ok g m base (R1 ++ (a, l1 ++ mt ++ (sn, true) :: l') :: R2) ->
  (b0 = false -> exists l00 s00, l0 = l00 ++ [(s00, true)]) ->
  total mt = s' -> size_ok g (s', false) -> size_ok g (s0, b0) \/ b0 = true -> 0 < s0 -> s0 + s' < 2 ^ 31 ->
  lastsize 0 l0 < 2 ^ 31 -> 0 <= lastsize 0 l0 ->
  hrep m2 base (Ck x s' s0 false :: Ck (x + s') sn s' true :: rest) bs -> concat bs ≡ₚ free_addrs rest ->
  (forall m', heap_ok g m' base (R1 ++ (a, merge_prev l1 s' ((sn, true) :: l')) :: R2) -> wp (k m') Q) ->
  wp (v ← deref m2 (a + total l0);
      '(node, m) ←
        (if Z.land (mm_preceding v) MM_ALLOC_BIT =? 0 then
           m ← mm_unlink (a + total l0) m2;
           v ← deref m (a + total l0);
           n ← deref m x;
           let size := u32 (mm_size v + mm_size n) in
           m ← store (set_mm_size size) (a + total l0) m;
           b ← deref m (x + s');
           m ← store (set_mm_preceding (Z.lor size (Z.land (mm_preceding b) MM_ALLOC_BIT))) (x + s') m;
           Ok (a + total l0, m)
         else Ok (x, m2));
      m ← mm_addfreechunk base node m;
      k m) Q.
Proof.
  intros l1 x rest Hok Hb0 Ht Hsz Hsz0 Hs0 Hlt Hp1 Hp2 Hr Hf HK. destruct Hsz as [Hs16 Hsg]. simpl in Hs16, Hsg.
  assert (lastsize 0 l1 = s0) as El by (unfold l1; by rewrite lastsize_app).
  assert (total l1 = total l0 + s0) as Et by (unfold l1; rewrite total_app; cbn; lia).
  pose proof (hr_nodup _ _ _ _ Hr) as Hnd. rewrite !fmap_cons, !NoDup_cons in Hnd. cbn [c_addr] in Hnd.
  assert (x ∉ concat bs) as Hx.
  { rewrite Hf. intros Hin%free_addrs_subseteq. set_solver. }
  pose proof Hr as Hr'. unfold rest, l1 in Hr', Hf. rewrite rest_of_snoc in Hr', Hf.
  apply wp_bind. eapply hrep_deref; [done|find_ck|]. intros v _ _ Hv. cbn beta. rewrite Hv, prec_zero_bit by done.
  apply wp_bind. destruct b0; cbn [negb].
  - apply wp_ret. cbn beta iota. apply wp_bind.
    eapply wp_mono; [eapply (hrep_addfree _ _ _ _ x); [exact Hr|find_ck|lia|done]|].
    intros m3 (bs3 & Hr3 & Hp3). apply HK. unfold merge_prev, l1. rewrite last_snoc.
    eapply (free_restore g m); [exact Hok|by eauto|done|done|fold l1; by rewrite El|].
    fold l1. fold x. fold rest. rewrite Hp3, Hf. unfold rest, l1. by rewrite rest_of_snoc.
  - rewrite free_addrs_cons in Hf. cbn [c_alloc c_addr] in Hf.
    assert (NoDup (concat bs)) as Hndb.
    { pose proof (nl_nodup _ _ _ (hr_nodelist _ _ _ _ Hr)) as Hn. rewrite weave_perm in Hn.
      by apply NoDup_app in Hn as (_ & _ & ?). }
    destruct Hsz0 as [[Hs016 Hs0g]|]; [|done]. simpl in Hs016, Hs0g.
    eapply wp_mono; [apply (free_merge_prev _ _ (a + total l0) _ _ _ _ _ _ _ _ Hr'); [rewrite Hf; left|done|lia..]|].
    intros [node m3] (-> & bs3 & Hr3 & Hp3). cbn beta iota. apply wp_bind.
    assert (a + total l0 ∉ concat bs3) as Hv3 by (rewrite Hp3 in Hndb; by apply NoDup_cons in Hndb as [? _]).
    eapply wp_mono; [eapply (hrep_addfree _ _ _ _ (a + total l0)); [exact Hr3|find_ck|lia|done]|].
    intros m4 (bs4 & Hr4 & Hp4). apply HK. unfold merge_prev, l1. rewrite last_snoc, removelast_last.
    rewrite Hf in Hp3. apply Permutation_cons_inv in Hp3.
    assert (x + s' = a + total l0 + (s0 + s')) as Ex by (unfold x; lia). rewrite Ex in *.
    eapply (free_restore g m _ _ _ _ _ ((s0, false) :: mt)); [|by apply Hb0|cbn; unfold total in *; lia| |exact Hr4|].
    + unfold l1 in Hok. by rewrite <- app_assoc in Hok.
    + split; simpl; [lia|]. by apply Z.divide_add_r.
    + by rewrite Hp4, Hp3.
Qed.

Lemma lastsize_bounds l : pos_sizes l -> 0 <= lastsize 0 l <= total l.
Proof.
  destruct l as [|[s b] l _] using rev_ind; [done|]. intros (Hl & Hs)%Forall_app.
  apply Forall_cons in Hs as [Hs _]. rewrite lastsize_app, total_app. cbn in *.
  pose proof (total_nonneg _ Hl). lia.
Qed.

Lemma free_spec g pid st R1 a l1 s l2 R2 :
  heap_ok g (mm_nodes st) (g_nodelist st) (R1 ++ (a, l1 ++ (s, true) :: l2) :: R2) ->
  l1 <> [] -> l2 <> [] -> lock_available pid (mm_lock st) ->
  wp (free pid (a + total l1 + SIZEOF_MM_ALLOCNODE) st) (fun st' =>
    heap_step g st st' (R1 ++ (a, freed l1 s l2) :: R2)).
Proof.
  intros Hok Hl1 Hl2 Hl. destruct (lock_cycle _ _ Hl) as (lk & Ht & Hgv).
  pose proof (ho_regions _ _ _ _ Hok) as Hreg. rewrite Forall_app, Forall_cons in Hreg.
  destruct Hreg as (_ & Hreg & _).
  destruct (used_neighbours _ _ _ _ _ _ Hreg Hl1 Hl2) as (l0 & s0 & b0 & s2 & b2 & l3 & -> & -> & Hsz & Hb0 & Hb2).
  pose proof (region_ok_pos _ _ Hreg) as Hpos. unfold pos_sizes in Hpos. simpl in Hpos.
  rewrite !Forall_app, !Forall_cons in Hpos. destruct Hpos as ((Hp0 & Hs0 & _) & Hs & Hs2 & Hp3). simpl in Hs0, Hs, Hs2.
  pose proof (total_nonneg _ Hp0). pose proof (total_nonneg _ Hp3).
  pose proof (ro_total _ _ Hreg) as Htot. pose proof (ro_base _ _ Hreg) as (Ha & _). simpl in Htot, Ha.
  rewrite !total_app, !total_cons in Htot. cbn in Htot.
  set (l1 := l0 ++ [(s0, b0)]) in *. set (base := g_nodelist st) in *.
  assert (total l1 = total l0 + s0) as Et by (unfold l1; rewrite total_app; cbn; lia).
  assert (lastsize 0 l1 = s0) as El by (unfold l1; by rewrite lastsize_app).
  set (x := a + total l1) in *.
  destruct (ho_rep _ _ _ _ Hok) as (bs & Hr & Hf).
  change ((s, true) :: ?l) with ([(s, true)] ++ l) in Hr, Hf. rewrite chunks_focus, El in Hr, Hf.
  cbn [locate app total foldr fst] in Hr, Hf. rewrite Z.add_0_r in Hr, Hf. fold x in Hr, Hf.
  rewrite free_addrs_cons in Hf. cbn [c_alloc] in Hf.
  unfold free. rewrite decide_False by (unfold SIZEOF_MM_ALLOCNODE; lia). rewrite Ht.
  apply wp_bind, wp_ret. cbn beta zeta. rewrite Z.add_simpl_r.
  apply wp_bind. eapply hrep_deref; [done|find_ck|]. intros n _ Hns Hnp. cbn beta. rewrite Hns, Hnp, land_not_alloc by lia.
  apply wp_bind. eapply wp_mono; [by apply (hrep_set_prec _ _ _ _ _ _ _ s0 false _ _ Hr)|].
  cbn beta. intros m1 Hr1.
  apply wp_bind. eapply hrep_deref; [done|find_ck|]. intros y _ Hy Hyp. cbn beta.
  apply wp_bind. eapply wp_mono; [eapply (free_next_spec _ _ _ _ _ _ _ _ _ _ _ _ _ _ Hr1); try done; lia|].
  intros [nxt m2] (s' & sn & l' & bs2 & Em & -> & Hr2 & Hf2). cbn beta iota.
  apply wp_bind. eapply hrep_deref; [done|find_ck|]. intros n2 _ _ Hn2. cbn beta zeta. rewrite Hn2. cbn [prec].
  assert (exists mt, (s, true) :: (s2, b2) :: l3 = mt ++ (sn, true) :: l' /\ total mt = s' /\ size_ok g (s', false))
    as (mt & Emt & Etmt & Hsz').
  { eapply merge_next_split; [done| |done]. destruct b2; [right; by injection Em|left].
    constructor; [done|]. cbn [take]. constructor; [|done].
    replace (l1 ++ (s, true) :: (s2, false) :: l3) with ((l1 ++ [(s, true)]) ++ (s2, false) :: l3) in Hreg
      by (by rewrite <- app_assoc).
    by destruct (free_neighbours _ _ _ _ _ Hreg) as (_ & _ & _ & _ & _ & _ & ?). }
  replace (x - s0) with (a + total l0) by lia.
  assert (s' <= s + s2) by (destruct b2; injection Em; lia).
  pose proof (lastsize_bounds _ Hp0).
  eapply (free_prev_spec _ _ g (mm_nodes st) _ _ _ _ _ _ _ mt);
    [by rewrite <- Emt|done|done|done| |done|lia|lia|lia|exact Hr2|exact Hf2|].
  - destruct b0; [by right|left]. unfold l1 in Hreg. rewrite <- app_assoc in Hreg.
    by destruct (free_neighbours _ _ _ _ _ Hreg) as (_ & _ & _ & _ & _ & _ & ?).
  - intros m3 Hok3. cbn beta. rewrite Hgv. apply wp_ret. rewrite set_lock_nodes. exists m3.
    split; [done|]. unfold freed. by rewrite Em.
Qed.

(** ** mm_shrinkchunk *)

(** The chunks from a used chunk of [s] bytes on, once it is cut to [size]. *)
Definition shrunk (s size : Z) (l2 : list (Z * bool)) : list (Z * bool) :=
  match l2 with
  | (s2, false) :: l3 => (size, true) :: (s2 + s - size, false) :: l3
  | _ =>
      if size + SIZEOF_MM_FREENODE <=? s then (size, true) :: (s - size, false) :: l2
      else (s, true) :: l2
  end.

(** Re-establishing the invariant around a used chunk followed by a free one. *)
Lemma shrink_restore g m m' base R1 a l1 mid size r s2 l3 R2 bs :
  let x := a + total l1 in
  let rest := rest_of R1 a l1 (x + size + r + s2) s2 l3 R2 in
  heap_ok g m base (R1 ++ (a, l1 ++ mid ++ (s2, true) :: l3) :: R2) -> l1 <> [] ->
  total mid = size + r -> size_ok g (size, true) -> size_ok g (r, false) ->
  hrep m' base (Ck x size (lastsize 0 l1) true :: Ck (x + size) r size false
    :: Ck (x + size + r) s2 r true :: rest) bs ->
  concat bs ≡ₚ x + size :: free_addrs rest ->
  heap_ok g m' base (R1 ++ (a, l1 ++ [(size, true); (r, false)] ++ (s2, true) :: l3) :: R2).
Proof.
  intros x rest Hok Hl1 Ht Hs Hr Hrep Hf.
  eapply (heap_replace g m m' base R1 a l1 mid [(size, true); (r, false)] s2 true l3 R2 bs);
    [done|done|by rewrite !Forall_cons|cbn; lia| | |].
  - apply (coalesced_replace _ mid); [|done| | |done].
    + pose proof (ho_regions _ _ _ _ Hok) as Hr'. rewrite Forall_app, Forall_cons in Hr'.
      destruct Hr' as (_ & [_ _ _ Hc] & _). exact Hc.
    + intros c d _ [= <-]. apply orb_true_r.
    + intros c d _ [= <-]. apply orb_true_r.
  - rewrite Ht, !Z.add_assoc. exact Hrep.
  - rewrite Ht, !Z.add_assoc. cbn [locate app]. by rewrite !free_addrs_cons.
Qed.

(** The used chunk at the focus, its successor and the rest of the heap. *)
Lemma used_focus g m base R1 a l1 s s2 b2 l3 R2 :
  let x := a + total l1 in
  let rest := rest_of R1 a l1 (x + s + s2) s2 l3 R2 in
  heap_ok g m base (R1 ++ (a, l1 ++ (s, true) :: (s2, b2) :: l3) :: R2) -> 0 < s ->
  exists bs, hrep m base (Ck x s (lastsize 0 l1) true :: Ck (x + s) s2 s b2 :: rest) bs
    /\ concat bs ≡ₚ free_addrs (Ck (x + s) s2 s b2 :: rest)
    /\ (forall y, x < y < x + s -> y <> NULL /\ y ∉ heads base 0 (Z.to_nat MM_NNODES)
          /\ y ∉ x :: x + s :: (c_addr <$> rest) /\ y ∉ concat bs).
Proof.
  intros x rest Hok Hs. destruct (ho_rep _ _ _ _ Hok) as (bs & Hr & Hf). exists bs.
  pose proof (fun y => inside_fresh _ _ _ _ _ _ _ _ _ _ y Hok) as Hin.
  change ((s, true) :: ?l) with ([(s, true)] ++ l) in Hr, Hf, Hin. rewrite chunks_focus in Hr, Hf.
  setoid_rewrite chunks_focus in Hin.
  cbn [locate app total foldr fst] in Hr, Hf, Hin. rewrite Z.add_0_r in Hr, Hf, Hin. fold x in Hr, Hf, Hin.
  rewrite free_addrs_cons in Hf. cbn [c_alloc] in Hf. split; [done|]. split; [done|].
  intros y Hy. destruct (Hin y Hy) as (H1 & H2 & H3). cbn [fmap list_fmap c_addr] in H1.
  split; [done|]. split; [done|]. split; [done|]. rewrite Hf. intros Hc%free_addrs_subseteq. set_solver.
Qed.

Lemma mm_shrinkchunk_spec g m base R1 a l1 s l2 R2 size :
  heap_ok g m base (R1 ++ (a, l1 ++ (s, true) :: l2) :: R2) -> l1 <> [] -> l2 <> [] ->
  16 <= size < s -> (g | size) ->
  wp (mm_shrinkchunk base (a + total l1) size m) (fun m' =>
    heap_ok g m' base (R1 ++ (a, l1 ++ shrunk s size l2) :: R2)).
Proof.
  intros Hok Hl1 Hl2 Hsz Hgs.
  pose proof (ho_regions _ _ _ _ Hok) as Hreg. rewrite Forall_app, Forall_cons in Hreg.
  destruct Hreg as (_ & Hreg & _).
  destruct (used_neighbours _ _ _ _ _ _ Hreg Hl1 Hl2) as (_ & _ & _ & s2 & b2 & l3 & _ & -> & [_ Hsg] & _ & Hb2).
  pose proof (region_ok_pos _ _ Hreg) as Hpos. unfold pos_sizes in Hpos. simpl in Hpos, Hsg.
  rewrite !Forall_app, !Forall_cons in Hpos. destruct Hpos as (Hp1 & Hs & Hs2 & Hp3). simpl in Hs, Hs2.
  pose proof (total_nonneg _ Hp1). pose proof (total_nonneg _ Hp3).
  pose proof (ro_total _ _ Hreg) as Htot. simpl in Htot. rewrite !total_app, !total_cons in Htot. cbn in Htot.
  destruct (used_focus _ _ _ _ _ _ _ _ _ _ _ Hok Hs) as (bs & Hr & Hf & Hfresh).
  set (x := a + total l1) in *. unfold mm_shrinkchunk.
  apply wp_bind. eapply hrep_deref; [done|find_ck|]. intros n _ Hns _. cbn beta zeta. rewrite Hns.
  apply wp_bind. eapply hrep_deref; [done|find_ck|]. intros y _ Hy Hyp. cbn beta. rewrite Hyp, prec_zero_bit, Hy by lia.
  destruct b2; cbn [negb shrunk].
  - unfold u32 at 1. rewrite Z.mod_small by (unfold SIZEOF_MM_FREENODE; lia).
    destruct (Z.leb_spec (size + SIZEOF_MM_FREENODE) s) as [Hbig|_]; [|by apply wp_ret].
    unfold SIZEOF_MM_FREENODE in Hbig. destruct (Hfresh (x + size)) as (Hf1 & Hf2 & Hf3 & Hf4); [lia|].
    rewrite free_addrs_cons in Hf. cbn [c_alloc] in Hf.
    assert (u32 (s - size) = s - size) as -> by (apply Z.mod_small; lia).
    apply wp_bind. eapply wp_mono; [by eapply (hrep_carve _ _ _ _ _ size false _ _ Hr)|].
    cbn beta. intros m1 Hr1. rewrite perm_swap in Hr1.
    apply wp_bind. eapply wp_mono; [apply (hrep_set_size _ _ _ _ _ _ size _ _ Hr1)|].
    { pose proof (hrep_notin _ _ _ _ _ Hr) as Hnx. rewrite !fmap_cons, !not_elem_of_cons in Hnx.
      rewrite Hf. apply notin_free. tauto. }
    cbn beta. intros m2 Hr2. rewrite !(perm_swap (Ck (x + s) _ _ _)) in Hr2.
    apply wp_bind. eapply wp_mono; [by apply (hrep_set_prec _ _ _ _ _ _ _ (s - size) true _ _ Hr2)|].
    cbn beta. intros m3 Hr3. eapply wp_mono; [eapply (hrep_addfree _ _ _ _ (x + size)); [done|find_ck|lia|done]|].
    intros m4 (bs4 & Hr4 & Hp4).
    apply (shrink_restore g m _ _ _ _ _ [(s, true)] size (s - size) s2 l3 R2 bs4); [done|done|cbn; lia|by split; simpl; [lia|]|..].
    + split; simpl; [lia|]. by apply Z.divide_sub_r.
    + fold x. replace (x + size + (s - size)) with (x + s) by lia. by rewrite !(perm_swap (Ck (x + s) _ _ _)).
    + fold x. replace (x + size + (s - size)) with (x + s) by lia. by rewrite Hp4, Hf.
  - destruct (Hb2 eq_refl) as (s4 & l4 & ->). rewrite rest_of_cons in Hr, Hf.
    rewrite !free_addrs_cons in Hf. cbn [c_alloc c_addr] in Hf. rewrite !total_cons in Htot. cbn [fst] in Htot.
    apply Forall_cons in Hp3 as [Hs4 Hp4]. pose proof (total_nonneg _ Hp4). simpl in Hs4.
    destruct (Hfresh (x + size)) as (Hf1 & Hf2 & Hf3 & Hf4); [lia|]. rewrite rest_of_cons in Hf3.
    pose proof (hrep_notin _ _ _ _ _ Hr) as Hnx. rewrite fmap_cons in Hf3.
    rewrite !fmap_cons, !not_elem_of_cons in Hnx. rewrite !not_elem_of_cons in Hf3. cbn [c_addr] in Hnx, Hf3.
    destruct Hnx as (_ & _ & Hnx), Hf3 as (Hn1 & Hn2 & Hn3 & Hn4).
    apply wp_bind. eapply wp_mono; [apply (hrep_unlink _ _ _ _ (x + s) Hr); rewrite Hf; left|].
    intros m1 (bs1 & Hr1 & Hp1'). rewrite Hf in Hp1'. apply Permutation_cons_inv in Hp1'.
    assert (forall y, y ∉ c_addr <$> rest_of R1 a l1 (x + s + s2 + s4) s4 l4 R2 -> y ∉ concat bs1) as Hsub.
    { intros z Hz. rewrite <- Hp1'. by apply notin_free. }
    rewrite perm_swap in Hr1. apply hrep_drop in Hr1.
    assert (u32 (s2 + s - size) = s2 + s - size) as -> by (apply Z.mod_small; lia).
    set (r := s2 + s - size).
    apply wp_bind. eapply wp_mono; [eapply (hrep_carve _ _ _ r _ size false _ _ Hr1); [done|done|done| |]|].
    { by rewrite !fmap_cons, !not_elem_of_cons. } { by apply Hsub. }
    cbn beta. intros m2 Hr2. rewrite perm_swap in Hr2.
    apply wp_bind. eapply wp_mono; [apply (hrep_set_size _ _ _ _ _ _ size _ _ Hr2)|].
    { by apply Hsub. }
    cbn beta. intros m3 Hr3. apply wp_bind. eapply hrep_deref; [done|find_ck|]. intros b _ _ Hb.
    rewrite Hb, lor_land_prec by lia. rewrite !(perm_swap (Ck (x + s + s2) _ _ _)) in Hr3.
    apply wp_bind. eapply wp_mono; [by apply (hrep_set_prec _ _ _ _ _ _ _ r true _ _ Hr3)|].
    cbn beta. intros m4 Hr4. eapply wp_mono; [eapply (hrep_addfree _ _ _ _ (x + size)); [done|find_ck|lia|]|].
    { by apply Hsub. }
    intros m5 (bs5 & Hr5 & Hp5).
    destruct (free_neighbours g a (l1 ++ [(s, true)]) s2 ((s4, true) :: l4)) as (_ & _ & _ & _ & _ & _ & [Hs216 Hs2g]);
      [by rewrite <- app_assoc|]. simpl in Hs216, Hs2g.
    apply (shrink_restore g m _ _ _ _ _ [(s, true); (s2, false)] size r s4 l4 R2 bs5);
      [done|done|cbn; lia|by split; simpl; [lia|]|..].
    + split; simpl; [lia|]. apply Z.divide_sub_r; [|done]. by apply Z.divide_add_r.
    + fold x. replace (x + size + r) with (x + s + s2) by lia. by rewrite !(perm_swap (Ck (x + s + s2) _ _ _)).
    + fold x. replace (x + size + r) with (x + s + s2) by lia. by rewrite Hp5, <- Hp1'.
Qed.
