(* ===== verification/MmInit.v ===== *)
(** * The memory manager: initialisation

    [mm_initialize] builds the empty node list and the first region,
    [mm_addregion] adds a region to a heap: both establish the invariant of
    MmHeap. *)

From stdpp Require Import sorting.
From S2P Require Import Prelude Queue Mm MmInv MmHeap MmAlloc.

(** ** The empty node list *)

Lemma nodelist_inj base i j : nodelist base i = nodelist base j -> i = j.
Proof. unfold nodelist, SIZEOF_MM_FREENODE. lia. Qed.

Lemma memset_nodelist base (m : gmap Z mm_node) (n : nat) y :
  foldl (fun m i => <[nodelist base i := raw_node]> m) m (seqZ 0 (Z.of_nat n)) !! y =
  if bool_decide (y ∈ heads base 0 n) then Some raw_node else m !! y.
Proof.
  induction n as [|n IH]; [done|]. unfold heads in *.
  replace (Z.of_nat (S n)) with (Z.of_nat n + 1) by lia.
  rewrite seqZ_app by lia. rewrite foldl_app. change (seqZ (0 + Z.of_nat n) 1) with [0 + Z.of_nat n].
  rewrite Z.add_0_l, fmap_app. cbn [foldl fmap list_fmap].
  destruct (decide (y = nodelist base (Z.of_nat n))) as [->|Hne].
  - rewrite lookup_insert_eq, bool_decide_true; [done|]. set_solver.
  - rewrite lookup_insert_ne, IH by done. apply (f_equal (fun b : bool => if b then _ else _)).
    apply bool_decide_ext. set_solver.
Qed.

(** The node of g_nodelist[j] when the first [k] links have been made. *)
Definition linked_node (base k j : Z) : mm_node :=
  MmNode 0 0 (if j <? k then nodelist base (j + 1) else NULL)
    (if (0 <? j) && (j <=? k) then nodelist base (j - 1) else NULL).

Lemma link_nodelist base (m : gmap Z mm_node) (k : nat) :
  0 < base -> Z.of_nat k < MM_NNODES ->
  (forall j, 0 <= j < MM_NNODES -> m !! nodelist base j = Some raw_node) ->
  wp (foldl (fun r i =>
      m ← r;
      m ← store (set_flink (nodelist base i)) (nodelist base (i - 1)) m;
      store (set_blink (nodelist base (i - 1))) (nodelist base i) m)
    (Ok m) (seqZ 1 (Z.of_nat k))) (fun m' =>
      forall j, 0 <= j < MM_NNODES -> m' !! nodelist base j = Some (linked_node base (Z.of_nat k) j)).
Proof.
  intros Hb Hk Hm. induction k as [|k IH].
  - apply wp_ret. intros j Hj. rewrite Hm by done. unfold linked_node. 
    destruct (Z.ltb_spec j (Z.of_nat 0)); [lia|]. destruct (Z.ltb_spec 0 j); [|done].
    destruct (Z.leb_spec j (Z.of_nat 0)); [lia|done].
  - replace (Z.of_nat (S k)) with (Z.of_nat k + 1) in * by lia.
    rewrite seqZ_app, foldl_app by lia. change (seqZ (1 + Z.of_nat k) 1) with [1 + Z.of_nat k].
    cbn [foldl]. apply wp_bind. eapply wp_mono; [apply IH; lia|]. intros m1 Hm1. cbn beta.
    assert (forall j, 0 <= j < MM_NNODES -> valid m1 (nodelist base j)) as Hv.
    { intros j Hj. split; [unfold nodelist, SIZEOF_MM_FREENODE; lia|]. rewrite Hm1 by done. eauto. }
    apply wp_bind, wp_store; [apply Hv; lia|]. apply wp_store; [apply valid_alter, Hv; lia|].
    replace (1 + Z.of_nat k - 1) with (Z.of_nat k) by lia.
    replace (1 + Z.of_nat k) with (Z.of_nat k + 1) by lia.
    intros j Hj. rewrite !lookup_alter. unfold linked_node in *.
    destruct (decide (j = Z.of_nat k)) as [->|Hjk].
    + rewrite decide_False by (intros ?%nodelist_inj; lia). rewrite decide_True, Hm1 by done.
      cbn. f_equal. destruct (Z.ltb_spec (Z.of_nat k) (Z.of_nat k + 1)); [|lia]. f_equal.
      destruct (Z.leb_spec (Z.of_nat k) (Z.of_nat k)); [|lia].
      destruct (Z.leb_spec (Z.of_nat k) (Z.of_nat k + 1)); [done|lia].
    + destruct (decide (j = Z.of_nat k + 1)) as [->|Hjk'].
      * rewrite decide_True by done. rewrite decide_False by (intros ?%nodelist_inj; lia).
        rewrite Hm1 by done. cbn. f_equal.
        destruct (Z.ltb_spec (Z.of_nat k + 1) (Z.of_nat k)); [lia|].
        destruct (Z.ltb_spec (Z.of_nat k + 1) (Z.of_nat k + 1)); [lia|].
        destruct (Z.ltb_spec 0 (Z.of_nat k + 1)); [|lia].
        destruct (Z.leb_spec (Z.of_nat k + 1) (Z.of_nat k + 1)); [|lia]. cbn. do 2 f_equal. lia.
      * rewrite !decide_False by (intros ?%nodelist_inj; lia). rewrite Hm1 by done. do 2 f_equal.
        -- destruct (Z.ltb_spec j (Z.of_nat k)), (Z.ltb_spec j (Z.of_nat k + 1)); lia || done.
        -- destruct (Z.leb_spec j (Z.of_nat k)), (Z.leb_spec j (Z.of_nat k + 1)); lia || done.
Qed.

Lemma weave_empty base i n : weave base i (replicate n []) = heads base i n.
Proof.
  revert i. induction n as [|n IH]; intros i; [done|]. rewrite heads_S. cbn [replicate weave app].
  by rewrite IH.
Qed.

Lemma linked_dseg base (m : gmap Z mm_node) n i :
  (forall j, 0 <= j < MM_NNODES -> m !! nodelist base j = Some (linked_node base (MM_NNODES - 1) j)) ->
  0 <= i -> i + Z.of_nat n = MM_NNODES ->
  dseg m (if 0 <? i then nodelist base (i - 1) else NULL) (heads base i n) NULL.
Proof.
  intros Hm. revert i. induction n as [|n IH]; intros i Hi Hn; [done|].
  rewrite heads_S. split.
  - eexists. split; [apply Hm; lia|]. cbn [flink blink mm_node_linked linked_node mm_flink mm_blink]. split.
    + destruct n as [|n].
      * destruct (Z.ltb_spec i (MM_NNODES - 1)); [lia|done].
      * destruct (Z.ltb_spec i (MM_NNODES - 1)); [|lia]. by rewrite heads_S.
    + destruct (Z.leb_spec i (MM_NNODES - 1)); [|lia]. by rewrite andb_true_r.
  - specialize (IH (i + 1) ltac:(lia) ltac:(lia)). destruct (Z.ltb_spec 0 (i + 1)); [|lia].
    by replace (i + 1 - 1) with i in IH by lia.
Qed.

Lemma heads_NoDup base n : NoDup (heads base 0 n).
Proof. apply NoDup_fmap_2; [|apply NoDup_seqZ]. intros i j. apply nodelist_inj. Qed.

Lemma init_nodelist_spec base m :
  0 < base ->
  wp (init_nodelist base m) (fun m' => hrep m' base [] (replicate 19 [])).
Proof.
  intros Hb. unfold init_nodelist. change MM_NNODES with (Z.of_nat 19) at 1.
  eapply wp_mono; [apply (link_nodelist base _ 18); [done|done|]|].
  - intros j Hj. rewrite memset_nodelist, bool_decide_true; [done|]. apply elem_of_heads.
    exists j. split; [done|]. change MM_NNODES with 19 in Hj. lia.
  - intros m' Hm'. pose proof (linked_dseg base m' 19 0 Hm' ltac:(lia) ltac:(done)) as Hs.
    split; [constructor| |constructor|constructor]. split; rewrite ?weave_empty.
    + exact Hs.
    + apply heads_NoDup.
    + intros (j & Hj & ?)%elem_of_heads. unfold nodelist, SIZEOF_MM_FREENODE in Hj. lia.
    + done.
    + intros i Hi. unfold node_size. by rewrite Hm'.
    + intros i b Hib. apply lookup_replicate in Hib as [-> _]. split; constructor.
Qed.

(** ** Adding a region *)

(** The addresses of a region apart from the others are not node addresses. *)
Lemma region_fresh g base rs a l y :
  Forall (region_ok g) rs -> all_apart base (rs ++ [(a, l)]) -> a <= y < a + total l ->
  y ∉ c_addr <$> chunks_of rs /\ y ∉ heads base 0 (Z.to_nat MM_NNODES).
Proof.
  intros Hr [Hb Ha] Hy. rewrite fmap_app in Ha. cbn [fmap list_fmap] in Ha.
  assert (forall z, z ∈ (base, 304) :: (footprint <$> rs) -> apart (a, total l) z) as Hap.
  { intros z Hz. apply (sorted_apart_mid ((base, 304) :: (footprint <$> rs)) _ []); [done|].
    by rewrite app_nil_r. }
  split.
  - intros (c & -> & Hc)%list_elem_of_fmap. unfold chunks_of in Hc.
    apply list_elem_of_bind in Hc as (r & Hc & Hin).
    pose proof (region_bounds _ _ _ _ Hr Hin Hc).
    assert (apart (a, total l) (footprint r)) as H' by (apply Hap; right; by apply list_elem_of_fmap_2).
    unfold apart in H'. simpl in H'. lia.
  - intros (k & -> & Hk)%elem_of_heads. rewrite Z2Nat.id in Hk by done.
    assert (apart (a, total l) (base, 304)) as H' by (apply Hap; left).
    change MM_NNODES with 19 in Hk. unfold nodelist, SIZEOF_MM_FREENODE, apart in *. simpl in *. lia.
Qed.

(** The range [mm_addregion] uses of the memory it is given. *)
Definition region_base (heapstart : Z) : Z := (heapstart + 15) / 16 * 16.
Definition region_end (heapstart heapsize : Z) : Z := (heapstart + heapsize) / 16 * 16.
Definition new_region (heapstart heapsize : Z) : region :=
  let n := region_end heapstart heapsize - region_base heapstart in
  (region_base heapstart, [(8, true); (n - 16, false); (8, true)]).

Lemma region_arith heapstart heapsize :
  0 < heapstart -> 0 <= heapsize -> heapstart + heapsize < 2 ^ 32 - 15 ->
  region_base heapstart + 32 <= region_end heapstart heapsize ->
  MM_ALIGN_UP heapstart = region_base heapstart
  /\ MM_ALIGN_DOWN (u32 (heapstart + heapsize)) = region_end heapstart heapsize
  /\ 0 < region_base heapstart /\ region_end heapstart heapsize < 2 ^ 32
  /\ (16 | region_base heapstart) /\ (16 | region_end heapstart heapsize - region_base heapstart).
Proof.
  intros H0 H1 H2 H3. unfold u32. rewrite (Z.mod_small (heapstart + heapsize)) by lia.
  rewrite align_up_div, align_down_div by lia. split; [done|]. split; [done|].
  unfold region_base, region_end in *. 
  pose proof (Z.div_mod (heapstart + heapsize) 16). pose proof (Z.mod_pos_bound (heapstart + heapsize) 16).
  assert (1 <= (heapstart + 15) / 16) by (apply Z.div_le_lower_bound; lia).
  split; [lia|]. split; [lia|]. split; [by eexists|]. apply Z.divide_sub_r; by eexists.
Qed.

Lemma new_region_ok heapstart heapsize :
  0 < heapstart -> 0 <= heapsize -> heapstart + heapsize < 2 ^ 32 - 15 ->
  region_base heapstart + 32 <= region_end heapstart heapsize ->
  region_end heapstart heapsize - region_base heapstart < 2 ^ 31 ->
  region_ok 16 (new_region heapstart heapsize).
Proof.
  intros H0 H1 H2 H3 H4. destruct (region_arith _ _ H0 H1 H2 H3) as (_ & _ & ? & ? & ? & ?).
  unfold new_region. split; cbn [fst snd total foldr]; [split; [lia|split; [done|lia]]|lia| |done].
  eexists [_]. split; [done|]. constructor; [|done]. split; simpl; [lia|]. by apply Z.divide_sub_r.
Qed.

Lemma mm_addregion_spec g st rs heapstart heapsize :
  heap_ok g (mm_nodes st) (g_nodelist st) rs -> (g | 16) ->
  0 < heapstart -> 0 <= heapsize -> heapstart + heapsize < 2 ^ 32 - 15 ->
  region_base heapstart + 32 <= region_end heapstart heapsize ->
  region_end heapstart heapsize - region_base heapstart < 2 ^ 31 ->
  all_apart (g_nodelist st) (rs ++ [new_region heapstart heapsize]) ->
  (g_nregions st < length (g_heapstart st))%nat -> (g_nregions st < length (g_heapend st))%nat ->
  wp (mm_addregion heapstart heapsize st) (fun st' =>
    heap_ok g (mm_nodes st') (g_nodelist st) (rs ++ [new_region heapstart heapsize])
    /\ g_nodelist st' = g_nodelist st /\ mm_bytes st' = mm_bytes st /\ mm_lock st' = mm_lock st
    /\ g_nregions st' = S (g_nregions st)
    /\ g_heapsize st' = u32 (g_heapsize st + total (new_region heapstart heapsize).2)
    /\ g_heapstart st' = <[g_nregions st := region_base heapstart]> (g_heapstart st)
    /\ g_heapend st' = <[g_nregions st := region_end heapstart heapsize - 8]> (g_heapend st)).
Proof.
  intros Hok Hg H0 H1 H2 H3 H4 Hap Hs He.
  destruct (region_arith _ _ H0 H1 H2 H3) as (Eb & Ee & Hb0 & He32 & H16 & H16n).
  pose proof (new_region_ok _ _ H0 H1 H2 H3 H4) as Hnew.
  pose proof (fun y => region_fresh g _ _ _ _ y (ho_regions _ _ _ _ Hok) Hap) as Hfresh.
  unfold mm_addregion. rewrite Eb, Ee. unfold new_region in *. cbn zeta in *.
  set (b := region_base heapstart) in *. set (e := region_end heapstart heapsize) in *.
  assert (total [(8, true); (e - b - 16, false); (8, true)] = e - b) as Et by (cbn; lia). cbn [snd]. rewrite Et.
  assert (forall y, b <= y < e -> y ∉ c_addr <$> chunks_of rs
    /\ y ∉ heads (g_nodelist st) 0 (Z.to_nat MM_NNODES)) as Hfr by (intros y Hy; apply Hfresh; lia).
  assert (u32 (e - b) = e - b) as -> by (apply Z.mod_small; lia).
  assert (u32 (b + SIZEOF_MM_ALLOCNODE) = b + 8) as -> by (apply Z.mod_small; unfold SIZEOF_MM_ALLOCNODE; lia).
  assert (u32 (e - b - 2 * SIZEOF_MM_ALLOCNODE) = e - b - 16) as ->
    by (apply Z.mod_small; unfold SIZEOF_MM_ALLOCNODE; lia).
  assert (u32 (e - SIZEOF_MM_ALLOCNODE) = e - 8) as -> by (apply Z.mod_small; unfold SIZEOF_MM_ALLOCNODE; lia).
  destruct (ho_rep _ _ _ _ Hok) as (bs & Hr & Hf).
  assert (forall y, b <= y < e -> y ∉ concat bs) as Hbs.
  { intros y Hy. rewrite Hf. intros Hin%free_addrs_subseteq. by destruct (Hfr y Hy). }
  unfold array_set. rewrite !decide_True by done. change SIZEOF_MM_ALLOCNODE with 8.
  apply wp_bind, wp_ret, wp_bind. destruct (Hfr b) as [Hc1 Hh1]; [lia|].
  eapply wp_mono; [eapply (hrep_carve _ _ b 8 _ 0 true _ _ Hr); [done|lia|done|done|apply Hbs; lia]|].
  cbn beta. intros m1 Hr1. apply wp_bind. destruct (Hfr (b + 8)) as [Hc2 Hh2]; [lia|].
  eapply wp_mono; [eapply (hrep_carve _ _ (b + 8) (e - b - 16) _ 8 false _ _ Hr1); [done|lia|done| |apply Hbs; lia]|].
  { rewrite fmap_cons, not_elem_of_cons. split; [simpl; lia|done]. }
  cbn beta. intros m2 Hr2. apply wp_bind, wp_ret, wp_bind. destruct (Hfr (e - 8)) as [Hc3 Hh3]; [lia|].
  eapply wp_mono; [eapply (hrep_carve _ _ (e - 8) 8 _ (e - b - 16) true _ _ Hr2); [done|lia|done| |apply Hbs; lia]|].
  { rewrite !fmap_cons, !not_elem_of_cons. cbn [c_addr]. split; [lia|]. split; [lia|done]. }
  cbn beta. intros m3 Hr3. apply wp_bind.
  eapply wp_mono; [eapply (hrep_addfree _ _ _ _ (b + 8)); [exact Hr3|find_ck|lia|apply Hbs; lia]|].
  intros m4 (bs4 & Hr4 & Hp4). apply wp_ret. cbn. split; [|by auto 10].
  assert (chunks_of (rs ++ [(b, [(8, true); (e - b - 16, false); (8, true)])]) ≡ₚ
    Ck (e - 8) 8 (e - b - 16) true :: Ck (b + 8) (e - b - 16) 8 false :: Ck b 8 0 true :: chunks_of rs) as Hperm.
  { rewrite chunks_of_app. cbn. replace (b + 8 + (e - b - 16)) with (e - 8) by lia.
    rewrite Permutation_app_comm. cbn. by rewrite perm_swap, !(perm_swap (Ck (e - 8) _ _ _)). }
  split; [|apply Forall_app; split; [apply Hok|]|done].
  - exists bs4. rewrite Hperm. split; [done|]. rewrite !free_addrs_cons. cbn [c_alloc c_addr].
    by rewrite Hp4, Hf.
  - constructor; [|done]. destruct Hnew as [A B (mid & E & Hm) D]. split; [done|done| |done].
    exists mid. split; [done|]. eapply Forall_impl; [done|]. intros c [??]. split; [done|]. by transitivity 16.
Qed.
