(* ===== verification/MmBlocks.v ===== *)
(** * The memory manager: the blocks handed out

    [blocks rs] lists the blocks in use, as (pointer, chunk size) pairs.  The
    specifications of [malloc] and [free] are restated over it: one block is
    added, one is removed, and no other one changes.  Blocks never overlap. *)

From stdpp Require Import sorting.
From S2P Require Import Prelude Queue Mm MmInv MmHeap MmAlloc MmInit.

(** ** Blocks *)

(** The used chunks, the guards (of 8 bytes) excepted. *)
Definition is_block (c : chunk) : Prop := c_alloc c = true /\ 16 <= c_size c.
#[export] Instance is_block_dec c : Decision (is_block c).
Proof. unfold is_block. solve_decision. Defined.

Definition cblocks (cs : list chunk) : list (Z * Z) :=
  (fun c => (c_addr c + SIZEOF_MM_ALLOCNODE, c_size c)) <$> filter is_block cs.

Definition blocks (rs : list region) : list (Z * Z) := cblocks (chunks_of rs).

#[export] Instance cblocks_proper : Proper ((≡ₚ) ==> (≡ₚ)) cblocks.
Proof. intros cs cs' Hp. unfold cblocks. by rewrite Hp. Qed.

Lemma cblocks_app cs1 cs2 : cblocks (cs1 ++ cs2) = cblocks cs1 ++ cblocks cs2.
Proof. unfold cblocks. by rewrite filter_app, fmap_app. Qed.

Lemma cblocks_used x s p cs : 16 <= s -> cblocks (Ck x s p true :: cs) = (x + 8, s) :: cblocks cs.
Proof. intros Hs. unfold cblocks. rewrite filter_cons_True; done. Qed.

Lemma cblocks_free x s p cs : cblocks (Ck x s p false :: cs) = cblocks cs.
Proof. unfold cblocks. rewrite filter_cons_False; [done|]. by intros [? _]. Qed.

Lemma cblocks_prev x s p p' b cs : cblocks (Ck x s p b :: cs) = cblocks (Ck x s p' b :: cs).
Proof.
  unfold cblocks. rewrite !filter_cons. unfold is_block. simpl.
  destruct (decide (b = true /\ 16 <= s)) as [H|H]; by rewrite ?decide_True, ?decide_False.
Qed.

(** The blocks of a region outside the chunks [mid] do not depend on how these
    divide their range. *)
Lemma blocks_replace R1 a l1 mid s2 b2 l3 R2 :
  blocks (R1 ++ (a, l1 ++ mid ++ (s2, b2) :: l3) :: R2) ≡ₚ
  cblocks (locate (a + total l1) (lastsize 0 l1) mid)
    ++ cblocks (Ck (a + total l1 + total mid) s2 0 b2
         :: rest_of R1 a l1 (a + total l1 + total mid + s2) s2 l3 R2).
Proof.
  unfold blocks. rewrite chunks_focus, cblocks_app. f_equiv.
  rewrite (cblocks_prev _ _ _ 0). done.
Qed.

Lemma blocks_elem g rs p s :
  Forall (region_ok g) rs -> (p, s) ∈ blocks rs ->
  exists R1 a l1 l2 R2, rs = R1 ++ (a, l1 ++ (s, true) :: l2) :: R2 /\ l1 <> [] /\ l2 <> []
    /\ p = a + total l1 + SIZEOF_MM_ALLOCNODE /\ 16 <= s.
Proof.
  intros Hr. unfold blocks, cblocks. rewrite list_elem_of_fmap.
  intros ([x s' pr b] & [= -> ->] & [[Hb Hs] Hc]%list_elem_of_filter). simpl in *. subst b.
  destruct (chunks_elem _ _ _ _ _ Hc) as (R1 & a & l1 & l2 & R2 & -> & -> & _).
  rewrite Forall_app, Forall_cons in Hr. destruct Hr as (_ & [_ _ (mid & E & _) _] & _). simpl in E.
  exists R1, a, l1, l2, R2. repeat split; try done.
  - intros ->. simpl in E. injection E as Es _. lia.
  - intros ->. rewrite app_comm_cons in E. apply app_inj_tail in E as [_ E]. injection E as E. lia.
Qed.

Lemma heap_region g m base R1 r R2 : heap_ok g m base (R1 ++ r :: R2) -> region_ok g r.
Proof.
  intros Hok. pose proof (ho_regions _ _ _ _ Hok) as Hr. rewrite Forall_app, Forall_cons in Hr. tauto.
Qed.

Lemma region_sizes g a l :
  region_ok g (a, l) -> 0 < a /\ pos_sizes l /\ 0 <= total l < 2 ^ 31.
Proof.
  intros Hr. pose proof (region_ok_pos _ _ Hr) as Hp. pose proof (total_nonneg _ Hp).
  destruct Hr as [(Ha & _) Ht _ _]. simpl in *. done.
Qed.

(** ** Blocks do not overlap *)

Definition chunk_apart (c d : chunk) : Prop := apart (c_addr c, c_size c) (c_addr d, c_size d).

Lemma locate_apart a p l : pos_sizes l -> StronglySorted chunk_apart (locate a p l).
Proof.
  revert a p. induction l as [|[s b] l IH]; intros a p Hl; [constructor|].
  apply Forall_cons in Hl as [Hs Hl]. cbn [locate]. constructor; [by apply IH|].
  apply Forall_forall. intros c Hc. destruct (locate_bounds _ _ _ _ Hl Hc) as [? _].
  unfold chunk_apart, apart. simpl in *. lia.
Qed.

Lemma chunks_apart g rs :
  Forall (region_ok g) rs -> StronglySorted apart (footprint <$> rs) ->
  StronglySorted chunk_apart (chunks_of rs).
Proof.
  induction rs as [|r rs IH]; intros Hr Ha; [constructor|].
  pose proof Hr as Hr0. apply Forall_cons in Hr as [Hr Hrs].
  cbn in Ha. inversion Ha as [|? ? Ha' Hf]; subst. unfold chunks_of. rewrite bind_cons.
  apply StronglySorted_app. split; [|split; [|by apply IH]].
  - intros c d Hc (r' & Hd & Hin)%list_elem_of_bind.
    rewrite Forall_forall in Hf. specialize (Hf (footprint r') (list_elem_of_fmap_2 _ _ _ Hin)).
    pose proof (locate_bounds _ _ _ _ (region_ok_pos _ _ Hr) Hc).
    rewrite Forall_forall in Hrs. pose proof (locate_bounds _ _ _ _ (region_ok_pos _ _ (Hrs _ Hin)) Hd).
    unfold chunk_apart, apart, footprint in *. simpl in *. lia.
  - apply locate_apart. by apply (region_ok_pos g).
Qed.

Lemma heap_chunks_apart g m base rs c d cs :
  heap_ok g m base rs -> chunks_of rs ≡ₚ c :: cs -> d ∈ cs -> chunk_apart c d.
Proof.
  intros [_ Hr [_ Ha]] Hp Hd. inversion Ha as [|? ? Ha' _]; subst.
  pose proof (chunks_apart _ _ Hr Ha') as Hs.
  assert (forall cs, StronglySorted chunk_apart cs -> forall c cs', cs ≡ₚ c :: cs' -> Forall (chunk_apart c) cs') as H.
  { clear. induction 1 as [|x cs Hs IH Hx]; intros c cs' Hp; [by apply Permutation_nil_cons in Hp|].
    assert (c ∈ x :: cs) as Hin by (rewrite Hp; left). apply elem_of_cons in Hin as [->|Hin].
    - apply Permutation_cons_inv in Hp. by rewrite <- Hp.
    - apply list_elem_of_split in Hin as (c1 & c2 & ->).
      assert (cs' ≡ₚ x :: c1 ++ c2) as ->.
      { rewrite <- Permutation_middle, perm_swap in Hp. symmetry. by apply Permutation_cons_inv in Hp. }
      constructor.
      + rewrite Forall_app, Forall_cons in Hx. apply apart_sym. by apply Hx.
      + apply (IH c). by rewrite <- Permutation_middle. }
  specialize (H _ Hs _ _ Hp). rewrite Forall_forall in H. by apply H.
Qed.

(** The bytes of a block: from its pointer to the end of its chunk. *)
Definition in_block (b : Z * Z) (x : Z) : Prop := b.1 <= x < b.1 + (b.2 - SIZEOF_MM_ALLOCNODE).

Lemma filter_partition {A} (P : A -> Prop) `{forall x, Decision (P x)} (l : list A) :
  l ≡ₚ filter P l ++ filter (fun x => ~ P x) l.
Proof.
  induction l as [|x l IH]; [done|]. rewrite !filter_cons.
  destruct (decide (P x)) as [Hp|Hp].
  - rewrite decide_False by tauto. simpl. by rewrite <- IH.
  - rewrite decide_True by done. rewrite <- Permutation_middle, <- IH. done.
Qed.

Lemma blocks_apart g m base rs b o b' :
  heap_ok g m base rs -> blocks rs ≡ₚ b :: o -> b' ∈ o ->
  apart (b.1 - SIZEOF_MM_ALLOCNODE, b.2) (b'.1 - SIZEOF_MM_ALLOCNODE, b'.2).
Proof.
  intros Hok Hb Hin.
  unfold blocks, cblocks in Hb. symmetry in Hb. apply Permutation_map_inv in Hb as ([|c l] & E & Hp); [done|].
  injection E as -> ->. apply list_elem_of_fmap in Hin as (d & -> & Hd).
  cbn [fst snd]. rewrite !Z.add_simpl_r.
  eapply (heap_chunks_apart _ _ _ _ c d (l ++ filter (fun c => ~ is_block c) (chunks_of rs))); [done| |set_solver].
  rewrite app_comm_cons, <- Hp. apply filter_partition.
Qed.

Lemma blocks_disjoint g m base rs b o b' x :
  heap_ok g m base rs -> blocks rs ≡ₚ b :: o -> b' ∈ o -> in_block b x -> in_block b' x -> False.
Proof.
  intros Hok Hb Hin Hx Hx'. pose proof (blocks_apart _ _ _ _ _ _ _ Hok Hb Hin).
  unfold apart, in_block, SIZEOF_MM_ALLOCNODE in *. simpl in *. lia.
Qed.

(** ** malloc and free over blocks *)

Lemma malloc_blocks g pid size st rs :
  heap_ok g (mm_nodes st) (g_nodelist st) rs -> (g | 16) -> lock_available pid (mm_lock st) ->
  0 < size -> size + 23 < 2 ^ 32 ->
  wp (malloc pid size st) (fun '(p, st') =>
    (p = NULL /\ st' = st /\ forall s, (s, false) ∈ tiles rs -> s < need_of size)
    \/ exists s rs', p <> NULL /\ blocks rs' ≡ₚ (p, s) :: blocks rs /\ need_of size <= s
         /\ footprint <$> rs' = footprint <$> rs /\ heap_step g st st' rs').
Proof.
  intros Hok Hg Hl H0 H1. destruct (need_of_spec size H0 H1) as (_ & _ & _ & _ & Hn).
  eapply wp_mono; [by eapply malloc_spec|].
  intros [p st'] [H|(R1 & a & l1 & s & l2 & R2 & -> & [Hs _] & -> & Hl1 & Hl2 & Hst)]; [by left|right].
  destruct l2 as [|[s2 b2] l3]; [done|].
  exists (if SIZEOF_MM_FREENODE <=? s - need_of size then need_of size else s), (R1 ++ (a, l1 ++ taken (need_of size) s ++ (s2, b2) :: l3) :: R2).
  pose proof (heap_region _ _ _ _ _ _ Hok) as Hreg.
  destruct (region_sizes _ _ _ Hreg) as (Ha & [Hp1 _]%Forall_app & _). pose proof (total_nonneg _ Hp1).
  split; [unfold SIZEOF_MM_ALLOCNODE; lia|]. split; [|split; [case_match; lia|split; [|done]]].
  - rewrite blocks_replace, total_taken. change ((s, false) :: ?l) with ([(s, false)] ++ l). rewrite blocks_replace.
    cbn [locate total foldr fst]. rewrite cblocks_free, Z.add_0_r. cbn [app].
    unfold taken. destruct (SIZEOF_MM_FREENODE <=? s - need_of size); cbn [locate]; rewrite cblocks_used by lia;
      rewrite ?cblocks_free; reflexivity.
  - apply footprint_replace. rewrite !total_app, total_taken, !total_cons. cbn [fst]. lia.
Qed.

(** The chunks that [free] replaces hold one block before and none after. *)
Lemma freed_replace g a l1 s l2 :
  region_ok g (a, l1 ++ (s, true) :: l2) -> l1 <> [] -> l2 <> [] ->
  exists k1 mid mid' s2 b2 l3, l1 ++ (s, true) :: l2 = k1 ++ mid ++ (s2, b2) :: l3
    /\ freed l1 s l2 = k1 ++ mid' ++ (s2, b2) :: l3 /\ total mid' = total mid
    /\ (forall p, cblocks (locate (a + total k1) p mid) = [(a + total l1 + 8, s)])
    /\ (forall p, cblocks (locate (a + total k1) p mid') = []).
Proof.
  intros Hreg Hl1 Hl2.
  destruct (used_neighbours _ _ _ _ _ _ Hreg Hl1 Hl2) as (l0 & s0 & b0 & s2 & b2 & l3 & -> & -> & [Hsz _] & _ & Hb2).
  simpl in Hsz. unfold freed, merge_next, merge_prev.
  assert (total (l0 ++ [(s0, b0)]) = total l0 + s0) as Et by (rewrite total_app; cbn; lia).
  destruct b2.
  - destruct b0; rewrite last_snoc.
    + exists (l0 ++ [(s0, true)]), [(s, true)], [(s, false)], s2, true, l3. repeat split.
      * intros p. cbn [locate]. by rewrite cblocks_used.
    + exists l0, [(s0, false); (s, true)], [(s0 + s, false)], s2, true, l3. rewrite removelast_last, <- app_assoc.
      repeat split; [cbn; lia|]. intros p. cbn [locate]. rewrite cblocks_free, cblocks_used, Et by done.
      do 2 f_equal. lia.
  - destruct (Hb2 eq_refl) as (s4 & l4 & ->). destruct b0; rewrite last_snoc.
    + exists (l0 ++ [(s0, true)]), [(s, true); (s2, false)], [(s + s2, false)], s4, true, l4. repeat split; [cbn; lia|].
      intros p. cbn [locate]. by rewrite cblocks_used, cblocks_free.
    + exists l0, [(s0, false); (s, true); (s2, false)], [(s0 + (s + s2), false)], s4, true, l4.
      rewrite removelast_last, <- app_assoc. repeat split; [cbn; lia|]. intros p. cbn [locate].
      rewrite cblocks_free, cblocks_used, cblocks_free, Et by done. do 2 f_equal. lia.
Qed.

Lemma free_blocks g pid p s st rs :
  heap_ok g (mm_nodes st) (g_nodelist st) rs -> lock_available pid (mm_lock st) -> (p, s) ∈ blocks rs ->
  wp (free pid p st) (fun st' => exists rs', blocks rs ≡ₚ (p, s) :: blocks rs'
    /\ footprint <$> rs' = footprint <$> rs /\ heap_step g st st' rs').
Proof.
  intros Hok Hl Hin.
  destruct (blocks_elem _ _ _ _ (ho_regions _ _ _ _ Hok) Hin) as (R1 & a & l1 & l2 & R2 & -> & Hl1 & Hl2 & -> & _).
  destruct (freed_replace _ _ _ _ _ (heap_region _ _ _ _ _ _ Hok) Hl1 Hl2) as
    (k1 & mid & mid' & s2 & b2 & l3 & E1 & E2 & Et & Hm & Hm').
  eapply wp_mono; [by eapply free_spec|]. intros st' Hst. exists (R1 ++ (a, freed l1 s l2) :: R2).
  split; [|split; [|done]].
  - rewrite E1, E2, !blocks_replace, Hm, Hm', Et. done.
  - apply footprint_replace. rewrite E1, E2, !total_app. lia.
Qed.
