(* ===== verification/MmRealloc.v ===== *)
(** * The memory manager: realloc

    [realloc] keeps the heap invariant on each of its paths (shrinking in
    place, growing into the free neighbours, moving to a new block) and keeps
    the contents of the block. *)

From stdpp Require Import sorting.
From S2P Require Import Prelude Queue Mm MmInv MmHeap MmAlloc MmInit MmInfo MmBlocks.

(** ** Copies *)

Lemma memset_lookup n s c b x :
  memset n s c b !! x = if decide (s <= x < s + Z.of_nat n) then Some (u8 c) else b !! x.
Proof.
  revert s b. induction n as [|n IH]; intros s b; cbn [memset].
  - rewrite decide_False by lia. done.
  - rewrite IH. destruct (decide (x = s)) as [->|Hne].
    + rewrite decide_False, decide_True by lia. apply lookup_insert_eq.
    + rewrite lookup_insert_ne by done.
      destruct (decide (s + 1 <= x < s + 1 + Z.of_nat n)), (decide (s <= x < s + Z.of_nat (S n))); done || lia.
Qed.

(** A copy downwards, or between disjoint ranges. *)
Lemma memcpy_lookup n d s b x :
  d < s \/ s + Z.of_nat n <= d ->
  memcpy n d s b !! x = if decide (d <= x < d + Z.of_nat n) then b !! (s + (x - d)) else b !! x.
Proof.
  revert d s b. induction n as [|n IH]; intros d s b Hds; cbn [memcpy].
  - rewrite decide_False by lia. done.
  - rewrite IH by lia. destruct (decide (x = d)) as [->|Hne].
    + rewrite decide_False, decide_True, lookup_partial_alter_eq by lia. f_equal. lia.
    + rewrite (lookup_partial_alter_ne _ _ d x) by done.
      destruct (decide (d + 1 <= x < d + 1 + Z.of_nat n)), (decide (d <= x < d + Z.of_nat (S n))); try done; try lia.
      rewrite lookup_partial_alter_ne by lia. f_equal. lia.
Qed.

(** ** Growing into the preceding chunk *)

Definition leftover (s t : Z) : list (Z * bool) := if t <? s then [(s - t, false)] else [].

Lemma total_leftover s t : t <= s -> total (leftover s t) = s - t.
Proof. intros. unfold leftover. destruct (Z.ltb_spec t s); cbn; lia. Qed.

(** Three neighbouring chunks at the focus, the last one not free for sure. *)
Lemma pair_focus g m base R1 a l1 s0 b0 s b s2 b2 l3 R2 :
  let v := a + total l1 in
  let rest := rest_of R1 a l1 (v + s0 + s + s2) s2 l3 R2 in
  heap_ok g m base (R1 ++ (a, l1 ++ (s0, b0) :: (s, b) :: (s2, b2) :: l3) :: R2) ->
  exists bs, hrep m base (Ck v s0 (lastsize 0 l1) b0 :: Ck (v + s0) s s0 b :: Ck (v + s0 + s) s2 s b2 :: rest) bs
    /\ concat bs ≡ₚ free_addrs (Ck v s0 (lastsize 0 l1) b0 :: Ck (v + s0) s s0 b
         :: Ck (v + s0 + s) s2 s b2 :: rest).
Proof.
  intros v rest Hok. destruct (ho_rep _ _ _ _ Hok) as (bs & Hr & Hf). exists bs.
  change ((s0, b0) :: (s, b) :: ?l) with ([(s0, b0); (s, b)] ++ l) in Hr, Hf.
  rewrite chunks_focus in Hr, Hf. cbn [locate app total foldr fst] in Hr, Hf.
  rewrite Z.add_0_r, !Z.add_assoc in Hr, Hf. by split.
Qed.

(** A node map with those chunks changed represents the changed region. *)
Lemma pair_restore g m m' base R1 a l1 mid mid' s2 b2 l3 R2 bs cs :
  let v := a + total l1 in
  let rest := rest_of R1 a l1 (v + total mid + s2) s2 l3 R2 in
  heap_ok g m base (R1 ++ (a, l1 ++ mid ++ (s2, b2) :: l3) :: R2) -> l1 <> [] ->
  Forall (size_ok g) mid' -> total mid' = total mid ->
  coalesced (l1 ++ mid' ++ (s2, b2) :: l3) ->
  cs ≡ₚ locate v (lastsize 0 l1) mid' ++ Ck (v + total mid) s2 (lastsize (lastsize 0 l1) mid') b2 :: rest ->
  hrep m' base cs bs -> concat bs ≡ₚ free_addrs cs ->
  heap_ok g m' base (R1 ++ (a, l1 ++ mid' ++ (s2, b2) :: l3) :: R2).
Proof.
  intros v rest Hok Hl Hm Ht Hc Hcs Hr Hf. rewrite Hcs in Hr, Hf. by eapply heap_replace.
Qed.

(** Permutations of a few chunks in front of the same rest. *)
Ltac solve_perm :=
  repeat match goal with
  | |- ?l ≡ₚ ?l => reflexivity
  | |- ?x :: _ ≡ₚ ?x :: _ => apply Permutation_cons; [reflexivity|]
  | |- _ ≡ₚ ?y :: ?l' =>
      match goal with
      | |- ?x :: _ ≡ₚ ?y :: ?x :: ?l => transitivity (x :: y :: l); [|apply perm_swap]
      | |- ?x :: _ ≡ₚ ?y :: ?z :: ?x :: ?l =>
          transitivity (x :: y :: z :: l);
          [|etransitivity; [apply perm_swap|apply Permutation_cons; [reflexivity|apply perm_swap]]]
      end
  end.

Lemma inside_focus g m base R1 a l1 s b l2 R2 cs y :
  heap_ok g m base (R1 ++ (a, l1 ++ (s, b) :: l2) :: R2) ->
  chunks_of (R1 ++ (a, l1 ++ (s, b) :: l2) :: R2) ≡ₚ cs ->
  a + total l1 < y < a + total l1 + s ->
  y <> NULL /\ y ∉ heads base 0 (Z.to_nat MM_NNODES) /\ y ∉ c_addr <$> cs.
Proof.
  intros Hok Hcs Hy. destruct (inside_fresh _ _ _ _ _ _ _ _ _ _ y Hok Hy) as (H1 & H2 & H3).
  rewrite Hcs in H1. done.
Qed.

Section grow.
  Context (g : Z) (m : gmap Z mm_node) (base : Z) (R1 : list region) (a : Z) (l1 : list (Z * bool)).
  Context (R2 : list region).

(** ** Growing into the preceding chunk *)

Lemma realloc_prev_spec s0 s s2 b2 l3 tp :
  let v := a + total l1 in
  let x := v + s0 in
  heap_ok g m base (R1 ++ (a, l1 ++ (s0, false) :: (s, true) :: (s2, b2) :: l3) :: R2) ->
  0 < tp <= s0 -> (g | tp) -> (tp < s0 -> 16 <= s0 - tp) ->
  wp (realloc_prev base x v (x + s) s s0 tp m) (fun '(newnode, nsize, m') =>
    newnode = x - tp /\ nsize = s + tp
    /\ heap_ok g m' base (R1 ++ (a, l1 ++ (leftover s0 tp ++ [(s + tp, true)]) ++ (s2, b2) :: l3) :: R2)).
Proof.
  intros v x Hok Htp Hgt H16. pose proof (heap_region _ _ _ _ _ _ Hok) as Hreg.
  destruct (region_sizes _ _ _ Hreg) as (Ha & Hpos & Htot).
  unfold pos_sizes in Hpos. rewrite !Forall_app, !Forall_cons in Hpos. destruct Hpos as (Hp1 & Hs0 & Hs & Hs2 & Hp3).
  pose proof (total_nonneg _ Hp1). pose proof (total_nonneg _ Hp3). pose proof (lastsize_bounds _ Hp1).
  rewrite total_app, !total_cons in Htot. cbn [fst] in *.
  destruct (pair_focus _ _ _ _ _ _ _ _ _ _ _ _ _ _ Hok) as (bs & Hr & Hf). fold v x in Hr, Hf.
  rewrite !free_addrs_cons in Hf. cbn [c_alloc c_addr] in Hf.
  destruct (free_neighbours _ _ _ _ _ Hreg) as (l0 & s1 & ? & ? & El1 & _ & [_ Hg0]). simpl in Hg0.
  destruct (used_neighbours g a (l1 ++ [(s0, false)]) s true ((s2, b2) :: l3)) as
    (_ & _ & _ & _ & _ & _ & _ & _ & [Hs16 Hgs] & _); [by rewrite <- app_assoc|by destruct l1|done|].
  simpl in Hs16, Hgs.
  assert (forall m' bs' cs', cs' ≡ₚ locate v (lastsize 0 l1) (leftover s0 tp ++ [(s + tp, true)])
      ++ Ck (x + s) s2 (s + tp) b2 :: rest_of R1 a l1 (x + s + s2) s2 l3 R2 ->
    hrep m' base cs' bs' -> concat bs' ≡ₚ free_addrs cs' ->
    heap_ok g m' base (R1 ++ (a, l1 ++ (leftover s0 tp ++ [(s + tp, true)]) ++ (s2, b2) :: l3) :: R2)) as Hend.
  { intros m' bs' cs' Hcs. apply (pair_restore g m m' base R1 a l1 [(s0, false); (s, true)]); [exact Hok| | | | |].
    - by rewrite El1; destruct l0.
    - apply Forall_app. split; [|constructor; [|done]; split; simpl; [lia|by apply Z.divide_add_r]].
      unfold leftover. destruct (Z.ltb_spec tp s0); [|done]. constructor; [|done].
      split; simpl; [lia|]. by apply Z.divide_sub_r.
    - rewrite total_app, total_leftover by lia. cbn. lia.
    - apply (coalesced_replace _ [(s0, false); (s, true)]).
      + exact (ro_coalesced _ _ Hreg).
      + unfold leftover. by destruct (tp <? s0); cbn.
      + rewrite El1, last_snoc. intros c d [= <-] _. done.
      + rewrite last_snoc. intros c d [= <-] _. done.
      + unfold leftover. by destruct (tp <? s0).
    - rewrite Hcs, lastsize_app. cbn. rewrite Z.add_0_r, !Z.add_assoc. done. }
  set (rest := rest_of _ _ _ _ _ _ _) in *. unfold realloc_prev. apply wp_bind.
  eapply wp_mono; [apply (hrep_unlink _ _ _ _ v Hr); rewrite Hf; left|]. intros m1 (bs1 & Hr1 & Hp).
  rewrite Hf in Hp. apply Permutation_cons_inv in Hp.
  pose proof (hrep_notin _ _ _ _ _ Hr) as Hv. rewrite !fmap_cons, !not_elem_of_cons in Hv. cbn [c_addr] in Hv.
  destruct Hv as (Hv1 & Hv2 & Hv3).
  assert (v ∉ concat bs1) as Hvb.
  { rewrite <- Hp. destruct b2; [by apply notin_free|]. apply not_elem_of_cons. split; [done|by apply notin_free]. }
  cbn zeta. unfold leftover in Hend |- *. destruct (Z.ltb_spec tp s0) as [Hlt|Hge].
  - destruct (inside_focus _ _ _ _ _ _ _ _ _ _ _ (x - tp) Hok (chunks_focus _ _ _ [(s0, false); (s, true)] _ _ _ _))
      as (Hn0 & Hnh & Hnc); [lia|].
    cbn [locate app total foldr fst fmap list_fmap c_addr] in Hnc. rewrite Z.add_0_r, !Z.add_assoc in Hnc.
    fold v x in Hnc. fold rest in Hnc. rewrite !not_elem_of_cons in Hnc. destruct Hnc as (Hn1 & Hn2 & Hn3 & Hn4).
    assert (x - tp ∉ concat bs1) as Hnb.
    { rewrite <- Hp. destruct b2; [by apply notin_free|]. apply not_elem_of_cons. split; [done|by apply notin_free]. }
    apply wp_bind, wp_bind. eapply hrep_deref; [done|find_ck|]. intros p _ Hps _. cbn beta zeta. rewrite Hps.
    assert (u32 (s0 - tp) = s0 - tp) as -> by (apply Z.mod_small; lia).
    assert (u32 (s + tp) = s + tp) as -> by (apply Z.mod_small; lia).
    apply wp_bind. eapply wp_mono; [by apply (hrep_set_size _ _ _ _ _ _ (s0 - tp) _ _ Hr1)|].
    cbn beta. intros m2 Hr2. rewrite perm_swap in Hr2. apply hrep_drop in Hr2.
    apply wp_bind. eapply wp_mono; [eapply (hrep_carve _ _ (x - tp) (s + tp) _ (s0 - tp) true _ _ Hr2);
      [done|done|done| |done]|].
    { rewrite !fmap_cons, !not_elem_of_cons. done. }
    cbn beta. intros m3 Hr3. apply wp_bind. eapply hrep_deref; [done|find_ck|]. intros y _ _ Hy. rewrite Hy.
    rewrite lor_land_prec by lia. rewrite !(perm_swap (Ck (x + s) _ _ _)) in Hr3.
    apply wp_bind. eapply wp_mono; [by apply (hrep_set_prec _ _ _ _ _ _ _ (s + tp) b2 _ _ Hr3)|].
    cbn beta. intros m4 Hr4. eapply wp_mono; [eapply (hrep_addfree _ _ _ _ v); [done|find_ck|lia|done]|].
    intros m5 (bs5 & Hr5 & Hp5). apply wp_bind. eapply hrep_deref; [done|find_ck|]. intros n _ Hn _.
    apply wp_ret. split; [done|]. split; [done|]. eapply Hend; [|exact Hr5|].
    + cbn [locate app]. replace (v + (s0 - tp)) with (x - tp) by lia.
      solve_perm.
    + rewrite Hp5, <- Hp, !free_addrs_cons. cbn [c_alloc c_addr]. destruct b2; [done|]. apply perm_swap.
  - assert (tp = s0) as -> by lia. replace (x - s0) with v by lia.
    apply wp_bind, wp_bind. eapply hrep_deref; [done|find_ck|]. intros p _ Hps Hpp. cbn beta zeta. rewrite Hps, Hpp.
    assert (u32 (s0 + s) = s + s0) as -> by (unfold u32; rewrite Z.mod_small by lia; lia).
    rewrite lor_alloc_prec.
    apply wp_bind. eapply wp_mono; [by apply (hrep_set_size _ _ _ _ _ _ (s + s0) _ _ Hr1)|].
    cbn beta. intros m2 Hr2.
    apply wp_bind. eapply wp_mono; [by apply (hrep_set_prec _ _ _ _ _ _ _ (lastsize 0 l1) true _ _ Hr2)|].
    cbn beta. intros m3 Hr3. rewrite perm_swap in Hr3. apply hrep_drop in Hr3. rewrite perm_swap in Hr3.
    apply wp_bind. eapply hrep_deref; [done|find_ck|]. intros y _ _ Hy. rewrite Hy, lor_land_prec by lia.
    eapply wp_mono; [by apply (hrep_set_prec _ _ _ _ _ _ _ (s + s0) b2 _ _ Hr3)|].
    cbn beta. intros m4 Hr4. apply wp_bind. eapply hrep_deref; [done|find_ck|]. intros n _ Hn _.
    apply wp_ret. split; [done|]. split; [done|]. eapply Hend; [|exact Hr4|].
    + cbn [locate app]. solve_perm.
    + rewrite <- Hp, !free_addrs_cons. done.
Qed.

(** ** Growing into the following chunk *)

Lemma realloc_next_spec s s2 l3 tn :
  let x := a + total l1 in
  heap_ok g m base (R1 ++ (a, l1 ++ (s, true) :: (s2, false) :: l3) :: R2) -> l1 <> [] ->
  0 < tn <= s2 -> (g | tn) -> (tn < s2 -> 16 <= s2 - tn) ->
  wp (realloc_next base x (x + s) s s2 tn m) (fun m' =>
    heap_ok g m' base (R1 ++ (a, l1 ++ ((s + tn, true) :: leftover s2 tn) ++ l3) :: R2)).
Proof.
  intros x Hok Hl1 Htn Hgt H16. pose proof (heap_region _ _ _ _ _ _ Hok) as Hreg.
  destruct (region_sizes _ _ _ Hreg) as (Ha & Hpos & Htot).
  destruct (used_neighbours g a l1 s true ((s2, false) :: l3)) as
    (_ & _ & _ & s2' & b2 & l3' & _ & [= <- <- <-] & [Hs16 Hgs] & _ & Hb2); [done|done|done|].
  destruct (Hb2 eq_refl) as (s4 & l4 & ->). simpl in Hs16, Hgs.
  unfold pos_sizes in Hpos. rewrite !Forall_app, !Forall_cons in Hpos. destruct Hpos as (Hp1 & Hs & Hs2 & Hs4 & Hp4).
  pose proof (total_nonneg _ Hp1). pose proof (total_nonneg _ Hp4).
  rewrite total_app, !total_cons in Htot. cbn [fst] in *.
  destruct (free_neighbours g a (l1 ++ [(s, true)]) s2 ((s4, true) :: l4)) as (_ & _ & _ & _ & _ & _ & [Hs216 Hs2g]);
    [by rewrite <- app_assoc|]. simpl in Hs216, Hs2g.
  destruct (pair_focus _ _ _ _ _ _ _ _ _ _ _ _ _ _ Hok) as (bs & Hr & Hf). fold x in Hr, Hf.
  rewrite !free_addrs_cons in Hf. cbn [c_alloc c_addr] in Hf.
  assert (forall m' bs' cs', cs' ≡ₚ locate x (lastsize 0 l1) ((s + tn, true) :: leftover s2 tn)
      ++ Ck (x + s + s2) s4 (lastsize (s + tn) (leftover s2 tn)) true :: rest_of R1 a l1 (x + s + s2 + s4) s4 l4 R2 ->
    hrep m' base cs' bs' -> concat bs' ≡ₚ free_addrs cs' ->
    heap_ok g m' base (R1 ++ (a, l1 ++ ((s + tn, true) :: leftover s2 tn) ++ (s4, true) :: l4) :: R2)) as Hend.
  { intros m' bs' cs' Hcs. apply (pair_restore g m m' base R1 a l1 [(s, true); (s2, false)]); [exact Hok|done| | | |].
    - constructor; [split; simpl; [lia|by apply Z.divide_add_r]|].
      unfold leftover. destruct (Z.ltb_spec tn s2); [|done]. constructor; [|done].
      split; simpl; [lia|]. by apply Z.divide_sub_r.
    - rewrite total_cons, total_leftover by lia. cbn. lia.
    - apply (coalesced_replace _ [(s, true); (s2, false)]).
      + exact (ro_coalesced _ _ Hreg).
      + unfold leftover. by destruct (tn <? s2); cbn.
      + intros c d _ [= <-]. apply orb_true_r.
      + intros c d _ [= <-]. apply orb_true_r.
      + done.
    - rewrite Hcs. unfold leftover. destruct (tn <? s2); cbn [lastsize last fmap option_fmap option_map fst default from_option id
        total foldr app locate]; rewrite Z.add_0_r, !Z.add_assoc; done. }
  set (rest := rest_of _ _ _ _ _ _ _) in *. unfold realloc_next. cbn zeta. apply wp_bind.
  eapply wp_mono; [apply (hrep_unlink _ _ _ _ (x + s) Hr); rewrite Hf; left|]. intros m1 (bs1 & Hr1 & Hp).
  rewrite Hf in Hp. apply Permutation_cons_inv in Hp.
  pose proof (hrep_notin _ _ _ _ _ Hr) as Hx. rewrite !fmap_cons, !not_elem_of_cons in Hx. cbn [c_addr] in Hx.
  destruct Hx as (Hx1 & Hx2 & Hx3).
  assert (x ∉ concat bs1) as Hxb by (rewrite <- Hp; by apply notin_free).
  assert (u32 (s + tn) = s + tn) as -> by (apply Z.mod_small; lia).
  apply wp_bind. eapply wp_mono; [by apply (hrep_set_size _ _ _ _ _ _ (s + tn) _ _ Hr1)|].
  cbn beta. intros m2 Hr2. rewrite perm_swap in Hr2. apply hrep_drop in Hr2.
  unfold leftover in Hend |- *. destruct (Z.ltb_spec tn s2) as [Hlt|Hge].
  - assert (heap_ok g m base (R1 ++ (a, (l1 ++ [(s, true)]) ++ (s2, false) :: (s4, true) :: l4) :: R2)) as Hok'
      by (by rewrite <- app_assoc).
    destruct (inside_focus _ _ _ _ _ _ _ _ _ _ _ (x + (s + tn)) Hok' (reflexivity _)) as (Hn0 & Hnh & Hnc);
      [rewrite total_app; cbn; lia|]. rewrite <- app_assoc in Hnc. cbn [app] in Hnc.
    change ((s, true) :: (s2, false) :: ?l) with ([(s, true); (s2, false)] ++ l) in Hnc. rewrite chunks_focus in Hnc.
    cbn [locate app total foldr fst fmap list_fmap c_addr] in Hnc. rewrite Z.add_0_r, !Z.add_assoc in Hnc.
    fold x in Hnc. fold rest in Hnc. rewrite !not_elem_of_cons in Hnc. destruct Hnc as (Hn1 & Hn2 & Hn3 & Hn4).
    assert (u32 (s2 - tn) = s2 - tn) as -> by (apply Z.mod_small; lia). rewrite Z.add_assoc in *.
    assert (x + s + tn ∉ concat bs1) as Hnb by (rewrite <- Hp; by apply notin_free).
    apply wp_bind. eapply wp_mono; [eapply (hrep_carve _ _ (x + s + tn) (s2 - tn) _ (s + tn) false _ _ Hr2);
      [done|done|done| |done]|].
    { rewrite !fmap_cons, !not_elem_of_cons. done. }
    cbn beta. intros m3 Hr3. apply wp_bind. eapply hrep_deref; [done|find_ck|]. intros y _ _ Hy. rewrite Hy.
    rewrite lor_land_prec by lia. rewrite !(perm_swap (Ck (x + s + s2) _ _ _)) in Hr3.
    apply wp_bind. eapply wp_mono; [by apply (hrep_set_prec _ _ _ _ _ _ _ (s2 - tn) true _ _ Hr3)|].
    cbn beta. intros m4 Hr4. eapply wp_mono; [eapply (hrep_addfree _ _ _ _ (x + s + tn)); [done|find_ck|lia|done]|].
    intros m5 (bs5 & Hr5 & Hp5). eapply Hend; [|exact Hr5|].
    + cbn. rewrite Z.add_assoc. solve_perm.
    + by rewrite Hp5, <- Hp, !free_addrs_cons.
  - assert (tn = s2) as -> by lia.
    apply wp_bind. eapply hrep_deref; [done|find_ck|]. intros y _ _ Hy. rewrite Hy, lor_land_prec by lia.
    rewrite !(perm_swap (Ck (x + s + s2) _ _ _)) in Hr2.
    eapply wp_mono; [by apply (hrep_set_prec _ _ _ _ _ _ _ (s + s2) true _ _ Hr2)|].
    cbn beta. intros m4 Hr4. eapply Hend; [|exact Hr4|].
    + cbn. solve_perm.
    + by rewrite <- Hp, !free_addrs_cons.
Qed.
End grow.

(** ** The division of the missing bytes *)

Lemma realloc_take_spec needed p n tp tn :
  realloc_take needed p n = (tp, tn) -> 0 < needed <= p + n -> 0 <= p < 2 ^ 31 -> 0 <= n < 2 ^ 31 ->
  (16 | needed) -> (16 | p) -> (16 | n) ->
  0 <= tp <= p /\ 0 <= tn <= n /\ tp + tn = needed /\ (16 | tp) /\ (16 | tn).
Proof.
  intros E Hn Hp Hx H1 H2 H3. unfold realloc_take in E.
  assert (u32 (needed - p) = needed - p \/ needed < p) as Ep
    by (destruct (Z.lt_ge_cases needed p); [by right|left; apply Z.mod_small; lia]).
  assert (u32 (needed - n) = needed - n \/ needed < n) as En
    by (destruct (Z.lt_ge_cases needed n); [by right|left; apply Z.mod_small; lia]).
  pose proof (Z.divide_sub_r _ _ _ H1 H2). pose proof (Z.divide_sub_r _ _ _ H1 H3).
  pose proof (Z.divide_0_r 16).
  destruct (Z.ltb_spec 0 p), (Z.leb_spec p n), (Z.leb_spec n 0), (Z.ltb_spec 0 n); try lia; cbn in E.
  all: destruct (Z.ltb_spec p needed); cbn in E.
  all: destruct (Z.eqb_spec needed 0), (Z.ltb_spec n needed); try lia; cbn in E; simplify_eq.
  all: try (destruct Ep as [->|?]; [|lia]); try (destruct En as [->|?]; [|lia]).
  all: repeat split; try done; lia.
Qed.

(** ** The three paths *)

(** What [realloc] promises when it does not return NULL: the block [(old, s)]
    has become [(p, s')], the blocks [o] are untouched, the contents are kept. *)
Definition reallocated (st st' : mm_state) (rs : list region) (old s : Z) (o : list (Z * Z)) (need p : Z) : Prop :=
  exists s' rs', p <> NULL /\ blocks rs' ≡ₚ (p, s') :: o /\ need <= s'
    /\ footprint <$> rs' = footprint <$> rs /\ heap_ok 16 (mm_nodes st') (g_nodelist st) rs'
    /\ st' = set_bytes (mm_bytes st') (set_nodes (mm_nodes st') st)
    /\ (forall i, 0 <= i < Z.min s s' - 8 -> mm_bytes st' !! (p + i) = mm_bytes st !! (old + i))
    /\ (forall b y, b ∈ o -> in_block b y -> mm_bytes st' !! y = mm_bytes st !! y).

(** The blocks once a used chunk of [s] bytes has been cut to [need]. *)
Lemma shrunk_blocks g R1 a l1 s l2 R2 need o :
  let x := a + total l1 in
  region_ok g (a, l1 ++ (s, true) :: l2) -> l1 <> [] -> l2 <> [] ->
  blocks (R1 ++ (a, l1 ++ (s, true) :: l2) :: R2) ≡ₚ (x + 8, s) :: o -> 16 <= need < s ->
  exists s', need <= s' <= s /\ blocks (R1 ++ (a, l1 ++ shrunk s need l2) :: R2) ≡ₚ (x + 8, s') :: o
    /\ total (shrunk s need l2) = total ((s, true) :: l2).
Proof.
  intros x Hreg Hl1 Hl2 Hb Hn. destruct l2 as [|[s2 b2] l3]; [done|]. destruct b2; cbn [shrunk].
  - destruct (Z.leb_spec (need + SIZEOF_MM_FREENODE) s); [exists need|by exists s; split; [lia|]].
    split; [lia|]. split; [|rewrite !total_cons; cbn [fst]; lia]. revert Hb.
    change ((s, true) :: ?l) with ([(s, true)] ++ l).
    change ((need, true) :: (s - need, false) :: ?l) with ([(need, true); (s - need, false)] ++ l).
    rewrite !blocks_replace. cbn [locate total foldr fst].
    rewrite (cblocks_used _ s), (cblocks_used _ need), (cblocks_free _ (s - need)) by lia.
    replace (need + (s - need + 0)) with (s + 0) by lia.
    intros Hb. apply Permutation_cons_inv in Hb. by apply Permutation_cons.
  - exists need. split; [lia|]. split; [|rewrite !total_cons; cbn [fst]; lia]. revert Hb.
    destruct (used_neighbours _ _ _ _ _ _ Hreg Hl1 Hl2) as (_ & _ & _ & _ & _ & _ & _ & [= <- <- <-] & _ & _ & Hb2).
    destruct (Hb2 eq_refl) as (s4 & l4 & ->).
    change ((s, true) :: (s2, false) :: ?l) with ([(s, true); (s2, false)] ++ l).
    change ((need, true) :: (s2 + s - need, false) :: ?l) with ([(need, true); (s2 + s - need, false)] ++ l).
    rewrite !blocks_replace. cbn [locate total foldr fst].
    rewrite (cblocks_used _ s), (cblocks_used _ need), !cblocks_free by lia.
    replace (need + (s2 + s - need + 0)) with (s + (s2 + 0)) by lia.
    intros Hb. apply Permutation_cons_inv in Hb. by apply Permutation_cons.
Qed.

Lemma realloc_shrink st R1 a l1 s l2 R2 need o :
  let rs := R1 ++ (a, l1 ++ (s, true) :: l2) :: R2 in
  let x := a + total l1 in
  heap_ok 16 (mm_nodes st) (g_nodelist st) rs -> l1 <> [] -> l2 <> [] ->
  blocks rs ≡ₚ (x + 8, s) :: o -> 16 <= need <= s -> (16 | need) ->
  wp (if need <? s then mm_shrinkchunk (g_nodelist st) x need (mm_nodes st) else Ok (mm_nodes st))
    (fun m' => reallocated st (set_nodes m' st) rs (x + 8) s o need (x + 8)).
Proof.
  intros rs x Hok Hl1 Hl2 Hb Hn H16. pose proof (heap_region _ _ _ _ _ _ Hok) as Hreg.
  destruct (region_sizes _ _ _ Hreg) as (Ha & [Hp1 _]%Forall_app & _). pose proof (total_nonneg _ Hp1).
  destruct (Z.ltb_spec need s) as [Hlt|Hge].
  - eapply wp_mono; [eapply mm_shrinkchunk_spec; [exact Hok|done|done|lia|done]|]. cbn beta. intros m' Hok'.
    destruct (shrunk_blocks _ _ _ _ _ _ _ need o Hreg Hl1 Hl2 Hb ltac:(lia)) as (s' & Hs' & Hb' & Ht).
    exists s', (R1 ++ (a, l1 ++ shrunk s need l2) :: R2).
    split; [lia|]. split; [done|]. split; [lia|]. split; [|split; [done|split; [by destruct st|done]]].
    apply footprint_replace. rewrite !total_app, Ht. done.
  - apply wp_ret. exists s, rs. replace (set_nodes (mm_nodes st) st) with st by (by destruct st).
    split; [lia|]. split; [done|]. split; [lia|]. split; [done|]. split; [done|]. split; [by destruct st|done].
Qed.

(** The state of the heap once the block starts [tp] bytes earlier. *)
Definition grown_prev (st : mm_state) R1 a s tp tl R2 x o (b : gmap Z Z) m' (K : list (Z * bool)) : Prop :=
  K <> [] /\ a + total K = x - tp
  /\ heap_ok 16 m' (g_nodelist st) (R1 ++ (a, K ++ (s + tp, true) :: tl) :: R2)
  /\ blocks (R1 ++ (a, K ++ (s + tp, true) :: tl) :: R2) ≡ₚ (x - tp + 8, s + tp) :: o
  /\ (forall i, 0 <= i < s - 8 -> b !! (x - tp + 8 + i) = mm_bytes st !! (x + 8 + i))
  /\ (forall c y, c ∈ o -> in_block c y -> b !! y = mm_bytes st !! y).

Lemma realloc_grow_prev st R1 a l0 s0 b0 s s2 b2 l3 R2 o tp :
  let rs := R1 ++ (a, (l0 ++ [(s0, b0)]) ++ (s, true) :: (s2, b2) :: l3) :: R2 in
  let x := a + total (l0 ++ [(s0, b0)]) in
  let prevsize := if b0 then 0 else s0 in
  heap_ok 16 (mm_nodes st) (g_nodelist st) rs -> blocks rs ≡ₚ (x + 8, s) :: o -> 16 <= s ->
  0 <= tp <= prevsize -> (16 | tp) ->
  wp (if negb (tp =? 0) then
        '(newnode, nsize, m) ←
          realloc_prev (g_nodelist st) x (x - s0) (x + s) s prevsize tp (mm_nodes st);
        let newmem := newnode + SIZEOF_MM_ALLOCNODE in
        Ok (newnode, nsize, newmem,
            memcpy (Z.to_nat (u32 (nsize - SIZEOF_MM_ALLOCNODE))) newmem (x + 8) (mm_bytes st), m)
      else Ok (x, s, x + 8, mm_bytes st, mm_nodes st))
    (fun '(node, nsize, newmem, b, m') => node = x - tp /\ nsize = s + tp /\ newmem = x - tp + 8
       /\ exists K, grown_prev st R1 a s tp ((s2, b2) :: l3) R2 x o b m' K).
Proof.
  intros rs x prevsize Hok Hb Hs Htp H16. destruct (Z.eqb_spec tp 0) as [->|Hne]; cbn [negb].
  - apply wp_ret. rewrite !Z.sub_0_r. split; [done|]. split; [lia|]. split; [done|].
    exists (l0 ++ [(s0, b0)]). unfold grown_prev. rewrite !Z.sub_0_r, !Z.add_0_r.
    split; [by destruct l0|]. split; [done|]. split; [done|]. done.
  - destruct b0; [cbn in prevsize; lia|]. cbn in prevsize.
    pose proof (heap_region _ _ _ _ _ _ Hok) as Hreg. destruct (region_sizes _ _ _ Hreg) as (Ha & Hpos & Htot).
    unfold rs in Hok, Hreg. rewrite <- app_assoc in Hok, Hreg. cbn [app] in Hok, Hreg.
    destruct (free_neighbours _ _ _ _ _ Hreg) as (l00 & s00 & _ & _ & El0 & _ & [Hs016 Hs0g]). simpl in Hs016, Hs0g.
    assert (x = a + total l0 + s0) as Ex by (unfold x; rewrite total_app; cbn; lia).
    assert (tp < s0 -> 16 <= s0 - tp) as Hleft.
    { intros Hlt. pose proof (Z.divide_sub_r _ _ _ Hs0g H16) as [q Hq]. lia. }
    rewrite <- app_assoc in Hpos, Htot. cbn [app] in Hpos, Htot. unfold pos_sizes in Hpos.
    rewrite Forall_app, !Forall_cons in Hpos. destruct Hpos as (Hp0 & _ & _ & Hs2 & Hp3). simpl in Hs2.
    pose proof (total_nonneg _ Hp0). pose proof (total_nonneg _ Hp3).
    rewrite total_app, !total_cons in Htot. cbn [fst] in Htot.
    apply wp_bind. unfold prevsize. rewrite Ex, Z.add_simpl_r.
    eapply wp_mono; [apply (realloc_prev_spec 16 _ _ _ _ _ _ _ _ _ _ _ _ Hok); [lia|done|done]|].
    intros [[newnode nsize] m'] (-> & -> & Hok'). cbn beta iota zeta. apply wp_ret.
    assert (u32 (s + tp - SIZEOF_MM_ALLOCNODE) = s + tp - 8) as ->
      by (apply Z.mod_small; unfold SIZEOF_MM_ALLOCNODE; lia).
    change SIZEOF_MM_ALLOCNODE with 8. rewrite <- Ex.
    split; [done|]. split; [done|]. split; [done|]. exists (l0 ++ leftover s0 tp).
    assert (a + total (l0 ++ leftover s0 tp) = x - tp) as EK by (rewrite total_app, total_leftover by lia; lia).
    assert (blocks (R1 ++ (a, (l0 ++ leftover s0 tp) ++ (s + tp, true) :: (s2, b2) :: l3) :: R2)
      ≡ₚ (x - tp + 8, s + tp) :: o) as Hb'.
    { revert Hb. unfold rs. rewrite <- !app_assoc. cbn [app].
      change ((s0, false) :: (s, true) :: ?l) with ([(s0, false); (s, true)] ++ l).
      change ((s + tp, true) :: ?l) with ([(s + tp, true)] ++ l). rewrite (app_assoc (leftover s0 tp)).
      rewrite !blocks_replace. rewrite total_app, total_leftover by lia. cbn [locate total foldr fst].
      rewrite cblocks_free, (cblocks_used _ s) by lia. rewrite <- Ex.
      replace (s0 - tp + (s + tp + 0)) with (s0 + (s + 0)) by lia.
      intros Hb. apply Permutation_cons_inv in Hb. rewrite Hb. rewrite locate_app, cblocks_app.
      replace (a + total l0 + total (leftover s0 tp)) with (x - tp) by (rewrite total_leftover by lia; lia).
      assert (forall p, cblocks (locate (a + total l0) p (leftover s0 tp)) = []) as ->.
      { intros p. unfold leftover. destruct (tp <? s0); [|done]. cbn [locate]. by rewrite cblocks_free. }
      cbn [locate app]. by rewrite cblocks_used by lia. }
    rewrite <- app_assoc in Hok'. rewrite (app_assoc l0) in Hok'.
    split; [by rewrite El0; destruct l00|]. split; [done|]. split; [done|]. split; [done|]. split.
    + intros i Hi. rewrite memcpy_lookup by lia. rewrite decide_True by lia. f_equal. lia.
    + intros c y Hc Hy. rewrite memcpy_lookup by lia. rewrite decide_False; [done|]. intros Hin.
      eapply (blocks_disjoint 16 _ _ _ _ _ c y Hok' Hb' Hc); [|done]. unfold in_block, SIZEOF_MM_ALLOCNODE. simpl. lia.
Qed.

Lemma realloc_grow_next st (rs : list region) R1 a s s2 (b2 : bool) l3 R2 x o tp tn b m K :
  let nextsize := if b2 then 0 else s2 in
  grown_prev st R1 a s tp ((s2, b2) :: l3) R2 x o b m K -> 16 <= s -> 0 <= tp -> 0 <= tn <= nextsize -> (16 | tn) ->
  footprint <$> rs = footprint <$> (R1 ++ (a, K ++ (s + tp, true) :: (s2, b2) :: l3) :: R2) ->
  wp (if negb (tn =? 0) then realloc_next (g_nodelist st) (x - tp) (x + s) (s + tp) nextsize tn m else Ok m)
    (fun m' => reallocated st (set_bytes b (set_nodes m' st)) rs (x + 8) s o (s + tp + tn) (x - tp + 8)).
Proof.
  intros nextsize (HK & EK & Hok & Hb & Hk & Ho) Hs Htp Htn H16 Hfp.
  pose proof (heap_region _ _ _ _ _ _ Hok) as Hreg. destruct (region_sizes _ _ _ Hreg) as (Ha & Hpos & _).
  apply Forall_app in Hpos as [HpK _]. pose proof (total_nonneg _ HpK).
  assert (forall (s' : Z) (rs' : list region) (m' : gmap Z mm_node), blocks rs' ≡ₚ (x - tp + 8, s') :: o -> s' = s + tp + tn ->
    footprint <$> rs' = footprint <$> rs -> heap_ok 16 m' (g_nodelist st) rs' ->
    reallocated st (set_bytes b (set_nodes m' st)) rs (x + 8) s o (s + tp + tn) (x - tp + 8)) as Hend.
  { intros s' rs' m' ? -> ? ?. exists (s + tp + tn), rs'. split; [lia|]. split; [done|]. split; [lia|].
    split; [done|]. split; [done|]. split; [by destruct st|]. split; [|done]. intros i Hi. apply Hk. lia. }
  destruct (Z.eqb_spec tn 0) as [->|Hne]; cbn [negb].
  - apply wp_ret. eapply Hend; [exact Hb|lia|done|done].
  - destruct b2; [cbn in nextsize; lia|]. cbn in nextsize.
    destruct (used_neighbours _ _ _ _ _ _ Hreg HK ltac:(done)) as (_ & _ & _ & _ & _ & _ & _ & [= <- <- <-] & _ & _ & Hb2).
    destruct (Hb2 eq_refl) as (s4 & l4 & ->).
    assert (tn < s2 -> 16 <= s2 - tn) as Hleft.
    { intros Hlt. destruct (free_neighbours 16 a (K ++ [(s + tp, true)]) s2 ((s4, true) :: l4)) as (_ & _ & _ & _ & _ & _ & [_ Hg]);
        [by rewrite <- app_assoc|]. simpl in Hg. pose proof (Z.divide_sub_r _ _ _ Hg H16) as [q Hq]. lia. }
    replace (x + s) with (x - tp + (s + tp)) by lia. rewrite <- EK.
    eapply wp_mono; [apply (realloc_next_spec 16 _ _ _ _ _ _ _ _ _ _ Hok); [done|lia|done|done]|].
    cbn beta. intros m' Hok'. rewrite EK. eapply Hend; [|done| |exact Hok'].
    + revert Hb. change ((s + tp, true) :: (s2, false) :: ?l) with ([(s + tp, true); (s2, false)] ++ l).
      rewrite !blocks_replace, !total_cons, total_leftover by lia. cbn [locate total foldr fst].
      rewrite !(cblocks_used _ (s + tp)), (cblocks_used _ (s + tp + tn)), !cblocks_free by lia.
      replace (s + tp + tn + (s2 - tn)) with (s + tp + (s2 + 0)) by lia. rewrite EK.
      intros Hb. apply Permutation_cons_inv in Hb. rewrite Hb.
      assert (forall p q, cblocks (locate p q (leftover s2 tn)) = []) as ->; [|done].
      intros p q. unfold leftover. destruct (tn <? s2); [|done]. cbn [locate]. by rewrite cblocks_free.
    + rewrite Hfp. apply footprint_replace. rewrite !total_app, !total_cons, total_leftover by lia. cbn [fst]. lia.
Qed.

(** The move to a new block. *)
Lemma realloc_move pid st rs old s o need :
  heap_ok 16 (mm_nodes st) (g_nodelist st) rs -> lock_available pid (mm_lock st) ->
  blocks rs ≡ₚ (old, s) :: o -> 16 <= s < need -> need + 23 < 2 ^ 32 ->
  wp ('(newmem, st) ← malloc pid need st;
      if decide (newmem = NULL) then Ok (newmem, st)
      else
        st ← free pid old (set_bytes (memcpy (Z.to_nat s) newmem old (mm_bytes st)) st);
        Ok (newmem, st)) (fun '(p, st') =>
    (p = NULL /\ st' = st /\ forall t, (t, false) ∈ tiles rs -> t < need_of need)
    \/ reallocated st st' rs old s o need p).
Proof.
  intros Hok Hl Hb Hs Hn. destruct (need_of_spec need ltac:(lia) Hn) as (_ & Hn8 & _).
  apply wp_bind. eapply wp_mono; [eapply (malloc_blocks 16); [done|done|done|lia|lia]|].
  intros [p st1] [(-> & -> & Hno)|(s' & rs1 & Hp & Hb1 & Hs' & Hf1 & m1 & -> & Hok1)]; cbn beta iota.
  - rewrite decide_True by done. apply wp_ret. by left.
  - rewrite decide_False by done. rewrite Hb in Hb1. apply wp_bind.
    pose proof (blocks_apart _ _ _ _ _ _ (old, s) Hok1 Hb1 ltac:(left)) as Hap.
    unfold apart, SIZEOF_MM_ALLOCNODE in Hap. simpl in Hap.
    assert ((old, s) ∈ blocks rs1) as Hin by (rewrite Hb1; set_solver).
    eapply wp_mono; [apply (free_blocks 16 pid old s _ rs1); [exact Hok1|exact Hl|done]|].
    intros st2 (rs2 & Hb2 & Hf2 & m2 & -> & Hok2). apply wp_ret. right.
    rewrite Hb1, perm_swap in Hb2. apply Permutation_cons_inv in Hb2.
    exists s', rs2. split; [done|]. split; [done|]. split; [lia|]. split; [by rewrite Hf2|].
    split; [exact Hok2|]. split; [by destruct st|]. cbn [mm_bytes set_bytes set_nodes].
    split.
    + intros i Hi. rewrite memcpy_lookup by lia. rewrite decide_True by lia. f_equal. lia.
    + intros c y Hc Hy. rewrite memcpy_lookup by lia. rewrite decide_False; [done|]. intros Hin'.
      eapply (blocks_disjoint 16 _ _ _ _ _ c y Hok1 Hb1); [by right| |done].
      unfold in_block, SIZEOF_MM_ALLOCNODE. simpl. lia.
Qed.

(** ** realloc *)

Lemma realloc_spec pid size st rs old s o :
  heap_ok 16 (mm_nodes st) (g_nodelist st) rs -> lock_available pid (mm_lock st) ->
  blocks rs ≡ₚ (old, s) :: o -> 0 < size -> size + 47 < 2 ^ 32 ->
  wp (realloc pid old size st) (fun '(p, st') =>
    (p = NULL /\ st' = st /\ forall t, (t, false) ∈ tiles rs -> t < need_of (need_of size))
    \/ reallocated st st' rs old s o (need_of size) p).
Proof.
  intros Hok Hl Hb H0 H1. destruct (need_of_spec size H0 ltac:(lia)) as (En & _ & Hn2 & H16 & Hn).
  destruct (lock_cycle _ _ Hl) as (lk & Ht & Hgv). set (need := need_of size) in *.
  destruct (blocks_elem 16 rs old s (ho_regions _ _ _ _ Hok)) as (R1 & a & l1 & l2 & R2 & -> & Hl1 & Hl2 & -> & Hs16);
    [rewrite Hb; left|].
  pose proof (heap_region _ _ _ _ _ _ Hok) as Hreg. destruct (region_sizes _ _ _ Hreg) as (Ha & Hpos & Htot).
  destruct (used_neighbours _ _ _ _ _ _ Hreg Hl1 Hl2) as (l0 & s0 & b0 & s2 & b2 & l3 & -> & -> & [_ Hsg] & _ & _).
  simpl in Hsg. unfold pos_sizes in Hpos. rewrite !Forall_app, !Forall_cons in Hpos.
  destruct Hpos as ((Hp0 & Hs0 & _) & Hs & Hs2 & Hp3). simpl in Hs0, Hs, Hs2.
  pose proof (total_nonneg _ Hp0). pose proof (total_nonneg _ Hp3). pose proof (lastsize_bounds _ Hp0).
  rewrite !total_app, !total_cons in Htot. cbn [fst total foldr] in Htot. fold (total l3) in Htot.
  destruct (used_focus _ _ _ _ _ _ _ _ _ _ _ Hok Hs) as (bs & Hr & _ & _).
  assert (lastsize 0 (l0 ++ [(s0, b0)]) = s0) as El by (by rewrite lastsize_app). rewrite El in Hr.
  set (x := a + total (l0 ++ [(s0, b0)])) in *. assert (x = a + total l0 + s0) as Ex by (unfold x; rewrite total_app; cbn; lia).
  rewrite rest_of_snoc in Hr. unfold realloc. rewrite decide_False by (unfold SIZEOF_MM_ALLOCNODE; lia).
  destruct (Z.leb_spec size 0); [lia|]. cbn zeta. rewrite En, Z.add_simpl_r, Ht.
  change (x + SIZEOF_MM_ALLOCNODE) with (x + 8) in *.
  apply wp_bind, wp_ret, wp_bind. eapply hrep_deref; [exact Hr|find_ck|]. intros n _ Hns Hnp. cbn beta. rewrite Hns, Hnp.
  destruct (Z.leb_spec need s) as [Hle|Hgt].
  - apply wp_bind. eapply wp_mono; [eapply (realloc_shrink st R1 a (l0 ++ [(s0, b0)]) s ((s2, b2) :: l3) R2 need o);
      [exact Hok|done|done|exact Hb|lia|done]|].
    cbn beta. intros m' Hre. apply wp_bind. rewrite Hgv. apply wp_ret, wp_ret. right. by rewrite set_lock_nodes.
  - apply wp_bind. eapply hrep_deref; [exact Hr|find_ck|]. intros y _ Hy Hyp. cbn beta. rewrite Hy, Hyp, prec_zero_bit by lia.
    rewrite land_not_alloc by lia. replace (x - s0) with (a + total l0) by lia.
    apply wp_bind. eapply hrep_deref; [exact Hr|find_ck|]. intros v _ Hv Hvp. cbn beta. rewrite Hv, Hvp, prec_zero_bit by lia.
    replace (if negb b2 then s2 else 0) with (if b2 then 0 else s2) by (by destruct b2).
    replace (if negb b0 then s0 else 0) with (if b0 then 0 else s0) by (by destruct b0).
    set (nextsize := if b2 then 0 else s2). set (prevsize := if b0 then 0 else s0).
    assert (0 <= nextsize <= s2 /\ 0 <= prevsize <= s0) as [Hnx Hpv] by (unfold nextsize, prevsize; destruct b0, b2; lia).
    assert (u32 (u32 (nextsize + prevsize) + s) = nextsize + prevsize + s) as ->.
    { unfold u32. rewrite (Z.mod_small (nextsize + prevsize)) by lia. apply Z.mod_small. lia. }
    destruct (Z.leb_spec need (nextsize + prevsize + s)) as [Hcan|Hcannot].
    + assert (u32 (need - s) = need - s) as -> by (apply Z.mod_small; lia).
      destruct (realloc_take (need - s) prevsize nextsize) as [tp tn] eqn:Etake.
      destruct (realloc_take_spec _ _ _ _ _ Etake) as (Htp & Htn & Esum & Htp16 & Htn16); [lia|lia|lia| | | |].
      { by apply Z.divide_sub_r. }
      { unfold prevsize. destruct b0; [apply Z.divide_0_r|]. rewrite <- app_assoc in Hreg.
        by destruct (free_neighbours _ _ _ _ _ Hreg) as (_ & _ & _ & _ & _ & _ & [_ ?]). }
      { unfold nextsize. destruct b2; [apply Z.divide_0_r|].
        destruct (free_neighbours 16 a ((l0 ++ [(s0, b0)]) ++ [(s, true)]) s2 l3) as (_ & _ & _ & _ & _ & _ & [_ ?]);
          [by rewrite <- app_assoc|done]. }
      replace (a + total l0) with (x - s0) by lia. apply wp_bind.
      eapply wp_mono; [apply (realloc_grow_prev st R1 a l0 s0 b0 s s2 b2 l3 R2 o tp Hok Hb Hs16 Htp Htp16)|].
      intros [[[[node nsz] newmem] b] m'] (-> & -> & -> & K & HK). apply wp_bind.
      eapply wp_mono; [eapply (realloc_grow_next _ (R1 ++ (a, (l0 ++ [(s0, b0)]) ++ (s, true) :: (s2, b2) :: l3) :: R2)
        _ _ _ _ _ _ _ _ _ _ tn _ _ _ HK Hs16 (proj1 Htp) Htn Htn16)|].
      { apply footprint_replace. destruct HK as (_ & EK & _). rewrite !total_app, !total_cons. cbn. fold (total l0). lia. }
      cbn beta. intros m2 Hre. rewrite Hgv. apply wp_ret. right.
      replace (s + tp + tn) with need in Hre by lia. by destruct st.
    + apply wp_bind. rewrite Hgv. apply wp_ret. cbn beta. replace (set_lock (mm_lock st) st) with st by (by destruct st).
      eapply realloc_move; [exact Hok|done|done|lia|lia].
Qed.
