(* ===== verification/MmAlign.v ===== *)
(** * The memory manager: memalign and zalloc

    [memalign] takes a larger block and gives back the free space in front of the
    aligned address and behind the request; [zalloc] clears what [malloc] gave. *)

From stdpp Require Import sorting.
From S2P Require Import Prelude Queue Mm MmInv MmHeap MmAlloc MmInit MmInfo MmBlocks MmRealloc.

(** ** Cutting free space off the front of a used chunk *)

Lemma memalign_split {B} (k : gmap Z mm_node -> res B) Q g m base R1 a l0 s1 s s2 b2 l3 R2 ps :
  let l1 := l0 ++ [(s1, true)] in
  let x := a + total l1 in
  heap_ok g m base (R1 ++ (a, l1 ++ (s, true) :: (s2, b2) :: l3) :: R2) ->
  16 <= ps -> 16 <= s - ps -> (g | ps) ->
  (forall m', heap_ok g m' base (R1 ++ (a, l1 ++ [(ps, false); (s - ps, true)] ++ (s2, b2) :: l3) :: R2) ->
     wp (k m') Q) ->
  wp (m ← carve (s - ps) (Z.lor ps MM_ALLOC_BIT) (x + ps) m;
      m ← store (set_mm_size ps) x m;
      n ← deref m x;
      m ← store (set_mm_preceding (Z.land (mm_preceding n) (not32 MM_ALLOC_BIT))) x m;
      y ← deref m (x + s);
      m ← store (set_mm_preceding (Z.lor (s - ps) (Z.land (mm_preceding y) MM_ALLOC_BIT))) (x + s) m;
      m ← mm_addfreechunk base x m;
      k m) Q.
Proof.
  intros l1 x Hok Hps Hns Hg HK. pose proof (heap_region _ _ _ _ _ _ Hok) as Hreg.
  destruct (region_sizes _ _ _ Hreg) as (Ha & Hpos & Htot).
  unfold pos_sizes in Hpos. rewrite Forall_app, !Forall_cons in Hpos. destruct Hpos as (Hp1 & Hs & Hs2 & Hp3).
  pose proof (total_nonneg _ Hp1). pose proof (total_nonneg _ Hp3). rewrite total_app, !total_cons in Htot.
  cbn [fst] in *. pose proof (lastsize_bounds _ Hp1).
  destruct (used_neighbours g a l1 s true ((s2, b2) :: l3)) as (_ & _ & _ & _ & _ & _ & _ & _ & [_ Hgs] & _);
    [done|by destruct l0|done|]. simpl in Hgs.
  destruct (used_focus _ _ _ _ _ _ _ _ _ _ _ Hok Hs) as (bs & Hr & Hf & Hfresh). fold x in Hr, Hf, Hfresh.
  set (rest := rest_of _ _ _ _ _ _ _) in *.
  destruct (Hfresh (x + ps)) as (Hf1 & Hf2 & Hf3 & Hf4); [lia|]. rewrite !not_elem_of_cons in Hf3.
  pose proof (hrep_notin _ _ _ _ _ Hr) as Hnx. rewrite !fmap_cons, !not_elem_of_cons in Hnx. cbn [c_addr] in Hnx.
  rewrite free_addrs_cons in Hf. cbn [c_alloc c_addr] in Hf.
  assert (x ∉ concat bs) as Hxb.
  { rewrite Hf. destruct b2; [|apply not_elem_of_cons; split; [lia|]]; apply notin_free; tauto. }
  apply wp_bind. eapply wp_mono; [eapply (hrep_carve _ _ (x + ps) (s - ps) _ ps true _ _ Hr); [done|done|done| |done]|].
  { rewrite !fmap_cons, !not_elem_of_cons. done. }
  cbn beta. intros m1 Hr1. rewrite perm_swap in Hr1.
  apply wp_bind. eapply wp_mono; [by apply (hrep_set_size _ _ _ _ _ _ ps _ _ Hr1)|].
  cbn beta. intros m2 Hr2. apply wp_bind. eapply hrep_deref; [done|find_ck|]. intros n _ _ Hn.
  rewrite Hn, land_not_alloc by lia.
  apply wp_bind. eapply wp_mono; [by apply (hrep_set_prec _ _ _ _ _ _ _ (lastsize 0 l1) false _ _ Hr2)|].
  cbn beta. intros m3 Hr3. apply wp_bind. eapply hrep_deref; [done|find_ck|]. intros y _ _ Hy.
  rewrite Hy, lor_land_prec by lia. rewrite !(perm_swap (Ck (x + s) _ _ _)) in Hr3.
  apply wp_bind. eapply wp_mono; [by apply (hrep_set_prec _ _ _ _ _ _ _ (s - ps) b2 _ _ Hr3)|].
  cbn beta. intros m4 Hr4. apply wp_bind.
  eapply wp_mono; [eapply (hrep_addfree _ _ _ _ x); [done|find_ck|lia|done]|].
  intros m5 (bs5 & Hr5 & Hp5). apply HK.
  eapply (pair_restore g m m5 base R1 a l1 [(s, true)]); [exact Hok|by destruct l0| | | | |exact Hr5|].
  - constructor; [by split|]. constructor; [|done]. split; simpl; [lia|]. by apply Z.divide_sub_r.
  - cbn. lia.
  - apply (coalesced_replace _ [(s, true)]); [exact (ro_coalesced _ _ Hreg)|done| | |done].
    + unfold l1. rewrite last_snoc. intros c d [= <-] _. done.
    + intros c d [= <-] _. done.
  - cbn [locate app total foldr fst lastsize last fmap option_fmap option_map default from_option id].
    rewrite !Z.add_0_r. fold x. fold rest. solve_perm.
  - rewrite Hp5, !free_addrs_cons. cbn [c_alloc c_addr]. rewrite Hf. destruct b2; [done|]. apply perm_swap.
Qed.

(** ** Alignment *)

Lemma region_div8 a l1 l2 : region_ok 8 (a, l1 ++ l2) -> (8 | a + total l1).
Proof.
  intros [(_ & H16 & _) _ (mid & E & Hm) _]. simpl in *. apply Z.divide_add_r.
  - transitivity 16; [by exists 2|done].
  - assert (Forall (fun c : Z * bool => (8 | c.1)) (l1 ++ l2)) as [H1 _]%Forall_app.
    { rewrite E. constructor; [by exists 1|]. apply Forall_app. split; [|by repeat constructor; exists 1].
      eapply Forall_impl; [done|]. by intros c [_ ?]. }
    clear -H1. induction H1 as [|c l Hc Hl IH]; [apply Z.divide_0_r|]. rewrite total_cons. by apply Z.divide_add_r.
Qed.

Lemma align_point raw k :
  0 < raw -> 4 < k <= 31 -> raw + 2 ^ k <= 2 ^ 32 ->
  let al := Z.land (u32 (raw + u32 (2 ^ k - 1))) (not32 (u32 (2 ^ k - 1))) in
  raw <= al < raw + 2 ^ k /\ (2 ^ k | al).
Proof.
  intros Hr Hk Hb. assert (2 ^ k <= 2 ^ 31) by (apply Z.pow_le_mono_r; lia).
  assert (0 < 2 ^ k) by (apply Z.pow_pos_nonneg; lia).
  assert (u32 (2 ^ k - 1) = 2 ^ k - 1) as -> by (apply Z.mod_small; lia).
  assert (u32 (raw + (2 ^ k - 1)) = raw + (2 ^ k - 1)) as -> by (apply Z.mod_small; lia).
  rewrite land_mask by lia. cbn zeta.
  pose proof (Z.div_mod (raw + (2 ^ k - 1)) (2 ^ k)). pose proof (Z.mod_pos_bound (raw + (2 ^ k - 1)) (2 ^ k)).
  split; [lia|]. by eexists.
Qed.

Lemma pow2_div8 k : 4 < k -> (8 | 2 ^ k).
Proof. intros Hk. exists (2 ^ (k - 3)). change 8 with (2 ^ 3). rewrite <- Z.pow_add_r by lia. f_equal. lia. Qed.

(** The chunk [malloc] took, with its successor. *)
Lemma taken_shape need s s2 l3 :
  exists t s2' b2' l3', taken need s ++ (s2, true) :: l3 = (t, true) :: (s2', b2') :: l3'
    /\ (need <= s -> need <= t) /\ t <= Z.max need s.
Proof.
  unfold taken. case_match; simpl; do 4 eexists; (split; [done|]); lia.
Qed.

(** Shrinking the aligned block to what was asked for. *)
Lemma memalign_finish pid lk st m R1 a l1 t l2 R2 need o :
  let rs := R1 ++ (a, l1 ++ (t, true) :: l2) :: R2 in
  let x := a + total l1 in
  heap_ok 8 m (g_nodelist st) rs -> l1 <> [] -> l2 <> [] -> blocks rs ≡ₚ (x + 8, t) :: o ->
  16 <= need < t -> (8 | need) -> mm_givesemaphore pid lk = Ok (mm_lock st) ->
  wp (m ← mm_shrinkchunk (g_nodelist st) x need m;
      lk ← mm_givesemaphore pid lk;
      Ok (x + 8, set_lock lk (set_nodes m st)))
    (fun '(p, st') => p = x + 8 /\ exists s' rs', need <= s' /\ blocks rs' ≡ₚ (p, s') :: o
       /\ footprint <$> rs' = footprint <$> rs /\ heap_step 8 st st' rs').
Proof.
  intros rs x Hok Hl1 Hl2 Hb Hn H8 Hgv. apply wp_bind.
  eapply wp_mono; [eapply mm_shrinkchunk_spec; [exact Hok|done|done|lia|done]|]. cbn beta. intros m' Hok'.
  rewrite Hgv. apply wp_ret. split; [done|].
  destruct (shrunk_blocks _ _ _ _ _ _ _ need o (heap_region _ _ _ _ _ _ Hok) Hl1 Hl2 Hb Hn) as (s' & Hs' & Hb' & Ht).
  exists s', (R1 ++ (a, l1 ++ shrunk t need l2) :: R2). split; [lia|]. split; [done|]. split.
  - apply footprint_replace. rewrite !total_app, Ht. done.
  - exists m'. split; [by rewrite set_lock_nodes|done].
Qed.

(** The first aligned point that leaves room for a free chunk before it. *)
Lemma memalign_lead_spec k sz m base R1 a l0 s1 t s2 b2 l3 R2 o al :
  let l1 := l0 ++ [(s1, true)] in
  let x := a + total l1 in
  let rs := R1 ++ (a, l1 ++ (t, true) :: (s2, b2) :: l3) :: R2 in
  heap_ok 8 m base rs -> blocks rs ≡ₚ (x + 8, t) :: o -> 4 < k <= 30 -> 0 < sz -> sz + 2 * 2 ^ k + 8 <= t ->
  x + 8 < al < x + 8 + 2 ^ k -> (2 ^ k | al) ->
  wp (memalign_lead base x (x + 8) al (2 ^ k) m) (fun '(node, p, avail, m') =>
    p = node + 8 /\ (2 ^ k | p) /\ sz < avail /\ exists ps, sz + 8 < t - ps /\ node = x + ps /\ 16 <= ps
    /\ let rs' := R1 ++ (a, (l1 ++ [(ps, false)]) ++ (t - ps, true) :: (s2, b2) :: l3) :: R2 in
       heap_ok 8 m' base rs' /\ blocks rs' ≡ₚ (node + 8, t - ps) :: o).
Proof.
  intros l1 x rs Hok Hb Hk Hsz Ht Hal Hdiv. pose proof (heap_region _ _ _ _ _ _ Hok) as Hreg.
  assert (32 <= 2 ^ k) as H32 by (change 32 with (2 ^ 5); apply Z.pow_le_mono_r; lia).
  destruct (region_sizes _ _ _ Hreg) as (Ha & Hpos & Htot). unfold pos_sizes in Hpos.
  rewrite Forall_app, !Forall_cons in Hpos. destruct Hpos as (Hp1 & Ht0 & Hs2 & Hp3). simpl in Ht0, Hs2.
  pose proof (total_nonneg _ Hp1). pose proof (total_nonneg _ Hp3).
  pose proof (ro_base _ _ Hreg) as (_ & _ & Hend). simpl in Hend.
  rewrite total_app, !total_cons in Htot, Hend. cbn [fst] in Htot, Hend.
  pose proof (region_div8 _ _ _ Hreg) as Hx8. fold x in Hx8. pose proof (pow2_div8 k ltac:(lia)) as Hk8.
  assert (8 | al - 8 - x) as Hps8.
  { apply Z.divide_sub_r; [|done]. apply Z.divide_sub_r; [|by exists 1]. by transitivity (2 ^ k). }
  destruct (used_focus _ _ _ _ _ _ _ _ _ _ _ Hok Ht0) as (bs & Hr & _). fold x in Hr.
  unfold memalign_lead. apply wp_bind. eapply hrep_deref; [exact Hr|find_ck|]. intros n _ Hn _. cbn beta zeta. rewrite Hn.
  apply wp_bind, wp_assert. { apply Z.leb_le. destruct Hps8 as [q Hq]. lia. }
  change SIZEOF_MM_ALLOCNODE with 8. change SIZEOF_MM_FREENODE with 16.
  assert (u32 (al - 8 - x) = al - 8 - x) as -> by (apply Z.mod_small; lia).
  set (c := if al - 8 - x <? 16 then _ else _).
  assert (exists ps, 16 <= ps /\ ps <= 2 ^ k + 8 /\ (8 | ps) /\ c = (x + ps + 8, x + ps, ps) /\ (2 ^ k | x + ps + 8))
    as (ps & Hps16 & Hps & Hps8' & -> & Hdiv').
  { unfold c. destruct (Z.ltb_spec (al - 8 - x) 16) as [Hlt|Hge].
    - assert (al = x + 16) as -> by (destruct Hps8 as [q Hq]; lia). exists (8 + 2 ^ k).
      assert (u32 (x + 16 + 2 ^ k) = x + 16 + 2 ^ k) as -> by (apply Z.mod_small; lia).
      split; [lia|]. split; [lia|]. split; [apply Z.divide_add_r; [by exists 1|done]|]. split.
      + unfold u32. rewrite Z.mod_small by lia. apply (f_equal2 pair); [apply (f_equal2 pair)|]; lia.
      + replace (x + (8 + 2 ^ k) + 8) with (x + 16 + 2 ^ k) by lia. by apply Z.divide_add_r; [|exists 1; lia].
    - exists (al - 8 - x). split; [lia|]. split; [lia|]. split; [done|]. split; [apply (f_equal2 pair); [apply (f_equal2 pair)|]; lia|].
      by replace (x + (al - 8 - x) + 8) with al by lia. }
  cbn beta iota.
  assert (u32 (x + t - (x + ps)) = t - ps) as -> by (unfold u32; rewrite Z.mod_small by lia; lia).
  assert (u32 (t - ps - 8) = t - ps - 8) as -> by (apply Z.mod_small; lia).
  eapply memalign_split; [exact Hok|done|lia|done|]. intros m' Hok'. apply wp_ret.
  split; [done|]. split; [done|]. split; [lia|]. exists ps. split; [lia|]. split; [done|]. split; [done|].
  cbn zeta. rewrite <- app_assoc. split; [exact Hok'|]. revert Hb. unfold rs.
  change ((t, true) :: ?l) with ([(t, true)] ++ l).
  change ([(ps, false)] ++ (t - ps, true) :: ?l) with ([(ps, false); (t - ps, true)] ++ l).
  rewrite !blocks_replace. cbn [locate total foldr fst].
  rewrite cblocks_free, (cblocks_used _ t), (cblocks_used _ (t - ps)) by lia.
  replace (ps + (t - ps + 0)) with (t + 0) by lia. fold x.
  intros Hb. apply Permutation_cons_inv in Hb. by apply Permutation_cons.
Qed.

Lemma memalign_spec pid k size st rs :
  heap_ok 8 (mm_nodes st) (g_nodelist st) rs -> lock_available pid (mm_lock st) ->
  4 < k <= 30 -> 0 < size -> size + 2 * 2 ^ k + 64 < 2 ^ 32 ->
  wp (memalign pid (2 ^ k) size st) (fun '(p, st') =>
    (p = NULL /\ st' = st /\ forall s, (s, false) ∈ tiles rs -> s < need_of (MM_ALIGN_UP size + 2 * 2 ^ k))
    \/ exists s' rs', p <> NULL /\ (2 ^ k | p) /\ blocks rs' ≡ₚ (p, s') :: blocks rs /\ size + 8 <= s'
         /\ footprint <$> rs' = footprint <$> rs /\ heap_step 8 st st' rs').
Proof.
  intros Hok Hl Hk H0 H1. destruct (lock_cycle _ _ Hl) as (lk & Htk & Hgv).
  assert (32 <= 2 ^ k) as Hal by (change 32 with (2 ^ 5); apply Z.pow_le_mono_r; lia).
  rewrite align_up_div by lia. set (sz := (size + 15) / 16 * 16).
  assert (size <= sz < size + 16 /\ (16 | sz)) as [Hsz H16].
  { unfold sz. pose proof (Z.div_mod (size + 15) 16). pose proof (Z.mod_pos_bound (size + 15) 16).
    split; [lia|by eexists]. }
  assert (8 | sz + 8) as H8 by (apply Z.divide_add_r; [transitivity 16; [by exists 2|done]|by exists 1]).
  unfold memalign. cbn zeta. destruct (Z.leb_spec (2 ^ k) MM_MIN_CHUNK) as [Hbad|_]; [change MM_MIN_CHUNK with 16 in Hbad; lia|].
  rewrite align_up_div by lia. fold sz.
  assert (u32 (sz + 2 * 2 ^ k) = sz + 2 * 2 ^ k) as -> by (apply Z.mod_small; lia).
  destruct (need_of_spec (sz + 2 * 2 ^ k)) as (_ & Hneed & _ & _ & _); [lia|lia|].
  apply wp_bind. eapply wp_mono; [eapply (malloc_spec 8); [exact Hok|by exists 2|done|lia|lia]|].
  intros [p st1] [(-> & -> & Hno)|(R1 & a & l1 & s & l2 & R2 & -> & [Hfit _] & -> & _ & _ & m1 & -> & Hok1)]; cbn beta iota.
  { rewrite decide_True by done. apply wp_ret. by left. }
  pose proof (heap_region _ _ _ _ _ _ Hok) as Hreg0.
  destruct (free_neighbours _ _ _ _ _ Hreg0) as (l0 & s1 & s2 & l3 & -> & -> & _).
  set (need := need_of (sz + 2 * 2 ^ k)) in *.
  destruct (taken_shape need s s2 l3) as (t & s2' & b2' & l3' & Esh & Ht & _). specialize (Ht Hfit).
  assert (total (taken need s ++ (s2, true) :: l3) = total ((s, false) :: (s2, true) :: l3)) as Etot
    by (rewrite total_app, !total_cons, total_taken; cbn; lia).
  set (l1 := l0 ++ [(s1, true)]) in *. set (x := a + total l1) in *.
  assert (blocks (R1 ++ (a, l1 ++ taken need s ++ (s2, true) :: l3) :: R2) ≡ₚ
    (x + 8, t) :: blocks (R1 ++ (a, l1 ++ (s, false) :: (s2, true) :: l3) :: R2)) as Hb1.
  { rewrite blocks_replace, total_taken. change ((s, false) :: ?l) with ([(s, false)] ++ l). rewrite blocks_replace.
    cbn [locate total foldr fst]. rewrite cblocks_free, Z.add_0_r. cbn [app].
    unfold taken in Esh |- *. destruct (SIZEOF_MM_FREENODE <=? s - need); injection Esh as <- _ _ _; cbn [locate];
      rewrite cblocks_used by lia; rewrite ?cblocks_free; reflexivity. }
  rewrite Esh in Hok1, Hb1, Etot. pose proof (heap_region _ _ _ _ _ _ Hok1) as Hreg.
  destruct (region_sizes _ _ _ Hreg) as (Ha & Hpos & Htot). unfold pos_sizes in Hpos.
  rewrite Forall_app, !Forall_cons in Hpos. destruct Hpos as (Hp1 & Ht0 & Hs2 & Hp3). simpl in Ht0, Hs2.
  pose proof (total_nonneg _ Hp1). pose proof (total_nonneg _ Hp3).
  pose proof (ro_base _ _ Hreg) as (_ & _ & Hend). simpl in Hend.
  rewrite total_app, !total_cons in Htot, Hend. cbn [fst] in Htot, Hend. pose proof (region_div8 _ _ _ Hreg) as Hx8. fold x in Hx8.
  rewrite decide_False by (unfold SIZEOF_MM_ALLOCNODE; lia).
  change (mm_lock (set_nodes m1 st)) with (mm_lock st). change (mm_nodes (set_nodes m1 st)) with m1.
  change (g_nodelist (set_nodes m1 st)) with (g_nodelist st). change SIZEOF_MM_ALLOCNODE with 8.
  rewrite Htk, Z.add_simpl_r. apply wp_bind, wp_ret. cbn beta.
  destruct (align_point (x + 8) k) as [Hap Hdv]; [lia|lia|lia|].
  set (al := Z.land _ _) in *. destruct (Z.eqb_spec al (x + 8)) as [Eal|Hne]; cbn [negb].
  - apply wp_bind, wp_ret. cbn beta iota. destruct (Z.ltb_spec sz (sz + 2 * 2 ^ k)); [|lia]. rewrite Eal.
    assert (u32 (sz + 8) = sz + 8) as -> by (apply Z.mod_small; lia).
    eapply wp_mono; [eapply (memalign_finish pid lk (set_nodes m1 st) m1 R1 a l1 t _ R2 (sz + 8)); [exact Hok1|by destruct l0|done|exact Hb1|lia|done|done]|].
    intros [p st'] (-> & s' & rs' & Hs' & Hb' & Hf' & m' & -> & Hok').
    right. exists s', rs'. rewrite Eal in Hdv. split; [lia|]. split; [exact Hdv|]. split; [done|]. split; [lia|].
    split; [|by exists m']. rewrite Hf'. apply footprint_replace. rewrite !total_app, Etot. done.
  - apply wp_bind.
    eapply wp_mono; [eapply (memalign_lead_spec k sz m1 _ R1 a l0 s1 t s2' b2' l3' R2); [exact Hok1|exact Hb1|lia|lia|lia| |done]|].
    { fold l1. fold x. lia. }
    fold l1. fold x. intros [[[node p] avail] m2] (-> & Hdv2 & Hav & ps & Hps & -> & Hps16 & Hok2 & Hb2). cbn beta iota.
    destruct (Z.ltb_spec sz avail); [|lia].
    assert (u32 (sz + 8) = sz + 8) as -> by (apply Z.mod_small; lia).
    assert (x + ps = a + total (l1 ++ [(ps, false)])) as Exps by (rewrite total_app; cbn; lia). rewrite Exps in *.
    eapply wp_mono; [eapply (memalign_finish pid lk (set_nodes m1 st) m2 R1 a (l1 ++ [(ps, false)]) (t - ps) _ R2 (sz + 8));
      [exact Hok2|by destruct l1|done|exact Hb2|lia|done|done]|].
    intros [p st'] (-> & s' & rs' & Hs' & Hb' & Hf' & m' & -> & Hok').
    right. exists s', rs'. split; [lia|]. split; [done|]. split; [done|]. split; [lia|].
    split; [|by exists m']. rewrite Hf'. apply footprint_replace.
    rewrite !total_app. unfold total in Etot |- *. cbn in Etot |- *. lia.
Qed.

(** ** zalloc and calloc *)

Lemma zalloc_spec g pid size st rs :
  heap_ok g (mm_nodes st) (g_nodelist st) rs -> (g | 16) -> lock_available pid (mm_lock st) ->
  0 < size -> size + 23 < 2 ^ 32 ->
  wp (zalloc pid size st) (fun '(p, st') =>
    (p = NULL /\ st' = st /\ forall s, (s, false) ∈ tiles rs -> s < need_of size)
    \/ exists s rs', p <> NULL /\ blocks rs' ≡ₚ (p, s) :: blocks rs /\ need_of size <= s
         /\ footprint <$> rs' = footprint <$> rs
         /\ heap_ok g (mm_nodes st') (g_nodelist st) rs'
         /\ st' = set_bytes (mm_bytes st') (set_nodes (mm_nodes st') st)
         /\ (forall i, 0 <= i < size -> mm_bytes st' !! (p + i) = Some 0)
         /\ (forall y, ~ (p <= y < p + size) -> mm_bytes st' !! y = mm_bytes st !! y)).
Proof.
  intros Hok Hg Hl H0 H1. unfold zalloc. apply wp_bind.
  eapply wp_mono; [eapply (malloc_blocks g); done|].
  intros [p st1] [(-> & -> & Hno)|(s & rs' & Hp & Hb & Hs & Hf & m & -> & Hok')]; cbn beta iota.
  - rewrite decide_True by done. apply wp_ret. by left.
  - rewrite decide_False by done. apply wp_ret. right. exists s, rs'.
    do 5 (split; [done|]). split; [by destruct st|]. cbn [mm_bytes set_bytes set_nodes]. split.
    + intros i Hi. rewrite memset_lookup, decide_True by lia. done.
    + intros y Hy. rewrite memset_lookup, decide_False by lia. done.
Qed.
