(* ===== verification/MmSpec.v ===== *)
(** * The memory manager: specification and refinement

    The abstract allocator: a collection of disjoint live blocks and the bytes
    in them.  [malloc], [zalloc], [calloc], [free] and [realloc] refine it, from
    the heap that [mm_initialize] sets up on. *)

From stdpp Require Import sorting.
From S2P Require Import Prelude Queue Mm MmInv MmHeap MmAlloc MmInit MmInfo MmBlocks MmRealloc MmAlign.

(** ** The calls *)

Inductive mm_call : Type :=
| MMalloc (size : Z)
| MZalloc (size : Z)
| MCalloc (n elem_size : Z)
| MFree (mem : ptr)
| MRealloc (oldmem : ptr) (size : Z).

Definition mm_exec (pid : Z) (c : mm_call) (st : mm_state) : res (ptr * mm_state) :=
  match c with
  | MMalloc size => malloc pid size st
  | MZalloc size => zalloc pid size st
  | MCalloc n e => calloc pid n e st
  | MFree p => st ← free pid p st; Ok (NULL, st)
  | MRealloc p size => realloc pid p size st
  end.

(** ** The abstract allocator *)

Definition astate : Type := list (Z * Z) * gmap Z Z.

(** The bytes of the blocks [bl] are the same in [b'] as in [b]. *)
Definition kept (bl : list (Z * Z)) (b b' : gmap Z Z) : Prop :=
  forall c y, c ∈ bl -> in_block c y -> b' !! y = b !! y.

(** A block that meets none of the blocks [bl]. *)
Definition fresh_block (c : Z * Z) (bl : list (Z * Z)) : Prop :=
  c.1 <> NULL /\ forall d y, d ∈ bl -> in_block c y -> in_block d y -> False.

Definition holds (c : Z * Z) (size : Z) : Prop := size <= c.2 - SIZEOF_MM_ALLOCNODE.

Inductive allocator : mm_call -> astate -> ptr -> astate -> Prop :=
| al_fail c s : (forall p, c <> MFree p) -> allocator c s NULL s
| al_malloc size bl b c b' :
    fresh_block c bl -> holds c size -> kept bl b b' ->
    allocator (MMalloc size) (bl, b) c.1 (c :: bl, b')
| al_zalloc size bl b c b' :
    fresh_block c bl -> holds c size -> kept bl b b' ->
    (forall i, 0 <= i < size -> b' !! (c.1 + i) = Some 0) ->
    allocator (MZalloc size) (bl, b) c.1 (c :: bl, b')
| al_calloc n e bl b c b' :
    fresh_block c bl -> holds c (n * e) -> kept bl b b' ->
    (forall i, 0 <= i < n * e -> b' !! (c.1 + i) = Some 0) ->
    allocator (MCalloc n e) (bl, b) c.1 (c :: bl, b')
| al_free_null s : allocator (MFree NULL) s NULL s
| al_free c bl bl' b : bl ≡ₚ c :: bl' -> allocator (MFree c.1) (bl, b) NULL (bl', b)
| al_realloc_null size s p s' : allocator (MMalloc size) s p s' -> allocator (MRealloc NULL size) s p s'
| al_realloc_zero p s s' : allocator (MFree p) s NULL s' -> allocator (MRealloc p 0) s NULL s'
| al_realloc size bl o b c d b' :
    bl ≡ₚ c :: o -> fresh_block d o -> holds d size -> kept o b b' ->
    (forall i, 0 <= i < Z.min c.2 d.2 - SIZEOF_MM_ALLOCNODE -> b' !! (d.1 + i) = b !! (c.1 + i)) ->
    allocator (MRealloc c.1 size) (bl, b) d.1 (d :: o, b').

(** The calls a correct program makes: sizes that do not overflow, pointers of
    live blocks. *)
Definition live (bl : list (Z * Z)) (p : ptr) : Prop := p = NULL \/ exists s, (p, s) ∈ bl.

Definition legal (c : mm_call) (bl : list (Z * Z)) : Prop :=
  match c with
  | MMalloc size | MZalloc size => 0 <= size /\ size + 23 < 2 ^ 32
  | MCalloc n e => 0 <= n /\ 0 <= e /\ n * e + 23 < 2 ^ 32
  | MFree p => live bl p
  | MRealloc p size => live bl p /\ 0 <= size /\ size + 47 < 2 ^ 32
  end.

(** ** The simulation relation *)

Definition mm_sim (pid : Z) (st : mm_state) (a : astate) : Prop :=
  (exists rs, mm_ok 16 st rs /\ blocks rs ≡ₚ a.1) /\ mm_bytes st = a.2 /\ lock_available pid (mm_lock st).

Lemma heap_total_footprint rs rs' :
  footprint <$> rs' = footprint <$> rs -> heap_total rs' = heap_total rs /\ bounds_of <$> rs' = bounds_of <$> rs.
Proof.
  revert rs'. induction rs as [|r rs IH]; intros [|r' rs'] E; try done.
  rewrite !fmap_cons in E. injection E as E1 E2 E. destruct (IH _ E) as [IH1 IH2]. cbn. split.
  - fold (heap_total rs) (heap_total rs'). congruence.
  - unfold bounds_of at 1 3. rewrite E1, E2. f_equal. exact IH2.
Qed.

Lemma mm_ok_step g st rs m b rs' :
  mm_ok g st rs -> heap_ok g m (g_nodelist st) rs' -> footprint <$> rs' = footprint <$> rs ->
  mm_ok g (set_bytes b (set_nodes m st)) rs'.
Proof.
  intros [_ Hb Hs Hl] Hok Hf. destruct (heap_total_footprint _ _ Hf) as [Et Eb].
  split; [done|by rewrite Eb|by rewrite Et|done].
Qed.

Lemma mm_sim_step pid st st' rs rs' bl' :
  mm_ok 16 st rs -> lock_available pid (mm_lock st) ->
  heap_ok 16 (mm_nodes st') (g_nodelist st) rs' -> footprint <$> rs' = footprint <$> rs ->
  st' = set_bytes (mm_bytes st') (set_nodes (mm_nodes st') st) -> blocks rs' ≡ₚ bl' ->
  mm_sim pid st' (bl', mm_bytes st').
Proof.
  intros Hok Hl Hok' Hf E Hb. split; [|split; [done|rewrite E; exact Hl]].
  exists rs'. split; [|done]. rewrite E. by eapply mm_ok_step.
Qed.

Lemma heap_step_state g st st' rs' :
  heap_step g st st' rs' -> st' = set_bytes (mm_bytes st') (set_nodes (mm_nodes st') st)
    /\ mm_bytes st' = mm_bytes st /\ heap_ok g (mm_nodes st') (g_nodelist st) rs'.
Proof. intros (m & -> & Hok). by destruct st. Qed.

Lemma fresh_block_ok g m base rs c bl :
  heap_ok g m base rs -> blocks rs ≡ₚ c :: bl -> c.1 <> NULL -> fresh_block c bl.
Proof. intros Hok Hb Hc. split; [done|]. intros d y Hd Hy Hy'. by eapply (blocks_disjoint g m base rs c bl d y). Qed.

(** ** Each call refines the abstract allocator *)

Section refine.
  Context (pid : Z) (st : mm_state) (bl : list (Z * Z)).
  Hypothesis Hsim : mm_sim pid st (bl, mm_bytes st).

Definition refines (c : mm_call) : Prop :=
  wp (mm_exec pid c st) (fun '(p, st') =>
    exists bl', allocator c (bl, mm_bytes st) p (bl', mm_bytes st') /\ mm_sim pid st' (bl', mm_bytes st')).

Lemma malloc_refines size : legal (MMalloc size) bl -> refines (MMalloc size).
Proof.
  intros [H0 H1]. destruct Hsim as [(rs & Hok & Hb) [_ Hl]]. unfold refines. cbn [mm_exec].
  destruct (decide (size = 0)) as [->|Hne].
  { apply wp_ret. exists bl. split; [by apply al_fail|done]. }
  destruct (need_of_spec size) as (_ & Hn & _); [lia|lia|].
  eapply wp_mono; [eapply (malloc_blocks 16); [apply Hok|done|done|lia|lia]|].
  intros [p st'] [(-> & -> & _)|(s & rs' & Hp & Hb' & Hs & Hf & Hst)].
  { exists bl. split; [by apply al_fail|done]. }
  destruct (heap_step_state _ _ _ _ Hst) as (E & Eb & Hok'). simpl in Hb. rewrite Hb in Hb'. exists ((p, s) :: bl). split.
  - apply (al_malloc _ _ _ (p, s)).
    + by eapply fresh_block_ok.
    + unfold holds, SIZEOF_MM_ALLOCNODE. simpl. lia.
    + intros c y _ _. by rewrite Eb.
  - by eapply mm_sim_step.
Qed.

Lemma zalloc_refines size : legal (MZalloc size) bl -> refines (MZalloc size).
Proof.
  intros [H0 H1]. destruct Hsim as [(rs & Hok & Hb) [_ Hl]]. unfold refines. cbn [mm_exec].
  destruct (decide (size = 0)) as [->|Hne].
  { apply wp_ret. exists bl. split; [by apply al_fail|done]. }
  destruct (need_of_spec size) as (_ & Hn & _); [lia|lia|].
  eapply wp_mono; [eapply (zalloc_spec 16); [apply Hok|done|done|lia|lia]|].
  intros [p st'] [(-> & -> & _)|(s & rs' & Hp & Hb' & Hs & Hf & Hok' & E & Hz & Hk)].
  { exists bl. split; [by apply al_fail|done]. }
  simpl in Hb. rewrite Hb in Hb'. assert (fresh_block (p, s) bl) as Hfr by (by eapply fresh_block_ok).
  exists ((p, s) :: bl). split.
  - apply (al_zalloc _ _ _ (p, s)); [done|unfold holds, SIZEOF_MM_ALLOCNODE; simpl; lia| |done].
    intros c y Hc Hy. apply Hk. intros Hin. apply (proj2 Hfr c y Hc); [|done].
    unfold in_block, SIZEOF_MM_ALLOCNODE. simpl. lia.
  - by eapply mm_sim_step.
Qed.

Lemma calloc_refines n e : legal (MCalloc n e) bl -> refines (MCalloc n e).
Proof.
  intros (Hn & He & H1). unfold refines. cbn [mm_exec]. unfold calloc.
  destruct (Z.ltb_spec 0 n), (Z.ltb_spec 0 e); cbn [andb].
  2-4: apply wp_ret; exists bl; split; [by apply al_fail|done].
  assert (u32 (n * e) = n * e) as -> by (apply Z.mod_small; nia).
  eapply wp_mono; [apply (zalloc_refines (n * e)); split; [nia|done]|].
  intros [p st'] (bl' & Ha & Hs). exists bl'. split; [|done].
  inversion Ha; subst; [by apply al_fail|]. by apply al_calloc.
Qed.

Lemma free_refines p : legal (MFree p) bl -> refines (MFree p).
Proof.
  intros Hp. destruct Hsim as [(rs & Hok & Hb) [_ Hl]]. unfold refines. cbn [mm_exec].
  destruct Hp as [->|[s Hin]].
  { unfold free. rewrite decide_True by done. apply wp_ret. exists bl. split; [apply al_free_null|done]. }
  simpl in Hb. apply wp_bind. eapply wp_mono; [eapply (free_blocks 16 pid p s); [apply Hok|done|by rewrite Hb]|].
  intros st' (rs' & Hb' & Hf & Hst). destruct (heap_step_state _ _ _ _ Hst) as (E & Eb & Hok').
  apply wp_ret. exists (blocks rs'). split.
  - rewrite Eb. apply (al_free (p, s)). by rewrite <- Hb.
  - by eapply mm_sim_step.
Qed.

Lemma realloc_refines p size : legal (MRealloc p size) bl -> refines (MRealloc p size).
Proof.
  intros (Hp & H0 & H1). destruct (decide (p = NULL)) as [->|Hp0].
  { eapply wp_mono; [apply (malloc_refines size); split; lia|].
    intros [q st'] (bl' & Ha & Hs). exists bl'. split; [by apply al_realloc_null|done]. }
  destruct (decide (size = 0)) as [->|Hne].
  { unfold refines. cbn [mm_exec]. unfold realloc. rewrite decide_False by done. cbn [Z.leb Z.compare].
    eapply wp_mono; [apply (free_refines p Hp)|]. intros [q st'] (bl' & Ha & Hs). exists bl'. split; [|done].
    assert (q = NULL) as -> by (inversion Ha; done). by apply al_realloc_zero. }
  destruct Hp as [|[s Hin]]; [done|]. apply elem_of_Permutation in Hin as [o Ho].
  destruct Hsim as [(rs & Hok & Hb) [_ Hl]]. simpl in Hb. unfold refines. cbn [mm_exec].
  destruct (need_of_spec size) as (_ & Hn & _); [lia|lia|].
  eapply wp_mono; [apply (realloc_spec pid size st rs p s o); [apply Hok|done|by rewrite Hb|lia|lia]|].
  intros [q st'] [(-> & -> & _)|(s' & rs' & Hq & Hb' & Hs' & Hf & Hok' & E & Hk & Ho')].
  { exists bl. split; [by apply al_fail|done]. }
  exists ((q, s') :: o). split.
  - eapply (al_realloc size bl o _ (p, s) (q, s')); [done|by eapply fresh_block_ok| |done|done].
    unfold holds, SIZEOF_MM_ALLOCNODE. simpl. lia.
  - by eapply mm_sim_step.
Qed.

End refine.

(** [safe n st bl]: any [n] legal calls in a row return, each with a result the
    abstract allocator allows. *)
Fixpoint safe (pid : Z) (n : nat) (st : mm_state) (bl : list (Z * Z)) : Prop :=
  match n with
  | O => True
  | S n => forall c, legal c bl ->
      wp (mm_exec pid c st) (fun '(p, st') => exists bl',
        allocator c (bl, mm_bytes st) p (bl', mm_bytes st') /\ safe pid n st' bl')
  end.

Lemma call_refines pid st bl c : mm_sim pid st (bl, mm_bytes st) -> legal c bl -> refines pid st bl c.
Proof.
  intros Hs Hc. destruct c; [by apply malloc_refines|by apply zalloc_refines|by apply calloc_refines
    |by apply free_refines|by apply realloc_refines].
Qed.

Lemma sim_safe pid n st bl : mm_sim pid st (bl, mm_bytes st) -> safe pid n st bl.
Proof.
  revert st bl. induction n as [|n IH]; intros st bl Hs; [done|]. intros c Hc.
  eapply wp_mono; [by apply call_refines|]. intros [p st'] (bl' & Ha & Hs'). exists bl'. split; [done|]. by apply IH.
Qed.

(** The memory given to [mm_initialize] or [mm_addregion]. *)
Record region_args (heapstart heapsize : Z) : Prop := RegionArgs {
  ra_start : 0 < heapstart;
  ra_size : 0 <= heapsize;
  ra_end : heapstart + heapsize < 2 ^ 32 - 15;
  ra_room : region_base heapstart + 32 <= region_end heapstart heapsize;
  ra_max : region_end heapstart heapsize - region_base heapstart < 2 ^ 31
}.

Lemma init_ok st heapstart heapsize :
  region_args heapstart heapsize -> all_apart (g_nodelist st) [new_region heapstart heapsize] ->
  (0 < length (g_heapstart st))%nat -> (0 < length (g_heapend st))%nat ->
  wp (mm_initialize heapstart heapsize st) (fun st' =>
    mm_ok 16 st' [new_region heapstart heapsize] /\ mm_lock st' = mm_seminitialize).
Proof.
  intros [H0 H1 H2 H3 H4] Hap Hs He. pose proof (region_arith _ _ H0 H1 H2 H3) as (_ & _ & _ & Hlt & _ & _).
  unfold mm_initialize. apply wp_bind. eapply wp_mono; [apply init_nodelist_spec, Hap|]. intros m Hm. cbn beta.
  eapply wp_mono; [eapply (mm_addregion_spec 16 _ []); try done|].
  { split; [by exists (replicate 19 [])|done|]. destruct Hap. split; [done|]. by repeat constructor. }
  intros st' (Hok & En & _ & El & Er & Ez & Est & Een). cbn [app g_nregions g_heapstart g_heapend g_heapsize mm_lock g_nodelist] in *.
  split; [|done].
  assert (total (new_region heapstart heapsize).2 = region_end heapstart heapsize - region_base heapstart) as Et
    by (unfold new_region; cbn [snd total foldr fst]; lia).
  assert (heap_total [new_region heapstart heapsize] = region_end heapstart heapsize - region_base heapstart) as Eh
    by (unfold heap_total; cbn [foldr]; lia).
  split; [by rewrite En| | |rewrite El; by left].
  - rewrite Er, Est, Een. destruct (g_heapstart st) as [|a0 l0]; [simpl in Hs; lia|].
    destruct (g_heapend st) as [|b0 l1]; [simpl in He; lia|]. cbn. unfold bounds_of. rewrite Et. cbn.
    do 2 f_equal. lia.
  - rewrite Eh, Ez, Et. split; [|lia]. apply Z.mod_small. lia.
Qed.

(** ** Theorems *)

(** C1: after [mm_initialize] on a usable memory range, any sequence of legal
    calls of malloc, zalloc, calloc, free and realloc runs without a fault, an
    assertion failure or a lost lock, and each call does what the abstract
    allocator allows: a new block is disjoint from the live ones and large
    enough, cleared memory is zero, free removes exactly its block, realloc
    keeps the contents, and no call changes the bytes of another live block. *)
Theorem mm_refines_allocator (pid heapstart heapsize : Z) (st : mm_state) (n : nat)
    (Hpid : 0 <= pid) (Hargs : region_args heapstart heapsize)
    (Hap : all_apart (g_nodelist st) [new_region heapstart heapsize])
    (Hs : (0 < length (g_heapstart st))%nat) (He : (0 < length (g_heapend st))%nat) :
  wp (mm_initialize heapstart heapsize st) (fun st' => safe pid n st' []).
Proof.
  eapply wp_mono; [by apply init_ok|]. intros st' [Hok El]. apply sim_safe.
  split; [|split; [done|]].
  - eexists. split; [exact Hok|]. unfold blocks, chunks_of, new_region. cbn. done.
  - simpl. rewrite El. split; [done|]. split; [by left|by left].
Qed.

(** C2: malloc with a size that does not overflow returns NULL, the state
    unchanged, only if every free chunk is too small; otherwise it takes a
    smallest chunk that is large enough, splits off the rest when the rest can
    hold a free node, and keeps the heap invariant and every other chunk. *)
Theorem malloc_best_fit (g pid size : Z) (st : mm_state) (rs : list region)
    (Hok : heap_ok g (mm_nodes st) (g_nodelist st) rs) (Hg : (g | 16))
    (Hl : lock_available pid (mm_lock st)) (H0 : 0 < size) (H1 : size + 23 < 2 ^ 32) :
  wp (malloc pid size st) (fun '(p, st') =>
    (p = NULL /\ st' = st /\ forall s, (s, false) ∈ tiles rs -> s < need_of size)
    \/ exists R1 a l1 s l2 R2, rs = R1 ++ (a, l1 ++ (s, false) :: l2) :: R2
         /\ best_fit rs (need_of size) s /\ p = a + total l1 + SIZEOF_MM_ALLOCNODE
         /\ heap_step g st st' (R1 ++ (a, l1 ++ taken (need_of size) s ++ l2) :: R2)).
Proof.
  eapply wp_mono; [by eapply malloc_spec|].
  intros [p st'] [H|(R1 & a & l1 & s & l2 & R2 & H & Hb & Hp & _ & _ & Hst)]; [by left|right]. eauto 12.
Qed.

(** C3: freeing a block that malloc returned restores the regions of the heap
    to what they were before the allocation (free undoes the split of malloc),
    with every other component of the state unchanged. *)
Theorem malloc_free_roundtrip (g pid size : Z) (st : mm_state) (rs : list region)
    (Hok : heap_ok g (mm_nodes st) (g_nodelist st) rs) (Hg : (g | 16))
    (Hl : lock_available pid (mm_lock st)) (H0 : 0 < size) (H1 : size + 23 < 2 ^ 32) :
  wp ('(p, st1) ← malloc pid size st; free pid p st1) (fun st' => heap_step g st st' rs).
Proof.
  apply wp_bind. eapply wp_mono; [by eapply malloc_spec|].
  intros [p st1] [(-> & -> & _)|(R1 & a & l1 & s & l2 & R2 & -> & [Hfit _] & -> & Hl1 & Hl2 & m1 & -> & Hok1)].
  { unfold free. rewrite decide_True by done. apply wp_ret. exists (mm_nodes st). by destruct st. }
  pose proof (heap_region _ _ _ _ _ _ Hok) as Hreg.
  destruct (free_neighbours _ _ _ _ _ Hreg) as (l0 & s1 & s2 & l3 & -> & -> & _).
  unfold taken in Hok1. set (need := need_of size) in *.
  destruct (SIZEOF_MM_FREENODE <=? s - need).
  - eapply wp_mono; [eapply (free_spec g pid (set_nodes m1 st) R1 a _ need ((s - need, false) :: (s2, true) :: l3) R2);
      [exact Hok1|done|done|done]|].
    intros st' (m' & -> & Hok'). exists m'. split; [done|]. unfold freed, merge_next, merge_prev in Hok'.
    rewrite last_snoc in Hok'. by replace (need + (s - need)) with s in Hok' by lia.
  - eapply wp_mono; [eapply (free_spec g pid (set_nodes m1 st) R1 a _ s ((s2, true) :: l3) R2);
      [exact Hok1|done|done|done]|].
    intros st' (m' & -> & Hok'). exists m'. split; [done|]. unfold freed, merge_next, merge_prev in Hok'.
    by rewrite last_snoc in Hok'.
Qed.

(** Free of a used chunk merges it with its free neighbours on both sides
    (so that no two neighbouring chunks are ever free), puts the result in the
    node list and changes nothing else. *)
Theorem free_coalesces (g pid : Z) (st : mm_state) (R1 : list region) (a : Z) (l1 : list (Z * bool)) (s : Z)
    (l2 : list (Z * bool)) (R2 : list region)
    (Hok : heap_ok g (mm_nodes st) (g_nodelist st) (R1 ++ (a, l1 ++ (s, true) :: l2) :: R2))
    (Hl1 : l1 <> []) (Hl2 : l2 <> []) (Hl : lock_available pid (mm_lock st)) :
  wp (free pid (a + total l1 + SIZEOF_MM_ALLOCNODE) st) (fun st' =>
    heap_step g st st' (R1 ++ (a, freed l1 s l2) :: R2) /\ coalesced (freed l1 s l2)).
Proof.
  eapply wp_mono; [by eapply free_spec|]. intros st' Hst. split; [done|]. destruct Hst as (m' & _ & Hok').
  exact (ro_coalesced _ _ (heap_region _ _ _ _ _ _ Hok')).
Qed.

(** C4: realloc of a live block to a size that does not overflow either returns
    NULL with the state unchanged, no free chunk being large enough for a new
    block, or returns a block of sufficient size that holds the old contents up
    to the smaller of the two sizes; all other blocks keep their place, their
    size and their bytes. *)
Theorem realloc_keeps_contents (pid size : Z) (st : mm_state) (rs : list region) (old s : Z) (o : list (Z * Z))
    (Hok : heap_ok 16 (mm_nodes st) (g_nodelist st) rs) (Hl : lock_available pid (mm_lock st))
    (Hb : blocks rs ≡ₚ (old, s) :: o) (H0 : 0 < size) (H1 : size + 47 < 2 ^ 32) :
  wp (realloc pid old size st) (fun '(p, st') =>
    (p = NULL /\ st' = st /\ forall t, (t, false) ∈ tiles rs -> t < need_of (need_of size))
    \/ reallocated st st' rs old s o (need_of size) p).
Proof. by apply realloc_spec. Qed.

(** C5: memalign with an alignment [2 ^ k] above the natural one returns NULL
    with the state unchanged, or a new block at a multiple of the alignment that
    holds the requested size; no other block changes, and the space cut off at
    both ends goes back to the free list. *)
Theorem memalign_aligned (pid k size : Z) (st : mm_state) (rs : list region)
    (Hok : heap_ok 8 (mm_nodes st) (g_nodelist st) rs) (Hl : lock_available pid (mm_lock st))
    (Hk : 4 < k <= 30) (H0 : 0 < size) (H1 : size + 2 * 2 ^ k + 64 < 2 ^ 32) :
  wp (memalign pid (2 ^ k) size st) (fun '(p, st') =>
    (p = NULL /\ st' = st)
    \/ exists s' rs', p <> NULL /\ (2 ^ k | p) /\ blocks rs' ≡ₚ (p, s') :: blocks rs /\ holds (p, s') size
         /\ footprint <$> rs' = footprint <$> rs /\ heap_step 8 st st' rs').
Proof.
  eapply wp_mono; [by eapply memalign_spec|].
  intros [p st'] [(-> & -> & _)|(s' & rs' & Hp & Hd & Hb & Hs & Hf & Hst)]; [by left|right]. exists s', rs'.
  do 3 (split; [done|]). split; [unfold holds, SIZEOF_MM_ALLOCNODE; simpl; lia|]. done.
Qed.

(** mm_addregion adds one free chunk between two guard nodes to the heap,
    in the aligned part of the memory it is given, and keeps the invariant of
    the regions already there. *)
Theorem mm_addregion_extends (g heapstart heapsize : Z) (st : mm_state) (rs : list region)
    (Hok : heap_ok g (mm_nodes st) (g_nodelist st) rs) (Hg : (g | 16)) (Hargs : region_args heapstart heapsize)
    (Hap : all_apart (g_nodelist st) (rs ++ [new_region heapstart heapsize]))
    (Hs : (g_nregions st < length (g_heapstart st))%nat) (He : (g_nregions st < length (g_heapend st))%nat) :
  wp (mm_addregion heapstart heapsize st) (fun st' =>
    heap_ok g (mm_nodes st') (g_nodelist st) (rs ++ [new_region heapstart heapsize])
    /\ g_nregions st' = S (g_nregions st)
    /\ g_heapsize st' = u32 (g_heapsize st + total (new_region heapstart heapsize).2)).
Proof.
  destruct Hargs as [A B C D E]. eapply wp_mono; [by apply (mm_addregion_spec g st rs)|].
  intros st' (? & _ & _ & _ & ? & ? & _). done.
Qed.

(** mallinfo returns the totals of the abstract heap: its own assertions
    (each region walk ends at the end guard; used and free bytes add up to the
    heap size) never fail, and the numbers are the sums, the count and the
    maximum over the chunks. *)
Theorem mallinfo_totals (g : Z) (st : mm_state) (rs : list region) (Hok : mm_ok g st rs) :
  wp (mallinfo st) (fun i => arena i = heap_total rs /\ ordblks i = count_free (tiles rs)
    /\ mxordblk i = max_free (tiles rs) /\ uordblks i = sum_used (tiles rs) /\ fordblks i = sum_free (tiles rs)).
Proof.
  rewrite (mallinfo_spec g st rs Hok). apply wp_ret. cbn. pose proof (max_free_nonneg (tiles rs)).
  repeat split; lia.
Qed.

(** mm_size2ndx maps a chunk size to its size class: the power of two of
    the number of 16-byte granules, at most the last of the 19 classes. *)
Theorem mm_size2ndx_class (size : Z) (H : 0 <= size) :
  mm_size2ndx size = Z.min (MM_NNODES - 1) (Z.log2 (size / MM_MIN_CHUNK)).
Proof. exact (mm_size2ndx_log2 size H). Qed.

(** ** A small heap: one region of 1024 bytes at 0x2000 *)

Definition demo_state : mm_state := MmState ∅ ∅ 4096 0 [0] [0] 0 mm_seminitialize.
Definition demo_heap : mm_state :=
  match mm_initialize 8192 1024 demo_state with Ok st => st | Err _ => demo_state end.
Definition demo_regions : list region := [(8192, [(8, true); (1008, false); (8, true)])].

Lemma demo_args : region_args 8192 1024.
Proof. split; vm_compute; congruence. Qed.

Lemma demo_apart : all_apart (g_nodelist demo_state) [new_region 8192 1024].
Proof.
  split; [done|]. apply SSorted_cons; [repeat constructor|]. constructor; [|constructor].
  left. vm_compute. congruence.
Qed.

Lemma demo_ok : mm_ok 16 demo_heap demo_regions.
Proof.
  pose proof (init_ok demo_state 8192 1024 demo_args demo_apart) as H. specialize (H ltac:(simpl; lia) ltac:(simpl; lia)).
  unfold demo_heap. destruct (mm_initialize 8192 1024 demo_state); [|done]. exact (proj1 H).
Qed.

Lemma demo_split R1 a l1 s l2 R2 :
  demo_regions = R1 ++ (a, l1 ++ (s, false) :: l2) :: R2 ->
  R1 = [] /\ a = 8192 /\ l1 = [(8, true)] /\ s = 1008 /\ l2 = [(8, true)] /\ R2 = [].
Proof.
  unfold demo_regions. intros E. destruct R1 as [|? [|]]; simplify_eq/=.
  destruct l1 as [|? [|? [|? [|]]]]; simplify_eq/=; done.
Qed.

Lemma demo_lock : lock_available 1 (mm_lock demo_heap).
Proof. split; [done|]. split; left; reflexivity. Qed.

(** The heap after [malloc(100)]: a used chunk of 112 bytes at 0x2008. *)
Definition demo_heap1 : mm_state :=
  match malloc 1 100 demo_heap with Ok (_, st) => st | Err _ => demo_heap end.
Definition demo_regions1 : list region := [(8192, [(8, true); (112, true); (896, false); (8, true)])].

Lemma demo1_ok : heap_ok 16 (mm_nodes demo_heap1) (g_nodelist demo_heap1) demo_regions1.
Proof.
  pose proof (malloc_spec 16 1 100 demo_heap demo_regions (mo_heap _ _ _ demo_ok) (Z.divide_refl 16) demo_lock) as H.
  specialize (H ltac:(lia) ltac:(lia)). unfold demo_heap1. destruct (malloc 1 100 demo_heap) as [[p st']|]; [|done].
  destruct H as [(_ & _ & H)|(R1 & a & l1 & s & l2 & R2 & E & [Hs _] & _ & Hl1 & Hl2 & m' & -> & Hok)].
  - exfalso. specialize (H 1008 ltac:(unfold tiles, demo_regions; simpl; set_solver)). vm_compute in H. congruence.
  - apply demo_split in E as (-> & -> & -> & -> & -> & ->). exact Hok.
Qed.

Lemma demo1_lock : lock_available 1 (mm_lock demo_heap1).
Proof. split; [done|]. split; left; vm_compute; reflexivity. Qed.

(** ** Witnesses *)

Lemma mm_refines_allocator_witness :
  wp (mm_initialize 8192 1024 demo_state) (fun st => safe 1 10 st []).
Proof.
  apply (mm_refines_allocator 1 8192 1024 demo_state 10); [lia|exact demo_args|exact demo_apart|simpl; lia|simpl; lia].
Defined.

Lemma malloc_best_fit_witness : wp (malloc 1 100 demo_heap) (fun '(p, st') => st' = demo_heap \/ p <> NULL).
Proof.
  eapply wp_mono.
  - apply (malloc_best_fit 16 1 100 demo_heap demo_regions);
      [exact (mo_heap _ _ _ demo_ok)|exact (Z.divide_refl 16)|exact demo_lock|lia|lia].
  - intros [p st'] [(_ & -> & _)|(R1 & a & l1 & s & l2 & R2 & E & _ & -> & _)]; [by left|right].
    apply demo_split in E as (-> & -> & -> & -> & -> & ->). vm_compute. congruence.
Defined.

Lemma malloc_free_roundtrip_witness :
  wp ('(p, st1) ← malloc 1 100 demo_heap; free 1 p st1) (fun st' => heap_step 16 demo_heap st' demo_regions).
Proof.
  apply (malloc_free_roundtrip 16 1 100 demo_heap demo_regions);
    [exact (mo_heap _ _ _ demo_ok)|exact (Z.divide_refl 16)|exact demo_lock|lia|lia].
Defined.

Lemma free_coalesces_witness :
  wp (free 1 (8192 + 8 + 8) demo_heap1) (fun st' => heap_step 16 demo_heap1 st' demo_regions
    /\ coalesced [(8, true); (1008, false); (8, true)]).
Proof.
  apply (free_coalesces 16 1 demo_heap1 [] 8192 [(8, true)] 112 [(896, false); (8, true)] []);
    [exact demo1_ok|done|done|exact demo1_lock].
Defined.

Lemma realloc_keeps_contents_witness :
  wp (realloc 1 8208 200 demo_heap1) (fun '(p, st') => p = NULL \/ exists s', need_of 200 <= s').
Proof.
  eapply wp_mono.
  - apply (realloc_keeps_contents 1 200 demo_heap1 demo_regions1 8208 112 []);
      [exact demo1_ok|exact demo1_lock|vm_compute; reflexivity|lia|lia].
  - intros [p st'] [(-> & _)|(s' & _ & _ & _ & Hs' & _)]; [by left|right; by exists s'].
Defined.

Lemma heap_ok_weaken g g' m base rs : (g' | g) -> heap_ok g m base rs -> heap_ok g' m base rs.
Proof.
  intros Hg [A B C]. split; [done| |done]. eapply Forall_impl; [done|].
  intros r [D E (mid & F & G) H]. split; [done|done| |done]. exists mid. split; [done|].
  eapply Forall_impl; [done|]. intros c [??]. split; [done|]. by transitivity g.
Qed.

Lemma memalign_aligned_witness :
  wp (memalign 1 (2 ^ 6) 100 demo_heap) (fun '(p, st') => p = NULL \/ (2 ^ 6 | p)).
Proof.
  eapply wp_mono.
  - apply (memalign_aligned 1 6 100 demo_heap demo_regions);
      [apply (heap_ok_weaken 16); [by exists 2|exact (mo_heap _ _ _ demo_ok)]|exact demo_lock|lia|lia|lia].
  - intros [p st'] [[-> _]|(s' & rs' & _ & Hd & _)]; [by left|by right].
Defined.

Lemma mm_addregion_extends_witness :
  wp (mm_addregion 16384 512 (MmState (mm_nodes demo_heap) ∅ 4096 1024 [8192; 0] [9208; 0] 1 mm_seminitialize))
    (fun st' => heap_ok 16 (mm_nodes st') 4096 (demo_regions ++ [new_region 16384 512]) /\ g_nregions st' = 2%nat
       /\ g_heapsize st' = u32 (1024 + total (new_region 16384 512).2)).
Proof.
  apply (mm_addregion_extends 16 16384 512 (MmState (mm_nodes demo_heap) ∅ 4096 1024 [8192; 0] [9208; 0] 1 mm_seminitialize) demo_regions);
    [exact (mo_heap _ _ _ demo_ok)|exact (Z.divide_refl 16)|split; vm_compute; congruence| |simpl; lia|simpl; lia].
  split; [done|]. apply SSorted_cons.
  - apply SSorted_cons; [repeat constructor|]. constructor; [left; vm_compute; congruence|constructor].
  - constructor; [left; vm_compute; congruence|]. constructor; [left; vm_compute; congruence|constructor].
Defined.

Lemma mallinfo_totals_witness :
  wp (mallinfo demo_heap) (fun i => arena i = 1024 /\ ordblks i = 1 /\ mxordblk i = 1008 /\ uordblks i = 16
    /\ fordblks i = 1008).
Proof. exact (mallinfo_totals 16 demo_heap demo_regions demo_ok). Defined.

Lemma mm_size2ndx_class_witness : mm_size2ndx 1000 = 5.
Proof. rewrite (mm_size2ndx_class 1000); [reflexivity|lia]. Defined.

(** The size computation of malloc is not checked for overflow: a request
    of 0xfffffff0 bytes wraps to a chunk size of 0, and the pointer returned
    lies inside g_nodelist, the allocator's own table. *)
Theorem malloc_size_wraps :
  MM_ALIGN_UP (u32 (0xfffffff0 + SIZEOF_MM_ALLOCNODE)) = 0
  /\ exists p st, malloc 1 0xfffffff0 demo_heap = Ok (p, st)
       /\ nodelist (g_nodelist demo_heap) 1 <= p < nodelist (g_nodelist demo_heap) 2.
Proof.
  split; [reflexivity|]. assert (fst <$> match malloc 1 0xfffffff0 demo_heap with Ok r => Some r | Err _ => None end
    = Some 4120) as E by (vm_compute; reflexivity).
  destruct (malloc 1 0xfffffff0 demo_heap) as [[p st]|]; [|done]. simpl in E. injection E as ->.
  exists 4120, st. split; [done|]. vm_compute. split; congruence.
Qed.
