(* ===== verification/Sched.v ===== *)
(** * The scheduler: data and operations

    The task lists of src/nuttx/sched and the context-switch operations of the
    simulated target (src/nuttx/arch/sim/src), for a build with signals and
    message queues and without priority inheritance, paging or instrumentation.
    The running task is the head of g_readytorun: saving and restoring register
    contexts is not modelled, and an operation that switches contexts returns
    [true] beside the new state.  Interrupt masking is not modelled either: each
    operation is one atomic step, as irqsave makes it. *)

From S2P Require Import Prelude Queue.

(** ** Constants *)

Definition SCHED_PRIORITY_MAX : Z := 255.
Definition SCHED_PRIORITY_MIN : Z := 1.
Definition SCHED_PRIORITY_IDLE : Z := 0.
Definition MAX_LOCK_COUNT : Z := 127.
Definition TCB_FLAG_ROUND_ROBIN : Z := Z.shiftl 1 4.
Definition EINVAL : Z := 22.

(** CONFIG_RR_INTERVAL / MSEC_PER_TICK, the time slice of a build. *)
Class SchedConfig : Type := { RR_TICKS : Z }.

(** ** Task states *)

Inductive tstate : Type :=
| TSTATE_TASK_INVALID
| TSTATE_TASK_PENDING
| TSTATE_TASK_READYTORUN
| TSTATE_TASK_RUNNING
| TSTATE_TASK_INACTIVE
| TSTATE_WAIT_SEM
| TSTATE_WAIT_SIG
| TSTATE_WAIT_MQNOTEMPTY
| TSTATE_WAIT_MQNOTFULL.

#[export] Instance tstate_eq_dec : EqDecision tstate.
Proof. solve_decision. Defined.

Definition tstate_num (s : tstate) : Z :=
  match s with
  | TSTATE_TASK_INVALID => 0
  | TSTATE_TASK_PENDING => 1
  | TSTATE_TASK_READYTORUN => 2
  | TSTATE_TASK_RUNNING => 3
  | TSTATE_TASK_INACTIVE => 4
  | TSTATE_WAIT_SEM => 5
  | TSTATE_WAIT_SIG => 6
  | TSTATE_WAIT_MQNOTEMPTY => 7
  | TSTATE_WAIT_MQNOTFULL => 8
  end.

(** FIRST_READY_TO_RUN_STATE .. LAST_READY_TO_RUN_STATE and
    FIRST_BLOCKED_STATE .. LAST_BLOCKED_STATE *)
Definition ready_state (s : tstate) : bool := (2 <=? tstate_num s) && (tstate_num s <=? 3).
Definition blocked_state (s : tstate) : bool := (4 <=? tstate_num s) && (tstate_num s <=? 8).

(** ** Task control blocks *)

Record TCB : Type := Tcb {
  t_flink : ptr;
  t_blink : ptr;
  t_pid : Z;
  sched_priority : Z;
  task_state : tstate;
  t_flags : Z;
  lockcount : Z;
  timeslice : Z;
  waitsem : ptr;
  msgwaitq : ptr;
  pterrno : Z
}.

Definition set_sched_priority (p : Z) (t : TCB) : TCB :=
  Tcb (t_flink t) (t_blink t) (t_pid t) p (task_state t) (t_flags t) (lockcount t) (timeslice t)
    (waitsem t) (msgwaitq t) (pterrno t).
Definition set_task_state (s : tstate) (t : TCB) : TCB :=
  Tcb (t_flink t) (t_blink t) (t_pid t) (sched_priority t) s (t_flags t) (lockcount t) (timeslice t)
    (waitsem t) (msgwaitq t) (pterrno t).
Definition set_lockcount (c : Z) (t : TCB) : TCB :=
  Tcb (t_flink t) (t_blink t) (t_pid t) (sched_priority t) (task_state t) (t_flags t) c (timeslice t)
    (waitsem t) (msgwaitq t) (pterrno t).
Definition set_timeslice (c : Z) (t : TCB) : TCB :=
  Tcb (t_flink t) (t_blink t) (t_pid t) (sched_priority t) (task_state t) (t_flags t) (lockcount t) c
    (waitsem t) (msgwaitq t) (pterrno t).
Definition set_waitsem (s : ptr) (t : TCB) : TCB :=
  Tcb (t_flink t) (t_blink t) (t_pid t) (sched_priority t) (task_state t) (t_flags t) (lockcount t)
    (timeslice t) s (msgwaitq t) (pterrno t).
Definition set_msgwaitq (q : ptr) (t : TCB) : TCB :=
  Tcb (t_flink t) (t_blink t) (t_pid t) (sched_priority t) (task_state t) (t_flags t) (lockcount t)
    (timeslice t) (waitsem t) q (pterrno t).
Definition set_pterrno (e : Z) (t : TCB) : TCB :=
  Tcb (t_flink t) (t_blink t) (t_pid t) (sched_priority t) (task_state t) (t_flags t) (lockcount t)
    (timeslice t) (waitsem t) (msgwaitq t) e.

#[export] Program Instance tcb_linked : DLinked TCB := {
  flink := t_flink;
  blink := t_blink;
  set_flink p t := Tcb p (t_blink t) (t_pid t) (sched_priority t) (task_state t) (t_flags t) (lockcount t)
    (timeslice t) (waitsem t) (msgwaitq t) (pterrno t);
  set_blink p t := Tcb (t_flink t) p (t_pid t) (sched_priority t) (task_state t) (t_flags t) (lockcount t)
    (timeslice t) (waitsem t) (msgwaitq t) (pterrno t)
}.
Solve All Obligations with done.

(** ** The task lists *)

Inductive tasklist : Type :=
| TL_readytorun
| TL_pendingtasks
| TL_inactivetasks
| TL_waitingforsemaphore
| TL_waitingforsignal
| TL_waitingformqnotempty
| TL_waitingformqnotfull.

#[export] Instance tasklist_eq_dec : EqDecision tasklist.
Proof. solve_decision. Defined.

Record kernel : Type := Kernel {
  k_tcbs : gmap Z TCB;
  g_readytorun : dq_queue;
  g_pendingtasks : dq_queue;
  g_inactivetasks : dq_queue;
  g_waitingforsemaphore : dq_queue;
  g_waitingforsignal : dq_queue;
  g_waitingformqnotempty : dq_queue;
  g_waitingformqnotfull : dq_queue;
  k_interrupt : bool
}.

Definition set_tcbs (m : gmap Z TCB) (k : kernel) : kernel :=
  Kernel m (g_readytorun k) (g_pendingtasks k) (g_inactivetasks k) (g_waitingforsemaphore k)
    (g_waitingforsignal k) (g_waitingformqnotempty k) (g_waitingformqnotfull k) (k_interrupt k).

Definition get_list (l : tasklist) (k : kernel) : dq_queue :=
  match l with
  | TL_readytorun => g_readytorun k
  | TL_pendingtasks => g_pendingtasks k
  | TL_inactivetasks => g_inactivetasks k
  | TL_waitingforsemaphore => g_waitingforsemaphore k
  | TL_waitingforsignal => g_waitingforsignal k
  | TL_waitingformqnotempty => g_waitingformqnotempty k
  | TL_waitingformqnotfull => g_waitingformqnotfull k
  end.

Definition set_list (l : tasklist) (q : dq_queue) (k : kernel) : kernel :=
  let f l' := if decide (l = l') then q else get_list l' k in
  Kernel (k_tcbs k) (f TL_readytorun) (f TL_pendingtasks) (f TL_inactivetasks) (f TL_waitingforsemaphore)
    (f TL_waitingforsignal) (f TL_waitingformqnotempty) (f TL_waitingformqnotfull) (k_interrupt k).

(** os_start.c: the list of a state and whether it is prioritized. *)
Definition g_tasklisttable (s : tstate) : option tasklist * bool :=
  match s with
  | TSTATE_TASK_INVALID => (None, false)
  | TSTATE_TASK_PENDING => (Some TL_pendingtasks, true)
  | TSTATE_TASK_READYTORUN => (Some TL_readytorun, true)
  | TSTATE_TASK_RUNNING => (Some TL_readytorun, true)
  | TSTATE_TASK_INACTIVE => (Some TL_inactivetasks, false)
  | TSTATE_WAIT_SEM => (Some TL_waitingforsemaphore, true)
  | TSTATE_WAIT_SIG => (Some TL_waitingforsignal, false)
  | TSTATE_WAIT_MQNOTEMPTY => (Some TL_waitingformqnotempty, true)
  | TSTATE_WAIT_MQNOTFULL => (Some TL_waitingformqnotfull, true)
  end.

(** ** sched_addprioritized.c *)

(** [for (; next && sched_priority <= next->sched_priority; next = next->flink);] *)
Fixpoint prio_search (fuel : nat) (m : gmap Z TCB) (prio : Z) (next : ptr) : res ptr :=
  match fuel with
  | O => Err FFuel
  | S fuel =>
      if decide (next = NULL) then Ok NULL
      else
        n ← deref m next;
        if prio <=? sched_priority n then prio_search fuel m prio (t_flink n) else Ok next
  end.

Definition sched_addprioritized (tcb : ptr) (list : dq_queue) (m : gmap Z TCB) :
    res (bool * (dq_queue * gmap Z TCB)) :=
  t ← deref m tcb;
  let prio := sched_priority t in
  _ ← c_assert (SCHED_PRIORITY_MIN <=? prio);
  next ← prio_search (list_fuel m) m prio (dq_head list);
  if decide (next = NULL) then
    let prev := dq_tail list in
    if decide (prev = NULL) then
      m ← store (set_flink NULL) tcb m;
      m ← store (set_blink NULL) tcb m;
      Ok (true, (DqQueue tcb tcb, m))
    else
      m ← store (set_flink NULL) tcb m;
      m ← store (set_blink prev) tcb m;
      m ← store (set_flink tcb) prev m;
      Ok (false, (DqQueue (dq_head list) tcb, m))
  else
    n ← deref m next;
    let prev := t_blink n in
    if decide (prev = NULL) then
      m ← store (set_flink next) tcb m;
      m ← store (set_blink NULL) tcb m;
      m ← store (set_blink tcb) next m;
      Ok (true, (DqQueue tcb (dq_tail list), m))
    else
      m ← store (set_flink next) tcb m;
      m ← store (set_blink prev) tcb m;
      m ← store (set_flink tcb) prev m;
      m ← store (set_blink tcb) next m;
      Ok (false, (list, m)).

(** ** sched_addreadytorun.c and sched_removereadytorun.c *)

Definition sched_addreadytorun (btcb : ptr) (k : kernel) : res (bool * kernel) :=
  let rtcb := dq_head (g_readytorun k) in
  r ← deref (k_tcbs k) rtcb;
  b ← deref (k_tcbs k) btcb;
  if negb (lockcount r =? 0) && (sched_priority r <? sched_priority b) then
    '(_, (q, m)) ← sched_addprioritized btcb (g_pendingtasks k) (k_tcbs k);
    m ← store (set_task_state TSTATE_TASK_PENDING) btcb m;
    Ok (false, set_list TL_pendingtasks q (set_tcbs m k))
  else
    '(head, (q, m)) ← sched_addprioritized btcb (g_readytorun k) (k_tcbs k);
    if head : bool then
      r ← deref m rtcb;
      b ← deref m btcb;
      _ ← c_assert ((lockcount r =? 0) && bool_decide (t_flink b <> NULL));
      m ← store (set_task_state TSTATE_TASK_RUNNING) btcb m;
      m ← store (set_task_state TSTATE_TASK_READYTORUN) (t_flink b) m;
      Ok (true, set_list TL_readytorun q (set_tcbs m k))
    else
      m ← store (set_task_state TSTATE_TASK_READYTORUN) btcb m;
      Ok (false, set_list TL_readytorun q (set_tcbs m k)).

Definition sched_removereadytorun (rtcb : ptr) (k : kernel) : res (bool * kernel) :=
  let m := k_tcbs k in
  r ← deref m rtcb;
  '(ret, m) ←
    (if decide (t_blink r = NULL) then
       _ ← c_assert (bool_decide (t_flink r <> NULL));
       m ← store (set_task_state TSTATE_TASK_RUNNING) (t_flink r) m;
       Ok (true, m)
     else Ok (false, m));
  '(q, m) ← dq_rem rtcb (g_readytorun k) m;
  m ← store (set_task_state TSTATE_TASK_INVALID) rtcb m;
  Ok (ret, set_list TL_readytorun q (set_tcbs m k)).

(** ** sched_mergepending.c *)

(** The outer loop: [rtr] is where the search in g_readytorun starts, [pnd] the
    pending task to insert. *)
Fixpoint merge_loop (fuel : nat) (rq : dq_queue) (m : gmap Z TCB) (rtr pnd : ptr) (ret : bool) :
    res (bool * (dq_queue * gmap Z TCB)) :=
  match fuel with
  | O => Err FFuel
  | S fuel =>
      if decide (pnd = NULL) then Ok (ret, (rq, m))
      else
        p ← deref m pnd;
        let pndnext := t_flink p in
        rtr ← prio_search (list_fuel m) m (sched_priority p) rtr;
        if decide (rtr = NULL) then c_panic
        else
          r ← deref m rtr;
          let rtrprev := t_blink r in
          if decide (rtrprev = NULL) then
            m ← store (set_flink rtr) pnd m;
            m ← store (set_blink NULL) pnd m;
            m ← store (set_blink pnd) rtr m;
            m ← store (set_task_state TSTATE_TASK_READYTORUN) rtr m;
            m ← store (set_task_state TSTATE_TASK_RUNNING) pnd m;
            merge_loop fuel (DqQueue pnd (dq_tail rq)) m pnd pndnext true
          else
            m ← store (set_flink rtr) pnd m;
            m ← store (set_blink rtrprev) pnd m;
            m ← store (set_flink pnd) rtrprev m;
            m ← store (set_blink pnd) rtr m;
            m ← store (set_task_state TSTATE_TASK_READYTORUN) pnd m;
            merge_loop fuel rq m pnd pndnext ret
  end.

Definition sched_mergepending (k : kernel) : res (bool * kernel) :=
  '(ret, (q, m)) ← merge_loop (list_fuel (k_tcbs k)) (g_readytorun k) (k_tcbs k)
                     (dq_head (g_readytorun k)) (dq_head (g_pendingtasks k)) false;
  Ok (ret, set_list TL_pendingtasks dq_init (set_list TL_readytorun q (set_tcbs m k))).

(** ** sched_addblocked.c and sched_removeblocked.c *)

Definition sched_addblocked (btcb : ptr) (state : tstate) (k : kernel) : res kernel :=
  _ ← c_assert (blocked_state state);
  match g_tasklisttable state with
  | (Some l, true) =>
      '(_, (q, m)) ← sched_addprioritized btcb (get_list l k) (k_tcbs k);
      m ← store (set_task_state state) btcb m;
      Ok (set_list l q (set_tcbs m k))
  | (Some l, false) =>
      '(q, m) ← dq_addlast btcb (get_list l k) (k_tcbs k);
      m ← store (set_task_state state) btcb m;
      Ok (set_list l q (set_tcbs m k))
  | (None, _) => Err FNull
  end.

Definition sched_removeblocked (btcb : ptr) (k : kernel) : res kernel :=
  b ← deref (k_tcbs k) btcb;
  _ ← c_assert (blocked_state (task_state b));
  match g_tasklisttable (task_state b) with
  | (Some l, _) =>
      '(q, m) ← dq_rem btcb (get_list l k) (k_tcbs k);
      m ← store (set_task_state TSTATE_TASK_INVALID) btcb m;
      Ok (set_list l q (set_tcbs m k))
  | (None, _) => Err FNull
  end.

(** ** Context switches of the simulated target (arch/sim/src)

    The boolean is [true] when the context switch is performed: another task,
    the new head of g_readytorun, continues. *)

Definition up_block_task (tcb : ptr) (state : tstate) (k : kernel) : res (bool * kernel) :=
  t ← deref (k_tcbs k) tcb;
  if negb (ready_state (task_state t)) then c_panic
  else
    '(switch_needed, k) ← sched_removereadytorun tcb k;
    k ← sched_addblocked tcb state k;
    if decide (dq_head (g_pendingtasks k) = NULL) then Ok (switch_needed, k)
    else
      '(merged, k) ← sched_mergepending k;
      Ok (switch_needed || merged, k).

Definition up_unblock_task `{SchedConfig} (tcb : ptr) (k : kernel) : res (bool * kernel) :=
  t ← deref (k_tcbs k) tcb;
  if negb (blocked_state (task_state t)) then c_panic
  else
    k ← sched_removeblocked tcb k;
    m ← store (set_timeslice RR_TICKS) tcb (k_tcbs k);
    sched_addreadytorun tcb (set_tcbs m k).

Definition up_reprioritize_rtr (tcb : ptr) (priority : Z) (k : kernel) : res (bool * kernel) :=
  t ← deref (k_tcbs k) tcb;
  if negb (ready_state (task_state t)) || (priority <? SCHED_PRIORITY_MIN) then c_panic
  else
    '(removed, k) ← sched_removereadytorun tcb k;
    m ← store (set_sched_priority priority) tcb (k_tcbs k);
    '(added, k) ← sched_addreadytorun tcb (set_tcbs m k);
    let switch_needed := xorb removed added in
    if switch_needed then
      if decide (dq_head (g_pendingtasks k) = NULL) then Ok (true, k)
      else '(_, k) ← sched_mergepending k; Ok (true, k)
    else Ok (false, k).

Definition up_release_pending (k : kernel) : res (bool * kernel) := sched_mergepending k.

(** ** sched_lock.c, sched_unlock.c, sched_lockcount.c *)

Definition sched_lock (k : kernel) : res kernel :=
  let rtcb := dq_head (g_readytorun k) in
  if decide (rtcb = NULL) then Ok k
  else if k_interrupt k then Ok k
  else
    r ← deref (k_tcbs k) rtcb;
    _ ← c_assert (lockcount r <? MAX_LOCK_COUNT);
    m ← store (set_lockcount (lockcount r + 1)) rtcb (k_tcbs k);
    Ok (set_tcbs m k).

Definition sched_unlock (k : kernel) : res (bool * kernel) :=
  let rtcb := dq_head (g_readytorun k) in
  if decide (rtcb = NULL) then Ok (false, k)
  else if k_interrupt k then Ok (false, k)
  else
    r ← deref (k_tcbs k) rtcb;
    m ← (if negb (lockcount r =? 0) then store (set_lockcount (lockcount r - 1)) rtcb (k_tcbs k)
         else Ok (k_tcbs k));
    r ← deref m rtcb;
    if lockcount r <=? 0 then
      m ← store (set_lockcount 0) rtcb m;
      let k := set_tcbs m k in
      if decide (dq_head (g_pendingtasks k) = NULL) then Ok (false, k)
      else up_release_pending k
    else Ok (false, set_tcbs m k).

Definition sched_lockcount (k : kernel) : res Z :=
  r ← deref (k_tcbs k) (dq_head (g_readytorun k));
  Ok (lockcount r).

Definition sched_self (k : kernel) : ptr := dq_head (g_readytorun k).

(** [getpid]: the pid of the running task. *)
Definition getpid (k : kernel) : res Z := r ← deref (k_tcbs k) (dq_head (g_readytorun k)); Ok (t_pid r).

(** ** sched_setpriority.c and sched_yield.c

    [inl e] is a return of ERROR with errno [e], [inr b] a return of OK, [b]
    telling whether contexts were switched. *)

Definition sched_setpriority (tcb : ptr) (priority : Z) (k : kernel) : res ((Z + bool) * kernel) :=
  let rtcb := dq_head (g_readytorun k) in
  if (priority <? SCHED_PRIORITY_MIN) || (SCHED_PRIORITY_MAX <? priority) then Ok (inl EINVAL, k)
  else
    t ← deref (k_tcbs k) tcb;
    match task_state t with
    | TSTATE_TASK_RUNNING =>
        n ← deref (k_tcbs k) (t_flink t);
        if priority <=? sched_priority n then
          '(b, k) ← up_reprioritize_rtr tcb (u8 priority) k;
          Ok (inr b, k)
        else
          m ← store (set_sched_priority (u8 priority)) tcb (k_tcbs k);
          Ok (inr false, set_tcbs m k)
    | TSTATE_TASK_READYTORUN =>
        r ← deref (k_tcbs k) rtcb;
        if sched_priority r <? priority then
          '(b, k) ← up_reprioritize_rtr tcb (u8 priority) k;
          Ok (inr b, k)
        else
          '(head, k) ← sched_removereadytorun tcb k;
          _ ← c_assert (negb head);
          m ← store (set_sched_priority (u8 priority)) tcb (k_tcbs k);
          '(head, k) ← sched_addreadytorun tcb (set_tcbs m k);
          _ ← c_assert (negb head);
          Ok (inr false, k)
    | s =>
        match g_tasklisttable s with
        | (Some l, true) =>
            '(q, m) ← dq_rem tcb (get_list l k) (k_tcbs k);
            m ← store (set_sched_priority (u8 priority)) tcb m;
            '(_, (q, m)) ← sched_addprioritized tcb q m;
            Ok (inr false, set_list l q (set_tcbs m k))
        | _ =>
            m ← store (set_sched_priority (u8 priority)) tcb (k_tcbs k);
            Ok (inr false, set_tcbs m k)
        end
    end.

Definition sched_yield (k : kernel) : res ((Z + bool) * kernel) :=
  let rtcb := dq_head (g_readytorun k) in
  r ← deref (k_tcbs k) rtcb;
  sched_setpriority rtcb (sched_priority r) k.

(** ** sched_processtimer.c *)

Definition sched_process_timeslice `{SchedConfig} (k : kernel) : res (bool * kernel) :=
  let rtcb := dq_head (g_readytorun k) in
  r ← deref (k_tcbs k) rtcb;
  if Z.land (t_flags r) TCB_FLAG_ROUND_ROBIN =? 0 then Ok (false, k)
  else if timeslice r <=? 1 then
    if lockcount r =? 0 then
      m ← store (set_timeslice RR_TICKS) rtcb (k_tcbs k);
      let k := set_tcbs m k in
      if decide (t_flink r = NULL) then Ok (false, k)
      else
        n ← deref m (t_flink r);
        if sched_priority r <=? sched_priority n then up_reprioritize_rtr rtcb (sched_priority r) k
        else Ok (false, k)
    else Ok (false, k)
  else
    m ← store (set_timeslice (timeslice r - 1)) rtcb (k_tcbs k);
    Ok (false, set_tcbs m k).
