(* ===== verification/SchedInv.v ===== *)
(** * The scheduler: invariant and specifications of the list operations

    The abstract scheduler keeps, for every task list, the list of its tasks.
    [sched_repr] relates it to the linked TCBs; [sched_ok] is the invariant of
    the scheduler: priorities descend along the prioritized lists, states agree
    with lists, the idle task ends g_readytorun, and tasks are pending only
    while the running task holds the scheduler lock. *)

From stdpp Require Import sorting.
From S2P Require Import Prelude Queue Sched.

(** ** Task data *)

Definition prio (m : gmap Z TCB) (x : Z) : Z := from_option sched_priority 0 (m !! x).
Definition lockc (m : gmap Z TCB) (x : Z) : Z := from_option lockcount 0 (m !! x).
Definition state_of (m : gmap Z TCB) (x : Z) : tstate := from_option task_state TSTATE_TASK_INVALID (m !! x).

(** A TCB with its links and its state erased: what moving a task from list to
    list does not change. *)
Definition tbody (t : TCB) : TCB := set_task_state TSTATE_TASK_INVALID (dunlink t).

Lemma frame_weaken s (m m' : gmap Z TCB) : frame dunlink s m m' -> frame tbody s m m'.
Proof.
  intros [A B]. split; [done|]. intros p. specialize (B p).
  destruct (m !! p), (m' !! p); cbn [fmap option_fmap option_map] in *; try done.
  apply (inj Some) in B. unfold tbody. by rewrite B.
Qed.

Lemma frame_state s (m m' : gmap Z TCB) x st :
  x ∈ s -> frame tbody s m m' -> frame tbody s m (alter (set_task_state st) x m').
Proof. intros Hx. apply frame_alter; [done|]. by intros []. Qed.

Lemma frame_fields s (m m' : gmap Z TCB) x :
  frame tbody s m m' -> prio m' x = prio m x /\ lockc m' x = lockc m x /\ (valid m' x <-> valid m x).
Proof.
  intros [_ B]. specialize (B x). unfold prio, lockc, valid.
  destruct (m !! x) as [t|] eqn:E, (m' !! x) as [t'|] eqn:E'; simpl in *; try done.
  - unfold tbody in B. destruct t, t'. simpl in *. injection B. intros. simplify_eq.
    split; [done|]. split; [done|]. split; intros [? _]; eauto.
Qed.

Lemma frame_unlink_fields s (m m' : gmap Z TCB) x :
  frame dunlink s m m' -> prio m' x = prio m x /\ lockc m' x = lockc m x /\ state_of m' x = state_of m x.
Proof.
  intros Hf. destruct (frame_fields _ _ _ x (frame_weaken _ _ _ Hf)) as (? & ? & _).
  split; [done|]. split; [done|]. destruct Hf as [_ B]. specialize (B x). unfold state_of.
  destruct (m !! x) as [t|], (m' !! x) as [t'|]; simpl in *; try done.
  destruct t, t'. unfold dunlink in B. simpl in *. injection B. intros. by simplify_eq.
Qed.

(** ** Insertion by priority *)

Section ins.
  Context (pr : Z -> Z).

(** Behind every task of the same or a higher priority. *)
Fixpoint ins (x : Z) (l : list Z) : list Z :=
  match l with
  | [] => [x]
  | y :: l => if pr x <=? pr y then y :: ins x l else x :: y :: l
  end.

Definition sorted (l : list Z) : Prop := StronglySorted (fun x y => pr y <= pr x) l.

Lemma ins_split x l1 l2 :
  Forall (fun y => pr x <= pr y) l1 -> (l2 = [] \/ pr (hdp NULL l2) < pr x) -> ins x (l1 ++ l2) = l1 ++ x :: l2.
Proof.
  intros H1 H2. induction H1 as [|y l1 Hy H1 IH]; simpl.
  - destruct l2 as [|z l2]; [done|]. destruct H2 as [|Hz]; [done|]. simpl in Hz. simpl.
    destruct (Z.leb_spec (pr x) (pr z)); [lia|done].
  - destruct (Z.leb_spec (pr x) (pr y)); [|lia]. by rewrite IH.
Qed.

Lemma ins_perm x l : ins x l ≡ₚ x :: l.
Proof.
  induction l as [|y l IH]; [done|]. simpl. destruct (_ <=? _); [|done]. rewrite IH. apply perm_swap.
Qed.

Lemma ins_sorted x l : sorted l -> sorted (ins x l).
Proof.
  induction 1 as [|y l Hs IH Hy]; [by repeat constructor|]. simpl.
  destruct (Z.leb_spec (pr x) (pr y)) as [Hle|Hlt].
  - constructor; [done|]. rewrite ins_perm. by constructor.
  - constructor; [by constructor|]. constructor; [lia|]. eapply Forall_impl; [done|]. simpl. lia.
Qed.

(** A task of positive priority goes before the idle task at the end. *)
Lemma ins_snoc x l z : pr z < pr x -> ins x (l ++ [z]) = ins x l ++ [z].
Proof.
  intros Hz. induction l as [|y l IH]; simpl.
  - destruct (Z.leb_spec (pr x) (pr z)); [lia|done].
  - destruct (_ <=? _); [|done]. by rewrite IH.
Qed.

End ins.

Lemma ins_ext pr pr' x l : (forall y, y ∈ x :: l -> pr' y = pr y) -> ins pr' x l = ins pr x l.
Proof.
  intros Hp. induction l as [|y l IH]; [done|]. simpl. rewrite !Hp by set_solver. case_match; [|done].
  f_equal. apply IH. intros z Hz. apply Hp. set_solver.
Qed.

Lemma sorted_ext pr pr' l : (forall y, y ∈ l -> pr' y = pr y) -> sorted pr l -> sorted pr' l.
Proof.
  intros Hp Hs. induction Hs as [|x l Hs IH Hx]; constructor.
  - apply IH. intros y Hy. apply Hp. by right.
  - apply Forall_forall. intros y Hy. rewrite Forall_forall in Hx. rewrite !Hp by (by repeat constructor).
    by apply Hx.
Qed.

Lemma sorted_sublist pr l1 l2 l3 : sorted pr (l1 ++ l2 ++ l3) -> sorted pr (l1 ++ l3).
Proof.
  unfold sorted. rewrite !StronglySorted_app. intros (H12 & H1 & H23 & H2 & H3).
  split; [|done]. intros x y Hx Hy. apply H12; set_solver.
Qed.

(** ** The searches and the insertion *)

Lemma prio_search_spec fuel m p prev l :
  dseg m prev l NULL -> NULL ∉ l -> (length l < fuel)%nat ->
  wp (prio_search fuel m p (hdp NULL l)) (fun y => exists l1 l2, l = l1 ++ l2 /\ y = hdp NULL l2
    /\ Forall (fun z => p <= prio m z) l1 /\ (l2 = [] \/ prio m (hdp NULL l2) < p)).
Proof.
  revert prev l. induction fuel as [|fuel IH]; intros prev l Hs H0 Hf; [lia|].
  destruct l as [|x l]; cbn [prio_search head default from_option id].
  - rewrite decide_True by done. apply wp_ret. exists [], []. by repeat split; auto.
  - destruct Hs as [(n & Hn & Hfl & _) Hs]. rewrite decide_False by set_solver.
    apply wp_bind. eapply wp_deref; [set_solver|done|]. cbn beta.
    assert (prio m x = sched_priority n) as En by (unfold prio; by rewrite Hn).
    destruct (Z.leb_spec p (sched_priority n)) as [Hle|Hlt].
    + change (t_flink n) with (flink n). rewrite Hfl.
      eapply wp_mono; [apply (IH x l); [done|set_solver|simpl in Hf; lia]|].
      intros y (l1 & l2 & -> & -> & Hl1 & Hl2). exists (x :: l1), l2. repeat split; [|done].
      constructor; [lia|done].
    + apply wp_ret. exists [], (x :: l). repeat split; [done|]. right. simpl. lia.
Qed.

Lemma dq_length {N} `{DLinked N} (m : gmap Z N) q l : dq_repr m q l -> (length l <= size m)%nat.
Proof.
  intros Hq. rewrite <- (size_list_to_set (C := gset Z)) by apply Hq. rewrite <- size_dom.
  apply subseteq_size. intros x Hx%elem_of_list_to_set. apply elem_of_dom.
  by destruct (dq_repr_valid _ _ _ _ Hq Hx).
Qed.

Lemma sched_addprioritized_spec m q l x :
  dq_repr m q l -> valid m x -> x ∉ l -> SCHED_PRIORITY_MIN <= prio m x ->
  wp (sched_addprioritized x q m) (fun '(b, (q', m')) =>
    dq_repr m' q' (ins (prio m) x l) /\ frame dunlink (x :: l) m m'
    /\ b = bool_decide (hdp NULL (ins (prio m) x l) = x)).
Proof.
  intros Hq Hv Hx Hp. pose proof Hq as [Hh Ht Hs Hd H0]. pose proof (valid_ne _ _ Hv).
  destruct (valid_lookup _ _ Hv) as [t Et]. assert (prio m x = sched_priority t) as Ep by (unfold prio; by rewrite Et).
  unfold sched_addprioritized. apply wp_bind. eapply wp_deref; [done..|]. cbn beta zeta. rewrite <- Ep.
  apply wp_bind, wp_assert; [by apply Z.leb_le|]. rewrite Hh.
  apply wp_bind. eapply wp_mono; [eapply prio_search_spec; [done|done|]|].
  { pose proof (dq_length _ _ _ Hq). unfold list_fuel. lia. }
  intros y (l1 & l2 & -> & -> & Hl1 & Hl2). rewrite (ins_split _ _ _ _ Hl1 Hl2).
  destruct (dq_repr_split m q l1 l2 Hq) as (E1 & E2 & V1 & V2).
  assert (bool_decide (hdp NULL (l1 ++ x :: l2) = x) = bool_decide (l1 = [])) as ->.
  { apply bool_decide_ext. destruct l1 as [|z l1]; [done|]. simpl. split; [|done]. intros ->. set_solver. }
  assert (forall (b : bool) q' m', b = bool_decide (l1 = []) -> q' = DqQueue (hdp NULL (l1 ++ x :: l2)) (lastp NULL (l1 ++ x :: l2)) ->
    spliced m m' (lastp NULL l1) x (hdp NULL l2) ->
    dq_repr m' q' (l1 ++ x :: l2) /\ frame dunlink (x :: l1 ++ l2) m m' /\ b = bool_decide (l1 = [])) as Hfin.
  { intros b q' m' -> -> Hsp. destruct (dq_splice m m' q _ _ l1 x l2 Hq Hv Hx eq_refl eq_refl Hsp). done. }
  destruct (decide (l2 = [])) as [->|Hl2n].
  - rewrite app_nil_r in *. cbn [head default from_option id]. rewrite decide_True by done. rewrite Ht.
    destruct (decide (l1 = [])) as [->|Hl1n].
    + simpl. wp_go. apply Hfin; [done|done|]. solve_splice x NULL NULL.
    + destruct (V1 Hl1n) as [Vp Ip]. pose proof (valid_ne _ _ Vp).
      assert (x <> lastp NULL l1) by (intros E; by rewrite E in Hx).
      wp_go. apply Hfin; [by rewrite bool_decide_false|by rewrite lastp_snoc, hdp_app_ne|]. solve_splice x (lastp NULL l1) NULL.
  - destruct (V2 Hl2n) as [Vn In]. pose proof (valid_ne _ _ Vn). rewrite decide_False by done.
    assert (x <> hdp NULL l2) by (intros E; rewrite <- E in In; set_solver).
    destruct l2 as [|z l2]; [done|]. cbn [head default from_option id] in *.
    destruct (dseg_lookup _ _ _ _ _ _ Hs) as (kz & Ekz & _ & Bz).
    apply wp_bind. eapply wp_deref; [done..|]. cbn beta zeta. change (t_blink kz) with (blink kz). rewrite Bz.
    destruct (decide (l1 = [])) as [->|Hl1n].
    + cbn [last default from_option id]. rewrite decide_True by done. wp_go.
      apply Hfin; [done|rewrite Ht; cbn [app head default from_option id]; by rewrite !lastp_cons|]. solve_splice x NULL z.
    + destruct (V1 Hl1n) as [Vp Ip]. pose proof (valid_ne _ _ Vp). rewrite decide_False by done.
      assert (x <> lastp NULL l1) by (intros E; rewrite E in Hx; set_solver).
      assert (lastp NULL l1 <> z). { intros E. apply NoDup_app in Hd as (_ & Hd & _). apply (Hd z); [by rewrite <- E|left]. }
      wp_go. apply Hfin; [by rewrite bool_decide_false| |solve_splice x (lastp NULL l1) z].
      destruct q as [qh qt]. simpl in *. subst. rewrite !hdp_app_ne, !lastp_mid, lastp_cons by done. done.
Qed.

(** ** Merging the pending tasks *)

(** The states along g_readytorun: the head is running, the others are ready. *)
Definition rstates (m : gmap Z TCB) (l : list Z) : Prop :=
  match l with
  | [] => True
  | x :: l => state_of m x = TSTATE_TASK_RUNNING /\ Forall (fun y => state_of m y = TSTATE_TASK_READYTORUN) l
  end.

Definition merged (pr : Z -> Z) (r p : list Z) : list Z := foldl (fun r x => ins pr x r) r p.

Lemma merged_perm pr r p : merged pr r p ≡ₚ p ++ r.
Proof.
  revert r. induction p as [|x p IH]; intros r; [done|]. unfold merged in *. cbn [foldl].
  rewrite IH, ins_perm. simpl. symmetry. apply Permutation_middle.
Qed.

Lemma merged_sorted pr r p : sorted pr r -> sorted pr (merged pr r p).
Proof.
  revert r. induction p as [|x p IH]; intros r Hr; [done|]. apply IH. by apply ins_sorted.
Qed.

Lemma merged_snoc pr r p z : Forall (fun x => pr z < pr x) p -> merged pr (r ++ [z]) p = merged pr r p ++ [z].
Proof.
  revert r. induction p as [|x p IH]; intros r Hp; [done|]. apply Forall_cons in Hp as [Hx Hp].
  unfold merged in *. cbn [foldl]. by rewrite ins_snoc, IH.
Qed.

Lemma merged_ext pr pr' r p : (forall y, y ∈ p ++ r -> pr' y = pr y) -> merged pr' r p = merged pr r p.
Proof.
  revert r. induction p as [|x p IH]; intros r Hp; [done|]. unfold merged in *. cbn [foldl].
  rewrite (ins_ext pr pr') by (intros y Hy; apply Hp; set_solver). apply IH. intros y Hy. apply Hp.
  rewrite ins_perm in Hy. set_solver.
Qed.

Lemma merged_head pr r p s : r <> [] -> hdp NULL r ∈ s -> hdp NULL (merged pr r p) ∈ s ++ p.
Proof.
  revert r s. induction p as [|x p IH]; intros r s Hr Hs; [by rewrite app_nil_r|].
  unfold merged in *. cbn [foldl]. specialize (IH (ins pr x r) (s ++ [x])).
  rewrite <- app_assoc in IH. apply IH.
  - destruct r; simpl; [done|]. by case_match.
  - destruct r as [|y r]; [done|]. simpl in *. case_match; set_solver.
Qed.

Lemma rstates_ext m m' l : (forall y, y ∈ l -> state_of m' y = state_of m y) -> rstates m l -> rstates m' l.
Proof.
  destruct l as [|x l]; [done|]. intros Hm [Hx Hl]. split; [rewrite Hm; [done|left]|].
  rewrite Forall_forall in Hl |- *. intros y Hy. rewrite Hm by (by right). by apply Hl.
Qed.

Lemma state_alter m x y s :
  state_of (alter (set_task_state s) x m) y =
  if decide (x = y) then if decide (is_Some (m !! y)) then s else TSTATE_TASK_INVALID else state_of m y.
Proof.
  unfold state_of. rewrite lookup_alter. case_decide as E; [|done]. subst y.
  destruct (decide (is_Some (m !! x))) as [[t Et]|Hn]; [by rewrite Et|].
  destruct (m !! x); [|done]. exfalso. apply Hn. eauto.
Qed.

(** A change of a field other than the links keeps a queue's shape. *)
Definition keeps_links (f : TCB -> TCB) : Prop := forall t, t_flink (f t) = t_flink t /\ t_blink (f t) = t_blink t.

Lemma dseg_alter_data f x m p l n : keeps_links f -> dseg m p l n -> dseg (alter f x m) p l n.
Proof.
  intros Hf. revert p. induction l as [|y l IH]; intros p; [done|]. intros [(t & Ht & Hfl & Hbl) Hs].
  split; [|by apply IH]. destruct (decide (x = y)) as [->|Hne].
  - exists (f t). rewrite lookup_alter_eq, Ht. simpl in *. destruct (Hf t) as [-> ->]. done.
  - exists t. by rewrite lookup_alter_ne.
Qed.

Lemma dq_repr_alter_data f x (m : gmap Z TCB) q l : keeps_links f -> dq_repr m q l -> dq_repr (alter f x m) q l.
Proof. intros Hf [A B C D E]. split; try done. by apply dseg_alter_data. Qed.

(** One pending task spliced into the ready list, its state and that of the old
    head updated. *)
Lemma merge_states m m' x l1 l2 :
  valid m x -> x ∉ l1 ++ l2 -> l2 <> [] -> valid m (hdp NULL l2) -> rstates m (l1 ++ l2) ->
  (forall y, state_of m' y = if decide (y = x) then
                 if decide (l1 = []) then TSTATE_TASK_RUNNING else TSTATE_TASK_READYTORUN
               else if decide (l1 = [] /\ y = hdp NULL l2) then TSTATE_TASK_READYTORUN
               else state_of m y) ->
  rstates m' (l1 ++ x :: l2).
Proof.
  intros Hv Hx Hl2 Hv2 Hr Hm. destruct l1 as [|h l1]; simpl in *.
  - destruct l2 as [|h l2]; [done|]. simpl in *. destruct Hr as [_ Hr]. split; [by rewrite Hm, !decide_True|].
    constructor.
    + rewrite Hm, decide_False by set_solver. by rewrite decide_True.
    + rewrite Forall_forall in Hr |- *. intros y Hy. rewrite Hm, decide_False by set_solver.
      case_decide; [done|]. by apply Hr.
  - destruct Hr as [Hh Hr]. assert (forall y, y <> x -> state_of m' y = state_of m y) as Hne.
    { intros y Hy. rewrite Hm. repeat case_decide; naive_solver. }
    split; [rewrite Hne; [done|set_solver]|].
    rewrite Forall_app in Hr. destruct Hr as [Hr1 Hr2]. rewrite Forall_forall in Hr1, Hr2.
    apply Forall_app. split; [|constructor].
    + apply Forall_forall. intros y Hy. rewrite Hne by set_solver. by apply Hr1.
    + rewrite Hm. repeat case_decide; naive_solver.
    + apply Forall_forall. intros y Hy. rewrite Hne by set_solver. by apply Hr2.
Qed.

Lemma state_flink (m : gmap Z TCB) x y p : state_of (alter (set_flink p) x m) y = state_of m y.
Proof. unfold state_of. rewrite lookup_alter. case_decide as E; [subst|done]. by destruct (m !! y). Qed.

Lemma state_blink (m : gmap Z TCB) x y p : state_of (alter (set_blink p) x m) y = state_of m y.
Proof. unfold state_of. rewrite lookup_alter. case_decide as E; [subst|done]. by destruct (m !! y). Qed.

(** The memory after a pending task was given its state and, when it became the
    head, the old head its own. *)
Definition merge_mark (l1 : list Z) (x b : Z) (m : gmap Z TCB) : gmap Z TCB :=
  if decide (l1 = []) then
    alter (set_task_state TSTATE_TASK_RUNNING) x (alter (set_task_state TSTATE_TASK_READYTORUN) b m)
  else alter (set_task_state TSTATE_TASK_READYTORUN) x m.

Lemma keeps_links_state s : keeps_links (set_task_state s).
Proof. by intros []. Qed.

Lemma dq_repr_queue {N} `{DLinked N} (m : gmap Z N) q l : dq_repr m q l -> q = DqQueue (hdp NULL l) (lastp NULL l).
Proof. intros [Hh Ht _ _ _]. destruct q. simpl in *. by subst. Qed.

Lemma merge_step m m1 q l1 x b l2 :
  dq_repr m q (l1 ++ b :: l2) -> valid m x -> x ∉ l1 ++ b :: l2 -> rstates m (l1 ++ b :: l2) ->
  spliced m m1 (lastp NULL l1) x b ->
  dq_repr (merge_mark l1 x b m1) (DqQueue (hdp NULL (l1 ++ x :: b :: l2)) (lastp NULL (l1 ++ x :: b :: l2)))
    (l1 ++ x :: b :: l2)
  /\ frame tbody (x :: l1 ++ b :: l2) m (merge_mark l1 x b m1) /\ rstates (merge_mark l1 x b m1) (l1 ++ x :: b :: l2).
Proof.
  intros Hq Hv Hx Hr Hsp.
  destruct (dq_splice m m1 q _ _ l1 x (b :: l2) Hq Hv Hx eq_refl eq_refl Hsp) as [Hq1 Hf1].
  assert (valid m b) as Hvb by (apply (dq_repr_valid _ _ _ _ Hq); set_solver).
  pose proof (frame_valid _ _ _ _ _ Hf1 Hv) as [_ Hv1]. pose proof (frame_valid _ _ _ _ _ Hf1 Hvb) as [_ Hvb1].
  split; [|split].
  - unfold merge_mark. case_decide; repeat (apply dq_repr_alter_data; [apply keeps_links_state|]); done.
  - unfold merge_mark. apply frame_weaken in Hf1. case_decide; repeat (apply frame_state; [set_solver|]); done.
  - eapply (merge_states m); [done|done|done|done|done|]. intros y. cbn [head default from_option id].
    assert (state_of m1 y = state_of m y) as Ey by apply (frame_unlink_fields _ _ _ y Hf1).
    assert (x <> b) by set_solver.
    unfold merge_mark. destruct (decide (l1 = [])) as [->|Hne]; rewrite !state_alter, ?Ey.
    + destruct (decide (x = y)) as [<-|].
      * rewrite decide_True by (rewrite lookup_alter_ne by done; done). by rewrite decide_True.
      * rewrite (decide_False (P := y = x)) by congruence. destruct (decide (b = y)) as [<-|].
        -- by rewrite !decide_True.
        -- rewrite decide_False; [done|]. intros [_ ?]. congruence.
    + destruct (decide (x = y)) as [<-|]; [by rewrite !decide_True|].
      rewrite (decide_False (P := y = x)) by congruence. rewrite decide_False; [done|tauto].
Qed.


Lemma frame_sub {N} (u : N -> N) s s' m m' : (forall x, x ∈ s -> x ∈ s') -> frame u s m m' -> frame u s' m m'.
Proof. intros Hs. apply frame_mono. exact Hs. Qed.


Lemma merged_from_pending pr l1 x b l2 P :
  x ∉ P -> x ∉ l1 ->
  bool_decide (l1 = []) || bool_decide (hdp NULL (merged pr (l1 ++ x :: b :: l2) P) ∈ P)
  = bool_decide (hdp NULL (merged pr (l1 ++ x :: b :: l2) P) ∈ x :: P).
Proof.
  intros HxP Hx. destruct l1 as [|a l1].
  - rewrite bool_decide_true by done. symmetry. apply bool_decide_true. by apply (merged_head pr _ P [x]); [|left].
  - rewrite bool_decide_false by done. apply bool_decide_ext. split; [by right|].
    pose proof (merged_head pr ((a :: l1) ++ x :: b :: l2) P [a]) as Hm.
    specialize (Hm ltac:(done) ltac:(left)). intros [E|]%elem_of_cons; [|done]. rewrite E in Hm. set_solver.
Qed.

(** Where the merge stands: [A] is behind the search, [B] is still to be searched
    and [P] are the pending tasks left. *)
Record merging (m : gmap Z TCB) (rq : dq_queue) (A B : list Z) (pp : Z) (P : list Z) : Prop := Merging {
  mg_repr : dq_repr m rq (A ++ B);
  mg_seg : dseg m pp P NULL;
  mg_null : NULL ∉ P;
  mg_nodup : NoDup P;
  mg_disj : forall x, x ∈ P -> x ∉ A ++ B;
  mg_rest : B <> [];
  mg_sorted : sorted (prio m) P;
  mg_above : forall a p, a ∈ A -> p ∈ P -> prio m p <= prio m a;
  mg_last : forall p, p ∈ P -> prio m (lastp NULL B) < prio m p;
  mg_states : rstates m (A ++ B)
}.

Definition merge_done (m : gmap Z TCB) (A B P : list Z) (ret : bool) : bool * (dq_queue * gmap Z TCB) -> Prop := fun '(b, (q', m')) =>
  dq_repr m' q' (merged (prio m) (A ++ B) P) /\ frame tbody (A ++ B ++ P) m m'
  /\ rstates m' (merged (prio m) (A ++ B) P)
  /\ b = ret || bool_decide (hdp NULL (merged (prio m) (A ++ B) P) ∈ P).

(** The place of the first pending task, and what is known about it. *)
Lemma merge_search m rq A B pp p P :
  merging m rq A B pp (p :: P) ->
  wp (prio_search (list_fuel m) m (prio m p) (hdp NULL B)) (fun r => exists B1 b B2, B = B1 ++ b :: B2 /\ r = b
    /\ Forall (fun z => prio m p <= prio m z) B1 /\ prio m b < prio m p
    /\ merged (prio m) (A ++ B) (p :: P) = merged (prio m) ((A ++ B1) ++ p :: b :: B2) P).
Proof.
  intros [Hq _ _ _ _ HB _ HA Hlast _]. pose proof Hq as [_ _ Hseg _ Hn0]. rewrite dseg_app in Hseg. destruct Hseg as [_ HsegB].
  eapply wp_mono; [eapply prio_search_spec; [exact HsegB|set_solver|]|].
  { pose proof (dq_length _ _ _ Hq) as Hl. rewrite length_app in Hl. unfold list_fuel. lia. }
  intros r (B1 & B2 & -> & -> & HB1 & HB2). destruct B2 as [|b B2].
  { exfalso. rewrite app_nil_r in *. rewrite Forall_forall in HB1.
    specialize (HB1 _ (lastp_elem NULL _ HB)). specialize (Hlast p ltac:(left)). lia. }
  destruct HB2 as [|HB2]; [done|]. exists B1, b, B2. split; [done|]. split; [done|]. split; [done|]. split; [done|].
  unfold merged. cbn [foldl]. rewrite app_assoc, ins_split; [done| |by right].
  apply Forall_app. split; [|done]. apply Forall_forall. intros a Ha. apply HA; [done|left].
Qed.

(** One pending task was linked in: the merge goes on, and its end is the end of
    the whole. *)
Lemma merge_advance m m1 rq A B1 b B2 pp p P :
  merging m rq A (B1 ++ b :: B2) pp (p :: P) -> Forall (fun z => prio m p <= prio m z) B1 -> spliced m m1 (lastp NULL (A ++ B1)) p b ->
  let m' := merge_mark (A ++ B1) p b m1 in let R := (A ++ B1) ++ p :: b :: B2 in
  merging m' (DqQueue (hdp NULL R) (lastp NULL R)) (A ++ B1) (p :: b :: B2) p P
  /\ frame tbody (p :: (A ++ B1) ++ b :: B2) m m' /\ (forall y, prio m' y = prio m y).
Proof.
  intros [Hq [(tp & Htp & _ & _) Hs] H0 Hd Hdis HB Hsort HA Hlast Hst] HB1 Hsp m' R. rewrite app_assoc in Hq, Hst.
  apply NoDup_cons in Hd as [HpP Hd]. inversion Hsort as [|? ? Hsort' Hpall]; subst. pose proof (Hdis p ltac:(left)) as HpR. rewrite app_assoc in HpR.
  destruct (merge_step m m1 rq (A ++ B1) p b B2 Hq) as (Hq1 & Hf1 & Hst1); [split; [set_solver|eauto]|done|done|done|]. fold m' in Hq1, Hf1, Hst1.
  assert (forall y, prio m' y = prio m y) as Epr by (intros y; apply (frame_fields _ _ _ y Hf1)).
  assert (forall y, y ∈ P -> y ∉ (A ++ B1) ++ b :: B2) as Hdis' by (intros y Hy; specialize (Hdis y ltac:(by right)); by rewrite app_assoc in Hdis).
  split; [|done]. split; try done.
  - eapply dseg_frame; [exact Hf1| |exact Hs]. intros y Hy HyP. specialize (Hdis' y HyP). set_solver.
  - set_solver.
  - intros y HyP. specialize (Hdis' y HyP). set_solver.
  - eapply sorted_ext; [|done]. intros; apply Epr.
  - intros a y Ha Hy. rewrite !Epr. rewrite Forall_forall in Hpall, HB1. specialize (Hpall y Hy).
    apply elem_of_app in Ha as [Ha|Ha]; [apply HA; [done|by right]|]. specialize (HB1 a Ha). simpl in *. lia.
  - intros y Hy. rewrite !Epr, lastp_cons. specialize (Hlast y ltac:(by right)). rewrite lastp_mid in Hlast. by rewrite lastp_cons.
Qed.

Lemma merge_finish m m' A B1 b B2 p P ret r :
  p ∉ P -> p ∉ A ++ B1 -> frame tbody (p :: (A ++ B1) ++ b :: B2) m m' -> (forall y, prio m' y = prio m y) ->
  merged (prio m) (A ++ B1 ++ b :: B2) (p :: P) = merged (prio m) ((A ++ B1) ++ p :: b :: B2) P ->
  merge_done m' (A ++ B1) (p :: b :: B2) P (ret || bool_decide (A ++ B1 = [])) r -> merge_done m A (B1 ++ b :: B2) (p :: P) ret r.
Proof.
  intros HpP HpA Hf1 Epr Em. destruct r as [b' [q'' m'']]. unfold merge_done. rewrite Em, <- (merged_ext (prio m) (prio m')) by (intros; apply Epr).
  intros (H1 & H2 & H3 & H4). split; [done|]. split; [|split; [done|]].
  - eapply frame_trans; [eapply frame_sub; [|exact Hf1]|eapply frame_sub; [|exact H2]]; set_solver.
  - rewrite H4, <- orb_assoc. f_equal. by apply merged_from_pending.
Qed.

Lemma merge_loop_ok fuel rq m A B pp P ret :
  merging m rq A B pp P -> (length P < fuel)%nat -> wp (merge_loop fuel rq m (hdp NULL B) (hdp NULL P) ret) (merge_done m A B P ret).
Proof.
  revert rq m A B pp P ret. induction fuel as [|fuel IH]; intros rq m A B pp P ret HM Hf; [lia|].
  destruct P as [|p P]; cbn [merge_loop head default from_option id].
  { rewrite decide_True by done. apply wp_ret. split; [apply HM|]. split; [apply frame_refl|]. split; [apply HM|].
    rewrite bool_decide_false by set_solver. by rewrite orb_false_r. }
  pose proof HM as [Hq [(tp & Htp & Hfl & _) _] H0 Hd Hdis _ _ _ _ _]. apply NoDup_cons in Hd as [HpP _].
  rewrite decide_False by set_solver. apply wp_bind. eapply wp_deref; [set_solver|done|]. cbn beta zeta.
  assert (sched_priority tp = prio m p) as -> by (unfold prio; by rewrite Htp).
  apply wp_bind. eapply wp_mono; [by apply (merge_search m rq A B pp p P)|]. intros r (B1 & b & B2 & -> & -> & HB1 & _ & Em).
  pose proof (Hdis p ltac:(left)) as HpR. rewrite app_assoc in Hq, HpR. set (A' := A ++ B1) in *. pose proof Hq as [_ _ Hseg Hnd _].
  destruct (dq_repr_split m rq A' (b :: B2) Hq) as (E1 & E2 & V1 & V2). destruct (V2 ltac:(done)) as [Vr Ir]. pose proof (valid_ne _ _ Vr) as Hr0.
  cbn [head default from_option id] in *. rewrite decide_False by done. assert (valid m p) as Hvp by (split; [set_solver|eauto]).
  destruct (dseg_lookup _ _ _ _ _ _ Hseg) as (kb & Ekb & _ & Bb). apply wp_bind. eapply wp_deref; [done..|]. cbn beta zeta.
  change (t_blink kb) with (blink kb). change (t_flink tp) with (flink tp). rewrite Bb, Hfl. assert (p <> b) as Hpb by set_solver.
  assert (forall m1 m' q' ret', spliced m m1 (lastp NULL A') p b -> m' = merge_mark A' p b m1 ->
    q' = DqQueue (hdp NULL (A' ++ p :: b :: B2)) (lastp NULL (A' ++ p :: b :: B2)) -> ret' = (ret || bool_decide (A' = [])) ->
    wp (merge_loop fuel q' m' p (hdp NULL P) ret') (merge_done m A (B1 ++ b :: B2) (p :: P) ret)) as Hstep.
  { intros m1 m' q' ret' Hsp -> -> ->. destruct (merge_advance m m1 rq A B1 b B2 pp p P HM HB1 Hsp) as (HM1 & Hf1 & Epr).
    eapply wp_mono; [apply (IH _ _ A' (p :: b :: B2) p P); [exact HM1|simpl in Hf; lia]|].
    intros r. apply merge_finish; [done|set_solver|done|done|done]. }
  destruct (decide (A' = [])) as [EA|HAn].
  - clearbody A'. rewrite EA in *. cbn [app last default from_option id] in *. rewrite decide_True by done. wp_go.
    eapply (Hstep _ _ _ _); [|unfold merge_mark; by rewrite decide_True| |].
    + solve_splice p NULL b.
    + by rewrite (dqr_tail _ _ _ Hq).
    + by rewrite bool_decide_true, orb_true_r.
  - destruct (V1 HAn) as [Vp Ip]. pose proof (valid_ne _ _ Vp). rewrite decide_False by done.
    assert (p <> lastp NULL A') by (intros E; rewrite E in HpR; set_solver).
    assert (lastp NULL A' <> b). { intros E. apply NoDup_app in Hnd as (_ & Hnd & _). apply (Hnd b); [rewrite <- E at 1; exact Ip|left]. }
    wp_go. eapply (Hstep _ _ _ _); [|unfold merge_mark; by rewrite decide_False| |].
    + solve_splice p (lastp NULL A') b.
    + rewrite (dq_repr_queue _ _ _ Hq), !hdp_app_ne, !lastp_mid, lastp_cons by done. done.
    + by rewrite bool_decide_false, orb_false_r.
Qed.
