(* ===== verification/SchedOps.v ===== *)
(** * The scheduler: specifications of the list transitions

    [sched_repr] relates the linked TCBs of the kernel to an assignment of
    lists of tasks; each function that moves a task from list to list is shown
    to do on the memory what [upd] says of that assignment. *)

From stdpp Require Import sorting.
From S2P Require Import Prelude Queue Sched SchedInv.

Abbreviation lists := (tasklist -> list Z) (only parsing).

Definition upd (l : tasklist) (v : list Z) (L : lists) : lists := fun l' => if decide (l = l') then v else L l'.

(** The state of the tasks of a list other than g_readytorun. *)
Definition list_state (l : tasklist) : tstate :=
  match l with
  | TL_readytorun => TSTATE_TASK_READYTORUN
  | TL_pendingtasks => TSTATE_TASK_PENDING
  | TL_inactivetasks => TSTATE_TASK_INACTIVE
  | TL_waitingforsemaphore => TSTATE_WAIT_SEM
  | TL_waitingforsignal => TSTATE_WAIT_SIG
  | TL_waitingformqnotempty => TSTATE_WAIT_MQNOTEMPTY
  | TL_waitingformqnotfull => TSTATE_WAIT_MQNOTFULL
  end.

Definition prioritized (l : tasklist) : bool := snd (g_tasklisttable (list_state l)).

Record sched_repr (k : kernel) (L : lists) : Prop := SchedRepr {
  sr_list : forall l, dq_repr (k_tcbs k) (get_list l k) (L l);
  sr_disj : forall l l' x, x ∈ L l -> x ∈ L l' -> l = l';
  sr_run : rstates (k_tcbs k) (L TL_readytorun);
  sr_state : forall l x, l <> TL_readytorun -> x ∈ L l -> state_of (k_tcbs k) x = list_state l
}.

Definition unlisted (x : Z) (L : lists) : Prop := forall l, x ∉ L l.

Lemma upd_eq l v L : upd l v L l = v.
Proof. unfold upd. by rewrite decide_True. Qed.

Lemma upd_ne l l' v L : l <> l' -> upd l v L l' = L l'.
Proof. intros. unfold upd. by rewrite decide_False. Qed.

Lemma get_set_list l l' q k : get_list l' (set_list l q k) = if decide (l = l') then q else get_list l' k.
Proof. destruct l, l'; simpl; by repeat case_decide. Qed.

Lemma tcbs_set_list l q k : k_tcbs (set_list l q k) = k_tcbs k.
Proof. done. Qed.

Lemma get_list_tcbs l m k : get_list l (set_tcbs m k) = get_list l k.
Proof. by destruct l. Qed.

Lemma sr_valid k L l x : sched_repr k L -> x ∈ L l -> valid (k_tcbs k) x.
Proof. intros HR. eapply dq_repr_valid, (sr_list _ _ HR). Qed.

Lemma sr_nonnull k L l : sched_repr k L -> NULL ∉ L l.
Proof. intros HR. eapply dqr_nonnull, (sr_list _ _ HR). Qed.

Lemma sr_nodup k L l : sched_repr k L -> NoDup (L l).
Proof. intros HR. eapply dqr_nodup, (sr_list _ _ HR). Qed.

Lemma sr_head k L l : sched_repr k L -> dq_head (get_list l k) = hdp NULL (L l).
Proof. intros HR. eapply dqr_head, (sr_list _ _ HR). Qed.

Lemma sr_head_null k L l : sched_repr k L -> dq_head (get_list l k) = NULL <-> L l = [].
Proof. intros HR. rewrite (sr_head _ _ _ HR). apply hdp_null. by eapply sr_nonnull. Qed.

Lemma state_frame u s (m m' : gmap Z TCB) x : frame u s m m' -> x ∉ s -> state_of m' x = state_of m x.
Proof. intros [A _] Hx. unfold state_of. by rewrite A. Qed.

(** One list is changed, and with it the links and the states of its tasks and
    of one more. *)
Lemma sched_repr_set k L l q m l' x :
  sched_repr k L -> dq_repr m q l' -> frame tbody (x :: L l) (k_tcbs k) m ->
  (forall l2, l2 <> l -> x ∉ L l2) -> (forall y, y ∈ l' -> y = x \/ y ∈ L l) ->
  (l = TL_readytorun -> rstates m l') -> (l <> TL_readytorun -> forall y, y ∈ l' -> state_of m y = list_state l) ->
  sched_repr (set_list l q (set_tcbs m k)) (upd l l' L).
Proof.
  intros HR Hq Hf Hx Hl' Hrun Hst. split.
  - intros l2. rewrite get_set_list, get_list_tcbs, tcbs_set_list. unfold upd. case_decide as E; [by subst|].
    eapply dq_repr_frame; [exact Hf| |apply (sr_list _ _ HR)].
    intros y [->|Hy]%elem_of_cons Hy2; [by apply (Hx l2)|]. apply E. by eapply (sr_disj _ _ HR).
  - intros l1 l2 y. unfold upd. repeat case_decide; subst; try done.
    + intros [->|Hy]%Hl' Hy2; [by destruct (Hx l2)|]. by eapply (sr_disj _ _ HR).
    + intros Hy2 [->|Hy]%Hl'; [by destruct (Hx l1)|]. by eapply (sr_disj _ _ HR).
    + apply (sr_disj _ _ HR).
  - simpl. unfold upd. case_decide as E; [by apply Hrun|]. eapply rstates_ext; [|apply (sr_run _ _ HR)].
    intros y Hy. eapply state_frame; [done|]. intros [->|Hy2]%elem_of_cons; [by apply (Hx TL_readytorun)|].
    apply E. by eapply (sr_disj _ _ HR).
  - intros l2 y Hl2 Hy. simpl. unfold upd in Hy. case_decide as E; [subst; by apply Hst|].
    rewrite (state_frame _ _ _ _ _ Hf); [by apply (sr_state _ _ HR)|].
    intros [->|Hy2]%elem_of_cons; [by apply (Hx l2)|]. apply E. by eapply (sr_disj _ _ HR).
Qed.

(** A field other than the links and the state of one task is changed. *)
Definition keeps_shape (f : TCB -> TCB) : Prop := keeps_links f /\ forall t, task_state (f t) = task_state t.

Lemma sched_repr_data f x k L : keeps_shape f -> sched_repr k L -> sched_repr (set_tcbs (alter f x (k_tcbs k)) k) L.
Proof.
  intros [Hl Hs] HR. assert (forall y, state_of (alter f x (k_tcbs k)) y = state_of (k_tcbs k) y) as Est.
  { intros y. unfold state_of. rewrite lookup_alter. case_decide; [subst|done]. destruct (k_tcbs k !! y); simpl; auto. }
  split.
  - intros l. rewrite get_list_tcbs. apply dq_repr_alter_data; [done|]. apply (sr_list _ _ HR).
  - apply (sr_disj _ _ HR).
  - simpl. eapply rstates_ext; [intros; apply Est|]. apply (sr_run _ _ HR).
  - intros l y ??. simpl. rewrite Est. by apply (sr_state _ _ HR).
Qed.

(** The links and the state of an unlisted task are irrelevant. *)
Lemma sched_repr_unlisted f x k L : unlisted x L -> sched_repr k L -> sched_repr (set_tcbs (alter f x (k_tcbs k)) k) L.
Proof.
  intros Hx HR. assert (forall l y, y ∈ L l -> y <> x) as Hne by (intros l y Hy ->; by apply (Hx l)).
  assert (forall l y, y ∈ L l -> state_of (alter f x (k_tcbs k)) y = state_of (k_tcbs k) y) as Est.
  { intros l y Hy. unfold state_of. rewrite lookup_alter_ne; [done|]. intros ->. by eapply Hne. }
  split.
  - intros l. rewrite get_list_tcbs. destruct (sr_list _ _ HR l). split; try done. apply dseg_alter_ne; [apply Hx|done].
  - apply (sr_disj _ _ HR).
  - simpl. eapply rstates_ext; [intros; by eapply Est|]. apply (sr_run _ _ HR).
  - intros l y ??. simpl. rewrite (Est l) by done. by apply (sr_state _ _ HR).
Qed.

Lemma tbody_frame s m m' : frame tbody s m m' -> tbody <$> m' = tbody <$> m.
Proof. intros [_ B]. apply map_eq. intros i. rewrite !lookup_fmap. apply B. Qed.

Lemma prio_tbody m x : prio (tbody <$> m) x = prio m x.
Proof. unfold prio. rewrite lookup_fmap. by destruct (m !! x). Qed.

Lemma lockc_tbody m x : lockc (tbody <$> m) x = lockc m x.
Proof. unfold lockc. rewrite lookup_fmap. by destruct (m !! x). Qed.

(** ** Adding to and removing from g_readytorun *)

Lemma sr_ready k L : sched_repr k L -> dq_head (g_readytorun k) = hdp NULL (L TL_readytorun).
Proof. apply (sr_head k L TL_readytorun). Qed.

Lemma sr_pending k L : sched_repr k L -> dq_head (g_pendingtasks k) = hdp NULL (L TL_pendingtasks).
Proof. apply (sr_head k L TL_pendingtasks). Qed.

Lemma set_tcbs_set_tcbs m m' k : set_tcbs m (set_tcbs m' k) = set_tcbs m k.
Proof. done. Qed.

Lemma state_here m x s : is_Some (m !! x) -> state_of (alter (set_task_state s) x m) x = s.
Proof. intros H. rewrite state_alter. by rewrite !decide_True. Qed.

Lemma state_there m x y s : x <> y -> state_of (alter (set_task_state s) x m) y = state_of m y.
Proof. intros H. rewrite state_alter. by rewrite decide_False. Qed.

(** Where a task inserted by priority ends up relative to the head. *)
Lemma ins_head pr x h l : hdp NULL (ins pr x (h :: l)) = if pr x <=? pr h then h else x.
Proof. simpl. by destruct (_ <=? _). Qed.

Lemma ins_elem pr x y l : y ∈ ins pr x l <-> y = x \/ y ∈ l.
Proof. rewrite ins_perm. set_solver. Qed.

Definition ready_kernel (x : Z) (k : kernel) (L : lists) : lists :=
  let m := k_tcbs k in
  let h := hdp NULL (L TL_readytorun) in
  if negb (lockc m h =? 0) && (prio m h <? prio m x) then upd TL_pendingtasks (ins (prio m) x (L TL_pendingtasks)) L
  else upd TL_readytorun (ins (prio m) x (L TL_readytorun)) L.

Lemma prio_lookup m x t : m !! x = Some t -> prio m x = sched_priority t.
Proof. intros E. unfold prio. by rewrite E. Qed.

Lemma lockc_lookup m x t : m !! x = Some t -> lockc m x = lockcount t.
Proof. intros E. unfold lockc. by rewrite E. Qed.

Lemma unlisted_head k L x : sched_repr k L -> unlisted x L -> L TL_readytorun <> [] -> x <> hdp NULL (L TL_readytorun).
Proof. intros HR Hx Hne ->. eapply Hx. by apply hdp_elem. Qed.

(** An unlisted task linked into a list other than g_readytorun and marked with
    the state of the list. *)
Lemma repr_link k L l q m' l' x :
  sched_repr k L -> unlisted x L -> valid (k_tcbs k) x -> l <> TL_readytorun ->
  dq_repr m' q l' -> frame dunlink (x :: L l) (k_tcbs k) m' -> (forall y, y ∈ l' <-> y = x \/ y ∈ L l) ->
  sched_repr (set_list l q (set_tcbs (alter (set_task_state (list_state l)) x m') k)) (upd l l' L)
  /\ tbody <$> alter (set_task_state (list_state l)) x m' = tbody <$> k_tcbs k.
Proof.
  intros HR Hx Hv Hl Hq Hf Hl'. pose proof (frame_valid _ _ _ _ _ Hf Hv) as Hv'. split.
  - eapply (sched_repr_set _ _ _ _ _ _ x); [done|..].
    + apply dq_repr_alter_data; [apply keeps_links_state|done].
    + apply frame_state; [left|]. by apply frame_weaken.
    + intros; apply Hx.
    + intros y. by rewrite Hl'.
    + done.
    + intros _ y [->|Hy]%Hl'; [apply state_here, Hv'|].
      rewrite state_there by (intros ->; by eapply Hx). destruct (frame_unlink_fields _ _ _ y Hf) as (_ & _ & ->).
      by apply (sr_state _ _ HR).
  - eapply (tbody_frame (x :: L l)). apply frame_state; [left|]. by apply frame_weaken.
Qed.

Section addready.
  Context (k : kernel) (L : lists) (x h : Z) (R : list Z) (q : dq_queue) (m' : gmap Z TCB).
  Hypothesis HR : sched_repr k L.
  Hypothesis EL : L TL_readytorun = h :: R.
  Hypothesis Hv : valid (k_tcbs k) x.
  Hypothesis Hx : unlisted x L.
  Hypothesis Hf : frame dunlink (x :: h :: R) (k_tcbs k) m'.

#[local] Lemma addready_facts :
  valid m' x /\ valid m' h /\ x <> h /\ x ∉ R /\ h ∉ R /\ state_of m' h = TSTATE_TASK_RUNNING
  /\ Forall (fun y => state_of m' y = TSTATE_TASK_READYTORUN) R.
Proof.
  assert (x ∉ h :: R) as HxL by (rewrite <- EL; apply Hx).
  assert (valid (k_tcbs k) h) as Hvh by (eapply (sr_valid _ _ TL_readytorun); [done|rewrite EL; left]).
  pose proof (sr_nodup _ _ TL_readytorun HR) as Hnd. rewrite EL in Hnd. apply NoDup_cons in Hnd as [HhR _].
  pose proof (sr_run _ _ HR) as Hrun. rewrite EL in Hrun. destruct Hrun as [Hrun1 Hrun2].
  assert (forall y, state_of m' y = state_of (k_tcbs k) y) as Est by (intros y; apply (frame_unlink_fields _ _ _ y Hf)).
  split; [by eapply frame_valid|]. split; [by eapply frame_valid|]. split; [set_solver|]. split; [set_solver|].
  split; [done|]. split; [by rewrite Est|]. eapply Forall_impl; [exact Hrun2|]. intros y. by rewrite Est.
Qed.

(** The task does not become the head: it is marked ready. *)
Lemma addready_behind l' :
  dq_repr m' q (h :: l') -> l' ≡ₚ x :: R ->
  sched_repr (set_list TL_readytorun q (set_tcbs (alter (set_task_state TSTATE_TASK_READYTORUN) x m') k))
    (upd TL_readytorun (h :: l') L)
  /\ tbody <$> alter (set_task_state TSTATE_TASK_READYTORUN) x m' = tbody <$> k_tcbs k.
Proof.
  intros Hq Hl'. destruct addready_facts as (Hv' & Hvh' & Hxh & HxR & HhR & Sh & SR). split.
  - eapply (sched_repr_set _ _ _ _ _ _ x); [done|..]; rewrite ?EL.
    + apply dq_repr_alter_data; [apply keeps_links_state|done].
    + apply frame_state; [left|]. by apply frame_weaken.
    + intros; apply Hx.
    + intros y. rewrite Hl'. set_solver.
    + intros _. split; [by rewrite state_there|]. rewrite Hl'. constructor; [apply state_here, Hv'|].
      rewrite Forall_forall in SR |- *. intros y Hy. rewrite state_there by set_solver. by apply SR.
    + done.
  - eapply (tbody_frame (x :: h :: R)). apply frame_state; [left|]. by apply frame_weaken.
Qed.

(** The task becomes the head: it is marked running and the old head ready. *)
Lemma addready_front :
  dq_repr m' q (x :: h :: R) ->
  let m2 := alter (set_task_state TSTATE_TASK_READYTORUN) h (alter (set_task_state TSTATE_TASK_RUNNING) x m') in
  sched_repr (set_list TL_readytorun q (set_tcbs m2 k)) (upd TL_readytorun (x :: h :: R) L)
  /\ tbody <$> m2 = tbody <$> k_tcbs k.
Proof.
  intros Hq m2. subst m2. destruct addready_facts as (Hv' & Hvh' & Hxh & HxR & HhR & Sh & SR). split.
  - eapply (sched_repr_set _ _ _ _ _ _ x); [done|..]; rewrite ?EL.
    + repeat (apply dq_repr_alter_data; [apply keeps_links_state|]). done.
    + repeat (apply frame_state; [set_solver|]). by apply frame_weaken.
    + intros; apply Hx.
    + set_solver.
    + intros _. split; [|constructor].
      * rewrite state_there by done. apply state_here, Hv'.
      * apply state_here. by apply valid_alter.
      * rewrite Forall_forall in SR |- *. intros y Hy. rewrite !state_there by set_solver. by apply SR.
    + done.
  - eapply (tbody_frame (x :: h :: R)). repeat (apply frame_state; [set_solver|]). by apply frame_weaken.
Qed.

End addready.

Lemma sched_addreadytorun_spec k L x :
  sched_repr k L -> L TL_readytorun <> [] -> valid (k_tcbs k) x -> unlisted x L -> SCHED_PRIORITY_MIN <= prio (k_tcbs k) x ->
  wp (sched_addreadytorun x k) (fun '(b, k') =>
    sched_repr k' (ready_kernel x k L) /\ tbody <$> k_tcbs k' = tbody <$> k_tcbs k
    /\ k_interrupt k' = k_interrupt k
    /\ b = bool_decide (hdp NULL (ready_kernel x k L TL_readytorun) = x)).
Proof.
  intros HR Hne Hv Hx Hp. set (m := k_tcbs k) in *. destruct (L TL_readytorun) as [|h R] eqn:EL; [done|].
  assert (x ∉ h :: R) as HxL by (rewrite <- EL; apply Hx).
  assert (valid m h) as Hvh by (eapply (sr_valid _ _ TL_readytorun); [done|rewrite EL; left]).
  unfold sched_addreadytorun. rewrite (sr_ready _ _ HR), EL. cbn [head default from_option id]. fold m.
  apply wp_bind, wp_deref_valid; [done|]. intros r Er. apply wp_bind, wp_deref_valid; [done|]. intros b Eb. cbn beta.
  rewrite <- (lockc_lookup _ _ _ Er), <- (prio_lookup _ _ _ Er), <- (prio_lookup _ _ _ Eb).
  unfold ready_kernel. rewrite EL. cbn [head default from_option id]. fold m. destruct (_ && _) eqn:Ec.
  - apply wp_bind. change (g_pendingtasks k) with (get_list TL_pendingtasks k).
    eapply wp_mono; [apply sched_addprioritized_spec; [apply (sr_list _ _ HR)|done|apply Hx|done]|].
    intros [b' [q m']] (Hq & Hf & Hb). apply wp_bind, wp_store; [by eapply frame_valid|]. apply wp_ret.
    destruct (repr_link k L TL_pendingtasks q m' _ x HR Hx Hv ltac:(done) Hq Hf (fun y => ins_elem _ x y _)) as [H1 H2].
    split; [exact H1|]. split; [exact H2|]. split; [done|]. rewrite upd_ne, EL by done. symmetry.
    apply bool_decide_false. set_solver.
  - apply wp_bind. change (g_readytorun k) with (get_list TL_readytorun k).
    eapply wp_mono; [apply sched_addprioritized_spec; [apply (sr_list _ _ HR)|done|apply Hx|done]|].
    intros [b' [q m']] (Hq & Hf & ->). fold m in Hq, Hf |- *. rewrite upd_eq, EL, ins_head in *.
    pose proof (frame_valid _ _ _ _ _ Hf Hv) as Hv'. pose proof (frame_valid _ _ _ _ _ Hf Hvh) as Hvh'.
    cbn [ins] in *. destruct (Z.leb_spec (prio m x) (prio m h)) as [Hle|Hlt].
    + rewrite bool_decide_false by set_solver. apply wp_bind, wp_store; [done|]. apply wp_ret.
      destruct (addready_behind k L x h R q m' HR EL Hv Hx Hf _ Hq (ins_perm _ _ _)) as [H1 H2]. done.
    + rewrite bool_decide_true by done.
      assert (lockc m h = 0) as Hlk. { destruct (Z.eqb_spec (lockc m h) 0); [done|]. simpl in Ec. apply Z.ltb_ge in Ec. lia. }
      apply wp_bind, wp_deref_valid; [done|]. intros r' Er'. apply wp_bind.
      pose proof Hq as [_ _ [(xb & Exb & Hfl & _) _] _ _]. cbn [head default from_option id] in Hfl.
      eapply wp_deref; [by eapply valid_ne|done|]. cbn beta. apply wp_bind. change (t_flink xb) with (flink xb). rewrite Hfl.
      apply wp_assert. { rewrite <- (lockc_lookup _ _ _ Er'). destruct (frame_unlink_fields _ _ _ h Hf) as (_ & -> & _).
        rewrite Hlk. apply bool_decide_true. by eapply valid_ne. }
      apply wp_bind, wp_store; [done|]. apply wp_bind, wp_store; [by apply valid_alter|]. apply wp_ret.
      destruct (addready_front k L x h R q m' HR EL Hv Hx Hf Hq) as [H1 H2]. done.
Qed.

(** ** Removing a task *)

(** A task taken out of a list: it is unlisted and its state is invalid. *)
Lemma repr_unlink k L l l1 x l2 q m' :
  sched_repr k L -> L l = l1 ++ x :: l2 -> dq_repr m' q (l1 ++ l2) -> frame tbody (L l) (k_tcbs k) m' ->
  (l = TL_readytorun -> rstates m' (l1 ++ l2)) ->
  (l <> TL_readytorun -> forall y, y ∈ l1 ++ l2 -> state_of m' y = list_state l) ->
  let m2 := alter (set_task_state TSTATE_TASK_INVALID) x m' in
  sched_repr (set_list l q (set_tcbs m2 k)) (upd l (l1 ++ l2) L)
  /\ tbody <$> m2 = tbody <$> k_tcbs k /\ unlisted x (upd l (l1 ++ l2) L) /\ valid m2 x.
Proof.
  intros HR EL Hq Hf Hrun Hst m2. subst m2. assert (x ∈ L l) as Hx by (rewrite EL; set_solver).
  pose proof (sr_nodup _ _ l HR) as Hnd. rewrite EL in Hnd. apply NoDup_app in Hnd as (_ & Hd1 & Hd2).
  apply NoDup_cons in Hd2 as [Hd2 _]. assert (x ∉ l1 ++ l2) as Hx12 by set_solver.
  assert (forall y, y ∈ l1 ++ l2 -> state_of (alter (set_task_state TSTATE_TASK_INVALID) x m') y = state_of m' y) as Hne
    by (intros y Hy; apply state_there; congruence).
  split; [|split; [|split]].
  - eapply (sched_repr_set _ _ _ _ _ _ x); [done|..].
    + apply dq_repr_alter_data; [apply keeps_links_state|done].
    + apply frame_state; [left|]. eapply frame_sub; [|done]. set_solver.
    + intros l3 Hl3 Hx3. apply Hl3. by eapply (sr_disj _ _ HR).
    + rewrite EL. set_solver.
    + intros E. eapply rstates_ext; [exact Hne|]. by apply Hrun.
    + intros E y Hy. rewrite Hne by done. by apply Hst.
  - eapply (tbody_frame (L l)). by apply frame_state.
  - intros l3. unfold upd. case_decide as E; [done|]. intros Hx3. apply E. by eapply (sr_disj _ _ HR).
  - apply valid_alter. destruct (frame_fields _ _ _ x Hf) as (_ & _ & ->). by eapply sr_valid.
Qed.

Lemma sched_removereadytorun_spec k L l1 x l2 :
  sched_repr k L -> L TL_readytorun = l1 ++ x :: l2 -> (l1 = [] -> l2 <> []) ->
  wp (sched_removereadytorun x k) (fun '(b, k') =>
    let L' := upd TL_readytorun (l1 ++ l2) L in
    sched_repr k' L' /\ tbody <$> k_tcbs k' = tbody <$> k_tcbs k /\ k_interrupt k' = k_interrupt k
    /\ unlisted x L' /\ valid (k_tcbs k') x /\ b = bool_decide (l1 = [])).
Proof.
  intros HR EL Hl. set (m := k_tcbs k). pose proof (sr_list _ _ HR TL_readytorun) as Hq. rewrite EL in Hq. fold m in Hq.
  pose proof Hq as [_ _ Hseg Hnd Hn0]. destruct (dseg_lookup _ _ _ _ _ _ Hseg) as (t & Et & Ft & Bt).
  pose proof (sr_run _ _ HR) as Hrun. fold m in Hrun. rewrite EL in Hrun.
  destruct (dq_repr_split m _ l1 (x :: l2) Hq) as (E1 & _ & _ & _).
  unfold sched_removereadytorun. fold m. apply wp_bind. eapply wp_deref; [set_solver|done|]. cbn beta.
  change (t_blink t) with (blink t). change (t_flink t) with (flink t). rewrite Bt, Ft.
  set (m1 := if decide (l1 = []) then alter (set_task_state TSTATE_TASK_RUNNING) (hdp NULL l2) m else m).
  apply wp_bind. eapply (wp_mono _ (fun '(b, m') => b = bool_decide (l1 = []) /\ m' = m1)).
  { destruct (decide (lastp NULL l1 = NULL)) as [E|E].
    - assert (l1 = []) as -> by by apply E1. specialize (Hl eq_refl). subst m1. rewrite decide_True by done.
      pose proof (hdp_elem NULL l2 Hl) as Hh.
      assert (valid m (hdp NULL l2)) as Hv by (eapply dq_repr_valid; [exact Hq|set_solver]).
      apply wp_bind, wp_assert; [apply bool_decide_true; by eapply valid_ne|]. apply wp_bind, wp_store; [done|]. by apply wp_ret.
    - apply wp_ret. assert (l1 <> []) by (intros ->; by apply E). subst m1. rewrite decide_False by done.
      split; [|done]. by rewrite bool_decide_false. }
  intros [b m'] [-> ->].
  assert (dq_repr m1 (get_list TL_readytorun k) (l1 ++ x :: l2)) as Hq1.
  { subst m1. case_decide; [|done]. apply dq_repr_alter_data; [apply keeps_links_state|done]. }
  assert (frame tbody (l1 ++ x :: l2) m m1) as Hf1.
  { subst m1. case_decide as E; [|apply frame_refl]. specialize (Hl E). pose proof (hdp_elem NULL l2 Hl).
    apply frame_state; [set_solver|apply frame_refl]. }
  apply wp_bind. change (g_readytorun k) with (get_list TL_readytorun k).
  eapply wp_mono; [eapply dq_rem_spec; exact Hq1|]. intros [q m2] [Hq2 Hf2].
  pose proof (frame_trans _ _ _ _ _ Hf1 (frame_weaken _ _ _ Hf2)) as Hf12.
  apply wp_bind, wp_store; [eapply frame_valid; [exact Hf12|]; eapply dq_repr_valid; [exact Hq|set_solver]|].
  apply wp_ret. destruct (repr_unlink k L TL_readytorun l1 x l2 q m2) as (H1 & H2 & H3 & H4); try done.
  - by rewrite EL.
  - intros _. eapply rstates_ext; [intros; apply (frame_unlink_fields _ _ _ y Hf2)|]. subst m1.
    destruct l1 as [|a l1]; simpl in *.
    + destruct l2 as [|h l2]; [by specialize (Hl eq_refl)|]. simpl. destruct Hrun as [_ Hrun].
      apply Forall_cons in Hrun as [_ Hrun]. apply NoDup_cons in Hnd as [_ Hnd]. apply NoDup_cons in Hnd as [Hh _].
      assert (valid m h) as [_ Hvh] by (eapply dq_repr_valid; [exact Hq|set_solver]).
      split; [by apply state_here|]. rewrite Forall_forall in Hrun |- *. intros y Hy.
      rewrite state_there by set_solver. by apply Hrun.
    + destruct Hrun as [Hr1 Hr2]. split; [done|]. rewrite Forall_forall in Hr2 |- *. intros y Hy. apply Hr2. set_solver.
Qed.

Lemma sched_removeblocked_spec k L l l1 x l2 :
  sched_repr k L -> L l = l1 ++ x :: l2 -> blocked_state (list_state l) = true ->
  wp (sched_removeblocked x k) (fun k' =>
    let L' := upd l (l1 ++ l2) L in
    sched_repr k' L' /\ tbody <$> k_tcbs k' = tbody <$> k_tcbs k /\ k_interrupt k' = k_interrupt k
    /\ unlisted x L' /\ valid (k_tcbs k') x).
Proof.
  intros HR EL Hb. assert (l <> TL_readytorun) as Hl by (intros ->; done). assert (x ∈ L l) as Hx by (rewrite EL; set_solver).
  unfold sched_removeblocked. apply wp_bind, wp_deref_valid; [by eapply sr_valid|]. intros t Et. cbn beta.
  pose proof (sr_state _ _ HR _ _ Hl Hx) as Es. unfold state_of in Es. rewrite Et in Es. simpl in Es. rewrite Es.
  apply wp_bind, wp_assert; [done|].
  assert (g_tasklisttable (list_state l) = (Some l, prioritized l)) as -> by (destruct l; done).
  apply wp_bind. pose proof (sr_list _ _ HR l) as Hq. rewrite EL in Hq.
  eapply wp_mono; [eapply dq_rem_spec; exact Hq|]. intros [q m2] [Hq2 Hf2].
  apply wp_bind, wp_store; [eapply frame_valid; [exact Hf2|by eapply sr_valid]|].
  apply wp_ret. destruct (repr_unlink k L l l1 x l2 q m2) as (H1 & H2 & H3 & H4); try done.
  - rewrite EL. by apply frame_weaken.
  - intros _ y Hy. destruct (frame_unlink_fields _ _ _ y Hf2) as (_ & _ & ->). apply (sr_state _ _ HR); [done|].
    rewrite EL. set_solver.
Qed.

(** ** Adding a task to a list of blocked tasks *)

Definition enqueue (pr : Z -> Z) (l : tasklist) (x : Z) (v : list Z) : list Z :=
  if prioritized l then ins pr x v else v ++ [x].

Lemma enqueue_perm pr l x v : enqueue pr l x v ≡ₚ x :: v.
Proof. unfold enqueue. case_match; [apply ins_perm|]. apply Permutation_app_comm. Qed.

Lemma sched_addblocked_spec k L l x :
  sched_repr k L -> valid (k_tcbs k) x -> unlisted x L -> SCHED_PRIORITY_MIN <= prio (k_tcbs k) x ->
  blocked_state (list_state l) = true ->
  wp (sched_addblocked x (list_state l) k) (fun k' =>
    sched_repr k' (upd l (enqueue (prio (k_tcbs k)) l x (L l)) L)
    /\ tbody <$> k_tcbs k' = tbody <$> k_tcbs k /\ k_interrupt k' = k_interrupt k).
Proof.
  intros HR Hv Hx Hp Hb. assert (l <> TL_readytorun) as Hl by (intros ->; done).
  unfold sched_addblocked. apply wp_bind, wp_assert; [done|].
  assert (g_tasklisttable (list_state l) = (Some l, prioritized l)) as -> by (destruct l; done).
  pose proof (enqueue_perm (prio (k_tcbs k)) l x (L l)) as Hperm.
  assert (forall y, y ∈ enqueue (prio (k_tcbs k)) l x (L l) <-> y = x \/ y ∈ L l) as Hel by (intros y; rewrite Hperm; set_solver).
  revert Hel. unfold enqueue. destruct (prioritized l) eqn:Epl; intros Hel; apply wp_bind.
  - eapply wp_mono; [apply sched_addprioritized_spec; [apply (sr_list _ _ HR)|done|apply Hx|done]|].
    intros [b' [q m']] (Hq & Hf & Hb'). apply wp_bind, wp_store; [by eapply frame_valid|]. apply wp_ret.
    destruct (repr_link k L l q m' _ x HR Hx Hv Hl Hq Hf Hel) as [H1 H2]. done.
  - eapply wp_mono; [eapply dq_addlast_spec; [apply (sr_list _ _ HR)|done|apply Hx]|].
    intros [q m'] (Hq & Hf). apply wp_bind, wp_store; [by eapply frame_valid|]. apply wp_ret.
    destruct (repr_link k L l q m' _ x HR Hx Hv Hl Hq Hf Hel) as [H1 H2]. done.
Qed.

(** ** Merging *)

Definition merge_lists (pr : Z -> Z) (L : lists) : lists :=
  upd TL_pendingtasks [] (upd TL_readytorun (merged pr (L TL_readytorun) (L TL_pendingtasks)) L).

Lemma sched_mergepending_spec k L :
  sched_repr k L -> L TL_readytorun <> [] -> sorted (prio (k_tcbs k)) (L TL_pendingtasks) ->
  (forall p, p ∈ L TL_pendingtasks -> prio (k_tcbs k) (lastp NULL (L TL_readytorun)) < prio (k_tcbs k) p) ->
  wp (sched_mergepending k) (fun '(b, k') =>
    sched_repr k' (merge_lists (prio (k_tcbs k)) L) /\ tbody <$> k_tcbs k' = tbody <$> k_tcbs k
    /\ k_interrupt k' = k_interrupt k
    /\ b = bool_decide (hdp NULL (merge_lists (prio (k_tcbs k)) L TL_readytorun) ∈ L TL_pendingtasks)).
Proof.
  intros HR Hne Hs Hlast. set (m := k_tcbs k) in *. pose proof (sr_list _ _ HR TL_readytorun) as Hq.
  pose proof (sr_list _ _ HR TL_pendingtasks) as Hp. fold m in Hq, Hp.
  unfold sched_mergepending. rewrite (sr_ready _ _ HR), (sr_pending _ _ HR). apply wp_bind.
  eapply wp_mono; [apply (merge_loop_ok _ (g_readytorun k) m [] (L TL_readytorun) NULL (L TL_pendingtasks) false)|].
  - split; try done; try apply Hp; [|set_solver|apply (sr_run _ _ HR)].
    intros x Hx1 Hx2. by pose proof (sr_disj _ _ HR _ _ _ Hx1 Hx2).
  - pose proof (dq_length _ _ _ Hp). unfold list_fuel. fold m. lia.
  - intros [b [q m']] (Hq' & Hf & Hst & Hb). cbn [app] in *. apply wp_ret.
    set (R := merged (prio m) (L TL_readytorun) (L TL_pendingtasks)) in *.
    assert (forall l y, l <> TL_readytorun -> l <> TL_pendingtasks -> y ∈ L l -> m' !! y = m !! y) as Hout.
    { intros l y H1 H2 Hy. apply Hf. intros [Hy'|Hy']%elem_of_app; [apply H1|apply H2]; by eapply (sr_disj _ _ HR). }
    assert (forall y, y ∈ R -> y ∈ L TL_pendingtasks \/ y ∈ L TL_readytorun) as HRel.
    { intros y. unfold R. rewrite merged_perm. set_solver. }
    assert (forall l, merge_lists (prio m) L l = match l with TL_readytorun => R | TL_pendingtasks => [] | _ => L l end) as EL.
    { intros []; done. }
    split; [|split; [by eapply tbody_frame|split; [done|]]].
    + split.
      * intros l. rewrite EL, !get_set_list, get_list_tcbs. simpl.
        destruct l; try (eapply dq_repr_frame; [exact Hf| |apply (sr_list _ _ HR)];
          intros x [Hx|Hx]%elem_of_app Hx'; by pose proof (sr_disj _ _ HR _ _ _ Hx Hx')).
        -- done.
        -- apply dq_repr_nil.
      * intros l l' x. rewrite !EL. intros Hx Hx'.
        destruct l; try done; destruct l'; try done; exfalso;
          try (apply HRel in Hx as [Hx|Hx]; by pose proof (sr_disj _ _ HR _ _ _ Hx Hx'));
          try (apply HRel in Hx' as [Hx'|Hx']; by pose proof (sr_disj _ _ HR _ _ _ Hx Hx'));
          try (by pose proof (sr_disj _ _ HR _ _ _ Hx Hx')); set_solver.
      * rewrite EL. done.
      * intros l x Hl. rewrite EL. simpl. intros Hx. unfold state_of.
        destruct l; try done; try (by apply not_elem_of_nil in Hx); (rewrite (Hout _ _ ltac:(done) ltac:(done) Hx);
          apply (sr_state _ _ HR _ x ltac:(done) Hx)).
    + rewrite Hb, EL. done.
Qed.
