(* ===== verification/SchedSpec.v ===== *)
(** * The scheduler: abstract specification and refinement

    The abstract scheduler keeps lists of tasks and the data of each task, and
    has one operation per kernel call.  Its invariant says that the task at the
    head of g_readytorun is the one that must run; the refinement theorem says
    that the linked-list code behaves as the abstract scheduler on every
    sequence of calls, without a null or wild pointer, a failed assertion, a
    panic or an endless search. *)

From stdpp Require Import sorting.
From S2P Require Import Prelude Queue Sched SchedInv SchedOps.

(** ** The abstract scheduler *)

Record asched : Type := ASched {
  as_tasks : gmap Z TCB;
  as_lists : tasklist -> list Z;
  as_int : bool
}.

Definition apr (a : asched) : Z -> Z := prio (as_tasks a).
Definition alk (a : asched) : Z -> Z := lockc (as_tasks a).

(** The running task. *)
Definition arun (a : asched) : Z := hdp NULL (as_lists a TL_readytorun).

Definition a_set (f : TCB -> TCB) (x : Z) (a : asched) : asched :=
  ASched (alter f x (as_tasks a)) (as_lists a) (as_int a).
Definition a_upd (l : tasklist) (v : list Z) (a : asched) : asched :=
  ASched (as_tasks a) (upd l v (as_lists a)) (as_int a).

(** Take a task out of whatever list it is in. *)
Definition a_drop (x : Z) (a : asched) : asched :=
  ASched (as_tasks a) (fun l => list_rem x (as_lists a l)) (as_int a).

(** A task becomes ready: it waits in g_pendingtasks when it ought to preempt
    a task that has locked the scheduler. *)
Definition a_enter (x : Z) (a : asched) : asched :=
  if negb (alk a (arun a) =? 0) && (apr a (arun a) <? apr a x) then
    a_upd TL_pendingtasks (ins (apr a) x (as_lists a TL_pendingtasks)) a
  else a_upd TL_readytorun (ins (apr a) x (as_lists a TL_readytorun)) a.

Definition a_merge (a : asched) : asched := ASched (as_tasks a) (merge_lists (apr a) (as_lists a)) (as_int a).

Definition a_block (l : tasklist) (a : asched) : asched :=
  let x := arun a in
  let a' := a_drop x a in
  a_merge (a_upd l (enqueue (apr a') l x (as_lists a' l)) a').

Definition a_unblock `{SchedConfig} (x : Z) (a : asched) : asched :=
  a_enter x (a_set (set_timeslice RR_TICKS) x (a_drop x a)).

Definition a_reprio (x p : Z) (a : asched) : asched :=
  let a' := a_enter x (a_set (set_sched_priority p) x (a_drop x a)) in
  if decide (arun a' = arun a) then a' else a_merge a'.

Definition a_next (a : asched) : Z := hdp NULL (tail (as_lists a TL_readytorun)).

Definition in_list (x : Z) (l : tasklist) (a : asched) : bool := bool_decide (x ∈ as_lists a l).

Definition all_lists : list tasklist :=
  [TL_readytorun; TL_pendingtasks; TL_inactivetasks; TL_waitingforsemaphore; TL_waitingforsignal;
   TL_waitingformqnotempty; TL_waitingformqnotfull].

Definition list_of (x : Z) (a : asched) : option tasklist := head (filter (fun l => x ∈ as_lists a l) all_lists).

Definition a_setprio (x p : Z) (a : asched) : option asched :=
  match list_of x a with
  | None => None
  | Some TL_readytorun =>
      Some (if decide (x = arun a /\ apr a (a_next a) < p) then a_set (set_sched_priority p) x a else a_reprio x p a)
  | Some l =>
      let a' := a_set (set_sched_priority p) x a in
      Some (if prioritized l then a_upd l (ins (apr a') x (list_rem x (as_lists a l))) a' else a')
  end.

Definition a_lock (a : asched) : asched := a_set (set_lockcount (alk a (arun a) + 1)) (arun a) a.

Definition a_unlock (a : asched) : asched :=
  let c := Z.max 0 (alk a (arun a) - 1) in
  let a' := a_set (set_lockcount c) (arun a) a in
  if c =? 0 then a_merge a' else a'.

Definition a_flags (a : asched) (x : Z) : Z := from_option t_flags 0 (as_tasks a !! x).
Definition a_slice (a : asched) (x : Z) : Z := from_option timeslice 0 (as_tasks a !! x).

(** The clock tick: a round-robin task whose slice ends goes behind the ready
    tasks of its priority. *)
Definition a_tick `{SchedConfig} (a : asched) : asched :=
  let x := arun a in
  if Z.land (a_flags a x) TCB_FLAG_ROUND_ROBIN =? 0 then a
  else if 1 <? a_slice a x then a_set (set_timeslice (a_slice a x - 1)) x a
  else if negb (alk a x =? 0) then a
  else
    let a' := a_set (set_timeslice RR_TICKS) x a in
    if decide (a_next a <> NULL /\ apr a x <= apr a (a_next a)) then a_reprio x (apr a x) a' else a'.

(** ** Kernel calls *)

Inductive kcall : Type :=
| KBlock (l : tasklist)
| KUnblock (x : Z)
| KLock
| KUnlock
| KSetPriority (x p : Z)
| KYield
| KTick.

(** The outcome: an errno, or whether contexts were switched. *)
Definition kexec `{SchedConfig} (c : kcall) (k : kernel) : res ((Z + bool) * kernel) :=
  match c with
  | KBlock l => '(b, k) ← up_block_task (sched_self k) (list_state l) k; Ok (inr b, k)
  | KUnblock x => '(b, k) ← up_unblock_task x k; Ok (inr b, k)
  | KLock => k ← sched_lock k; Ok (inr false, k)
  | KUnlock => '(b, k) ← sched_unlock k; Ok (inr b, k)
  | KSetPriority x p => sched_setpriority x p k
  | KYield => sched_yield k
  | KTick => '(b, k) ← sched_process_timeslice k; Ok (inr b, k)
  end.

Definition prio_ok (p : Z) : bool := (SCHED_PRIORITY_MIN <=? p) && (p <=? SCHED_PRIORITY_MAX).

(** The abstract step; [None] when the caller breaks the contract of the call:
    the idle task neither blocks nor changes its priority, a task is unblocked
    only when it is blocked, and the lock counter is not driven over its
    maximum. *)
Definition astep `{SchedConfig} (idle : Z) (c : kcall) (a : asched) : option asched :=
  match c with
  | KBlock l =>
      if blocked_state (list_state l) && bool_decide (arun a <> idle) then Some (a_block l a) else None
  | KUnblock x =>
      match list_of x a with
      | Some l => if blocked_state (list_state l) then Some (a_unblock x a) else None
      | None => None
      end
  | KLock => if as_int a then Some a else if alk a (arun a) <? MAX_LOCK_COUNT then Some (a_lock a) else None
  | KUnlock => if as_int a then Some a else Some (a_unlock a)
  | KSetPriority x p =>
      if negb (prio_ok p) then Some a else if decide (x = idle) then None else a_setprio x p a
  | KYield => let p := apr a (arun a) in if negb (prio_ok p) then Some a else a_setprio (arun a) p a
  | KTick => Some (a_tick a)
  end.

Definition kerror (a : asched) (c : kcall) : option Z :=
  match c with
  | KSetPriority _ p => if prio_ok p then None else Some EINVAL
  | KYield => if prio_ok (apr a (arun a)) then None else Some EINVAL
  | _ => None
  end.

Fixpoint krun `{SchedConfig} (cs : list kcall) (k : kernel) : res (list (Z + bool) * kernel) :=
  match cs with
  | [] => Ok ([], k)
  | c :: cs =>
      '(r, k) ← kexec c k;
      '(rs, k) ← krun cs k;
      Ok (r :: rs, k)
  end.

Fixpoint asteps `{SchedConfig} (idle : Z) (cs : list kcall) (a : asched) : option asched :=
  match cs with
  | [] => Some a
  | c :: cs => a ← astep idle c a; asteps idle cs a
  end.

(** ** The refinement relation *)

Definition refines (k : kernel) (a : asched) : Prop :=
  sched_repr k (as_lists a) /\ tbody <$> k_tcbs k = as_tasks a /\ k_interrupt k = as_int a.

Lemma sched_repr_ext k L L' : (forall l, L' l = L l) -> sched_repr k L -> sched_repr k L'.
Proof.
  intros E [A B C D]. split.
  - intros l. rewrite E. apply A.
  - intros l l' x. rewrite !E. apply B.
  - by rewrite E.
  - intros l x Hl. rewrite E. by apply D.
Qed.

Section rel.
  Context (k : kernel) (a : asched).
  Hypothesis Hr : refines k a.

Lemma ref_prio x : prio (k_tcbs k) x = apr a x.
Proof. destruct Hr as (_ & E & _). unfold apr. by rewrite <- E, prio_tbody. Qed.

Lemma ref_lockc x : lockc (k_tcbs k) x = alk a x.
Proof. destruct Hr as (_ & E & _). unfold alk. by rewrite <- E, lockc_tbody. Qed.

Lemma ref_valid l x : x ∈ as_lists a l -> valid (k_tcbs k) x.
Proof. destruct Hr as (H & _ & _). by eapply sr_valid. Qed.

Lemma ref_run : dq_head (g_readytorun k) = arun a.
Proof. destruct Hr as (H & _ & _). by apply sr_ready. Qed.

Lemma ref_pending : dq_head (g_pendingtasks k) = NULL <-> as_lists a TL_pendingtasks = [].
Proof. destruct Hr as (H & _ & _). apply (sr_head_null _ _ TL_pendingtasks H). Qed.

Lemma ref_data f x :
  keeps_shape f -> (forall t, tbody (f t) = f (tbody t)) -> refines (set_tcbs (alter f x (k_tcbs k)) k) (a_set f x a).
Proof.
  intros Hf Hb. destruct Hr as (H & E & I). split; [by apply sched_repr_data|]. split; [|done].
  simpl. rewrite <- E. apply map_eq. intros i. rewrite lookup_fmap, !lookup_alter, !lookup_fmap. case_decide; [|done].
  destruct (k_tcbs k !! x) as [t|]; [|done]. cbn. by rewrite Hb.
Qed.

(** A task is in one place of one list. *)
Lemma ref_in x l :
  x ∈ as_lists a l -> exists l1 l2, as_lists a l = l1 ++ x :: l2 /\ x ∉ l1
  /\ list_rem x (as_lists a l) = l1 ++ l2 /\ (forall l', as_lists (a_drop x a) l' = upd l (l1 ++ l2) (as_lists a) l').
Proof.
  intros Hx. destruct Hr as (H & _ & _). destruct (nodup_split x _ (sr_nodup _ _ l H) Hx) as (l1 & l2 & E & Hl1).
  exists l1, l2. split; [done|]. split; [done|]. assert (list_rem x (as_lists a l) = l1 ++ l2) as Er by (by rewrite E, list_rem_split).
  split; [done|]. intros l'. unfold upd. simpl. case_decide as El; [by subst|]. apply list_rem_absent.
  intros Hx'. apply El. by eapply (sr_disj _ _ H).
Qed.

Lemma ref_enter x :
  as_lists a TL_readytorun <> [] -> valid (k_tcbs k) x -> unlisted x (as_lists a) -> SCHED_PRIORITY_MIN <= apr a x ->
  wp (sched_addreadytorun x k) (fun '(b, k') =>
    refines k' (a_enter x a) /\ b = bool_decide (arun (a_enter x a) = x)).
Proof.
  intros Hne Hv Hx Hp. pose proof Hr as (H & E & I). eapply wp_mono; [apply sched_addreadytorun_spec; try done; by rewrite ref_prio|].
  intros [b k'] (H1 & H2 & H3 & H4).
  assert (ready_kernel x k (as_lists a) = as_lists (a_enter x a)) as Ek.
  { unfold ready_kernel, a_enter. cbn zeta. fold (arun a). rewrite ref_lockc, !ref_prio.
    case_match; unfold a_upd; cbn [as_lists]; f_equal; apply ins_ext; intros; apply ref_prio. }
  rewrite Ek in H1, H4. split; [|done]. split; [done|]. rewrite H2, H3, E, I. unfold a_enter. by case_match.
Qed.

Lemma ref_remove x :
  x ∈ as_lists a TL_readytorun -> as_lists a TL_readytorun <> [x] ->
  wp (sched_removereadytorun x k) (fun '(b, k') =>
    refines k' (a_drop x a) /\ unlisted x (as_lists (a_drop x a)) /\ valid (k_tcbs k') x /\ b = bool_decide (arun a = x)).
Proof.
  intros Hx Hne. destruct (ref_in _ _ Hx) as (l1 & l2 & EL & Hl1 & Er & Ed). pose proof Hr as (H & E & I).
  eapply wp_mono; [apply (sched_removereadytorun_spec k (as_lists a) l1 x l2 H EL)|].
  { intros -> ->. done. }
  intros [b k'] (H1 & H2 & H3 & H4 & H5 & H6). split; [|split; [|split; [done|]]].
  - split; [by eapply sched_repr_ext|]. by rewrite H2, H3.
  - intros l. rewrite Ed. apply H4.
  - rewrite H6. apply bool_decide_ext. unfold arun. rewrite EL. destruct l1 as [|y l1]; simpl; [done|]. set_solver.
Qed.

Lemma ref_removeblocked x l :
  x ∈ as_lists a l -> blocked_state (list_state l) = true ->
  wp (sched_removeblocked x k) (fun k' =>
    refines k' (a_drop x a) /\ unlisted x (as_lists (a_drop x a)) /\ valid (k_tcbs k') x).
Proof.
  intros Hx Hb. destruct (ref_in _ _ Hx) as (l1 & l2 & EL & Hl1 & Er & Ed). pose proof Hr as (H & E & I).
  eapply wp_mono; [apply (sched_removeblocked_spec k (as_lists a) l l1 x l2 H EL Hb)|].
  intros k' (H1 & H2 & H3 & H4 & H5). split; [|split; [|done]].
  - split; [by eapply sched_repr_ext|]. by rewrite H2, H3.
  - intros l'. rewrite Ed. apply H4.
Qed.

Lemma ref_addblocked x l :
  valid (k_tcbs k) x -> unlisted x (as_lists a) -> SCHED_PRIORITY_MIN <= apr a x -> blocked_state (list_state l) = true ->
  wp (sched_addblocked x (list_state l) k) (fun k' => refines k' (a_upd l (enqueue (apr a) l x (as_lists a l)) a)).
Proof.
  intros Hv Hx Hp Hb. pose proof Hr as (H & E & I).
  eapply wp_mono; [apply (sched_addblocked_spec k (as_lists a) l x H Hv Hx); [by rewrite ref_prio|done]|].
  intros k' (H1 & H2 & H3). split; [|by rewrite H2, H3]. eapply sched_repr_ext; [|exact H1]. intros l'.
  unfold a_upd. cbn [as_lists]. unfold upd. case_decide; [|done]. unfold enqueue. case_match; [|done].
  apply ins_ext. intros. symmetry. apply ref_prio.
Qed.

Lemma ref_merge :
  as_lists a TL_readytorun <> [] -> sorted (apr a) (as_lists a TL_pendingtasks) ->
  (forall p, p ∈ as_lists a TL_pendingtasks -> apr a (lastp NULL (as_lists a TL_readytorun)) < apr a p) ->
  wp (sched_mergepending k) (fun '(b, k') => refines k' (a_merge a) /\ (b = false -> arun (a_merge a) = arun a)).
Proof.
  intros Hne Hs Hlast. pose proof Hr as (H & E & I).
  eapply wp_mono; [apply (sched_mergepending_spec k (as_lists a) H Hne)|].
  - eapply sorted_ext; [|exact Hs]. intros; apply ref_prio.
  - intros p Hp. rewrite !ref_prio. by apply Hlast.
  - assert (forall l, merge_lists (apr a) (as_lists a) l = merge_lists (prio (k_tcbs k)) (as_lists a) l) as Em.
    { intros l. unfold merge_lists, upd. repeat case_decide; try done. apply merged_ext. intros; symmetry; apply ref_prio. }
    intros [b k'] (H1 & H2 & H3 & H4). split.
    + split; [by eapply sched_repr_ext|]. by rewrite H2, H3.
    + intros ->. symmetry in H4. apply bool_decide_eq_false in H4. unfold arun at 1. simpl. rewrite Em.
      rewrite <- Em in H4 |- *. unfold merge_lists in *. rewrite upd_ne, upd_eq in * by done.
      destruct (as_lists a TL_readytorun) as [|h R] eqn:EL; [done|].
      pose proof (merged_head (apr a) (h :: R) (as_lists a TL_pendingtasks) [h] ltac:(done) ltac:(left)) as Hm.
      apply elem_of_app in Hm as [Hm|Hm]; [|done]. apply list_elem_of_singleton in Hm. rewrite Hm. unfold arun. by rewrite EL.
Qed.

End rel.

(** ** The invariant *)

(** What holds between any two list operations, and the condition on pending
    tasks that holds between calls. *)
Record core_inv (idle : Z) (a : asched) : Prop := CoreInv {
  ci_sorted : forall l, prioritized l = true -> sorted (apr a) (as_lists a l);
  ci_idle : exists R, as_lists a TL_readytorun = R ++ [idle];
  ci_idle_prio : apr a idle = SCHED_PRIORITY_IDLE;
  ci_prio : forall l x, x ∈ as_lists a l -> x <> idle -> SCHED_PRIORITY_MIN <= apr a x <= SCHED_PRIORITY_MAX;
  ci_lock : forall l x, x ∈ as_lists a l -> 0 <= alk a x <= MAX_LOCK_COUNT;
  ci_notidle : forall l, l <> TL_readytorun -> idle ∉ as_lists a l
}.

Definition pend_inv (a : asched) : Prop := as_lists a TL_pendingtasks <> [] -> 0 < alk a (arun a).

Definition sched_inv (idle : Z) (a : asched) : Prop := core_inv idle a /\ pend_inv a.

Lemma list_rem_sub x l : exists l1 l2 l3, l = l1 ++ l2 ++ l3 /\ list_rem x l = l1 ++ l3.
Proof.
  induction l as [|y l (l1 & l2 & l3 & E & IH)]; [by exists [], [], []|]. simpl. case_decide.
  - by exists [], [y], l.
  - exists (y :: l1), l2, l3. rewrite IH. by rewrite E.
Qed.

Lemma list_rem_elem x y l : y ∈ list_rem x l -> y ∈ l.
Proof. destruct (list_rem_sub x l) as (l1 & l2 & l3 & -> & ->). set_solver. Qed.

Lemma list_rem_snoc x l z : x <> z -> list_rem x (l ++ [z]) = list_rem x l ++ [z].
Proof. intros Hx. induction l as [|y l IH]; simpl; [by rewrite decide_False|]. case_decide; [done|]. by rewrite IH. Qed.

Lemma core_ready idle a : core_inv idle a -> as_lists a TL_readytorun <> [].
Proof. intros H. destruct (ci_idle _ _ H) as [R ->]. by destruct R. Qed.

Lemma core_last idle a : core_inv idle a -> lastp NULL (as_lists a TL_readytorun) = idle.
Proof. intros H. destruct (ci_idle _ _ H) as [R ->]. apply lastp_snoc. Qed.

Lemma core_run idle a : core_inv idle a -> arun a ∈ as_lists a TL_readytorun.
Proof. intros H. apply hdp_elem. by eapply core_ready. Qed.

Section core.
  Context (idle : Z) (a : asched).
  Hypothesis HI : core_inv idle a.

Lemma core_drop x : x <> idle -> core_inv idle (a_drop x a).
Proof.
  intros Hx. split; simpl.
  - intros l Hl. pose proof (ci_sorted _ _ HI l Hl) as Hs.
    destruct (list_rem_sub x (as_lists a l)) as (l1 & l2 & l3 & E & Er). rewrite E in Hs. rewrite Er. by eapply sorted_sublist.
  - destruct (ci_idle _ _ HI) as [R ->]. exists (list_rem x R). by apply list_rem_snoc.
  - apply (ci_idle_prio _ _ HI).
  - intros l y Hy%list_rem_elem. by apply (ci_prio _ _ HI l).
  - intros l y Hy%list_rem_elem. by apply (ci_lock _ _ HI l).
  - intros l Hl Hy%list_rem_elem. by apply (ci_notidle _ _ HI l).
Qed.

(** A change to the data of an unlisted task, or one that keeps priorities and
    lock counts in range and in order. *)
Lemma core_set f x :
  x <> idle -> unlisted x (as_lists a) -> core_inv idle (a_set f x a).
Proof.
  intros Hi Hx. assert (forall l y, y ∈ as_lists a l -> apr (a_set f x a) y = apr a y /\ alk (a_set f x a) y = alk a y) as E.
  { intros l y Hy. unfold apr, alk, prio, lockc. simpl. rewrite lookup_alter_ne; [done|]. intros ->. by apply (Hx l). }
  split; simpl.
  - intros l Hl. eapply sorted_ext; [|by apply (ci_sorted _ _ HI)]. intros y Hy. by apply (E l).
  - apply (ci_idle _ _ HI).
  - rewrite <- (ci_idle_prio _ _ HI). unfold apr, prio. simpl. by rewrite lookup_alter_ne.
  - intros l y Hy. destruct (E l y Hy) as [-> _]. by apply (ci_prio _ _ HI l).
  - intros l y Hy. destruct (E l y Hy) as [_ ->]. by apply (ci_lock _ _ HI l).
  - apply (ci_notidle _ _ HI).
Qed.

Lemma core_insert l x v :
  (forall y, y ∈ v <-> y = x \/ y ∈ as_lists a l) -> (prioritized l = true -> sorted (apr a) v) -> x <> idle ->
  (l = TL_readytorun -> exists R, v = R ++ [idle]) ->
  SCHED_PRIORITY_MIN <= apr a x <= SCHED_PRIORITY_MAX -> 0 <= alk a x <= MAX_LOCK_COUNT ->
  core_inv idle (a_upd l v a).
Proof.
  intros Hv Hs Hi Hl Hp Hc. split; simpl.
  - intros l' Hl'. unfold upd. case_decide; [subst; by apply Hs|]. by apply (ci_sorted _ _ HI).
  - unfold upd. case_decide; [by apply Hl|]. apply (ci_idle _ _ HI).
  - apply (ci_idle_prio _ _ HI).
  - intros l' y. unfold upd. case_decide; [intros [->|Hy]%Hv|]; [done|by apply (ci_prio _ _ HI l)|apply (ci_prio _ _ HI)].
  - intros l' y. unfold upd. case_decide; [intros [->|Hy]%Hv|]; [done|by apply (ci_lock _ _ HI l)|apply (ci_lock _ _ HI)].
  - intros l' Hl'. unfold upd. case_decide; [subst|by apply (ci_notidle _ _ HI)]. intros [->|Hy]%Hv; [done|].
    by apply (ci_notidle _ _ HI l').
Qed.

Lemma core_enter x :
  x <> idle -> SCHED_PRIORITY_MIN <= apr a x <= SCHED_PRIORITY_MAX -> 0 <= alk a x <= MAX_LOCK_COUNT ->
  core_inv idle (a_enter x a).
Proof.
  intros Hi Hp Hc. unfold a_enter. case_match.
  - apply (core_insert _ x); try done; [intros; apply ins_elem|]. intros. apply ins_sorted. by apply (ci_sorted _ _ HI).
  - apply (core_insert _ x); try done; [intros; apply ins_elem| |].
    + intros. apply ins_sorted. by apply (ci_sorted _ _ HI).
    + intros _. destruct (ci_idle _ _ HI) as [R ->]. exists (ins (apr a) x R). apply ins_snoc.
      rewrite (ci_idle_prio _ _ HI). unfold SCHED_PRIORITY_MIN, SCHED_PRIORITY_IDLE in *. lia.
Qed.

Lemma core_enqueue l x :
  l <> TL_readytorun -> x <> idle -> SCHED_PRIORITY_MIN <= apr a x <= SCHED_PRIORITY_MAX -> 0 <= alk a x <= MAX_LOCK_COUNT ->
  core_inv idle (a_upd l (enqueue (apr a) l x (as_lists a l)) a).
Proof.
  intros Hl Hi Hp Hc. apply (core_insert _ x); try done.
  - intros y. rewrite enqueue_perm. set_solver.
  - unfold enqueue. intros E. rewrite E. apply ins_sorted. by apply (ci_sorted _ _ HI).
Qed.

Lemma core_merge : core_inv idle (a_merge a).
Proof.
  pose proof (ci_idle _ _ HI) as [R ER].
  assert (forall l, as_lists (a_merge a) l =
    match l with TL_readytorun => merged (apr a) (as_lists a l) (as_lists a TL_pendingtasks) | TL_pendingtasks => [] | _ => as_lists a l end) as EL
    by (intros []; done).
  assert (forall l y, y ∈ as_lists (a_merge a) l -> y ∈ as_lists a l \/ (l = TL_readytorun /\ y ∈ as_lists a TL_pendingtasks)) as Hel.
  { intros l y. rewrite EL. destruct l; auto; [rewrite merged_perm|]; set_solver. }
  split.
  - intros l Hl. rewrite EL. destruct l; try (by apply (ci_sorted _ _ HI)); [|constructor].
    apply merged_sorted. by apply (ci_sorted _ _ HI).
  - rewrite EL, ER. exists (merged (apr a) R (as_lists a TL_pendingtasks)). apply merged_snoc. apply Forall_forall.
    intros y Hy. rewrite (ci_idle_prio _ _ HI). destruct (ci_prio _ _ HI _ _ Hy) as [Hp _].
    + intros ->. by eapply (ci_notidle _ _ HI TL_pendingtasks).
    + unfold SCHED_PRIORITY_MIN, SCHED_PRIORITY_IDLE in *. lia.
  - apply (ci_idle_prio _ _ HI).
  - intros l y [Hy|[_ Hy]]%Hel; by apply (ci_prio _ _ HI _ _ Hy).
  - intros l y [Hy|[_ Hy]]%Hel; by apply (ci_lock _ _ HI _ _ Hy).
  - intros l Hl [Hy|[? _]]%Hel; [|done]. by apply (ci_notidle _ _ HI l).
Qed.

Lemma core_pending p : p ∈ as_lists a TL_pendingtasks -> apr a (lastp NULL (as_lists a TL_readytorun)) < apr a p.
Proof.
  intros Hp. rewrite (core_last idle a HI), (ci_idle_prio _ _ HI). destruct (ci_prio _ _ HI _ _ Hp) as [H _].
  - intros ->. by eapply (ci_notidle _ _ HI TL_pendingtasks).
  - unfold SCHED_PRIORITY_MIN, SCHED_PRIORITY_IDLE in *. lia.
Qed.

End core.

Lemma pend_merge a : pend_inv (a_merge a).
Proof. intros H. by destruct H. Qed.

(** Merging as a step of a call. *)
Lemma merge_step_ok k a idle :
  refines k a -> core_inv idle a ->
  wp (sched_mergepending k) (fun '(b, k') =>
    refines k' (a_merge a) /\ sched_inv idle (a_merge a) /\ (b = false -> arun (a_merge a) = arun a)).
Proof.
  intros Hr HI. eapply wp_mono; [apply (ref_merge k a Hr)|].
  - by eapply core_ready.
  - by apply (ci_sorted _ _ HI).
  - by apply (core_pending idle).
  - intros [b k'] [H1 H2]. split; [done|]. split; [|done]. split; [by apply core_merge|apply pend_merge].
Qed.

Lemma refines_lists_ext k a a' :
  as_tasks a' = as_tasks a -> as_int a' = as_int a -> (forall l, as_lists a' l = as_lists a l) -> refines k a -> refines k a'.
Proof. intros E1 E2 E3 (H1 & H2 & H3). split; [by eapply sched_repr_ext|]. by rewrite E1, E2. Qed.

(** With no pending task merging does nothing. *)
Lemma merge_none_ok k a idle :
  refines k a -> core_inv idle a -> dq_head (g_pendingtasks k) = NULL ->
  refines k (a_merge a) /\ sched_inv idle (a_merge a) /\ arun (a_merge a) = arun a.
Proof.
  intros Hr HI Hp. apply (ref_pending k a Hr) in Hp. split; [|split; [split; [by apply core_merge|apply pend_merge]|]].
  - eapply refines_lists_ext; [..|exact Hr]; [done|done|]. intros l. unfold a_merge, merge_lists. simpl. rewrite Hp.
    unfold upd. repeat case_decide; subst; done.
  - unfold arun, a_merge, merge_lists. simpl. by rewrite upd_ne, upd_eq, Hp.
Qed.

(** ** The context-switching calls *)

Lemma ref_state_ready k a x : refines k a -> x ∈ as_lists a TL_readytorun ->
  state_of (k_tcbs k) x = if decide (x = arun a) then TSTATE_TASK_RUNNING else TSTATE_TASK_READYTORUN.
Proof.
  intros (HR & _ & _) Hx. pose proof (sr_run _ _ HR) as Hs. pose proof (sr_nodup _ _ TL_readytorun HR) as Hd.
  unfold arun. destruct (as_lists a TL_readytorun) as [|h R]; [set_solver|]. destruct Hs as [H1 H2]. simpl.
  apply NoDup_cons in Hd as [Hh _]. rewrite Forall_forall in H2. apply elem_of_cons in Hx as [->|Hx].
  - by rewrite decide_True.
  - rewrite decide_False; [by apply H2|]. by intros ->.
Qed.

Lemma state_lookup m x t : m !! x = Some t -> state_of m x = task_state t.
Proof. intros E. unfold state_of. by rewrite E. Qed.

Lemma ready_not_single idle a x : core_inv idle a -> x <> idle -> as_lists a TL_readytorun <> [x].
Proof. intros HI Hx E. pose proof (core_last _ _ HI) as Hl. rewrite E in Hl. simpl in Hl. congruence. Qed.

Lemma a_drop_data x a : apr (a_drop x a) = apr a /\ alk (a_drop x a) = alk a.
Proof. done. Qed.

Lemma up_block_task_ok k a idle l :
  refines k a -> sched_inv idle a -> arun a <> idle -> blocked_state (list_state l) = true ->
  wp (up_block_task (arun a) (list_state l) k) (fun '(b, k') =>
    refines k' (a_block l a) /\ sched_inv idle (a_block l a) /\ b = true).
Proof.
  intros Hr [HI HP] Hi Hb. pose proof (core_run _ _ HI) as Hx. set (x := arun a) in *.
  unfold up_block_task. apply wp_bind, wp_deref_valid; [by eapply ref_valid|]. intros t Et. cbn beta.
  rewrite <- (state_lookup _ _ _ Et), (ref_state_ready _ _ _ Hr Hx), decide_True by done. cbn [negb ready_state tstate_num].
  apply wp_bind. eapply wp_mono; [apply (ref_remove k a Hr x Hx); by eapply ready_not_single|].
  intros [b k1] (Hr1 & Hu & Hv & ->). rewrite bool_decide_true by done.
  pose proof (core_drop _ _ HI x Hi) as HI1. set (a1 := a_drop x a) in *.
  destruct (ci_prio _ _ HI _ _ Hx Hi) as [Hp1 Hp2]. pose proof (ci_lock _ _ HI _ _ Hx) as Hlk.
  apply wp_bind. eapply wp_mono; [apply (ref_addblocked k1 a1 Hr1 x l); try done|]. intros k2 Hr2.
  assert (l <> TL_readytorun) as Hl by (intros ->; done).
  pose proof (core_enqueue idle a1 HI1 l x Hl Hi (conj Hp1 Hp2) Hlk) as HI2. cbv beta.
  destruct (decide (dq_head (g_pendingtasks k2) = NULL)) as [Hpn|Hpn].
  - apply wp_ret. destruct (merge_none_ok _ _ _ Hr2 HI2 Hpn) as (H1 & H2 & _). done.
  - apply wp_bind. eapply wp_mono; [apply (merge_step_ok _ _ _ Hr2 HI2)|]. intros [b k3] (H1 & H2 & _). by apply wp_ret.
Qed.

Lemma keeps_timeslice c : keeps_shape (set_timeslice c).
Proof. by repeat split. Qed.
Lemma keeps_priority c : keeps_shape (set_sched_priority c).
Proof. by repeat split. Qed.
Lemma keeps_lockcount c : keeps_shape (set_lockcount c).
Proof. by repeat split. Qed.

(** The condition on pending tasks when a task became ready and the running
    task is still the one of [a0], and when it entered beside the running task. *)
Lemma pend_enter_same x a0 a :
  0 <= alk a (arun a) -> as_lists a TL_pendingtasks = as_lists a0 TL_pendingtasks -> (forall y, alk a y = alk a0 y) ->
  pend_inv a0 -> arun (a_enter x a) = arun a0 -> pend_inv (a_enter x a).
Proof.
  intros H0 Hpe Hlk HP Hrun Hp. rewrite Hrun. revert Hrun Hp. unfold a_enter. destruct (_ && _) eqn:Ec; intros Hrun Hp.
  - apply andb_true_iff in Ec as [Ec _]. apply negb_true_iff, Z.eqb_neq in Ec.
    change (arun a = arun a0) in Hrun. rewrite <- Hrun. change (0 < alk a (arun a)). lia.
  - change (0 < alk a (arun a0)). rewrite Hlk. apply HP. rewrite <- Hpe. done.
Qed.

Lemma pend_enter x a :
  0 <= alk a (arun a) -> as_lists a TL_readytorun <> [] -> pend_inv a -> pend_inv (a_enter x a).
Proof.
  intros H0 Hne HP. destruct (decide (arun (a_enter x a) = arun a)) as [E|E]; [by eapply (pend_enter_same x a a)|].
  intros Hp. exfalso. revert E Hp. unfold a_enter. destruct (_ && _) eqn:Ec; [done|].
  unfold arun at 1. simpl. rewrite upd_eq, upd_ne by done. intros E Hp. specialize (HP Hp). revert E.
  unfold arun in *. destruct (as_lists a TL_readytorun) as [|h R] eqn:EL; [done|]. rewrite ins_head. simpl in *.
  destruct (Z.leb_spec (apr a x) (apr a h)); [done|]. intros _.
  destruct (Z.eqb_spec (alk a h) 0); [lia|]. simpl in Ec. apply Z.ltb_ge in Ec. lia.
Qed.

Lemma alk_set f x a y : (forall t, lockcount (f t) = lockcount t) -> alk (a_set f x a) y = alk a y.
Proof.
  intros Hf. unfold alk, lockc. simpl. rewrite lookup_alter. case_decide; [subst|done].
  destruct (as_tasks a !! y); simpl; auto.
Qed.

Lemma apr_set f x a y : (forall t, sched_priority (f t) = sched_priority t) -> apr (a_set f x a) y = apr a y.
Proof.
  intros Hf. unfold apr, prio. simpl. rewrite lookup_alter. case_decide; [subst|done].
  destruct (as_tasks a !! y); simpl; auto.
Qed.

Lemma apr_set_prio p x a : is_Some (as_tasks a !! x) -> apr (a_set (set_sched_priority p) x a) x = p.
Proof. intros [t Et]. unfold apr, prio. simpl. by rewrite lookup_alter_eq, Et. Qed.

Lemma apr_set_ne f x y a : x <> y -> apr (a_set f x a) y = apr a y.
Proof. intros Hn. unfold apr, prio. simpl. by rewrite lookup_alter_ne. Qed.

Lemma ref_is_Some k a x : refines k a -> valid (k_tcbs k) x -> is_Some (as_tasks a !! x).
Proof. intros (_ & E & _) [_ [t Et]]. rewrite <- E, lookup_fmap, Et. eauto. Qed.

(** A task removed from a list other than g_readytorun leaves the running and
    the pending tasks as they are, and one removed from g_readytorun leaves the
    pending ones. *)
Lemma drop_other k a x l l' : refines k a -> x ∈ as_lists a l -> l' <> l -> as_lists (a_drop x a) l' = as_lists a l'.
Proof.
  intros (HR & _ & _) Hx Hl. simpl. apply list_rem_absent. intros Hx'. apply Hl. by eapply (sr_disj _ _ HR).
Qed.

Lemma enter_head x a : x ∉ as_lists a TL_readytorun -> as_lists a TL_readytorun <> [] ->
  arun (a_enter x a) = x \/ arun (a_enter x a) = arun a.
Proof.
  intros Hx Hne. unfold a_enter. destruct (_ && _); [by right|]. unfold arun. simpl. rewrite upd_eq.
  destruct (as_lists a TL_readytorun) as [|h R]; [done|]. rewrite ins_head. case_match; auto.
Qed.

Lemma up_unblock_task_ok `{SchedConfig} k a idle x l :
  refines k a -> sched_inv idle a -> x ∈ as_lists a l -> blocked_state (list_state l) = true ->
  wp (up_unblock_task x k) (fun '(b, k') =>
    refines k' (a_unblock x a) /\ sched_inv idle (a_unblock x a) /\ b = bool_decide (arun (a_unblock x a) <> arun a)).
Proof.
  intros Hr [HI HP] Hx Hb. assert (l <> TL_readytorun /\ l <> TL_pendingtasks) as [Hl Hl'] by (split; intros ->; done).
  assert (x <> idle) as Hi by (intros ->; by apply (ci_notidle _ _ HI l)).
  destruct (ci_prio _ _ HI _ _ Hx Hi) as [Hp1 Hp2]. pose proof (ci_lock _ _ HI _ _ Hx) as Hlk.
  unfold up_unblock_task. apply wp_bind, wp_deref_valid; [by eapply ref_valid|]. intros t Et. cbn beta.
  pose proof Hr as (HR & _ & _). rewrite <- (state_lookup _ _ _ Et), (sr_state _ _ HR _ _ Hl Hx), Hb. cbn [negb].
  apply wp_bind. eapply wp_mono; [apply (ref_removeblocked k a Hr x l Hx Hb)|]. intros k1 (Hr1 & Hu & Hv). cbv beta.
  apply wp_bind, wp_store; [done|]. cbv beta.
  pose proof (ref_data k1 _ Hr1 (set_timeslice RR_TICKS) x (keeps_timeslice _) (fun t => eq_refl)) as Hr2.
  pose proof (core_set idle _ (core_drop _ _ HI x Hi) (set_timeslice RR_TICKS) x Hi Hu) as HI2.
  set (a2 := a_set (set_timeslice RR_TICKS) x (a_drop x a)) in *.
  assert (forall y, apr a2 y = apr a y) as Epr by (intros y; by apply (apr_set _ x (a_drop x a) y)).
  assert (forall y, alk a2 y = alk a y) as Elk by (intros y; by apply (alk_set _ x (a_drop x a) y)).
  assert (arun a2 = arun a) as Erun by (unfold arun; by erewrite <- (drop_other k a x l TL_readytorun)).
  assert (as_lists a2 TL_pendingtasks = as_lists a TL_pendingtasks) as Epe by (by eapply (drop_other k a x l)).
  eapply wp_mono; [apply (ref_enter _ a2 Hr2 x)|].
  - by eapply core_ready.
  - by apply valid_alter.
  - done.
  - by rewrite Epr.
  - intros [b k'] [H1 H2]. fold a2. unfold a_unblock. fold a2. split; [done|]. split; [split|].
    + apply core_enter; [done|done|by rewrite Epr|by rewrite Elk].
    + apply pend_enter; [| by eapply core_ready|].
      * rewrite Elk, Erun. apply (ci_lock _ _ HI TL_readytorun). by eapply core_run.
      * intros Hp. rewrite Elk, Erun. apply HP. by rewrite <- Epe.
    + rewrite H2. apply bool_decide_ext. rewrite <- Erun. assert (x <> arun a2) as Hne.
      { intros E. apply (Hu TL_readytorun). pose proof (core_run idle a2 HI2) as Hin. rewrite <- E in Hin. exact Hin. }
      destruct (enter_head x a2) as [E|E]; [apply Hu|by eapply core_ready|rewrite E; split; congruence|rewrite E; split; congruence].
Qed.

Lemma ref_prio_set k a x p : refines k a ->
  refines (set_tcbs (alter (set_sched_priority p) x (k_tcbs k)) k) (a_set (set_sched_priority p) x a).
Proof. intros Hr. by apply ref_data; [|apply keeps_priority|]. Qed.

(** What up_reprioritize_rtr and the ready branch of sched_setpriority share:
    the task leaves g_readytorun, gets its priority and becomes ready again. *)
Section reprio.
  Context (k : kernel) (a : asched) (idle x p : Z).
  Hypothesis Hr : refines k a.
  Hypothesis HI : core_inv idle a.
  Hypothesis HP : pend_inv a.
  Hypothesis Hx : x ∈ as_lists a TL_readytorun.
  Hypothesis Hi : x <> idle.
  Hypothesis Hp : SCHED_PRIORITY_MIN <= p <= SCHED_PRIORITY_MAX.

Definition reprio_mid : asched := a_set (set_sched_priority p) x (a_drop x a).

Lemma reprio_enter :
  wp ('(removed, k) ← sched_removereadytorun x k;
      m ← store (set_sched_priority p) x (k_tcbs k);
      '(added, k) ← sched_addreadytorun x (set_tcbs m k);
      Ok (removed, added, k)) (fun '(removed, added, k') =>
    let a' := a_enter x reprio_mid in
    refines k' a' /\ core_inv idle a' /\ (arun a' = arun a -> pend_inv a')
    /\ removed = bool_decide (arun a = x) /\ added = bool_decide (arun a' = x)
    /\ (arun a <> x -> arun a' <> x -> arun a' = arun a)).
Proof.
  apply wp_bind. eapply wp_mono; [apply (ref_remove k a Hr x Hx); by eapply ready_not_single|].
  intros [b k1] (Hr1 & Hu & Hv & ->). apply wp_bind, wp_store; [done|]. cbv beta.
  pose proof (ref_prio_set k1 _ x p Hr1) as Hr2.
  pose proof (core_set idle _ (core_drop _ _ HI x Hi) (set_sched_priority p) x Hi Hu) as HI2. fold reprio_mid in Hr2, HI2.
  assert (apr reprio_mid x = p) as Epx by (apply apr_set_prio; by eapply (ref_is_Some k1)).
  assert (forall y, alk reprio_mid y = alk a y) as Elk by (intros y; by apply (alk_set _ x (a_drop x a) y)).
  apply wp_bind. eapply wp_mono; [apply (ref_enter _ _ Hr2 x)|].
  - by eapply core_ready.
  - by apply valid_alter.
  - apply Hu.
  - rewrite Epx. apply Hp.
  - intros [b k'] [H1 H2]. apply wp_ret. cbv zeta. split; [done|]. split; [|split; [|split; [done|split; [done|]]]].
    + apply core_enter; [done|done|by rewrite Epx|rewrite Elk; by apply (ci_lock _ _ HI TL_readytorun)].
    + intros E. apply (pend_enter_same x a reprio_mid); [|by apply (drop_other k a x TL_readytorun)|done|done|done].
      rewrite Elk. pose proof (core_run _ _ HI2) as Hin. apply (ci_lock _ _ HI TL_readytorun). exact (list_rem_elem x _ _ Hin).
    + intros Hne Hne'. destruct (enter_head x reprio_mid) as [E|E]; [apply Hu|by eapply core_ready|done|]. rewrite E.
      unfold arun, reprio_mid, a_set, a_drop. cbn [as_lists]. unfold arun in Hne.
      destruct (as_lists a TL_readytorun) as [|h R]; [done|]. simpl in *. by rewrite decide_False.
Qed.

Lemma up_reprioritize_rtr_ok :
  wp (up_reprioritize_rtr x p k) (fun '(b, k') =>
    refines k' (a_reprio x p a) /\ sched_inv idle (a_reprio x p a) /\ (b = false -> arun (a_reprio x p a) = arun a)).
Proof.
  unfold up_reprioritize_rtr. apply wp_bind, wp_deref_valid; [by eapply ref_valid|]. intros t Et. cbn beta.
  rewrite <- (state_lookup _ _ _ Et), (ref_state_ready _ _ _ Hr Hx).
  assert (ready_state (if decide (x = arun a) then TSTATE_TASK_RUNNING else TSTATE_TASK_READYTORUN) = true) as -> by by case_decide.
  destruct (Z.ltb_spec p SCHED_PRIORITY_MIN); [lia|]. cbn [negb orb].
  pose proof reprio_enter as HE. apply wp_bind.
  destruct (sched_removereadytorun x k) as [[removed k1]|]; [|done]. simpl in HE |- *.
  destruct (store _ x (k_tcbs k1)) as [m|]; [|done]. simpl in HE |- *.
  destruct (sched_addreadytorun x (set_tcbs m k1)) as [[added k2]|]; [|done]. simpl in HE |- *.
  destruct HE as (Hr2 & HI2 & HP2 & -> & -> & Hsame). unfold a_reprio. fold reprio_mid. set (a2 := a_enter x reprio_mid) in *.
  destruct (decide (arun a2 = arun a)) as [E|E].
  - rewrite E, xorb_nilpotent. apply wp_ret. split; [done|]. split; [|done]. split; [done|by apply HP2].
  - assert (xorb (bool_decide (arun a = x)) (bool_decide (arun a2 = x)) = true) as ->.
    { repeat case_bool_decide; try done; exfalso; [congruence|]. by apply E, Hsame. }
    destruct (decide (dq_head (g_pendingtasks k2) = NULL)) as [Hpn|Hpn].
    + apply wp_ret. destruct (merge_none_ok _ _ _ Hr2 HI2 Hpn) as (H1 & H2 & _). done.
    + apply wp_bind. eapply wp_mono; [apply (merge_step_ok _ _ _ Hr2 HI2)|]. intros [b k3] (H1 & H2 & _). by apply wp_ret.
Qed.

End reprio.

(** ** The lock, the priority and the time slice *)

Lemma core_data idle a f x :
  core_inv idle a -> (forall l y, y ∈ as_lists a l -> apr (a_set f x a) y = apr a y) -> apr (a_set f x a) idle = apr a idle ->
  (forall l y, y ∈ as_lists a l -> 0 <= alk (a_set f x a) y <= MAX_LOCK_COUNT) -> core_inv idle (a_set f x a).
Proof.
  intros HI Hp Hpi Hl. split; simpl.
  - intros l El. eapply sorted_ext; [|by apply (ci_sorted _ _ HI)]. intros y Hy. by apply (Hp l).
  - apply (ci_idle _ _ HI).
  - rewrite Hpi. apply (ci_idle_prio _ _ HI).
  - intros l y Hy. rewrite (Hp l) by done. by apply (ci_prio _ _ HI l).
  - done.
  - apply (ci_notidle _ _ HI).
Qed.

Lemma alk_set_lock c x a y : alk (a_set (set_lockcount c) x a) y = if decide (x = y /\ is_Some (as_tasks a !! x)) then c else alk a y.
Proof.
  unfold alk, lockc. simpl. rewrite lookup_alter. destruct (decide (x = y)) as [<-|Hne].
  - destruct (as_tasks a !! x) eqn:E; simpl; [rewrite decide_True by (split; eauto); done|].
    rewrite decide_False; [done|]. intros [_ [? ?]]. done.
  - rewrite decide_False; [done|tauto].
Qed.

Lemma core_setlock idle a c :
  core_inv idle a -> 0 <= c <= MAX_LOCK_COUNT -> core_inv idle (a_set (set_lockcount c) (arun a) a).
Proof.
  intros HI Hc. apply core_data; [done|..].
  - intros l y _. by apply apr_set.
  - by apply apr_set.
  - intros l y Hy. rewrite alk_set_lock. case_decide; [done|]. by apply (ci_lock _ _ HI l).
Qed.

Lemma core_slice idle a c x : core_inv idle a -> core_inv idle (a_set (set_timeslice c) x a).
Proof.
  intros HI. apply core_data; [done|..].
  - intros l y _. by apply apr_set.
  - by apply apr_set.
  - intros l y Hy. rewrite alk_set by done. by apply (ci_lock _ _ HI l).
Qed.

Lemma ref_run_valid k a idle : refines k a -> core_inv idle a -> valid (k_tcbs k) (arun a).
Proof. intros Hr HI. eapply ref_valid; [done|by eapply core_run]. Qed.

Lemma ref_setlock k a c : refines k a ->
  refines (set_tcbs (alter (set_lockcount c) (arun a) (k_tcbs k)) k) (a_set (set_lockcount c) (arun a) a).
Proof. intros Hr. by apply ref_data; [|apply keeps_lockcount|]. Qed.

Lemma sched_lock_ok k a idle :
  refines k a -> sched_inv idle a -> as_int a = false -> alk a (arun a) < MAX_LOCK_COUNT ->
  wp (sched_lock k) (fun k' => refines k' (a_lock a) /\ sched_inv idle (a_lock a)).
Proof.
  intros Hr [HI HP] Hint Hlk. pose proof (ref_run_valid _ _ _ Hr HI) as Hv. pose proof Hr as (_ & _ & EI).
  unfold sched_lock. rewrite (ref_run k a Hr), decide_False by (by eapply valid_ne). rewrite EI, Hint.
  apply wp_bind, wp_deref_valid; [done|]. intros t Et. rewrite <- (lockc_lookup _ _ _ Et), (ref_lockc k a Hr).
  apply wp_bind, wp_assert; [by apply Z.ltb_lt|]. apply wp_bind, wp_store; [done|]. apply wp_ret.
  pose proof (ci_lock _ _ HI _ _ (core_run _ _ HI)) as Hrange.
  split; [by apply ref_setlock|]. split; [apply core_setlock; [done|lia]|].
  intros _. change (arun (a_lock a)) with (arun a). unfold a_lock. rewrite alk_set_lock. case_decide as Ed; [lia|].
  exfalso. apply Ed. split; [done|]. by eapply (ref_is_Some k a).
Qed.

Lemma alter_lockcount c d x (m : gmap Z TCB) :
  alter (set_lockcount c) x (alter (set_lockcount d) x m) = alter (set_lockcount c) x m.
Proof.
  apply map_eq. intros i. destruct (decide (x = i)) as [<-|Hne].
  - rewrite !lookup_alter_eq. by destruct (m !! x).
  - by rewrite !lookup_alter_ne.
Qed.

Lemma sched_unlock_ok k a idle :
  refines k a -> sched_inv idle a -> as_int a = false ->
  wp (sched_unlock k) (fun '(b, k') =>
    refines k' (a_unlock a) /\ sched_inv idle (a_unlock a) /\ (b = false -> arun (a_unlock a) = arun a)).
Proof.
  intros Hr [HI HP] Hint. pose proof (ref_run_valid _ _ _ Hr HI) as Hv. pose proof Hr as (_ & _ & EI).
  pose proof (ci_lock _ _ HI _ _ (core_run _ _ HI)) as Hrange.
  unfold sched_unlock. rewrite (ref_run k a Hr), decide_False by (by eapply valid_ne). rewrite EI, Hint.
  apply wp_bind, wp_deref_valid; [done|]. intros t Et. rewrite <- (lockc_lookup _ _ _ Et), (ref_lockc k a Hr).
  set (c := Z.max 0 (alk a (arun a) - 1)).
  apply wp_bind. eapply (wp_mono _ (fun m => valid m (arun a) /\ lockc m (arun a) = c
    /\ alter (set_lockcount c) (arun a) m = alter (set_lockcount c) (arun a) (k_tcbs k)
    /\ (c <> 0 -> m = alter (set_lockcount c) (arun a) (k_tcbs k)))).
  { destruct (Z.eqb_spec (alk a (arun a)) 0) as [E|E]; cbn [negb].
    - apply wp_ret. split; [done|]. split; [rewrite (ref_lockc k a Hr); lia|]. split; [done|]. lia.
    - apply wp_store; [done|]. replace (alk a (arun a) - 1) with c by lia. split; [by apply valid_alter|].
      split; [|split; [apply alter_lockcount|done]]. unfold lockc. by rewrite lookup_alter_eq, Et. }
  intros m (Hvm & Hcm & Em & Em'). apply wp_bind, wp_deref_valid; [done|]. intros t' Et'.
  rewrite <- (lockc_lookup _ _ _ Et'), Hcm.
  pose proof (ref_setlock k a c Hr) as Hr1. pose proof (core_setlock idle a c HI ltac:(lia)) as HI1.
  unfold a_unlock. fold c. destruct (Z.leb_spec c 0) as [Hc|Hc].
  - assert (c = 0) as E0 by lia. rewrite E0 in *. rewrite Z.eqb_refl. apply wp_bind, wp_store; [done|]. cbv zeta.
    rewrite Em. case_decide as Hp.
    + apply wp_ret. destruct (merge_none_ok _ _ _ Hr1 HI1 Hp) as (H1 & H2 & H3). done.
    + unfold up_release_pending. eapply wp_mono; [apply (merge_step_ok _ _ _ Hr1 HI1)|]. by intros [b k3].
  - destruct (Z.eqb_spec c 0); [lia|]. apply wp_ret. rewrite Em' by lia. split; [done|]. split; [|done].
    split; [done|]. intros _. change (arun (a_set _ _ a)) with (arun a). rewrite alk_set_lock. case_decide as Ed; [lia|].
    exfalso. apply Ed. split; [done|]. by eapply (ref_is_Some k a).
Qed.

(** ** sched_setpriority *)

Lemma list_of_elem x a l : list_of x a = Some l -> x ∈ as_lists a l.
Proof.
  unfold list_of. intros E. assert (l ∈ filter (fun l => x ∈ as_lists a l) all_lists) as Hin.
  { destruct (filter _ all_lists); [done|]. simpl in E. simplify_eq. left. }
  by apply list_elem_of_filter in Hin as [? _].
Qed.

Lemma prio_ok_range p : prio_ok p = true -> SCHED_PRIORITY_MIN <= p <= SCHED_PRIORITY_MAX.
Proof. unfold prio_ok. intros [? ?]%andb_true_iff. split; by apply Z.leb_le. Qed.

Lemma u8_prio p : SCHED_PRIORITY_MIN <= p <= SCHED_PRIORITY_MAX -> u8 p = p.
Proof. unfold SCHED_PRIORITY_MIN, SCHED_PRIORITY_MAX, u8. intros. apply Z.mod_small. lia. Qed.

(** A higher priority for the running task keeps the order of its list. *)
Lemma core_raise idle a p :
  core_inv idle a -> arun a <> idle -> SCHED_PRIORITY_MIN <= p <= SCHED_PRIORITY_MAX -> apr a (a_next a) < p ->
  is_Some (as_tasks a !! arun a) -> (forall l, NoDup (as_lists a l)) ->
  (forall l l' x, x ∈ as_lists a l -> x ∈ as_lists a l' -> l = l') ->
  core_inv idle (a_set (set_sched_priority p) (arun a) a).
Proof.
  intros HI Hi Hp Hn Hs Hnd Hdis. pose proof (core_run _ _ HI) as Hrun. set (x := arun a) in *.
  assert (forall y, y <> x -> apr (a_set (set_sched_priority p) x a) y = apr a y) as Hne by (intros; by apply apr_set_ne).
  split; simpl.
  - intros l Hl. pose proof (ci_sorted _ _ HI l Hl) as Hso. destruct (decide (l = TL_readytorun)) as [->|Hlr].
    + specialize (Hnd TL_readytorun). unfold a_next in Hn. unfold arun in *.
      subst x. destruct (as_lists a TL_readytorun) as [|h R]; [set_solver|]. simpl in *. set (x := h) in *. apply NoDup_cons in Hnd as [Hh _].
      apply StronglySorted_inv in Hso as [Hso' Hall].
      assert (forall y, y ∈ R -> apr (a_set (set_sched_priority p) x a) y = apr a y) as HneR by (intros y Hy; apply Hne; by intros ->).
      constructor; [by eapply sorted_ext|]. apply Forall_forall. intros y Hy. 
      rewrite (HneR y Hy), apr_set_prio by done. destruct R as [|z R]; [set_solver|]. simpl in Hn.
      apply StronglySorted_inv in Hso' as [_ Hall']. rewrite Forall_forall in Hall'. apply elem_of_cons in Hy as [->|Hy]; [lia|].
      specialize (Hall' y Hy). simpl in Hall'. lia.
    + eapply sorted_ext; [|exact Hso]. intros y Hy. apply Hne. intros ->. by apply Hlr, (Hdis l TL_readytorun x).
  - apply (ci_idle _ _ HI).
  - rewrite Hne by done. apply (ci_idle_prio _ _ HI).
  - intros l y Hy Hyi. destruct (decide (y = x)) as [->|Hyx]; [by rewrite apr_set_prio|]. rewrite Hne by done. by apply (ci_prio _ _ HI l).
  - intros l y Hy. rewrite alk_set by done. by apply (ci_lock _ _ HI l).
  - apply (ci_notidle _ _ HI).
Qed.

Lemma core_ext idle a a' :
  as_tasks a' = as_tasks a -> (forall l, as_lists a' l = as_lists a l) -> core_inv idle a -> core_inv idle a'.
Proof.
  intros E1 E2 [A B C D E F]. unfold apr, alk in *. split; unfold apr, alk; rewrite ?E1.
  - intros l. rewrite E2. apply A.
  - by rewrite E2.
  - done.
  - intros l x. rewrite E2. apply D.
  - intros l x. rewrite E2. apply E.
  - intros l. rewrite E2. apply F.
Qed.

(** A blocked or pending task re-inserted in its list at its new priority. *)
Definition a_requeue (x p : Z) (l : tasklist) (a : asched) : asched :=
  let a' := a_set (set_sched_priority p) x a in a_upd l (ins (apr a') x (list_rem x (as_lists a l))) a'.

Lemma requeue_inv k a idle x p l :
  refines k a -> sched_inv idle a -> x ∈ as_lists a l -> l <> TL_readytorun -> prioritized l = true ->
  SCHED_PRIORITY_MIN <= p <= SCHED_PRIORITY_MAX -> sched_inv idle (a_requeue x p l a).
Proof.
  intros Hr [HI HP] Hx Hl Hpl Hp. assert (x <> idle) as Hi by (intros ->; by apply (ci_notidle _ _ HI l)).
  destruct (ref_in k a Hr x l Hx) as (l1 & l2 & EL & Hl1 & Er & Ed).
  assert (unlisted x (as_lists (a_drop x a))) as Hu.
  { intros l'. rewrite Ed. destruct Hr as (HR & _ & _). unfold upd. case_decide as E.
    - pose proof (sr_nodup _ _ l HR) as Hnd. rewrite EL in Hnd. apply NoDup_app in Hnd as (_ & ? & [? _]%NoDup_cons). set_solver.
    - intros Hx'. apply E. by eapply (sr_disj _ _ HR). }
  pose proof (core_set idle _ (core_drop _ _ HI x Hi) (set_sched_priority p) x Hi Hu) as HI2.
  assert (is_Some (as_tasks a !! x)) as Hs by (eapply (ref_is_Some k a); [done|by eapply ref_valid]).
  split.
  - eapply (core_ext idle (a_upd l (ins (apr (a_set (set_sched_priority p) x a)) x (list_rem x (as_lists a l)))
      (a_set (set_sched_priority p) x (a_drop x a)))); [done| |].
    + intros l'. unfold a_requeue, a_upd, upd, a_set. cbn [as_lists]. case_decide; [done|]. rewrite Ed. unfold upd. by rewrite decide_False.
    + apply (core_insert idle _ HI2 l x); [intros y; by rewrite ins_elem| |done|done| |].
      * intros _. apply ins_sorted. apply (ci_sorted _ _ HI2 l Hpl).
      * rewrite (apr_set_prio p x (a_drop x a)) by done. done.
      * rewrite (alk_set _ x (a_drop x a)) by done. apply (ci_lock _ _ HI l x Hx).
  - intros Hpe. unfold a_requeue in Hpe |- *. cbn zeta in Hpe |- *.
    assert (arun (a_upd l (ins (apr (a_set (set_sched_priority p) x a)) x (list_rem x (as_lists a l))) (a_set (set_sched_priority p) x a)) = arun a) as ->.
    { unfold arun. simpl. by rewrite upd_ne. }
    change (0 < alk (a_set (set_sched_priority p) x a) (arun a)). rewrite alk_set by done. apply HP.
    intros Epe. apply Hpe. simpl. unfold upd. case_decide; [subst l|done]. rewrite Epe in Hx. set_solver.
Qed.

Lemma frame_alter_both {N} (u f : N -> N) x s (m m' : gmap Z N) :
  (forall n n', u n = u n' -> u (f n) = u (f n')) -> frame u s m m' -> frame u s (alter f x m) (alter f x m').
Proof.
  intros Hf [A B]. split; intros y; [intros Hy|]; destruct (decide (x = y)) as [<-|];
    rewrite ?lookup_alter_eq, ?lookup_alter_ne by done; auto.
  - by rewrite A.
  - specialize (B x). destruct (m !! x), (m' !! x); cbn in *; try done. f_equal. apply Hf. congruence.
Qed.

Lemma requeue_ok k a x p l :
  refines k a -> x ∈ as_lists a l -> l <> TL_readytorun -> SCHED_PRIORITY_MIN <= p <= SCHED_PRIORITY_MAX ->
  wp ('(q, m) ← dq_rem x (get_list l k) (k_tcbs k);
      m ← store (set_sched_priority p) x m;
      '(_, (q, m)) ← sched_addprioritized x q m;
      Ok (set_list l q (set_tcbs m k))) (fun k' => refines k' (a_requeue x p l a)).
Proof.
  intros Hr Hx Hl Hp. destruct (ref_in k a Hr x l Hx) as (l1 & l2 & EL & Hl1 & Er & Ed).
  pose proof (ref_prio_set k a x p Hr) as Hr1. set (m0 := alter (set_sched_priority p) x (k_tcbs k)) in *.
  pose proof Hr as (HR & _ & _). pose proof (sr_list _ _ HR l) as Hq. rewrite EL in Hq.
  pose proof (sr_nodup _ _ l HR) as Hnd. rewrite EL in Hnd. apply NoDup_app in Hnd as (_ & Hd1 & [Hd2 _]%NoDup_cons).
  apply wp_bind. eapply wp_mono; [eapply dq_rem_spec; exact Hq|]. intros [q m1] [Hq1 Hf1].
  assert (valid m1 x) as Hv1 by (eapply frame_valid; [exact Hf1|by eapply ref_valid]).
  apply wp_bind, wp_store; [done|]. set (m2 := alter (set_sched_priority p) x m1).
  assert (frame dunlink (l1 ++ x :: l2) m0 m2) as Hf2.
  { apply frame_alter_both; [|done]. intros n n' E. destruct n, n'. unfold dunlink in *. cbn in *. unfold set_sched_priority. cbn. congruence. }
  assert (prio m2 x = p) as Ep. { unfold prio, m2. destruct (valid_lookup _ _ Hv1) as [t Et]. by rewrite lookup_alter_eq, Et. }
  assert (forall y, prio m2 y = apr (a_set (set_sched_priority p) x a) y) as Epr.
  { intros y. rewrite <- (ref_prio _ _ Hr1 y). by destruct (frame_unlink_fields _ _ _ y Hf2) as (-> & _). }
  apply wp_bind. eapply wp_mono; [eapply (sched_addprioritized_spec m2 q (l1 ++ l2) x)|].
  - apply dq_repr_alter_data; [apply keeps_priority|done].
  - by apply valid_alter.
  - set_solver.
  - rewrite Ep. apply Hp.
  - intros [b [q' m3]] (Hq3 & Hf3 & _). apply wp_ret.
    assert (frame dunlink (x :: as_lists a l) m0 m3) as Hf.
    { rewrite EL. eapply frame_trans; [eapply frame_sub; [|exact Hf2]|eapply frame_sub; [|exact Hf3]]; set_solver. }
    assert (ins (prio m2) x (l1 ++ l2) = ins (apr (a_set (set_sched_priority p) x a)) x (list_rem x (as_lists a l))) as Ei.
    { rewrite Er. apply ins_ext. intros; apply Epr. }
    rewrite Ei in Hq3. destruct Hr1 as (HR1 & E1 & I1). split; [|split; [|done]].
    + apply (sched_repr_set (set_tcbs m0 k) _ _ _ m3 _ x HR1); try done.
      * by apply frame_weaken.
      * intros l' Hl' Hx'. apply Hl'. by eapply (sr_disj _ _ HR).
      * intros y. rewrite ins_elem. intros [->|Hy%list_rem_elem]; auto.
      * intros _ y. rewrite ins_elem. intros Hy. destruct (frame_unlink_fields _ _ _ y Hf) as (_ & _ & ->).
        apply (sr_state _ _ HR1 l y Hl). simpl. destruct Hy as [->|Hy%list_rem_elem]; done.
    + transitivity (tbody <$> m0); [|exact E1]. eapply tbody_frame, frame_weaken. exact Hf.
Qed.

Lemma next_link k a idle :
  refines k a -> core_inv idle a -> arun a <> idle ->
  exists t, k_tcbs k !! arun a = Some t /\ t_flink t = a_next a /\ a_next a ∈ as_lists a TL_readytorun.
Proof.
  intros (HR & _ & _) HI Hi. pose proof (sr_list _ _ HR TL_readytorun) as [_ _ Hs _ _].
  pose proof (ready_not_single idle a (arun a) HI Hi) as Hns. pose proof (core_ready _ _ HI) as Hne.
  unfold arun, a_next in *. destruct (as_lists a TL_readytorun) as [|h [|n R]]; [done|done|]. simpl in *.
  destruct Hs as [(t & Et & Ef & _) _]. exists t. split; [done|]. split; [done|]. set_solver.
Qed.

(** A task of no higher priority than the running one does not preempt it. *)
Lemma enter_lower x a : as_lists a TL_readytorun <> [] -> apr a x <= apr a (arun a) -> arun (a_enter x a) = arun a.
Proof.
  intros Hne Hp. unfold a_enter. destruct (Z.ltb_spec (apr a (arun a)) (apr a x)); [lia|]. rewrite andb_false_r.
  unfold arun in *. simpl. rewrite upd_eq. destruct (as_lists a TL_readytorun) as [|h R]; [done|]. rewrite ins_head. simpl in *.
  destruct (Z.leb_spec (apr a x) (apr a h)); [done|lia].
Qed.

Lemma drop_run x a : arun a <> x -> arun (a_drop x a) = arun a.
Proof. unfold arun. simpl. destruct (as_lists a TL_readytorun) as [|h R]; [done|]. simpl. intros. by rewrite decide_False. Qed.

Lemma setprio_ready_ok k a idle x p :
  refines k a -> sched_inv idle a -> x ∈ as_lists a TL_readytorun -> x <> idle -> prio_ok p = true ->
  wp (sched_setpriority x p k) (fun '(r, k') =>
    let a' := if decide (x = arun a /\ apr a (a_next a) < p) then a_set (set_sched_priority p) x a else a_reprio x p a in
    refines k' a' /\ sched_inv idle a' /\ exists b, r = inr b /\ (b = false -> arun a' = arun a)).
Proof.
  intros Hr [HI HP] Hx Hi Hpo. pose proof (prio_ok_range _ Hpo) as Hp. unfold sched_setpriority.
  assert ((p <? SCHED_PRIORITY_MIN) || (SCHED_PRIORITY_MAX <? p) = false) as ->
    by (apply orb_false_iff; split; apply Z.ltb_ge; lia).
  rewrite (u8_prio p Hp). pose proof Hr as (HR & _ & _). pose proof (ref_valid k a Hr _ _ Hx) as Hv.
  apply wp_bind, wp_deref_valid; [done|]. intros t Et. cbv beta.
  rewrite <- (state_lookup _ _ _ Et), (ref_state_ready _ _ _ Hr Hx). rewrite (ref_run k a Hr).
  destruct (decide (x = arun a)) as [->|Hxr].
  - destruct (next_link k a idle Hr HI Hi) as (t' & Et' & Efl & Hn). rewrite Et in Et'. simplify_eq. rewrite Efl.
    apply wp_bind, wp_deref_valid; [by eapply ref_valid|]. intros n En. cbv beta.
    rewrite <- (prio_lookup _ _ _ En), (ref_prio k a Hr). destruct (Z.leb_spec p (apr a (a_next a))) as [Hle|Hlt].
    + rewrite decide_False by (intros [_ ?]; lia). apply wp_bind. eapply wp_mono; [by apply (up_reprioritize_rtr_ok k a idle)|].
      intros [b k'] (H1 & H2 & H3). apply wp_ret. eauto.
    + rewrite decide_True by (split; [done|lia]). apply wp_bind, wp_store; [done|]. apply wp_ret.
      split; [by apply ref_prio_set|]. split; [split|by exists false].
      * apply core_raise; try done; [by eapply (ref_is_Some k a)|intros; by eapply sr_nodup|apply (sr_disj _ _ HR)].
      * intros Hpe. change (arun (a_set _ _ a)) with (arun a). rewrite alk_set by done. by apply HP.
  - rewrite decide_False by tauto.
    assert (valid (k_tcbs k) (arun a)) as Hva by by eapply ref_run_valid.
    apply wp_bind, wp_deref_valid; [done|]. intros r Er. cbv beta.
    rewrite <- (prio_lookup _ _ _ Er), (ref_prio k a Hr). destruct (Z.ltb_spec (apr a (arun a)) p) as [Hlt|Hge].
    + apply wp_bind. eapply wp_mono; [by apply (up_reprioritize_rtr_ok k a idle)|]. intros [b k'] (H1 & H2 & H3). apply wp_ret. eauto.
    + pose proof (reprio_enter k a idle x p Hr HI HP Hx Hi Hp) as HE.
      destruct (sched_removereadytorun x k) as [[removed k1]|]; [|done]. simpl in HE |- *.
      destruct (store _ x (k_tcbs k1)) as [m|] eqn:Em; [|done]. simpl in HE.
      destruct (sched_addreadytorun x (set_tcbs m k1)) as [[added k2]|] eqn:Ea; [|done]. simpl in HE.
      destruct HE as (Hr2 & HI2 & HP2 & Hrem & Hadd & Hsame).
      assert (arun (a_enter x (reprio_mid a x p)) = arun a) as Erun.
      { change (arun a) with (arun a) in *. rewrite <- (drop_run x a) by congruence. change (arun (a_drop x a)) with (arun (reprio_mid a x p)).
        apply enter_lower; [exact (core_ready idle _ (core_drop _ _ HI x Hi))|].
        change (arun (reprio_mid a x p)) with (arun (a_drop x a)). rewrite drop_run by congruence.
        unfold reprio_mid. rewrite (apr_set_ne _ x (arun a)) by congruence.
        rewrite apr_set_prio by (by eapply (ref_is_Some k a)). done. }
      rewrite Erun in Hadd. rewrite bool_decide_false in Hrem, Hadd by congruence. subst. simpl. unfold a_reprio. fold (reprio_mid a x p). rewrite decide_True by done. rewrite Ea. simpl.
      split; [done|]. split; [split; [done|by apply HP2]|by exists false].
Qed.

Definition call_ok (idle : Z) (a a' : asched) (e : option Z) : ((Z + bool) * kernel) -> Prop := fun '(r, k') =>
  refines k' a' /\ sched_inv idle a'
  /\ match e with
     | Some n => r = inl n
     | None => exists b, r = inr b /\ (b = false -> arun a' = arun a)
     end.

(** The priority of a task in a list that is not kept in order. *)
Lemma core_unsorted k a idle x p l :
  refines k a -> core_inv idle a -> x ∈ as_lists a l -> prioritized l = false -> x <> idle ->
  SCHED_PRIORITY_MIN <= p <= SCHED_PRIORITY_MAX -> core_inv idle (a_set (set_sched_priority p) x a).
Proof.
  intros Hr HI Hx Hl Hi Hp. pose proof Hr as (HR & _ & _). split; simpl.
  - intros l' Hl'. eapply sorted_ext; [|by apply (ci_sorted _ _ HI)]. intros y Hy. apply apr_set_ne. intros ->.
    rewrite (sr_disj _ _ HR _ _ _ Hx Hy) in Hl. congruence.
  - apply (ci_idle _ _ HI).
  - rewrite apr_set_ne by done. apply (ci_idle_prio _ _ HI).
  - intros l' y Hy Hyi. destruct (decide (x = y)) as [<-|Hne].
    + rewrite apr_set_prio; [done|]. eapply (ref_is_Some k a); [done|by eapply ref_valid].
    + rewrite apr_set_ne by done. by apply (ci_prio _ _ HI l').
  - intros l' y Hy. rewrite alk_set by done. by apply (ci_lock _ _ HI l').
  - apply (ci_notidle _ _ HI).
Qed.

Lemma setprio_ok k a idle x p a' :
  refines k a -> sched_inv idle a -> x <> idle -> prio_ok p = true -> a_setprio x p a = Some a' ->
  wp (sched_setpriority x p k) (call_ok idle a a' None).
Proof.
  intros Hr HI Hi Hpo Ha. unfold a_setprio in Ha. destruct (list_of x a) as [l|] eqn:El; [|done]. apply list_of_elem in El.
  destruct (decide (l = TL_readytorun)) as [->|Hl].
  { injection Ha as <-. eapply wp_mono; [by apply (setprio_ready_ok k a idle)|]. by intros [r k']. }
  pose proof (prio_ok_range _ Hpo) as Hp. unfold sched_setpriority.
  assert ((p <? SCHED_PRIORITY_MIN) || (SCHED_PRIORITY_MAX <? p) = false) as ->
    by (apply orb_false_iff; split; apply Z.ltb_ge; lia).
  rewrite (u8_prio p Hp). pose proof Hr as (HR & _ & _).
  apply wp_bind, wp_deref_valid; [by eapply ref_valid|]. intros t Et. cbv beta.
  rewrite <- (state_lookup _ _ _ Et), (sr_state _ _ HR _ _ Hl El).
  destruct (prioritized l) eqn:Epl.
  - assert (a' = a_requeue x p l a) as -> by (destruct l; try done; simpl in Ha; by simplify_eq).
    pose proof (requeue_ok k a x p l Hr El Hl Hp) as HQ. pose proof (requeue_inv k a idle x p l Hr HI El Hl Epl Hp) as HQ2.
    assert (arun (a_requeue x p l a) = arun a) as Erun by (unfold arun, a_requeue; simpl; by rewrite upd_ne).
    destruct l; try done; simpl; (destruct (dq_rem _ _ _) as [[q m]|]; [|done]; simpl in HQ |- *;
      destruct (store _ _ m) as [m2|]; [|done]; simpl in HQ |- *;
      destruct (sched_addprioritized _ _ _) as [[? [? ?]]|]; [|done]; simpl in HQ |- *;
      split; [done|]; split; [done|]; by exists false).
  - assert (a' = a_set (set_sched_priority p) x a) as -> by (destruct l; try done; simpl in Ha; by simplify_eq).
    destruct HI as [HI HP].
    assert (refines (set_tcbs (alter (set_sched_priority p) x (k_tcbs k)) k) (a_set (set_sched_priority p) x a)
      /\ sched_inv idle (a_set (set_sched_priority p) x a)) as [H1 H2].
    { split; [by apply ref_prio_set|]. split.
      - apply (core_unsorted k a idle x p l); try done.
      - intros Hpe. change (arun (a_set _ _ a)) with (arun a). rewrite alk_set by done. by apply HP. }
    destruct l; try done; cbn; (rewrite store_valid by (by eapply ref_valid); cbn; split; [done|]; split; [done|]; by exists false).
Qed.

(** ** The clock tick *)

Lemma ref_data_flags k a x t : refines k a -> k_tcbs k !! x = Some t -> a_flags a x = t_flags t /\ a_slice a x = timeslice t.
Proof. intros (_ & E & _) Et. unfold a_flags, a_slice. by rewrite <- E, lookup_fmap, Et. Qed.

Lemma ref_next k a t idle : refines k a -> core_inv idle a -> k_tcbs k !! arun a = Some t -> t_flink t = a_next a.
Proof.
  intros (HR & _ & _) HI Et. pose proof (sr_list _ _ HR TL_readytorun) as [_ _ Hs _ _]. pose proof (core_ready _ _ HI) as Hne.
  unfold arun, a_next in *. destruct (as_lists a TL_readytorun) as [|h R]; [done|]. simpl in *.
  destruct Hs as [(t' & Et' & Ef & _) _]. by simplify_eq.
Qed.

Lemma next_not_idle k a idle : refines k a -> core_inv idle a -> a_next a <> NULL -> arun a <> idle.
Proof.
  intros (HR & _ & _) HI Hn E. destruct (ci_idle _ _ HI) as [R ER]. pose proof (sr_nodup _ _ TL_readytorun HR) as Hd.
  unfold a_next, arun in *. rewrite ER in *. destruct R as [|h R]; [done|]. simpl in *. subst h.
  apply NoDup_cons in Hd as [Hd _]. set_solver.
Qed.

Lemma next_in k a : refines k a -> a_next a <> NULL -> a_next a ∈ as_lists a TL_readytorun.
Proof.
  intros _ Hn. unfold a_next in *. destruct (as_lists a TL_readytorun) as [|h [|n R]]; [done|done|]. simpl. set_solver.
Qed.

Lemma pend_slice c x a : pend_inv a -> pend_inv (a_set (set_timeslice c) x a).
Proof. intros HP Hp. change (arun (a_set _ _ a)) with (arun a). rewrite alk_set by done. by apply HP. Qed.

Lemma ref_slice k a x c : refines k a ->
  refines (set_tcbs (alter (set_timeslice c) x (k_tcbs k)) k) (a_set (set_timeslice c) x a).
Proof. intros Hr. by apply ref_data; [|apply keeps_timeslice|]. Qed.

Lemma tick_ok `{SchedConfig} k a idle :
  refines k a -> sched_inv idle a ->
  wp (sched_process_timeslice k) (fun '(b, k') =>
    refines k' (a_tick a) /\ sched_inv idle (a_tick a) /\ (b = false -> arun (a_tick a) = arun a)).
Proof.
  intros Hr Hinv. pose proof Hinv as [HI HP]. pose proof (ref_run_valid _ _ _ Hr HI) as Hv.
  unfold sched_process_timeslice, a_tick. rewrite (ref_run k a Hr).
  apply wp_bind, wp_deref_valid; [done|]. intros t Et. cbv beta. destruct (ref_data_flags _ _ _ _ Hr Et) as [-> ->].
  case_match; [by apply wp_ret|]. rewrite <- (lockc_lookup _ _ _ Et), (ref_lockc k a Hr).
  rewrite <- (prio_lookup _ _ _ Et), (ref_prio k a Hr). rewrite (ref_next _ _ _ _ Hr HI Et).
  set (a' := a_set (set_timeslice RR_TICKS) (arun a) a).
  pose proof (ref_slice k a (arun a) RR_TICKS Hr) as Hr'. pose proof (core_slice idle a RR_TICKS (arun a) HI) as HI'.
  pose proof (pend_slice RR_TICKS (arun a) a HP) as HP'. fold a' in Hr', HI', HP'.
  assert (sched_inv idle a') as Hinv' by (by split).
  destruct (Z.leb_spec (timeslice t) 1) as [Hle|Hgt].
  - destruct (Z.ltb_spec 1 (timeslice t)); [lia|]. destruct (alk a (arun a) =? 0); cbn [negb]; [|by apply wp_ret].
    apply wp_bind, wp_store; [done|]. cbv zeta. destruct (decide (a_next a = NULL)) as [En|En].
    { rewrite decide_False by tauto. by apply wp_ret. }
    apply wp_bind, wp_deref_valid; [apply valid_alter; eapply ref_valid; [done|by eapply next_in]|]. intros n Enx. cbv beta.
    rewrite <- (prio_lookup _ _ _ Enx). pose proof (ref_prio _ _ Hr' (a_next a)) as En'. unfold a' in En'. rewrite apr_set in En' by done. simpl in En'. rewrite En'.
    destruct (Z.leb_spec (apr a (arun a)) (apr a (a_next a))) as [Hp|Hp].
    + rewrite decide_True by done. pose proof (next_not_idle _ _ _ Hr HI En) as Hi.
      eapply wp_mono; [apply (up_reprioritize_rtr_ok _ a' idle (arun a)); try done|].
      * by apply (core_run idle a).
      * apply (ci_prio _ _ HI TL_readytorun); [by eapply core_run|done].
      * by intros [b k'].
    + rewrite decide_False by (intros [_ ?]; lia). by apply wp_ret.
  - destruct (Z.ltb_spec 1 (timeslice t)); [|lia]. apply wp_bind, wp_store; [done|]. apply wp_ret.
    split; [by apply ref_slice|]. split; [|done]. split; [by apply core_slice|by apply pend_slice].
Qed.

Lemma setprio_error k a idle x p :
  refines k a -> sched_inv idle a -> prio_ok p = false -> wp (sched_setpriority x p k) (call_ok idle a a (Some EINVAL)).
Proof.
  intros Hr HI Ep. unfold sched_setpriority. unfold prio_ok in Ep. apply andb_false_iff in Ep.
  assert ((p <? SCHED_PRIORITY_MIN) || (SCHED_PRIORITY_MAX <? p) = true) as ->.
  { apply orb_true_iff. rewrite !Z.leb_gt in Ep. rewrite !Z.ltb_lt. done. }
  by apply wp_ret.
Qed.

Lemma kexec_ok `{SchedConfig} k a idle c a' :
  refines k a -> sched_inv idle a -> astep idle c a = Some a' -> wp (kexec c k) (call_ok idle a a' (kerror a c)).
Proof.
  intros Hr HI Hs. pose proof Hr as (_ & _ & EI). destruct c as [l|x| | |x p| |]; cbn [kexec astep kerror] in *.
  - destruct (blocked_state (list_state l)) eqn:Eb; [|done]. case_bool_decide as Hi; [|done]. simpl in Hs. simplify_eq.
    unfold sched_self. rewrite (ref_run k a Hr). apply wp_bind. eapply wp_mono; [by apply (up_block_task_ok k a idle)|].
    intros [b k'] (H1 & H2 & ->). apply wp_ret. split; [done|]. split; [done|]. by exists true.
  - destruct (list_of x a) as [l|] eqn:El; [|done]. destruct (blocked_state (list_state l)) eqn:Eb; [|done]. simplify_eq.
    apply list_of_elem in El. apply wp_bind. eapply wp_mono; [by apply (up_unblock_task_ok k a idle x l)|].
    intros [b k'] (H1 & H2 & H3). apply wp_ret. split; [done|]. split; [done|]. exists b. split; [done|]. intros ->.
    symmetry in H3. apply bool_decide_eq_false in H3. by apply dec_stable.
  - destruct (as_int a) eqn:Ei.
    + simplify_eq. unfold sched_lock. rewrite EI. case_decide; (apply wp_bind, wp_ret, wp_ret; split; [done|]; split; [done|]; by exists false).
    + destruct (Z.ltb_spec (alk a (arun a)) MAX_LOCK_COUNT); [|done]. simplify_eq. apply wp_bind.
      eapply wp_mono; [by apply (sched_lock_ok k a idle)|]. intros k' [H1 H2]. apply wp_ret. split; [done|]. split; [done|]. by exists false.
  - destruct (as_int a) eqn:Ei; simplify_eq.
    + unfold sched_unlock. rewrite EI. case_decide; (apply wp_bind, wp_ret, wp_ret; split; [done|]; split; [done|]; by exists false).
    + apply wp_bind. eapply wp_mono; [by apply (sched_unlock_ok k a idle)|]. intros [b k'] (H1 & H2 & H3). apply wp_ret.
      split; [done|]. split; [done|]. by exists b.
  - destruct (prio_ok p) eqn:Ep; cbn [negb] in Hs.
    + destruct (decide (x = idle)); [done|]. by apply setprio_ok.
    + simplify_eq. by apply setprio_error.
  - unfold sched_yield. rewrite (ref_run k a Hr). pose proof HI as [HC _].
    apply wp_bind, wp_deref_valid; [by eapply ref_run_valid|]. intros t Et. cbv beta.
    rewrite <- (prio_lookup _ _ _ Et), (ref_prio k a Hr). destruct (prio_ok (apr a (arun a))) eqn:Ep; cbn [negb] in Hs.
    + apply setprio_ok; try done. intros E. rewrite E, (ci_idle_prio _ _ HC) in Ep. done.
    + simplify_eq. by apply setprio_error.
  - simplify_eq. apply wp_bind. eapply wp_mono; [by apply (tick_ok k a idle)|]. intros [b k'] (H1 & H2 & H3). apply wp_ret.
    split; [done|]. split; [done|]. by exists b.
Qed.

(** ** Order within a priority *)

(** The tasks of one priority, in the order of the list. *)
Definition at_prio (pr : Z -> Z) (p : Z) (l : list Z) : list Z := filter (fun y => pr y = p) l.

Lemma at_prio_none pr p l : Forall (fun y => pr y < p) l -> at_prio pr p l = [].
Proof.
  intros Hl. unfold at_prio. induction Hl as [|y l Hy Hl IH]; [done|]. rewrite filter_cons_False by lia. done.
Qed.

Lemma ins_fifo pr x l p : sorted pr l -> at_prio pr p (ins pr x l) = at_prio pr p l ++ at_prio pr p [x].
Proof.
  unfold at_prio. induction 1 as [|y l Hs IH Hy]; [done|]. simpl ins. destruct (Z.leb_spec (pr x) (pr y)) as [Hle|Hlt].
  - rewrite !(filter_cons _ y). case_decide; [simpl; by rewrite IH|done].
  - rewrite (filter_cons _ x). destruct (decide (pr x = p)) as [E|E].
    + assert (at_prio pr p (y :: l) = []) as E0.
      { apply at_prio_none. constructor; [lia|]. eapply Forall_impl; [exact Hy|]. simpl. lia. }
      unfold at_prio in E0. rewrite E0. simpl. by rewrite filter_cons_True.
    + rewrite (filter_cons_False _ x) by done. by rewrite app_nil_r.
Qed.

Lemma merged_fifo pr p l1 l2 : sorted pr l1 -> at_prio pr p (merged pr l1 l2) = at_prio pr p l1 ++ at_prio pr p l2.
Proof.
  revert l1. induction l2 as [|x l2 IH]; intros l1 Hs; [by rewrite app_nil_r|].
  change (merged pr l1 (x :: l2)) with (merged pr (ins pr x l1) l2). rewrite IH by by apply ins_sorted.
  rewrite ins_fifo, <- app_assoc by done. unfold at_prio. f_equal. rewrite (filter_cons _ x), filter_cons. by case_decide.
Qed.
