(* ===== verification/SchedThm.v ===== *)
(** * The scheduler: theorems

    The properties of the scheduler that follow from the refinement of
    SchedSpec, each with an instance on a small kernel. *)

From stdpp Require Import sorting.
From S2P Require Import Prelude Queue Sched SchedInv SchedOps SchedSpec.

Lemma krun_ok `{SchedConfig} cs k a idle a' :
  refines k a -> sched_inv idle a -> asteps idle cs a = Some a' ->
  wp (krun cs k) (fun '(rs, k') => refines k' a' /\ sched_inv idle a' /\ length rs = length cs).
Proof.
  revert k a. induction cs as [|c cs IH]; intros k a Hr HI Hs; simpl in *; [by simplify_eq|].
  apply bind_Some in Hs as (a1 & Hs1 & Hs). apply wp_bind. eapply wp_mono; [by apply (kexec_ok k a idle)|].
  intros [r k1] (Hr1 & HI1 & _). apply wp_bind. eapply wp_mono; [by apply (IH k1 a1)|].
  intros [rs k2] (H1 & H2 & H3). apply wp_ret. split; [done|]. split; [done|]. simpl. by rewrite H3.
Qed.

(** C6: from a kernel whose task lists represent an abstract scheduler, any
    sequence of block, unblock, lock, unlock, set-priority, yield and tick calls
    that respects the callers' contract runs to its end without a fault (no
    null or wild pointer, no failed assertion, no panic, no endless search),
    and leaves the lists, the states and the data of the tasks as the abstract
    scheduler says, in a state where the scheduler's invariant holds. *)
Theorem sched_refines `{SchedConfig} cs k a idle a' :
  refines k a -> sched_inv idle a -> asteps idle cs a = Some a' ->
  wp (krun cs k) (fun '(rs, k') => refines k' a' /\ sched_inv idle a' /\ length rs = length cs).
Proof. apply krun_ok. Qed.

Lemma sorted_head pr l x : sorted pr l -> x ∈ l -> pr x <= pr (hdp NULL l).
Proof.
  destruct l as [|h l]; [set_solver|]. intros Hs Hx. apply StronglySorted_inv in Hs as [_ Hs].
  apply elem_of_cons in Hx as [->|Hx]; [done|]. rewrite Forall_forall in Hs. by apply Hs.
Qed.

(** C7: after any such sequence of calls the task at the head of g_readytorun,
    which is the one that runs, is marked running and has the highest priority
    of the ready tasks; the others are marked ready; and when it does not hold
    the scheduler lock no task is waiting in g_pendingtasks, so none of higher
    priority is kept from running. *)
Theorem sched_runs_highest `{SchedConfig} cs k a idle a' :
  refines k a -> sched_inv idle a -> asteps idle cs a = Some a' ->
  wp (krun cs k) (fun '(rs, k') =>
    let x := dq_head (g_readytorun k') in
    (exists R, dq_repr (k_tcbs k') (g_readytorun k') (x :: R)
       /\ state_of (k_tcbs k') x = TSTATE_TASK_RUNNING
       /\ forall y, y ∈ R -> prio (k_tcbs k') y <= prio (k_tcbs k') x /\ state_of (k_tcbs k') y = TSTATE_TASK_READYTORUN)
    /\ (lockc (k_tcbs k') x = 0 -> dq_head (g_pendingtasks k') = NULL)).
Proof.
  intros Hr HI Hs. eapply wp_mono; [by apply (krun_ok cs k a idle)|]. intros [rs k'] (Hr' & [HC HP] & _). cbv zeta.
  rewrite (ref_run k' a' Hr'). pose proof (core_ready _ _ HC) as Hne. pose proof Hr' as (HR & _ & _). split.
  - pose proof (sr_list _ _ HR TL_readytorun) as Hq. pose proof (sr_run _ _ HR) as Hst.
    pose proof (ci_sorted _ _ HC TL_readytorun eq_refl) as Hso. unfold arun in *.
    destruct (as_lists a' TL_readytorun) as [|h R] eqn:EL; [done|]. simpl in *. exists R. destruct Hst as [Hst1 Hst2].
    split; [done|]. split; [done|]. intros y Hy. split; [|rewrite Forall_forall in Hst2; by apply Hst2].
    rewrite !(ref_prio k' a' Hr'). apply (sorted_head (apr a') (h :: R) y Hso). by right.
  - intros Hlk. apply (ref_pending k' a' Hr'). rewrite (ref_lockc k' a' Hr') in Hlk.
    destruct (as_lists a' TL_pendingtasks) eqn:Ep; [done|]. exfalso. unfold pend_inv in HP. rewrite Ep in HP. specialize (HP ltac:(done)). lia.
Qed.

(** A task that holds the scheduler lock is not preempted by a task that is
    unblocked, whatever its priority: contexts are not switched, and the
    unblocked task is kept in g_pendingtasks when it has the higher priority
    and put in g_readytorun otherwise. *)
Theorem locked_not_preempted `{SchedConfig} k a idle x l :
  refines k a -> sched_inv idle a -> x ∈ as_lists a l -> blocked_state (list_state l) = true -> 0 < alk a (arun a) ->
  wp (up_unblock_task x k) (fun '(b, k') =>
    b = false /\ dq_head (g_readytorun k') = dq_head (g_readytorun k)
    /\ state_of (k_tcbs k') x = if apr a (arun a) <? apr a x then TSTATE_TASK_PENDING else TSTATE_TASK_READYTORUN).
Proof.
  intros Hr HI Hx Hb Hlk. pose proof HI as [HC _].
  assert (l <> TL_readytorun) as Hl by (intros ->; done).
  pose proof Hr as (HR & _ & _). assert (x <> arun a) as Hxa.
  { intros E. apply Hl. eapply (sr_disj _ _ HR _ _ x Hx). rewrite E. by eapply core_run. }
  eapply wp_mono; [by apply (up_unblock_task_ok k a idle x l)|]. intros [b k'] (Hr' & HI' & ->).
  rewrite (ref_run k a Hr), (ref_run k' _ Hr'). revert Hr' HI'. unfold a_unblock.
  set (a2 := a_set (set_timeslice RR_TICKS) x (a_drop x a)).
  assert (forall y, apr a2 y = apr a y) as Epr by (intros y; by apply (apr_set _ x (a_drop x a) y)).
  assert (forall y, alk a2 y = alk a y) as Elk by (intros y; by apply (alk_set _ x (a_drop x a) y)).
  assert (arun a2 = arun a) as Erun by (apply (drop_run x a); congruence).
  assert (as_lists a2 TL_readytorun <> []) as Hne.
  { change (as_lists (a_drop x a) TL_readytorun <> []). rewrite (drop_other k a x l) by done. by eapply core_ready. }
  destruct (Z.ltb_spec (apr a (arun a)) (apr a x)) as [Hlt|Hge]; intros Hr' HI'.
  - assert (a_enter x a2 = a_upd TL_pendingtasks (ins (apr a2) x (as_lists a2 TL_pendingtasks)) a2) as Ee.
    { unfold a_enter. rewrite Erun, Elk, !Epr. destruct (Z.eqb_spec (alk a (arun a)) 0); [lia|]. simpl.
      destruct (Z.ltb_spec (apr a (arun a)) (apr a x)); [done|lia]. }
    rewrite Ee in *. change (arun (a_upd _ _ a2)) with (arun a2). rewrite Erun. split; [by apply bool_decide_false; intros []|].
    split; [done|]. pose proof Hr' as (HR' & _ & _). apply (sr_state _ _ HR' TL_pendingtasks); [done|].
    simpl. rewrite upd_eq. apply ins_elem. by left.
  - rewrite enter_lower in * by (rewrite ?Erun, ?Epr; done). rewrite Erun. split; [by apply bool_decide_false; intros []|].
    split; [done|]. rewrite (ref_state_ready k' (a_enter x a2) x Hr').
    + by rewrite enter_lower, Erun, decide_False by (rewrite ?Erun, ?Epr; done).
    + unfold a_enter. rewrite Erun, !Epr. destruct (Z.ltb_spec (apr a (arun a)) (apr a x)); [lia|]. rewrite andb_false_r.
      simpl. rewrite upd_eq. apply ins_elem. by left.
Qed.

(** sched_mergepending is a stable merge: without a fault or a panic it
    moves every pending task to g_readytorun and empties g_pendingtasks; the
    result is in descending order of priority, holds exactly the tasks of the
    two lists, and among tasks of one priority those that were ready stay ahead
    and each list keeps its order.  The returned flag tells whether a pending
    task became the running one. *)
Theorem mergepending_stable k a idle :
  refines k a -> core_inv idle a ->
  wp (sched_mergepending k) (fun '(b, k') => exists R,
    dq_repr (k_tcbs k') (g_readytorun k') R /\ g_pendingtasks k' = dq_init
    /\ R ≡ₚ as_lists a TL_readytorun ++ as_lists a TL_pendingtasks
    /\ sorted (prio (k_tcbs k')) R
    /\ (forall p, at_prio (prio (k_tcbs k)) p R
         = at_prio (prio (k_tcbs k)) p (as_lists a TL_readytorun) ++ at_prio (prio (k_tcbs k)) p (as_lists a TL_pendingtasks))
    /\ b = bool_decide (dq_head (g_readytorun k') ∈ as_lists a TL_pendingtasks)).
Proof.
  intros Hr HI. pose proof Hr as (HR & _ & _). set (pr := prio (k_tcbs k)).
  assert (forall l, prioritized l = true -> sorted pr (as_lists a l)) as Hs.
  { intros l Hl. eapply sorted_ext; [|by apply (ci_sorted _ _ HI)]. intros; apply (ref_prio k a Hr). }
  eapply wp_mono; [apply (sched_mergepending_spec k (as_lists a) HR)|].
  - by eapply core_ready.
  - by apply Hs.
  - intros p Hp. rewrite !(ref_prio k a Hr). by apply (core_pending idle).
  - intros [b k'] (H1 & H2 & _ & H4). exists (merged pr (as_lists a TL_readytorun) (as_lists a TL_pendingtasks)).
    pose proof (sr_list _ _ H1 TL_readytorun) as Q1. pose proof (sr_list _ _ H1 TL_pendingtasks) as Q2.
    split; [exact Q1|]. split; [exact (dq_repr_queue _ _ _ Q2)|]. split; [rewrite merged_perm; apply Permutation_app_comm|].
    split; [|split; [intros p; by apply merged_fifo, Hs|]].
    + eapply (sorted_ext pr); [|apply merged_sorted; by apply Hs]. intros y _. unfold pr.
      rewrite <- (prio_tbody (k_tcbs k')), H2. apply prio_tbody.
    + rewrite H4. apply bool_decide_ext. by rewrite (sr_ready _ _ H1).
Qed.

(** sched_addprioritized puts a task behind all the tasks of the same or a
    higher priority: the list stays in descending order, and within a priority
    the order is first come, first served.  It answers whether the task is the
    new head and changes nothing but links. *)
Theorem addprioritized_fifo m q l x :
  dq_repr m q l -> sorted (prio m) l -> valid m x -> x ∉ l -> SCHED_PRIORITY_MIN <= prio m x ->
  wp (sched_addprioritized x q m) (fun '(b, (q', m')) => exists l',
    dq_repr m' q' l' /\ l' ≡ₚ x :: l /\ sorted (prio m') l'
    /\ (forall p, at_prio (prio m) p l' = at_prio (prio m) p l ++ at_prio (prio m) p [x])
    /\ (forall y, dunlink <$> m' !! y = dunlink <$> m !! y)
    /\ b = bool_decide (dq_head q' = x)).
Proof.
  intros Hq Hs Hv Hx Hp. eapply wp_mono; [by apply (sched_addprioritized_spec m q l x)|].
  intros [b [q' m']] (H1 & H2 & H3). exists (ins (prio m) x l). split; [done|]. split; [apply ins_perm|].
  split; [|split; [intros p; by apply ins_fifo|split; [apply H2|]]].
  - eapply sorted_ext; [|by apply ins_sorted]. intros y _. by apply (frame_unlink_fields _ _ _ y H2).
  - by rewrite H3, (dqr_head _ _ _ H1).
Qed.

Lemma apr_set_same x a y : apr (a_set (set_sched_priority (apr a x)) x a) y = apr a y.
Proof.
  unfold apr, prio. simpl. destruct (decide (x = y)) as [<-|Hne].
  - rewrite lookup_alter_eq. by destruct (as_tasks a !! x).
  - by rewrite lookup_alter_ne.
Qed.

Lemma reprio_tasks x p a : as_tasks (a_reprio x p a) = alter (set_sched_priority p) x (as_tasks a).
Proof. unfold a_reprio, a_enter. by repeat case_match. Qed.

Lemma reprio_rotate a x l1 l2 :
  as_lists a TL_readytorun = x :: l1 ++ l2 -> l1 <> [] -> x ∉ l1 -> as_lists a TL_pendingtasks = [] ->
  Forall (fun y => apr a y = apr a x) l1 -> Forall (fun y => apr a y < apr a x) l2 ->
  as_lists (a_reprio x (apr a x) a) TL_readytorun = l1 ++ x :: l2.
Proof.
  intros EL Hl1 Hx Hpe Heq Hlt. unfold a_reprio. set (mid := a_set _ x (a_drop x a)).
  assert (forall y, apr mid y = apr a y) as Epr by (intros y; apply (apr_set_same x (a_drop x a))).
  assert (as_lists mid TL_readytorun = l1 ++ l2) as Em by (simpl; rewrite EL; simpl; by rewrite decide_True).
  assert (arun mid = hdp NULL l1) as Er by (unfold arun; rewrite Em; by apply hdp_app_ne).
  rewrite Forall_forall in Heq. pose proof (hdp_elem NULL l1 Hl1) as Hh.
  assert (a_enter x mid = a_upd TL_readytorun (l1 ++ x :: l2) mid) as ->.
  { unfold a_enter. rewrite Er, !Epr, (Heq _ Hh), Z.ltb_irrefl, andb_false_r, Em. f_equal. apply ins_split.
    - apply Forall_forall. intros y Hy. rewrite !Epr, (Heq _ Hy). lia.
    - destruct l2 as [|z l2]; [by left|]. right. rewrite !Epr. by apply Forall_cons in Hlt as [? _]. }
  rewrite decide_False.
  - unfold a_merge, merge_lists, a_upd. cbn [as_lists]. rewrite upd_ne, upd_eq, upd_eq, upd_ne by done. simpl. by rewrite Hpe.
  - unfold arun. simpl. rewrite upd_eq, EL, hdp_app_ne by done. simpl. intros E. by rewrite E in Hh.
Qed.

(** Round robin.  When the slice of a round-robin task ends and the
    scheduler is not locked, the task goes behind the ready tasks of its
    priority, ahead of those of lower priority; contexts are switched to the
    first of its equals; and its slice is renewed. *)
Theorem tick_rotates `{SchedConfig} k a idle x l1 l2 :
  refines k a -> sched_inv idle a -> as_lists a TL_readytorun = x :: l1 ++ l2 -> l1 <> [] ->
  Forall (fun y => apr a y = apr a x) l1 -> Forall (fun y => apr a y < apr a x) l2 ->
  Z.land (a_flags a x) TCB_FLAG_ROUND_ROBIN <> 0 -> a_slice a x <= 1 -> alk a x = 0 ->
  wp (sched_process_timeslice k) (fun '(b, k') =>
    dq_repr (k_tcbs k') (g_readytorun k') (l1 ++ x :: l2)
    /\ dq_head (g_readytorun k') = hdp NULL l1 /\ b = true
    /\ from_option timeslice 0 (k_tcbs k' !! x) = RR_TICKS).
Proof.
  intros Hr HI EL Hl1 Heq Hlt Hfl Hsl Hlk. eapply wp_mono; [by apply (tick_ok k a idle)|].
  intros [b k'] (Hr' & HI' & Hb). pose proof Hr' as (HR' & ET & _). pose proof Hr as (HR & _ & _).
  pose proof (sr_nodup _ _ TL_readytorun HR) as Hnd. rewrite EL in Hnd. apply NoDup_cons in Hnd as [Hx _].
  assert (arun a = x) as Ex by (unfold arun; by rewrite EL). pose proof (hdp_elem NULL l1 Hl1) as Hh.
  assert (a_next a = hdp NULL l1) as En by (unfold a_next; rewrite EL; by apply hdp_app_ne).
  assert (a_next a <> NULL) as En0.
  { rewrite En. intros E. apply (sr_nonnull _ _ TL_readytorun HR). rewrite EL, <- E. set_solver. }
  set (a' := a_set (set_timeslice RR_TICKS) x a).
  assert (a_tick a = a_reprio x (apr a' x) a') as Et.
  { unfold a_tick. rewrite Ex, Hlk. destruct (Z.eqb_spec (Z.land (a_flags a x) TCB_FLAG_ROUND_ROBIN) 0); [done|].
    destruct (Z.ltb_spec 1 (a_slice a x)); [lia|]. cbn [negb Z.eqb]. fold a'. unfold a' at 3. rewrite apr_set by done.
    rewrite decide_True; [done|]. split; [done|]. rewrite En. rewrite Forall_forall in Heq. by rewrite (Heq _ Hh). }
  assert (forall y, apr a' y = apr a y) as Epr by (intros y; by apply apr_set).
  assert (as_lists a TL_pendingtasks = []) as Hpe.
  { destruct HI as [_ HP]. unfold pend_inv in HP. rewrite Ex, Hlk in HP. destruct (as_lists a TL_pendingtasks); [done|].
    by specialize (HP ltac:(done)). }
  assert (as_lists (a_tick a) TL_readytorun = l1 ++ x :: l2) as Ee.
  { rewrite Et. apply (reprio_rotate a'); try done; [set_solver|..]; (eapply Forall_impl; [done|]); intros y; by rewrite !Epr. }
  pose proof (sr_list _ _ HR' TL_readytorun) as Hq. rewrite Ee in Hq.
  assert (dq_head (g_readytorun k') = hdp NULL l1) as Ehd by (rewrite (sr_ready _ _ HR'), Ee; by apply hdp_app_ne).
  split; [exact Hq|]. split; [done|]. split.
  - destruct b; [done|]. specialize (Hb eq_refl). rewrite <- (ref_run k' _ Hr'), Ehd, Ex in Hb. set_solver.
  - assert (exists t, k_tcbs k' !! x = Some t) as [t Ext] by (apply (valid_lookup (k_tcbs k')); eapply (sr_valid _ _ TL_readytorun _ HR'); rewrite Ee; set_solver).
    rewrite Ext. simpl. rewrite <- (proj2 (ref_data_flags _ _ _ _ Hr' Ext)).
    rewrite Et. unfold a_slice. rewrite reprio_tasks, lookup_alter_eq. simpl. rewrite lookup_alter_eq.
    assert (is_Some (as_tasks a !! x)) as [t' ->]; [|done].
    eapply (ref_is_Some k a); [done|]. eapply (sr_valid _ _ TL_readytorun _ HR). rewrite EL. left.
Qed.

(** ** A kernel of six tasks *)

Definition demo_tcb (fl bl pid p : Z) (s : tstate) (lk : Z) : TCB := Tcb fl bl pid p s TCB_FLAG_ROUND_ROBIN lk 1 NULL NULL 0.

(** The idle task is at 16; 32 runs and 48 and 64 are ready, of equal priority;
    80, of a higher priority, waits for a semaphore and 96 for a signal. *)
Definition demo_tcbs (lk : Z) : gmap Z TCB :=
  list_to_map [(32, demo_tcb 48 0 1 100 TSTATE_TASK_RUNNING lk); (48, demo_tcb 64 32 2 100 TSTATE_TASK_READYTORUN 0);
    (64, demo_tcb 16 48 3 100 TSTATE_TASK_READYTORUN 0); (16, demo_tcb 0 64 0 0 TSTATE_TASK_READYTORUN 0);
    (80, demo_tcb 0 0 4 200 TSTATE_WAIT_SEM 0); (96, demo_tcb 0 0 5 50 TSTATE_WAIT_SIG 0)].

Definition demo_kernel (lk : Z) : kernel :=
  Kernel (demo_tcbs lk) (DqQueue 32 16) dq_init dq_init (DqQueue 80 80) (DqQueue 96 96) dq_init dq_init false.

Definition demo_lists : tasklist -> list Z := fun l =>
  match l with
  | TL_readytorun => [32; 48; 64; 16]
  | TL_waitingforsemaphore => [80]
  | TL_waitingforsignal => [96]
  | _ => []
  end.

Definition demo_sched (lk : Z) : asched := ASched (tbody <$> demo_tcbs lk) demo_lists false.

#[local] Ltac demo_seg := repeat (split; [eexists; split; [vm_compute; reflexivity|split; reflexivity]|]); exact I.
#[local] Ltac demo_elem H := repeat (apply elem_of_cons in H as [->|H]); try (by apply not_elem_of_nil in H).

Lemma demo_refines lk : refines (demo_kernel lk) (demo_sched lk).
Proof.
  split; [|done]. split.
  - intros l. split; [by destruct l|by destruct l| | |].
    + destruct l; demo_seg.
    + apply (bool_decide_unpack _). by destruct l.
    + apply (bool_decide_unpack _). by destruct l.
  - intros l l' x H H'. destruct l, l'; try done; simpl in *; exfalso; set_unfold in H; set_unfold in H'; lia.
  - split; [done|]. repeat constructor.
  - intros l x Hl Hx. destruct l; try done; simpl in Hx; demo_elem Hx; done.
Qed.

Lemma demo_inv lk : 0 <= lk <= 127 -> sched_inv 16 (demo_sched lk).
Proof.
  intros Hlk. split; [|by intros []]. split.
  - intros l _. destruct l; simpl; repeat constructor; vm_compute; discriminate.
  - by exists [32; 48; 64].
  - done.
  - intros l x Hx Hi. destruct l; simpl in Hx; demo_elem Hx; try done; vm_compute; by split.
  - intros l x Hx. destruct l; simpl in Hx; demo_elem Hx; vm_compute; split; try discriminate; try (apply Hlk).
  - intros l Hl. destruct l; simpl; set_solver.
Qed.

#[export] Instance demo_config : SchedConfig := { RR_TICKS := 20 }.

Definition demo_calls : list kcall :=
  [KLock; KUnblock 80; KUnlock; KSetPriority 80 60; KTick; KYield; KBlock TL_waitingforsemaphore; KUnblock 96; KSetPriority 96 300].

Definition demo_end : asched := default (demo_sched 0) (asteps 16 demo_calls (demo_sched 0)).

Lemma demo_steps : asteps 16 demo_calls (demo_sched 0) = Some demo_end.
Proof.
  unfold demo_end. assert (match asteps 16 demo_calls (demo_sched 0) with Some _ => true | None => false end = true) as H
    by (vm_compute; reflexivity).
  by destruct (asteps 16 demo_calls (demo_sched 0)).
Qed.

Lemma sched_refines_witness :
  wp (krun demo_calls (demo_kernel 0)) (fun '(rs, k') =>
    refines k' demo_end /\ sched_inv 16 demo_end /\ length rs = length demo_calls)
  /\ as_lists demo_end TL_readytorun = [32; 48; 80; 96; 16].
Proof.
  split; [|vm_compute; reflexivity].
  apply (sched_refines demo_calls (demo_kernel 0) (demo_sched 0) 16 demo_end); [apply demo_refines|apply demo_inv; lia|apply demo_steps].
Defined.

Lemma sched_runs_highest_witness :
  wp (krun demo_calls (demo_kernel 0)) (fun '(rs, k') =>
    let x := dq_head (g_readytorun k') in
    (exists R, dq_repr (k_tcbs k') (g_readytorun k') (x :: R)
       /\ state_of (k_tcbs k') x = TSTATE_TASK_RUNNING
       /\ forall y, y ∈ R -> prio (k_tcbs k') y <= prio (k_tcbs k') x /\ state_of (k_tcbs k') y = TSTATE_TASK_READYTORUN)
    /\ (lockc (k_tcbs k') x = 0 -> dq_head (g_pendingtasks k') = NULL)).
Proof.
  apply (sched_runs_highest demo_calls (demo_kernel 0) (demo_sched 0) 16 demo_end); [apply demo_refines|apply demo_inv; lia|apply demo_steps].
Defined.

Lemma locked_not_preempted_witness :
  wp (up_unblock_task 80 (demo_kernel 1)) (fun '(b, k') =>
    b = false /\ dq_head (g_readytorun k') = 32 /\ state_of (k_tcbs k') 80 = TSTATE_TASK_PENDING).
Proof.
  apply (locked_not_preempted (demo_kernel 1) (demo_sched 1) 16 80 TL_waitingforsemaphore);
    [apply demo_refines|apply demo_inv; lia|by left|reflexivity|vm_compute; reflexivity].
Defined.

(** The lists of a kernel where 80 waits in g_pendingtasks. *)
Definition demo_pending : kernel :=
  match up_unblock_task 80 (demo_kernel 1) with Ok (_, k) => k | Err _ => demo_kernel 1 end.

Lemma demo_pending_ok : refines demo_pending (a_unblock 80 (demo_sched 1)) /\ core_inv 16 (a_unblock 80 (demo_sched 1)).
Proof.
  pose proof (up_unblock_task_ok (demo_kernel 1) (demo_sched 1) 16 80 TL_waitingforsemaphore (demo_refines 1)
    (demo_inv 1 ltac:(lia)) ltac:(by left) eq_refl) as H.
  unfold demo_pending. destruct (up_unblock_task 80 (demo_kernel 1)) as [[b k]|]; [|done]. by destruct H as (? & [? _] & _).
Qed.

Lemma mergepending_stable_witness :
  let a := a_unblock 80 (demo_sched 1) in
  let k := demo_pending in
  as_lists a TL_pendingtasks = [80] /\
  wp (sched_mergepending k) (fun '(b, k') => exists R,
    dq_repr (k_tcbs k') (g_readytorun k') R /\ g_pendingtasks k' = dq_init
    /\ R ≡ₚ as_lists a TL_readytorun ++ as_lists a TL_pendingtasks
    /\ sorted (prio (k_tcbs k')) R
    /\ (forall p, at_prio (prio (k_tcbs k)) p R
         = at_prio (prio (k_tcbs k)) p (as_lists a TL_readytorun) ++ at_prio (prio (k_tcbs k)) p (as_lists a TL_pendingtasks))
    /\ b = bool_decide (dq_head (g_readytorun k') ∈ as_lists a TL_pendingtasks)).
Proof.
  split; [vm_compute; reflexivity|].
  apply (mergepending_stable demo_pending (a_unblock 80 (demo_sched 1)) 16); apply demo_pending_ok.
Defined.

Lemma addprioritized_fifo_witness :
  let m := alter (set_sched_priority 100) 80 (demo_tcbs 0) in
  wp (sched_addprioritized 80 (DqQueue 32 16) m) (fun '(b, (q', m')) => exists l',
    dq_repr m' q' l' /\ l' ≡ₚ 80 :: [32; 48; 64; 16] /\ sorted (prio m') l'
    /\ (forall p, at_prio (prio m) p l' = at_prio (prio m) p [32; 48; 64; 16] ++ at_prio (prio m) p [80])
    /\ (forall y, dunlink <$> m' !! y = dunlink <$> m !! y)
    /\ b = bool_decide (dq_head q' = 80)).
Proof.
  apply (addprioritized_fifo (alter (set_sched_priority 100) 80 (demo_tcbs 0)) (DqQueue 32 16) [32; 48; 64; 16] 80).
  - split; [done|done|demo_seg|by apply (bool_decide_unpack _)|by apply (bool_decide_unpack _)].
  - repeat constructor; vm_compute; discriminate.
  - split; [done|]. eexists. vm_compute. reflexivity.
  - by apply (bool_decide_unpack _).
  - vm_compute. discriminate.
Defined.

Lemma tick_rotates_witness :
  wp (sched_process_timeslice (demo_kernel 0)) (fun '(b, k') =>
    dq_repr (k_tcbs k') (g_readytorun k') ([48; 64] ++ 32 :: [16])
    /\ dq_head (g_readytorun k') = hdp NULL [48; 64] /\ b = true
    /\ from_option timeslice 0 (k_tcbs k' !! 32) = RR_TICKS).
Proof.
  apply (tick_rotates (demo_kernel 0) (demo_sched 0) 16 32 [48; 64] [16]);
    [apply demo_refines|apply demo_inv; lia|reflexivity|done|repeat constructor|repeat constructor|done|done|reflexivity].
Defined.
