(* ===== verification/Sem.v ===== *)
(** * Counting semaphores: operations (src/nuttx/sched/sem_*.c, src/nuttx/lib/semaphore)

    Semaphores of a build without priority inheritance, where a semaphore is
    its 16-bit count and the holder bookkeeping is empty.  [sem_wait] is cut
    where the caller is suspended: it returns [WaitBlocked] after the call of
    [up_block_task], and [sem_wait_resumed] is the rest, run when the caller is
    the running task again.  Debug assertions are checked. *)

From S2P Require Import Prelude Queue Sched.

Definition SEM_VALUE_MAX : Z := 32767.
Definition EPERM : Z := 1.
Definition EINTR : Z := 4.
Definition EAGAIN : Z := 11.
Definition EBUSY : Z := 16.
Definition ETIMEDOUT : Z := 110.

Record sem_sys : Type := SemSys {
  s_kernel : kernel;
  s_sems : gmap Z Z;
  g_irqerrno : Z
}.

Definition with_kernel (k : kernel) (s : sem_sys) : sem_sys := SemSys k (s_sems s) (g_irqerrno s).
Definition with_tcbs (m : gmap Z TCB) (s : sem_sys) : sem_sys := with_kernel (set_tcbs m (s_kernel s)) s.
Definition with_sems (c : gmap Z Z) (s : sem_sys) : sem_sys := SemSys (s_kernel s) c (g_irqerrno s).

(** ** errno *)

(** [Some rtcb] stands for [&rtcb->pterrno], [None] for [&g_irqerrno]. *)
Definition get_errno_ptr (k : kernel) : res (option ptr) :=
  if negb (k_interrupt k) then
    let rtcb := dq_head (g_readytorun k) in
    r ← deref (k_tcbs k) rtcb;
    Ok (if decide (task_state r = TSTATE_TASK_RUNNING) then Some rtcb else None)
  else Ok None.

Definition set_errno (e : Z) (s : sem_sys) : res sem_sys :=
  p ← get_errno_ptr (s_kernel s);
  match p with
  | Some x => m ← store (set_pterrno e) x (k_tcbs (s_kernel s)); Ok (with_tcbs m s)
  | None => Ok (SemSys (s_kernel s) (s_sems s) e)
  end.

Definition get_errno (s : sem_sys) : res Z :=
  p ← get_errno_ptr (s_kernel s);
  match p with
  | Some x => t ← deref (k_tcbs (s_kernel s)) x; Ok (pterrno t)
  | None => Ok (g_irqerrno s)
  end.

(** ** The semaphore calls; [true] is a return of OK and [false] one of ERROR *)

Definition sem_init (sem : ptr) (value : Z) (s : sem_sys) : res (bool * sem_sys) :=
  if decide (sem <> NULL /\ u32 value <= SEM_VALUE_MAX) then
    Ok (true, with_sems (<[sem := s16 (u32 value)]> (s_sems s)) s)
  else
    s ← set_errno EINVAL s;
    Ok (false, s).

Definition sem_getvalue (sem : ptr) (sval : option Z) (s : sem_sys) : res ((bool * option Z) * sem_sys) :=
  if decide (sem <> NULL /\ sval <> None) then
    c ← deref (s_sems s) sem;
    Ok (true, Some c, s)
  else
    s ← set_errno EINVAL s;
    Ok (false, sval, s).

Definition sem_destroy (sem : ptr) (s : sem_sys) : res (bool * sem_sys) :=
  if decide (sem <> NULL) then
    c ← deref (s_sems s) sem;
    if 0 <=? c then
      sems ← store (fun _ => 1) sem (s_sems s);
      Ok (true, with_sems sems s)
    else Ok (true, s)
  else
    s ← set_errno (- EINVAL) s;
    Ok (false, s).

Inductive wait_result : Type :=
| WaitRet (ok : bool)
| WaitBlocked.

Definition sem_wait (sem : ptr) (s : sem_sys) : res (wait_result * sem_sys) :=
  let rtcb := dq_head (g_readytorun (s_kernel s)) in
  _ ← c_assert (negb (k_interrupt (s_kernel s)));
  s ← set_errno EINVAL s;
  if decide (sem = NULL) then Ok (WaitRet false, s)
  else
    c ← deref (s_sems s) sem;
    if 0 <? c then
      sems ← store (fun c => s16 (c - 1)) sem (s_sems s);
      m ← store (set_waitsem NULL) rtcb (k_tcbs (s_kernel s));
      Ok (WaitRet true, with_tcbs m (with_sems sems s))
    else
      r ← deref (k_tcbs (s_kernel s)) rtcb;
      if decide (waitsem r <> NULL) then c_panic
      else
        sems ← store (fun c => s16 (c - 1)) sem (s_sems s);
        m ← store (set_waitsem sem) rtcb (k_tcbs (s_kernel s));
        s ← set_errno 0 (with_tcbs m (with_sems sems s));
        '(_, k) ← up_block_task rtcb TSTATE_WAIT_SEM (s_kernel s);
        Ok (WaitBlocked, with_kernel k s).

(** The rest of [sem_wait], after the task was restarted. *)
Definition sem_wait_resumed (s : sem_sys) : res bool :=
  e ← get_errno s;
  if negb (e =? EINTR) then
    e ← get_errno s;
    Ok (negb (e =? ETIMEDOUT))
  else Ok false.

Definition sem_trywait (sem : ptr) (s : sem_sys) : res (bool * sem_sys) :=
  let rtcb := dq_head (g_readytorun (s_kernel s)) in
  _ ← c_assert (negb (k_interrupt (s_kernel s)));
  s ← set_errno EINVAL s;
  if decide (sem = NULL) then Ok (false, s)
  else
    s ← set_errno EAGAIN s;
    c ← deref (s_sems s) sem;
    if 0 <? c then
      sems ← store (fun c => s16 (c - 1)) sem (s_sems s);
      m ← store (set_waitsem NULL) rtcb (k_tcbs (s_kernel s));
      Ok (true, with_tcbs m (with_sems sems s))
    else Ok (false, s).

(** [for (stcb = head; stcb && stcb->waitsem != sem; stcb = stcb->flink);] *)
Fixpoint sem_search (fuel : nat) (m : gmap Z TCB) (stcb sem : ptr) : res ptr :=
  match fuel with
  | O => Err FFuel
  | S fuel =>
      if decide (stcb = NULL) then Ok NULL
      else
        t ← deref m stcb;
        if decide (waitsem t <> sem) then sem_search fuel m (t_flink t) sem else Ok stcb
  end.

(** The second boolean tells whether contexts were switched. *)
Definition sem_post `{SchedConfig} (sem : ptr) (s : sem_sys) : res ((bool * bool) * sem_sys) :=
  if decide (sem = NULL) then Ok (false, false, s)
  else
    c ← deref (s_sems s) sem;
    _ ← c_assert (c <? SEM_VALUE_MAX);
    sems ← store (fun c => s16 (c + 1)) sem (s_sems s);
    let s := with_sems sems s in
    c ← deref (s_sems s) sem;
    if c <=? 0 then
      let m := k_tcbs (s_kernel s) in
      stcb ← sem_search (list_fuel m) m (dq_head (g_waitingforsemaphore (s_kernel s))) sem;
      if decide (stcb <> NULL) then
        m ← store (set_waitsem NULL) stcb m;
        '(b, k) ← up_unblock_task stcb (set_tcbs m (s_kernel s));
        Ok (true, b, with_kernel k s)
      else Ok (true, false, s)
    else Ok (true, false, s).

Definition sem_waitirq `{SchedConfig} (wtcb : ptr) (errcode : Z) (s : sem_sys) : res (bool * sem_sys) :=
  t ← deref (k_tcbs (s_kernel s)) wtcb;
  if decide (task_state t = TSTATE_WAIT_SEM) then
    let sem := waitsem t in
    _ ← c_assert (bool_decide (sem <> NULL));
    c ← deref (s_sems s) sem;
    _ ← c_assert (c <? 0);
    sems ← store (fun c => s16 (c + 1)) sem (s_sems s);
    m ← store (set_waitsem NULL) wtcb (k_tcbs (s_kernel s));
    m ← store (set_pterrno errcode) wtcb m;
    '(b, k) ← up_unblock_task wtcb (set_tcbs m (s_kernel s));
    Ok (b, with_kernel k (with_sems sems s))
  else Ok (false, s).
