(* ===== verification/SemSpec.v ===== *)
(** * Counting semaphores: specification and theorems

    A semaphore promises to behave as a counter with a queue: [cs_wait] takes a
    count or joins the queue at the caller's priority, [cs_post] hands a count
    to the head of the queue or adds it to the counter.  [sem_view] reads the
    counter and the queue of a semaphore from the 16-bit count and from the
    waitsem fields of the tasks in g_waitingforsemaphore; the theorems say that
    the calls do to the view what [cs_wait] and [cs_post] say. *)

From stdpp Require Import sorting.
From S2P Require Import Prelude Queue Sched SchedInv SchedOps SchedSpec Sem.

(** ** The abstract semaphore *)

Record csem : Type := CSem { cs_avail : Z; cs_queue : list Z }.

Definition cs_wait (pr : Z -> Z) (x : Z) (c : csem) : csem :=
  if 0 <? cs_avail c then CSem (cs_avail c - 1) (cs_queue c) else CSem 0 (ins pr x (cs_queue c)).

Definition cs_post (c : csem) : csem :=
  match cs_queue c with
  | [] => CSem (cs_avail c + 1) []
  | _ :: q => CSem (cs_avail c) q
  end.

(** A waiter leaves without having got a count. *)
Definition cs_cancel (x : Z) (c : csem) : csem := CSem (cs_avail c) (list_rem x (cs_queue c)).

(** ** Reading a semaphore *)

Definition a_wait (a : asched) (x : Z) : Z := from_option waitsem NULL (as_tasks a !! x).
Definition a_pid (a : asched) (x : Z) : Z := from_option t_pid 0 (as_tasks a !! x).
Definition a_errno (a : asched) (x : Z) : Z := from_option pterrno 0 (as_tasks a !! x).

Definition waiters (s : Z) (a : asched) : list Z := filter (fun x => a_wait a x = s) (as_lists a TL_waitingforsemaphore).

Definition sem_view (s : Z) (sems : gmap Z Z) (a : asched) : csem :=
  CSem (Z.max 0 (default 0 (sems !! s))) (waiters s a).

Record sem_inv (sems : gmap Z Z) (a : asched) : Prop := SemInv {
  sv_count : forall s c, sems !! s = Some c ->
    s <> NULL /\ c <= SEM_VALUE_MAX /\ Z.of_nat (length (waiters s a)) = Z.max 0 (- c);
  sv_waits : forall x, x ∈ as_lists a TL_waitingforsemaphore -> is_Some (sems !! a_wait a x);
  sv_others : forall l x, l <> TL_waitingforsemaphore -> x ∈ as_lists a l -> a_wait a x = NULL;
  sv_small : Z.of_nat (size (as_tasks a)) <= SEM_VALUE_MAX
}.

(** A system whose kernel represents [a]. *)
Definition sem_refines (idle : Z) (s : sem_sys) (a : asched) : Prop :=
  refines (s_kernel s) a /\ sched_inv idle a /\ sem_inv (s_sems s) a.

(** What the calls make of the running task and of the waiters. *)
Definition a_take (a : asched) : asched := a_set (set_waitsem NULL) (arun a) (a_set (set_pterrno EINVAL) (arun a) a).
Definition a_sleep (sem : Z) (a : asched) : asched :=
  let x := arun a in
  a_block TL_waitingforsemaphore (a_set (set_pterrno 0) x (a_set (set_waitsem sem) x (a_set (set_pterrno EINVAL) x a))).
Definition a_try (ok : bool) (a : asched) : asched :=
  let a' := a_set (set_pterrno EAGAIN) (arun a) (a_set (set_pterrno EINVAL) (arun a) a) in
  if ok then a_set (set_waitsem NULL) (arun a) a' else a'.
Definition a_wake `{SchedConfig} (sem : Z) (a : asched) : asched :=
  match waiters sem a with
  | [] => a
  | x :: _ => a_unblock x (a_set (set_waitsem NULL) x a)
  end.
Definition a_cancel `{SchedConfig} (x e : Z) (a : asched) : asched :=
  a_unblock x (a_set (set_pterrno e) x (a_set (set_waitsem NULL) x a)).

(** ** Filtering a list kept in order *)

Lemma ins_none pr x l : Forall (fun y => pr y < pr x) l -> ins pr x l = x :: l.
Proof. destruct 1 as [|y l Hy _]; [done|]. simpl. destruct (Z.leb_spec (pr x) (pr y)); [lia|done]. Qed.

Lemma filter_ins_in (P : Z -> Prop) `{forall y, Decision (P y)} pr x l :
  P x -> sorted pr l -> filter P (ins pr x l) = ins pr x (filter P l).
Proof.
  intros Hx. induction 1 as [|y l Hs IH Hy]; [cbn [ins]; by rewrite filter_cons_True|]. simpl ins.
  destruct (Z.leb_spec (pr x) (pr y)) as [Hle|Hlt].
  - rewrite !(filter_cons _ y). case_decide; [|done]. simpl. destruct (Z.leb_spec (pr x) (pr y)); [|lia]. by rewrite IH.
  - rewrite filter_cons_True by done. rewrite ins_none; [done|]. apply Forall_forall. intros z [_ Hz]%list_elem_of_filter.
    apply elem_of_cons in Hz as [->|Hz]; [done|]. rewrite Forall_forall in Hy. specialize (Hy z Hz). simpl in Hy. lia.
Qed.

Lemma filter_ins_out (P : Z -> Prop) `{forall y, Decision (P y)} pr x l : ~ P x -> filter P (ins pr x l) = filter P l.
Proof.
  intros Hx. induction l as [|y l IH]; [cbn [ins]; by rewrite filter_cons_False|]. simpl ins. case_match.
  - rewrite !(filter_cons _ y). by rewrite IH.
  - by rewrite filter_cons_False.
Qed.

Lemma filter_list_rem (P : Z -> Prop) `{forall y, Decision (P y)} x l : filter P (list_rem x l) = if decide (P x) then list_rem x (filter P l) else filter P l.
Proof.
  induction l as [|y l IH]; [by case_decide|]. simpl list_rem. destruct (decide (y = x)) as [->|Hne].
  - case_decide; [rewrite filter_cons_True by done; simpl; by rewrite decide_True|by rewrite filter_cons_False].
  - rewrite !(filter_cons _ y), IH. repeat case_decide; try done. simpl. by rewrite decide_False.
Qed.

Lemma filter_same (P Q : Z -> Prop) `{forall y, Decision (P y)} `{forall y, Decision (Q y)} (l : list Z) :
  (forall y, y ∈ l -> P y <-> Q y) -> filter P l = filter Q l.
Proof.
  induction l as [|y l IH]; intros HPQ; [done|]. rewrite !filter_cons.
  rewrite IH by (intros; apply HPQ; by right). pose proof (HPQ y ltac:(left)). repeat case_decide; tauto || done.
Qed.

(** ** What the scheduler operations do to the waiters *)

Lemma field_set {A} (g : TCB -> A) d f x a y :
  (forall t, g (f t) = g t) -> from_option g d (as_tasks (a_set f x a) !! y) = from_option g d (as_tasks a !! y).
Proof.
  intros Hf. simpl. destruct (decide (x = y)) as [<-|]; [|by rewrite lookup_alter_ne].
  rewrite lookup_alter_eq. destruct (as_tasks a !! x); simpl; auto.
Qed.

Section views.
  Context (k : kernel) (a : asched) (idle : Z).
  Hypothesis Hr : refines k a.
  Hypothesis HI : core_inv idle a.

Lemma wait_set_ne f x y : x <> y -> a_wait (a_set f x a) y = a_wait a y.
Proof. intros. unfold a_wait. simpl. by rewrite lookup_alter_ne. Qed.

Lemma wait_set_same f x y : (forall t, waitsem (f t) = waitsem t) -> a_wait (a_set f x a) y = a_wait a y.
Proof.
  intros Hf. unfold a_wait. simpl. destruct (decide (x = y)) as [<-|]; [|by rewrite lookup_alter_ne].
  rewrite lookup_alter_eq. destruct (as_tasks a !! x); simpl; auto.
Qed.

Lemma wait_set s x : is_Some (as_tasks a !! x) -> a_wait (a_set (set_waitsem s) x a) x = s.
Proof. intros [t Et]. unfold a_wait. simpl. by rewrite lookup_alter_eq, Et. Qed.

Lemma size_set f x : size (as_tasks (a_set f x a)) = size (as_tasks a).
Proof. simpl. by rewrite <- !(size_dom (D := gset Z)), dom_alter_L. Qed.

(** The running task blocks on a semaphore. *)
Lemma block_lists : as_lists (a_block TL_waitingforsemaphore a) TL_waitingforsemaphore
  = ins (apr a) (arun a) (as_lists a TL_waitingforsemaphore).
Proof.
  unfold a_block, a_merge, merge_lists, a_upd. cbn [as_lists]. rewrite !upd_ne, upd_eq by done.
  unfold enqueue. cbn [prioritized list_state g_tasklisttable snd]. f_equal. simpl. apply list_rem_absent.
  intros Hx. destruct Hr as (HR & _ & _). by pose proof (sr_disj _ _ HR _ _ _ Hx (core_run _ _ HI)).
Qed.

Lemma block_members l x : l <> TL_waitingforsemaphore ->
  x ∈ as_lists (a_block TL_waitingforsemaphore a) l -> exists l', l' <> TL_waitingforsemaphore /\ x ∈ as_lists a l'.
Proof.
  intros Hl. unfold a_block, a_merge, merge_lists, a_upd. cbn [as_lists]. unfold upd at 1. case_decide; [set_solver|].
  unfold upd at 1. case_decide.
  - rewrite !upd_ne, merged_perm by done. rewrite elem_of_app. simpl. intros [Hy|Hy]; apply list_rem_elem in Hy; (eexists; split; [|exact Hy]; done).
  - rewrite upd_ne by done. simpl. intros Hy%list_rem_elem. eexists; split; [|exact Hy]; done.
Qed.

(** A task waiting for a semaphore is unblocked. *)
Lemma unblock_lists `{SchedConfig} x :
  as_lists (a_unblock x a) TL_waitingforsemaphore = list_rem x (as_lists a TL_waitingforsemaphore).
Proof. unfold a_unblock, a_enter. case_match; simpl; by rewrite upd_ne. Qed.

Lemma unblock_members `{SchedConfig} l x y : l <> TL_waitingforsemaphore ->
  y ∈ as_lists (a_unblock x a) l -> y = x \/ exists l', l' <> TL_waitingforsemaphore /\ y ∈ as_lists a l'.
Proof.
  intros Hl. unfold a_unblock, a_enter. case_match; simpl; unfold upd; case_decide; rewrite ?ins_elem;
    [intros [->|Hy]|intros Hy|intros [->|Hy]|intros Hy]; auto; apply list_rem_elem in Hy; right; (eexists; split; [|exact Hy]; done).
Qed.

End views.

Lemma alk_arun_set f x a : (forall t, lockcount (f t) = lockcount t) -> pend_inv a -> pend_inv (a_set f x a).
Proof. intros Hf HP Hp. change (arun (a_set f x a)) with (arun a). rewrite alk_set by done. by apply HP. Qed.

Lemma inv_set idle f x a :
  (forall t, sched_priority (f t) = sched_priority t) -> (forall t, lockcount (f t) = lockcount t) ->
  sched_inv idle a -> sched_inv idle (a_set f x a).
Proof.
  intros Hp Hl [HI HP]. split; [|by apply alk_arun_set]. apply core_data; [done|..].
  - intros l y _. by apply apr_set.
  - by apply apr_set.
  - intros l y Hy. rewrite alk_set by done. by apply (ci_lock _ _ HI l).
Qed.

(** ** Changes to task data *)

(** An update of a field the scheduler and the semaphores do not look at. *)
Record quiet (f : TCB -> TCB) : Prop := Quiet {
  qt_shape : keeps_shape f;
  qt_body : forall t, tbody (f t) = f (tbody t);
  qt_prio : forall t, sched_priority (f t) = sched_priority t;
  qt_lock : forall t, lockcount (f t) = lockcount t
}.

Lemma quiet_errno e : quiet (set_pterrno e).
Proof. by repeat split. Qed.

Lemma quiet_waitsem s : quiet (set_waitsem s).
Proof. by repeat split. Qed.

Lemma quiet_ok idle f x k a :
  quiet f -> refines k a -> sched_inv idle a ->
  refines (set_tcbs (alter f x (k_tcbs k)) k) (a_set f x a) /\ sched_inv idle (a_set f x a).
Proof. intros [] Hr HI. split; [by apply ref_data|by apply inv_set]. Qed.

(** Only what tasks wait for, the waiting list and the number of tasks matter. *)
Lemma sem_inv_wait sems a a' :
  (forall l, as_lists a' l = as_lists a l) -> (forall y, a_wait a' y = a_wait a y) ->
  size (as_tasks a') = size (as_tasks a) -> sem_inv sems a -> sem_inv sems a' /\ (forall s, waiters s a' = waiters s a).
Proof.
  intros EL EW ES [A B C D]. assert (forall s, waiters s a' = waiters s a) as Ew.
  { intros s. unfold waiters. rewrite EL. apply filter_same. intros y _. by rewrite EW. }
  split; [|done]. split.
  - intros s c Hs. rewrite Ew. by apply A.
  - intros x. rewrite EL, EW. apply B.
  - intros l x Hl. rewrite EL, EW. by apply C.
  - by rewrite ES.
Qed.

Lemma errno_ptr_ok idle k a : refines k a -> sched_inv idle a -> as_int a = false -> get_errno_ptr k = Ok (Some (arun a)).
Proof.
  intros Hr [HC _] Hint. pose proof (core_run _ _ HC) as Hx. pose proof Hr as (_ & _ & EI).
  unfold get_errno_ptr. rewrite EI, Hint. cbn [negb]. rewrite (ref_run _ _ Hr).
  destruct (ref_valid _ _ Hr _ _ Hx) as [Hn [t Et]]. rewrite (deref_Some _ _ t) by done. cbn.
  pose proof (ref_state_ready _ _ _ Hr Hx) as Hst. rewrite (state_lookup _ _ _ Et), decide_True in Hst by done.
  by rewrite decide_True.
Qed.

Lemma set_errno_ok idle e s a :
  sem_refines idle s a -> as_int a = false ->
  set_errno e s = Ok (with_tcbs (alter (set_pterrno e) (arun a) (k_tcbs (s_kernel s))) s)
  /\ sem_refines idle (with_tcbs (alter (set_pterrno e) (arun a) (k_tcbs (s_kernel s))) s) (a_set (set_pterrno e) (arun a) a)
  /\ (forall s, waiters s (a_set (set_pterrno e) (arun a) a) = waiters s a).
Proof.
  intros (Hr & HI & HS) Hint. pose proof HI as [HC _]. pose proof (core_run _ _ HC) as Hx.
  destruct (quiet_ok idle _ (arun a) _ _ (quiet_errno e) Hr HI) as [Hr' HI'].
  destruct (sem_inv_wait (s_sems s) a (a_set (set_pterrno e) (arun a) a)) as [HS' EW]; try done.
  { intros y. by apply wait_set_same. } { apply size_set. }
  split; [|split; [by split|done]]. unfold set_errno. rewrite (errno_ptr_ok idle _ a) by done. cbn.
  by rewrite store_valid by (by eapply ref_valid).
Qed.

(** ** Room in the 16-bit counter *)

Lemma waiters_small k a s sems : refines k a -> sem_inv sems a -> Z.of_nat (length (waiters s a)) <= SEM_VALUE_MAX.
Proof.
  intros (HR & ET & _) HS. pose proof (sv_small _ _ HS) as Hz. rewrite <- ET in Hz. rewrite map_size_fmap in Hz.
  pose proof (dq_length _ _ _ (sr_list _ _ HR TL_waitingforsemaphore)) as Hl.
  assert (length (waiters s a) <= length (as_lists a TL_waitingforsemaphore))%nat by apply length_filter. lia.
Qed.

Lemma count_range k a s sems c :
  refines k a -> sem_inv sems a -> sems !! s = Some c -> - SEM_VALUE_MAX <= c <= SEM_VALUE_MAX /\ s <> NULL.
Proof.
  intros Hr HS Hc. pose proof (waiters_small k a s sems Hr HS) as Hw. destruct (sv_count _ _ HS _ _ Hc) as (H1 & H2 & H3).
  split; [|done]. lia.
Qed.

(** ** sem_wait *)

(** The count of one semaphore changes by [d] with the number of its waiters,
    and the waiters of the others stay. *)
Lemma sem_inv_step sems a a' s c c' :
  sem_inv sems a -> sems !! s = Some c -> c' <= SEM_VALUE_MAX -> Z.of_nat (length (waiters s a')) = Z.max 0 (- c') ->
  (forall s2, s2 <> s -> waiters s2 a' = waiters s2 a) ->
  (forall x, x ∈ as_lists a' TL_waitingforsemaphore -> is_Some (sems !! a_wait a' x)) ->
  (forall l x, l <> TL_waitingforsemaphore -> x ∈ as_lists a' l -> a_wait a' x = NULL) ->
  size (as_tasks a') = size (as_tasks a) -> sem_inv (<[s := c']> sems) a'.
Proof.
  intros HS Hc Hc' Hl Ho Hw Hn Hz. split.
  - intros s2 c2. destruct (decide (s = s2)) as [<-|Hne].
    + rewrite lookup_insert_eq. intros [= <-]. split; [by eapply (sv_count _ _ HS)|]. done.
    + rewrite lookup_insert_ne by done. intros Hs2. rewrite Ho by done. by apply (sv_count _ _ HS).
  - intros x Hx. rewrite lookup_insert. case_decide; eauto.
  - done.
  - rewrite Hz. apply (sv_small _ _ HS).
Qed.

Lemma alter_count f s c (sems : gmap Z Z) : sems !! s = Some c -> alter f s sems = <[s := f c]> sems.
Proof. intros Hc. apply map_eq. intros i. rewrite lookup_alter, lookup_insert. case_decide; [subst; by rewrite Hc|done]. Qed.

Lemma view_insert s c sems a : sem_view s (<[s := c]> sems) a = CSem (Z.max 0 c) (waiters s a).
Proof. unfold sem_view. by rewrite lookup_insert_eq. Qed.

Lemma view_insert_ne s s2 c sems a a' : s2 <> s -> waiters s2 a' = waiters s2 a -> sem_view s2 (<[s := c]> sems) a' = sem_view s2 sems a.
Proof. intros Hne Hw. unfold sem_view. by rewrite lookup_insert_ne, Hw by done. Qed.

(** The running task takes a count without waiting. *)
Lemma take_ok idle s a sem c :
  sem_refines idle s a -> s_sems s !! sem = Some c -> 0 < c ->
  let x := arun a in
  let s' := with_tcbs (alter (set_waitsem NULL) x (k_tcbs (s_kernel s))) (with_sems (<[sem := c - 1]> (s_sems s)) s) in
  let a' := a_set (set_waitsem NULL) x a in
  sem_refines idle s' a' /\ sem_view sem (s_sems s') a' = CSem (Z.max 0 c - 1) (waiters sem a)
  /\ (forall s2, s2 <> sem -> sem_view s2 (s_sems s') a' = sem_view s2 (s_sems s) a).
Proof.
  intros (Hr & HI & HS) Hc Hpos x s' a'. pose proof HI as [HC _].
  destruct (quiet_ok idle _ x _ _ (quiet_waitsem NULL) Hr HI) as [Hr' HI'].
  destruct (count_range _ _ _ _ _ Hr HS Hc) as [Hcr Hsn].
  assert (a_wait a x = NULL) as Hx by (apply (sv_others _ _ HS TL_readytorun); [done|by apply (core_run idle)]).
  assert (forall y, a_wait a' y = a_wait a y) as EW.
  { intros y. destruct (decide (x = y)) as [<-|]; [|by apply wait_set_ne]. rewrite Hx. unfold a_wait. simpl. rewrite lookup_alter_eq.
    by destruct (as_tasks a !! x). }
  destruct (sem_inv_wait (s_sems s) a a') as [HS' Ew]; [done|done|apply size_set|done|].
  assert (waiters sem a' = []) as Hw.
  { rewrite Ew. destruct (sv_count _ _ HS _ _ Hc) as (_ & _ & Hl). destruct (waiters sem a); [done|]. simpl in Hl. lia. }
  split; [split; [done|split; [done|]]|split].
  - simpl. eapply (sem_inv_step (s_sems s) a'); try done; [lia|rewrite Hw; simpl; lia|apply HS'|apply HS'].
  - simpl. rewrite view_insert, Ew. f_equal. lia.
  - intros s2 Hne. simpl. by apply view_insert_ne.
Qed.

(** The running task joins the waiters of a semaphore: [a3] is the state in
    which it calls [up_block_task]. *)
Lemma block_views k a k3 a3 k' idle sems sem c :
  refines k a -> core_inv idle a -> sem_inv sems a -> sems !! sem = Some c -> c <= 0 ->
  refines k3 a3 -> core_inv idle a3 -> (forall l, as_lists a3 l = as_lists a l) -> (forall y, apr a3 y = apr a y) ->
  (forall y, a_wait a3 y = if decide (y = arun a) then sem else a_wait a y) -> size (as_tasks a3) = size (as_tasks a) ->
  refines k' (a_block TL_waitingforsemaphore a3) ->
  let a' := a_block TL_waitingforsemaphore a3 in
  sem_inv (<[sem := c - 1]> sems) a' /\ waiters sem a' = ins (apr a) (arun a) (waiters sem a)
  /\ (forall s2, s2 <> sem -> waiters s2 a' = waiters s2 a).
Proof.
  intros Hr HC HS Hc Hneg Hr3 HC3 EL Epr EW ESz Hr' a'. set (x := arun a) in *.
  assert (arun a3 = x) as Ex by (unfold arun; by rewrite EL). pose proof (core_run _ _ HC) as Hx. fold x in Hx.
  assert (x ∉ as_lists a TL_waitingforsemaphore) as HxW.
  { intros Hw. destruct Hr as (HR & _ & _). by pose proof (sr_disj _ _ HR _ _ _ Hx Hw). }
  assert (as_lists a' TL_waitingforsemaphore = ins (apr a3) x (as_lists a TL_waitingforsemaphore)) as ELW.
  { unfold a'. rewrite (block_lists k3 a3 idle) by done. by rewrite Ex, EL. }
  assert (forall y, a_wait a' y = a_wait a3 y) as EW' by done.
  assert (forall s2, filter (fun y => a_wait a' y = s2) (as_lists a TL_waitingforsemaphore) = waiters s2 a) as Eold.
  { intros s2. unfold waiters. apply filter_same. intros y Hy. rewrite EW', EW, decide_False; [done|]. intros ->. done. }
  assert (waiters sem a' = ins (apr a) x (waiters sem a)) as Ews.
  { unfold waiters at 1. rewrite ELW, filter_ins_in.
    - rewrite Eold. apply ins_ext. intros; apply Epr.
    - by rewrite EW', EW, decide_True.
    - rewrite <- EL. by apply (ci_sorted _ _ HC3). }
  assert (forall s2, s2 <> sem -> waiters s2 a' = waiters s2 a) as Ewo.
  { intros s2 Hne. unfold waiters at 1. rewrite ELW, filter_ins_out; [apply Eold|]. rewrite EW', EW, decide_True by done. congruence. }
  split; [|done]. destruct (count_range _ _ _ _ _ Hr HS Hc) as [Hcr Hsn].
  eapply (sem_inv_step sems a a' sem c); try done.
  - lia.
  - rewrite Ews, (ins_perm (apr a) x (waiters sem a)). destruct (sv_count _ _ HS _ _ Hc) as (_ & _ & Hl). simpl length. lia.
  - intros y. rewrite ELW, ins_elem, EW', EW. intros [->|Hy].
    + rewrite decide_True by done. eauto.
    + rewrite decide_False by congruence. by apply (sv_waits _ _ HS).
  - intros l y Hl Hy. rewrite EW', EW. rewrite decide_False.
    + apply (block_members k3 a3 idle) in Hy as (l' & Hl' & Hy); [|done..]. rewrite EL in Hy. by apply (sv_others _ _ HS l').
    + intros ->. apply Hl. destruct Hr' as (HR' & _ & _). symmetry. eapply (sr_disj _ _ HR' _ _ x); [|exact Hy].
      fold a'. rewrite ELW. apply ins_elem. by left.
Qed.

(** The running task blocks on a semaphore without a count. *)
Lemma wait_block_ok idle s a sem c :
  sem_refines idle s a -> as_int a = false -> s_sems s !! sem = Some c -> c <= 0 -> arun a <> idle ->
  wp (r ← deref (k_tcbs (s_kernel s)) (arun a);
      if decide (waitsem r <> NULL) then c_panic
      else
        sems ← store (fun c => s16 (c - 1)) sem (s_sems s);
        m ← store (set_waitsem sem) (arun a) (k_tcbs (s_kernel s));
        s ← set_errno 0 (with_tcbs m (with_sems sems s));
        '(_, k) ← up_block_task (arun a) TSTATE_WAIT_SEM (s_kernel s);
        Ok (WaitBlocked, with_kernel k s)) (fun '(r, s') =>
    let a' := a_block TL_waitingforsemaphore (a_set (set_pterrno 0) (arun a) (a_set (set_waitsem sem) (arun a) a)) in
    r = WaitBlocked /\ sem_refines idle s' a' /\ s_sems s' = <[sem := c - 1]> (s_sems s)
    /\ waiters sem a' = ins (apr a) (arun a) (waiters sem a) /\ (forall s2, s2 <> sem -> waiters s2 a' = waiters s2 a)
    /\ arun a ∈ as_lists a' TL_waitingforsemaphore /\ a_wait a' (arun a) = sem).
Proof.
  intros (Hr & HI & HS) Hint Hc Hneg Hidle. pose proof HI as [HC _]. destruct (count_range _ _ _ _ _ Hr HS Hc) as [Hcr Hsn].
  unfold SEM_VALUE_MAX in Hcr. set (x := arun a) in *. assert (valid (k_tcbs (s_kernel s)) x) as Hvx by (by eapply ref_run_valid).
  assert (a_wait a x = NULL) as Hxn by (apply (sv_others _ _ HS TL_readytorun); [done|by apply (core_run idle)]).
  apply wp_bind, wp_deref_valid; [done|]. intros r Er. cbv beta.
  assert (waitsem r = NULL) as Ewr by (destruct Hr as (_ & ET & _); rewrite <- Hxn; unfold a_wait; rewrite <- ET, lookup_fmap; by rewrite Er).
  rewrite (decide_False (P := waitsem r <> NULL)) by (intros []; done).
  apply wp_bind, wp_store; [by split; eauto|]. apply wp_bind, wp_store; [done|]. rewrite (alter_count _ _ c) by done. rewrite s16_id by lia.
  destruct (quiet_ok idle _ x _ _ (quiet_waitsem sem) Hr HI) as [Hr2 HI2]. set (a2 := a_set (set_waitsem sem) x a) in *.
  set (k2 := set_tcbs (alter (set_waitsem sem) x (k_tcbs (s_kernel s))) (s_kernel s)) in *.
  apply wp_bind. unfold set_errno. change (s_kernel (with_tcbs _ _)) with k2. rewrite (errno_ptr_ok idle k2 a2) by done.
  apply wp_bind, wp_ret. apply wp_bind, wp_store; [by apply valid_alter|]. apply wp_ret. change (arun a2) with x.
  destruct (quiet_ok idle _ x _ _ (quiet_errno 0) Hr2 HI2) as [Hr3 HI3]. set (a3 := a_set (set_pterrno 0) x a2) in *.
  apply wp_bind. eapply wp_mono; [apply (up_block_task_ok _ a3 idle TL_waitingforsemaphore Hr3 HI3); done|].
  intros [b k'] (Hr' & HI' & _). apply wp_ret. cbv zeta.
  assert (forall y, a_wait a3 y = if decide (y = x) then sem else a_wait a y) as EW.
  { intros y. unfold a3. rewrite wait_set_same by done. case_decide as E; [subst y; apply wait_set; by eapply (ref_is_Some _ a)|].
    by apply wait_set_ne. }
  destruct (block_views _ a _ a3 k' idle (s_sems s) sem c Hr HC HS Hc Hneg Hr3 (proj1 HI3)) as (HS' & Ews & Ewo); try done.
  { intros y. unfold a3, a2. by rewrite !apr_set by done. }
  { unfold a3, a2. by rewrite !size_set. }
  split; [done|]. split; [by split|]. split; [done|]. split; [done|]. split; [done|].
  split; [|change (a_wait a3 x = sem); by rewrite EW, decide_True].
  rewrite (block_lists _ a3 idle Hr3 (proj1 HI3)). apply ins_elem. by left.
Qed.

Lemma sem_wait_ok idle s a sem c :
  sem_refines idle s a -> as_int a = false -> s_sems s !! sem = Some c -> (c <= 0 -> arun a <> idle) ->
  wp (sem_wait sem s) (fun '(r, s') => exists a',
    sem_refines idle s' a'
    /\ sem_view sem (s_sems s') a' = cs_wait (apr a) (arun a) (sem_view sem (s_sems s) a)
    /\ (forall s2, s2 <> sem -> sem_view s2 (s_sems s') a' = sem_view s2 (s_sems s) a)
    /\ (if 0 <? c then r = WaitRet true /\ arun a' = arun a
       else r = WaitBlocked /\ arun a ∈ as_lists a' TL_waitingforsemaphore /\ a_wait a' (arun a) = sem)
    /\ s_sems s' = <[sem := c - 1]> (s_sems s) /\ a' = if 0 <? c then a_take a else a_sleep sem a).
Proof.
  intros HSR Hint Hc Hidle. pose proof HSR as (Hr & HI & HS). pose proof HI as [HC _].
  destruct (count_range _ _ _ _ _ Hr HS Hc) as [Hcr Hsn]. unfold SEM_VALUE_MAX in Hcr. pose proof Hr as (_ & _ & EI).
  unfold sem_wait. rewrite EI, Hint, (ref_run _ _ Hr). apply wp_bind, wp_assert; [done|].
  destruct (set_errno_ok idle EINVAL s a HSR Hint) as (-> & HSR1 & Ew1). set (a1 := a_set (set_pterrno EINVAL) (arun a) a) in *.
  set (s1 := with_tcbs _ s) in *. apply wp_bind, wp_ret. rewrite decide_False by done.
  apply wp_bind. eapply wp_deref; [done|exact Hc|]. cbv beta.
  assert (sem_view sem (s_sems s1) a1 = CSem (Z.max 0 c) (waiters sem a)) as Ev1 by (unfold sem_view; simpl; by rewrite Hc, Ew1).
  assert (sem_view sem (s_sems s) a = CSem (Z.max 0 c) (waiters sem a)) as Ev by (unfold sem_view; by rewrite Hc).
  assert (valid (s_sems s) sem) as Hvs by (split; eauto).
  assert (valid (k_tcbs (s_kernel s)) (arun a)) as Hvx by (by eapply ref_run_valid).
  rewrite Ev. unfold cs_wait. cbn [cs_avail cs_queue]. destruct (Z.ltb_spec 0 c) as [Hpos|Hneg].
  - apply wp_bind, wp_store; [done|]. apply wp_bind, wp_store; [by apply valid_alter|]. apply wp_ret.
    change (s_sems s1) with (s_sems s) in *. rewrite (alter_count _ _ c) by done. rewrite s16_id by lia.
    destruct (take_ok idle s1 a1 sem c HSR1 Hc Hpos) as (H1 & H2 & H3).
    exists (a_set (set_waitsem NULL) (arun a1) a1). split; [exact H1|]. split; [|split; [|by split]].
    + destruct (Z.ltb_spec 0 (Z.max 0 c)); [|lia]. rewrite <- Ew1. exact H2.
    + intros s2 Hne. specialize (H3 s2 Hne). etransitivity; [exact H3|]. unfold sem_view. simpl. by rewrite Ew1.
  - eapply wp_mono; [by apply (wait_block_ok idle s1 a1 sem c HSR1 Hint Hc Hneg), Hidle|]. intros [r s'] (-> & H1 & H2 & H3 & H4 & H5 & H6).
    assert (forall y, apr a1 y = apr a y) as Epr by (intros y; unfold a1; by rewrite apr_set).
    eexists. split; [exact H1|]. split; [|split; [|split; [|by split]]].
    + unfold sem_view. rewrite H2, lookup_insert_eq, H3, Ew1. destruct (Z.ltb_spec 0 (Z.max 0 c)); [lia|]. cbn [default from_option id]. f_equal; [lia|].
      apply ins_ext. intros; apply Epr.
    + intros s2 Hne. unfold sem_view. by rewrite H2, lookup_insert_ne, H4, Ew1 by done.
    + done.
Qed.

(** ** sem_post and sem_waitirq *)

Lemma sem_search_spec fuel m p l s :
  dseg m p l NULL -> NULL ∉ l -> (length l < fuel)%nat ->
  sem_search fuel m (hdp NULL l) s = Ok (hdp NULL (filter (fun x => from_option waitsem NULL (m !! x) = s) l)).
Proof.
  revert p l. induction fuel as [|fuel IH]; intros p l Hs H0 Hf; [lia|].
  destruct l as [|x l]; cbn [sem_search head default from_option id]; [by rewrite decide_True|].
  destruct Hs as [(t & Et & Ft & _) Hs]. rewrite decide_False by set_solver. rewrite (deref_Some _ _ t) by (done || set_solver).
  cbn [mbind res_bind]. rewrite filter_cons, Et. cbn [from_option]. destruct (decide (waitsem t = s)) as [E|E].
  - by rewrite decide_False by (intros []; done).
  - rewrite decide_True by done. change (t_flink t) with (flink t). rewrite Ft. eapply IH; [exact Hs|set_solver|simpl in Hf; lia].
Qed.

Lemma unblock_tasks `{SchedConfig} x a : as_tasks (a_unblock x a) = alter (set_timeslice RR_TICKS) x (as_tasks a).
Proof. unfold a_unblock, a_enter. by case_match. Qed.

(** A waiter [x] of [sem] is unblocked from the state [a2] in which it waits for
    nothing any more. *)
Lemma unblock_views `{SchedConfig} k a a2 k' idle sems sem c x :
  refines k a -> core_inv idle a -> sem_inv sems a -> sems !! sem = Some c ->
  x ∈ as_lists a TL_waitingforsemaphore -> a_wait a x = sem ->
  (forall l, as_lists a2 l = as_lists a l) -> (forall y, a_wait a2 y = if decide (y = x) then NULL else a_wait a y) ->
  size (as_tasks a2) = size (as_tasks a) -> refines k' (a_unblock x a2) ->
  let a' := a_unblock x a2 in
  c < 0 /\ sem_inv (<[sem := c + 1]> sems) a' /\ waiters sem a' = list_rem x (waiters sem a)
  /\ (forall s2, s2 <> sem -> waiters s2 a' = waiters s2 a).
Proof.
  intros Hr HC HS Hc Hx Hwx EL EW ESz Hr' a'. pose proof Hr as (HR & _ & _).
  destruct (count_range _ _ _ _ _ Hr HS Hc) as [Hcr Hsn]. destruct (sv_count _ _ HS _ _ Hc) as (_ & _ & Hl).
  assert (as_lists a' TL_waitingforsemaphore = list_rem x (as_lists a TL_waitingforsemaphore)) as ELW
    by (unfold a'; by rewrite unblock_lists, EL).
  assert (forall y, a_wait a' y = a_wait a2 y) as EW'.
  { intros y. unfold a', a_unblock. transitivity (a_wait (a_set (set_timeslice RR_TICKS) x (a_drop x a2)) y);
      [unfold a_enter; by case_match|]. by apply (wait_set_same (a_drop x a2)). }
  pose proof (sr_nodup _ _ TL_waitingforsemaphore HR) as Hnd.
  assert (x ∉ list_rem x (as_lists a TL_waitingforsemaphore)) as Hxr.
  { destruct (nodup_split x _ Hnd Hx) as (l1 & l2 & E & Hl1). rewrite E, list_rem_split by done. rewrite E in Hnd.
    apply NoDup_app in Hnd as (_ & Hd & [Hd2 _]%NoDup_cons). set_solver. }
  assert (forall s2, waiters s2 a' = filter (fun y => a_wait a y = s2) (list_rem x (as_lists a TL_waitingforsemaphore))) as Eww.
  { intros s2. unfold waiters. rewrite ELW. apply filter_same. intros y Hy. rewrite EW', EW, decide_False; [done|]. by intros ->. }
  assert (waiters sem a' = list_rem x (waiters sem a)) as Ews by (by rewrite Eww, filter_list_rem, decide_True).
  assert (x ∈ waiters sem a) as Hxw by by apply list_elem_of_filter.
  assert (NoDup (waiters sem a)) as Hndw by by apply NoDup_filter.
  assert (S (length (list_rem x (waiters sem a))) = length (waiters sem a)) as Hlen.
  { destruct (nodup_split x _ Hndw Hxw) as (l1 & l2 & E & Hl1). rewrite E, list_rem_split, !length_app by done. simpl. lia. }
  assert (forall s2, s2 <> sem -> waiters s2 a' = waiters s2 a) as Ewo
    by (intros s2 Hne; by rewrite Eww, filter_list_rem, decide_False by congruence).
  split; [lia|]. split; [|done]. split.
  - intros s2 c2. destruct (decide (sem = s2)) as [<-|Hne].
    + rewrite lookup_insert_eq. intros [= <-]. split; [done|]. split; [lia|]. rewrite Ews. lia.
    + rewrite lookup_insert_ne by done. intros Hs2. destruct (sv_count _ _ HS _ _ Hs2) as (? & ? & ?). by rewrite Ewo.
  - intros y. rewrite ELW. intros Hy. rewrite lookup_insert. case_decide; [eauto|]. rewrite EW', EW, decide_False by congruence.
    apply (sv_waits _ _ HS). by eapply list_rem_elem.
  - intros l y Hl2 Hy. rewrite EW', EW. case_decide; [done|]. apply unblock_members in Hy as [->|(l' & Hl' & Hy)]; [done| |done].
    rewrite EL in Hy. by apply (sv_others _ _ HS l').
  - unfold a'. rewrite unblock_tasks. change (alter _ x (as_tasks a2)) with (as_tasks (a_set (set_timeslice RR_TICKS) x a2)).
    rewrite size_set, ESz. apply (sv_small _ _ HS).
Qed.

(** The task is in no list of blocked tasks after it was unblocked. *)
Lemma unblock_ready `{SchedConfig} x a : x ∈ as_lists (a_unblock x a) TL_readytorun \/ x ∈ as_lists (a_unblock x a) TL_pendingtasks.
Proof. unfold a_unblock, a_enter. case_match; simpl; rewrite upd_eq; [right|left]; apply ins_elem; by left. Qed.

Lemma sem_post_ok `{SchedConfig} idle s a sem c :
  sem_refines idle s a -> s_sems s !! sem = Some c -> c < SEM_VALUE_MAX ->
  wp (sem_post sem s) (fun '((ret, b), s') => ret = true /\ exists a',
    sem_refines idle s' a' /\ sem_view sem (s_sems s') a' = cs_post (sem_view sem (s_sems s) a)
    /\ (forall s2, s2 <> sem -> sem_view s2 (s_sems s') a' = sem_view s2 (s_sems s) a)
    /\ b = bool_decide (arun a' <> arun a)
    /\ match waiters sem a with
       | [] => as_lists a' = as_lists a
       | x :: _ => x ∈ as_lists a' TL_readytorun \/ x ∈ as_lists a' TL_pendingtasks
       end
    /\ s_sems s' = <[sem := c + 1]> (s_sems s) /\ a' = a_wake sem a).
Proof.
  intros HSR Hc Hmax. pose proof HSR as (Hr & HI & HS). pose proof HI as [HC _]. pose proof Hr as (HR & ET & _).
  destruct (count_range _ _ _ _ _ Hr HS Hc) as [Hcr Hsn]. destruct (sv_count _ _ HS _ _ Hc) as (_ & _ & Hl). unfold SEM_VALUE_MAX in *.
  assert (sem_view sem (s_sems s) a = CSem (Z.max 0 c) (waiters sem a)) as Ev by (unfold sem_view; by rewrite Hc).
  unfold sem_post. rewrite decide_False by done. apply wp_bind. eapply wp_deref; [done|exact Hc|]. apply wp_bind, wp_assert; [by apply Z.ltb_lt|].
  apply wp_bind, wp_store; [by split; eauto|]. rewrite (alter_count _ _ c), s16_id by (done || lia). cbv zeta.
  apply wp_bind. eapply wp_deref; [done|simpl; by rewrite lookup_insert_eq|]. rewrite Ev. unfold cs_post. cbn [cs_queue cs_avail].
  destruct (Z.leb_spec (c + 1) 0) as [Hneg|Hpos].
  - cbn [s_kernel with_sems]. change (g_waitingforsemaphore (s_kernel s)) with (get_list TL_waitingforsemaphore (s_kernel s)).
    rewrite (sr_head _ _ _ HR). pose proof (sr_list _ _ HR TL_waitingforsemaphore) as Hq.
    rewrite (sem_search_spec _ _ NULL (as_lists a TL_waitingforsemaphore)); [|apply Hq|apply Hq|pose proof (dq_length _ _ _ Hq); unfold list_fuel; lia].
    assert (filter (fun x => from_option waitsem NULL (k_tcbs (s_kernel s) !! x) = sem) (as_lists a TL_waitingforsemaphore) = waiters sem a) as ->.
    { unfold waiters. apply filter_same. intros y _. unfold a_wait. rewrite <- ET, lookup_fmap. by destruct (k_tcbs (s_kernel s) !! y). }
    apply wp_bind, wp_ret. destruct (waiters sem a) as [|x q] eqn:Ew; [simpl in Hl; lia|]. cbn [head default from_option id].
    assert (x ∈ waiters sem a) as Hxw by (rewrite Ew; left). pose proof Hxw as [Hwx Hx]%list_elem_of_filter.
    rewrite decide_True by (intros ->; by apply (sr_nonnull _ _ TL_waitingforsemaphore HR)).
    apply wp_bind, wp_store; [by eapply ref_valid|].
    destruct (quiet_ok idle _ x _ _ (quiet_waitsem NULL) Hr HI) as [Hr2 HI2]. set (a2 := a_set (set_waitsem NULL) x a) in *.
    apply wp_bind. eapply wp_mono; [apply (up_unblock_task_ok _ a2 idle x TL_waitingforsemaphore Hr2 HI2 Hx); done|].
    intros [b k'] (Hr' & HI' & Hb). apply wp_ret. split; [done|]. exists (a_unblock x a2).
    destruct (unblock_views _ a a2 k' idle (s_sems s) sem c x Hr HC HS Hc Hx Hwx) as (_ & HS' & Ews & Ewo); try done.
    { intros y. unfold a2. destruct (decide (y = x)) as [->|]; [|by apply wait_set_ne].
      apply wait_set. eapply (ref_is_Some _ a); [exact Hr|]. by eapply ref_valid. }
    { apply size_set. }
    split; [by split|]. split; [|split; [|split; [done|split; [apply unblock_ready|split; [done|unfold a_wake; by rewrite Ew]]]]].
    + simpl. rewrite view_insert, Ews, Ew. simpl. rewrite decide_True by done. f_equal. lia.
    + intros s2 Hne. simpl. apply view_insert_ne; [done|by apply Ewo].
  - apply wp_ret. split; [done|]. exists a. destruct (waiters sem a) as [|y q] eqn:Ew; [|simpl in Hl; lia].
    split; [split; [done|split; [done|]]|split; [|split; [|split; [|split; [done|split; [done|unfold a_wake; by rewrite Ew]]]]]].
    + simpl. eapply (sem_inv_step (s_sems s) a a sem c); try done; [unfold SEM_VALUE_MAX; lia|rewrite Ew; simpl; lia|apply HS|apply HS].
    + simpl. rewrite view_insert, Ew. f_equal. lia.
    + intros s2 Hne. simpl. by apply view_insert_ne.
    + symmetry. apply bool_decide_false. by intros [].
Qed.

Lemma sem_waitirq_ok `{SchedConfig} idle s a x e :
  sem_refines idle s a -> x ∈ as_lists a TL_waitingforsemaphore ->
  let sem := a_wait a x in
  wp (sem_waitirq x e s) (fun '(b, s') => exists a',
    sem_refines idle s' a' /\ sem_view sem (s_sems s') a' = cs_cancel x (sem_view sem (s_sems s) a)
    /\ (forall s2, s2 <> sem -> sem_view s2 (s_sems s') a' = sem_view s2 (s_sems s) a)
    /\ b = bool_decide (arun a' <> arun a)
    /\ (x ∈ as_lists a' TL_readytorun \/ x ∈ as_lists a' TL_pendingtasks)
    /\ from_option pterrno 0 (k_tcbs (s_kernel s') !! x) = e
    /\ s_sems s' = <[sem := default 0 (s_sems s !! sem) + 1]> (s_sems s) /\ a' = a_cancel x e a).
Proof.
  intros HSR Hx sem. pose proof HSR as (Hr & HI & HS). pose proof HI as [HC _]. pose proof Hr as (HR & ET & _).
  destruct (sv_waits _ _ HS x Hx) as [c Hc]. fold sem in Hc.
  destruct (count_range _ _ _ _ _ Hr HS Hc) as [Hcr Hsn]. unfold SEM_VALUE_MAX in *.
  unfold sem_waitirq. pose proof (ref_valid _ _ Hr _ _ Hx) as Hvx. apply wp_bind, wp_deref_valid; [done|]. intros t Et. cbv beta.
  pose proof (sr_state _ _ HR TL_waitingforsemaphore x ltac:(done) Hx) as Hst. rewrite (state_lookup _ _ _ Et) in Hst. rewrite decide_True by done.
  assert (waitsem t = sem) as -> by (unfold sem, a_wait; by rewrite <- ET, lookup_fmap, Et).
  set (a1 := a_set (set_waitsem NULL) x a). set (a2 := a_set (set_pterrno e) x a1).
  destruct (quiet_ok idle _ x _ _ (quiet_waitsem NULL) Hr HI) as [Hr1 HI1].
  destruct (quiet_ok idle _ x _ _ (quiet_errno e) Hr1 HI1) as [Hr2 HI2]. fold a1 a2 in Hr2, HI2.
  apply wp_bind, wp_assert; [by apply bool_decide_true|]. apply wp_bind. eapply wp_deref; [done|exact Hc|].
  assert (c < 0) as Hneg. { destruct (sv_count _ _ HS _ _ Hc) as (_ & _ & Hl).
    assert (x ∈ waiters sem a) as Hxw by by apply list_elem_of_filter. destruct (waiters sem a); [set_solver|]. simpl in Hl. lia. }
  apply wp_bind, wp_assert; [by apply Z.ltb_lt|]. apply wp_bind, wp_store; [by split; eauto|].
  rewrite (alter_count _ _ c), s16_id by (done || lia).
  apply wp_bind, wp_store; [done|]. apply wp_bind, wp_store; [by apply valid_alter|].
  apply wp_bind. eapply wp_mono; [apply (up_unblock_task_ok _ a2 idle x TL_waitingforsemaphore Hr2 HI2 Hx); done|].
  intros [b k'] (Hr' & HI' & Hb). apply wp_ret. exists (a_unblock x a2).
  destruct (unblock_views _ a a2 k' idle (s_sems s) sem c x Hr HC HS Hc Hx eq_refl) as (_ & HS' & Ews & Ewo); try done.
  { intros y. unfold a2. rewrite wait_set_same by done. unfold a1.
    destruct (decide (y = x)) as [->|]; [|by apply wait_set_ne]. apply wait_set. by eapply (ref_is_Some _ a). }
  { unfold a2, a1. by rewrite !size_set. }
  split; [by split|]. split; [|split; [|split; [done|split; [apply unblock_ready|split; [|by rewrite Hc]]]]].
  - simpl. rewrite view_insert, Ews. unfold sem_view, cs_cancel. rewrite Hc. simpl. f_equal. lia.
  - intros s2 Hne. simpl. apply view_insert_ne; [done|by apply Ewo].
  - destruct Hr' as (_ & ET' & _). assert (pterrno <$> k_tcbs k' !! x = pterrno <$> as_tasks (a_unblock x a2) !! x) as E.
    { rewrite <- ET', lookup_fmap. by destruct (k_tcbs k' !! x). }
    cbn [s_kernel with_kernel]. rewrite unblock_tasks, lookup_alter_eq in E. simpl in E. rewrite !lookup_alter_eq in E.
    destruct (ref_is_Some _ a x Hr Hvx) as [ta Eta]. rewrite Eta in E. destruct (k_tcbs k' !! x); [|done]. simpl in *. congruence.
Qed.

Lemma sem_trywait_ok idle s a sem c :
  sem_refines idle s a -> as_int a = false -> s_sems s !! sem = Some c ->
  wp (sem_trywait sem s) (fun '(r, s') => exists a',
    sem_refines idle s' a' /\ (forall l, as_lists a' l = as_lists a l)
    /\ sem_view sem (s_sems s') a' = (if 0 <? c then cs_wait (apr a) (arun a) (sem_view sem (s_sems s) a) else sem_view sem (s_sems s) a)
    /\ (forall s2, s2 <> sem -> sem_view s2 (s_sems s') a' = sem_view s2 (s_sems s) a)
    /\ r = (0 <? c)
    /\ (r = false -> from_option pterrno 0 (k_tcbs (s_kernel s') !! arun a) = EAGAIN)
    /\ s_sems s' = (if 0 <? c then <[sem := c - 1]> (s_sems s) else s_sems s) /\ a' = a_try (0 <? c) a).
Proof.
  intros HSR Hint Hc. pose proof HSR as (Hr & HI & HS). pose proof HI as [HC _].
  destruct (count_range _ _ _ _ _ Hr HS Hc) as [Hcr Hsn]. unfold SEM_VALUE_MAX in *. pose proof Hr as (_ & _ & EI).
  assert (valid (k_tcbs (s_kernel s)) (arun a)) as Hvx by (by eapply ref_run_valid).
  unfold sem_trywait. rewrite EI, Hint, (ref_run _ _ Hr). apply wp_bind, wp_assert; [done|].
  destruct (set_errno_ok idle EINVAL s a HSR Hint) as (-> & HSR1 & Ew1). set (a1 := a_set (set_pterrno EINVAL) (arun a) a) in *.
  set (s1 := with_tcbs _ s) in *. apply wp_bind, wp_ret. rewrite decide_False by done.
  destruct (set_errno_ok idle EAGAIN s1 a1 HSR1 Hint) as (-> & HSR2 & Ew2). set (a2 := a_set (set_pterrno EAGAIN) (arun a1) a1) in *.
  set (s2 := with_tcbs _ s1) in *. apply wp_bind, wp_ret. apply wp_bind. eapply wp_deref; [done|exact Hc|]. cbv beta.
  assert (forall s3, sem_view s3 (s_sems s) a2 = sem_view s3 (s_sems s) a) as Ev by (intros s3; unfold sem_view; by rewrite Ew2, Ew1).
  destruct (Z.ltb_spec 0 c) as [Hpos|Hneg].
  - apply wp_bind, wp_store; [by split; eauto|]. apply wp_bind, wp_store; [by repeat apply valid_alter|]. apply wp_ret.
    change (s_sems s2) with (s_sems s). rewrite (alter_count _ _ c), s16_id by (done || lia).
    destruct (take_ok idle s2 a2 sem c HSR2 Hc Hpos) as (H1 & H2 & H3).
    exists (a_set (set_waitsem NULL) (arun a2) a2). split; [exact H1|]. split; [done|]. split; [|split; [|by split]].
    + etransitivity; [exact H2|]. unfold sem_view, cs_wait. rewrite Hc. simpl. rewrite Ew2, Ew1. destruct (Z.ltb_spec 0 (Z.max 0 c)); [done|lia].
    + intros s3 Hne. etransitivity; [by apply H3|]. apply Ev.
  - apply wp_ret. exists a2. split; [done|]. split; [done|]. split; [apply Ev|]. split; [intros; apply Ev|]. split; [done|]. split; [intros _|by split].
    simpl. rewrite !lookup_alter_eq. destruct Hvx as [_ [t Et]]. by rewrite Et.
Qed.

(** ** The tasks of a list, by following the links *)

Fixpoint collect (fuel : nat) (m : gmap Z TCB) (p : ptr) : list Z :=
  match fuel with
  | O => []
  | S fuel => if decide (p = NULL) then [] else p :: match m !! p with Some t => collect fuel m (t_flink t) | None => [] end
  end.

Definition members (l : tasklist) (k : kernel) : list Z := collect (list_fuel (k_tcbs k)) (k_tcbs k) (dq_head (get_list l k)).

Lemma collect_dseg fuel m p l : dseg m p l NULL -> NULL ∉ l -> (length l < fuel)%nat -> collect fuel m (hdp NULL l) = l.
Proof.
  revert p l. induction fuel as [|fuel IH]; intros p l Hs H0 Hf; [lia|]. destruct l as [|x l]; simpl; [done|].
  destruct Hs as [(t & Et & Ft & _) Hs]. rewrite decide_False by set_solver. rewrite Et. f_equal.
  change (t_flink t) with (flink t). rewrite Ft. eapply IH; [exact Hs|set_solver|simpl in Hf; lia].
Qed.

Lemma members_list l k a : refines k a -> members l k = as_lists a l.
Proof.
  intros (HR & _ & _). pose proof (sr_list _ _ HR l) as Hq. pose proof (dq_length _ _ _ Hq) as Hl.
  unfold members. rewrite (sr_head _ _ _ HR). eapply collect_dseg; [apply Hq|apply Hq|unfold list_fuel; lia].
Qed.
