(* ===== verification/SemThm.v ===== *)
(** * Counting semaphores: theorems

    The calls refine the abstract semaphore, one theorem per call, and keep the
    invariant that links counts, waiters and task lists along any sequence of
    calls. *)

From stdpp Require Import sorting.
From S2P Require Import Prelude Queue Sched SchedInv SchedOps SchedSpec SchedThm Sem SemSpec.

(** C9: sem_wait takes a count when one is available and otherwise, unless the
    caller is the idle task, blocks the caller: it joins the waiters of the
    semaphore behind those of its own or a higher priority.  The counts and
    waiters of every other semaphore stay as they are, the scheduler's and the
    semaphores' invariants hold afterwards, and no 16-bit count wraps. *)
Theorem sem_wait_refines idle s a sem c :
  sem_refines idle s a -> as_int a = false -> s_sems s !! sem = Some c -> (c <= 0 -> arun a <> idle) ->
  wp (sem_wait sem s) (fun '(r, s') => exists a',
    sem_refines idle s' a'
    /\ sem_view sem (s_sems s') a' = cs_wait (apr a) (arun a) (sem_view sem (s_sems s) a)
    /\ (forall s2, s2 <> sem -> sem_view s2 (s_sems s') a' = sem_view s2 (s_sems s) a)
    /\ if 0 <? c then r = WaitRet true /\ arun a' = arun a
       else r = WaitBlocked /\ arun a ∈ as_lists a' TL_waitingforsemaphore /\ a_wait a' (arun a) = sem).
Proof.
  intros HSR Hi Hc Hid. eapply wp_mono; [by apply (sem_wait_ok idle s a sem c)|]. intros [r s'] (a' & H1 & H2 & H3 & H4 & _). by exists a'.
Qed.

Lemma waiters_sorted idle a s : core_inv idle a -> sorted (apr a) (waiters s a).
Proof.
  intros HI. pose proof (ci_sorted _ _ HI TL_waitingforsemaphore eq_refl) as Hs. unfold waiters.
  induction Hs as [|y l Hs IH Hy]; [constructor|]. rewrite filter_cons. case_decide; [|done]. constructor; [done|].
  apply Forall_forall. intros z [_ Hz]%list_elem_of_filter. rewrite Forall_forall in Hy. by apply Hy.
Qed.

(** C10: sem_post adds a count, or hands it to the first waiter: that waiter is
    one of the highest priority among the waiters of the semaphore, it becomes
    ready (or pending, under the scheduler lock), the others keep waiting in
    their order, and contexts are switched exactly when the running task
    changes. *)
Theorem sem_post_refines `{SchedConfig} idle s a sem c :
  sem_refines idle s a -> s_sems s !! sem = Some c -> c < SEM_VALUE_MAX ->
  wp (sem_post sem s) (fun '((ret, b), s') => ret = true /\ exists a',
    sem_refines idle s' a' /\ sem_view sem (s_sems s') a' = cs_post (sem_view sem (s_sems s) a)
    /\ (forall s2, s2 <> sem -> sem_view s2 (s_sems s') a' = sem_view s2 (s_sems s) a)
    /\ b = bool_decide (arun a' <> arun a)
    /\ match waiters sem a with
       | [] => as_lists a' = as_lists a
       | x :: q => (x ∈ as_lists a' TL_readytorun \/ x ∈ as_lists a' TL_pendingtasks) /\ Forall (fun y => apr a y <= apr a x) q
       end).
Proof.
  intros HSR Hc Hm. eapply wp_mono; [by apply (sem_post_ok idle s a sem c)|]. intros [[ret b] s'] (H1 & a' & H2 & H3 & H4 & H5 & H6 & _).
  split; [done|]. exists a'. split; [done|]. split; [done|]. split; [done|]. split; [done|].
  destruct HSR as (_ & [HC _] & _). pose proof (waiters_sorted idle a sem HC) as Hs.
  destruct (waiters sem a) as [|x q]; [done|]. split; [done|]. by apply StronglySorted_inv in Hs as [_ Hs].
Qed.

(** A signal or a timeout ends the wait of a task: the task leaves the
    waiters of its semaphore, the count is given back, so that no later post is
    spent on it, its errno is the error code, and it becomes ready. *)
Theorem sem_waitirq_cancels `{SchedConfig} idle s a x e :
  sem_refines idle s a -> x ∈ as_lists a TL_waitingforsemaphore ->
  let sem := a_wait a x in
  wp (sem_waitirq x e s) (fun '(b, s') => exists a',
    sem_refines idle s' a' /\ sem_view sem (s_sems s') a' = cs_cancel x (sem_view sem (s_sems s) a)
    /\ (forall s2, s2 <> sem -> sem_view s2 (s_sems s') a' = sem_view s2 (s_sems s) a)
    /\ b = bool_decide (arun a' <> arun a)
    /\ (x ∈ as_lists a' TL_readytorun \/ x ∈ as_lists a' TL_pendingtasks)
    /\ from_option pterrno 0 (k_tcbs (s_kernel s') !! x) = e).
Proof.
  intros HSR Hx sem. eapply wp_mono; [by apply (sem_waitirq_ok idle s a x e)|].
  intros [b s'] (a' & H1 & H2 & H3 & H4 & H5 & H6 & _). by exists a'.
Qed.

(** sem_trywait never blocks and never changes a task list: it takes a count
    exactly when one is available and otherwise fails with EAGAIN. *)
Theorem sem_trywait_nonblocking idle s a sem c :
  sem_refines idle s a -> as_int a = false -> s_sems s !! sem = Some c ->
  wp (sem_trywait sem s) (fun '(r, s') => exists a',
    sem_refines idle s' a' /\ (forall l, as_lists a' l = as_lists a l)
    /\ sem_view sem (s_sems s') a' = (if 0 <? c then cs_wait (apr a) (arun a) (sem_view sem (s_sems s) a) else sem_view sem (s_sems s) a)
    /\ (forall s2, s2 <> sem -> sem_view s2 (s_sems s') a' = sem_view s2 (s_sems s) a)
    /\ r = (0 <? c)
    /\ (r = false -> from_option pterrno 0 (k_tcbs (s_kernel s') !! arun a) = EAGAIN)).
Proof.
  intros HSR Hi Hc. eapply wp_mono; [by apply (sem_trywait_ok idle s a sem c)|].
  intros [r s'] (a' & H1 & H2 & H3 & H4 & H5 & H6 & _). by exists a'.
Qed.

(** ** Sequences of calls *)

Inductive sem_call : Type :=
| SWait (sem : Z)
| STryWait (sem : Z)
| SPost (sem : Z)
| SWaitIrq (x e : Z).

(** The callers' contract: task-context calls on an initialised semaphore, no
    wait that would block the idle task, no post of a full semaphore. *)
Definition sem_legal (idle : Z) (c : sem_call) (s : sem_sys) : bool :=
  match c with
  | SWait sem =>
      negb (k_interrupt (s_kernel s))
      && match s_sems s !! sem with
         | Some n => (0 <? n) || bool_decide (dq_head (g_readytorun (s_kernel s)) <> idle)
         | None => false
         end
  | STryWait sem => negb (k_interrupt (s_kernel s)) && bool_decide (is_Some (s_sems s !! sem))
  | SPost sem => match s_sems s !! sem with Some n => n <? SEM_VALUE_MAX | None => false end
  | SWaitIrq x _ => bool_decide (x ∈ members TL_waitingforsemaphore (s_kernel s))
  end.

Definition sem_exec `{SchedConfig} (c : sem_call) (s : sem_sys) : res sem_sys :=
  match c with
  | SWait sem => '(_, s) ← sem_wait sem s; Ok s
  | STryWait sem => '(_, s) ← sem_trywait sem s; Ok s
  | SPost sem => '(_, s) ← sem_post sem s; Ok s
  | SWaitIrq x e => '(_, s) ← sem_waitirq x e s; Ok s
  end.

(** Run the calls in turn; [None] when one breaks the contract. *)
Fixpoint sem_run `{SchedConfig} (idle : Z) (cs : list sem_call) (s : sem_sys) : res (option sem_sys) :=
  match cs with
  | [] => Ok (Some s)
  | c :: cs => if sem_legal idle c s then s ← sem_exec c s; sem_run idle cs s else Ok None
  end.

Lemma sem_exec_ok `{SchedConfig} idle c s a :
  sem_refines idle s a -> sem_legal idle c s = true -> wp (sem_exec c s) (fun s' => exists a', sem_refines idle s' a').
Proof.
  intros HSR Hl. pose proof HSR as (Hr & HI & HS). pose proof Hr as (_ & _ & EI).
  destruct c as [sem|sem|sem|x e]; cbn [sem_legal sem_exec] in *; apply wp_bind.
  - apply andb_true_iff in Hl as [Hi Hl]. apply negb_true_iff in Hi. destruct (s_sems s !! sem) as [n|] eqn:En; [|done].
    eapply wp_mono; [apply (sem_wait_ok idle s a sem n HSR); [congruence|done|]|].
    + intros Hn. apply orb_true_iff in Hl as [Hl|Hl]; [apply Z.ltb_lt in Hl; lia|]. rewrite (ref_run _ _ Hr) in Hl. by apply bool_decide_eq_true in Hl.
    + intros [r s'] (a' & HA & _). apply wp_ret. eauto.
  - apply andb_true_iff in Hl as [Hi Hl]. apply negb_true_iff in Hi. apply bool_decide_eq_true in Hl as [n En].
    eapply wp_mono; [apply (sem_trywait_ok idle s a sem n HSR); [congruence|done]|]. intros [r s'] (a' & HA & _). apply wp_ret. eauto.
  - destruct (s_sems s !! sem) as [n|] eqn:En; [|done]. apply Z.ltb_lt in Hl.
    eapply wp_mono; [by apply (sem_post_ok idle s a sem n)|]. intros [r s'] H1. destruct r as [ret b]. destruct H1 as (_ & a' & HA & _). apply wp_ret. eauto.
  - apply bool_decide_eq_true in Hl. rewrite (members_list _ _ _ Hr) in Hl.
    eapply wp_mono; [by apply (sem_waitirq_ok idle s a x e)|]. intros [b s'] (a' & HA & _). apply wp_ret. eauto.
Qed.

(** C8: along any sequence of semaphore calls that respect the callers'
    contract, no call faults, and at every point the count of each semaphore is
    the number of available counts or minus the number of its waiters, every
    task of g_waitingforsemaphore waits for an existing semaphore, no other
    task waits for one, and the scheduler's invariant holds. *)
Theorem sem_calls_safe `{SchedConfig} idle cs s a :
  sem_refines idle s a ->
  wp (sem_run idle cs s) (fun o => forall s', o = Some s' -> exists a', sem_refines idle s' a').
Proof.
  revert s a. induction cs as [|c cs IH]; intros s a HSR; simpl; [intros s' [= <-]; eauto|].
  destruct (sem_legal idle c s) eqn:El; [|done]. apply wp_bind. eapply wp_mono; [by apply (sem_exec_ok idle c s a)|].
  intros s1 [a1 HSR1]. by apply (IH s1 a1).
Qed.

(** ** A system with one semaphore *)

(** The kernel of [demo_kernel], where the task 80 waits for the semaphore 512
    and nobody for 528, which has two counts. *)
Definition demo_sem_tcbs : gmap Z TCB := alter (set_waitsem 512) 80 (demo_tcbs 0).
Definition demo_sys : sem_sys :=
  SemSys (set_tcbs demo_sem_tcbs (demo_kernel 0)) (list_to_map [(512, -1); (528, 2)]) 0.
Definition demo_sem_sched : asched := a_set (set_waitsem 512) 80 (demo_sched 0).

Lemma demo_sys_ok : sem_refines 16 demo_sys demo_sem_sched.
Proof.
  destruct (quiet_ok 16 _ 80 _ _ (quiet_waitsem 512) (demo_refines 0) (demo_inv 0 ltac:(lia))) as [H1 H2].
  split; [exact H1|]. split; [exact H2|]. split.
  - intros s c Hs. apply elem_of_list_to_map_2 in Hs. set_unfold in Hs. destruct Hs as [[= -> ->]|[[= -> ->]|[]]]; vm_compute; by repeat split.
  - intros x Hx. simpl in Hx. apply list_elem_of_singleton in Hx as ->. vm_compute. eauto.
  - intros l x Hl Hx. destruct l; try done; simpl in Hx; set_unfold in Hx; repeat (destruct Hx as [->|Hx]; [done|]); try done; by subst.
  - vm_compute. discriminate.
Qed.

Lemma sem_wait_refines_witness :
  wp (sem_wait 512 demo_sys) (fun '(r, s') => exists a',
    sem_refines 16 s' a'
    /\ sem_view 512 (s_sems s') a' = cs_wait (apr demo_sem_sched) (arun demo_sem_sched) (sem_view 512 (s_sems demo_sys) demo_sem_sched)
    /\ (forall s2, s2 <> 512 -> sem_view s2 (s_sems s') a' = sem_view s2 (s_sems demo_sys) demo_sem_sched)
    /\ if 0 <? -1 then r = WaitRet true /\ arun a' = arun demo_sem_sched
       else r = WaitBlocked /\ arun demo_sem_sched ∈ as_lists a' TL_waitingforsemaphore /\ a_wait a' (arun demo_sem_sched) = 512).
Proof. apply (sem_wait_refines 16 demo_sys demo_sem_sched 512 (-1)); [apply demo_sys_ok|reflexivity|reflexivity|done]. Defined.

Lemma sem_post_refines_witness :
  waiters 512 demo_sem_sched = [80] /\
  wp (sem_post 512 demo_sys) (fun '((ret, b), s') => ret = true /\ exists a',
    sem_refines 16 s' a' /\ sem_view 512 (s_sems s') a' = cs_post (sem_view 512 (s_sems demo_sys) demo_sem_sched)
    /\ (forall s2, s2 <> 512 -> sem_view s2 (s_sems s') a' = sem_view s2 (s_sems demo_sys) demo_sem_sched)
    /\ b = bool_decide (arun a' <> arun demo_sem_sched)
    /\ match waiters 512 demo_sem_sched with
       | [] => as_lists a' = as_lists demo_sem_sched
       | x :: q => (x ∈ as_lists a' TL_readytorun \/ x ∈ as_lists a' TL_pendingtasks)
                   /\ Forall (fun y => apr demo_sem_sched y <= apr demo_sem_sched x) q
       end).
Proof.
  split; [vm_compute; reflexivity|].
  apply (sem_post_refines 16 demo_sys demo_sem_sched 512 (-1)); [apply demo_sys_ok|reflexivity|reflexivity].
Defined.

Lemma sem_waitirq_cancels_witness :
  wp (sem_waitirq 80 ETIMEDOUT demo_sys) (fun '(b, s') => exists a',
    sem_refines 16 s' a' /\ sem_view 512 (s_sems s') a' = cs_cancel 80 (sem_view 512 (s_sems demo_sys) demo_sem_sched)
    /\ (forall s2, s2 <> 512 -> sem_view s2 (s_sems s') a' = sem_view s2 (s_sems demo_sys) demo_sem_sched)
    /\ b = bool_decide (arun a' <> arun demo_sem_sched)
    /\ (80 ∈ as_lists a' TL_readytorun \/ 80 ∈ as_lists a' TL_pendingtasks)
    /\ from_option pterrno 0 (k_tcbs (s_kernel s') !! 80) = ETIMEDOUT).
Proof. apply (sem_waitirq_cancels 16 demo_sys demo_sem_sched 80 ETIMEDOUT); [apply demo_sys_ok|left]. Defined.

Lemma sem_trywait_nonblocking_witness :
  wp (sem_trywait 528 demo_sys) (fun '(r, s') => exists a',
    sem_refines 16 s' a' /\ (forall l, as_lists a' l = as_lists demo_sem_sched l)
    /\ sem_view 528 (s_sems s') a'
       = (if 0 <? 2 then cs_wait (apr demo_sem_sched) (arun demo_sem_sched) (sem_view 528 (s_sems demo_sys) demo_sem_sched)
          else sem_view 528 (s_sems demo_sys) demo_sem_sched)
    /\ (forall s2, s2 <> 528 -> sem_view s2 (s_sems s') a' = sem_view s2 (s_sems demo_sys) demo_sem_sched)
    /\ r = (0 <? 2)
    /\ (r = false -> from_option pterrno 0 (k_tcbs (s_kernel s') !! arun demo_sem_sched) = EAGAIN)).
Proof. apply (sem_trywait_nonblocking 16 demo_sys demo_sem_sched 528 2); [apply demo_sys_ok|reflexivity|reflexivity]. Defined.

Definition demo_sem_calls : list sem_call := [SWait 528; SPost 512; SWait 512; SWait 512; STryWait 528; SPost 512; SWaitIrq 32 EINTR].

Lemma sem_calls_safe_witness :
  (match sem_run 16 demo_sem_calls demo_sys with Ok (Some _) => true | _ => false end) = true
  /\ wp (sem_run 16 demo_sem_calls demo_sys) (fun o => forall s', o = Some s' -> exists a', sem_refines 16 s' a').
Proof.
  split; [vm_compute; reflexivity|]. apply (sem_calls_safe 16 demo_sem_calls demo_sys demo_sem_sched). apply demo_sys_ok.
Defined.
