(* ===== verification/Wdog.v ===== *)
(** * Watchdog timers: operations (src/nuttx/sched/wd_*.c)

    The active watchdogs are a list in which each holds the ticks between its
    predecessor's expiry and its own (its lag).  [E] is the state outside the
    watchdogs that the watchdog functions, called through pointers, act on; the
    effect of such a call is the parameter [wdentry].  The build has debug
    checks and CONFIG_MAX_WDOGPARMS = 4; *get_errno_ptr() is the field
    [w_errno]. *)

From S2P Require Import Prelude Queue Sched.

Definition MAX_WDOGPARMS : Z := 4.

Record wdog_s : Type := Wdog {
  wd_next : ptr;
  wd_func : ptr;
  wd_lag : Z;
  wd_active : bool;
  wd_argc : Z;
  wd_parm : list Z
}.

Definition set_lag (l : Z) (w : wdog_s) : wdog_s := Wdog (wd_next w) (wd_func w) l (wd_active w) (wd_argc w) (wd_parm w).
Definition set_active (b : bool) (w : wdog_s) : wdog_s := Wdog (wd_next w) (wd_func w) (wd_lag w) b (wd_argc w) (wd_parm w).
Definition set_entry (f : ptr) (n : Z) (p : list Z) (w : wdog_s) : wdog_s := Wdog (wd_next w) f (wd_lag w) (wd_active w) n p.

#[export] Program Instance wdog_linked : SLinked wdog_s := {
  sflink := wd_next;
  set_sflink p w := Wdog p (wd_func w) (wd_lag w) (wd_active w) (wd_argc w) (wd_parm w)
}.
Solve All Obligations with done.

Record wd_sys {E : Type} : Type := WdSys {
  w_mem : gmap Z wdog_s;
  g_wdactivelist : sq_queue;
  g_wdfreelist : sq_queue;
  w_errno : Z;
  w_env : E
}.
Arguments wd_sys E : clear implicits.

Section ops.
  Context {E : Type}.
  Implicit Types (s : wd_sys E).

Definition with_mem (m : gmap Z wdog_s) s : wd_sys E := WdSys E m (g_wdactivelist s) (g_wdfreelist s) (w_errno s) (w_env s).
Definition with_active (q : sq_queue) (m : gmap Z wdog_s) s : wd_sys E := WdSys E m q (g_wdfreelist s) (w_errno s) (w_env s).
Definition with_free (q : sq_queue) (m : gmap Z wdog_s) s : wd_sys E := WdSys E m (g_wdactivelist s) q (w_errno s) (w_env s).
Definition with_errno (e : Z) s : wd_sys E := WdSys E (w_mem s) (g_wdactivelist s) (g_wdfreelist s) e (w_env s).
Definition with_env (e : E) s : wd_sys E := WdSys E (w_mem s) (g_wdactivelist s) (g_wdfreelist s) (w_errno s) e.

(** ** wd_cancel.c *)

(** [while (curr && curr != wdid) { prev = curr; curr = curr->next; }] *)
Fixpoint cancel_search (fuel : nat) (m : gmap Z wdog_s) (wdid prev curr : ptr) : res (ptr * ptr) :=
  match fuel with
  | O => Err FFuel
  | S fuel =>
      if decide (curr = NULL \/ curr = wdid) then Ok (prev, curr)
      else
        c ← deref m curr;
        cancel_search fuel m wdid curr (wd_next c)
  end.

Definition wd_cancel (wdid : ptr) s : res (bool * wd_sys E) :=
  if decide (wdid = NULL) then Ok (false, s)
  else
    w ← deref (w_mem s) wdid;
    if wd_active w then
      let m := w_mem s in
      '(prev, curr) ← cancel_search (list_fuel m) m wdid NULL (sq_head (g_wdactivelist s));
      if decide (curr = NULL) then c_panic
      else
        c ← deref m curr;
        m ← (if decide (wd_next c = NULL) then Ok m
             else
               n ← deref m (wd_next c);
               store (set_lag (s32 (wd_lag n + wd_lag c))) (wd_next c) m);
        '(_, (q, m)) ← (if decide (prev = NULL) then sq_remfirst (g_wdactivelist s) m
                        else sq_remafter prev (g_wdactivelist s) m);
        m ← store (set_sflink NULL) wdid m;
        m ← store (set_active false) wdid m;
        Ok (true, with_active q m s)
    else Ok (false, s).

(** ** wd_start.c *)

(** [while ((now += curr->lag) < 0 && curr->next) { prev = curr; curr = curr->next; }] *)
Fixpoint advance_time (fuel : nat) (m : gmap Z wdog_s) (now : Z) (prev curr : ptr) : res (Z * (ptr * ptr)) :=
  match fuel with
  | O => Err FFuel
  | S fuel =>
      c ← deref m curr;
      let now := s32 (now + wd_lag c) in
      if (now <? 0) && bool_decide (wd_next c <> NULL) then advance_time fuel m now curr (wd_next c)
      else Ok (now, (prev, curr))
  end.

(** [while (now <= delay && curr->next) { prev = curr; curr = curr->next; now += curr->lag; }] *)
Fixpoint advance_delay (fuel : nat) (m : gmap Z wdog_s) (delay now : Z) (prev curr : ptr) : res (Z * (ptr * ptr)) :=
  match fuel with
  | O => Err FFuel
  | S fuel =>
      c ← deref m curr;
      if (now <=? delay) && bool_decide (wd_next c <> NULL) then
        n ← deref m (wd_next c);
        advance_delay fuel m delay (s32 (now + wd_lag n)) curr (wd_next c)
      else Ok (now, (prev, curr))
  end.

(** The arguments of the watchdog function, the unused ones zeroed. *)
Definition load_parms (argc : Z) (ap : list Z) : list Z :=
  (fun i => if Z.of_nat i <? argc then u32 (nth i ap 0) else 0) <$> seq 0 (Z.to_nat MAX_WDOGPARMS).

(** The insertion into the timer queue: the new lag and the new queue. *)
Definition wd_insert (wdog : ptr) (delay : Z) (q : sq_queue) (m : gmap Z wdog_s) : res (Z * (sq_queue * gmap Z wdog_s)) :=
  if decide (sq_head q = NULL) then
    '(q, m) ← sq_addlast wdog q m;
    Ok (delay, (q, m))
  else
    '(now, (prev, curr)) ← advance_time (list_fuel m) m 0 (sq_head q) (sq_head q);
    '(now, (prev, curr)) ← advance_delay (list_fuel m) m delay now prev curr;
    c ← deref m curr;
    if delay <? now then
      let delay := s32 (delay - (now - wd_lag c)) in
      m ← store (set_lag (s32 (wd_lag c - delay))) curr m;
      '(q, m) ← (if decide (curr = sq_head q) then sq_addfirst wdog q m else sq_addafter prev wdog q m);
      Ok (delay, (q, m))
    else
      let delay := s32 (delay - now) in
      if decide (wd_next c = NULL) then
        '(q, m) ← sq_addlast wdog q m;
        Ok (delay, (q, m))
      else
        n ← deref m (wd_next c);
        m ← store (set_lag (s32 (wd_lag n - delay))) (wd_next c) m;
        '(q, m) ← sq_addafter curr wdog q m;
        Ok (delay, (q, m)).

Definition wd_start (wdog : ptr) (delay : Z) (entry : ptr) (argc : Z) (ap : list Z) s : res (bool * wd_sys E) :=
  if decide (wdog = NULL \/ MAX_WDOGPARMS < argc \/ delay < 0) then Ok (false, with_errno EINVAL s)
  else
    w ← deref (w_mem s) wdog;
    s ← (if wd_active w then '(_, s) ← wd_cancel wdog s; Ok s else Ok s);
    m ← store (set_entry entry (u8 argc) (load_parms argc ap)) wdog (w_mem s);
    let delay :=
      if delay <=? 0 then 1
      else if s32 (delay + 1) <=? 0 then s32 (s32 (delay + 1) - 1) else s32 (delay + 1) in
    '(delay, (q, m)) ← wd_insert wdog delay (g_wdactivelist s) m;
    m ← store (set_lag delay) wdog m;
    m ← store (set_active true) wdog m;
    Ok (true, with_active q m s).

(** ** wd_create.c, wd_delete.c, wd_gettime.c, wd_initialize.c *)

Definition wd_create s : res (ptr * wd_sys E) :=
  '(wdog, (q, m)) ← sq_remfirst (g_wdfreelist s) (w_mem s);
  let s := with_free q m s in
  if decide (wdog = NULL) then Ok (wdog, s)
  else
    m ← store (set_sflink NULL) wdog m;
    m ← store (set_active false) wdog m;
    Ok (wdog, with_mem m s).

Definition wd_delete (wdId : ptr) s : res (bool * wd_sys E) :=
  if decide (wdId = NULL) then Ok (false, with_errno EINVAL s)
  else
    w ← deref (w_mem s) wdId;
    s ← (if wd_active w then '(_, s) ← wd_cancel wdId s; Ok s else Ok s);
    '(q, m) ← sq_addlast wdId (g_wdfreelist s) (w_mem s);
    Ok (true, with_free q m s).

Fixpoint gettime_loop (fuel : nat) (m : gmap Z wdog_s) (wdog curr : ptr) (delay : Z) : res Z :=
  match fuel with
  | O => Err FFuel
  | S fuel =>
      if decide (curr = NULL) then Ok 0
      else
        c ← deref m curr;
        let delay := s32 (delay + wd_lag c) in
        if decide (curr = wdog) then Ok delay else gettime_loop fuel m wdog (wd_next c) delay
  end.

Definition wd_gettime (wdog : ptr) s : res Z :=
  if decide (wdog = NULL) then Ok 0
  else
    w ← deref (w_mem s) wdog;
    if wd_active w then gettime_loop (list_fuel (w_mem s)) (w_mem s) wdog (sq_head (g_wdactivelist s)) 0
    else Ok 0.

(** ** wd_timer *)

Context (wdentry : ptr -> Z -> list Z -> wd_sys E -> res (wd_sys E)).

(** [switch (wdog->argc) { ... }] *)
Definition wd_expire (w : wdog_s) s : res (wd_sys E) :=
  if (0 <=? wd_argc w) && (wd_argc w <=? MAX_WDOGPARMS) then
    wdentry (wd_func w) (wd_argc w) (take (Z.to_nat (wd_argc w)) (wd_parm w)) s
  else c_panic.

(** [while (g_wdactivelist.head && g_wdactivelist.head->lag <= 0) { ... }] *)
Fixpoint expire_loop (fuel : nat) s : res (wd_sys E) :=
  match fuel with
  | O => Err FFuel
  | S fuel =>
      if decide (sq_head (g_wdactivelist s) = NULL) then Ok s
      else
        h ← deref (w_mem s) (sq_head (g_wdactivelist s));
        if 0 <? wd_lag h then Ok s
        else
          '(wdog, (q, m)) ← sq_remfirst (g_wdactivelist s) (w_mem s);
          w ← deref m wdog;
          m ← (if decide (sq_head q = NULL) then Ok m
               else
                 n ← deref m (sq_head q);
                 store (set_lag (s32 (wd_lag n + wd_lag w))) (sq_head q) m);
          m ← store (set_active false) wdog m;
          w ← deref m wdog;
          s ← wd_expire w (with_active q m s);
          expire_loop fuel s
  end.

Definition wd_timer s : res (wd_sys E) :=
  let head := sq_head (g_wdactivelist s) in
  if decide (head = NULL) then Ok s
  else
    h ← deref (w_mem s) head;
    m ← store (set_lag (s32 (wd_lag h - 1))) head (w_mem s);
    let s := with_mem m s in
    h ← deref m head;
    if wd_lag h <=? 0 then expire_loop (list_fuel m) s else Ok s.

End ops.

(** wd_initialize: [pool] is what kmalloc returned, [junk] its uninitialised
    contents. *)
Definition SIZEOF_WDOG : Z := 32.

Fixpoint wd_pool (n : nat) (p : ptr) (q : sq_queue) (m : gmap Z wdog_s) : res (sq_queue * gmap Z wdog_s) :=
  match n with
  | O => Ok (q, m)
  | S n =>
      '(q, m) ← sq_addlast p q m;
      wd_pool n (p + SIZEOF_WDOG) q m
  end.

Definition wd_initialize {E} (prealloc : nat) (pool : ptr) (junk : gmap Z wdog_s) (e : Z) (env : E) : res (wd_sys E) :=
  '(free, m) ← (if decide (pool = NULL) then Ok (sq_init, junk) else wd_pool prealloc pool sq_init junk);
  Ok (WdSys E m sq_init free e env).
