(* ===== verification/WdogSpec.v ===== *)
(** * Watchdog timers: specification and theorems

    The abstract timer queue is the list of the active watchdogs with the ticks
    left to each, in the order of expiry.  [timers] reads it from the lags; the
    operations insert into it, delete from it and count it down. *)

From S2P Require Import Prelude Queue Sched Wdog.

(** ** The abstract timer queue *)

Fixpoint insert_timer (x d : Z) (t : list (Z * Z)) : list (Z * Z) :=
  match t with
  | [] => [(x, d)]
  | (y, e) :: t => if d <? e then (x, d) :: (y, e) :: t else (y, e) :: insert_timer x d t
  end.

Definition remove_timer (x : Z) (t : list (Z * Z)) : list (Z * Z) := filter (fun p => p.1 <> x) t.

(** One tick: who expires, and what is left. *)
Definition expired (t : list (Z * Z)) : list Z := fst <$> filter (fun p => p.2 <= 1) t.
Definition tick (t : list (Z * Z)) : list (Z * Z) := (fun p => (p.1, p.2 - 1)) <$> filter (fun p => 1 < p.2) t.

Definition time_left (x : Z) (t : list (Z * Z)) : Z := from_option snd 0 (head (filter (fun p => p.1 = x) t)).

(** ** Reading it from the lags *)

Section timers.
  Context (lag : Z -> Z).

Fixpoint timers (acc : Z) (l : list Z) : list (Z * Z) :=
  match l with
  | [] => []
  | x :: l => (x, acc + lag x) :: timers (acc + lag x) l
  end.

Fixpoint total (l : list Z) : Z :=
  match l with
  | [] => 0
  | x :: l => lag x + total l
  end.

Lemma lags_app l1 l2 : total (l1 ++ l2) = total l1 + total l2.
Proof. induction l1 as [|x l1 IH]; simpl; [done|]. lia. Qed.

Lemma timers_app acc l1 l2 : timers acc (l1 ++ l2) = timers acc l1 ++ timers (acc + total l1) l2.
Proof.
  revert acc. induction l1 as [|x l1 IH]; intros acc; simpl; [by rewrite Z.add_0_r|]. rewrite IH. by rewrite Z.add_assoc.
Qed.

Lemma timers_fst acc l : fst <$> timers acc l = l.
Proof. revert acc. induction l as [|x l IH]; intros acc; simpl; [done|]. by rewrite IH. Qed.

Lemma lags_nonneg l : Forall (fun x => 0 <= lag x) l -> 0 <= total l.
Proof. induction 1; simpl; lia. Qed.

Lemma timers_bound acc l : Forall (fun x => 0 <= lag x) l -> Forall (fun p => acc <= p.2 <= acc + total l) (timers acc l).
Proof.
  intros Hl. revert acc. induction Hl as [|x l Hx Hl IH]; intros acc; simpl; [constructor|]. pose proof (lags_nonneg l Hl).
  constructor; [simpl; lia|]. eapply Forall_impl; [apply IH|]. intros p. simpl. lia.
Qed.

End timers.

Lemma timers_ext lag lag' acc l : (forall x, x ∈ l -> lag' x = lag x) -> timers lag' acc l = timers lag acc l.
Proof.
  revert acc. induction l as [|x l IH]; intros acc Hl; simpl; [done|]. rewrite Hl by left. f_equal. apply IH. intros. apply Hl. by right.
Qed.

Lemma total_ext lag lag' l : (forall x, x ∈ l -> lag' x = lag x) -> total lag' l = total lag l.
Proof. induction l as [|x l IH]; intros Hl; simpl; [done|]. rewrite Hl, IH; [done| |left]. intros. apply Hl. by right. Qed.

(** The head's lag changes by [d] and the start of the list the other way. *)
Lemma timers_shift lag lag' acc d l :
  NoDup l -> (forall x, x ∈ l -> lag' x = if decide (x = hdp NULL l) then lag x - d else lag x) ->
  timers lag' (acc + d) l = timers lag acc l.
Proof.
  destruct l as [|x l]; intros Hd Hl; [done|]. simpl. apply NoDup_cons in Hd as [Hx _].
  rewrite (Hl x) by left. rewrite decide_True by done. replace (acc + d + (lag x - d)) with (acc + lag x) by lia. f_equal.
  apply timers_ext. intros y Hy. rewrite (Hl y) by (by right). rewrite decide_False; [done|]. intros ->. done.
Qed.

Lemma total_shift lag lag' d l :
  NoDup l -> l <> [] -> (forall x, x ∈ l -> lag' x = if decide (x = hdp NULL l) then lag x - d else lag x) ->
  total lag' l = total lag l - d.
Proof.
  destruct l as [|x l]; intros Hd Hne Hl; [done|]. simpl. apply NoDup_cons in Hd as [Hx _].
  rewrite (Hl x) by left. rewrite decide_True by done. rewrite (total_ext lag lag'); [lia|].
  intros y Hy. rewrite (Hl y) by (by right). rewrite decide_False; [done|]. intros ->. done.
Qed.

Lemma insert_timer_split x d t1 t2 :
  Forall (fun p => p.2 <= d) t1 -> (t2 = [] \/ exists y e t, t2 = (y, e) :: t /\ d < e) ->
  insert_timer x d (t1 ++ t2) = t1 ++ (x, d) :: t2.
Proof.
  intros H1 H2. induction H1 as [|[y e] t1 Hy H1 IH]; simpl in *.
  - destruct H2 as [->|(y & e & t & -> & Hd)]; [done|]. simpl. destruct (Z.ltb_spec d e); [done|lia].
  - destruct (Z.ltb_spec d e); [lia|]. by rewrite IH.
Qed.

(** Inserting in the middle of the queue with the relative delay. *)
Lemma timers_insert lag lag' x d l1 l2 :
  Forall (fun y => 0 <= lag y) l1 -> NoDup (l1 ++ l2) -> x ∉ l1 ++ l2 -> total lag l1 <= d ->
  (l2 = [] \/ d < total lag l1 + lag (hdp NULL l2)) ->
  (forall y, y ∈ l1 -> lag' y = lag y) -> lag' x = d - total lag l1 ->
  (forall y, y ∈ l2 -> lag' y = if decide (y = hdp NULL l2) then lag y - (d - total lag l1) else lag y) ->
  timers lag' 0 (l1 ++ x :: l2) = insert_timer x d (timers lag 0 (l1 ++ l2)).
Proof.
  intros H0 Hnd Hx Hd Hl2 E1 Ex E2. apply NoDup_app in Hnd as (_ & _ & Hnd2).
  rewrite !timers_app. simpl. rewrite (timers_ext lag lag') by done. rewrite (total_ext lag lag') by done. rewrite Ex.
  rewrite insert_timer_split.
  - f_equal. f_equal; [f_equal; lia|]. by apply timers_shift.
  - eapply Forall_impl; [by apply timers_bound|]. intros p. simpl. lia.
  - destruct l2 as [|y l2]; [by left|]. right. simpl in *. exists y, (0 + total lag l1 + lag y). eexists. split; [done|].
    destruct Hl2 as [|]; [done|lia].
Qed.

Lemma remove_timer_absent x t : x ∉ t.*1 -> remove_timer x t = t.
Proof.
  intros Hx. unfold remove_timer. induction t as [|p t IH]; [done|]. rewrite filter_cons_True by set_solver. rewrite IH; [done|set_solver].
Qed.

(** Deleting a watchdog whose successor inherits its ticks. *)
Lemma timers_delete lag lag' x l1 l2 :
  NoDup (l1 ++ x :: l2) -> (forall y, y ∈ l1 -> lag' y = lag y) ->
  (forall y, y ∈ l2 -> lag' y = if decide (y = hdp NULL l2) then lag y - (- lag x) else lag y) ->
  timers lag' 0 (l1 ++ l2) = remove_timer x (timers lag 0 (l1 ++ x :: l2)).
Proof.
  intros Hnd E1 E2. apply NoDup_app in Hnd as (_ & Hd & [Hx Hnd]%NoDup_cons). rewrite !timers_app. simpl. unfold remove_timer.
  rewrite filter_app, filter_cons_False by (simpl; tauto).
  fold (remove_timer x (timers lag 0 l1)). fold (remove_timer x (timers lag (0 + total lag l1 + lag x) l2)).
  rewrite !remove_timer_absent by (rewrite timers_fst; set_solver).
  rewrite (timers_ext lag lag') by done. f_equal. rewrite (total_ext lag lag') by done.
  replace (0 + total lag l1) with (0 + total lag l1 + lag x + - lag x) at 1 by lia. by apply timers_shift.
Qed.

(** ** Watchdog data *)

Definition wlag (m : gmap Z wdog_s) (x : Z) : Z := from_option wd_lag 0 (m !! x).
Definition wact (m : gmap Z wdog_s) (x : Z) : bool := from_option wd_active false (m !! x).
Definition wargc (m : gmap Z wdog_s) (x : Z) : Z := from_option wd_argc 0 (m !! x).

(** What an expiring watchdog calls. *)
Definition wentry (m : gmap Z wdog_s) (x : Z) : ptr * Z * list Z :=
  from_option (fun w => (wd_func w, wd_argc w, wd_parm w)) (NULL, 0, []) (m !! x).

(** A watchdog without its link and its lag. *)
Definition wbody (w : wdog_s) : wdog_s := set_lag 0 (sunlink w).

Lemma wframe_weaken s m m' : frame sunlink s m m' -> frame wbody s m m'.
Proof.
  intros [A B]. split; [done|]. intros p. specialize (B p). unfold wbody.
  destruct (m !! p), (m' !! p); cbn [fmap option_fmap option_map] in *; try done. apply (inj Some) in B. by rewrite B.
Qed.

Lemma wframe_lag s m m' x : frame sunlink s m m' -> wlag m' x = wlag m x.
Proof.
  intros [_ B]. specialize (B x). unfold wlag. destruct (m !! x) as [w|], (m' !! x) as [w'|]; cbn in *; try done.
  destruct w, w'. unfold sunlink in B. simpl in *. by simplify_eq.
Qed.

Lemma wframe_data s m m' x :
  frame wbody s m m' -> wact m' x = wact m x /\ wentry m' x = wentry m x /\ (valid m' x <-> valid m x).
Proof.
  intros [_ B]. specialize (B x). unfold wact, wentry, valid. destruct (m !! x) as [w|], (m' !! x) as [w'|]; cbn in *; try done.
  destruct w, w'. unfold wbody, sunlink in B. simpl in *. simplify_eq. split; [done|]. split; [done|]. split; intros [? _]; eauto.
Qed.

Lemma wlag_set m x y l : valid m x -> wlag (alter (set_lag l) x m) y = if decide (y = x) then l else wlag m y.
Proof.
  intros [_ [w Ew]]. unfold wlag. destruct (decide (y = x)) as [->|]; [by rewrite lookup_alter_eq, Ew|by rewrite lookup_alter_ne].
Qed.

Lemma frame_lag s m m' x l : x ∈ s -> frame wbody s m m' -> frame wbody s m (alter (set_lag l) x m').
Proof. intros Hx. apply frame_alter; [done|]. by intros []. Qed.

(** A change that keeps the link keeps the shape of a queue. *)
Lemma sq_repr_alter_data (f : wdog_s -> wdog_s) x m q l :
  (forall w, wd_next (f w) = wd_next w) -> sq_repr m q l -> sq_repr (alter f x m) q l.
Proof.
  intros Hf [A B C D F]. split; try done. clear A B D F. induction l as [|y l IH]; [done|]. destruct C as [(w & Ew & En) C].
  split; [|by apply IH]. destruct (decide (x = y)) as [->|].
  - exists (f w). rewrite lookup_alter_eq, Ew. split; [done|]. simpl in *. by rewrite Hf.
  - exists w. by rewrite lookup_alter_ne.
Qed.

Lemma wlag_lookup m x w : m !! x = Some w -> wlag m x = wd_lag w.
Proof. intros E. unfold wlag. by rewrite E. Qed.

(** ** The search for the place of a new watchdog *)

Section insert.
  Context (m : gmap Z wdog_s) (q : sq_queue) (l : list Z).
  Hypothesis Hq : sq_repr m q l.
  Hypothesis Hlag : Forall (fun x => 0 <= wlag m x) l.
  Hypothesis Hsum : total (wlag m) l <= INT_MAX.

Lemma split_sums l1 c l2 : l = l1 ++ c :: l2 ->
  0 <= total (wlag m) l1 /\ 0 <= wlag m c /\ 0 <= total (wlag m) l2 /\ total (wlag m) l1 + wlag m c + total (wlag m) l2 <= INT_MAX.
Proof.
  intros E. rewrite E in Hlag, Hsum. rewrite lags_app in Hsum. simpl in Hsum. apply Forall_app in Hlag as [H1 H2].
  apply Forall_cons in H2 as [H2 H3]. split; [by apply lags_nonneg|]. split; [done|]. split; [by apply lags_nonneg|]. lia.
Qed.

Lemma advance_delay_spec fuel delay l1 c l2 prev :
  l = l1 ++ c :: l2 -> (length l2 < fuel)%nat -> total (wlag m) l1 <= delay -> (l1 <> [] -> prev = lastp NULL l1) ->
  wp (advance_delay fuel m delay (total (wlag m) l1 + wlag m c) prev c) (fun '(now, (prev', c')) =>
    exists l1' l2', l = l1' ++ c' :: l2' /\ now = total (wlag m) l1' + wlag m c' /\ total (wlag m) l1' <= delay
      /\ (l1' <> [] -> prev' = lastp NULL l1') /\ (delay < now \/ l2' = [])).
Proof.
  revert l1 c l2 prev. induction fuel as [|fuel IH]; intros l1 c l2 prev E Hf Hd Hp; [lia|]. cbn [advance_delay].
  pose proof Hq as [_ _ Hs Hnd H0]. rewrite E in Hs, H0. destruct (sseg_lookup _ _ _ _ _ Hs) as (w & Ew & En).
  apply wp_bind. eapply wp_deref; [set_solver|done|]. cbv beta. change (wd_next w) with (sflink w). rewrite En.
  destruct (split_sums l1 c l2 E) as (S1 & S2 & S3 & S4).
  destruct (Z.leb_spec (total (wlag m) l1 + wlag m c) delay) as [Hle|Hgt].
  - destruct l2 as [|n l2]; simpl.
    + exists l1, []. repeat split; auto.
    + rewrite bool_decide_true by set_solver. assert (l = (l1 ++ [c]) ++ n :: l2) as E' by (by rewrite E, <- app_assoc).
      apply wp_bind, wp_deref_valid; [eapply sq_repr_valid; [exact Hq|rewrite E; set_solver]|]. intros nw Enw. cbv beta.
      rewrite <- (wlag_lookup _ _ _ Enw). simpl in S3, S4. destruct (split_sums _ _ _ E') as (_ & T2 & T3 & _).
      assert (total (wlag m) (l1 ++ [c]) = total (wlag m) l1 + wlag m c) as Et by (rewrite lags_app; simpl; lia).
      rewrite s32_id by lia. rewrite <- Et. apply (IH (l1 ++ [c]) n l2 c E'); [simpl in Hf; lia|lia|]. intros _. by rewrite lastp_snoc.
  - simpl. exists l1, l2. repeat split; auto.
Qed.

Lemma advance_time_spec fuel c l2 : l = c :: l2 -> (0 < fuel)%nat -> advance_time fuel m 0 c c = Ok (wlag m c, (c, c)).
Proof.
  intros E Hf. destruct fuel as [|fuel]; [lia|]. cbn [advance_time].
  destruct (sq_repr_valid _ _ _ c Hq) as [Hn [w Ew]]; [rewrite E; left|]. rewrite (deref_Some _ _ w) by done. cbn [mbind res_bind].
  destruct (split_sums [] c l2 E) as (_ & S2 & S3 & S4). simpl in S4. rewrite <- (wlag_lookup _ _ _ Ew), s32_id by lia.
  destruct (Z.ltb_spec (0 + wlag m c) 0); [lia|]. simpl. by rewrite Z.add_0_l.
Qed.

(** The place found, the relative delay and the successor's new lag. *)
Definition inserted (x delay : Z) : Z * (sq_queue * gmap Z wdog_s) -> Prop := fun '(d, (q', m')) =>
  exists l1 l2, l = l1 ++ l2 /\ sq_repr m' q' (l1 ++ x :: l2)
    /\ d = delay - total (wlag m) l1 /\ 0 <= d /\ (l2 = [] \/ delay < total (wlag m) l1 + wlag m (hdp NULL l2))
    /\ frame wbody (x :: l) m m'
    /\ (forall y, y ∈ l -> wlag m' y = if decide (y = hdp NULL l2) then wlag m y - d else wlag m y).

(** The new watchdog goes before [c], which gives up a part of its lag. *)
Lemma insert_before x delay l1 c l2 prev :
  valid m x -> x ∉ l -> l = l1 ++ c :: l2 -> total (wlag m) l1 <= delay < total (wlag m) l1 + wlag m c -> (l1 <> [] -> prev = lastp NULL l1) ->
  let d := delay - total (wlag m) l1 in
  wp (m ← store (set_lag (wlag m c - d)) c m;
      '(q, m) ← (if decide (c = hdp NULL l) then sq_addfirst x q m else sq_addafter prev x q m);
      Ok (d, (q, m))) (inserted x delay).
Proof.
  intros Hv Hx E12 Hd Hprev d. pose proof Hq as [_ _ _ Hnd _]. rewrite E12 in Hnd. apply NoDup_app in Hnd as (_ & Hd1 & _).
  assert (valid m c) as Hvc by (eapply sq_repr_valid; [exact Hq|rewrite E12; set_solver]).
  apply wp_bind, wp_store; [done|]. set (m1 := alter _ c m). assert (sq_repr m1 q l) as Hq1 by by apply sq_repr_alter_data.
  assert (valid m1 x) as Hv1 by by apply valid_alter.
  assert (forall q' m', sq_repr m' q' (l1 ++ x :: c :: l2) -> frame sunlink (x :: l) m1 m' -> wp (Ok (d, (q', m'))) (inserted x delay)) as Hfin.
  { intros q' m' H1 H2. apply wp_ret. exists l1, (c :: l2). split; [done|]. split; [done|]. split; [done|]. split; [lia|]. split; [right; simpl; lia|].
    split; [eapply frame_trans; [apply frame_lag; [|apply frame_refl]|by apply wframe_weaken]; rewrite E12; set_solver|].
    intros y Hy. rewrite (wframe_lag _ _ _ y H2). unfold m1. rewrite wlag_set by done. simpl. case_decide; [by subst|done]. }
  apply wp_bind. destruct (decide (c = hdp NULL l)) as [Ec|Hne].
  - assert (l1 = []) as ->. { destruct l1 as [|a l1]; [done|]. rewrite E12 in Ec. simpl in Ec. subst. exfalso. apply (Hd1 a); left. }
    eapply wp_mono; [by apply (sq_addfirst_spec m1 q l x)|]. intros [q' m'] [H1 H2]. apply Hfin; [rewrite E12 in H1; done|].
    eapply frame_mono; [|exact H2]. set_solver.
  - destruct l1 as [|p l1 _] using rev_ind; [by rewrite E12 in Hne|].
    rewrite Hprev, lastp_snoc by (by destruct l1). rewrite E12, <- app_assoc in Hq1. simpl in Hq1.
    eapply wp_mono; [apply (sq_addafter_spec m1 q l1 p (c :: l2) x Hq1 Hv1); rewrite E12, <- app_assoc in Hx; exact Hx|].
    intros [q' m'] [H1 H2]. apply Hfin; [by rewrite <- app_assoc|]. by rewrite E12, <- app_assoc.
Qed.

Lemma wd_insert_spec x delay : valid m x -> x ∉ l -> 1 <= delay <= INT_MAX -> wp (wd_insert x delay q m) (inserted x delay).
Proof.
  intros Hv Hx Hd. pose proof Hq as [Hh _ Hs Hnd H0]. unfold wd_insert. rewrite Hh.
  assert (l = [] \/ exists c l0, l = c :: l0) as [E|(c0 & l0 & E)] by (case l; [by left|eauto]).
  { rewrite E. cbn [head default from_option id]. rewrite decide_True by done. apply wp_bind.
    eapply wp_mono; [by apply (sq_addlast_spec m q l x)|]. intros [q' m'] [H1 H2]. apply wp_ret. exists [], []. rewrite E in H1.
    split; [done|]. split; [done|]. simpl. split; [lia|]. split; [lia|]. split; [by left|].
    split; [by apply wframe_weaken|rewrite E; set_solver]. }
  rewrite decide_False by (rewrite E in *; set_solver). pose proof (sq_repr_length _ _ _ Hq) as Hlen. rewrite E at 1 2. cbn [head default from_option id].
  rewrite (advance_time_spec _ c0 l0) by (try done; unfold list_fuel; lia). cbn [mbind res_bind].
  apply wp_bind. eapply wp_mono.
  { apply (advance_delay_spec (list_fuel m) delay [] c0 l0 c0 E); [rewrite E in Hlen; simpl in Hlen; unfold list_fuel; lia|simpl; lia|done]. }
  intros [now [prev c]] (l1 & l2 & E12 & -> & Hl1 & Hprev & Hend). destruct (split_sums l1 c l2 E12) as (S1 & S2 & S3 & S4).
  assert (valid m c) as Hvc by (eapply sq_repr_valid; [exact Hq|rewrite E12; set_solver]).
  apply wp_bind, wp_deref_valid; [done|]. intros w Ew. cbv beta. rewrite <- (wlag_lookup _ _ _ Ew).
  destruct (Z.ltb_spec delay (total (wlag m) l1 + wlag m c)) as [Hlt|Hge].
  - replace (s32 (delay - (total (wlag m) l1 + wlag m c - wlag m c))) with (delay - total (wlag m) l1) by (rewrite s32_id by lia; lia).
    rewrite (s32_id (wlag m c - _)) by lia. by apply (insert_before x delay l1 c l2 prev).
  - destruct Hend as [?| ->]; [lia|]. rewrite E12 in Hs. destruct (sseg_lookup _ _ _ _ _ Hs) as (w' & Ew' & En). assert (w' = w) as -> by congruence.
    change (wd_next w) with (sflink w). rewrite En. cbn [head default from_option id]. rewrite decide_True by done.
    rewrite s32_id by lia. apply wp_bind. eapply wp_mono; [by apply (sq_addlast_spec m q l x)|]. intros [q' m'] [H1 H2]. apply wp_ret.
    exists l, []. rewrite app_nil_r. split; [done|]. split; [done|]. rewrite E12 at 1 2. rewrite lags_app. simpl.
    split; [lia|]. split; [lia|]. split; [by left|]. split; [by apply wframe_weaken|].
    intros y Hy. rewrite (wframe_lag _ _ _ y H2), decide_False; [done|]. intros ->. done.
Qed.

End insert.

(** ** The invariant *)

(** [l] are the active watchdogs and [fr] the free ones. *)
Record wd_ok {E} (s : wd_sys E) (l fr : list Z) : Prop := WdOk {
  wo_active : sq_repr (w_mem s) (g_wdactivelist s) l;
  wo_free : sq_repr (w_mem s) (g_wdfreelist s) fr;
  wo_disj : forall x, x ∈ l -> x ∉ fr;
  wo_flag : forall x, x ∉ fr -> wact (w_mem s) x = true <-> x ∈ l;
  wo_lag : Forall (fun x => 0 <= wlag (w_mem s) x) l;
  wo_sum : total (wlag (w_mem s)) l <= INT_MAX;
  wo_argc : forall x, x ∈ l -> 0 <= wargc (w_mem s) x <= MAX_WDOGPARMS
}.

(** The abstract timer queue of a system. *)
Definition queue {E} (s : wd_sys E) (l : list Z) : list (Z * Z) := timers (wlag (w_mem s)) 0 l.

(** Between ticks no watchdog is due. *)
Definition armed {E} (s : wd_sys E) (l : list Z) : Prop := l <> [] -> 1 <= wlag (w_mem s) (hdp NULL l).

Lemma wargc_entry m x : wargc m x = (wentry m x).1.2.
Proof. unfold wargc, wentry. by destruct (m !! x). Qed.

Lemma cancel_search_spec fuel m l1 x l2 prev :
  sseg m (l1 ++ x :: l2) NULL -> NULL ∉ l1 ++ x :: l2 -> x ∉ l1 -> (length l1 < fuel)%nat ->
  cancel_search fuel m x prev (hdp NULL (l1 ++ x :: l2)) = Ok (lastp prev l1, x).
Proof.
  revert l1 prev. induction fuel as [|fuel IH]; intros l1 prev Hs H0 Hx Hf; [lia|]. cbn [cancel_search].
  destruct l1 as [|y l1]; cbn [app head default from_option id].
  - by rewrite decide_True by (by right).
  - destruct Hs as [(w & Ew & En) Hs]. rewrite decide_False by set_solver. rewrite (deref_Some _ _ w) by (done || set_solver).
    cbn [mbind res_bind]. change (wd_next w) with (sflink w). rewrite En, lastp_cons. apply IH; [done|set_solver|set_solver|simpl in Hf; lia].
Qed.

(** The state in which the watchdog [x] has been taken out and its successor has
    got its ticks, once its own fields are reset. *)
Lemma cancelled_ok {E} (s : wd_sys E) l1 x l2 fr q' m2 :
  wd_ok s (l1 ++ x :: l2) fr -> sq_repr m2 q' (l1 ++ l2) -> frame wbody (l1 ++ x :: l2) (w_mem s) m2 ->
  (forall y, wlag m2 y = if decide (y = hdp NULL l2 /\ l2 <> []) then wlag (w_mem s) y + wlag (w_mem s) x else wlag (w_mem s) y) ->
  let s' := with_active q' (alter (set_active false) x (alter (set_sflink NULL) x m2)) s in
  wd_ok s' (l1 ++ l2) fr /\ queue s' (l1 ++ l2) = remove_timer x (queue s (l1 ++ x :: l2)) /\ x ∉ l1 ++ l2 /\ (armed s (l1 ++ x :: l2) -> armed s' (l1 ++ l2))
    /\ (forall y, y <> x -> wentry (w_mem s') y = wentry (w_mem s) y) /\ w_env s' = w_env s /\ (forall y, valid (w_mem s') y <-> valid (w_mem s) y).
Proof.
  intros HW HA2 Hf12 Elag2 s'. pose proof HW as [HA HF Hdis Hfl Hlag Hsum Harg]. unfold s'. clear s'. set (m := w_mem s) in *. pose proof HA as [_ _ _ Hnd _].
  destruct (split_sums m _ Hlag Hsum l1 x l2 eq_refl) as (S1 & S2 & S3 & S4). apply NoDup_app in Hnd as (Hnd1 & Hd1 & [Hd2 Hnd2]%NoDup_cons). rewrite Forall_forall in Hlag.
  set (m3 := alter (set_active false) x (alter (set_sflink NULL) x m2)).
  assert (x ∉ l1 ++ l2) as Hx12 by set_solver. assert (x ∈ l1 ++ x :: l2) as Hx by set_solver.
  assert (forall y, y <> x -> m3 !! y = m2 !! y) as Em3 by (intros y Hy; unfold m3; by rewrite !lookup_alter_ne).
  assert (forall y, y ∈ l1 ++ l2 -> wlag m3 y = if decide (y = hdp NULL l2 /\ l2 <> []) then wlag m y + wlag m x else wlag m y) as Elag3.
  { intros y Hy. rewrite <- Elag2. unfold wlag at 1 2. rewrite Em3; [done|congruence]. }
  assert (forall y, y ∈ l1 -> wlag m3 y = wlag m y) as E1.
  { intros y Hy. rewrite Elag3 by set_solver. rewrite decide_False; [done|]. intros [-> Hne]. apply (Hd1 _ Hy). right. by apply hdp_elem. }
  assert (forall y, y ∈ l2 -> wlag m3 y = if decide (y = hdp NULL l2) then wlag m y - - wlag m x else wlag m y) as E2.
  { intros y Hy. rewrite Elag3 by set_solver. assert (l2 <> []) by (intros ->; set_solver).
    repeat case_decide; try tauto; lia. }
  assert (queue (with_active q' m3 s) (l1 ++ l2) = remove_timer x (queue s (l1 ++ x :: l2))) as Equeue.
  { unfold queue. simpl. apply timers_delete; try done. apply NoDup_app. split; [done|]. split; [done|]. by constructor. }
  assert (total (wlag m3) (l1 ++ l2) <= INT_MAX) as Hsum'.
  { rewrite lags_app. rewrite (total_ext (wlag m) (wlag m3) l1) by done. destruct (decide (l2 = [])) as [->|Hne]; [simpl; lia|].
    rewrite (total_shift (wlag m) (wlag m3) (- wlag m x) l2) by done. lia. }
  split; [|split; [done|split; [done|split]]].
  - split; simpl.
    + by repeat apply sq_repr_alter_ne.
    + repeat (apply sq_repr_alter_ne; [by apply Hdis|]). eapply sq_repr_frame; [exact Hf12| |exact HF]. intros y Hy. by apply Hdis.
    + intros y Hy. apply Hdis. set_solver.
    + intros y Hy. destruct (decide (y = x)) as [->|Hne].
      * split; [|done]. unfold wact, m3. rewrite lookup_alter_eq. by destruct (alter _ x m2 !! x).
      * transitivity (wact m2 y = true); [unfold wact; by rewrite Em3|]. destruct (wframe_data _ _ _ y Hf12) as (-> & _ & _).
        rewrite Hfl by done. set_solver.
    + apply Forall_forall. intros y Hy. rewrite Elag3 by done. pose proof (Hlag y ltac:(set_solver)). case_decide; lia.
    + done.
    + intros y Hy. assert (y <> x) by congruence. unfold wargc. rewrite Em3 by done. fold (wargc m2 y). rewrite wargc_entry.
      destruct (wframe_data _ _ _ y Hf12) as (_ & -> & _). rewrite <- wargc_entry. apply Harg. set_solver.
  - intros Har Hne. unfold armed in Har. simpl in *. specialize (Har ltac:(by destruct l1)). fold m in Har. rewrite Elag3 by by apply hdp_elem.
    destruct l1 as [|a l1]; simpl in *.
    + case_decide as Ed; [|naive_solver]. pose proof (Hlag (hdp NULL l2)) as Hh2. pose proof (hdp_elem NULL l2 Hne). specialize (Hh2 ltac:(set_solver)). lia.
    + case_decide; lia.
  - split; [|split; [done|]].
    + intros y Hy. simpl. transitivity (wentry m2 y); [unfold wentry; by rewrite Em3|]. by destruct (wframe_data _ _ _ y Hf12) as (_ & -> & _).
    + intros y. simpl. unfold m3. rewrite !valid_alter_iff. by destruct (wframe_data _ _ _ y Hf12) as (_ & _ & ->).
Qed.

Lemma wd_cancel_ok {E} (s : wd_sys E) l fr x :
  wd_ok s l fr -> x ∈ l ->
  wp (wd_cancel x s) (fun '(r, s') => r = true /\ exists l',
    wd_ok s' l' fr /\ queue s' l' = remove_timer x (queue s l) /\ x ∉ l' /\ (armed s l -> armed s' l')
    /\ (forall y, y <> x -> wentry (w_mem s') y = wentry (w_mem s) y) /\ w_env s' = w_env s
    /\ (forall y, valid (w_mem s') y <-> valid (w_mem s) y)).
Proof.
  intros HW Hx. pose proof HW as [HA HF Hdis Hfl Hlag Hsum Harg]. set (m := w_mem s) in *.
  pose proof (sq_repr_valid _ _ _ _ HA Hx) as Hv. unfold wd_cancel. fold m. rewrite decide_False by (by eapply valid_ne).
  apply wp_bind, wp_deref_valid; [done|]. intros w Ew. cbv beta.
  assert (wd_active w = true) as ->. { transitivity (wact m x); [unfold wact; by rewrite Ew|]. apply Hfl; [by apply Hdis|done]. }
  pose proof HA as [Hh _ Hs Hnd H0]. destruct (nodup_split x l Hnd Hx) as (l1 & l2 & -> & Hx1).
  rewrite Hh. pose proof (sq_repr_length _ _ _ HA) as Hlen. rewrite length_app in Hlen. simpl in Hlen.
  rewrite (cancel_search_spec _ m l1 x l2 NULL) by (try done; unfold list_fuel; lia). apply wp_bind, wp_ret.
  rewrite decide_False by (by eapply valid_ne). apply wp_bind. eapply wp_deref; [by eapply valid_ne|exact Ew|]. cbv beta.
  destruct (sseg_lookup _ _ _ _ _ Hs) as (w' & Ew' & En). assert (w' = w) as -> by congruence.
  change (wd_next w) with (sflink w). rewrite En. rewrite <- (wlag_lookup _ _ _ Ew).
  destruct (split_sums m _ Hlag Hsum l1 x l2 eq_refl) as (S1 & S2 & S3 & S4).
  apply NoDup_app in Hnd as (Hnd1 & Hd1 & [Hd2 Hnd2]%NoDup_cons). rewrite Forall_forall in Hlag.
  set (m1 := if decide (l2 = []) then m else alter (set_lag (wlag m (hdp NULL l2) + wlag m x)) (hdp NULL l2) m).
  assert (forall y, wlag m1 y = if decide (y = hdp NULL l2 /\ l2 <> []) then wlag m y + wlag m x else wlag m y) as Elag.
  { intros y. unfold m1. destruct (decide (l2 = [])) as [->|Hne]; [by rewrite decide_False by tauto|].
    rewrite wlag_set by (eapply sq_repr_valid; [exact HA|pose proof (hdp_elem NULL l2 Hne); set_solver]).
    repeat case_decide; subst; naive_solver. }
  assert (frame wbody (l1 ++ x :: l2) m m1) as Hf1.
  { unfold m1. case_decide as E2; [apply frame_refl|]. apply frame_lag, frame_refl. pose proof (hdp_elem NULL l2 E2). set_solver. }
  assert (sq_repr m1 (g_wdactivelist s) (l1 ++ x :: l2)) as HA1 by (unfold m1; case_decide; [done|by apply sq_repr_alter_data]).
  apply wp_bind. eapply (wp_mono _ (fun m' => m' = m1)).
  { unfold m1. destruct l2 as [|n l2]; cbn [head default from_option id]; [by rewrite !decide_True|].
    assert (valid m n) as Hvn by (eapply sq_repr_valid; [exact HA|set_solver]). pose proof (Hlag n ltac:(set_solver)).
    rewrite !decide_False by (done || by eapply valid_ne). apply wp_bind, wp_deref_valid; [done|]. intros wn Ewn. cbv beta.
    assert (0 <= total (wlag m) l2) by (apply lags_nonneg, Forall_forall; intros; apply Hlag; set_solver). simpl in S4.
    rewrite <- (wlag_lookup _ _ _ Ewn), s32_id by lia. by apply wp_store. }
  intros ? ->. apply wp_bind. eapply (wp_mono _ (fun '(_, (q', m')) => sq_repr m' q' (l1 ++ l2) /\ frame sunlink (l1 ++ x :: l2) m1 m')).
  { destruct l1 as [|p l1 _] using rev_ind.
    - rewrite decide_True by done. eapply wp_mono; [apply (sq_remfirst_spec m1 _ _ HA1)|]. by intros [? [q' m']] (_ & H1 & H2).
    - rewrite lastp_snoc. rewrite decide_False by (intros ->; apply H0; set_solver). rewrite <- app_assoc in HA1. simpl in HA1.
      eapply wp_mono; [apply (sq_remafter_spec m1 _ l1 p x l2 HA1)|]. intros [? [q' m']] (_ & H1 & H2).
      rewrite <- !app_assoc. done. }
  intros [? [q' m2]] [HA2 Hf2]. cbv beta iota.
  assert (valid m2 x) as Hv2. { eapply frame_valid; [exact Hf2|]. by eapply frame_valid. }
  apply wp_bind, wp_store; [done|]. apply wp_bind, wp_store; [by apply valid_alter|]. apply wp_ret. split; [done|].
  pose proof (frame_trans _ _ _ _ _ Hf1 (wframe_weaken _ _ _ Hf2)) as Hf12.
  exists (l1 ++ l2). apply cancelled_ok; [done|done|done|]. intros y. rewrite <- Elag. apply (wframe_lag _ _ _ y Hf2).
Qed.

(** ** wd_start *)

(** The delay as the code stores it. *)
Definition started_delay (delay : Z) : Z := Z.min (delay + 1) INT_MAX.

Lemma delay_ok delay : 0 <= delay <= INT_MAX ->
  (if delay <=? 0 then 1 else if s32 (delay + 1) <=? 0 then s32 (s32 (delay + 1) - 1) else s32 (delay + 1)) = started_delay delay
  /\ 1 <= started_delay delay <= INT_MAX.
Proof.
  intros Hd. unfold started_delay. split; [|unfold INT_MAX in *; lia].
  destruct (Z.leb_spec delay 0); [unfold INT_MAX in *; lia|]. destruct (decide (delay = INT_MAX)) as [->|Hne].
  - vm_compute. done.
  - rewrite !s32_id by (unfold INT_MAX in *; lia). destruct (Z.leb_spec (delay + 1) 0); unfold INT_MAX in *; lia.
Qed.

Lemma u8_argc n : 0 <= n <= MAX_WDOGPARMS -> u8 n = n.
Proof. unfold MAX_WDOGPARMS, u8. intros. apply Z.mod_small. lia. Qed.

(** The lags after an insertion. *)
Lemma insert_lags lag lag' x d delay l1 l2 :
  NoDup (l1 ++ l2) -> NULL ∉ l1 ++ l2 -> Forall (fun y => 0 <= lag y) (l1 ++ l2) -> total lag (l1 ++ l2) <= INT_MAX -> delay <= INT_MAX ->
  d = delay - total lag l1 -> 0 <= d -> (l2 = [] \/ delay < total lag l1 + lag (hdp NULL l2)) -> lag' x = d ->
  (forall y, y ∈ l1 ++ l2 -> lag' y = if decide (y = hdp NULL l2) then lag y - d else lag y) ->
  (forall y, y ∈ l1 -> lag' y = lag y) /\ (forall y, y ∈ l2 -> lag' y = if decide (y = hdp NULL l2) then lag y - d else lag y)
  /\ Forall (fun y => 0 <= lag' y) (l1 ++ x :: l2) /\ total lag' (l1 ++ x :: l2) <= INT_MAX.
Proof.
  intros (Hnd1 & Hd1 & Hnd2)%NoDup_app H0 [Hlg1 Hlg2]%Forall_app Hsum Hmax Ed Hd0 Hl2 Lx L3.
  pose proof (lags_nonneg _ _ Hlg1) as T1. pose proof (lags_nonneg _ _ Hlg2) as T2. rewrite lags_app in Hsum.
  assert (forall y, y ∈ l1 -> lag' y = lag y) as L31.
  { intros y Hy. rewrite L3 by set_solver. rewrite decide_False; [done|]. intros ->.
    destruct l2 as [|b l2]; simpl in Hy; [set_solver|]. apply (Hd1 b Hy). left. }
  assert (forall y, y ∈ l2 -> lag' y = if decide (y = hdp NULL l2) then lag y - d else lag y) as L32 by (intros y Hy; apply L3; set_solver).
  split; [done|]. split; [done|]. split.
  - rewrite Forall_forall in Hlg1, Hlg2. apply Forall_app. split; [|constructor; [lia|]]; apply Forall_forall; intros y Hy.
    + rewrite L31 by done. by apply Hlg1.
    + rewrite L32 by done. specialize (Hlg2 y Hy). case_decide as Ey; [|lia]. destruct Hl2 as [->|]; [set_solver|]. subst y. lia.
  - rewrite lags_app. simpl. rewrite Lx, (total_ext lag lag' l1) by done. destruct (decide (l2 = [])) as [->|Hne]; [simpl; lia|].
    rewrite (total_shift lag lag' d l2) by done. lia.
Qed.

(** A stopped watchdog that is not free enters the timer queue. *)
Lemma wd_enqueue_ok {E} (s : wd_sys E) l fr x delay entry argc ap :
  wd_ok s l fr -> valid (w_mem s) x -> x ∉ fr -> x ∉ l -> 1 <= delay <= INT_MAX -> 0 <= argc <= MAX_WDOGPARMS ->
  wp (m ← store (set_entry entry (u8 argc) (load_parms argc ap)) x (w_mem s);
      '(d, (q, m)) ← wd_insert x delay (g_wdactivelist s) m;
      m ← store (set_lag d) x m;
      m ← store (set_active true) x m;
      Ok (true, with_active q m s)) (fun '(r, s') => r = true /\ exists l',
    wd_ok s' l' fr /\ queue s' l' = insert_timer x delay (queue s l) /\ (armed s l -> armed s' l')
    /\ wentry (w_mem s') x = (entry, argc, load_parms argc ap)
    /\ (forall y, y <> x -> wentry (w_mem s') y = wentry (w_mem s) y) /\ w_env s' = w_env s
    /\ (forall y, valid (w_mem s') y <-> valid (w_mem s) y)).
Proof.
  intros HW Hv Hfr Hx Hd Hargc. pose proof HW as [HA HF Hdis Hfl Hlag Hsum Harg]. set (m := w_mem s) in *.
  apply wp_bind, wp_store; [done|]. rewrite (u8_argc argc Hargc). set (m0 := alter _ x m).
  assert (forall y, wlag m0 y = wlag m y) as E0.
  { intros y. unfold wlag, m0. destruct (decide (x = y)) as [<-|]; [|by rewrite lookup_alter_ne]. rewrite lookup_alter_eq. by destruct (m !! x). }
  assert (sq_repr m0 (g_wdactivelist s) l) as HA0 by by apply sq_repr_alter_data.
  apply wp_bind. eapply wp_mono; [apply (wd_insert_spec m0 _ l HA0)|].
  { eapply Forall_impl; [exact Hlag|]. intros y. by rewrite E0. } { by rewrite (total_ext (wlag m)). }
  { by apply valid_alter. } { done. } { done. }
  intros [d [q m1]] (l1 & l2 & -> & HA1 & Ed & Hd0 & Hl2 & Hf1 & Hlag1). rewrite E0 in Hl2.
  assert (total (wlag m0) l1 = total (wlag m) l1) as Et by (apply total_ext; intros; apply E0). rewrite Et in Ed, Hl2.
  pose proof HA as [_ _ _ Hnd H0].
  assert (valid m1 x) as Hv1 by (eapply frame_valid; [exact Hf1|]; by apply valid_alter).
  apply wp_bind, wp_store; [done|]. apply wp_bind, wp_store; [by apply valid_alter|]. apply wp_ret. split; [done|].
  set (m3 := alter (set_active true) x (alter (set_lag d) x m1)).
  assert (forall y, y <> x -> m3 !! y = m1 !! y) as Em3 by (intros y Hy; unfold m3; by rewrite !lookup_alter_ne).
  assert (wlag m3 x = d /\ wact m3 x = true /\ wentry m3 x = wentry m1 x) as (Lx & Ax & Nx).
  { destruct (valid_lookup _ _ Hv1) as [w Ew]. unfold wlag, wact, wentry, m3. by rewrite !lookup_alter_eq, Ew. }
  assert (forall y, y ∈ l1 ++ l2 -> wlag m3 y = if decide (y = hdp NULL l2) then wlag m y - d else wlag m y) as L3.
  { intros y Hy. transitivity (wlag m1 y); [unfold wlag; rewrite Em3; [done|congruence]|]. rewrite Hlag1 by done. by rewrite E0. }
  destruct (insert_lags (wlag m) (wlag m3) x d delay l1 l2) as (L31 & L32 & Lpos & Lsum); try done; [lia|].
  assert (forall y, y <> x -> wact m3 y = wact m y /\ wentry m3 y = wentry m y) as D3.
  { intros y Hy. unfold wact, wentry. rewrite Em3 by done. fold (wact m1 y) (wentry m1 y).
    destruct (wframe_data _ _ _ y Hf1) as (-> & -> & _). unfold wact, wentry, m0. by rewrite lookup_alter_ne. }
  exists (l1 ++ x :: l2). split; [|split; [|split; [|split; [|split; [|split; [done|]]]]]].
  - split; simpl.
    + repeat (apply sq_repr_alter_data; [done|]). done.
    + repeat (apply sq_repr_alter_ne; [done|]). eapply sq_repr_frame; [exact Hf1| |apply sq_repr_alter_ne; [done|exact HF]].
      intros y [->|Hy]%elem_of_cons; [done|by apply Hdis].
    + intros y Hy. destruct (decide (y = x)) as [->|]; [done|]. apply Hdis. set_solver.
    + intros y Hy. destruct (decide (y = x)) as [->|Hne]; [split; [set_solver|done]|]. destruct (D3 y Hne) as [-> _]. rewrite Hfl by done. set_solver.
    + done.
    + done.
    + intros y Hy. rewrite wargc_entry. destruct (decide (y = x)) as [->|Hne].
      * rewrite Nx. destruct (wframe_data _ _ _ x Hf1) as (_ & -> & _). unfold wentry, m0. rewrite lookup_alter_eq.
        destruct Hv as [_ [w Ew]]. by rewrite Ew.
      * destruct (D3 y Hne) as [_ ->]. rewrite <- wargc_entry. apply Harg. set_solver.
  - unfold queue. simpl. fold m. apply timers_insert; try done; [by apply Forall_app in Hlag as [? _]|lia|by rewrite Lx|by rewrite <- Ed].
  - intros Har _. unfold armed in Har. simpl in *. destruct l1 as [|a l1]; simpl in *; [rewrite Lx, Ed; simpl; lia|].
    rewrite L31 by left. by apply Har.
  - simpl. rewrite Nx. destruct (wframe_data _ _ _ x Hf1) as (_ & -> & _). unfold wentry, m0. rewrite lookup_alter_eq.
    destruct Hv as [_ [w Ew]]. by rewrite Ew.
  - intros y Hy. by destruct (D3 y Hy).
  - intros y. simpl. unfold m3. rewrite !valid_alter_iff. destruct (wframe_data _ _ _ y Hf1) as (_ & _ & ->). apply valid_alter_iff.
Qed.

Lemma wd_start_ok {E} (s : wd_sys E) l fr x delay entry argc ap :
  wd_ok s l fr -> valid (w_mem s) x -> x ∉ fr -> 0 <= delay <= INT_MAX -> 0 <= argc <= MAX_WDOGPARMS ->
  wp (wd_start x delay entry argc ap s) (fun '(r, s') => r = true /\ exists l',
    wd_ok s' l' fr /\ queue s' l' = insert_timer x (started_delay delay) (remove_timer x (queue s l)) /\ (armed s l -> armed s' l')
    /\ wentry (w_mem s') x = (entry, argc, load_parms argc ap)
    /\ (forall y, y <> x -> wentry (w_mem s') y = wentry (w_mem s) y) /\ w_env s' = w_env s
    /\ (forall y, valid (w_mem s') y <-> valid (w_mem s) y)).
Proof.
  intros HW Hv Hfr Hd Hargc. destruct (delay_ok delay Hd) as [Edelay Hd']. unfold wd_start.
  rewrite decide_False by (intros [?|[?|?]]; [by eapply valid_ne|lia|lia]).
  apply wp_bind, wp_deref_valid; [done|]. intros w Ew. cbv beta. rewrite Edelay.
  assert (wd_active w = wact (w_mem s) x) as -> by (unfold wact; by rewrite Ew).
  apply wp_bind. eapply (wp_mono _ (fun s1 => exists l1, wd_ok s1 l1 fr /\ queue s1 l1 = remove_timer x (queue s l) /\ x ∉ l1
    /\ (armed s l -> armed s1 l1) /\ (forall y, y <> x -> wentry (w_mem s1) y = wentry (w_mem s) y) /\ w_env s1 = w_env s
    /\ (forall y, valid (w_mem s1) y <-> valid (w_mem s) y))).
  { destruct (wact (w_mem s) x) eqn:Ea.
    - apply wp_bind. eapply wp_mono; [apply (wd_cancel_ok s l fr x HW); by apply (wo_flag _ _ _ HW)|].
      intros [r s1] (_ & l1 & H). apply wp_ret. by exists l1.
    - assert (x ∉ l) as Hx by (rewrite <- (wo_flag _ _ _ HW x Hfr); congruence).
      apply wp_ret. exists l. split; [done|]. split; [|done]. symmetry. apply remove_timer_absent. unfold queue.
      by rewrite timers_fst. }
  intros s1 (l1 & HW1 & Eq1 & Hx1 & Har1 & Hen1 & Hev1 & Hval1).
  eapply wp_mono; [apply (wd_enqueue_ok s1 l1 fr x (started_delay delay) entry argc ap HW1); [by apply Hval1|done..]|].
  intros [r s'] (-> & l' & HW' & Eq' & Har' & Hx' & Hen' & Hev' & Hval'). split; [done|]. exists l'. split; [done|].
  split; [by rewrite Eq', Eq1|]. split; [auto|]. split; [done|]. split; [intros y Hy; by rewrite Hen', Hen1|].
  split; [congruence|]. intros y. by rewrite Hval', Hval1.
Qed.

(** ** wd_gettime *)

Lemma gettime_loop_ok m fuel x l acc :
  sseg m l NULL -> NULL ∉ l -> (length l < fuel)%nat -> Forall (fun y => 0 <= wlag m y) l -> 0 <= acc -> acc + total (wlag m) l <= INT_MAX ->
  gettime_loop fuel m x (hdp NULL l) acc = Ok (time_left x (timers (wlag m) acc l)).
Proof.
  revert l acc. induction fuel as [|fuel IH]; intros l acc Hs H0 Hf Hl Ha Hsum; [lia|]. cbn [gettime_loop].
  destruct l as [|y l]; cbn [head default from_option id]; [by rewrite decide_True|].
  destruct Hs as [(w & Ew & En) Hs]. rewrite decide_False by set_solver. rewrite (deref_Some _ _ w) by (done || set_solver).
  apply Forall_cons in Hl as [Hy Hl]. simpl in Hsum. pose proof (lags_nonneg _ _ Hl). cbn [mbind res_bind].
  rewrite <- (wlag_lookup _ _ _ Ew), s32_id by (unfold INT_MAX in *; lia). simpl timers. unfold time_left. rewrite filter_cons. cbn [fst].
  destruct (decide (y = x)); [done|]. change (wd_next w) with (sflink w). rewrite En. apply IH; [done|set_solver|simpl in Hf; lia|done|lia|lia].
Qed.

Lemma time_left_absent x t : x ∉ t.*1 -> time_left x t = 0.
Proof.
  intros Hx. unfold time_left. induction t as [|p t IH]; [done|]. rewrite filter_cons_False by set_solver. apply IH. set_solver.
Qed.

Lemma wd_gettime_ok {E} (s : wd_sys E) l fr x :
  wd_ok s l fr -> valid (w_mem s) x -> x ∉ fr -> wd_gettime x s = Ok (time_left x (queue s l)).
Proof.
  intros [HA HF Hdis Hfl Hlag Hsum Harg] Hv Hfr. unfold wd_gettime. rewrite decide_False by (by eapply valid_ne).
  destruct (valid_lookup _ _ Hv) as [w Ew]. rewrite (deref_Some _ _ w) by (done || by eapply valid_ne). cbn [mbind res_bind].
  assert (wd_active w = wact (w_mem s) x) as -> by (unfold wact; by rewrite Ew). destruct (wact (w_mem s) x) eqn:Ea.
  - rewrite (sqr_head _ _ _ HA). apply gettime_loop_ok; [apply HA|apply HA| |done|lia|lia].
    pose proof (sq_repr_length _ _ _ HA). unfold list_fuel. lia.
  - f_equal. symmetry. apply time_left_absent. unfold queue. rewrite timers_fst. rewrite <- Hfl by done. congruence.
Qed.

(** ** Filters that keep or drop everything *)

Lemma filter_keep {A} (P : A -> Prop) `{forall x, Decision (P x)} (l : list A) : Forall P l -> filter P l = l.
Proof. induction 1 as [|x l Hx _ IH]; [done|]. by rewrite filter_cons_True, IH. Qed.

Lemma filter_drop {A} (P : A -> Prop) `{forall x, Decision (P x)} (l : list A) : Forall (fun x => ~ P x) l -> filter P l = [].
Proof. induction 1 as [|x l Hx _ IH]; [done|]. by rewrite filter_cons_False. Qed.

(** ** wd_timer *)

Section timer.
  Context {E : Type}.
  Implicit Types (s : wd_sys E).

(** The head of the queue is taken out and marked inactive; being due, it has no
    ticks left to hand on. *)
Lemma expire_step s x l fr :
  wd_ok s (x :: l) fr -> wlag (w_mem s) x = 0 ->
  wp ('(wdog, (q, m)) ← sq_remfirst (g_wdactivelist s) (w_mem s);
      w ← deref m wdog;
      m ← (if decide (sq_head q = NULL) then Ok m
           else
             n ← deref m (sq_head q);
             store (set_lag (s32 (wd_lag n + wd_lag w))) (sq_head q) m);
      m ← store (set_active false) wdog m;
      w ← deref m wdog;
      Ok (w, with_active q m s)) (fun '(w, s') =>
    wd_ok s' l fr /\ queue s' l = timers (wlag (w_mem s)) 0 l /\ w_mem s' !! x = Some w /\ w_env s' = w_env s
    /\ (forall y, wentry (w_mem s') y = wentry (w_mem s) y) /\ (forall y, y ∈ l -> wlag (w_mem s') y = wlag (w_mem s) y)
    /\ size (w_mem s') = size (w_mem s) /\ (forall y, valid (w_mem s) y -> valid (w_mem s') y)).
Proof.
  intros [HA HF Hdis Hfl Hlag Hsum Harg] Hx0. set (m := w_mem s) in *. pose proof HA as [_ _ _ [Hxl Hnd]%NoDup_cons H0].
  apply Forall_cons in Hlag as [Hlx Hlag]. simpl in Hsum. pose proof (lags_nonneg _ _ Hlag) as T0.
  apply wp_bind. eapply wp_mono; [apply (sq_remfirst_spec m _ _ HA)|]. intros [x' [q m1]] (-> & HA1 & Hf1). cbn [head default from_option id tail] in *.
  assert (valid m1 x) as Hv1 by (eapply frame_valid; [exact Hf1|]; eapply sq_repr_valid; [exact HA|left]).
  apply wp_bind, wp_deref_valid; [done|]. intros w Ew. cbv beta.
  assert (forall y, wlag m1 y = wlag m y) as E1 by (intros y; by apply (wframe_lag _ _ _ y Hf1)).
  rewrite <- (wlag_lookup _ _ _ Ew), E1, Hx0. apply wp_bind.
  eapply (wp_mono _ (fun m2 => sq_repr m2 q l /\ (forall y, wlag m2 y = wlag m y) /\ frame wbody (x :: l) m m2)).
  { rewrite (sqr_head _ _ _ HA1). destruct l as [|n l]; cbn [head default from_option id].
    - rewrite decide_True by done. apply wp_ret. split; [done|]. split; [done|]. by apply wframe_weaken.
    - assert (valid m1 n) as Hvn by (eapply sq_repr_valid; [exact HA1|left]). rewrite decide_False by (by eapply valid_ne).
      apply wp_bind, wp_deref_valid; [done|]. intros wn Ewn. cbv beta. rewrite <- (wlag_lookup _ _ _ Ewn), E1.
      apply Forall_cons in Hlag as [Hn Hlag]. simpl in *. pose proof (lags_nonneg _ _ Hlag). rewrite s32_id by (unfold INT_MAX in *; lia).
      apply wp_store; [done|]. split; [by apply sq_repr_alter_data|]. split; [|apply frame_lag; [set_solver|by apply wframe_weaken]].
      intros y. rewrite wlag_set by done. case_decide; subst; rewrite ?E1; lia. }
  intros m2 (HA2 & E2 & Hf2). assert (valid m2 x) as Hv2 by (by apply (wframe_data _ _ _ x Hf2), (sq_repr_valid _ _ _ _ HA); left).
  apply wp_bind, wp_store; [done|]. set (m3 := alter _ x m2). apply wp_bind, wp_deref_valid; [by apply valid_alter|]. intros w3 Ew3. apply wp_ret.
  assert (forall y, wlag m3 y = wlag m y) as E3.
  { intros y. rewrite <- E2. unfold wlag, m3. destruct (decide (x = y)) as [<-|]; [|by rewrite lookup_alter_ne]. rewrite lookup_alter_eq. by destruct (m2 !! x). }
  assert (forall y, wentry m3 y = wentry m y) as N3.
  { intros y. destruct (wframe_data _ _ _ y Hf2) as (_ & <- & _). unfold wentry, m3. destruct (decide (x = y)) as [<-|]; [|by rewrite lookup_alter_ne].
    rewrite lookup_alter_eq. by destruct (m2 !! x). }
  split; [|split; [apply timers_ext; intros; apply E3|split; [done|split; [done|split; [done|split; [intros; apply E3|split]]]]]].
  - split; simpl.
    + by apply sq_repr_alter_data.
    + apply sq_repr_alter_ne; [by apply Hdis; left|]. eapply sq_repr_frame; [exact Hf2| |exact HF]. intros y Hy. by apply Hdis.
    + intros y Hy. apply Hdis. by right.
    + intros y Hy. destruct (decide (x = y)) as [<-|Hne].
      * split; [|done]. unfold wact, m3. rewrite lookup_alter_eq. by destruct (m2 !! x).
      * transitivity (wact m2 y = true); [unfold wact, m3; by rewrite lookup_alter_ne|]. destruct (wframe_data _ _ _ y Hf2) as (-> & _ & _).
        rewrite Hfl by done. set_solver.
    + eapply Forall_impl; [exact Hlag|]. intros y. by rewrite E3.
    + rewrite (total_ext (wlag m)) by (intros; apply E3). lia.
    + intros y Hy. rewrite wargc_entry, N3, <- wargc_entry. apply Harg. by right.
  - simpl. unfold m3. rewrite <- !(size_dom (D := gset Z)), dom_alter_L. f_equal. apply set_eq. intros y. rewrite !elem_of_dom.
    destruct Hf2 as [_ Hf2]. specialize (Hf2 y). destruct (m !! y), (m2 !! y); done || by split; intros [].
  - intros y Hv. apply valid_alter. by apply (wframe_data _ _ _ y Hf2).
Qed.

(** The number of watchdogs that are due. *)
Definition due s (l : list Z) : nat := length (filter (fun p => p.2 <= 0) (queue s l)).

Lemma expire_loop_unfold wdentry fuel s :
  expire_loop wdentry (S fuel) s =
  if decide (sq_head (g_wdactivelist s) = NULL) then Ok s
  else
    h ← deref (w_mem s) (sq_head (g_wdactivelist s));
    if 0 <? wd_lag h then Ok s
    else
      '(w, s) ← ('(wdog, (q, m)) ← sq_remfirst (g_wdactivelist s) (w_mem s);
                 w ← deref m wdog;
                 m ← (if decide (sq_head q = NULL) then Ok m
                      else
                        n ← deref m (sq_head q);
                        store (set_lag (s32 (wd_lag n + wd_lag w))) (sq_head q) m);
                 m ← store (set_active false) wdog m;
                 w ← deref m wdog;
                 Ok (w, with_active q m s));
      s ← wd_expire wdentry w s;
      expire_loop wdentry fuel s.
Proof.
  cbn [expire_loop]. case_decide; [done|]. destruct (deref _ _) as [h|]; [|done]. simpl. case_match; [done|].
  destruct (sq_remfirst _ _) as [[x [q m]]|]; [|done]. simpl. destruct (deref m x) as [w|]; [|done]. simpl.
  destruct (if decide (sq_head q = 0) then _ else _) as [m1|]; [|done]. simpl. destruct (store _ x m1) as [m2|]; [|done]. simpl.
  by destruct (deref m2 x).
Qed.

Lemma wd_ok_fuel s l fr : wd_ok s l fr -> (due s l < list_fuel (w_mem s))%nat.
Proof.
  intros HW. pose proof (sq_repr_length _ _ _ (wo_active _ _ _ HW)). unfold due, list_fuel.
  pose proof (length_filter (fun p : Z * Z => p.2 <= 0) (queue s l)) as Hl. unfold queue in Hl at 2.
  assert (length (timers (wlag (w_mem s)) 0 l) = length l) as E2; [|unfold queue in *; lia].
  rewrite <- (length_fmap fst). by rewrite timers_fst.
Qed.

Lemma head_case s x l fr : wd_ok s (x :: l) fr ->
  sq_head (g_wdactivelist s) = x /\ x <> NULL /\ (exists w, w_mem s !! x = Some w /\ wd_lag w = wlag (w_mem s) x) /\ 0 <= wlag (w_mem s) x.
Proof.
  intros HW. pose proof (wo_active _ _ _ HW) as HA. split; [apply (sqr_head _ _ _ HA)|].
  destruct (sq_repr_valid _ _ _ x HA ltac:(left)) as [Hn [w Ew]]. split; [done|]. split; [exists w; split; [done|]; by rewrite (wlag_lookup _ _ _ Ew)|].
  pose proof (wo_lag _ _ _ HW) as Hl. by apply Forall_cons in Hl as [? _].
Qed.

Lemma expire_argc s s' x l fr w :
  wd_ok s (x :: l) fr -> (forall y, wentry (w_mem s') y = wentry (w_mem s) y) -> w_mem s' !! x = Some w ->
  (0 <=? wd_argc w) && (wd_argc w <=? MAX_WDOGPARMS) = true /\ (wd_func w, wd_argc w, wd_parm w) = wentry (w_mem s) x.
Proof.
  intros HW HN Ew. assert ((wd_func w, wd_argc w, wd_parm w) = wentry (w_mem s) x) as E1 by (rewrite <- HN; unfold wentry; by rewrite Ew).
  split; [|done]. assert (wd_argc w = wargc (w_mem s) x) as -> by (rewrite wargc_entry, <- E1; done).
  destruct (wo_argc _ _ _ HW x ltac:(left)). apply andb_true_iff. split; by apply Z.leb_le.
Qed.

(** The watchdogs that are due, in the order of the queue. *)
Definition due_list s (l : list Z) : list Z := fst <$> filter (fun p => p.2 <= 0) (queue s l).

Lemma due_length s l : due s l = length (due_list s l).
Proof. unfold due, due_list. by rewrite length_fmap. Qed.

(** The watchdogs [ws] are those that the functions called may use: none is free. *)
Definition owns s (ws fr : list Z) : Prop := forall x, x ∈ ws -> valid (w_mem s) x /\ x ∉ fr.

(** Functions that start, restart and cancel the watchdogs [ws] and do [eff] to
    the rest of the system: no more watchdogs are due than before. *)
Definition entry_safe (ws : list Z) (eff : ptr -> Z -> list Z -> E -> E) (wdentry : ptr -> Z -> list Z -> wd_sys E -> res (wd_sys E)) : Prop :=
  forall f n p s l fr, wd_ok s l fr -> owns s ws fr ->
  wp (wdentry f n p s) (fun s' => exists l', wd_ok s' l' fr /\ owns s' ws fr /\ due_list s' l' `sublist_of` due_list s l
    /\ (forall y, y ∈ due_list s' l' -> wentry (w_mem s') y = wentry (w_mem s) y) /\ w_env s' = eff f n p (w_env s)).

Definition call_entry (eff : ptr -> Z -> list Z -> E -> E) (c : ptr * Z * list Z) (e : E) : E :=
  eff c.1.1 c.1.2 (take (Z.to_nat c.1.2) c.2) e.

Lemma foldl_call_ext eff (g h : Z -> ptr * Z * list Z) ys e :
  (forall y, y ∈ ys -> g y = h y) -> foldl (fun e y => call_entry eff (g y) e) e ys = foldl (fun e y => call_entry eff (h y) e) e ys.
Proof. revert e. induction ys as [|y ys IH]; intros e H; simpl; [done|]. rewrite (H y) by left. apply IH. intros z Hz. apply H. by right. Qed.

Lemma none_due s l fr : wd_ok s l fr -> armed s l -> due_list s l = [].
Proof.
  intros HW Har. unfold due_list, queue. destruct l as [|x l]; [done|]. specialize (Har ltac:(done)). cbn [head default from_option id] in Har.
  pose proof (wo_lag _ _ _ HW) as Hl. apply Forall_cons in Hl as [_ Hl]. rewrite filter_drop; [done|]. simpl. constructor; [simpl; lia|].
  eapply Forall_impl; [by apply timers_bound|]. intros p. simpl. lia.
Qed.

(** What is left of the expiry: those of the due watchdogs that no function
    called before has cancelled or restarted are called, the first one at least. *)
Lemma expire_loop_safe ws eff wdentry fuel s l fr :
  entry_safe ws eff wdentry -> wd_ok s l fr -> owns s ws fr -> (due s l < fuel)%nat ->
  wp (expire_loop wdentry fuel s) (fun s' => exists l' ys, wd_ok s' l' fr /\ armed s' l' /\ owns s' ws fr
    /\ ys `sublist_of` due_list s l /\ head ys = head (due_list s l)
    /\ w_env s' = foldl (fun e y => call_entry eff (wentry (w_mem s) y) e) (w_env s) ys).
Proof.
  intros Hcb. revert s l. induction fuel as [|fuel IH]; intros s l HW Hown Hf; [lia|]. rewrite expire_loop_unfold.
  destruct l as [|x l].
  { rewrite (sqr_head _ _ _ (wo_active _ _ _ HW)). simpl. exists [], []. split; [done|]. split; [by intros []|]. split; [done|]. split; [apply sublist_nil_l|done]. }
  destruct (head_case _ _ _ _ HW) as (-> & Hn & (w & Ew & El) & Hx). rewrite decide_False by done.
  apply wp_bind. eapply wp_deref; [done|exact Ew|]. cbv beta. rewrite El. destruct (Z.ltb_spec 0 (wlag (w_mem s) x)) as [Hpos|Hle].
  { apply wp_ret. exists (x :: l), []. split; [done|]. split; [intros _; simpl; lia|]. split; [done|]. split; [apply sublist_nil_l|]. split; [|done].
    by rewrite (none_due s (x :: l) fr HW) by (intros _; simpl; lia). }
  assert (wlag (w_mem s) x = 0) as Hx0 by lia. apply wp_bind. eapply wp_mono; [apply (expire_step s x l fr HW Hx0)|].
  intros [w1 s1] (HW1 & Eq1 & Ew1 & Ee1 & HN1 & _ & _ & Hv1). cbv beta iota. destruct (expire_argc s s1 x l fr w1 HW HN1 Ew1) as [Harg Hent].
  assert (due_list s (x :: l) = x :: due_list s1 l) as Ed.
  { unfold due_list. unfold queue at 1. cbn [timers]. rewrite Hx0, Z.add_0_l, filter_cons_True by (simpl; lia). by rewrite <- Eq1. }
  rewrite due_length, Ed in Hf. simpl in Hf.
  unfold wd_expire. rewrite Harg. apply wp_bind. eapply wp_mono; [apply (Hcb _ _ _ s1 l fr HW1)|].
  { intros y Hy. destruct (Hown y Hy) as [H1 H2]. split; [by apply Hv1|done]. }
  intros s2 (l2 & HW2 & Hown2 & Hsub & HN2 & He2). eapply wp_mono; [apply (IH s2 l2 HW2 Hown2)|].
  { rewrite due_length. apply sublist_length in Hsub. lia. }
  intros s' (l' & ys & HW' & Har' & Hown' & Hys & _ & He'). exists l', (x :: ys). split; [done|]. split; [done|]. split; [done|]. rewrite Ed.
  split; [apply sublist_skip; by etrans|]. split; [done|]. rewrite He', He2, Ee1. simpl. unfold call_entry at 3. rewrite <- Hent. cbn [fst snd].
  apply foldl_call_ext. intros y Hy. rewrite HN2, HN1; [done|]. by eapply elem_of_sublist.
Qed.

(** Functions that act on the rest of the system only, keep its invariant [inv]
    and do there what [step] says. *)
Definition entry_acts (inv : E -> Prop) (step : ptr * Z * list Z -> E -> E -> Prop)
    (wdentry : ptr -> Z -> list Z -> wd_sys E -> res (wd_sys E)) : Prop :=
  forall f n p s, inv (w_env s) ->
  wp (wdentry f n p s) (fun s' => exists e', s' = with_env e' s /\ step (f, n, p) (w_env s) e' /\ inv e').

(** What an expiring watchdog calls. *)
Definition called (c : ptr * Z * list Z) : ptr * Z * list Z := (c.1, take (Z.to_nat c.1.2) c.2).

(** The effect of a list of calls. *)
Inductive calls (step : ptr * Z * list Z -> E -> E -> Prop) : list (ptr * Z * list Z) -> E -> E -> Prop :=
| calls_nil e : calls step [] e e
| calls_cons c cs e e1 e2 : step c e e1 -> calls step cs e1 e2 -> calls step (c :: cs) e e2.

Lemma expire_loop_acts inv step wdentry fuel s l fr :
  entry_acts inv step wdentry -> inv (w_env s) -> wd_ok s l fr -> (due s l < fuel)%nat ->
  wp (expire_loop wdentry fuel s) (fun s' => exists l1 l2, l = l1 ++ l2 /\ Forall (fun y => wlag (w_mem s) y = 0) l1
    /\ wd_ok s' l2 fr /\ armed s' l2 /\ (forall y, y ∈ l2 -> wlag (w_mem s') y = wlag (w_mem s) y)
    /\ (forall y, wentry (w_mem s') y = wentry (w_mem s) y)
    /\ calls step ((fun y => called (wentry (w_mem s) y)) <$> l1) (w_env s) (w_env s') /\ inv (w_env s')).
Proof.
  intros Hcb. revert s l fr. induction fuel as [|fuel IH]; intros s l fr Hinv HW Hf; [lia|]. rewrite expire_loop_unfold.
  destruct l as [|x l].
  { rewrite (sqr_head _ _ _ (wo_active _ _ _ HW)). simpl. exists [], []. split; [done|]. split; [constructor|]. split; [done|]. split; [by intros []|].
    split; [done|]. split; [done|]. split; [constructor|done]. }
  destruct (head_case _ _ _ _ HW) as (-> & Hn & (w & Ew & El) & Hx). rewrite decide_False by done.
  apply wp_bind. eapply wp_deref; [done|exact Ew|]. cbv beta. rewrite El. destruct (Z.ltb_spec 0 (wlag (w_mem s) x)) as [Hpos|Hle].
  { apply wp_ret. exists [], (x :: l). split; [done|]. split; [constructor|]. split; [done|]. split; [intros _; simpl; lia|].
    split; [done|]. split; [done|]. split; [constructor|done]. }
  assert (wlag (w_mem s) x = 0) as Hx0 by lia. apply wp_bind. eapply wp_mono; [apply (expire_step s x l fr HW Hx0)|].
  intros [w1 s1] (HW1 & Eq1 & Ew1 & Ev1 & HN1 & HL1 & _). cbv beta iota. destruct (expire_argc s s1 x l fr w1 HW HN1 Ew1) as [Harg Ent].
  unfold wd_expire. rewrite Harg. apply wp_bind. eapply wp_mono; [apply (Hcb _ _ _ s1); by rewrite Ev1|]. intros s2 (e2 & -> & Hstep & Hinv2).
  eapply wp_mono; [apply (IH (with_env e2 s1) l fr Hinv2)|].
  - destruct HW1. by split.
  - change (due (with_env e2 s1) l) with (due s1 l). revert Hf. unfold due at 1, queue. simpl timers. rewrite Hx0, Z.add_0_l.
    rewrite filter_cons_True by (simpl; lia). rewrite <- Eq1. simpl. fold (due s1 l). lia.
  - intros s' (l1 & l2 & -> & Hz & HW' & Har & HL & HN & Hev & Hinv'). exists (x :: l1), l2. split; [done|].
    split; [constructor; [done|]; rewrite Forall_forall in Hz |- *; intros y Hy; rewrite <- (HL1 y) by set_solver; by apply Hz|].
    split; [done|]. split; [done|]. split; [intros y Hy; rewrite HL by done; apply HL1; set_solver|].
    split; [intros y; rewrite HN; apply HN1|]. split; [|done]. rewrite fmap_cons. apply (calls_cons _ _ _ _ e2).
    + rewrite <- Ev1, <- Ent. exact Hstep.
    + erewrite list_fmap_ext; [exact Hev|]. intros i y _. simpl. by rewrite HN1.
Qed.

(** Functions that never fail, given as functions on the rest of the system. *)
Definition entry_quiet (wdentry : ptr -> Z -> list Z -> wd_sys E -> res (wd_sys E)) (eff : ptr -> Z -> list Z -> E -> E) : Prop :=
  forall f n p s, wdentry f n p s = Ok (with_env (eff f n p (w_env s)) s).

Lemma quiet_acts wdentry eff :
  entry_quiet wdentry eff -> entry_acts (fun _ => True) (fun c e e' => e' = eff c.1.1 c.1.2 c.2 e) wdentry.
Proof. intros Hcb f n p s _. rewrite Hcb. eexists. done. Qed.

Lemma calls_quiet eff (ent : Z -> ptr * Z * list Z) l e e' :
  calls (fun c e e' => e' = eff c.1.1 c.1.2 c.2 e) ((fun y => called (ent y)) <$> l) e e' ->
  e' = foldl (fun e y => call_entry eff (ent y) e) e l.
Proof. revert e. induction l as [|y l IH]; intros e Hc; inversion Hc; subst; [done|]. by apply IH. Qed.

End timer.
