(* ===== verification/WdogThm.v ===== *)
(** * Watchdog timers: theorems

    The timer interrupt counts every active watchdog down and calls those whose
    time has come; starting, cancelling, creating and deleting one leaves the
    expiry of the others as it was. *)

From S2P Require Import Prelude Queue Sched Wdog WdogSpec.

(** ** One tick and many *)

Section tick.
  Context {E : Type}.
  Implicit Types (s : wd_sys E).

Definition dec (p : Z * Z) : Z * Z := (p.1, p.2 - 1).

Lemma timers_dec lag acc l : timers lag (acc - 1) l = dec <$> timers lag acc l.
Proof.
  revert acc. induction l as [|x l IH]; intros acc; simpl; [done|]. unfold dec at 1. simpl. rewrite <- IH.
  replace (acc - 1 + lag x) with (acc + lag x - 1) by lia. done.
Qed.

Lemma tick_dec t : tick t = filter (fun p => 0 < p.2) (dec <$> t).
Proof.
  unfold tick. induction t as [|[x d] t IH]; [done|]. rewrite fmap_cons, !filter_cons. cbn [snd dec].
  destruct (decide (1 < d)); [rewrite decide_True by lia|rewrite decide_False by lia]; [|done]. by rewrite fmap_cons, IH.
Qed.

Lemma expired_dec t : expired t = fst <$> filter (fun p => p.2 <= 0) (dec <$> t).
Proof.
  unfold expired. induction t as [|[x d] t IH]; [done|]. rewrite fmap_cons, !filter_cons. cbn [snd dec].
  destruct (decide (d <= 1)); [rewrite decide_True by lia|rewrite decide_False by lia]; [|done]. by rewrite !fmap_cons, IH.
Qed.

Lemma timers_zero lag l : Forall (fun y => lag y = 0) l -> timers lag 0 l = (fun y => (y, 0)) <$> l /\ total lag l = 0.
Proof. induction 1 as [|x l Hx _ [IH1 IH2]]; simpl; [done|]. rewrite Hx, Z.add_0_l, IH1, IH2. done. Qed.

(** The due watchdogs are a prefix of the queue. *)
Lemma split_due lag l1 l2 :
  Forall (fun y => lag y = 0) l1 -> Forall (fun y => 0 <= lag y) l2 -> (l2 <> [] -> 1 <= lag (hdp NULL l2)) ->
  filter (fun p => 0 < p.2) (timers lag 0 (l1 ++ l2)) = timers lag 0 l2
  /\ fst <$> filter (fun p => p.2 <= 0) (timers lag 0 (l1 ++ l2)) = l1.
Proof.
  intros H1 H2 Hh. destruct (timers_zero lag l1 H1) as [E1 E2]. rewrite timers_app, E1, E2, Z.add_0_l.
  assert (Forall (fun p => 1 <= p.2) (timers lag 0 l2)) as H3.
  { destruct l2 as [|x l2]; [constructor|]. specialize (Hh ltac:(done)). apply Forall_cons in H2 as [_ H2]. simpl in *. constructor; [done|].
    eapply Forall_impl; [by apply timers_bound|]. intros p. simpl. lia. }
  rewrite !filter_app. split.
  - rewrite (filter_drop _ ((fun y => (y, 0)) <$> l1)).
    + simpl. apply filter_keep. eapply Forall_impl; [exact H3|]. intros p. simpl. lia.
    + apply Forall_fmap, Forall_forall. intros y _. simpl. lia.
  - rewrite (filter_keep _ ((fun y => (y, 0)) <$> l1)) by (apply Forall_fmap, Forall_forall; intros y _; simpl; lia).
    rewrite (filter_drop _ (timers lag 0 l2)) by (eapply Forall_impl; [exact H3|]; intros p; simpl; lia).
    rewrite app_nil_r, <- list_fmap_compose. by apply list_fmap_id.
Qed.
End tick.

Section timer.
  Context {E : Type}.
  Implicit Types (s : wd_sys E).

(** The decrement at the start of [wd_timer]. *)
Lemma wd_dec_ok s x l fr :
  wd_ok s (x :: l) fr -> armed s (x :: l) ->
  let s1 := with_mem (alter (set_lag (wlag (w_mem s) x - 1)) x (w_mem s)) s in
  wd_ok s1 (x :: l) fr /\ queue s1 (x :: l) = dec <$> queue s (x :: l) /\ (forall y, wentry (w_mem s1) y = wentry (w_mem s) y)
  /\ (forall y, valid (w_mem s) y -> valid (w_mem s1) y).
Proof.
  intros [HA HF Hdis Hfl Hlag Hsum Harg] Har s1. specialize (Har ltac:(done)). cbn [head default from_option id] in Har.
  assert (valid (w_mem s) x) as Hv by (eapply sq_repr_valid; [exact HA|left]). pose proof HA as [_ _ _ Hnd H0].
  assert (forall y, wlag (w_mem s1) y = if decide (y = x) then wlag (w_mem s) x - 1 else wlag (w_mem s) y) as EL by (intros y; by apply wlag_set).
  assert (frame wbody [x] (w_mem s) (w_mem s1)) as Hf by (apply frame_lag; [left|apply frame_refl]).
  assert (forall y, y ∈ x :: l -> wlag (w_mem s1) y = if decide (y = hdp NULL (x :: l)) then wlag (w_mem s) y - 1 else wlag (w_mem s) y) as EL'.
  { intros y _. rewrite EL. simpl. case_decide; by subst. }
  split; [|split; [|split]].
  - split.
    + by apply sq_repr_alter_data.
    + apply sq_repr_alter_ne; [apply Hdis; left|done].
    + done.
    + intros y Hy. destruct (wframe_data _ _ _ y Hf) as (-> & _ & _). by apply Hfl.
    + rewrite Forall_forall in Hlag |- *. intros y Hy. specialize (Hlag y Hy). change (0 <= wlag (w_mem s1) y). rewrite EL. case_decide; lia.
    + pose proof (total_shift (wlag (w_mem s)) (wlag (w_mem s1)) 1 (x :: l) Hnd ltac:(done) EL') as Et. simpl in Et, Hsum |- *. lia.
    + intros y Hy. rewrite wargc_entry. destruct (wframe_data _ _ _ y Hf) as (_ & -> & _). rewrite <- wargc_entry. by apply Harg.
  - unfold queue. rewrite <- timers_dec. by apply (timers_shift (wlag (w_mem s)) (wlag (w_mem s1)) (0 - 1) 1).
  - intros y. by destruct (wframe_data _ _ _ y Hf) as (_ & -> & _).
  - intros y Hy. by apply (wframe_data _ _ _ y Hf).
Qed.

Lemma wd_timer_start wdentry s x l fr :
  wd_ok s (x :: l) fr -> armed s (x :: l) ->
  let s1 := with_mem (alter (set_lag (wlag (w_mem s) x - 1)) x (w_mem s)) s in
  wd_timer wdentry s = if wlag (w_mem s) x - 1 <=? 0 then expire_loop wdentry (list_fuel (w_mem s1)) s1 else Ok s1.
Proof.
  intros HW Har s1. destruct (head_case _ _ _ _ HW) as (Eh & Hn & (w & Ew & El) & Hx). unfold wd_timer. rewrite Eh, decide_False by done.
  rewrite (deref_Some _ _ w) by done. cbn [mbind res_bind]. rewrite El. pose proof (wo_sum _ _ _ HW) as Hs. simpl in Hs.
  pose proof (wo_lag _ _ _ HW) as Hl. apply Forall_cons in Hl as [_ Hl]. pose proof (lags_nonneg _ _ Hl).
  rewrite s32_id by (unfold INT_MAX in *; lia). rewrite store_valid by (split; eauto). cbn [mbind res_bind].
  rewrite (deref_Some _ _ (set_lag (wlag (w_mem s) x - 1) w)) by (done || by rewrite lookup_alter_eq, Ew). done.
Qed.

(** Expiry of functions that act on the rest of the system only. *)
Lemma wd_timer_acts inv step wdentry s l fr :
  entry_acts inv step wdentry -> inv (w_env s) -> wd_ok s l fr -> armed s l ->
  wp (wd_timer wdentry s) (fun s' => exists l', wd_ok s' l' fr /\ armed s' l' /\ queue s' l' = tick (queue s l)
    /\ (forall y, wentry (w_mem s') y = wentry (w_mem s) y)
    /\ calls step ((fun y => called (wentry (w_mem s) y)) <$> expired (queue s l)) (w_env s) (w_env s') /\ inv (w_env s')).
Proof.
  intros Hcb Hinv HW Har. destruct l as [|x l].
  { unfold wd_timer. rewrite (sqr_head _ _ _ (wo_active _ _ _ HW)). simpl. exists []. repeat (split; [done|]). split; [constructor|done]. }
  rewrite (wd_timer_start wdentry s x l fr HW Har). destruct (wd_dec_ok s x l fr HW Har) as (HW1 & Eq1 & HN1 & _).
  set (s1 := with_mem _ s) in *. specialize (Har ltac:(done)). cbn [head default from_option id] in Har.
  rewrite tick_dec, expired_dec, <- Eq1. destruct (Z.leb_spec (wlag (w_mem s) x - 1) 0) as [Hle|Hgt].
  - eapply wp_mono; [apply (expire_loop_acts inv step wdentry _ s1 (x :: l) fr Hcb Hinv HW1); by apply (wd_ok_fuel _ _ fr)|].
    intros s' (l1 & l2 & El & Hz & HW' & Har' & HL' & HN' & Hev & Hinv'). exists l2. rewrite El. unfold queue.
    pose proof (wo_lag _ _ _ HW') as Hl2. destruct (split_due (wlag (w_mem s1)) l1 l2 Hz) as [-> ->].
    + rewrite Forall_forall in Hl2 |- *. intros y Hy. rewrite <- HL' by done. by apply Hl2.
    + intros Hne. rewrite <- HL' by by apply hdp_elem. by apply Har'.
    + split; [done|]. split; [done|]. split; [by apply timers_ext|]. split; [intros y; rewrite HN'; apply HN1|]. split; [|done].
      erewrite list_fmap_ext; [exact Hev|]. intros i y _. simpl. by rewrite HN1.
  - apply wp_ret. exists (x :: l). unfold queue. pose proof (wo_lag _ _ _ HW1) as Hl1.
    assert (wlag (w_mem s1) x = wlag (w_mem s) x - 1) as Ex by (unfold s1; simpl; rewrite wlag_set, decide_True; [done|done|]; eapply sq_repr_valid; [apply (wo_active _ _ _ HW)|left]).
    destruct (split_due (wlag (w_mem s1)) [] (x :: l) (Forall_nil_2 _) Hl1) as [E2 E3]; [intros _; cbn [head default from_option id]; lia|]. simpl app in E2, E3. rewrite E2, E3.
    split; [done|]. split; [intros _; cbn [head default from_option id]; lia|]. split; [done|]. split; [done|]. split; [constructor|done].
Qed.

Lemma wd_timer_quiet wdentry eff s l fr :
  entry_quiet wdentry eff -> wd_ok s l fr -> armed s l ->
  wp (wd_timer wdentry s) (fun s' => exists l', wd_ok s' l' fr /\ armed s' l' /\ queue s' l' = tick (queue s l)
    /\ (forall y, wentry (w_mem s') y = wentry (w_mem s) y)
    /\ w_env s' = foldl (fun e y => call_entry eff (wentry (w_mem s) y) e) (w_env s) (expired (queue s l))).
Proof.
  intros Hcb HW Har. eapply wp_mono; [by apply (wd_timer_acts _ _ _ _ l fr (quiet_acts _ _ Hcb))|].
  intros s' (l' & H1 & H2 & H3 & H4 & H5 & _). exists l'. repeat (split; [done|]). by apply calls_quiet.
Qed.

(** Expiry of functions that start and cancel watchdogs. *)
Lemma wd_timer_any ws eff wdentry s l fr :
  entry_safe ws eff wdentry -> wd_ok s l fr -> owns s ws fr -> armed s l ->
  wp (wd_timer wdentry s) (fun s' => exists l' ys, wd_ok s' l' fr /\ armed s' l' /\ owns s' ws fr
    /\ ys `sublist_of` expired (queue s l) /\ head ys = head (expired (queue s l))
    /\ w_env s' = foldl (fun e y => call_entry eff (wentry (w_mem s) y) e) (w_env s) ys).
Proof.
  intros Hcb HW Hown Har. destruct l as [|x l].
  { unfold wd_timer. rewrite (sqr_head _ _ _ (wo_active _ _ _ HW)). simpl. exists [], []. split; [done|]. split; [done|]. split; [done|]. split; [apply sublist_nil_l|done]. }
  rewrite (wd_timer_start wdentry s x l fr HW Har). destruct (wd_dec_ok s x l fr HW Har) as (HW1 & Eq1 & HN1 & Hv1).
  set (s1 := with_mem _ s) in *. rewrite expired_dec, <- Eq1. fold (due_list s1 (x :: l)). destruct (Z.leb_spec (wlag (w_mem s) x - 1) 0) as [Hle|Hgt].
  - eapply wp_mono; [apply (expire_loop_safe ws eff wdentry _ s1 (x :: l) fr Hcb HW1); [|by apply (wd_ok_fuel _ _ fr)]|].
    { intros y Hy. destruct (Hown y Hy) as [? ?]. split; [by apply Hv1|done]. }
    intros s' (l' & ys & HW' & Har' & Hown' & Hs & Hh & He). exists l', ys. do 5 (split; [done|]). rewrite He. apply foldl_call_ext. intros y _. apply HN1.
  - assert (armed s1 (x :: l)) as Har1.
    { intros _. simpl. rewrite wlag_set, decide_True; [lia|done|]. eapply sq_repr_valid; [apply (wo_active _ _ _ HW)|left]. }
    apply wp_ret. exists (x :: l), []. rewrite (none_due s1 (x :: l) fr HW1 Har1). split; [done|]. split; [done|].
    split; [|split; [apply sublist_nil_l|done]]. intros y Hy. destruct (Hown y Hy) as [? ?]. split; [by apply Hv1|done].
Qed.

End timer.

(** [n] timer interrupts. *)
Fixpoint wd_ticks {E} (wdentry : ptr -> Z -> list Z -> wd_sys E -> res (wd_sys E)) (n : nat) (s : wd_sys E) : res (wd_sys E) :=
  match n with
  | O => Ok s
  | S n => s ← wd_timer wdentry s; wd_ticks wdentry n s
  end.

Definition countdown (n : Z) (t : list (Z * Z)) : list (Z * Z) := (fun p => (p.1, p.2 - n)) <$> filter (fun p => n < p.2) t.

Lemma countdown_0 t : Forall (fun p => 1 <= p.2) t -> countdown 0 t = t.
Proof.
  unfold countdown. induction 1 as [|[x d] t Hd _ IH]; [done|]. rewrite filter_cons_True by (simpl in *; lia). rewrite fmap_cons, IH. simpl.
  by rewrite Z.sub_0_r.
Qed.

Lemma countdown_tick n t : 0 <= n -> countdown n (tick t) = countdown (n + 1) t.
Proof.
  intros Hn. unfold countdown, tick. induction t as [|[x d] t IH]; [done|]. rewrite !filter_cons. cbn [snd].
  destruct (decide (n + 1 < d)).
  - rewrite decide_True by lia. rewrite fmap_cons, filter_cons_True by (simpl; lia). rewrite !fmap_cons, IH. simpl. f_equal. f_equal. lia.
  - case_decide; [|done]. rewrite fmap_cons, filter_cons_False by (simpl; lia). done.
Qed.

Lemma armed_times {E} (s : wd_sys E) l fr : wd_ok s l fr -> armed s l -> Forall (fun p => 1 <= p.2) (queue s l).
Proof.
  intros HW Har. unfold queue. destruct l as [|x l]; [constructor|]. specialize (Har ltac:(done)). simpl in Har |- *.
  pose proof (wo_lag _ _ _ HW) as Hl. apply Forall_cons in Hl as [_ Hl]. constructor; [done|].
  eapply Forall_impl; [by apply timers_bound|]. intros p. simpl. lia.
Qed.

(** The watchdogs that expire in [n] ticks, in the order in which they do. *)
Fixpoint fired (n : nat) (t : list (Z * Z)) : list Z :=
  match n with
  | O => []
  | S n => expired t ++ fired n (tick t)
  end.

Lemma wd_ticks_ok {E} wdentry eff n (s : wd_sys E) l fr :
  entry_quiet wdentry eff -> wd_ok s l fr -> armed s l ->
  wp (wd_ticks wdentry n s) (fun s' => exists l', wd_ok s' l' fr /\ armed s' l' /\ queue s' l' = countdown (Z.of_nat n) (queue s l)
    /\ w_env s' = foldl (fun e y => call_entry eff (wentry (w_mem s) y) e) (w_env s) (fired n (queue s l))).
Proof.
  intros Hcb. revert s l. induction n as [|n IH]; intros s l HW Har; cbn [wd_ticks].
  - apply wp_ret. exists l. split; [done|]. split; [done|]. split; [|done]. symmetry. by apply countdown_0, (armed_times s l fr).
  - apply wp_bind. eapply wp_mono; [by apply (wd_timer_quiet wdentry eff s l fr)|]. intros s1 (l1 & HW1 & Har1 & Eq1 & HN1 & He1).
    eapply wp_mono; [by apply (IH s1 l1)|]. intros s' (l' & HW' & Har' & Eq' & He'). exists l'. split; [done|]. split; [done|]. split.
    + rewrite Eq', Eq1, countdown_tick by lia. f_equal. lia.
    + cbn [fired]. rewrite foldl_app, <- He1, He', Eq1. apply foldl_call_ext. intros y _. apply HN1.
Qed.

Lemma expired_app t1 t2 : expired (t1 ++ t2) = expired t1 ++ expired t2.
Proof. unfold expired. by rewrite filter_app, fmap_app. Qed.

Lemma tick_fst t x : x ∉ t.*1 -> x ∉ (tick t).*1 /\ x ∉ expired t.
Proof.
  intros Hx. unfold tick, expired. split; intros Hc; apply Hx; apply list_elem_of_fmap in Hc as (p & -> & Hp).
  - apply list_elem_of_fmap in Hp as (q & -> & [_ Hq]%list_elem_of_filter). simpl. apply list_elem_of_fmap. by exists q.
  - apply list_elem_of_filter in Hp as [_ Hp]. apply list_elem_of_fmap. by exists p.
Qed.

Lemma fired_absent n t x : x ∉ t.*1 -> x ∉ fired n t.
Proof.
  revert t. induction n as [|n IH]; intros t Hx; cbn [fired]; [set_solver|]. destruct (tick_fst t x Hx) as [H1 H2].
  rewrite elem_of_app. intros [?|?]; [done|]. by apply (IH (tick t)).
Qed.

(** A watchdog that is in the queue once, with [d] ticks left, is called once, at
    the tick [d]. *)
Definition calls_of (x : Z) (ys : list Z) : nat := length (filter (x =.) ys).

Lemma calls_of_absent x ys : x ∉ ys -> calls_of x ys = 0%nat.
Proof. intros Hx. unfold calls_of. rewrite filter_drop; [done|]. apply Forall_forall. intros y Hy ->. done. Qed.

Lemma calls_of_app x ys zs : calls_of x (ys ++ zs) = (calls_of x ys + calls_of x zs)%nat.
Proof. unfold calls_of. by rewrite filter_app, length_app. Qed.

Lemma calls_of_cons x y ys : calls_of x (y :: ys) = ((if decide (x = y) then 1 else 0) + calls_of x ys)%nat.
Proof. unfold calls_of. rewrite filter_cons. by case_decide. Qed.

Lemma expired_cons x d t : expired ((x, d) :: t) = if decide (d <= 1) then x :: expired t else expired t.
Proof. unfold expired. rewrite filter_cons. cbn [snd]. by case_decide. Qed.

Lemma tick_cons x d t : tick ((x, d) :: t) = if decide (d <= 1) then tick t else (x, d - 1) :: tick t.
Proof. unfold tick. rewrite filter_cons. cbn [snd]. destruct (decide (d <= 1)); [by rewrite decide_False by lia|by rewrite decide_True by lia]. Qed.

Lemma tick_app t1 t2 : tick (t1 ++ t2) = tick t1 ++ tick t2.
Proof. unfold tick. by rewrite filter_app, fmap_app. Qed.

Lemma fired_once n t1 x d t2 :
  x ∉ t1.*1 -> x ∉ t2.*1 -> 1 <= d -> calls_of x (fired n (t1 ++ (x, d) :: t2)) = if d <=? Z.of_nat n then 1%nat else 0%nat.
Proof.
  revert t1 d t2. induction n as [|n IH]; intros t1 d t2 H1 H2 Hd; cbn [fired]; [by rewrite (proj2 (Z.leb_gt _ _)) by lia|].
  destruct (tick_fst t1 x H1) as [T1 X1], (tick_fst t2 x H2) as [T2 X2].
  rewrite calls_of_app, expired_app, tick_app, calls_of_app, expired_cons, tick_cons, (calls_of_absent x (expired t1)) by done.
  destruct (decide (d <= 1)) as [Hle|Hgt].
  - rewrite (calls_of_absent x (fired _ _)) by (apply fired_absent; rewrite fmap_app, elem_of_app; tauto). rewrite calls_of_cons, decide_True, (calls_of_absent x (expired t2)) by done.
    by rewrite (proj2 (Z.leb_le d _)) by lia.
  - rewrite (calls_of_absent x (expired t2)), (IH (tick t1) (d - 1) (tick t2)) by (done || lia).
    destruct (Z.leb_spec (d - 1) (Z.of_nat n)), (Z.leb_spec d (Z.of_nat (S n))); lia.
Qed.

Lemma countdown_elem n t x d : (x, d) ∈ countdown n t <-> (x, d + n) ∈ t /\ 0 < d.
Proof.
  unfold countdown. rewrite list_elem_of_fmap. split.
  - intros ([y e] & [= -> ->] & [Hn Hin]%list_elem_of_filter). simpl in *. replace (e - n + n) with e by lia. split; [done|lia].
  - intros [Hin Hd]. exists (x, d + n). split; [simpl; f_equal; lia|]. apply list_elem_of_filter. simpl. split; [lia|done].
Qed.

Lemma insert_timer_elem x d t p : p ∈ insert_timer x d t <-> p = (x, d) \/ p ∈ t.
Proof.
  induction t as [|[y e] t IH]; simpl; [set_solver|]. case_match; rewrite ?elem_of_cons; [tauto|]. rewrite IH. tauto.
Qed.

Lemma insert_timer_parts x d t : exists t1 t2, t = t1 ++ t2 /\ insert_timer x d t = t1 ++ (x, d) :: t2.
Proof.
  induction t as [|[y e] t IH]; simpl; [by exists [], []|]. case_match; [by exists [], ((y, e) :: t)|].
  destruct IH as (t1 & t2 & -> & ->). by exists ((y, e) :: t1), t2.
Qed.

(** ** wd_create and wd_delete *)

Lemma wd_create_ok {E} (s : wd_sys E) l fr :
  wd_ok s l fr -> wp (wd_create s) (fun '(x, s') =>
    x = hdp NULL fr /\ wd_ok s' l (tail fr) /\ queue s' l = queue s l /\ (armed s l -> armed s' l) /\ (fr <> [] -> wact (w_mem s') x = false)
    /\ (forall y, valid (w_mem s') y <-> valid (w_mem s) y) /\ (forall y, wentry (w_mem s') y = wentry (w_mem s) y) /\ w_env s' = w_env s).
Proof.
  intros [HA HF Hdis Hfl Hlag Hsum Harg]. set (m := w_mem s) in *. unfold wd_create. fold m.
  apply wp_bind. eapply wp_mono; [apply (sq_remfirst_spec m _ _ HF)|]. intros [x [q m1]] (-> & HF1 & Hf1).
  assert (forall y, wlag m1 y = wlag m y) as E1 by (intros y; by apply (wframe_lag _ _ _ y Hf1)).
  assert (forall y, wentry m1 y = wentry m y) as N1 by (intros y; by apply (wframe_data _ _ _ y (wframe_weaken _ _ _ Hf1))).
  assert (forall y, wact m1 y = wact m y) as A1 by (intros y; by apply (wframe_data _ _ _ y (wframe_weaken _ _ _ Hf1))).
  destruct fr as [|x fr]; cbn [head default from_option id tail] in *.
  { apply wp_ret. split; [done|]. assert (m1 = m) as ->. { apply map_eq. intros i. apply Hf1. set_solver. }
    split; [by split|]. done. }
  assert (valid m1 x) as Hv1 by (eapply frame_valid; [exact Hf1|]; eapply sq_repr_valid; [exact HF|left]).
  pose proof (sqr_nodup _ _ _ HF) as [Hxf _]%NoDup_cons. assert (x ∉ l) as Hxl by (intros Hc; apply (Hdis x Hc); left).
  rewrite decide_False by (by eapply valid_ne). apply wp_bind, wp_store; [done|]. apply wp_bind, wp_store; [by apply valid_alter|]. apply wp_ret.
  set (m2 := alter (set_active false) x (alter (set_sflink NULL) x m1)).
  assert (forall y, y <> x -> m2 !! y = m1 !! y) as E2 by (intros y Hy; unfold m2; by rewrite !lookup_alter_ne).
  assert (wact m2 x = false) as Ax. { unfold wact, m2. rewrite lookup_alter_eq. by destruct (alter _ x m1 !! x). }
  assert (forall y, y ∈ l -> wlag m2 y = wlag m y) as L2. { intros y Hy. rewrite <- E1. unfold wlag. rewrite E2; [done|congruence]. }
  split; [done|]. split; [|split; [by apply timers_ext|split; [|split; [done|split; [|split; [|done]]]]]].
  - split; simpl.
    + repeat (apply sq_repr_alter_ne; [done|]). eapply sq_repr_frame; [exact Hf1| |exact HA]. intros y Hy Hy'. by apply (Hdis y Hy').
    + by repeat (apply sq_repr_alter_ne; [done|]).
    + intros y Hy Hy'. apply (Hdis y Hy). by right.
    + intros y Hy. destruct (decide (y = x)) as [->|Hne]; [rewrite Ax; split; [done|intros Hc; done]|].
      unfold wact. rewrite E2 by done. fold (wact m1 y). rewrite A1. apply Hfl. set_solver.
    + rewrite Forall_forall in Hlag |- *. intros y Hy. rewrite L2 by done. by apply Hlag.
    + by rewrite (total_ext (wlag m)).
    + intros y Hy. unfold wargc. rewrite E2 by congruence. fold (wargc m1 y). rewrite wargc_entry, N1, <- wargc_entry. by apply Harg.
  - intros Har Hne. simpl. rewrite L2 by by apply hdp_elem. by apply Har.
  - intros y. simpl. unfold m2. rewrite !valid_alter_iff. by destruct (wframe_data _ _ _ y (wframe_weaken _ _ _ Hf1)) as (_ & _ & ->).
  - intros y. rewrite <- N1. unfold wentry. simpl. destruct (decide (y = x)) as [->|]; [|by rewrite E2].
    unfold m2. rewrite !lookup_alter_eq. by destruct (m1 !! x).
Qed.

Lemma wd_delete_ok {E} (s : wd_sys E) l fr x :
  wd_ok s l fr -> valid (w_mem s) x -> x ∉ fr ->
  wp (wd_delete x s) (fun '(r, s') => r = true /\ exists l', wd_ok s' l' (fr ++ [x]) /\ queue s' l' = remove_timer x (queue s l)
    /\ (armed s l -> armed s' l') /\ (forall y, y <> x -> wentry (w_mem s') y = wentry (w_mem s) y) /\ w_env s' = w_env s
    /\ (forall y, valid (w_mem s') y <-> valid (w_mem s) y)).
Proof.
  intros HW Hv Hfr. unfold wd_delete. rewrite decide_False by (by eapply valid_ne). apply wp_bind, wp_deref_valid; [done|]. intros w Ew. cbv beta.
  assert (wd_active w = wact (w_mem s) x) as -> by (unfold wact; by rewrite Ew).
  apply wp_bind. eapply (wp_mono _ (fun s1 => exists l1, wd_ok s1 l1 fr /\ queue s1 l1 = remove_timer x (queue s l) /\ x ∉ l1
    /\ (armed s l -> armed s1 l1) /\ (forall y, y <> x -> wentry (w_mem s1) y = wentry (w_mem s) y) /\ w_env s1 = w_env s
    /\ (forall y, valid (w_mem s1) y <-> valid (w_mem s) y))).
  { destruct (wact (w_mem s) x) eqn:Ea.
    - apply wp_bind. eapply wp_mono; [apply (wd_cancel_ok s l fr x HW); by apply (wo_flag _ _ _ HW)|].
      intros [r s1] (_ & l1 & H). apply wp_ret. by exists l1.
    - assert (x ∉ l) as Hx by (rewrite <- (wo_flag _ _ _ HW x Hfr); congruence).
      apply wp_ret. exists l. split; [done|]. split; [|done]. symmetry. apply remove_timer_absent. unfold queue. by rewrite timers_fst. }
  intros s1 (l1 & HW1 & Eq1 & Hx1 & Har1 & Hen1 & Hev1 & Hv1). destruct HW1 as [HA HF Hdis Hfl Hlag Hsum Harg]. set (m := w_mem s1) in *.
  apply wp_bind. eapply wp_mono; [apply (sq_addlast_spec m _ _ x HF); [by apply Hv1|done]|]. intros [q m1] [HF1 Hf1]. apply wp_ret. split; [done|]. exists l1.
  assert (forall y, wlag m1 y = wlag m y) as E1 by (intros y; by apply (wframe_lag _ _ _ y Hf1)).
  split; [|split; [rewrite <- Eq1; by apply timers_ext|split; [intros Har Hne; simpl; rewrite E1; by apply Har1|split; [|split; [done|]]]]].
  1: split; simpl.
  - eapply sq_repr_frame; [exact Hf1| |exact HA]. intros y [->|Hy]%elem_of_cons; [done|]. intros Hc. by apply (Hdis y Hc).
  - done.
  - intros y Hy [Hc|Hc]%elem_of_app; [by apply (Hdis y)|]. apply list_elem_of_singleton in Hc as ->. done.
  - intros y Hy. destruct (wframe_data _ _ _ y (wframe_weaken _ _ _ Hf1)) as (-> & _ & _). apply Hfl. set_solver.
  - eapply Forall_impl; [exact Hlag|]. intros y. by rewrite E1.
  - by rewrite (total_ext (wlag m)).
  - intros y Hy. rewrite wargc_entry. destruct (wframe_data _ _ _ y (wframe_weaken _ _ _ Hf1)) as (_ & -> & _). rewrite <- wargc_entry. by apply Harg.
  - intros y Hy. simpl. destruct (wframe_data _ _ _ y (wframe_weaken _ _ _ Hf1)) as (_ & -> & _). by apply Hen1.
  - intros y. simpl. destruct (wframe_data _ _ _ y (wframe_weaken _ _ _ Hf1)) as (_ & _ & ->). apply Hv1.
Qed.

Lemma remove_insert x d t : x ∉ t.*1 -> remove_timer x (insert_timer x d t) = t.
Proof.
  intros Hx. induction t as [|[y e] t IH]; simpl.
  - unfold remove_timer. by rewrite filter_cons_False by (simpl; tauto).
  - case_match.
    + unfold remove_timer. rewrite filter_cons_False by (simpl; tauto). exact (remove_timer_absent x ((y, e) :: t) Hx).
    + unfold remove_timer in *. rewrite filter_cons_True by (simpl; set_solver). rewrite IH; [done|set_solver].
Qed.

Lemma wd_cancel_any {E} (s : wd_sys E) l fr x :
  wd_ok s l fr -> valid (w_mem s) x -> x ∉ fr ->
  wp (wd_cancel x s) (fun '(r, s') => r = bool_decide (x ∈ l) /\ (x ∉ l -> s' = s) /\ exists l',
    wd_ok s' l' fr /\ queue s' l' = remove_timer x (queue s l) /\ (armed s l -> armed s' l')
    /\ (forall y, y <> x -> wentry (w_mem s') y = wentry (w_mem s) y) /\ w_env s' = w_env s
    /\ (forall y, valid (w_mem s') y <-> valid (w_mem s) y)).
Proof.
  intros HW Hv Hfr. destruct (decide (x ∈ l)) as [Hx|Hx].
  - eapply wp_mono; [by apply (wd_cancel_ok s l fr x)|]. intros [r s'] (-> & l' & H1 & H2 & _ & H4). split; [by rewrite bool_decide_true|].
    split; [done|]. exists l'. done.
  - unfold wd_cancel. rewrite decide_False by (by eapply valid_ne). apply wp_bind, wp_deref_valid; [done|]. intros w Ew. cbv beta.
    assert (wd_active w = false) as ->. { transitivity (wact (w_mem s) x); [unfold wact; by rewrite Ew|].
      destruct (wact (w_mem s) x) eqn:Ea; [|done]. exfalso. by apply Hx, (wo_flag _ _ _ HW). }
    apply wp_ret. split; [by rewrite bool_decide_false|]. split; [done|]. exists l. split; [done|]. split; [|done].
    symmetry. apply remove_timer_absent. unfold queue. by rewrite timers_fst.
Qed.

(** ** Functions that start, restart and cancel watchdogs *)

Inductive wd_request : Type :=
| ReqStart (x : ptr) (delay : Z) (entry : ptr) (argc : Z) (ap : list Z)
| ReqCancel (x : ptr).

(** The requests are about the watchdogs [ws]; the delay is an int. *)
Definition request_ok (ws : list Z) (r : wd_request) : Prop :=
  match r with
  | ReqStart x delay _ argc _ => x ∈ ws /\ delay <= INT_MAX /\ 0 <= argc
  | ReqCancel x => x ∈ ws
  end.

Section client.
  Context {E : Type}.
  Implicit Types (s : wd_sys E).

Definition wd_do (r : wd_request) s : res (wd_sys E) :=
  match r with
  | ReqStart x delay entry argc ap => '(_, s) ← wd_start x delay entry argc ap s; Ok s
  | ReqCancel x => '(_, s) ← wd_cancel x s; Ok s
  end.

Fixpoint wd_do_all (rs : list wd_request) s : res (wd_sys E) :=
  match rs with
  | [] => Ok s
  | r :: rs => s ← wd_do r s; wd_do_all rs s
  end.

(** The watchdog function that acts by [prog] on the rest of the system and makes
    the requests that [prog] returns. *)
Definition wd_client (prog : ptr -> Z -> list Z -> E -> list wd_request * E) (f n : Z) (p : list Z) s : res (wd_sys E) :=
  wd_do_all (prog f n p (w_env s)).1 (with_env (prog f n p (w_env s)).2 s).

(** What a request leaves of the due watchdogs. *)
Definition still_due s s' (l l' : list Z) : Prop :=
  due_list s' l' `sublist_of` due_list s l /\ forall y, y ∈ due_list s' l' -> wentry (w_mem s') y = wentry (w_mem s) y.

Lemma still_due_refl s s' l : w_mem s' = w_mem s -> still_due s s' l l.
Proof. intros Em. unfold still_due, due_list, queue. rewrite Em. done. Qed.

Lemma due_remove x t : fst <$> filter (fun p => p.2 <= 0) (remove_timer x t) `sublist_of` fst <$> filter (fun p => p.2 <= 0) t
  /\ x ∉ fst <$> filter (fun p => p.2 <= 0) (remove_timer x t).
Proof.
  unfold remove_timer. split.
  - induction t as [|[y e] t IH]; [done|]. rewrite (filter_cons (fun p => p.2 <= 0) (y, e) t), (filter_cons _ (y, e) t). cbn [fst snd].
    destruct (decide (y <> x)), (decide (e <= 0)); rewrite ?filter_cons, ?fmap_cons; cbn [snd]; rewrite ?decide_True, ?decide_False by done;
      rewrite ?fmap_cons; [by apply sublist_skip|done|by apply sublist_cons|done].
  - intros ([y e] & -> & [_ [Hne _]%list_elem_of_filter]%list_elem_of_filter)%list_elem_of_fmap. done.
Qed.

Lemma due_insert x d t : 0 < d -> filter (fun p => p.2 <= 0) (insert_timer x d t) = filter (fun p => p.2 <= 0) t.
Proof.
  intros Hd. destruct (insert_timer_parts x d t) as (t1 & t2 & -> & ->). rewrite !filter_app, filter_cons_False by (simpl; lia). done.
Qed.

Lemma request_step r ws s l fr :
  request_ok ws r -> wd_ok s l fr -> owns s ws fr ->
  wp (wd_do r s) (fun s' => exists l', wd_ok s' l' fr /\ owns s' ws fr /\ still_due s s' l l' /\ w_env s' = w_env s).
Proof.
  intros Hr HW Hown. destruct r as [x delay entry argc ap|x]; cbn [request_ok wd_do] in *; apply wp_bind.
  - destruct Hr as (Hx & Hd & Ha). destruct (Hown x Hx) as [Hv Hfr].
    destruct (decide (MAX_WDOGPARMS < argc \/ delay < 0)) as [Hb|Hb].
    { unfold wd_start. rewrite decide_True by tauto. do 2 apply wp_ret. exists l. split; [destruct HW; by split|]. split; [done|]. split; [by apply still_due_refl|done]. }
    eapply wp_mono; [apply (wd_start_ok s l fr x delay entry argc ap HW Hv Hfr); lia|].
    intros [ok s'] (_ & l' & HW' & Eq & _ & _ & Hen & He & Hvv). apply wp_ret. exists l'. split; [done|].
    split; [intros y Hy; destruct (Hown y Hy); split; [by apply Hvv|done]|]. split; [|done]. unfold still_due, due_list. rewrite Eq, due_insert by (unfold started_delay, INT_MAX in *; lia).
    destruct (due_remove x (queue s l)) as [H1 H2]. split; [done|]. intros y Hy. apply Hen. by intros ->.
  - destruct (Hown x Hr) as [Hv Hfr]. eapply wp_mono; [by apply (wd_cancel_any s l fr x)|].
    intros [ok s'] (_ & _ & l' & HW' & Eq & _ & Hen & He & Hvv). apply wp_ret. exists l'. split; [done|].
    split; [intros y Hy; destruct (Hown y Hy); split; [by apply Hvv|done]|]. split; [|done]. unfold still_due, due_list. rewrite Eq.
    destruct (due_remove x (queue s l)) as [H1 H2]. split; [done|]. intros y Hy. apply Hen. by intros ->.
Qed.

Lemma still_due_trans s0 s1 s2 l0 l1 l2 : still_due s0 s1 l0 l1 -> still_due s1 s2 l1 l2 -> still_due s0 s2 l0 l2.
Proof.
  intros [A1 A2] [B1 B2]. split; [by etrans|]. intros y Hy. rewrite B2 by done. apply A2. by eapply elem_of_sublist.
Qed.

Lemma requests_ok rs ws s l fr :
  Forall (request_ok ws) rs -> wd_ok s l fr -> owns s ws fr ->
  wp (wd_do_all rs s) (fun s' => exists l', wd_ok s' l' fr /\ owns s' ws fr /\ still_due s s' l l' /\ w_env s' = w_env s).
Proof.
  intros Hrs. revert s l. induction Hrs as [|r rs Hr _ IH]; intros s l HW Hown; cbn [wd_do_all].
  { apply wp_ret. exists l. split; [done|]. split; [done|]. split; [by apply still_due_refl|done]. }
  apply wp_bind. eapply wp_mono; [by apply (request_step r ws s l fr)|]. intros s1 (l1 & HW1 & Hown1 & Hd1 & He1).
  eapply wp_mono; [by apply (IH s1 l1)|]. intros s2 (l2 & HW2 & Hown2 & Hd2 & He2). exists l2. split; [done|]. split; [done|].
  split; [by eapply still_due_trans|congruence].
Qed.

Lemma client_safe prog ws :
  (forall f n p e, Forall (request_ok ws) (prog f n p e).1) -> entry_safe ws (fun f n p e => (prog f n p e).2) (wd_client prog).
Proof.
  intros Hp f n p s l fr HW Hown. unfold wd_client. set (s0 := with_env _ s).
  eapply wp_mono; [apply (requests_ok _ ws s0 l fr (Hp f n p (w_env s))); [destruct HW; by split|done]|].
  intros s' (l' & HW' & Hown' & [H1 H2] & He). exists l'. done.
Qed.

End client.

(** ** Theorems *)

(** wd_start puts a watchdog that is not free into the timer queue with
    delay + 1 ticks left (the largest int when that overflows), behind every
    watchdog that expires at the same time; a watchdog that was running is
    restarted.  The ticks left to every other watchdog stay the same, no
    relative delay wraps, and the function and its arguments are recorded. *)
Theorem wd_start_inserts {E} (s : wd_sys E) l fr x delay entry argc ap :
  wd_ok s l fr -> valid (w_mem s) x -> x ∉ fr -> 0 <= delay <= INT_MAX -> 0 <= argc <= MAX_WDOGPARMS ->
  wp (wd_start x delay entry argc ap s) (fun '(r, s') => r = true /\ exists l',
    wd_ok s' l' fr /\ queue s' l' = insert_timer x (started_delay delay) (remove_timer x (queue s l)) /\ (armed s l -> armed s' l')
    /\ wentry (w_mem s') x = (entry, argc, load_parms argc ap)
    /\ (forall y, y <> x -> wentry (w_mem s') y = wentry (w_mem s) y) /\ w_env s' = w_env s
    /\ (forall y, valid (w_mem s') y <-> valid (w_mem s) y)).
Proof. apply wd_start_ok. Qed.

(** wd_start rejects a null watchdog, too many arguments and a negative
    delay: it sets errno to EINVAL and changes nothing else, so a running
    watchdog goes on running. *)
Theorem wd_start_rejects {E} (s : wd_sys E) x delay entry argc ap :
  x = NULL \/ MAX_WDOGPARMS < argc \/ delay < 0 ->
  wd_start x delay entry argc ap s = Ok (false, with_errno EINVAL s).
Proof. intros H. unfold wd_start. by rewrite decide_True. Qed.

(** wd_cancel takes an active watchdog out of the queue, its successor
    inherits its ticks, so that nobody else's expiry moves; of a watchdog that
    is not active it reports an error and changes nothing.  It never panics. *)
Theorem wd_cancel_removes {E} (s : wd_sys E) l fr x :
  wd_ok s l fr -> valid (w_mem s) x -> x ∉ fr ->
  wp (wd_cancel x s) (fun '(r, s') => r = bool_decide (x ∈ l) /\ exists l',
    wd_ok s' l' fr /\ queue s' l' = remove_timer x (queue s l) /\ (armed s l -> armed s' l') /\ (x ∉ l -> s' = s)).
Proof.
  intros HW Hv Hfr. eapply wp_mono; [by apply (wd_cancel_any s l fr x)|]. intros [r s'] (H1 & H2 & l' & H3 & H4 & H5 & _). split; [done|]. by exists l'.
Qed.

(** wd_gettime returns the ticks left to a watchdog, zero when it is not
    active. *)
Theorem wd_gettime_remaining {E} (s : wd_sys E) l fr x :
  wd_ok s l fr -> valid (w_mem s) x -> x ∉ fr -> wd_gettime x s = Ok (time_left x (queue s l)).
Proof. apply wd_gettime_ok. Qed.

(** A timer interrupt counts every watchdog down by one tick, calls the
    functions of exactly those whose last tick it was, in the order of the
    queue and each with its own arguments, and leaves the others queued with no
    watchdog due.  The functions called act on the system outside the watchdogs. *)
Theorem wd_timer_expires {E} wdentry eff (s : wd_sys E) l fr :
  entry_quiet wdentry eff -> wd_ok s l fr -> armed s l ->
  wp (wd_timer wdentry s) (fun s' => exists l', wd_ok s' l' fr /\ armed s' l' /\ queue s' l' = tick (queue s l)
    /\ (forall y, wentry (w_mem s') y = wentry (w_mem s) y)
    /\ w_env s' = foldl (fun e y => call_entry eff (wentry (w_mem s) y) e) (w_env s) (expired (queue s l))).
Proof. apply wd_timer_quiet. Qed.

(** C12: a timer interrupt ends, without a fault or a panic, also when the
    functions it calls start, restart and cancel watchdogs: the function of each
    watchdog may make any list of such requests, chosen by its arguments and by
    the rest of the system, about watchdogs that are not free.  Afterwards the
    queue is well-formed and no watchdog is due.  The functions called are those
    of expired watchdogs, in the order of the queue and each with its own
    arguments; the first expired one is always called (a function may cancel the
    watchdogs after its own). *)
Theorem wd_timer_terminates {E} (prog : ptr -> Z -> list Z -> E -> list wd_request * E) ws (s : wd_sys E) l fr :
  (forall f n p e, Forall (request_ok ws) (prog f n p e).1) -> wd_ok s l fr -> owns s ws fr -> armed s l ->
  wp (wd_timer (wd_client prog) s) (fun s' => exists l' ys, wd_ok s' l' fr /\ armed s' l' /\ owns s' ws fr
    /\ ys `sublist_of` expired (queue s l) /\ head ys = head (expired (queue s l))
    /\ w_env s' = foldl (fun e y => call_entry (fun f n p e => (prog f n p e).2) (wentry (w_mem s) y) e) (w_env s) ys).
Proof. intros Hp. apply wd_timer_any. by apply client_safe. Qed.

(** C11: a watchdog fires on time.  Started with a delay of [delay] ticks and
    neither restarted nor cancelled, while the functions of the watchdogs leave
    the watchdogs alone ([entry_quiet]), it is still queued after any number [n] of
    timer interrupts up to [delay], with the ticks left to it that remain, and
    its function has not been called; one interrupt later it is gone, and its
    function has been called, with its arguments, exactly once.  The state
    outside the watchdogs is what the functions of the expired watchdogs made of
    it, called in the order in which they expire and each with its own
    arguments. *)
Theorem wd_fires_on_time {E} wdentry eff (s : wd_sys E) l fr x delay entry argc ap n :
  entry_quiet wdentry eff -> wd_ok s l fr -> armed s l -> valid (w_mem s) x -> x ∉ fr -> 0 <= delay < INT_MAX ->
  0 <= argc <= MAX_WDOGPARMS ->
  let ent y := if decide (y = x) then (entry, argc, load_parms argc ap) else wentry (w_mem s) y in
  let ys := fired n (insert_timer x (delay + 1) (remove_timer x (queue s l))) in
  calls_of x ys = (if Z.of_nat n <=? delay then 0%nat else 1%nat) /\
  wp ('(_, s) ← wd_start x delay entry argc ap s; wd_ticks wdentry n s) (fun s' => exists l',
    wd_ok s' l' fr /\ (forall d, (x, d) ∈ queue s' l' <-> Z.of_nat n <= delay /\ d = delay + 1 - Z.of_nat n)
    /\ w_env s' = foldl (fun e y => call_entry eff (ent y) e) (w_env s) ys).
Proof.
  intros Hcb HW Har Hv Hfr Hd Hargc ent ys. assert (x ∉ (remove_timer x (queue s l)).*1) as Hno.
  { intros Hc. apply list_elem_of_fmap in Hc as ([y e] & -> & [? _]%list_elem_of_filter). done. }
  split.
  { destruct (insert_timer_parts x (delay + 1) (remove_timer x (queue s l))) as (t1 & t2 & Et & Ei). unfold ys. rewrite Ei. rewrite Et, fmap_app, elem_of_app in Hno.
    rewrite fired_once by (tauto || lia). destruct (Z.leb_spec (delay + 1) (Z.of_nat n)), (Z.leb_spec (Z.of_nat n) delay); lia. }
  apply wp_bind. eapply wp_mono; [apply (wd_start_ok s l fr x delay entry argc ap HW Hv Hfr ltac:(lia) Hargc)|].
  intros [r s1] (_ & l1 & HW1 & Eq1 & Har1 & Hex & Hen & He1 & _). eapply wp_mono; [apply (wd_ticks_ok wdentry eff n s1 l1 fr Hcb HW1); auto|].
  intros s' (l' & HW' & _ & Eq' & He'). exists l'. unfold started_delay in Eq1. rewrite Z.min_l in Eq1 by lia. split; [done|]. split.
  - intros d. rewrite Eq', countdown_elem, Eq1, insert_timer_elem. split.
    + intros [[[= E1]|Hc] Hpos]; [lia|]. exfalso. apply Hno, list_elem_of_fmap. by exists (x, d + Z.of_nat n).
    + intros [Hn ->]. split; [left; f_equal; lia|lia].
  - rewrite He', He1, Eq1. apply foldl_call_ext. intros y _. unfold ent. case_decide; subst; [done|by apply Hen].
Qed.

(** A watchdog taken from the pool is the first free one and is inactive,
    and giving it back, even while it is running, leaves the timer queue as if
    it had never been started and the free list with the same watchdogs. *)
Theorem wd_pool_roundtrip {E} (s : wd_sys E) l x fr delay entry argc ap :
  wd_ok s l (x :: fr) -> 0 <= delay <= INT_MAX -> 0 <= argc <= MAX_WDOGPARMS ->
  wp ('(y, s) ← wd_create s; '(_, s) ← wd_start y delay entry argc ap s; '(r, s) ← wd_delete y s; Ok (y, r, s))
     (fun '(y, r, s') => y = x /\ r = true /\ exists l', wd_ok s' l' (fr ++ [x]) /\ queue s' l' = queue s l).
Proof.
  intros HW Hd Hargc. pose proof (wo_free _ _ _ HW) as HF. pose proof (sqr_nodup _ _ _ HF) as [Hx _]%NoDup_cons.
  assert (x ∉ l) as Hxl by (intros Hc; apply (wo_disj _ _ _ HW x Hc); left). assert (x <> NULL) as Hx0 by (intros ->; apply (sqr_nonnull _ _ _ HF); left).
  assert (valid (w_mem s) x) as Hv by (eapply sq_repr_valid; [exact HF|left]).
  apply wp_bind. eapply wp_mono; [apply (wd_create_ok s l (x :: fr) HW)|]. intros [y s1] (-> & HW1 & Eq1 & _ & _ & Hv1 & _).
  cbn [head default from_option id tail] in *.
  apply wp_bind. eapply wp_mono; [apply (wd_start_ok s1 l fr x delay entry argc ap HW1); [by apply Hv1|done..]|].
  intros [r1 s2] (_ & l2 & HW2 & Eq2 & _ & _ & _ & _ & Hv2).
  apply wp_bind. eapply wp_mono; [apply (wd_delete_ok s2 l2 fr x HW2); [by apply Hv2, Hv1|done]|].
  intros [r2 s3] (-> & l3 & HW3 & Eq3 & _). apply wp_ret. split; [done|]. split; [done|]. exists l3. split; [done|].
  assert (x ∉ (queue s l).*1) as Hxq by (unfold queue; by rewrite timers_fst).
  rewrite Eq3, Eq2, Eq1, remove_insert, !(remove_timer_absent x (queue s l)); [done|done|]. by rewrite (remove_timer_absent x (queue s l)).
Qed.

(** ** A system with two running watchdogs *)

Definition demo_wmem : gmap Z wdog_s :=
  list_to_map [(64, Wdog 96 1000 1 true 1 [7; 0; 0; 0]); (96, Wdog 0 2000 2 true 0 [0; 0; 0; 0]);
    (128, Wdog 0 0 0 false 0 []); (160, Wdog 0 0 0 false 0 [])].

(** The functions called are logged. *)
Definition demo_wd : wd_sys (list Z) := WdSys _ demo_wmem (SqQueue 64 96) (SqQueue 160 160) 0 [].
Definition demo_eff (f n : Z) (p : list Z) (log : list Z) : list Z := log ++ f :: p.
Definition demo_entry (f n : Z) (p : list Z) (s : wd_sys (list Z)) : res (wd_sys (list Z)) := Ok (with_env (demo_eff f n p (w_env s)) s).

Lemma demo_wd_ok : wd_ok demo_wd [64; 96] [160].
Proof.
  split.
  - split; [done|done| |by apply (bool_decide_unpack _)|by apply (bool_decide_unpack _)].
    repeat (split; [eexists; split; [vm_compute; reflexivity|reflexivity]|]). exact I.
  - split; [done|done| |by apply (bool_decide_unpack _)|by apply (bool_decide_unpack _)].
    repeat (split; [eexists; split; [vm_compute; reflexivity|reflexivity]|]). exact I.
  - intros x Hx. set_unfold in Hx. set_unfold. lia.
  - intros x _. unfold wact. destruct (w_mem demo_wd !! x) as [w|] eqn:Ew.
    + apply elem_of_list_to_map_2 in Ew. set_unfold in Ew. destruct Ew as [[= -> ->]|[[= -> ->]|[[= -> ->]|[[= -> ->]|[]]]]]; simpl; set_solver by lia.
    + simpl. split; [done|]. intros Hx. set_unfold in Hx. destruct Hx as [->|[->|[]]]; done.
  - repeat constructor; vm_compute; discriminate.
  - vm_compute. discriminate.
  - intros x Hx. set_unfold in Hx. destruct Hx as [->|[->|[]]]; by vm_compute.
Qed.

Lemma demo_wd_armed : armed demo_wd [64; 96].
Proof. intros _. vm_compute. discriminate. Qed.

Lemma demo_wd_valid x : x ∈ [64; 96; 128; 160] -> valid (w_mem demo_wd) x.
Proof. intros Hx. set_unfold in Hx. destruct Hx as [->|[->|[->|[->|[]]]]]; (split; [done|]; eexists; vm_compute; reflexivity). Qed.

Lemma demo_quiet : entry_quiet demo_entry demo_eff.
Proof. by intros f n p s. Qed.

(** Function 1000 starts its own watchdog again, as a periodic timer does, and
    cancels 96; its calls are logged. *)
Definition demo_prog (f n : Z) (p : list Z) (log : list Z) : list wd_request * list Z :=
  (if f =? 1000 then [ReqStart 64 5 1000 1 [7]; ReqCancel 96; ReqStart 128 0 3000 0 []] else [], log ++ f :: p).

#[local] Ltac not_free := apply (bool_decide_unpack _); vm_compute; exact I.

Lemma wd_start_inserts_witness :
  wp (wd_start 128 1 3000 2 [5; 6] demo_wd) (fun '(r, s') => r = true /\ exists l',
    wd_ok s' l' [160] /\ queue s' l' = insert_timer 128 (started_delay 1) (remove_timer 128 (queue demo_wd [64; 96]))
    /\ (armed demo_wd [64; 96] -> armed s' l') /\ wentry (w_mem s') 128 = (3000, 2, load_parms 2 [5; 6])
    /\ (forall y, y <> 128 -> wentry (w_mem s') y = wentry (w_mem demo_wd) y) /\ w_env s' = w_env demo_wd
    /\ (forall y, valid (w_mem s') y <-> valid (w_mem demo_wd) y)).
Proof.
  apply (wd_start_inserts demo_wd [64; 96] [160] 128 1 3000 2 [5; 6]);
    [apply demo_wd_ok|apply demo_wd_valid; set_solver|not_free|unfold INT_MAX; lia|unfold MAX_WDOGPARMS; lia].
Defined.

Lemma wd_start_rejects_witness : wd_start 128 (-1) 3000 2 [5; 6] demo_wd = Ok (false, with_errno EINVAL demo_wd).
Proof. apply (wd_start_rejects demo_wd 128 (-1) 3000 2 [5; 6]). right. right. lia. Defined.

Lemma wd_cancel_removes_witness :
  wp (wd_cancel 64 demo_wd) (fun '(r, s') => r = bool_decide (64 ∈ [64; 96]) /\ exists l',
    wd_ok s' l' [160] /\ queue s' l' = remove_timer 64 (queue demo_wd [64; 96]) /\ (armed demo_wd [64; 96] -> armed s' l')
    /\ (64 ∉ [64; 96] -> s' = demo_wd)).
Proof. apply (wd_cancel_removes demo_wd [64; 96] [160] 64); [apply demo_wd_ok|apply demo_wd_valid; set_solver|not_free]. Defined.

Lemma wd_gettime_remaining_witness : wd_gettime 96 demo_wd = Ok 3.
Proof. apply (wd_gettime_remaining demo_wd [64; 96] [160] 96); [apply demo_wd_ok|apply demo_wd_valid; set_solver|not_free]. Defined.

Lemma wd_timer_expires_witness :
  wp (wd_timer demo_entry demo_wd) (fun s' => exists l', wd_ok s' l' [160] /\ armed s' l' /\ queue s' l' = tick (queue demo_wd [64; 96])
    /\ (forall y, wentry (w_mem s') y = wentry (w_mem demo_wd) y)
    /\ w_env s' = foldl (fun e y => call_entry demo_eff (wentry (w_mem demo_wd) y) e) (w_env demo_wd) (expired (queue demo_wd [64; 96])))
  /\ foldl (fun e y => call_entry demo_eff (wentry (w_mem demo_wd) y) e) (w_env demo_wd) (expired (queue demo_wd [64; 96])) = [1000; 7].
Proof.
  split; [|vm_compute; reflexivity].
  apply (wd_timer_expires demo_entry demo_eff demo_wd [64; 96] [160]); [apply demo_quiet|apply demo_wd_ok|apply demo_wd_armed].
Defined.

Lemma wd_timer_terminates_witness :
  wp (wd_timer (wd_client demo_prog) demo_wd) (fun s' => exists l' ys, wd_ok s' l' [160] /\ armed s' l' /\ owns s' [64; 96; 128] [160]
    /\ ys `sublist_of` expired (queue demo_wd [64; 96]) /\ head ys = head (expired (queue demo_wd [64; 96]))
    /\ w_env s' = foldl (fun e y => call_entry (fun f n p e => (demo_prog f n p e).2) (wentry (w_mem demo_wd) y) e) (w_env demo_wd) ys)
  /\ (match wd_timer (wd_client demo_prog) demo_wd with Ok s' => Some (w_env s', sq_head (g_wdactivelist s'), sq_tail (g_wdactivelist s')) | Err _ => None end)
     = Some ([1000; 7], 128, 64).
Proof.
  split; [|vm_compute; reflexivity].
  apply (wd_timer_terminates demo_prog [64; 96; 128] demo_wd [64; 96] [160]); [|apply demo_wd_ok| |apply demo_wd_armed].
  - intros f n p e. unfold demo_prog. simpl. destruct (f =? 1000); repeat constructor; (set_solver by lia) || (unfold INT_MAX; lia).
  - intros x Hx. split; [apply demo_wd_valid; set_solver|]. set_unfold in Hx. destruct Hx as [->|[->|[->|[]]]]; not_free.
Defined.

Lemma wd_fires_on_time_witness :
  let ent y := if decide (y = 128) then (3000, 2, load_parms 2 [5; 6]) else wentry (w_mem demo_wd) y in
  let ys := fired 2 (insert_timer 128 (1 + 1) (remove_timer 128 (queue demo_wd [64; 96]))) in
  (calls_of 128 ys = (if Z.of_nat 2 <=? 1 then 0%nat else 1%nat) /\
   wp ('(_, s) ← wd_start 128 1 3000 2 [5; 6] demo_wd; wd_ticks demo_entry 2 s) (fun s' => exists l',
     wd_ok s' l' [160] /\ (forall d, (128, d) ∈ queue s' l' <-> Z.of_nat 2 <= 1 /\ d = 1 + 1 - Z.of_nat 2)
     /\ w_env s' = foldl (fun e y => call_entry demo_eff (ent y) e) (w_env demo_wd) ys))
  /\ foldl (fun e y => call_entry demo_eff (ent y) e) (w_env demo_wd) ys = [1000; 7; 3000; 5; 6].
Proof.
  intros ent ys. split; [|vm_compute; reflexivity].
  apply (wd_fires_on_time demo_entry demo_eff demo_wd [64; 96] [160] 128 1 3000 2 [5; 6] 2);
    [apply demo_quiet|apply demo_wd_ok|apply demo_wd_armed|apply demo_wd_valid; set_solver|not_free|unfold INT_MAX; lia|unfold MAX_WDOGPARMS; lia].
Defined.

Lemma wd_pool_roundtrip_witness :
  wp ('(y, s) ← wd_create demo_wd; '(_, s) ← wd_start y 2 3000 0 [] s; '(r, s) ← wd_delete y s; Ok (y, r, s))
     (fun '(y, r, s') => y = 160 /\ r = true /\ exists l', wd_ok s' l' ([] ++ [160]) /\ queue s' l' = queue demo_wd [64; 96]).
Proof.
  apply (wd_pool_roundtrip demo_wd [64; 96] 160 [] 2 3000 0 []); [apply demo_wd_ok|unfold INT_MAX; lia|unfold MAX_WDOGPARMS; lia].
Defined.
