(* ===== verification/Calendar.v ===== *)
(** * Calendar time: src/nuttx/lib/time

    The conversions between seconds since the epoch and a broken-down time, in
    the two builds of the library: [Simple] is the default one, [Gregorian] the
    one with CONFIG_GREGORIAN_TIME (its argument [julian] is
    CONFIG_JULIAN_TIME).  [time_t] is a [uint32_t], [int] and [long] have 32
    bits; signed division is [Z.quot].  The reference calendar counts days one
    by one with [next_day]. *)

From S2P Require Import Prelude.

Definition SEC_PER_MIN : Z := 60.
Definition SEC_PER_HOUR : Z := 60 * SEC_PER_MIN.
Definition SEC_PER_DAY : Z := 24 * SEC_PER_HOUR.

Record tm : Type := Tm {
  tm_sec : Z;
  tm_min : Z;
  tm_hour : Z;
  tm_mday : Z;
  tm_mon : Z;
  tm_year : Z
}.

(** ** lib_isleapyear.c and lib_daysbeforemonth.c *)

Definition clock_isleapyear (year : Z) : bool :=
  if negb (Z.rem year 400 =? 0) then
    if negb (Z.rem year 100 =? 0) then
      if negb (Z.rem year 4 =? 0) then false else true
    else false
  else true.

Definition g_daysbeforemonth : list Z :=
  [0; 31; 59; 90; 120; 151; 181; 212; 243; 273; 304; 334; 365].

(** An index outside the table is a wild access. *)
Definition clock_daysbeforemonth (month : Z) (leapyear : bool) : res Z :=
  if month <? 0 then Err FWild
  else
    match g_daysbeforemonth !! Z.to_nat month with
    | Some d => Ok (if (2 <=? month) && leapyear then d + 1 else d)
    | None => Err FWild
    end.

(** ** The hours, minutes and seconds of gmtime_r, common to both builds *)

Definition gmtime_with (utc2calendar : Z -> res (Z * Z * Z)) (timer : Z) : res tm :=
  let epoch := timer in
  let jdn := epoch / SEC_PER_DAY in
  let epoch := u32 (epoch - SEC_PER_DAY * jdn) in
  let hour := epoch / SEC_PER_HOUR in
  let epoch := u32 (epoch - SEC_PER_HOUR * hour) in
  let min := epoch / SEC_PER_MIN in
  let epoch := u32 (epoch - SEC_PER_MIN * min) in
  let sec := epoch in
  '(year, month, day) ← utc2calendar jdn;
  Ok (Tm sec min hour day (month - 1) (year - 1900)).

Module Simple.

(** The loop over the years of a period of four: the year (since 1970), the
    remaining days and the leap year flag.  A year has at least 365 days, and
    fewer than 1461 days remain when the loop starts: five rounds are enough. *)
Fixpoint year_loop (fuel : nat) (value days : Z) : res (Z * Z * bool) :=
  match fuel with
  | O => Err FFuel
  | S fuel =>
      let leapyear := clock_isleapyear (value + 1970) in
      let tmp := if leapyear then 366 else 365 in
      if days >=? tmp then year_loop fuel (value + 1) (u32 (days - tmp))
      else Ok (value, days, leapyear)
  end.

(** The binary search for the month, a do-while loop; twelve months need at
    most four rounds. *)
Fixpoint month_loop (fuel : nat) (days : Z) (leapyear : bool) (min max : Z) : res Z :=
  match fuel with
  | O => Err FFuel
  | S fuel =>
      let value := Z.shiftr (min + max) 1 in
      tmp ← clock_daysbeforemonth (value + 1) leapyear;
      if tmp >? days then
        tmp ← clock_daysbeforemonth value leapyear;
        if tmp >? days then
          let max := value - 1 in
          if min <? max then month_loop fuel days leapyear min max else Ok min
        else Ok value
      else
        let min := value + 1 in
        if min <? max then month_loop fuel days leapyear min max else Ok min
  end.

Definition clock_utc2calendar (days : Z) : res (Z * Z * Z) :=
  let value := days / (4 * 365 + 1) in
  let days := u32 (days - value * (4 * 365 + 1)) in
  let value := Z.shiftl value 2 in
  '(value, days, leapyear) ← year_loop 8 value days;
  let year := 1970 + value in
  value ← month_loop 8 days leapyear 0 11;
  d ← clock_daysbeforemonth value leapyear;
  let days := u32 (days - d) in
  Ok (year, value + 1, days + 1).

Definition gmtime_r (timer : Z) : res tm := gmtime_with clock_utc2calendar timer.

Definition mktime (tp : tm) : res Z :=
  let days := u32 ((tm_year tp - 70) * 365) in
  let days := u32 (days + Z.shiftr (tm_year tp - 69) 2) in
  d ← clock_daysbeforemonth (tm_mon tp) (clock_isleapyear (tm_year tp + 1900));
  let days := u32 (days + d) in
  let days := u32 (days + (tm_mday tp - 1)) in
  Ok (u32 (((days * 24 + tm_hour tp) * 60 + tm_min tp) * 60 + tm_sec tp)).

Definition clock_calendar2utc (year month day : Z) : res Z :=
  mktime (Tm 0 0 0 day month year).

End Simple.

Module Gregorian.

Definition JD_OF_EPOCH : Z := 2440588.
Definition GREG_DUTC : Z := -141427.
Definition GREG_YEAR : Z := 1582.
Definition GREG_MONTH : Z := 10.
Definition GREG_DAY : Z := 15.

Definition clock_utc2gregorian (jd : Z) : Z * Z * Z :=
  let l := s32 (u32 (jd + 68569)) in
  let n := Z.quot (4 * l) 146097 in
  let l := l - Z.quot (146097 * n + 3) 4 in
  let i := Z.quot (4000 * (l + 1)) 1461001 in
  let l := l - Z.quot (1461 * i) 4 + 31 in
  let j := Z.quot (80 * l) 2447 in
  let d := l - Z.quot (2447 * j) 80 in
  let l := Z.quot j 11 in
  let m := j + 2 - 12 * l in
  let y := 100 * (n - 49) + i + l in
  (y, m, d).

Definition clock_utc2julian (jd : Z) : Z * Z * Z :=
  let j := s32 (u32 (jd + 1402)) in
  let k := Z.quot (j - 1) 1461 in
  let l := j - 1461 * k in
  let n := Z.quot (l - 1) 365 - Z.quot l 1461 in
  let i := l - 365 * n + 30 in
  let j := Z.quot (80 * i) 2447 in
  let d := i - Z.quot (2447 * j) 80 in
  let i := Z.quot j 11 in
  let m := j + 2 - 12 * i in
  let y := 4 * k + n + i - 4716 in
  (y, m, d).

(** [utc >= GREG_DUTC] compares a [time_t] with a negative [int], which is
    converted to the unsigned type. *)
Definition clock_utc2calendar (julian : bool) (utc : Z) : res (Z * Z * Z) :=
  if julian then
    if utc >=? u32 GREG_DUTC then Ok (clock_utc2gregorian (u32 (utc + JD_OF_EPOCH)))
    else Ok (clock_utc2julian (u32 (utc + JD_OF_EPOCH)))
  else Ok (clock_utc2gregorian (u32 (utc + JD_OF_EPOCH))).

Definition gmtime_r (julian : bool) (timer : Z) : res tm :=
  gmtime_with (clock_utc2calendar julian) timer.

Definition clock_gregorian2utc (year month day : Z) : Z :=
  let temp := if month <=? 2 then -1 else 0 in
  u32 (Z.quot (1461 * (year + 4800 + temp)) 4
       + Z.quot (367 * (month - 2 - 12 * temp)) 12
       - Z.quot (3 * Z.quot (year + 4900 + temp) 100) 4 + day - 32075).

Definition clock_julian2utc (year month day : Z) : Z :=
  u32 (367 * year
       - Z.quot (7 * (year + 5001 + Z.quot (month - 9) 7)) 4
       + Z.quot (275 * month) 9
       + day + 1729777).

Definition clock_calendar2utc (julian : bool) (year month day : Z) : Z :=
  let dyear := Z.quot (month - 1) 12 in
  let month := month - 12 * dyear in
  let year := year + dyear in
  let '(month, year) := if month <? 1 then (month + 12, year - 1) else (month, year) in
  if julian then
    let isgreg :=
      if year >? GREG_YEAR then true
      else if year <? GREG_YEAR then false
      else if month >? GREG_MONTH then true
      else if month <? GREG_MONTH then false
      else day >=? GREG_DAY in
    if isgreg then u32 (clock_gregorian2utc year month day - JD_OF_EPOCH)
    else u32 (clock_julian2utc year month day - JD_OF_EPOCH)
  else u32 (clock_gregorian2utc year month day - JD_OF_EPOCH).

Definition mktime (julian : bool) (tp : tm) : Z :=
  let jdn := clock_calendar2utc julian (tm_year tp + 1900) (tm_mon tp + 1) (tm_mday tp) in
  u32 (((jdn * 24 + tm_hour tp) * 60 + tm_min tp) * 60 + tm_sec tp).

End Gregorian.

(** ** The reference calendar *)

(** A day of the Gregorian calendar. *)
Record date : Type := Date { d_year : Z; d_month : Z; d_day : Z }.

#[export] Instance date_eq_dec : EqDecision date.
Proof. solve_decision. Defined.

Definition is_leap (y : Z) : bool :=
  ((y mod 4 =? 0) && negb (y mod 100 =? 0)) || (y mod 400 =? 0).

Definition month_length (leap : bool) (m : Z) : Z :=
  if m =? 2 then (if leap then 29 else 28)
  else if (m =? 4) || (m =? 6) || (m =? 9) || (m =? 11) then 30 else 31.

(** The day after a day. *)
Definition next_day (d : date) : date :=
  if d_day d <? month_length (is_leap (d_year d)) (d_month d) then
    Date (d_year d) (d_month d) (d_day d + 1)
  else if d_month d <? 12 then Date (d_year d) (d_month d + 1) 1
  else Date (d_year d + 1) 1 1.

(** The day [n] days after the epoch, 1970-01-01. *)
Definition civil (n : nat) : date := Nat.iter n next_day (Date 1970 1 1).

Definition valid_date (d : date) : Prop :=
  1970 <= d_year d /\ 1 <= d_month d <= 12 /\ 1 <= d_day d <= month_length (is_leap (d_year d)) (d_month d).

(** The broken-down time of a second since the epoch. *)
Definition civil_tm (t : Z) : tm :=
  let d := civil (Z.to_nat (t / 86400)) in
  Tm (t mod 60) (t / 60 mod 60) (t / 3600 mod 24) (d_day d) (d_month d - 1) (d_year d - 1900).

(** Linear arithmetic with division by constants. *)
Ltac zdm := Z.to_euclidean_division_equations; lia.

(** ** The number of a day *)

(** The leap years up to a year, and the days before a month. *)
Definition leaps (y : Z) : Z := y / 4 - y / 100 + y / 400.
Definition days_before (leap : bool) (m : Z) : Z :=
  default 0 (g_daysbeforemonth !! Z.to_nat (m - 1)) + (if (2 <? m) && leap then 1 else 0).
Definition day_number (d : date) : Z :=
  365 * (d_year d - 1970) + (leaps (d_year d - 1) - leaps 1969)
  + days_before (is_leap (d_year d)) (d_month d) + d_day d - 1.

Lemma leapyear_is_leap y : 0 <= y -> clock_isleapyear y = is_leap y.
Proof.
  intros Hy. unfold clock_isleapyear, is_leap. rewrite !Z.rem_mod_nonneg by lia.
  destruct (Z.eqb_spec (y mod 400) 0), (Z.eqb_spec (y mod 100) 0), (Z.eqb_spec (y mod 4) 0); try done; lia.
Qed.

Lemma div_step y k : 0 < k -> y / k = (y - 1) / k + (if y mod k =? 0 then 1 else 0).
Proof.
  intros Hk. pose proof (Z.div_mod y k). pose proof (Z.mod_pos_bound y k Hk).
  destruct (Z.eqb_spec (y mod k) 0) as [E|E].
  - assert ((y - 1) / k = y / k - 1) as ->; [|lia]. symmetry. apply (Z.div_unique_pos _ _ _ (k - 1)); nia.
  - assert ((y - 1) / k = y / k) as ->; [|lia]. symmetry. apply (Z.div_unique_pos _ _ _ (y mod k - 1)); nia.
Qed.

Lemma leaps_step y : leaps y = leaps (y - 1) + (if is_leap y then 1 else 0).
Proof.
  unfold leaps, is_leap. rewrite (div_step y 4), (div_step y 100), (div_step y 400) by lia.
  assert (y mod 400 = 0 -> y mod 100 = 0) by zdm. assert (y mod 100 = 0 -> y mod 4 = 0) by zdm.
  destruct (Z.eqb_spec (y mod 400) 0), (Z.eqb_spec (y mod 100) 0), (Z.eqb_spec (y mod 4) 0);
    cbn [andb orb negb]; solve [tauto | lia].
Qed.

(** The twelve months, for a case analysis. *)
Lemma month_cases (P : Z -> Prop) m :
  1 <= m <= 12 -> Forall P (seqZ 1 12) -> P m.
Proof. intros Hm HP. rewrite Forall_forall in HP. apply HP, elem_of_seqZ. lia. Qed.

Lemma days_before_next leap m :
  1 <= m <= 12 -> days_before leap (m + 1) = days_before leap m + month_length leap m.
Proof. intros Hm. pattern m. apply month_cases; [done|]. destruct leap; by repeat constructor. Qed.

Lemma days_before_year leap : days_before leap 1 = 0 /\ days_before leap 13 = 365 + (if leap then 1 else 0).
Proof. by destruct leap. Qed.

Lemma month_length_pos leap m : 28 <= month_length leap m.
Proof. unfold month_length. repeat case_match; lia. Qed.

Lemma next_day_number d :
  valid_date d -> valid_date (next_day d) /\ day_number (next_day d) = day_number d + 1.
Proof.
  intros (Hy & Hm & Hd). pose proof (days_before_next (is_leap (d_year d)) _ Hm) as Hn.
  pose proof (month_length_pos (is_leap (d_year d)) (d_month d + 1)) as Hp. unfold next_day, valid_date, day_number.
  destruct (Z.ltb_spec (d_day d) (month_length (is_leap (d_year d)) (d_month d))) as [Hl|Hl]; simpl; [lia|].
  destruct (Z.ltb_spec (d_month d) 12) as [H12|H12]; simpl; [lia|].
  pose proof (month_length_pos (is_leap (d_year d + 1)) 1). pose proof (leaps_step (d_year d)) as Hs.
  assert (d_month d = 12) as E by lia. rewrite E in *. replace (d_year d + 1 - 1) with (d_year d) by lia.
  destruct (days_before_year (is_leap (d_year d))) as [_ E13]. destruct (days_before_year (is_leap (d_year d + 1))) as [-> _].
  change (12 + 1) with 13 in Hn. destruct (is_leap (d_year d)); lia.
Qed.

Lemma civil_number n : valid_date (civil n) /\ day_number (civil n) = Z.of_nat n.
Proof.
  induction n as [|n [Hv IH]]; [by vm_compute|].
  change (civil (S n)) with (next_day (civil n)). destruct (next_day_number _ Hv) as [H1 H2]. split; [done|]. lia.
Qed.

Lemma days_before_bound leap m :
  1 <= m <= 12 -> 0 <= days_before leap m /\ days_before leap (m + 1) <= 365 + (if leap then 1 else 0).
Proof.
  intros Hm. rewrite <-!Z.leb_le. pattern m. apply month_cases; [done|]. destruct leap; by repeat constructor.
Qed.

(** The day in its year. *)
Lemma year_day d :
  valid_date d ->
  0 <= days_before (is_leap (d_year d)) (d_month d) + d_day d - 1 < 365 + (if is_leap (d_year d) then 1 else 0).
Proof.
  intros (_ & Hm & Hd). pose proof (days_before_next (is_leap (d_year d)) _ Hm).
  pose proof (days_before_bound (is_leap (d_year d)) _ Hm). lia.
Qed.

(** Up to 2100 every fourth year is a leap year but 2100 itself. *)
Lemma leaps_near y : 1970 <= y <= 2101 -> leaps (y - 1) - leaps 1969 = (y - 1969) / 4 - (if y =? 2101 then 1 else 0).
Proof. intros Hy. unfold leaps. destruct (Z.eqb_spec y 2101); zdm. Qed.

Lemma is_leap_near y : 1970 <= y <= 2103 -> is_leap y = (y mod 4 =? 0) && negb (y =? 2100).
Proof.
  intros Hy. unfold is_leap.
  destruct (Z.eqb_spec (y mod 400) 0), (Z.eqb_spec (y mod 100) 0), (Z.eqb_spec (y mod 4) 0), (Z.eqb_spec y 2100); try done; zdm.
Qed.

(** ** The default build *)

Definition year_length (y : Z) : Z := 365 + (if is_leap y then 1 else 0).
Definition jan1 (y : Z) : Z := 365 * (y - 1970) + (leaps (y - 1) - leaps 1969).

Lemma jan1_step y : jan1 (y + 1) = jan1 y + year_length y.
Proof.
  unfold jan1, year_length. replace (y + 1 - 1) with y by lia. rewrite (leaps_step y).
  destruct (is_leap y); lia.
Qed.

Lemma jan1_grow y1 y2 : y1 <= y2 -> jan1 y1 + 365 * (y2 - y1) <= jan1 y2.
Proof.
  intros Hy. assert (forall k, 0 <= k -> jan1 y1 + 365 * k <= jan1 (y1 + k)) as H.
  { apply natlike_ind; [rewrite (Z.add_0_r y1); lia|]. intros k Hk IH. unfold Z.succ. rewrite Z.add_assoc, jan1_step.
    unfold year_length. destruct (is_leap _); lia. }
  specialize (H (y2 - y1)). replace (y1 + (y2 - y1)) with y2 in H by lia. lia.
Qed.

Lemma day_number_jan1 d :
  day_number d = jan1 (d_year d) + (days_before (is_leap (d_year d)) (d_month d) + d_day d - 1).
Proof. unfold day_number, jan1. lia. Qed.

Lemma daysbeforemonth_spec m leap : 1 <= m <= 12 -> clock_daysbeforemonth (m - 1) leap = Ok (days_before leap m).
Proof. intros Hm. pattern m. apply month_cases; [done|]. destruct leap; by repeat constructor. Qed.

(** The days of a month. *)
Definition days_of (leap : bool) (m : Z) : list Z := seqZ 1 (month_length leap m).

Lemma days_checked leap (f : Z -> Z -> bool) m x :
  1 <= m <= 12 -> forallb (fun m => forallb (f m) (days_of leap m)) (seqZ 1 12) = true ->
  1 <= x <= month_length leap m -> f m x = true.
Proof.
  intros Hm H Hx. rewrite forallb_forall in H. specialize (H m). rewrite forallb_forall in H.
  apply H; apply list_elem_of_In, elem_of_seqZ; lia.
Qed.

Module SimpleSpec.
Import Simple.

Lemma year_loop_spec fuel s y yd :
  0 <= s -> s + 1970 <= y -> y - (s + 1970) < Z.of_nat fuel -> 0 <= yd < year_length y -> y <= 3000 ->
  year_loop fuel s (jan1 y - jan1 (s + 1970) + yd) = Ok (y - 1970, yd, is_leap y).
Proof.
  intros Hs. revert s Hs. induction fuel as [|fuel IH]; intros s Hs Hsy Hf Hyd Hy; [lia|].
  cbn [year_loop]. rewrite leapyear_is_leap by lia.
  assert ((if is_leap (s + 1970) then 366 else 365) = year_length (s + 1970)) as ->
    by (unfold year_length; destruct (is_leap (s + 1970)) eqn:?; lia).
  pose proof (jan1_step (s + 1970)) as Hj. destruct (decide (y = s + 1970)) as [->|Hne].
  - replace (jan1 (s + 1970) - jan1 (s + 1970) + yd) with yd by lia.
    destruct (Z.geb_spec yd (year_length (s + 1970))); [lia|]. do 3 f_equal. lia.
  - pose proof (jan1_grow (s + 1970 + 1) y ltac:(lia)). pose proof (jan1_grow (s + 1970) y ltac:(lia)).
    assert (jan1 y - jan1 (s + 1970) < 500000).
    { pose proof (jan1_grow 1970 (s + 1970)). pose proof (jan1_grow y 3000 Hy). change (jan1 1970) with 0 in *. change (jan1 3000) with 376200 in *. lia. }
    destruct (Z.geb_spec (jan1 y - jan1 (s + 1970) + yd) (year_length (s + 1970))); [|lia].
    unfold u32. rewrite Z.mod_small by (unfold year_length in *; repeat case_match; lia).
    replace (jan1 y - jan1 (s + 1970) + yd - year_length (s + 1970)) with (jan1 y - jan1 (s + 1 + 1970) + yd)
      by (replace (s + 1 + 1970) with (s + 1970 + 1) by lia; lia).
    apply IH; lia.
Qed.

Lemma month_loop_spec leap m x :
  1 <= m <= 12 -> 1 <= x <= month_length leap m ->
  month_loop 8 (days_before leap m + x - 1) leap 0 11 = Ok (m - 1).
Proof.
  intros Hm Hx.
  apply (days_checked leap (fun m x => match month_loop 8 (days_before leap m + x - 1) leap 0 11 with
                                       | Ok v => v =? m - 1 | Err _ => false end) m x) in Hm; [|destruct leap; by vm_compute|done].
  destruct (month_loop _ _ _ _ _); [|done]. f_equal. lia.
Qed.

(** Up to the first day of 2102 the days are converted as the calendar says. *)
Lemma utc2calendar_spec d :
  valid_date d -> day_number d < 48213 ->
  clock_utc2calendar (day_number d) = Ok (d_year d, d_month d, d_day d).
Proof.
  intros Hv Hn. pose proof Hv as (Hy & Hm & Hd). pose proof (year_day d Hv) as Hyd.
  pose proof (day_number_jan1 d) as E. remember (days_before _ _ + d_day d - 1) as yd eqn:Eyd.
  pose proof (jan1_grow 1970 (d_year d) Hy) as Hg. change (jan1 1970) with 0 in Hg.
  assert (0 <= day_number d / 1461 <= 32) as Hv32 by zdm. remember (day_number d / 1461) as v eqn:Ev.
  assert (jan1 (4 * v + 1970) = 1461 * v) as Ej.
  { unfold jan1. destruct (Z.eqb_spec (4 * v + 1970) 2101); [lia|]. rewrite leaps_near by lia.
    rewrite (proj2 (Z.eqb_neq _ _)) by lia. zdm. }
  assert (1461 * v <= day_number d < 1461 * v + 1461) as Hdv by (rewrite Ev; zdm).
  unfold clock_utc2calendar. change (4 * 365 + 1) with 1461. rewrite <-Ev.
  replace (Z.shiftl v 2) with (4 * v) by (rewrite Z.shiftl_mul_pow2 by lia; lia).
  assert (4 * v + 1970 <= d_year d).
  { destruct (Z.le_gt_cases (4 * v + 1970) (d_year d)); [done|]. pose proof (jan1_grow (d_year d + 1) (4 * v + 1970) ltac:(lia)).
    rewrite jan1_step in *. unfold year_length in *. lia. }
  pose proof (jan1_grow (4 * v + 1970) (d_year d) ltac:(lia)).
  assert (u32 (day_number d - v * 1461) = jan1 (d_year d) - jan1 (4 * v + 1970) + yd) as ->
    by (unfold u32; rewrite Z.mod_small; lia).
  rewrite year_loop_spec; [|try (unfold year_length; lia)..].  cbn [mbind res_bind].
  rewrite Eyd, month_loop_spec by done. cbn [mbind res_bind]. rewrite daysbeforemonth_spec by done.
  pose proof (days_before_bound (is_leap (d_year d)) _ Hm).
  cbn [mbind res_bind]. unfold u32. rewrite Z.mod_small by (destruct (is_leap (d_year d)) eqn:?; lia). repeat f_equal; lia.
Qed.

Lemma mktime_spec d h mi s :
  valid_date d -> d_year d <= 2100 -> 0 <= h < 24 -> 0 <= mi < 60 -> 0 <= s < 60 ->
  mktime (Tm s mi h (d_day d) (d_month d - 1) (d_year d - 1900)) = Ok (86400 * day_number d + 3600 * h + 60 * mi + s).
Proof.
  intros Hv Hy Hh Hmi Hs. pose proof Hv as (Hy0 & Hm & Hd). pose proof (year_day d Hv) as Hyd.
  unfold mktime. cbn [tm_year tm_mon tm_mday tm_hour tm_min tm_sec].
  replace (d_year d - 1900 + 1900) with (d_year d) by lia. rewrite leapyear_is_leap, daysbeforemonth_spec by lia.
  cbn [mbind res_bind]. rewrite Z.shiftr_div_pow2 by lia. change (2 ^ 2) with 4.
  rewrite day_number_jan1. unfold jan1. rewrite leaps_near by lia. rewrite (proj2 (Z.eqb_neq _ _)) by lia.
  pose proof (days_before_bound (is_leap (d_year d)) _ Hm). f_equal.
  assert (0 <= (d_year d - 1969) / 4 < 100) by zdm. replace (d_year d - 1900 - 69) with (d_year d - 1969) by lia.
  unfold u32. repeat rewrite (Z.mod_small _ (2 ^ 32)); repeat case_match; lia.
Qed.

Lemma before_2101 d : valid_date d -> day_number d < 47847 -> d_year d <= 2100.
Proof.
  intros Hv Hn. pose proof (year_day d Hv). rewrite day_number_jan1 in Hn.
  destruct (Z.le_gt_cases (d_year d) 2100) as [|Hy]; [done|].
  pose proof (jan1_grow 2101 (d_year d) ltac:(lia)) as Hg. change (jan1 2101) with 47847 in Hg. lia.
Qed.

End SimpleSpec.

(** ** The Gregorian build *)

Module GregorianSpec.
Import Gregorian.

(** Years counted from March: the year, and the day in it. *)
Definition m_year (d : date) : Z := if d_month d <=? 2 then d_year d - 1 else d_year d.
Definition m_month (m x : Z) : Z := days_before false m + x - 1 + (if m <=? 2 then 306 else -59).
Definition m_day (d : date) : Z := m_month (d_month d) (d_day d).

Lemma day_number_march d :
  day_number d = 365 * (m_year d - 1970) + leaps (m_year d) - leaps 1969 + 59 + m_day d.
Proof.
  rewrite day_number_jan1. unfold jan1, m_year, m_day, m_month, days_before. pose proof (leaps_step (d_year d)) as Hs.
  destruct (Z.leb_spec (d_month d) 2), (Z.ltb_spec 2 (d_month d)); try lia; destruct (is_leap (d_year d)) eqn:?; simpl; lia.
Qed.

Lemma m_day_bound d :
  valid_date d -> 0 <= m_day d <= 364 + (if is_leap (m_year d + 1) then 1 else 0).
Proof.
  intros (Hy & Hm & Hd). unfold m_year, m_day.
  assert (forall leap, 1 <= d_day d <= month_length leap (d_month d) -> 0 <= m_month (d_month d) (d_day d) <= 364 + (if leap && (d_month d <=? 2) then 1 else 0)) as H.
  { intros leap Hl. apply (days_checked leap (fun m x => (0 <=? m_month m x) && (m_month m x <=? 364 + (if leap && (m <=? 2) then 1 else 0))) _ _) in Hl;
      [lia|done|destruct leap; by vm_compute]. }
  specialize (H _ Hd). destruct (Z.leb_spec (d_month d) 2).
  - replace (d_year d - 1 + 1) with (d_year d) by lia. by rewrite andb_true_r in H.
  - rewrite andb_false_r in H. destruct (is_leap (d_year d + 1)) eqn:?; lia.
Qed.

(** The month and the day from the day in the year from March. *)
Lemma month_of_day leap m x :
  1 <= m <= 12 -> 1 <= x <= month_length leap m ->
  let l := m_month m x + 31 in
  let j := Z.quot (80 * l) 2447 in
  l - Z.quot (2447 * j) 80 = x /\ j + 2 - 12 * Z.quot j 11 = m /\ Z.quot j 11 = (if m <=? 2 then 1 else 0).
Proof.
  intros Hm Hx l j.
  apply (days_checked leap (fun m x =>
    let l := m_month m x + 31 in let j := Z.quot (80 * l) 2447 in
    (l - Z.quot (2447 * j) 80 =? x) && (j + 2 - 12 * Z.quot j 11 =? m) && (Z.quot j 11 =? (if m <=? 2 then 1 else 0))) m x) in Hx;
    [|done|destruct leap; by vm_compute].
  cbv zeta in Hx. fold l in Hx. fold j in Hx. rewrite !andb_true_iff, !Z.eqb_eq in Hx. tauto.
Qed.

Lemma long_year Y md :
  0 <= md <= 364 + (if is_leap (Y + 1) then 1 else 0) ->
  (md = 365 -> (Y mod 100) mod 4 = 3) /\ (md = 365 -> Y mod 100 = 99 -> (Y + 1) mod 400 = 0).
Proof.
  intros Hmd. assert (md = 365 -> is_leap (Y + 1) = true) as H by (destruct (is_leap (Y + 1)) eqn:?; [done|lia]).
  unfold is_leap in H. rewrite orb_true_iff, andb_true_iff, negb_true_iff, !Z.eqb_eq, Z.eqb_neq in H.
  split; [intros E; specialize (H E); zdm|intros E E2; specialize (H E); zdm].
Qed.

(** The centuries and the years of a century are found by the two divisions. *)
Lemma century_step Y md :
  1969 <= Y <= 2106 -> 0 <= md <= 364 + (if is_leap (Y + 1) then 1 else 0) ->
  let l := 365 * (Y - 1970) + leaps Y - leaps 1969 + 59 + md + 2509157 in
  let n := Z.quot (4 * l) 146097 in
  let l1 := l - Z.quot (146097 * n + 3) 4 in
  let i := Z.quot (4000 * (l1 + 1)) 1461001 in
  n = 49 + Y / 100 /\ i = Y mod 100 /\ l1 - Z.quot (1461 * i) 4 = md.
Proof.
  intros HY Hmd l n l1 i. destruct (long_year _ _ Hmd) as [H3 H100].
  assert (Y = 100 * (Y / 100) + Y mod 100 /\ 0 <= Y mod 100 < 100) as [EY Hk] by zdm.
  assert (Y / 100 = 19 \/ Y / 100 = 20 \/ Y / 100 = 21) as Hc by zdm.
  assert (Y / 100 = 21 -> Y mod 100 <= 6) as H21 by lia.
  assert (0 <= md <= 365) as Hmd' by (destruct (is_leap (Y + 1)) eqn:?; lia). clear Hmd HY.
  remember (Y / 100) as c eqn:Ec. remember (Y mod 100) as k eqn:Ek. clear Ec Ek.
  assert (l = (146097 * (49 + c) + 3) / 4 + 1461 * k / 4 + md) as El.
  { unfold l, leaps. destruct Hc as [->|[->| ->]]; rewrite EY; clear - Hk; zdm. }
  clearbody l.
  assert (md = 365 -> k = 99 -> c <> 20) as H20 by (intros E1 E2 ->; specialize (H100 E1 E2); subst; by vm_compute in H100).
  assert (n = 49 + c) as En.
  { unfold n. rewrite El. clear H100 H3. destruct Hc as [->|[->| ->]]; zdm. }
  assert (l1 = 1461 * k / 4 + md) as El1.
  { unfold l1. rewrite En, El, Z.quot_div_nonneg by lia. lia. }
  assert (i = k) as Ei.
  { unfold i. rewrite El1. clear - Hk H3 Hmd'. zdm. }
  split; [done|]. split; [done|]. rewrite Ei, El1, Z.quot_div_nonneg by lia. lia.
Qed.

Lemma m_year_range d : valid_date d -> day_number d <= 49710 -> 1969 <= m_year d <= 2106.
Proof.
  intros Hv Hn. pose proof Hv as (Hy & Hm & Hd). pose proof (year_day d Hv). pose proof (day_number_jan1 d).
  pose proof (jan1_grow 1970 (d_year d) Hy) as Hg. change (jan1 1970) with 0 in Hg. unfold m_year.
  destruct (Z.leb_spec (d_month d) 2); lia.
Qed.

(** Every day a [time_t] can express is converted as the calendar says. *)
Lemma utc2gregorian_spec d :
  valid_date d -> day_number d <= 49710 ->
  clock_utc2gregorian (u32 (day_number d + JD_OF_EPOCH)) = (d_year d, d_month d, d_day d).
Proof.
  intros Hv Hn. pose proof Hv as (Hy & Hm & Hd). pose proof (m_year_range _ Hv Hn) as HY.
  pose proof (year_day d Hv) as Hyd. pose proof (day_number_jan1 d).
  pose proof (jan1_grow 1970 (d_year d) Hy) as Hg. change (jan1 1970) with 0 in Hg.
  destruct (century_step (m_year d) (m_day d) HY (m_day_bound _ Hv)) as (En & Ei & El).
  destruct (month_of_day _ _ _ Hm Hd) as (Ed & Em & Ej). fold (m_day d) in Ed, Em, Ej.
  unfold clock_utc2gregorian.
  assert (s32 (u32 (u32 (day_number d + JD_OF_EPOCH) + 68569)) = 365 * (m_year d - 1970) + leaps (m_year d) - leaps 1969 + 59 + m_day d + 2509157) as ->.
  { rewrite <-day_number_march. unfold JD_OF_EPOCH. rewrite (u32_id (day_number d + _)), u32_id, s32_id; unfold INT_MAX; lia. }
  cbv zeta. rewrite En in Ei, El |- *. rewrite Ei in El |- *. rewrite El, Em, Ed, Ej.
  do 2 f_equal. unfold m_year. destruct (Z.leb_spec (d_month d) 2); zdm.
Qed.

Lemma gregorian2utc_spec d :
  valid_date d -> day_number d <= 49710 ->
  clock_gregorian2utc (d_year d) (d_month d) (d_day d) = day_number d + JD_OF_EPOCH.
Proof.
  intros Hv Hn. pose proof Hv as (Hy & Hm & Hd). pose proof (m_year_range _ Hv Hn) as HY.
  pose proof (year_day d Hv) as Hyd. pose proof (day_number_jan1 d).
  pose proof (jan1_grow 1970 (d_year d) Hy) as Hg. change (jan1 1970) with 0 in Hg.
  unfold clock_gregorian2utc.
  assert (Z.quot (367 * (d_month d - 2 - 12 * (if d_month d <=? 2 then -1 else 0))) 12
          = m_month (d_month d) 1 + 30) as Em.
  { pattern (d_month d). apply month_cases; [done|]. by repeat constructor. }
  assert (d_year d + (if d_month d <=? 2 then -1 else 0) = m_year d) as Ey by (unfold m_year; destruct (d_month d <=? 2); lia).
  rewrite Em. replace (d_year d + 4800 + (if d_month d <=? 2 then -1 else 0)) with (m_year d + 4800) by lia.
  replace (d_year d + 4900 + (if d_month d <=? 2 then -1 else 0)) with (m_year d + 4900) by lia.
  assert (m_day d = m_month (d_month d) 1 + d_day d - 1) as Ed by (unfold m_day, m_month; lia).
  match goal with |- u32 ?e = _ => assert (e = day_number d + JD_OF_EPOCH) as -> end.
  - rewrite day_number_march, Ed. unfold leaps, JD_OF_EPOCH. generalize dependent (m_year d). clear. intros; zdm.
  - apply u32_id. unfold JD_OF_EPOCH. lia.
Qed.

Lemma greg_mktime_spec d h mi s :
  valid_date d -> day_number d <= 49710 -> 0 <= h < 24 -> 0 <= mi < 60 -> 0 <= s < 60 ->
  86400 * day_number d + 3600 * h + 60 * mi + s < 2 ^ 32 ->
  mktime false (Tm s mi h (d_day d) (d_month d - 1) (d_year d - 1900)) = 86400 * day_number d + 3600 * h + 60 * mi + s.
Proof.
  intros Hv Hn Hh Hmi Hs Hlim. pose proof Hv as (Hy & Hm & Hd). pose proof (year_day d Hv) as Hyd. pose proof (day_number_jan1 d).
  pose proof (jan1_grow 1970 (d_year d) Hy) as Hg. change (jan1 1970) with 0 in Hg.
  unfold mktime, clock_calendar2utc. cbn [tm_year tm_mon tm_mday tm_hour tm_min tm_sec].
  replace (d_month d - 1 + 1) with (d_month d) by lia. rewrite (Z.quot_small (d_month d - 1) 12) by lia.
  rewrite Z.mul_0_r, Z.sub_0_r, Z.add_0_r. rewrite (proj2 (Z.ltb_ge _ _)) by lia. cbv beta iota zeta.
  replace (d_year d - 1900 + 1900) with (d_year d) by lia. rewrite gregorian2utc_spec by done.
  rewrite (u32_id (day_number d + _ - _)) by (unfold JD_OF_EPOCH; lia). rewrite u32_id by (unfold JD_OF_EPOCH; lia).
  unfold JD_OF_EPOCH. lia.
Qed.

End GregorianSpec.

(** ** Theorems *)

(** gmtime_r with any conversion of days that is right for the day at hand. *)
Lemma gmtime_with_spec conv t :
  0 <= t < 2 ^ 32 ->
  (let d := civil (Z.to_nat (t / 86400)) in conv (t / 86400) = Ok (d_year d, d_month d, d_day d)) ->
  gmtime_with conv t = Ok (civil_tm t).
Proof.
  intros Ht Hc. unfold gmtime_with, SEC_PER_DAY, SEC_PER_HOUR, SEC_PER_MIN. cbn -[Z.div Z.mul Z.sub u32 civil].
  change (24 * (60 * 60)) with 86400. change (60 * 60) with 3600. rewrite Hc. cbn [mbind res_bind].
  assert (u32 (t - 86400 * (t / 86400)) = t mod 86400) as -> by (rewrite u32_id; zdm).
  assert (u32 (t mod 86400 - 3600 * (t mod 86400 / 3600)) = t mod 3600) as -> by (rewrite u32_id; zdm).
  unfold civil_tm. f_equal. f_equal; [rewrite u32_id; zdm|zdm..].
Qed.

Lemma tm_split t :
  0 <= t -> t = 86400 * (t / 86400) + 3600 * (t / 3600 mod 24) + 60 * (t / 60 mod 60) + t mod 60
  /\ 0 <= t / 3600 mod 24 < 24 /\ 0 <= t / 60 mod 60 < 60 /\ 0 <= t mod 60 < 60.
Proof. intros Ht. zdm. Qed.

Lemma civil_day t :
  0 <= t -> valid_date (civil (Z.to_nat (t / 86400))) /\ day_number (civil (Z.to_nat (t / 86400))) = t / 86400.
Proof. intros Ht. destruct (civil_number (Z.to_nat (t / 86400))) as [H1 H2]. split; [done|]. rewrite H2. zdm. Qed.

(** C16: In the default build gmtime_r gives the Gregorian date and time of every second before 2102-01-02
    (48213 days after the epoch), and mktime inverts it for every second before the year 2101. *)
Theorem calendar_default t :
  0 <= t < 48213 * 86400 ->
  Simple.gmtime_r t = Ok (civil_tm t)
  /\ (t < 47847 * 86400 -> Simple.mktime (civil_tm t) = Ok t).
Proof.
  intros Ht. destruct (civil_day t) as [Hv Hn]; [lia|]. split.
  - apply gmtime_with_spec; [lia|]. cbv zeta. rewrite <-Hn at 1. apply SimpleSpec.utc2calendar_spec; [done|]. rewrite Hn. zdm.
  - intros Hlt. destruct (tm_split t) as (E & Hh & Hm & Hs); [lia|]. unfold civil_tm.
    rewrite SimpleSpec.mktime_spec; [rewrite Hn; f_equal; lia|done| |done..].
    apply (SimpleSpec.before_2101 _ Hv). rewrite Hn. zdm.
Qed.

Lemma calendar_default_witness :
  Simple.gmtime_r 68255999 = Ok (Tm 59 59 23 29 1 72) /\ Simple.mktime (Tm 59 59 23 29 1 72) = Ok 68255999.
Proof.
  destruct (calendar_default 68255999 ltac:(lia)) as [H1 H2].
  assert (civil_tm 68255999 = Tm 59 59 23 29 1 72) as E by (vm_compute; reflexivity).
  rewrite E in H1, H2. split; [exact H1|]. apply H2. lia.
Defined.

(** C17: With CONFIG_GREGORIAN_TIME (and without CONFIG_JULIAN_TIME) gmtime_r gives the Gregorian date and
    time of every value of a time_t, and mktime inverts it. *)
Theorem calendar_gregorian t :
  0 <= t < 2 ^ 32 ->
  Gregorian.gmtime_r false t = Ok (civil_tm t) /\ Gregorian.mktime false (civil_tm t) = t.
Proof.
  intros Ht. destruct (civil_day t) as [Hv Hn]; [lia|]. assert (t / 86400 <= 49710) by zdm. split.
  - apply gmtime_with_spec; [lia|]. cbv zeta. unfold Gregorian.clock_utc2calendar. rewrite <-Hn at 1.
    rewrite GregorianSpec.utc2gregorian_spec; [done|done|lia].
  - destruct (tm_split t) as (E & Hh & Hm & Hs); [lia|]. unfold civil_tm.
    rewrite GregorianSpec.greg_mktime_spec; rewrite ?Hn; try done; lia.
Qed.

Lemma calendar_gregorian_witness :
  Gregorian.gmtime_r false 94694399 = Ok (Tm 59 59 23 31 11 72) /\ Gregorian.mktime false (Tm 59 59 23 31 11 72) = 94694399.
Proof.
  destruct (calendar_gregorian 94694399 ltac:(lia)) as [H1 H2].
  assert (civil_tm 94694399 = Tm 59 59 23 31 11 72) as E by (vm_compute; reflexivity).
  rewrite E in H1, H2. split; [exact H1|exact H2].
Defined.

(** Where the default build stops to be right: the days 48212 and 48213 have the same date, and
    mktime counts the year 2100 as a leap year. *)
Lemma default_gmtime_limit :
  Simple.gmtime_r (48213 * 86400) = Simple.gmtime_r (48212 * 86400).
Proof. by vm_compute. Qed.

Lemma default_mktime_limit :
  day_number (Date 2101 1 1) = 47847 /\ Simple.mktime (Tm 0 0 0 1 0 201) = Ok (47848 * 86400).
Proof. by vm_compute. Qed.

(** clock_calendar2utc of the default build passes a full year and a one-based month to mktime, and
    returns seconds where its callers expect days: 2010-01-01 is day 14610. *)
Lemma default_calendar2utc_wrong :
  Simple.clock_calendar2utc 2010 1 1 = Ok 1094880256 /\ day_number (Date 2010 1 1) = 14610.
Proof. by vm_compute. Qed.

(** With CONFIG_JULIAN_TIME the comparison with the first Gregorian day is unsigned, and every date is a
    Julian one. *)
Lemma julian_gmtime_wrong :
  Gregorian.gmtime_r true 0 = Ok (Tm 0 0 0 19 11 69) /\ Gregorian.mktime true (Tm 0 0 0 1 0 70) = 0.
Proof. by vm_compute. Qed.
