(* ===== verification/Clock.v ===== *)
(** * The system clock: src/nuttx/sched/clock_*.c

    A 32-bit tick counter, the base time set last and the tick at which it was
    set.  The build has no hardware clock (CONFIG_RTC), a 32-bit system timer
    and the default tick of 10 ms; [time_t] is a [uint32_t] and [long] has 32
    bits.  *get_errno_ptr() is the field [c_errno]; a result [inl e] is a return
    of ERROR or of the error number [e]. *)

From S2P Require Import Prelude Calendar Sched.

Definition NSEC_PER_SEC : Z := 1000000000.
Definition USEC_PER_SEC : Z := 1000000.
Definition MSEC_PER_SEC : Z := 1000.
Definition NSEC_PER_MSEC : Z := 1000000.
Definition USEC_PER_MSEC : Z := 1000.
Definition NSEC_PER_USEC : Z := 1000.
Definition MSEC_PER_TICK : Z := 10.
Definition TICK_PER_SEC : Z := MSEC_PER_SEC / MSEC_PER_TICK.
Definition NSEC_PER_TICK : Z := MSEC_PER_TICK * NSEC_PER_MSEC.
Definition USEC_PER_TICK : Z := MSEC_PER_TICK * USEC_PER_MSEC.
Definition CLOCK_REALTIME : Z := 0.

Record timespec : Type := Timespec { tv_sec : Z; tv_nsec : Z }.
Record timeval : Type := Timeval { tval_sec : Z; tval_usec : Z }.

Record clock_s : Type := ClockS {
  g_system_timer : Z;
  g_tickbias : Z;
  g_basetime : timespec;
  c_errno : Z
}.

Definition fail_einval (c : clock_s) : clock_s := ClockS (g_system_timer c) (g_tickbias c) (g_basetime c) EINVAL.

(** The default [clock_inittime] of the Gregorian build. *)
Definition clock_inittime (start_year start_month start_day : Z) : timespec :=
  Timespec (u32 (Gregorian.clock_calendar2utc false start_year start_month start_day * SEC_PER_DAY)) 0.

Definition clock_initialize (start_year start_month start_day : Z) (c : clock_s) : clock_s :=
  ClockS 0 0 (clock_inittime start_year start_month start_day) (c_errno c).

Definition clock_timer (c : clock_s) : clock_s :=
  ClockS (u32 (g_system_timer c + 1)) (g_tickbias c) (g_basetime c) (c_errno c).

Definition clock_systimer (c : clock_s) : Z := g_system_timer c.

Definition clock_gettime (clock_id : Z) (c : clock_s) : (Z + timespec) * clock_s :=
  if clock_id =? CLOCK_REALTIME then
    let msecs := u32 (MSEC_PER_TICK * u32 (g_system_timer c - g_tickbias c)) in
    let secs := msecs / MSEC_PER_SEC in
    let nsecs := u32 (u32 (msecs - u32 (secs * MSEC_PER_SEC)) * NSEC_PER_MSEC) in
    let secs := u32 (secs + tv_sec (g_basetime c)) in
    let nsecs := u32 (nsecs + u32 (tv_nsec (g_basetime c))) in
    let '(secs, nsecs) :=
      if nsecs >? NSEC_PER_SEC then
        let carry := nsecs / NSEC_PER_SEC in
        (u32 (secs + carry), u32 (nsecs - u32 (carry * NSEC_PER_SEC)))
      else (secs, nsecs) in
    (inr (Timespec secs (s32 nsecs)), c)
  else (inl EINVAL, fail_einval c).

Definition clock_settime (clock_id : Z) (tp : timespec) (c : clock_s) : (Z + unit) * clock_s :=
  if clock_id =? CLOCK_REALTIME then
    (inr tt, ClockS (g_system_timer c) (g_system_timer c) tp (c_errno c))
  else (inl EINVAL, fail_einval c).

Definition clock_getres (clock_id : Z) (c : clock_s) : (Z + timespec) * clock_s :=
  if negb (clock_id =? CLOCK_REALTIME) then (inl EINVAL, fail_einval c)
  else (inr (Timespec 0 (s32 (u32 (MSEC_PER_TICK * NSEC_PER_MSEC)))), c).

Definition gettimeofday (c : clock_s) : (Z + timeval) * clock_s :=
  match clock_gettime CLOCK_REALTIME c with
  | (inr ts, c) => (inr (Timeval (tv_sec ts) (Z.quot (tv_nsec ts) NSEC_PER_USEC)), c)
  | (inl e, c) => (inl e, c)
  end.

(** [time]: the seconds, or [(time_t)ERROR]. *)
Definition time (c : clock_s) : Z * clock_s :=
  match gettimeofday c with
  | (inr tv, c) => (tval_sec tv, c)
  | (inl _, c) => (u32 (-1), c)
  end.

Definition clock_time2ticks (reltime : timespec) : Z :=
  let relusec := s32 (u32 (u32 (tv_sec reltime * USEC_PER_SEC) + u32 (Z.quot (tv_nsec reltime) NSEC_PER_USEC))) in
  Z.quot relusec USEC_PER_TICK.

Definition clock_ticks2time (ticks : Z) : timespec :=
  let sec := u32 (Z.quot ticks TICK_PER_SEC) in
  let remainder := s32 (u32 (u32 ticks - u32 (TICK_PER_SEC * sec))) in
  Timespec sec (s32 (remainder * NSEC_PER_TICK)).

Definition clock_abstime2ticks (clockid : Z) (abstime : timespec) (c : clock_s) : (Z + Z) * clock_s :=
  match clock_gettime clockid c with
  | (inl _, c) => (inl EINVAL, c)
  | (inr currtime, c) =>
      let nsec := s32 (tv_nsec abstime - tv_nsec currtime) in
      let sec := u32 (tv_sec abstime - tv_sec currtime) in
      let '(sec, nsec) := if nsec <? 0 then (u32 (sec - 1), s32 (nsec + NSEC_PER_SEC)) else (sec, nsec) in
      (inr (clock_time2ticks (Timespec sec nsec)), c)
  end.

(** ** Times as numbers of nanoseconds *)

Definition nanos (t : timespec) : Z := tv_sec t * NSEC_PER_SEC + tv_nsec t.
Definition timespec_ok (t : timespec) : Prop := 0 <= tv_sec t < 2 ^ 32 /\ 0 <= tv_nsec t < NSEC_PER_SEC.

(** A state of the clock: the counters are words and the base time is normal. *)
Definition clock_ok (c : clock_s) : Prop :=
  0 <= g_system_timer c < 2 ^ 32 /\ 0 <= g_tickbias c < 2 ^ 32 /\ timespec_ok (g_basetime c).

(** The ticks since the time was set. *)
Definition elapsed (c : clock_s) : Z := (g_system_timer c - g_tickbias c) mod 2 ^ 32.

(** The time the clock shows. *)
Definition now (c : clock_s) : Z := nanos (g_basetime c) + elapsed c * NSEC_PER_TICK.

Ltac clock_unfold :=
  unfold NSEC_PER_TICK, USEC_PER_TICK, TICK_PER_SEC, MSEC_PER_TICK, NSEC_PER_SEC, USEC_PER_SEC, MSEC_PER_SEC, NSEC_PER_MSEC,
    USEC_PER_MSEC, NSEC_PER_USEC in *.

Lemma gettime_now c :
  clock_ok c -> elapsed c * MSEC_PER_TICK < 2 ^ 32 -> now c < 2 ^ 32 * NSEC_PER_SEC ->
  exists ts, clock_gettime CLOCK_REALTIME c = (inr ts, c) /\ nanos ts = now c
  /\ 0 <= tv_sec ts < 2 ^ 32 /\ 0 <= tv_nsec ts <= NSEC_PER_SEC.
Proof.
  intros (Ht & Hb & Hs & Hn) He Hnow. unfold clock_gettime, CLOCK_REALTIME. rewrite Z.eqb_refl.
  unfold now, nanos in *. fold (u32 (g_system_timer c - g_tickbias c)) in *. unfold elapsed in *.
  change ((g_system_timer c - g_tickbias c) mod 2 ^ 32) with (u32 (g_system_timer c - g_tickbias c)) in *.
  assert (0 <= u32 (g_system_timer c - g_tickbias c)) as He0 by (apply Z.mod_pos_bound; lia).
  remember (u32 (g_system_timer c - g_tickbias c)) as e eqn:Ee. clear Ee. clock_unfold.
  remember (tv_sec (g_basetime c)) as bs eqn:Es. remember (tv_nsec (g_basetime c)) as bn eqn:En. clear Es En.
  rewrite (u32_id (10 * e)) by lia. assert (10 * e / 1000 = e / 100) as -> by zdm.
  rewrite (u32_id (e / 100 * 1000)) by zdm. rewrite (u32_id (10 * e - _)) by zdm. rewrite (u32_id ((10 * e - _) * _)) by zdm.
  rewrite (u32_id (e / 100 + bs)) by zdm. rewrite (u32_id bn) by lia. rewrite (u32_id (_ + bn)) by zdm.
  remember (e / 100) as q eqn:Eq. assert (0 <= e - 100 * q < 100) as Hq by (subst; zdm). clear Eq.
  destruct (Z.gtb_spec ((10 * e - q * 1000) * 1000000 + bn) 1000000000) as [Hc|Hc].
  - assert (((10 * e - q * 1000) * 1000000 + bn) / 1000000000 = 1) as -> by zdm.
    rewrite (u32_id (q + bs + 1)), (u32_id (1 * _)), (u32_id (_ - _)), s32_id by (unfold INT_MAX; lia).
    eexists. split; [done|]. simpl. lia.
  - rewrite s32_id by (unfold INT_MAX; lia). eexists. split; [done|]. simpl. lia.
Qed.

Lemma ticks_elapsed n c :
  clock_ok c -> let c' := Nat.iter n clock_timer c in
  clock_ok c' /\ g_tickbias c' = g_tickbias c /\ g_basetime c' = g_basetime c
  /\ elapsed c' = (elapsed c + Z.of_nat n) mod 2 ^ 32.
Proof.
  intros Hc. induction n as [|n (H1 & H2 & H3 & H4)]; simpl Nat.iter; cbv zeta.
  - split; [done|]. split; [done|]. split; [done|]. unfold elapsed. zdm.
  - cbv zeta in H1, H2, H3, H4. remember (Nat.iter n clock_timer c) as c1 eqn:E1. clear E1.
    split; [|split; [done|split; [done|]]].
    + destruct H1 as (Ht & Hb & Hs). split; [|done]. apply Z.mod_pos_bound. lia.
    + unfold elapsed in *. simpl. unfold u32. rewrite Zminus_mod_idemp_l.
      replace (g_system_timer c1 + 1 - g_tickbias c1) with (g_system_timer c1 - g_tickbias c1 + 1) by lia.
      rewrite <-Zplus_mod_idemp_l, H4, Zplus_mod_idemp_l, Zplus_mod_idemp_l.
      rewrite <-(Zplus_mod_idemp_l (g_system_timer c - _)). f_equal. lia.
Qed.

(** C18: The clock keeps time: after clock_settime and [n] timer interrupts (n ticks of 10 ms, less than
    2^32 ms) clock_gettime returns the time that was set plus n ticks, also when the tick counter wraps in
    between; the nanoseconds are at most a full second. *)
Theorem clock_tracks_time n tp c c' :
  clock_ok c -> timespec_ok tp -> clock_settime CLOCK_REALTIME tp c = (inr tt, c') ->
  Z.of_nat n * MSEC_PER_TICK < 2 ^ 32 -> nanos tp + Z.of_nat n * NSEC_PER_TICK < 2 ^ 32 * NSEC_PER_SEC ->
  exists ts, fst (clock_gettime CLOCK_REALTIME (Nat.iter n clock_timer c')) = inr ts
  /\ nanos ts = nanos tp + Z.of_nat n * NSEC_PER_TICK /\ 0 <= tv_nsec ts <= NSEC_PER_SEC.
Proof.
  intros (Ht & Hb & Hs) Htp E Hn Hlim. unfold clock_settime, CLOCK_REALTIME in E. rewrite Z.eqb_refl in E. injection E as <-.
  destruct (ticks_elapsed n (ClockS (g_system_timer c) (g_system_timer c) tp (c_errno c))) as (H1 & H2 & H3 & H4); [done|].
  cbv zeta in *. remember (Nat.iter _ _ _) as c1 eqn:E1. clear E1.
  assert (elapsed c1 = Z.of_nat n) as En.
  { rewrite H4. unfold elapsed. simpl. rewrite Z.sub_diag. change (0 mod 2 ^ 32) with 0. clock_unfold. rewrite Z.mod_small; lia. }
  destruct (gettime_now c1) as (ts & Ets & Hnow & _ & Hns); [done|by rewrite En|unfold now; by rewrite H3, En|].
  exists ts. rewrite Ets. split; [done|]. split; [|done]. rewrite Hnow. unfold now. by rewrite H3, En.
Qed.

Lemma clock_tracks_time_witness :
  exists ts, fst (clock_gettime CLOCK_REALTIME (Nat.iter 150 clock_timer (ClockS (2 ^ 32 - 100) (2 ^ 32 - 100) (Timespec 5 700000000) 0))) = inr ts
  /\ nanos ts = 7200000000 /\ 0 <= tv_nsec ts <= NSEC_PER_SEC.
Proof.
  apply (clock_tracks_time 150 (Timespec 5 700000000) (ClockS (2 ^ 32 - 100) 7 (Timespec 0 0) 0));
    [repeat split; simpl; lia|repeat split; simpl; lia|reflexivity|clock_unfold; lia|unfold nanos; clock_unfold; simpl; lia].
Defined.

(** The carry into the seconds is missed at exactly one second: the nanoseconds returned are not normal. *)
Lemma gettime_not_normal :
  fst (clock_gettime CLOCK_REALTIME (ClockS 1 0 (Timespec 5 990000000) 0)) = inr (Timespec 5 1000000000).
Proof. by vm_compute. Qed.

Lemma time2ticks_spec t :
  0 <= tv_sec t -> 0 <= tv_nsec t <= NSEC_PER_SEC -> nanos t / NSEC_PER_USEC <= INT_MAX ->
  clock_time2ticks t = nanos t / NSEC_PER_TICK.
Proof.
  intros Hs Hn Hmax. unfold clock_time2ticks, nanos in *. clock_unfold. unfold INT_MAX in *.
  rewrite (Z.quot_div_nonneg (tv_nsec t)) by lia. rewrite (u32_id (_ * 1000000)) by zdm. rewrite (u32_id (_ / 1000)) by zdm.
  rewrite u32_id by zdm. rewrite s32_id by (unfold INT_MAX; zdm). rewrite Z.quot_div_nonneg by zdm. zdm.
Qed.

(** Ticks and times convert into each other: up to 214748 ticks clock_time2ticks inverts
    clock_ticks2time, and clock_abstime2ticks of a time no earlier than now and at most INT_MAX
    microseconds away is the number of whole ticks left until then. *)
Theorem clock_ticks_exact c abstime ticks :
  clock_ok c -> elapsed c * MSEC_PER_TICK < 2 ^ 32 -> timespec_ok abstime ->
  now c <= nanos abstime -> (nanos abstime - now c) / NSEC_PER_USEC <= INT_MAX -> 0 <= ticks <= 214748 ->
  clock_time2ticks (clock_ticks2time ticks) = ticks
  /\ nanos (clock_ticks2time ticks) = ticks * NSEC_PER_TICK
  /\ clock_abstime2ticks CLOCK_REALTIME abstime c = (inr ((nanos abstime - now c) / NSEC_PER_TICK), c).
Proof.
  intros Hc He [Has Han] Hle Hmax Ht.
  assert (nanos (clock_ticks2time ticks) = ticks * NSEC_PER_TICK
          /\ 0 <= tv_sec (clock_ticks2time ticks) /\ 0 <= tv_nsec (clock_ticks2time ticks) < NSEC_PER_SEC) as (E & Hs & Hn).
  { unfold clock_ticks2time, nanos. clock_unfold. simpl. change (1000 / 10) with 100. rewrite Z.quot_div_nonneg by lia.
    rewrite !(u32_id (ticks / 100)) by zdm. rewrite (u32_id (100 * _)), (u32_id ticks) by zdm. rewrite u32_id by zdm.
    rewrite (s32_id (_ - _)), s32_id by (unfold INT_MAX; zdm). zdm. }
  split; [|split; [done|]].
  - rewrite time2ticks_spec; [rewrite E; clock_unfold; rewrite Z.div_mul; lia|done|lia|]. rewrite E. clock_unfold. unfold INT_MAX. zdm.
  - destruct (gettime_now c Hc He) as (ts & Ets & Hnow & Hts & Htn); [unfold nanos in Hle; clock_unfold; lia|].
    unfold clock_abstime2ticks. rewrite Ets. rewrite <-Hnow in *. clear Hnow Ets E Hs Hn Hc. unfold nanos in *. clock_unfold.
    rewrite (s32_id (_ - _)) by (unfold INT_MAX; lia).
    assert (tv_sec ts <= tv_sec abstime) by lia. rewrite (u32_id (tv_sec abstime - tv_sec ts)) by lia.
    destruct (Z.ltb_spec (tv_nsec abstime - tv_nsec ts) 0) as [Hb|Hb].
    + rewrite u32_id, s32_id by (unfold INT_MAX; lia).
      rewrite time2ticks_spec; unfold nanos; simpl; clock_unfold; [do 3 f_equal; lia|lia|lia|].
      etrans; [|exact Hmax]. apply Z.div_le_mono; lia.
    + rewrite time2ticks_spec; unfold nanos; simpl; clock_unfold; [do 3 f_equal; lia|lia|lia|].
      etrans; [|exact Hmax]. apply Z.div_le_mono; lia.
Qed.

Lemma clock_ticks_exact_witness :
  clock_time2ticks (clock_ticks2time 12345) = 12345
  /\ nanos (clock_ticks2time 12345) = 12345 * NSEC_PER_TICK
  /\ clock_abstime2ticks CLOCK_REALTIME (Timespec 9 15000000) (ClockS 130 0 (Timespec 5 700000000) 0)
     = (inr ((nanos (Timespec 9 15000000) - now (ClockS 130 0 (Timespec 5 700000000) 0)) / NSEC_PER_TICK), ClockS 130 0 (Timespec 5 700000000) 0).
Proof.
  apply (clock_ticks_exact (ClockS 130 0 (Timespec 5 700000000) 0) (Timespec 9 15000000) 12345);
    [repeat split; simpl; lia|vm_compute; reflexivity|repeat split; simpl; lia|vm_compute; discriminate|vm_compute; discriminate|lia].
Defined.

(** A delay of 2148 seconds is more microseconds than an int32_t holds: the ticks are negative. *)
Lemma time2ticks_overflow : clock_time2ticks (Timespec 2148 0) = -214696.
Proof. by vm_compute. Qed.
