(* ===== verification/KHeap.v ===== *)
(** * The kernel heap as its clients see it

    [KHeap] names the calls of the memory manager that the other kernel parts
    use (kmalloc, kzalloc, krealloc, kfree and the lock of src/nuttx/mm/mm_sem.c), and [KHeapSpec]
    what they may rely on: the heap is a collection of blocks, a new block is
    apart from the others.  The memory manager is an instance. *)

From S2P Require Import Prelude Queue Mm MmInv MmHeap MmAlloc MmInit MmInfo MmBlocks MmRealloc MmAlign MmSpec.

(** A block: its start and the bytes it offers. *)
Definition owns (b : Z * Z) (x : Z) : Prop := b.1 <= x < b.1 + b.2.

Class KHeap (H : Type) : Type := {
  kmalloc : Z -> Z -> H -> res (ptr * H);
  kzalloc : Z -> Z -> H -> res (ptr * H);
  krealloc : Z -> ptr -> Z -> H -> res (ptr * H);
  kfree : Z -> ptr -> H -> res H;
  kmm_trysemaphore : Z -> H -> bool * H;
  kmm_givesemaphore : Z -> H -> res H
}.

(** [heap_rep o h bl]: the live blocks are [bl]; [o] is the task that holds the
    lock of the heap. *)
Class KHeapSpec (H : Type) `{KHeap H} : Type := {
  heap_rep : option Z -> H -> list (Z * Z) -> Prop;
  heap_perm o h bl bl' : bl ≡ₚ bl' -> heap_rep o h bl -> heap_rep o h bl';
  heap_apart o h c bl : heap_rep o h (c :: bl) -> forall d x, d ∈ bl -> owns c x -> ~ owns d x;
  kmalloc_ok pid size h bl :
    0 <= pid -> 0 < size -> size + 23 < 2 ^ 32 -> heap_rep None h bl ->
    wp (kmalloc pid size h) (fun '(p, h') =>
      (p = NULL /\ heap_rep None h' bl)
      \/ exists s, 0 < p /\ size <= s /\ heap_rep None h' ((p, s) :: bl)
           /\ (forall d x, d ∈ bl -> owns (p, s) x -> ~ owns d x));
  kzalloc_ok pid size h bl :
    0 <= pid -> 0 < size -> size + 23 < 2 ^ 32 -> heap_rep None h bl ->
    wp (kzalloc pid size h) (fun '(p, h') =>
      (p = NULL /\ heap_rep None h' bl)
      \/ exists s, 0 < p /\ size <= s /\ heap_rep None h' ((p, s) :: bl)
           /\ (forall d x, d ∈ bl -> owns (p, s) x -> ~ owns d x));
  krealloc_ok pid size h c bl :
    0 <= pid -> 0 < size -> size + 47 < 2 ^ 32 -> heap_rep None h (c :: bl) ->
    wp (krealloc pid c.1 size h) (fun '(p, h') =>
      (p = NULL /\ heap_rep None h' (c :: bl))
      \/ exists s, 0 < p /\ size <= s /\ heap_rep None h' ((p, s) :: bl)
           /\ (forall d x, d ∈ bl -> owns (p, s) x -> ~ owns d x));
  kfree_ok o pid h c bl :
    0 <= pid -> o = None \/ o = Some pid -> heap_rep o h (c :: bl) -> wp (kfree pid c.1 h) (fun h' => heap_rep o h' bl);
  ktry_ok pid h bl :
    0 <= pid -> heap_rep None h bl -> exists h', kmm_trysemaphore pid h = (true, h') /\ heap_rep (Some pid) h' bl;
  kgive_ok pid h bl :
    heap_rep (Some pid) h bl -> wp (kmm_givesemaphore pid h) (fun h' => heap_rep None h' bl)
}.

(** A new block is none of the old ones. *)
Lemma fresh_block (bl : list (Z * Z)) p sz :
  (forall b, b ∈ bl -> 0 < b.1 /\ 0 < b.2) -> 0 < sz -> (forall d x, d ∈ bl -> owns (p, sz) x -> ~ owns d x) -> p ∉ bl.*1.
Proof.
  intros Hb Hsz Hd Hp. apply list_elem_of_fmap in Hp as (b & -> & Hin). destruct (Hb b Hin) as [_ H2].
  apply (Hd b b.1 Hin); unfold owns; simpl; lia.
Qed.

(** ** A part of the heap *)

(** What a client may rely on when the blocks [ext] belong to others. *)
#[program] Definition framed {H : Type} {HK : KHeap H} {HS : KHeapSpec H} (ext : list (Z * Z)) : KHeapSpec H :=
  {| heap_rep o h bl := heap_rep o h (bl ++ ext) |}.
Next Obligation. intros H HK HS ext o h bl bl' Hp. apply heap_perm. by rewrite Hp. Qed.
Next Obligation. intros H HK HS ext o h c bl Hh d x Hd. apply (heap_apart o h c (bl ++ ext) Hh). apply elem_of_app. by left. Qed.
Next Obligation.
  intros H HK HS ext pid size h bl Hp H0 H1 Hh. eapply wp_mono; [by apply (kmalloc_ok pid size h (bl ++ ext))|].
  intros [p h'] [Hn|(s & Hp0 & Hs & Hr & Hd)]; [by left|right]. exists s. split; [done|]. split; [done|]. split; [done|].
  intros d x Hx. apply Hd, elem_of_app. by left.
Qed.
Next Obligation.
  intros H HK HS ext pid size h bl Hp H0 H1 Hh. eapply wp_mono; [by apply (kzalloc_ok pid size h (bl ++ ext))|].
  intros [p h'] [Hn|(s & Hp0 & Hs & Hr & Hd)]; [by left|right]. exists s. split; [done|]. split; [done|]. split; [done|].
  intros d x Hx. apply Hd, elem_of_app. by left.
Qed.
Next Obligation.
  intros H HK HS ext pid size h c bl Hp H0 H1 Hh. eapply wp_mono; [by apply (krealloc_ok pid size h c (bl ++ ext))|].
  intros [p h'] [Hn|(s & Hp0 & Hs & Hr & Hd)]; [by left|right]. exists s. split; [done|]. split; [done|]. split; [done|].
  intros d x Hx. apply Hd, elem_of_app. by left.
Qed.
Next Obligation. intros H HK HS ext o pid h c bl. apply (kfree_ok o pid h c (bl ++ ext)). Qed.
Next Obligation. intros H HK HS ext pid h bl. apply ktry_ok. Qed.
Next Obligation. intros H HK HS ext pid h bl. apply kgive_ok. Qed.

(** ** Delayed deallocation *)

(** [sched_free] (src/nuttx/sched/sched_free.c) outside interrupt handlers: the
    block is freed, or put in the list of delayed ones when the lock is taken. *)
Definition sched_free_block {H : Type} {HK : KHeap H} (me : Z) (p : ptr) (h : H) (delayed : list ptr) : res (H * list ptr) :=
  match kmm_trysemaphore me h with
  | (false, _) => Ok (h, delayed ++ [p])
  | (true, h) =>
      h ← kfree me p h;
      h ← kmm_givesemaphore me h;
      Ok (h, delayed)
  end.

Lemma sched_free_block_ok {H : Type} {HK : KHeap H} {HS : KHeapSpec H} me h c bl delayed :
  0 <= me -> heap_rep None h (c :: bl) -> wp (sched_free_block me c.1 h delayed) (fun '(h', d) => heap_rep None h' bl /\ d = delayed).
Proof.
  intros Hme Hh. unfold sched_free_block. destruct (ktry_ok me h (c :: bl) Hme Hh) as (h1 & -> & Hh1). apply wp_bind.
  eapply wp_mono; [apply (kfree_ok (Some me) me h1 c bl); [done|by right|done]|]. intros h2 Hh2. apply wp_bind.
  eapply wp_mono; [apply (kgive_ok me h2 bl Hh2)|]. intros h3 Hh3. by apply wp_ret.
Qed.

(** ** The memory manager *)

#[export] Instance mm_kheap : KHeap mm_state := {
  kmalloc := malloc;
  kzalloc := zalloc;
  krealloc := realloc;
  kfree := free;
  kmm_trysemaphore pid st := let '(b, lk) := mm_trysemaphore pid (mm_lock st) in (b, set_lock lk st);
  kmm_givesemaphore pid st := lk ← mm_givesemaphore pid (mm_lock st); Ok (set_lock lk st)
}.

Definition lock_of (o : option Z) : mm_sem :=
  match o with
  | None => mm_seminitialize
  | Some pid => MmSem 0 pid 1
  end.

Definition usable (b : Z * Z) : Z * Z := (b.1, b.2 - SIZEOF_MM_ALLOCNODE).

Definition mm_rep (o : option Z) (st : mm_state) (bl : list (Z * Z)) : Prop :=
  exists rs, mm_ok 16 st rs /\ usable <$> blocks rs ≡ₚ bl /\ mm_lock st = lock_of o.

Lemma mm_rep_step o st st' rs rs' bl :
  mm_ok 16 st rs -> mm_lock st = lock_of o -> st' = set_bytes (mm_bytes st') (set_nodes (mm_nodes st') st) ->
  heap_ok 16 (mm_nodes st') (g_nodelist st) rs' -> footprint <$> rs' = footprint <$> rs -> usable <$> blocks rs' ≡ₚ bl -> mm_rep o st' bl.
Proof. intros Hok Hl E Hok' Hf Hb. exists rs'. rewrite E. split; [by eapply mm_ok_step|done]. Qed.

Lemma mm_rep_lock o st bl rs lk :
  mm_ok 16 st rs -> usable <$> blocks rs ≡ₚ bl -> lock_wf lk -> lk = lock_of o -> mm_rep o (set_lock lk st) bl.
Proof. intros [A B C D] Hb Hw ->. exists rs. split; [by split|]. by split. Qed.

Lemma block_pos g m base rs p s : heap_ok g m base rs -> (p, s) ∈ blocks rs -> 0 < p.
Proof.
  intros Hok Hin. destruct (blocks_elem g rs p s (ho_regions _ _ _ _ Hok) Hin) as (R1 & a & l1 & l2 & R2 & -> & _ & _ & -> & _).
  destruct (region_sizes _ _ _ (heap_region _ _ _ _ _ _ Hok)) as (Ha & Hp & _). apply Forall_app in Hp as [Hp _].
  pose proof (total_nonneg _ Hp). unfold SIZEOF_MM_ALLOCNODE. lia.
Qed.

(** What the two ways to allocate promise. *)
Definition alloc_post (size : Z) (bl : list (Z * Z)) (r : ptr * mm_state) : Prop :=
  let '(p, st') := r in
  (p = NULL /\ mm_rep None st' bl)
  \/ exists s, 0 < p /\ size <= s /\ mm_rep None st' ((p, s) :: bl) /\ (forall d x, d ∈ bl -> owns (p, s) x -> ~ owns d x).

Lemma mm_alloc_post size st st' bl rs rs' p s :
  mm_ok 16 st rs -> usable <$> blocks rs ≡ₚ bl -> mm_lock st = mm_seminitialize -> 0 < size -> size + 23 < 2 ^ 32 ->
  blocks rs' ≡ₚ (p, s) :: blocks rs -> need_of size <= s -> footprint <$> rs' = footprint <$> rs ->
  heap_ok 16 (mm_nodes st') (g_nodelist st) rs' -> st' = set_bytes (mm_bytes st') (set_nodes (mm_nodes st') st) -> alloc_post size bl (p, st').
Proof.
  intros Hok Hb Hl H0 H1 Hb' Hs Hf Hok' E. destruct (need_of_spec size) as (_ & Hn & _); [lia|lia|]. right. exists (s - SIZEOF_MM_ALLOCNODE).
  split; [eapply (block_pos 16 _ _ rs' p s); [exact Hok'|rewrite Hb'; left]|]. split; [unfold SIZEOF_MM_ALLOCNODE; lia|]. split.
  - eapply (mm_rep_step None); [exact Hok|exact Hl|exact E|exact Hok'|exact Hf|]. by rewrite Hb', fmap_cons, Hb.
  - intros d x Hd Hx Hx'. rewrite <-Hb in Hd. apply list_elem_of_fmap in Hd as (d' & -> & Hd').
    by eapply (blocks_disjoint 16 _ _ rs' (p, s) (blocks rs) d' x).
Qed.

Lemma mm_kmalloc_ok pid size st bl :
  0 <= pid -> 0 < size -> size + 23 < 2 ^ 32 -> mm_rep None st bl -> wp (malloc pid size st) (alloc_post size bl).
Proof.
  intros Hp H0 H1 (rs & Hok & Hb & Hl).
  assert (lock_available pid (mm_lock st)) as Hla by (rewrite Hl; split; [done|]; split; [by left|by left]).
  eapply wp_mono; [eapply (malloc_blocks 16); [apply Hok|done|done|lia|lia]|].
  intros [p st'] [(-> & -> & _)|(s & rs' & Hpn & Hb' & Hs & Hf & Hst)]; [left; split; [done|by exists rs]|].
  destruct (heap_step_state _ _ _ _ Hst) as (E & _ & Hok'). by eapply (mm_alloc_post size st st' bl rs rs').
Qed.

Lemma mm_kzalloc_ok pid size st bl :
  0 <= pid -> 0 < size -> size + 23 < 2 ^ 32 -> mm_rep None st bl -> wp (zalloc pid size st) (alloc_post size bl).
Proof.
  intros Hp H0 H1 (rs & Hok & Hb & Hl).
  assert (lock_available pid (mm_lock st)) as Hla by (rewrite Hl; split; [done|]; split; [by left|by left]).
  eapply wp_mono; [eapply (zalloc_spec 16); [apply Hok|done|done|lia|lia]|].
  intros [p st'] [(-> & -> & _)|(s & rs' & Hpn & Hb' & Hs & Hf & Hok' & E & _)]; [left; split; [done|by exists rs]|].
  by eapply (mm_alloc_post size st st' bl rs rs').
Qed.

(** One of the blocks, before the header is taken off, and the others. *)
Lemma mm_rep_split rs c bl : usable <$> blocks rs ≡ₚ c :: bl -> exists b bs, c = usable b /\ blocks rs ≡ₚ b :: bs /\ usable <$> bs ≡ₚ bl.
Proof.
  intros Hb. assert (c ∈ usable <$> blocks rs) as Hc by (rewrite Hb; left). apply list_elem_of_fmap in Hc as (b & -> & Hin).
  apply elem_of_Permutation in Hin as [bs Ho]. exists b, bs. split; [done|]. split; [done|]. rewrite Ho, fmap_cons in Hb. by apply Permutation_cons_inv in Hb.
Qed.

Lemma mm_krealloc_ok pid size st c bl :
  0 <= pid -> 0 < size -> size + 47 < 2 ^ 32 -> mm_rep None st (c :: bl) ->
  wp (realloc pid c.1 size st) (fun '(p, st') =>
    (p = NULL /\ mm_rep None st' (c :: bl))
    \/ exists s, 0 < p /\ size <= s /\ mm_rep None st' ((p, s) :: bl) /\ (forall d x, d ∈ bl -> owns (p, s) x -> ~ owns d x)).
Proof.
  intros Hp H0 H1 (rs & Hok & Hb & Hl).
  assert (lock_available pid (mm_lock st)) as Hla by (rewrite Hl; split; [done|]; split; [by left|by left]).
  destruct (mm_rep_split rs c bl Hb) as ([old s] & o & -> & Ho & Ho').
  eapply wp_mono; [apply (realloc_spec pid size st rs old s o); [apply Hok|done|done|lia|lia]|].
  intros [p st'] [(-> & -> & _)|(s' & rs' & Hpn & Hb' & Hs & Hf & Hok' & E & _)]; [left; split; [done|by exists rs]|].
  destruct (need_of_spec size) as (_ & Hn & _); [lia|lia|]. right. exists (s' - SIZEOF_MM_ALLOCNODE).
  split; [eapply (block_pos 16 _ _ rs' p s'); [exact Hok'|rewrite Hb'; left]|]. split; [unfold SIZEOF_MM_ALLOCNODE; lia|]. split.
  - eapply (mm_rep_step None); [exact Hok|exact Hl|exact E|exact Hok'|exact Hf|]. by rewrite Hb', fmap_cons, Ho'.
  - intros d x Hd Hx Hx'. rewrite <-Ho' in Hd. apply list_elem_of_fmap in Hd as (d' & -> & Hd').
    by eapply (blocks_disjoint 16 _ _ rs' (p, s') o d' x).
Qed.

Lemma mm_kfree_ok o pid st c bl :
  0 <= pid -> o = None \/ o = Some pid -> mm_rep o st (c :: bl) -> wp (free pid c.1 st) (fun st' => mm_rep o st' bl).
Proof.
  intros Hp Ho (rs & Hok & Hb & Hl).
  assert (lock_available pid (mm_lock st)) as Hla.
  { rewrite Hl. split; [done|]. destruct Ho as [->| ->]; (split; [|simpl; tauto]); [by left|right; simpl; lia]. }
  assert (c ∈ usable <$> blocks rs) as Hc by (rewrite Hb; left).
  apply list_elem_of_fmap in Hc as ([p s] & -> & Hin). simpl.
  eapply wp_mono; [eapply (free_blocks 16 pid p s st rs); [apply Hok|done|done]|].
  intros st' (rs' & Hb' & Hf & Hst). destruct (heap_step_state _ _ _ _ Hst) as (E & _ & Hok').
  eapply (mm_rep_step o); [exact Hok|exact Hl|exact E|exact Hok'|exact Hf|].
  rewrite Hb', fmap_cons in Hb. by apply Permutation_cons_inv in Hb.
Qed.

#[export] Program Instance mm_kheap_spec : KHeapSpec mm_state := { heap_rep := mm_rep }.
Next Obligation. intros o st bl bl' Hp (rs & Hok & Hb & Hl). exists rs. by rewrite <-Hp. Qed.
Next Obligation.
  intros o st c bl (rs & Hok & Hb & Hl) d x Hd Hx Hx'. destruct (mm_rep_split rs c bl Hb) as (b & bs & -> & Hbs & Ho).
  rewrite <-Ho in Hd. apply list_elem_of_fmap in Hd as (d' & -> & Hd'). by eapply (blocks_disjoint 16 _ _ rs b bs d' x); [apply Hok|..].
Qed.
Next Obligation. apply mm_kmalloc_ok. Qed.
Next Obligation. apply mm_kzalloc_ok. Qed.
Next Obligation. apply mm_krealloc_ok. Qed.
Next Obligation. apply mm_kfree_ok. Qed.
Next Obligation.
  intros pid st bl Hp (rs & Hok & Hb & Hl). exists (set_lock (MmSem 0 pid 1) st). cbn [kmm_trysemaphore mm_kheap].
  rewrite Hl. unfold mm_trysemaphore, lock_of, mm_seminitialize. cbn [g_holder mm_semaphore].
  rewrite (proj2 (Z.eqb_neq (-1) pid)) by lia. split; [done|]. eapply mm_rep_lock; [done|done| |done]. right. simpl. lia.
Qed.
Next Obligation.
  intros pid st bl (rs & Hok & Hb & Hl). simpl. rewrite Hl. unfold mm_givesemaphore. simpl. rewrite Z.eqb_refl. simpl.
  eapply mm_rep_lock; [done|done|by left|done].
Qed.
