(* ===== verification/Mq.v ===== *)
(** * Message queues: operations (src/nuttx/sched/mq_*.c, sched_free.c)

    Messages are taken from the free lists or from the kernel heap (the
    interface [KHeap]), wait in the queue by priority and go back when they are
    received.  The build has CONFIG_MQ_MAXMSGSIZE = 32, CONFIG_PREALLOC_MQ_MSGS
    = 32, debug checks and no signals.  [mq_send] and [mq_receive] are cut where
    the caller is suspended: they return [MqBlocked] after the call of
    [up_block_task], and [mq_send_resumed] and [mq_receive_resumed] are the
    rest, run when the caller is the running task again. *)

From S2P Require Import Prelude Queue Sched Sem KHeap.

Definition MQ_MAX_BYTES : Z := 32.
Definition MQ_PRIO_MAX : Z := 255.
Definition NUM_INTERRUPT_MSGS : Z := 8.
Definition PREALLOC_MQ_MSGS : Z := 32.
Definition O_NONBLOCK : Z := 64.
Definition EMSGSIZE : Z := 90.

Definition MQ_ALLOC_FIXED : Z := 0.
Definition MQ_ALLOC_DYN : Z := 1.
Definition MQ_ALLOC_IRQ : Z := 2.

Record mqmsg : Type := MqMsg {
  m_next : ptr;
  m_type : Z;
  m_priority : Z;
  m_msglen : Z;
  m_mail : list Z
}.

(** The size of a message structure: the link, three bytes and the mail, aligned. *)
Definition SIZEOF_MQMSG : Z := 40.

(** The structure at memory that was not a message before; what is in it is
    not read before it is written. *)
Definition raw_msg : mqmsg := MqMsg NULL 0 0 0 (replicate (Z.to_nat MQ_MAX_BYTES) 0).

Definition set_type (t : Z) (n : mqmsg) : mqmsg := MqMsg (m_next n) t (m_priority n) (m_msglen n) (m_mail n).
Definition set_header (p l : Z) (n : mqmsg) : mqmsg := MqMsg (m_next n) (m_type n) p l (m_mail n).
Definition set_mail (d : list Z) (n : mqmsg) : mqmsg := MqMsg (m_next n) (m_type n) (m_priority n) (m_msglen n) d.

#[export] Program Instance mqmsg_linked : SLinked mqmsg := {
  sflink := m_next;
  set_sflink p n := MqMsg p (m_type n) (m_priority n) (m_msglen n) (m_mail n)
}.
Solve All Obligations with done.

Record msgq_s : Type := Msgq {
  msglist : sq_queue;
  maxmsgs : Z;
  nmsgs : Z;
  nwaitnotfull : Z;
  nwaitnotempty : Z;
  maxmsgsize : Z
}.

Definition set_msglist (q : sq_queue) (g : msgq_s) : msgq_s := Msgq q (maxmsgs g) (nmsgs g) (nwaitnotfull g) (nwaitnotempty g) (maxmsgsize g).
Definition set_nmsgs (n : Z) (g : msgq_s) : msgq_s := Msgq (msglist g) (maxmsgs g) n (nwaitnotfull g) (nwaitnotempty g) (maxmsgsize g).
Definition set_nwaitnotfull (n : Z) (g : msgq_s) : msgq_s := Msgq (msglist g) (maxmsgs g) (nmsgs g) n (nwaitnotempty g) (maxmsgsize g).
Definition set_nwaitnotempty (n : Z) (g : msgq_s) : msgq_s := Msgq (msglist g) (maxmsgs g) (nmsgs g) (nwaitnotfull g) n (maxmsgsize g).

Record mq_des : Type := MqDes { d_msgq : ptr; d_oflags : Z }.

Record mq_sys {H : Type} : Type := MqSys {
  q_sys : sem_sys;
  q_msgs : gmap Z mqmsg;
  q_msgqs : gmap Z msgq_s;
  q_des : gmap Z mq_des;
  g_msgfree : sq_queue;
  g_msgfreeirq : sq_queue;
  g_delayeddeallocations : sq_queue;
  q_heap : H
}.
Arguments mq_sys H : clear implicits.

Section ops.
  Context {H : Type} {HK : KHeap H} `{SchedConfig}.
  Implicit Types (s : mq_sys H).

Definition q_kernel s : kernel := s_kernel (q_sys s).
Definition with_sys (x : sem_sys) s : mq_sys H := MqSys H x (q_msgs s) (q_msgqs s) (q_des s) (g_msgfree s) (g_msgfreeirq s) (g_delayeddeallocations s) (q_heap s).
Definition with_q_kernel (k : kernel) s : mq_sys H := with_sys (with_kernel k (q_sys s)) s.
Definition with_msgqs (g : gmap Z msgq_s) s : mq_sys H := MqSys H (q_sys s) (q_msgs s) g (q_des s) (g_msgfree s) (g_msgfreeirq s) (g_delayeddeallocations s) (q_heap s).
Definition with_msgs (m : gmap Z mqmsg) s : mq_sys H := MqSys H (q_sys s) m (q_msgqs s) (q_des s) (g_msgfree s) (g_msgfreeirq s) (g_delayeddeallocations s) (q_heap s).
Definition with_msgfree (q : sq_queue) (m : gmap Z mqmsg) s : mq_sys H := MqSys H (q_sys s) m (q_msgqs s) (q_des s) q (g_msgfreeirq s) (g_delayeddeallocations s) (q_heap s).
Definition with_msgfreeirq (q : sq_queue) (m : gmap Z mqmsg) s : mq_sys H := MqSys H (q_sys s) m (q_msgqs s) (q_des s) (g_msgfree s) q (g_delayeddeallocations s) (q_heap s).
Definition with_delayed (q : sq_queue) (m : gmap Z mqmsg) s : mq_sys H := MqSys H (q_sys s) m (q_msgqs s) (q_des s) (g_msgfree s) (g_msgfreeirq s) q (q_heap s).
Definition with_heap (h : H) s : mq_sys H := MqSys H (q_sys s) (q_msgs s) (q_msgqs s) (q_des s) (g_msgfree s) (g_msgfreeirq s) (g_delayeddeallocations s) h.

Definition q_errno (e : Z) s : res (mq_sys H) := x ← set_errno e (q_sys s); Ok (with_sys x s).

(** [OK] or [ERROR] returned, or the caller suspended. *)
Inductive mq_result : Type :=
| MqRet (ok : bool)
| MqBlocked.

(** ** mq_initialize.c: [nmsgs] messages carved from one block of the heap *)

Fixpoint msgblock_loop (n : nat) (msg : ptr) (alloc_type : Z) (q : sq_queue) (m : gmap Z mqmsg) : res (sq_queue * gmap Z mqmsg) :=
  match n with
  | O => Ok (q, m)
  | S n =>
      '(q, m) ← sq_addlast msg q (<[msg := set_type alloc_type raw_msg]> m);
      msgblock_loop n (msg + SIZEOF_MQMSG) alloc_type q m
  end.

Definition mq_msgblockalloc (q : sq_queue) (nmsgs alloc_type : Z) s : res (sq_queue * mq_sys H) :=
  pid ← getpid (q_kernel s);
  '(mqmsgblock, h) ← kmalloc pid (SIZEOF_MQMSG * nmsgs) (q_heap s);
  let s := with_heap h s in
  if decide (mqmsgblock = NULL) then Ok (q, s)
  else
    '(q, m) ← msgblock_loop (Z.to_nat nmsgs) mqmsgblock alloc_type q (q_msgs s);
    Ok (q, with_msgs m s).

(** ** sched_free.c and mq_msgfree.c *)

(** [sched_free] of a message structure. *)
Definition sched_free (address : ptr) s : res (mq_sys H) :=
  let delay :=
    '(q, m) ← sq_addlast address (g_delayeddeallocations s) (q_msgs s);
    Ok (with_delayed q m s) in
  if k_interrupt (q_kernel s) then delay
  else
    pid ← getpid (q_kernel s);
    match kmm_trysemaphore pid (q_heap s) with
    | (false, _) => delay
    | (true, h) =>
        h ← kfree pid address h;
        h ← kmm_givesemaphore pid h;
        Ok (with_heap h (with_msgs (delete address (q_msgs s)) s))
    end.

Definition mq_msgfree (mqmsg : ptr) s : res (mq_sys H) :=
  n ← deref (q_msgs s) mqmsg;
  if m_type n =? MQ_ALLOC_FIXED then
    '(q, m) ← sq_addlast mqmsg (g_msgfree s) (q_msgs s);
    Ok (with_msgfree q m s)
  else if m_type n =? MQ_ALLOC_IRQ then
    '(q, m) ← sq_addlast mqmsg (g_msgfreeirq s) (q_msgs s);
    Ok (with_msgfreeirq q m s)
  else if m_type n =? MQ_ALLOC_DYN then sched_free mqmsg s
  else c_panic.

(** ** mq_sndinternal.c *)

Definition mq_verifysend (mqdes : ptr) (msg : option (list Z)) (msglen prio : Z) s : res (bool * mq_sys H) :=
  if bool_decide (msg = None) || bool_decide (mqdes = NULL) || (prio <? 0) || (MQ_PRIO_MAX <? prio) then
    s ← q_errno EINVAL s;
    Ok (false, s)
  else
    d ← deref (q_des s) mqdes;
    if Z.land (d_oflags d) O_WROK =? 0 then
      s ← q_errno EPERM s;
      Ok (false, s)
    else
      g ← deref (q_msgqs s) (d_msgq d);
      if (msglen <? 0) || (maxmsgsize g <? msglen) then
        s ← q_errno EMSGSIZE s;
        Ok (false, s)
      else Ok (true, s).

Definition mq_msgalloc s : res (ptr * mq_sys H) :=
  if k_interrupt (q_kernel s) then
    '(mqmsg, (q, m)) ← sq_remfirst (g_msgfree s) (q_msgs s);
    let s := with_msgfree q m s in
    if decide (mqmsg = NULL) then
      '(mqmsg, (q, m)) ← sq_remfirst (g_msgfreeirq s) (q_msgs s);
      Ok (mqmsg, with_msgfreeirq q m s)
    else Ok (mqmsg, s)
  else
    '(mqmsg, (q, m)) ← sq_remfirst (g_msgfree s) (q_msgs s);
    let s := with_msgfree q m s in
    if decide (mqmsg = NULL) then
      pid ← getpid (q_kernel s);
      '(mqmsg, h) ← kmalloc pid SIZEOF_MQMSG (q_heap s);
      if decide (mqmsg = NULL) then c_panic
      else Ok (mqmsg, with_heap h (with_msgs (<[mqmsg := set_type MQ_ALLOC_DYN raw_msg]> (q_msgs s)) s))
    else Ok (mqmsg, s).

(** The body of the loop of [mq_waitsend]: the caller waits until the queue is not full. *)
Definition waitsend_block (msgq : ptr) s : res (mq_result * mq_sys H) :=
  let rtcb := dq_head (g_readytorun (q_kernel s)) in
  m ← store (set_msgwaitq msgq) rtcb (k_tcbs (q_kernel s));
  g ← deref (q_msgqs s) msgq;
  gs ← store (set_nwaitnotfull (s16 (nwaitnotfull g + 1))) msgq (q_msgqs s);
  s ← q_errno 0 (with_msgqs gs (with_q_kernel (set_tcbs m (q_kernel s)) s));
  '(_, k) ← up_block_task rtcb TSTATE_WAIT_MQNOTFULL (q_kernel s);
  Ok (MqBlocked, with_q_kernel k s).

Definition mq_waitsend (mqdes : ptr) s : res (mq_result * mq_sys H) :=
  d ← deref (q_des s) mqdes;
  g ← deref (q_msgqs s) (d_msgq d);
  if maxmsgs g <=? nmsgs g then
    if negb (Z.land (d_oflags d) O_NONBLOCK =? 0) then
      s ← q_errno EAGAIN s;
      Ok (MqRet false, s)
    else waitsend_block (d_msgq d) s
  else Ok (MqRet true, s).

(** The loop of [mq_waitsend] goes on after the caller was restarted. *)
Definition mq_waitsend_resumed (mqdes : ptr) s : res (mq_result * mq_sys H) :=
  e ← get_errno (q_sys s);
  if negb (e =? 0) then Ok (MqRet false, s)
  else
    d ← deref (q_des s) mqdes;
    g ← deref (q_msgqs s) (d_msgq d);
    if maxmsgs g <=? nmsgs g then waitsend_block (d_msgq d) s else Ok (MqRet true, s).

(** [memcpy] into the mail of a message; a length over MQ_MAX_BYTES would
    overwrite the memory behind it, one over the length of [msg] read behind it. *)
Definition copy_mail (msg : list Z) (msglen : Z) (mail : list Z) : res (list Z) :=
  if (msglen <=? MQ_MAX_BYTES) && (msglen <=? Z.of_nat (length msg)) then
    Ok (take (Z.to_nat msglen) msg ++ drop (Z.to_nat msglen) mail)
  else Err FWild.

(** [for (prev = NULL, next = head; next && prio <= next->priority; prev = next, next = next->next);] *)
Fixpoint send_search (fuel : nat) (m : gmap Z mqmsg) (prio : Z) (prev next : ptr) : res ptr :=
  match fuel with
  | O => Err FFuel
  | S fuel =>
      if decide (next = NULL) then Ok prev
      else
        n ← deref m next;
        if prio <=? m_priority n then send_search fuel m prio next (m_next n) else Ok prev
  end.

(** [for (btcb = head; btcb && btcb->msgwaitq != msgq; btcb = btcb->flink);] *)
Fixpoint mq_search (fuel : nat) (m : gmap Z TCB) (btcb msgq : ptr) : res ptr :=
  match fuel with
  | O => Err FFuel
  | S fuel =>
      if decide (btcb = NULL) then Ok NULL
      else
        t ← deref m btcb;
        if decide (msgwaitq t <> msgq) then mq_search fuel m (t_flink t) msgq else Ok btcb
  end.

(** The first task that waits for the queue not to be empty goes on. *)
Definition wake_receiver (msgq : ptr) s : res (mq_sys H) :=
  g ← deref (q_msgqs s) msgq;
  if 0 <? nwaitnotempty g then
    let m := k_tcbs (q_kernel s) in
    btcb ← mq_search (list_fuel m) m (dq_head (g_waitingformqnotempty (q_kernel s))) msgq;
    if decide (btcb = NULL) then c_panic
    else
      m ← store (set_msgwaitq NULL) btcb m;
      gs ← store (set_nwaitnotempty (s16 (nwaitnotempty g - 1))) msgq (q_msgqs s);
      '(_, k) ← up_unblock_task btcb (set_tcbs m (q_kernel s));
      Ok (with_q_kernel k (with_msgqs gs s))
  else Ok s.

Definition mq_dosend (mqdes mqmsg : ptr) (msg : list Z) (msglen prio : Z) s : res (mq_sys H) :=
  k ← sched_lock (q_kernel s);
  let s := with_q_kernel k s in
  d ← deref (q_des s) mqdes;
  let msgq := d_msgq d in
  m ← store (set_header (u8 prio) (u8 msglen)) mqmsg (q_msgs s);
  n ← deref m mqmsg;
  mail ← copy_mail msg msglen (m_mail n);
  m ← store (set_mail mail) mqmsg m;
  g ← deref (q_msgqs s) msgq;
  prev ← send_search (list_fuel m) m prio NULL (sq_head (msglist g));
  '(q, m) ← (if decide (prev = NULL) then sq_addfirst mqmsg (msglist g) m
             else sq_addafter prev mqmsg (msglist g) m);
  gs ← store (set_msglist q) msgq (q_msgqs s);
  gs ← store (set_nmsgs (s16 (nmsgs g + 1))) msgq gs;
  s ← wake_receiver msgq (with_msgqs gs (with_msgs m s));
  '(_, k) ← sched_unlock (q_kernel s);
  Ok (with_q_kernel k s).

(** ** mq_send.c *)

Definition send_finish (mqdes : ptr) (msg : list Z) (msglen prio : Z) (r : mq_result) s : res (mq_result * mq_sys H) :=
  match r with
  | MqBlocked => Ok (MqBlocked, s)
  | MqRet false =>
      '(_, k) ← sched_unlock (q_kernel s);
      Ok (MqRet false, with_q_kernel k s)
  | MqRet true =>
      '(mqmsg, s) ← mq_msgalloc s;
      if decide (mqmsg = NULL) then
        '(_, k) ← sched_unlock (q_kernel s);
        Ok (MqRet false, with_q_kernel k s)
      else
        s ← mq_dosend mqdes mqmsg msg msglen prio s;
        '(_, k) ← sched_unlock (q_kernel s);
        Ok (MqRet true, with_q_kernel k s)
  end.

Definition mq_send (mqdes : ptr) (msg : option (list Z)) (msglen prio : Z) s : res (mq_result * mq_sys H) :=
  '(ok, s) ← mq_verifysend mqdes msg msglen prio s;
  if negb ok then Ok (MqRet false, s)
  else
    k ← sched_lock (q_kernel s);
    let s := with_q_kernel k s in
    d ← deref (q_des s) mqdes;
    g ← deref (q_msgqs s) (d_msgq d);
    '(r, s) ← (if k_interrupt (q_kernel s) || (nmsgs g <? maxmsgs g) then Ok (MqRet true, s)
               else mq_waitsend mqdes s);
    send_finish mqdes (default [] msg) msglen prio r s.

Definition mq_send_resumed (mqdes : ptr) (msg : list Z) (msglen prio : Z) s : res (mq_result * mq_sys H) :=
  '(r, s) ← mq_waitsend_resumed mqdes s;
  send_finish mqdes msg msglen prio r s.

(** ** mq_rcvinternal.c *)

Definition mq_verifyreceive (mqdes : ptr) (msg : bool) (msglen : Z) s : res (bool * mq_sys H) :=
  if negb msg || bool_decide (mqdes = NULL) then
    s ← q_errno EINVAL s;
    Ok (false, s)
  else
    d ← deref (q_des s) mqdes;
    if Z.land (d_oflags d) O_RDOK =? 0 then
      s ← q_errno EPERM s;
      Ok (false, s)
    else
      g ← deref (q_msgqs s) (d_msgq d);
      if msglen <? maxmsgsize g then
        s ← q_errno EMSGSIZE s;
        Ok (false, s)
      else Ok (true, s).

(** The message received, none, or the caller suspended. *)
Inductive rcv_result : Type :=
| RcvMsg (mqmsg : ptr)
| RcvNone
| RcvBlocked.

(** The loop of [mq_waitreceive] up to the end or to a suspension. *)
Definition mq_waitreceive (mqdes : ptr) s : res (rcv_result * mq_sys H) :=
  d ← deref (q_des s) mqdes;
  let msgq := d_msgq d in
  g ← deref (q_msgqs s) msgq;
  '(rcvmsg, (q, m)) ← sq_remfirst (msglist g) (q_msgs s);
  gs ← store (set_msglist q) msgq (q_msgqs s);
  let s := with_msgqs gs (with_msgs m s) in
  if decide (rcvmsg = NULL) then
    if Z.land (d_oflags d) O_NONBLOCK =? 0 then
      let rtcb := dq_head (g_readytorun (q_kernel s)) in
      m ← store (set_msgwaitq msgq) rtcb (k_tcbs (q_kernel s));
      gs ← store (set_nwaitnotempty (s16 (nwaitnotempty g + 1))) msgq (q_msgqs s);
      s ← q_errno 0 (with_msgqs gs (with_q_kernel (set_tcbs m (q_kernel s)) s));
      '(_, k) ← up_block_task rtcb TSTATE_WAIT_MQNOTEMPTY (q_kernel s);
      Ok (RcvBlocked, with_q_kernel k s)
    else
      s ← q_errno EAGAIN s;
      Ok (RcvNone, s)
  else
    gs ← store (set_nmsgs (s16 (nmsgs g - 1))) msgq (q_msgqs s);
    Ok (RcvMsg rcvmsg, with_msgqs gs s).

(** The loop goes on after the caller was restarted: [rcvmsg] is still NULL. *)
Definition mq_waitreceive_resumed (mqdes : ptr) s : res (rcv_result * mq_sys H) :=
  e ← get_errno (q_sys s);
  if negb (e =? 0) then Ok (RcvNone, s) else mq_waitreceive mqdes s.

(** The first task that waits for the queue not to be full goes on. *)
Definition wake_sender (msgq : ptr) s : res (mq_sys H) :=
  g ← deref (q_msgqs s) msgq;
  if 0 <? nwaitnotfull g then
    let m := k_tcbs (q_kernel s) in
    btcb ← mq_search (list_fuel m) m (dq_head (g_waitingformqnotfull (q_kernel s))) msgq;
    if decide (btcb = NULL) then c_panic
    else
      m ← store (set_msgwaitq NULL) btcb m;
      gs ← store (set_nwaitnotfull (s16 (nwaitnotfull g - 1))) msgq (q_msgqs s);
      '(_, k) ← up_unblock_task btcb (set_tcbs m (q_kernel s));
      Ok (with_q_kernel k (with_msgqs gs s))
  else Ok s.

(** The bytes copied to the user and the priority. *)
Definition mq_doreceive (mqdes mqmsg : ptr) s : res ((list Z * Z) * mq_sys H) :=
  n ← deref (q_msgs s) mqmsg;
  let data := take (Z.to_nat (m_msglen n)) (m_mail n) in
  let prio := m_priority n in
  s ← mq_msgfree mqmsg s;
  d ← deref (q_des s) mqdes;
  s ← wake_sender (d_msgq d) s;
  Ok (data, prio, s).

(** ** mq_receive.c *)

Inductive receive_result : Type :=
| RecvData (data : list Z) (prio : Z)
| RecvError
| RecvBlocked.

Definition receive_finish (mqdes : ptr) (r : rcv_result) s : res (receive_result * mq_sys H) :=
  match r with
  | RcvBlocked => Ok (RecvBlocked, s)
  | RcvNone =>
      '(_, k) ← sched_unlock (q_kernel s);
      Ok (RecvError, with_q_kernel k s)
  | RcvMsg mqmsg =>
      '(data, prio, s) ← mq_doreceive mqdes mqmsg s;
      '(_, k) ← sched_unlock (q_kernel s);
      Ok (RecvData data prio, with_q_kernel k s)
  end.

Definition mq_receive (mqdes : ptr) (msg : bool) (msglen : Z) s : res (receive_result * mq_sys H) :=
  _ ← c_assert (negb (k_interrupt (q_kernel s)));
  '(ok, s) ← mq_verifyreceive mqdes msg msglen s;
  if negb ok then Ok (RecvError, s)
  else
    k ← sched_lock (q_kernel s);
    let s := with_q_kernel k s in
    '(r, s) ← mq_waitreceive mqdes s;
    receive_finish mqdes r s.

Definition mq_receive_resumed (mqdes : ptr) s : res (receive_result * mq_sys H) :=
  '(r, s) ← mq_waitreceive_resumed mqdes s;
  receive_finish mqdes r s.

(** ** mq_waitirq.c *)

Definition mq_waitirq (wtcb : ptr) (errcode : Z) s : res (mq_sys H) :=
  t ← deref (k_tcbs (q_kernel s)) wtcb;
  if decide (task_state t = TSTATE_WAIT_MQNOTEMPTY \/ task_state t = TSTATE_WAIT_MQNOTFULL) then
    let msgq := msgwaitq t in
    if decide (msgq = NULL) then c_panic
    else
      m ← store (set_msgwaitq NULL) wtcb (k_tcbs (q_kernel s));
      g ← deref (q_msgqs s) msgq;
      gs ← (if decide (task_state t = TSTATE_WAIT_MQNOTEMPTY) then
              if nwaitnotempty g <=? 0 then c_panic
              else store (set_nwaitnotempty (s16 (nwaitnotempty g - 1))) msgq (q_msgqs s)
            else
              if nwaitnotfull g <=? 0 then c_panic
              else store (set_nwaitnotfull (s16 (nwaitnotfull g - 1))) msgq (q_msgqs s));
      m ← store (set_pterrno errcode) wtcb m;
      '(_, k) ← up_unblock_task wtcb (set_tcbs m (q_kernel s));
      Ok (with_q_kernel k (with_msgqs gs s))
  else Ok s.

(** ** sched_garbage.c *)

(** [while (g_delayeddeallocations.head) ...]; the list has fewer elements than
    the memory has messages. *)
Fixpoint garbage_loop (fuel : nat) s : res (mq_sys H) :=
  match fuel with
  | O => Err FFuel
  | S fuel =>
      if decide (sq_head (g_delayeddeallocations s) = NULL) then Ok s
      else
        '(address, (q, m)) ← sq_remfirst (g_delayeddeallocations s) (q_msgs s);
        let s := with_delayed q m s in
        if decide (address = NULL) then garbage_loop fuel s
        else
          pid ← getpid (q_kernel s);
          h ← kfree pid address (q_heap s);
          garbage_loop fuel (with_heap h (with_msgs (delete address (q_msgs s)) s))
  end.

Definition sched_garbagecollection s : res (mq_sys H) := garbage_loop (list_fuel (q_msgs s)) s.

(** The part of [mq_initialize] that fills the message pools. *)
Definition init_msg_pools s : res (mq_sys H) :=
  '(q, s) ← mq_msgblockalloc sq_init PREALLOC_MQ_MSGS MQ_ALLOC_FIXED s;
  let s := with_msgfree q (q_msgs s) s in
  '(q, s) ← mq_msgblockalloc sq_init NUM_INTERRUPT_MSGS MQ_ALLOC_IRQ s;
  Ok (with_msgfreeirq q (q_msgs s) s).

End ops.
