(* ===== verification/MqWait.v ===== *)
(** * Message queues: the tasks that wait for a queue

    What the scheduler operations do to the tasks in g_waitingformqnotempty and
    g_waitingformqnotfull, and the invariant that ties the waiter counts of each
    message queue to them. *)

From stdpp Require Import sorting.
From S2P Require Import Prelude Queue Sched SchedInv SchedOps SchedSpec Sem SemSpec KHeap Mq.

(** ** Reading the waiters *)

Definition a_mq (a : asched) (x : Z) : Z := from_option msgwaitq NULL (as_tasks a !! x).

(** The two lists of tasks that wait for a message queue. *)
Inductive parked : tasklist -> Prop :=
| pk_notempty : parked TL_waitingformqnotempty
| pk_notfull : parked TL_waitingformqnotfull.

(** The tasks that wait in the list [l] for the queue [q], in the order in which they are served. *)
Definition mqw (l : tasklist) (q : Z) (a : asched) : list Z := filter (fun x => a_mq a x = q) (as_lists a l).

(** The counter of a queue for a list. *)
Definition nwait (l : tasklist) (g : msgq_s) : Z :=
  match l with
  | TL_waitingformqnotempty => nwaitnotempty g
  | _ => nwaitnotfull g
  end.
Definition set_nwait (l : tasklist) (n : Z) (g : msgq_s) : msgq_s :=
  match l with
  | TL_waitingformqnotempty => set_nwaitnotempty n g
  | _ => set_nwaitnotfull n g
  end.

Record waits_ok (gs : gmap Z msgq_s) (a : asched) : Prop := WaitsOk {
  wk_count : forall l q g, parked l -> gs !! q = Some g -> q <> NULL /\ nwait l g = Z.of_nat (length (mqw l q a));
  wk_waits : forall l x, parked l -> x ∈ as_lists a l -> is_Some (gs !! a_mq a x);
  wk_small : Z.of_nat (size (as_tasks a)) <= SEM_VALUE_MAX;
  wk_pid : forall x, 0 <= a_pid a x
}.

(** ** The lists of blocked tasks under the scheduler operations *)

Lemma parked_list l : parked l -> prioritized l = true /\ blocked_state (list_state l) = true /\ l <> TL_readytorun /\ l <> TL_pendingtasks.
Proof. by destruct 1. Qed.

Lemma block_same k a idle l : refines k a -> core_inv idle a -> parked l ->
  as_lists (a_block l a) l = ins (apr a) (arun a) (as_lists a l).
Proof.
  intros Hr HI Hl. destruct (parked_list _ Hl) as (Hp & _ & H1 & H2).
  unfold a_block, a_merge, merge_lists, a_upd. cbn [as_lists]. rewrite !upd_ne, upd_eq by done.
  unfold enqueue. rewrite Hp. f_equal. simpl. apply list_rem_absent.
  intros Hx. destruct Hr as (HR & _ & _). by apply H1, (sr_disj _ _ HR _ _ _ Hx (core_run _ _ HI)).
Qed.

Lemma block_other k a idle l l' : refines k a -> core_inv idle a -> parked l -> parked l' -> l' <> l ->
  as_lists (a_block l a) l' = as_lists a l'.
Proof.
  intros Hr HI Hl Hl' Hne. destruct (parked_list _ Hl') as (_ & _ & H1 & H2).
  unfold a_block, a_merge, merge_lists, a_upd. cbn [as_lists]. rewrite !upd_ne by done. simpl. apply list_rem_absent.
  intros Hx. destruct Hr as (HR & _ & _). by apply H1, (sr_disj _ _ HR _ _ _ Hx (core_run _ _ HI)).
Qed.

Lemma unblock_list `{SchedConfig} a x l : parked l -> as_lists (a_unblock x a) l = list_rem x (as_lists a l).
Proof. intros Hl. destruct (parked_list _ Hl) as (_ & _ & H1 & H2). unfold a_unblock, a_enter. case_match; simpl; by rewrite upd_ne. Qed.

Lemma unlock_list a l : parked l -> as_lists (a_unlock a) l = as_lists a l.
Proof.
  intros Hl. destruct (parked_list _ Hl) as (_ & _ & H1 & H2). unfold a_unlock. case_match; [|done].
  unfold a_merge, merge_lists. simpl. by rewrite !upd_ne.
Qed.

(** ** Updates the waiters do not see *)

(** [a'] differs from [a] in nothing that [waits_ok] looks at. *)
Record same_waits (a a' : asched) : Prop := SameWaits {
  sw_lists : forall l, parked l -> as_lists a' l = as_lists a l;
  sw_mq : forall x, a_mq a' x = a_mq a x;
  sw_size : size (as_tasks a') = size (as_tasks a);
  sw_pid : forall x, a_pid a' x = a_pid a x
}.

Lemma same_waits_trans a1 a2 a3 : same_waits a1 a2 -> same_waits a2 a3 -> same_waits a1 a3.
Proof. intros [A B C D] [A' B' C' D']. split; [intros; by rewrite A', A|intros; by rewrite B'|by rewrite C'|intros; by rewrite D']. Qed.

Lemma same_waits_set f x a : (forall t, msgwaitq (f t) = msgwaitq t) -> (forall t, t_pid (f t) = t_pid t) -> same_waits a (a_set f x a).
Proof. intros H1 H2. split; [done|intros; by apply field_set|apply size_set|intros; by apply field_set]. Qed.

Lemma same_waits_unlock a : same_waits a (a_unlock a).
Proof.
  pose proof (same_waits_set (set_lockcount (Z.max 0 (alk a (arun a) - 1))) (arun a) a (fun t => eq_refl) (fun t => eq_refl)) as [A B C D].
  split; [intros; by apply unlock_list| | |]; unfold a_unlock; [intros x|..|intros x]; case_match;
    first [exact (B x)|exact C|exact (D x)].
Qed.

Lemma mqw_same a a' l q : same_waits a a' -> parked l -> mqw l q a' = mqw l q a.
Proof. intros [A B _ _] Hl. unfold mqw. rewrite A by done. apply filter_same. intros y _. by rewrite B. Qed.

Lemma waits_same gs a a' : same_waits a a' -> waits_ok gs a -> waits_ok gs a'.
Proof.
  intros Hs [A B C D]. split.
  - intros l q g Hl Hq. rewrite (mqw_same a a') by done. by apply A.
  - intros l x Hl. rewrite (sw_lists _ _ Hs), (sw_mq _ _ Hs) by done. by apply B.
  - by rewrite (sw_size _ _ Hs).
  - intros x. by rewrite (sw_pid _ _ Hs).
Qed.

(** A queue changes in something else than its waiters. *)
Lemma waits_data gs a q g g' :
  waits_ok gs a -> gs !! q = Some g -> nwaitnotempty g' = nwaitnotempty g -> nwaitnotfull g' = nwaitnotfull g ->
  waits_ok (<[q := g']> gs) a.
Proof.
  intros [A B C D] Hq E1 E2. split; [|intros l x Hl Hx; rewrite lookup_insert; case_decide; eauto|done|done].
  intros l q2 g2 Hl. rewrite lookup_insert. case_decide as E; [subst|by apply A].
  intros [= <-]. destruct (A _ _ _ Hl Hq) as [H1 H2]. split; [done|]. rewrite <-H2. destruct Hl; simpl; congruence.
Qed.

(** ** A task starts to wait *)

Lemma waits_block k3 a a3 idle gs l q g :
  waits_ok gs a -> core_inv idle a -> refines k3 a3 -> core_inv idle a3 -> parked l -> gs !! q = Some g ->
  (forall l, as_lists a3 l = as_lists a l) -> (forall y, apr a3 y = apr a y) ->
  (forall y, a_mq a3 y = if decide (y = arun a) then q else a_mq a y) ->
  size (as_tasks a3) = size (as_tasks a) -> (forall y, a_pid a3 y = a_pid a y) ->
  let a' := a_block l a3 in
  waits_ok (<[q := set_nwait l (nwait l g + 1) g]> gs) a'
  /\ mqw l q a' = ins (apr a) (arun a) (mqw l q a)
  /\ (forall l' q', parked l' -> l' <> l \/ q' <> q -> mqw l' q' a' = mqw l' q' a).
Proof.
  intros HW HC Hr3 HC3 Hl Hq EL Epr EW ES EP a'. set (x := arun a) in *.
  assert (arun a3 = x) as Ex by (unfold arun; by rewrite EL). pose proof (core_run _ _ HC) as Hx. fold x in Hx.
  assert (forall l', parked l' -> x ∉ as_lists a l') as Hnx.
  { intros l' Hl' Hx'. destruct (parked_list _ Hl') as (_ & _ & H1 & _). pose proof Hr3 as (HR & _ & _). rewrite <-EL in Hx, Hx'.
    by apply H1, (sr_disj _ _ HR _ _ _ Hx' Hx). }
  assert (as_lists a' l = ins (apr a3) x (as_lists a l)) as ELl by (unfold a'; by rewrite (block_same k3 a3 idle), Ex, EL).
  assert (forall l', parked l' -> l' <> l -> as_lists a' l' = as_lists a l') as ELo
    by (intros l' Hl' Hne; unfold a'; by rewrite (block_other k3 a3 idle), EL).
  assert (forall y, a_mq a' y = a_mq a3 y) as EW' by done.
  assert (forall l' q', parked l' -> filter (fun y => a_mq a' y = q') (as_lists a l') = mqw l' q' a) as Eold.
  { intros l' q' Hl'. unfold mqw. apply filter_same. intros y Hy. rewrite EW', EW, decide_False; [done|]. intros ->. by apply (Hnx l'). }
  assert (mqw l q a' = ins (apr a) x (mqw l q a)) as Eq.
  { unfold mqw at 1. rewrite ELl, filter_ins_in.
    - rewrite Eold by done. apply ins_ext. intros; apply Epr.
    - by rewrite EW', EW, decide_True.
    - rewrite <-EL. apply (ci_sorted _ _ HC3). by destruct Hl. }
  assert (forall l' q', parked l' -> l' <> l \/ q' <> q -> mqw l' q' a' = mqw l' q' a) as Eo.
  { intros l' q' Hl' Hne. unfold mqw at 1. destruct (decide (l' = l)) as [->|Hll]; [|rewrite ELo by done; by apply Eold].
    rewrite ELl, filter_ins_out; [by apply Eold|]. rewrite EW', EW, decide_True by done. naive_solver. }
  split; [|done]. pose proof HW as [A B C D]. split.
  - intros l' q' g' Hl'. rewrite lookup_insert. case_decide as E; [subst q'|].
    + intros [= <-]. destruct (A _ _ _ Hl' Hq) as [H1 H2]. split; [done|]. destruct (decide (l' = l)) as [->|Hne].
      * rewrite Eq, (ins_perm (apr a) x). destruct Hl; simpl in *; lia.
      * rewrite Eo by auto. rewrite <-H2. destruct Hl, Hl'; done.
    + intros Hg. rewrite Eo by auto. by apply A.
  - intros l' y Hl' Hy. rewrite EW', EW. case_decide as E; [rewrite lookup_insert_eq; eauto|].
    assert (y ∈ as_lists a l') as Hy'.
    { destruct (decide (l' = l)) as [->|Hne]; [|by rewrite ELo in Hy]. rewrite ELl, ins_elem in Hy. by destruct Hy. }
    rewrite lookup_insert. case_decide; eauto.
  - unfold a'. change (as_tasks (a_block l a3)) with (as_tasks a3). by rewrite ES.
  - intros y. change (a_pid a' y) with (a_pid a3 y). by rewrite EP.
Qed.

(** ** A task stops to wait *)

Lemma waits_unblock `{SchedConfig} k a a2 gs l q g x :
  waits_ok gs a -> refines k a -> parked l -> x ∈ as_lists a l -> a_mq a x = q -> gs !! q = Some g ->
  (forall l, as_lists a2 l = as_lists a l) -> (forall y, a_mq a2 y = if decide (y = x) then NULL else a_mq a y) ->
  size (as_tasks a2) = size (as_tasks a) -> (forall y, a_pid a2 y = a_pid a y) ->
  let a' := a_unblock x a2 in
  0 < nwait l g /\ waits_ok (<[q := set_nwait l (nwait l g - 1) g]> gs) a'
  /\ mqw l q a' = list_rem x (mqw l q a)
  /\ (forall l' q', parked l' -> l' <> l \/ q' <> q -> mqw l' q' a' = mqw l' q' a).
Proof.
  intros HW Hr Hl Hx Hxq Hq EL EW ES EP a'. pose proof Hr as (HR & _ & _).
  assert (forall l', parked l' -> as_lists a' l' = list_rem x (as_lists a l')) as ELl
    by (intros l' Hl'; unfold a'; by rewrite unblock_list, EL).
  assert (forall l', parked l' -> l' <> l -> x ∉ as_lists a l') as Hnx by (intros l' Hl' Hne Hx'; by apply Hne, (sr_disj _ _ HR _ _ x)).
  assert (forall y, a_mq a' y = a_mq a2 y /\ a_pid a' y = a_pid a2 y) as EW'.
  { intros y. unfold a_mq, a_pid, a'. rewrite unblock_tasks.
    split; (rewrite <-(field_set _ _ (set_timeslice RR_TICKS) x a2 y); [done|done]). }
  pose proof (sr_nodup _ _ l HR) as Hnd.
  assert (x ∉ list_rem x (as_lists a l)) as Hxr.
  { destruct (nodup_split x _ Hnd Hx) as (l1 & l2 & E & Hl1). rewrite E, list_rem_split by done. rewrite E in Hnd.
    apply NoDup_app in Hnd as (_ & Hd & [Hd2 _]%NoDup_cons). set_solver. }
  assert (forall l' q', parked l' -> mqw l' q' a' = filter (fun y => a_mq a y = q') (list_rem x (as_lists a l'))) as Ew.
  { intros l' q' Hl'. unfold mqw. rewrite ELl by done. apply filter_same. intros y Hy. destruct (EW' y) as [-> _].
    rewrite EW, decide_False; [done|]. intros ->. destruct (decide (l' = l)) as [->|Hne]; [done|]. by eapply Hnx, list_rem_elem. }
  assert (mqw l q a' = list_rem x (mqw l q a)) as Eq by (rewrite Ew by done; rewrite filter_list_rem, decide_True by done; done).
  assert (forall l' q', parked l' -> l' <> l \/ q' <> q -> mqw l' q' a' = mqw l' q' a) as Eo.
  { intros l' q' Hl' Hne. rewrite Ew by done. destruct (decide (l' = l)) as [->|Hll].
    - rewrite filter_list_rem, decide_False; [done|]. naive_solver.
    - by rewrite list_rem_absent by by apply Hnx. }
  assert (x ∈ mqw l q a) as Hxw by by apply list_elem_of_filter.
  assert (NoDup (mqw l q a)) as Hndw by by apply NoDup_filter.
  assert (S (length (list_rem x (mqw l q a))) = length (mqw l q a)) as Hlen.
  { destruct (nodup_split x _ Hndw Hxw) as (l1 & l2 & E & Hl1). rewrite E, list_rem_split, !length_app by done. simpl. lia. }
  pose proof HW as [A B C D]. destruct (A _ _ _ Hl Hq) as [Hqn Hn]. split; [lia|]. split; [|done]. split.
  - intros l' q' g' Hl'. destruct (decide (q = q')) as [<-|Hqq]; [rewrite lookup_insert_eq|rewrite lookup_insert_ne by done].
    + intros [= <-]. destruct (A _ _ _ Hl' Hq) as [H1 H2]. split; [done|]. destruct (decide (l' = l)) as [->|Hne].
      * rewrite Eq. destruct Hl; simpl in *; lia.
      * rewrite Eo by auto. rewrite <-H2. destruct Hl, Hl'; done.
    + intros Hg. rewrite Eo by auto. by apply A.
  - intros l' y Hl' Hy. rewrite ELl in Hy by done. destruct (EW' y) as [-> _]. rewrite EW, decide_False.
    + rewrite lookup_insert. case_decide; [eauto|]. by eapply B, list_rem_elem.
    + intros ->. destruct (decide (l' = l)) as [->|Hne]; [done|]. by eapply Hnx, list_rem_elem.
  - unfold a'. rewrite unblock_tasks. change (alter _ x (as_tasks a2)) with (as_tasks (a_set (set_timeslice RR_TICKS) x a2)).
    by rewrite size_set, ES.
  - intros y. destruct (EW' y) as [_ ->]. by rewrite EP.
Qed.

(** The counters fit in an [int16_t]. *)
Lemma nwait_small k a gs l q g : refines k a -> waits_ok gs a -> parked l -> gs !! q = Some g -> 0 <= nwait l g <= SEM_VALUE_MAX.
Proof.
  intros (HR & ET & _) HW Hl Hq. destruct (wk_count _ _ HW _ _ _ Hl Hq) as [_ ->]. pose proof (wk_small _ _ HW) as Hz.
  rewrite <-ET, map_size_fmap in Hz. pose proof (dq_length _ _ _ (sr_list _ _ HR l)).
  assert (length (mqw l q a) <= length (as_lists a l))%nat by apply length_filter. lia.
Qed.

(** The running task with one more waiting task can still be counted. *)
Lemma nwait_room k a idle gs l q g : refines k a -> core_inv idle a -> waits_ok gs a -> parked l -> gs !! q = Some g -> nwait l g + 1 <= SEM_VALUE_MAX.
Proof.
  intros (HR & ET & _) HC HW Hl Hq. destruct (wk_count _ _ HW _ _ _ Hl Hq) as [_ ->]. pose proof (wk_small _ _ HW) as Hz.
  rewrite <-ET, map_size_fmap, <-(size_dom (D := gset Z)) in Hz.
  assert (length (mqw l q a) <= length (as_lists a l))%nat by apply length_filter.
  pose proof (core_run _ _ HC) as Hx. destruct (parked_list _ Hl) as (_ & _ & H1 & _).
  assert (S (length (as_lists a l)) <= size (dom (k_tcbs (k)) : gset Z))%nat; [|lia].
  change (S (length (as_lists a l))) with (length (arun a :: as_lists a l)).
  rewrite <-(size_list_to_set (C := gset Z)).
  - apply subseteq_size. intros y [->|Hy]%elem_of_list_to_set%elem_of_cons; apply elem_of_dom; by eapply sr_valid.
  - constructor; [|by eapply sr_nodup]. intros Hx'. by apply H1, (sr_disj _ _ HR _ _ _ Hx' Hx).
Qed.

(** [mq_search] finds the first waiter of a queue. *)
Lemma mq_search_spec fuel m p l q :
  dseg m p l NULL -> NULL ∉ l -> (length l < fuel)%nat ->
  mq_search fuel m (hdp NULL l) q = Ok (hdp NULL (filter (fun x => from_option msgwaitq NULL (m !! x) = q) l)).
Proof.
  revert p l. induction fuel as [|fuel IH]; intros p l Hs H0 Hf; [lia|].
  destruct l as [|x l]; cbn [mq_search head default from_option id]; [by rewrite decide_True|].
  destruct Hs as [(t & Et & Ft & _) Hs]. rewrite decide_False by set_solver. rewrite (deref_Some _ _ t) by (done || set_solver).
  cbn [mbind res_bind]. rewrite filter_cons, Et. cbn [from_option]. destruct (decide (msgwaitq t = q)) as [E|E].
  - by rewrite decide_False by (intros []; done).
  - rewrite decide_True by done. change (t_flink t) with (flink t). rewrite Ft. eapply IH; [exact Hs|set_solver|simpl in Hf; lia].
Qed.

Lemma mq_search_ok k a l q : refines k a -> parked l ->
  mq_search (list_fuel (k_tcbs k)) (k_tcbs k) (dq_head (get_list l k)) q = Ok (hdp NULL (mqw l q a)).
Proof.
  intros Hr Hl. pose proof Hr as (HR & ET & _). rewrite (sr_head _ _ _ HR). pose proof (sr_list _ _ HR l) as Hq.
  rewrite (mq_search_spec _ _ NULL (as_lists a l)); [|apply Hq|apply Hq|pose proof (dq_length _ _ _ Hq); unfold list_fuel; lia].
  do 3 f_equal. unfold mqw. apply filter_same. intros y _. unfold a_mq. rewrite <-ET, lookup_fmap. by destruct (k_tcbs k !! y).
Qed.
