(* ===== verification/MqPool.v ===== *)
(** * Message queues: the message structures

    Every message structure is in one place at a time: in one of the two free
    lists, in the list of delayed deallocations, in a message queue, or held by
    the call that moves it; none is lost.  [pool_ok] says that the linked lists agree with the
    places and that each structure lies in a live block of the heap. *)

From stdpp Require Import sorting.
From S2P Require Import Prelude Queue Sched SchedInv KHeap Mq.

Inductive place : Type :=
| PFree
| PIrq
| PDelayed
| PHeld
| PQueue (q : Z).

#[export] Instance place_eq_dec : EqDecision place.
Proof. solve_decision. Defined.

(** Where each structure is. *)
Definition places : Type := place -> list Z.

Definition put (p : place) (v : list Z) (pl : places) : places := fun p' => if decide (p = p') then v else pl p'.

Lemma put_eq p v pl : put p v pl p = v.
Proof. unfold put. by rewrite decide_True. Qed.

Lemma put_ne p p' v pl : p <> p' -> put p v pl p' = pl p'.
Proof. intros. unfold put. by rewrite decide_False. Qed.

(** ** Reading messages *)

Definition mprio (m : gmap Z mqmsg) (x : Z) : Z := from_option m_priority 0 (m !! x).
Definition msg_content (n : mqmsg) : Z * list Z := (m_priority n, take (Z.to_nat (m_msglen n)) (m_mail n)).
Definition mdata (m : gmap Z mqmsg) (x : Z) : Z * list Z := from_option msg_content (0, []) (m !! x).

Section pool.
  Context {HT : Type} {HK : KHeap HT} {HKS : KHeapSpec HT}.

(** The memory that the structures occupy: a structure allocated on its own is
    the only one in its block. *)
Definition homed (m : gmap Z mqmsg) (bl : list (Z * Z)) (blk : Z -> Z * Z) : Prop :=
  (forall x, is_Some (m !! x) -> blk x ∈ bl /\ owns (blk x) x)
  /\ (forall x n, m !! x = Some n -> m_type n = MQ_ALLOC_DYN ->
        (blk x).1 = x /\ forall y, is_Some (m !! y) -> blk y = blk x -> y = x).

Definition type_at (p : place) (n : mqmsg) : Prop :=
  match p with
  | PFree => m_type n = MQ_ALLOC_FIXED
  | PIrq => m_type n = MQ_ALLOC_IRQ
  | PDelayed => m_type n = MQ_ALLOC_DYN
  | _ => m_type n = MQ_ALLOC_FIXED \/ m_type n = MQ_ALLOC_IRQ \/ m_type n = MQ_ALLOC_DYN
  end.

Record pool_ok (m : gmap Z mqmsg) (Q : place -> option sq_queue) (h : HT) (pl : places) : Prop := PoolOk {
  po_repr : forall p q, Q p = Some q -> sq_repr m q (pl p);
  po_valid : forall p x, x ∈ pl p -> valid m x;
  po_disj : forall p p' x, x ∈ pl p -> x ∈ pl p' -> p = p';
  po_type : forall p x n, x ∈ pl p -> m !! x = Some n -> type_at p n;
  po_mail : forall x n, m !! x = Some n -> length (m_mail n) = Z.to_nat MQ_MAX_BYTES;
  po_all : forall x, is_Some (m !! x) -> exists p, x ∈ pl p;
  po_live : forall p, p <> PHeld -> Q p = None -> pl p = [];
  po_heap : exists bl blk, heap_rep None h bl /\ homed m bl blk
}.

(** ** Links do not matter *)

Lemma unlink_fields (n n' : mqmsg) : sunlink n' = sunlink n ->
  m_type n' = m_type n /\ m_priority n' = m_priority n /\ m_msglen n' = m_msglen n /\ m_mail n' = m_mail n.
Proof. intros E. by inversion E. Qed.

Lemma frame_body S m m' x n' : frame sunlink S m m' -> m' !! x = Some n' -> exists n, m !! x = Some n /\ sunlink n' = sunlink n.
Proof.
  intros [_ Hf] E. specialize (Hf x). rewrite E in Hf. destruct (m !! x) as [n|] eqn:En; [|done].
  exists n. split; [done|]. by apply (inj Some) in Hf.
Qed.

Lemma mprio_frame S m m' x : frame sunlink S m m' -> mprio m' x = mprio m x.
Proof.
  intros Hf. unfold mprio. destruct (m' !! x) as [n'|] eqn:E.
  - destruct (frame_body _ _ _ _ _ Hf E) as (n & -> & Eb). apply unlink_fields in Eb. simpl. tauto.
  - destruct Hf as [_ Hf]. specialize (Hf x). rewrite E in Hf. by destruct (m !! x).
Qed.

Lemma mdata_frame S m m' x : frame sunlink S m m' -> mdata m' x = mdata m x.
Proof.
  intros Hf. unfold mdata. destruct (m' !! x) as [n'|] eqn:E.
  - destruct (frame_body _ _ _ _ _ Hf E) as (n & -> & Eb). apply unlink_fields in Eb as (_ & H1 & H2 & H3). simpl. unfold msg_content. by rewrite H1, H2, H3.
  - destruct Hf as [_ Hf]. specialize (Hf x). rewrite E in Hf. by destruct (m !! x).
Qed.

Lemma homed_frame S m m' bl blk : frame sunlink S m m' -> homed m bl blk -> homed m' bl blk.
Proof.
  intros Hf [H1 H2]. assert (forall x, is_Some (m' !! x) -> is_Some (m !! x)) as Hs.
  { intros x [n' E]. destruct (frame_body _ _ _ _ _ Hf E) as (n & -> & _). eauto. }
  split; [auto|]. intros x n' E. destruct (frame_body _ _ _ _ _ Hf E) as (n & En & Eb). apply unlink_fields in Eb as (-> & _).
  intros Ht. destruct (H2 x n En Ht) as [H3 H4]. split; [done|]. intros y Hy. apply H4. auto.
Qed.

(** ** Moving structures between two places *)

Lemma pool_move m m' Q Q' h pl pl' S p1 p2 :
  pool_ok m Q h pl -> frame sunlink S m m' -> (forall x, x ∈ S -> x ∈ pl p1 \/ x ∈ pl p2) ->
  (forall p, p <> p1 -> p <> p2 -> pl' p = pl p /\ Q' p = Q p) ->
  (forall x, x ∈ pl' p1 \/ x ∈ pl' p2 <-> x ∈ pl p1 \/ x ∈ pl p2) ->
  (p1 <> p2 -> forall x, x ∈ pl' p1 -> x ∉ pl' p2) ->
  (forall p q, p = p1 \/ p = p2 -> Q' p = Some q -> sq_repr m' q (pl' p)) ->
  (forall p, p = p1 \/ p = p2 -> p <> PHeld -> is_Some (Q' p)) ->
  (forall p x n, p = p1 \/ p = p2 -> x ∈ pl' p -> m !! x = Some n -> type_at p n) ->
  pool_ok m' Q' h pl'.
Proof.
  intros [A B C D L Al Lv E] Hf HS Ho Hsub Hdis Hrep Hlv Hty.
  assert (forall p x, x ∈ pl' p -> exists p0, x ∈ pl p0 /\ (p = p1 \/ p = p2 -> p0 = p1 \/ p0 = p2) /\ (p <> p1 -> p <> p2 -> p0 = p)) as Hin.
  { intros p x Hx. destruct (decide (p = p1)) as [->|H1]; [destruct (proj1 (Hsub x) (or_introl Hx)) as [Hy|Hy]; eexists; (split; [exact Hy|]); split; tauto|].
    destruct (decide (p = p2)) as [->|H2]; [destruct (proj1 (Hsub x) (or_intror Hx)) as [Hy|Hy]; eexists; (split; [exact Hy|]); split; tauto|].
    destruct (Ho p H1 H2) as [E1 _]. rewrite E1 in Hx. exists p. split; [done|]. split; [tauto|done]. }
  split.
  - intros p q Hq. destruct (decide (p = p1 \/ p = p2)) as [Hp|Hp]; [by apply Hrep|].
    destruct (Ho p) as [E1 E2]; [tauto|tauto|]. rewrite E1. rewrite E2 in Hq. eapply sq_repr_frame; [exact Hf| |by apply A].
    intros x Hx Hxp. destruct (HS x Hx) as [Hy|Hy]; apply Hp; [left|right]; by eapply C.
  - intros p x Hx. destruct (Hin p x Hx) as (p0 & Hx0 & _). by eapply frame_valid, B.
  - intros p p' x Hx Hx'. destruct (Hin p x Hx) as (p0 & H0 & H1 & H2), (Hin p' x Hx') as (p0' & H0' & H1' & H2').
    pose proof (C _ _ _ H0 H0') as ->.
    destruct (decide (p = p1)) as [->|N1], (decide (p' = p1)) as [->|N1']; try done.
    + destruct (decide (p' = p2)) as [->|N2']; [destruct (decide (p1 = p2)); [done|]; by destruct (Hdis ltac:(done) x)|].
      specialize (H2' N1' N2'). destruct (H1 ltac:(by left)); congruence.
    + destruct (decide (p = p2)) as [->|N2]; [destruct (decide (p1 = p2)); [done|]; by destruct (Hdis ltac:(done) x)|].
      specialize (H2 N1 N2). destruct (H1' ltac:(by left)); congruence.
    + destruct (decide (p = p2)) as [->|N2], (decide (p' = p2)) as [->|N2']; try done.
      * specialize (H2' N1' N2'). destruct (H1 ltac:(by right)); congruence.
      * specialize (H2 N1 N2). destruct (H1' ltac:(by right)); congruence.
      * rewrite <-H2, <-H2' by done. done.
  - intros p x n' Hx En'. destruct (frame_body _ _ _ _ _ Hf En') as (n & En & Eb).
    assert (type_at p n) as Ht.
    { destruct (decide (p = p1 \/ p = p2)) as [Hp|Hp]; [by eapply Hty|]. destruct (Ho p) as [E1 _]; [tauto|tauto|]. rewrite E1 in Hx. by eapply D. }
    apply unlink_fields in Eb as (Et & _). unfold type_at in *. by destruct p; rewrite Et.
  - intros x n' En'. destruct (frame_body _ _ _ _ _ Hf En') as (n & En & Eb). apply unlink_fields in Eb as (_ & _ & _ & ->). by eapply L.
  - intros x [n' En']. destruct (frame_body _ _ _ _ _ Hf En') as (n & En & _). destruct (Al x ltac:(eauto)) as [p Hp].
    destruct (decide (p = p1 \/ p = p2)) as [H12|H12].
    + destruct (proj2 (Hsub x)) as [Hx|Hx]; [destruct H12; subst; auto|eauto|eauto].
    + destruct (Ho p) as [E1 _]; [tauto|tauto|]. exists p. by rewrite E1.
  - intros p Hp HQ. destruct (decide (p = p1 \/ p = p2)) as [H12|H12]; [destruct (Hlv p H12 Hp); congruence|].
    destruct (Ho p) as [E1 E2]; [tauto|tauto|]. rewrite E1. apply Lv; congruence.
  - destruct E as (bl & blk & Hh & Hhm). exists bl, blk. split; [done|]. by eapply homed_frame.
Qed.

(** ** The steps of the calls on the pool *)

Definition qput (p : place) (q : sq_queue) (Q : place -> option sq_queue) : place -> option sq_queue :=
  fun p' => if decide (p = p') then Some q else Q p'.

Lemma qput_eq p q Q : qput p q Q p = Some q.
Proof. unfold qput. by rewrite decide_True. Qed.

Lemma qput_ne p p' q Q : p <> p' -> qput p q Q p' = Q p'.
Proof. intros. unfold qput. by rewrite decide_False. Qed.

(** Equality of places and heads, point by point. *)
Lemma pool_ext m Q Q' h pl pl' :
  (forall p, Q' p = Q p) -> (forall p, pl' p = pl p) -> pool_ok m Q h pl -> pool_ok m Q' h pl'.
Proof.
  intros E1 E2 [A B C D L Al Lv E]. split; try done.
  - intros p q. rewrite E1, E2. apply A.
  - intros p x. rewrite E2. apply B.
  - intros p p' x. rewrite !E2. apply C.
  - intros p x n. rewrite E2. apply D.
  - intros x Hx. destruct (Al x Hx) as [p Hp]. exists p. by rewrite E2.
  - intros p Hp. rewrite E1, E2. by apply Lv.
Qed.

Section steps.
  Context (m : gmap Z mqmsg) (Q : place -> option sq_queue) (h : HT) (pl : places).
  Hypothesis HP : pool_ok m Q h pl.

(** The first structure of a list is taken. *)
Lemma pool_take p q :
  Q p = Some q -> p <> PHeld -> Q PHeld = None -> pl PHeld = [] ->
  wp (sq_remfirst q m) (fun '(x, (q', m')) =>
    x = hdp NULL (pl p) /\ frame sunlink (pl p) m m'
    /\ pool_ok m' (qput p q' Q) h (put PHeld (take 1 (pl p)) (put p (tail (pl p)) pl))).
Proof.
  intros Hq Hp HQ Hh. eapply wp_mono; [apply (sq_remfirst_spec m q (pl p)); by apply (po_repr _ _ _ _ HP)|].
  intros [x [q' m']] (-> & Hr & Hf). split; [done|]. split; [done|]. pose proof (po_repr _ _ _ _ HP _ _ Hq) as Hrep.
  apply (pool_move m m' Q _ h pl _ (pl p) p PHeld HP Hf); [by left|..].
  - intros p' H1 H2. by rewrite !put_ne, qput_ne.
  - intros x. rewrite (put_ne PHeld p), put_eq, put_eq by done. rewrite Hh. destruct (pl p) as [|y l]; set_solver.
  - intros _ x. rewrite (put_ne PHeld p), put_eq, put_eq by done. pose proof (sqr_nodup _ _ _ Hrep) as Hnd.
    destruct (pl p) as [|y l]; simpl; [set_solver|]. apply NoDup_cons in Hnd as [Hy _]. intros Hx ->%list_elem_of_singleton. done.
  - intros p' q2 [->| ->].
    + rewrite qput_eq, (put_ne PHeld p), put_eq by done. by intros [= ->].
    + rewrite qput_ne by done. by rewrite HQ.
  - intros p' [->| ->] ?; [rewrite qput_eq; eauto|done].
  - intros p' x n [->| ->].
    + rewrite (put_ne PHeld p), put_eq by done. intros Hx. apply (po_type _ _ _ _ HP). destruct (pl p); set_solver.
    + rewrite put_eq. intros Hx En. assert (x ∈ pl p) as Hxp by (destruct (pl p); set_solver).
      pose proof (po_type _ _ _ _ HP _ _ _ Hxp En) as Ht. destruct p; simpl in *; tauto.
Qed.

(** The structure that is held goes to a list; [l'] is the list with it. *)
Lemma pool_put p q x m' q' S l' :
  Q p = Some q -> p <> PHeld -> Q PHeld = None -> pl PHeld = [x] ->
  sq_repr m' q' l' -> l' ≡ₚ x :: pl p -> frame sunlink S m m' -> (forall y, y ∈ S -> y = x \/ y ∈ pl p) ->
  (forall n, m !! x = Some n -> type_at p n) ->
  pool_ok m' (qput p q' Q) h (put PHeld [] (put p l' pl)).
Proof.
  intros Hq Hp HQ Hh Hr Hl Hf HS Ht.
  apply (pool_move m m' Q _ h pl _ S p PHeld HP Hf).
  - intros y Hy. rewrite Hh. destruct (HS y Hy) as [->|Hy']; [right; left|by left].
  - intros p' H1 H2. by rewrite !put_ne, qput_ne.
  - intros y. rewrite (put_ne PHeld p), put_eq, put_eq by done. rewrite Hl, Hh. set_solver.
  - intros _ y _. rewrite put_eq. set_solver.
  - intros p' q2 [->| ->].
    + rewrite qput_eq, (put_ne PHeld p), put_eq by done. by intros [= <-].
    + rewrite qput_ne by done. by rewrite HQ.
  - intros p' [->| ->] ?; [rewrite qput_eq; eauto|done].
  - intros p' y n [->| ->].
    + rewrite (put_ne PHeld p), put_eq by done. rewrite Hl, elem_of_cons. intros [->|Hy]; [apply Ht|by apply (po_type _ _ _ _ HP)].
    + rewrite put_eq. set_solver.
Qed.

(** The structure that is held is not in a list. *)
Lemma held_fresh x p : pl PHeld = [x] -> p <> PHeld -> x ∉ pl p.
Proof. intros Hh Hp Hx. apply Hp. eapply (po_disj _ _ _ _ HP); [exact Hx|]. rewrite Hh. left. Qed.

Lemma held_valid x : pl PHeld = [x] -> valid m x.
Proof. intros Hh. apply (po_valid _ _ _ _ HP PHeld). rewrite Hh. left. Qed.

(** It goes to the end of a list. *)
Lemma pool_addlast p q x :
  Q p = Some q -> p <> PHeld -> Q PHeld = None -> pl PHeld = [x] -> (forall n, m !! x = Some n -> type_at p n) ->
  wp (sq_addlast x q m) (fun '(q', m') =>
    frame sunlink (x :: pl p) m m' /\ pool_ok m' (qput p q' Q) h (put PHeld [] (put p (pl p ++ [x]) pl))).
Proof.
  intros Hq Hp HQ Hh Ht. eapply wp_mono; [apply (sq_addlast_spec m q (pl p) x); [by apply (po_repr _ _ _ _ HP)|by apply held_valid|by apply held_fresh]|].
  intros [q' m'] [Hr Hf]. split; [done|]. eapply pool_put; try done; [by rewrite Permutation_app_comm|].
  intros y. rewrite elem_of_cons. done.
Qed.

(** The structure that is held is written. *)
Lemma pool_write f x :
  pl PHeld = [x] -> Q PHeld = None -> (forall n, m_type (f n) = m_type n) ->
  (forall n, m !! x = Some n -> length (m_mail (f n)) = length (m_mail n)) ->
  pool_ok (alter f x m) Q h pl.
Proof.
  intros Hh HQ Hf Hl. pose proof HP as [A B C D L Al Lv E]. split.
  - intros p q Hq. destruct (decide (p = PHeld)) as [->|Hp]; [congruence|]. apply sq_repr_alter_ne; [by apply held_fresh|by apply A].
  - intros p y Hy. apply valid_alter. by eapply B.
  - done.
  - intros p y n Hy. rewrite lookup_alter. case_decide as Ey; [|by eapply D]. subst y. destruct (m !! x) as [n0|] eqn:E0; [|done].
    intros [= <-]. pose proof (D _ _ _ Hy E0) as Ht. unfold type_at in *. by destruct p; rewrite Hf.
  - intros y n. rewrite lookup_alter. case_decide as Ey; [|by eapply L]. subst y. destruct (m !! x) as [n0|] eqn:E0; [|done].
    intros [= <-]. rewrite Hl by done. by eapply L.
  - intros y Hy. apply Al. rewrite lookup_alter in Hy. case_decide; [subst; by destruct (m !! _); eauto|done].
  - done.
  - destruct E as (bl & blk & Hh' & H1 & H2). exists bl, blk. split; [done|].
    assert (forall y, is_Some (alter f x m !! y) -> is_Some (m !! y)) as Hs.
    { intros y. rewrite lookup_alter. case_decide; [subst; by destruct (m !! _); eauto|done]. }
    split; [auto|]. intros y n. rewrite lookup_alter. case_decide as Ey.
    + subst y. destruct (m !! x) as [n0|] eqn:E0; [|done]. intros [= <-]. rewrite Hf. intros Ht. destruct (H2 x n0 E0 Ht) as [H3 H4].
      split; [done|]. auto.
    + intros En Ht. destruct (H2 y n En Ht) as [H3 H4]. split; [done|]. auto.
Qed.

End steps.

(** ** Structures from and to the heap *)

Lemma sq_repr_ext (m m' : gmap Z mqmsg) q l : (forall y, y ∈ l -> m' !! y = m !! y) -> sq_repr m q l -> sq_repr m' q l.
Proof. intros E [A B C D F]. split; try done. by eapply sseg_ext. Qed.

(** A structure that is held and was allocated on its own goes back to the heap. *)
Lemma pool_free m Q h h' pl x n bl blk :
  pool_ok m Q h pl -> pl PHeld = [x] -> Q PHeld = None -> m !! x = Some n -> m_type n = MQ_ALLOC_DYN ->
  homed m (blk x :: bl) blk -> heap_rep None h' bl ->
  pool_ok (delete x m) Q h' (put PHeld [] pl).
Proof.
  intros HP Hpl HQ En Ht [H1 H2] Hh'. pose proof HP as [A B C D L Al Lv _]. destruct (H2 x n En Ht) as [Ebx Hu].
  assert (forall p y, y ∈ put PHeld [] pl p -> y ∈ pl p /\ y <> x) as Hin.
  { intros p y. unfold put. case_decide; [set_solver|]. intros Hy. split; [done|]. intros ->.
    by apply (held_fresh m Q h pl HP x p Hpl). }
  split.
  - intros p q Hq. destruct (decide (p = PHeld)) as [->|Hp]; [congruence|]. rewrite put_ne by done.
    apply (sq_repr_ext m); [|by apply A]. intros y Hy. apply lookup_delete_ne. intros <-.
    by apply (held_fresh m Q h pl HP x p Hpl).
  - intros p y [Hy Hne]%Hin. destruct (B _ _ Hy) as [Hn Hs]. split; [done|]. by rewrite lookup_delete_ne.
  - intros p p' y [Hy _]%Hin [Hy' _]%Hin. by eapply C.
  - intros p y n' [Hy Hne]%Hin. rewrite lookup_delete_ne by done. by apply D.
  - intros y n'. rewrite lookup_delete_Some. intros [_ E]. by eapply L.
  - intros y. rewrite lookup_delete_is_Some. intros [Hne Hy]. destruct (Al y Hy) as [p Hp]. exists p. rewrite put_ne; [done|].
    intros <-. rewrite Hpl in Hp. set_solver.
  - intros p Hp. rewrite put_ne by done. by apply Lv.
  - exists bl, blk. split; [done|]. split.
    + intros y [n' Hy]. apply lookup_delete_Some in Hy as [Hne Hy]. destruct (H1 y ltac:(eauto)) as [[E|Hb]%elem_of_cons Ho]; [|done].
      destruct Hne. symmetry. apply Hu; eauto.
    + intros y n'. rewrite lookup_delete_Some. intros [Hne Hy] Ht'. destruct (H2 y n' Hy Ht') as [H3 H4]. split; [done|].
      intros z [n2 Hz]. apply lookup_delete_Some in Hz as [_ Hz]. apply H4. eauto.
Qed.

End pool.

Section new.
  Context {HT : Type} {HK : KHeap HT} {HKS : KHeapSpec HT}.

(** The block [(x, sz)] becomes a structure that is held; [bl] are the blocks of the others. *)
Lemma pool_adopt (HKS0 : KHeapSpec HT) (m : gmap Z mqmsg) (Q : place -> option sq_queue) (h h' : HT) (pl : places) x sz bl blk :
  pool_ok (HKS := HKS0) m Q h pl -> pl PHeld = [] -> Q PHeld = None -> 0 < x -> 0 < sz ->
  homed m bl blk -> (forall d, d ∈ bl -> ~ owns d x) -> @heap_rep HT HK HKS None h' ((x, sz) :: bl) ->
  m !! x = None /\ pool_ok (HKS := HKS) (<[x := set_type MQ_ALLOC_DYN raw_msg]> m) Q h' (put PHeld [x] pl).
Proof.
  intros [A B C D L Al Lv _] Hpl HQ Hx Hsz [H1 H2] Hd Hh'. assert (owns (x, sz) x) as Hox by (unfold owns; simpl; lia).
  assert (m !! x = None) as Ex by (destruct (m !! x) eqn:E; [|done]; destruct (H1 x ltac:(eauto)) as [Hb Ho]; by destruct (Hd _ Hb)).
  assert (forall p, x ∉ pl p) as Hxp by (intros p Hxp; destruct (B _ _ Hxp) as [_ [n En]]; congruence).
  assert (forall p y, y ∈ put PHeld [x] pl p -> (y = x /\ p = PHeld) \/ y ∈ pl p) as Hin.
  { intros p y. unfold put. case_decide; [subst|by right]. intros ->%list_elem_of_singleton. by left. }
  split; [done|]. split.
  - intros p q Hq. destruct (decide (p = PHeld)) as [->|Hp]; [congruence|]. rewrite put_ne by done.
    apply (sq_repr_ext m); [|by apply A]. intros y Hy. apply lookup_insert_ne. intros <-. by apply (Hxp p).
  - intros p y [[-> ->]|Hy]%Hin; [apply valid_insert_eq; lia|]. apply valid_insert. by eapply B.
  - intros p p' y [[-> ->]|Hy]%Hin [[E ->]|Hy']%Hin; try done; [by destruct (Hxp p')|subst y; by destruct (Hxp p)|by eapply C].
  - intros p y n Hy. rewrite lookup_insert. case_decide as Ey.
    + subst y. intros [= <-]. destruct (Hin _ _ Hy) as [[_ ->]|Hy']; [simpl; tauto|by destruct (Hxp p)].
    + intros En. destruct (Hin _ _ Hy) as [[-> _]|Hy']; [done|by eapply D].
  - intros y n. rewrite lookup_insert. case_decide; [by intros [= <-]|by apply L].
  - intros y. rewrite lookup_insert_is_Some. intros [->|[Hne Hy]]; [exists PHeld; rewrite put_eq; left|].
    destruct (Al y Hy) as [p Hp]. exists p. rewrite put_ne; [done|]. intros <-. rewrite Hpl in Hp. set_solver.
  - intros p Hp. rewrite put_ne by done. by apply Lv.
  - exists ((x, sz) :: bl), (fun y => if decide (y = x) then (x, sz) else blk y). split; [done|].
    assert (forall y, is_Some (m !! y) -> blk y <> (x, sz)) as Hne by (intros y Hy E; destruct (H1 y Hy) as [Hb Ho]; rewrite E in Hb; by apply (Hd _ Hb)).
    split.
    + intros y Hy. case_decide as E; [subst; split; [left|done]|]. rewrite lookup_insert_ne in Hy by done.
      destruct (H1 y Hy). split; [by right|done].
    + intros y n En Ht. case_decide as E.
      * subst y. split; [done|]. intros z Hz. case_decide as Ez; [done|]. rewrite lookup_insert_ne in Hz by done.
        intros Eb. by destruct (Hne z Hz).
      * rewrite lookup_insert_ne in En by done. destruct (H2 y n En Ht) as [H3 H4]. split; [done|]. intros z Hz. case_decide as Ez.
        -- intros Eb. by destruct (Hne y ltac:(eauto)).
        -- rewrite lookup_insert_ne in Hz by done. by apply H4.
Qed.

(** A new structure is allocated and held. *)
Lemma pool_new (m : gmap Z mqmsg) (Q : place -> option sq_queue) (h : HT) (pl : places) pid :
  pool_ok m Q h pl -> 0 <= pid -> pl PHeld = [] -> Q PHeld = None ->
  wp (kmalloc pid SIZEOF_MQMSG h) (fun '(x, h') =>
    (x = NULL /\ pool_ok m Q h' pl)
    \/ (x <> NULL /\ m !! x = None /\ pool_ok (<[x := set_type MQ_ALLOC_DYN raw_msg]> m) Q h' (put PHeld [x] pl))).
Proof.
  intros HP Hpid Hpl HQ. pose proof HP as [A B C D L Al Lv (bl & blk & Hh & Hhm)].
  eapply wp_mono; [apply (kmalloc_ok pid SIZEOF_MQMSG h bl); unfold SIZEOF_MQMSG; done || lia|].
  intros [x h'] [(-> & Hh')|(s & Hx0 & Hs & Hh' & Hd)]; [left; split; [done|]; split; try done; by exists bl, blk|].
  right. unfold SIZEOF_MQMSG in Hs. split; [lia|]. eapply (pool_adopt _ m Q h h' pl x s bl blk); try done; [lia|].
  intros d Hb. apply (Hd d x Hb). unfold owns. simpl. lia.
Qed.

End new.
