(* ===== verification/MqSpec.v ===== *)
(** * Message queues: the invariant and the steps of the calls

    [mq_refines] ties the state of the message queues to the abstract scheduler:
    the message structures are in their places, each queue is sorted by priority
    and counted, and the waiter counts agree with the lists of blocked tasks. *)

From stdpp Require Import sorting.
From S2P Require Import Prelude Queue Sched SchedInv SchedOps SchedSpec Sem SemSpec KHeap Mq MqWait MqPool.

Section spec.
  Context {HT : Type} {HK : KHeap HT} {HKS : KHeapSpec HT} {SC : SchedConfig}.
  Implicit Types (s : mq_sys HT).

(** ** The contents of a queue *)

Fixpoint walk (fuel : nat) (m : gmap Z mqmsg) (p : ptr) : list Z :=
  match fuel with
  | O => []
  | S fuel => if decide (p = NULL) then [] else p :: walk fuel m (from_option m_next NULL (m !! p))
  end.

(** The priorities and the data of the messages of a queue, in order. *)
Definition mq_contents s (q : Z) : list (Z * list Z) :=
  match q_msgqs s !! q with
  | Some g => mdata (q_msgs s) <$> walk (list_fuel (q_msgs s)) (q_msgs s) (sq_head (msglist g))
  | None => []
  end.

(** A message goes behind those of its priority and of higher ones. *)
Fixpoint enqueue_msg (c : Z * list Z) (v : list (Z * list Z)) : list (Z * list Z) :=
  match v with
  | [] => [c]
  | d :: v => if c.1 <=? d.1 then d :: enqueue_msg c v else c :: d :: v
  end.

(** ** The invariant *)

Definition heads s (p : place) : option sq_queue :=
  match p with
  | PFree => Some (g_msgfree s)
  | PIrq => Some (g_msgfreeirq s)
  | PDelayed => Some (g_delayeddeallocations s)
  | PHeld => None
  | PQueue q => msglist <$> q_msgqs s !! q
  end.

Record queue_ok (m : gmap Z mqmsg) (l : list Z) (g : msgq_s) : Prop := QueueOk {
  qo_count : nmsgs g = Z.of_nat (length l);
  qo_room : nmsgs g <= SEM_VALUE_MAX;
  qo_sorted : sorted (mprio m) l;
  qo_size : 0 <= maxmsgsize g <= MQ_MAX_BYTES
}.

Record mq_ok s (a : asched) (pl : places) : Prop := MqOk {
  mo_pool : pool_ok (q_msgs s) (heads s) (q_heap s) pl;
  mo_queue : forall q g, q_msgqs s !! q = Some g -> queue_ok (q_msgs s) (pl (PQueue q)) g;
  mo_waits : waits_ok (q_msgqs s) a;
  mo_des : forall d e, q_des s !! d = Some e -> is_Some (q_msgqs s !! d_msgq e)
}.

Definition mq_state (idle : Z) s (a : asched) (pl : places) : Prop :=
  refines (q_kernel s) a /\ sched_inv idle a /\ mq_ok s a pl.

(** Between calls no message structure is held. *)
Definition mq_refines (idle : Z) s (a : asched) : Prop := exists pl, pl PHeld = [] /\ mq_state idle s a pl.

(** A task that is ready to run, perhaps as soon as the scheduler is unlocked. *)
Definition runnable (x : Z) (a : asched) : Prop := x ∈ as_lists a TL_readytorun \/ x ∈ as_lists a TL_pendingtasks.

(** ** Reading the contents *)

Lemma walk_sseg fuel m l : sseg m l NULL -> NULL ∉ l -> (length l < fuel)%nat -> walk fuel m (hdp NULL l) = l.
Proof.
  revert l. induction fuel as [|fuel IH]; intros l Hs H0 Hf; [lia|]. destruct l as [|x l]; cbn [walk head default from_option id]; [by rewrite decide_True|].
  destruct Hs as [(n & En & Fn) Hs]. rewrite decide_False by set_solver. rewrite En. cbn [from_option]. change (m_next n) with (sflink n). rewrite Fn.
  f_equal. apply IH; [done|set_solver|simpl in Hf; lia].
Qed.

Lemma walk_repr m q l : sq_repr m q l -> walk (list_fuel m) m (sq_head q) = l.
Proof.
  intros Hr. rewrite (sqr_head _ _ _ Hr). apply walk_sseg; [apply Hr|apply Hr|]. pose proof (sq_repr_length _ _ _ Hr). unfold list_fuel. lia.
Qed.

Lemma contents_eq s a pl q g : mq_ok s a pl -> q_msgqs s !! q = Some g -> mq_contents s q = mdata (q_msgs s) <$> pl (PQueue q).
Proof.
  intros HM Hq. unfold mq_contents. rewrite Hq. f_equal. apply walk_repr. apply (po_repr _ _ _ _ (mo_pool _ _ _ HM) (PQueue q)).
  simpl. by rewrite Hq.
Qed.

(** The contents of a queue are the same when its structures are in the same place. *)
Lemma contents_same s s' a a' pl pl' q :
  mq_ok s a pl -> mq_ok s' a' pl' -> (is_Some (q_msgqs s !! q) <-> is_Some (q_msgqs s' !! q)) -> pl' (PQueue q) = pl (PQueue q) ->
  (forall x, x ∈ pl (PQueue q) -> mdata (q_msgs s') x = mdata (q_msgs s) x) -> mq_contents s' q = mq_contents s q.
Proof.
  intros HM HM' Hi Hp Hd. destruct (q_msgqs s !! q) as [g|] eqn:Eq.
  - destruct (proj1 Hi ltac:(eauto)) as [g' Eq']. rewrite (contents_eq s a pl q g), (contents_eq s' a' pl' q g') by done. rewrite Hp.
    apply list_fmap_ext. intros i x Hx. apply Hd. by eapply list_elem_of_lookup_2.
  - unfold mq_contents. rewrite Eq. destruct (q_msgqs s' !! q) eqn:Eq'; [|done]. destruct (proj2 Hi ltac:(eauto)) as [? ?]. done.
Qed.

Lemma enqueue_ins m x l : mdata m <$> ins (mprio m) x l = enqueue_msg (mdata m x) (mdata m <$> l).
Proof.
  assert (forall y, (mdata m y).1 = mprio m y) as E by (intros y; unfold mdata, mprio; by destruct (m !! y)).
  induction l as [|y l IH]; [done|]. rewrite fmap_cons. cbn [ins enqueue_msg]. rewrite !E. case_match; [|done]. by rewrite fmap_cons, IH.
Qed.

(** ** The scheduler calls *)

Lemma mq_kernel idle s a pl k' a' :
  mq_state idle s a pl -> same_waits a a' -> refines k' a' -> sched_inv idle a' -> mq_state idle (with_q_kernel k' s) a' pl.
Proof. intros (_ & _ & [A B C D]) Hs Hr HI. split; [done|]. split; [done|]. split; [done|done|by eapply waits_same|done]. Qed.

Lemma runnable_set f x a y : runnable y (a_set f x a) <-> runnable y a.
Proof. done. Qed.

Lemma runnable_unlock y a : runnable y a -> runnable y (a_unlock a).
Proof.
  unfold a_unlock, runnable. case_match; [|done]. unfold a_merge, merge_lists. simpl. rewrite upd_eq, upd_ne, upd_eq by done.
  rewrite merged_perm, elem_of_app. tauto.
Qed.

(** The state of the interrupt, the waiters of the queues and the ready tasks stay. *)
Record calm (a a' : asched) : Prop := Calm {
  cm_waits : same_waits a a';
  cm_int : as_int a' = as_int a;
  cm_ready : forall y, runnable y a -> runnable y a'
}.

Lemma calm_trans a1 a2 a3 : calm a1 a2 -> calm a2 a3 -> calm a1 a3.
Proof. intros [A B C] [A' B' C']. split; [by eapply same_waits_trans|congruence|auto]. Qed.

Lemma lock_ok idle s a pl :
  mq_state idle s a pl -> (as_int a = false -> alk a (arun a) < MAX_LOCK_COUNT) ->
  wp (sched_lock (q_kernel s)) (fun k' => exists a', mq_state idle (with_q_kernel k' s) a' pl /\ calm a a'
    /\ (forall l, as_lists a' l = as_lists a l) /\ (forall y, apr a' y = apr a y) /\ (as_int a = false -> alk a' (arun a') = alk a (arun a) + 1)
    /\ (as_int a = true -> a' = a)).
Proof.
  intros HM Hlk. pose proof HM as (Hr & HI & HO). destruct (as_int a) eqn:Ei.
  - pose proof Hr as (_ & _ & EI). unfold sched_lock. rewrite EI, Ei. case_decide; apply wp_ret; exists a; (split; [by eapply mq_kernel|done]).
  - eapply wp_mono; [by apply (sched_lock_ok _ a idle); auto|]. intros k' [Hr' HI']. exists (a_lock a).
    assert (same_waits a (a_lock a)) as Hs by by apply same_waits_set.
    split; [by eapply mq_kernel|]. split; [by split|]. split; [done|]. split; [intros y; unfold a_lock; by rewrite apr_set|]. split; [|done].
    intros _. change (arun (a_lock a)) with (arun a). unfold a_lock. rewrite alk_set_lock. case_decide as Ed; [done|].
    exfalso. apply Ed. split; [done|]. eapply (ref_is_Some (q_kernel s) a); [done|]. eapply ref_run_valid; [done|]. by destruct HI.
Qed.

Lemma unlock_ok idle s a pl :
  mq_state idle s a pl ->
  wp (sched_unlock (q_kernel s)) (fun '(_, k') => exists a', mq_state idle (with_q_kernel k' s) a' pl /\ calm a a').
Proof.
  intros HM. pose proof HM as (Hr & HI & HO). destruct (as_int a) eqn:Ei.
  - pose proof Hr as (_ & _ & EI). unfold sched_unlock. rewrite EI, Ei. case_decide; apply wp_ret; exists a; (split; [by eapply mq_kernel|done]).
  - eapply wp_mono; [by apply (sched_unlock_ok _ a idle)|]. intros [b k'] (Hr' & HI' & _). exists (a_unlock a).
    pose proof (same_waits_unlock a) as Hs. split; [by eapply mq_kernel|]. split; [done| |intros y; apply runnable_unlock].
    unfold a_unlock. by case_match.
Qed.

(** The message structures, the queues, the descriptors and the heap are the same. *)
Definition same_store s s' : Prop :=
  q_msgs s' = q_msgs s /\ q_msgqs s' = q_msgqs s /\ q_des s' = q_des s /\ q_heap s' = q_heap s
  /\ g_msgfree s' = g_msgfree s.

Definition errno_of (k : kernel) (x : Z) : Z := from_option pterrno 0 (k_tcbs k !! x).

Lemma errno_ok idle s a pl e :
  mq_state idle s a pl ->
  wp (q_errno e s) (fun s' => exists a', mq_state idle s' a' pl /\ calm a a' /\ (forall l, as_lists a' l = as_lists a l)
    /\ (forall y, apr a' y = apr a y) /\ same_store s s' /\ (as_int a = false -> errno_of (q_kernel s') (arun a) = e)).
Proof.
  intros HM. pose proof HM as (Hr & HI & HO). unfold q_errno, set_errno. destruct (as_int a) eqn:Ei.
  - pose proof Hr as (_ & _ & EI). unfold get_errno_ptr. change (s_kernel (q_sys s)) with (q_kernel s). rewrite EI, Ei. apply wp_bind, wp_bind, wp_ret.
    repeat apply wp_ret. exists a. split; [|done]. split; [done|]. split; [done|]. destruct HO as [A B C D]. by split.
  - rewrite (errno_ptr_ok idle _ a) by done. apply wp_bind, wp_bind, wp_ret. apply wp_bind.
    assert (valid (k_tcbs (q_kernel s)) (arun a)) as Hv by (eapply ref_run_valid; [done|apply HI]).
    apply wp_store; [exact Hv|]. repeat apply wp_ret.
    destruct (quiet_ok idle _ (arun a) _ _ (quiet_errno e) Hr HI) as [Hr' HI']. exists (a_set (set_pterrno e) (arun a) a).
    assert (same_waits a (a_set (set_pterrno e) (arun a) a)) as Hs by by apply same_waits_set.
    split; [by apply (mq_kernel idle s a)|]. split; [by split|]. split; [done|]. split; [intros y; by rewrite apr_set|]. split; [done|].
    intros _. destruct Hv as [_ [t Et]]. unfold errno_of, q_kernel in *. simpl. rewrite lookup_alter_eq, Et. done.
Qed.

(** ** Waking the first task that waits for a queue *)

(** [wake_receiver] and [wake_sender] are the same code for two lists. *)
Definition wake (l : tasklist) (msgq : ptr) s : res (mq_sys HT) :=
  g ← deref (q_msgqs s) msgq;
  if 0 <? nwait l g then
    let m := k_tcbs (q_kernel s) in
    btcb ← mq_search (list_fuel m) m (dq_head (get_list l (q_kernel s))) msgq;
    if decide (btcb = NULL) then c_panic
    else
      m ← store (set_msgwaitq NULL) btcb m;
      gs ← store (set_nwait l (s16 (nwait l g - 1))) msgq (q_msgqs s);
      '(_, k) ← up_unblock_task btcb (set_tcbs m (q_kernel s));
      Ok (with_q_kernel k (with_msgqs gs s))
  else Ok s.

Lemma quiet_msgwaitq q : quiet (set_msgwaitq q).
Proof. by repeat split. Qed.

Lemma mq_set q x a y : is_Some (as_tasks a !! x) -> a_mq (a_set (set_msgwaitq q) x a) y = if decide (y = x) then q else a_mq a y.
Proof.
  intros [t Et]. unfold a_mq. simpl. case_decide as E; [subst; by rewrite lookup_alter_eq, Et|by rewrite lookup_alter_ne].
Qed.

(** A queue whose waiter counts change is still in order. *)
Lemma queue_ok_waits m l g lst n : queue_ok m l g -> queue_ok m l (set_nwait lst n g).
Proof. intros [A B C D]. by destruct lst; split. Qed.

Lemma heads_waits s gs q g lst n :
  q_msgqs s !! q = Some g -> gs = <[q := set_nwait lst n g]> (q_msgqs s) -> forall p, heads (with_msgqs gs s) p = heads s p.
Proof.
  intros Hq -> [| | | |q']; try done. simpl. destruct (decide (q = q')) as [<-|]; [|by rewrite lookup_insert_ne].
  rewrite lookup_insert_eq, Hq. by destruct lst.
Qed.

Lemma unblock_runnable x y a : runnable y a -> x <> y -> runnable y (a_unblock x a).
Proof.
  assert (forall l, y ∈ l -> x <> y -> y ∈ list_rem x l) as Hrem.
  { intros l Hy Hne. induction l as [|z l IH]; [done|]. simpl. apply elem_of_cons in Hy. case_decide; subst; [|rewrite elem_of_cons]; naive_solver. }
  unfold runnable, a_unblock, a_enter. intros Hy Hne. case_match; simpl; unfold upd; repeat case_decide; try done; rewrite ?ins_elem; naive_solver.
Qed.

(** What a change of the waiter counts of [q] keeps. *)
Lemma mq_ok_waits s a' pl q g lst n :
  pool_ok (q_msgs s) (heads s) (q_heap s) pl ->
  (forall q g, q_msgqs s !! q = Some g -> queue_ok (q_msgs s) (pl (PQueue q)) g) ->
  (forall d e, q_des s !! d = Some e -> is_Some (q_msgqs s !! d_msgq e)) ->
  q_msgqs s !! q = Some g -> waits_ok (<[q := set_nwait lst n g]> (q_msgqs s)) a' ->
  mq_ok (with_msgqs (<[q := set_nwait lst n g]> (q_msgqs s)) s) a' pl.
Proof.
  intros HP HQ HD Hq HW. split.
  - eapply pool_ext; [by eapply heads_waits| |exact HP]. done.
  - intros q' g'. simpl. rewrite lookup_insert. case_decide; [subst; intros [= <-]; by apply queue_ok_waits, HQ|by apply HQ].
  - done.
  - intros d e Hd. simpl. rewrite lookup_insert. case_decide; eauto.
Qed.

Lemma wake_ok idle s a pl l q g :
  mq_state idle s a pl -> parked l -> q_msgqs s !! q = Some g ->
  wp (wake l q s) (fun s' => exists a', mq_state idle s' a' pl /\ as_int a' = as_int a
    /\ mqw l q a' = tail (mqw l q a) /\ (forall l' q', parked l' -> l' <> l \/ q' <> q -> mqw l' q' a' = mqw l' q' a)
    /\ (forall x, head (mqw l q a) = Some x -> runnable x a') /\ (forall y, runnable y a -> runnable y a')
    /\ q_msgs s' = q_msgs s /\ q_des s' = q_des s /\ (forall p, heads s' p = heads s p)
    /\ (forall q', is_Some (q_msgqs s' !! q') <-> is_Some (q_msgqs s !! q'))).
Proof.
  intros HM Hl Hq. pose proof HM as (Hr & HI & HO). pose proof HO as [HP HQ HW HD].
  destruct (wk_count _ _ HW _ _ _ Hl Hq) as [Hqn Hn]. unfold wake. apply wp_bind. eapply wp_deref; [done|exact Hq|].
  destruct (Z.ltb_spec 0 (nwait l g)) as [Hpos|Hz].
  2:{ apply wp_ret. exists a. assert (mqw l q a = []) as -> by (destruct (mqw l q a); [done|simpl in Hn; lia]). done. }
  apply wp_bind. rewrite (mq_search_ok _ a) by done. apply wp_ret.
  destruct (mqw l q a) as [|x w] eqn:Ew; [simpl in Hn; lia|]. cbn [head default from_option id tail].
  assert (x ∈ mqw l q a) as Hxw by (rewrite Ew; left). pose proof Hxw as [Hxq Hx]%list_elem_of_filter.
  pose proof Hr as (HR & _ & _). pose proof (ref_valid _ _ Hr _ _ Hx) as Hv. rewrite decide_False by (by eapply valid_ne).
  apply wp_bind, wp_store; [done|]. apply wp_bind, wp_store; [split; eauto|].
  destruct (quiet_ok idle _ x _ _ (quiet_msgwaitq NULL) Hr HI) as [Hr2 HI2]. set (a2 := a_set (set_msgwaitq NULL) x a) in *.
  destruct (parked_list _ Hl) as (_ & Hb & Hl1 & Hl2).
  apply wp_bind. eapply wp_mono; [apply (up_unblock_task_ok _ a2 idle x l Hr2 HI2 Hx Hb)|].
  intros [b k'] (Hr' & HI' & _). apply wp_ret. pose proof (ref_is_Some _ a x Hr Hv) as Hsx.
  destruct (waits_unblock (q_kernel s) a a2 (q_msgqs s) l q g x HW Hr Hl Hx Hxq Hq) as (_ & HW' & Eq & Eo).
  { done. } { intros y. by apply mq_set. } { apply size_set. } { intros y. by apply field_set. }
  pose proof (nwait_small _ a _ l q g Hr HW Hl Hq) as Hsm. unfold SEM_VALUE_MAX in Hsm.
  assert (alter (set_nwait l (s16 (nwait l g - 1))) q (q_msgqs s) = <[q := set_nwait l (nwait l g - 1) g]> (q_msgqs s)) as ->.
  { rewrite s16_id by lia. apply map_eq. intros i. rewrite lookup_alter, lookup_insert. case_decide; [subst; by rewrite Hq|done]. }
  exists (a_unblock x a2).
  pose proof (mq_ok_waits s (a_unblock x a2) pl q g l (nwait l g - 1) HP HQ HD Hq HW') as HO'.
  split; [split; [done|]; split; [done|]; destruct HO' as [A' B' C' D']; by split|]. split; [unfold a_unblock, a_enter; by case_match|].
  split; [rewrite Eq, Ew; simpl; by rewrite decide_True|]. split; [done|]. split; [intros y [= <-]; apply unblock_ready|].
  split. { intros y Hy. apply unblock_runnable; [done|]. intros ->. destruct Hy as [Hy|Hy]; [apply Hl1|apply Hl2]; by apply (sr_disj _ _ HR _ _ _ Hx Hy). }
  split; [done|]. split; [done|]. split; [by eapply heads_waits|]. intros q'. simpl. rewrite lookup_insert. case_decide; [subst|done]. rewrite Hq. split; eauto.
Qed.

(** ** Taking and returning message structures *)

Definition can_alloc s : Prop :=
  sq_head (g_msgfree s) <> NULL
  \/ exists pid p h, getpid (q_kernel s) = Ok pid /\ kmalloc pid SIZEOF_MQMSG (q_heap s) = Ok (p, h) /\ p <> NULL.

Lemma queue_ok_ext m m' l g : (forall y, y ∈ l -> mprio m' y = mprio m y) -> queue_ok m l g -> queue_ok m' l g.
Proof. intros Hp [A B C D]. split; try done. by eapply sorted_ext. Qed.

(** The pool changed and the queues did not. *)
Lemma mq_ok_pool s s' a pl pl' :
  mq_ok s a pl -> pool_ok (q_msgs s') (heads s') (q_heap s') pl' -> q_msgqs s' = q_msgqs s -> q_des s' = q_des s ->
  (forall q, pl' (PQueue q) = pl (PQueue q)) -> (forall q y, y ∈ pl (PQueue q) -> mprio (q_msgs s') y = mprio (q_msgs s) y) ->
  mq_ok s' a pl'.
Proof.
  intros [A B C D] HP Eg Ed Ep Em. split; [done| |by rewrite Eg|].
  - intros q g. rewrite Eg, Ep. intros Hq. eapply queue_ok_ext; [|by apply B]. apply Em.
  - intros d e. rewrite Eg, Ed. apply D.
Qed.

Lemma getpid_ok idle s a pl : mq_state idle s a pl -> getpid (q_kernel s) = Ok (a_pid a (arun a)) /\ 0 <= a_pid a (arun a).
Proof.
  intros (Hr & HI & HO). split; [|apply (wk_pid _ _ (mo_waits _ _ _ HO))]. unfold getpid. rewrite (ref_run _ a Hr).
  destruct (ref_run_valid _ _ _ Hr (proj1 HI)) as [Hn [t Et]]. rewrite (deref_Some _ _ t) by done. cbn.
  destruct Hr as (_ & ET & _). unfold a_pid. by rewrite <-ET, lookup_fmap, Et.
Qed.

(** What a call that moves structures outside the queues keeps. *)
Definition queues_kept s s' (pl pl' : places) : Prop :=
  (forall q, pl' (PQueue q) = pl (PQueue q)) /\ (forall q y, y ∈ pl (PQueue q) -> mdata (q_msgs s') y = mdata (q_msgs s) y)
  /\ q_kernel s' = q_kernel s /\ q_msgqs s' = q_msgqs s /\ q_des s' = q_des s.

Lemma mprio_mdata m x : mprio m x = (mdata m x).1.
Proof. unfold mprio, mdata. by destruct (m !! x). Qed.

Lemma state_pool idle s s' a pl pl' :
  mq_state idle s a pl -> queues_kept s s' pl pl' -> pool_ok (q_msgs s') (heads s') (q_heap s') pl' -> mq_state idle s' a pl'.
Proof.
  intros (Hr & HI & HO) (E1 & E2 & Ek & Eg & Ed) HP. split; [by rewrite Ek|]. split; [done|]. eapply mq_ok_pool; try done.
  intros q y Hy. rewrite !mprio_mdata. by rewrite (E2 q y Hy).
Qed.

(** The first structure of a list of spare ones is taken; [f] puts the list back. *)
Lemma take_spare_ok idle s (f : sq_queue -> gmap Z mqmsg -> mq_sys HT) a pl p q :
  mq_state idle s a pl -> pl PHeld = [] -> heads s p = Some q -> p <> PHeld -> (forall q, p <> PQueue q) ->
  (forall q m, q_kernel (f q m) = q_kernel s /\ q_msgqs (f q m) = q_msgqs s /\ q_des (f q m) = q_des s /\ q_msgs (f q m) = m
     /\ q_heap (f q m) = q_heap s /\ forall p', heads (f q m) p' = qput p q (heads s) p') ->
  wp (sq_remfirst q (q_msgs s)) (fun '(x, (q, m)) => x = hdp NULL (pl p) /\ exists pl',
    mq_state idle (f q m) a pl' /\ pl' PHeld = take 1 (pl p) /\ pl' p = tail (pl p)
    /\ (forall p', p' <> PHeld -> p' <> p -> pl' p' = pl p') /\ queues_kept s (f q m) pl pl' /\ frame sunlink (pl p) (q_msgs s) m).
Proof.
  intros HM Hh Hq Hp Hpq Hf. pose proof HM as (_ & _ & HO). eapply wp_mono; [by apply (pool_take _ _ _ _ (mo_pool _ _ _ HO) p)|].
  intros [x [q' m]] (-> & Hfr & HP). split; [done|]. destruct (Hf q' m) as (E1 & E2 & E3 & E4 & E5 & E6).
  exists (put PHeld (take 1 (pl p)) (put p (tail (pl p)) pl)).
  assert (queues_kept s (f q' m) pl (put PHeld (take 1 (pl p)) (put p (tail (pl p)) pl))) as Hk.
  { split; [intros q0; by rewrite !put_ne|]. split; [|done]. intros q0 y _. rewrite E4. by eapply mdata_frame. }
  split; [eapply state_pool; [done|exact Hk|]; rewrite E4, E5; by eapply pool_ext|].
  split; [by rewrite put_eq|]. split; [by rewrite put_ne, put_eq|]. split; [|by split]. intros p' H1 H2. by rewrite !put_ne.
Qed.

Lemma take_free_ok idle s a pl :
  mq_state idle s a pl -> pl PHeld = [] ->
  wp (sq_remfirst (g_msgfree s) (q_msgs s)) (fun '(x, (q, m)) => x = hdp NULL (pl PFree) /\ exists pl',
    mq_state idle (with_msgfree q m s) a pl' /\ pl' PHeld = take 1 (pl PFree) /\ pl' PIrq = pl PIrq
    /\ queues_kept s (with_msgfree q m s) pl pl').
Proof.
  intros HM Hh. eapply wp_mono; [apply (take_spare_ok idle s (fun q m => with_msgfree q m s) a pl PFree); try done; (intros q m; repeat (split; [done|]); by intros [])|].
  intros [x [q m]] (-> & pl' & H1 & H2 & _ & H3 & H4 & _). split; [done|]. exists pl'. rewrite (H3 PIrq) by done. done.
Qed.

Lemma take_irq_ok idle s a pl :
  mq_state idle s a pl -> pl PHeld = [] ->
  wp (sq_remfirst (g_msgfreeirq s) (q_msgs s)) (fun '(x, (q, m)) => x = hdp NULL (pl PIrq) /\ exists pl',
    mq_state idle (with_msgfreeirq q m s) a pl' /\ pl' PHeld = take 1 (pl PIrq) /\ queues_kept s (with_msgfreeirq q m s) pl pl').
Proof.
  intros HM Hh. eapply wp_mono; [apply (take_spare_ok idle s (fun q m => with_msgfreeirq q m s) a pl PIrq); try done; (intros q m; repeat (split; [done|]); by intros [])|].
  intros [x [q m]] (-> & pl' & H1 & H2 & _ & H3 & H4 & _). split; [done|]. by exists pl'.
Qed.

Lemma kept_refl s pl : queues_kept s s pl pl.
Proof. by split. Qed.

Lemma kept_trans s1 s2 s3 p1 p2 p3 : queues_kept s1 s2 p1 p2 -> queues_kept s2 s3 p2 p3 -> queues_kept s1 s3 p1 p3.
Proof.
  intros (A & B & C & D & E) (A' & B' & C' & D' & E'). split; [intros; by rewrite A'|]. split; [|by rewrite C', D', E'].
  intros q y Hy. rewrite (B' q); [by apply (B q)|]. by rewrite A.
Qed.

Lemma held_cases idle s a pl l : mq_state idle s a pl -> pl PHeld = take 1 l ->
  pl PHeld = if decide (hdp NULL l = NULL) then [] else [hdp NULL l].
Proof.
  intros (_ & _ & HO) E. destruct l as [|x l]; [done|]. simpl. rewrite decide_False; [done|].
  eapply valid_ne, (po_valid _ _ _ _ (mo_pool _ _ _ HO) PHeld). rewrite E. left.
Qed.

Lemma msgalloc_ok idle s a pl :
  mq_state idle s a pl -> pl PHeld = [] -> (as_int a = false -> can_alloc s) ->
  wp (mq_msgalloc s) (fun '(x, s') => exists pl', mq_state idle s' a pl' /\ pl' PHeld = (if decide (x = NULL) then [] else [x])
    /\ (x = NULL -> as_int a = true) /\ queues_kept s s' pl pl').
Proof.
  intros HM Hh Hcan. pose proof HM as (Hr & HI & HO). pose proof Hr as (_ & _ & EI). unfold mq_msgalloc. rewrite EI.
  destruct (as_int a) eqn:Ei.
  - apply wp_bind. eapply wp_mono; [by apply (take_free_ok idle s a pl)|]. intros [x [q m]] (-> & pl1 & HM1 & Hh1 & Hi1 & Hk1). cbv zeta.
    pose proof (held_cases _ _ _ _ _ HM1 Hh1) as Hc. destruct (decide (hdp NULL (pl PFree) = NULL)) as [E|E].
    + apply wp_bind. eapply wp_mono; [by apply (take_irq_ok idle _ a pl1)|]. intros [x [q2 m2]] (-> & pl2 & HM2 & Hh2 & Hk2).
      apply wp_ret. exists pl2. split; [done|]. split; [by eapply held_cases|]. split; [done|]. by eapply kept_trans.
    + apply wp_ret. exists pl1. split; [done|]. split; [by rewrite decide_False|]. split; [done|done].
  - apply wp_bind. eapply wp_mono; [by apply (take_free_ok idle s a pl)|]. intros [x [q m]] (-> & pl1 & HM1 & Hh1 & _ & Hk1). cbv zeta.
    pose proof (held_cases _ _ _ _ _ HM1 Hh1) as Hc. destruct (decide (hdp NULL (pl PFree) = NULL)) as [E|E].
    + destruct (Hcan eq_refl) as [Hne|(pid & p & h & Hpid & Hk & Hp)].
      { exfalso. apply Hne. rewrite (sqr_head _ _ _ (po_repr _ _ _ _ (mo_pool _ _ _ HO) PFree _ eq_refl)). done. }
      change (q_kernel (with_msgfree q m s)) with (q_kernel s). change (q_heap (with_msgfree q m s)) with (q_heap s).
      rewrite Hpid. apply wp_bind, wp_ret. rewrite Hk. apply wp_bind, wp_ret. rewrite decide_False by done. apply wp_ret.
      destruct (getpid_ok _ _ _ _ HM) as [Hpid' Hp0]. rewrite Hpid in Hpid'. injection Hpid' as ->.
      pose proof HM1 as (_ & _ & HO1). pose proof (pool_new _ _ _ _ (a_pid a (arun a)) (mo_pool _ _ _ HO1) Hp0 Hc eq_refl) as Hnew.
      cbn [q_heap with_msgfree] in Hnew. rewrite Hk in Hnew. destruct Hnew as [[-> _]|(_ & Hnone & HP)]; [done|]. exists (put PHeld [p] pl1).
      match goal with |- mq_state _ ?st _ _ /\ _ => assert (queues_kept (with_msgfree q m s) st pl1 (put PHeld [p] pl1)) as Hk2 end.
      { split; [intros q'; by rewrite put_ne|]. split; [|done]. intros q' y Hy. unfold mdata. simpl. rewrite lookup_insert_ne; [done|].
        intros ->. destruct (po_valid _ _ _ _ (mo_pool _ _ _ HO1) _ _ Hy) as [_ [n En]]. simpl in *. congruence. }
      split; [eapply state_pool; [exact HM1|exact Hk2|]; eapply pool_ext; [|done|exact HP]; by intros []|].
      split; [by rewrite put_eq, decide_False|]. split; [done|]. by eapply kept_trans.
    + apply wp_ret. exists pl1. split; [done|]. split; [by rewrite decide_False|]. split; [done|done].
Qed.

Lemma give_ok idle s (f : sq_queue -> gmap Z mqmsg -> mq_sys HT) a pl p q x :
  mq_state idle s a pl -> pl PHeld = [x] -> p <> PHeld -> (forall q', p <> PQueue q') -> heads s p = Some q ->
  (forall n, q_msgs s !! x = Some n -> type_at p n) ->
  (forall q m p', heads (f q m) p' = qput p q (heads s) p') -> (forall q m, q_msgs (f q m) = m) -> (forall q m, q_heap (f q m) = q_heap s) ->
  (forall q m, q_kernel (f q m) = q_kernel s /\ q_msgqs (f q m) = q_msgqs s /\ q_des (f q m) = q_des s) ->
  wp (sq_addlast x q (q_msgs s)) (fun '(q, m) => exists pl', mq_state idle (f q m) a pl' /\ pl' PHeld = [] /\ queues_kept s (f q m) pl pl').
Proof.
  intros HM Hh Hp Hpq Hq Ht E1 E2 E3 E4. pose proof HM as (_ & _ & HO).
  eapply wp_mono; [apply (pool_addlast _ _ _ _ (mo_pool _ _ _ HO) p q x); done|]. intros [q2 m2] [Hf HP].
  eexists. assert (queues_kept s (f q2 m2) pl (put PHeld [] (put p (pl p ++ [x]) pl))) as Hk.
  { split; [intros q'; rewrite !put_ne; [done|by apply Hpq|done]|]. split; [|apply E4]. intros q' y _. rewrite E2. by eapply mdata_frame. }
  split; [eapply state_pool; [done|exact Hk|]|split; [by rewrite put_eq|done]].
  rewrite E2, E3. eapply pool_ext; [|done|exact HP]. intros p'. apply E1.
Qed.

(** A structure that is held and was allocated on its own can go back to the heap. *)
Lemma drop_ok idle s a pl x n :
  mq_state idle s a pl -> pl PHeld = [x] -> q_msgs s !! x = Some n -> m_type n = MQ_ALLOC_DYN ->
  exists b bl, b.1 = x /\ heap_rep None (q_heap s) (b :: bl) /\ forall h', heap_rep None h' bl ->
    let s' := with_heap h' (with_msgs (delete x (q_msgs s)) s) in
    mq_state idle s' a (put PHeld [] pl) /\ queues_kept s s' pl (put PHeld [] pl).
Proof.
  intros HM Hh En Ed. pose proof HM as (_ & _ & HO). pose proof (mo_pool _ _ _ HO) as HP. pose proof HP as [_ _ _ _ _ _ _ (bl & blk & Hrep & Hhm)].
  destruct (proj1 Hhm x ltac:(eauto)) as [Hbx _]. apply elem_of_Permutation in Hbx as [bl' Hbl'].
  exists (blk x), bl'. split; [exact (proj1 (proj2 Hhm x n En Ed))|]. split; [by apply (heap_perm _ _ bl)|]. intros h' Hh'. simpl.
  match goal with |- mq_state _ ?st _ _ /\ _ => assert (queues_kept s st pl (put PHeld [] pl)) as Hk end.
  { split; [intros q'; by rewrite put_ne|]. split; [|done]. intros q' y Hy. unfold mdata. simpl. rewrite lookup_delete_ne; [done|].
    intros E. subst y. by apply (held_fresh _ _ _ _ HP x (PQueue q') Hh). }
  split; [|done]. eapply state_pool; [exact HM|exact Hk|].
  eapply pool_ext; [| |eapply (pool_free _ (heads s) (q_heap s) h' pl x n bl' blk); try done]; [by intros []|done|].
  destruct Hhm as [H1 H2]. split; [|done]. intros y Hy. destruct (H1 y Hy) as [Hb Ho]. split; [|done]. by rewrite <-Hbl'.
Qed.

(** A structure that is held and was allocated on its own is freed, now or later. *)
Lemma sched_free_ok idle s a pl x n :
  mq_state idle s a pl -> pl PHeld = [x] -> q_msgs s !! x = Some n -> m_type n = MQ_ALLOC_DYN ->
  wp (sched_free x s) (fun s' => exists pl', mq_state idle s' a pl' /\ pl' PHeld = [] /\ queues_kept s s' pl pl').
Proof.
  intros HM Hh En Ed. unfold sched_free.
  assert (wp ('(q, m) ← sq_addlast x (g_delayeddeallocations s) (q_msgs s); Ok (with_delayed q m s))
    (fun s' => exists pl', mq_state idle s' a pl' /\ pl' PHeld = [] /\ queues_kept s s' pl pl')) as Hdel.
  { apply wp_bind. eapply wp_mono; [apply (give_ok idle s (fun q m => with_delayed q m s) a pl PDelayed); try done; [intros n' E; simpl; congruence|by intros q m []]|].
    intros [q m] H. by apply wp_ret. }
  destruct (k_interrupt (q_kernel s)); [done|]. destruct (getpid_ok _ _ _ _ HM) as [-> Hpid]. apply wp_bind, wp_ret.
  destruct (drop_ok idle s a pl x n HM Hh En Ed) as (b & bl & Eb & Hrep & Hdrop).
  destruct (ktry_ok (a_pid a (arun a)) (q_heap s) _ Hpid Hrep) as (h1 & -> & Hrep1). cbv beta iota.
  apply wp_bind. rewrite <-Eb at 1. eapply wp_mono; [apply (kfree_ok (Some (a_pid a (arun a))) _ _ _ bl); [done|by right|done]|]. intros h2 Hrep2.
  apply wp_bind. eapply wp_mono; [by apply (kgive_ok _ _ bl)|]. intros h3 Hrep3. apply wp_ret.
  destruct (Hdrop h3 Hrep3) as [H1 H2]. exists (put PHeld [] pl). split; [done|]. split; [by rewrite put_eq|done].
Qed.

(** The message structure that is held goes back to where it came from. *)
Lemma msgfree_ok idle s a pl x :
  mq_state idle s a pl -> pl PHeld = [x] ->
  wp (mq_msgfree x s) (fun s' => exists pl', mq_state idle s' a pl' /\ pl' PHeld = [] /\ queues_kept s s' pl pl').
Proof.
  intros HM Hh. pose proof HM as (Hr & HI & HO). pose proof (mo_pool _ _ _ HO) as HP. unfold mq_msgfree.
  apply wp_bind, wp_deref_valid; [by eapply held_valid|]. intros n En.
  assert (type_at PHeld n) as Ht by (eapply (po_type _ _ _ _ HP PHeld x); [rewrite Hh; left|done]).
  assert (forall p, (type_at p n) -> forall n', q_msgs s !! x = Some n' -> type_at p n') as Htp by (intros p Hp n' E; congruence).
  destruct (Z.eqb_spec (m_type n) MQ_ALLOC_FIXED) as [Ef|Ef].
  { apply wp_bind. eapply wp_mono; [apply (give_ok idle s (fun q m => with_msgfree q m s) a pl PFree); try done; [by apply Htp|by intros q m []]|].
    intros [q m] H. by apply wp_ret. }
  destruct (Z.eqb_spec (m_type n) MQ_ALLOC_IRQ) as [Ei|Ei].
  { apply wp_bind. eapply wp_mono; [apply (give_ok idle s (fun q m => with_msgfreeirq q m s) a pl PIrq); try done; [by apply Htp|by intros q m []]|].
    intros [q m] H. by apply wp_ret. }
  assert (m_type n = MQ_ALLOC_DYN) as Ed by (simpl in Ht; tauto). rewrite (proj2 (Z.eqb_eq _ _) Ed). by apply (sched_free_ok idle s a pl x n).
Qed.

(** ** Sending *)

Lemma send_search_spec fuel m prio prev l :
  sseg m l NULL -> NULL ∉ l -> (length l < fuel)%nat ->
  wp (send_search fuel m prio prev (hdp NULL l)) (fun r => exists l1 l2, l = l1 ++ l2 /\ r = lastp prev l1
    /\ Forall (fun z => prio <= mprio m z) l1 /\ (l2 = [] \/ mprio m (hdp NULL l2) < prio)).
Proof.
  revert prev l. induction fuel as [|fuel IH]; intros prev l Hs H0 Hf; [lia|].
  destruct l as [|x l]; cbn [send_search head default from_option id].
  - rewrite decide_True by done. apply wp_ret. exists [], []. by repeat split; auto.
  - destruct Hs as [(n & Hn & Hfl) Hs]. rewrite decide_False by set_solver.
    apply wp_bind. eapply wp_deref; [set_solver|done|]. cbn beta.
    assert (mprio m x = m_priority n) as En by (unfold mprio; by rewrite Hn).
    destruct (Z.leb_spec prio (m_priority n)) as [Hle|Hlt].
    + change (m_next n) with (sflink n). rewrite Hfl.
      eapply wp_mono; [apply (IH x l); [done|set_solver|simpl in Hf; lia]|].
      intros y (l1 & l2 & -> & -> & Hl1 & Hl2). exists (x :: l1), l2. rewrite lastp_cons. repeat split; [|done].
      constructor; [lia|done].
    + apply wp_ret. exists [], (x :: l). repeat split; [done|]. right. simpl. lia.
Qed.

(** The structure that is held goes to its place in a queue. *)
Lemma insert_ok (m : gmap Z mqmsg) Q (h : HT) pl p q x l1 l2 :
  pool_ok m Q h pl -> Q p = Some q -> p <> PHeld -> (forall n, type_at PHeld n -> type_at p n) -> Q PHeld = None -> pl PHeld = [x] ->
  pl p = l1 ++ l2 -> Forall (fun z => mprio m x <= mprio m z) l1 -> (l2 = [] \/ mprio m (hdp NULL l2) < mprio m x) ->
  wp (if decide (lastp NULL l1 = NULL) then sq_addfirst x q m else sq_addafter (lastp NULL l1) x q m) (fun '(q', m') =>
    frame sunlink (x :: pl p) m m' /\ pool_ok m' (qput p q' Q) h (put PHeld [] (put p (ins (mprio m) x (pl p)) pl))).
Proof.
  intros HP Hq Hp Hty HQ Hh El Hl1 Hl2. pose proof (po_repr _ _ _ _ HP _ _ Hq) as Hr. pose proof (held_valid _ _ _ _ HP _ Hh) as Hv.
  pose proof (held_fresh _ _ _ _ HP _ _ Hh Hp) as Hx. pose proof (sqr_nonnull _ _ _ Hr) as H0.
  assert (ins (mprio m) x (pl p) = l1 ++ x :: l2) as Ei by (rewrite El; by apply ins_split).
  assert (forall n, m !! x = Some n -> type_at p n) as Ht by (intros n En; apply Hty, (po_type _ _ _ _ HP PHeld x n); [rewrite Hh; left|done]).
  assert (forall q' m', sq_repr m' q' (l1 ++ x :: l2) -> frame sunlink (x :: pl p) m m' ->
    frame sunlink (x :: pl p) m m' /\ pool_ok m' (qput p q' Q) h (put PHeld [] (put p (ins (mprio m) x (pl p)) pl))) as Hfin.
  { intros q' m' H1 H2. split; [done|]. rewrite Ei. eapply pool_put; try done; [rewrite El; symmetry; apply Permutation_middle|].
    intros y. by rewrite elem_of_cons. }
  destruct l1 as [|y l1 _] using rev_ind.
  - rewrite decide_True by done. eapply wp_mono; [by apply (sq_addfirst_spec m q (pl p))|]. intros [q' m'] [H1 H2].
    apply Hfin; [by rewrite El in H1|]. eapply frame_mono; [|exact H2]. set_solver.
  - rewrite lastp_snoc. assert (y <> NULL) by (intros ->; apply H0; rewrite El; set_solver). rewrite decide_False by done.
    rewrite <-app_assoc in El. simpl in El. rewrite El in Hr, Hx.
    eapply wp_mono; [by apply (sq_addafter_spec m q l1 y l2 x)|]. intros [q' m'] [H1 H2].
    apply Hfin; [by rewrite <-app_assoc|]. by rewrite El.
Qed.

Lemma copy_mail_ok msg msglen (mail : list Z) :
  0 <= msglen <= MQ_MAX_BYTES -> msglen <= Z.of_nat (length msg) -> length mail = Z.to_nat MQ_MAX_BYTES ->
  exists mail', copy_mail msg msglen mail = Ok mail' /\ length mail' = length mail /\ take (Z.to_nat msglen) mail' = take (Z.to_nat msglen) msg.
Proof.
  intros Hl Hm Hlen. unfold copy_mail. rewrite (proj2 (Z.leb_le msglen _)), (proj2 (Z.leb_le msglen _)) by lia. eexists. split; [done|].
  assert (length (take (Z.to_nat msglen) msg) = Z.to_nat msglen) as Et by (rewrite length_take; lia). split.
  - rewrite length_app, Et, length_drop. lia.
  - rewrite take_app_le by lia. rewrite take_take. f_equal. lia.
Qed.

(** The header and the mail of the message that is held are written. *)
Lemma write_msg_ok m Q (h : HT) pl x msg msglen prio :
  pool_ok m Q h pl -> Q PHeld = None -> pl PHeld = [x] -> 0 <= prio <= MQ_PRIO_MAX -> 0 <= msglen <= MQ_MAX_BYTES ->
  msglen <= Z.of_nat (length msg) ->
  wp (m ← store (set_header (u8 prio) (u8 msglen)) x m;
      n ← deref m x;
      mail ← copy_mail msg msglen (m_mail n);
      store (set_mail mail) x m) (fun m' =>
    pool_ok m' Q h pl /\ mdata m' x = (prio, take (Z.to_nat msglen) msg) /\ (forall y, y <> x -> mdata m' y = mdata m y)).
Proof.
  intros HP HQ Hh Hprio Hlen Hmsg. unfold MQ_PRIO_MAX, MQ_MAX_BYTES in *. pose proof (held_valid _ _ _ _ HP _ Hh) as [Hx0 [n En]].
  rewrite !u8_id by lia. apply wp_bind, wp_store; [by split; eauto|]. apply wp_bind.
  eapply wp_deref; [done|rewrite lookup_alter_eq, En; done|]. cbn [m_mail set_header].
  destruct (copy_mail_ok msg msglen (m_mail n)) as (mail & -> & Hml & Htk); [unfold MQ_MAX_BYTES; lia|done|by eapply (po_mail _ _ _ _ HP)|].
  apply wp_bind, wp_ret. apply wp_store; [apply valid_alter; split; eauto|].
  assert (pool_ok (alter (set_header prio msglen) x m) Q h pl) as HP1 by by apply pool_write.
  split; [|split].
  - apply pool_write; try done. intros n'. rewrite lookup_alter_eq, En. intros [= <-]. done.
  - unfold mdata. rewrite !lookup_alter_eq, En. simpl. unfold msg_content. simpl. by rewrite Htk.
  - intros y Hy. unfold mdata. by rewrite !lookup_alter_ne by done.
Qed.

Lemma alter_insert {A} (f : A -> A) k (m : gmap Z A) x : m !! k = Some x -> alter f k m = <[k := f x]> m.
Proof. intros E. apply map_eq. intros i. rewrite lookup_alter, lookup_insert. case_decide; [subst; by rewrite E|done]. Qed.

(** A message is added to a queue: the state before the waiting tasks are looked at. *)
Lemma sent_state idle s a pl q g x m1 m2 q2 :
  mq_state idle s a pl -> q_msgqs s !! q = Some g -> nmsgs g < SEM_VALUE_MAX -> x ∉ pl (PQueue q) ->
  (forall y, y <> x -> mdata m1 y = mdata (q_msgs s) y) -> pl PHeld = [x] ->
  frame sunlink (x :: pl (PQueue q)) m1 m2 ->
  pool_ok m2 (qput (PQueue q) q2 (heads s)) (q_heap s) (put PHeld [] (put (PQueue q) (ins (mprio m1) x (pl (PQueue q))) pl)) ->
  let s2 := with_msgqs (<[q := set_nmsgs (nmsgs g + 1) (set_msglist q2 g)]> (q_msgqs s)) (with_msgs m2 s) in
  let pl2 := put PHeld [] (put (PQueue q) (ins (mprio m1) x (pl (PQueue q))) pl) in
  mq_state idle s2 a pl2.
Proof.
  intros HM Hq Hroom Hx Hd Hh Hf HP s2 pl2. pose proof HM as (Hr & HI & HO). split; [done|]. split; [done|].
  assert (forall y, mprio m2 y = mprio m1 y) as E21 by (intros; by eapply mprio_frame).
  assert (forall q' y, y ∈ pl (PQueue q') -> mprio m1 y = mprio (q_msgs s) y) as E1.
  { intros q' y Hy. rewrite !mprio_mdata, Hd; [done|]. intros ->. by apply (held_fresh _ _ _ _ (mo_pool _ _ _ HO) x (PQueue q') Hh). }
  split.
  - eapply pool_ext; [|done|exact HP]. intros [| | | |q']; try done. unfold qput. simpl. destruct (decide (q = q')) as [<-|Hne].
    + by rewrite lookup_insert_eq, decide_True.
    + by rewrite lookup_insert_ne, decide_False by congruence.
  - intros q' g'. simpl. unfold pl2. rewrite (put_ne PHeld) by done. destruct (decide (q = q')) as [<-|Hne].
    + rewrite lookup_insert_eq, put_eq. intros [= <-]. destruct (mo_queue _ _ _ HO q g Hq) as [A B C D]. split; simpl; [|lia| |done].
      * rewrite (ins_perm (mprio m1) x). simpl. lia.
      * eapply sorted_ext; [intros; apply E21|]. apply ins_sorted. eapply sorted_ext; [|exact C]. intros y Hy. by apply (E1 q).
    + rewrite lookup_insert_ne, put_ne by congruence. intros Hq'. eapply queue_ok_ext; [|by apply (mo_queue _ _ _ HO)].
      intros y Hy. rewrite E21. by apply (E1 q').
  - by eapply waits_data; [apply (mo_waits _ _ _ HO)|..].
  - intros d e He. simpl. rewrite lookup_insert. case_decide; [eauto|by apply (mo_des _ _ _ HO d)].
Qed.

Lemma write_then {B} (m : gmap Z mqmsg) x f msg msglen (K : gmap Z mqmsg -> res B) P :
  wp (m ← store f x m; n ← deref m x; mail ← copy_mail msg msglen (m_mail n); store (set_mail mail) x m) (fun m' => wp (K m') P) ->
  wp (m ← store f x m; n ← deref m x; mail ← copy_mail msg msglen (m_mail n); m ← store (set_mail mail) x m; K m) P.
Proof.
  destruct (store f x m) as [m1|]; [|done]. cbn [mbind res_bind]. destruct (deref m1 x) as [n|]; [|done]. cbn [mbind res_bind].
  destruct (copy_mail _ _ _) as [d|]; [|done]. cbn [mbind res_bind]. by destruct (store (set_mail d) x m1).
Qed.

(** What a send to [q] does, besides its result. *)
Record sent (s s' : mq_sys HT) (a a' : asched) (q : Z) (c : Z * list Z) : Prop := Sent {
  sn_int : as_int a' = as_int a;
  sn_queue : mq_contents s' q = enqueue_msg c (mq_contents s q);
  sn_others : forall q', q' <> q -> mq_contents s' q' = mq_contents s q';
  sn_waiters : mqw TL_waitingformqnotempty q a' = tail (mqw TL_waitingformqnotempty q a);
  sn_wothers : forall l q', parked l -> l <> TL_waitingformqnotempty \/ q' <> q -> mqw l q' a' = mqw l q' a;
  sn_woken : forall x, head (mqw TL_waitingformqnotempty q a) = Some x -> runnable x a';
  sn_ready : forall y, runnable y a -> runnable y a'
}.

Lemma alter_message q q2 g n (gs : gmap Z msgq_s) :
  gs !! q = Some g -> alter (set_nmsgs n) q (alter (set_msglist q2) q gs) = <[q := set_nmsgs n (set_msglist q2 g)]> gs.
Proof.
  intros Hq. rewrite (alter_insert (set_msglist q2) q gs g) by done. erewrite alter_insert by apply lookup_insert_eq. by rewrite insert_insert_eq.
Qed.

Lemma dosend_ok idle s a pl d e g x msg msglen prio :
  mq_state idle s a pl -> pl PHeld = [x] -> d <> NULL -> q_des s !! d = Some e -> q_msgqs s !! d_msgq e = Some g ->
  nmsgs g < SEM_VALUE_MAX -> 0 <= prio <= MQ_PRIO_MAX -> 0 <= msglen <= maxmsgsize g -> msglen <= Z.of_nat (length msg) ->
  (as_int a = false -> alk a (arun a) < MAX_LOCK_COUNT) ->
  wp (mq_dosend d x msg msglen prio s) (fun s' => exists a' pl', mq_state idle s' a' pl' /\ pl' PHeld = []
    /\ sent s s' a a' (d_msgq e) (prio, take (Z.to_nat msglen) msg)).
Proof.
  intros HM Hh Hd0 Hd Hq Hroom Hprio Hlen Hmsg Hlk. set (q := d_msgq e) in *. pose proof HM as (_ & _ & HO0).
  destruct (wk_count _ _ (mo_waits _ _ _ HO0) _ _ _ pk_notempty Hq) as [Hq0 _].
  destruct (qo_size _ _ _ (mo_queue _ _ _ HO0 _ _ Hq)) as [_ Hms].
  unfold mq_dosend. apply wp_bind. eapply wp_mono; [by apply (lock_ok idle s a pl HM)|]. intros k (a1 & HM1 & Hc1 & _ & _ & _).
  cbv zeta. apply wp_bind. eapply wp_deref; [done|exact Hd|]. fold q. cbn [q_msgs with_q_kernel with_sys].
  pose proof HM1 as (_ & _ & HO). pose proof (mo_pool _ _ _ HO) as HP.
  apply write_then. eapply wp_mono; [apply (write_msg_ok _ _ _ _ x msg msglen prio HP); try done; lia|]. intros m1 (HP1 & Ex & Eo).
  apply wp_bind. eapply wp_deref; [done|exact Hq|]. pose proof (po_repr _ _ _ _ HP1 (PQueue q) (msglist g)) as Hrep.
  specialize (Hrep ltac:(simpl; by rewrite Hq)).
  apply wp_bind. rewrite (sqr_head _ _ _ Hrep). eapply wp_mono; [apply (send_search_spec _ m1 prio NULL (pl (PQueue q)))|].
  { apply Hrep. } { apply Hrep. } { pose proof (sq_repr_length _ _ _ Hrep). unfold list_fuel. lia. }
  intros r (l1 & l2 & El & -> & Hl1 & Hl2). assert (mprio m1 x = prio) as Epr by (by rewrite mprio_mdata, Ex).
  apply wp_bind. eapply wp_mono; [apply (insert_ok m1 _ _ pl (PQueue q) (msglist g) x l1 l2 HP1); try done; [simpl; by rewrite Hq|by rewrite Epr|by rewrite Epr]|].
  intros [q2 m2] [Hf HP2]. apply wp_bind, wp_store; [by split; eauto|]. apply wp_bind, wp_store; [apply valid_alter; by split; eauto|].
  pose proof (mo_queue _ _ _ HO _ _ Hq) as [Hcnt _ _ _]. unfold SEM_VALUE_MAX in Hroom.
  cbn [q_msgqs with_q_kernel with_sys]. rewrite s16_id, (alter_message q q2 g) by (done || lia).
  pose proof (held_fresh _ _ _ _ HP x (PQueue q) Hh ltac:(done)) as Hxq.
  pose proof (sent_state idle (with_q_kernel k s) a1 pl q g x m1 m2 q2 HM1 Hq ltac:(unfold SEM_VALUE_MAX; lia) Hxq Eo Hh Hf HP2) as HM2. cbv zeta in HM2.
  set (s2 := with_msgqs _ (with_msgs m2 _)) in *. set (pl2 := put PHeld [] _) in *.
  assert (q_msgqs s2 !! q = Some (set_nmsgs (nmsgs g + 1) (set_msglist q2 g))) as Hq2 by (unfold s2; simpl; by rewrite lookup_insert_eq).
  apply wp_bind. change (wake_receiver q s2) with (wake TL_waitingformqnotempty q s2).
  eapply wp_mono; [by apply (wake_ok idle s2 a1 pl2 TL_waitingformqnotempty q _ HM2 pk_notempty Hq2)|].
  intros s3 (a3 & HM3 & Ei3 & Ew & Ewo & Hwk & Hry & Em3 & Ed3 & Eh3 & Es3).
  apply wp_bind. eapply wp_mono; [by apply (unlock_ok idle s3 a3 pl2 HM3)|]. intros [b k4] (a4 & HM4 & Hc4). apply wp_ret.
  exists a4, pl2. split; [done|]. split; [done|]. destruct Hc1 as [Hs1 Ei1 Hr1], Hc4 as [Hs4 Ei4 Hr4].
  assert (forall y, mdata m2 y = mdata m1 y) as E21 by (intros; by eapply mdata_frame).
  assert (forall q', is_Some (q_msgqs s3 !! q') <-> is_Some (q_msgqs s !! q')) as Hsome.
  { intros q'. rewrite Es3. unfold s2. simpl. rewrite lookup_insert. case_decide; [subst|done]. rewrite Hq. split; eauto. }
  destruct (proj2 (Hsome q) ltac:(eauto)) as [g4 Hg4]. pose proof HM4 as (_ & _ & HO4). split.
  - by rewrite Ei4, Ei3, Ei1.
  - rewrite (contents_eq _ a4 pl2 q g4), (contents_eq s a pl q g) by done. change (q_msgs (with_q_kernel k4 s3)) with (q_msgs s3).
    rewrite Em3. change (q_msgs s2) with m2. unfold pl2. rewrite put_ne, put_eq by done.
    rewrite (list_fmap_ext (mdata m2) (mdata m1)) by (intros; apply E21). rewrite enqueue_ins, Ex. f_equal.
    apply list_fmap_ext. intros i y Hy%list_elem_of_lookup_2. apply Eo. by intros ->.
  - intros q' Hne. eapply contents_same; [exact HO0|exact HO4|symmetry; apply Hsome|unfold pl2; rewrite !put_ne by congruence; done|].
    intros y Hy. change (q_msgs (with_q_kernel k4 s3)) with (q_msgs s3). rewrite Em3. change (q_msgs s2) with m2. rewrite E21. apply Eo.
    intros ->. by apply (held_fresh _ _ _ _ HP x (PQueue q') Hh).
  - rewrite (mqw_same a3 a4) by (done || constructor). rewrite Ew. f_equal. by apply mqw_same; [|constructor].
  - intros l q' Hl Hne. rewrite (mqw_same a3 a4), Ewo by done. by apply mqw_same.
  - intros y Hy. apply Hr4, Hwk. rewrite (mqw_same a a1) by (done || constructor). done.
  - intros y Hy. by apply Hr4, Hry, Hr1.
Qed.

(** ** Waiting *)

(** What a call does that makes the running task wait in the list [l] for the queue [q]. *)
Record waiting (s s' : mq_sys HT) (a a' : asched) (l : tasklist) (q : Z) : Prop := Waiting {
  wt_int : as_int a' = as_int a;
  wt_contents : forall q', mq_contents s' q' = mq_contents s q';
  wt_waiters : mqw l q a' = ins (apr a) (arun a) (mqw l q a);
  wt_others : forall l' q', parked l' -> l' <> l \/ q' <> q -> mqw l' q' a' = mqw l' q' a
}.

Lemma park_ok {B} (K : mq_sys HT -> res B) P idle s a pl l q g :
  mq_state idle s a pl -> as_int a = false -> arun a <> idle -> parked l -> q_msgqs s !! q = Some g ->
  (forall s' a', mq_state idle s' a' pl -> waiting s s' a a' l q -> wp (K s') P) ->
  wp (m ← store (set_msgwaitq q) (arun a) (k_tcbs (q_kernel s));
      gs ← store (set_nwait l (s16 (nwait l g + 1))) q (q_msgqs s);
      s ← q_errno 0 (with_msgqs gs (with_q_kernel (set_tcbs m (q_kernel s)) s));
      '(_, k) ← up_block_task (arun a) (list_state l) (q_kernel s);
      K (with_q_kernel k s)) P.
Proof.
  intros HM Hint Hidle Hl Hq Hcont. pose proof HM as (Hr & HI & HO). pose proof HI as [HC _]. pose proof HO as [HP HQ HW HD].
  destruct (wk_count _ _ HW _ _ _ Hl Hq) as [Hq0 _]. destruct (parked_list _ Hl) as (_ & Hb & _ & _). set (x := arun a) in *.
  assert (valid (k_tcbs (q_kernel s)) x) as Hv by (by eapply ref_run_valid).
  apply wp_bind, wp_store; [done|]. apply wp_bind, wp_store; [by split; eauto|].
  destruct (quiet_ok idle _ x _ _ (quiet_msgwaitq q) Hr HI) as [Hr2 HI2]. set (a2 := a_set (set_msgwaitq q) x a) in *.
  set (k2 := set_tcbs _ (q_kernel s)) in *.
  apply wp_bind. unfold q_errno, set_errno. change (s_kernel (q_sys (with_msgqs _ (with_q_kernel k2 s)))) with k2.
  rewrite (errno_ptr_ok idle k2 a2) by done. apply wp_bind, wp_bind, wp_ret. apply wp_bind, wp_store; [by repeat apply valid_alter|]. repeat apply wp_ret.
  change (arun a2) with x. destruct (quiet_ok idle _ x _ _ (quiet_errno 0) Hr2 HI2) as [Hr3 HI3]. set (a3 := a_set (set_pterrno 0) x a2) in *.
  apply wp_bind. eapply wp_mono; [apply (up_block_task_ok _ a3 idle l Hr3 HI3); done|]. intros [b k'] (Hr' & HI' & _).
  destruct (waits_block _ a a3 idle (q_msgqs s) l q g HW HC Hr3 (proj1 HI3) Hl Hq) as (HW' & Ew & Eo); try done.
  { intros y. unfold a3, a2. by rewrite !apr_set by done. }
  { intros y. unfold a3. unfold a_mq. rewrite field_set by done. apply mq_set. by eapply (ref_is_Some _ a). }
  { unfold a3, a2. by rewrite !size_set. }
  { intros y. unfold a_pid, a3, a2. by rewrite !field_set by done. }
  pose proof (nwait_small _ a _ l q g Hr HW Hl Hq) as [Hn0 _]. pose proof (nwait_room _ a idle _ l q g Hr HC HW Hl Hq) as Hn1. unfold SEM_VALUE_MAX in Hn1.
  rewrite (alter_insert _ _ _ g), s16_id by (done || lia).
  pose proof (mq_ok_waits s (a_block l a3) pl q g l (nwait l g + 1) HP HQ HD Hq HW') as HO'.
  eapply (Hcont _ (a_block l a3)).
  { split; [exact Hr'|]. split; [done|]. destruct HO' as [A' B' C' D']. by split. }
  split; [done| |done|done]. intros q'.
  transitivity (mq_contents (with_msgqs (<[q := set_nwait l (nwait l g + 1) g]> (q_msgqs s)) s) q'); [done|]. eapply contents_same; [exact HO|exact HO'| |done|done].
  simpl. rewrite lookup_insert. case_decide; [subst; rewrite Hq; split; eauto|done].
Qed.

Lemma waitsend_block_ok idle s a pl q g :
  mq_state idle s a pl -> as_int a = false -> arun a <> idle -> q_msgqs s !! q = Some g ->
  wp (waitsend_block q s) (fun '(r, s') => r = MqBlocked /\ exists a', mq_state idle s' a' pl /\ waiting s s' a a' TL_waitingformqnotfull q).
Proof.
  intros HM Hint Hidle Hq. unfold waitsend_block. pose proof HM as (Hr & _ & HO). rewrite (ref_run _ a Hr).
  destruct (wk_count _ _ (mo_waits _ _ _ HO) _ _ _ pk_notfull Hq) as [Hq0 _].
  pose proof (park_ok (fun s' => Ok (MqBlocked, s')) (fun '(r, s') => r = MqBlocked /\ exists a', mq_state idle s' a' pl /\ waiting s s' a a' TL_waitingformqnotfull q)
    idle s a pl TL_waitingformqnotfull q g HM Hint Hidle pk_notfull Hq) as Hp.
  specialize (Hp ltac:(intros s' a' H1 H2; apply wp_ret; eauto)).
  destruct (store (set_msgwaitq q) (arun a) (k_tcbs (q_kernel s))) as [m|]; [|exact Hp]. cbn [mbind res_bind] in *. rewrite (deref_Some _ _ g) by done. exact Hp.
Qed.

(** ** mq_send *)

(** Nothing that a user of the queues can see has changed. *)
Record unchanged (s s' : mq_sys HT) (a a' : asched) : Prop := Unchanged {
  uc_int : as_int a' = as_int a;
  uc_contents : forall q, mq_contents s' q = mq_contents s q;
  uc_waiters : forall l q, parked l -> mqw l q a' = mqw l q a;
  uc_ready : forall y, runnable y a -> runnable y a'
}.

Lemma calm_unchanged s s' a a' : calm a a' -> (forall q, mq_contents s' q = mq_contents s q) -> unchanged s s' a a'.
Proof. intros [A B C] Hc. split; [done|done| |done]. intros l q Hl. by apply mqw_same. Qed.

Lemma same_store_contents s s' q : same_store s s' -> mq_contents s' q = mq_contents s q.
Proof. intros (E1 & E2 & _). unfold mq_contents. by rewrite E1, E2. Qed.

(** The errno with which mq_verifysend rejects a call. *)
Definition send_verdict s (mqdes : ptr) (msg : option (list Z)) (msglen prio : Z) : option Z :=
  if bool_decide (msg = None) || bool_decide (mqdes = NULL) || (prio <? 0) || (MQ_PRIO_MAX <? prio) then Some EINVAL
  else
    match q_des s !! mqdes with
    | None => None
    | Some d =>
        if Z.land (d_oflags d) O_WROK =? 0 then Some EPERM
        else
          match q_msgqs s !! d_msgq d with
          | None => None
          | Some g => if (msglen <? 0) || (maxmsgsize g <? msglen) then Some EMSGSIZE else None
          end
    end.

Lemma fail_ok idle s a pl e :
  mq_state idle s a pl ->
  wp (s ← q_errno e s; Ok (false, s)) (fun '(ok, s') => ok = false /\ exists a', mq_state idle s' a' pl /\ unchanged s s' a a'
    /\ (as_int a = false -> errno_of (q_kernel s') (arun a) = e)).
Proof.
  intros HM. apply wp_bind. eapply wp_mono; [by apply (errno_ok idle s a pl e)|]. intros s' (a' & HM' & Hc & _ & _ & Hst & He).
  apply wp_ret. split; [done|]. exists a'. split; [done|]. split; [|done]. apply calm_unchanged; [done|]. intros q. by apply same_store_contents.
Qed.

Lemma verifysend_ok idle s a pl mqdes msg msglen prio :
  mq_state idle s a pl -> (mqdes <> NULL -> is_Some (q_des s !! mqdes)) ->
  wp (mq_verifysend mqdes msg msglen prio s) (fun '(ok, s') =>
    match send_verdict s mqdes msg msglen prio with
    | Some e => ok = false /\ exists a', mq_state idle s' a' pl /\ unchanged s s' a a' /\ (as_int a = false -> errno_of (q_kernel s') (arun a) = e)
    | None => ok = true /\ s' = s
    end).
Proof.
  intros HM Hdes. unfold mq_verifysend, send_verdict. destruct (bool_decide (msg = None) || bool_decide (mqdes = NULL) || (prio <? 0) || (MQ_PRIO_MAX <? prio)) eqn:Ea.
  { by apply fail_ok. }
  assert (mqdes <> NULL) as Hd0. { intros ->. rewrite (bool_decide_true (NULL = NULL)) in Ea by done. by rewrite orb_true_r in Ea. }
  destruct (Hdes Hd0) as [d Hd]. rewrite Hd. apply wp_bind. eapply wp_deref; [done|done|].
  destruct (Z.land (d_oflags d) O_WROK =? 0); [by apply fail_ok|]. pose proof HM as (_ & _ & HO).
  destruct (mo_des _ _ _ HO _ _ Hd) as [g Hg]. rewrite Hg. apply wp_bind.
  destruct (wk_count _ _ (mo_waits _ _ _ HO) _ _ _ pk_notempty Hg) as [Hq0 _]. eapply wp_deref; [done|done|].
  destruct ((msglen <? 0) || (maxmsgsize g <? msglen)); [by apply fail_ok|]. by apply wp_ret.
Qed.

(** The rest of mq_send when the queue has room. *)
Lemma send_go idle s a pl d e g msg msglen prio :
  mq_state idle s a pl -> pl PHeld = [] -> d <> NULL -> q_des s !! d = Some e -> q_msgqs s !! d_msgq e = Some g ->
  nmsgs g < SEM_VALUE_MAX -> 0 <= prio <= MQ_PRIO_MAX -> 0 <= msglen <= maxmsgsize g -> msglen <= Z.of_nat (length msg) ->
  (as_int a = false -> alk a (arun a) < MAX_LOCK_COUNT /\ can_alloc s) ->
  wp (send_finish d msg msglen prio (MqRet true) s) (fun '(r, s') => exists a', mq_refines idle s' a'
    /\ ((r = MqRet true /\ sent s s' a a' (d_msgq e) (prio, take (Z.to_nat msglen) msg))
        \/ (as_int a = true /\ r = MqRet false /\ unchanged s s' a a'))).
Proof.
  intros HM Hh Hd0 Hd Hq Hroom Hprio Hlen Hmsg Hlk. unfold send_finish. pose proof HM as (_ & _ & HO).
  apply wp_bind. eapply wp_mono; [apply (msgalloc_ok idle s a pl HM Hh); intros; by apply Hlk|].
  intros [x s1] (pl1 & HM1 & Hh1 & Hx & Hkept). pose proof Hkept as (Ep & Em & Ek & Eg & Ed). pose proof HM1 as (_ & _ & HO1).
  assert (forall q, mq_contents s1 q = mq_contents s q) as Ec.
  { intros q. eapply contents_same; [exact HO|exact HO1|by rewrite Eg|apply Ep|]. intros y Hy. by apply (Em q). }
  destruct (decide (x = NULL)) as [E|E].
  - apply wp_bind. eapply wp_mono; [by apply (unlock_ok idle s1 a pl1)|]. intros [b k] (a2 & HM2 & Hc). apply wp_ret.
    exists a2. split; [by exists pl1|]. right. split; [by apply Hx|]. split; [done|]. by apply calm_unchanged.
  - apply wp_bind. eapply wp_mono; [apply (dosend_ok idle s1 a pl1 d e g x msg msglen prio HM1 Hh1); try done; [by rewrite Ed|by rewrite Eg|intros; by apply Hlk]|].
    intros s2 (a2 & pl2 & HM2 & Hh2 & [A B C D E' F G]). apply wp_bind. eapply wp_mono; [by apply (unlock_ok idle s2 a2 pl2)|].
    intros [b k] (a3 & HM3 & [Hs Hi Hr]). apply wp_ret. exists a3. split; [by exists pl2|]. left. split; [done|].
    assert (forall q, mq_contents (with_q_kernel k s2) q = mq_contents s2 q) as Ec2 by done.
    split; [congruence|by rewrite Ec2, B, Ec|intros q' Hne; by rewrite Ec2, C, Ec|rewrite (mqw_same a2 a3); [done|done|constructor]
      |intros l q' Hl Hne; rewrite (mqw_same a2 a3) by done; by apply E'|intros y Hy; by apply Hr, F|intros y Hy; by apply Hr, G].
Qed.

(** The outcome of an attempt to send a message to the queue of a descriptor. *)
Definition send_outcome idle s s' a a' (e : mq_des) (g : msgq_s) (c : Z * list Z) (nonblock : bool) (r : mq_result) : Prop :=
  mq_refines idle s' a' /\
  if as_int a || (nmsgs g <? maxmsgs g) then
    (r = MqRet true /\ sent s s' a a' (d_msgq e) c) \/ (as_int a = true /\ r = MqRet false /\ unchanged s s' a a')
  else if nonblock then r = MqRet false /\ unchanged s s' a a'
  else r = MqBlocked /\ waiting s s' a a' TL_waitingformqnotfull (d_msgq e).

(** [sent], [waiting] and [unchanged] do not see a calm change before. *)
Lemma before_sent s0 s s' a0 a a' q c : calm a0 a -> (forall q, mq_contents s q = mq_contents s0 q) -> sent s s' a a' q c -> sent s0 s' a0 a' q c.
Proof.
  intros [Hs Hi Hr] Ec [A B C D E F G]. assert (forall l q, parked l -> mqw l q a = mqw l q a0) as Ew by (intros; by apply mqw_same).
  pose proof (pk_notempty).
  split; [congruence|by rewrite B, Ec|intros; by rewrite C, Ec|by rewrite D, Ew|intros; rewrite E, Ew; done|intros x; rewrite <-Ew by done; apply F|auto].
Qed.

Lemma before_waiting s0 s s' a0 a a' l q : parked l -> calm a0 a -> (forall l, as_lists a l = as_lists a0 l) -> (forall y, apr a y = apr a0 y) ->
  (forall q, mq_contents s q = mq_contents s0 q) -> waiting s s' a a' l q -> waiting s0 s' a0 a' l q.
Proof.
  intros Hl [Hs Hi Hr] El Epr Ec [A B C D]. assert (forall l q, parked l -> mqw l q a = mqw l q a0) as Ew by (intros; by apply mqw_same).
  split; [congruence|intros; by rewrite B, Ec| |intros; rewrite D, Ew; done].
  rewrite C, Ew by done. unfold arun. rewrite El. apply ins_ext. auto.
Qed.

Lemma before_unchanged s0 s s' a0 a a' : calm a0 a -> (forall q, mq_contents s q = mq_contents s0 q) -> unchanged s s' a a' -> unchanged s0 s' a0 a'.
Proof.
  intros [Hs Hi Hr] Ec [A B C D]. assert (forall l q, parked l -> mqw l q a = mqw l q a0) as Ew by (intros; by apply mqw_same).
  split; [congruence|intros; by rewrite B, Ec|intros; rewrite C, Ew; done|auto].
Qed.

(** The contract of a call of mq_send by a task or an interrupt handler. *)
Record send_ready idle s a (d : ptr) (msg : list Z) (msglen prio : Z) (e : mq_des) (g : msgq_s) : Prop := SendReady {
  sy_des0 : d <> NULL;
  sy_des : q_des s !! d = Some e;
  sy_queue : q_msgqs s !! d_msgq e = Some g;
  sy_room : nmsgs g < SEM_VALUE_MAX;
  sy_prio : 0 <= prio <= MQ_PRIO_MAX;
  sy_len : 0 <= msglen <= maxmsgsize g;
  sy_msg : msglen <= Z.of_nat (length msg);
  sy_alloc : as_int a = false -> can_alloc s;
  sy_idle : as_int a = false -> maxmsgs g <= nmsgs g -> arun a <> idle
}.

Lemma send_rest_ok idle s a pl d msg msglen prio e g (nonblock : bool) :
  mq_state idle s a pl -> pl PHeld = [] -> send_ready idle s a d msg msglen prio e g ->
  (as_int a = false -> alk a (arun a) < MAX_LOCK_COUNT) ->
  wp ('(r, s) ← (if as_int a || (nmsgs g <? maxmsgs g) then Ok (MqRet true, s)
                 else if nonblock then s ← q_errno EAGAIN s; Ok (MqRet false, s) else waitsend_block (d_msgq e) s);
      send_finish d msg msglen prio r s) (fun '(r, s') => exists a',
    send_outcome idle s s' a a' e g (prio, take (Z.to_nat msglen) msg) nonblock r).
Proof.
  intros HM Hh [A B C D E F G Al I] Hlk. unfold send_outcome. destruct (as_int a || (nmsgs g <? maxmsgs g)) eqn:Er.
  - apply wp_bind, wp_ret. eapply wp_mono; [by apply (send_go idle s a pl d e g msg msglen prio); auto|]. intros [r s'] (a' & H1 & H2). by exists a'.
  - apply orb_false_iff in Er as [Ei Hfull%Z.ltb_ge]. destruct nonblock.
    + apply wp_bind. apply wp_bind. eapply wp_mono; [by apply (errno_ok idle s a pl EAGAIN)|]. intros s1 (a1 & HM1 & Hc1 & _ & _ & Hst & _). apply wp_ret.
      unfold send_finish. apply wp_bind. eapply wp_mono; [by apply (unlock_ok idle s1 a1 pl)|]. intros [b k] (a2 & HM2 & Hc2). apply wp_ret.
      exists a2. split; [by exists pl|]. split; [done|]. apply calm_unchanged; [by eapply calm_trans|]. intros q. by apply same_store_contents.
    + apply wp_bind. eapply wp_mono; [apply (waitsend_block_ok idle s a pl (d_msgq e) g); auto|]. intros [r s1] (-> & a1 & HM1 & Hw). apply wp_ret.
      exists a1. split; [by exists pl|]. done.
Qed.

Lemma mq_send_ok idle s a d msg msglen prio e g :
  mq_refines idle s a -> send_ready idle s a d msg msglen prio e g -> Z.land (d_oflags e) O_WROK <> 0 ->
  (as_int a = false -> alk a (arun a) + 2 <= MAX_LOCK_COUNT) ->
  wp (mq_send d (Some msg) msglen prio s) (fun '(r, s') => exists a',
    send_outcome idle s s' a a' e g (prio, take (Z.to_nat msglen) msg) (negb (Z.land (d_oflags e) O_NONBLOCK =? 0)) r).
Proof.
  intros (pl & Hh & HM) HR Hwr Hlk. pose proof HR as [A B C D E F G Al I]. pose proof HM as (Hr & _ & HO).
  destruct (wk_count _ _ (mo_waits _ _ _ HO) _ _ _ pk_notempty C) as [Hq0 _].
  unfold mq_send. apply wp_bind. eapply wp_mono; [apply (verifysend_ok idle s a pl d (Some msg) msglen prio HM); eauto|].
  assert (send_verdict s d (Some msg) msglen prio = None) as Ev.
  { unfold send_verdict. rewrite bool_decide_false by done. rewrite (bool_decide_false (d = NULL)) by done. cbn [orb].
    rewrite (proj2 (Z.ltb_ge _ _)), (proj2 (Z.ltb_ge _ _)) by lia. cbn [orb]. rewrite B, (proj2 (Z.eqb_neq _ _)) by done.
    by rewrite C, (proj2 (Z.ltb_ge _ _)), (proj2 (Z.ltb_ge _ _)) by lia. }
  rewrite Ev. intros [ok s'] [-> ->]. cbn [negb]. apply wp_bind.
  eapply wp_mono; [apply (lock_ok idle s a pl HM); intros Hi; specialize (Hlk Hi); lia|]. intros k (a1 & HM1 & Hc1 & El1 & Ep1 & Ek1 & _). cbv zeta.
  apply wp_bind. eapply wp_deref; [done|exact B|]. apply wp_bind. eapply wp_deref; [done|exact C|].
  pose proof Hc1 as [Hs1 Ei1 Hr1]. assert (arun a1 = arun a) as Erun by (unfold arun; by rewrite El1).
  pose proof HM1 as ((_ & _ & EI1) & _ & _). rewrite EI1.
  assert (send_ready idle (with_q_kernel k s) a1 d msg msglen prio e g) as HR1.
  { split; try done; rewrite Ei1; [|intros; rewrite Erun; auto]. intros Hi. destruct (Al Hi) as [Hf|(pid & p & h & Hp & Hk)]; [by left|right].
    exists pid, p, h. split; [|done]. destruct (getpid_ok _ _ _ _ HM) as [Hp1 _], (getpid_ok _ _ _ _ HM1) as [Hp2 _]. rewrite Hp2.
    rewrite Hp1 in Hp. rewrite Erun, (sw_pid _ _ Hs1). done. }
  pose proof (send_rest_ok idle (with_q_kernel k s) a1 pl d msg msglen prio e g (negb (Z.land (d_oflags e) O_NONBLOCK =? 0)) HM1 Hh HR1) as Hrest.
  specialize (Hrest ltac:(intros Hi; rewrite Ei1 in Hi; specialize (Hlk Hi); rewrite Ek1 by done; lia)).
  assert (forall q, mq_contents (with_q_kernel k s) q = mq_contents s q) as Ec by done.
  match goal with |- wp ?c _ => match type of Hrest with wp ?c' _ => assert (c = c') as -> end end.
  { destruct (as_int a1 || (nmsgs g <? maxmsgs g)) eqn:Efull; [done|]. apply orb_false_iff in Efull as [_ Hfull]. apply Z.ltb_ge in Hfull.
    unfold mq_waitsend. cbn [q_des q_msgqs with_q_kernel with_sys]. rewrite (deref_Some _ _ e) by done. cbn [mbind res_bind].
    rewrite (deref_Some _ _ g) by done. cbn [mbind res_bind]. by rewrite (proj2 (Z.leb_le _ _)) by done. }
  eapply wp_mono; [exact Hrest|]. intros [r s'] (a' & HM' & Ho). exists a'. split; [done|]. rewrite Ei1 in Ho.
  destruct (as_int a || (nmsgs g <? maxmsgs g)).
  - destruct Ho as [[-> Ho]|(Hi & -> & Ho)]; [left; split; [done|]; by eapply before_sent|right; split; [done|]; split; [done|]; by eapply before_unchanged].
  - destruct (negb _); [destruct Ho as [-> Ho]; split; [done|]; by eapply before_unchanged|].
    destruct Ho as [-> Ho]. split; [done|]. eapply before_waiting; try done. constructor.
Qed.

(** The errno of the running task. *)
Lemma get_errno_ok idle s a pl : mq_state idle s a pl -> as_int a = false -> get_errno (q_sys s) = Ok (errno_of (q_kernel s) (arun a)).
Proof.
  intros (Hr & HI & _) Hint. unfold get_errno. rewrite (errno_ptr_ok idle _ a) by done. cbn [mbind res_bind].
  destruct (ref_run_valid _ _ _ Hr (proj1 HI)) as [Hn [t Et]]. unfold q_kernel in *. rewrite (deref_Some _ _ t) by done. cbn.
  unfold errno_of. by rewrite Et.
Qed.

(** mq_send goes on after its caller has waited. *)
Lemma mq_send_resumed_ok idle s a d msg msglen prio e g :
  mq_refines idle s a -> as_int a = false -> send_ready idle s a d msg msglen prio e g -> alk a (arun a) < MAX_LOCK_COUNT ->
  wp (mq_send_resumed d msg msglen prio s) (fun '(r, s') => exists a',
    if errno_of (q_kernel s) (arun a) =? 0 then send_outcome idle s s' a a' e g (prio, take (Z.to_nat msglen) msg) false r
    else mq_refines idle s' a' /\ r = MqRet false /\ unchanged s s' a a').
Proof.
  intros (pl & Hh & HM) Hint HR Hlk. pose proof HR as [A B C D E F G Al I]. pose proof HM as (Hr & _ & HO).
  destruct (wk_count _ _ (mo_waits _ _ _ HO) _ _ _ pk_notempty C) as [Hq0 _].
  unfold mq_send_resumed, mq_waitsend_resumed. rewrite (get_errno_ok idle s a pl) by done. cbn [mbind res_bind].
  destruct (errno_of (q_kernel s) (arun a) =? 0); cbn [negb].
  - rewrite (deref_Some _ _ e) by done. cbn [mbind res_bind]. rewrite (deref_Some _ _ g) by done. cbn [mbind res_bind].
    pose proof (send_rest_ok idle s a pl d msg msglen prio e g false HM Hh HR ltac:(done)) as Hrest. rewrite Hint in Hrest. cbn [orb] in Hrest.
    destruct (Z.leb_spec (maxmsgs g) (nmsgs g)) as [Hf|Hf]; destruct (Z.ltb_spec (nmsgs g) (maxmsgs g)); try lia; exact Hrest.
  - apply wp_bind, wp_ret. unfold send_finish. apply wp_bind. eapply wp_mono; [by apply (unlock_ok idle s a pl)|]. intros [b k] (a2 & HM2 & Hc2). apply wp_ret.
    exists a2. split; [by exists pl|]. split; [done|]. by apply calm_unchanged.
Qed.

(** ** Receiving *)

(** What the receipt of the first message of [q] does. *)
Record received (s s' : mq_sys HT) (a a' : asched) (q : Z) (c : Z * list Z) : Prop := Received {
  rc_int : as_int a' = as_int a;
  rc_queue : mq_contents s q = c :: mq_contents s' q;
  rc_others : forall q', q' <> q -> mq_contents s' q' = mq_contents s q';
  rc_waiters : mqw TL_waitingformqnotfull q a' = tail (mqw TL_waitingformqnotfull q a);
  rc_wothers : forall l q', parked l -> l <> TL_waitingformqnotfull \/ q' <> q -> mqw l q' a' = mqw l q' a;
  rc_woken : forall x, head (mqw TL_waitingformqnotfull q a) = Some x -> runnable x a';
  rc_ready : forall y, runnable y a -> runnable y a'
}.

(** The first structure of a queue is taken. *)
Lemma took_state idle s a pl q g q2 m2 :
  mq_state idle s a pl -> q_msgqs s !! q = Some g -> frame sunlink (pl (PQueue q)) (q_msgs s) m2 ->
  let pl2 := put PHeld (take 1 (pl (PQueue q))) (put (PQueue q) (tail (pl (PQueue q))) pl) in
  pool_ok m2 (qput (PQueue q) q2 (heads s)) (q_heap s) pl2 ->
  let g2 := set_nmsgs (Z.of_nat (length (tail (pl (PQueue q))))) (set_msglist q2 g) in
  mq_state idle (with_msgqs (<[q := g2]> (q_msgqs s)) (with_msgs m2 s)) a pl2.
Proof.
  intros HM Hq Hf pl2 HP g2. pose proof HM as (Hr & HI & HO). split; [done|]. split; [done|].
  assert (forall y, mprio m2 y = mprio (q_msgs s) y) as E2 by (intros; by eapply mprio_frame). split.
  - eapply pool_ext; [|done|exact HP]. intros [| | | |q']; try done. unfold qput. simpl. destruct (decide (q = q')) as [<-|Hne].
    + by rewrite lookup_insert_eq, decide_True.
    + by rewrite lookup_insert_ne, decide_False by congruence.
  - intros q' g'. simpl. unfold pl2. rewrite (put_ne PHeld) by done. destruct (decide (q = q')) as [<-|Hne].
    + rewrite lookup_insert_eq, put_eq. intros [= <-]. destruct (mo_queue _ _ _ HO q g Hq) as [A B C D]. split; [done| | |done].
      * simpl. destruct (pl (PQueue q)); simpl in *; lia.
      * eapply sorted_ext; [intros; apply E2|]. destruct (pl (PQueue q)) as [|y l]; [done|]. by inversion C.
    + rewrite lookup_insert_ne, put_ne by congruence. intros Hq'. eapply queue_ok_ext; [|by apply (mo_queue _ _ _ HO)]. intros; apply E2.
  - by eapply waits_data; [apply (mo_waits _ _ _ HO)|..].
  - intros d e He. simpl. rewrite lookup_insert. case_decide; [eauto|by apply (mo_des _ _ _ HO d)].
Qed.

Lemma doreceive_ok idle s a pl d e g x :
  mq_state idle s a pl -> pl PHeld = [x] -> d <> NULL -> q_des s !! d = Some e -> q_msgqs s !! d_msgq e = Some g ->
  wp (mq_doreceive d x s) (fun '((data, prio), s') => (prio, data) = mdata (q_msgs s) x /\ exists a' pl', mq_state idle s' a' pl' /\ pl' PHeld = []
    /\ as_int a' = as_int a /\ (forall q, mq_contents s' q = mq_contents s q)
    /\ mqw TL_waitingformqnotfull (d_msgq e) a' = tail (mqw TL_waitingformqnotfull (d_msgq e) a)
    /\ (forall l q', parked l -> l <> TL_waitingformqnotfull \/ q' <> d_msgq e -> mqw l q' a' = mqw l q' a)
    /\ (forall x, head (mqw TL_waitingformqnotfull (d_msgq e) a) = Some x -> runnable x a') /\ (forall y, runnable y a -> runnable y a')).
Proof.
  intros HM Hh Hd0 Hd Hq. pose proof HM as (_ & _ & HO). unfold mq_doreceive.
  apply wp_bind, wp_deref_valid; [by eapply held_valid; [apply (mo_pool _ _ _ HO)|]|]. intros n En.
  apply wp_bind. eapply wp_mono; [by apply (msgfree_ok idle s a pl x)|]. intros s1 (pl1 & HM1 & Hh1 & Hkept).
  pose proof Hkept as (Ep & Em & Ek & Eg & Ed). pose proof HM1 as (_ & _ & HO1).
  apply wp_bind. eapply wp_deref; [done|by rewrite Ed|]. apply wp_bind. change (wake_sender (d_msgq e) s1) with (wake TL_waitingformqnotfull (d_msgq e) s1).
  eapply wp_mono; [apply (wake_ok idle s1 a pl1 TL_waitingformqnotfull (d_msgq e) g HM1 pk_notfull); by rewrite Eg|].
  intros s2 (a2 & HM2 & Ei & Ew & Ewo & Hwk & Hry & Em2 & Ed2 & Eh2 & Es2). apply wp_ret. split; [unfold mdata; by rewrite En|].
  exists a2, pl1. split; [done|]. split; [done|]. split; [done|]. split; [|done]. intros q. pose proof HM2 as (_ & _ & HO2).
  transitivity (mq_contents s1 q).
  - eapply contents_same; [exact HO1|exact HO2|symmetry; apply Es2|done|]. intros y _. by rewrite Em2.
  - eapply contents_same; [exact HO|exact HO1|by rewrite Eg|apply Ep|]. intros y Hy. by apply (Em q).
Qed.

(** The queue is empty: the receiver waits, or fails when it must not wait. *)
Lemma receive_none_ok idle s s2 a pl d e g :
  mq_state idle s2 a pl -> pl PHeld = [] -> as_int a = false -> arun a <> idle -> q_msgqs s2 !! d_msgq e = Some g ->
  (forall q', mq_contents s2 q' = mq_contents s q') ->
  wp ('(r, s) ← (if Z.land (d_oflags e) O_NONBLOCK =? 0 then
                   m ← store (set_msgwaitq (d_msgq e)) (dq_head (g_readytorun (q_kernel s2))) (k_tcbs (q_kernel s2));
                   gs ← store (set_nwaitnotempty (s16 (nwaitnotempty g + 1))) (d_msgq e) (q_msgqs s2);
                   s ← q_errno 0 (with_msgqs gs (with_q_kernel (set_tcbs m (q_kernel s2)) s2));
                   '(_, k) ← up_block_task (dq_head (g_readytorun (q_kernel s2))) TSTATE_WAIT_MQNOTEMPTY (q_kernel s);
                   Ok (RcvBlocked, with_q_kernel k s)
                 else s ← q_errno EAGAIN s2; Ok (RcvNone, s));
      receive_finish d r s) (fun '(r, s') => exists a', mq_refines idle s' a'
    /\ if negb (Z.land (d_oflags e) O_NONBLOCK =? 0) then r = RecvError /\ unchanged s s' a a'
       else r = RecvBlocked /\ waiting s s' a a' TL_waitingformqnotempty (d_msgq e)).
Proof.
  intros HM Hh Hint Hidle Hq Ec. pose proof HM as (Hr & HI & HO). apply wp_bind.
  destruct (Z.eqb_spec (Z.land (d_oflags e) O_NONBLOCK) 0) as [Enb|Enb]; cbn [negb].
  - rewrite (ref_run _ a Hr).
    eapply (park_ok (fun s' => Ok (RcvBlocked, s')) _ idle s2 a pl TL_waitingformqnotempty (d_msgq e) g); try done; [constructor|].
    intros s3 a3 HM3 [W1 W2 W3 W4]. apply wp_ret. simpl. apply wp_ret. exists a3. split; [by exists pl|]. split; [done|].
    split; [done|intros; by rewrite W2, Ec|done|done].
  - apply wp_bind. eapply wp_mono; [by apply (errno_ok idle s2 a pl EAGAIN)|]. intros s3 (a3 & HM3 & Hc3 & _ & _ & Hst & _). apply wp_ret. simpl.
    apply wp_bind. eapply wp_mono; [by apply (unlock_ok idle s3 a3 pl)|]. intros [b k] (a4 & HM4 & Hc4). apply wp_ret.
    exists a4. split; [by exists pl|]. split; [done|]. apply calm_unchanged; [by eapply calm_trans|]. intros q'.
    transitivity (mq_contents s3 q'); [done|]. by rewrite (same_store_contents s2 s3).
Qed.

(** A message [x] was taken off the queue. *)
Lemma receive_msg_ok idle s s3 a pl d e g x :
  mq_state idle s3 a pl -> pl PHeld = [x] -> d <> NULL -> q_des s3 !! d = Some e -> q_msgqs s3 !! d_msgq e = Some g ->
  mq_contents s (d_msgq e) = mdata (q_msgs s3) x :: mq_contents s3 (d_msgq e) -> (forall q', q' <> d_msgq e -> mq_contents s3 q' = mq_contents s q') ->
  let c := mdata (q_msgs s3) x in
  wp (receive_finish d (RcvMsg x) s3) (fun '(r, s') => exists a', mq_refines idle s' a' /\ r = RecvData c.2 c.1 /\ received s s' a a' (d_msgq e) c).
Proof.
  intros HM Hh Hd0 Hd Hq Hcq Hco. simpl receive_finish. apply wp_bind. eapply wp_mono; [by apply (doreceive_ok idle s3 a pl d e g x HM)|].
  intros [[data prio] s4] (Edata & a4 & pl4 & HM4 & Hh4 & Ei & Ec & Ew & Ewo & Hwk & Hry). apply wp_bind.
  eapply wp_mono; [by apply (unlock_ok idle s4 a4 pl4)|]. intros [b k] (a5 & HM5 & [Hs5 Ei5 Hr5]). apply wp_ret. exists a5. split; [by exists pl4|].
  rewrite <-Edata in *. split; [done|]. assert (forall q', mq_contents (with_q_kernel k s4) q' = mq_contents s3 q') as Ec' by exact Ec. split.
  - congruence.
  - by rewrite Ec'.
  - intros q' Hne. rewrite Ec'. by apply Hco.
  - rewrite (mqw_same a4 a5); [done|done|constructor].
  - intros l' q' Hl' Hne. rewrite (mqw_same a4 a5) by done. by apply Ewo.
  - intros y Hy. by apply Hr5, Hwk.
  - intros y Hy. by apply Hr5, Hry.
Qed.

Lemma receive_rest_ok idle s a pl d e g :
  mq_state idle s a pl -> pl PHeld = [] -> as_int a = false -> d <> NULL -> q_des s !! d = Some e -> q_msgqs s !! d_msgq e = Some g ->
  (mq_contents s (d_msgq e) = [] -> arun a <> idle) ->
  wp ('(r, s) ← mq_waitreceive d s; receive_finish d r s) (fun '(r, s') => exists a',
    mq_refines idle s' a' /\
    match mq_contents s (d_msgq e) with
    | c :: _ => r = RecvData c.2 c.1 /\ received s s' a a' (d_msgq e) c
    | [] => if negb (Z.land (d_oflags e) O_NONBLOCK =? 0) then r = RecvError /\ unchanged s s' a a'
            else r = RecvBlocked /\ waiting s s' a a' TL_waitingformqnotempty (d_msgq e)
    end).
Proof.
  intros HM Hh Hint Hd0 Hd Hq Hidle. set (q := d_msgq e) in *. pose proof HM as (Hr & HI & HO). pose proof (mo_pool _ _ _ HO) as HP.
  destruct (wk_count _ _ (mo_waits _ _ _ HO) _ _ _ pk_notempty Hq) as [Hq0 _]. pose proof (qo_count _ _ _ (mo_queue _ _ _ HO _ _ Hq)) as Hcnt.
  rewrite (contents_eq s a pl q g) in * by done. apply wp_bind. unfold mq_waitreceive. apply wp_bind. eapply wp_deref; [done|exact Hd|]. cbv zeta. fold q.
  apply wp_bind. eapply wp_deref; [done|exact Hq|]. apply wp_bind.
  eapply wp_mono; [apply (pool_take _ _ _ _ HP (PQueue q) (msglist g)); [simpl; by rewrite Hq|done..]|].
  intros [x [q2 m2]] (-> & Hf & HP2). apply wp_bind, wp_store; [by split; eauto|].
  pose proof (took_state idle s a pl q g q2 m2 HM Hq Hf HP2) as HM2. cbv zeta in HM2.
  assert (forall y, mdata m2 y = mdata (q_msgs s) y) as E2 by (intros; by eapply mdata_frame).
  rewrite (alter_insert _ _ _ g) by done. set (s2 := with_msgqs (<[q := set_msglist q2 g]> _) _).
  set (pl2 := put PHeld _ _) in *. assert (forall q', q' <> q -> pl2 (PQueue q') = pl (PQueue q')) as Epo by (intros; unfold pl2; by rewrite !put_ne by congruence).
  assert (pl2 (PQueue q) = tail (pl (PQueue q))) as Epq by (unfold pl2; by rewrite put_ne, put_eq by done).
  assert (pl2 PHeld = take 1 (pl (PQueue q))) as Eph by (unfold pl2; by rewrite put_eq).
  destruct (pl (PQueue q)) as [|x l] eqn:El; rewrite ?El in HM2, Hcnt, Epq, Eph, Hidle; cbn [head default from_option id].
  - rewrite decide_True by done. cbn [tail length] in HM2. change (Z.of_nat 0) with 0 in HM2. assert (nmsgs g = 0) as Hn0 by done.
    assert (set_nmsgs 0 (set_msglist q2 g) = set_msglist q2 g) as Eg0 by (unfold set_nmsgs, set_msglist; simpl; by rewrite Hn0). rewrite Eg0 in HM2.
    change (mq_state idle s2 a pl2) in HM2. pose proof HM2 as (Hr2 & HI2 & HO2).
    assert (forall q', mq_contents s2 q' = mq_contents s q') as Ec.
    { intros q'. eapply contents_same; [exact HO|exact HO2| | |intros; apply E2].
      - unfold s2. simpl. rewrite lookup_insert. case_decide; [subst; rewrite Hq; split; eauto|done].
      - destruct (decide (q' = q)) as [->|]; [rewrite Epq, El; done|by apply Epo]. }
    refine (wp_bind_fold _ (fun '(r, s) => receive_finish d r s) _ _). cbn [fmap list_fmap]. eapply (receive_none_ok idle s s2 a pl2 d e (set_msglist q2 g)); try done; [by apply Hidle|].
    unfold s2. simpl. by rewrite lookup_insert_eq.
  - assert (x <> NULL) as Hx0 by (eapply valid_ne, (po_valid _ _ _ _ HP (PQueue q)); rewrite El; left). rewrite decide_False by done.
    apply wp_bind, wp_store; [split; [done|unfold s2; simpl; rewrite lookup_insert_eq; eauto]|]. simpl in Hcnt. cbn [tail take] in *. apply wp_ret.
    pose proof (qo_room _ _ _ (mo_queue _ _ _ HO _ _ Hq)) as Hroom. unfold SEM_VALUE_MAX in Hroom. rewrite s16_id by lia.
    rewrite (alter_insert _ _ _ (set_msglist q2 g)) by (unfold s2; simpl; by rewrite lookup_insert_eq).
    replace (nmsgs g - 1) with (Z.of_nat (length l)) by lia.
    assert (with_msgqs (<[q := set_nmsgs (Z.of_nat (length l)) (set_msglist q2 g)]> (q_msgqs s2)) s2
      = with_msgqs (<[q := set_nmsgs (Z.of_nat (length l)) (set_msglist q2 g)]> (q_msgqs s)) (with_msgs m2 s)) as ->
      by (unfold s2, with_msgqs; simpl; by rewrite insert_insert_eq).
    set (s3 := with_msgqs _ (with_msgs m2 s)) in *. pose proof HM2 as (_ & _ & HO2). cbv beta iota.
    assert (q_msgqs s3 !! q = Some (set_nmsgs (Z.of_nat (length l)) (set_msglist q2 g))) as Hq3 by (unfold s3; simpl; by rewrite lookup_insert_eq).
    rewrite fmap_cons. rewrite <-(E2 x). eapply (receive_msg_ok idle s s3 a pl2 d e _ x HM2); try done.
    + fold q. rewrite (contents_eq s a pl q g), (contents_eq s3 a pl2 q _ HO2 Hq3) by done. rewrite El, Epq, fmap_cons. change (q_msgs s3) with m2. rewrite E2. f_equal.
      apply list_fmap_ext. intros; symmetry; apply E2.
    + fold q. intros q' Hne. eapply contents_same; [exact HO|exact HO2| |by apply Epo|intros; apply E2].
      unfold s3. simpl. by rewrite lookup_insert_ne.
Qed.

(** ** mq_receive *)

Definition receive_outcome idle s s' a a' (e : mq_des) (nonblock : bool) (r : receive_result) : Prop :=
  mq_refines idle s' a' /\
  match mq_contents s (d_msgq e) with
  | c :: _ => r = RecvData c.2 c.1 /\ received s s' a a' (d_msgq e) c
  | [] => if nonblock then r = RecvError /\ unchanged s s' a a'
          else r = RecvBlocked /\ waiting s s' a a' TL_waitingformqnotempty (d_msgq e)
  end.

(** The errno with which mq_verifyreceive rejects a call. *)
Definition receive_verdict s (mqdes : ptr) (msg : bool) (msglen : Z) : option Z :=
  if negb msg || bool_decide (mqdes = NULL) then Some EINVAL
  else
    match q_des s !! mqdes with
    | None => None
    | Some d =>
        if Z.land (d_oflags d) O_RDOK =? 0 then Some EPERM
        else
          match q_msgqs s !! d_msgq d with
          | None => None
          | Some g => if msglen <? maxmsgsize g then Some EMSGSIZE else None
          end
    end.

Lemma verifyreceive_ok idle s a pl mqdes msg msglen :
  mq_state idle s a pl -> (mqdes <> NULL -> is_Some (q_des s !! mqdes)) ->
  wp (mq_verifyreceive mqdes msg msglen s) (fun '(ok, s') =>
    match receive_verdict s mqdes msg msglen with
    | Some e => ok = false /\ exists a', mq_state idle s' a' pl /\ unchanged s s' a a' /\ (as_int a = false -> errno_of (q_kernel s') (arun a) = e)
    | None => ok = true /\ s' = s
    end).
Proof.
  intros HM Hdes. unfold mq_verifyreceive, receive_verdict. destruct (negb msg || bool_decide (mqdes = NULL)) eqn:Ea; [by apply fail_ok|].
  assert (mqdes <> NULL) as Hd0. { intros ->. rewrite (bool_decide_true (NULL = NULL)) in Ea by done. by rewrite orb_true_r in Ea. }
  destruct (Hdes Hd0) as [d Hd]. rewrite Hd. apply wp_bind. eapply wp_deref; [done|done|].
  destruct (Z.land (d_oflags d) O_RDOK =? 0); [by apply fail_ok|]. pose proof HM as (_ & _ & HO).
  destruct (mo_des _ _ _ HO _ _ Hd) as [g Hg]. rewrite Hg. apply wp_bind.
  destruct (wk_count _ _ (mo_waits _ _ _ HO) _ _ _ pk_notempty Hg) as [Hq0 _]. eapply wp_deref; [done|done|].
  destruct (msglen <? maxmsgsize g); [by apply fail_ok|]. by apply wp_ret.
Qed.

(** A descriptor that refers to a queue. *)
Definition opened s (d : ptr) (e : mq_des) : Prop := d <> NULL /\ q_des s !! d = Some e.

Lemma before_received s0 s s' a0 a a' q c : calm a0 a -> (forall q, mq_contents s q = mq_contents s0 q) -> received s s' a a' q c -> received s0 s' a0 a' q c.
Proof.
  intros [Hs Hi Hr] Ec [A B C D E F G]. assert (forall l q, parked l -> mqw l q a = mqw l q a0) as Ew by (intros; by apply mqw_same).
  pose proof (pk_notfull).
  split; [congruence|by rewrite <-Ec|intros; by rewrite C, Ec|by rewrite D, Ew|intros; rewrite E, Ew; done|intros x; rewrite <-Ew by done; apply F|auto].
Qed.

Lemma mq_receive_ok idle s a d e msglen :
  mq_refines idle s a -> as_int a = false -> opened s d e -> receive_verdict s d true msglen = None ->
  alk a (arun a) < MAX_LOCK_COUNT -> (mq_contents s (d_msgq e) = [] -> arun a <> idle) ->
  wp (mq_receive d true msglen s) (fun '(r, s') => exists a',
    receive_outcome idle s s' a a' e (negb (Z.land (d_oflags e) O_NONBLOCK =? 0)) r).
Proof.
  intros (pl & Hh & HM) Hint [Hd0 Hd] Hv Hlk Hidle. pose proof HM as (Hr & _ & HO). pose proof Hr as (_ & _ & EI).
  unfold mq_receive. rewrite EI, Hint. apply wp_bind, wp_assert; [done|]. apply wp_bind.
  eapply wp_mono; [apply (verifyreceive_ok idle s a pl d true msglen HM); eauto|]. rewrite Hv. intros [ok s'] [-> ->]. cbn [negb]. apply wp_bind.
  eapply wp_mono; [by apply (lock_ok idle s a pl HM)|]. intros k (a1 & HM1 & Hc1 & El1 & Ep1 & _ & _). cbv zeta.
  destruct (mo_des _ _ _ HO _ _ Hd) as [g Hg]. assert (arun a1 = arun a) as Erun by (unfold arun; by rewrite El1).
  assert (forall q, mq_contents (with_q_kernel k s) q = mq_contents s q) as Ec by done.
  eapply wp_mono; [apply (receive_rest_ok idle (with_q_kernel k s) a1 pl d e g HM1 Hh); try done; [by rewrite (cm_int _ _ Hc1)|by rewrite Ec, Erun]|].
  intros [r s'] (a' & HM' & Ho). exists a'. split; [done|]. rewrite Ec in Ho. destruct (mq_contents s (d_msgq e)).
  - destruct (negb _); destruct Ho as [-> Ho]; (split; [done|]); [by eapply before_unchanged|eapply before_waiting; try done; constructor].
  - destruct Ho as [-> Ho]. split; [done|]. by eapply before_received.
Qed.

Lemma mq_receive_resumed_ok idle s a d e :
  mq_refines idle s a -> as_int a = false -> opened s d e -> (mq_contents s (d_msgq e) = [] -> arun a <> idle) ->
  wp (mq_receive_resumed d s) (fun '(r, s') => exists a',
    if errno_of (q_kernel s) (arun a) =? 0 then receive_outcome idle s s' a a' e (negb (Z.land (d_oflags e) O_NONBLOCK =? 0)) r
    else mq_refines idle s' a' /\ r = RecvError /\ unchanged s s' a a').
Proof.
  intros (pl & Hh & HM) Hint [Hd0 Hd] Hidle. pose proof HM as (Hr & _ & HO). destruct (mo_des _ _ _ HO _ _ Hd) as [g Hg].
  unfold mq_receive_resumed, mq_waitreceive_resumed. rewrite (get_errno_ok idle s a pl) by done. cbn [mbind res_bind].
  destruct (errno_of (q_kernel s) (arun a) =? 0); cbn [negb].
  - eapply wp_mono; [by apply (receive_rest_ok idle s a pl d e g)|]. intros [r s'] (a' & H). by exists a'.
  - apply wp_bind, wp_ret. simpl. apply wp_bind. eapply wp_mono; [by apply (unlock_ok idle s a pl)|]. intros [b k] (a2 & HM2 & Hc2). apply wp_ret.
    exists a2. split; [by exists pl|]. split; [done|]. by apply calm_unchanged.
Qed.

(** ** mq_waitirq *)

(** The wait of the task [x] in the list [l] is over. *)
Record cancelled (s s' : mq_sys HT) (a a' : asched) (l : tasklist) (x : Z) : Prop := Cancelled {
  cn_int : as_int a' = as_int a;
  cn_contents : forall q, mq_contents s' q = mq_contents s q;
  cn_waiters : mqw l (a_mq a x) a' = list_rem x (mqw l (a_mq a x) a);
  cn_others : forall l' q, parked l' -> l' <> l \/ q <> a_mq a x -> mqw l' q a' = mqw l' q a;
  cn_woken : runnable x a'
}.

Lemma parked_state k a l x t : refines k a -> parked l -> x ∈ as_lists a l -> k_tcbs k !! x = Some t -> task_state t = list_state l.
Proof.
  intros (HR & _ & _) Hl Hx Et. destruct (parked_list _ Hl) as (_ & _ & H1 & _).
  pose proof (sr_state _ _ HR l x H1 Hx) as Hst. by rewrite (state_lookup _ _ _ Et) in Hst.
Qed.

Lemma mq_waitirq_ok idle s a l x errcode :
  mq_refines idle s a -> parked l -> x ∈ as_lists a l ->
  wp (mq_waitirq x errcode s) (fun s' => exists a', mq_refines idle s' a' /\ cancelled s s' a a' l x /\ errno_of (q_kernel s') x = errcode).
Proof.
  intros (pl & Hh & HM) Hl Hx. pose proof HM as (Hr & HI & HO). pose proof HO as [HP HQ HW HD]. set (q := a_mq a x).
  destruct (wk_waits _ _ HW _ _ Hl Hx) as [g Hg]. fold q in Hg. destruct (wk_count _ _ HW _ _ _ Hl Hg) as [Hq0 _].
  pose proof (ref_valid _ _ Hr _ _ Hx) as Hv. unfold mq_waitirq. apply wp_bind, wp_deref_valid; [done|]. intros t Et.
  rewrite (parked_state _ _ _ _ _ Hr Hl Hx Et). rewrite decide_True by (destruct Hl; auto).
  assert (msgwaitq t = q) as -> by (pose proof Hr as (_ & ET & _); unfold q, a_mq; by rewrite <-ET, lookup_fmap, Et).
  rewrite decide_False by done. apply wp_bind, wp_store; [done|]. apply wp_bind. eapply wp_deref; [done|exact Hg|].
  pose proof (nwait_small _ a _ l q g Hr HW Hl Hg) as Hsm. unfold SEM_VALUE_MAX in Hsm.
  set (a1 := a_set (set_msgwaitq NULL) x a). set (a2 := a_set (set_pterrno errcode) x a1).
  destruct (quiet_ok idle _ x _ _ (quiet_msgwaitq NULL) Hr HI) as [Hr1 HI1].
  destruct (quiet_ok idle _ x _ _ (quiet_errno errcode) Hr1 HI1) as [Hr2 HI2]. fold a1 a2 in Hr2, HI2.
  destruct (waits_unblock (q_kernel s) a a2 (q_msgqs s) l q g x HW Hr Hl Hx eq_refl Hg) as (Hpos & HW' & Eq & Eo).
  { done. } { intros y. unfold a2, a_mq. rewrite field_set by done. apply mq_set. by eapply (ref_is_Some _ a). }
  { unfold a2, a1. by rewrite !size_set. } { intros y. unfold a_pid, a2, a1. by rewrite !field_set by done. }
  apply wp_bind. eapply (wp_mono _ (fun gs => gs = <[q := set_nwait l (nwait l g - 1) g]> (q_msgqs s))).
  { destruct Hl; cbn [list_state]; rewrite ?decide_True by done; rewrite ?decide_False by done; simpl in *; rewrite (proj2 (Z.leb_gt _ _)) by lia; (apply wp_store; [by split; eauto|]); rewrite (alter_insert _ _ _ g), s16_id by (done || lia); done. }
  intros gs ->. apply wp_bind, wp_store; [by apply valid_alter|]. destruct (parked_list _ Hl) as (_ & Hb & _ & _).
  apply wp_bind. eapply wp_mono; [apply (up_unblock_task_ok _ a2 idle x l Hr2 HI2 Hx Hb)|].
  intros [b k'] (Hr' & HI' & _). apply wp_ret. exists (a_unblock x a2).
  pose proof (mq_ok_waits s (a_unblock x a2) pl q g l (nwait l g - 1) HP HQ HD Hg HW') as HO'.
  split; [exists pl; split; [done|]; split; [done|]; split; [done|]; destruct HO' as [A' B' C' D']; by split|]. split.
  - split; [unfold a_unblock, a_enter; by case_match| |done|done|apply unblock_ready]. intros q'.
    transitivity (mq_contents (with_msgqs (<[q := set_nwait l (nwait l g - 1) g]> (q_msgqs s)) s) q'); [done|].
    eapply contents_same; [exact HO|exact HO'| |done|done].
    simpl. rewrite lookup_insert. case_decide as E; [rewrite <-E, Hg; split; eauto|done].
  - destruct Hr' as (_ & ET' & _). assert (pterrno <$> k_tcbs k' !! x = pterrno <$> as_tasks (a_unblock x a2) !! x) as E.
    { rewrite <-ET', lookup_fmap. by destruct (k_tcbs k' !! x). }
    unfold errno_of. change (q_kernel (with_q_kernel k' _)) with k'. rewrite unblock_tasks, lookup_alter_eq in E. simpl in E. rewrite !lookup_alter_eq in E.
    destruct (ref_is_Some _ a x Hr Hv) as [ta Eta]. rewrite Eta in E. destruct (k_tcbs k' !! x); [|done]. simpl in *. congruence.
Qed.

End spec.
