(* ===== verification/MqInit.v ===== *)
(** * Message queues: the pools of message structures

    The pools that mq_initialize fills from the heap and the structures that
    sched_garbagecollection gives back to it. *)

From stdpp Require Import sorting.
From S2P Require Import Prelude Queue Sched SchedInv SchedOps SchedSpec Sem SemSpec KHeap Mq MqWait MqPool MqSpec.

Section init.
  Context {HT : Type} {HK : KHeap HT} {HKS : KHeapSpec HT} {SC : SchedConfig}.
  Implicit Types (s : mq_sys HT).

(** ** Delayed deallocations *)

Lemma garbage_loop_ok fuel idle s a pl :
  mq_state idle s a pl -> pl PHeld = [] -> (length (pl PDelayed) < fuel)%nat ->
  wp (garbage_loop fuel s) (fun s' => exists pl', mq_state idle s' a pl' /\ pl' PHeld = [] /\ pl' PDelayed = [] /\ queues_kept s s' pl pl').
Proof.
  revert s pl. induction fuel as [|fuel IH]; intros s pl HM Hh Hf; [lia|]. pose proof HM as (_ & _ & HO). cbn [garbage_loop].
  rewrite (sqr_head _ _ _ (po_repr _ _ _ _ (mo_pool _ _ _ HO) PDelayed _ eq_refl)).
  destruct (pl PDelayed) as [|x l] eqn:El; cbn [head default from_option id].
  { rewrite decide_True by done. apply wp_ret. exists pl. pose proof (kept_refl s pl). done. }
  assert (x ∈ pl PDelayed) as Hx by (rewrite El; left). destruct (po_valid _ _ _ _ (mo_pool _ _ _ HO) _ _ Hx) as [Hx0 _].
  rewrite decide_False by done. apply wp_bind.
  eapply wp_mono; [apply (take_spare_ok idle s (fun q m => with_delayed q m s) a pl PDelayed); try done; (intros q m; repeat (split; [done|]); by intros [])|].
  intros [y [q m]] (-> & pl1 & HM1 & H1 & H2 & H3 & Hk1 & Hf1). rewrite El in *. cbn [head default from_option id]. rewrite decide_False by done.
  destruct (getpid_ok _ _ _ _ HM1) as [-> Hpid]. apply wp_bind, wp_ret. pose proof HM1 as (_ & _ & HO1). pose proof (mo_pool _ _ _ HO1) as HP1.
  destruct (held_valid _ _ _ _ HP1 x H1) as [_ [n En]]. destruct (frame_body _ _ _ _ _ Hf1 En) as (n0 & En0 & [Et _]%unlink_fields).
  assert (x ∈ pl PDelayed) as Hx' by (rewrite El; left). pose proof (po_type _ _ _ _ (mo_pool _ _ _ HO) _ _ _ Hx' En0) as Ed. simpl in Ed. rewrite <-Et in Ed.
  destruct (drop_ok idle _ a pl1 x n HM1 H1 En Ed) as (b & bl & Eb & Hrep & Hdrop).
  apply wp_bind. rewrite <-Eb at 1. eapply wp_mono; [apply (kfree_ok None _ _ _ bl); [done|by left|done]|]. intros h2 Hrep2.
  destruct (Hdrop h2 Hrep2) as [HM2 Hk2]. eapply wp_mono; [apply (IH _ _ HM2); [by rewrite put_eq|rewrite put_ne, H2 by done; simpl in *; lia]|].
  intros s' (pl' & HM' & Hh' & Hd' & Hk'). exists pl'. split; [done|]. split; [done|]. split; [done|]. eapply kept_trans; [exact Hk1|]. by eapply kept_trans.
Qed.

Lemma garbage_ok idle s a :
  mq_refines idle s a ->
  wp (sched_garbagecollection s) (fun s' => mq_refines idle s' a /\ sq_head (g_delayeddeallocations s') = NULL
    /\ forall q, mq_contents s' q = mq_contents s q).
Proof.
  intros (pl & Hh & HM). pose proof HM as (_ & _ & HO). unfold sched_garbagecollection.
  eapply wp_mono; [apply (garbage_loop_ok _ idle s a pl HM Hh)|].
  { pose proof (sq_repr_length _ _ _ (po_repr _ _ _ _ (mo_pool _ _ _ HO) PDelayed _ eq_refl)). unfold list_fuel. lia. }
  intros s' (pl' & HM' & Hh' & Hd' & E1 & E2 & E3 & E4 & E5). pose proof HM' as (_ & _ & HO'). split; [by exists pl'|]. split.
  - by rewrite (sqr_head _ _ _ (po_repr _ _ _ _ (mo_pool _ _ _ HO') PDelayed _ eq_refl)), Hd'.
  - intros q. eapply contents_same; [exact HO|exact HO'|by rewrite E4|done|by apply E2].
Qed.

(** ** The pools *)

(** [n] structures side by side. *)
Fixpoint addrs (x : Z) (n : nat) : list Z :=
  match n with
  | O => []
  | S n => x :: addrs (x + SIZEOF_MQMSG) n
  end.

Lemma elem_of_addrs y x n : y ∈ addrs x n -> x <= y < x + SIZEOF_MQMSG * Z.of_nat n.
Proof.
  revert x. induction n as [|n IH]; intros x; simpl; [set_solver|]. rewrite elem_of_cons. unfold SIZEOF_MQMSG in *.
  intros [->|Hy]; [lia|]. specialize (IH _ Hy). lia.
Qed.

(** What the loop leaves in memory: new structures of the type and the others as before. *)
Definition carved (t : Z) (l : list Z) (m m' : gmap Z mqmsg) : Prop :=
  (forall y, y ∈ l -> exists nx, m' !! y = Some (MqMsg nx t 0 0 (m_mail raw_msg))) /\ (forall y, y ∉ l -> sunlink <$> m' !! y = sunlink <$> m !! y).

Lemma msgblock_loop_ok n x t q m l :
  0 < x -> sq_repr m q l -> (forall y, y ∈ l -> y < x) ->
  wp (msgblock_loop n x t q m) (fun '(q', m') => sq_repr m' q' (l ++ addrs x n) /\ carved t (addrs x n) m m'
    /\ (forall y, y ∉ l -> y ∉ addrs x n -> m' !! y = m !! y)).
Proof.
  revert x q m l. induction n as [|n IH]; intros x q m l Hx Hr Hl; cbn [msgblock_loop addrs].
  { rewrite app_nil_r. apply wp_ret. split; [done|]. split; [split; [set_solver|done]|done]. }
  set (m1 := <[x := set_type t raw_msg]> m). assert (x ∉ l) as Hxl by (intros Hin; specialize (Hl _ Hin); lia).
  apply wp_bind. eapply wp_mono; [apply (sq_addlast_spec m1 q l x)|].
  { eapply sq_repr_ext; [|exact Hr]. intros y Hy. apply lookup_insert_ne. set_solver. }
  { apply valid_insert_eq. lia. } { done. }
  intros [q2 m2] [Hr2 Hf]. eapply wp_mono; [apply (IH _ q2 m2 (l ++ [x])); [unfold SIZEOF_MQMSG; lia|done|]|].
  { intros y. unfold SIZEOF_MQMSG. rewrite elem_of_app, list_elem_of_singleton. intros [Hy| ->]; [specialize (Hl _ Hy)|]; lia. }
  intros [q' m'] (Hr' & [Hc1 Hc2] & Ho). rewrite <-app_assoc in Hr'. split; [done|]. pose proof Hf as [Hf1 Hf2].
  assert (x ∉ addrs (x + SIZEOF_MQMSG) n) as Hxa by (intros Hin%elem_of_addrs; unfold SIZEOF_MQMSG in *; lia).
  split; [split|].
  - intros y [->|Hy]%elem_of_cons; [|by apply Hc1]. specialize (Hc2 x Hxa). rewrite (Hf2 x) in Hc2. unfold m1 in Hc2. rewrite lookup_insert_eq in Hc2.
    destruct (m' !! x) as [[nx ty pr ln ma]|]; [|done]. exists nx. simpl in Hc2. by injection Hc2 as -> -> -> ->.
  - intros y Hy. rewrite Hc2, (Hf2 y) by set_solver. unfold m1. rewrite lookup_insert_ne by set_solver. done.
  - intros y H1 H2. rewrite Ho by set_solver. rewrite Hf1 by set_solver. unfold m1. by rewrite lookup_insert_ne by set_solver.
Qed.

(** Structures carved from a new block are ready in an empty list. *)
Lemma pool_block m m' Q (h h' : HT) pl p q' x (sz : Z) n t bl blk :
  pool_ok m Q h pl -> Q PHeld = None -> pl p = [] -> p <> PHeld -> (forall nx, type_at p (MqMsg nx t 0 0 (m_mail raw_msg))) -> t <> MQ_ALLOC_DYN ->
  homed m bl blk -> 0 < x -> SIZEOF_MQMSG * Z.of_nat n <= sz -> heap_rep None h' ((x, sz) :: bl) -> (forall d y, d ∈ bl -> owns (x, sz) y -> ~ owns d y) ->
  sq_repr m' q' (addrs x n) -> carved t (addrs x n) m m' -> (forall y, y ∉ addrs x n -> m' !! y = m !! y) ->
  pool_ok m' (qput p q' Q) h' (put p (addrs x n) pl).
Proof.
  intros [A B C D L Al Lv _] HQ Hp Hph Ht Htd [H1 H2] Hx Hs Hh' Hd Hr [Hc _] Ho. set (l := addrs x n) in *.
  assert (forall y, y ∈ l -> owns (x, sz) y) as Hown. { intros y Hy%elem_of_addrs. unfold owns. simpl. lia. }
  assert (forall y, is_Some (m !! y) -> y ∉ l) as Hfr. { intros y Hy Hl. destruct (H1 y Hy) as [Hb Hoy]. by apply (Hd _ y Hb); [apply Hown|]. }
  assert (forall p' y, y ∈ pl p' -> y ∉ l) as Hpl. { intros p' y Hy. apply Hfr. by apply (B p'). }
  assert (forall p' y, y ∈ put p l pl p' -> (p' = p /\ y ∈ l) \/ (p' <> p /\ y ∈ pl p')) as Hin.
  { intros p' y. unfold put. case_decide; [subst; by left|]. intros Hy. right. split; [congruence|done]. }
  assert (forall y nn, m' !! y = Some nn -> (y ∈ l /\ exists nx, nn = MqMsg nx t 0 0 (m_mail raw_msg)) \/ (y ∉ l /\ m !! y = Some nn)) as Hm'.
  { intros y nn Ey. destruct (decide (y ∈ l)) as [Hy|Hy]; [left; split; [done|]; destruct (Hc y Hy) as [nx En]; exists nx; congruence|right; by rewrite <-Ho]. }
  split.
  - intros p' q. unfold qput, put. case_decide; [by intros [= <-]|]. intros Hq. eapply sq_repr_ext; [|by apply A]. intros y Hy. apply Ho. by apply (Hpl p').
  - intros p' y [[-> Hy]|[_ Hy]]%Hin.
    + destruct (Hc y Hy) as [nx En]. split; [|eauto]. apply elem_of_addrs in Hy. lia.
    + destruct (B _ _ Hy) as [Hy0 Hs']. split; [done|]. rewrite Ho; [done|]. by apply (Hpl p').
  - intros p1 p2 y [[-> Hy]|[_ Hy]]%Hin [[-> Hy']|[_ Hy']]%Hin; [done|by destruct (Hpl p2 y)|by destruct (Hpl p1 y)|by eapply C].
  - intros p' y nn Hy%Hin Ey. destruct (Hm' y nn Ey) as [[Hl [nx ->]]|[Hl En]].
    + destruct Hy as [[-> _]|[_ Hy]]; [apply Ht|by destruct (Hpl p' y)].
    + destruct Hy as [[_ Hy]|[_ Hy]]; [done|by eapply D].
  - intros y nn Ey. destruct (Hm' y nn Ey) as [[Hl [nx ->]]|[Hl En]]; [done|by eapply L].
  - intros y [nn Ey]. destruct (Hm' y nn Ey) as [[Hl _]|[_ En]]; [exists p; by rewrite put_eq|]. destruct (Al y ltac:(eauto)) as [p' Hp']. exists p'.
    rewrite put_ne; [done|]. intros <-. rewrite Hp in Hp'. set_solver.
  - intros p' Hp'. unfold qput, put. case_decide; [done|by apply Lv].
  - exists ((x, sz) :: bl), (fun y => if decide (y ∈ l) then (x, sz) else blk y). split; [done|].
    assert (forall y, is_Some (m !! y) -> blk y <> (x, sz)) as Hne.
    { intros y Hy E. destruct (H1 y Hy) as [Hb Hoy]. rewrite E in Hb, Hoy. by apply (Hd (x, sz) y Hb). }
    split.
    + intros y [nn Ey]. destruct (Hm' y nn Ey) as [[Hl _]|[Hl En]]; [rewrite decide_True by done; split; [left|by apply Hown]|].
      rewrite decide_False by done. destruct (H1 y ltac:(eauto)). split; [by right|done].
    + intros y nn Ey Hty. destruct (Hm' y nn Ey) as [[Hl [nx ->]]|[Hl En]]; [done|]. rewrite decide_False by done.
      destruct (H2 y nn En Hty) as [H3 H4]. split; [done|]. intros z [nz Ez] Eb. destruct (Hm' z nz Ez) as [[Hz _]|[Hz Enz]].
      * rewrite decide_True in Eb by done. destruct (Hne y ltac:(eauto)). done.
      * rewrite decide_False in Eb by done. eauto.
Qed.

Lemma msgblockalloc_ok idle s (f : sq_queue -> mq_sys HT -> mq_sys HT) a pl p n t :
  mq_state idle s a pl -> pl PHeld = [] -> pl p = [] -> p = PFree \/ p = PIrq -> (forall nx, type_at p (MqMsg nx t 0 0 (m_mail raw_msg))) -> t <> MQ_ALLOC_DYN ->
  0 < n <= 2 ^ 16 ->
  (forall q s, q_kernel (f q s) = q_kernel s /\ q_msgqs (f q s) = q_msgqs s /\ q_des (f q s) = q_des s /\ q_msgs (f q s) = q_msgs s
     /\ q_heap (f q s) = q_heap s /\ forall p', heads (f q s) p' = qput p q (heads s) p') ->
  wp (mq_msgblockalloc sq_init n t s) (fun '(q, s') => exists pl', mq_state idle (f q s') a pl' /\ pl' PHeld = []
    /\ (pl' p = [] \/ length (pl' p) = Z.to_nat n) /\ (forall p', p' <> p -> pl' p' = pl p') /\ queues_kept s (f q s') pl pl').
Proof.
  intros HM Hh Hp Hpp Ht Htd Hn Hf. pose proof HM as (_ & _ & HO). pose proof (mo_pool _ _ _ HO) as HP. pose proof HP as [_ _ _ _ _ _ _ (bl & blk & Hrep & Hhm)].
  assert (p <> PHeld /\ forall q, p <> PQueue q) as [Hp1 Hp2] by (destruct Hpp as [->| ->]; done).
  unfold mq_msgblockalloc. destruct (getpid_ok _ _ _ _ HM) as [-> Hpid]. apply wp_bind, wp_ret. apply wp_bind.
  eapply wp_mono; [apply (kmalloc_ok (a_pid a (arun a)) (SIZEOF_MQMSG * n) (q_heap s) bl); unfold SIZEOF_MQMSG; done || lia|].
  intros [x h'] [(-> & Hh')|(sz & Hx & Hs & Hh' & Hd)].
  - rewrite decide_True by done. apply wp_ret. destruct (Hf sq_init (with_heap h' s)) as (E1 & E2 & E3 & E4 & E5 & E6). exists pl.
    assert (queues_kept s (f sq_init (with_heap h' s)) pl pl) as Hk by (split; [done|]; split; [by rewrite E4|by rewrite E1, E2, E3]).
    split; [|split; [done|]; split; [by left|]; split; done]. eapply state_pool; [exact HM|exact Hk|]. rewrite E4, E5. destruct HP as [A B C D L Al Lv _]. split; try done.
    + intros p' q. rewrite E6. unfold qput. case_decide as E; [|by apply A]. subst p'. intros [= <-]. rewrite Hp. split; [done|done|done|constructor|set_solver].
    + intros p'. rewrite E6. unfold qput. case_decide; [done|by apply Lv].
    + exists bl, blk. done.
  - rewrite decide_False by lia. apply wp_bind. eapply wp_mono; [apply (msgblock_loop_ok (Z.to_nat n) x t sq_init (q_msgs s) []); [done| |set_solver]|].
    { split; [done|done|done|constructor|set_solver]. }
    intros [q m] (Hr & Hc & Ho). apply wp_ret. destruct (Hf q (with_msgs m (with_heap h' s))) as (E1 & E2 & E3 & E4 & E5 & E6).
    set (st := f q _) in *. exists (put p (addrs x (Z.to_nat n)) pl).
    assert (forall y, y ∉ addrs x (Z.to_nat n) -> m !! y = q_msgs s !! y) as Ho' by (intros y Hy; apply Ho; set_solver).
    assert (queues_kept s st pl (put p (addrs x (Z.to_nat n)) pl)) as Hk.
    { split; [intros q0; by rewrite put_ne|]. split; [|by rewrite E1, E2, E3]. intros q0 y Hy. rewrite E4. unfold mdata. simpl. rewrite Ho'; [done|].
      intros Hya%elem_of_addrs. destruct (proj1 Hhm y) as [Hb Hoy]; [by apply (po_valid _ _ _ _ HP (PQueue q0))|].
      apply (Hd _ y Hb); [|done]. unfold owns. simpl. lia. }
    split; [eapply state_pool; [exact HM|exact Hk|]|].
    + rewrite E4, E5. eapply pool_ext; [exact E6|done|]. eapply (pool_block (q_msgs s) m (heads s) (q_heap s) h' pl p q x sz); try done. lia.
    + split; [by rewrite put_ne|]. split; [right; rewrite put_eq|split; [intros; by rewrite put_ne|done]].
      clear. generalize (Z.to_nat n) as k. intros k. revert x. induction k as [|k IH]; intros x; simpl; [done|by rewrite IH].
Qed.

Lemma repr_empty (m : gmap Z mqmsg) q l : sq_repr m q l -> sq_head q = NULL -> l = [].
Proof. intros [A _ _ _ H0] E. destruct l as [|x l]; [done|]. simpl in A. rewrite E in A. rewrite A in H0. set_solver. Qed.

(** The pools of mq_initialize: each is full, or empty when the heap had no block for it. *)
Lemma init_pools_ok idle s a :
  mq_refines idle s a -> sq_head (g_msgfree s) = NULL -> sq_head (g_msgfreeirq s) = NULL ->
  wp (init_msg_pools s) (fun s' => mq_refines idle s' a /\ (forall q, mq_contents s' q = mq_contents s q)
    /\ exists l1 l2, sq_repr (q_msgs s') (g_msgfree s') l1 /\ sq_repr (q_msgs s') (g_msgfreeirq s') l2
       /\ (l1 = [] \/ length l1 = Z.to_nat PREALLOC_MQ_MSGS) /\ (l2 = [] \/ length l2 = Z.to_nat NUM_INTERRUPT_MSGS)).
Proof.
  intros (pl & Hh & HM) H1 H2. pose proof HM as (_ & _ & HO). pose proof (mo_pool _ _ _ HO) as HP.
  apply (repr_empty _ _ _ (po_repr _ _ _ _ HP PFree _ eq_refl)) in H1. apply (repr_empty _ _ _ (po_repr _ _ _ _ HP PIrq _ eq_refl)) in H2.
  unfold init_msg_pools. apply wp_bind.
  eapply wp_mono; [apply (msgblockalloc_ok idle s (fun q s => with_msgfree q (q_msgs s) s) a pl PFree); try done; [by left|]; intros q s0; repeat (split; [done|]); by intros []|].
  intros [q s1] (pl1 & HM1 & Hh1 & Hl1 & Ho1 & Hk1). cbv zeta. apply wp_bind.
  eapply wp_mono; [apply (msgblockalloc_ok idle (with_msgfree q (q_msgs s1) s1) (fun q s => with_msgfreeirq q (q_msgs s) s) a pl1 PIrq); try done;
    [by rewrite Ho1|by right|]; intros q0 s0; repeat (split; [done|]); by intros []|].
  intros [q2 s2] (pl2 & HM2 & Hh2 & Hl2 & Ho2 & Hk2). apply wp_ret. destruct (kept_trans _ _ _ _ _ _ Hk1 Hk2) as (E1 & E2 & E3 & E4 & E5).
  pose proof HM2 as (_ & _ & HO2). split; [by exists pl2|]. split.
  - intros q0. eapply contents_same; [exact HO|exact HO2|by rewrite E4|done|by apply E2].
  - pose proof (mo_pool _ _ _ HO2) as HP2. exists (pl2 PFree), (pl2 PIrq).
    split; [by apply (po_repr _ _ _ _ HP2 PFree)|]. split; [by apply (po_repr _ _ _ _ HP2 PIrq)|]. by rewrite Ho2.
Qed.

End init.
