(* ===== verification/MqThm.v ===== *)
(** * Message queues: theorems

    The calls refine queues of messages ordered by priority, reject bad
    arguments without any effect, and keep the invariant of [MqSpec] along any
    sequence of calls in which blocked calls go on when their task runs again. *)

From stdpp Require Import sorting.
From S2P Require Import Prelude Queue Mm MmInv MmBlocks MmSpec Sched SchedInv SchedOps SchedSpec SchedThm Sem SemSpec KHeap Mq MqWait MqPool MqSpec MqInit.

Section thm.
  Context {HT : Type} {HK : KHeap HT} {HKS : KHeapSpec HT} {SC : SchedConfig}.
  Implicit Types (s : mq_sys HT).

(** C20: mq_send to a queue with room puts the message behind those of its own or
    a higher priority and in front of the others and wakes the first receiver
    that waits for the queue, if any; no other queue and no other waiter
    changes.  When the queue is full the call fails on a non-blocking descriptor
    and otherwise makes the caller wait for room, behind the waiters of its own
    or a higher priority.  In an interrupt handler it never waits, and it fails
    only for want of a message structure. *)
Theorem mq_send_refines idle s a d msg msglen prio e g :
  mq_refines idle s a -> send_ready idle s a d msg msglen prio e g -> Z.land (d_oflags e) O_WROK <> 0 ->
  (as_int a = false -> alk a (arun a) + 2 <= MAX_LOCK_COUNT) ->
  wp (mq_send d (Some msg) msglen prio s) (fun '(r, s') => exists a',
    send_outcome idle s s' a a' e g (prio, take (Z.to_nat msglen) msg) (negb (Z.land (d_oflags e) O_NONBLOCK =? 0)) r).
Proof. apply mq_send_ok. Qed.

(** C21: mq_receive returns the bytes and the priority of the first message of the
    queue, frees its structure and wakes the first sender that waits for room;
    on an empty queue it fails when the descriptor is non-blocking and otherwise
    makes the caller wait for a message. *)
Theorem mq_receive_refines idle s a d e msglen :
  mq_refines idle s a -> as_int a = false -> opened s d e -> receive_verdict s d true msglen = None ->
  alk a (arun a) < MAX_LOCK_COUNT -> (mq_contents s (d_msgq e) = [] -> arun a <> idle) ->
  wp (mq_receive d true msglen s) (fun '(r, s') => exists a',
    receive_outcome idle s s' a a' e (negb (Z.land (d_oflags e) O_NONBLOCK =? 0)) r).
Proof. apply mq_receive_ok. Qed.

(** A signal or a timeout ends the wait of a task for a queue: the task
    leaves the waiters of the queue, the count of waiters goes down, the
    messages and the other waiters stay, the task is ready and its errno is the
    error code. *)
Theorem mq_waitirq_cancels idle s a l x errcode :
  mq_refines idle s a -> parked l -> x ∈ as_lists a l ->
  wp (mq_waitirq x errcode s) (fun s' => exists a',
    mq_refines idle s' a' /\ cancelled s s' a a' l x /\ errno_of (q_kernel s') x = errcode).
Proof. apply mq_waitirq_ok. Qed.

Lemma send_rejected idle s a d msg msglen prio v :
  mq_refines idle s a -> (d <> NULL -> is_Some (q_des s !! d)) -> send_verdict s d msg msglen prio = Some v ->
  wp (mq_send d msg msglen prio s) (fun '(r, s') => r = MqRet false /\ exists a',
    mq_refines idle s' a' /\ unchanged s s' a a' /\ (as_int a = false -> errno_of (q_kernel s') (arun a) = v)).
Proof.
  intros (pl & Hh & HM) Hd Hv. unfold mq_send. apply wp_bind. eapply wp_mono; [by apply (verifysend_ok idle s a pl)|].
  intros [ok s1]. rewrite Hv. intros (-> & a1 & HM1 & Hu & He). simpl. split; [done|]. exists a1. split; [by exists pl|done].
Qed.

Lemma receive_rejected idle s a d msg msglen v :
  mq_refines idle s a -> as_int a = false -> (d <> NULL -> is_Some (q_des s !! d)) -> receive_verdict s d msg msglen = Some v ->
  wp (mq_receive d msg msglen s) (fun '(r, s') => r = RecvError /\ exists a',
    mq_refines idle s' a' /\ unchanged s s' a a' /\ errno_of (q_kernel s') (arun a) = v).
Proof.
  intros (pl & Hh & HM) Hi Hd Hv. pose proof HM as ((_ & _ & EI) & _). unfold mq_receive. rewrite EI, Hi. apply wp_bind, wp_assert; [done|].
  apply wp_bind. eapply wp_mono; [by apply (verifyreceive_ok idle s a pl)|].
  intros [ok s1]. rewrite Hv. intros (-> & a1 & HM1 & Hu & He). simpl. split; [done|]. exists a1. split; [by exists pl|auto].
Qed.

(** The arguments decide which error a call fails with: EINVAL for no buffer,
    no descriptor or a priority out of range, then EPERM for a descriptor not
    opened for the direction, then EMSGSIZE for a length that does not fit the
    queue.  A call that fails so changes no queue and no waiter. *)
Theorem mq_calls_rejected idle s a d :
  mq_refines idle s a -> as_int a = false -> (d <> NULL -> is_Some (q_des s !! d)) ->
  (forall msg msglen prio v, send_verdict s d msg msglen prio = Some v ->
     wp (mq_send d msg msglen prio s) (fun '(r, s') => r = MqRet false /\ exists a',
       mq_refines idle s' a' /\ unchanged s s' a a' /\ errno_of (q_kernel s') (arun a) = v))
  /\ (forall msg msglen v, receive_verdict s d msg msglen = Some v ->
     wp (mq_receive d msg msglen s) (fun '(r, s') => r = RecvError /\ exists a',
       mq_refines idle s' a' /\ unchanged s s' a a' /\ errno_of (q_kernel s') (arun a) = v)).
Proof.
  intros HM Hi Hd. split.
  - intros msg msglen prio v Hv. eapply wp_mono; [by apply (send_rejected idle s a d msg msglen prio v)|].
    intros [r s'] (-> & a' & H1 & H2 & H3). eauto 6.
  - intros msg msglen v Hv. by apply receive_rejected.
Qed.

(** ** Sequences of calls *)

(** A call that its task will go on with. *)
Inductive mq_pending : Type :=
| PendSend (d : ptr) (msg : list Z) (msglen prio : Z)
| PendReceive (d : ptr).

Record mq_world : Type := World { w_sys : mq_sys HT; w_pending : gmap Z mq_pending }.

Inductive mq_call : Type :=
| MSend (d : ptr) (msg : option (list Z)) (msglen prio : Z)
| MReceive (d : ptr) (msg : bool) (msglen : Z)
| MResume
| MWaitIrq (x errcode : Z)
| MGarbage
| MInterrupt (on : bool).

Definition runner s : Z := dq_head (g_readytorun (q_kernel s)).

(** An interrupt handler starts or ends. *)
Definition set_interrupt (on : bool) (k : kernel) : kernel :=
  Kernel (k_tcbs k) (g_readytorun k) (g_pendingtasks k) (g_inactivetasks k) (g_waitingforsemaphore k)
    (g_waitingforsignal k) (g_waitingformqnotempty k) (g_waitingformqnotfull k) on.

Definition mq_exec (c : mq_call) (w : mq_world) : res mq_world :=
  let s := w_sys w in
  let x := runner s in
  match c with
  | MSend d msg msglen prio =>
      '(r, s) ← mq_send d msg msglen prio s;
      Ok (World s (match r with MqBlocked => <[x := PendSend d (default [] msg) msglen prio]> (w_pending w) | _ => w_pending w end))
  | MReceive d msg msglen =>
      '(r, s) ← mq_receive d msg msglen s;
      Ok (World s (match r with RecvBlocked => <[x := PendReceive d]> (w_pending w) | _ => w_pending w end))
  | MResume =>
      match w_pending w !! x with
      | Some (PendSend d msg msglen prio) =>
          '(r, s) ← mq_send_resumed d msg msglen prio s;
          Ok (World s (match r with MqBlocked => w_pending w | _ => delete x (w_pending w) end))
      | Some (PendReceive d) =>
          '(r, s) ← mq_receive_resumed d s;
          Ok (World s (match r with RecvBlocked => w_pending w | _ => delete x (w_pending w) end))
      | None => Ok w
      end
  | MWaitIrq x e => s ← mq_waitirq x e s; Ok (World s (w_pending w))
  | MGarbage => s ← sched_garbagecollection s; Ok (World s (w_pending w))
  | MInterrupt on => Ok (World (with_q_kernel (set_interrupt on (q_kernel s)) s) (w_pending w))
  end.

Definition can_allocb s : bool :=
  negb (bool_decide (sq_head (g_msgfree s) = NULL))
  || match getpid (q_kernel s) with
     | Ok pid => match kmalloc pid SIZEOF_MQMSG (q_heap s) with Ok (p, _) => negb (bool_decide (p = NULL)) | Err _ => false end
     | Err _ => false
     end.

Definition on_queue s (d : ptr) (f : msgq_s -> bool) : bool :=
  match q_des s !! d with
  | Some e => match q_msgqs s !! d_msgq e with Some g => f g | None => false end
  | None => false
  end.

Definition locks s : Z := from_option lockcount 0 (k_tcbs (q_kernel s) !! runner s).

(** What mq_send needs besides good arguments: the buffer is as long as it says,
    the counts and locks have room, a structure can be had, and the idle task
    does not wait. *)
Definition send_legal (idle : Z) s (d : ptr) (msg : list Z) (msglen prio : Z) : bool :=
  on_queue s d (fun g =>
    negb (bool_decide (d = NULL)) && (nmsgs g <? SEM_VALUE_MAX) && (0 <=? prio) && (prio <=? MQ_PRIO_MAX)
    && (0 <=? msglen) && (msglen <=? maxmsgsize g) && (msglen <=? Z.of_nat (length msg))
    && (k_interrupt (q_kernel s)
        || can_allocb s && (locks s + 2 <=? MAX_LOCK_COUNT) && ((nmsgs g <? maxmsgs g) || negb (bool_decide (runner s = idle))))).

Definition receive_legal (idle : Z) s (d : ptr) : bool :=
  bool_decide (d <> NULL) && negb (k_interrupt (q_kernel s)) && (locks s <? MAX_LOCK_COUNT)
  && on_queue s d (fun g => negb (nmsgs g =? 0) || negb (bool_decide (runner s = idle))).

Definition mq_legal (idle : Z) (c : mq_call) (w : mq_world) : bool :=
  let s := w_sys w in
  match c with
  | MSend d msg msglen prio =>
      (k_interrupt (q_kernel s) || bool_decide (w_pending w !! runner s = None))
      && match send_verdict s d msg msglen prio with
         | Some _ => bool_decide (d = NULL) || bool_decide (is_Some (q_des s !! d))
         | None => bool_decide (is_Some msg) && send_legal idle s d (default [] msg) msglen prio
         end
  | MReceive d msg msglen =>
      negb (k_interrupt (q_kernel s)) && bool_decide (w_pending w !! runner s = None)
      && match receive_verdict s d msg msglen with
         | Some _ => bool_decide (d = NULL) || bool_decide (is_Some (q_des s !! d))
         | None => msg && receive_legal idle s d
         end
  | MResume =>
      negb (k_interrupt (q_kernel s))
      && match w_pending w !! runner s with
         | Some (PendSend d msg msglen prio) => send_legal idle s d msg msglen prio
         | Some (PendReceive d) => receive_legal idle s d
         | None => false
         end
  | MWaitIrq x _ =>
      bool_decide (x ∈ members TL_waitingformqnotempty (q_kernel s) \/ x ∈ members TL_waitingformqnotfull (q_kernel s))
  | MGarbage => negb (k_interrupt (q_kernel s))
  | MInterrupt _ => true
  end.

Fixpoint mq_run (idle : Z) (cs : list mq_call) (w : mq_world) : res (option mq_world) :=
  match cs with
  | [] => Ok (Some w)
  | c :: cs => if mq_legal idle c w then w ← mq_exec c w; mq_run idle cs w else Ok None
  end.

Lemma locks_eq s a : refines (q_kernel s) a -> locks s = alk a (arun a).
Proof.
  intros Hr. unfold locks, runner. rewrite (ref_run _ a Hr). destruct Hr as (_ & ET & _). unfold alk, lockc. rewrite <-ET, lookup_fmap.
  by destruct (k_tcbs (q_kernel s) !! arun a).
Qed.

Lemma can_allocb_ok s : can_allocb s = true -> can_alloc s.
Proof.
  unfold can_allocb, can_alloc. intros [H|H]%orb_true_iff.
  - left. by apply negb_true_iff, bool_decide_eq_false in H.
  - right. destruct (getpid (q_kernel s)) as [pid|] eqn:Ep; [|done]. destruct (kmalloc pid SIZEOF_MQMSG (q_heap s)) as [[p h]|] eqn:Ek; [|done].
    exists pid, p, h. by apply negb_true_iff, bool_decide_eq_false in H.
Qed.

Lemma on_queue_true s d f : on_queue s d f = true -> exists e g, q_des s !! d = Some e /\ q_msgqs s !! d_msgq e = Some g /\ f g = true.
Proof. unfold on_queue. destruct (q_des s !! d) as [e|] eqn:Ed; [|done]. destruct (q_msgqs s !! d_msgq e) eqn:Eq; [|done]. eauto 6. Qed.

#[local] Ltac split_bools :=
  repeat match goal with
  | H : (_ && _) = true |- _ => apply andb_true_iff in H as [??]
  | H : negb _ = true |- _ => apply negb_true_iff in H
  | H : bool_decide _ = true |- _ => apply bool_decide_eq_true in H
  | H : bool_decide _ = false |- _ => apply bool_decide_eq_false in H
  | H : (_ <? _) = true |- _ => apply Z.ltb_lt in H
  | H : (_ <=? _) = true |- _ => apply Z.leb_le in H
  | H : (_ =? _) = false |- _ => apply Z.eqb_neq in H
  end.

Lemma send_legal_ready idle s a d msg msglen prio :
  mq_refines idle s a -> send_legal idle s d msg msglen prio = true ->
  exists e g, send_ready idle s a d msg msglen prio e g /\ (as_int a = false -> alk a (arun a) + 2 <= MAX_LOCK_COUNT).
Proof.
  intros (pl & _ & Hr & _) (e & g & Ed & Eg & Hl)%on_queue_true. pose proof Hr as (_ & _ & EI). split_bools.
  match goal with H : (_ || _) = true |- _ => rename H into Ho end.
  assert (as_int a = false -> can_alloc s /\ alk a (arun a) + 2 <= MAX_LOCK_COUNT /\ (maxmsgs g <= nmsgs g -> arun a <> idle)) as Ht.
  { intros Hi. rewrite EI, Hi in Ho. simpl in Ho. split_bools. split; [by apply can_allocb_ok|]. rewrite <-(locks_eq s a Hr). split; [done|].
    intros Hfull. match goal with H : (_ || _) = true |- _ => apply orb_true_iff in H as [H|H]; split_bools end; [lia|].
    unfold runner in *. by rewrite (ref_run _ a Hr) in *. }
  exists e, g. split; [split; try done; try (by intros Hi; apply Ht)|intros Hi; by apply Ht].
Qed.

Lemma receive_legal_ok idle s a d :
  mq_refines idle s a -> receive_legal idle s d = true ->
  exists e, opened s d e /\ as_int a = false /\ alk a (arun a) < MAX_LOCK_COUNT /\ (mq_contents s (d_msgq e) = [] -> arun a <> idle).
Proof.
  intros (pl & _ & HM) Hl. pose proof HM as (Hr & _ & HO). pose proof Hr as (_ & _ & EI). unfold receive_legal in Hl. split_bools.
  match goal with H : on_queue _ _ _ = true |- _ => apply on_queue_true in H as (e & g & Ed & Eg & Ho) end.
  exists e. split; [done|]. split; [congruence|]. split; [by rewrite <-(locks_eq s a Hr)|]. intros Hc.
  apply orb_true_iff in Ho as [Ho|Ho]; split_bools; [|unfold runner in *; by rewrite (ref_run _ a Hr) in *].
  destruct Ho. rewrite (qo_count _ _ _ (mo_queue _ _ _ HO _ _ Eg)). rewrite (contents_eq s a pl _ g) in Hc by done.
  by apply fmap_nil_inv in Hc as ->.
Qed.

Lemma send_verdict_write s d msg msglen prio e :
  send_verdict s d msg msglen prio = None -> q_des s !! d = Some e -> Z.land (d_oflags e) O_WROK <> 0.
Proof.
  unfold send_verdict. intros Hv Hd. case_match; [done|]. rewrite Hd in Hv. destruct (Z.eqb_spec (Z.land (d_oflags e) O_WROK) 0); done.
Qed.

Lemma interrupt_ok idle s a on :
  mq_refines idle s a -> mq_refines idle (with_q_kernel (set_interrupt on (q_kernel s)) s) (ASched (as_tasks a) (as_lists a) on).
Proof.
  intros (pl & Hh & (HR & ET & EI) & HI & [A B [C1 C2 C3 C4] D]). exists pl. split; [done|]. split; [|split].
  - split; [|done]. destruct HR as [R1 R2 R3 R4]. split; [|done|done|done]. intros l. specialize (R1 l). by destruct l.
  - destruct HI as [[] P]. split; [by split|done].
  - split; try done.
Qed.

(** Nobody begins to wait for a queue that has no descriptor. *)
Definition idle_kept s a a' : Prop :=
  forall l q, parked l -> (forall d e, q_des s !! d = Some e -> d_msgq e <> q) -> mqw l q a = [] -> mqw l q a' = [].

Lemma idle_others s a a' l d e :
  q_des s !! d = Some e -> (forall l' q, parked l' -> l' <> l \/ q <> d_msgq e -> mqw l' q a' = mqw l' q a) -> idle_kept s a a'.
Proof. intros Hd Ho l' q Hl Hq H0. rewrite Ho; [done|done|]. right. symmetry. by apply (Hq d). Qed.

Lemma idle_unchanged s s' a a' : unchanged s s' a a' -> idle_kept s a a'.
Proof. intros [_ _ Hw _] l q Hl _ H0. by rewrite Hw. Qed.

Lemma idle_send idle s s' a a' d e g c nb r : q_des s !! d = Some e -> send_outcome idle s s' a a' e g c nb r -> idle_kept s a a'.
Proof.
  intros Hd [_ Ho]. repeat case_match; [destruct Ho as [[_ Ho]|(_ & _ & Ho)]|destruct Ho as [_ Ho]..];
    first [by eapply idle_unchanged|by eapply idle_others; [exact Hd|apply Ho]].
Qed.

Lemma idle_receive idle s s' a a' d e nb r : q_des s !! d = Some e -> receive_outcome idle s s' a a' e nb r -> idle_kept s a a'.
Proof.
  intros Hd [_ Ho]. repeat case_match; destruct Ho as [_ Ho]; first [by eapply idle_unchanged|by eapply idle_others; [exact Hd|apply Ho]].
Qed.

Lemma idle_cancelled s s' a a' l x : cancelled s s' a a' l x -> idle_kept s a a'.
Proof.
  intros [_ _ Hw Ho _] l' q Hl _ H0. destruct (decide (l' = l)) as [->|]; [|rewrite Ho by auto; done]. destruct (decide (q = a_mq a x)) as [->|]; [|rewrite Ho by auto; done].
  by rewrite Hw, H0.
Qed.

(** What a call promises of the next state. *)
Definition next_ok idle s a (w' : mq_world) : Prop := exists a', mq_refines idle (w_sys w') a' /\ idle_kept s a a'.

Lemma outcome_refines {B} idle s a (r : res (B * mq_sys HT)) Q (K : B -> mq_sys HT -> mq_world) :
  wp r (fun '(b, s') => exists a', Q b s' a') -> (forall b s' a', Q b s' a' -> mq_refines idle s' a' /\ idle_kept s a a') -> (forall b s', w_sys (K b s') = s') ->
  wp ('(b, s') ← r; Ok (K b s')) (next_ok idle s a).
Proof. intros Hr HQ HK'. apply wp_bind. eapply wp_mono; [exact Hr|]. intros [b s'] (a' & H). apply wp_ret. exists a'. rewrite HK'. eauto. Qed.

Lemma mq_exec_ok idle c w a :
  mq_refines idle (w_sys w) a -> mq_legal idle c w = true -> wp (mq_exec c w) (next_ok idle (w_sys w) a).
Proof.
  destruct w as [s pend]. cbn [w_sys]. intros HR Hl. pose proof HR as (pl & _ & Hr & _). pose proof Hr as (_ & _ & EI).
  assert (forall d, (bool_decide (d = NULL) || bool_decide (is_Some (q_des s !! d))) = true -> d <> NULL -> is_Some (q_des s !! d)) as Hdes.
  { intros d [Hd|Hd]%orb_true_iff Hn; by apply bool_decide_eq_true in Hd. }
  pose proof (fun s' a' => idle_unchanged s s' a a') as Huc.
  destruct c as [d msg msglen prio|d msg msglen| |x e| |on]; unfold mq_legal, mq_exec in *; cbn [w_sys w_pending] in *.
  - apply andb_true_iff in Hl as [_ Hl]. destruct (send_verdict s d msg msglen prio) as [v|] eqn:Ev.
    + eapply (outcome_refines idle s a _ (fun _ s' a' => mq_refines idle s' a' /\ unchanged s s' a a')); [|intros _ s' a' [H1 H2]; eauto|done].
      eapply wp_mono; [by apply (send_rejected idle s a d msg msglen prio v); [|apply Hdes|]|]. intros [r s'] (_ & a' & H1 & H2 & _). eauto.
    + apply andb_true_iff in Hl as [Hm Hl]. apply bool_decide_eq_true in Hm as [b ->]. destruct (send_legal_ready _ _ _ _ _ _ _ HR Hl) as (e & g & Hrd & Hlk).
      eapply outcome_refines; [apply (mq_send_ok idle s a d b msglen prio e g); try done; eapply send_verdict_write; [done|by apply Hrd]| |done].
      intros r s' a' Ho. split; [apply Ho|]. eapply idle_send; [apply Hrd|exact Ho].
  - apply andb_true_iff in Hl as [[Hi _]%andb_true_iff Hl]. apply negb_true_iff in Hi. destruct (receive_verdict s d msg msglen) as [v|] eqn:Ev.
    + eapply (outcome_refines idle s a _ (fun _ s' a' => mq_refines idle s' a' /\ unchanged s s' a a')); [|intros _ s' a' [H1 H2]; eauto|done].
      eapply wp_mono; [by apply (receive_rejected idle s a d msg msglen v); [|congruence|apply Hdes|]|]. intros [r s'] (_ & a' & H1 & H2 & _). eauto.
    + apply andb_true_iff in Hl as [-> Hl]. destruct (receive_legal_ok _ _ _ _ HR Hl) as (e & Ho & Hin & Hlk & Hid).
      eapply outcome_refines; [by apply (mq_receive_ok idle s a d e msglen)| |done]. intros r s' a' Hro. split; [apply Hro|]. eapply idle_receive; [apply Ho|exact Hro].
  - apply andb_true_iff in Hl as [Hi Hl]. apply negb_true_iff in Hi. rewrite EI in Hi.
    destruct (pend !! runner s) as [[d msg msglen prio|d]|]; [| |done].
    + destruct (send_legal_ready _ _ _ _ _ _ _ HR Hl) as (e & g & Hrd & Hlk).
      eapply outcome_refines; [apply (mq_send_resumed_ok idle s a d msg msglen prio e g); [done|done|done|specialize (Hlk Hi); lia]| |done].
      intros r s' a'. case_match; [intros Ho; split; [apply Ho|]; eapply idle_send; [apply Hrd|exact Ho]|intros (H1 & _ & H2); eauto].
    + destruct (receive_legal_ok _ _ _ _ HR Hl) as (e & Ho & Hin & Hlk & Hid).
      eapply outcome_refines; [by apply (mq_receive_resumed_ok idle s a d e)| |done].
      intros r s' a'. case_match; [intros Hro; split; [apply Hro|]; eapply idle_receive; [apply Ho|exact Hro]|intros (H1 & _ & H2); eauto].
  - apply bool_decide_eq_true in Hl. rewrite !(members_list _ _ _ Hr) in Hl. apply wp_bind.
    assert (exists l, parked l /\ x ∈ as_lists a l) as (l & Hp & Hx) by (destruct Hl; eexists; (split; [constructor|done])).
    eapply wp_mono; [by apply (mq_waitirq_ok idle s a l x e)|]. intros s' (a' & H & Hc & _). apply wp_ret. exists a'. split; [done|by eapply idle_cancelled].
  - apply wp_bind. eapply wp_mono; [by apply (garbage_ok idle s a)|]. intros s' (H & _). apply wp_ret. exists a. split; [done|by intros l q].
  - apply wp_ret. eexists. split; [by apply interrupt_ok|by intros l q].
Qed.

(** Along any sequence of legal calls of mq_send, mq_receive, mq_waitirq and
    the garbage collection, by tasks and interrupt handlers, with blocked calls
    that go on when their task runs again, no call faults or panics, every
    message structure stays in exactly one list and in a live block of the heap,
    each queue stays sorted by priority with a true count, and the counts of
    waiters agree with the lists of blocked tasks. *)
Theorem mq_calls_safe idle cs w a :
  mq_refines idle (w_sys w) a ->
  wp (mq_run idle cs w) (fun o => forall w', o = Some w' -> exists a', mq_refines idle (w_sys w') a').
Proof.
  revert w a. induction cs as [|c cs IH]; intros w a HR; simpl; [intros w' [= <-]; eauto|].
  destruct (mq_legal idle c w) eqn:El; [|done]. apply wp_bind. eapply wp_mono; [by apply (mq_exec_ok idle c w a)|].
  intros w1 (a1 & HR1 & _). by apply (IH w1 a1).
Qed.

End thm.

(** ** A system with one message queue *)

(** The kernel of [demo_kernel] and a heap of one region; the queue 1008 takes two
    messages of at most 16 bytes; 2000 is open for both directions, 2016 too
    without blocking, 2032 only for receiving. *)
Definition demo_mq : mq_sys mm_state :=
  MqSys mm_state (SemSys (demo_kernel 0) ∅ 0) ∅ {[1008 := Msgq sq_init 2 0 0 0 16]}
    (list_to_map [(2000, MqDes 1008 3); (2016, MqDes 1008 67); (2032, MqDes 1008 1)]) sq_init sq_init sq_init demo_heap.

Lemma demo_queue q g : q_msgqs demo_mq !! q = Some g -> q = 1008 /\ g = Msgq sq_init 2 0 0 0 16.
Proof. unfold demo_mq. cbn [q_msgqs]. intros [<- <-]%lookup_singleton_Some. done. Qed.

Lemma demo_pool : pool_ok (q_msgs demo_mq) (heads demo_mq) demo_heap (fun _ => []).
Proof.
  split; try done; try set_solver.
  - intros p q Hq. assert (q = sq_init) as ->.
    { destruct p as [| | | |q0]; simpl in Hq; try congruence. destruct (({[1008 := Msgq sq_init 2 0 0 0 16]} : gmap Z msgq_s) !! q0) as [g|] eqn:E; [|done].
      apply demo_queue in E as [-> ->]. simpl in Hq. congruence. }
    split; [done|done|done|constructor|set_solver].
  - by intros x [? ?].
  - exists [], (fun _ => (0, 0)). split; [exists demo_regions; split; [apply demo_ok|split; [vm_compute; done|vm_compute; reflexivity]]|].
    split; [by intros x [? ?]|done].
Qed.

Lemma demo_mq_ok : mq_refines 16 demo_mq (demo_sched 0).
Proof.
  exists (fun _ => []). split; [done|]. split; [apply demo_refines|]. split; [apply demo_inv; lia|]. split.
  - apply demo_pool.
  - intros q g [-> ->]%demo_queue. split; [done|done|constructor|done].
  - split.
    + intros l q g Hl [-> ->]%demo_queue. split; [done|]. by destruct Hl.
    + intros l x Hl Hx. destruct Hl; simpl in Hx; set_solver.
    + vm_compute. discriminate.
    + intros x. unfold a_pid. destruct (as_tasks (demo_sched 0) !! x) as [t|] eqn:Et; [|done].
      simpl in Et. rewrite lookup_fmap in Et. destruct (demo_tcbs 0 !! x) as [t0|] eqn:E0; [|done]. simpl in Et. injection Et as <-.
      apply elem_of_list_to_map_2 in E0. set_unfold in E0. naive_solver lia.
  - intros d e Hd. apply elem_of_list_to_map_2 in Hd. set_unfold in Hd. destruct Hd as [[= _ ->]|[[= _ ->]|[[= _ ->]|[]]]]; eexists; reflexivity.
Qed.

Lemma demo_send_ready : send_ready 16 demo_mq (demo_sched 0) 2000 [7; 8; 9] 3 5 (MqDes 1008 3) (Msgq sq_init 2 0 0 0 16).
Proof. split; try done. intros _. apply can_allocb_ok. vm_compute. reflexivity. Qed.

Lemma mq_send_refines_witness :
  wp (mq_send 2000 (Some [7; 8; 9]) 3 5 demo_mq) (fun '(r, s') => exists a',
    send_outcome 16 demo_mq s' (demo_sched 0) a' (MqDes 1008 3) (Msgq sq_init 2 0 0 0 16) (5, take (Z.to_nat 3) [7; 8; 9])
      (negb (Z.land 3 O_NONBLOCK =? 0)) r).
Proof.
  apply (mq_send_refines 16 demo_mq (demo_sched 0) 2000 [7; 8; 9] 3 5 (MqDes 1008 3) (Msgq sq_init 2 0 0 0 16));
    [exact demo_mq_ok|exact demo_send_ready|discriminate|intros _; vm_compute; discriminate].
Defined.

Lemma mq_receive_refines_witness :
  wp (mq_receive 2000 true 16 demo_mq) (fun '(r, s') => exists a',
    receive_outcome 16 demo_mq s' (demo_sched 0) a' (MqDes 1008 3) (negb (Z.land 3 O_NONBLOCK =? 0)) r).
Proof.
  apply (mq_receive_refines 16 demo_mq (demo_sched 0) 2000 (MqDes 1008 3) 16);
    [exact demo_mq_ok|reflexivity|split; [done|reflexivity]|reflexivity|reflexivity|intros _; vm_compute; discriminate].
Defined.

(** The task 32 waits for a message. *)
Definition demo_mq1 : mq_sys mm_state := match mq_receive 2000 true 16 demo_mq with Ok (_, s) => s | Err _ => demo_mq end.

Lemma demo_mq1_ok : exists a, mq_refines 16 demo_mq1 a /\ 32 ∈ as_lists a TL_waitingformqnotempty.
Proof.
  pose proof (mq_receive_ok 16 demo_mq (demo_sched 0) 2000 (MqDes 1008 3) 16 demo_mq_ok eq_refl ltac:(split; [done|reflexivity]) eq_refl eq_refl) as H.
  specialize (H ltac:(intros _; vm_compute; discriminate)). unfold demo_mq1. destruct (mq_receive 2000 true 16 demo_mq) as [[r s]|]; [|done].
  destruct H as (a' & HR & HO). exists a'. split; [done|]. assert (mq_contents demo_mq 1008 = []) as E by reflexivity. cbn [d_msgq] in HO. rewrite E in HO.
  simpl in HO. destruct HO as [_ [_ _ Hw _]]. assert (32 ∈ mqw TL_waitingformqnotempty 1008 a') as Hin by (rewrite Hw; vm_compute; left).
  by apply list_elem_of_filter in Hin as [_ Hin].
Qed.

Lemma mq_waitirq_cancels_witness :
  exists a, mq_refines 16 demo_mq1 a /\ 32 ∈ as_lists a TL_waitingformqnotempty /\
  wp (mq_waitirq 32 EINTR demo_mq1) (fun s' => exists a',
    mq_refines 16 s' a' /\ cancelled demo_mq1 s' a a' TL_waitingformqnotempty 32 /\ errno_of (q_kernel s') 32 = EINTR).
Proof.
  destruct demo_mq1_ok as (a & H1 & H2). exists a. split; [exact H1|]. split; [exact H2|].
  apply (mq_waitirq_cancels 16 demo_mq1 a TL_waitingformqnotempty 32 EINTR); [exact H1|constructor|exact H2].
Defined.

Lemma mq_calls_rejected_witness :
  send_verdict demo_mq 2032 (Some [7]) 1 5 = Some EPERM /\
  wp (mq_send 2032 (Some [7]) 1 5 demo_mq) (fun '(r, s') => r = MqRet false /\ exists a',
    mq_refines 16 s' a' /\ unchanged demo_mq s' (demo_sched 0) a' /\ errno_of (q_kernel s') 32 = EPERM).
Proof.
  split; [reflexivity|].
  apply (proj1 (mq_calls_rejected 16 demo_mq (demo_sched 0) 2032 demo_mq_ok eq_refl (fun _ => ex_intro _ (MqDes 1008 1) eq_refl)) (Some [7]) 1 5 EPERM eq_refl).
Defined.

(** The task 32 waits for a message; an interrupt handler finds no structure; 48
    fills the queue and waits for room, then 64 too; 32 goes on and its receipt
    lets 48 go on; the wait of 64 times out; 32 empties the queue and waits again. *)
Definition demo_mq_calls : list mq_call :=
  [MReceive 2000 true 16; MInterrupt true; MSend 2000 (Some [1]) 1 9; MInterrupt false; MSend 2000 (Some [2; 3]) 2 7; MSend 2016 None 0 0;
   MSend 2000 (Some [4]) 1 200; MSend 2000 (Some [5]) 1 3; MSend 2000 (Some [6]) 1 4; MResume; MWaitIrq 64 ETIMEDOUT; MReceive 2016 true 16;
   MReceive 2016 true 16; MReceive 2000 true 16; MResume; MGarbage].

Lemma mq_calls_safe_witness :
  (match mq_run 16 demo_mq_calls (World demo_mq ∅) with Ok (Some _) => true | _ => false end) = true
  /\ wp (mq_run 16 demo_mq_calls (World demo_mq ∅)) (fun o => forall w', o = Some w' -> exists a', mq_refines 16 (w_sys w') a').
Proof.
  split; [vm_compute; reflexivity|]. apply (mq_calls_safe 16 demo_mq_calls (World demo_mq ∅) (demo_sched 0)). exact demo_mq_ok.
Defined.
