(* ===== verification/Inode.v ===== *)
(** * The inode tree: operations (src/nuttx/fs/fs_inode*.c, fs_register*.c)

    The names of drivers, block drivers and mount points form a tree: the inodes
    of a directory are a list in the order of their names, linked by [i_peer],
    and [i_child] is the first inode below one.  A C string is the list of its
    characters, a pointer into a path the rest of the path.  The semaphore of the
    tree is its count; a call that would have to wait for it is a fault.  The
    parameter [pid] is the calling task, for the lock of the heap. *)

From S2P Require Import Prelude Queue Sched Sem KHeap.

Definition SLASH : Z := 47.

Definition ENOENT : Z := 2.

Definition FSNODEFLAG_TYPE_MASK : Z := 3.
Definition FSNODEFLAG_TYPE_BLOCK : Z := 1.
Definition FSNODEFLAG_TYPE_MOUNTPT : Z := 2.
Definition FSNODEFLAG_DELETED : Z := 4.

Record inode : Type := Inode {
  i_peer : ptr;
  i_child : ptr;
  i_crefs : Z;
  i_flags : Z;
  i_ops : Z;
  i_private : Z;
  i_name : list Z
}.

Definition set_i_peer (p : ptr) (n : inode) : inode := Inode p (i_child n) (i_crefs n) (i_flags n) (i_ops n) (i_private n) (i_name n).
Definition set_i_child (p : ptr) (n : inode) : inode := Inode (i_peer n) p (i_crefs n) (i_flags n) (i_ops n) (i_private n) (i_name n).
Definition set_i_crefs (c : Z) (n : inode) : inode := Inode (i_peer n) (i_child n) c (i_flags n) (i_ops n) (i_private n) (i_name n).
Definition set_i_flags (f : Z) (n : inode) : inode := Inode (i_peer n) (i_child n) (i_crefs n) f (i_ops n) (i_private n) (i_name n).
Definition set_i_driver (ops priv : Z) (n : inode) : inode := Inode (i_peer n) (i_child n) (i_crefs n) (i_flags n) ops priv (i_name n).

(** sizeof(struct inode): two pointers, two 16-bit fields, two pointers and the
    first byte of the name, aligned. *)
Definition SIZEOF_INODE : Z := 24.
Definition FSNODE_SIZE (n : Z) : Z := SIZEOF_INODE + n.

Definition INODE_IS_MOUNTPT (n : inode) : bool := Z.land (i_flags n) FSNODEFLAG_TYPE_MOUNTPT =? FSNODEFLAG_TYPE_MOUNTPT.
Definition INODE_SET_DRIVER (n : inode) : inode := set_i_flags (u16 (Z.land (i_flags n) (Z.lnot FSNODEFLAG_TYPE_MASK))) n.
Definition INODE_SET_BLOCK (n : inode) : inode :=
  set_i_flags (u16 (Z.lor (Z.land (i_flags n) (Z.lnot FSNODEFLAG_TYPE_MASK)) FSNODEFLAG_TYPE_BLOCK)) n.

(** ** Names in a path *)

(** The pointer moves to the next slash or to the end. *)
Fixpoint skip_name (name : list Z) : list Z :=
  match name with
  | [] => []
  | c :: rest => if c =? SLASH then name else skip_name rest
  end.

Definition inode_nextname (name : list Z) : list Z :=
  match skip_name name with
  | [] => []
  | _ :: rest => rest
  end.

Fixpoint inode_namelen (name : list Z) : Z :=
  match name with
  | [] => 0
  | c :: rest => if c =? SLASH then 0 else 1 + inode_namelen rest
  end.

(** The characters that [inode_namecpy] copies. *)
Fixpoint inode_namecpy (src : list Z) : list Z :=
  match src with
  | [] => []
  | c :: rest => if c =? SLASH then [] else c :: inode_namecpy rest
  end.

Fixpoint inode_compare (fname nname : list Z) : Z :=
  match nname, fname with
  | [], [] => 0
  | [], f :: _ => if f =? SLASH then 0 else 1
  | _ :: _, [] => -1
  | n :: nname, f :: fname =>
      if f =? SLASH then -1
      else if n <? f then 1
      else if f <? n then -1
      else inode_compare fname nname
  end.

(** ** The tree *)

Record fs_sys {H : Type} : Type := FsSys {
  root_inode : ptr;
  f_nodes : gmap Z inode;
  tree_sem : Z;
  f_heap : H
}.
Arguments fs_sys H : clear implicits.

Section ops.
  Context {H : Type} {HK : KHeap H}.
  Implicit Types (s : fs_sys H).

Definition with_root (p : ptr) s : fs_sys H := FsSys H p (f_nodes s) (tree_sem s) (f_heap s).
Definition with_nodes (m : gmap Z inode) s : fs_sys H := FsSys H (root_inode s) m (tree_sem s) (f_heap s).
Definition with_treesem (c : Z) s : fs_sys H := FsSys H (root_inode s) (f_nodes s) c (f_heap s).
Definition with_fheap (h : H) s : fs_sys H := FsSys H (root_inode s) (f_nodes s) (tree_sem s) h.

Definition inode_semtake s : res (fs_sys H) := if 0 <? tree_sem s then Ok (with_treesem (tree_sem s - 1) s) else Err FBlock.
Definition inode_semgive s : fs_sys H := with_treesem (tree_sem s + 1) s.

(** The loop of [inode_search]: the inode or NULL, the rest of the path, the
    inode to the left and the one above.  Every step goes on to another inode. *)
Fixpoint search_loop (fuel : nat) (m : gmap Z inode) (name : list Z) (node left above : ptr) : res (ptr * list Z * ptr * ptr) :=
  match fuel with
  | O => Err FFuel
  | S fuel =>
      if decide (node = NULL) then Ok (NULL, name, left, above)
      else
        n ← deref m node;
        let result := inode_compare name (i_name n) in
        if result <? 0 then Ok (NULL, name, left, above)
        else if 0 <? result then search_loop fuel m name (i_peer n) node above
        else
          let name := inode_nextname name in
          if bool_decide (name = []) || INODE_IS_MOUNTPT n then Ok (node, name, left, above)
          else search_loop fuel m name (i_child n) NULL node
  end.

(** [*relpath] is the rest of the path when an inode is found. *)
Definition inode_search (path : list Z) s : res (ptr * list Z * ptr * ptr) :=
  search_loop (list_fuel (f_nodes s)) (f_nodes s) (tail path) (root_inode s) NULL NULL.

(** The recursion visits every inode of the subtree once. *)
Fixpoint inode_free (fuel : nat) (pid : Z) (node : ptr) s : res (fs_sys H) :=
  match fuel with
  | O => Err FFuel
  | S fuel =>
      if decide (node = NULL) then Ok s
      else
        n ← deref (f_nodes s) node;
        s ← inode_free fuel pid (i_peer n) s;
        n ← deref (f_nodes s) node;
        s ← inode_free fuel pid (i_child n) s;
        h ← kfree pid node (f_heap s);
        Ok (with_fheap h (with_nodes (delete node (f_nodes s)) s))
  end.

(** ** fs_inodereserve.c *)

Definition inode_alloc (pid : Z) (name : list Z) s : res (ptr * fs_sys H) :=
  '(node, h) ← kzalloc pid (FSNODE_SIZE (inode_namelen name)) (f_heap s);
  let s := with_fheap h s in
  if decide (node = NULL) then Ok (NULL, s)
  else Ok (node, with_nodes (<[node := Inode NULL NULL 0 0 0 0 (inode_namecpy name)]> (f_nodes s)) s).

Definition inode_insert (node peer parent : ptr) s : res (fs_sys H) :=
  if decide (peer <> NULL) then
    p ← deref (f_nodes s) peer;
    m ← store (set_i_peer (i_peer p)) node (f_nodes s);
    m ← store (set_i_peer node) peer m;
    Ok (with_nodes m s)
  else if decide (parent <> NULL) then
    p ← deref (f_nodes s) parent;
    m ← store (set_i_peer (i_child p)) node (f_nodes s);
    m ← store (set_i_child node) parent m;
    Ok (with_nodes m s)
  else
    m ← store (set_i_peer (root_inode s)) node (f_nodes s);
    Ok (with_root node (with_nodes m s)).

(** Every step goes on with a shorter name. *)
Fixpoint reserve_loop (fuel : nat) (pid : Z) (name : list Z) (lft parent : ptr) s : res (ptr * fs_sys H) :=
  match fuel with
  | O => Err FFuel
  | S fuel =>
      let next_name := inode_nextname name in
      '(node, s) ← inode_alloc pid name s;
      if decide (node = NULL) then Ok (NULL, s)
      else
        s ← inode_insert node lft parent s;
        if bool_decide (next_name = []) then Ok (node, s) else reserve_loop fuel pid next_name NULL node s
  end.

Definition inode_reserve (pid : Z) (path : list Z) s : res (ptr * fs_sys H) :=
  if bool_decide (head path <> Some SLASH) then Ok (NULL, s)
  else
    '(node, name, lft, parent) ← inode_search path s;
    if decide (node <> NULL) then Ok (NULL, s)
    else reserve_loop (S (length name)) pid name lft parent s.

(** ** fs_inoderemove.c *)

Definition inode_unlink (node peer parent : ptr) s : res (fs_sys H) :=
  n ← deref (f_nodes s) node;
  s ← (if decide (peer <> NULL) then m ← store (set_i_peer (i_peer n)) peer (f_nodes s); Ok (with_nodes m s)
       else if decide (parent <> NULL) then m ← store (set_i_child (i_peer n)) parent (f_nodes s); Ok (with_nodes m s)
       else Ok (with_root (i_peer n) s));
  m ← store (set_i_peer NULL) node (f_nodes s);
  Ok (with_nodes m s).

(** The inode, already unlinked, goes back to the heap with all that is below it. *)
Definition free_node (pid : Z) (node : ptr) s : res (fs_sys H) :=
  n ← deref (f_nodes s) node;
  s ← inode_free (list_fuel (f_nodes s)) pid (i_child n) s;
  h ← kfree pid node (f_heap s);
  Ok (with_fheap h (with_nodes (delete node (f_nodes s)) s)).

Definition inode_remove (pid : Z) (path : list Z) s : res (Z * fs_sys H) :=
  if bool_decide (head path <> Some SLASH) then Ok (- EINVAL, s)
  else
    '(node, _, lft, parent) ← inode_search path s;
    if decide (node = NULL) then Ok (- ENOENT, s)
    else
      s ← inode_unlink node lft parent s;
      n ← deref (f_nodes s) node;
      if negb (i_crefs n =? 0) then
        m ← store (set_i_flags (u16 (Z.lor (i_flags n) FSNODEFLAG_DELETED))) node (f_nodes s);
        Ok (- EBUSY, with_nodes m s)
      else
        s ← free_node pid node s;
        Ok (0, s).

(** ** fs_inodefind.c, fs_inodeaddref.c, fs_inoderelease.c *)

(** The inode and, when one is found, the rest of the path. *)
Definition inode_find (path : list Z) s : res (ptr * list Z * fs_sys H) :=
  if bool_decide (head path <> Some SLASH) then Ok (NULL, [], s)
  else
    s ← inode_semtake s;
    '(node, name, _, _) ← inode_search path s;
    if decide (node = NULL) then Ok (NULL, [], inode_semgive s)
    else
      n ← deref (f_nodes s) node;
      m ← store (set_i_crefs (s16 (i_crefs n + 1))) node (f_nodes s);
      Ok (node, name, inode_semgive (with_nodes m s)).

Definition inode_addref (node : ptr) s : res (fs_sys H) :=
  if decide (node = NULL) then Ok s
  else
    s ← inode_semtake s;
    n ← deref (f_nodes s) node;
    m ← store (set_i_crefs (s16 (i_crefs n + 1))) node (f_nodes s);
    Ok (inode_semgive (with_nodes m s)).

Definition inode_release (pid : Z) (node : ptr) s : res (fs_sys H) :=
  if decide (node = NULL) then Ok s
  else
    s ← inode_semtake s;
    n ← deref (f_nodes s) node;
    m ← (if negb (i_crefs n =? 0) then store (set_i_crefs (s16 (i_crefs n - 1))) node (f_nodes s) else Ok (f_nodes s));
    n ← deref m node;
    let s := with_nodes m s in
    if (i_crefs n <=? 0) && negb (Z.land (i_flags n) FSNODEFLAG_DELETED =? 0) then free_node pid node (inode_semgive s)
    else Ok (inode_semgive s).

(** ** Registration of drivers *)

Definition register_driver (pid : Z) (path : list Z) (fops priv : Z) s : res (Z * fs_sys H) :=
  s ← inode_semtake s;
  '(node, s) ← inode_reserve pid path s;
  if decide (node <> NULL) then
    m ← store INODE_SET_DRIVER node (f_nodes s);
    m ← store (set_i_driver fops priv) node m;
    Ok (0, inode_semgive (with_nodes m s))
  else Ok (-1, inode_semgive s).

Definition register_blockdriver (pid : Z) (path : list Z) (bops priv : Z) s : res (Z * fs_sys H) :=
  s ← inode_semtake s;
  '(node, s) ← inode_reserve pid path s;
  if decide (node <> NULL) then
    m ← store INODE_SET_BLOCK node (f_nodes s);
    m ← store (set_i_driver bops priv) node m;
    Ok (0, inode_semgive (with_nodes m s))
  else Ok (- ENOMEM, inode_semgive s).

Definition unregister_driver (pid : Z) (path : list Z) s : res (Z * fs_sys H) :=
  s ← inode_semtake s;
  '(ret, s) ← inode_remove pid path s;
  Ok (ret, inode_semgive s).

Definition unregister_blockdriver (pid : Z) (path : list Z) s : res (Z * fs_sys H) :=
  s ← inode_semtake s;
  '(ret, s) ← inode_remove pid path s;
  Ok (ret, inode_semgive s).

End ops.
