(* ===== verification/InodeTree.v ===== *)
(** * The inode tree: its shape

    [forest] is the tree that the links of the inodes form, first child and next
    peer, and [ctx] a forest with a hole, where the search stops.  The names of
    peers are sorted.  [entries] lists the inodes with their paths. *)

From S2P Require Import Prelude Queue Sched Sem KHeap Inode.

Abbreviation name := (list Z) (only parsing).

(** ** The order of names *)

Fixpoint ncmp (a b : name) : Z :=
  match b, a with
  | [], [] => 0
  | [], _ :: _ => 1
  | _ :: _, [] => -1
  | y :: b, x :: a => if y <? x then 1 else if x <? y then -1 else ncmp a b
  end.

Definition nlt (a b : name) : Prop := ncmp a b < 0.

Lemma compare_ncmp s n : inode_compare s n = ncmp (inode_namecpy s) n.
Proof.
  revert s. induction n as [|y n IH]; intros [|x s]; simpl; try done; destruct (Z.eqb_spec x SLASH); simpl; try done.
  destruct (y <? x); [done|]. destruct (x <? y); [done|]. apply IH.
Qed.

Lemma ncmp_eq a b : ncmp a b = 0 <-> a = b.
Proof.
  revert a. induction b as [|y b IH]; intros [|x a]; simpl; try done.
  destruct (Z.ltb_spec y x); [split; [done|intros [= -> ->]; lia]|]. destruct (Z.ltb_spec x y); [split; [done|intros [= -> ->]; lia]|].
  rewrite IH. split; [intros ->; f_equal; lia|by intros [= _ ->]].
Qed.

Lemma ncmp_sym a b : ncmp b a = - ncmp a b.
Proof.
  revert a. induction b as [|y b IH]; intros [|x a]; simpl; try done.
  destruct (Z.ltb_spec y x), (Z.ltb_spec x y); try lia; try done.
Qed.

Lemma nlt_trans a b c : nlt a b -> nlt b c -> nlt a c.
Proof.
  unfold nlt. revert a b. induction c as [|z c IH]; intros a b; destruct b as [|y b], a as [|x a]; simpl; try lia.
  destruct (Z.ltb_spec y x), (Z.ltb_spec x y), (Z.ltb_spec z y), (Z.ltb_spec y z), (Z.ltb_spec z x), (Z.ltb_spec x z); try lia. apply IH.
Qed.

Lemma nlt_irrefl a : ~ nlt a a.
Proof. unfold nlt. rewrite (proj2 (ncmp_eq a a)) by done. lia. Qed.

(** ** The names of a path *)

(** The names that the search takes from a path; one at least. *)
Fixpoint names_of (fuel : nat) (s : list Z) : list name :=
  match fuel with
  | O => []
  | S fuel => inode_namecpy s :: match inode_nextname s with [] => [] | s' => names_of fuel s' end
  end.

Definition names (s : list Z) : list name := names_of (S (length s)) s.

(** The names of what is left of a path after a name was found. *)
Definition more (s : list Z) : list name := match s with [] => [] | _ => names s end.

Lemma skip_length s : (length (skip_name s) <= length s)%nat.
Proof. induction s as [|c s IH]; simpl; [done|]. case_match; simpl; lia. Qed.

Lemma nextname_length s : inode_nextname s <> [] -> (length (inode_nextname s) < length s)%nat.
Proof. unfold inode_nextname. pose proof (skip_length s). destruct (skip_name s) as [|c r]; simpl in *; [done|lia]. Qed.

Lemma names_fuel f1 f2 s : (length s < f1)%nat -> (length s < f2)%nat -> names_of f1 s = names_of f2 s.
Proof.
  revert f2 s. induction f1 as [|f1 IH]; intros [|f2] s H1 H2; [lia..|]. simpl. f_equal.
  destruct (inode_nextname s) as [|c r] eqn:E; [done|]. pose proof (nextname_length s) as Hl. rewrite E in Hl. specialize (Hl ltac:(done)). apply IH; lia.
Qed.

Lemma names_unfold s : names s = inode_namecpy s :: more (inode_nextname s).
Proof.
  unfold names at 1. simpl. f_equal. unfold more. destruct (inode_nextname s) as [|c r] eqn:E; [done|].
  pose proof (nextname_length s) as Hl. rewrite E in Hl. specialize (Hl ltac:(done)). apply names_fuel; simpl in *; lia.
Qed.

Lemma more_nil s : more s = [] <-> s = [].
Proof. destruct s; [done|]. unfold more. rewrite names_unfold. done. Qed.

(** ** Forests *)

Inductive forest : Type :=
| FNil
| FNode (x : Z) (nm : name) (c r : forest).

Fixpoint faddrs (f : forest) : list Z :=
  match f with
  | FNil => []
  | FNode x _ c r => x :: faddrs c ++ faddrs r
  end.

(** [frepr m p f]: the inodes reached from [p] are those of [f]. *)
Fixpoint frepr (m : gmap Z inode) (p : ptr) (f : forest) : Prop :=
  match f with
  | FNil => p = NULL
  | FNode x nm c r => p = x /\ x <> NULL /\ exists n, m !! x = Some n /\ i_name n = nm /\ frepr m (i_child n) c /\ frepr m (i_peer n) r
  end.

(** [lo] is the name to the left of the forest. *)
Definition above_lo (lo : option name) (nm : name) : Prop := match lo with Some l => nlt l nm | None => True end.

Fixpoint fsorted (lo : option name) (f : forest) : Prop :=
  match f with
  | FNil => True
  | FNode x nm c r => above_lo lo nm /\ fsorted None c /\ fsorted (Some nm) r
  end.

Definition under (p : list name) (e : list name * Z) : list name * Z := (p ++ e.1, e.2).

Fixpoint entries (f : forest) : list (list name * Z) :=
  match f with
  | FNil => []
  | FNode x nm c r => ([nm], x) :: (under [nm] <$> entries c) ++ entries r
  end.

Lemma above_trans lo a b : above_lo lo a -> nlt a b -> above_lo lo b.
Proof. destruct lo; [by apply nlt_trans|done]. Qed.

Lemma fsorted_weaken lo a f : above_lo lo a -> fsorted (Some a) f -> fsorted lo f.
Proof. destruct f as [|x nm c r]; [done|]. simpl. intros H (H1 & H2). split; [by eapply above_trans|done]. Qed.

Lemma frepr_ext m m' p f :
  (forall x, x ∈ faddrs f -> exists n n', m !! x = Some n /\ m' !! x = Some n' /\ i_name n' = i_name n /\ i_child n' = i_child n /\ i_peer n' = i_peer n) ->
  frepr m p f -> frepr m' p f.
Proof.
  revert p. induction f as [|x nm c IHc r IHr]; intros p H; [done|]. simpl. intros (-> & Hx & n & En & Hn & Hc & Hr).
  destruct (H x) as (n0 & n' & E0 & E' & E1 & E2 & E3); [left|]. simplify_eq. split; [done|]. split; [done|]. exists n'. split; [done|].
  split; [done|]. rewrite E2, E3. split; [apply IHc|apply IHr]; try done; intros y Hy; apply H; simpl; rewrite elem_of_cons, elem_of_app; auto.
Qed.

Lemma frepr_lookup m p f x : frepr m p f -> x ∈ faddrs f -> x <> NULL /\ is_Some (m !! x).
Proof.
  revert p. induction f as [|y nm c IHc r IHr]; intros p; simpl; [set_solver|]. intros (-> & Hy & n & En & _ & Hc & Hr).
  rewrite elem_of_cons, elem_of_app. intros [->|[Hx|Hx]]; eauto.
Qed.

Lemma frepr_same m m' p f : (forall x, x ∈ faddrs f -> m' !! x = m !! x) -> frepr m p f -> frepr m' p f.
Proof.
  intros H Hr. apply (frepr_ext m); [|done]. intros x Hx. destruct (frepr_lookup _ _ _ _ Hr Hx) as [_ [n En]]. exists n, n. rewrite H by done. done.
Qed.

Lemma frepr_null m f : frepr m NULL f -> f = FNil.
Proof. destruct f; [done|]. simpl. intros (-> & ? & _). done. Qed.

(** ** Forests with a hole *)

Inductive ctx : Type :=
| CTop
| CPeer (x : Z) (nm : name) (c : forest) (k : ctx)
| CChild (x : Z) (nm : name) (r : forest) (k : ctx).

Fixpoint plug (k : ctx) (f : forest) : forest :=
  match k with
  | CTop => f
  | CPeer x nm c k => plug k (FNode x nm c f)
  | CChild x nm r k => plug k (FNode x nm f r)
  end.

Definition cleft (k : ctx) : ptr := match k with CPeer x _ _ _ => x | _ => NULL end.
Fixpoint cabove (k : ctx) : ptr :=
  match k with
  | CTop => NULL
  | CPeer _ _ _ k => cabove k
  | CChild x _ _ _ => x
  end.

Definition clo (k : ctx) : option name := match k with CPeer _ nm _ _ => Some nm | _ => None end.

Fixpoint cpath (k : ctx) : list name :=
  match k with
  | CTop => []
  | CPeer _ _ _ k => cpath k
  | CChild _ nm _ k => cpath k ++ [nm]
  end.

Fixpoint caddrs (k : ctx) : list Z :=
  match k with
  | CTop => []
  | CPeer x _ f k | CChild x _ f k => x :: faddrs f ++ caddrs k
  end.

Fixpoint csorted (k : ctx) : Prop :=
  match k with
  | CTop => True
  | CPeer x nm c k => csorted k /\ above_lo (clo k) nm /\ fsorted None c
  | CChild x nm r k => csorted k /\ above_lo (clo k) nm /\ fsorted (Some nm) r
  end.

Fixpoint centries (k : ctx) : list (list name * Z) :=
  match k with
  | CTop => []
  | CPeer x nm c k => centries k ++ (under (cpath k) <$> ([nm], x) :: (under [nm] <$> entries c))
  | CChild x nm r k => centries k ++ (under (cpath k) <$> ([nm], x) :: entries r)
  end.

(** [q] is the pointer at the hole. *)
Fixpoint crepr (m : gmap Z inode) (root : ptr) (k : ctx) (q : ptr) : Prop :=
  match k with
  | CTop => root = q
  | CPeer x nm c k => x <> NULL /\ crepr m root k x /\ exists n, m !! x = Some n /\ i_name n = nm /\ frepr m (i_child n) c /\ i_peer n = q
  | CChild x nm r k => x <> NULL /\ crepr m root k x /\ exists n, m !! x = Some n /\ i_name n = nm /\ i_child n = q /\ frepr m (i_peer n) r
  end.

Lemma plug_repr m root k f : frepr m root (plug k f) <-> exists q, crepr m root k q /\ frepr m q f.
Proof.
  revert f. induction k as [|x nm c k IH|x nm r k IH]; intros f; simpl.
  - split; [intros H; by exists root|by intros (q & -> & H)].
  - rewrite IH. simpl. split.
    + intros (q & Hk & -> & Hx & n & En & Hn & Hc & Hr). exists (i_peer n). split; [|done]. split; [done|]. split; [done|]. by exists n.
    + intros (q & (Hx & Hk & n & En & Hn & Hc & <-) & Hf). exists x. split; [done|]. split; [done|]. split; [done|]. by exists n.
  - rewrite IH. simpl. split.
    + intros (q & Hk & -> & Hx & n & En & Hn & Hc & Hr). exists (i_child n). split; [|done]. split; [done|]. split; [done|]. by exists n.
    + intros (q & (Hx & Hk & n & En & Hn & <- & Hr) & Hf). exists x. split; [done|]. split; [done|]. split; [done|]. by exists n.
Qed.

Lemma plug_addrs k f : faddrs (plug k f) ≡ₚ caddrs k ++ faddrs f.
Proof.
  revert f. induction k as [|x nm c k IH|x nm r k IH]; intros f; simpl; [done|..]; rewrite IH; simpl.
  - rewrite <-Permutation_middle. f_equiv. rewrite app_assoc, (Permutation_app_comm (caddrs k)). done.
  - rewrite <-Permutation_middle. f_equiv. rewrite app_assoc, Permutation_app_comm, app_assoc. done.
Qed.

Lemma plug_sorted k f : fsorted None (plug k f) <-> csorted k /\ fsorted (clo k) f.
Proof.
  revert f. induction k as [|x nm c k IH|x nm r k IH]; intros f; simpl; [tauto|..]; rewrite IH; simpl; tauto.
Qed.

Lemma under_under p q e : under p (under q e) = under (p ++ q) e.
Proof. unfold under. simpl. by rewrite app_assoc. Qed.

Lemma fmap_under p q (es : list (list name * Z)) : under p <$> (under q <$> es) = under (p ++ q) <$> es.
Proof. rewrite <-list_fmap_compose. apply list_fmap_ext. intros i e _. apply under_under. Qed.

Lemma plug_entries k f : entries (plug k f) ≡ₚ centries k ++ (under (cpath k) <$> entries f).
Proof.
  revert f. induction k as [|x nm c k IH|x nm r k IH]; intros f; cbn [plug centries cpath].
  - assert (under [] <$> entries f = entries f) as ->; [|done]. rewrite <-(list_fmap_id (entries f)) at 2. apply list_fmap_ext. by intros i [p e] _.
  - rewrite IH. cbn [entries]. rewrite <-app_assoc, !fmap_cons, fmap_app. done.
  - rewrite IH. cbn [entries]. rewrite <-app_assoc, !fmap_cons, fmap_app, fmap_under. f_equiv. rewrite Permutation_app_comm. done.
Qed.

(** ** Paths are unique *)

Lemma entries_first lo f e : fsorted lo f -> e ∈ entries f -> exists nm p, e.1 = nm :: p /\ above_lo lo nm.
Proof.
  revert lo. induction f as [|x nm c IHc r IHr]; intros lo; simpl; [set_solver|]. intros (Hlo & Hc & Hr).
  rewrite elem_of_cons, elem_of_app. intros [->|[He|He]].
  - by exists nm, [].
  - apply list_elem_of_fmap in He as (e' & -> & _). by exists nm, e'.1.
  - destruct (IHr _ Hr He) as (nm' & p & E & Hl). exists nm', p. split; [done|]. by eapply above_trans.
Qed.

Lemma entries_nodup lo f : fsorted lo f -> NoDup (entries f).*1.
Proof.
  revert lo. induction f as [|x nm c IHc r IHr]; intros lo; simpl; [intros _; constructor|]. intros (Hlo & Hc & Hr).
  rewrite fmap_app. constructor.
  - rewrite elem_of_app. intros [He|He].
    + apply list_elem_of_fmap in He as (e & E & He). apply list_elem_of_fmap in He as (e' & -> & He').
      destruct (entries_first _ _ _ Hc He') as (nm' & p & E' & _). simpl in E. rewrite E' in E. done.
    + apply list_elem_of_fmap in He as (e & E & He). destruct (entries_first _ _ _ Hr He) as (nm' & p & E' & Hl). rewrite E' in E. simplify_eq.
      by apply nlt_irrefl in Hl.
  - apply NoDup_app. split; [|split; [|by eapply IHr]].
    + assert ((under [nm] <$> entries c).*1 = cons nm <$> (entries c).*1) as ->.
      { rewrite <-!list_fmap_compose. done. }
      apply NoDup_fmap; [|by eapply IHc]. intros a b. by intros [= ->].
    + intros p Hp Hp'. apply list_elem_of_fmap in Hp as (e & -> & He). apply list_elem_of_fmap in He as (e0 & -> & _).
      apply list_elem_of_fmap in Hp' as (e' & E & He'). destruct (entries_first _ _ _ Hr He') as (nm' & p' & E' & Hl). simpl in E. rewrite E' in E. simplify_eq.
      by apply nlt_irrefl in Hl.
Qed.

(** The inodes above an inode are there too. *)
Lemma entries_ancestor f p q x : p <> [] -> (p ++ q, x) ∈ entries f -> exists y, (p, y) ∈ entries f.
Proof.
  intros Hp. revert p Hp. induction f as [|z nm c IHc r IHr]; intros p Hp; simpl; [set_solver|].
  setoid_rewrite elem_of_cons. setoid_rewrite elem_of_app. intros [[= E ->]|[He|He]].
  - destruct p as [|a [|b p]]; [done| |done]. simpl in E. injection E as -> _. exists z. by left.
  - apply list_elem_of_fmap in He as ([p' x'] & E & He). unfold under in E. simpl in E. injection E as E ->. destruct p as [|a p]; [done|].
    simpl in E. injection E as -> E. destruct p as [|b p]; [exists z; by left|].
    destruct (IHc (b :: p) ltac:(done)) as [y Hy]; [by rewrite E|]. exists y. right. left. apply list_elem_of_fmap. by exists (b :: p, y).
  - destruct (IHr p Hp He) as [y Hy]. eauto.
Qed.

(** ** The reference for the search: no order, no early end *)

Fixpoint flookup (mp : Z -> bool) (l : list name) (f : forest) : option (Z * list name) :=
  match f, l with
  | FNil, _ | _, [] => None
  | FNode x nm c r, a :: rest =>
      if decide (a = nm) then if bool_decide (rest = []) || mp x then Some (x, rest) else flookup mp rest c
      else flookup mp l r
  end.

(** Without mount points on the way the search finds the inode of the whole path. *)
Lemma flookup_entries mp f lo l x :
  fsorted lo f -> (forall p q y, l = p ++ q -> q <> [] -> (p, y) ∈ entries f -> mp y = false) ->
  flookup mp l f = Some (x, []) <-> (l, x) ∈ entries f.
Proof.
  revert lo l. induction f as [|z nm c IHc r IHr]; intros lo l; simpl; [set_solver|]. intros (Hlo & Hc & Hr) Hmp.
  rewrite elem_of_cons, elem_of_app. destruct l as [|a rest].
  { split; [done|]. intros [?|[He|He]]; [done|..].
    - apply list_elem_of_fmap in He as (e & E & _). done.
    - destruct (entries_first _ _ _ Hr He) as (? & ? & E & _). done. }
  assert ((a :: rest, x) ∈ entries r -> nlt nm a) as Hra by (intros He; destruct (entries_first _ _ _ Hr He) as (? & ? & [= -> ->] & Hl); done).
  case_decide as Ea.
  - subst a. destruct rest as [|b rest]; cbn [bool_decide].
    + rewrite bool_decide_true by done. simpl. split; [intros [= ->]; by left|]. intros [[= ->]|[He|He]]; [done|..].
      * apply list_elem_of_fmap in He as (e & [= E _] & He). destruct (entries_first _ _ _ Hc He) as (? & ? & E' & _). by rewrite E' in E.
      * apply Hra in He. by apply nlt_irrefl in He.
    + rewrite bool_decide_false by done. rewrite (Hmp [nm] (b :: rest) z) by (done || rewrite elem_of_cons; by left). simpl.
      rewrite (IHc None (b :: rest) Hc).
      * split; [intros He; right; left; apply list_elem_of_fmap; by exists (b :: rest, x)|]. intros [?|[He|He]]; [done|..].
        -- apply list_elem_of_fmap in He as ([p' x'] & [= <- ->] & He). done.
        -- apply Hra in He. by apply nlt_irrefl in He.
      * intros p q y E Hq He. apply (Hmp (nm :: p) q y); [by rewrite E|done|]. rewrite elem_of_cons, elem_of_app. right. left.
        apply list_elem_of_fmap. by exists (p, y).
  - rewrite (IHr (Some nm) (a :: rest) Hr).
    + split; [auto|]. intros [[= ? ?]|[He|He]]; [done| |done]. apply list_elem_of_fmap in He as (e & [= ? _] & _). done.
    + intros p q y E Hq He. apply (Hmp p q y E Hq). rewrite elem_of_cons, elem_of_app. auto.
Qed.

(** A name smaller than all is not found. *)
Lemma flookup_none mp f a nm rest : nlt a nm -> fsorted (Some nm) f -> flookup mp (a :: rest) f = None.
Proof.
  revert nm. induction f as [|y nm2 c _ r IHr]; intros nm H1; simpl; [done|]. intros (H2 & _ & H3). assert (nlt a nm2) by by eapply nlt_trans.
  rewrite decide_False by (intros ->; by eapply nlt_irrefl). by apply (IHr nm2).
Qed.

(** A mount point on the way ends the search. *)
Lemma flookup_mount mp f lo p q y : fsorted lo f -> (p, y) ∈ entries f -> mp y = true -> is_Some (flookup mp (p ++ q) f).
Proof.
  revert lo p. induction f as [|z nm c IHc r IHr]; intros lo p; simpl; [set_solver|]. intros (Hlo & Hc & Hr). rewrite elem_of_cons, elem_of_app.
  intros [[= -> ->]|[He|He]] Hm; simpl.
  - rewrite decide_True, Hm, orb_true_r by done. eauto.
  - apply list_elem_of_fmap in He as ([p' y'] & [= -> ->] & He). simpl. rewrite decide_True by done. case_match; [eauto|]. by eapply IHc.
  - destruct (entries_first _ _ _ Hr He) as (a & p' & E & Hl). simpl in E. subst p. simpl in *. rewrite decide_False by (intros ->; by apply nlt_irrefl in Hl).
    by apply (IHr _ (a :: p') Hr He).
Qed.

Lemma entries_addrs f p x : (p, x) ∈ entries f -> x ∈ faddrs f.
Proof.
  revert p. induction f as [|z nm c IHc r IHr]; intros p; simpl; [set_solver|]. rewrite !elem_of_cons, !elem_of_app. intros [[= _ ->]|[He|He]]; [by left|..].
  - apply list_elem_of_fmap in He as ([p' x'] & [= _ ->] & He). eauto.
  - eauto.
Qed.

(** The memory determines the forest. *)
Lemma frepr_inj m p f f' : frepr m p f -> frepr m p f' -> f = f'.
Proof.
  revert p f'. induction f as [|x nm c IHc r IHr]; intros p f' Hf Hf'.
  - simpl in Hf. subst p. by apply frepr_null in Hf' as ->.
  - destruct Hf as (-> & Hx & n & En & Hn & Hc & Hr). destruct f' as [|y nm' c' r']; [done|]. destruct Hf' as (<- & _ & n' & En' & Hn' & Hc' & Hr').
    simplify_eq. f_equal; eauto.
Qed.
