(* ===== verification/InodeSpec.v ===== *)
(** * The inode tree: the operations on forests

    The search finds a place in the forest, and insertion and removal change the
    forest there. *)

From S2P Require Import Prelude Queue Sched Sem KHeap Inode InodeTree.

(** ** The search *)

Definition mountpt (m : gmap Z inode) (x : Z) : bool := from_option INODE_IS_MOUNTPT false (m !! x).

(** Where a name would go: behind what is to the left and before [g]. *)
Definition fits (k : ctx) (nm : name) (g : forest) : Prop :=
  above_lo (clo k) nm /\ match g with FNil => True | FNode _ nm' _ _ => nlt nm nm' end.

(** The search ends at the hole of [k], in front of [g]. *)
Definition search_post (m : gmap Z inode) (t : forest) (p : list name) (r : ptr * list Z * ptr * ptr) : Prop :=
  let '(node, rest, lft, above) := r in
  exists k g, t = plug k g /\ lft = cleft k /\ above = cabove k
    /\ if decide (node = NULL) then p = cpath k ++ names rest /\ fits k (inode_namecpy rest) g
       else exists nm c r, g = FNode node nm c r /\ p = (cpath k ++ [nm]) ++ more rest /\ (rest = [] \/ mountpt m node = true).

Lemma search_loop_ok fuel m k g s node :
  frepr m node g -> csorted k -> fsorted (clo k) g -> above_lo (clo k) (inode_namecpy s) -> (length (faddrs g) < fuel)%nat ->
  wp (search_loop fuel m s node (cleft k) (cabove k)) (fun r =>
    search_post m (plug k g) (cpath k ++ names s) r
    /\ flookup (mountpt m) (names s) g = (let '(x, rest, _, _) := r in if decide (x = NULL) then None else Some (x, more rest))).
Proof.
  revert k g s node. induction fuel as [|fuel IH]; intros k g s node Hg Hk Hs Hlo Hf; [lia|]. cbn [search_loop].
  destruct g as [|x nm c r].
  { simpl in Hg. subst node. rewrite decide_True by done. apply wp_ret. cbv beta iota zeta. split; [|by rewrite decide_True]. unfold search_post.
    exists k, FNil. rewrite decide_True by done. split; [done|]. split; [done|]. split; [done|]. split; [done|]. by split. }
  pose proof Hg as (-> & Hx & n & En & Hn & Hc & Hr). destruct Hs as (Hlo' & Hsc & Hsr). simpl in Hf. rewrite length_app in Hf.
  rewrite decide_False by done. apply wp_bind. eapply wp_deref; [done|exact En|]. rewrite Hn, compare_ncmp. cbn [flookup]. pose proof (names_unfold s) as Es. rewrite Es.
  set (a := inode_namecpy s) in *. destruct (Z.ltb_spec (ncmp a nm) 0) as [Hlt|Hge].
  { apply wp_ret. cbv beta iota zeta. unfold search_post. rewrite !(decide_True (P := NULL = NULL)) by done. split.
    - exists k, (FNode x nm c r). split; [done|]. split; [done|]. split; [done|]. split; [by rewrite <-Es|]. by split.
    - rewrite decide_False by (intros ->; by apply nlt_irrefl in Hlt). by apply (flookup_none _ _ _ nm). }
  destruct (Z.ltb_spec 0 (ncmp a nm)) as [Hgt|Hle].
  { assert (nlt nm a) as Hna by (unfold nlt; rewrite ncmp_sym; lia). rewrite decide_False by (intros ->; by apply nlt_irrefl in Hna).
    eapply wp_mono; [apply (IH (CPeer x nm c k) r s (i_peer n)); [done|by repeat split|done|done|lia]|].
    rewrite <-Es. by intros [[[z rest] lft] ab]. }
  assert (ncmp a nm = 0) as E%ncmp_eq by lia. rewrite decide_True by done.
  assert (mountpt m x = INODE_IS_MOUNTPT n) as Em by (unfold mountpt; by rewrite En). rewrite Em.
  assert (bool_decide (more (inode_nextname s) = []) = bool_decide (inode_nextname s = [])) as -> by (apply bool_decide_ext, more_nil).
  destruct (bool_decide (inode_nextname s = []) || INODE_IS_MOUNTPT n) eqn:Eb.
  { apply wp_ret. cbv beta iota zeta. split; [|by rewrite decide_False]. unfold search_post. exists k, (FNode x nm c r). rewrite decide_False by done. split; [done|]. split; [done|]. split; [done|].
    exists nm, c, r. split; [done|]. rewrite E, <-app_assoc. split; [done|]. rewrite Em. apply orb_true_iff in Eb as [Eb|Eb]; [left|by right]. by apply bool_decide_eq_true in Eb. }
  apply orb_false_iff in Eb as [Eb _]. apply bool_decide_eq_false in Eb.
  assert (more (inode_nextname s) = names (inode_nextname s)) as -> by (unfold more; by destruct (inode_nextname s)).
  eapply wp_mono; [apply (IH (CChild x nm r k) c (inode_nextname s) (i_child n)); [done|by repeat split|done|done|lia]|].
  intros [[[z rest] lft] ab] [H1 H2]. split; [|done]. cbn [cpath plug] in H1. rewrite <-app_assoc in H1. by rewrite E.
Qed.

(** What is left of the path is not longer than the path. *)
Lemma nextname_le (a : list Z) : (length (inode_nextname a) <= length a)%nat.
Proof. destruct (decide (inode_nextname a = [])) as [->|H%nextname_length]; simpl; lia. Qed.

Lemma search_length fuel m a node lft above r : search_loop fuel m a node lft above = Ok r -> (length r.1.1.2 <= length a)%nat.
Proof.
  revert a node lft above. induction fuel as [|fuel IH]; intros a node lft above; cbn [search_loop]; [done|]. case_decide; [by intros [= <-]|].
  destruct (deref m node) as [n|]; [|done]. cbn [mbind res_bind]. case_match; [by intros [= <-]|]. case_match; [apply IH|]. pose proof (nextname_le a).
  case_match; [by intros [= <-]|]. intros Hr%IH. lia.
Qed.

(** ** Writing the pointer at a hole *)

Lemma crepr_same m m' root k q : (forall y, y ∈ caddrs k -> m' !! y = m !! y) -> crepr m root k q -> crepr m' root k q.
Proof.
  revert q. induction k as [|x nm f k IH|x nm f k IH]; intros q H; simpl; [done|..]; intros (Hx & Hk & n & En & Hn & H1 & H2); (split; [done|]);
    (split; [apply IH; [intros y Hy; apply H; simpl; set_solver|done]|]); exists n; rewrite H by (simpl; left); (split; [done|]); (split; [done|]);
    split; try done; (eapply frepr_same; [|done]); intros y Hy; apply H; simpl; set_solver.
Qed.

(** An inode without its links. *)
Definition ibody (n : inode) : inode := Inode NULL NULL (i_crefs n) (i_flags n) (i_ops n) (i_private n) (i_name n).

Section fill.
  Context {HT : Type}.
  Implicit Types (s : fs_sys HT).

Definition fill (k : ctx) (q : ptr) s : fs_sys HT :=
  match k with
  | CTop => with_root q s
  | CPeer x _ _ _ => with_nodes (alter (set_i_peer q) x (f_nodes s)) s
  | CChild x _ _ _ => with_nodes (alter (set_i_child q) x (f_nodes s)) s
  end.

Lemma fill_frame k q s : frame ibody (caddrs k) (f_nodes s) (f_nodes (fill k q s)).
Proof.
  destruct k as [|x nm f k|x nm f k]; simpl; [apply frame_refl|..]; (apply frame_alter; [left|done|apply frame_refl]).
Qed.

Lemma fill_crepr k q q' s : crepr (f_nodes s) (root_inode s) k q -> NoDup (caddrs k) -> crepr (f_nodes (fill k q' s)) (root_inode (fill k q' s)) k q'.
Proof.
  destruct k as [|x nm f k|x nm f k]; simpl; [done|..]; intros (Hx & Hk & n & En & Hn & H1 & H2) Hnd; apply NoDup_cons in Hnd as [Hnx _];
    (split; [done|]); (split; [eapply crepr_same; [|done]; intros y Hy; apply lookup_alter_ne; set_solver|]);
    eexists; (split; [by rewrite lookup_alter_eq, En|]); (split; [done|]); split; try done; (eapply frepr_same; [|done]); intros y Hy; apply lookup_alter_ne; set_solver.
Qed.

Lemma fill_rest k q s : tree_sem (fill k q s) = tree_sem s /\ f_heap (fill k q s) = f_heap s.
Proof. by destruct k. Qed.

End fill.

(** ** The invariant *)

Definition deleted (n : inode) : bool := negb (Z.land (i_flags n) FSNODEFLAG_DELETED =? 0).

Definition live (t : forest) (gone : list forest) : list Z := faddrs t ++ (gone ≫= faddrs).

Section spec.
  Context {HT : Type} {HK : KHeap HT} {HKS : KHeapSpec HT}.
  Implicit Types (s : fs_sys HT).

(** [sz x] is the size of the block of the inode [x]. *)
Definition homes (h : HT) (l : list Z) : Prop :=
  exists sz other, heap_rep None h (((fun x => (x, sz x)) <$> l) ++ other) /\ forall x, x ∈ l -> 0 < sz x.

(** The links, the heap and the list [gone] of the inodes that are removed and
    still referred to, each with what is below it. *)
Record fs_shape s (t : forest) (gone : list forest) : Prop := FsShape {
  fo_tree : frepr (f_nodes s) (root_inode s) t;
  fo_sorted : fsorted None t;
  fo_gone : forall f, f ∈ gone -> exists x nm c, f = FNode x nm c FNil /\ frepr (f_nodes s) x f;
  fo_nodup : NoDup (live t gone);
  fo_dom : forall x, is_Some (f_nodes s !! x) <-> x ∈ live t gone;
  fo_heap : homes (f_heap s) (live t gone)
}.

(** The counts of references and the flags. *)
Record fs_data s (gone : list forest) : Prop := FsData {
  fo_refs : forall x n, f_nodes s !! x = Some n -> 0 <= i_crefs n <= SEM_VALUE_MAX /\ 0 <= i_flags n < 2 ^ 16;
  fo_deleted : forall x n, f_nodes s !! x = Some n -> deleted n = true <-> exists nm c, FNode x nm c FNil ∈ gone;
  fo_held : forall x n, f_nodes s !! x = Some n -> deleted n = true -> 0 < i_crefs n
}.

Definition fs_ok s (t : forest) (gone : list forest) : Prop := fs_shape s t gone /\ fs_data s gone.

Lemma homes_perm h l l' : l ≡ₚ l' -> homes h l -> homes h l'.
Proof.
  intros Hp (sz & other & Hh & Hs). exists sz, other. split; [|intros x Hx; apply Hs; by rewrite Hp]. eapply heap_perm; [|exact Hh]. by rewrite Hp.
Qed.

Lemma homes_fresh h l pid size :
  homes h l -> 0 <= pid -> 0 < size -> size + 23 < 2 ^ 32 ->
  wp (kzalloc pid size h) (fun '(x, h') => (x = NULL /\ homes h' l) \/ (x <> NULL /\ x ∉ l /\ homes h' (x :: l))).
Proof.
  intros (sz & other & Hh & Hs) Hp H0 H1. eapply wp_mono; [by apply (kzalloc_ok pid size h _ Hp H0 H1 Hh)|].
  intros [x h'] [[-> Hh']|(n & Hx & Hn & Hh' & Hd)]; [left; split; [done|]; by exists sz, other|right].
  assert (x ∉ l) as Hxl.
  { intros Hin. apply (Hd (x, sz x) x).
    - apply elem_of_app. left. apply list_elem_of_fmap. by exists x.
    - unfold owns. simpl. lia.
    - unfold owns. simpl. specialize (Hs x Hin). lia. }
  split; [lia|]. split; [done|]. exists (fun y => if decide (y = x) then n else sz y), other. split.
  - rewrite fmap_cons, decide_True by done. simpl. replace ((λ y : Z, (y, if decide (y = x) then n else sz y)) <$> l) with ((fun y => (y, sz y)) <$> l); [done|].
    apply list_fmap_ext. intros i y Hy%list_elem_of_lookup_2. rewrite decide_False by (by intros ->). done.
  - intros y Hy. case_decide; [lia|]. apply Hs. set_solver.
Qed.

Lemma homes_free h x l pid : homes h (x :: l) -> 0 <= pid -> wp (kfree pid x h) (fun h' => homes h' l).
Proof.
  intros (sz & other & Hh & Hs) Hp. simpl in Hh. eapply wp_mono; [apply (kfree_ok None pid h (x, sz x) _ Hp ltac:(by left) Hh)|].
  intros h' Hh'. exists sz, other. split; [done|]. intros y Hy. apply Hs. set_solver.
Qed.

(** ** Linking an inode *)

Lemma insert_links k g q s x nm n :
  crepr (f_nodes s) (root_inode s) k q -> frepr (f_nodes s) q g -> NoDup (x :: caddrs k ++ faddrs g) -> x <> NULL ->
  f_nodes s !! x = Some n -> i_name n = nm -> i_child n = NULL ->
  wp (inode_insert x (cleft k) (cabove k) s) (fun s' =>
    frepr (f_nodes s') (root_inode s') (plug k (FNode x nm FNil g)) /\ frame ibody (x :: caddrs k) (f_nodes s) (f_nodes s')
    /\ tree_sem s' = tree_sem s /\ f_heap s' = f_heap s).
Proof.
  intros Hk Hg Hnd Hx En Hn Hc. apply NoDup_cons in Hnd as [Hxn Hnd]. apply NoDup_app in Hnd as (Hnk & Hkg & _). rewrite elem_of_app in Hxn.
  set (s1 := with_nodes (alter (set_i_peer q) x (f_nodes s)) s).
  assert (wp (Ok (fill k x s1)) (fun s' => frepr (f_nodes s') (root_inode s') (plug k (FNode x nm FNil g)) /\ frame ibody (x :: caddrs k) (f_nodes s) (f_nodes s')
    /\ tree_sem s' = tree_sem s /\ f_heap s' = f_heap s)) as Hend.
  { apply wp_ret. assert (crepr (f_nodes s1) (root_inode s1) k q) as Hk1 by (eapply crepr_same; [|exact Hk]; intros y Hy; apply lookup_alter_ne; set_solver).
    pose proof (fill_frame k x s1) as Hf. split; [|split; [|exact (fill_rest k x s1)]].
    - apply plug_repr. exists x. split; [by eapply fill_crepr|]. simpl. split; [done|]. split; [done|]. destruct Hf as [Hf1 Hf2].
      exists (set_i_peer q n). rewrite Hf1 by tauto. split; [simpl; by rewrite lookup_alter_eq, En|]. split; [done|]. split; [done|]. simpl.
      eapply frepr_same; [|exact Hg]. intros y Hy. rewrite Hf1 by (intros ?; by apply (Hkg y)). apply lookup_alter_ne. intros ->. tauto.
    - eapply frame_trans; [apply (frame_alter ibody (set_i_peer q) x); [left|done|apply frame_refl]|]. eapply frame_mono; [|exact Hf]. set_solver. }
  assert (valid (f_nodes s) x) as Hvx by (split; eauto). unfold inode_insert. destruct k as [|y ny f k|y ny f k]; cbn [cleft cabove].
  - rewrite !decide_False by tauto. apply wp_bind, wp_store; [done|]. simpl in Hk. rewrite Hk. exact Hend.
  - pose proof Hk as (Hy & _ & m & Em & _ & _ & Hq). rewrite decide_True by done. apply wp_bind. eapply wp_deref; [done|exact Em|]. rewrite Hq.
    apply wp_bind, wp_store; [done|]. apply wp_bind, wp_store; [apply valid_alter; split; eauto|]. exact Hend.
  - pose proof Hk as (Hy & _ & m & Em & _ & Hq & _). rewrite decide_False, decide_True by (done || tauto). apply wp_bind. eapply wp_deref; [done|exact Em|]. rewrite Hq.
    apply wp_bind, wp_store; [done|]. apply wp_bind, wp_store; [apply valid_alter; split; eauto|]. exact Hend.
Qed.

(** ** What changes of the links keep *)

Lemma ibody_fields n n' : ibody n' = ibody n -> i_crefs n' = i_crefs n /\ i_flags n' = i_flags n /\ i_name n' = i_name n.
Proof. intros E. by inversion E. Qed.

Lemma deleted_body n n' : ibody n' = ibody n -> deleted n' = deleted n.
Proof. intros (_ & E & _)%ibody_fields. unfold deleted. by rewrite E. Qed.

Lemma gone_frame m m' S f x : frame ibody S m m' -> (forall y, y ∈ faddrs f -> y ∉ S) -> frepr m x f -> frepr m' x f.
Proof. intros [H _] Hd. apply frepr_same. intros y Hy. apply H. by apply Hd. Qed.

Lemma elem_of_gone f gone x : f ∈ gone -> x ∈ faddrs f -> x ∈ gone ≫= faddrs.
Proof. intros Hf Hx. apply list_elem_of_bind. by exists f. Qed.

Lemma body_is_Some (o o' : option inode) : ibody <$> o' = ibody <$> o -> is_Some o' <-> is_Some o.
Proof. intros E. rewrite <-(fmap_is_Some ibody o'), E, fmap_is_Some. done. Qed.

(** The data do not depend on the links. *)
Lemma fs_data_frame s s' gone : (forall x, ibody <$> f_nodes s' !! x = ibody <$> f_nodes s !! x) -> fs_data s gone -> fs_data s' gone.
Proof.
  intros Hf [G I J]. assert (forall x n', f_nodes s' !! x = Some n' -> exists n, f_nodes s !! x = Some n /\ ibody n' = ibody n) as Hi.
  { intros x n' En'. specialize (Hf x). rewrite En' in Hf. destruct (f_nodes s !! x) as [n|]; [|done]. exists n. split; [done|]. by apply (inj Some) in Hf. }
  split; intros x n' (n & En & Eb)%Hi; rewrite ?(deleted_body _ _ Eb); pose proof (ibody_fields _ _ Eb) as (Ec & Ef & _); rewrite ?Ec, ?Ef; [by eapply G|by apply I|by eapply J].
Qed.

(** ** A new inode *)

Lemma namelen_ok (a : list Z) : inode_namelen a = Z.of_nat (length (inode_namecpy a)).
Proof. induction a as [|c a IH]; simpl; [done|]. case_match; simpl; lia. Qed.

(** The state with a new inode that is not linked yet. *)
Lemma alloc_links s t gone pid nm :
  fs_ok s t gone -> 0 <= pid -> Z.of_nat (length (inode_namecpy nm)) < 2 ^ 31 ->
  wp (inode_alloc pid nm s) (fun '(x, s') => root_inode s' = root_inode s /\ tree_sem s' = tree_sem s
    /\ if decide (x = NULL) then fs_ok s' t gone /\ f_nodes s' = f_nodes s
       else x ∉ live t gone /\ homes (f_heap s') (x :: live t gone) /\ f_nodes s' = <[x := Inode NULL NULL 0 0 0 0 (inode_namecpy nm)]> (f_nodes s)).
Proof.
  intros Hok Hp Hl. pose proof Hok as [[A B C D E F] [G I J]]. unfold inode_alloc. rewrite namelen_ok. apply wp_bind.
  eapply wp_mono; [apply (homes_fresh _ _ pid (FSNODE_SIZE (Z.of_nat (length (inode_namecpy nm)))) F Hp); unfold FSNODE_SIZE, SIZEOF_INODE; lia|].
  intros [x h'] [[-> Hh]|(Hx & Hxl & Hh)]; cbv zeta.
  - rewrite decide_True by done. apply wp_ret. split; [done|]. split; [done|]. rewrite decide_True by done. split; [|done]. by do 2 split.
  - rewrite decide_False by done. apply wp_ret. split; [done|]. split; [done|]. rewrite decide_False by done. done.
Qed.

(** The data of the other inodes stay and the new one has no references. *)
Lemma new_data s s' gone x nm :
  (forall f, f ∈ gone -> x ∉ faddrs f) -> ibody <$> f_nodes s' !! x = Some (Inode NULL NULL 0 0 0 0 nm) ->
  (forall y, y <> x -> ibody <$> f_nodes s' !! y = ibody <$> f_nodes s !! y) -> fs_data s gone -> fs_data s' gone.
Proof.
  intros Hxg Hbx Hbody [G I J].
  assert (forall y n', f_nodes s' !! y = Some n' -> (y = x /\ ibody n' = Inode NULL NULL 0 0 0 0 nm) \/ exists n, f_nodes s !! y = Some n /\ ibody n' = ibody n) as Hcase.
  { intros y n' Ey. destruct (decide (y = x)) as [->|Hne]; [left; rewrite Ey in Hbx; by apply (inj Some) in Hbx|right].
    specialize (Hbody y Hne). rewrite Ey in Hbody. destruct (f_nodes s !! y) as [n|]; [|done]. exists n. split; [done|]. by apply (inj Some) in Hbody. }
  split; intros y n' [[-> Eb]|(n & En' & Eb)]%Hcase; rewrite ?(deleted_body _ _ Eb).
  - destruct n' as [? ? ? ? ? ? ?]. unfold ibody in Eb. by simplify_eq/=.
  - apply ibody_fields in Eb as (-> & -> & _). by eapply G.
  - assert (deleted n' = false) as -> by (destruct n' as [? ? ? ? ? ? ?]; unfold ibody in Eb; by simplify_eq/=). split; [done|].
    intros (ny & c & Hin). exfalso. apply (Hxg _ Hin). left.
  - by apply I.
  - assert (deleted n' = false) as -> by (destruct n' as [? ? ? ? ? ? ?]; unfold ibody in Eb; by simplify_eq/=). done.
  - apply ibody_fields in Eb as (-> & _). by eapply J.
Qed.

(** The forest with the new inode in front of [g]. *)
Lemma new_shape s s1 s2 k g gone x nm :
  fs_shape s (plug k g) gone -> fits k nm g -> x ∉ live (plug k g) gone -> f_nodes s1 = <[x := Inode NULL NULL 0 0 0 0 nm]> (f_nodes s) ->
  homes (f_heap s2) (x :: live (plug k g) gone) -> frepr (f_nodes s2) (root_inode s2) (plug k (FNode x nm FNil g)) ->
  frame ibody (x :: caddrs k) (f_nodes s1) (f_nodes s2) -> fs_shape s2 (plug k (FNode x nm FNil g)) gone.
Proof.
  intros [A B C D E F] [Hlo Hhi] Hxl En Hh Hr2 Hf. pose proof D as (Dt & Dd & Dg)%NoDup_app.
  assert (live (plug k (FNode x nm FNil g)) gone ≡ₚ x :: live (plug k g) gone) as Hlv.
  { unfold live. rewrite !plug_addrs. simpl. rewrite <-Permutation_middle. done. }
  split.
  - done.
  - apply plug_sorted. apply plug_sorted in B as [B1 B2]. split; [done|]. simpl. split; [done|]. split; [done|].
    destruct g as [|y ny cy ry]; [done|]. destruct B2 as (_ & B2 & B3). by repeat split.
  - intros f Hfg. destruct (C f Hfg) as (y & ny & c & -> & Hr). exists y, ny, c. split; [done|].
    assert (forall z, z ∈ faddrs (FNode y ny c FNil) -> z ∈ live (plug k g) gone) as Hz by (intros z Hz; unfold live; rewrite elem_of_app; right; by eapply elem_of_gone).
    eapply gone_frame; [exact Hf| |].
    + intros z Hz' [->|Hzk]%elem_of_cons; [by apply Hxl, Hz|]. apply (Dd z); [rewrite plug_addrs; set_solver|by eapply elem_of_gone].
    + eapply frepr_same; [|exact Hr]. intros z Hz'. rewrite En. apply lookup_insert_ne. intros <-. by apply Hxl, Hz.
  - rewrite Hlv. by constructor.
  - intros y. rewrite Hlv, elem_of_cons, <-(E y), (body_is_Some (f_nodes s1 !! y)) by (apply Hf). rewrite En, lookup_insert_is_Some.
    destruct (decide (x = y)); naive_solver.
  - eapply homes_perm; [symmetry; exact Hlv|done].
Qed.

Lemma new_inode s t k g gone pid nm :
  fs_ok s t gone -> t = plug k g -> 0 <= pid -> Z.of_nat (length (inode_namecpy nm)) < 2 ^ 31 -> fits k (inode_namecpy nm) g ->
  wp ('(x, s) ← inode_alloc pid nm s; if decide (x = NULL) then Ok (NULL, s) else s ← inode_insert x (cleft k) (cabove k) s; Ok (x, s)) (fun '(x, s') =>
    tree_sem s' = tree_sem s
    /\ if decide (x = NULL) then fs_ok s' t gone /\ f_nodes s' = f_nodes s
       else x ∉ live t gone /\ fs_ok s' (plug k (FNode x (inode_namecpy nm) FNil g)) gone
            /\ ibody <$> f_nodes s' !! x = Some (Inode NULL NULL 0 0 0 0 (inode_namecpy nm))
            /\ forall y, y <> x -> ibody <$> f_nodes s' !! y = ibody <$> f_nodes s !! y).
Proof.
  intros Hok -> Hp Hl Hfit. apply wp_bind. eapply wp_mono; [by apply (alloc_links s (plug k g) gone pid nm)|].
  intros [x s1] (Er & Et & H). destruct (decide (x = NULL)) as [->|Hx].
  { apply wp_ret. split; [done|]. by rewrite decide_True. }
  destruct H as (Hxl & Hh & En). pose proof Hok as [HS HD]. pose proof HS as [A B C D E F]. pose proof A as (q & Hk & Hg)%plug_repr.
  assert (forall y, y ∈ caddrs k ++ faddrs g -> y <> x) as Hsub by (intros y Hy ->; apply Hxl; unfold live; rewrite plug_addrs; set_solver).
  assert (forall y, y <> x -> f_nodes s1 !! y = f_nodes s !! y) as Hs1 by (intros y Hy; rewrite En; by apply lookup_insert_ne).
  pose proof D as (Dt & Dd & Dg)%NoDup_app. rewrite plug_addrs in Dt. set (nm' := inode_namecpy nm) in *.
  apply wp_bind. eapply wp_mono; [apply (insert_links k g q s1 x nm' (Inode NULL NULL 0 0 0 0 nm'))|].
  { rewrite Er. eapply crepr_same; [|exact Hk]. intros y Hy. apply Hs1, Hsub. set_solver. }
  { eapply frepr_same; [|exact Hg]. intros y Hy. apply Hs1, Hsub. set_solver. }
  { constructor; [|done]. intros Hin. by apply (Hsub x). } { done. } { by rewrite En, lookup_insert_eq. } { done. } { done. }
  intros s2 (Hr2 & Hf & Et2 & Eh2). apply wp_ret. split; [congruence|]. rewrite decide_False by done. split; [done|].
  assert (forall y, y <> x -> ibody <$> f_nodes s2 !! y = ibody <$> f_nodes s !! y) as Hbody by (intros y Hy; rewrite (proj2 Hf); by rewrite Hs1).
  assert (ibody <$> f_nodes s2 !! x = Some (Inode NULL NULL 0 0 0 0 nm')) as Hbx by (rewrite (proj2 Hf); by rewrite En, lookup_insert_eq).
  split; [|done]. split.
  - eapply (new_shape s s1); try done. by rewrite Eh2.
  - eapply new_data; try done. intros f Hf' Hin. apply Hxl. unfold live. rewrite elem_of_app. right. by eapply elem_of_gone.
Qed.

(** ** inode_reserve *)

(** The inodes of the names that are new, each below the one before. *)
Fixpoint chain (l : list (Z * name)) (g : forest) : forest :=
  match l with
  | [] => g
  | (x, nm) :: l => FNode x nm (chain l FNil) g
  end.

Definition fresh_inode (nm : name) : inode := Inode NULL NULL 0 0 0 0 nm.

(** What [inode_reserve] does to the inodes: [xs] are new, the others stay. *)
Definition added (m m' : gmap Z inode) (xs : list (Z * name)) : Prop :=
  (forall y nm, (y, nm) ∈ xs -> m !! y = None /\ ibody <$> m' !! y = Some (fresh_inode nm))
  /\ forall y, y ∉ xs.*1 -> ibody <$> m' !! y = ibody <$> m !! y.

Lemma namecpy_length (a : list Z) : (length (inode_namecpy a) <= length a)%nat.
Proof. induction a as [|c a IH]; simpl; [done|]. case_match; simpl; lia. Qed.

Lemma live_none s t gone x : fs_ok s t gone -> x ∉ live t gone -> f_nodes s !! x = None.
Proof. intros Hok Hx. destruct (f_nodes s !! x) eqn:E; [|done]. destruct Hx. apply (fo_dom _ _ _ (proj1 Hok)). eauto. Qed.

Lemma reserve_loop_ok fuel s k g gone pid (nm : list Z) :
  fs_ok s (plug k g) gone -> 0 <= pid -> Z.of_nat (length nm) < 2 ^ 31 -> fits k (inode_namecpy nm) g -> (length nm < fuel)%nat ->
  wp (reserve_loop fuel pid nm (cleft k) (cabove k) s) (fun '(x, s') => tree_sem s' = tree_sem s /\ exists xs,
    fs_ok s' (plug k (chain xs g)) gone /\ added (f_nodes s) (f_nodes s') xs
    /\ if decide (x = NULL) then exists l, names nm = xs.*2 ++ l /\ l <> [] else names nm = xs.*2 /\ last xs.*1 = Some x).
Proof.
  revert s k g nm. induction fuel as [|fuel IH]; intros s k g nm Hok Hp Hl Hfit Hf; [lia|]. cbn [reserve_loop]. cbv zeta.
  pose proof (new_inode s _ k g gone pid nm Hok eq_refl Hp) as Hnew. pose proof (namecpy_length nm). specialize (Hnew ltac:(lia) Hfit).
  destruct (inode_alloc pid nm s) as [[x s1]|]; [|exact Hnew]. cbn [mbind res_bind] in *. rewrite names_unfold.
  destruct (decide (x = NULL)) as [->|Hx].
  { apply wp_ret. destruct Hnew as (Et & H'). rewrite decide_True in H' by done. destruct H' as [Hok1 Em]. split; [done|]. exists []. split; [done|]. rewrite decide_True by done.
    split; [split; [set_solver|by rewrite Em]|]. eexists. split; [reflexivity|done]. }
  destruct (inode_insert x (cleft k) (cabove k) s1) as [s2|]; [|exact Hnew]. cbn [mbind res_bind wp] in *. destruct Hnew as (Et & H'). rewrite decide_False in H' by done.
  destruct H' as (Hxl & Hok2 & Hbx & Hbody). pose proof (live_none _ _ _ _ Hok Hxl) as Hxn.
  destruct (inode_nextname nm) as [|c r] eqn:En.
  { rewrite bool_decide_true by done. split; [done|]. exists [(x, inode_namecpy nm)]. split; [done|]. rewrite decide_False by done.
    split; [|done]. split; [intros y n' Hy; set_unfold in Hy; destruct Hy as [[= -> ->]|[]]; done|]. intros y Hy. apply Hbody. set_solver. }
  rewrite bool_decide_false by done. pose proof (nextname_length nm) as Hnl. rewrite En in Hnl. specialize (Hnl ltac:(done)).
  eapply wp_mono; [apply (IH s2 (CChild x (inode_namecpy nm) g k) FNil (c :: r)); [done|done|lia|by split|lia]|].
  intros [z s'] (Et' & xs & Hok' & [Ha1 Ha2] & Hres). split; [congruence|]. exists ((x, inode_namecpy nm) :: xs). split; [done|].
  assert (forall y, y ∈ xs.*1 -> f_nodes s2 !! y = None) as Hxs by (intros y ([? ?] & -> & Hin)%list_elem_of_fmap; by eapply Ha1).
  assert (x ∉ xs.*1) as Hxx by (intros Hin%Hxs; by rewrite Hin in Hbx). split; [split|].
  - intros y n' [[= -> ->]|Hy]%elem_of_cons; [split; [done|]; by rewrite Ha2|]. destruct (Ha1 y n' Hy) as [H1 H2]. split; [|done].
    assert (y ≠ x) as Hne by (intros ->; apply Hxx; apply list_elem_of_fmap; by exists (x, n')). specialize (Hbody y Hne). rewrite H1 in Hbody. by destruct (f_nodes s !! y).
  - intros y Hy. cbn [fst fmap list_fmap] in Hy. apply not_elem_of_cons in Hy as [H1 H2]. rewrite Ha2 by done. by apply Hbody.
  - change (more (c :: r)) with (names (c :: r)). case_decide.
    + destruct Hres as (l & -> & Hne). by exists l.
    + destruct Hres as [-> Hlast]. split; [done|]. cbn. by destruct xs as [|[? ?] ?].
Qed.

(** ** Unlinking and freeing *)

Lemma unlink_links k x nm c r s :
  frepr (f_nodes s) (root_inode s) (plug k (FNode x nm c r)) -> NoDup (faddrs (plug k (FNode x nm c r))) ->
  wp (inode_unlink x (cleft k) (cabove k) s) (fun s' =>
    frepr (f_nodes s') (root_inode s') (plug k r) /\ frepr (f_nodes s') x (FNode x nm c FNil)
    /\ frame ibody (x :: caddrs k) (f_nodes s) (f_nodes s') /\ tree_sem s' = tree_sem s /\ f_heap s' = f_heap s).
Proof.
  intros (q & Hk & -> & Hx & n & En & Hn & Hc & Hr)%plug_repr Hnd. rewrite plug_addrs in Hnd. apply NoDup_app in Hnd as (Hnk & Hkd & Hnd). simpl in Hkd, Hnd.
  apply NoDup_cons in Hnd as [Hxcr Hnd]. apply NoDup_app in Hnd as (Hnc & Hcr & Hnr). rewrite elem_of_app in Hxcr.
  assert (x ∉ caddrs k) as Hxk by (intros Hin; apply (Hkd x Hin); left).
  set (s1 := fill k (i_peer n) s). pose proof (fill_frame k (i_peer n) s) as [Hf1 Hf2]. fold s1 in Hf1, Hf2.
  assert (f_nodes s1 !! x = Some n) as En1 by (by rewrite Hf1).
  assert (wp (m ← store (set_i_peer NULL) x (f_nodes s1); Ok (with_nodes m s1)) (fun s' =>
    frepr (f_nodes s') (root_inode s') (plug k r) /\ frepr (f_nodes s') x (FNode x nm c FNil)
    /\ frame ibody (x :: caddrs k) (f_nodes s) (f_nodes s') /\ tree_sem s' = tree_sem s /\ f_heap s' = f_heap s)) as Hend.
  { apply wp_bind, wp_store; [split; eauto|]. apply wp_ret. set (m' := alter (set_i_peer NULL) x (f_nodes s1)).
    assert (forall y, y <> x -> y ∉ caddrs k -> m' !! y = f_nodes s !! y) as Hsame by (intros y H1 H2; unfold m'; rewrite lookup_alter_ne by done; by apply Hf1).
    split; [|split; [|split; [|exact (fill_rest k (i_peer n) s)]]].
    - apply plug_repr. exists (i_peer n). split.
      + eapply (crepr_same (f_nodes s1)); [|by eapply fill_crepr]. intros y Hy. apply lookup_alter_ne. by intros ->.
      + eapply frepr_same; [|exact Hr]. intros y Hy. apply Hsame; [intros ->; tauto|]. intros Hin. apply (Hkd y Hin). right. rewrite elem_of_app. by right.
    - simpl. split; [done|]. split; [done|]. exists (set_i_peer NULL n). split; [unfold m'; by rewrite lookup_alter_eq, En1|]. split; [done|]. split; [|done]. simpl.
      eapply frepr_same; [|exact Hc]. intros y Hy. apply Hsame; [intros ->; tauto|]. intros Hin. apply (Hkd y Hin). right. rewrite elem_of_app. by left.
    - eapply frame_trans; [eapply frame_mono; [|exact (fill_frame k (i_peer n) s)]; set_solver|]. apply frame_alter; [left|done|apply frame_refl]. }
  unfold inode_unlink. apply wp_bind. eapply wp_deref; [done|exact En|]. unfold s1 in Hend. clear -Hend Hk Hx En. destruct k as [|y ny f k|y ny f k]; cbn [cleft cabove fill] in *.
  - rewrite !decide_False by tauto. exact Hend.
  - pose proof Hk as (Hy & _ & m & Em & _). rewrite decide_True by done. apply wp_bind, wp_bind, wp_store; [split; eauto|]. exact Hend.
  - pose proof Hk as (Hy & _ & m & Em & _). rewrite decide_False, decide_True by (done || tauto). apply wp_bind, wp_bind, wp_store; [split; eauto|]. exact Hend.
Qed.

(** What remains when the inodes [l] are freed. *)
Definition freed (l : list Z) s s' : Prop :=
  (forall y, f_nodes s' !! y = if decide (y ∈ l) then None else f_nodes s !! y) /\ root_inode s' = root_inode s /\ tree_sem s' = tree_sem s.

Lemma freed_trans l1 l2 s1 s2 s3 : freed l1 s1 s2 -> freed l2 s2 s3 -> freed (l1 ++ l2) s1 s3.
Proof.
  intros (A & B & C) (A' & B' & C'). split; [|by rewrite B', C']. intros y. rewrite A', A. destruct (decide (y ∈ l1 ++ l2)) as [H|H]; rewrite elem_of_app in H; repeat case_decide; tauto.
Qed.

Lemma free_one s x l pid :
  homes (f_heap s) (x :: l) -> 0 <= pid ->
  wp (h ← kfree pid x (f_heap s); Ok (with_fheap h (with_nodes (delete x (f_nodes s)) s))) (fun s' => freed [x] s s' /\ homes (f_heap s') l).
Proof.
  intros Hh Hp. apply wp_bind. eapply wp_mono; [by apply (homes_free _ x l pid)|]. intros h' Hh'. apply wp_ret. split; [|done]. split; [|done].
  intros y. simpl. rewrite lookup_delete. repeat case_decide; set_solver.
Qed.

Lemma inode_free_ok fuel pid p f l s :
  frepr (f_nodes s) p f -> NoDup (faddrs f) -> homes (f_heap s) (faddrs f ++ l) -> 0 <= pid -> (length (faddrs f) < fuel)%nat ->
  wp (inode_free fuel pid p s) (fun s' => freed (faddrs f) s s' /\ homes (f_heap s') l).
Proof.
  revert p f l s. induction fuel as [|fuel IH]; intros p f l s Hf Hnd Hh Hp Hfu; [lia|]. cbn [inode_free].
  destruct f as [|x nm c r]; simpl in Hf. { subst p. rewrite decide_True by done. apply wp_ret. split; [|done]. split; [|done]. intros y. case_decide; set_solver. }
  destruct Hf as (-> & Hx & n & En & Hn & Hc & Hr). simpl in Hnd, Hh, Hfu. rewrite length_app in Hfu. apply NoDup_cons in Hnd as [Hxn Hnd].
  apply NoDup_app in Hnd as (Hnc & Hcr & Hnr). rewrite elem_of_app in Hxn.
  rewrite decide_False by done. apply wp_bind. eapply wp_deref; [done|exact En|].
  apply wp_bind. eapply wp_mono; [apply (IH (i_peer n) r (x :: faddrs c ++ l) s Hr Hnr); [|done|lia]|].
  { eapply homes_perm; [|exact Hh]. rewrite <-Permutation_middle, (Permutation_app_comm (faddrs c) (faddrs r)), <-app_assoc. done. }
  intros s1 [Hf1 Hh1]. pose proof Hf1 as (Em1 & _). assert (f_nodes s1 !! x = Some n) as En1 by (rewrite Em1, decide_False; tauto).
  apply wp_bind. eapply wp_deref; [done|exact En1|].
  apply wp_bind. eapply wp_mono; [apply (IH (i_child n) c (x :: l) s1); [|done| |done|lia]|].
  { eapply frepr_same; [|exact Hc]. intros y Hy. rewrite Em1, decide_False; [done|]. by apply Hcr. }
  { eapply homes_perm; [|exact Hh1]. by rewrite Permutation_middle. }
  intros s2 [Hf2 Hh2]. eapply wp_mono; [by apply (free_one s2 x l pid)|]. intros s3 [Hf3 Hh3]. split; [|done].
  pose proof (freed_trans _ _ _ _ _ (freed_trans _ _ _ _ _ Hf1 Hf2) Hf3) as (E1 & E2 & E3). split; [|done]. intros y. rewrite E1. simpl.
  destruct (decide (y ∈ (faddrs r ++ faddrs c) ++ [x])) as [H|H], (decide (y ∈ x :: faddrs c ++ faddrs r)) as [H'|H']; try done; exfalso; set_solver.
Qed.

(** The inode [x] has left the tree, with all that is below it. *)
Lemma unlink_shape k x nm c r s s' gone :
  fs_shape s (plug k (FNode x nm c r)) gone -> frepr (f_nodes s') (root_inode s') (plug k r) -> frepr (f_nodes s') x (FNode x nm c FNil) ->
  frame ibody (x :: caddrs k) (f_nodes s) (f_nodes s') -> f_heap s' = f_heap s -> fs_shape s' (plug k r) (FNode x nm c FNil :: gone).
Proof.
  intros [A B C D E F] Hr Hx Hf Eh. pose proof D as (Dt & Dd & Dg)%NoDup_app.
  assert (live (plug k r) (FNode x nm c FNil :: gone) ≡ₚ live (plug k (FNode x nm c r)) gone) as Hlv.
  { unfold live. rewrite !plug_addrs. simpl. rewrite app_nil_r, <-!(app_assoc (caddrs k)). f_equiv. rewrite <-Permutation_middle. constructor.
    by rewrite app_assoc, (Permutation_app_comm (faddrs r)). }
  split; [done| | |by rewrite Hlv|intros y; by rewrite Hlv, <-E, (body_is_Some (f_nodes s !! y)) by apply Hf|rewrite Eh; eapply homes_perm; [symmetry; exact Hlv|done]].
  - apply plug_sorted. apply plug_sorted in B as [B1 B2]. split; [done|]. destruct B2 as (H1 & _ & H2). by eapply fsorted_weaken.
  - intros f [->|Hfg]%elem_of_cons; [by exists x, nm, c|]. destruct (C f Hfg) as (y & ny & c' & -> & Hr'). exists y, ny, c'. split; [done|].
    eapply gone_frame; [exact Hf| |done]. intros z Hz Hin. apply (Dd z); [|by eapply elem_of_gone]. rewrite plug_addrs. simpl. set_solver.
Qed.

(** The data of an inode are written. *)
Lemma shape_write f x s t gone :
  fs_shape s t gone -> (forall n, i_name (f n) = i_name n /\ i_child (f n) = i_child n /\ i_peer (f n) = i_peer n) ->
  fs_shape (with_nodes (alter f x (f_nodes s)) s) t gone.
Proof.
  intros [A B C D E F] Hk. assert (forall p g, frepr (f_nodes s) p g -> frepr (alter f x (f_nodes s)) p g) as Hr.
  { intros p g Hg. eapply frepr_ext; [|exact Hg]. intros y Hy. destruct (frepr_lookup _ _ _ _ Hg Hy) as [_ [n En]]. exists n, (if decide (x = y) then f n else n).
    split; [done|]. rewrite lookup_alter. case_decide; [subst; by rewrite En; split; [|apply Hk]|done]. }
  split; [by apply Hr|done| |done| |done].
  - intros g Hg. destruct (C g Hg) as (y & ny & c & -> & H). exists y, ny, c. split; [done|]. by apply Hr.
  - intros y. rewrite <-E. simpl. rewrite lookup_alter. case_decide; [subst; by rewrite fmap_is_Some|done].
Qed.

Lemma free_node_ok s t x nm c gone pid :
  fs_shape s t (FNode x nm c FNil :: gone) -> 0 <= pid ->
  wp (free_node pid x s) (fun s' => fs_shape s' t gone /\ freed (x :: faddrs c) s s').
Proof.
  intros [A B C D E F] Hp. destruct (C (FNode x nm c FNil)) as (x0 & n0 & c0 & [= <- <- <-] & Hg); [left|]. destruct Hg as (_ & Hx & n & En & _ & Hc & _).
  unfold live in D, F. cbn [mbind list_bind] in D, F. simpl in D, F. rewrite app_nil_r in D, F.
  pose proof D as (Dt & Dd & Dg)%NoDup_app. simpl in Dd, Dg. apply NoDup_cons in Dg as [Dx Dg]. apply NoDup_app in Dg as (Dc & Dcg & Dg). rewrite elem_of_app in Dx.
  unfold free_node. apply wp_bind. eapply wp_deref; [done|exact En|]. apply wp_bind.
  eapply wp_mono; [apply (inode_free_ok _ pid (i_child n) c (x :: live t gone) s Hc Dc); [|done|]|].
  { eapply homes_perm; [|exact F]. unfold live. rewrite <-!Permutation_middle. constructor. rewrite app_assoc, (Permutation_app_comm (faddrs t)). by rewrite app_assoc. }
  { unfold list_fuel. assert (length (faddrs c) <= size (f_nodes s))%nat; [|lia].
    rewrite <-(size_dom (D := gset Z)), <-(size_list_to_set (C := gset Z)) by done. apply subseteq_size. intros y. rewrite elem_of_list_to_set, elem_of_dom.
    intros Hy. by apply (frepr_lookup _ _ _ _ Hc). }
  intros s1 [Hf1 Hh1]. eapply wp_mono; [by apply (free_one s1 x (live t gone) pid)|]. intros s2 [Hf2 Hh2].
  destruct (freed_trans _ _ _ _ _ Hf1 Hf2) as (E1 & E2 & E3).
  assert (forall y, f_nodes s2 !! y = if decide (y ∈ x :: faddrs c) then None else f_nodes s !! y) as Em.
  { intros y. rewrite E1. destruct (decide (y ∈ faddrs c ++ [x])), (decide (y ∈ x :: faddrs c)); try done; exfalso; set_solver. }
  split; [|by split].
  assert (forall y, y ∈ live t gone -> y ∉ x :: faddrs c) as Hout.
  { intros y [Hy|Hy]%elem_of_app Hin; [apply (Dd y Hy); rewrite app_comm_cons, elem_of_app; by left|].
    apply elem_of_cons in Hin as [->|Hin]; [tauto|by apply (Dcg y Hin)]. }
  split.
  - rewrite E2. eapply frepr_same; [|exact A]. intros y Hy. rewrite Em, decide_False; [done|]. apply Hout. unfold live. rewrite elem_of_app. by left.
  - done.
  - intros f Hfg. destruct (C f ltac:(by right)) as (y & ny & cy & -> & Hr). exists y, ny, cy. split; [done|]. eapply frepr_same; [|exact Hr].
    intros z Hz. rewrite Em, decide_False; [done|]. apply Hout. unfold live. rewrite elem_of_app. right. by eapply elem_of_gone.
  - unfold live. apply NoDup_app. split; [done|]. split; [|done]. intros y Hy Hy'. apply (Dd y Hy). rewrite app_comm_cons, elem_of_app. by right.
  - intros y. rewrite Em. case_decide as Ey.
    + split; [by intros []|]. intros Hy%Hout. done.
    + rewrite E. unfold live. cbn [mbind list_bind]. simpl. rewrite app_nil_r, !elem_of_app, elem_of_cons, elem_of_app. rewrite elem_of_cons in Ey. tauto.
  - done.
Qed.

(** ** References and flags *)

Lemma deleted_bit n : deleted n = Z.testbit (i_flags n) 2.
Proof.
  unfold deleted, FSNODEFLAG_DELETED. change 4 with (2 ^ 2). destruct (Z.testbit (i_flags n) 2) eqn:E.
  - destruct (Z.eqb_spec (Z.land (i_flags n) (2 ^ 2)) 0) as [H|H]; [|done]. assert (Z.testbit (Z.land (i_flags n) (2 ^ 2)) 2 = false) as H1 by (by rewrite H, Z.bits_0).
    rewrite Z.land_spec, E, Z.pow2_bits_true in H1 by lia. done.
  - assert (Z.land (i_flags n) (2 ^ 2) = 0) as ->; [|done]. apply Z.bits_inj'. intros i Hi. rewrite Z.land_spec, Z.bits_0.
    destruct (decide (i = 2)) as [->|Hne]; [by rewrite E|]. rewrite (Z.pow2_bits_false 2 i) by lia. apply andb_false_r.
Qed.

Lemma u16_bits f : 0 <= u16 f < 2 ^ 16 /\ Z.testbit (u16 f) 2 = Z.testbit f 2.
Proof. split; [apply Z.mod_pos_bound; lia|]. unfold u16. by rewrite Z.mod_pow2_bits_low by lia. Qed.

Lemma lnot3_bit2 f : Z.testbit (Z.land f (Z.lnot FSNODEFLAG_TYPE_MASK)) 2 = Z.testbit f 2.
Proof. rewrite Z.land_spec, Z.lnot_spec by lia. apply andb_true_r. Qed.

Lemma not_mount n : Z.testbit (i_flags n) 1 = false -> INODE_IS_MOUNTPT n = false.
Proof.
  intros H. apply Z.eqb_neq. intros E. assert (Z.testbit (Z.land (i_flags n) FSNODEFLAG_TYPE_MOUNTPT) 1 = true) as H1 by by rewrite E.
  rewrite Z.land_spec, H in H1. done.
Qed.

Lemma u16_bit1 f : Z.testbit (u16 f) 1 = Z.testbit f 1.
Proof. unfold u16. by rewrite Z.mod_pow2_bits_low by lia. Qed.

Lemma lnot3_bit1 f : Z.testbit (Z.land f (Z.lnot FSNODEFLAG_TYPE_MASK)) 1 = false.
Proof. rewrite Z.land_spec, Z.lnot_spec by lia. apply andb_false_r. Qed.

(** Fewer inodes. *)
Lemma data_sub s s' gone : (forall y n, f_nodes s' !! y = Some n -> f_nodes s !! y = Some n) -> fs_data s gone -> fs_data s' gone.
Proof. intros H [G I J]. split; intros y n E%H; [by eapply G|by apply I|by eapply J]. Qed.

(** A change of the data of one inode that keeps whether it is deleted. *)
Lemma data_write f x s gone :
  fs_data s gone ->
  (forall n, f_nodes s !! x = Some n -> deleted (f n) = deleted n /\ 0 <= i_crefs (f n) <= SEM_VALUE_MAX /\ 0 <= i_flags (f n) < 2 ^ 16
     /\ (deleted n = true -> 0 < i_crefs (f n))) ->
  fs_data (with_nodes (alter f x (f_nodes s)) s) gone.
Proof.
  intros [G I J] Hf. assert (forall y n', alter f x (f_nodes s) !! y = Some n' -> exists n, f_nodes s !! y = Some n /\ ((y = x /\ n' = f n) \/ (y <> x /\ n' = n))) as Hi.
  { intros y n'. rewrite lookup_alter. case_decide as E; [subst y|intros ?; exists n'; split; [done|]; right; by split].
    destruct (f_nodes s !! x) as [n|]; [|done]. intros [= <-]. exists n. auto. }
  split; intros y n' (n & En & [[-> ->]|[Hne ->]])%Hi; try (by eapply G || by eapply I || by eapply J); destruct (Hf n En) as (H1 & H2 & H3 & H4); [done| |].
  - rewrite H1. by apply I.
  - rewrite H1. done.
Qed.

(** The removed inode [x] is marked. *)
Lemma data_mark s gone x nm c n :
  fs_data s gone -> f_nodes s !! x = Some n -> 0 < i_crefs n ->
  fs_data (with_nodes (alter (set_i_flags (u16 (Z.lor (i_flags n) FSNODEFLAG_DELETED))) x (f_nodes s)) s) (FNode x nm c FNil :: gone).
Proof.
  intros [G I J] En Hc. set (f := set_i_flags _). assert (deleted (f n) = true) as Hd.
  { rewrite deleted_bit. unfold f. cbn [i_flags set_i_flags]. rewrite (proj2 (u16_bits _)), Z.lor_spec. apply orb_true_r. }
  split; intros y n'; simpl; rewrite lookup_alter; case_decide as E.
  - subst y. rewrite En. intros [= <-]. split; [exact (proj1 (G x n En))|apply u16_bits].
  - by apply G.
  - subst y. rewrite En. intros [= <-]. split; [|done]. intros _. exists nm, c. left.
  - intros En'. rewrite (I y n' En'). setoid_rewrite elem_of_cons. split; [naive_solver|]. intros (? & ? & [[= -> _ _]|?]); [done|eauto].
  - subst y. rewrite En. by intros [= <-].
  - by apply J.
Qed.

(** The marked inode [x] is gone for good. *)
Lemma data_unmark s s' gone x nm c :
  fs_data s (FNode x nm c FNil :: gone) -> (forall y n, f_nodes s' !! y = Some n -> y <> x /\ f_nodes s !! y = Some n) -> fs_data s' gone.
Proof.
  intros [G I J] H. split; intros y n (Hne & E)%H; [by eapply G| |by eapply J]. rewrite (I y n E). setoid_rewrite elem_of_cons.
  split; [|naive_solver]. intros (? & ? & [[= -> _ _]|?]); [done|eauto].
Qed.

Lemma freed_sub l s s' : freed l s s' -> forall y n, f_nodes s' !! y = Some n -> y ∉ l /\ f_nodes s !! y = Some n.
Proof. intros (E & _) y n. rewrite E. case_decide; done. Qed.

End spec.
