(* ===== verification/InodeThm.v ===== *)
(** * The inode tree: theorems

    The search agrees with a lookup in the whole forest, registration adds the
    missing inodes of a path and nothing else, removal takes a subtree away, and
    the tree, the references and the heap stay consistent along any sequence of
    calls. *)

From S2P Require Import Prelude Queue Mm MmInv MmHeap MmInit MmBlocks MmSpec Sched Sem KHeap Inode InodeTree InodeSpec.

Section ops.
  Context {HT : Type} {HK : KHeap HT} {HKS : KHeapSpec HT}.
  Implicit Types (s : fs_sys HT).

(** ** The calls on the forest *)

Lemma forest_size s t gone : fs_ok s t gone -> (length (faddrs t) < list_fuel (f_nodes s))%nat.
Proof.
  intros [[A _ _ D _ _] _]. apply NoDup_app in D as (D & _). unfold list_fuel. assert (length (faddrs t) <= size (f_nodes s))%nat; [|lia].
  rewrite <-(size_dom (D := gset Z)), <-(size_list_to_set (C := gset Z)) by done. apply subseteq_size. intros y. rewrite elem_of_list_to_set, elem_of_dom.
  intros Hy. by apply (frepr_lookup _ _ _ _ A).
Qed.

Lemma search_ok s t gone path :
  fs_ok s t gone -> wp (inode_search path s) (fun r => search_post (f_nodes s) t (names (tail path)) r
    /\ flookup (mountpt (f_nodes s)) (names (tail path)) t = (let '(x, rest, _, _) := r in if decide (x = NULL) then None else Some (x, more rest))
    /\ (length r.1.1.2 <= length path)%nat).
Proof.
  intros Hok. pose proof (forest_size _ _ _ Hok) as Hf. destruct Hok as [[A B C D E F] _]. unfold inode_search.
  pose proof (search_loop_ok _ (f_nodes s) CTop t (tail path) (root_inode s) A I B I Hf) as Hs. cbn [cleft cabove] in Hs.
  destruct (search_loop _ _ _ _ _ _) as [r|] eqn:Er; [|done]. pose proof (search_length _ _ _ _ _ _ _ Er) as Hl.
  destruct Hs as [H1 H2]. split; [done|]. split; [done|]. destruct path; simpl in *; lia.
Qed.

(** [inode_reserve]: the inode, new with those on the way to it, or NULL. *)
Lemma reserve_ok s t gone pid path :
  fs_ok s t gone -> 0 <= pid -> Z.of_nat (length path) < 2 ^ 31 ->
  wp (inode_reserve pid path s) (fun '(x, s') => tree_sem s' = tree_sem s /\ exists k g xs,
    t = plug k g /\ fs_ok s' (plug k (chain xs g)) gone /\ added (f_nodes s) (f_nodes s') xs
    /\ if decide (x = NULL) then xs = [] \/ exists l, names (tail path) = cpath k ++ xs.*2 ++ l /\ l <> []
       else head path = Some SLASH /\ flookup (mountpt (f_nodes s)) (names (tail path)) t = None
            /\ names (tail path) = cpath k ++ xs.*2 /\ last xs.*1 = Some x).
Proof.
  intros Hok Hp Hl. unfold inode_reserve.
  assert (forall s', s' = s -> tree_sem s' = tree_sem s /\ exists k g xs, t = plug k g /\ fs_ok s' (plug k (chain xs g)) gone /\ added (f_nodes s) (f_nodes s') xs
    /\ (xs = [] \/ exists l, names (tail path) = cpath k ++ xs.*2 ++ l /\ l <> [])) as Hno.
  { intros s' ->. split; [done|]. exists CTop, t, []. split; [done|]. split; [done|]. split; [split; [set_solver|done]|by left]. }
  case_bool_decide as Hh; [apply wp_ret; by apply Hno|].  apply wp_bind. eapply wp_mono; [by apply (search_ok s t gone path)|].
  intros [[[node rest] lft] above] [(k & g & -> & -> & -> & Hs) [Hlk Hlr]]. destruct (decide (node = NULL)) as [->|Hn].
  2:{ rewrite decide_True by done. apply wp_ret. by apply Hno. }
  rewrite decide_False by tauto. destruct Hs as [Hpath Hfit].
  eapply wp_mono; [apply (reserve_loop_ok (S (length rest)) s k g gone pid rest); [done|done|simpl in Hlr; lia|done|lia]|].
  intros [x s'] (Et & xs & Hok' & Ha & Hres). split; [done|]. exists k, g, xs. split; [done|]. split; [done|]. split; [done|].
  destruct (decide (x = NULL)).
  - right. destruct Hres as (l & E & Hne). rewrite Hpath, E. by exists l.
  - destruct Hres as [E Hlast]. split; [done|]. split; [done|]. by rewrite Hpath, E.
Qed.

(** No inode is new, and they are as they were but that [x] may be marked. *)
Definition marked (n : inode) : inode := set_i_flags (u16 (Z.lor (i_flags n) FSNODEFLAG_DELETED)) n.
Definition kept (m m' : gmap Z inode) (x : Z) : Prop :=
  forall y n', m' !! y = Some n' -> exists n, m !! y = Some n /\ (ibody n' = ibody n \/ (y = x /\ ibody n' = ibody (marked n))).

Lemma marked_body n n' : ibody n' = ibody n -> ibody (marked n') = ibody (marked n).
Proof. destruct n, n'. unfold ibody. simpl. congruence. Qed.

Lemma kept_frame m m1 m2 S x :
  frame ibody S m m1 -> (forall y n, m2 !! y = Some n -> exists n', m1 !! y = Some n' /\ (n = n' \/ (y = x /\ n = marked n'))) -> kept m m2 x.
Proof.
  intros Hf H y n Ey. destruct (H y n Ey) as (n1 & E1 & H1). destruct (frame_lookup_inv _ _ _ _ _ _ Hf E1) as (n0 & E0 & Eb). exists n0. split; [done|].
  symmetry in Eb. destruct H1 as [->|[-> ->]]; [by left|right]. split; [done|]. by apply marked_body.
Qed.

Lemma kept_refs m m' x y n' : kept m m' x -> m' !! y = Some n' -> exists n, m !! y = Some n /\ i_crefs n' = i_crefs n.
Proof. intros H E. destruct (H y n' E) as (n & En & [Eb|[_ Eb]]); exists n; (split; [done|]); by apply ibody_fields in Eb as (-> & _). Qed.

(** [inode_remove]. *)
Lemma remove_ok s t gone pid path :
  fs_ok s t gone -> 0 <= pid -> head path = Some SLASH ->
  wp (inode_remove pid path s) (fun '(ret, s') => tree_sem s' = tree_sem s /\
    match flookup (mountpt (f_nodes s)) (names (tail path)) t with
    | None => ret = - ENOENT /\ s' = s
    | Some (x, rest) => exists k nm c r n, t = plug k (FNode x nm c r) /\ names (tail path) = (cpath k ++ [nm]) ++ rest /\ f_nodes s !! x = Some n
        /\ kept (f_nodes s) (f_nodes s') x
        /\ if i_crefs n =? 0 then ret = 0 /\ fs_ok s' (plug k r) gone else ret = - EBUSY /\ fs_ok s' (plug k r) (FNode x nm c FNil :: gone)
    end).
Proof.
  intros Hok Hp Hh. unfold inode_remove. rewrite bool_decide_false by tauto. apply wp_bind. eapply wp_mono; [by apply (search_ok s t gone path)|].
  intros [[[node rest] lft] above] [(k & g & -> & -> & -> & Hs) [-> _]]. destruct (decide (node = NULL)) as [->|Hn].
  { by apply wp_ret. }
  destruct Hs as (nm & c & r & -> & Hpath & _). pose proof Hok as [HS HD]. pose proof HS as [A B C D E F].
  apply wp_bind. eapply wp_mono; [apply (unlink_links k node nm c r s A); by apply NoDup_app in D as (D & _)|].
  intros s1 (H1 & H2 & Hf & Et & Eh). pose proof (unlink_shape _ _ _ _ _ _ _ _ HS H1 H2 Hf Eh) as HS1. pose proof (fs_data_frame s s1 gone (proj2 Hf) HD) as HD1.
  pose proof H2 as (_ & _ & n1 & En1 & _). destruct (frame_lookup_inv _ _ _ _ _ _ Hf En1) as (n & En & Eb). symmetry in Eb. apply ibody_fields in Eb as (Ec & _ & _).
  apply wp_bind. eapply wp_deref; [done|exact En1|]. rewrite Ec. destruct (Z.eqb_spec (i_crefs n) 0) as [E0|E0]; cbn [negb].
  - apply wp_bind. eapply wp_mono; [by apply (free_node_ok s1 (plug k r) node nm c gone pid)|]. intros s2 [HS2 Hfr]. apply wp_ret.
    split; [destruct Hfr as (_ & _ & ->); done|]. exists k, nm, c, r, n. split; [done|]. split; [done|]. split; [done|].
    pose proof (freed_sub _ _ _ Hfr) as Hsub. split; [eapply kept_frame; [exact Hf|]; intros y n' Ey; exists n'; split; [by apply Hsub|by left]|].
    rewrite E0. split; [done|]. split; [done|]. eapply data_sub; [|exact HD1]. intros y n' Ey. by apply Hsub.
  - apply wp_bind, wp_store; [split; eauto|]. apply wp_ret. split; [done|]. exists k, nm, c, r, n. split; [done|]. split; [done|]. split; [done|].
    split. { eapply kept_frame; [exact Hf|]. intros y n' Ey. simpl in Ey. rewrite lookup_alter in Ey. case_decide; [subst; rewrite En1 in Ey; simplify_eq/=; exists n1; split; [done|by right]|exists n'; split; [done|by left]]. }
    rewrite (proj2 (Z.eqb_neq _ _) E0). split; [done|]. split.
    + apply shape_write; [done|]. done.
    + apply data_mark; [done|done|]. rewrite Ec. pose proof (fo_refs _ _ HD _ _ En). lia.
Qed.

(** ** References *)

(** One more or one less reference to an inode. *)
Definition refs_by (d : Z) (x : Z) (m m' : gmap Z inode) : Prop :=
  forall y, m' !! y = (if decide (y = x) then (fun n => set_i_crefs (i_crefs n + d) n) <$> m !! y else m !! y).

Lemma write_refs s t gone x n c :
  fs_ok s t gone -> f_nodes s !! x = Some n -> 0 <= c <= SEM_VALUE_MAX -> (deleted n = true -> 0 < c) ->
  fs_ok (with_nodes (alter (set_i_crefs c) x (f_nodes s)) s) t gone.
Proof.
  intros [HS HD] En Hc Hd. split; [by apply shape_write|]. apply data_write; [done|]. intros n' En'. simplify_eq.
  split; [done|]. split; [done|]. split; [exact (proj2 (fo_refs _ _ HD _ _ En))|done].
Qed.

Lemma fs_ok_sem s t gone c : fs_ok s t gone <-> fs_ok (with_treesem c s) t gone.
Proof. split; intros [[A B C D E F] [G I J]]; by do 2 split. Qed.

Lemma refs_alter m x n d : m !! x = Some n -> refs_by d x m (alter (set_i_crefs (i_crefs n + d)) x m).
Proof. intros En y. rewrite lookup_alter. destruct (decide (x = y)) as [<-|Hne]; [by rewrite decide_True, En|by rewrite decide_False]. Qed.

Lemma add_ref_ok s t gone x n :
  fs_ok s t gone -> tree_sem s = 0 -> x <> NULL -> f_nodes s !! x = Some n -> i_crefs n < SEM_VALUE_MAX ->
  wp (n ← deref (f_nodes s) x; m ← store (set_i_crefs (s16 (i_crefs n + 1))) x (f_nodes s); Ok (inode_semgive (with_nodes m s)))
    (fun s' => fs_ok s' t gone /\ tree_sem s' = 1 /\ refs_by 1 x (f_nodes s) (f_nodes s')).
Proof.
  intros Hok Hs Hx En Hc. apply wp_bind. eapply wp_deref; [done|exact En|]. apply wp_bind, wp_store; [split; eauto|]. apply wp_ret.
  pose proof (fo_refs _ _ (proj2 Hok) _ _ En) as [Hr _]. rewrite s16_id by (unfold SEM_VALUE_MAX in *; lia).
  split; [|split; [simpl; lia|by apply refs_alter]]. apply fs_ok_sem. eapply write_refs; [done|done|lia|lia].
Qed.

Lemma take_sem s : tree_sem s = 1 -> inode_semtake s = Ok (with_treesem 0 s).
Proof. intros E. unfold inode_semtake. rewrite E. done. Qed.

Lemma tree_node s t gone x : fs_ok s t gone -> x ∈ faddrs t -> x <> NULL /\ exists n, f_nodes s !! x = Some n.
Proof. intros [[A _ _ _ _ _] _] Hx. destruct (frepr_lookup _ _ _ _ A Hx) as [H1 [n Hn]]. eauto. Qed.

Lemma find_ok s t gone path :
  fs_ok s t gone -> tree_sem s = 1 -> head path = Some SLASH ->
  (forall x rest n, flookup (mountpt (f_nodes s)) (names (tail path)) t = Some (x, rest) -> f_nodes s !! x = Some n -> i_crefs n < SEM_VALUE_MAX) ->
  wp (inode_find path s) (fun '(x, rest, s') => fs_ok s' t gone /\ tree_sem s' = 1 /\
    match flookup (mountpt (f_nodes s)) (names (tail path)) t with
    | None => x = NULL /\ f_nodes s' = f_nodes s
    | Some (y, l) => x = y /\ x <> NULL /\ more rest = l /\ refs_by 1 x (f_nodes s) (f_nodes s')
    end).
Proof.
  intros Hok Hs Hh Hc. unfold inode_find. rewrite bool_decide_false by tauto. rewrite take_sem by done. apply wp_bind, wp_ret.
  apply wp_bind. eapply wp_mono; [apply (search_ok (with_treesem 0 s) t gone path); by apply fs_ok_sem|].
  intros [[[x rest] lft] above] [(k & g & Et & -> & -> & Hp) [Hl _]]. cbn [f_nodes with_treesem] in Hp, Hl. destruct (decide (x = NULL)) as [->|Hx].
  - apply wp_ret. rewrite Hl. split; [by do 2 apply fs_ok_sem|]. split; [done|]. done.
  - destruct Hp as (nm & c & r & -> & _). destruct (tree_node s t gone x Hok) as [_ [n En]]; [rewrite Et, plug_addrs; simpl; set_solver|].
    pose proof (add_ref_ok (with_treesem 0 s) t gone x n ltac:(by apply fs_ok_sem) eq_refl Hx En (Hc _ _ _ Hl En)) as Hr.
    destruct (deref _ x) as [n'|]; [|exact Hr]. cbn [mbind res_bind] in *. destruct (store _ x _) as [m|]; [|exact Hr]. cbn [mbind res_bind wp] in *.
    destruct Hr as (H1 & H2 & H3). rewrite Hl. done.
Qed.

Lemma addref_ok s t gone x n :
  fs_ok s t gone -> tree_sem s = 1 -> x <> NULL -> f_nodes s !! x = Some n -> i_crefs n < SEM_VALUE_MAX ->
  wp (inode_addref x s) (fun s' => fs_ok s' t gone /\ tree_sem s' = 1 /\ refs_by 1 x (f_nodes s) (f_nodes s')).
Proof.
  intros Hok Hs Hx En Hc. unfold inode_addref. rewrite decide_False by done. rewrite take_sem by done. apply wp_bind, wp_ret.
  apply (add_ref_ok (with_treesem 0 s) t gone x n); try done. by apply fs_ok_sem.
Qed.

Lemma fs_ok_perm s t gone gone' : gone ≡ₚ gone' -> fs_ok s t gone -> fs_ok s t gone'.
Proof.
  intros Hp [[A B C D E F] [G I J]]. assert (live t gone' ≡ₚ live t gone) as Hl by (unfold live; by rewrite Hp).
  split; split; try done.
  - intros f. rewrite <-Hp. apply C.
  - by rewrite Hl.
  - intros x. rewrite Hl. apply E.
  - eapply homes_perm; [symmetry; exact Hl|done].
  - intros x n En. rewrite (I x n En). by setoid_rewrite Hp.
Qed.

(** The last reference to a removed inode ends. *)
Lemma last_ref_ok s t gone pid x nm c n :
  fs_ok s t gone -> FNode x nm c FNil ∈ gone -> f_nodes s !! x = Some n -> 0 <= pid ->
  wp (free_node pid x (with_nodes (alter (set_i_crefs 0) x (f_nodes s)) s)) (fun s' => tree_sem s' = tree_sem s
    /\ f_nodes s' ⊆ f_nodes s /\ exists gone', gone ≡ₚ FNode x nm c FNil :: gone' /\ fs_ok s' t gone').
Proof.
  intros Hok Hin En Hp. apply elem_of_Permutation in Hin as [gone' Hg]. pose proof (fs_ok_perm _ _ _ _ Hg Hok) as [HS HD].
  set (s1 := with_nodes _ s). assert (fs_shape s1 t (FNode x nm c FNil :: gone')) as HS1 by by apply shape_write.
  eapply wp_mono; [by apply (free_node_ok s1 t x nm c gone' pid)|]. intros s2 [HS2 Hfr]. split; [by destruct Hfr as (_ & _ & ->)|].
  assert (forall y n', f_nodes s2 !! y = Some n' -> y <> x /\ f_nodes s !! y = Some n') as Hsub.
  { intros y n' Ey. destruct (freed_sub _ _ _ Hfr y n' Ey) as [Hy Ey1]. apply not_elem_of_cons in Hy as [Hne _].
    split; [done|]. unfold s1 in Ey1. simpl in Ey1. by rewrite lookup_alter_ne in Ey1. }
  split; [apply map_subseteq_spec; intros y n' Ey; by apply Hsub|]. exists gone'. split; [done|]. split; [done|]. by eapply data_unmark.
Qed.

(** The references after [inode_release]. *)
Definition released s s' (t : forest) (gone : list forest) (x : Z) (n : inode) : Prop :=
  if i_crefs n =? 0 then fs_ok s' t gone /\ f_nodes s' = f_nodes s
  else if deleted n && (i_crefs n =? 1) then f_nodes s' ⊆ f_nodes s /\ exists nm c gone', gone ≡ₚ FNode x nm c FNil :: gone' /\ fs_ok s' t gone'
  else fs_ok s' t gone /\ refs_by (-1) x (f_nodes s) (f_nodes s').

Lemma release_ok s t gone pid x n :
  fs_ok s t gone -> tree_sem s = 1 -> x <> NULL -> f_nodes s !! x = Some n -> 0 <= pid ->
  wp (inode_release pid x s) (fun s' => tree_sem s' = 1 /\ released s s' t gone x n).
Proof.
  intros Hok Hs Hx En Hp. pose proof Hok as [HS HD]. pose proof (fo_refs _ _ HD _ _ En) as [Hc _]. pose proof (fo_held _ _ HD _ _ En) as Hh.
  unfold inode_release, released. rewrite decide_False by done. rewrite take_sem by done. apply wp_bind, wp_ret. apply wp_bind. eapply wp_deref; [done|exact En|].
  fold (deleted n) in *. destruct (Z.eqb_spec (i_crefs n) 0) as [E0|E0]; cbn [negb].
  - apply wp_bind, wp_ret. apply wp_bind. eapply wp_deref; [done|exact En|]. fold (deleted n). destruct (deleted n); [specialize (Hh eq_refl); lia|].
    rewrite andb_false_r. apply wp_ret. split; [done|]. split; [|done]. apply (fs_ok_sem _ _ _ 1) in Hok. by destruct s.
  - apply wp_bind, wp_store; [split; eauto|]. rewrite s16_id by (unfold SEM_VALUE_MAX in *; lia).
    apply wp_bind. eapply wp_deref; [done|simpl; by rewrite lookup_alter_eq, En|]. change (deleted (set_i_crefs (i_crefs n - 1) n)) with (deleted n). cbn [i_crefs i_flags set_i_crefs].
    fold (deleted n). destruct (Z.leb_spec (i_crefs n - 1) 0) as [H1|H1]; cbn [andb].
    + assert (i_crefs n = 1) as E1 by lia. rewrite E1. change (1 =? 1) with true. rewrite andb_true_r. destruct (deleted n) eqn:Ed.
      * destruct (proj1 (fo_deleted _ _ HD _ _ En) Ed) as (nm & c & Hin).
        eapply wp_mono; [apply (last_ref_ok (with_treesem 1 s) t gone pid x nm c n); [by apply fs_ok_sem|done|done|done]|].
        intros s' (Et & Hsub & gone' & Hg & Hok'). split; [done|]. split; [done|]. by exists nm, c, gone'.
      * apply wp_ret. split; [done|]. split; [apply fs_ok_sem|].
        -- eapply (write_refs (with_treesem 0 s)); [by apply fs_ok_sem|done|done|congruence].
        -- pose proof (refs_alter (f_nodes s) x n (-1) En) as Hr. by rewrite E1 in Hr.
    + apply wp_ret. rewrite (proj2 (Z.eqb_neq (i_crefs n) 1)) by lia. rewrite andb_false_r. split; [done|]. split; [apply fs_ok_sem|].
      * eapply (write_refs (with_treesem 0 s)); [by apply fs_ok_sem|done|lia|lia].
      * by apply refs_alter.
Qed.

(** ** Paths after a change *)

Fixpoint chain_entries (l : list (Z * name)) : list (list name * Z) :=
  match l with
  | [] => []
  | (x, nm) :: l => ([nm], x) :: (under [nm] <$> chain_entries l)
  end.

Lemma entries_chain l g : entries (chain l g) = chain_entries l ++ entries g.
Proof.
  revert g. induction l as [|[x nm] l IH]; intros g; [done|]. cbn [chain entries chain_entries]. rewrite IH. cbn [entries]. by rewrite app_nil_r.
Qed.

Lemma chain_elem l p y : (p, y) ∈ chain_entries l -> exists nm q, (y, nm) ∈ l /\ l.*2 = p ++ q /\ p <> [].
Proof.
  revert p. induction l as [|[x nm] l IH]; intros p; cbn [chain_entries]; [set_solver|]. rewrite elem_of_cons. intros [[= -> ->]|He].
  - exists nm, l.*2. split; [left|done].
  - apply list_elem_of_fmap in He as ([p' y'] & [= -> ->] & He). destruct (IH p' He) as (nm' & q & H1 & H2 & _). exists nm', q.
    split; [by right|]. split; [|done]. cbn. by rewrite <-H2.
Qed.

Lemma chain_last l x : last l.*1 = Some x -> (l.*2, x) ∈ chain_entries l.
Proof.
  induction l as [|[y nm] l IH]; [done|]. cbn [chain_entries]. destruct l as [|[z nz] l].
  - simpl. intros [= ->]. left.
  - intros H. right. apply list_elem_of_fmap. exists (((z, nz) :: l).*2, x). split; [done|]. by apply IH.
Qed.

Lemma plug_chain k l g e : e ∈ entries (plug k (chain l g)) <-> e ∈ entries (plug k g) \/ e ∈ under (cpath k) <$> chain_entries l.
Proof. rewrite !plug_entries, entries_chain, fmap_app, !elem_of_app. tauto. Qed.

Lemma unplug_entries k x nm c r e :
  fsorted None (plug k (FNode x nm c r)) ->
  e ∈ entries (plug k r) <-> e ∈ entries (plug k (FNode x nm c r)) /\ ~ (cpath k ++ [nm]) `prefix_of` e.1.
Proof.
  intros Hs. pose proof (entries_nodup _ _ Hs) as Hnd. set (P := cpath k ++ [nm]).
  set (out := (P, x) :: (under P <$> entries c)).
  assert (entries (plug k (FNode x nm c r)) ≡ₚ entries (plug k r) ++ out) as Hp.
  { rewrite !plug_entries. cbn [entries]. rewrite fmap_cons, fmap_app, fmap_under. fold P. change (under (cpath k) ([nm], x)) with (P, x).
    rewrite <-app_assoc. f_equiv. unfold out. rewrite app_comm_cons. apply Permutation_app_comm. }
  rewrite Hp, fmap_app, NoDup_app in Hnd. destruct Hnd as (_ & Hdis & _). rewrite Hp, elem_of_app. split.
  - intros He. split; [by left|]. intros [q Hq]. destruct e as [p y]. simpl in Hq. subst p.
    destruct (entries_ancestor _ P q y ltac:(by destruct (cpath k)) He) as [z Hz]. apply (Hdis P); [apply list_elem_of_fmap; by exists (P, z)|left].
  - intros [[He|He] Hn]; [done|]. destruct Hn. apply elem_of_cons in He as [->|He]; [done|].
    apply list_elem_of_fmap in He as (e' & -> & _). by eexists.
Qed.

(** ** Registration *)

Definition register (pid : Z) (path : list Z) (f : inode -> inode) (ops priv err : Z) s : res (Z * fs_sys HT) :=
  s ← inode_semtake s;
  '(node, s) ← inode_reserve pid path s;
  if decide (node <> NULL) then
    m ← store f node (f_nodes s);
    m ← store (set_i_driver ops priv) node m;
    Ok (0, inode_semgive (with_nodes m s))
  else Ok (err, inode_semgive s).

(** Setting the type of an inode. *)
Record sets_type (f : inode -> inode) : Prop := SetsType {
  st_keep : forall n, i_name (f n) = i_name n /\ i_child (f n) = i_child n /\ i_peer (f n) = i_peer n /\ i_crefs (f n) = i_crefs n;
  st_flags : forall n, 0 <= i_flags (f n) < 2 ^ 16 /\ Z.testbit (i_flags (f n)) 2 = Z.testbit (i_flags n) 2 /\ INODE_IS_MOUNTPT (f n) = false
}.

Lemma driver_type : sets_type INODE_SET_DRIVER.
Proof.
  split; [done|]. intros n. destruct (u16_bits (Z.land (i_flags n) (Z.lnot FSNODEFLAG_TYPE_MASK))) as [H1 H2].
  split; [done|]. split; [unfold INODE_SET_DRIVER; cbn [i_flags set_i_flags]; by rewrite H2, lnot3_bit2|].
  apply not_mount. unfold INODE_SET_DRIVER. cbn [i_flags set_i_flags]. by rewrite u16_bit1, lnot3_bit1.
Qed.

Lemma block_type : sets_type INODE_SET_BLOCK.
Proof.
  split; [done|]. intros n. destruct (u16_bits (Z.lor (Z.land (i_flags n) (Z.lnot FSNODEFLAG_TYPE_MASK)) FSNODEFLAG_TYPE_BLOCK)) as [H1 H2].
  split; [done|]. split; [unfold INODE_SET_BLOCK; cbn [i_flags set_i_flags]; rewrite H2, Z.lor_spec, lnot3_bit2; apply orb_false_r|].
  apply not_mount. unfold INODE_SET_BLOCK. cbn [i_flags set_i_flags]. by rewrite u16_bit1, Z.lor_spec, lnot3_bit1.
Qed.

(** What a registration does: it adds inodes of the path, all of them when it
    succeeds, and nothing else. *)
Record registered s s' (t t' : forest) (path : list Z) : Prop := Registered {
  rg_old : forall e, e ∈ entries t -> e ∈ entries t';
  rg_new : forall p y, (p, y) ∈ entries t' -> (p, y) ∈ entries t \/ (f_nodes s !! y = None /\ p `prefix_of` names (tail path));
  rg_kept : forall y, is_Some (f_nodes s !! y) -> ibody <$> f_nodes s' !! y = ibody <$> f_nodes s !! y
}.

(** New inodes have no references, and only the last one has operations. *)
Definition fresh_nodes s s' (ops : Z) : Prop :=
  forall y n, f_nodes s !! y = None -> f_nodes s' !! y = Some n -> i_crefs n = 0 /\ (i_ops n = 0 \/ i_ops n = ops).

Lemma added_fresh (m m' : gmap Z inode) xs y n : added m m' xs -> m !! y = None -> m' !! y = Some n -> i_crefs n = 0 /\ i_ops n = 0.
Proof.
  intros [H1 H2] E E'. destruct (decide (y ∈ xs.*1)) as [Hy|Hy].
  - apply list_elem_of_fmap in Hy as ([z nm] & -> & Hin). destruct (H1 z nm Hin) as [_ Hb]. simpl in *. rewrite E' in Hb. apply (inj Some) in Hb.
    split; [exact (f_equal i_crefs Hb)|exact (f_equal i_ops Hb)].
  - specialize (H2 y Hy). rewrite E, E' in H2. done.
Qed.

Lemma mountpt_body m m' y : ibody <$> m' !! y = ibody <$> m !! y -> mountpt m' y = mountpt m y.
Proof.
  unfold mountpt. destruct (m' !! y), (m !! y); simpl; intros E; simplify_eq; [|done]. unfold INODE_IS_MOUNTPT. congruence.
Qed.

Lemma fresh_fields n nm : ibody n = fresh_inode nm -> i_crefs n = 0 /\ i_flags n = 0.
Proof. intros E. split; [exact (f_equal i_crefs E)|exact (f_equal i_flags E)]. Qed.

(** The new inode is found by its path. *)
Lemma new_found s m' t k g xs gone x path :
  fs_ok s t gone -> t = plug k g -> fsorted None (plug k (chain xs g)) -> names (tail path) = cpath k ++ xs.*2 -> last xs.*1 = Some x ->
  flookup (mountpt (f_nodes s)) (names (tail path)) t = None ->
  (forall y nm, (y, nm) ∈ xs -> mountpt m' y = false) -> (forall y, y ∈ faddrs t -> mountpt m' y = mountpt (f_nodes s) y) ->
  (names (tail path), x) ∈ entries (plug k (chain xs g)) /\ flookup (mountpt m') (names (tail path)) (plug k (chain xs g)) = Some (x, []).
Proof.
  intros Hok -> Hs Hp Hl Hnone Hnew Hold. assert ((names (tail path), x) ∈ entries (plug k (chain xs g))) as Hin.
  { apply plug_chain. right. apply list_elem_of_fmap. exists (xs.*2, x). rewrite Hp. split; [done|]. by apply chain_last. }
  split; [done|]. apply (flookup_entries _ _ None); [done| |done]. intros p q y E Hq He. apply plug_chain in He as [He|He].
  - destruct (mountpt (f_nodes s) y) eqn:Em.
    + pose proof (flookup_mount (mountpt (f_nodes s)) _ None p q y (fo_sorted _ _ _ (proj1 Hok)) He Em) as [r Hr]. by rewrite <-E, Hnone in Hr.
    + rewrite Hold; [done|]. by eapply entries_addrs.
  - apply list_elem_of_fmap in He as ([p' y'] & [= -> ->] & He). apply chain_elem in He as (nm & q' & Hxs & _). by eapply Hnew.
Qed.

Lemma write_driver s t gone x n f ops priv :
  fs_ok s t gone -> f_nodes s !! x = Some n -> sets_type f ->
  fs_ok (with_nodes (alter (set_i_driver ops priv) x (alter f x (f_nodes s))) s) t gone.
Proof.
  intros [HS HD] En [Hk Hf]. set (s1 := with_nodes (alter f x (f_nodes s)) s).
  assert (fs_ok s1 t gone) as [HS1 HD1].
  { split; [apply shape_write; [done|]; intros n0; destruct (Hk n0) as (-> & -> & -> & _); done|].
    apply data_write; [done|]. intros n0 En0. destruct (Hk n0) as (_ & _ & _ & ->), (Hf n0) as (H1 & H2 & _). pose proof (fo_refs _ _ HD _ _ En0) as [Hc _].
    split; [by rewrite !deleted_bit|]. split; [done|]. split; [done|]. by eapply fo_held. }
  split; [by apply (shape_write (set_i_driver ops priv) x s1)|]. apply (data_write (set_i_driver ops priv) x s1); [done|]. intros n0 En0.
  pose proof (fo_refs _ _ HD1 _ _ En0) as [Hc Hfl]. split; [done|]. split; [done|]. split; [done|]. by eapply fo_held.
Qed.

Lemma register_ok s t gone pid path f ops priv err :
  sets_type f -> fs_ok s t gone -> tree_sem s = 1 -> 0 <= pid -> Z.of_nat (length path) < 2 ^ 31 -> err <> 0 ->
  wp (register pid path f ops priv err s) (fun '(ret, s') => tree_sem s' = 1 /\ exists t', fs_ok s' t' gone /\ registered s s' t t' path /\ fresh_nodes s s' ops
    /\ if ret =? 0 then exists x n, f_nodes s !! x = None /\ f_nodes s' !! x = Some n /\ i_ops n = ops /\ i_private n = priv /\ i_crefs n = 0
         /\ (names (tail path), x) ∈ entries t' /\ flookup (mountpt (f_nodes s')) (names (tail path)) t' = Some (x, [])
       else ret = err).
Proof.
  intros Hty Hok Hs Hp Hl Herr. unfold register. rewrite take_sem by done. apply wp_bind, wp_ret. apply wp_bind.
  eapply wp_mono; [apply (reserve_ok (with_treesem 0 s) t gone pid path); [by apply fs_ok_sem|done|done]|].
  intros [x s1] (Et & k & g & xs & -> & Hok1 & Hadd & Hres). cbn [f_nodes with_treesem tree_sem] in *. pose proof Hadd as [Ha1 Ha2].
  assert (forall p y, (p, y) ∈ entries (plug k (chain xs g)) -> (p, y) ∈ entries (plug k g) \/ exists p' q nm, p = cpath k ++ p' /\ xs.*2 = p' ++ q /\ (y, nm) ∈ xs) as Hen.
  { intros p y [He|He]%plug_chain; [by left|right]. apply list_elem_of_fmap in He as ([p' y'] & [= -> ->] & He). apply chain_elem in He as (nm & q & H1 & H2 & _). eauto 6. }
  assert (forall y, is_Some (f_nodes s !! y) -> y ∉ xs.*1) as Hfresh.
  { intros y [n En] ([z nm] & -> & Hin)%list_elem_of_fmap. simpl in En. destruct (Ha1 z nm Hin). congruence. }
  assert (registered s s1 (plug k g) (plug k (chain xs g)) path) as Hreg.
  { split; [intros e He; apply plug_chain; by left| |intros y Hy; apply Ha2; by apply Hfresh].
    intros p y He. destruct (Hen p y He) as [?|(p' & q & nm & -> & E & Hin)]; [by left|right]. split; [by eapply Ha1|].
    destruct (decide (x = NULL)); [destruct Hres as [->|(l & Hpath & _)]; [set_solver|]|destruct Hres as (_ & _ & Hpath & _)]; rewrite Hpath, E.
    - exists (q ++ l). by rewrite <-!app_assoc.
    - exists q. by rewrite <-app_assoc. }
  destruct (decide (x = NULL)) as [->|Hx].
  { rewrite decide_False by tauto. apply wp_ret. split; [simpl; lia|]. exists (plug k (chain xs g)). split; [by apply fs_ok_sem|]. split; [destruct Hreg; by split|].
    split; [intros y ny E E'; destruct (added_fresh _ _ _ _ _ Hadd E E'); auto|]. by rewrite (proj2 (Z.eqb_neq err 0)). }
  rewrite decide_True by done. destruct Hres as (Hh & Hnone & Hpath & Hlast).
  assert (exists nm, (x, nm) ∈ xs) as [nm Hxs] by (apply last_Some_elem_of, list_elem_of_fmap in Hlast as ([z nm] & -> & Hin); eauto).
  destruct (Ha1 x nm Hxs) as [Hx0 Hbx]. destruct (f_nodes s1 !! x) as [n|] eqn:En; [|done]. apply (inj Some) in Hbx.
  apply wp_bind, wp_store; [split; eauto|]. apply wp_bind, wp_store; [apply valid_alter; split; eauto|]. apply wp_ret. split; [simpl; lia|].
  exists (plug k (chain xs g)). set (m2 := alter (set_i_driver ops priv) x (alter f x (f_nodes s1))). cbn [f_nodes inode_semgive with_treesem with_nodes].
  assert (forall y, y <> x -> m2 !! y = f_nodes s1 !! y) as Hm2 by (intros y Hy; unfold m2; by rewrite !lookup_alter_ne).
  assert (m2 !! x = Some (set_i_driver ops priv (f n))) as Ex by (unfold m2; by rewrite !lookup_alter_eq, En).
  assert (forall y, is_Some (f_nodes s !! y) -> y <> x) as Hne by (intros y [? ?] ->; congruence).
  assert (fs_ok (inode_semgive (with_nodes m2 s1)) (plug k (chain xs g)) gone) as Hok2 by (apply fs_ok_sem; by eapply write_driver).
  split; [done|]. split; [destruct Hreg as [R1 R2 R3]; split; [done|done|]; intros y Hy; simpl; rewrite Hm2 by (by apply Hne); by apply R3|].
  split.
  { intros y ny E E'. simpl in E'. destruct (decide (y = x)) as [->|Hyx].
    - rewrite Ex in E'. injection E' as <-. simpl. split; [|by right]. destruct (st_keep _ Hty n) as (_ & _ & _ & ->). by apply (fresh_fields n nm).
    - rewrite Hm2 in E' by done. destruct (added_fresh _ _ _ _ _ Hadd E E'); auto. }
  exists x, (set_i_driver ops priv (f n)). split; [done|]. split; [done|]. split; [done|]. split; [done|].
  split; [cbn [i_crefs set_i_driver]; destruct (st_keep _ Hty n) as (_ & _ & _ & ->); by apply (fresh_fields n nm)|].
  apply (new_found s m2 (plug k g) k g xs gone x path); try done; [apply (fo_sorted _ _ _ (proj1 Hok2))| |].
  - intros y ny Hin. destruct (decide (y = x)) as [->|Hyx]; [unfold mountpt; rewrite Ex; apply (st_flags _ Hty n)|].
    unfold mountpt. rewrite Hm2 by done. destruct (Ha1 y ny Hin) as [_ Hb]. destruct (f_nodes s1 !! y) as [n1|]; [|done]. apply (inj Some) in Hb.
    apply fresh_fields in Hb as [_ Hb]. simpl. unfold INODE_IS_MOUNTPT. by rewrite Hb.
  - intros y Hy. destruct (tree_node s _ gone y Hok Hy) as [_ Hy']. unfold mountpt at 1. rewrite Hm2 by (by apply Hne). apply mountpt_body, Ha2. by apply Hfresh.
Qed.

(** ** The theorems *)

(** C25: inode_find returns the inode that a lookup of the names of the path in the
    whole tree gives, without the order of the names and the early end of the
    search, or the first mount point on the way with the rest of the path, and
    takes a reference to it; when there is none, nothing changes. *)
Theorem inode_find_lookup s t gone path :
  fs_ok s t gone -> tree_sem s = 1 -> head path = Some SLASH ->
  (forall x rest n, flookup (mountpt (f_nodes s)) (names (tail path)) t = Some (x, rest) -> f_nodes s !! x = Some n -> i_crefs n < SEM_VALUE_MAX) ->
  wp (inode_find path s) (fun '(x, rest, s') => fs_ok s' t gone /\ tree_sem s' = 1 /\
    match flookup (mountpt (f_nodes s)) (names (tail path)) t with
    | None => x = NULL /\ f_nodes s' = f_nodes s
    | Some (y, l) => x = y /\ x <> NULL /\ more rest = l /\ refs_by 1 x (f_nodes s) (f_nodes s')
    end).
Proof. apply find_ok. Qed.

Lemma register_driver_ok s t gone pid path fops priv :
  fs_ok s t gone -> tree_sem s = 1 -> 0 <= pid -> Z.of_nat (length path) < 2 ^ 31 ->
  wp (register_driver pid path fops priv s) (fun '(ret, s') => tree_sem s' = 1 /\ exists t', fs_ok s' t' gone /\ registered s s' t t' path
    /\ if ret =? 0 then exists x n, f_nodes s !! x = None /\ f_nodes s' !! x = Some n /\ i_ops n = fops /\ i_private n = priv /\ i_crefs n = 0
         /\ (names (tail path), x) ∈ entries t' /\ flookup (mountpt (f_nodes s')) (names (tail path)) t' = Some (x, [])
       else ret = -1).
Proof.
  intros. eapply wp_mono; [by apply (register_ok s t gone pid path INODE_SET_DRIVER fops priv (-1) driver_type)|].
  intros [ret s'] (H3 & t' & H4 & H5 & _ & H6). eauto.
Qed.

(** C26: a driver that is registered is found: after register_driver succeeds,
    inode_find of the same path returns a new inode with the operations and the
    private data of the driver and the end of the path as the rest, and takes
    the first reference to it.  The inodes that were there keep their paths, and
    the new ones are on the way to the path. *)
Theorem register_find_roundtrip s t gone pid path fops priv :
  fs_ok s t gone -> tree_sem s = 1 -> head path = Some SLASH -> 0 <= pid -> Z.of_nat (length path) < 2 ^ 31 ->
  wp (register_driver pid path fops priv s) (fun '(ret, s1) => exists t', fs_ok s1 t' gone /\ registered s s1 t t' path
    /\ if ret =? 0 then wp (inode_find path s1) (fun '(x, rest, s2) => fs_ok s2 t' gone /\ rest = [] /\ f_nodes s !! x = None
           /\ (names (tail path), x) ∈ entries t' /\ exists n, f_nodes s2 !! x = Some n /\ i_ops n = fops /\ i_private n = priv /\ i_crefs n = 1)
       else ret = -1).
Proof.
  intros Hok Hs Hh Hp Hl. eapply wp_mono; [by apply (register_driver_ok s t gone pid path fops priv)|].
  intros [ret s1] (Hs1 & t' & Hok1 & Hreg & Hret). exists t'. split; [done|]. split; [done|]. destruct (ret =? 0); [|done].
  destruct Hret as (x & n & Hx & En & Ho & Hpr & Hc & Hin & Hlk). eapply wp_mono; [apply (find_ok s1 t' gone path Hok1 Hs1 Hh)|].
  { intros y l n'. rewrite Hlk. intros [= <- _]. rewrite En. intros [= <-]. unfold SEM_VALUE_MAX. lia. }
  intros [[y rest] s2] (Hok2 & _ & H2). rewrite Hlk in H2. destruct H2 as (-> & _ & Hm%more_nil & Hr). split; [done|]. split; [done|]. split; [done|]. split; [done|].
  exists (set_i_crefs (i_crefs n + 1) n). split; [specialize (Hr x); rewrite decide_True, En in Hr by done; done|]. split; [done|]. split; [done|]. simpl. lia.
Qed.

(** C27: unregister_driver takes the inode of the path, or the first mount point on
    the way, out of the tree with everything below it: exactly the paths that
    begin with its path disappear, and the other inodes are as they were.  When
    nobody refers to the inode the memory of the subtree goes back to the heap at
    once; otherwise the call returns -EBUSY, and inode_release frees the subtree
    with the last reference. *)
Theorem unregister_removes s t gone pid path :
  fs_ok s t gone -> tree_sem s = 1 -> 0 <= pid -> head path = Some SLASH ->
  wp (unregister_driver pid path s) (fun '(ret, s') => tree_sem s' = 1 /\
    match flookup (mountpt (f_nodes s)) (names (tail path)) t with
    | None => ret = - ENOENT /\ fs_ok s' t gone
    | Some (x, rest) => exists P n t', names (tail path) = P ++ rest /\ (P, x) ∈ entries t /\ f_nodes s !! x = Some n
        /\ (forall e, e ∈ entries t' <-> e ∈ entries t /\ ~ P `prefix_of` e.1) /\ kept (f_nodes s) (f_nodes s') x
        /\ if i_crefs n =? 0 then ret = 0 /\ fs_ok s' t' gone
           else ret = - EBUSY /\ (exists f, x ∈ faddrs f /\ fs_ok s' t' (f :: gone))
                /\ (i_crefs n = 1 -> wp (inode_release pid x s') (fun s2 => fs_ok s2 t' gone))
    end).
Proof.
  intros Hok Hs Hp Hh. unfold unregister_driver. rewrite take_sem by done. apply wp_bind, wp_ret. apply wp_bind.
  eapply wp_mono; [apply (remove_ok (with_treesem 0 s) t gone pid path); [by apply fs_ok_sem|done|done]|].
  intros [ret s1] (Et & H). apply wp_ret. cbn [tree_sem f_nodes with_treesem] in *. split; [simpl; lia|].
  destruct (flookup _ _ t) as [[x rest]|]; [|destruct H as [-> ->]; split; [done|]; by do 2 apply fs_ok_sem].
  destruct H as (k & nm & c & r & n & -> & Hpath & En & Hk & Hr). exists (cpath k ++ [nm]), n, (plug k r). split; [done|].
  assert ((cpath k ++ [nm], x) ∈ entries (plug k (FNode x nm c r))) as Hin.
  { rewrite plug_entries, elem_of_app. right. rewrite list_elem_of_fmap. exists ([nm], x). split; [done|]. left. }
  split; [done|]. split; [done|]. split; [intros e; apply unplug_entries; apply (fo_sorted _ _ _ (proj1 Hok))|]. split; [done|].
  destruct (i_crefs n =? 0) eqn:E0; destruct Hr as [-> Hok1]; [split; [done|]; by apply fs_ok_sem|]. split; [done|].
  assert (fs_ok (inode_semgive s1) (plug k r) (FNode x nm c FNil :: gone)) as Hok2 by by apply fs_ok_sem.
  split; [exists (FNode x nm c FNil); split; [left|done]|]. intros E1.
  assert (x ∈ live (plug k r) (FNode x nm c FNil :: gone)) as Hx by (unfold live; rewrite elem_of_app; right; left).
  apply (fo_dom _ _ _ (proj1 Hok2)) in Hx as [n' En']. destruct (kept_refs _ _ _ _ _ Hk En') as (n0 & En0 & Ec). simplify_eq.
  assert (deleted n' = true) as Hd by (apply (fo_deleted _ _ (proj2 Hok2) _ _ En'); exists nm, c; left).
  assert (x <> NULL) as Hx0 by (apply (tree_node s _ gone x Hok); rewrite plug_addrs; simpl; set_solver).
  eapply wp_mono; [apply (release_ok _ _ _ pid x n' Hok2); [simpl; lia|done|done|done]|]. unfold released. rewrite Ec, E1, Hd.
  intros s2 (_ & _ & nm2 & c2 & gone2 & Hg & Hok3). cbv iota in Hg.
  assert (FNode x nm2 c2 FNil = FNode x nm c FNil) as Ef.
  { eapply (frepr_inj (f_nodes (inode_semgive s1)) x).
    - destruct (fo_gone _ _ _ (proj1 Hok2) (FNode x nm2 c2 FNil)) as (? & ? & ? & [= <- <- <-] & Hr); [rewrite Hg; left|done].
    - destruct (fo_gone _ _ _ (proj1 Hok2) (FNode x nm c FNil)) as (? & ? & ? & [= <- <- <-] & Hr); [left|done]. }
  rewrite Ef in Hg. apply Permutation_cons_inv in Hg. by eapply fs_ok_perm; [symmetry|].
Qed.

(** ** Sequences of calls *)

Inductive fs_call : Type :=
| FRegister (path : list Z) (fops priv : Z)
| FRegisterBlock (path : list Z) (bops priv : Z)
| FUnregister (path : list Z)
| FUnregisterBlock (path : list Z)
| FFind (path : list Z)
| FAddref (x : ptr)
| FRelease (x : ptr).

(** The tree and the references that the callers hold: inode_find gives one,
    inode_addref another, and inode_release takes one back. *)
Record fs_world : Type := FsWorld { fw_sys : fs_sys HT; fw_refs : gmap Z Z }.

Definition ref (R : gmap Z Z) (x : Z) : Z := default 0 (R !! x).
Definition add_ref (d x : Z) (R : gmap Z Z) : gmap Z Z := if decide (x = NULL) then R else <[x := ref R x + d]> R.

Definition fs_exec (pid : Z) (c : fs_call) (w : fs_world) : res fs_world :=
  let s := fw_sys w in
  let R := fw_refs w in
  match c with
  | FRegister path fops priv => '(_, s) ← register_driver pid path fops priv s; Ok (FsWorld s R)
  | FRegisterBlock path bops priv => '(_, s) ← register_blockdriver pid path bops priv s; Ok (FsWorld s R)
  | FUnregister path => '(_, s) ← unregister_driver pid path s; Ok (FsWorld s R)
  | FUnregisterBlock path => '(_, s) ← unregister_blockdriver pid path s; Ok (FsWorld s R)
  | FFind path => '(x, _, s) ← inode_find path s; Ok (FsWorld s (add_ref 1 x R))
  | FAddref x => s ← inode_addref x s; Ok (FsWorld s (add_ref 1 x R))
  | FRelease x => s ← inode_release pid x s; Ok (FsWorld s (add_ref (-1) x R))
  end.

(** The counts of references have room. *)
Definition refs_room s : bool := bool_decide (map_Forall (fun _ n => i_crefs n < SEM_VALUE_MAX) (f_nodes s)).

(** Nobody refers to the inodes reached from [p]. *)
Fixpoint unreferenced (fuel : nat) (m : gmap Z inode) (R : gmap Z Z) (p : ptr) : bool :=
  match fuel with
  | O => false
  | S fuel =>
      if decide (p = NULL) then true
      else match m !! p with
           | Some n => (ref R p =? 0) && unreferenced fuel m R (i_child n) && unreferenced fuel m R (i_peer n)
           | None => false
           end
  end.

(** Nobody refers to an inode below the one that the path leads to. *)
Definition below_free (path : list Z) (w : fs_world) : bool :=
  let m := f_nodes (fw_sys w) in
  match inode_search path (fw_sys w) with
  | Ok (x, _, _, _) => bool_decide (x = NULL) || match m !! x with Some n => unreferenced (list_fuel m) m (fw_refs w) (i_child n) | None => false end
  | Err _ => false
  end.

(** The callers' contract: a reference that is copied or given back is held, a
    directory is removed when nobody refers to what is below it, paths fit in
    memory. *)
Definition fs_legal (c : fs_call) (w : fs_world) : bool :=
  match c with
  | FRegister path _ _ | FRegisterBlock path _ _ => Z.of_nat (length path) <? 2 ^ 31
  | FUnregister path | FUnregisterBlock path => below_free path w
  | FFind _ => refs_room (fw_sys w)
  | FAddref x => (bool_decide (x = NULL) || (0 <? ref (fw_refs w) x)) && refs_room (fw_sys w)
  | FRelease x => bool_decide (x = NULL) || (0 <? ref (fw_refs w) x)
  end.

Fixpoint fs_run (pid : Z) (cs : list fs_call) (w : fs_world) : res (option fs_world) :=
  match cs with
  | [] => Ok (Some w)
  | c :: cs => if fs_legal c w then w ← fs_exec pid c w; fs_run pid cs w else Ok None
  end.

(** Every inode is referred to as often as it counts, an inode that is referred to
    exists, and of a removed inode only the inode itself may be referred to. *)
Record refs_exact s (t : forest) (gone : list forest) (R : gmap Z Z) : Prop := RefsExact {
  re_count : forall x n, f_nodes s !! x = Some n -> i_crefs n = ref R x;
  re_alive : forall x, ref R x <> 0 -> is_Some (f_nodes s !! x);
  re_below : forall x nm c y, FNode x nm c FNil ∈ gone -> y ∈ faddrs c -> ref R y = 0
}.

Definition consistent (w : fs_world) : Prop :=
  tree_sem (fw_sys w) = 1 /\ exists t gone, fs_ok (fw_sys w) t gone /\ refs_exact (fw_sys w) t gone (fw_refs w).

(** ** The references are kept *)

Lemma ref_add d x R y : x <> NULL -> ref (add_ref d x R) y = if decide (y = x) then ref R x + d else ref R y.
Proof.
  intros Hx. unfold add_ref, ref. rewrite decide_False by done. rewrite lookup_insert.
  destruct (decide (x = y)) as [<-|Hne]; [by rewrite decide_True|]. by rewrite decide_False by congruence.
Qed.

Lemma add_ref_null d R : add_ref d NULL R = R.
Proof. unfold add_ref. by rewrite decide_True. Qed.

(** The bodies stay and new inodes have no references. *)
Lemma refs_frame s s' t t' gone R :
  refs_exact s t gone R -> (forall y n', f_nodes s' !! y = Some n' -> i_crefs n' = default 0 (i_crefs <$> f_nodes s !! y)) ->
  (forall y, is_Some (f_nodes s !! y) -> is_Some (f_nodes s' !! y)) -> refs_exact s' t' gone R.
Proof.
  intros [A B C] Hc He. split; [|auto|done]. intros y n' E'. rewrite (Hc y n' E'). destruct (f_nodes s !! y) as [n|] eqn:E; [by apply A|]. simpl.
  destruct (decide (ref R y = 0)) as [?|Hy]; [done|]. apply B in Hy. rewrite E in Hy. by destruct Hy.
Qed.

(** [x] has [d] more references. *)
Lemma refs_exact_by s s' t gone R d x :
  refs_exact s t gone R -> x <> NULL -> is_Some (f_nodes s !! x) -> refs_by d x (f_nodes s) (f_nodes s') ->
  (forall y nm c, FNode y nm c FNil ∈ gone -> x ∉ faddrs c) -> refs_exact s' t gone (add_ref d x R).
Proof.
  intros [A B C] Hx [n En] Hby Hg. split.
  - intros y n' E'. rewrite ref_add by done. rewrite (Hby y) in E'. case_decide as Hy; [|by apply A]. subst y. rewrite En in E'. injection E' as <-.
    simpl. by rewrite (A x n).
  - intros y. rewrite ref_add by done. rewrite (Hby y). case_decide as Hy; [subst; by rewrite En; eauto|apply B].
  - intros y nm c z Hin Hz. rewrite ref_add by done. rewrite decide_False by (intros ->; by eapply Hg). by eapply C.
Qed.

Lemma live_split s t gone x y nm c : fs_ok s t gone -> FNode x nm c FNil ∈ gone -> y ∈ faddrs c -> y ∉ faddrs t.
Proof.
  intros [HS _] Hin Hy Ht. pose proof (fo_nodup _ _ _ HS) as Hnd. apply NoDup_app in Hnd as (_ & Hd & _). apply (Hd y Ht).
  apply (elem_of_gone (FNode x nm c FNil)); [done|]. simpl. rewrite app_nil_r. by right.
Qed.

Lemma flookup_addrs mp l f x r : flookup mp l f = Some (x, r) -> x ∈ faddrs f.
Proof.
  revert l. induction f as [|y nm c IHc q IHq]; intros l; simpl; [by destruct l|]. destruct l as [|a rest]; [done|].
  rewrite elem_of_cons, elem_of_app. repeat case_match; intros H'; simplify_eq; eauto.
Qed.

Lemma unreferenced_ok fuel m R p f y : frepr m p f -> unreferenced fuel m R p = true -> y ∈ faddrs f -> ref R y = 0.
Proof.
  revert p f. induction fuel as [|fuel IH]; intros p f Hr Hu Hy; [done|]. simpl in Hu. destruct f as [|x nm c r]; [by apply elem_of_nil in Hy|].
  destruct Hr as (-> & Hx & n & En & _ & Hc & Hr). rewrite decide_False, En in Hu by done. apply andb_true_iff in Hu as [Hu H3]. apply andb_true_iff in Hu as [H1 H2].
  simpl in Hy. rewrite elem_of_cons, elem_of_app in Hy. destruct Hy as [->|[Hy|Hy]]; [by apply Z.eqb_eq|by apply (IH (i_child n) c)|by apply (IH (i_peer n) r)].
Qed.

Lemma below_ok w t gone path x rest k nm c r :
  fs_ok (fw_sys w) t gone -> below_free path w = true -> flookup (mountpt (f_nodes (fw_sys w))) (names (tail path)) t = Some (x, rest) ->
  t = plug k (FNode x nm c r) -> forall y, y ∈ faddrs c -> ref (fw_refs w) y = 0.
Proof.
  intros Hok Hb Hl Ht y Hy. pose proof (search_ok (fw_sys w) t gone path Hok) as Hs. unfold below_free in Hb.
  destruct (inode_search path (fw_sys w)) as [[[[z rest'] lft] above]|]; [|done]. destruct Hs as (_ & Hlk & _). rewrite Hl in Hlk.
  destruct (decide (z = NULL)) as [?|Hz]; [done|]. injection Hlk as -> _. rewrite bool_decide_false in Hb by done. simpl in Hb.
  pose proof (fo_tree _ _ _ (proj1 Hok)) as Hr. rewrite Ht in Hr. apply plug_repr in Hr as (q & _ & -> & _ & n & En & _ & Hc & _). rewrite En in Hb.
  by apply (unreferenced_ok (list_fuel (f_nodes (fw_sys w))) (f_nodes (fw_sys w)) _ (i_child n) c).
Qed.

(** ** The calls *)

Section one_call.
  Context (pid : Z) (w : fs_world) (t : forest) (gone : list forest).
  Hypothesis Hp : 0 <= pid.
  Hypothesis Hs : tree_sem (fw_sys w) = 1.
  Hypothesis Hok : fs_ok (fw_sys w) t gone.
  Hypothesis HR : refs_exact (fw_sys w) t gone (fw_refs w).

Abbreviation s := (fw_sys w).
Abbreviation R := (fw_refs w).

Lemma register_consistent path f ops priv err :
  sets_type f -> err <> 0 -> Z.of_nat (length path) < 2 ^ 31 ->
  wp ('(_, s) ← register pid path f ops priv err s; Ok (FsWorld s R)) consistent.
Proof.
  intros Hf He Hl. apply wp_bind. eapply wp_mono; [by apply (register_ok s t gone pid path f ops priv err)|].
  intros [ret s'] (Hs' & t' & Hok' & Hreg & Hfr & _). apply wp_ret. split; [done|]. exists t', gone. split; [done|]. eapply refs_frame; [exact HR| |].
  - intros y n' E'. destruct (f_nodes s !! y) as [n|] eqn:E; [|by destruct (Hfr y n' E E')].
    pose proof (rg_kept _ _ _ _ _ Hreg y ltac:(eauto)) as Hb. cbn [fw_sys] in E'. rewrite E, E' in Hb. apply (inj Some) in Hb. by apply ibody_fields in Hb as (-> & _).
  - intros y Hy. pose proof (rg_kept _ _ _ _ _ Hreg y Hy) as Hb. by apply body_is_Some in Hb as ->.
Qed.

Lemma live_plug k x nm c r : live (plug k (FNode x nm c r)) gone ≡ₚ x :: faddrs c ++ live (plug k r) gone.
Proof. unfold live. rewrite !plug_addrs. simpl. rewrite <-Permutation_middle. simpl. f_equiv. rewrite !app_assoc. do 2 f_equiv. apply Permutation_app_comm. Qed.

Lemma unregister_consistent path :
  below_free path w = true -> wp ('(_, s) ← unregister_driver pid path s; Ok (FsWorld s R)) consistent.
Proof.
  intros Hb. unfold unregister_driver. rewrite take_sem by done. apply wp_bind, wp_bind, wp_ret. apply wp_bind.
  assert (fs_ok (with_treesem 0 s) t gone) as Hok0 by by apply fs_ok_sem.
  assert (consistent (FsWorld (inode_semgive (with_treesem 0 s)) R)) as Hsame.
  { split; [done|]. exists t, gone. split; [by apply fs_ok_sem|]. destruct HR. by split. }
  destruct (decide (head path = Some SLASH)) as [Hh|Hh].
  2:{ unfold inode_remove. rewrite bool_decide_true by done. by do 3 apply wp_ret. }
  eapply wp_mono; [by apply (remove_ok (with_treesem 0 s) t gone pid path)|]. intros [ret s1] (Et & H). do 2 apply wp_ret. cbn [f_nodes with_treesem tree_sem] in *.
  destruct (flookup _ _ t) as [[x rest]|] eqn:Ef; [|by destruct H as [_ ->]]. destruct H as (k & nm & c & r & n & Ht & _ & En & Hk & H).
  pose proof (below_ok w t gone path x rest k nm c r Hok Hb Ef Ht) as Hbelow. pose proof HR as [A B C].
  assert (forall y n', f_nodes s1 !! y = Some n' -> i_crefs n' = ref R y) as A1.
  { intros y n' E'. destruct (kept_refs _ _ _ _ _ Hk E') as (n0 & E0 & ->). by apply A. }
  split; [simpl; lia|]. cbn [fw_sys fw_refs]. destruct (Z.eqb_spec (i_crefs n) 0) as [E0|E0]; destruct H as [_ H].
  - exists (plug k r), gone. split; [by apply fs_ok_sem|]. split; [done| |done]. intros y Hy. apply (fo_dom _ _ _ (proj1 H)).
    pose proof (proj1 (fo_dom _ _ _ (proj1 Hok) y) (B y Hy)) as Hl. rewrite Ht, live_plug, elem_of_cons, elem_of_app in Hl.
    destruct Hl as [->|[Hc|?]]; [exfalso; apply Hy; by rewrite <-(A x n)|exfalso; by apply Hy, Hbelow|done].
  - exists (plug k r), (FNode x nm c FNil :: gone). split; [by apply fs_ok_sem|]. split; [done| |].
    + intros y Hy. apply (fo_dom _ _ _ (proj1 H)). pose proof (proj1 (fo_dom _ _ _ (proj1 Hok) y) (B y Hy)) as Hl. rewrite Ht, live_plug in Hl.
      unfold live in *. simpl. rewrite app_nil_r. rewrite !elem_of_app, !elem_of_cons, !elem_of_app in *. tauto.
    + intros y ny cy z [[= -> -> ->]|Hin]%elem_of_cons Hz; [by apply Hbelow|by eapply C].
Qed.

Lemma find_consistent path : refs_room s = true -> wp ('(x, _, s) ← inode_find path s; Ok (FsWorld s (add_ref 1 x R))) consistent.
Proof.
  intros Hl. apply bool_decide_eq_true in Hl. apply wp_bind. destruct (decide (head path = Some SLASH)) as [Hh|Hh].
  2:{ unfold inode_find. rewrite bool_decide_true by done. do 2 apply wp_ret. rewrite add_ref_null. split; [done|]. by exists t, gone. }
  eapply wp_mono; [apply (find_ok s t gone path Hok Hs Hh); intros x rest n _ En; by apply (Hl x)|]. intros [[x rest] s'] (H1 & H2 & H3). apply wp_ret.
  split; [done|]. exists t, gone. split; [done|]. destruct (flookup _ _ t) as [[y l]|] eqn:Ef.
  - destruct H3 as (<- & Hx & _ & Hby). apply flookup_addrs in Ef. cbn [fw_sys fw_refs]. eapply refs_exact_by; [exact HR|done| |exact Hby|].
    + by eapply tree_node.
    + intros y nm c Hin Hc. by apply (live_split s t gone y x nm c Hok Hin).
  - destruct H3 as [-> Hm]. rewrite add_ref_null. destruct HR as [A B C]. split; cbn [fw_sys fw_refs]; rewrite ?Hm; done.
Qed.

(** A reference that is held. *)
Lemma held_node x : 0 < ref R x -> exists n, f_nodes s !! x = Some n /\ i_crefs n = ref R x /\ x <> NULL
  /\ (forall y nm c, FNode y nm c FNil ∈ gone -> x ∉ faddrs c).
Proof.
  intros Hx. destruct HR as [A B C]. destruct (B x) as [n En]; [lia|]. exists n. split; [done|]. split; [by apply A|]. split.
  - intros ->. assert (NULL ∈ live t gone) as Hl by (apply (fo_dom _ _ _ (proj1 Hok)); eauto). pose proof Hok as [[Hr _ Hg _ _ _] _].
    unfold live in Hl. apply elem_of_app in Hl as [Hl|Hl]; [by apply (frepr_lookup _ _ _ _ Hr) in Hl as [? _]|].
    apply list_elem_of_bind in Hl as (f & Hf & Hin). destruct (Hg f Hin) as (y & nm & c & -> & Hy). by apply (frepr_lookup _ _ _ _ Hy) in Hf as [? _].
  - intros y nm c Hin Hc. specialize (C y nm c x Hin Hc). lia.
Qed.

Lemma addref_consistent x :
  (bool_decide (x = NULL) || (0 <? ref R x)) && refs_room s = true -> wp (s ← inode_addref x s; Ok (FsWorld s (add_ref 1 x R))) consistent.
Proof.
  intros [Hx Hr]%andb_true_iff. apply bool_decide_eq_true in Hr. apply wp_bind. destruct (decide (x = NULL)) as [->|Hn].
  { do 2 apply wp_ret. rewrite add_ref_null. split; [done|]. by exists t, gone. }
  rewrite bool_decide_false in Hx by done. apply Z.ltb_lt in Hx. destruct (held_node x Hx) as (n & En & _ & _ & Hg).
  eapply wp_mono; [apply (addref_ok s t gone x n Hok Hs Hn En); by apply (Hr x)|]. intros s' (H1 & H2 & H3). apply wp_ret.
  split; [done|]. exists t, gone. split; [done|]. eapply refs_exact_by; [exact HR|done|eauto|exact H3|done].
Qed.

Lemma release_consistent x :
  bool_decide (x = NULL) || (0 <? ref R x) = true -> wp (s ← inode_release pid x s; Ok (FsWorld s (add_ref (-1) x R))) consistent.
Proof.
  intros Hx. apply wp_bind. destruct (decide (x = NULL)) as [->|Hn].
  { do 2 apply wp_ret. rewrite add_ref_null. split; [done|]. by exists t, gone. }
  rewrite bool_decide_false in Hx by done. apply Z.ltb_lt in Hx. destruct (held_node x Hx) as (n & En & Hc & _ & Hg).
  eapply wp_mono; [by apply (release_ok s t gone pid x n Hok Hs Hn En)|]. intros s' (H1 & H2). apply wp_ret. split; [done|]. unfold released in H2.
  rewrite (proj2 (Z.eqb_neq _ _)) in H2 by lia. destruct (deleted n && (i_crefs n =? 1)) eqn:Ed.
  2:{ destruct H2 as [H2 H3]. exists t, gone. split; [done|]. eapply refs_exact_by; [exact HR|done|eauto|exact H3|done]. }
  apply andb_true_iff in Ed as [_ E1]. apply Z.eqb_eq in E1. destruct H2 as (Hsub & nm & c & gone' & Hg' & Hok'). exists t, gone'. split; [done|].
  assert (FNode x nm c FNil ∈ gone) as Hin by (rewrite Hg'; left). pose proof HR as [A B C].
  assert (live t gone ≡ₚ x :: faddrs c ++ live t gone') as Hlv.
  { unfold live. rewrite Hg'. simpl. rewrite app_nil_r, <-Permutation_middle. constructor. apply Permutation_app_swap_app. }
  assert (x ∉ live t gone') as Hxl.
  { pose proof (fo_nodup _ _ _ (proj1 Hok)) as Hnd. rewrite Hlv in Hnd. apply NoDup_cons in Hnd as [Hnd _]. rewrite elem_of_app in Hnd. tauto. }
  split; cbn [fw_sys fw_refs].
  - intros y n' E'. rewrite ref_add by done. rewrite decide_False; [by apply A; eapply lookup_weaken|]. intros ->. apply Hxl, (fo_dom _ _ _ (proj1 Hok')). eauto.
  - intros y. rewrite ref_add by done. case_decide as Hy; [lia|]. intros Hry. apply (fo_dom _ _ _ (proj1 Hok')).
    pose proof (proj1 (fo_dom _ _ _ (proj1 Hok) y) (B y Hry)) as Hl. rewrite Hlv, elem_of_cons, elem_of_app in Hl.
    destruct Hl as [?|[Hyc|?]]; [done|exfalso; apply Hry; by eapply C|done].
  - intros y ny cy z Hiny Hz. assert (FNode y ny cy FNil ∈ gone) as Hiny' by (rewrite Hg'; by right). rewrite ref_add by done.
    rewrite decide_False by (intros ->; by eapply Hg). by eapply C.
Qed.

Lemma fs_exec_ok c : fs_legal c w = true -> wp (fs_exec pid c w) consistent.
Proof.
  intros Hl. destruct c as [path ops priv|path ops priv|path|path|path|x|x]; cbn [fs_exec fs_legal] in *.
  - apply Z.ltb_lt in Hl. by apply (register_consistent path INODE_SET_DRIVER ops priv (-1) driver_type).
  - apply Z.ltb_lt in Hl. by apply (register_consistent path INODE_SET_BLOCK ops priv (- ENOMEM) block_type).
  - by apply unregister_consistent.
  - by apply unregister_consistent.
  - by apply find_consistent.
  - by apply addref_consistent.
  - by apply release_consistent.
Qed.

End one_call.

Lemma fs_run_ok pid cs w : 0 <= pid -> consistent w -> wp (fs_run pid cs w) (fun o => forall w', o = Some w' -> consistent w').
Proof.
  intros Hp. revert w. induction cs as [|c cs IH]; intros w HC; simpl; [by intros w' [= <-]|].
  destruct (fs_legal c w) eqn:El; [|done]. pose proof HC as (Hs & t & gone & Hok & HR). apply wp_bind.
  eapply wp_mono; [by apply (fs_exec_ok pid w t gone)|]. intros w1 HC1. by apply IH.
Qed.

(** C24: references are counted exactly.  Along any sequence of registrations,
    removals, lookups, copies and releases of references in which references are
    only copied and given back by those who hold them, and a directory is removed
    only while nobody refers to an inode below it (see
    [remove_leaves_dangling_reference] for what happens otherwise), no call
    faults, and between the calls the lock of the tree is free, the links form a
    tree with the peers in the order of their names, every inode has its own block
    of the heap, the count of every inode is the number of references that the
    callers hold, every inode that is referred to is there, also when its path
    was removed, and a removed inode is there only while it is referred to. *)
Theorem inode_calls_safe pid cs w :
  0 <= pid -> consistent w ->
  wp (fs_run pid cs w) (fun o => forall w', o = Some w' -> consistent w'
    /\ (forall x, 0 < ref (fw_refs w') x -> exists n, f_nodes (fw_sys w') !! x = Some n /\ i_crefs n = ref (fw_refs w') x)
    /\ (forall x n, f_nodes (fw_sys w') !! x = Some n -> deleted n = true -> 0 < ref (fw_refs w') x)).
Proof.
  intros Hp HC. eapply wp_mono; [by apply fs_run_ok|]. intros o Ho w' Ew. specialize (Ho w' Ew). split; [done|]. destruct Ho as (_ & t & gone & Hok & [A B C]). split.
  - intros x Hx. destruct (B x) as [n En]; [lia|]. exists n. split; [done|]. by apply A.
  - intros x n En Hd. rewrite <-(A x n En). by apply (fo_held _ _ (proj2 Hok) x n).
Qed.

End ops.

(** ** An empty tree *)

Definition demo_fs : fs_sys mm_state := FsSys mm_state NULL ∅ 1 demo_heap.

Lemma demo_fs_ok : fs_ok demo_fs FNil [].
Proof.
  split; split; try done; try set_solver.
  - constructor.
  - intros x. split; [intros [? ?]; done|set_solver].
  - exists (fun _ => 0), []. split; [|set_solver]. exists demo_regions. split; [apply demo_ok|]. split; [vm_compute; done|vm_compute; reflexivity].
Qed.

(** "/dev/a", "/dev/b", "/dev" *)
Definition path_a : list Z := [47; 100; 101; 118; 47; 97].
Definition path_b : list Z := [47; 100; 101; 118; 47; 98].
Definition path_dev : list Z := [47; 100; 101; 118].

Lemma register_find_roundtrip_witness :
  wp (register_driver 1 path_a 1000 7 demo_fs) (fun '(ret, s1) => exists t', fs_ok s1 t' [] /\ registered demo_fs s1 FNil t' path_a
    /\ if ret =? 0 then wp (inode_find path_a s1) (fun '(x, rest, s2) => fs_ok s2 t' [] /\ rest = [] /\ f_nodes demo_fs !! x = None
           /\ (names (tail path_a), x) ∈ entries t' /\ exists n, f_nodes s2 !! x = Some n /\ i_ops n = 1000 /\ i_private n = 7 /\ i_crefs n = 1)
       else ret = -1)
  /\ (fst <$> match register_driver 1 path_a 1000 7 demo_fs with Ok r => Some r | Err _ => None end) = Some 0.
Proof.
  split; [|vm_compute; reflexivity].
  apply (register_find_roundtrip demo_fs FNil [] 1 path_a 1000 7); [exact demo_fs_ok|reflexivity|reflexivity|lia|simpl; lia].
Defined.

Definition demo_world : fs_world := FsWorld demo_fs ∅.

Lemma demo_consistent : consistent demo_world.
Proof. split; [done|]. exists FNil, []. split; [exact demo_fs_ok|]. split; [by intros|by intros x []|]. intros x nm c y Hin. by apply elem_of_nil in Hin. Qed.

(** The tree with "/dev/a" and "/dev/b", and with a reference to "/dev/a". *)
Definition demo_fs2 : fs_sys mm_state :=
  match fs_run 1 [FRegister path_a 1000 7; FRegisterBlock path_b 2000 8] demo_world with Ok (Some w) => fw_sys w | _ => demo_fs end.
Definition demo_fs3 : fs_sys mm_state :=
  match fs_run 1 [FRegister path_a 1000 7; FRegisterBlock path_b 2000 8; FFind path_a] demo_world with Ok (Some w) => fw_sys w | _ => demo_fs end.

Lemma demo_run cs : exists t gone,
  fs_ok (match fs_run 1 cs demo_world with Ok (Some w) => fw_sys w | _ => demo_fs end) t gone.
Proof.
  pose proof (fs_run_ok 1 cs demo_world ltac:(lia) demo_consistent) as H. destruct (fs_run 1 cs demo_world) as [[w|]|]; [|by exists FNil, []; exact demo_fs_ok..].
  destruct (H w eq_refl) as (_ & t & gone & Hok & _). by exists t, gone.
Qed.

Lemma inode_find_lookup_witness :
  exists t gone, fs_ok demo_fs2 t gone /\
  wp (inode_find path_a demo_fs2) (fun '(x, rest, s') => fs_ok s' t gone /\ tree_sem s' = 1 /\
    match flookup (mountpt (f_nodes demo_fs2)) (names (tail path_a)) t with
    | None => x = NULL /\ f_nodes s' = f_nodes demo_fs2
    | Some (y, l) => x = y /\ x <> NULL /\ more rest = l /\ refs_by 1 x (f_nodes demo_fs2) (f_nodes s')
    end).
Proof.
  destruct (demo_run [FRegister path_a 1000 7; FRegisterBlock path_b 2000 8]) as (t & gone & Hok). exists t, gone. split; [exact Hok|].
  assert (map_Forall (fun _ n => i_crefs n < SEM_VALUE_MAX) (f_nodes demo_fs2)) as Hr by (apply (bool_decide_unpack _); vm_compute; exact I).
  apply (inode_find_lookup demo_fs2 t gone path_a); [exact Hok|vm_compute; reflexivity|reflexivity|intros x rest n _ En; exact (Hr x n En)].
Defined.

Lemma unregister_removes_witness :
  exists t gone, fs_ok demo_fs3 t gone /\
  wp (unregister_driver 1 path_a demo_fs3) (fun '(ret, s') => tree_sem s' = 1 /\
    match flookup (mountpt (f_nodes demo_fs3)) (names (tail path_a)) t with
    | None => ret = - ENOENT /\ fs_ok s' t gone
    | Some (x, rest) => exists P n t', names (tail path_a) = P ++ rest /\ (P, x) ∈ entries t /\ f_nodes demo_fs3 !! x = Some n
        /\ (forall e, e ∈ entries t' <-> e ∈ entries t /\ ~ P `prefix_of` e.1) /\ kept (f_nodes demo_fs3) (f_nodes s') x
        /\ if i_crefs n =? 0 then ret = 0 /\ fs_ok s' t' gone
           else ret = - EBUSY /\ (exists f, x ∈ faddrs f /\ fs_ok s' t' (f :: gone))
                /\ (i_crefs n = 1 -> wp (inode_release 1 x s') (fun s2 => fs_ok s2 t' gone))
    end)
  /\ (fst <$> match unregister_driver 1 path_a demo_fs3 with Ok r => Some r | Err _ => None end) = Some (- EBUSY).
Proof.
  destruct (demo_run [FRegister path_a 1000 7; FRegisterBlock path_b 2000 8; FFind path_a]) as (t & gone & Hok). exists t, gone. split; [exact Hok|].
  split; [|vm_compute; reflexivity]. apply (unregister_removes demo_fs3 t gone 1 path_a); [exact Hok|vm_compute; reflexivity|lia|reflexivity].
Defined.

(** "/dev/b" is removed while it is referred to twice, and the directory after it is free. *)
Definition demo_b : ptr := match inode_search path_b demo_fs2 with Ok (x, _, _, _) => x | Err _ => NULL end.

Definition demo_fs_calls : list fs_call :=
  [FRegister path_a 1000 7; FRegisterBlock path_b 2000 8; FRegister path_a 1 1; FFind path_b; FUnregister path_a; FAddref demo_b; FUnregisterBlock path_b; FFind path_b;
   FRelease demo_b; FRegister path_b 3000 9; FUnregister path_dev; FAddref NULL; FRelease NULL].

Lemma inode_calls_safe_witness :
  (match fs_run 1 demo_fs_calls demo_world with Ok (Some w) => Some (ref (fw_refs w) demo_b, deleted <$> f_nodes (fw_sys w) !! demo_b, size (f_nodes (fw_sys w))) | _ => None end)
    = Some (1, Some true, 1%nat)
  /\ wp (fs_run 1 demo_fs_calls demo_world) (fun o => forall w', o = Some w' -> consistent w'
    /\ (forall x, 0 < ref (fw_refs w') x -> exists n, f_nodes (fw_sys w') !! x = Some n /\ i_crefs n = ref (fw_refs w') x)
    /\ (forall x n, f_nodes (fw_sys w') !! x = Some n -> deleted n = true -> 0 < ref (fw_refs w') x)).
Proof.
  split; [vm_compute; reflexivity|]. apply (inode_calls_safe 1 demo_fs_calls demo_world); [lia|exact demo_consistent].
Defined.

(** inode_remove of a directory frees the inodes below it even when they are
    referred to: "/dev/a" is found, "/dev" is removed, and the release of the
    reference reads memory that was freed. *)
Lemma remove_leaves_dangling_reference :
  ('(_, s) ← register_driver 1 path_a 1000 7 demo_fs; '(x, _, s) ← inode_find path_a s; '(_, s) ← unregister_driver 1 path_dev s; inode_release 1 x s) = Err FWild.
Proof. vm_compute. reflexivity. Qed.
