(* ===== verification/Files.v ===== *)
(** * Open files: operations (src/nuttx/fs/fs_files.c, fs_open.c, fs_close.c, ...)

    A task refers to a list of open files, which the threads it creates share; a
    descriptor is an index of the list, and an open file refers to an inode of
    the tree.  A pointer to a [struct file] is the list and the index.  The
    methods of drivers and of mounted file systems are a parameter, [Drivers]:
    a method sees its file and the inode, and changes the file and the state of
    the drivers.  The semaphore of a list is its count; a call that would have
    to wait for it is a fault.  The parameter [me] is the calling task.  The
    build has no sockets and no streams. *)

From S2P Require Import Prelude Queue Sched Sem KHeap Inode.

Definition EBADF : Z := 9.
Definition EACCES : Z := 13.
Definition ENXIO : Z := 6.
Definition ENFILE : Z := 23.
Definition EMFILE : Z := 24.
Definition ENOSYS : Z := 38.

Definition O_RDWR : Z := 3.

Definition SEEK_SET : Z := 0.
Definition SEEK_CUR : Z := 1.
Definition SEEK_END : Z := 2.

Definition FSNODEFLAG_TYPE_DRIVER : Z := 0.
Definition INODE_IS_DRIVER (n : inode) : bool := Z.land (i_flags n) FSNODEFLAG_TYPE_MASK =? FSNODEFLAG_TYPE_DRIVER.

Record file : Type := File {
  f_oflags : Z;
  f_pos : Z;
  f_inode : ptr;
  f_priv : Z
}.

Definition set_f_oflags (x : Z) (f : file) : file := File x (f_pos f) (f_inode f) (f_priv f).
Definition set_f_pos (x : Z) (f : file) : file := File (f_oflags f) x (f_inode f) (f_priv f).

(** The three fields that are written together when a file is opened or closed. *)
Definition set_f_open (oflags pos : Z) (inode : ptr) (f : file) : file := File oflags pos inode (f_priv f).

Record filelist : Type := FileList {
  fl_sem : Z;
  fl_crefs : Z;
  fl_files : list file
}.

Definition set_fl_sem (c : Z) (l : filelist) : filelist := FileList c (fl_crefs l) (fl_files l).
Definition set_fl_crefs (c : Z) (l : filelist) : filelist := FileList (fl_sem l) c (fl_files l).
Definition set_fl_files (fs : list file) (l : filelist) : filelist := FileList (fl_sem l) (fl_crefs l) fs.

(** The fields of a TCB that these files use. *)
Record ftask : Type := FTask { t_filelist : ptr; t_errno : Z }.

(** ** Drivers and mounted file systems *)

(** What a method sees and changes: the inode, its file and the drivers. *)
Definition method (D A : Type) : Type := inode -> file -> D -> A * file * D.

(** [struct file_operations] and the part of [struct mountpt_operations] used
    here.  A missing method is a null pointer.  The open method of a mount point
    has the relative path, the flags and the mode as arguments, the one of a
    driver has none. *)
Record file_operations {D : Type} : Type := FileOps {
  op_open : option (option (list Z * Z * Z) -> method D Z);
  op_close : option (method D Z);
  op_read : option (Z -> method D (Z * list Z));
  op_write : option (list Z -> Z -> method D Z);
  op_seek : option (Z -> Z -> method D Z);
  op_ioctl : option (Z -> Z -> method D Z);
  op_sync : option (method D Z)
}.
Arguments file_operations D : clear implicits.

(** The table of methods at an address. *)
Class Drivers (D : Type) : Type := { fops : Z -> option (file_operations D) }.

Class FilesConfig : Type := {
  CONFIG_NFILE_DESCRIPTORS : Z;
  CONFIG_FDCLONE_STDIO : bool;
  nfile_range : 0 < CONFIG_NFILE_DESCRIPTORS < 2 ^ 16
}.

Record vfs {H D : Type} : Type := Vfs {
  v_fs : fs_sys H;
  v_lists : gmap Z filelist;
  v_tasks : gmap Z ftask;
  v_drv : D;
  v_delayed : list ptr
}.
Arguments vfs H D : clear implicits.

Section ops.
  Context {H D : Type} {HK : KHeap H} {DR : Drivers D} {FC : FilesConfig}.
  Implicit Types (s : vfs H D).

Definition with_fs (f : fs_sys H) s : vfs H D := Vfs H D f (v_lists s) (v_tasks s) (v_drv s) (v_delayed s).
Definition with_lists (m : gmap Z filelist) s : vfs H D := Vfs H D (v_fs s) m (v_tasks s) (v_drv s) (v_delayed s).
Definition with_tasks (m : gmap Z ftask) s : vfs H D := Vfs H D (v_fs s) (v_lists s) m (v_drv s) (v_delayed s).
Definition with_drv (d : D) s : vfs H D := Vfs H D (v_fs s) (v_lists s) (v_tasks s) d (v_delayed s).
Definition with_vdelayed (l : list ptr) s : vfs H D := Vfs H D (v_fs s) (v_lists s) (v_tasks s) (v_drv s) l.

(** ** Tasks *)

Definition task_of (me : Z) s : res ftask := match v_tasks s !! me with Some t => Ok t | None => Err FWild end.

Definition put_errno (me e : Z) s : res (vfs H D) :=
  t ← task_of me s;
  Ok (with_tasks (<[me := FTask (t_filelist t) e]> (v_tasks s)) s).

Definition put_filelist (tcb : Z) (list : ptr) s : res (vfs H D) :=
  t ← task_of tcb s;
  Ok (with_tasks (<[tcb := FTask list (t_errno t)]> (v_tasks s)) s).

(** [errno = err; return ERROR;] *)
Definition errout (me err : Z) s : res (Z * vfs H D) :=
  s ← put_errno me err s;
  Ok (-1, s).

Definition sched_getfiles (me : Z) s : res ptr := t ← task_of me s; Ok (t_filelist t).

(** ** Elements of a list *)

Definition fd_range (fd : Z) : bool := (0 <=? fd) && (fd <? CONFIG_NFILE_DESCRIPTORS).

Definition get_file (list : ptr) (i : Z) s : res file :=
  fl ← deref (v_lists s) list;
  if i <? 0 then Err FWild else match fl_files fl !! Z.to_nat i with Some f => Ok f | None => Err FWild end.

Definition put_file (g : file -> file) (list : ptr) (i : Z) s : res (vfs H D) :=
  _ ← get_file list i s;
  m ← store (fun fl => set_fl_files (alter g (Z.to_nat i) (fl_files fl)) fl) list (v_lists s);
  Ok (with_lists m s).

Definition _files_semtake (list : ptr) s : res (vfs H D) :=
  fl ← deref (v_lists s) list;
  if 0 <? fl_sem fl then
    m ← store (set_fl_sem (fl_sem fl - 1)) list (v_lists s);
    Ok (with_lists m s)
  else Err FBlock.

Definition _files_semgive (list : ptr) s : res (vfs H D) :=
  fl ← deref (v_lists s) list;
  m ← store (set_fl_sem (fl_sem fl + 1)) list (v_lists s);
  Ok (with_lists m s).

(** ** Methods *)

(** [inode->u.i_ops && inode->u.i_ops->method], with the method. *)
Definition find_method {A} (sel : file_operations D -> option A) (n : inode) : res (option A) :=
  if i_ops n =? 0 then Ok None
  else match fops (i_ops n) with Some t => Ok (sel t) | None => Err FWild end.

(** The method is called with the file [fl_files[i]]. *)
Definition call {A} (f : method D A) (n : inode) (list : ptr) (i : Z) s : res (A * vfs H D) :=
  filep ← get_file list i s;
  let '(r, filep, d) := f n filep (v_drv s) in
  s ← put_file (fun _ => filep) list i s;
  Ok (r, with_drv d s).

(** ** fs_files.c *)

Definition release (me : Z) (inode : ptr) s : res (vfs H D) :=
  f ← inode_release me inode (v_fs s);
  Ok (with_fs f s).

Definition addref (inode : ptr) s : res (vfs H D) :=
  f ← inode_addref inode (v_fs s);
  Ok (with_fs f s).

Definition _files_close (me : Z) (list : ptr) (i : Z) s : res (Z * vfs H D) :=
  filep ← get_file list i s;
  let inode := f_inode filep in
  if decide (inode = NULL) then Ok (0, s)
  else
    n ← deref (f_nodes (v_fs s)) inode;
    close ← find_method op_close n;
    '(ret, s) ← match close with Some close => call close n list i s | None => Ok (0, s) end;
    s ← release me inode s;
    s ← put_file (set_f_open 0 0 NULL) list i s;
    Ok (ret, s).

(** sizeof(struct filelist): a semaphore, a 16-bit count and the files. *)
Definition SIZEOF_FILELIST : Z := 4 + 16 * CONFIG_NFILE_DESCRIPTORS.

Definition files_alloclist (me : Z) s : res (ptr * vfs H D) :=
  '(list, h) ← kzalloc me SIZEOF_FILELIST (f_heap (v_fs s));
  let s := with_fs (with_fheap h (v_fs s)) s in
  if decide (list = NULL) then Ok (NULL, s)
  else Ok (list, with_lists (<[list := FileList 1 1 (replicate (Z.to_nat CONFIG_NFILE_DESCRIPTORS) (File 0 0 NULL 0))]> (v_lists s)) s).

Definition files_addreflist (list : ptr) s : res (vfs H D) :=
  if decide (list = NULL) then Ok s
  else
    fl ← deref (v_lists s) list;
    m ← store (set_fl_crefs (s16 (fl_crefs fl + 1))) list (v_lists s);
    Ok (with_lists m s).

(** [sched_free] of a list, outside interrupt handlers. *)
Definition sched_free_list (me : Z) (list : ptr) s : res (vfs H D) :=
  let s := with_lists (delete list (v_lists s)) s in
  match kmm_trysemaphore me (f_heap (v_fs s)) with
  | (false, _) => Ok (with_vdelayed (v_delayed s ++ [list]) s)
  | (true, h) =>
      h ← kfree me list h;
      h ← kmm_givesemaphore me h;
      Ok (with_fs (with_fheap h (v_fs s)) s)
  end.

(** The loop over the descriptors; [n] are left. *)
Fixpoint close_loop (n : nat) (me : Z) (list : ptr) (i : Z) s : res (vfs H D) :=
  match n with
  | O => Ok s
  | S n =>
      '(_, s) ← _files_close me list i s;
      close_loop n me list (i + 1) s
  end.

Definition files_releaselist (me : Z) (list : ptr) s : res (vfs H D) :=
  if decide (list = NULL) then Ok s
  else
    fl ← deref (v_lists s) list;
    let crefs := s16 (fl_crefs fl - 1) in
    m ← store (set_fl_crefs crefs) list (v_lists s);
    let s := with_lists m s in
    if crefs <=? 0 then
      s ← close_loop (Z.to_nat CONFIG_NFILE_DESCRIPTORS) me list 0 s;
      sched_free_list me list s
    else Ok s.

(** The second part of [files_dup]: the reference, the file and the open method;
    [errout_with_inode] takes both back. *)
Definition dup_open (me : Z) (l1 : ptr) (i1 : Z) (l2 : ptr) (i2 : Z) s : res (Z * vfs H D) :=
  filep1 ← get_file l1 i1 s;
  let inode := f_inode filep1 in
  s ← addref inode s;
  s ← put_file (set_f_open (f_oflags filep1) (f_pos filep1) inode) l2 i2 s;
  n ← deref (f_nodes (v_fs s)) inode;
  open ← find_method op_open n;
  '(ret, s) ← match open with Some open => call (open None) n l2 i2 s | None => Ok (0, s) end;
  if ret <? 0 then
    filep2 ← get_file l2 i2 s;
    s ← release me (f_inode filep2) s;
    s ← put_file (set_f_open 0 0 NULL) l2 i2 s;
    Ok (ret, s)
  else Ok (0, s).

(** The pointers of the two files are [(l1, i1)] and [(l2, i2)]. *)
Definition files_dup (me : Z) (l1 : ptr) (i1 : Z) (l2 : ptr) (i2 : Z) s : res (Z * vfs H D) :=
  filep1 ← get_file l1 i1 s;
  if decide (f_inode filep1 = NULL) then errout me EBADF s
  else
    n ← deref (f_nodes (v_fs s)) (f_inode filep1);
    if INODE_IS_MOUNTPT n then errout me ENOSYS s
    else
      list ← sched_getfiles me s;
      if decide (list = NULL) then errout me EMFILE s
      else
        s ← _files_semtake list s;
        '(ret, s) ← _files_close me l2 i2 s;
        '(ret, s) ← (if ret <? 0 then Ok (ret, s) else dup_open me l1 i1 l2 i2 s);
        s ← _files_semgive list s;
        if ret <? 0 then errout me (- ret) s else Ok (0, s).

(** The search for a free descriptor from [i] on; [n] are left. *)
Fixpoint allocate_loop (n : nat) (list : ptr) (i : Z) (inode : ptr) (oflags pos : Z) s : res (Z * vfs H D) :=
  match n with
  | O => Ok (-1, s)
  | S n =>
      f ← get_file list i s;
      if decide (f_inode f = NULL) then
        s ← put_file (set_f_open oflags pos inode) list i s;
        Ok (i, s)
      else allocate_loop n list (i + 1) inode oflags pos s
  end.

Definition files_allocate (me : Z) (inode : ptr) (oflags pos minfd : Z) s : res (Z * vfs H D) :=
  list ← sched_getfiles me s;
  if decide (list = NULL) then Ok (-1, s)
  else
    s ← _files_semtake list s;
    '(fd, s) ← allocate_loop (Z.to_nat (CONFIG_NFILE_DESCRIPTORS - minfd)) list minfd inode oflags pos s;
    s ← _files_semgive list s;
    Ok (fd, s).

Definition files_close (me filedes : Z) s : res (Z * vfs H D) :=
  list ← sched_getfiles me s;
  if decide (list = NULL) then Ok (- EMFILE, s)
  else if negb (fd_range filedes) then Ok (- EBADF, s)
  else
    f ← get_file list filedes s;
    if decide (f_inode f = NULL) then Ok (- EBADF, s)
    else
      s ← _files_semtake list s;
      '(ret, s) ← _files_close me list filedes s;
      s ← _files_semgive list s;
      Ok (ret, s).

Definition files_release (me filedes : Z) s : res (vfs H D) :=
  list ← sched_getfiles me s;
  if decide (list = NULL) then Ok s
  else if fd_range filedes then
    s ← _files_semtake list s;
    s ← put_file (set_f_open 0 0 NULL) list filedes s;
    _files_semgive list s
  else Ok s.

(** ** fs_open.c, fs_close.c *)

(** The caller has checked that [u.i_ops] is not null. *)
Definition inode_checkflags (n : inode) (oflags : Z) : res Z :=
  read ← find_method op_read n;
  write ← find_method op_write n;
  Ok (if (negb (Z.land oflags O_RDOK =? 0) && bool_decide (~ is_Some read)) || (negb (Z.land oflags O_WROK =? 0) && bool_decide (~ is_Some write))
      then - EACCES else 0).

Definition open_mode : Z := 438.

(** [errout_with_inode] *)
Definition open_failed (me : Z) (inode : ptr) (ret : Z) s : res (Z * vfs H D) :=
  s ← release me inode s;
  errout me ret s.

Definition open (me : Z) (path : list Z) (oflags : Z) s : res (Z * vfs H D) :=
  list ← sched_getfiles me s;
  if decide (list = NULL) then errout me EMFILE s
  else
    '(inode, relpath, f) ← inode_find path (v_fs s);
    let s := with_fs f s in
    if decide (inode = NULL) then errout me ENOENT s
    else
      n ← deref (f_nodes (v_fs s)) inode;
      if negb (INODE_IS_DRIVER n) && negb (INODE_IS_MOUNTPT n) || (i_ops n =? 0) then open_failed me inode ENXIO s
      else
        ret ← inode_checkflags n oflags;
        if ret <? 0 then open_failed me inode (- ret) s
        else
          '(fd, s) ← files_allocate me inode oflags 0 0 s;
          if fd <? 0 then open_failed me inode EMFILE s
          else
            open ← find_method op_open n;
            '(ret, s) ← match open with
                        | Some open => call (open (if INODE_IS_MOUNTPT n then Some (relpath, oflags, open_mode) else None)) n list fd s
                        | None => Ok (0, s)
                        end;
            if ret <? 0 then
              s ← files_release me fd s;
              open_failed me inode (- ret) s
            else Ok (fd, s).

Definition close (me fd : Z) s : res (Z * vfs H D) :=
  if negb (fd_range fd) then errout me EBADF s
  else
    '(ret, s) ← files_close me fd s;
    if ret <? 0 then errout me (- ret) s else Ok (0, s).

(** ** fs_read.c, fs_write.c: with what the driver put in the buffer *)

Definition file_read (me fd nbytes : Z) s : res (Z * list Z * vfs H D) :=
  list ← sched_getfiles me s;
  if decide (list = NULL) then '(r, s) ← errout me EMFILE s; Ok (r, [], s)
  else
    '(ret, buf, s) ←
      (if fd_range fd then
         this_file ← get_file list fd s;
         if negb (Z.land (f_oflags this_file) O_RDOK =? 0) && bool_decide (f_inode this_file <> NULL) then
           n ← deref (f_nodes (v_fs s)) (f_inode this_file);
           read ← find_method op_read n;
           match read with
           | Some read => '(r, s) ← call (read nbytes) n list fd s; Ok (r, s)
           | None => Ok (- EBADF, [], s)
           end
         else Ok (- EBADF, [], s)
       else Ok (- EBADF, [], s));
    if ret <? 0 then '(r, s) ← errout me (- ret) s; Ok (r, buf, s) else Ok (ret, buf, s).

Definition read (me fd nbytes : Z) s : res (Z * list Z * vfs H D) :=
  if negb (fd_range fd) then '(r, s) ← errout me EBADF s; Ok (r, [], s)
  else file_read me fd nbytes s.

Definition file_write (me fd : Z) (buf : list Z) (nbytes : Z) s : res (Z * vfs H D) :=
  list ← sched_getfiles me s;
  if decide (list = NULL) then errout me EMFILE s
  else
    this_file ← get_file list fd s;
    if Z.land (f_oflags this_file) O_WROK =? 0 then errout me EBADF s
    else if decide (f_inode this_file = NULL) then errout me EBADF s
    else
      n ← deref (f_nodes (v_fs s)) (f_inode this_file);
      write ← find_method op_write n;
      match write with
      | None => errout me EBADF s
      | Some write =>
          '(ret, s) ← call (write buf nbytes) n list fd s;
          if ret <? 0 then errout me (- ret) s else Ok (ret, s)
      end.

Definition write (me fd : Z) (buf : list Z) (nbytes : Z) s : res (Z * vfs H D) :=
  if negb (fd_range fd) then errout me EBADF s
  else file_write me fd buf nbytes s.

(** ** fs_lseek.c *)

(** The default when the driver has no seek method: the new position or an error. *)
Definition default_seek (offset whence pos : Z) : Z + Z :=
  let set (offset : Z) : Z + Z := if 0 <=? offset then inl offset else inr EINVAL in
  if whence =? SEEK_CUR then set (s32 (offset + pos))
  else if whence =? SEEK_SET then set offset
  else if whence =? SEEK_END then inr ENOSYS
  else inr EINVAL.

Definition lseek (me fd offset whence : Z) s : res (Z * vfs H D) :=
  if negb (fd_range fd) then errout me EBADF s
  else
    list ← sched_getfiles me s;
    if decide (list = NULL) then errout me EMFILE s
    else
      let done (s : vfs H D) : res (Z * vfs H D) := filep ← get_file list fd s; Ok (f_pos filep, s) in
      filep ← get_file list fd s;
      if decide (f_inode filep = NULL) then done s
      else
        n ← deref (f_nodes (v_fs s)) (f_inode filep);
        if i_ops n =? 0 then done s
        else
          seek ← find_method op_seek n;
          match seek with
          | Some seek =>
              '(err, s) ← call (seek offset whence) n list fd s;
              if err <? 0 then errout me (- err) s else done s
          | None =>
              match default_seek offset whence (f_pos filep) with
              | inl pos => s ← put_file (set_f_pos pos) list fd s; done s
              | inr err => errout me err s
              end
          end.

(** ** fs_ioctl.c, fs_fsync.c *)

Definition ioctl (me fd req arg : Z) s : res (Z * vfs H D) :=
  if negb (fd_range fd) then errout me EBADF s
  else
    list ← sched_getfiles me s;
    if decide (list = NULL) then errout me EMFILE s
    else
      this_file ← get_file list fd s;
      if decide (f_inode this_file = NULL) then Ok (0, s)
      else
        n ← deref (f_nodes (v_fs s)) (f_inode this_file);
        ioctl ← find_method op_ioctl n;
        match ioctl with
        | None => Ok (0, s)
        | Some ioctl =>
            '(ret, s) ← call (ioctl req arg) n list fd s;
            if ret <? 0 then errout me (- ret) s else Ok (ret, s)
        end.

Definition fsync (me fd : Z) s : res (Z * vfs H D) :=
  list ← sched_getfiles me s;
  if decide (list = NULL) then errout me EMFILE s
  else if negb (fd_range fd) then errout me EBADF s
  else
    this_file ← get_file list fd s;
    if Z.land (f_oflags this_file) O_WROK =? 0 then errout me EBADF s
    else if decide (f_inode this_file = NULL) then errout me EINVAL s
    else
      n ← deref (f_nodes (v_fs s)) (f_inode this_file);
      if negb (INODE_IS_MOUNTPT n) then errout me EINVAL s
      else
        sync ← find_method op_sync n;
        match sync with
        | None => errout me EINVAL s
        | Some sync =>
            '(ret, s) ← call sync n list fd s;
            if 0 <=? ret then Ok (0, s) else errout me (- ret) s
        end.

(** ** fs_dup.c, fs_filedup.c, fs_filedup2.c *)

(** The caller has checked that [list] is not null. *)
Definition DUP_ISOPEN (fd : Z) (list : ptr) s : res bool :=
  if fd_range fd then f ← get_file list fd s; Ok (bool_decide (f_inode f <> NULL)) else Ok false.

Definition file_dup (me fildes minfd : Z) s : res (Z * vfs H D) :=
  list ← sched_getfiles me s;
  if decide (list = NULL) then errout me EMFILE s
  else
    isopen ← DUP_ISOPEN fildes list s;
    if negb isopen then errout me EBADF s
    else
      f ← get_file list fildes s;
      s ← addref (f_inode f) s;
      '(fildes2, s) ← files_allocate me (f_inode f) (f_oflags f) (f_pos f) minfd s;
      if fildes2 <? 0 then
        s ← put_errno me EMFILE s;
        f ← get_file list fildes s;
        s ← release me (f_inode f) s;
        Ok (-1, s)
      else Ok (fildes2, s).

Definition dup (me fildes : Z) s : res (Z * vfs H D) :=
  if fd_range fildes then file_dup me fildes 0 s else errout me EBADF s.

Definition dup2 (me fildes1 fildes2 : Z) s : res (Z * vfs H D) :=
  list ← sched_getfiles me s;
  if decide (list = NULL) then errout me EMFILE s
  else
    isopen ← DUP_ISOPEN fildes1 list s;
    if negb isopen then errout me EBADF s
    else if fildes1 =? fildes2 then Ok (fildes1, s)
    else if negb (fd_range fildes2) then errout me EBADF s
    else files_dup me list fildes1 list fildes2 s.

(** ** fs_fcntl.c *)

(** The commands; the argument is the third one of the call. *)
Inductive fcntl_cmd : Type :=
| F_DUPFD (arg : Z)
| F_GETFD
| F_SETFD
| F_GETFL
| F_SETFL (arg : Z)
| F_GETOWN
| F_SETOWN
| F_GETLK
| F_SETLK
| F_SETLKW
| F_OTHER.

(** The value computed by a command is not returned. *)
Definition file_vfcntl (me fildes : Z) (cmd : fcntl_cmd) s : res (Z * vfs H D) :=
  list ← sched_getfiles me s;
  if decide (list = NULL) then errout me EMFILE s
  else
    this_file ← get_file list fildes s;
    if decide (f_inode this_file = NULL) then errout me EBADF s
    else match cmd with
         | F_DUPFD arg => '(_, s) ← file_dup me fildes arg s; Ok (0, s)
         | F_GETFD | F_SETFD => errout me ENOSYS s
         | F_GETFL => Ok (0, s)
         | F_SETFL arg => s ← put_file (set_f_oflags arg) list fildes s; Ok (0, s)
         | F_GETOWN | F_SETOWN => errout me EBADF s
         | F_GETLK | F_SETLK | F_SETLKW => errout me ENOSYS s
         | F_OTHER => errout me EINVAL s
         end.

Definition fcntl (me fildes : Z) (cmd : fcntl_cmd) s : res (Z * vfs H D) :=
  if fd_range fildes then file_vfcntl me fildes cmd s else Ok (EBADF, s).

(** ** The lists of new tasks and threads (sched_setup*files.c, sched_releasefiles.c) *)

Definition NFDS_TOCLONE : Z := if CONFIG_FDCLONE_STDIO && (3 <? CONFIG_NFILE_DESCRIPTORS) then 3 else CONFIG_NFILE_DESCRIPTORS.

(** The files of the list [l1] are duplicated in [l2]; [n] are left. *)
Fixpoint clone_loop (n : nat) (me : Z) (l1 l2 : ptr) (i : Z) s : res (vfs H D) :=
  match n with
  | O => Ok s
  | S n =>
      f ← get_file l1 i s;
      s ← (if decide (f_inode f <> NULL) then '(_, s) ← files_dup me l1 i l2 i s; Ok s else Ok s);
      clone_loop n me l1 l2 (i + 1) s
  end.

Definition sched_setuptaskfiles (me tcb : Z) s : res (Z * vfs H D) :=
  '(l2, s) ← files_alloclist me s;
  s ← put_filelist tcb l2 s;
  if decide (l2 = NULL) then Ok (- ENOMEM, s)
  else
    l1 ← sched_getfiles me s;
    s ← (if decide (l1 <> NULL) then clone_loop (Z.to_nat NFDS_TOCLONE) me l1 l2 0 s else Ok s);
    Ok (0, s).

Definition sched_setuppthreadfiles (me tcb : Z) s : res (Z * vfs H D) :=
  list ← sched_getfiles me s;
  s ← put_filelist tcb list s;
  s ← files_addreflist list s;
  Ok (0, s).

Definition sched_releasefiles (me tcb : Z) s : res (Z * vfs H D) :=
  t ← task_of tcb s;
  s ← files_releaselist me (t_filelist t) s;
  s ← put_filelist tcb NULL s;
  Ok (0, s).

(** "/dev/console" *)
Definition console_path : list Z := [47; 100; 101; 118; 47; 99; 111; 110; 115; 111; 108; 101].

(** The idle task sets its own files up. *)
Definition sched_setupidlefiles (me : Z) s : res (Z * vfs H D) :=
  '(l, s) ← files_alloclist me s;
  s ← put_filelist me l s;
  if decide (l = NULL) then Ok (- ENOMEM, s)
  else
    '(fd, s) ← open me console_path O_RDWR s;
    if fd =? 0 then
      '(_, s) ← dup2 me 0 1 s;
      '(_, s) ← dup2 me 0 2 s;
      Ok (0, s)
    else
      s ← (if 0 <? fd then '(_, s) ← close me fd s; Ok s else Ok s);
      Ok (- ENFILE, s).

End ops.
