(* ===== verification/FilesSpec.v ===== *)
(** * Open files: the invariant and the steps

    [opens] counts the open files that refer to an inode.  The invariant
    [files_inv] says that the count of references of an inode is the number of
    open files that refer to it plus the references [held] by others, and that
    the count of a list is the number of tasks that share it.  The steps of the
    operations move references between an open file and [held]. *)

From S2P Require Import Prelude Queue Sched Sem KHeap Inode InodeTree InodeSpec InodeThm Files.

(** ** Counting *)

Definition refers (x : ptr) (f : file) : Z := if decide (f_inode f = x) then 1 else 0.
Definition refs_in (x : ptr) (fs : list file) : Z := foldr (fun f acc => refers x f + acc) 0 fs.
Definition opens (m : gmap Z filelist) (x : ptr) : Z := msum (fun fl => refs_in x (fl_files fl)) m.
Definition sharers (m : gmap Z ftask) (l : ptr) : Z := msum (fun t => if decide (t_filelist t = l) then 1 else 0) m.

Lemma refs_in_nonneg x fs : 0 <= refs_in x fs.
Proof. induction fs as [|f fs IH]; simpl; [done|]. unfold refers. case_decide; lia. Qed.

Lemma refs_in_alter x fs i f g : fs !! i = Some f -> refs_in x (alter g i fs) = refs_in x fs - refers x f + refers x (g f).
Proof.
  revert i. induction fs as [|h fs IH]; intros [|i]; [done..| |]; intros E.
  - injection E as ->. simpl. lia.
  - change (alter g (S i) (h :: fs)) with (h :: alter g i fs). simpl. rewrite (IH i E). lia.
Qed.

Lemma refs_in_ge x fs i f : fs !! i = Some f -> refers x f <= refs_in x fs.
Proof.
  revert i. induction fs as [|h fs IH]; intros [|i]; simpl; [done..|intros [= ->]; pose proof (refs_in_nonneg x fs); lia|].
  intros E%IH. unfold refers at 2. case_decide; lia.
Qed.

Lemma refs_in_replicate x n f : f_inode f <> x -> refs_in x (replicate n f) = 0.
Proof. intros H. induction n as [|n IH]; simpl; [done|]. unfold refers. rewrite decide_False by done. lia. Qed.

Lemma refs_in_closed x fs : Forall (fun f => f_inode f = NULL) fs -> x <> NULL -> refs_in x fs = 0.
Proof. intros H Hx. induction H as [|f fs Hf _ IH]; simpl; [done|]. unfold refers. rewrite decide_False by congruence. lia. Qed.

Lemma refs_in_none x fs : (forall i f, fs !! i = Some f -> f_inode f <> x) -> refs_in x fs = 0.
Proof.
  induction fs as [|f fs IH]; intros H; simpl; [done|]. unfold refers. rewrite decide_False by (by apply (H 0%nat)). rewrite IH; [done|]. intros i g Hg. by apply (H (S i)).
Qed.

Lemma opens_nonneg m x : 0 <= opens m x.
Proof. apply msum_nonneg. intros fl. apply refs_in_nonneg. Qed.

Lemma opens_ge m x l fl i f : m !! l = Some fl -> fl_files fl !! i = Some f -> f_inode f = x -> 1 <= opens m x.
Proof.
  intros Hl Hi Hf. pose proof (msum_ge (fun fl => refs_in x (fl_files fl)) m l fl (fun fl => refs_in_nonneg x _) Hl) as H. cbv beta in H.
  pose proof (refs_in_ge x _ _ _ Hi) as H2. unfold refers in H2. rewrite decide_True in H2 by done. unfold opens. lia.
Qed.

(** ** The element of a list *)

Definition file_at (m : gmap Z filelist) (l : ptr) (i : Z) (f : file) : Prop :=
  exists fl, m !! l = Some fl /\ 0 <= i /\ fl_files fl !! Z.to_nat i = Some f.

Definition upd_file (l : ptr) (i : Z) (g : file -> file) (m : gmap Z filelist) : gmap Z filelist :=
  alter (fun fl => set_fl_files (alter g (Z.to_nat i) (fl_files fl)) fl) l m.

Lemma file_at_inj m l i f f' : file_at m l i f -> file_at m l i f' -> f = f'.
Proof. intros (fl & E & _ & H) (fl' & E' & _ & H'). simplify_eq. done. Qed.

Lemma file_at_upd m l i g f : file_at m l i f -> file_at (upd_file l i g m) l i (g f).
Proof.
  intros (fl & E & Hi & Hf). eexists. split; [unfold upd_file; by rewrite lookup_alter_eq, E|]. split; [done|]. simpl. by rewrite list_lookup_alter_eq, Hf.
Qed.

Lemma file_at_upd_ne m l i g l' i' f : (l', i') <> (l, i) -> 0 <= i -> file_at (upd_file l i g m) l' i' f <-> file_at m l' i' f.
Proof.
  intros Hne Hi. unfold file_at, upd_file. destruct (decide (l' = l)) as [->|Hl]; [|by rewrite lookup_alter_ne by done].
  rewrite lookup_alter_eq. destruct (m !! l) as [fl|]; simpl; [|split; by intros (? & ? & _)].
  split; intros (? & [= <-] & Hi' & Hf); eexists; (split; [done|]); (split; [done|]); simpl in *;
    rewrite list_lookup_alter_ne in * by (intros E; apply Hne; f_equal; lia); done.
Qed.

Lemma opens_upd m x l i f g : file_at m l i f -> opens (upd_file l i g m) x = opens m x - refers x f + refers x (g f).
Proof. intros (fl & E & _ & Hf). unfold opens, upd_file. rewrite (msum_alter _ m l fl) by done. simpl. rewrite (refs_in_alter x _ _ f) by done. lia. Qed.

Lemma opens_meta m x l h : (forall fl, fl_files (h fl) = fl_files fl) -> opens (alter h l m) x = opens m x.
Proof.
  intros Hh. destruct (m !! l) as [fl|] eqn:E; [unfold opens; rewrite (msum_alter _ m l fl), Hh by done; lia|].
  f_equal. apply map_eq. intros k. rewrite lookup_alter. case_decide; [subst; by rewrite E|done].
Qed.

Lemma upd_file_const m l i f g : file_at m l i f -> upd_file l i g m = upd_file l i (fun _ => g f) m.
Proof.
  intros (fl & E & _ & Hf). apply map_eq. intros k. unfold upd_file. rewrite !lookup_alter. case_decide; [subst|done]. rewrite E. simpl. f_equal. unfold set_fl_files. f_equal.
  apply list_eq. intros j. destruct (decide (Z.to_nat i = j)) as [<-|]; [by rewrite !list_lookup_alter_eq, Hf|by rewrite !list_lookup_alter_ne].
Qed.

Lemma upd_file_twice m l i g h : upd_file l i h (upd_file l i g m) = upd_file l i (fun f => h (g f)) m.
Proof.
  unfold upd_file. rewrite alter_alter_eq. apply alter_ext. intros fl _. cbn. unfold set_fl_files. f_equal. cbn. by rewrite list_alter_alter_eq.
Qed.

(** ** The lock of a list *)

Definition locked (l : ptr) (m : gmap Z filelist) : gmap Z filelist := alter (set_fl_sem 0) l m.

Lemma locked_upd l l' i g m : upd_file l' i g (locked l m) = locked l (upd_file l' i g m).
Proof.
  unfold upd_file, locked. destruct (decide (l = l')) as [<-|Hne]; [|by rewrite alter_alter_ne].
  rewrite !alter_alter_eq. done.
Qed.

Lemma locked_file l m l' i f : file_at (locked l m) l' i f <-> file_at m l' i f.
Proof.
  unfold file_at, locked. destruct (decide (l = l')) as [<-|Hne]; [|by rewrite lookup_alter_ne]. rewrite lookup_alter_eq.
  destruct (m !! l) as [fl|]; simpl; [|split; by intros (? & ? & _)]. split; intros (? & [= <-] & H); eexists; (split; [done|]); done.
Qed.

Lemma locked_opens l m x : opens (locked l m) x = opens m x.
Proof. by apply opens_meta. Qed.

(** ** References that change hands *)

Definition bump (x : ptr) (d : Z) (held : Z -> Z) : Z -> Z := fun y => if decide (y = x) then held y + d else held y.

Lemma bump_eq x d held : bump x d held x = held x + d.
Proof. unfold bump. by rewrite decide_True. Qed.

Lemma bump_ne x d held y : y <> x -> bump x d held y = held y.
Proof. intros. unfold bump. by rewrite decide_False. Qed.

(** ** The interface of drivers *)

(** A method does not change which inode the file refers to, nor its flags. *)
Definition keeps {D A : Type} (f : method D A) : Prop :=
  forall n fl d, f_inode (f n fl d).1.2 = f_inode fl /\ f_oflags (f n fl d).1.2 = f_oflags fl.

Definition each {A} (o : option A) (P : A -> Prop) : Prop := forall a, o = Some a -> P a.

Record keeps_ops {D : Type} (t : file_operations D) : Prop := KeepsOps {
  ko_open : each (op_open t) (fun f => forall a, keeps (f a));
  ko_close : each (op_close t) keeps;
  ko_read : each (op_read t) (fun f => forall n, keeps (f n));
  ko_write : each (op_write t) (fun f => forall b n, keeps (f b n));
  ko_seek : each (op_seek t) (fun f => forall o w, keeps (f o w));
  ko_ioctl : each (op_ioctl t) (fun f => forall r a, keeps (f r a));
  ko_sync : each (op_sync t) keeps
}.

Class DriversOk (D : Type) {DR : Drivers D} : Prop := { fops_keep : forall a t, fops a = Some t -> keeps_ops t }.

(** The inode can be opened, or could if its table of methods were not null. *)
Definition openable (n : inode) : bool := INODE_IS_DRIVER n || INODE_IS_MOUNTPT n.

Section spec.
  Context {HT D : Type} {HK : KHeap HT} {HKS : KHeapSpec HT} {DR : Drivers D} {DO : DriversOk D} {FC : FilesConfig}.
  Implicit Types (s : vfs HT D).

(** ** The invariant of the inodes and the lists *)

(** The tree, the removed inodes and the blocks of the lists in the heap. *)
Record fview : Type := FView { w_tree : forest; w_gone : list forest; w_blocks : list (Z * Z) }.
Definition with_gone (g : list forest) (w : fview) : fview := FView (w_tree w) g (w_blocks w).

Abbreviation nodes s := (f_nodes (v_fs s)).

Definition tree_ok (f : fs_sys HT) (w : fview) : Prop := @fs_ok HT HK (framed (w_blocks w)) f (w_tree w) (w_gone w).

(** Removed inodes are leaves: nothing else goes away with them. *)
Definition leaf (f : forest) : Prop := exists x nm, f = FNode x nm FNil FNil.

Record files_core (held : Z -> Z) s (w : fview) : Prop := FilesCore {
  fc_fs : tree_ok (v_fs s) w;
  fc_sem : tree_sem (v_fs s) = 1;
  fc_leaf : Forall leaf (w_gone w);
  fc_blocks : NoDup (w_blocks w).*1 /\ (forall b, b ∈ w_blocks w -> b.1 <> NULL /\ 0 < b.2) /\ (forall l, is_Some (v_lists s !! l) <-> l ∈ (w_blocks w).*1);
  fc_length : forall l fl, v_lists s !! l = Some fl -> Z.of_nat (length (fl_files fl)) = CONFIG_NFILE_DESCRIPTORS;
  fc_open : forall l i f, file_at (v_lists s) l i f -> f_inode f <> NULL -> exists n, nodes s !! f_inode f = Some n /\ openable n = true;
  fc_refs : forall x n, nodes s !! x = Some n -> i_crefs n = opens (v_lists s) x + held x;
  fc_held : forall x, 0 <= held x /\ (0 < held x -> is_Some (nodes s !! x));
  fc_ops : forall x n, nodes s !! x = Some n -> openable n = true -> i_ops n = 0 \/ is_Some (fops (i_ops n))
}.

Lemma list_nonnull held s w l fl : files_core held s w -> v_lists s !! l = Some fl -> l <> NULL.
Proof.
  intros [_ _ _ (_ & B & C) _ _ _ _ _] El. assert (l ∈ (w_blocks w).*1) as Hl by (apply C; eauto).
  apply list_elem_of_fmap in Hl as (b & -> & Hb). by apply B.
Qed.

Lemma fs_nonnull (HS : KHeapSpec HT) f t gone x n : fs_ok f t gone -> f_nodes f !! x = Some n -> x <> NULL.
Proof.
  intros [[A _ C _ E _] _] En. assert (x ∈ live t gone) as Hx by (apply E; eauto). apply elem_of_app in Hx as [Hx|Hx]; [by apply (frepr_lookup _ _ _ _ A Hx)|].
  apply list_elem_of_bind in Hx as (g & Hx & Hg). destruct (C g Hg) as (y & nm & c & -> & Hr). by apply (frepr_lookup _ _ _ _ Hr Hx).
Qed.

Lemma node_nonnull held s w x n : files_core held s w -> nodes s !! x = Some n -> x <> NULL.
Proof. intros HC. by apply (fs_nonnull _ _ _ _ _ _ (fc_fs _ _ _ HC)). Qed.

(** A descriptor in range. *)
Lemma file_in_range held s w l fl fd : files_core held s w -> v_lists s !! l = Some fl -> fd_range fd = true -> exists f, file_at (v_lists s) l fd f.
Proof.
  intros HC El Hr. apply andb_true_iff in Hr as [H1%Z.leb_le H2%Z.ltb_lt]. pose proof (fc_length _ _ _ HC l fl El) as Hl.
  destruct (lookup_lt_is_Some_2 (fl_files fl) (Z.to_nat fd)) as [f Hf]; [lia|]. exists f, fl. done.
Qed.

Lemma file_range held s w l fd f : files_core held s w -> file_at (v_lists s) l fd f -> fd_range fd = true.
Proof.
  intros HC (fl & El & Hi & Hf). pose proof (fc_length _ _ _ HC l fl El) as Hl. apply lookup_lt_Some in Hf.
  apply andb_true_iff. split; [apply Z.leb_le; lia|apply Z.ltb_lt; lia].
Qed.

(** ** Reading and writing an element *)

Lemma get_file_ok held s w l i f : files_core held s w -> file_at (v_lists s) l i f -> get_file l i s = Ok f.
Proof.
  intros HC (fl & El & Hi & Hf). unfold get_file. rewrite (deref_Some _ _ fl (list_nonnull _ _ _ _ _ HC El) El). simpl.
  rewrite (proj2 (Z.ltb_ge i 0)) by done. by rewrite Hf.
Qed.

Lemma put_file_ok held s w l i f g : files_core held s w -> file_at (v_lists s) l i f -> put_file g l i s = Ok (with_lists (upd_file l i g (v_lists s)) s).
Proof.
  intros HC Hf. unfold put_file. rewrite (get_file_ok held s w l i f HC Hf). destruct Hf as (fl & El & _). simpl.
  rewrite store_valid; [done|]. split; [by eapply list_nonnull|eauto].
Qed.

Lemma core_upd held held' s w l i f g :
  files_core held s w -> file_at (v_lists s) l i f ->
  (f_inode (g f) <> NULL -> exists n, nodes s !! f_inode (g f) = Some n /\ openable n = true) ->
  (forall x, x <> NULL -> held' x = held x + refers x f - refers x (g f)) ->
  (forall x, 0 <= held' x /\ (0 < held' x -> is_Some (nodes s !! x))) ->
  files_core held' (with_lists (upd_file l i g (v_lists s)) s) w.
Proof.
  intros HC Hf Hg Hh Hh'. pose proof HC as [A B C (D1 & D2 & D3) E F G I J]. split; try done; simpl.
  - split; [done|]. split; [done|]. intros l'. rewrite <-D3. unfold upd_file. rewrite lookup_alter_is_Some. done.
  - intros l' fl'. unfold upd_file. rewrite lookup_alter. case_decide; [subst|by apply E]. destruct (v_lists s !! l') as [fl|] eqn:El; [|done].
    intros [= <-]. simpl. rewrite length_alter. by apply (E l').
  - intros l' i' f' Hf'. destruct Hf as (fl & El & Hi & Hf0). assert (file_at (v_lists s) l i f) as Hf by by exists fl.
    destruct (decide ((l', i') = (l, i))) as [[= -> ->]|Hne].
    + apply (file_at_upd _ _ _ g) in Hf. rewrite (file_at_inj _ _ _ _ _ Hf' Hf). done.
    + apply file_at_upd_ne in Hf'; [|done|done]. by eapply F.
  - intros x n En. rewrite (opens_upd _ _ _ _ f) by done. rewrite (G x n En), Hh; [lia|by eapply node_nonnull].
Qed.

(** An open file gives its reference up. *)
Lemma core_clear held s w l i f g :
  files_core held s w -> file_at (v_lists s) l i f -> f_inode f <> NULL -> f_inode (g f) = NULL ->
  files_core (bump (f_inode f) 1 held) (with_lists (upd_file l i g (v_lists s)) s) w.
Proof.
  intros HC Hf Hx Hg. eapply core_upd; [done|done|by rewrite Hg| |].
  - intros x Hx0. unfold bump, refers. rewrite Hg. rewrite (decide_False (P := NULL = x)) by congruence. repeat case_decide; try congruence; lia.
  - intros x. pose proof (fc_held _ _ _ HC x) as [H1 H2]. unfold bump. case_decide; [subst|done]. split; [lia|]. intros _.
    destruct (fc_open _ _ _ HC l i f Hf Hx) as (n & En & _). eauto.
Qed.

(** A free file takes a reference. *)
Lemma core_fill held s w l i f g x n :
  files_core (bump x 1 held) s w -> 0 <= held x -> file_at (v_lists s) l i f -> f_inode f = NULL -> f_inode (g f) = x ->
  nodes s !! x = Some n -> openable n = true -> files_core held (with_lists (upd_file l i g (v_lists s)) s) w.
Proof.
  intros HC Hh Hf Hx Hg En Ho. eapply core_upd; [done|done|rewrite Hg; eauto| |].
  - intros y Hy. unfold bump, refers. rewrite Hg, Hx. rewrite (decide_False (P := NULL = y)) by congruence. repeat case_decide; try congruence; lia.
  - intros y. pose proof (fc_held _ _ _ HC y) as [H1 H2]. destruct (decide (y = x)) as [->|Hne]; [split; [done|eauto]|by rewrite bump_ne in H1, H2 by done].
Qed.

Lemma core_same held s w l i f g :
  files_core held s w -> file_at (v_lists s) l i f -> f_inode (g f) = f_inode f -> files_core held (with_lists (upd_file l i g (v_lists s)) s) w.
Proof.
  intros HC Hf Hg. eapply core_upd; [done|done|rewrite Hg; by eapply fc_open|intros x _; unfold refers; rewrite Hg; lia|by apply (fc_held _ _ _ HC)].
Qed.

(** The rest of a list, the tasks and the drivers are not part of it. *)
Lemma core_meta held s w l h : (forall fl, fl_files (h fl) = fl_files fl) -> files_core held s w -> files_core held (with_lists (alter h l (v_lists s)) s) w.
Proof.
  intros Hh HC. pose proof HC as [A B C (D1 & D2 & D3) E F G I J]. split; try done; simpl.
  - split; [done|]. split; [done|]. intros l'. rewrite lookup_alter_is_Some. done.
  - intros l' fl'. rewrite lookup_alter. case_decide; [subst|by apply E]. destruct (v_lists s !! l') as [fl|] eqn:El; [|done].
    intros [= <-]. rewrite Hh. by apply (E l').
  - intros l' i' f' (fl' & El' & Hi & Hf). rewrite lookup_alter in El'. case_decide; [subst|by apply (F l' i'); exists fl'].
    destruct (v_lists s !! l') as [fl|] eqn:El; [|done]. injection El' as <-. rewrite Hh in Hf. apply (F l' i'). by exists fl.
  - intros x n En. by rewrite opens_meta, (G x n En).
Qed.

Lemma core_drv held s w d : files_core held s w -> files_core held (with_drv d s) w.
Proof. intros [A B C E F G I J K]. by split. Qed.

Lemma core_tasks held s w m : files_core held s w -> files_core held (with_tasks m s) w.
Proof. intros [A B C E F G I J K]. by split. Qed.

Lemma core_held held held' s w : (forall x, held' x = held x) -> files_core held s w -> files_core held' s w.
Proof.
  intros He [A B C E F G I J K]. split; try done.
  - intros x n En. rewrite He. by apply I.
  - intros x. rewrite He. apply J.
Qed.
(** ** References *)

Lemma refs_lookup d x (m m' : gmap Z inode) y : refs_by d x m m' -> is_Some (m' !! y) <-> is_Some (m !! y).
Proof. intros H. rewrite (H y). case_decide; [by rewrite fmap_is_Some|done]. Qed.

Lemma refs_node d x (m m' : gmap Z inode) y n' :
  refs_by d x m m' -> m' !! y = Some n' -> exists n, m !! y = Some n /\ n' = (if decide (y = x) then set_i_crefs (i_crefs n + d) n else n).
Proof. intros H E. rewrite (H y) in E. case_decide; [|eauto]. destruct (m !! y) as [n|]; [|done]. injection E as <-. eauto. Qed.

(** The count of references follows [held]. *)
Lemma core_refs held held' s w f x d :
  files_core held s w -> tree_ok f w -> tree_sem f = 1 -> refs_by d x (nodes s) (f_nodes f) ->
  (forall y, is_Some (nodes s !! y) -> held' y = bump x d held y) -> (forall y, 0 <= held' y /\ (0 < held' y -> is_Some (nodes s !! y))) ->
  files_core held' (with_fs f s) w.
Proof.
  intros HC Hok Hs Hr Hh Hh'. pose proof HC as [A B C E F G I J K]. split; try done; simpl.
  - intros l i g Hg Hx. destruct (G l i g Hg Hx) as (n & En & Ho). rewrite (Hr (f_inode g)). case_decide; [rewrite En; eexists; by split|eauto].
  - intros y n' (n & En & ->)%(refs_node _ _ _ _ _ _ Hr). rewrite Hh by eauto. unfold bump. case_decide; [subst|by apply I]. simpl. rewrite (I x n En). lia.
  - intros y. destruct (Hh' y) as [H1 H2]. split; [done|]. intros Hy. apply (refs_lookup _ _ _ _ _ Hr). by apply H2.
  - intros y n' (n & En & ->)%(refs_node _ _ _ _ _ _ Hr). case_decide; exact (K y n En).
Qed.

Lemma addref_core held s w x n :
  files_core held s w -> nodes s !! x = Some n -> i_crefs n < SEM_VALUE_MAX ->
  wp (addref x s) (fun s' => exists f, s' = with_fs f s /\ refs_by 1 x (nodes s) (f_nodes f) /\ files_core (bump x 1 held) s' w).
Proof.
  intros HC En Hn. unfold addref. apply wp_bind.
  eapply wp_mono; [apply (@addref_ok HT HK (framed (w_blocks w)) (v_fs s) (w_tree w) (w_gone w) x n); [apply HC|apply HC|by eapply node_nonnull|done|done]|].
  intros f (Hok & Hs & Hr). apply wp_ret. exists f. split; [done|]. split; [done|]. eapply core_refs; try done.
  intros y. pose proof (fc_held _ _ _ HC y) as [H1 H2]. unfold bump. case_decide; [subst; split; [lia|eauto]|done].
Qed.

(** One reference less; a removed inode goes with the last one. *)
Definition unref (x : ptr) (m : gmap Z inode) : gmap Z inode :=
  match m !! x with
  | Some n => if deleted n && (i_crefs n =? 1) then delete x m else alter (set_i_crefs (i_crefs n - 1)) x m
  | None => m
  end.

Lemma gone_delete (f f' : fs_sys HT) w x nm c gone' :
  tree_ok f w -> Forall leaf (w_gone w) -> w_gone w ≡ₚ FNode x nm c FNil :: gone' -> tree_ok f' (with_gone gone' w) -> f_nodes f' ⊆ f_nodes f ->
  f_nodes f' = delete x (f_nodes f) /\ Forall leaf gone'.
Proof.
  intros [HS _] Hl Hg [HS' _] Hsub. rewrite Hg in Hl. apply Forall_cons in Hl as [(x' & nm' & [= -> -> ->]) Hl]. split; [|done].
  assert (live (w_tree w) (w_gone w) ≡ₚ x' :: live (w_tree w) gone') as Hlv.
  { unfold live. rewrite Hg. simpl. by rewrite <-Permutation_middle. }
  pose proof (fo_nodup _ _ _ HS) as Hnd. rewrite Hlv in Hnd. apply NoDup_cons in Hnd as [Hx _].
  apply map_eq. intros y. rewrite lookup_delete. case_decide as E.
  - subst y. apply eq_None_not_Some. intros Hs. apply Hx. by apply (fo_dom _ _ _ HS').
  - destruct (f_nodes f !! y) as [n|] eqn:En.
    + assert (y ∈ live (w_tree w) gone') as Hy.
      { assert (y ∈ live (w_tree w) (w_gone w)) as Hy by (apply (fo_dom _ _ _ HS); eauto). rewrite Hlv in Hy. set_solver. }
      apply (fo_dom _ _ _ HS') in Hy as [n' En']. pose proof (lookup_weaken _ _ _ _ En' Hsub). congruence.
    + destruct (f_nodes f' !! y) eqn:En'; [|done]. pose proof (lookup_weaken _ _ _ _ En' Hsub). congruence.
Qed.

Lemma core_delete held s w f gone' x n :
  files_core (bump x 1 held) s w -> (forall y, 0 <= held y) -> nodes s !! x = Some n -> i_crefs n = 1 ->
  tree_ok f (with_gone gone' w) -> tree_sem f = 1 -> Forall leaf gone' -> f_nodes f = delete x (nodes s) -> files_core held (with_fs f s) (with_gone gone' w).
Proof.
  intros HC Hh En Ec Hok Hs Hl Hd. pose proof HC as [A B C E F G I J K]. pose proof (I x n En) as Hx. rewrite bump_eq in Hx.
  pose proof (opens_nonneg (v_lists s) x) as Ho. specialize (Hh x) as Hhx. assert (opens (v_lists s) x = 0 /\ held x = 0) as [Ho0 Hx0] by lia.
  split; try done; simpl; rewrite ?Hd.
  - intros l i g Hg Hgx. destruct (G l i g Hg Hgx) as (m & Em & Hm). exists m. rewrite lookup_delete_ne; [done|]. intros ->.
    destruct Hg as (fl & El & _ & Hf). pose proof (opens_ge _ _ _ _ _ _ El Hf eq_refl). lia.
  - intros y m Em. apply lookup_delete_Some in Em as [Hne Em]. rewrite (I y m Em). by rewrite bump_ne.
  - intros y. split; [done|]. intros Hy. destruct (decide (y = x)) as [->|Hne]; [lia|]. rewrite lookup_delete_ne by done.
    apply (J y). by rewrite bump_ne.
  - intros y m Em. apply lookup_delete_Some in Em as [Hne Em]. by apply (K y).
Qed.

Lemma release_core held s w me x :
  files_core (bump x 1 held) s w -> (forall y, 0 <= held y) -> 0 <= me ->
  wp (release me x s) (fun s' => exists f gone', s' = with_fs f s /\ f_nodes f = unref x (nodes s) /\ files_core held s' (with_gone gone' w)).
Proof.
  intros HC Hh Hme. pose proof (fc_held _ _ _ HC x) as [_ Hx]. rewrite bump_eq in Hx. specialize (Hh x) as Hhx. destruct Hx as [n En]; [lia|].
  pose proof (fc_refs _ _ _ HC x n En) as Hc. rewrite bump_eq in Hc. pose proof (opens_nonneg (v_lists s) x) as Ho.
  unfold release. apply wp_bind.
  eapply wp_mono; [apply (@release_ok HT HK (framed (w_blocks w)) (v_fs s) (w_tree w) (w_gone w) me x n); [apply HC|apply HC|by eapply node_nonnull|done|done]|].
  intros f (Hs & Hr). apply wp_ret. unfold released in Hr. rewrite (proj2 (Z.eqb_neq (i_crefs n) 0)) in Hr by lia. unfold unref. rewrite En.
  destruct (deleted n && (i_crefs n =? 1)) eqn:Ed.
  - apply andb_true_iff in Ed as [_ Ed%Z.eqb_eq]. destruct Hr as (Hsub & nm & c & gone' & Hg & Hok).
    destruct (gone_delete (v_fs s) f w x nm c gone' (fc_fs _ _ _ HC) (fc_leaf _ _ _ HC) Hg Hok Hsub) as [Hd Hl]. exists f, gone'. split; [done|]. split; [done|].
    by eapply core_delete.
  - destruct Hr as [Hok Hr]. exists f, (w_gone w). split; [done|]. split.
    + apply map_eq. intros y. rewrite (Hr y), lookup_alter. destruct (decide (x = y)) as [<-|Hne]; [by rewrite decide_True, En|by rewrite decide_False].
    + assert (with_gone (w_gone w) w = w) as -> by by destruct w. eapply (core_refs _ _ _ _ _ x (-1)); try done.
      * intros y _. unfold bump. case_decide; lia.
      * intros y. split; [done|]. intros Hy. apply (fc_held _ _ _ HC y). unfold bump. case_decide; lia.
Qed.
(** ** Other changes of the tree *)

(** Inodes that stay keep what matters here, new ones have no references, and
    only inodes without references go. *)
Record nodes_step (m m' : gmap Z inode) : Prop := NodesStep {
  ns_new : forall y n', m' !! y = Some n' ->
    (exists n, m !! y = Some n /\ i_crefs n' = i_crefs n /\ i_ops n' = i_ops n /\ openable n' = openable n)
    \/ (m !! y = None /\ i_crefs n' = 0 /\ (i_ops n' = 0 \/ is_Some (fops (i_ops n'))));
  ns_old : forall y n, m !! y = Some n -> is_Some (m' !! y) \/ i_crefs n = 0
}.

Lemma held_zero held s w x n : files_core held s w -> nodes s !! x = Some n -> i_crefs n = 0 -> opens (v_lists s) x = 0 /\ held x = 0.
Proof.
  intros HC En E. pose proof (fc_refs _ _ _ HC x n En). pose proof (opens_nonneg (v_lists s) x). pose proof (fc_held _ _ _ HC x) as [? _]. lia.
Qed.

Lemma core_nodes held s w f w' :
  files_core held s w -> tree_ok f w' -> tree_sem f = 1 -> Forall leaf (w_gone w') -> w_blocks w' = w_blocks w -> nodes_step (nodes s) (f_nodes f) ->
  files_core held (with_fs f s) w'.
Proof.
  intros HC Hok Hs Hl Hb [N1 N2]. pose proof HC as [A B C E F G I J K]. split; try done; simpl; [by rewrite Hb|..].
  - intros l i g Hg Hx. destruct (G l i g Hg Hx) as (n & En & Ho). destruct (N2 _ n En) as [[n' En']|E0].
    + exists n'. split; [done|]. destruct (N1 _ n' En') as [(n0 & En0 & _ & _ & Ho')|(En0 & _)]; [|congruence]. simplify_eq. congruence.
    + destruct (held_zero _ _ _ _ _ HC En E0) as [H0 _]. destruct Hg as (fl & El & _ & Hf). pose proof (opens_ge _ _ _ _ _ _ El Hf eq_refl). lia.
  - intros x n' En'. destruct (N1 x n' En') as [(n & En & Ec & _)|(En & Ec & _)]; [rewrite Ec; by apply I|].
    assert (held x = 0) as Hh0.
    { destruct (J x) as [H1 H2]. destruct (decide (held x = 0)) as [|Hne]; [done|]. destruct H2 as [? ?]; [lia|congruence]. }
    rewrite Ec, Hh0. unfold opens. rewrite msum_zero; [done|]. intros l fl El. apply refs_in_none. intros i g Hgi Hx.
    assert (file_at (v_lists s) l (Z.of_nat i) g) as Hat by (exists fl; split; [done|]; split; [lia|by rewrite Nat2Z.id]).
    destruct (G l _ g Hat) as (n0 & En0 & _); [rewrite Hx; exact (fs_nonnull _ _ _ _ _ _ Hok En')|]. rewrite Hx in En0. congruence.
  - intros x. destruct (J x) as [H1 H2]. split; [done|]. intros Hx. destruct (H2 Hx) as [n En]. destruct (N2 x n En) as [?|E0]; [done|].
    destruct (held_zero _ _ _ _ _ HC En E0). lia.
  - intros x n' En' Ho. destruct (N1 x n' En') as [(n & En & _ & Eo & Ho')|(_ & _ & H)]; [|done]. rewrite Eo. apply (K x n En). congruence.
Qed.

End spec.
