(* ===== verification/FilesCalls.v ===== *)
(** * Open files: the calls

    What each operation on open files does to the lists, the references of the
    inodes and the drivers, on every branch, with the invariant kept. *)

From S2P Require Import Prelude Queue Sched Sem KHeap Inode InodeTree InodeSpec InodeThm Files FilesSpec.

Section calls.
  Context {HT D : Type} {HK : KHeap HT} {HKS : KHeapSpec HT} {DR : Drivers D} {DO : DriversOk D} {FC : FilesConfig}.
  Implicit Types (s : vfs HT D).

Abbreviation nodes s := (f_nodes (v_fs s)).

(** ** Methods *)

Definition meth {A} (sel : file_operations D -> option A) (n : inode) : option A := if i_ops n =? 0 then None else fops (i_ops n) ≫= sel.

(** A method that is not there returns OK and changes nothing. *)
Definition run_method (o : option (method D Z)) (n : inode) (f : file) (d : D) : Z * file * D :=
  match o with Some m => m n f d | None => (0, f, d) end.

Lemma find_method_ok {A} (sel : file_operations D -> option A) held s w x n :
  files_core held s w -> nodes s !! x = Some n -> openable n = true -> find_method sel n = Ok (meth sel n).
Proof.
  intros HC En Ho. unfold find_method, meth. destruct (Z.eqb_spec (i_ops n) 0) as [E|E]; [done|].
  destruct (fc_ops _ _ _ HC x n En Ho) as [?|[t Et]]; [done|]. by rewrite Et.
Qed.

Lemma meth_keeps {A} (sel : file_operations D -> option A) (P : A -> Prop) n :
  (forall t, keeps_ops t -> each (sel t) P) -> each (meth sel n) P.
Proof.
  intros H a E. unfold meth in E. destruct (i_ops n =? 0); [done|]. destruct (fops (i_ops n)) as [t|] eqn:Et; [|done].
  by apply (H t (fops_keep _ _ Et)).
Qed.

Lemma call_ok {A} (m : method D A) held s w l i f n :
  files_core held s w -> file_at (v_lists s) l i f ->
  call m n l i s = Ok ((m n f (v_drv s)).1.1, with_drv (m n f (v_drv s)).2 (with_lists (upd_file l i (fun _ => (m n f (v_drv s)).1.2) (v_lists s)) s)).
Proof.
  intros HC Hf. unfold call. rewrite (get_file_ok held s w l i f HC Hf). cbn [mbind res_bind]. destruct (m n f (v_drv s)) as [[r f'] d].
  by rewrite (put_file_ok held s w l i f _ HC Hf).
Qed.

Lemma upd_file_id m l i f : file_at m l i f -> upd_file l i (fun _ => f) m = m.
Proof.
  intros (fl & E & _ & Hf). apply map_eq. intros k. unfold upd_file. rewrite lookup_alter. case_decide; [subst|done]. rewrite E. simpl. f_equal.
  destruct fl as [c r fs]. unfold set_fl_files. simpl in *. f_equal. rewrite <-list_insert_alter. by apply list_insert_id.
Qed.

Lemma opt_call_ok (o : option (method D Z)) held s w l i f n r f' d :
  files_core held s w -> file_at (v_lists s) l i f -> run_method o n f (v_drv s) = (r, f', d) ->
  match o with Some m => call m n l i s | None => Ok (0, s) end = Ok (r, with_drv d (with_lists (upd_file l i (fun _ => f') (v_lists s)) s)).
Proof.
  intros HC Hf E. destruct o as [m|]; simpl in E.
  - rewrite (call_ok m held s w l i f n HC Hf). by rewrite E.
  - injection E as <- <- <-. rewrite upd_file_id by done. by destruct s.
Qed.

Lemma run_keeps (o : option (method D Z)) n f d : each o keeps -> f_inode (run_method o n f d).1.2 = f_inode f /\ f_oflags (run_method o n f d).1.2 = f_oflags f.
Proof. intros H. destruct o as [m|]; [by apply (H m)|done]. Qed.

(** ** Semaphores and errno *)

Lemma semtake_ok held s w l fl : files_core held s w -> v_lists s !! l = Some fl -> fl_sem fl = 1 -> _files_semtake l s = Ok (with_lists (locked l (v_lists s)) s).
Proof.
  intros HC El Hs. pose proof (list_nonnull _ _ _ _ _ HC El) as Hl. unfold _files_semtake. rewrite (deref_Some _ _ fl Hl El). simpl. rewrite Hs.
  by rewrite store_valid by (split; eauto).
Qed.

Lemma semgive_ok held s w l m fl :
  files_core held s w -> v_lists s = locked l m -> m !! l = Some fl -> fl_sem fl = 1 -> _files_semgive l s = Ok (with_lists m s).
Proof.
  intros HC Em El Hs. assert (v_lists s !! l = Some (set_fl_sem 0 fl)) as El' by (rewrite Em; unfold locked; by rewrite lookup_alter_eq, El).
  pose proof (list_nonnull _ _ _ _ _ HC El') as Hl. unfold _files_semgive. rewrite (deref_Some _ _ _ Hl El'). simpl. rewrite store_valid by (split; eauto).
  simpl. do 2 f_equal. rewrite Em. unfold locked. rewrite alter_alter_eq. apply map_eq. intros k. rewrite lookup_alter. case_decide as Ek; [subst k|done].
  rewrite El. destruct fl as [c r fs]. simpl in *. by subst c.
Qed.

Definition set_err (me e : Z) (m : gmap Z ftask) : gmap Z ftask := alter (fun t => FTask (t_filelist t) e) me m.

Lemma put_errno_ok s me e t : v_tasks s !! me = Some t -> put_errno me e s = Ok (with_tasks (set_err me e (v_tasks s)) s).
Proof.
  intros Et. unfold put_errno, task_of. rewrite Et. simpl. do 2 f_equal. unfold set_err. apply map_eq. intros k. destruct (decide (me = k)) as [<-|].
  - by rewrite lookup_insert_eq, lookup_alter_eq, Et.
  - by rewrite lookup_insert_ne, lookup_alter_ne.
Qed.

Lemma errout_ok s me e t : v_tasks s !! me = Some t -> errout me e s = Ok (-1, with_tasks (set_err me e (v_tasks s)) s).
Proof. intros Et. unfold errout. by rewrite (put_errno_ok s me e t Et). Qed.

(** ** Closing a file *)

(** The inode is released and the file cleared. *)
Lemma release_clear held s w me l i f :
  files_core held s w -> file_at (v_lists s) l i f -> f_inode f <> NULL -> 0 <= me ->
  wp (s1 ← release me (f_inode f) s; put_file (set_f_open 0 0 NULL) l i s1) (fun s' => exists fs gone',
    s' = with_lists (upd_file l i (fun _ => File 0 0 NULL (f_priv f)) (v_lists s)) (with_fs fs s) /\ f_nodes fs = unref (f_inode f) (nodes s)
    /\ files_core held s' (with_gone gone' w)).
Proof.
  intros HC Hf Hx Hme. pose proof (core_clear held s w l i f (set_f_open 0 0 NULL) HC Hf Hx eq_refl) as HC2.
  pose proof (release_core held _ w me (f_inode f) HC2 (fun y => proj1 (fc_held _ _ _ HC y)) Hme) as Hrel.
  unfold release in *. cbn [v_fs with_lists] in Hrel. destruct (inode_release me (f_inode f) (v_fs s)) as [fs'|]; [|done].
  cbn [mbind res_bind wp] in *. destruct Hrel as (fs2 & gone' & E & En' & HC3). apply (f_equal v_fs) in E. simpl in E. subst fs2.
  unfold put_file. assert (get_file l i (with_fs fs' s) = Ok f) as -> by exact (get_file_ok held s w l i f HC Hf). cbn [mbind res_bind].
  pose proof Hf as (fl & El & _). rewrite store_valid by (split; [by eapply (list_nonnull held s)|simpl; eauto]). apply wp_ret.
  exists fs', gone'. assert (upd_file l i (fun _ => File 0 0 NULL (f_priv f)) (v_lists s) = upd_file l i (set_f_open 0 0 NULL) (v_lists s)) as ->
    by (symmetry; by rewrite (upd_file_const _ _ _ f)).
  done.
Qed.

Lemma fclose_ok held s w me l i f :
  files_core held s w -> file_at (v_lists s) l i f -> 0 <= me ->
  wp (_files_close me l i s) (fun '(ret, s') => exists w', w_tree w' = w_tree w /\ w_blocks w' = w_blocks w /\ files_core held s' w' /\
    if decide (f_inode f = NULL) then ret = 0 /\ s' = s
    else exists n fs', nodes s !! f_inode f = Some n /\ f_nodes fs' = unref (f_inode f) (nodes s)
      /\ let '(r, f1, d) := run_method (meth op_close n) n f (v_drv s) in
         ret = r /\ s' = with_drv d (with_lists (upd_file l i (fun _ => File 0 0 NULL (f_priv f1)) (v_lists s)) (with_fs fs' s))).
Proof.
  intros HC Hf Hme. unfold _files_close. rewrite (get_file_ok _ _ _ _ _ _ HC Hf). cbn [mbind res_bind].
  destruct (decide (f_inode f = NULL)) as [Hx|Hx]; [apply wp_ret; by exists w|].
  destruct (fc_open _ _ _ HC l i f Hf Hx) as (n & En & Ho). rewrite (deref_Some _ _ n Hx En). cbn [mbind res_bind].
  rewrite (find_method_ok op_close held s w _ n HC En Ho). cbn [mbind res_bind].
  destruct (run_method (meth op_close n) n f (v_drv s)) as [[r f1] d] eqn:Er.
  rewrite (opt_call_ok _ _ _ _ _ _ _ _ _ _ _ HC Hf Er). cbn [mbind res_bind].
  assert (f_inode f1 = f_inode f) as Hf1.
  { pose proof (run_keeps (meth op_close n) n f (v_drv s)) as [H _]; [exact (meth_keeps op_close keeps n ko_close)|]. by rewrite Er in H. }
  set (s1 := with_drv d _). assert (files_core held s1 w) as HC1 by (apply core_drv; by eapply core_same).
  assert (file_at (v_lists s1) l i f1) as Hat1 by by apply (file_at_upd _ _ _ (fun _ => f1)) in Hf.
  rewrite <-Hf1 in Hx |- *. pose proof (release_clear held s1 w me l i f1 HC1 Hat1 Hx Hme) as Hrel.
  destruct (release me (f_inode f1) s1) as [s2|]; [|done]. cbn [mbind res_bind] in *. destruct (put_file _ l i s2) as [s3|]; [|done]. cbn [mbind res_bind wp] in *.
  destruct Hrel as (fs & gone' & -> & En' & HC3). exists (with_gone gone' w). split; [done|]. split; [done|]. split; [exact HC3|].
  exists n, fs. split; [by rewrite Hf1|]. split; [exact En'|]. rewrite Er. split; [done|].
  unfold s1. cbn. f_equal. f_equal. by rewrite upd_file_twice.
Qed.
(** ** The invariant *)

(** The lock of a list is free, and the tasks that share it are counted. *)
Definition tasks_ok (m : gmap Z filelist) (tk : gmap Z ftask) : Prop :=
  (forall l fl, m !! l = Some fl -> fl_sem fl = 1 /\ fl_crefs fl = sharers tk l /\ 0 < fl_crefs fl <= SEM_VALUE_MAX)
  /\ (forall p t, tk !! p = Some t -> t_filelist t = NULL \/ is_Some (m !! t_filelist t)).

Definition files_inv (held : Z -> Z) s (w : fview) : Prop := files_core held s w /\ tasks_ok (v_lists s) (v_tasks s).

Lemma tasks_upd m tk l i g : tasks_ok m tk -> tasks_ok (upd_file l i g m) tk.
Proof.
  intros [H1 H2]. unfold upd_file. split.
  - intros l' fl'. rewrite lookup_alter. case_decide; [subst|apply H1]. destruct (m !! l') as [fl|] eqn:E; [|done]. intros [= <-]. exact (H1 l' fl E).
  - intros p t Et. rewrite lookup_alter_is_Some. by apply (H2 p).
Qed.

Lemma tasks_err m tk me e : tasks_ok m tk -> tasks_ok m (set_err me e tk).
Proof.
  intros [H1 H2]. split.
  - intros l fl El. destruct (H1 l fl El) as (A & B & C). split; [done|]. split; [|done]. rewrite B. unfold sharers, set_err.
    destruct (tk !! me) as [t|] eqn:E; [rewrite (msum_alter _ tk me t); [simpl; lia|done]|]. f_equal. apply map_eq. intros k. rewrite lookup_alter. case_decide; [subst; by rewrite E|done].
  - intros p t. unfold set_err. rewrite lookup_alter. case_decide; [subst|apply H2]. destruct (tk !! p) as [t0|] eqn:E; [|done]. intros [= <-]. exact (H2 p t0 E).
Qed.

Lemma inv_err held s w me e : files_inv held s w -> files_inv held (with_tasks (set_err me e (v_tasks s)) s) w.
Proof. intros [HC HT']. split; [by apply core_tasks|by apply tasks_err]. Qed.

(** The list of the calling task. *)
Lemma my_list held s w me t :
  files_inv held s w -> v_tasks s !! me = Some t -> t_filelist t <> NULL -> exists fl, v_lists s !! t_filelist t = Some fl /\ fl_sem fl = 1.
Proof. intros [_ [H1 H2]] Et Hl. destruct (H2 me t Et) as [?|[fl Efl]]; [done|]. exists fl. split; [done|]. by apply (H1 _ _ Efl). Qed.

Lemma getfiles_ok s me t : v_tasks s !! me = Some t -> sched_getfiles me s = Ok (t_filelist t).
Proof. intros Et. unfold sched_getfiles, task_of. by rewrite Et. Qed.

Lemma core_lock held s w l : files_core held s w -> files_core held (with_lists (locked l (v_lists s)) s) w.
Proof. by apply core_meta. Qed.

(** ** Allocating a descriptor *)

Definition free_fd (m : gmap Z filelist) (l : ptr) (fd : Z) : Prop := exists f, file_at m l fd f /\ f_inode f = NULL.
Definition lowest (m : gmap Z filelist) (l : ptr) (minfd fd : Z) : Prop := minfd <= fd /\ free_fd m l fd /\ forall j, minfd <= j < fd -> ~ free_fd m l j.

Lemma free_locked m l l' fd : free_fd (locked l m) l' fd <-> free_fd m l' fd.
Proof. unfold free_fd. by setoid_rewrite locked_file. Qed.

Lemma allocate_loop_ok n held s w l fl i x oflags pos minfd :
  files_core held s w -> v_lists s !! l = Some fl -> 0 <= minfd <= i -> n = Z.to_nat (CONFIG_NFILE_DESCRIPTORS - i) ->
  (forall j, minfd <= j < i -> ~ free_fd (v_lists s) l j) ->
  wp (allocate_loop n l i x oflags pos s) (fun '(fd, s') =>
    (fd = -1 /\ s' = s /\ forall j, minfd <= j -> ~ free_fd (v_lists s) l j)
    \/ (lowest (v_lists s) l minfd fd /\ s' = with_lists (upd_file l fd (set_f_open oflags pos x) (v_lists s)) s)).
Proof.
  intros HC El. revert i. induction n as [|n IH]; intros i Hi En Hfree; cbn [allocate_loop].
  - apply wp_ret. left. split; [done|]. split; [done|]. intros j Hj. destruct (decide (j < i)) as [?|Hge]; [apply Hfree; lia|].
    intros (f & Hf & _). apply (file_range _ _ _ _ _ _ HC) in Hf. apply andb_true_iff in Hf as [_ Hf%Z.ltb_lt]. lia.
  - destruct (file_in_range held s w l fl i HC El) as [f Hf]; [apply andb_true_iff; split; [apply Z.leb_le; lia|apply Z.ltb_lt; lia]|].
    rewrite (get_file_ok _ _ _ _ _ _ HC Hf). cbn [mbind res_bind]. destruct (decide (f_inode f = NULL)) as [Hx|Hx].
    + rewrite (put_file_ok _ _ _ _ _ _ _ HC Hf). apply wp_ret. right. split; [|done]. split; [lia|]. split; [by exists f|done].
    + apply IH; [lia|lia|]. intros j Hj. destruct (decide (j = i)) as [->|Hne]; [|apply Hfree; lia]. intros (f' & Hf' & Hx'). by rewrite (file_at_inj _ _ _ _ _ Hf' Hf) in Hx'.
Qed.

Lemma files_allocate_ok held s w me t fl x n oflags pos minfd :
  files_core (bump x 1 held) s w -> 0 <= held x -> v_tasks s !! me = Some t -> v_lists s !! t_filelist t = Some fl -> fl_sem fl = 1 -> 0 <= minfd ->
  nodes s !! x = Some n -> openable n = true ->
  wp (files_allocate me x oflags pos minfd s) (fun '(fd, s') =>
    (fd = -1 /\ s' = s /\ forall j, minfd <= j -> ~ free_fd (v_lists s) (t_filelist t) j)
    \/ (lowest (v_lists s) (t_filelist t) minfd fd /\ s' = with_lists (upd_file (t_filelist t) fd (set_f_open oflags pos x) (v_lists s)) s /\ files_core held s' w)).
Proof.
  intros HC Hh Et El Hs Hm En Ho. set (l := t_filelist t) in *. unfold files_allocate. rewrite (getfiles_ok s me t Et). cbn [mbind res_bind]. fold l.
  rewrite decide_False by by eapply list_nonnull. rewrite (semtake_ok _ _ _ _ _ HC El Hs). cbn [mbind res_bind].
  pose proof (core_lock _ _ _ l HC) as HC1. apply wp_bind.
  destruct (decide (minfd <= CONFIG_NFILE_DESCRIPTORS)) as [Hmn|Hmn].
  2:{ assert (Z.to_nat (CONFIG_NFILE_DESCRIPTORS - minfd) = O) as -> by lia. apply wp_ret. rewrite (semgive_ok _ _ _ _ _ _ HC1 eq_refl El Hs). apply wp_ret. left. split; [done|].
      split; [by destruct s|]. intros j Hj (f & Hf & _). apply (file_range _ _ _ _ _ _ HC) in Hf. apply andb_true_iff in Hf as [_ Hf%Z.ltb_lt]. lia. }
  eapply wp_mono; [eapply (allocate_loop_ok _ _ _ _ l _ minfd x oflags pos minfd HC1); [simpl; unfold locked; by rewrite lookup_alter_eq, El|lia|done|lia]|].
  intros [fd s2] [(-> & -> & Hno)|[Hlow ->]].
  - rewrite (semgive_ok _ _ _ _ _ _ HC1 eq_refl El Hs). apply wp_ret. left. split; [done|]. split; [by destruct s|]. intros j Hj Hf. apply (Hno j Hj). by apply free_locked.
  - cbn [v_lists with_lists]. change (v_lists (with_lists (locked l (v_lists s)) s)) with (locked l (v_lists s)) in *.
    assert (lowest (v_lists s) l minfd fd) as Hlow'.
    { destruct Hlow as (H1 & H2 & H3). split; [done|]. split; [by apply free_locked in H2|]. intros j Hj Hf. apply (H3 j Hj). by apply free_locked. }
    destruct Hlow' as (H1 & (f & Hf & Hx) & H3). rewrite locked_upd.
    pose proof (core_fill held s w l fd f (set_f_open oflags pos x) x n HC Hh Hf Hx eq_refl En Ho) as HC2.
    pose proof (core_lock _ _ _ l HC2) as HC3. cbn [v_lists with_lists] in HC3.
    assert (upd_file l fd (set_f_open oflags pos x) (v_lists s) !! l = Some (set_fl_files (alter (set_f_open oflags pos x) (Z.to_nat fd) (fl_files fl)) fl)) as El2
      by (unfold upd_file; by rewrite lookup_alter_eq, El).
    erewrite semgive_ok; [|exact HC3|done|exact El2|done]. apply wp_ret. right. split; [split; [done|]; split; [by exists f|done]|]. split; [done|exact HC2].
Qed.
(** ** Paths *)

Definition lookup_path (m : gmap Z inode) (t : forest) (path : list Z) : option (Z * list name) :=
  if bool_decide (head path = Some SLASH) then flookup (mountpt m) (names (tail path)) t else None.

Definition room s : Prop := map_Forall (fun _ n => i_crefs n < SEM_VALUE_MAX) (nodes s).

Lemma flookup_in mp l f x r : flookup mp l f = Some (x, r) -> x ∈ faddrs f.
Proof.
  revert l. induction f as [|y nm c IHc r' IHr]; intros l; simpl; [done|]. rewrite elem_of_cons, elem_of_app. destruct l as [|a l]; [done|].
  case_decide; [|intros H'%IHr; auto]. case_match; [intros [= -> _]; by left|intros H'%IHc; auto].
Qed.

Lemma tree_not_deleted (HS : KHeapSpec HT) f t gone x n : fs_ok f t gone -> x ∈ faddrs t -> f_nodes f !! x = Some n -> deleted n = false.
Proof.
  intros [HS1 HD] Hx En. destruct (deleted n) eqn:Ed; [|done]. apply (fo_deleted _ _ HD x n En) in Ed as (nm & c & Hin).
  pose proof (fo_nodup _ _ _ HS1) as Hnd. apply NoDup_app in Hnd as (_ & Hd & _). destruct (Hd x Hx). apply list_elem_of_bind. eexists. split; [|exact Hin]. left.
Qed.

Lemma find_core held s w path :
  files_core held s w -> room s ->
  wp (inode_find path (v_fs s)) (fun '(x, rest, f) =>
    match lookup_path (nodes s) (w_tree w) path with
    | None => x = NULL /\ f_nodes f = nodes s /\ files_core held (with_fs f s) w
    | Some (y, l) => x = y /\ x <> NULL /\ more rest = l /\ refs_by 1 x (nodes s) (f_nodes f) /\ files_core (bump x 1 held) (with_fs f s) w
        /\ exists n, nodes s !! x = Some n /\ deleted n = false
    end).
Proof.
  intros HC Hroom. unfold lookup_path. case_bool_decide as Hh.
  2:{ unfold inode_find. rewrite bool_decide_true by done. apply wp_ret. split; [done|]. split; [done|]. by destruct s. }
  pose proof (fc_fs _ _ _ HC) as Hok. unfold tree_ok in Hok.
  eapply wp_mono; [apply (@find_ok HT HK (framed (w_blocks w)) (v_fs s) (w_tree w) (w_gone w) path Hok (fc_sem _ _ _ HC) Hh); intros x r n _ En; by apply (Hroom x)|].
  intros [[x rest] f] (Hok' & Hs & Hm). destruct (flookup _ _ _) as [[y l]|] eqn:El.
  - destruct Hm as (-> & Hx & Hr & Hrf). apply flookup_in in El. destruct (tree_node _ _ _ _ Hok El) as [_ [n En]]. split; [done|]. split; [done|]. split; [done|]. split; [done|].
    split; [|exists n; split; [done|exact (tree_not_deleted (framed (w_blocks w)) _ _ _ _ _ Hok El En)]]. eapply core_refs; try done.
    intros z. pose proof (fc_held _ _ _ HC z) as [H1 H2]. unfold bump. case_decide; [subst; split; [lia|eauto]|done].
  - destruct Hm as [-> Hn]. split; [done|]. split; [done|]. eapply (core_refs held held _ _ _ 0 0); try done.
    + intros z. rewrite Hn. case_decide; [|done]. destruct (nodes s !! z) as [n|]; [|done]. simpl. f_equal. destruct n. unfold set_i_crefs. simpl. f_equal. lia.
    + intros z _. unfold bump. case_decide; lia.
    + apply (fc_held _ _ _ HC).
Qed.

Lemma undo_ref x m m' n : refs_by 1 x m m' -> m !! x = Some n -> deleted n = false -> unref x m' = m.
Proof.
  intros Hr En Hd. unfold unref. rewrite (Hr x), decide_True, En by done. simpl. unfold deleted at 1. simpl. fold (deleted n). rewrite Hd. simpl.
  apply map_eq. intros y. rewrite lookup_alter. case_decide as E; [subst y|rewrite (Hr y); by rewrite decide_False].
  rewrite (Hr x), decide_True, En by done. simpl. f_equal. destruct n. unfold set_i_crefs. simpl. f_equal. lia.
Qed.

Definition same_view (w w' : fview) : Prop := w_tree w' = w_tree w /\ w_blocks w' = w_blocks w.

(** A reference that was just taken is given back. *)
Lemma undo_core held s w me x m0 n :
  files_core (bump x 1 held) s w -> (forall y, 0 <= held y) -> 0 <= me -> refs_by 1 x m0 (nodes s) -> m0 !! x = Some n -> deleted n = false ->
  wp (release me x s) (fun s' => exists f w', s' = with_fs f s /\ f_nodes f = m0 /\ files_core held s' w' /\ same_view w w').
Proof.
  intros HC Hh Hme Hr En Hd. eapply wp_mono; [by apply (release_core held s w me x)|]. intros s' (f & gone' & -> & Hf & HC'). exists f, (with_gone gone' w).
  split; [done|]. rewrite Hf. split; [by eapply undo_ref|done].
Qed.

Lemma open_failed_ok held s w me t x m0 n e :
  files_core (bump x 1 held) s w -> tasks_ok (v_lists s) (v_tasks s) -> v_tasks s !! me = Some t -> (forall y, 0 <= held y) -> 0 <= me ->
  refs_by 1 x m0 (nodes s) -> m0 !! x = Some n -> deleted n = false ->
  wp (open_failed me x e s) (fun '(ret, s') => ret = -1 /\ exists f w', s' = with_tasks (set_err me e (v_tasks s)) (with_fs f s) /\ f_nodes f = m0
    /\ files_inv held s' w' /\ same_view w w').
Proof.
  intros HC HT' Et Hh Hme Hr En Hd. unfold open_failed. apply wp_bind. eapply wp_mono; [by apply (undo_core held s w me x m0 n)|].
  intros s' (f & w' & -> & Hf & HC' & Hv). rewrite (errout_ok (with_fs f s) me e t Et). apply wp_ret. split; [done|]. exists f, w'. split; [done|]. split; [done|].
  split; [|done]. apply inv_err. by split.
Qed.

(** ** open *)

(** Whether an inode supports the access that is asked for. *)
Definition access_ok (n : inode) (oflags : Z) : bool :=
  ((Z.land oflags O_RDOK =? 0) || bool_decide (is_Some (meth op_read n))) && ((Z.land oflags O_WROK =? 0) || bool_decide (is_Some (meth op_write n))).

Lemma checkflags_ok held s w x n oflags :
  files_core held s w -> nodes s !! x = Some n -> openable n = true -> inode_checkflags n oflags = Ok (if access_ok n oflags then 0 else - EACCES).
Proof.
  intros HC En Ho. unfold inode_checkflags. rewrite (find_method_ok op_read held s w x n HC En Ho). cbn [mbind res_bind].
  rewrite (find_method_ok op_write held s w x n HC En Ho). cbn [mbind res_bind]. f_equal. unfold access_ok.
  rewrite !bool_decide_not. destruct (Z.land oflags O_RDOK =? 0), (Z.land oflags O_WROK =? 0), (bool_decide (is_Some (meth op_read n))), (bool_decide (is_Some (meth op_write n))); done.
Qed.

(** The inode that is opened and the names left of the path, or the error. *)
Definition open_check (m : gmap Z inode) (t : forest) (path : list Z) (oflags : Z) : Z + Z * list name :=
  match lookup_path m t path with
  | None => inl ENOENT
  | Some (x, l) =>
      match m !! x with
      | None => inl ENOENT
      | Some n => if negb (openable n) || (i_ops n =? 0) then inl ENXIO else if access_ok n oflags then inr (x, l) else inl EACCES
      end
  end.

Definition open_arg (n : inode) (rest : list Z) (oflags : Z) : option (list Z * Z * Z) :=
  if INODE_IS_MOUNTPT n then Some (rest, oflags, open_mode) else None.

(** The call fails: the descriptors and the references are as before. *)
Definition failed s s' (me e : Z) : Prop := v_lists s' = v_lists s /\ nodes s' = nodes s /\ v_drv s' = v_drv s /\ v_tasks s' = set_err me e (v_tasks s).

Definition opened s s' (me : Z) (l : ptr) (x : Z) (rest : list name) (oflags ret : Z) : Prop :=
  exists fd f n path, lowest (v_lists s) l 0 fd /\ file_at (v_lists s) l fd f /\ nodes s !! x = Some n /\ more path = rest
  /\ let n1 := set_i_crefs (i_crefs n + 1) n in
     let '(r, f1, d) := run_method ((fun m => m (open_arg n path oflags)) <$> meth op_open n) n1 (File oflags 0 x (f_priv f)) (v_drv s) in
     v_drv s' = d
     /\ if r <? 0 then ret = -1 /\ v_lists s' = upd_file l fd (fun _ => File 0 0 NULL (f_priv f1)) (v_lists s) /\ nodes s' = nodes s
                       /\ v_tasks s' = set_err me (- r) (v_tasks s)
        else ret = fd /\ v_lists s' = upd_file l fd (fun _ => f1) (v_lists s) /\ f_inode f1 = x /\ f_oflags f1 = oflags
             /\ refs_by 1 x (nodes s) (nodes s') /\ v_tasks s' = v_tasks s.
(** A file that refers to an inode that was just referred to is closed again. *)
Lemma files_release_ok held s w me t fd f :
  files_core held s w -> tasks_ok (v_lists s) (v_tasks s) -> v_tasks s !! me = Some t -> file_at (v_lists s) (t_filelist t) fd f -> f_inode f <> NULL ->
  exists s', files_release me fd s = Ok s' /\ s' = with_lists (upd_file (t_filelist t) fd (fun f => File 0 0 NULL (f_priv f)) (v_lists s)) s
    /\ files_core (bump (f_inode f) 1 held) s' w /\ tasks_ok (v_lists s') (v_tasks s').
Proof.
  intros HC HT' Et Hf Hx. set (l := t_filelist t) in *. eexists. split; [|split; [reflexivity|split; [by eapply core_clear|by apply tasks_upd]]].
  unfold files_release. rewrite (getfiles_ok s me t Et). cbn [mbind res_bind]. fold l. pose proof Hf as (fl & El & Hi & Hfl).
  rewrite decide_False by by eapply list_nonnull. rewrite (file_range _ _ _ _ _ _ HC Hf). destruct (proj1 HT' l fl El) as [Hs _].
  rewrite (semtake_ok _ _ _ _ _ HC El Hs). cbn [mbind res_bind]. pose proof (core_lock _ _ _ l HC) as HC1.
  rewrite (put_file_ok _ _ _ l fd f _ HC1) by by apply locked_file. cbn [mbind res_bind v_lists with_lists]. rewrite locked_upd.
  pose proof (core_lock _ _ _ l (core_clear held s w l fd f (set_f_open 0 0 NULL) HC Hf Hx eq_refl)) as HC2. cbn [v_lists with_lists] in HC2.
  erewrite semgive_ok; [done|exact HC2|done|unfold upd_file; by rewrite lookup_alter_eq, El|done].
Qed.

(** The end of [open]: the method of the driver. *)
Lemma open_method_ok held s w me t x m0 n0 n fd f path oflags :
  files_core held s w -> tasks_ok (v_lists s) (v_tasks s) -> v_tasks s !! me = Some t -> 0 <= me ->
  refs_by 1 x m0 (nodes s) -> m0 !! x = Some n0 -> deleted n0 = false -> nodes s !! x = Some n -> openable n = true ->
  file_at (v_lists s) (t_filelist t) fd f -> f_inode f = x ->
  wp (open ← find_method op_open n;
      '(ret, s) ← match open with
                  | Some open => call (open (open_arg n path oflags)) n (t_filelist t) fd s
                  | None => Ok (0, s)
                  end;
      if ret <? 0 then
        s ← files_release me fd s;
        open_failed me x (- ret) s
      else Ok (fd, s)) (fun '(ret, s') => exists w', files_inv held s' w' /\ same_view w w' /\
    let '(r, f1, d) := run_method ((fun m => m (open_arg n path oflags)) <$> meth op_open n) n f (v_drv s) in
    v_drv s' = d
    /\ if r <? 0 then ret = -1 /\ v_lists s' = upd_file (t_filelist t) fd (fun _ => File 0 0 NULL (f_priv f1)) (v_lists s) /\ nodes s' = m0
                      /\ v_tasks s' = set_err me (- r) (v_tasks s)
       else ret = fd /\ v_lists s' = upd_file (t_filelist t) fd (fun _ => f1) (v_lists s) /\ f_inode f1 = x /\ f_oflags f1 = f_oflags f
            /\ nodes s' = nodes s /\ v_tasks s' = v_tasks s).
Proof.
  intros HC HT' Et Hme Hr En0 Hd En Ho Hf Hx. set (l := t_filelist t) in *. pose proof (node_nonnull _ _ _ _ _ HC En) as Hx0.
  rewrite (find_method_ok op_open held s w x n HC En Ho). cbn [mbind res_bind].
  set (o := (fun m => m (open_arg n path oflags)) <$> meth op_open n).
  assert (forall B (k : Z * vfs HT D -> res B), ('(r, s1) ← match meth op_open n with Some open => call (open (open_arg n path oflags)) n l fd s | None => Ok (0, s) end; k (r, s1))
    = ('(r, s1) ← match o with Some m => call m n l fd s | None => Ok (0, s) end; k (r, s1))) as Eo by (intros B k; unfold o; by destruct (meth op_open n)).
  rewrite (Eo _ (fun '(ret, s) => if ret <? 0 then s ← files_release me fd s; open_failed me x (- ret) s else Ok (fd, s))). clear Eo.
  destruct (run_method o n f (v_drv s)) as [[r f1] d] eqn:Er. rewrite (opt_call_ok o held s w l fd f n r f1 d HC Hf Er). cbn [mbind res_bind].
  assert (f_inode f1 = f_inode f /\ f_oflags f1 = f_oflags f) as [Hf1 Hf2].
  { pose proof (run_keeps o n f (v_drv s)) as H. rewrite Er in H. apply H. unfold o. intros m Em. destruct (meth op_open n) as [m'|] eqn:Em'; [|done]. injection Em as <-.
    by apply (meth_keeps op_open (fun g => forall a, keeps (g a)) n ko_open). }
  set (s1 := with_drv d _). assert (files_core held s1 w) as HC1 by (apply core_drv; by eapply core_same).
  assert (tasks_ok (v_lists s1) (v_tasks s1)) as HT1 by by apply tasks_upd.
  assert (file_at (v_lists s1) l fd f1) as Hat1 by by apply (file_at_upd _ _ _ (fun _ => f1)) in Hf.
  destruct (r <? 0).
  - destruct (files_release_ok held s1 w me t fd f1 HC1 HT1 Et Hat1) as (s2 & Es2 & Hs2 & HC2 & HT2); [congruence|]. rewrite Es2. cbn [mbind res_bind].
    rewrite Hf1, Hx in HC2.
    eapply wp_mono; [apply (open_failed_ok held s2 w me t x m0 n0 (- r) HC2 HT2); try done; [by rewrite Hs2|intros y; apply (fc_held _ _ _ HC)|by rewrite Hs2]|].
    intros [ret s'] (-> & fs' & w' & -> & Hn & Hinv & Hv). exists w'. split; [done|]. split; [done|]. rewrite Hs2. simpl. split; [done|]. split; [done|].
    split; [fold l; by rewrite upd_file_twice|done].
  - apply wp_ret. exists w. split; [by split|]. split; [by split|]. split; [done|]. split; [done|]. split; [done|]. split; [congruence|done].
Qed.

Lemma open_ok held s w me t path oflags :
  files_inv held s w -> v_tasks s !! me = Some t -> t_filelist t <> NULL -> 0 <= me -> room s ->
  wp (open me path oflags s) (fun '(ret, s') => exists w', files_inv held s' w' /\ same_view w w' /\
    match open_check (nodes s) (w_tree w) path oflags with
    | inl e => ret = -1 /\ failed s s' me e
    | inr (x, rest) => (ret = -1 /\ (forall fd, ~ free_fd (v_lists s) (t_filelist t) fd) /\ failed s s' me EMFILE)
                       \/ opened s s' me (t_filelist t) x rest oflags ret
    end).
Proof.
  intros [HC HT'] Et Hl Hme Hroom. destruct (my_list held s w me t (conj HC HT') Et Hl) as (fl & El & Hs).
  unfold open. rewrite (getfiles_ok s me t Et). cbn [mbind res_bind]. rewrite decide_False by done.
  apply wp_bind. eapply wp_mono; [by apply (find_core held s w path)|]. intros [[x path'] f]. unfold open_check.
  destruct (lookup_path (nodes s) (w_tree w) path) as [[y rest]|].
  2:{ intros (-> & Hn & HC1). cbv zeta. rewrite decide_True by done. rewrite (errout_ok (with_fs f s) me ENOENT t Et). apply wp_ret. exists w.
      split; [apply inv_err; by split|]. split; [done|]. split; [done|]. by split. }
  intros (-> & Hx & Hrest & Hr & HC1 & n & En & Hd). rewrite En. cbv zeta. rewrite decide_False by done.
  set (n1 := set_i_crefs (i_crefs n + 1) n). assert (f_nodes f !! y = Some n1) as En1 by (rewrite (Hr y), decide_True, En by done; done).
  cbn [v_fs with_fs]. rewrite (deref_Some _ _ n1 Hx En1). cbn [mbind res_bind].
  assert (forall e, wp (open_failed me y e (with_fs f s)) (fun '(ret, s') => ret = -1 /\ exists w', files_inv held s' w' /\ same_view w w' /\ failed s s' me e)) as Hfail.
  { intros e. eapply wp_mono; [apply (open_failed_ok held (with_fs f s) w me t y (nodes s) n e HC1 HT' Et); try done; intros z; apply (fc_held _ _ _ HC)|].
    intros [ret s'] (-> & f' & w' & -> & Hf' & Hinv & Hv). split; [done|]. exists w'. done. }
  rewrite <-negb_orb. fold (openable n1). change (openable n1) with (openable n). change (i_ops n1) with (i_ops n).
  destruct (negb (openable n) || (i_ops n =? 0)) eqn:Eo.
  { eapply wp_mono; [apply Hfail|]. intros [ret s'] (-> & w' & H1 & H2 & H3). by exists w'. }
  apply orb_false_iff in Eo as [Ho%negb_false_iff Hops].
  rewrite (checkflags_ok _ _ w y n1 oflags HC1 En1 Ho). cbn [mbind res_bind]. change (access_ok n1 oflags) with (access_ok n oflags).
  destruct (access_ok n oflags); cbn [Z.ltb Z.compare].
  2:{ eapply wp_mono; [apply Hfail|]. intros [ret s'] (-> & w' & H1 & H2 & H3). by exists w'. }
  apply wp_bind. eapply wp_mono; [apply (files_allocate_ok held (with_fs f s) w me t fl y n1 oflags 0 0 HC1); try done; apply (fc_held _ _ _ HC)|].
  intros [fd s2] [(-> & -> & Hno)|(Hlow & -> & HC2)].
  { eapply wp_mono; [apply Hfail|]. intros [ret s'] (-> & w' & H1 & H2 & H3). exists w'. split; [done|]. split; [done|]. left. split; [done|]. split; [|done].
    intros fd Hfd. destruct (decide (0 <= fd)); [by apply (Hno fd)|]. destruct Hfd as (g & (? & _ & ? & _) & _). lia. }
  pose proof Hlow as (Hfd & (g & Hg & Hg0) & _). rewrite (proj2 (Z.ltb_ge fd 0)) by done. cbn [v_lists with_fs] in *.
  pose proof (file_at_upd _ _ _ (set_f_open oflags 0 y) g Hg) as Hg1.
  eapply wp_mono; [apply (open_method_ok held _ w me t y (nodes s) n n1 fd (set_f_open oflags 0 y g) path' oflags HC2); try done; by apply tasks_upd|].
  intros [ret s'] (w' & Hinv & Hv & Hres). exists w'. split; [done|]. split; [done|]. right. exists fd, g, n, path'. split; [done|]. split; [done|]. split; [done|]. split; [done|].
  cbv zeta. fold n1. change (set_f_open oflags 0 y g) with (File oflags 0 y (f_priv g)) in Hres. change (open_arg n1 path' oflags) with (open_arg n path' oflags) in Hres.
  change (meth op_open n1) with (meth op_open n) in Hres. cbn [v_drv v_lists v_tasks with_lists with_fs v_fs f_oflags] in Hres.
  destruct (run_method _ _ _ _) as [[r f1] d]. destruct Hres as [Hd' Hres]. split; [done|]. destruct (r <? 0).
  - destruct Hres as (-> & -> & -> & ->). split; [done|]. by rewrite upd_file_twice.
  - destruct Hres as (-> & -> & H1 & H2 & -> & ->). split; [done|]. rewrite upd_file_twice. done.
Qed.
(** ** The calls on a descriptor *)

Definition open_at (m : gmap Z filelist) (l : ptr) (fd : Z) (f : file) : Prop := file_at m l fd f /\ f_inode f <> NULL.

(** What a method leaves behind. *)
Definition after_io s (l : ptr) (fd : Z) (f1 : file) (d : D) : vfs HT D := with_drv d (with_lists (upd_file l fd (fun _ => f1) (v_lists s)) s).

(** [errno] is set and nothing else changes. *)
Definition with_err (me e : Z) s : vfs HT D := with_tasks (set_err me e (v_tasks s)) s.

(** The value of a method as the call returns it. *)
Definition io_result (me r : Z) s : Z * vfs HT D := if r <? 0 then (-1, with_err me (- r) s) else (r, s).

Section fd.
  Context (held : Z -> Z) (s : vfs HT D) (w : fview) (me : Z) (t : ftask).
  Hypothesis Hinv : files_inv held s w.
  Hypothesis Et : v_tasks s !! me = Some t.
  Hypothesis Hl : t_filelist t <> NULL.

Lemma fd_file fd : fd_range fd = true -> exists f, file_at (v_lists s) (t_filelist t) fd f.
Proof. intros Hr. destruct (my_list _ _ _ _ _ Hinv Et Hl) as (fl & El & _). by eapply file_in_range; [apply Hinv|..]. Qed.

Lemma fd_get fd f : file_at (v_lists s) (t_filelist t) fd f -> get_file (t_filelist t) fd s = Ok f.
Proof. by apply (get_file_ok held s w), Hinv. Qed.

Lemma fd_in fd f : file_at (v_lists s) (t_filelist t) fd f -> fd_range fd = true.
Proof. by apply (file_range held s w), Hinv. Qed.

Lemma fd_node fd f : open_at (v_lists s) (t_filelist t) fd f -> exists n, nodes s !! f_inode f = Some n /\ openable n = true.
Proof. intros [Hf Hx]. by apply (fc_open _ _ _ (proj1 Hinv) _ _ _ Hf). Qed.

Lemma fd_err e : errout me e s = Ok (-1, with_err me e s).
Proof. by apply (errout_ok s me e t). Qed.

Lemma io_inv fd f f1 d : file_at (v_lists s) (t_filelist t) fd f -> f_inode f1 = f_inode f -> files_inv held (after_io s (t_filelist t) fd f1 d) w.
Proof. intros Hf H1. split; [apply core_drv; by eapply core_same; [apply Hinv|..]|apply tasks_upd, Hinv]. Qed.

Lemma result_inv s' r : files_inv held s' w -> files_inv held (io_result me r s').2 w.
Proof. intros H. unfold io_result. case_match; [by apply inv_err|done]. Qed.

Lemma io_err fd f1 d e : errout me e (after_io s (t_filelist t) fd f1 d) = Ok (-1, with_err me e (after_io s (t_filelist t) fd f1 d)).
Proof. by apply (errout_ok _ me e t). Qed.

Lemma io_ret fd f1 d r : (if r <? 0 then errout me (- r) (after_io s (t_filelist t) fd f1 d) else Ok (r, after_io s (t_filelist t) fd f1 d)) = Ok (io_result me r (after_io s (t_filelist t) fd f1 d)).
Proof. unfold io_result. case_match; [apply io_err|done]. Qed.

Lemma io_call {A} (m : method D A) fd f n r f1 d :
  file_at (v_lists s) (t_filelist t) fd f -> m n f (v_drv s) = (r, f1, d) -> call m n (t_filelist t) fd s = Ok (r, after_io s (t_filelist t) fd f1 d).
Proof. intros Hf E. rewrite (call_ok m held s w _ _ f n (proj1 Hinv) Hf). by rewrite E. Qed.

(** *** read *)

(** What [read] does to a file, on every branch. *)
Definition read_result (fd nbytes : Z) (f : file) : Z * list Z * vfs HT D :=
  let bad := (-1, [], with_err me EBADF s) in
  match nodes s !! f_inode f with
  | None => bad
  | Some n =>
      match meth op_read n with
      | None => bad
      | Some m =>
          if Z.land (f_oflags f) O_RDOK =? 0 then bad
          else let '((r, buf), f1, d) := m nbytes n f (v_drv s) in
               let '(ret, s') := io_result me r (after_io s (t_filelist t) fd f1 d) in (ret, buf, s')
      end
  end.

Lemma null_node x : x = NULL -> nodes s !! x = None.
Proof. intros ->. destruct (nodes s !! NULL) eqn:E; [|done]. by destruct (node_nonnull held s w _ _ (proj1 Hinv) E). Qed.

Lemma read_ok fd nbytes f : file_at (v_lists s) (t_filelist t) fd f -> read me fd nbytes s = Ok (read_result fd nbytes f).
Proof.
  intros Hf. unfold read, file_read. rewrite (fd_in fd f Hf), (getfiles_ok s me t Et). cbn [negb mbind res_bind]. rewrite decide_False by done.
  rewrite (fd_get fd f Hf). cbn [mbind res_bind]. unfold read_result.
  destruct (Z.land (f_oflags f) O_RDOK =? 0); cbn [negb andb].
  { cbn [mbind res_bind]. rewrite fd_err. destruct (nodes s !! f_inode f) as [n|]; [|done]. simpl. by destruct (meth op_read n). }
  case_bool_decide as Hx; [|rewrite null_node by (by destruct (decide (f_inode f = NULL))); cbn [mbind res_bind option_bind mbind]; by rewrite fd_err].
  destruct (fd_node fd f (conj Hf Hx)) as (n & En & Ho). rewrite (deref_Some _ _ n Hx En), En. cbn [mbind res_bind option_bind].
  rewrite (find_method_ok op_read held s w _ n (proj1 Hinv) En Ho). cbn [mbind res_bind]. destruct (meth op_read n) as [m|] eqn:Em; [|cbn [mbind res_bind]; by rewrite fd_err].
  destruct (m nbytes n f (v_drv s)) as [[[r buf] f1] d] eqn:Er. rewrite (io_call (m nbytes) fd f n (r, buf) f1 d Hf Er). cbn [mbind res_bind].
  unfold io_result. destruct (r <? 0); [|done]. by rewrite io_err.
Qed.

Lemma read_inv fd nbytes f : file_at (v_lists s) (t_filelist t) fd f -> files_inv held (read_result fd nbytes f).2 w.
Proof.
  intros Hf. unfold read_result. pose proof (inv_err held s w me EBADF Hinv) as Hb. destruct (nodes s !! f_inode f) as [n|] eqn:En; [|done]. simpl.
  destruct (meth op_read n) as [m|] eqn:Em; [|done]. destruct (Z.land (f_oflags f) O_RDOK =? 0); [done|].
  destruct (m nbytes n f (v_drv s)) as [[[r buf] f1] d] eqn:Er.
  pose proof (meth_keeps op_read (fun g => forall k, keeps (g k)) n ko_read m Em nbytes n f (v_drv s)) as [Hk _]. rewrite Er in Hk.
  pose proof (result_inv _ r (io_inv fd f f1 d Hf Hk)) as H. by destruct (io_result me r _).
Qed.

(** *** write *)

Definition write_result (fd : Z) (buf : list Z) (nbytes : Z) (f : file) : Z * vfs HT D :=
  let bad := (-1, with_err me EBADF s) in
  match nodes s !! f_inode f with
  | None => bad
  | Some n =>
      match meth op_write n with
      | None => bad
      | Some m =>
          if Z.land (f_oflags f) O_WROK =? 0 then bad
          else let '(r, f1, d) := m buf nbytes n f (v_drv s) in io_result me r (after_io s (t_filelist t) fd f1 d)
      end
  end.

Lemma write_ok fd buf nbytes f : file_at (v_lists s) (t_filelist t) fd f -> write me fd buf nbytes s = Ok (write_result fd buf nbytes f).
Proof.
  intros Hf. unfold write, file_write. rewrite (fd_in fd f Hf), (getfiles_ok s me t Et). cbn [negb mbind res_bind]. rewrite decide_False by done.
  rewrite (fd_get fd f Hf). cbn [mbind res_bind]. unfold write_result. destruct (Z.land (f_oflags f) O_WROK =? 0).
  { rewrite fd_err. destruct (nodes s !! f_inode f) as [n|]; [|done]. simpl. by destruct (meth op_write n). }
  destruct (decide (f_inode f = NULL)) as [Hx|Hx]; [rewrite null_node by done; cbn; by rewrite fd_err|].
  destruct (fd_node fd f (conj Hf Hx)) as (n & En & Ho). rewrite (deref_Some _ _ n Hx En), En. cbn [mbind res_bind option_bind].
  rewrite (find_method_ok op_write held s w _ n (proj1 Hinv) En Ho). cbn [mbind res_bind]. destruct (meth op_write n) as [m|] eqn:Em; [|apply fd_err].
  destruct (m buf nbytes n f (v_drv s)) as [[r f1] d] eqn:Er. rewrite (io_call (m buf nbytes) fd f n r f1 d Hf Er). apply io_ret.
Qed.

Lemma write_inv fd buf nbytes f : file_at (v_lists s) (t_filelist t) fd f -> files_inv held (write_result fd buf nbytes f).2 w.
Proof.
  intros Hf. unfold write_result. pose proof (inv_err held s w me EBADF Hinv) as Hb. destruct (nodes s !! f_inode f) as [n|] eqn:En; [|done]. simpl.
  destruct (meth op_write n) as [m|] eqn:Em; [|done]. destruct (Z.land (f_oflags f) O_WROK =? 0); [done|].
  destruct (m buf nbytes n f (v_drv s)) as [[r f1] d] eqn:Er.
  pose proof (meth_keeps op_write (fun g => forall b k, keeps (g b k)) n ko_write m Em buf nbytes n f (v_drv s)) as [Hk _]. rewrite Er in Hk.
  by apply result_inv, (io_inv fd f f1 d).
Qed.

(** *** lseek *)

Definition lseek_result (fd offset whence : Z) (f : file) : Z * vfs HT D :=
  match nodes s !! f_inode f with
  | None => (f_pos f, s)
  | Some n =>
      if i_ops n =? 0 then (f_pos f, s)
      else match meth op_seek n with
           | Some m => let '(r, f1, d) := m offset whence n f (v_drv s) in
                       if r <? 0 then (-1, with_err me (- r) (after_io s (t_filelist t) fd f1 d)) else (f_pos f1, after_io s (t_filelist t) fd f1 d)
           | None => match default_seek offset whence (f_pos f) with
                     | inl pos => (pos, after_io s (t_filelist t) fd (set_f_pos pos f) (v_drv s))
                     | inr e => (-1, with_err me e s)
                     end
           end
  end.

Lemma io_get fd f f1 d : file_at (v_lists s) (t_filelist t) fd f -> f_inode f1 = f_inode f -> get_file (t_filelist t) fd (after_io s (t_filelist t) fd f1 d) = Ok f1.
Proof.
  intros Hf Hk. apply (get_file_ok held _ w); [by apply (io_inv fd f)|]. by apply (file_at_upd _ _ _ (fun _ => f1)) in Hf.
Qed.

Lemma seek_keeps n m offset whence f : meth op_seek n = Some m -> f_inode (m offset whence n f (v_drv s)).1.2 = f_inode f.
Proof. intros Em. by apply (meth_keeps op_seek (fun g => forall o k, keeps (g o k)) n ko_seek m Em). Qed.

Lemma lseek_ok fd offset whence f : file_at (v_lists s) (t_filelist t) fd f -> lseek me fd offset whence s = Ok (lseek_result fd offset whence f).
Proof.
  intros Hf. unfold lseek. rewrite (fd_in fd f Hf), (getfiles_ok s me t Et). cbn [negb mbind res_bind]. rewrite decide_False by done. cbv zeta.
  rewrite (fd_get fd f Hf). cbn [mbind res_bind]. unfold lseek_result. destruct (decide (f_inode f = NULL)) as [Hx|Hx]; [by rewrite null_node|].
  destruct (fd_node fd f (conj Hf Hx)) as (n & En & Ho). rewrite (deref_Some _ _ n Hx En), En. cbn [mbind res_bind]. destruct (i_ops n =? 0); [done|].
  rewrite (find_method_ok op_seek held s w _ n (proj1 Hinv) En Ho). cbn [mbind res_bind]. destruct (meth op_seek n) as [m|] eqn:Em.
  - destruct (m offset whence n f (v_drv s)) as [[r f1] d] eqn:Er. rewrite (io_call (m offset whence) fd f n r f1 d Hf Er). cbn [mbind res_bind].
    destruct (r <? 0); [apply io_err|]. rewrite (io_get fd f); [done|done|]. pose proof (seek_keeps n m offset whence f Em) as Hk. by rewrite Er in Hk.
  - destruct (default_seek offset whence (f_pos f)) as [pos|e]; [|apply fd_err]. rewrite (put_file_ok held s w _ _ f _ (proj1 Hinv) Hf). cbn [mbind res_bind].
    rewrite (upd_file_const _ _ _ f) by done. assert (forall l, with_lists l s = with_drv (v_drv s) (with_lists l s)) as Eta by by destruct s. rewrite Eta.
    fold (after_io s (t_filelist t) fd (set_f_pos pos f) (v_drv s)). by rewrite (io_get fd f).
Qed.

Lemma lseek_inv fd offset whence f : file_at (v_lists s) (t_filelist t) fd f -> files_inv held (lseek_result fd offset whence f).2 w.
Proof.
  intros Hf. unfold lseek_result. destruct (nodes s !! f_inode f) as [n|] eqn:En; [|done]. destruct (i_ops n =? 0); [done|].
  destruct (meth op_seek n) as [m|] eqn:Em.
  - pose proof (seek_keeps n m offset whence f Em) as Hk. destruct (m offset whence n f (v_drv s)) as [[r f1] d].
    case_match; [apply inv_err|]; by apply (io_inv fd f).
  - destruct (default_seek offset whence (f_pos f)); [by apply (io_inv fd f)|by apply inv_err].
Qed.

(** *** ioctl and fsync *)

Definition ioctl_result (fd req arg : Z) (f : file) : Z * vfs HT D :=
  match nodes s !! f_inode f with
  | None => (0, s)
  | Some n =>
      match meth op_ioctl n with
      | None => (0, s)
      | Some m => let '(r, f1, d) := m req arg n f (v_drv s) in io_result me r (after_io s (t_filelist t) fd f1 d)
      end
  end.

Lemma ioctl_ok fd req arg f : file_at (v_lists s) (t_filelist t) fd f -> ioctl me fd req arg s = Ok (ioctl_result fd req arg f).
Proof.
  intros Hf. unfold ioctl. rewrite (fd_in fd f Hf), (getfiles_ok s me t Et). cbn [negb mbind res_bind]. rewrite decide_False by done.
  rewrite (fd_get fd f Hf). cbn [mbind res_bind]. unfold ioctl_result. destruct (decide (f_inode f = NULL)) as [Hx|Hx]; [by rewrite null_node|].
  destruct (fd_node fd f (conj Hf Hx)) as (n & En & Ho). rewrite (deref_Some _ _ n Hx En), En. cbn [mbind res_bind].
  rewrite (find_method_ok op_ioctl held s w _ n (proj1 Hinv) En Ho). cbn [mbind res_bind]. destruct (meth op_ioctl n) as [m|] eqn:Em; [|done].
  destruct (m req arg n f (v_drv s)) as [[r f1] d] eqn:Er. rewrite (io_call (m req arg) fd f n r f1 d Hf Er). apply io_ret.
Qed.

Lemma ioctl_inv fd req arg f : file_at (v_lists s) (t_filelist t) fd f -> files_inv held (ioctl_result fd req arg f).2 w.
Proof.
  intros Hf. unfold ioctl_result. destruct (nodes s !! f_inode f) as [n|] eqn:En; [|done]. destruct (meth op_ioctl n) as [m|] eqn:Em; [|done].
  destruct (m req arg n f (v_drv s)) as [[r f1] d] eqn:Er.
  pose proof (meth_keeps op_ioctl (fun g => forall q a, keeps (g q a)) n ko_ioctl m Em req arg n f (v_drv s)) as [Hk _]. rewrite Er in Hk.
  by apply result_inv, (io_inv fd f f1 d).
Qed.

Definition fsync_result (fd : Z) (f : file) : Z * vfs HT D :=
  if Z.land (f_oflags f) O_WROK =? 0 then (-1, with_err me EBADF s)
  else match nodes s !! f_inode f with
       | None => (-1, with_err me EINVAL s)
       | Some n =>
           match (if INODE_IS_MOUNTPT n then meth op_sync n else None) with
           | None => (-1, with_err me EINVAL s)
           | Some m => let '(r, f1, d) := m n f (v_drv s) in
                       if 0 <=? r then (0, after_io s (t_filelist t) fd f1 d) else (-1, with_err me (- r) (after_io s (t_filelist t) fd f1 d))
           end
       end.

Lemma fsync_ok fd f : file_at (v_lists s) (t_filelist t) fd f -> fsync me fd s = Ok (fsync_result fd f).
Proof.
  intros Hf. unfold fsync. rewrite (getfiles_ok s me t Et). cbn [negb mbind res_bind]. rewrite decide_False by done.
  rewrite (fd_in fd f Hf), (fd_get fd f Hf). cbn [negb mbind res_bind]. unfold fsync_result. destruct (Z.land (f_oflags f) O_WROK =? 0); [apply fd_err|].
  destruct (decide (f_inode f = NULL)) as [Hx|Hx]; [rewrite null_node by done; apply fd_err|].
  destruct (fd_node fd f (conj Hf Hx)) as (n & En & Ho). rewrite (deref_Some _ _ n Hx En), En. cbn [mbind res_bind].
  destruct (INODE_IS_MOUNTPT n); cbn [negb]; [|apply fd_err].
  rewrite (find_method_ok op_sync held s w _ n (proj1 Hinv) En Ho). cbn [mbind res_bind]. destruct (meth op_sync n) as [m|] eqn:Em; [|apply fd_err].
  destruct (m n f (v_drv s)) as [[r f1] d] eqn:Er. rewrite (io_call m fd f n r f1 d Hf Er). cbn [mbind res_bind]. destruct (0 <=? r); [done|apply io_err].
Qed.

Lemma fsync_inv fd f : file_at (v_lists s) (t_filelist t) fd f -> files_inv held (fsync_result fd f).2 w.
Proof.
  intros Hf. unfold fsync_result. pose proof (fun e => inv_err held s w me e Hinv) as Hb. destruct (Z.land (f_oflags f) O_WROK =? 0); [apply Hb|].
  destruct (nodes s !! f_inode f) as [n|] eqn:En; [|apply Hb]. destruct (INODE_IS_MOUNTPT n); [|apply Hb]. destruct (meth op_sync n) as [m|] eqn:Em; [|apply Hb].
  pose proof (meth_keeps op_sync keeps n ko_sync m Em n f (v_drv s)) as [Hk _]. destruct (m n f (v_drv s)) as [[r f1] d].
  case_match; [|apply inv_err]; by apply (io_inv fd f).
Qed.

End fd.

(** ** Closing and duplicating as functions of the file *)

(** [_files_close]: the result, the file, the drivers and the inodes. *)
Definition close_fn (m : gmap Z inode) (f : file) (d : D) : Z * file * D * gmap Z inode :=
  match m !! f_inode f with
  | None => (0, f, d, m)
  | Some n => let '(r, f1, d1) := run_method (meth op_close n) n f d in (r, File 0 0 NULL (f_priv f1), d1, unref (f_inode f) m)
  end.

(** The state with a new file, drivers and inodes. *)
Definition after_file s (l : ptr) (i : Z) (f1 : file) (d : D) (fs : fs_sys HT) : vfs HT D :=
  with_drv d (with_lists (upd_file l i (fun _ => f1) (v_lists s)) (with_fs fs s)).

Lemma fclose_fn held s w me l i f r f1 d m :
  files_core held s w -> file_at (v_lists s) l i f -> 0 <= me -> close_fn (nodes s) f (v_drv s) = (r, f1, d, m) ->
  wp (_files_close me l i s) (fun '(ret, s') => ret = r /\ exists w' fs, s' = after_file s l i f1 d fs /\ f_nodes fs = m /\ files_core held s' w' /\ same_view w w').
Proof.
  intros HC Hf Hme Ec. eapply wp_mono; [by apply (fclose_ok held s w me l i f)|]. intros [ret s'] (w' & Ht & Hb & HC' & Hres). unfold close_fn in Ec.
  destruct (decide (f_inode f = NULL)) as [Hx|Hx].
  - destruct Hres as [-> ->]. destruct (nodes s !! f_inode f) as [n|] eqn:En; [by destruct (node_nonnull _ _ _ _ _ HC En)|]. injection Ec as <- <- <- <-.
    split; [done|]. exists w', (v_fs s). unfold after_file. cbn [v_lists with_fs]. rewrite upd_file_id by done. by destruct s.
  - destruct Hres as (n & fs & En & Hn & Hres). rewrite En in Ec. destruct (run_method (meth op_close n) n f (v_drv s)) as [[r0 f0] d0].
    injection Ec as <- <- <- <-. destruct Hres as [-> ->]. split; [done|]. by exists w', fs.
Qed.

(** The state while the list of the caller is locked. *)
Lemma locked_after s l l2 i f1 d fs : after_file (with_lists (locked l (v_lists s)) s) l2 i f1 d fs = with_lists (locked l (v_lists (after_file s l2 i f1 d fs))) (after_file s l2 i f1 d fs).
Proof. unfold after_file. cbn [v_lists with_lists with_fs with_drv]. by rewrite locked_upd. Qed.

Lemma core_unlock held s w l m fl :
  files_core held (with_lists (locked l m) s) w -> m !! l = Some fl -> fl_sem fl = 1 -> files_core held (with_lists m s) w.
Proof.
  intros HC El Hs. pose proof (core_meta _ _ _ l (set_fl_sem 1) ltac:(done) HC) as HC1. cbn [v_lists with_lists] in HC1.
  assert (alter (set_fl_sem 1) l (locked l m) = m) as E.
  { unfold locked. rewrite alter_alter_eq. apply map_eq. intros k. rewrite lookup_alter. case_decide as Ek; [subst k|done]. rewrite El. destruct fl as [c q fs].
    simpl in *. by subst c. }
  by rewrite E in HC1.
Qed.

Lemma after_list s l2 i f1 d fs l fl : v_lists s !! l = Some fl -> fl_sem fl = 1 -> exists fl', v_lists (after_file s l2 i f1 d fs) !! l = Some fl' /\ fl_sem fl' = 1.
Proof.
  intros El Hs. cbn. unfold upd_file. rewrite lookup_alter. case_decide; [subst; rewrite El; by eexists|eauto].
Qed.

(** [semgive] at the end of a call that changed one file. *)
Lemma give_after held s w me t l2 i f1 d fs w' fl :
  files_inv held s w -> v_lists s !! t_filelist t = Some fl -> fl_sem fl = 1 -> v_tasks s !! me = Some t ->
  files_core held (after_file (with_lists (locked (t_filelist t) (v_lists s)) s) l2 i f1 d fs) w' ->
  _files_semgive (t_filelist t) (after_file (with_lists (locked (t_filelist t) (v_lists s)) s) l2 i f1 d fs) = Ok (after_file s l2 i f1 d fs)
  /\ files_inv held (after_file s l2 i f1 d fs) w'.
Proof.
  intros Hinv El Hs Et HC. rewrite locked_after in HC |- *. destruct (after_list s l2 i f1 d fs _ fl El Hs) as (fl' & El' & Hs').
  rewrite (semgive_ok _ _ _ _ _ _ HC eq_refl El' Hs'). split; [done|]. split; [exact (core_unlock _ _ _ _ _ _ HC El' Hs')|apply tasks_upd, Hinv].
Qed.

Lemma close_ok held s w me t fd f r f1 d m :
  files_inv held s w -> v_tasks s !! me = Some t -> t_filelist t <> NULL -> 0 <= me ->
  open_at (v_lists s) (t_filelist t) fd f -> close_fn (nodes s) f (v_drv s) = (r, f1, d, m) ->
  wp (close me fd s) (fun '(ret, s') => exists fs w', f_nodes fs = m /\ files_inv held s' w' /\ same_view w w'
    /\ if r <? 0 then ret = -1 /\ s' = with_err me (- r) (after_file s (t_filelist t) fd f1 d fs) else ret = 0 /\ s' = after_file s (t_filelist t) fd f1 d fs).
Proof.
  intros Hinv Et Hl Hme [Hf Hx] Ec. destruct (my_list _ _ _ _ _ Hinv Et Hl) as (fl & El & Hs). unfold close, files_close.
  rewrite (fd_in held s w t Hinv fd f Hf), (getfiles_ok s me t Et). cbn [negb mbind res_bind]. rewrite decide_False by done.
  rewrite (fd_get held s w t Hinv fd f Hf). cbn [mbind res_bind]. rewrite decide_False by done. rewrite (semtake_ok _ _ _ _ _ (proj1 Hinv) El Hs). cbn [mbind res_bind].
  apply wp_bind, wp_bind.
  eapply wp_mono; [apply (fclose_fn held _ w me _ fd f r f1 d m (core_lock _ _ _ (t_filelist t) (proj1 Hinv))); [by apply locked_file|done|done]|].
  intros [ret s'] (-> & w' & fs & -> & Hm & HC & Hv). destruct (give_after held s w me t _ fd f1 d fs w' fl Hinv El Hs Et HC) as [-> Hinv']. apply wp_ret.
  destruct (r <? 0).
  - rewrite (errout_ok (after_file s (t_filelist t) fd f1 d fs) me (- r) t Et). apply wp_ret. exists fs, w'. split; [done|]. split; [by apply inv_err|done].
  - apply wp_ret. exists fs, w'. done.
Qed.

End calls.
