(* ===== verification/FilesLists.v ===== *)
(** * Open files: duplicated descriptors and the lists of tasks

    [dup_fn] is what duplicating a file does to the files, the drivers and the
    inodes.  A list of files is allocated for a new task, shared by the threads
    and released with the last of them. *)

From S2P Require Import Prelude Queue Sched Sem KHeap Inode InodeTree InodeSpec InodeThm Files FilesSpec FilesCalls.

Section lists.
  Context {HT D : Type} {HK : KHeap HT} {HKS : KHeapSpec HT} {DR : Drivers D} {DO : DriversOk D} {FC : FilesConfig}.
  Implicit Types (s : vfs HT D).

Abbreviation nodes s := (f_nodes (v_fs s)).

(** ** files_dup *)

Definition ref (x : ptr) (m : gmap Z inode) : gmap Z inode := alter (fun n => set_i_crefs (i_crefs n + 1) n) x m.

(** The file [f1] is duplicated in place of [f2]: the result, the file, the
    drivers and the inodes. *)
Definition dup_fn (m : gmap Z inode) (f1 f2 : file) (d : D) : Z * file * D * gmap Z inode :=
  let x := f_inode f1 in
  match m !! x with
  | None => (- EBADF, f2, d, m)
  | Some n =>
      if INODE_IS_MOUNTPT n then (- ENOSYS, f2, d, m)
      else
        let '(rc, fc, dc, mc) := close_fn m f2 d in
        if rc <? 0 then (rc, fc, dc, mc)
        else match ref x mc !! x with
             | None => (- EBADF, fc, dc, mc)
             | Some n1 =>
                 let '(ro, fo, dd) := run_method ((fun open => open None) <$> meth op_open n1) n1 (File (f_oflags f1) (f_pos f1) x (f_priv fc)) dc in
                 if ro <? 0 then (ro, File 0 0 NULL (f_priv fo), dd, unref x (ref x mc)) else (0, fo, dd, ref x mc)
             end
  end.

Lemma refs_ref x m m' : refs_by 1 x m m' -> m' = ref x m.
Proof. intros H. apply map_eq. intros y. rewrite (H y). unfold ref. rewrite lookup_alter. destruct (decide (x = y)) as [<-|Hne]; [by rewrite decide_True|by rewrite decide_False]. Qed.

Lemma unref_lookup x (m : gmap Z inode) y n' : unref x m !! y = Some n' -> exists n, m !! y = Some n /\ i_crefs n' <= i_crefs n.
Proof.
  unfold unref. destruct (m !! x) as [n|] eqn:En; [|eauto with lia]. case_match.
  - intros [_ E]%lookup_delete_Some. eauto with lia.
  - rewrite lookup_alter. case_decide; [subst; rewrite En; intros [= <-]; eexists; split; [done|]; simpl; lia|eauto with lia].
Qed.

Lemma close_room (m : gmap Z inode) f d r f1 d1 m1 b :
  close_fn m f d = (r, f1, d1, m1) -> map_Forall (fun _ n => i_crefs n < b) m -> map_Forall (fun _ n => i_crefs n < b) m1.
Proof.
  unfold close_fn. intros Ec Hm. destruct (m !! f_inode f); [|by injection Ec as <- <- <- <-]. destruct (run_method _ _ _ _) as [[r0 f0] d0].
  injection Ec as <- <- <- <-. intros y n' (n & En & Hle)%unref_lookup. specialize (Hm y n En). simpl in *. lia.
Qed.

Lemma close_null held s w l i f r f1 d1 m1 :
  files_core held s w -> file_at (v_lists s) l i f -> close_fn (nodes s) f (v_drv s) = (r, f1, d1, m1) -> f_inode f1 = NULL.
Proof.
  intros HC Hf. unfold close_fn. destruct (nodes s !! f_inode f) as [n|] eqn:En; [destruct (run_method _ _ _ _) as [[r0 f0] d0]; by intros [= <- <- <- <-]|].
  intros [= <- <- <- <-]. destruct (decide (f_inode f = NULL)) as [?|Hx]; [done|]. destruct (fc_open _ _ _ HC l i f Hf Hx) as (n & ? & _). congruence.
Qed.

(** The second half of [files_dup]: the reference, the file and the method. *)
Lemma dup_open_ok held s w me l1 i1 f1 l2 i2 fc n :
  files_core held s w -> file_at (v_lists s) l1 i1 f1 -> file_at (v_lists s) l2 i2 fc -> (l1, i1) <> (l2, i2) -> f_inode f1 <> NULL -> f_inode fc = NULL ->
  0 <= me -> room s -> ref (f_inode f1) (nodes s) !! f_inode f1 = Some n ->
  wp (dup_open me l1 i1 l2 i2 s)
    (fun '(ret, s') => exists fs w', files_core held s' w' /\ same_view w w' /\
       let '(ro, fo, dd) := run_method ((fun open => open None) <$> meth op_open n) n (File (f_oflags f1) (f_pos f1) (f_inode f1) (f_priv fc)) (v_drv s) in
       if ro <? 0 then ret = ro /\ f_nodes fs = unref (f_inode f1) (ref (f_inode f1) (nodes s)) /\ s' = after_file s l2 i2 (File 0 0 NULL (f_priv fo)) dd fs
       else ret = 0 /\ f_nodes fs = ref (f_inode f1) (nodes s) /\ s' = after_file s l2 i2 fo dd fs).
Proof.
  intros HC Hf1 Hf2 Hne Hx1 Hx2 Hme Hroom En. set (x := f_inode f1) in *. destruct (fc_open _ _ _ HC l1 i1 f1 Hf1 Hx1) as (n0 & En0 & Ho0). fold x in En0.
  assert (n = set_i_crefs (i_crefs n0 + 1) n0) as En1 by (unfold ref in En; rewrite lookup_alter_eq, En0 in En; by injection En as <-).
  assert (openable n = true) as Ho by by rewrite En1.
  unfold dup_open. rewrite (get_file_ok _ _ _ _ _ _ HC Hf1). cbn [mbind res_bind]. cbv zeta. fold x. apply wp_bind. eapply wp_mono; [apply (addref_core held s w x n0 HC En0); by apply (Hroom x)|].
  intros s2 (fs & -> & Hr & HC2). apply refs_ref in Hr. set (g := set_f_open (f_oflags f1) (f_pos f1) x).
  rewrite (put_file_ok _ _ _ _ _ fc g HC2 Hf2). cbn [mbind res_bind]. cbn [v_lists with_fs].
  assert (nodes (with_fs fs s) !! x = Some n) as En2 by (simpl; by rewrite Hr).
  pose proof (core_fill held _ w l2 i2 fc g x n HC2 (proj1 (fc_held _ _ _ HC x)) Hf2 Hx2 eq_refl En2 Ho) as HC3. cbn [v_lists with_fs] in HC3.
  set (s3 := with_lists _ (with_fs fs s)) in *. change (nodes s3) with (f_nodes fs). simpl in En2. rewrite (deref_Some _ _ n Hx1 En2). cbn [mbind res_bind].
  rewrite (find_method_ok op_open held s3 w x n HC3 En2 Ho). cbn [mbind res_bind].
  set (o := (fun open => open None) <$> meth op_open n).
  assert (match meth op_open n with Some open => call (open None) n l2 i2 s3 | None => Ok (0, s3) end = match o with Some m => call m n l2 i2 s3 | None => Ok (0, s3) end) as ->
    by (unfold o; by destruct (meth op_open n)).
  assert (file_at (v_lists s3) l2 i2 (g fc)) as Hf3 by by apply file_at_upd. change (g fc) with (File (f_oflags f1) (f_pos f1) x (f_priv fc)) in Hf3.
  set (f3 := File _ _ x _) in *. destruct (run_method o n f3 (v_drv s)) as [[ro fo] dd] eqn:Er. rewrite (opt_call_ok o held s3 w l2 i2 f3 n ro fo dd HC3 Hf3 Er).
  cbn [mbind res_bind].
  assert (f_inode fo = x) as Hfo.
  { pose proof (run_keeps o n f3 (v_drv s)) as Hk. rewrite Er in Hk. apply Hk. unfold o. intros m Em. destruct (meth op_open n) as [m'|] eqn:Em'; [|done]. injection Em as <-.
    by apply (meth_keeps op_open (fun g => forall a, keeps (g a)) n ko_open). }
  set (s4 := with_drv dd _). assert (files_core held s4 w) as HC4 by (apply core_drv; by eapply core_same).
  assert (file_at (v_lists s4) l2 i2 fo) as Hf4 by by apply (file_at_upd _ _ _ (fun _ => fo)) in Hf3.
  assert (v_lists s4 = upd_file l2 i2 (fun _ => fo) (v_lists s)) as El4 by (unfold s4, s3; cbn; by rewrite upd_file_twice).
  destruct (ro <? 0).
  - rewrite (get_file_ok _ _ _ _ _ _ HC4 Hf4). cbn [mbind res_bind]. pose proof (release_clear held s4 w me l2 i2 fo HC4 Hf4 ltac:(congruence) Hme) as Hrel.
    destruct (release me (f_inode fo) s4) as [s5|]; [|done]. cbn [mbind res_bind] in *. destruct (put_file _ l2 i2 s5) as [s6|]; [|done]. cbn [mbind res_bind wp] in *.
    destruct Hrel as (fs5 & gone' & -> & Hn5 & HC5). exists fs5, (with_gone gone' w). split; [exact HC5|]. split; [done|]. split; [done|].
    rewrite Hn5, Hfo. split; [change (nodes s4) with (f_nodes fs); by rewrite Hr|]. rewrite El4, upd_file_twice. done.
  - apply wp_ret. exists fs, w. split; [exact HC4|]. split; [done|]. split; [done|]. split; [done|].
    transitivity (with_lists (v_lists s4) s4); [by destruct s4|]. rewrite El4. done.
Qed.
(** Results below zero are errors. *)
Definition err_result (me r : Z) s : Z * vfs HT D := if r <? 0 then (-1, with_err me (- r) s) else (0, s).

Lemma files_dup_ok held s w me t l1 i1 f1 l2 i2 f2 r fo d m :
  files_inv held s w -> v_tasks s !! me = Some t -> t_filelist t <> NULL -> 0 <= me -> room s ->
  file_at (v_lists s) l1 i1 f1 -> file_at (v_lists s) l2 i2 f2 -> (l1, i1) <> (l2, i2) -> dup_fn (nodes s) f1 f2 (v_drv s) = (r, fo, d, m) ->
  wp (files_dup me l1 i1 l2 i2 s) (fun p => exists fs w', f_nodes fs = m /\ p = err_result me r (after_file s l2 i2 fo d fs)
    /\ files_inv held (after_file s l2 i2 fo d fs) w' /\ same_view w w').
Proof.
  intros Hinv Et Hl Hme Hroom Hf1 Hf2 Hne Hd. pose proof (proj1 Hinv) as HC. set (x := f_inode f1). unfold files_dup.
  assert (forall e, errout me e s = Ok (err_result me (- e) (after_file s l2 i2 f2 (v_drv s) (v_fs s))) \/ e <= 0) as Herr.
  { intros e. destruct (Z_lt_le_dec 0 e) as [He|He]; [left|by right]. rewrite (errout_ok s me e t Et). unfold err_result. rewrite (proj2 (Z.ltb_lt (- e) 0)) by lia.
    unfold after_file. cbn [v_lists with_fs]. rewrite upd_file_id by done. rewrite Z.opp_involutive. by destruct s. }
  assert (after_file s l2 i2 f2 (v_drv s) (v_fs s) = s) as Eid by (unfold after_file; cbn [v_lists with_fs]; rewrite upd_file_id by done; by destruct s).
  rewrite (get_file_ok _ _ _ _ _ _ HC Hf1). cbn [mbind res_bind]. fold x. unfold dup_fn in Hd. fold x in Hd. cbv zeta in Hd.
  destruct (decide (x = NULL)) as [Hx|Hx].
  { rewrite (null_node held s w Hinv x Hx) in Hd. injection Hd as <- <- <- <-. destruct (Herr EBADF) as [->|]; [|done]. apply wp_ret. exists (v_fs s), w. rewrite Eid. done. }
  destruct (fc_open _ _ _ HC l1 i1 f1 Hf1 Hx) as (n & En & Ho). fold x in En. rewrite (deref_Some _ _ n Hx En). cbn [mbind res_bind]. rewrite En in Hd.
  destruct (INODE_IS_MOUNTPT n).
  { injection Hd as <- <- <- <-. destruct (Herr ENOSYS) as [->|]; [|done]. apply wp_ret. exists (v_fs s), w. rewrite Eid. done. }
  clear Herr Eid. rewrite (getfiles_ok s me t Et). cbn [mbind res_bind]. rewrite decide_False by done. destruct (my_list _ _ _ _ _ Hinv Et Hl) as (fl & El & Hs).
  rewrite (semtake_ok _ _ _ _ _ HC El Hs). cbn [mbind res_bind]. set (s1 := with_lists (locked (t_filelist t) (v_lists s)) s).
  assert (files_core held s1 w) as HC1 by by apply core_lock. destruct (close_fn (nodes s) f2 (v_drv s)) as [[[rc fc] dc] mc] eqn:Ec.
  assert (forall r0 f0 d0 fs0 w0, files_core held (after_file s1 l2 i2 f0 d0 fs0) w0 -> same_view w w0 -> f_nodes fs0 = m -> (r0, f0, d0) = (r, fo, d) ->
    wp (s0 ← _files_semgive (t_filelist t) (after_file s1 l2 i2 f0 d0 fs0); if r0 <? 0 then errout me (- r0) s0 else Ok (0, s0))
      (fun p => exists fs w', f_nodes fs = m /\ p = err_result me r (after_file s l2 i2 fo d fs) /\ files_inv held (after_file s l2 i2 fo d fs) w' /\ same_view w w')) as Hend.
  { intros r0 f0 d0 fs0 w0 HC0 Hv0 Hm0 [= -> -> ->]. destruct (give_after held s w me t l2 i2 fo d fs0 w0 fl Hinv El Hs Et HC0) as [Eg Hinv0]. fold s1 in Eg. rewrite Eg. cbn [mbind res_bind].
    apply wp_Ok. exists (err_result me r (after_file s l2 i2 fo d fs0)). split; [|by exists fs0, w0]. unfold err_result. destruct (r <? 0); [|done].
    by rewrite (errout_ok (after_file s l2 i2 fo d fs0) me (- r) t Et). }
  apply wp_bind. eapply wp_mono; [apply (fclose_fn held s1 w me l2 i2 f2 rc fc dc mc HC1); [by apply locked_file|done|done]|].
  intros [rc' s2] (-> & w2 & fs2 & -> & Hm2 & HC2 & Hv2). apply wp_bind. destruct (rc <? 0) eqn:Erc.
  { injection Hd as <- <- <- <-. apply wp_ret. by eapply Hend. }
  set (s2 := after_file s1 l2 i2 fc dc fs2) in *.
  assert (file_at (v_lists s2) l1 i1 f1) as Hf1'.
  { destruct Hf2 as (? & ? & Hi2 & ?). unfold s2. cbn. apply file_at_upd_ne; [done|done|]. by apply locked_file. }
  assert (file_at (v_lists s2) l2 i2 fc) as Hf2' by (unfold s2; cbn; apply (file_at_upd _ _ _ (fun _ => fc) f2), locked_file, Hf2).
  assert (room s2) as Hroom2 by (unfold room; change (nodes s2) with (f_nodes fs2); rewrite Hm2; by eapply close_room).
  destruct (fc_open _ _ _ HC2 l1 i1 f1 Hf1' Hx) as (n2 & En2 & _). change (nodes s2) with (f_nodes fs2) in En2. fold x in En2. rewrite Hm2 in En2.
  assert (ref x mc !! x = Some (set_i_crefs (i_crefs n2 + 1) n2)) as En1 by (unfold ref; by rewrite lookup_alter_eq, En2). set (n1 := set_i_crefs _ n2) in *.
  rewrite En1 in Hd. pose proof (dup_open_ok held s2 w2 me l1 i1 f1 l2 i2 fc n1 HC2 Hf1' Hf2' Hne Hx (close_null _ _ _ _ _ _ _ _ _ _ HC Hf2 Ec) Hme Hroom2) as Hop.
  change (nodes s2) with (f_nodes fs2) in Hop. rewrite Hm2 in Hop. specialize (Hop En1). fold x in Hop. change (v_drv s2) with dc in Hop.
  destruct (run_method _ n1 _ dc) as [[ro fo'] dd] eqn:Er. eapply wp_mono; [exact Hop|]. intros [r3 s3] (fs3 & w3 & HC3 & Hv3 & Hres).
  assert (same_view w w3) as Hv by (split; [rewrite (proj1 Hv3)|rewrite (proj2 Hv3)]; apply Hv2).
  assert (forall f0 d0, after_file s2 l2 i2 f0 d0 fs3 = after_file s1 l2 i2 f0 d0 fs3) as Eaf by (intros f0 d0; unfold s2, after_file; cbn; by rewrite upd_file_twice).
  destruct (ro <? 0); injection Hd as <- <- <- <-; destruct Hres as (-> & Hm3 & ->); rewrite Eaf in HC3 |- *; by eapply Hend.
Qed.
(** ** dup and dup2 *)

Lemma isopen_ok held s w t fd f : files_inv held s w -> open_at (v_lists s) (t_filelist t) fd f -> DUP_ISOPEN fd (t_filelist t) s = Ok true.
Proof.
  intros Hinv [Hf Hx]. unfold DUP_ISOPEN. rewrite (fd_in held s w t Hinv fd f Hf), (fd_get held s w t Hinv fd f Hf). cbn [mbind res_bind].
  by rewrite bool_decide_true.
Qed.

Lemma dup2_ok held s w me t fd1 f1 fd2 f2 r fo d m :
  files_inv held s w -> v_tasks s !! me = Some t -> t_filelist t <> NULL -> 0 <= me -> room s ->
  open_at (v_lists s) (t_filelist t) fd1 f1 -> file_at (v_lists s) (t_filelist t) fd2 f2 -> fd1 <> fd2 -> dup_fn (nodes s) f1 f2 (v_drv s) = (r, fo, d, m) ->
  wp (dup2 me fd1 fd2 s) (fun p => exists fs w', f_nodes fs = m /\ p = err_result me r (after_file s (t_filelist t) fd2 fo d fs)
    /\ files_inv held (after_file s (t_filelist t) fd2 fo d fs) w' /\ same_view w w').
Proof.
  intros Hinv Et Hl Hme Hroom Hf1 Hf2 Hne Hd. unfold dup2. rewrite (getfiles_ok s me t Et). cbn [mbind res_bind]. rewrite decide_False by done.
  rewrite (isopen_ok held s w t fd1 f1 Hinv Hf1). cbn [mbind res_bind negb]. rewrite (proj2 (Z.eqb_neq fd1 fd2)) by done.
  rewrite (fd_in held s w t Hinv fd2 f2 Hf2). cbn [negb]. eapply files_dup_ok; try done; [apply Hf1|congruence].
Qed.

Lemma file_dup_ok held s w me t fd f minfd :
  files_inv held s w -> v_tasks s !! me = Some t -> t_filelist t <> NULL -> 0 <= me -> room s -> 0 <= minfd -> open_at (v_lists s) (t_filelist t) fd f ->
  wp (file_dup me fd minfd s) (fun '(ret, s') => exists fs w', files_inv held s' w' /\ same_view w w'
    /\ ((ret = -1 /\ s' = with_err me EMFILE (with_fs fs s) /\ (forall j, minfd <= j -> ~ free_fd (v_lists s) (t_filelist t) j)
         /\ f_nodes fs = unref (f_inode f) (ref (f_inode f) (nodes s)))
        \/ (lowest (v_lists s) (t_filelist t) minfd ret /\ f_nodes fs = ref (f_inode f) (nodes s)
            /\ s' = with_lists (upd_file (t_filelist t) ret (set_f_open (f_oflags f) (f_pos f) (f_inode f)) (v_lists s)) (with_fs fs s)))).
Proof.
  intros Hinv Et Hl Hme Hroom Hm Hop. pose proof Hop as [Hf Hx]. destruct (fd_node held s w t Hinv fd f Hop) as (n & En & Ho). pose proof (proj1 Hinv) as HC.
  destruct (my_list _ _ _ _ _ Hinv Et Hl) as (fl & El & Hs). unfold file_dup. rewrite (getfiles_ok s me t Et). cbn [mbind res_bind]. rewrite decide_False by done.
  rewrite (isopen_ok held s w t fd f Hinv Hop), (fd_get held s w t Hinv fd f Hf). cbn [mbind res_bind negb].
  apply wp_bind. eapply wp_mono; [apply (addref_core held s w _ n HC En); by apply (Hroom (f_inode f))|]. intros s1 (fs & -> & Hr & HC1). apply refs_ref in Hr.
  assert (nodes (with_fs fs s) !! f_inode f = Some (set_i_crefs (i_crefs n + 1) n)) as En1 by (simpl; rewrite Hr; unfold ref; by rewrite lookup_alter_eq, En).
  apply wp_bind. eapply wp_mono; [apply (files_allocate_ok held (with_fs fs s) w me t fl (f_inode f) (set_i_crefs (i_crefs n + 1) n) (f_oflags f) (f_pos f) minfd HC1); try done; apply (fc_held _ _ _ HC)|].
  intros [fd2 s2] [(-> & -> & Hno)|(Hlow & -> & HC2)].
  - cbn [Z.ltb Z.compare]. rewrite (put_errno_ok (with_fs fs s) me EMFILE t Et). cbn [mbind res_bind].
    pose proof (core_tasks _ _ _ (set_err me EMFILE (v_tasks (with_fs fs s))) HC1) as HC2. rewrite (get_file_ok _ _ _ (t_filelist t) fd f HC2) by done. cbn [mbind res_bind].
    apply wp_bind. eapply wp_mono; [apply (release_core held _ w me (f_inode f) HC2); [intros y; apply (fc_held _ _ _ HC)|done]|].
    intros s3 (fs3 & gone' & -> & Hn3 & HC3). apply wp_ret. exists fs3, (with_gone gone' w). split; [|split; [done|left]].
    + split; [exact HC3|apply tasks_err, Hinv].
    + split; [done|]. split; [done|]. split; [done|]. rewrite Hn3. simpl. by rewrite Hr.
  - destruct Hlow as (H1 & H2 & H3). rewrite (proj2 (Z.ltb_ge fd2 0)) by lia. apply wp_ret. exists fs, w. split; [split; [done|apply tasks_upd, Hinv]|]. split; [done|]. right. done.
Qed.

Lemma dup_ok held s w me t fd f :
  files_inv held s w -> v_tasks s !! me = Some t -> t_filelist t <> NULL -> 0 <= me -> room s -> open_at (v_lists s) (t_filelist t) fd f ->
  wp (dup me fd s) (fun '(ret, s') => exists w', files_inv held s' w' /\ same_view w w').
Proof.
  intros Hinv Et Hl Hme Hroom Hop. unfold dup. rewrite (fd_in held s w t Hinv fd f (proj1 Hop)).
  eapply wp_mono; [by apply (file_dup_ok held s w me t fd f 0)|]. intros [ret s'] (fs & w' & H1 & H2 & _). eauto.
Qed.

(** ** fcntl *)

Definition fcntl_legal (cmd : fcntl_cmd) : bool := match cmd with F_DUPFD arg => 0 <=? arg | _ => true end.

Lemma fcntl_ok held s w me t fd f cmd :
  files_inv held s w -> v_tasks s !! me = Some t -> t_filelist t <> NULL -> 0 <= me -> room s -> file_at (v_lists s) (t_filelist t) fd f -> fcntl_legal cmd = true ->
  wp (fcntl me fd cmd s) (fun '(ret, s') => exists w', files_inv held s' w' /\ same_view w w').
Proof.
  intros Hinv Et Hl Hme Hroom Hf Hc. unfold fcntl, file_vfcntl. rewrite (fd_in held s w t Hinv fd f Hf), (getfiles_ok s me t Et). cbn [mbind res_bind].
  rewrite decide_False by done. rewrite (fd_get held s w t Hinv fd f Hf). cbn [mbind res_bind].
  assert (forall e, wp (errout me e s) (fun '(ret, s') => exists w', files_inv held s' w' /\ same_view w w')) as Herr.
  { intros e. rewrite (errout_ok s me e t Et). apply wp_ret. exists w. split; [by apply inv_err|done]. }
  destruct (decide (f_inode f = NULL)) as [Hx|Hx]; [apply Herr|]. destruct cmd as [arg| | | |arg| | | | | |]; try apply Herr.
  - apply Z.leb_le in Hc. apply wp_bind. eapply wp_mono; [by apply (file_dup_ok held s w me t fd f arg)|]. intros [ret s'] (fs & w' & H1 & H2 & _). apply wp_ret. eauto.
  - apply wp_ret. by exists w.
  - rewrite (put_file_ok held s w _ _ f _ (proj1 Hinv) Hf). apply wp_ret. exists w. split; [|done]. split; [by eapply core_same; [apply Hinv|..]|apply tasks_upd, Hinv].
Qed.
(** ** The blocks of the lists in the heap *)

Definition with_blocks (bl : list (Z * Z)) (w : fview) : fview := FView (w_tree w) (w_gone w) bl.

Lemma alloc_block (f : fs_sys HT) w pid size :
  tree_ok f w -> (forall b, b ∈ w_blocks w -> 0 < b.2) -> 0 <= pid -> 0 < size -> size + 23 < 2 ^ 32 ->
  wp (kzalloc pid size (f_heap f)) (fun '(p, h) => (p = NULL /\ tree_ok (with_fheap h f) w)
    \/ (exists z, p <> NULL /\ 0 < z /\ p ∉ (w_blocks w).*1 /\ tree_ok (with_fheap h f) (with_blocks ((p, z) :: w_blocks w) w))).
Proof.
  intros Hok Hb Hp H0 H1. pose proof Hok as [[A B C E F (sz & other & Hh & Hs)] HD].
  eapply wp_mono; [by apply (@kzalloc_ok HT HK HKS pid size (f_heap f) _ Hp H0 H1 Hh)|]. intros [p h] [[-> Hh']|(z & Hp0 & Hz & Hh' & Hd)].
  - left. split; [done|]. split; [split; try done|destruct HD; by split]. by exists sz, other.
  - right. exists z. split; [lia|]. split; [lia|]. split.
    + intros (b & -> & Hin)%list_elem_of_fmap. apply (Hd b b.1); [apply elem_of_app; by right|unfold owns; simpl; lia|]. unfold owns. specialize (Hb b Hin). lia.
    + split; [split; try done|destruct HD; by split]. exists sz, other. split; [|done]. cbn [heap_rep framed]. eapply heap_perm; [|exact Hh']. cbn [w_blocks with_blocks].
      by rewrite Permutation_middle.
Qed.

Lemma free_block (f : fs_sys HT) w me p z bl :
  tree_ok f w -> w_blocks w ≡ₚ (p, z) :: bl -> 0 <= me ->
  exists h, kmm_trysemaphore me (f_heap f) = (true, h)
    /\ wp (h ← kfree me p h; kmm_givesemaphore me h) (fun h => tree_ok (with_fheap h f) (with_blocks bl w)).
Proof.
  intros [[A B C E F (sz & other & Hh & Hs)] HD] Hb Hme.
  assert (heap_rep None (f_heap f) ((p, z) :: (((fun x => (x, sz x)) <$> live (w_tree w) (w_gone w)) ++ other) ++ bl)) as Hh1.
  { eapply heap_perm; [|exact Hh]. rewrite Hb. by rewrite <-Permutation_middle. }
  destruct (ktry_ok me (f_heap f) _ Hme Hh1) as (h & -> & Hh2). exists h. split; [done|]. apply wp_bind.
  eapply wp_mono; [apply (kfree_ok (Some me) me h (p, z) _ Hme (or_intror eq_refl) Hh2)|]. intros h3 Hh3.
  eapply wp_mono; [exact (kgive_ok me h3 _ Hh3)|]. intros h4 Hh4. split; [split; try done|destruct HD; by split]. by exists sz, other.
Qed.

(** ** A new list *)

Definition new_list : filelist := FileList 1 1 (replicate (Z.to_nat CONFIG_NFILE_DESCRIPTORS) (File 0 0 NULL 0)).

Lemma core_new held s w l z h :
  files_core held s w -> l <> NULL -> 0 < z -> l ∉ (w_blocks w).*1 -> tree_ok (with_fheap h (v_fs s)) (with_blocks ((l, z) :: w_blocks w) w) ->
  files_core held (with_lists (<[l := new_list]> (v_lists s)) (with_fs (with_fheap h (v_fs s)) s)) (with_blocks ((l, z) :: w_blocks w) w).
Proof.
  intros HC Hl Hz Hnew Hok. pose proof HC as [A B C (D1 & D2 & D3) E F G I J]. pose proof nfile_range as Hn.
  assert (v_lists s !! l = None) as El by (apply eq_None_not_Some; by rewrite D3). split; try done; simpl.
  - split; [by constructor|]. split; [intros b [->|Hb]%elem_of_cons; [done|by apply D2]|]. intros l'. rewrite lookup_insert_is_Some, D3, elem_of_cons.
    destruct (decide (l = l')); naive_solver.
  - intros l' fl'. rewrite lookup_insert. case_decide; [intros [= <-]; simpl; rewrite length_replicate; lia|apply E].
  - intros l' i f (fl & El' & Hi & Hf) Hx. rewrite lookup_insert in El'. case_decide; [|apply (F l' i f); [by exists fl|done]]. injection El' as <-. simpl in Hf.
    by apply lookup_replicate in Hf as [-> _].
  - intros x n En. unfold opens. rewrite msum_insert by done. simpl. rewrite refs_in_replicate; [by apply G|]. intros <-. by apply (node_nonnull held s w) in En.
Qed.

Lemma alloclist_ok held s w me :
  files_core held s w -> 0 <= me ->
  wp (files_alloclist me s) (fun '(l, s') => exists w' h, files_core held s' w' /\ w_tree w' = w_tree w /\
    if decide (l = NULL) then s' = with_fs (with_fheap h (v_fs s)) s
    else v_lists s !! l = None /\ s' = with_lists (<[l := new_list]> (v_lists s)) (with_fs (with_fheap h (v_fs s)) s)).
Proof.
  intros HC Hme. pose proof (fc_blocks _ _ _ HC) as (D1 & D2 & D3). unfold files_alloclist. apply wp_bind. pose proof nfile_range as Hn.
  eapply wp_mono; [apply (alloc_block (v_fs s) w me SIZEOF_FILELIST (fc_fs _ _ _ HC)); [intros b Hb; by apply D2|done|unfold SIZEOF_FILELIST; lia..]|].
  intros [l h] [[-> Hok]|(z & Hl & Hz & Hnew & Hok)]; cbv zeta.
  - rewrite decide_True by done. apply wp_ret. exists w, h. rewrite decide_True by done. split; [|done]. destruct HC as [A B C E F G I J K]. by split.
  - rewrite decide_False by done. apply wp_ret. eexists _, h. rewrite decide_False by done. split; [by apply (core_new held s w l z h)|]. split; [done|]. split; [|done].
    apply eq_None_not_Some. by rewrite D3.
Qed.

(** ** The last reference to a list *)

Definition all_closed (fl : filelist) : Prop := Forall (fun f => f_inode f = NULL) (fl_files fl).

Lemma core_drop_list held s w l fl z bl h :
  files_core held s w -> v_lists s !! l = Some fl -> all_closed fl -> w_blocks w ≡ₚ (l, z) :: bl -> tree_ok (with_fheap h (v_fs s)) (with_blocks bl w) ->
  files_core held (with_fs (with_fheap h (v_fs s)) (with_lists (delete l (v_lists s)) s)) (with_blocks bl w).
Proof.
  intros HC El Hcl Hb Hok. pose proof HC as [A B C (D1 & D2 & D3) E F G I J].
  assert (NoDup ((l, z) :: bl).*1) as Hnd by by rewrite <-Hb. apply NoDup_cons in Hnd as [Hl Hnd].
  split; try done; simpl.
  - split; [done|]. split; [intros b Hin; apply D2; rewrite Hb; by right|]. intros l'. rewrite lookup_delete_is_Some, D3, Hb. rewrite fmap_cons, elem_of_cons. simpl.
    split; [intros [Hne [->|?]]; done|]. intros Hin. split; [intros ->; done|by right].
  - intros l' fl' [_ El']%lookup_delete_Some. by apply (E l').
  - intros l' i f (fl' & El' & Hi & Hf). apply lookup_delete_Some in El' as [_ El']. apply (F l' i f). by exists fl'.
  - intros x n En. unfold opens. rewrite (msum_delete _ _ l fl) by done. rewrite refs_in_closed; [|done|by apply (node_nonnull held s w) in En]. rewrite Z.sub_0_r. by apply G.
Qed.

Lemma free_list_ok held s w me l fl :
  files_core held s w -> v_lists s !! l = Some fl -> all_closed fl -> 0 <= me ->
  wp (sched_free_list me l s) (fun s' => exists h w', s' = with_fs (with_fheap h (v_fs s)) (with_lists (delete l (v_lists s)) s)
    /\ files_core held s' w' /\ w_tree w' = w_tree w).
Proof.
  intros HC El Hcl Hme. pose proof (fc_blocks _ _ _ HC) as (D1 & D2 & D3). assert (l ∈ (w_blocks w).*1) as Hin by (apply D3; eauto).
  apply list_elem_of_fmap in Hin as ([l' z] & -> & Hin). simpl in *. apply elem_of_Permutation in Hin as [bl Hb].
  destruct (free_block (v_fs s) w me l' z bl (fc_fs _ _ _ HC) Hb Hme) as (h & Eh & Hfree). unfold sched_free_list. cbv zeta. cbn [v_fs with_lists]. rewrite Eh.
  destruct (kfree me l' h) as [h1|]; [|done]. cbn [mbind res_bind] in *. destruct (kmm_givesemaphore me h1) as [h2|]; [|done]. cbn [mbind res_bind wp] in *.
  exists h2, (with_blocks bl w). split; [done|]. split; [|done]. by eapply core_drop_list.
Qed.
Lemma close_loop_ok n held s w me l i fl :
  files_core held s w -> v_lists s !! l = Some fl -> 0 <= me -> 0 <= i -> i + Z.of_nat n = CONFIG_NFILE_DESCRIPTORS ->
  (forall j f, j < i -> file_at (v_lists s) l j f -> f_inode f = NULL) ->
  wp (close_loop n me l i s) (fun s' => exists w' fl', files_core held s' w' /\ same_view w w' /\ v_tasks s' = v_tasks s /\ v_lists s' !! l = Some fl' /\ all_closed fl'
    /\ forall l', l' <> l -> v_lists s' !! l' = v_lists s !! l').
Proof.
  intros HC El Hme. revert s w fl i HC El. induction n as [|n IH]; intros s w fl i HC El Hi Hn Hcl; cbn [close_loop].
  - apply wp_ret. exists w, fl. split; [done|]. split; [done|]. split; [done|]. split; [done|]. split; [|done]. apply Forall_lookup. intros j f Hf.
    apply (Hcl (Z.of_nat j)); [|exists fl; split; [done|]; split; [lia|by rewrite Nat2Z.id]]. apply lookup_lt_Some in Hf. pose proof (fc_length _ _ _ HC l fl El). lia.
  - destruct (file_in_range held s w l fl i HC El) as [f Hf]; [apply andb_true_iff; split; [apply Z.leb_le; lia|apply Z.ltb_lt; lia]|].
    destruct (close_fn (nodes s) f (v_drv s)) as [[[r f1] d] m] eqn:Ec. pose proof (close_null _ _ _ _ _ _ _ _ _ _ HC Hf Ec) as H1.
    apply wp_bind. eapply wp_mono; [by apply (fclose_fn held s w me l i f r f1 d m)|]. intros [r' s1] (-> & w1 & fs1 & -> & _ & HC1 & Hv1).
    eapply wp_mono; [eapply (IH _ w1 _ (i + 1) HC1); [cbn; unfold upd_file; by rewrite lookup_alter_eq, El|lia|lia|]|].
    + intros j g Hj Hg. cbn in Hg. destruct (decide (j = i)) as [->|Hne].
      * apply (file_at_upd _ _ _ (fun _ => f1)) in Hf. by rewrite (file_at_inj _ _ _ _ _ Hg Hf).
      * apply file_at_upd_ne in Hg; [|congruence|done]. apply (Hcl j); [lia|done].
    + intros s' (w' & fl' & HC' & Hv' & Ht & El' & Hcl' & Hoth). exists w', fl'. split; [done|]. split; [split; [rewrite (proj1 Hv')|rewrite (proj2 Hv')]; apply Hv1|].
      split; [done|]. split; [done|]. split; [done|]. intros l' Hl'. rewrite (Hoth l' Hl'). cbn. unfold upd_file. by rewrite lookup_alter_ne.
Qed.

(** ** Tasks that come and go *)

Lemma sharers_task tk p t t' l : tk !! p = Some t ->
  sharers (<[p := t']> tk) l = sharers tk l - (if decide (t_filelist t = l) then 1 else 0) + (if decide (t_filelist t' = l) then 1 else 0).
Proof. intros Et. unfold sharers. by rewrite (msum_update _ tk p t). Qed.

Lemma sharers_other tk p t q t' l : tk !! p = Some t -> t_filelist t = l -> sharers tk l <= 1 -> tk !! q = Some t' -> q <> p -> t_filelist t' <> l.
Proof.
  intros Et Hl Hs Eq Hne El. unfold sharers in Hs. set (f := fun t => if decide (t_filelist t = l) then 1 else 0) in *.
  assert (forall a, 0 <= f a) as Hf by (intros a; unfold f; case_decide; lia).
  pose proof (msum_delete f tk p t Et) as H1. assert (delete p tk !! q = Some t') as Eq' by by rewrite lookup_delete_ne.
  pose proof (msum_ge f _ q t' Hf Eq') as H2. assert (f t = 1 /\ f t' = 1) as [E1 E2] by (unfold f; by rewrite !decide_True). lia.
Qed.

Lemma put_filelist_ok s p l t : v_tasks s !! p = Some t -> put_filelist p l s = Ok (with_tasks (<[p := FTask l (t_errno t)]> (v_tasks s)) s).
Proof. intros Et. unfold put_filelist, task_of. by rewrite Et. Qed.

(** A task leaves the list [l] and the others stay. *)
Lemma tasks_leave m tk p t m' :
  tasks_ok m tk -> tk !! p = Some t -> t_filelist t <> NULL -> NULL ∉ dom m ->
  (forall l, l <> t_filelist t -> m' !! l = m !! l) ->
  (match m' !! t_filelist t with
   | Some fl => fl_sem fl = 1 /\ fl_crefs fl = sharers tk (t_filelist t) - 1 /\ 0 < fl_crefs fl <= SEM_VALUE_MAX
   | None => sharers tk (t_filelist t) = 1
   end) -> tasks_ok m' (<[p := FTask NULL (t_errno t)]> tk).
Proof.
  intros [H1 H2] Et Hl Hnull Hoth Hm. split.
  - intros l fl El. rewrite (sharers_task tk p t _ l Et). simpl. destruct (decide (t_filelist t = l)) as [<-|Hne].
    + rewrite El in Hm. destruct Hm as (A & B & C). rewrite decide_False by congruence. split; [done|]. split; [lia|done].
    + rewrite (Hoth l) in El by congruence. destruct (H1 l fl El) as (A & B & C). rewrite decide_False by (intros <-; apply Hnull, elem_of_dom; eauto).
      split; [done|]. split; [lia|done].
  - intros q t'. rewrite lookup_insert. case_decide; [intros [= <-]; by left|]. intros Eq. destruct (H2 q t' Eq) as [?|Hq]; [by left|]. right.
    destruct (decide (t_filelist t' = t_filelist t)) as [E|E]; [|by rewrite Hoth]. rewrite E. destruct (m' !! t_filelist t) as [fl|]; [eauto|].
    destruct (sharers_other tk p t q t' (t_filelist t) Et eq_refl ltac:(lia) Eq ltac:(congruence) E).
Qed.

Lemma lists_nonnull held s w : files_core held s w -> NULL ∉ dom (v_lists s).
Proof. intros HC (fl & El)%elem_of_dom. by apply (list_nonnull held s w) in El. Qed.

(** The lists after a task has released its files. *)
Definition drop_list (l : ptr) (m : gmap Z filelist) : gmap Z filelist :=
  match m !! l with
  | None => m
  | Some fl => if fl_crefs fl =? 1 then delete l m else alter (set_fl_crefs (fl_crefs fl - 1)) l m
  end.

Lemma releaselist_ok held s w me l fl :
  files_core held s w -> v_lists s !! l = Some fl -> 0 < fl_crefs fl <= SEM_VALUE_MAX -> 0 <= me ->
  wp (files_releaselist me l s) (fun s' => exists w', files_core held s' w' /\ w_tree w' = w_tree w /\ v_tasks s' = v_tasks s /\ v_lists s' = drop_list l (v_lists s)).
Proof.
  intros HC El Hc Hme. pose proof (list_nonnull _ _ _ _ _ HC El) as Hl. unfold files_releaselist, drop_list. rewrite El. rewrite decide_False by done.
  rewrite (deref_Some _ _ fl Hl El). cbn [mbind res_bind]. cbv zeta. rewrite s16_id by (unfold SEM_VALUE_MAX in *; lia). rewrite store_valid by (split; eauto). cbn [mbind res_bind].
  set (s1 := with_lists _ s). assert (files_core held s1 w) as HC1 by by apply core_meta.
  destruct (Z.eqb_spec (fl_crefs fl) 1) as [E1|E1].
  2:{ rewrite (proj2 (Z.leb_gt (fl_crefs fl - 1) 0)) by lia. apply wp_ret. by exists w. }
  rewrite E1. cbn [Z.sub Z.add Z.opp Z.leb Z.compare Z.pos_sub]. apply wp_bind. pose proof nfile_range as Hn.
  eapply wp_mono; [eapply (close_loop_ok _ held s1 w me l 0); [done|unfold s1; cbn; by rewrite lookup_alter_eq, El|done|done|lia|]|].
  { intros j f Hj (? & _ & ? & _). lia. }
  intros s2 (w2 & fl2 & HC2 & Hv2 & Ht2 & El2 & Hcl2 & Hoth). eapply wp_mono; [by apply (free_list_ok held s2 w2 me l fl2)|].
  intros s3 (h & w3 & -> & HC3 & Hv3). exists w3. split; [done|]. split; [rewrite Hv3; apply Hv2|]. split; [done|]. cbn. apply map_eq. intros l'.
  rewrite !lookup_delete. case_decide; [done|]. rewrite Hoth by done. unfold s1. cbn. by rewrite lookup_alter_ne.
Qed.

Lemma releasefiles_ok held s w me p t :
  files_inv held s w -> v_tasks s !! p = Some t -> 0 <= me ->
  wp (sched_releasefiles me p s) (fun '(ret, s') => ret = 0 /\ exists w', files_inv held s' w' /\ w_tree w' = w_tree w
    /\ v_tasks s' = <[p := FTask NULL (t_errno t)]> (v_tasks s) /\ v_lists s' = drop_list (t_filelist t) (v_lists s)).
Proof.
  intros [HC HT'] Et Hme. unfold sched_releasefiles, task_of. rewrite Et. cbn [mbind res_bind]. pose proof (lists_nonnull _ _ _ HC) as Hnn.
  destruct (decide (t_filelist t = NULL)) as [Hl|Hl].
  - unfold files_releaselist. rewrite decide_True by done. cbn [mbind res_bind]. rewrite (put_filelist_ok s p NULL t Et). apply wp_ret. split; [done|]. exists w.
    assert (<[p := FTask NULL (t_errno t)]> (v_tasks s) = v_tasks s) as E by (apply insert_id; rewrite Et; destruct t; simpl in *; by rewrite Hl). split; [split|].
    + by apply core_tasks.
    + cbn. by rewrite E.
    + split; [done|]. split; [done|]. unfold drop_list. cbn. rewrite Hl. destruct (v_lists s !! NULL) eqn:E0; [|done].
      destruct Hnn. apply elem_of_dom. eauto.
  - destruct (proj2 HT' p t Et) as [?|[fl El]]; [done|]. destruct (proj1 HT' _ fl El) as (Hs & Hc & Hr).
    apply wp_bind. eapply wp_mono; [by apply (releaselist_ok held s w me (t_filelist t) fl)|]. intros s1 (w1 & HC1 & Hv1 & Ht1 & El1).
    rewrite (put_filelist_ok s1 p NULL t) by by rewrite Ht1. apply wp_ret. split; [done|]. exists w1. cbn. rewrite Ht1. split; [split|done].
    + by apply core_tasks.
    + cbn. apply (tasks_leave (v_lists s)); try done.
      * intros l Hne. rewrite El1. unfold drop_list. rewrite El. case_match; [by rewrite lookup_delete_ne|by rewrite lookup_alter_ne].
      * rewrite El1. unfold drop_list. rewrite El. destruct (Z.eqb_spec (fl_crefs fl) 1) as [E1|E1]; [rewrite lookup_delete_eq; lia|].
        rewrite lookup_alter_eq, El. simpl. split; [done|]. split; lia.
Qed.
(** A task that had no list joins [l]. *)
Lemma tasks_join m tk p t l e m' fl :
  tasks_ok m tk -> tk !! p = Some t -> t_filelist t = NULL -> l <> NULL -> NULL ∉ dom m ->
  (forall l', l' <> l -> m' !! l' = m !! l') -> m' !! l = Some fl -> fl_sem fl = 1 -> fl_crefs fl = sharers tk l + 1 -> 0 < fl_crefs fl <= SEM_VALUE_MAX ->
  tasks_ok m' (<[p := FTask l e]> tk).
Proof.
  intros [H1 H2] Et Ht Hl Hnn Hoth El Hs Hc Hr. split.
  - intros l' fl' El'. rewrite (sharers_task tk p t _ l' Et). simpl. rewrite Ht. destruct (decide (l = l')) as [<-|Hne].
    + simplify_eq. rewrite decide_False by congruence. split; [done|]. split; [lia|done].
    + rewrite (Hoth l') in El' by congruence. destruct (H1 l' fl' El') as (A & B & C). rewrite decide_False by (intros <-; apply Hnn, elem_of_dom; eauto).
      split; [done|]. split; [lia|done].
  - intros q t'. rewrite lookup_insert. case_decide; [intros [= <-]; right; simpl; eauto|]. intros Eq. destruct (H2 q t' Eq) as [?|Hq]; [by left|]. right.
    destruct (decide (t_filelist t' = l)) as [->|]; [eauto|by rewrite Hoth].
Qed.

Lemma sharers_none m tk l : tasks_ok m tk -> l <> NULL -> m !! l = None -> sharers tk l = 0.
Proof.
  intros [_ H2] Hl El. apply msum_zero. intros p t Et. rewrite decide_False; [done|]. intros <-. destruct (H2 p t Et) as [?|[? ?]]; [done|congruence].
Qed.

(** A thread shares the list of its creator. *)
Lemma pthreadfiles_ok held s w me t p tp fl :
  files_inv held s w -> v_tasks s !! me = Some t -> v_lists s !! t_filelist t = Some fl -> fl_crefs fl < SEM_VALUE_MAX ->
  v_tasks s !! p = Some tp -> t_filelist tp = NULL ->
  wp (sched_setuppthreadfiles me p s) (fun '(ret, s') => ret = 0 /\ files_inv held s' w
    /\ s' = with_tasks (<[p := FTask (t_filelist t) (t_errno tp)]> (v_tasks s)) (with_lists (alter (set_fl_crefs (fl_crefs fl + 1)) (t_filelist t) (v_lists s)) s)).
Proof.
  intros [HC HT'] Et El Hc Ep Hp. pose proof (list_nonnull _ _ _ _ _ HC El) as Hl. destruct (proj1 HT' _ _ El) as (Hs & Hsh & Hr).
  unfold sched_setuppthreadfiles. rewrite (getfiles_ok s me t Et). cbn [mbind res_bind]. rewrite (put_filelist_ok s p _ tp Ep). cbn [mbind res_bind].
  unfold files_addreflist. rewrite decide_False by done. cbn [v_lists with_tasks]. rewrite (deref_Some _ _ fl Hl El). cbn [mbind res_bind].
  rewrite s16_id by (unfold SEM_VALUE_MAX in *; lia). rewrite store_valid by (split; eauto). apply wp_ret. split; [done|]. split; [|done]. split.
  - apply (core_meta held (with_tasks _ s)); [done|]. by apply core_tasks.
  - cbn. apply (tasks_join (v_lists s) (v_tasks s) p tp (t_filelist t) _ _ (set_fl_crefs (fl_crefs fl + 1) fl) HT' Ep Hp Hl (lists_nonnull _ _ _ HC)).
    + intros l' Hne. by rewrite lookup_alter_ne.
    + by rewrite lookup_alter_eq, El.
    + done.
    + simpl. lia.
    + simpl. lia.
Qed.

(** ** The files that a new task inherits *)

(** The counts of [m'] are at most [k] higher and the rest of the inodes is as in [m]. *)
Definition near (k : Z) (m m' : gmap Z inode) : Prop :=
  forall y n', m' !! y = Some n' -> exists n, m !! y = Some n /\ i_ops n' = i_ops n /\ i_flags n' = i_flags n /\ i_crefs n' <= i_crefs n + k.

Lemma near_refl m : near 0 m m.
Proof. intros y n E. exists n. repeat split; [done|lia]. Qed.

Lemma near_trans j k m1 m2 m3 : near j m1 m2 -> near k m2 m3 -> near (j + k) m1 m3.
Proof.
  intros H1 H2 y n3 E3. destruct (H2 y n3 E3) as (n2 & E2 & A2 & B2 & C2). destruct (H1 y n2 E2) as (n1 & E1 & A1 & B1 & C1). exists n1.
  split; [done|]. split; [congruence|]. split; [congruence|lia].
Qed.

Lemma near_mono j k m m' : j <= k -> near j m m' -> near k m m'.
Proof. intros Hjk H y n' E. destruct (H y n' E) as (n & E1 & A & B & C). exists n. repeat split; try done. lia. Qed.

Lemma near_ref x m : near 1 m (ref x m).
Proof.
  intros y n'. unfold ref. rewrite lookup_alter. case_decide; [subst|intros E; exists n'; repeat split; [done|lia]].
  destruct (m !! y) as [n|]; [|done]. intros [= <-]. exists n. repeat split. simpl. lia.
Qed.

Lemma near_unref x m : near 0 m (unref x m).
Proof.
  intros y n'. unfold unref. destruct (m !! x) as [n|] eqn:En; [|apply near_refl]. case_match.
  - intros [_ E]%lookup_delete_Some. by apply near_refl.
  - rewrite lookup_alter. case_decide; [subst|apply near_refl]. rewrite En. intros [= <-]. exists n. repeat split. simpl. lia.
Qed.

Lemma near_dup m f1 f2 d r fo d' m' : dup_fn m f1 f2 d = (r, fo, d', m') -> near 1 m m'.
Proof.
  assert (near 1 m m) as H1 by (eapply near_mono; [|apply near_refl]; lia). unfold dup_fn. cbv zeta.
  destruct (m !! f_inode f1) as [n|]; [|by intros [= _ _ _ <-]]. destruct (INODE_IS_MOUNTPT n); [by intros [= _ _ _ <-]|].
  destruct (close_fn m f2 d) as [[[rc fc] dc] mc] eqn:Ec. assert (near 0 m mc) as Hc.
  { unfold close_fn in Ec. destruct (m !! f_inode f2); [|injection Ec as <- <- <- <-; apply near_refl]. destruct (run_method _ _ _ _) as [[? ?] ?].
    injection Ec as <- <- <- <-. apply near_unref. }
  assert (near 1 m mc) as Hc1 by (eapply near_mono; [|exact Hc]; lia).
  destruct (rc <? 0); [by intros [= _ _ _ <-]|]. destruct (ref (f_inode f1) mc !! f_inode f1) as [n1|]; [|by intros [= _ _ _ <-]].
  assert (near 1 m (ref (f_inode f1) mc)) as Hr by apply (near_trans 0 1 _ mc _ Hc), near_ref.
  destruct (run_method _ _ _ _) as [[ro fo'] dd]. case_match; intros [= _ _ _ <-]; [|done]. by apply (near_trans 1 0 _ _ _ Hr), near_unref.
Qed.

(** The file [g] of the new task comes from the file [f] of its creator. *)
Definition inherits (m : gmap Z inode) (f g : file) : Prop :=
  (f_inode g = NULL \/ (f_inode g = f_inode f /\ f_oflags g = f_oflags f))
  /\ (forall n, m !! f_inode f = Some n -> INODE_IS_MOUNTPT n = false -> meth op_open n = None -> f_inode g = f_inode f /\ f_oflags g = f_oflags f /\ f_pos g = f_pos f).

Lemma dup_inherits m f1 f2 d r fo d' m' : f_inode f2 = NULL -> m !! NULL = None -> dup_fn m f1 f2 d = (r, fo, d', m') -> inherits m f1 fo.
Proof.
  intros H2 Hnull. unfold dup_fn. cbv zeta. destruct (m !! f_inode f1) as [n|] eqn:En; [|intros [= <- <- <- <-]; split; [by left|intros ?; congruence]].
  destruct (INODE_IS_MOUNTPT n) eqn:Em; [intros [= <- <- <- <-]; split; [by left|intros n' En' Em'; congruence]|].
  unfold close_fn. rewrite H2, Hnull. cbn [Z.ltb Z.compare]. unfold ref. rewrite lookup_alter_eq, En. cbn [fmap option_fmap option_map].
  set (n1 := set_i_crefs (i_crefs n + 1) n). set (f0 := File _ _ _ _). change (meth op_open n1) with (meth op_open n).
  destruct (meth op_open n) as [m0|] eqn:Eo.
  - cbn [fmap option_fmap option_map run_method]. pose proof (meth_keeps op_open (fun g => forall a, keeps (g a)) n ko_open m0 Eo None n1 f0 d) as [Hk1 Hk2].
    destruct (m0 None n1 f0 d) as [[ro fo'] dd]. simpl in Hk1, Hk2.
    case_match; intros [= <- <- <- <-]; (split; [|intros n' En' _ Eo'; congruence]); [by left|by right].
  - cbn. intros [= <- <- <- <-]. split; [by right|done].
Qed.
(** Only [errno] of the task [me] may differ. *)
Definition same_tasks (me : Z) (tk tk' : gmap Z ftask) : Prop :=
  forall p, match tk !! p, tk' !! p with Some t, Some t' => t_filelist t' = t_filelist t /\ (p <> me -> t' = t) | None, None => True | _, _ => False end.

Lemma same_tasks_refl me tk : same_tasks me tk tk.
Proof. intros p. by destruct (tk !! p). Qed.

Lemma same_tasks_err me e tk tk' : same_tasks me tk tk' -> same_tasks me tk (set_err me e tk').
Proof.
  intros H p. specialize (H p). unfold set_err. rewrite lookup_alter. case_decide; [subst|done]. destruct (tk !! p) as [t|], (tk' !! p) as [t'|]; simpl; try done. split; [apply H|done].
Qed.

Lemma same_tasks_trans me tk1 tk2 tk3 : same_tasks me tk1 tk2 -> same_tasks me tk2 tk3 -> same_tasks me tk1 tk3.
Proof.
  intros H1 H2 p. specialize (H1 p). specialize (H2 p). destruct (tk1 !! p) as [t1|], (tk2 !! p) as [t2|], (tk3 !! p) as [t3|]; try done.
  destruct H1 as [A1 B1], H2 as [A2 B2]. split; [congruence|]. intros Hp. rewrite (B2 Hp). by apply B1.
Qed.

Lemma same_tasks_get me tk tk' p t : same_tasks me tk tk' -> tk !! p = Some t -> exists t', tk' !! p = Some t' /\ t_filelist t' = t_filelist t.
Proof. intros H Et. specialize (H p). rewrite Et in H. destruct (tk' !! p) as [t'|]; [|done]. exists t'. by split; [|apply H]. Qed.

Lemma err_result_tasks me r s s' : same_tasks me (v_tasks s') (v_tasks s) -> same_tasks me (v_tasks s') (v_tasks (err_result me r s).2).
Proof. intros H. unfold err_result. case_match; [by apply same_tasks_err|done]. Qed.

Definition room_for (k : Z) s : Prop := map_Forall (fun _ n => i_crefs n + k <= SEM_VALUE_MAX) (nodes s).

Lemma room_near j k s s' : room_for k s -> near j (nodes s) (nodes s') -> room_for (k - j) s'.
Proof. intros H Hn y n' E. destruct (Hn y n' E) as (n & En & _ & _ & Hc). specialize (H y n En). simpl in *. lia. Qed.

Lemma room_one k s : 1 <= k -> room_for k s -> room s.
Proof. intros Hk H y n E. specialize (H y n E). simpl in *. lia. Qed.

(** What cloning leaves: only files of [l2] from [i] on change. *)
Definition cloned (i n : Z) (l1 l2 : ptr) (me : Z) s s' : Prop :=
  near n (nodes s) (nodes s') /\ same_tasks me (v_tasks s) (v_tasks s')
  /\ (forall l j f, l <> l2 \/ j < i \/ i + n <= j -> file_at (v_lists s') l j f <-> file_at (v_lists s) l j f)
  /\ (forall j f, i <= j < i + n -> file_at (v_lists s) l1 j f -> exists g, file_at (v_lists s') l2 j g
        /\ if decide (f_inode f = NULL) then f_inode g = NULL else inherits (nodes s) f g).

Lemma inherits_near k m m' f g n0 : near k m m' -> m' !! f_inode f = Some n0 -> inherits m' f g -> inherits m f g.
Proof.
  intros Hn E0 [H1 H2]. split; [done|]. intros n En Hm Ho. destruct (Hn _ _ E0) as (n' & En' & A & B & _). simplify_eq. apply (H2 n0 E0).
  - unfold INODE_IS_MOUNTPT in *. by rewrite B.
  - unfold meth in *. by rewrite A.
Qed.

Lemma file_list_Some m l i f : file_at m l i f -> is_Some (m !! l).
Proof. intros (fl & El & _). eauto. Qed.

(** The loop after the first file. *)
Lemma cloned_step i n l1 l2 me s s1 s2 f2 g :
  0 <= n -> l1 <> l2 -> file_at (v_lists s) l2 i f2 -> 0 <= i ->
  near 1 (nodes s) (nodes s1) -> same_tasks me (v_tasks s) (v_tasks s1) -> v_lists s1 = upd_file l2 i (fun _ => g) (v_lists s) ->
  (forall f, file_at (v_lists s) l1 i f -> if decide (f_inode f = NULL) then f_inode g = NULL else inherits (nodes s) f g) ->
  (forall l j f, file_at (v_lists s1) l j f -> f_inode f <> NULL -> exists k, nodes s1 !! f_inode f = Some k) ->
  cloned (i + 1) n l1 l2 me s1 s2 -> cloned i (n + 1) l1 l2 me s s2.
Proof.
  intros Hn Hne Hf2 Hi Hn1 Ht1 El Hg Hlive (Hn2 & Ht2 & H3 & H4). split; [rewrite Z.add_comm; by eapply near_trans|]. split; [by eapply same_tasks_trans|]. split.
  - intros l j f Hlj. rewrite H3 by (destruct Hlj as [?|[?|?]]; [by left|right; left; lia|right; right; lia]). rewrite El. apply file_at_upd_ne; [|done].
    intros [= -> ->]. destruct Hlj as [?|[?|?]]; [done|lia|lia].
  - intros j f Hj Hf. destruct (decide (j = i)) as [->|Hji].
    + exists g. split; [|by apply Hg]. apply H3; [right; left; lia|]. rewrite El. by apply (file_at_upd _ _ _ (fun _ => g) f2).
    + assert (file_at (v_lists s1) l1 j f) as Hf1 by (rewrite El; apply file_at_upd_ne; [congruence|done|done]).
      destruct (H4 j f ltac:(lia) Hf1) as (g' & Hg' & Hi'). exists g'. split; [done|]. case_decide as Hx; [done|].
      destruct (Hlive _ _ _ Hf1 Hx) as [k Ek]. by eapply inherits_near.
Qed.

Lemma clone_loop_ok n held s w me t l2 i :
  files_inv held s w -> v_tasks s !! me = Some t -> t_filelist t <> NULL -> t_filelist t <> l2 -> is_Some (v_lists s !! l2) -> 0 <= me -> 0 <= i ->
  i + Z.of_nat n <= CONFIG_NFILE_DESCRIPTORS -> room_for (Z.of_nat n) s ->
  (forall j f, i <= j -> file_at (v_lists s) l2 j f -> f_inode f = NULL) ->
  wp (clone_loop n me (t_filelist t) l2 i s) (fun s' => exists w', files_inv held s' w' /\ same_view w w' /\ cloned i (Z.of_nat n) (t_filelist t) l2 me s s').
Proof.
  intros Hinv Et Hl Hne [fl2 El2] Hme. revert s w t fl2 i Hinv Et Hl Hne El2. induction n as [|n IH]; intros s w t fl2 i Hinv Et Hl Hne El2 Hi Hn Hroom Hcl; cbn [clone_loop].
  { apply wp_ret. exists w. split; [done|]. split; [done|]. split; [apply near_refl|]. split; [apply same_tasks_refl|]. split; [done|]. intros j f Hj. lia. }
  assert (fd_range i = true) as Hr by (apply andb_true_iff; split; [apply Z.leb_le; lia|apply Z.ltb_lt; lia]).
  destruct (fd_file held s w me t Hinv Et Hl i Hr) as [f Hf]. rewrite (fd_get held s w t Hinv i f Hf). cbn [mbind res_bind].
  destruct (file_in_range held s w l2 fl2 i (proj1 Hinv) El2 Hr) as [f2 Hf2]. pose proof (Hcl i f2 ltac:(lia) Hf2) as Hx2.
  assert (forall s1 g w1, files_inv held s1 w1 -> same_view w w1 -> near 1 (nodes s) (nodes s1) -> same_tasks me (v_tasks s) (v_tasks s1) ->
    v_lists s1 = upd_file l2 i (fun _ => g) (v_lists s) -> (if decide (f_inode f = NULL) then f_inode g = NULL else inherits (nodes s) f g) ->
    wp (clone_loop n me (t_filelist t) l2 (i + 1) s1) (fun s' => exists w', files_inv held s' w' /\ same_view w w' /\ cloned i (Z.of_nat (S n)) (t_filelist t) l2 me s s')) as Hstep.
  { intros s1 g w1 Hinv1 Hv1 Hn1 Ht1 El1 Hg. destruct (same_tasks_get _ _ _ _ _ Ht1 Et) as (t1 & Et1 & Hft). rewrite <-Hft. rewrite <-Hft in Hl, Hne.
    assert (exists fl2', v_lists s1 !! l2 = Some fl2') as [fl2' El2'] by (rewrite El1; unfold upd_file; rewrite lookup_alter_eq, El2; by eexists).
    eapply wp_mono; [apply (IH s1 w1 t1 fl2' (i + 1) Hinv1 Et1 Hl Hne El2'); [lia|lia| |]|].
    - replace (Z.of_nat n) with (Z.of_nat (S n) - 1) by lia. exact (room_near 1 _ s s1 Hroom Hn1).
    - intros j f' Hj Hf'. apply (Hcl j f'); [lia|]. rewrite El1 in Hf'. apply file_at_upd_ne in Hf'; [done|intros [= ->]; lia|done].
    - intros s' (w' & Hinv' & Hv' & Hc'). exists w'. split; [done|]. split; [split; [rewrite (proj1 Hv')|rewrite (proj2 Hv')]; apply Hv1|].
      replace (Z.of_nat (S n)) with (Z.of_nat n + 1) by lia. eapply (cloned_step _ _ _ _ _ s s1 s' f2 g); try done; [lia| |].
      + intros f' Hf'. rewrite Hft in Hf'. by rewrite (file_at_inj _ _ _ _ _ Hf' Hf).
      + intros l j f' Hf' Hx'. destruct (fc_open _ _ _ (proj1 Hinv1) l j f' Hf' Hx') as (k & Ek & _). eauto. }
  destruct (decide (f_inode f <> NULL)) as [Hx|Hx].
  - destruct (dup_fn (nodes s) f f2 (v_drv s)) as [[[r g] d] m] eqn:Ed. apply wp_bind, wp_bind.
    eapply wp_mono; [apply (files_dup_ok held s w me t (t_filelist t) i f l2 i f2 r g d m); try done; [apply (room_one (Z.of_nat (S n))); [lia|done]|congruence]|].
    intros p (fs & w1 & Hm & -> & Hinv1 & Hv1). destruct (err_result me r (after_file s l2 i g d fs)) as [ret s1] eqn:Ee. apply wp_ret.
    assert (nodes s1 = f_nodes fs /\ v_lists s1 = upd_file l2 i (fun _ => g) (v_lists s) /\ same_tasks me (v_tasks s) (v_tasks s1) /\ files_inv held s1 w1) as (E1 & E2 & E3 & E4).
    { unfold err_result in Ee. case_match; injection Ee as <- <-; (split; [done|]); (split; [done|]).
      - split; [apply same_tasks_err, same_tasks_refl|by apply inv_err].
      - split; [apply same_tasks_refl|done]. }
    apply (Hstep s1 g w1); try done; [rewrite E1, Hm; by eapply near_dup|]. rewrite decide_False by done.
    eapply dup_inherits; [done| |done]. by apply (null_node held s w).
  - apply wp_bind, wp_ret. apply (Hstep s f2 w); try done; [eapply near_mono; [|apply near_refl]; lia|apply same_tasks_refl|by rewrite upd_file_id|].
    by rewrite decide_True by (by destruct (decide (f_inode f = NULL))).
Qed.
(** The files of a new task: those of its creator that are cloned, the others closed. *)
Definition task_files s s' (l1 l2 : ptr) : Prop :=
  v_lists s !! l2 = None /\ (forall l j f, l <> l2 -> file_at (v_lists s') l j f <-> file_at (v_lists s) l j f)
  /\ (forall j f, file_at (v_lists s) l1 j f -> exists g, file_at (v_lists s') l2 j g
        /\ if bool_decide (f_inode f <> NULL) && (j <? NFDS_TOCLONE) then inherits (nodes s) f g else f_inode g = NULL).

Lemma clone_range : 0 < NFDS_TOCLONE <= CONFIG_NFILE_DESCRIPTORS.
Proof. pose proof nfile_range. unfold NFDS_TOCLONE. destruct CONFIG_FDCLONE_STDIO; simpl; [|lia]. case_match; [apply Z.ltb_lt in H0|]; lia. Qed.

Lemma new_list_file m l j f : file_at (<[l := new_list]> m) l j f -> f_inode f = NULL.
Proof. intros (fl & El & _ & Hf). rewrite lookup_insert_eq in El. injection El as <-. simpl in Hf. by apply lookup_replicate in Hf as [-> _]. Qed.

Lemma new_list_at m l j : fd_range j = true -> exists f, file_at (<[l := new_list]> m) l j f.
Proof.
  intros [H1%Z.leb_le H2%Z.ltb_lt]%andb_true_iff. exists (File 0 0 NULL 0), new_list. split; [apply lookup_insert_eq|]. split; [done|]. apply lookup_replicate. split; [done|lia].
Qed.

Lemma new_list_ne m l l' j f : l' <> l -> file_at (<[l := new_list]> m) l' j f <-> file_at m l' j f.
Proof. intros Hne. unfold file_at. by rewrite lookup_insert_ne by congruence. Qed.

(** The list of a new task before the files are cloned. *)
Lemma new_task_list held s w p tp l h w1 :
  files_inv held s w -> v_tasks s !! p = Some tp -> t_filelist tp = NULL -> l <> NULL -> v_lists s !! l = None ->
  files_core held (with_lists (<[l := new_list]> (v_lists s)) (with_fs (with_fheap h (v_fs s)) s)) w1 ->
  files_inv held (with_tasks (<[p := FTask l (t_errno tp)]> (v_tasks s)) (with_lists (<[l := new_list]> (v_lists s)) (with_fs (with_fheap h (v_fs s)) s))) w1.
Proof.
  intros [HC HT'] Ep Hp Hl El HC1. split; [by apply core_tasks|]. cbn.
  apply (tasks_join (v_lists s) (v_tasks s) p tp l _ _ new_list HT' Ep Hp Hl (lists_nonnull _ _ _ HC)).
  - intros l' Hne. by rewrite lookup_insert_ne by congruence.
  - apply lookup_insert_eq.
  - done.
  - simpl. by rewrite (sharers_none _ _ _ HT' Hl El).
  - simpl. unfold SEM_VALUE_MAX. lia.
Qed.

Lemma setuptaskfiles_ok held s w me t p tp :
  files_inv held s w -> v_tasks s !! me = Some t -> v_tasks s !! p = Some tp -> t_filelist tp = NULL -> p <> me -> 0 <= me ->
  room_for CONFIG_NFILE_DESCRIPTORS s ->
  wp (sched_setuptaskfiles me p s) (fun '(ret, s') => exists w' l2 tp', files_inv held s' w' /\ w_tree w' = w_tree w /\ v_tasks s' !! p = Some tp' /\ t_filelist tp' = l2
    /\ if decide (l2 = NULL) then ret = - ENOMEM /\ v_lists s' = v_lists s else ret = 0 /\ task_files s s' (t_filelist t) l2).
Proof.
  intros Hinv Et Ep Hp Hpm Hme Hroom. pose proof Hinv as [HC HT']. unfold sched_setuptaskfiles. apply wp_bind. eapply wp_mono; [by apply (alloclist_ok held s w me)|].
  intros [l2 s1] (w1 & h & HC1 & Hv1 & H1). destruct (decide (l2 = NULL)) as [->|Hl2].
  { rewrite H1 in HC1 |- *. rewrite (put_filelist_ok _ p NULL tp) by done. apply wp_ret. exists w1, NULL, (FTask NULL (t_errno tp)). rewrite decide_True by done.
    assert (<[p := FTask NULL (t_errno tp)]> (v_tasks s) = v_tasks s) as E by (apply insert_id; rewrite Ep; destruct tp; simpl in *; by rewrite Hp).
    split; [split; [by apply core_tasks|cbn; by rewrite E]|]. split; [done|]. split; [cbn; by rewrite lookup_insert_eq|done]. }
  destruct H1 as [El2 Es1]. rewrite Es1 in HC1 |- *. rewrite (put_filelist_ok _ p l2 tp) by done. cbn [mbind res_bind].
  pose proof (new_task_list held s w p tp l2 h w1 Hinv Ep Hp Hl2 El2 HC1) as Hinv2. cbn [v_tasks with_lists with_fs]. set (s2 := with_tasks _ _) in *.
  assert (v_tasks s2 !! me = Some t) as Et2 by (unfold s2; cbn; by rewrite lookup_insert_ne).
  assert (v_tasks s2 !! p = Some (FTask l2 (t_errno tp))) as Ep2 by (unfold s2; cbn; by rewrite lookup_insert_eq).
  rewrite (getfiles_ok s2 me t Et2). cbn [mbind res_bind]. pose proof clone_range as Hcr.
  destruct (decide (t_filelist t <> NULL)) as [Hl|Hl].
  - assert (t_filelist t <> l2) as Hne by (intros E; destruct (proj2 HT' me t Et) as [?|[fl Efl]]; [done|]; rewrite E in Efl; congruence).
    apply wp_bind. eapply wp_mono; [apply (clone_loop_ok _ held s2 w1 me t l2 0 Hinv2 Et2 Hl Hne); [unfold s2; cbn; rewrite lookup_insert_eq; eauto|done|done|lia| |]|].
    + intros y n En. specialize (Hroom y n En). simpl in *. lia.
    + intros j f _ Hf. exact (new_list_file (v_lists s) l2 j f Hf).
    + intros s3 (w3 & Hinv3 & Hv3 & (_ & Ht3 & Hoth & Hcl)). apply wp_ret. destruct (same_tasks_get _ _ _ _ _ Ht3 Ep2) as (tp' & Ep3 & Hfp). exists w3, l2, tp'.
      split; [done|]. split; [by rewrite (proj1 Hv3)|]. split; [done|]. split; [done|]. rewrite decide_False by done. split; [done|]. split; [done|]. split.
      * intros l j f Hlne. rewrite Hoth by by left. by apply new_list_ne.
      * intros j f Hf. assert (file_at (v_lists s2) (t_filelist t) j f) as Hf2 by by apply new_list_ne. pose proof (file_range _ _ _ _ _ _ HC Hf) as Hr.
        destruct (Z.ltb_spec j NFDS_TOCLONE) as [Hj|Hj].
        -- destruct (Hcl j f) as (g & Hg & Hi); [apply andb_true_iff in Hr as [Hr%Z.leb_le _]; lia|done|]. exists g. split; [done|]. rewrite andb_true_r.
           destruct (decide (f_inode f = NULL)); [by rewrite bool_decide_false by tauto|by rewrite bool_decide_true].
        -- destruct (new_list_at (v_lists s) l2 j Hr) as [g Hg]. exists g. rewrite andb_false_r. split; [apply Hoth; [right; right; lia|done]|by eapply new_list_file].
  - apply wp_bind, wp_ret, wp_ret. exists w1, l2, (FTask l2 (t_errno tp)). split; [done|]. split; [done|]. split; [done|]. split; [done|]. rewrite decide_False by done.
    split; [done|]. split; [done|]. split; [intros l j f Hlne; by apply new_list_ne|]. intros j f (fl & Efl & _). destruct (decide (t_filelist t = NULL)) as [E|]; [|done].
    rewrite E in Efl. by destruct (list_nonnull held s w _ _ HC Efl).
Qed.

End lists.
