(* ===== verification/FilesThm.v ===== *)
(** * Open files: theorems

    Along any sequence of calls the references of the inodes and of the lists are
    counted right, [open] takes the lowest free descriptor, a removed device lives
    until its last descriptor is closed, and a new task inherits descriptors. *)

From S2P Require Import Prelude Queue Mm MmInv MmHeap MmInit MmBlocks MmSpec Sched Sem KHeap Inode InodeTree InodeSpec InodeThm Files FilesSpec FilesCalls FilesLists.

(** ** The type of a marked inode *)

Lemma land_marked f m : m = 2 \/ m = 3 -> Z.land (u16 (Z.lor f FSNODEFLAG_DELETED)) m = Z.land f m.
Proof.
  intros Hm. apply Z.bits_inj'. intros i Hi. rewrite !Z.land_spec. destruct (Z.testbit m i) eqn:Em; [|by rewrite !andb_false_r]. rewrite !andb_true_r.
  assert (i < 2) as Hi2.
  { destruct (Z_lt_le_dec i 2) as [|Hge]; [done|]. rewrite Z.bits_above_log2 in Em; [done|lia|]. destruct Hm as [->| ->]; simpl; lia. }
  unfold u16. rewrite Z.mod_pow2_bits_low by lia. rewrite Z.lor_spec. assert (i = 0 \/ i = 1) as [->| ->] by lia; apply orb_false_r.
Qed.

Lemma openable_marked n : openable (marked n) = openable n.
Proof.
  unfold openable, INODE_IS_DRIVER, INODE_IS_MOUNTPT, FSNODEFLAG_TYPE_MASK, FSNODEFLAG_TYPE_MOUNTPT. cbn [marked set_i_flags i_flags].
  rewrite !land_marked by tauto. done.
Qed.

Lemma body_openable n n' : ibody n' = ibody n -> i_crefs n' = i_crefs n /\ i_ops n' = i_ops n /\ openable n' = openable n.
Proof.
  intros E. pose proof (f_equal i_crefs E) as E1. pose proof (f_equal i_ops E) as E2. pose proof (f_equal i_flags E) as E3. simpl in *.
  split; [done|]. split; [done|]. unfold openable, INODE_IS_DRIVER, INODE_IS_MOUNTPT. by rewrite E3.
Qed.

Section thm.
  Context {HT D : Type} {HK : KHeap HT} {HKS : KHeapSpec HT} {DR : Drivers D} {DO : DriversOk D} {FC : FilesConfig}.
  Implicit Types (s : vfs HT D).

Abbreviation nodes s := (f_nodes (v_fs s)).

(** ** Registration beside open files *)

Lemma register_core held s w me path ops priv :
  files_core held s w -> 0 <= me -> Z.of_nat (length path) < 2 ^ 31 -> ops = 0 \/ is_Some (fops ops) ->
  wp (register_driver me path ops priv (v_fs s)) (fun '(_, f) => exists w', files_core held (with_fs f s) w').
Proof.
  intros HC Hme Hlen Hops. pose proof (fc_fs _ _ _ HC) as Hok. unfold tree_ok in Hok.
  eapply wp_mono; [apply (@register_ok HT HK (framed (w_blocks w)) (v_fs s) (w_tree w) (w_gone w) me path INODE_SET_DRIVER ops priv (-1) driver_type Hok (fc_sem _ _ _ HC) Hme Hlen); done|].
  intros [ret f] (Hs & t' & Hok' & Hreg & Hfr & _). exists (FView t' (w_gone w) (w_blocks w)). eapply core_nodes; try done; [apply HC|]. split.
  - intros y n' En'. destruct (nodes s !! y) as [n|] eqn:En.
    + left. exists n. pose proof (rg_kept _ _ _ _ _ Hreg y ltac:(eauto)) as Hb. rewrite En, En' in Hb. apply (inj Some) in Hb. by apply body_openable in Hb as (-> & -> & ->).
    + right. destruct (Hfr y n' En En') as [Hc Ho]. split; [done|]. split; [done|]. destruct Ho as [?| ->]; [by left|done].
  - intros y n En. left. pose proof (rg_kept _ _ _ _ _ Hreg y ltac:(eauto)) as Hb. rewrite En in Hb. destruct (f_nodes f !! y); [eauto|done].
Qed.

Lemma kept_step (m m' : gmap Z inode) x : kept m m' x ->
  forall y n', m' !! y = Some n' -> exists n, m !! y = Some n /\ i_crefs n' = i_crefs n /\ i_ops n' = i_ops n /\ openable n' = openable n.
Proof.
  intros H y n' E. destruct (H y n' E) as (n & En & [Eb|[_ Eb]]); exists n; (split; [done|]); apply body_openable in Eb as (-> & -> & ->); [done|].
  split; [done|]. split; [done|]. apply openable_marked.
Qed.

Lemma kept_bodies (m m' : gmap Z inode) x :
  kept m m' x -> (forall y, y <> x -> is_Some (m' !! y) <-> is_Some (m !! y)) -> forall y, y <> x -> ibody <$> m' !! y = ibody <$> m !! y.
Proof.
  intros Hk Hd y Hne. destruct (m' !! y) as [n'|] eqn:E'.
  - destruct (Hk y n' E') as (n & -> & [Eb|[-> _]]); [|done]. simpl. by f_equal.
  - destruct (m !! y) eqn:E; [|done]. specialize (Hd y Hne). rewrite E, E' in Hd. destruct (proj2 Hd) as [? ?]; [eauto|done].
Qed.

(** The path leads to a leaf, or nowhere. *)
Definition leaf_path (path : list Z) s : bool :=
  match inode_search path (v_fs s) with
  | Ok (node, _, _, _) => bool_decide (node = NULL) || match nodes s !! node with Some n => bool_decide (i_child n = NULL) | None => false end
  | Err _ => false
  end.

Lemma plug_child m root k x nm c r : frepr m root (plug k (FNode x nm c r)) -> exists n, m !! x = Some n /\ frepr m (i_child n) c.
Proof. intros (q & _ & Hx)%plug_repr. destruct Hx as (-> & _ & n & En & _ & Hc & _). eauto. Qed.

Lemma leaf_found s w path x rest k nm c r :
  tree_ok (v_fs s) w -> leaf_path path s = true -> flookup (mountpt (nodes s)) (names (tail path)) (w_tree w) = Some (x, rest) ->
  w_tree w = plug k (FNode x nm c r) -> c = FNil.
Proof.
  intros Hok Hl Hx Ht. pose proof (@search_ok HT HK (framed (w_blocks w)) (v_fs s) (w_tree w) (w_gone w) path Hok) as Hs. unfold leaf_path in Hl.
  destruct (inode_search path (v_fs s)) as [[[[node rest'] lft] above]|]; [|done]. destruct Hs as (_ & Hlk & _). rewrite Hx in Hlk.
  destruct (decide (node = NULL)) as [?|Hn]; [done|]. injection Hlk as -> _. rewrite bool_decide_false in Hl by done. simpl in Hl.
  pose proof (fo_tree _ _ _ (proj1 Hok)) as Hr. rewrite Ht in Hr. apply plug_child in Hr as (n & En & Hc). rewrite En in Hl. apply bool_decide_eq_true in Hl. rewrite Hl in Hc.
  by apply frepr_null in Hc.
Qed.

(** The inode that [unregister_driver] takes away: its path is gone at once, it
    stays while it is open. *)
Lemma unregister_core held s w me path :
  files_core held s w -> 0 <= me -> leaf_path path s = true ->
  wp (unregister_driver me path (v_fs s)) (fun '(ret, f) => exists w', files_core held (with_fs f s) w' /\
    match lookup_path (nodes s) (w_tree w) path with
    | None => w' = w /\ nodes s = f_nodes f
    | Some (x, rest) => exists n k nm r, nodes s !! x = Some n /\ w_tree w = plug k (FNode x nm FNil r) /\ w_tree w' = plug k r
        /\ (forall y, y <> x -> ibody <$> f_nodes f !! y = ibody <$> nodes s !! y)
        /\ if i_crefs n =? 0 then ret = 0 /\ f_nodes f !! x = None
           else ret = - EBUSY /\ exists n', f_nodes f !! x = Some n' /\ deleted n' = true /\ ibody n' = ibody (marked n)
    end).
Proof.
  intros HC Hme Hleaf. pose proof (fc_fs _ _ _ HC) as Hok. pose proof Hok as Hok0. unfold tree_ok in Hok0. unfold unregister_driver, lookup_path.
  rewrite take_sem by apply HC. cbn [mbind res_bind]. apply wp_bind. case_bool_decide as Hh.
  2:{ unfold inode_remove. rewrite bool_decide_true by done. apply wp_ret, wp_ret. exists w. split; [|done]. eapply (core_nodes held s w); try done.
      - apply fs_ok_sem, fs_ok_sem, Hok0. - apply HC.
      - split; [intros y n E; left; exists n; done|intros y n E; left; simpl; eauto]. }
  eapply wp_mono; [apply (@remove_ok HT HK (framed (w_blocks w)) (with_treesem 0 (v_fs s)) (w_tree w) (w_gone w) me path); [by apply fs_ok_sem|done|done]|].
  intros [ret f] (Hs & H). apply wp_ret. cbn [f_nodes with_treesem tree_sem] in *. destruct (flookup _ _ _) as [[x rest]|] eqn:Ef.
  2:{ destruct H as [-> ->]. exists w. split; [|done]. eapply (core_nodes held s w); try done.
      - apply fs_ok_sem, fs_ok_sem, Hok0. - apply HC.
      - split; [intros y n E; left; exists n; done|intros y n E; left; simpl; eauto]. }
  destruct H as (k & nm & c & r & n & Ht & _ & En & Hk & Hr). assert (c = FNil) as -> by by eapply leaf_found.
  pose proof (kept_step _ _ _ Hk) as Hstep.
  assert (live (w_tree w) (w_gone w) ≡ₚ x :: live (plug k r) (w_gone w)) as Hlv.
  { unfold live. rewrite Ht, !plug_addrs. simpl. by rewrite <-Permutation_middle. }
  assert (x ∉ live (plug k r) (w_gone w)) as Hxl by (pose proof (fo_nodup _ _ _ (proj1 Hok0)) as Hnd; rewrite Hlv in Hnd; by apply NoDup_cons in Hnd as [? _]).
  assert (forall y, y ∈ live (w_tree w) (w_gone w) <-> is_Some (nodes s !! y)) as Hdom by (intros y; symmetry; apply (fo_dom _ _ _ (proj1 Hok0))).
  destruct (Z.eqb_spec (i_crefs n) 0) as [E0|E0]; destruct Hr as [-> Hok'].
  - exists (FView (plug k r) (w_gone w) (w_blocks w)).
    assert (forall y, is_Some (f_nodes f !! y) <-> y ∈ live (plug k r) (w_gone w)) as Hdom' by apply (fo_dom _ _ _ (proj1 Hok')).
    assert (forall y, y <> x -> is_Some (f_nodes f !! y) <-> is_Some (nodes s !! y)) as Hd2 by (intros y Hy; rewrite Hdom', <-Hdom, Hlv, elem_of_cons; naive_solver).
    split; [eapply (core_nodes held s w); try done; [by apply fs_ok_sem|simpl; lia|apply HC|split]|].
    + intros y n' E'. left. by apply Hstep.
    + intros y n' E'. destruct (decide (y = x)) as [->|Hne]; [right; congruence|left]. apply Hd2; eauto.
    + exists n, k, nm, r. split; [done|]. split; [done|]. split; [done|]. rewrite (proj2 (Z.eqb_eq _ _) E0). split; [|split; [done|simpl; apply eq_None_not_Some; by rewrite Hdom']].
      by apply kept_bodies.
  - exists (FView (plug k r) (FNode x nm FNil FNil :: w_gone w) (w_blocks w)).
    assert (forall y, is_Some (f_nodes f !! y) <-> is_Some (nodes s !! y)) as Hd2.
    { intros y. rewrite (fo_dom _ _ _ (proj1 Hok') y), <-Hdom, Hlv. unfold live. simpl. rewrite !elem_of_app, !elem_of_cons, !elem_of_app. naive_solver. }
    split; [eapply (core_nodes held s w); try done; [by apply fs_ok_sem|simpl; lia|constructor; [by eexists _, _|apply HC]|split]|].
    + intros y n' E'. left. by apply Hstep.
    + intros y n' E'. left. apply Hd2; eauto.
    + exists n, k, nm, r. split; [done|]. split; [done|]. split; [done|]. rewrite (proj2 (Z.eqb_neq _ _) E0). simpl. split.
      * apply kept_bodies; [done|]. intros y _. apply Hd2.
      * split; [done|]. destruct (proj2 (Hd2 x)) as [n' E']; [eauto|]. exists n'. split; [done|].
        assert (deleted n' = true) as Hd by (apply (fo_deleted _ _ (proj2 Hok') x n' E'); exists nm, FNil; left). split; [done|].
        destruct (Hk x n' E') as (n0 & En0 & [Eb|[_ Eb]]); rewrite En in En0; injection En0 as <-; [|done].
        rewrite (deleted_body _ _ Eb) in Hd. exfalso. assert (x ∈ faddrs (w_tree w)) as Hin by (rewrite Ht, plug_addrs; simpl; set_solver).
        pose proof (tree_not_deleted (framed (w_blocks w)) _ _ _ _ _ Hok0 Hin En). congruence.
Qed.
(** ** The calls *)

Inductive vcall : Type :=
| VOpen (path : list Z) (oflags : Z)
| VClose (fd : Z)
| VRead (fd nbytes : Z)
| VWrite (fd : Z) (buf : list Z) (nbytes : Z)
| VLseek (fd offset whence : Z)
| VIoctl (fd req arg : Z)
| VFsync (fd : Z)
| VDup (fd : Z)
| VDup2 (fd1 fd2 : Z)
| VFcntl (fd : Z) (cmd : fcntl_cmd)
| VIdle
| VTask (tcb : Z)
| VThread (tcb : Z)
| VExit (tcb : Z)
| VRegister (path : list Z) (ops priv : Z)
| VUnregister (path : list Z).

Definition vexec (me : Z) (c : vcall) s : res (vfs HT D) :=
  match c with
  | VOpen path oflags => '(_, s) ← open me path oflags s; Ok s
  | VClose fd => '(_, s) ← close me fd s; Ok s
  | VRead fd nbytes => '(_, _, s) ← read me fd nbytes s; Ok s
  | VWrite fd buf nbytes => '(_, s) ← write me fd buf nbytes s; Ok s
  | VLseek fd offset whence => '(_, s) ← lseek me fd offset whence s; Ok s
  | VIoctl fd req arg => '(_, s) ← ioctl me fd req arg s; Ok s
  | VFsync fd => '(_, s) ← fsync me fd s; Ok s
  | VDup fd => '(_, s) ← dup me fd s; Ok s
  | VDup2 fd1 fd2 => '(_, s) ← dup2 me fd1 fd2 s; Ok s
  | VFcntl fd cmd => '(_, s) ← fcntl me fd cmd s; Ok s
  | VIdle => '(_, s) ← sched_setupidlefiles me s; Ok s
  | VTask tcb => '(_, s) ← sched_setuptaskfiles me tcb s; Ok s
  | VThread tcb => '(_, s) ← sched_setuppthreadfiles me tcb s; Ok s
  | VExit tcb => '(_, s) ← sched_releasefiles me tcb s; Ok s
  | VRegister path ops priv => '(_, f) ← register_driver me path ops priv (v_fs s); Ok (with_fs f s)
  | VUnregister path => '(_, f) ← unregister_driver me path (v_fs s); Ok (with_fs f s)
  end.

(** A task without files, other than the caller. *)
Definition new_task (me tcb : Z) s : bool :=
  bool_decide (tcb <> me) && match v_tasks s !! tcb with Some t => bool_decide (t_filelist t = NULL) | None => false end.

Definition room_b (k : Z) s : bool := bool_decide (map_Forall (fun _ n => i_crefs n + k <= SEM_VALUE_MAX) (nodes s)).

(** The contract of the calls.  The counts of references have room; a new task has
    no files yet; what is registered are known drivers, under paths shorter than
    2^31.  Two calls that the code accepts are left out because they break what the
    theorem promises: [F_DUPFD] with a negative argument accesses memory before the
    array of files ([fcntl_negative_minfd] below), and removing an inode that has
    inodes below it frees these although files may refer to them
    ([remove_leaves_dangling_reference] of InodeThm). *)
Definition vlegal (me : Z) (c : vcall) s : bool :=
  (0 <=? me) && match v_tasks s !! me with
  | None => false
  | Some t =>
      match c with
      | VOpen _ _ | VDup _ | VDup2 _ _ => room_b 1 s
      | VFcntl _ cmd => fcntl_legal cmd && room_b 1 s
      | VIdle => bool_decide (t_filelist t = NULL) && room_b 3 s
      | VTask tcb => new_task me tcb s && room_b CONFIG_NFILE_DESCRIPTORS s
      | VThread tcb => new_task me tcb s && match v_lists s !! t_filelist t with Some fl => fl_crefs fl <? SEM_VALUE_MAX | None => false end
      | VExit tcb => bool_decide (is_Some (v_tasks s !! tcb))
      | VRegister path ops _ => (Z.of_nat (length path) <? 2 ^ 31) && ((ops =? 0) || bool_decide (is_Some (fops ops)))
      | VUnregister path => leaf_path path s
      | _ => true
      end
  end.

Fixpoint vrun (cs : list (Z * vcall)) s : res (option (vfs HT D)) :=
  match cs with
  | [] => Ok (Some s)
  | (me, c) :: cs => if vlegal me c s then s ← vexec me c s; vrun cs s else Ok None
  end.

Definition files_ok (held : Z -> Z) s : Prop := exists w, files_inv held s w.

Section one_call.
  Context (held : Z -> Z) (s : vfs HT D) (w : fview) (me : Z) (t : ftask).
  Hypothesis Hinv : files_inv held s w.
  Hypothesis Et : v_tasks s !! me = Some t.
  Hypothesis Hme : 0 <= me.

Definition keeps_inv (r : Z * vfs HT D) : Prop := files_ok held r.2.

Lemma errout_inv e : wp (errout me e s) keeps_inv.
Proof. rewrite (errout_ok s me e t Et). apply wp_ret. exists w. by apply inv_err. Qed.

Lemma ret_inv r : wp (Ok (r, s)) keeps_inv.
Proof. apply wp_ret. by exists w. Qed.

(** A call on a descriptor is decided by the descriptor, the list and the file. *)
Lemma fd_cases fd (e : res (Z * vfs HT D)) :
  (fd_range fd = false -> wp e keeps_inv) -> (fd_range fd = true -> t_filelist t = NULL -> wp e keeps_inv) ->
  (forall f, t_filelist t <> NULL -> file_at (v_lists s) (t_filelist t) fd f -> wp e keeps_inv) -> wp e keeps_inv.
Proof.
  intros H1 H2 H3. destruct (fd_range fd) eqn:Er; [|by apply H1]. destruct (decide (t_filelist t = NULL)) as [E|E]; [by apply H2|].
  destruct (fd_file held s w me t Hinv Et E fd Er) as [f Hf]. by apply (H3 f).
Qed.

Lemma open_inv path oflags : room s -> wp (open me path oflags s) keeps_inv.
Proof.
  intros Hr. destruct (decide (t_filelist t = NULL)) as [E|E].
  - unfold open. rewrite (getfiles_ok s me t Et). cbn [mbind res_bind]. rewrite decide_True by done. apply errout_inv.
  - eapply wp_mono; [by apply (open_ok held s w me t path oflags)|]. intros [ret s'] (w' & H & _). by exists w'.
Qed.

Lemma close_inv fd : wp (close me fd s) keeps_inv.
Proof.
  apply (fd_cases fd).
  - intros Er. unfold close. rewrite Er. apply errout_inv.
  - intros Er El. unfold close, files_close. rewrite Er, (getfiles_ok s me t Et). cbn [negb mbind res_bind]. rewrite decide_True by done. cbn. apply errout_inv.
  - intros f Hl Hf. destruct (decide (f_inode f = NULL)) as [Hx|Hx].
    + unfold close, files_close. rewrite (fd_in held s w t Hinv fd f Hf), (getfiles_ok s me t Et). cbn [negb mbind res_bind]. rewrite decide_False by done.
      rewrite (fd_get held s w t Hinv fd f Hf). cbn [mbind res_bind]. rewrite decide_True by done. cbn. apply errout_inv.
    + destruct (close_fn (nodes s) f (v_drv s)) as [[[r f1] d] m] eqn:Ec. eapply wp_mono; [by apply (close_ok held s w me t fd f r f1 d m)|].
      intros [ret s'] (fs & w' & _ & H & _). by exists w'.
Qed.

Lemma read_keeps fd nbytes : wp (read me fd nbytes s) (fun r => files_ok held r.2).
Proof.
  assert (forall e, wp ('(r, s') ← errout me e s; Ok (r, @nil Z, s')) (fun r => files_ok held r.2)) as He.
  { intros e. rewrite (errout_ok s me e t Et). apply wp_ret. exists w. by apply inv_err. }
  unfold read. destruct (fd_range fd) eqn:Er; [|apply He]. destruct (decide (t_filelist t = NULL)) as [E|E].
  - unfold file_read. rewrite (getfiles_ok s me t Et). cbn [negb mbind res_bind]. rewrite decide_True by done. apply He.
  - destruct (fd_file held s w me t Hinv Et E fd Er) as [f Hf]. pose proof (read_ok held s w me t Hinv Et E fd nbytes f Hf) as Hok. unfold read in Hok. rewrite Er in Hok. rewrite Hok.
    apply wp_ret. exists w. by apply read_inv.
Qed.

Lemma write_keeps fd buf nbytes : wp (write me fd buf nbytes s) keeps_inv.
Proof.
  apply (fd_cases fd).
  - intros Er. unfold write. rewrite Er. apply errout_inv.
  - intros Er El. unfold write, file_write. rewrite Er, (getfiles_ok s me t Et). cbn [negb mbind res_bind]. rewrite decide_True by done. apply errout_inv.
  - intros f Hl Hf. rewrite (write_ok held s w me t Hinv Et Hl fd buf nbytes f Hf). apply wp_ret. exists w. by apply write_inv.
Qed.

Lemma lseek_keeps fd offset whence : wp (lseek me fd offset whence s) keeps_inv.
Proof.
  apply (fd_cases fd).
  - intros Er. unfold lseek. rewrite Er. apply errout_inv.
  - intros Er El. unfold lseek. rewrite Er, (getfiles_ok s me t Et). cbn [negb mbind res_bind]. rewrite decide_True by done. apply errout_inv.
  - intros f Hl Hf. rewrite (lseek_ok held s w me t Hinv Et Hl fd offset whence f Hf). apply wp_ret. exists w. by apply lseek_inv.
Qed.

Lemma ioctl_keeps fd req arg : wp (ioctl me fd req arg s) keeps_inv.
Proof.
  apply (fd_cases fd).
  - intros Er. unfold ioctl. rewrite Er. apply errout_inv.
  - intros Er El. unfold ioctl. rewrite Er, (getfiles_ok s me t Et). cbn [negb mbind res_bind]. rewrite decide_True by done. apply errout_inv.
  - intros f Hl Hf. rewrite (ioctl_ok held s w me t Hinv Et Hl fd req arg f Hf). apply wp_ret. exists w. by apply ioctl_inv.
Qed.

Lemma fsync_keeps fd : wp (fsync me fd s) keeps_inv.
Proof.
  apply (fd_cases fd).
  - intros Er. unfold fsync. rewrite (getfiles_ok s me t Et). cbn [mbind res_bind]. case_decide; [apply errout_inv|]. rewrite Er. apply errout_inv.
  - intros Er El. unfold fsync. rewrite (getfiles_ok s me t Et). cbn [mbind res_bind]. rewrite decide_True by done. apply errout_inv.
  - intros f Hl Hf. rewrite (fsync_ok held s w me t Hinv Et Hl fd f Hf). apply wp_ret. exists w. by apply fsync_inv.
Qed.

(** A descriptor that is not open. *)
Lemma isopen_cases fd :
  t_filelist t <> NULL -> DUP_ISOPEN fd (t_filelist t) s = Ok false \/ exists f, open_at (v_lists s) (t_filelist t) fd f /\ DUP_ISOPEN fd (t_filelist t) s = Ok true.
Proof.
  intros Hl. unfold DUP_ISOPEN. destruct (fd_range fd) eqn:Er; [|by left]. destruct (fd_file held s w me t Hinv Et Hl fd Er) as [f Hf].
  rewrite (fd_get held s w t Hinv fd f Hf). cbn [mbind res_bind]. case_bool_decide as Hx; [right; by exists f|by left].
Qed.

Lemma file_dup_keeps fd minfd : room s -> 0 <= minfd -> wp (file_dup me fd minfd s) keeps_inv.
Proof.
  intros Hr Hm. destruct (decide (t_filelist t = NULL)) as [E|E].
  - unfold file_dup. rewrite (getfiles_ok s me t Et). cbn [mbind res_bind]. rewrite decide_True by done. apply errout_inv.
  - destruct (isopen_cases fd E) as [Eo|(f & Hf & _)].
    + unfold file_dup. rewrite (getfiles_ok s me t Et). cbn [mbind res_bind]. rewrite decide_False by done. rewrite Eo. apply errout_inv.
    + eapply wp_mono; [by apply (file_dup_ok held s w me t fd f minfd)|]. intros [ret s'] (fs & w' & H & _). by exists w'.
Qed.

Lemma fcntl_keeps fd cmd : room s -> fcntl_legal cmd = true -> wp (fcntl me fd cmd s) keeps_inv.
Proof.
  intros Hr Hc. apply (fd_cases fd).
  - intros Er. unfold fcntl. rewrite Er. apply ret_inv.
  - intros Er El. unfold fcntl, file_vfcntl. rewrite Er, (getfiles_ok s me t Et). cbn [mbind res_bind]. rewrite decide_True by done. apply errout_inv.
  - intros f Hl Hf. eapply wp_mono; [by apply (fcntl_ok held s w me t fd f cmd)|]. intros [ret s'] (w' & H & _). by exists w'.
Qed.

End one_call.

Lemma room_b_spec k s : room_b k s = true -> room_for k s.
Proof. unfold room_b. by intros ?%bool_decide_eq_true. Qed.

Lemma new_task_spec me tcb s : new_task me tcb s = true -> tcb <> me /\ exists t, v_tasks s !! tcb = Some t /\ t_filelist t = NULL.
Proof.
  intros [H1%bool_decide_eq_true H2]%andb_true_iff. split; [done|]. destruct (v_tasks s !! tcb) as [t|]; [|done]. apply bool_decide_eq_true in H2. eauto.
Qed.

(** The counts after [open] and [dup2]. *)
Lemma open_near held s w me t path oflags :
  files_inv held s w -> v_tasks s !! me = Some t -> t_filelist t <> NULL -> 0 <= me -> room s ->
  wp (open me path oflags s) (fun '(_, s') => files_ok held s' /\ near 1 (nodes s) (nodes s') /\ same_tasks me (v_tasks s) (v_tasks s')).
Proof.
  intros Hinv Et Hl Hme Hr. assert (near 1 (nodes s) (nodes s)) as H1 by (eapply near_mono; [|apply near_refl]; lia).
  eapply wp_mono; [by apply (open_ok held s w me t path oflags)|]. intros [ret s'] (w' & Hinv' & _ & Hres). split; [by exists w'|].
  assert (forall e, failed s s' me e -> near 1 (nodes s) (nodes s') /\ same_tasks me (v_tasks s) (v_tasks s')) as Hf.
  { intros e (_ & -> & _ & ->). split; [done|apply same_tasks_err, same_tasks_refl]. }
  destruct (open_check _ _ _ _) as [e|[x rest]]; [destruct Hres as [_ Hres]; by eapply Hf|]. destruct Hres as [(_ & _ & Hres)|(fd & f & n & path' & _ & _ & _ & _ & Hres)]; [by eapply Hf|].
  cbv zeta in Hres. destruct (run_method _ _ _ _) as [[r f1] d]. destruct Hres as [_ Hres]. destruct (r <? 0).
  - destruct Hres as (_ & _ & -> & ->). split; [done|apply same_tasks_err, same_tasks_refl].
  - destruct Hres as (_ & _ & _ & _ & Hrf & ->). apply refs_ref in Hrf. rewrite Hrf. split; [apply near_ref|apply same_tasks_refl].
Qed.

Lemma dup2_near held s w me t fd1 fd2 :
  files_inv held s w -> v_tasks s !! me = Some t -> t_filelist t <> NULL -> 0 <= me -> room s ->
  wp (dup2 me fd1 fd2 s) (fun '(_, s') => files_ok held s' /\ near 1 (nodes s) (nodes s') /\ same_tasks me (v_tasks s) (v_tasks s')).
Proof.
  intros Hinv Et Hl Hme Hr. assert (near 1 (nodes s) (nodes s)) as H1 by (eapply near_mono; [|apply near_refl]; lia).
  assert (forall e, wp (errout me e s) (fun '(_, s') => files_ok held s' /\ near 1 (nodes s) (nodes s') /\ same_tasks me (v_tasks s) (v_tasks s'))) as He.
  { intros e. rewrite (errout_ok s me e t Et). apply wp_ret. split; [exists w; by apply inv_err|]. split; [done|apply same_tasks_err, same_tasks_refl]. }
  destruct (isopen_cases held s w me t Hinv Et fd1 Hl) as [Eo|(f & Hf & Eo)]; unfold dup2; rewrite (getfiles_ok s me t Et); cbn [mbind res_bind]; rewrite decide_False by done; rewrite Eo; cbn [mbind res_bind negb].
  { apply He. }
  destruct (Z.eqb_spec fd1 fd2) as [Ef|Ef]; [apply wp_ret; split; [by exists w|]; split; [done|apply same_tasks_refl]|].
  destruct (fd_range fd2) eqn:Er; [cbn [negb]|apply He].
  destruct (fd_file held s w me t Hinv Et Hl fd2 Er) as [f2 Hf2]. destruct (dup_fn (nodes s) f f2 (v_drv s)) as [[[r g] d] m] eqn:Ed.
  eapply wp_mono; [apply (files_dup_ok held s w me t (t_filelist t) fd1 f (t_filelist t) fd2 f2 r g d m); try done; [apply Hf|congruence]|].
  intros p (fs & w' & Hm & -> & H & _). apply near_dup in Ed. rewrite <-Hm in Ed. unfold err_result. destruct (r <? 0).
  - split; [exists w'; by apply inv_err|]. split; [exact Ed|apply same_tasks_err, same_tasks_refl].
  - split; [by exists w'|]. split; [exact Ed|apply same_tasks_refl].
Qed.

Lemma dup2_keeps held s w me t fd1 fd2 : files_inv held s w -> v_tasks s !! me = Some t -> 0 <= me -> room s -> wp (dup2 me fd1 fd2 s) (keeps_inv held).
Proof.
  intros Hinv Et Hme Hr. destruct (decide (t_filelist t = NULL)) as [E|E].
  - unfold dup2. rewrite (getfiles_ok s me t Et). cbn [mbind res_bind]. rewrite decide_True by done. by apply (errout_inv held s w me t).
  - eapply wp_mono; [by apply (dup2_near held s w me t fd1 fd2)|]. intros [ret s'] [H _]. exact H.
Qed.

(** The idle task at start-up. *)
Lemma idle_keeps held s w me t :
  files_inv held s w -> v_tasks s !! me = Some t -> t_filelist t = NULL -> 0 <= me -> room_for 3 s ->
  wp (sched_setupidlefiles me s) (fun r => files_ok held r.2).
Proof.
  intros Hinv Et Hnull Hme Hroom. unfold sched_setupidlefiles. apply wp_bind. eapply wp_mono; [apply (alloclist_ok held s w me); [apply Hinv|done]|].
  intros [l s1] (w1 & h & HC1 & _ & H1). destruct (decide (l = NULL)) as [->|Hl].
  { rewrite H1 in HC1 |- *. rewrite (put_filelist_ok _ me NULL t) by done. apply wp_ret. exists w1.
    assert (<[me := FTask NULL (t_errno t)]> (v_tasks s) = v_tasks s) as E by (apply insert_id; rewrite Et; destruct t; simpl in *; by rewrite Hnull).
    split; [by apply core_tasks|]. cbn. rewrite E. apply Hinv. }
  destruct H1 as [El Es1]. rewrite Es1 in HC1 |- *. rewrite (put_filelist_ok _ me l t) by done. cbn [mbind res_bind].
  pose proof (new_task_list held s w me t l h w1 Hinv Et Hnull Hl El HC1) as Hinv2. cbn [v_tasks with_lists with_fs]. set (s2 := with_tasks _ _) in *. set (t2 := FTask l (t_errno t)).
  assert (v_tasks s2 !! me = Some t2) as Et2 by (unfold s2; cbn; by rewrite lookup_insert_eq). assert (room_for 3 s2) as Hroom2 by exact Hroom.
  apply wp_bind. eapply wp_mono; [apply (open_near held s2 w1 me t2 console_path O_RDWR); try done; apply (room_one 3); [lia|done]|].
  intros [fd s3] ([w3 Hinv3] & Hn3 & Ht3). destruct (same_tasks_get _ _ _ _ _ Ht3 Et2) as (t3 & Et3 & Hf3). pose proof (room_near 1 3 s2 s3 Hroom2 Hn3) as Hroom3.
  destruct (fd =? 0).
  - apply wp_bind. eapply wp_mono; [apply (dup2_near held s3 w3 me t3 0 1); try done; [by rewrite Hf3|apply (room_one 2); [lia|done]]|].
    intros [r4 s4] ([w4 Hinv4] & Hn4 & Ht4). destruct (same_tasks_get _ _ _ _ _ Ht4 Et3) as (t4 & Et4 & Hf4). pose proof (room_near 1 2 s3 s4 Hroom3 Hn4) as Hroom4.
    apply wp_bind. eapply wp_mono; [apply (dup2_near held s4 w4 me t4 0 2); try done; [by rewrite Hf4, Hf3|apply (room_one 1); [lia|done]]|].
    intros [r5 s5] (H5 & _). by apply wp_ret.
  - apply wp_bind. destruct (0 <? fd); [|apply wp_ret, wp_ret; by exists w3]. apply wp_bind. eapply wp_mono; [by apply (close_inv held s3 w3 me t3)|]. intros [r s4] H4. by do 2 apply wp_ret.
Qed.

Lemma drop_result {A} held (e : res (A * vfs HT D)) : wp e (fun r => files_ok held r.2) -> wp ('(_, s) ← e; Ok s) (files_ok held).
Proof. destruct e as [[a s]|]; done. Qed.

Lemma vexec_ok held s me c : files_ok held s -> vlegal me c s = true -> wp (vexec me c s) (files_ok held).
Proof.
  intros [w Hinv] Hl. unfold vlegal in Hl. apply andb_true_iff in Hl as [Hme%Z.leb_le Hl]. destruct (v_tasks s !! me) as [t|] eqn:Et; [|done].
  destruct c as [path oflags|fd|fd nb|fd buf nb|fd off wh|fd req arg|fd|fd|fd1 fd2|fd cmd| |p|p|p|path ops priv|path]; cbn [vexec].
  - apply drop_result. apply (open_inv held s w me t); [done..|]. eapply room_one, room_b_spec, Hl. lia.
  - apply drop_result. by apply (close_inv held s w me t).
  - pose proof (read_keeps held s w me t Hinv Et fd nb) as H. by destruct (read me fd nb s) as [[[r b] s']|].
  - apply drop_result. by apply (write_keeps held s w me t).
  - apply drop_result. by apply (lseek_keeps held s w me t).
  - apply drop_result. by apply (ioctl_keeps held s w me t).
  - apply drop_result. by apply (fsync_keeps held s w me t).
  - apply drop_result. unfold dup. destruct (fd_range fd); [|by apply (errout_inv held s w me t)].
    apply (file_dup_keeps held s w me t); [done..| |done]. eapply room_one, room_b_spec, Hl. lia.
  - apply drop_result. apply (dup2_keeps held s w me t); [done..|]. eapply room_one, room_b_spec, Hl. lia.
  - apply andb_true_iff in Hl as [Hc Hl]. apply drop_result. apply (fcntl_keeps held s w me t); [done..| |done]. eapply room_one, room_b_spec, Hl. lia.
  - apply andb_true_iff in Hl as [Hn%bool_decide_eq_true Hl]. apply drop_result. apply (idle_keeps held s w me t); try done. by apply room_b_spec.
  - apply andb_true_iff in Hl as [Hn Hl]. apply new_task_spec in Hn as (Hp & tp & Ep & Hnull). apply drop_result.
    eapply wp_mono; [apply (setuptaskfiles_ok held s w me t p tp); try done; by apply room_b_spec|]. intros [ret s'] (w' & l2 & tp' & H & _). by exists w'.
  - apply andb_true_iff in Hl as [Hn Hl]. apply new_task_spec in Hn as (Hp & tp & Ep & Hnull). destruct (v_lists s !! t_filelist t) as [fl|] eqn:El; [|done]. apply Z.ltb_lt in Hl.
    apply drop_result. eapply wp_mono; [by apply (pthreadfiles_ok held s w me t p tp fl)|]. intros [ret s'] (_ & H & _). by exists w.
  - apply bool_decide_eq_true in Hl as [tp Ep]. apply drop_result. eapply wp_mono; [by apply (releasefiles_ok held s w me p tp)|]. intros [ret s'] (_ & w' & H & _). by exists w'.
  - apply andb_true_iff in Hl as [Hlen%Z.ltb_lt Ho]. apply wp_bind. eapply wp_mono; [apply (register_core held s w me path ops priv); [apply Hinv|done|done|]|].
    { apply orb_true_iff in Ho as [Ho%Z.eqb_eq|Ho%bool_decide_eq_true]; [by left|by right]. }
    intros [ret f] (w' & H). apply wp_ret. exists w'. split; [done|apply Hinv].
  - apply wp_bind. eapply wp_mono; [apply (unregister_core held s w me path); [apply Hinv|done|done]|]. intros [ret f] (w' & H & _). apply wp_ret. exists w'. split; [done|apply Hinv].
Qed.

Lemma vrun_ok held cs s : files_ok held s -> wp (vrun cs s) (fun o => forall s', o = Some s' -> files_ok held s').
Proof.
  revert s. induction cs as [|[me c] cs IH]; intros s HC; simpl; [by intros s' [= <-]|].
  destruct (vlegal me c s) eqn:El; [|done]. apply wp_bind. eapply wp_mono; [by apply vexec_ok|]. intros s1 H1. by apply IH.
Qed.

(** C28: along any sequence of calls by any tasks (open, close, read, write, lseek,
    ioctl, fsync, dup, dup2, fcntl, the files of the idle task, of new tasks and
    threads and of tasks that end, registered and removed drivers) that keeps to the
    contract [vlegal] - fcntl with F_DUPFD only with an argument that is not negative,
    removal only of paths to inodes without inodes below them, room in the counts,
    new tasks without files, known drivers - no call faults, and between calls the
    count of references of every inode is the number of open files that refer to
    it plus the references held elsewhere, the count of every list is the number
    of tasks that share it, every descriptor refers to an inode that exists, and
    the locks of the tree and of the lists are free. *)
Theorem open_files_safe held cs s : files_ok held s -> wp (vrun cs s) (fun o => forall s', o = Some s' -> files_ok held s').
Proof. apply vrun_ok. Qed.

(** C29: open of a path, on every branch: the descriptor that a successful call
    returns is the lowest one that was free, and it refers to the inode of the
    path, with the flags and what the open method of the driver left in the file;
    that inode has one reference more.  Otherwise -1 is returned with errno
    ENOENT, ENXIO, EACCES, EMFILE or the error of the driver, in this order of
    precedence; then no descriptor and no reference changes. *)
Theorem open_lowest_descriptor held s w me t path oflags :
  files_inv held s w -> v_tasks s !! me = Some t -> t_filelist t <> NULL -> 0 <= me -> room s ->
  wp (open me path oflags s) (fun '(ret, s') => exists w', files_inv held s' w' /\ same_view w w' /\
    match open_check (nodes s) (w_tree w) path oflags with
    | inl e => ret = -1 /\ failed s s' me e
    | inr (x, rest) => (ret = -1 /\ (forall fd, ~ free_fd (v_lists s) (t_filelist t) fd) /\ failed s s' me EMFILE)
                       \/ opened s s' me (t_filelist t) x rest oflags ret
    end).
Proof. apply open_ok. Qed.

Lemma check_found m t path oflags x rest : open_check m t path oflags = inr (x, rest) -> lookup_path m t path = Some (x, rest) /\ is_Some (m !! x).
Proof.
  unfold open_check. destruct (lookup_path m t path) as [[y l]|]; [|done]. destruct (m !! y) as [n|] eqn:E; [|done]. repeat case_match; try done. intros [= <- <-]. eauto.
Qed.

Lemma path_in_tree m t path x rest : lookup_path m t path = Some (x, rest) -> x ∈ faddrs t.
Proof. unfold lookup_path. case_bool_decide; [|done]. apply flookup_in. Qed.

(** Close undoes open: after a successful open, close of the descriptor gives
    back the inodes as they were, with the same counts of references, and exactly
    the descriptors that were free are free again. *)
Theorem open_close_roundtrip held s w me t path oflags :
  files_inv held s w -> v_tasks s !! me = Some t -> t_filelist t <> NULL -> 0 <= me -> room s ->
  wp (open me path oflags s) (fun '(fd, s1) => 0 <= fd ->
    wp (close me fd s1) (fun '(_, s2) => files_ok held s2 /\ nodes s2 = nodes s
      /\ (forall l j, free_fd (v_lists s2) l j <-> free_fd (v_lists s) l j)
      /\ (forall l j f, (l, j) <> (t_filelist t, fd) -> file_at (v_lists s2) l j f <-> file_at (v_lists s) l j f))).
Proof.
  intros Hinv Et Hl Hme Hr. eapply wp_mono; [by apply (open_ok held s w me t path oflags)|]. intros [fd s1] (w1 & Hinv1 & Hv1 & Hres) Hfd.
  destruct (open_check _ _ _ _) as [e|[x rest]] eqn:Ec; [destruct Hres; lia|]. apply check_found in Ec as [Hp _]. apply path_in_tree in Hp.
  destruct Hres as [(-> & _)|(fd' & f & n & path' & Hlow & Hf & En & _ & Hres)]; [lia|]. cbv zeta in Hres. destruct (run_method _ _ _ _) as [[r f1] d].
  destruct Hres as [Hd Hres]. destruct (r <? 0); [destruct Hres; lia|]. destruct Hres as (-> & El & Hx & _ & Hrf & Etk).
  pose proof (tree_not_deleted _ _ _ _ _ _ (fc_fs _ _ _ (proj1 Hinv)) Hp En) as Hdel. pose proof (node_nonnull _ _ _ _ _ (proj1 Hinv) En) as Hx0.
  assert (open_at (v_lists s1) (t_filelist t) fd' f1) as Ho1 by (split; [rewrite El; by apply (file_at_upd _ _ _ (fun _ => f1) f)|congruence]).
  destruct (close_fn (nodes s1) f1 (v_drv s1)) as [[[r2 f2] d2] m2] eqn:Ecl. rewrite <-Etk in Et.
  eapply wp_mono; [by apply (close_ok held s1 w1 me t fd' f1 r2 f2 d2 m2)|]. intros [ret s2] (fs & w2 & Hm & Hinv2 & _ & Hend).
  assert (m2 = nodes s) as Em.
  { unfold close_fn in Ecl. rewrite Hx, (Hrf x), decide_True, En in Ecl by done. simpl in Ecl. destruct (run_method _ _ _ _) as [[? ?] ?]. injection Ecl as _ _ _ <-.
    by eapply undo_ref. }
  pose proof (close_null _ _ _ _ _ _ _ _ _ _ (proj1 Hinv1) (proj1 Ho1) Ecl) as Hf2. destruct Hlow as (_ & (g & Hg & Hg0) & _).
  assert (v_lists s2 = upd_file (t_filelist t) fd' (fun _ => f2) (v_lists s) /\ nodes s2 = nodes s) as [El2 En2].
  { destruct (r2 <? 0); destruct Hend as [_ ->]; cbn; rewrite El, upd_file_twice, Hm; by subst m2. }
  assert (forall l j f, (l, j) <> (t_filelist t, fd') -> file_at (v_lists s2) l j f <-> file_at (v_lists s) l j f) as Hoth.
  { intros l j f' Hne. rewrite El2. apply file_at_upd_ne; [done|]. by destruct Hg as (? & _ & ? & _). }
  split; [by exists w2|]. split; [done|]. split; [|done]. intros l j. destruct (decide ((l, j) = (t_filelist t, fd'))) as [[= -> ->]|Hne].
  - split; intros _; [by exists g|]. exists f2. split; [|done]. rewrite El2. by apply (file_at_upd _ _ _ (fun _ => f2) g).
  - unfold free_fd. by setoid_rewrite (Hoth l j _ Hne).
Qed.

Lemma unref_gone x (m : gmap Z inode) n : m !! x = Some n -> deleted n = true -> unref x m !! x = None <-> i_crefs n = 1.
Proof.
  intros En Hd. unfold unref. rewrite En, Hd. simpl. destruct (Z.eqb_spec (i_crefs n) 1); [by rewrite lookup_delete_eq|]. rewrite lookup_alter_eq, En. done.
Qed.

(** C30: a driver that is unregistered while it is open: the call returns -EBUSY,
    its path is gone at once, and the descriptors that are open keep an inode with
    the same operations and private data.  When a descriptor is closed the inode
    goes away exactly if it was the last reference. *)
Theorem removed_device_lives_until_closed held s w me t path rest fd f :
  files_inv held s w -> v_tasks s !! me = Some t -> t_filelist t <> NULL -> 0 <= me -> leaf_path path s = true ->
  open_at (v_lists s) (t_filelist t) fd f -> lookup_path (nodes s) (w_tree w) path = Some (f_inode f, rest) ->
  wp (unregister_driver me path (v_fs s)) (fun '(ret, fs1) => let s1 := with_fs fs1 s in ret = - EBUSY /\ exists w1 n n1,
    files_inv held s1 w1 /\ f_inode f ∉ faddrs (w_tree w1) /\ nodes s !! f_inode f = Some n /\ nodes s1 !! f_inode f = Some n1
    /\ i_ops n1 = i_ops n /\ i_private n1 = i_private n
    /\ wp (close me fd s1) (fun '(_, s2) => files_ok held s2 /\ (nodes s2 !! f_inode f = None <-> opens (v_lists s) (f_inode f) = 1 /\ held (f_inode f) = 0))).
Proof.
  intros Hinv Et Hl Hme Hleaf Ho Hp. eapply wp_mono; [by apply (unregister_core held s w me path (proj1 Hinv) Hme Hleaf)|]. intros [ret fs1] (w1 & HC1 & Hres). rewrite Hp in Hres.
  destruct Hres as (n & k & nm & r & En & Ht & Ht1 & _ & Hres). pose proof (fc_refs _ _ _ (proj1 Hinv) _ n En) as Hc. pose proof (fc_held _ _ _ (proj1 Hinv) (f_inode f)) as [Hh _].
  pose proof Ho as [(fl & El & _ & Hfl) Hx]. pose proof (opens_ge _ _ _ _ _ _ El Hfl eq_refl) as Hge. rewrite (proj2 (Z.eqb_neq (i_crefs n) 0)) in Hres by lia.
  destruct Hres as (-> & n1 & En1 & Hdel & Hb). cbv zeta. split; [done|]. exists w1, n, n1. split; [split; [done|apply Hinv]|]. split.
  { rewrite Ht1. pose proof (fo_nodup _ _ _ (proj1 (fc_fs _ _ _ (proj1 Hinv)))) as Hnd. apply NoDup_app in Hnd as (Hnd & _ & _). rewrite Ht, plug_addrs in Hnd. simpl in Hnd.
    rewrite <-Permutation_middle in Hnd. apply NoDup_cons in Hnd as [Hnd _]. by rewrite plug_addrs. }
  split; [done|]. split; [done|]. split; [exact (f_equal i_ops Hb)|]. split; [exact (f_equal i_private Hb)|].
  set (s1 := with_fs fs1 s) in *. assert (files_inv held s1 w1) as Hinv1 by (split; [done|apply Hinv]).
  destruct (close_fn (nodes s1) f (v_drv s1)) as [[[r2 f2] d2] m2] eqn:Ecl.
  eapply wp_mono; [by apply (close_ok held s1 w1 me t fd f r2 f2 d2 m2)|]. intros [ret s2] (fs & w2 & Hm & Hinv2 & _ & Hend). split; [by exists w2|].
  assert (nodes s2 = m2) as -> by (destruct (r2 <? 0); destruct Hend as [_ ->]; exact Hm).
  unfold close_fn in Ecl. change (nodes s1) with (f_nodes fs1) in Ecl. rewrite En1 in Ecl. destruct (run_method _ _ _ _) as [[? ?] ?]. injection Ecl as _ _ _ <-.
  rewrite (unref_gone _ _ n1 En1 Hdel). apply body_openable in Hb as (Hc1 & _). cbn [marked set_i_flags i_crefs] in Hc1. lia.
Qed.

(** A task that is created gets a list of its own, with the descriptors of its
    creator that are cloned: each refers to the same inode with the same flags
    (and the same position, when the driver has no open method) or is closed when
    the driver refused, and the others are closed.  When there is no memory the
    call fails with ENOMEM.  No other list changes. *)
Theorem new_task_inherits_files held s w me t p tp :
  files_inv held s w -> v_tasks s !! me = Some t -> v_tasks s !! p = Some tp -> t_filelist tp = NULL -> p <> me -> 0 <= me ->
  room_for CONFIG_NFILE_DESCRIPTORS s ->
  wp (sched_setuptaskfiles me p s) (fun '(ret, s') => exists w' l2 tp', files_inv held s' w' /\ w_tree w' = w_tree w /\ v_tasks s' !! p = Some tp' /\ t_filelist tp' = l2
    /\ if decide (l2 = NULL) then ret = - ENOMEM /\ v_lists s' = v_lists s else ret = 0 /\ task_files s s' (t_filelist t) l2).
Proof. apply setuptaskfiles_ok. Qed.

(** The search that the code does gives the inode of a path. *)
Lemma search_lookup s w path x rest lft above :
  tree_ok (v_fs s) w -> inode_search path (v_fs s) = Ok (x, rest, lft, above) -> head path = Some SLASH -> x <> NULL ->
  lookup_path (nodes s) (w_tree w) path = Some (x, more rest).
Proof.
  intros Hok Es Hh Hx. pose proof (@search_ok HT HK (framed (w_blocks w)) (v_fs s) (w_tree w) (w_gone w) path Hok) as Hs. rewrite Es in Hs.
  destruct Hs as (_ & Hl & _). unfold lookup_path. rewrite bool_decide_true by done. by rewrite decide_False in Hl.
Qed.

End thm.

(** ** A small system *)

(** A driver that counts its open files: [open] and [close] change the state of
    the driver, [read] and [write] transfer all that is asked for. *)
Definition count_ops : file_operations Z := {|
  op_open := Some (fun _ _ f d => (0, f, d + 1));
  op_close := Some (fun _ f d => (0, f, d - 1));
  op_read := Some (fun n _ f d => ((n, replicate (Z.to_nat n) 0), set_f_pos (f_pos f + n) f, d));
  op_write := Some (fun _ n _ f d => (n, set_f_pos (f_pos f + n) f, d));
  op_seek := None; op_ioctl := None; op_sync := None
|}.

(** A driver that can only be read. *)
Definition plain_ops : file_operations Z := {|
  op_open := None; op_close := None; op_read := Some (fun n _ f d => ((0, []), f, d));
  op_write := None; op_seek := None; op_ioctl := None; op_sync := None
|}.

#[export] Instance demo_drivers : Drivers Z := { fops a := if a =? 1000 then Some count_ops else if a =? 2000 then Some plain_ops else None }.

#[export] Instance demo_drivers_ok : DriversOk Z.
Proof.
  split. intros a t. cbn. case_match; [|case_match; [|done]]; intros [= <-]; split; intros m; cbn; intros [= <-]; intros; done.
Qed.

#[export] Program Instance demo_files : FilesConfig := { CONFIG_NFILE_DESCRIPTORS := 4; CONFIG_FDCLONE_STDIO := true }.
Next Obligation. lia. Qed.

Definition demo_vfs0 : vfs mm_state Z := Vfs mm_state Z demo_fs ∅ {[1 := FTask NULL 0; 2 := FTask NULL 0; 3 := FTask NULL 0]} 0 [].

Definition no_held (x : Z) : Z := 0.

Lemma demo_vfs0_inv : files_inv no_held demo_vfs0 (FView FNil [] []).
Proof.
  split; [split|split]; try done.
  - pose proof demo_fs_ok as [[A B C E F (sz & other & Hh & Hs)] HD]. split; [split; try done|done]. exists sz, other. split; [|done]. cbn [heap_rep framed w_blocks]. by rewrite app_nil_r.
  - split; [constructor|]. split; [set_solver|]. intros l. split; [by intros [? ?]|set_solver].
  - by intros l i f (fl & ? & _).
  - intros p t. cbn. intros H. left. apply lookup_insert_Some in H as [[_ <-]|[_ H]]; [done|]. apply lookup_insert_Some in H as [[_ <-]|[_ H]]; [done|].
    by apply lookup_singleton_Some in H as [_ <-].
Qed.

(** Task 1 has "/dev/a" open as descriptor 0. *)
Definition demo_calls0 : list (Z * vcall) := [(2, VTask 1); (1, VRegister path_a 1000 7); (1, VRegister path_b 2000 8); (1, VOpen path_a 3)].
Definition demo_vfs : vfs mm_state Z := match vrun demo_calls0 demo_vfs0 with Ok (Some s) => s | _ => demo_vfs0 end.

Lemma demo_vfs_ok : files_ok no_held demo_vfs.
Proof.
  assert (files_ok no_held demo_vfs0) as H0 by (eexists; exact demo_vfs0_inv). pose proof (vrun_ok no_held demo_calls0 demo_vfs0 H0) as H. unfold demo_vfs.
  destruct (vrun demo_calls0 demo_vfs0) as [[s|]|]; [by apply H|done..].
Qed.

Lemma demo_room k : room_b k demo_vfs = true -> room_for k demo_vfs.
Proof. apply room_b_spec. Qed.

(** What a call returns. *)
Definition ret_of {A} (r : res (Z * A)) : option Z := match r with Ok (ret, _) => Some ret | Err _ => None end.

Definition demo_calls : list (Z * vcall) :=
  [(1, VRead 0 3); (1, VOpen path_b 1); (1, VDup 1); (1, VDup2 0 3); (1, VThread 3); (3, VWrite 0 [1; 2] 2); (3, VLseek 0 5 1); (1, VTask 2);
   (2, VClose 0); (1, VUnregister path_a); (1, VExit 1); (3, VFcntl 0 (F_DUPFD 0)); (3, VClose 3); (3, VIoctl 1 0 0); (3, VFsync 0); (2, VOpen path_a 1); (3, VExit 3); (2, VExit 2)].

Lemma open_files_safe_witness :
  (match vrun demo_calls demo_vfs with Ok (Some s) => bool_decide (v_lists s = ∅) | _ => false end) = true
  /\ wp (vrun demo_calls demo_vfs) (fun o => forall s', o = Some s' -> files_ok no_held s').
Proof. split; [vm_compute; reflexivity|]. apply (open_files_safe no_held demo_calls demo_vfs). exact demo_vfs_ok. Defined.

Definition demo_task (p : Z) : ftask := default (FTask NULL 0) (v_tasks demo_vfs !! p).

Lemma open_lowest_descriptor_witness :
  exists w, files_inv no_held demo_vfs w /\
  wp (open 1 path_b 1 demo_vfs) (fun '(ret, s') => exists w', files_inv no_held s' w' /\ same_view w w' /\
    match open_check (f_nodes (v_fs demo_vfs)) (w_tree w) path_b 1 with
    | inl e => ret = -1 /\ failed demo_vfs s' 1 e
    | inr (x, rest) => (ret = -1 /\ (forall fd, ~ free_fd (v_lists demo_vfs) (t_filelist (demo_task 1)) fd) /\ failed demo_vfs s' 1 EMFILE)
                       \/ opened demo_vfs s' 1 (t_filelist (demo_task 1)) x rest 1 ret
    end)
  /\ ret_of (open 1 path_b 1 demo_vfs) = Some 1.
Proof.
  destruct demo_vfs_ok as [w Hw]. exists w. split; [exact Hw|]. split; [|vm_compute; reflexivity].
  apply (open_lowest_descriptor no_held demo_vfs w 1 (demo_task 1) path_b 1); [exact Hw|vm_compute; reflexivity|vm_compute; discriminate|lia|].
  apply (room_one 1); [lia|]. apply demo_room. vm_compute. reflexivity.
Defined.

Lemma open_close_roundtrip_witness :
  exists w, files_inv no_held demo_vfs w /\
  wp (open 1 path_a 3 demo_vfs) (fun '(fd, s1) => 0 <= fd ->
    wp (close 1 fd s1) (fun '(_, s2) => files_ok no_held s2 /\ f_nodes (v_fs s2) = f_nodes (v_fs demo_vfs)
      /\ (forall l j, free_fd (v_lists s2) l j <-> free_fd (v_lists demo_vfs) l j)
      /\ (forall l j f, (l, j) <> (t_filelist (demo_task 1), fd) -> file_at (v_lists s2) l j f <-> file_at (v_lists demo_vfs) l j f)))
  /\ ret_of (open 1 path_a 3 demo_vfs) = Some 1.
Proof.
  destruct demo_vfs_ok as [w Hw]. exists w. split; [exact Hw|]. split; [|vm_compute; reflexivity].
  apply (open_close_roundtrip no_held demo_vfs w 1 (demo_task 1) path_a 3); [exact Hw|vm_compute; reflexivity|vm_compute; discriminate|lia|].
  apply (room_one 1); [lia|]. apply demo_room. vm_compute. reflexivity.
Defined.

(** The file of descriptor 0. *)
Definition demo_file : file := match get_file (t_filelist (demo_task 1)) 0 demo_vfs with Ok f => f | Err _ => File 0 0 NULL 0 end.

Lemma demo_file_open : open_at (v_lists demo_vfs) (t_filelist (demo_task 1)) 0 demo_file.
Proof.
  destruct (v_lists demo_vfs !! t_filelist (demo_task 1)) as [fl|] eqn:El; [|vm_compute in El; discriminate].
  split; [|vm_compute; discriminate]. exists fl. split; [done|]. split; [done|]. revert El. vm_compute. by intros [= <-].
Qed.

Lemma removed_device_lives_until_closed_witness :
  exists w rest, files_inv no_held demo_vfs w /\
  wp (unregister_driver 1 path_a (v_fs demo_vfs)) (fun '(ret, fs1) => let s1 := with_fs fs1 demo_vfs in ret = - EBUSY /\ exists w1 n n1,
    files_inv no_held s1 w1 /\ f_inode demo_file ∉ faddrs (w_tree w1) /\ f_nodes (v_fs demo_vfs) !! f_inode demo_file = Some n
    /\ f_nodes (v_fs s1) !! f_inode demo_file = Some n1 /\ i_ops n1 = i_ops n /\ i_private n1 = i_private n
    /\ wp (close 1 0 s1) (fun '(_, s2) => files_ok no_held s2
         /\ (f_nodes (v_fs s2) !! f_inode demo_file = None <-> opens (v_lists demo_vfs) (f_inode demo_file) = 1 /\ no_held (f_inode demo_file) = 0)))
  /\ lookup_path (f_nodes (v_fs demo_vfs)) (w_tree w) path_a = Some (f_inode demo_file, rest)
  /\ opens (v_lists demo_vfs) (f_inode demo_file) = 1.
Proof.
  destruct demo_vfs_ok as [w Hw]. exists w, []. split; [exact Hw|].
  assert (lookup_path (f_nodes (v_fs demo_vfs)) (w_tree w) path_a = Some (f_inode demo_file, [])) as Hp.
  { destruct (inode_search path_a (v_fs demo_vfs)) as [[[[x rest] lft] above]|] eqn:Es; [|vm_compute in Es; discriminate].
    assert (x = f_inode demo_file /\ rest = []) as [-> ->] by (revert Es; vm_compute; intros [= <- <- _ _]; done).
    apply (search_lookup demo_vfs w path_a (f_inode demo_file) [] lft above (fc_fs _ _ _ (proj1 Hw)) Es); [reflexivity|vm_compute; discriminate]. }
  split; [|split; [exact Hp|vm_compute; reflexivity]].
  apply (removed_device_lives_until_closed no_held demo_vfs w 1 (demo_task 1) path_a [] 0 demo_file);
    [exact Hw|vm_compute; reflexivity|vm_compute; discriminate|lia|vm_compute; reflexivity|exact demo_file_open|exact Hp].
Defined.

Lemma new_task_inherits_files_witness :
  exists w, files_inv no_held demo_vfs w /\
  wp (sched_setuptaskfiles 1 2 demo_vfs) (fun '(ret, s') => exists w' l2 tp', files_inv no_held s' w' /\ w_tree w' = w_tree w /\ v_tasks s' !! 2 = Some tp' /\ t_filelist tp' = l2
    /\ if decide (l2 = NULL) then ret = - ENOMEM /\ v_lists s' = v_lists demo_vfs else ret = 0 /\ task_files demo_vfs s' (t_filelist (demo_task 1)) l2)
  /\ ret_of (sched_setuptaskfiles 1 2 demo_vfs) = Some 0.
Proof.
  destruct demo_vfs_ok as [w Hw]. exists w. split; [exact Hw|]. split; [|vm_compute; reflexivity].
  apply (new_task_inherits_files no_held demo_vfs w 1 (demo_task 1) 2 (demo_task 2));
    [exact Hw|vm_compute; reflexivity|vm_compute; reflexivity|vm_compute; reflexivity|lia|lia|]. apply demo_room. vm_compute. reflexivity.
Defined.

(** ** Findings *)

(** dup does not call the open method, while close calls the close method: the
    count that the driver keeps of its open files goes below zero. *)
Lemma dup_skips_open :
  (match vrun [(1, VDup 0); (1, VClose 0); (1, VClose 1)] demo_vfs with Ok (Some s) => Some (v_drv s) | _ => None end) = Some (-1).
Proof. vm_compute. reflexivity. Qed.

(** fcntl does not return what the command computes: F_GETFL of descriptor 0,
    open for reading and writing, returns 0, and so does F_DUPFD, whose new
    descriptor is 1. *)
Lemma fcntl_drops_result :
  ret_of (fcntl 1 0 F_GETFL demo_vfs) = Some 0 /\ f_oflags demo_file = O_RDWR
  /\ ret_of (fcntl 1 0 (F_DUPFD 0) demo_vfs) = Some 0 /\ ret_of (file_dup 1 0 0 demo_vfs) = Some 1.
Proof. vm_compute. done. Qed.

(** F_DUPFD with a negative argument reads in front of the list of files. *)
Lemma fcntl_negative_minfd : fcntl 1 0 (F_DUPFD (-1)) demo_vfs = Err FWild.
Proof. vm_compute. reflexivity. Qed.

(** fcntl of a descriptor that is out of range returns EBADF, a positive value,
    and leaves errno. *)
Lemma fcntl_bad_descriptor : fcntl 1 4 F_GETFL demo_vfs = Ok (EBADF, demo_vfs).
Proof. vm_compute. reflexivity. Qed.

(** F_SETFL replaces the access mode: a descriptor opened for reading can be
    written to afterwards. *)
Lemma fcntl_changes_access :
  ret_of ('(_, s) ← open 1 path_a 1 demo_vfs; write 1 1 [5] 1 s) = Some (-1)
  /\ ret_of ('(_, s) ← open 1 path_a 1 demo_vfs; '(_, s) ← fcntl 1 1 (F_SETFL 2) s; write 1 1 [5] 1 s) = Some 1.
Proof. vm_compute. done. Qed.

(** lseek and ioctl of a descriptor that is not open succeed. *)
Lemma closed_descriptor_accepted : ret_of (lseek 1 2 0 0 demo_vfs) = Some 0 /\ ret_of (ioctl 1 2 0 0 demo_vfs) = Some 0.
Proof. vm_compute. done. Qed.

(** dup2 returns 0 and not the new descriptor. *)
Lemma dup2_returns_zero : ret_of (dup2 1 0 3 demo_vfs) = Some 0.
Proof. vm_compute. reflexivity. Qed.
