(* ===== verification/Env.v ===== *)
(** * Environment variables: operations (src/nuttx/sched/env_*.c)

    A task refers to an environment, a block of the heap with a count of
    references and strings "name=value", one behind the other.  The threads of a
    task share its environment, a new task gets a copy.  A byte that was never
    written is [None], and reading it is a fault, as is leaving the block.  A
    pointer to a character of an environment is its offset in [ev_env]; an
    argument string is the list of its characters, without the final zero.  The
    scheduler lock makes each call one step.  [me] is the running task. *)

From S2P Require Import Prelude Queue Sched Sem KHeap Inode.

Record environ_s : Type := Environ {
  ev_crefs : Z;
  ev_alloc : Z;
  ev_env : list (option Z)
}.

Definition set_ev_crefs (c : Z) (e : environ_s) : environ_s := Environ c (ev_alloc e) (ev_env e).
Definition set_ev_alloc (n : Z) (e : environ_s) : environ_s := Environ (ev_crefs e) n (ev_env e).
Definition set_ev_env (b : list (option Z)) (e : environ_s) : environ_s := Environ (ev_crefs e) (ev_alloc e) b.

(** [offsetof(struct environ_s, ev_env)], and the size with [alloc] characters. *)
Definition EV_ENV : Z := 8.
Definition SIZEOF_ENVIRON_T (alloc : Z) : Z := u32 (12 + alloc - 1).

(** The fields of a TCB that these files use. *)
Record etask : Type := ETask { t_envp : ptr; t_env_errno : Z }.

Record env_sys {H : Type} : Type := EnvSys {
  e_heap : H;
  e_envs : gmap Z environ_s;
  e_tasks : gmap Z etask;
  e_delayed : list ptr
}.
Arguments env_sys H : clear implicits.

Definition EQUALS : Z := 61.

(** ** Strings in an environment *)

(** Characters from a pointer on: [None] has not been written. *)
Fixpoint strlen (s : list (option Z)) : res Z :=
  match s with
  | Some c :: s => if c =? 0 then Ok 0 else n ← strlen s; Ok (n + 1)
  | _ => Err FWild
  end.

(** The offset of the first [c], if there is one before the end of the string. *)
Fixpoint strchr (s : list (option Z)) (c : Z) : res (option Z) :=
  match s with
  | Some x :: s =>
      if x =? 0 then Ok None
      else if x =? c then Ok (Some 0)
      else o ← strchr s c; Ok (option_map (Z.add 1) o)
  | _ => Err FWild
  end.

(** The string in memory: its characters and the final zero. *)
Definition cstring (s : list Z) : list (option Z) := Some <$> (s ++ [0]).

(** What a pointer to offset [i] points to; one past the end is a valid pointer. *)
Definition at_offset (b : list (option Z)) (i : Z) : list (option Z) := drop (Z.to_nat i) b.

(** The characters [s] are written from offset [i] on. *)
Definition put_string (s : list Z) (i : Z) (b : list (option Z)) : res (list (option Z)) :=
  if (0 <=? i) && (i + Z.of_nat (length s) <=? Z.of_nat (length b))
  then Ok (take (Z.to_nat i) b ++ (Some <$> s) ++ drop (Z.to_nat i + length s) b)
  else Err FWild.

(** ** env_findvar.c *)

Fixpoint env_cmpname (pszname peqname : list (option Z)) : res bool :=
  match pszname, peqname with
  | Some a :: pszname, Some b :: peqname =>
      if a =? b then env_cmpname pszname peqname else Ok ((a =? 0) && (b =? EQUALS))
  | _, _ => Err FWild
  end.

Fixpoint findvar_loop (fuel : nat) (e : environ_s) (pname : list (option Z)) (pos : Z) : res Z :=
  match fuel with
  | O => Err FFuel
  | S fuel =>
      if pos <? ev_alloc e then
        b ← env_cmpname pname (at_offset (ev_env e) pos);
        if (b : bool) then Ok pos
        else
          n ← strlen (at_offset (ev_env e) pos);
          findvar_loop fuel e pname (pos + (n + 1))
      else Ok pos
  end.

(** The callers pass an environment and a name. *)
Definition env_findvar (e : environ_s) (pname : list Z) : res (option Z) :=
  pos ← findvar_loop (S (length (ev_env e))) e (cstring pname) 0;
  Ok (if pos <? ev_alloc e then Some pos else None).

(** ** env_removevar.c *)

(** [while (count-- > 0) *dest++ = *src++;] *)
Fixpoint move_loop (count : nat) (dest src : Z) (b : list (option Z)) : res (list (option Z)) :=
  match count with
  | O => Ok b
  | S count =>
      match b !! Z.to_nat src with
      | Some c =>
          if Nat.ltb (Z.to_nat dest) (length b) then move_loop count (dest + 1) (src + 1) (<[Z.to_nat dest := c]> b)
          else Err FWild
      | None => Err FWild
      end
  end.

Definition env_removevar (e : environ_s) (pvar : Z) : res (Z * environ_s) :=
  let alloc := s32 (ev_alloc e) in
  if (0 <=? pvar) && (pvar <? alloc) then
    n ← strlen (at_offset (ev_env e) pvar);
    let len := n + 1 in
    b ← move_loop (Z.to_nat (alloc - (pvar + len))) pvar (pvar + len) (ev_env e);
    Ok (0, set_ev_alloc (u32 (ev_alloc e - len)) (set_ev_env b e))
  else Ok (-1, e).

Section ops.
  Context {H : Type} {HK : KHeap H}.
  Implicit Types (s : env_sys H).

Definition with_eheap (h : H) s : env_sys H := EnvSys H h (e_envs s) (e_tasks s) (e_delayed s).
Definition with_envs (m : gmap Z environ_s) s : env_sys H := EnvSys H (e_heap s) m (e_tasks s) (e_delayed s).
Definition with_etasks (m : gmap Z etask) s : env_sys H := EnvSys H (e_heap s) (e_envs s) m (e_delayed s).
Definition with_edelayed (l : list ptr) s : env_sys H := EnvSys H (e_heap s) (e_envs s) (e_tasks s) l.

Definition env_task (tcb : Z) s : res etask := match e_tasks s !! tcb with Some t => Ok t | None => Err FWild end.

Definition put_envp (tcb : Z) (envp : ptr) s : res (env_sys H) :=
  t ← env_task tcb s;
  Ok (with_etasks (<[tcb := ETask envp (t_env_errno t)]> (e_tasks s)) s).

Definition put_env_errno (me e : Z) s : res (env_sys H) :=
  t ← env_task me s;
  Ok (with_etasks (<[me := ETask (t_envp t) e]> (e_tasks s)) s).

(** [errno = ret; return ERROR;] *)
Definition env_errout (me ret : Z) s : res (Z * env_sys H) :=
  s ← put_env_errno me ret s;
  Ok (-1, s).

(** ** Memory of an environment *)

(** A block for [n] characters, not yet written. *)
Definition fresh_bytes (n : Z) : list (option Z) := replicate (Z.to_nat n) None.

Definition new_env (me alloc : Z) s : res (ptr * env_sys H) :=
  let size := SIZEOF_ENVIRON_T alloc in
  '(p, h) ← kmalloc me size (e_heap s);
  let s := with_eheap h s in
  if decide (p = NULL) then Ok (NULL, s)
  else Ok (p, with_envs (<[p := Environ 1 alloc (fresh_bytes (size - EV_ENV))]> (e_envs s)) s).

(** [krealloc]: the contents move with the block, new space is not written. *)
Definition resize_bytes (n : Z) (b : list (option Z)) : list (option Z) :=
  take (Z.to_nat n) b ++ replicate (Z.to_nat n - length b) None.

Definition realloc_env (me : Z) (envp : ptr) (alloc : Z) s : res (ptr * env_sys H) :=
  let size := SIZEOF_ENVIRON_T alloc in
  e ← deref (e_envs s) envp;
  '(p, h) ← krealloc me envp size (e_heap s);
  let s := with_eheap h s in
  if decide (p = NULL) then Ok (NULL, s)
  else Ok (p, with_envs (<[p := set_ev_env (resize_bytes (size - EV_ENV) (ev_env e)) e]> (delete envp (e_envs s))) s).

(** [sched_free] of an environment, outside interrupt handlers. *)
Definition sched_free_env (me : Z) (envp : ptr) s : res (env_sys H) :=
  let s := with_envs (delete envp (e_envs s)) s in
  match kmm_trysemaphore me (e_heap s) with
  | (false, _) => Ok (with_edelayed (e_delayed s ++ [envp]) s)
  | (true, h) =>
      h ← kfree me envp h;
      h ← kmm_givesemaphore me h;
      Ok (with_eheap h s)
  end.

(** ** env_unsetenv.c *)

(** [envp && (pvar = env_findvar(envp, name)) != NULL] *)
Definition find_in (envp : ptr) (name : list Z) s : res (option Z) :=
  if decide (envp = NULL) then Ok None
  else e ← deref (e_envs s) envp; env_findvar e name.

Definition unsetenv (me : Z) (name : option (list Z)) s : res (Z * env_sys H) :=
  match name with
  | None => env_errout me EINVAL s
  | Some name =>
      rtcb ← env_task me s;
      let envp := t_envp rtcb in
      pvar ← find_in envp name s;
      match pvar with
      | None => Ok (0, s)
      | Some pvar =>
          e ← deref (e_envs s) envp;
          '(_, e) ← env_removevar e pvar;
          m ← store (fun _ => e) envp (e_envs s);
          let s := with_envs m s in
          '(tmp, s) ← realloc_env me envp (ev_alloc e) s;
          if decide (tmp = NULL) then env_errout me ENOMEM s
          else s ← put_envp me tmp s; Ok (0, s)
      end
  end.

(** ** env_setenv.c *)

(** The part that makes room for [varlen] characters: the environment, the place
    of the new string. *)
Definition setenv_room (me : Z) (envp : ptr) (varlen : Z) s : res (ptr * Z * env_sys H) :=
  if decide (envp = NULL) then
    '(envp, s) ← new_env me varlen s;
    Ok (envp, 0, s)
  else
    e ← deref (e_envs s) envp;
    let alloc := s32 (ev_alloc e) in
    '(tmp, s) ← realloc_env me envp (alloc + varlen) s;
    if decide (tmp = NULL) then Ok (NULL, 0, s)
    else
      m ← store (set_ev_alloc (u32 (alloc + varlen))) tmp (e_envs s);
      Ok (tmp, alloc, with_envs m s).

(** The second part of [setenv]: the new string is put at the end. *)
Definition setenv_add (me : Z) (envp : ptr) (name value : list Z) s : res (Z * env_sys H) :=
  let varlen := s32 (Z.of_nat (length name) + Z.of_nat (length value) + 2) in
  '(envp, pvar, s) ← setenv_room me envp varlen s;
  if decide (envp = NULL) then env_errout me ENOMEM s
  else
    e ← deref (e_envs s) envp;
    b ← put_string (name ++ EQUALS :: value ++ [0]) pvar (ev_env e);
    m ← store (set_ev_env b) envp (e_envs s);
    s ← put_envp me envp (with_envs m s);
    Ok (0, s).

Definition setenv (me : Z) (name value : option (list Z)) (overwrite : bool) s : res (Z * env_sys H) :=
  match name with
  | None => env_errout me EINVAL s
  | Some name =>
      match value with
      | None | Some [] => if overwrite then unsetenv me (Some name) s else Ok (0, s)
      | Some value =>
          rtcb ← env_task me s;
          let envp := t_envp rtcb in
          pvar ← find_in envp name s;
          if bool_decide (is_Some pvar) && negb overwrite then Ok (0, s)
          else
            s ← match pvar with
                | Some pvar =>
                    e ← deref (e_envs s) envp;
                    '(_, e) ← env_removevar e pvar;
                    m ← store (fun _ => e) envp (e_envs s);
                    Ok (with_envs m s)
                | None => Ok s
                end;
            setenv_add me envp name value s
      end
  end.

(** ** env_getenv.c: the address of the value *)

Definition getenv (me : Z) (name : option (list Z)) s : res (ptr * env_sys H) :=
  let fail ret s := s ← put_env_errno me ret s; Ok (NULL, s) in
  match name with
  | None => fail EINVAL s
  | Some name =>
      rtcb ← env_task me s;
      let envp := t_envp rtcb in
      pvar ← find_in envp name s;
      match pvar with
      | None => fail ENOENT s
      | Some pvar =>
          e ← deref (e_envs s) envp;
          pvalue ← strchr (at_offset (ev_env e) pvar) EQUALS;
          match pvalue with
          | None => fail EINVAL s
          | Some i => Ok (envp + EV_ENV + (pvar + i) + 1, s)
          end
      end
  end.

(** ** env_putenv.c *)

(** The copy of the string is a block of the heap; its characters are [string]. *)
Definition putenv (me : Z) (string : option (list Z)) s : res (Z * env_sys H) :=
  match string with
  | None => env_errout me EINVAL s
  | Some string =>
      '(pname, h) ← kmalloc me (u32 (Z.of_nat (length string) + 1)) (e_heap s);
      let s := with_eheap h s in
      if decide (pname = NULL) then env_errout me ENOMEM s
      else
        pequal ← strchr (cstring string) EQUALS;
        '(ret, s) ← match pequal with
                    | Some i => setenv me (Some (take (Z.to_nat i) string)) (Some (drop (S (Z.to_nat i)) string)) true s
                    | None => Ok (0, s)
                    end;
        h ← kfree me pname (e_heap s);
        Ok (ret, with_eheap h s)
  end.

(** ** env_dup.c, env_share.c, env_release.c, env_clearenv.c, env_getenvironptr.c *)

Definition env_dup (me ptcb : Z) s : res (Z * env_sys H) :=
  if decide (ptcb = NULL) then Ok (- EINVAL, s)
  else
    parent ← env_task me s;
    '(ret, envp, s) ←
      (if decide (t_envp parent = NULL) then Ok (0, NULL, s)
       else
         e ← deref (e_envs s) (t_envp parent);
         let envlen := ev_alloc e in
         '(envp, s) ← new_env me envlen s;
         if decide (envp = NULL) then Ok (- ENOMEM, NULL, s)
         else
           n ← deref (e_envs s) envp;
           e ← deref (e_envs s) (t_envp parent);
           if Z.of_nat (length (ev_env e)) <? envlen then Err FWild
           else if Z.of_nat (length (ev_env n)) <? envlen then Err FWild
           else
             let b := take (Z.to_nat envlen) (ev_env e) ++ drop (Z.to_nat envlen) (ev_env n) in
             m ← store (set_ev_env b) envp (e_envs s);
             Ok (0, envp, with_envs m s));
    s ← put_envp ptcb envp s;
    Ok (ret, s).

Definition env_share (me ptcb : Z) s : res (Z * env_sys H) :=
  if decide (ptcb = NULL) then Ok (- EINVAL, s)
  else
    parent ← env_task me s;
    let envp := t_envp parent in
    s ← (if decide (envp = NULL) then Ok s
         else
           e ← deref (e_envs s) envp;
           m ← store (set_ev_crefs (u32 (ev_crefs e + 1))) envp (e_envs s);
           Ok (with_envs m s));
    s ← put_envp ptcb envp s;
    Ok (0, s).

Definition env_release (me ptcb : Z) s : res (Z * env_sys H) :=
  if decide (ptcb = NULL) then Ok (- EINVAL, s)
  else
    t ← env_task ptcb s;
    let envp := t_envp t in
    if decide (envp = NULL) then Ok (0, s)
    else
      e ← deref (e_envs s) envp;
      s ← (if ev_crefs e <=? 1 then sched_free_env me envp s
           else m ← store (set_ev_crefs (u32 (ev_crefs e - 1))) envp (e_envs s); Ok (with_envs m s));
      s ← put_envp ptcb NULL s;
      Ok (0, s).

Definition clearenv (me : Z) s : res (Z * env_sys H) := env_release me me s.

Definition get_environ_ptr : ptr := NULL.

End ops.
