(* ===== verification/EnvSpec.v ===== *)
(** * Environment variables: strings, the invariant and the map

    [strings vs] are the bytes of the variables [vs] as an environment holds
    them; [parse] reads them back.  [env_map s x] is what the environment of a
    task stands for: a map from names to values.  [env_inv] says that every
    environment is well formed, lies in its block of the heap and counts the
    tasks that refer to it. *)

From S2P Require Import Prelude Queue Sched Sem KHeap Inode Env.

(** ** The bytes of a list of variables *)

Abbreviation var := (list Z * list Z)%type.

Definition entry (x : var) : list Z := x.1 ++ EQUALS :: x.2 ++ [0].
Definition strings (vs : list var) : list Z := concat (entry <$> vs).

Definition good_name (n : list Z) : bool := bool_decide (0 ∉ n) && bool_decide (EQUALS ∉ n).
Definition good_value (v : list Z) : bool := bool_decide (0 ∉ v).
Definition good_var (x : var) : Prop := good_name x.1 = true /\ good_value x.2 = true.

(** The variables in a sequence of strings; [n] and [v] are the parts of the
    current one that have been read. *)
Fixpoint parse (l : list Z) (n : list Z) (v : option (list Z)) : list var :=
  match l with
  | [] => []
  | c :: l =>
      match v with
      | None => if c =? EQUALS then parse l n (Some []) else parse l (n ++ [c]) None
      | Some v => if c =? 0 then (n, v) :: parse l [] None else parse l n (Some (v ++ [c]))
      end
  end.

Lemma good_nameP n : good_name n = true <-> 0 ∉ n /\ EQUALS ∉ n.
Proof. unfold good_name. by rewrite andb_true_iff, !bool_decide_eq_true. Qed.

Lemma good_valueP v : good_value v = true <-> 0 ∉ v.
Proof. apply bool_decide_eq_true. Qed.

Lemma strings_app vs ws : strings (vs ++ ws) = strings vs ++ strings ws.
Proof. unfold strings. by rewrite fmap_app, concat_app. Qed.

Lemma strings_cons x vs : strings (x :: vs) = entry x ++ strings vs.
Proof. done. Qed.

Lemma parse_name l n1 n2 : EQUALS ∉ n2 -> parse (n2 ++ l) n1 None = parse l (n1 ++ n2) None.
Proof.
  revert n1. induction n2 as [|c n2 IH]; intros n1 Hn; [by rewrite app_nil_r|]. apply not_elem_of_cons in Hn as [Hc Hn]. simpl.
  rewrite (proj2 (Z.eqb_neq c EQUALS)) by done. rewrite (IH _ Hn). by rewrite <-app_assoc.
Qed.

Lemma parse_value l n v1 v2 : 0 ∉ v2 -> parse (v2 ++ l) n (Some v1) = parse l n (Some (v1 ++ v2)).
Proof.
  revert v1. induction v2 as [|c v2 IH]; intros v1 Hn; [by rewrite app_nil_r|]. apply not_elem_of_cons in Hn as [Hc Hn]. simpl.
  rewrite (proj2 (Z.eqb_neq c 0)) by done. rewrite (IH _ Hn). by rewrite <-app_assoc.
Qed.

Lemma parse_strings vs : Forall good_var vs -> parse (strings vs) [] None = vs.
Proof.
  induction 1 as [|[n v] vs [Hn Hv] _ IH]; [done|]. apply good_nameP in Hn as [_ Hn]. apply good_valueP in Hv. rewrite strings_cons. unfold entry. cbn [fst snd] in *.
  rewrite <-!app_assoc, parse_name by done. rewrite <-app_comm_cons. cbn [parse app]. rewrite Z.eqb_refl, <-!app_assoc, parse_value by done. cbn [parse app]. by rewrite IH.
Qed.

(** ** The functions on strings *)

Lemma strlen_ok l rest : 0 ∉ l -> strlen ((Some <$> l) ++ Some 0 :: rest) = Ok (Z.of_nat (length l)).
Proof.
  induction l as [|c l IH]; intros Hl; [done|]. apply not_elem_of_cons in Hl as [Hc Hl]. rewrite fmap_cons. cbn [app strlen]. rewrite (proj2 (Z.eqb_neq c 0)) by done.
  rewrite (IH Hl). cbn [mbind res_bind length]. f_equal. lia.
Qed.

Lemma strchr_found l c rest : 0 ∉ l -> c ∉ l -> c <> 0 -> strchr ((Some <$> l) ++ Some c :: rest) c = Ok (Some (Z.of_nat (length l))).
Proof.
  intros Hl Hc H0. induction l as [|x l IH]; [|rewrite fmap_cons; cbn [app strchr]].
  { simpl. rewrite (proj2 (Z.eqb_neq c 0)), Z.eqb_refl by done. done. }
  apply not_elem_of_cons in Hl as [? Hl]. apply not_elem_of_cons in Hc as [? Hc]. rewrite (proj2 (Z.eqb_neq x 0)), (proj2 (Z.eqb_neq x c)) by done.
  rewrite (IH Hl Hc). simpl. do 2 f_equal. lia.
Qed.

Lemma strchr_none l c rest : 0 ∉ l -> c ∉ l -> strchr ((Some <$> l) ++ Some 0 :: rest) c = Ok None.
Proof.
  intros Hl Hc. induction l as [|x l IH]; [done|]. rewrite fmap_cons. cbn [app strchr].
  apply not_elem_of_cons in Hl as [? Hl]. apply not_elem_of_cons in Hc as [? Hc]. rewrite (proj2 (Z.eqb_neq x 0)), (proj2 (Z.eqb_neq x c)) by done.
  by rewrite (IH Hl Hc).
Qed.

(** The string of a variable, as the search sees it. *)
Lemma entry_bytes x rest : (Some <$> entry x) ++ rest = (Some <$> (x.1 ++ EQUALS :: x.2)) ++ Some 0 :: rest.
Proof. unfold entry. rewrite app_comm_cons, app_assoc, fmap_app, <-app_assoc. done. Qed.

Lemma entry_zero x : good_var x -> 0 ∉ x.1 ++ EQUALS :: x.2.
Proof. intros [[H1 _]%good_nameP H2%good_valueP]. rewrite elem_of_app, elem_of_cons. unfold EQUALS in *. intros [?|[?|?]]; done. Qed.

Lemma entry_length x : Z.of_nat (length (entry x)) = Z.of_nat (length (x.1 ++ EQUALS :: x.2)) + 1.
Proof. unfold entry. rewrite !length_app. simpl. rewrite length_app. simpl. lia. Qed.

Lemma strlen_entry x rest : good_var x -> strlen ((Some <$> entry x) ++ rest) = Ok (Z.of_nat (length (entry x)) - 1).
Proof. intros Hx. rewrite entry_bytes, strlen_ok by by apply entry_zero. f_equal. rewrite entry_length. lia. Qed.

Lemma cstring_bytes s : cstring s = (Some <$> s) ++ [Some 0].
Proof. unfold cstring. by rewrite fmap_app. Qed.

Lemma cmpname_ok n m l : good_name n = true -> good_name m = true -> env_cmpname (cstring n) ((Some <$> m) ++ Some EQUALS :: l) = Ok (bool_decide (n = m)).
Proof.
  rewrite !good_nameP, cstring_bytes. revert m. induction n as [|a n IH]; intros [|b m] [Ha Ha'] [Hb Hb']; rewrite ?fmap_cons, ?fmap_nil; cbn [app env_cmpname].
  - done.
  - apply not_elem_of_cons in Hb as [Hb _], Hb' as [Hb' _]. rewrite (proj2 (Z.eqb_neq 0 b)), (proj2 (Z.eqb_neq b EQUALS)) by done. done.
  - apply not_elem_of_cons in Ha as [Ha _], Ha' as [Ha' _]. rewrite (proj2 (Z.eqb_neq a EQUALS)), (proj2 (Z.eqb_neq a 0)) by done. done.
  - apply not_elem_of_cons in Ha as [Ha Hn], Ha' as [Ha' Hn'], Hb as [Hb Hm], Hb' as [Hb' Hm']. destruct (Z.eqb_spec a b) as [->|Hne].
    + rewrite (IH m) by done. f_equal. apply bool_decide_ext. split; [by intros ->|by intros [= ->]].
    + rewrite (proj2 (Z.eqb_neq a 0)) by done. rewrite bool_decide_false by congruence. done.
Qed.

Lemma cmp_entry n x l : good_name n = true -> good_var x -> env_cmpname (cstring n) ((Some <$> entry x) ++ l) = Ok (bool_decide (n = x.1)).
Proof. intros Hn [Hx _]. unfold entry. rewrite fmap_app, fmap_cons, <-app_assoc, <-app_comm_cons. by apply cmpname_ok. Qed.

(** ** An environment *)

(** Sizes are ints in the code; an environment stays below this one. *)
Definition ENV_LIMIT : Z := 2 ^ 31 - 128.

Record env_rep (e : environ_s) (vs : list var) : Prop := EnvRep {
  er_bytes : exists rest, ev_env e = (Some <$> strings vs) ++ rest;
  er_alloc : ev_alloc e = Z.of_nat (length (strings vs));
  er_limit : ev_alloc e < ENV_LIMIT;
  er_names : NoDup vs.*1;
  er_good : Forall good_var vs
}.

(** The variables that an environment holds. *)
Definition vars (e : environ_s) : list var := parse (omap id (take (Z.to_nat (ev_alloc e)) (ev_env e))) [] None.

Lemma omap_Some (l : list Z) : omap id (Some <$> l) = l.
Proof. induction l as [|x l IH]; [done|]. rewrite fmap_cons. cbn. by f_equal. Qed.

Lemma env_rep_vars e vs : env_rep e vs -> vars e = vs.
Proof.
  intros [[rest E] Ha _ _ Hg]. unfold vars. rewrite E, Ha, Nat2Z.id. rewrite take_app_length' by by rewrite length_fmap. rewrite omap_Some. by apply parse_strings.
Qed.

(** ** Searching *)

(** The search stands before the variables [vs], the last of the environment. *)
Lemma findvar_loop_ok e n vs ps fuel rest :
  good_name n = true -> Forall good_var (ps ++ vs) -> ev_env e = (Some <$> strings (ps ++ vs)) ++ rest -> ev_alloc e = Z.of_nat (length (strings (ps ++ vs))) ->
  (length vs < fuel)%nat ->
  wp (findvar_loop fuel e (cstring n) (Z.of_nat (length (strings ps)))) (fun pos =>
    (n ∉ vs.*1 /\ pos = ev_alloc e)
    \/ exists l1 v l2, vs = l1 ++ (n, v) :: l2 /\ n ∉ l1.*1 /\ pos = Z.of_nat (length (strings (ps ++ l1))) /\ pos < ev_alloc e).
Proof.
  intros Hn. revert ps fuel. induction vs as [|x vs IH]; intros ps [|fuel] Hg E Ha Hf; try (simpl in Hf; lia).
  - cbn [findvar_loop]. rewrite Ha, app_nil_r, Z.ltb_irrefl. left. split; [set_solver|done].
  - cbn [findvar_loop]. apply Forall_app in Hg as Hg'. destruct Hg' as [_ Hx]. apply Forall_cons in Hx as [Hx _].
    assert (length (strings ps) < length (strings (ps ++ x :: vs)))%nat as Hlt.
    { rewrite strings_app, strings_cons, !length_app. pose proof (entry_length x). lia. }
    rewrite (proj2 (Z.ltb_lt _ _)) by lia. assert (at_offset (ev_env e) (Z.of_nat (length (strings ps))) = (Some <$> entry x) ++ (Some <$> strings vs) ++ rest) as Eo.
    { unfold at_offset. rewrite E, Nat2Z.id, strings_app, strings_cons, !fmap_app, <-!app_assoc. rewrite drop_app_length' by by rewrite length_fmap. done. }
    rewrite Eo, cmp_entry by done. cbn [mbind res_bind]. case_bool_decide as Hd.
    + right. exists [], x.2, vs. destruct x as [m v]. simpl in Hd. subst m. split; [done|]. split; [set_solver|]. rewrite app_nil_r. split; [done|lia].
    + rewrite strlen_entry by done. cbn [mbind res_bind]. assert ((ps ++ [x]) ++ vs = ps ++ x :: vs) as Eps by by rewrite <-app_assoc.
      replace (Z.of_nat (length (strings ps)) + (Z.of_nat (length (entry x)) - 1 + 1)) with (Z.of_nat (length (strings (ps ++ [x])))).
      2: { rewrite strings_app, length_app. unfold strings at 2. simpl. rewrite app_nil_r. lia. }
      eapply wp_mono; [apply IH; rewrite ?Eps; try done; simpl in Hf; lia|]. intros pos [[Hni ->]|(l1 & v & l2 & -> & Hni & -> & Hlt')].
      * left. split; [|done]. rewrite fmap_cons. by apply not_elem_of_cons.
      * right. exists (x :: l1), v, l2. split; [done|]. split; [rewrite fmap_cons; by apply not_elem_of_cons|]. rewrite <-app_assoc in Hlt' |- *. done.
Qed.

Lemma strings_count vs : (length vs <= length (strings vs))%nat.
Proof. induction vs as [|x vs IH]; [done|]. rewrite strings_cons, length_app. pose proof (entry_length x). simpl. lia. Qed.

Lemma findvar_ok e vs n :
  env_rep e vs -> good_name n = true ->
  wp (env_findvar e n) (fun o =>
    (o = None /\ n ∉ vs.*1) \/ exists l1 v l2, vs = l1 ++ (n, v) :: l2 /\ n ∉ l1.*1 /\ o = Some (Z.of_nat (length (strings l1)))).
Proof.
  intros [[rest E] Ha Hl _ Hg] Hn. unfold env_findvar. apply wp_bind. eapply wp_mono.
  - apply (findvar_loop_ok e n vs [] (S (length (ev_env e))) rest); try done. rewrite E, length_app, length_fmap. pose proof (strings_count vs). lia.
  - intros pos [[Hni ->]|(l1 & v & l2 & -> & Hni & -> & Hlt)]; apply wp_ret.
    + left. by rewrite Z.ltb_irrefl.
    + right. exists l1, v, l2. split; [done|]. split; [done|]. by rewrite (proj2 (Z.ltb_lt _ _)).
Qed.

(** ** Removing *)

Lemma move_loop_ok A X B C :
  X <> [] -> exists D, length D = (length X + length C)%nat
    /\ move_loop (length B) (Z.of_nat (length A)) (Z.of_nat (length A + length X)) (A ++ X ++ B ++ C) = Ok (A ++ B ++ D).
Proof.
  revert A X. induction B as [|b B IH]; intros A X HX.
  - exists (X ++ C). rewrite length_app. done.
  - destruct X as [|x X]; [done|]. cbn [length move_loop]. rewrite !Nat2Z.id.
    assert ((A ++ (x :: X) ++ (b :: B) ++ C) !! (length A + S (length X))%nat = Some b) as ->.
    { rewrite lookup_app_r by lia. rewrite lookup_app_r by (simpl; lia). replace (_ - _ - _)%nat with 0%nat by (simpl; lia). done. }
    rewrite (proj2 (Nat.ltb_lt _ _)) by (rewrite !length_app; simpl; lia).
    assert (<[length A := b]> (A ++ (x :: X) ++ (b :: B) ++ C) = (A ++ [b]) ++ (X ++ [b]) ++ B ++ C) as ->.
    { rewrite insert_app_r_alt by lia. rewrite Nat.sub_diag. rewrite <-!app_assoc. done. }
    destruct (IH (A ++ [b]) (X ++ [b])) as (D & HD & HL); [by destruct X|]. exists D. split; [rewrite HD, length_app; simpl; lia|].
    replace (Z.of_nat (length A) + 1) with (Z.of_nat (length (A ++ [b]))) by (rewrite length_app; simpl; lia).
    replace (Z.of_nat (length A + S (length X)) + 1) with (Z.of_nat (length (A ++ [b]) + length (X ++ [b]))) by (rewrite !length_app; simpl; lia).
    rewrite HL, <-!app_assoc. done.
Qed.

Lemma remove_names l1 x l2 : NoDup (l1 ++ x :: l2 : list var).*1 -> NoDup (l1 ++ l2).*1.
Proof. rewrite !fmap_app, fmap_cons, <-Permutation_middle. by intros [_ H]%NoDup_cons. Qed.

Lemma removevar_ok e l1 x l2 :
  env_rep e (l1 ++ x :: l2) ->
  exists e', env_removevar e (Z.of_nat (length (strings l1))) = Ok (0, e') /\ env_rep e' (l1 ++ l2) /\ ev_crefs e' = ev_crefs e /\ length (ev_env e') = length (ev_env e)
    /\ ev_alloc e' = ev_alloc e - Z.of_nat (length (entry x)).
Proof.
  intros [[rest E] Ha Hl Hnd Hg]. apply Forall_app in Hg as Hg'. destruct Hg' as [Hg1 [Hx Hg2]%Forall_cons].
  pose proof (entry_length x) as Hlx. rewrite strings_app, strings_cons, !length_app in Ha. unfold ENV_LIMIT in Hl.
  unfold env_removevar. rewrite s32_id by (unfold INT_MAX; lia). rewrite (proj2 (Z.leb_le _ _)), (proj2 (Z.ltb_lt _ _)) by lia. cbn [andb].
  assert (ev_env e = (Some <$> strings l1) ++ (Some <$> entry x) ++ (Some <$> strings l2) ++ rest) as Eb.
  { rewrite E, strings_app, strings_cons, !fmap_app, <-!app_assoc. done. }
  assert (at_offset (ev_env e) (Z.of_nat (length (strings l1))) = (Some <$> entry x) ++ (Some <$> strings l2) ++ rest) as ->.
  { unfold at_offset. rewrite Eb, Nat2Z.id, drop_app_length' by by rewrite length_fmap. done. }
  rewrite strlen_entry by done. cbn [mbind res_bind].
  destruct (move_loop_ok (Some <$> strings l1) (Some <$> entry x) (Some <$> strings l2) rest) as (D & HD & HM).
  { intros E0%(f_equal length). rewrite length_fmap in E0. simpl in E0. lia. }
  rewrite !length_fmap in HM. rewrite <-Eb in HM.
  replace (Z.to_nat (ev_alloc e - (Z.of_nat (length (strings l1)) + (Z.of_nat (length (entry x)) - 1 + 1)))) with (length (strings l2)) by lia.
  replace (Z.of_nat (length (strings l1)) + (Z.of_nat (length (entry x)) - 1 + 1)) with (Z.of_nat (length (strings l1) + length (entry x))) by lia.
  rewrite HM. cbn [mbind res_bind]. eexists. split; [done|]. rewrite u32_id by lia. split; [|split; [done|]]; [split; cbn|].
  - exists D. by rewrite strings_app, fmap_app, <-app_assoc.
  - rewrite strings_app, length_app. lia.
  - unfold ENV_LIMIT. lia.
  - by eapply remove_names.
  - by apply Forall_app.
  - cbn. split; [rewrite Eb, !length_app, !length_fmap, HD, length_fmap; lia|lia].
Qed.

(** ** Adding *)

Lemma put_ok vs n v rest b :
  b = (Some <$> strings vs) ++ rest -> (length (entry (n, v)) <= length rest)%nat ->
  exists b' rest', put_string (n ++ EQUALS :: v ++ [0]) (Z.of_nat (length (strings vs))) b = Ok b'
    /\ b' = (Some <$> strings (vs ++ [(n, v)])) ++ rest' /\ length b' = length b.
Proof.
  intros -> Hr. unfold put_string. change (n ++ EQUALS :: v ++ [0]) with (entry (n, v)). set (x := entry (n, v)) in *.
  rewrite (proj2 (Z.leb_le 0 _)), (proj2 (Z.leb_le _ _)) by (rewrite ?length_app, ?length_fmap; lia). cbn [andb].
  rewrite Nat2Z.id. rewrite take_app_length', drop_app_ge by (rewrite length_fmap; lia). rewrite length_fmap.
  replace (length (strings vs) + length x - length (strings vs))%nat with (length x) by lia.
  eexists _, (drop (length x) rest). split; [done|]. split.
  - rewrite strings_app, fmap_app, <-app_assoc. unfold strings at 3. cbn [fmap list_fmap concat]. by rewrite app_nil_r.
  - rewrite !length_app, !length_fmap, length_drop. lia.
Qed.

(** ** The map of a list of variables *)

Abbreviation envmap := (gmap (list Z) (list Z)).
Definition map_of (vs : list var) : envmap := list_to_map vs.

Lemma map_none vs n : n ∉ vs.*1 -> map_of vs !! n = None.
Proof. apply not_elem_of_list_to_map. Qed.

Lemma map_found l1 n v l2 : NoDup (l1 ++ (n, v) :: l2).*1 -> map_of (l1 ++ (n, v) :: l2) !! n = Some v.
Proof. intros Hnd. apply elem_of_list_to_map; [done|]. apply elem_of_app. right. left. Qed.

Lemma map_remove l1 n v l2 : NoDup (l1 ++ (n, v) :: l2).*1 -> map_of (l1 ++ l2) = delete n (map_of (l1 ++ (n, v) :: l2)).
Proof.
  intros Hnd. unfold map_of. rewrite (list_to_map_proper _ ((n, v) :: l1 ++ l2) Hnd) by by rewrite Permutation_middle.
  cbn. rewrite delete_insert_id; [done|]. apply not_elem_of_list_to_map. rewrite fmap_app, fmap_cons, <-Permutation_middle in Hnd. apply NoDup_cons in Hnd as [Hnd _].
  by rewrite fmap_app.
Qed.

Lemma map_add vs n v : n ∉ vs.*1 -> map_of (vs ++ [(n, v)]) = <[n := v]> (map_of vs).
Proof. apply list_to_map_snoc. Qed.

(** ** The environments in the heap *)

Record envs_ok (u : Z -> Z) (m : gmap Z environ_s) (bl : list (Z * Z)) : Prop := EnvsOk {
  eo_nodup : NoDup bl.*1;
  eo_block : forall b, b ∈ bl -> 0 < b.1 /\ 0 < b.2;
  eo_dom : forall p, is_Some (m !! p) <-> p ∈ bl.*1;
  eo_size : forall p sz e, (p, sz) ∈ bl -> m !! p = Some e -> EV_ENV + Z.of_nat (length (ev_env e)) <= sz;
  eo_env : forall p e, m !! p = Some e -> (exists vs, env_rep e vs) /\ ev_crefs e = u p
}.

Lemma envs_perm u m bl bl' : bl ≡ₚ bl' -> envs_ok u m bl -> envs_ok u m bl'.
Proof.
  intros Hp [A B C D E]. split; try done.
  - by rewrite <-Hp.
  - intros b Hb. apply B. by rewrite Hp.
  - intros p. by rewrite <-Hp.
  - intros p sz e Hb. apply D. by rewrite Hp.
Qed.

Lemma envs_nonnull u m bl p e : envs_ok u m bl -> m !! p = Some e -> p <> NULL.
Proof.
  intros [_ B C _ _] E. assert (p ∈ bl.*1) as Hp by (apply C; eauto). apply list_elem_of_fmap in Hp as (b & -> & Hb). apply B in Hb. lia.
Qed.

(** The block of an environment. *)
Lemma envs_pick u m bl p e : envs_ok u m bl -> m !! p = Some e -> exists sz bl0, bl ≡ₚ (p, sz) :: bl0.
Proof.
  intros [_ B C _ _] E. assert (p ∈ bl.*1) as Hp by (apply C; eauto). apply list_elem_of_fmap in Hp as ([q sz] & -> & Hb).
  apply elem_of_Permutation in Hb as [bl0 Hb]. eauto.
Qed.

Lemma envs_delete u m p sz bl : envs_ok u m ((p, sz) :: bl) -> envs_ok u (delete p m) bl.
Proof.
  intros [A B C D E]. rewrite fmap_cons in A. apply NoDup_cons in A as [A1 A2]. split; try done.
  - intros b Hb. apply B. by right.
  - intros q. rewrite lookup_delete_is_Some, C, fmap_cons, elem_of_cons. split; [intros [? [->|?]]; done|]. intros Hq. split; [intros <-; done|by right].
  - intros q sz' e Hq He. apply lookup_delete_Some in He as [_ He]. apply (D q sz' e); [by right|done].
  - intros q e He. apply lookup_delete_Some in He as [_ He]. by apply E.
Qed.

Lemma envs_insert u m bl p sz e vs :
  envs_ok u m bl -> p ∉ bl.*1 -> 0 < p -> 0 < sz -> EV_ENV + Z.of_nat (length (ev_env e)) <= sz -> env_rep e vs -> ev_crefs e = u p ->
  envs_ok u (<[p := e]> m) ((p, sz) :: bl).
Proof.
  intros [A B C D E] Hp Hp0 Hsz Hlen Hrep Hc. split.
  - rewrite fmap_cons. by apply NoDup_cons.
  - intros b [->|Hb]%elem_of_cons; [done|by apply B].
  - intros q. rewrite lookup_insert_is_Some, C, fmap_cons, elem_of_cons. simpl. destruct (decide (p = q)); naive_solver.
  - intros q sz' e' [[= -> ->]|Hq]%elem_of_cons He'; [by rewrite lookup_insert_eq in He'; simplify_eq|].
    rewrite lookup_insert_ne in He'; [by eapply D|]. intros ->. apply Hp. apply (list_elem_of_fmap_2 fst) in Hq. done.
  - intros q e' [[<- <-]|[_ He]]%lookup_insert_Some; [split; [by exists vs|done]|by apply E].
Qed.

Lemma envs_users u u' m bl : (forall p, is_Some (m !! p) -> u' p = u p) -> envs_ok u m bl -> envs_ok u' m bl.
Proof. intros Hu [A B C D E]. split; try done. intros p e He. rewrite Hu by eauto. by apply E. Qed.

(** One environment changes in its block. *)
Lemma envs_update u u' m bl p e e' vs :
  envs_ok u m bl -> m !! p = Some e -> length (ev_env e') = length (ev_env e) -> env_rep e' vs -> ev_crefs e' = u' p ->
  (forall q, q <> p -> is_Some (m !! q) -> u' q = u q) -> envs_ok u' (<[p := e']> m) bl.
Proof.
  intros HO He Hlen Hrep Hc Hu. destruct (envs_pick _ _ _ _ _ HO He) as (sz & bl0 & Hp). apply (envs_perm _ _ _ _ Hp) in HO as HO1.
  pose proof (eo_size _ _ _ HO1 p sz e ltac:(left) He) as Hsz. destruct (eo_block _ _ _ HO1 (p, sz) ltac:(left)) as [Hp0 Hsz0].
  pose proof (eo_nodup _ _ _ HO1) as Hnd. rewrite fmap_cons in Hnd. apply NoDup_cons in Hnd as [Hni _].
  apply (envs_perm _ _ ((p, sz) :: bl0)); [done|]. rewrite <-insert_delete_eq. eapply envs_insert; try done; [|by rewrite Hlen].
  eapply envs_users; [|by eapply envs_delete]. intros q [x Hx]. apply lookup_delete_Some in Hx as [Hne Hx]. apply Hu; [done|eauto].
Qed.

(** ** The tasks *)

Definition users (m : gmap Z etask) (p : ptr) : Z := msum (fun t => if decide (t_envp t = p) then 1 else 0) m.

Lemma users_set m x t t' p :
  m !! x = Some t -> users (<[x := t']> m) p = users m p - (if decide (t_envp t = p) then 1 else 0) + (if decide (t_envp t' = p) then 1 else 0).
Proof. intros Hx. unfold users. by rewrite (msum_update _ m x t). Qed.

Lemma users_nonneg m p : 0 <= users m p.
Proof. apply msum_nonneg. intros t. case_decide; lia. Qed.

Lemma users_one m x t p : m !! x = Some t -> t_envp t = p -> 1 <= users m p.
Proof.
  intros Hx Hp. pose proof (msum_ge (fun t => if decide (t_envp t = p) then 1 else 0) m x t) as H. cbv beta in H. rewrite (decide_True (P := t_envp t = p)) in H by done. apply H; [|done].
  intros a. case_decide; lia.
Qed.

(** The only user. *)
Lemma users_sole m x t y t' p : users m p = 1 -> m !! x = Some t -> t_envp t = p -> m !! y = Some t' -> y <> x -> t_envp t' <> p.
Proof.
  intros Hu Hx Hp Hy Hne Hp'. pose proof (msum_delete (fun t => if decide (t_envp t = p) then 1 else 0) m x t Hx) as H1. cbv beta in H1. rewrite (decide_True (P := t_envp t = p)) in H1 by done.
  pose proof (users_one (delete x m) y t' p) as H2. rewrite lookup_delete_ne in H2 by done. specialize (H2 Hy Hp'). unfold users in *. lia.
Qed.

Lemma users_bound m p : users m p <= Z.of_nat (size m).
Proof.
  induction m as [|x t m Hx IH] using map_ind; [done|]. unfold users. rewrite msum_insert by done. rewrite map_size_insert_None by done.
  unfold users in IH. case_decide; lia.
Qed.

Lemma users_zero m p : (forall x t, m !! x = Some t -> t_envp t <> p) -> users m p = 0.
Proof. intros H. apply msum_zero. intros x t Hx. rewrite decide_False; [done|by eapply H]. Qed.

Section inv.
  Context {HT : Type} {HK : KHeap HT} {HKS : KHeapSpec HT}.
  Implicit Types (s : env_sys HT).

Definition tasks_ok (ts : gmap Z etask) (m : gmap Z environ_s) : Prop :=
  (forall x t, ts !! x = Some t -> t_envp t = NULL \/ is_Some (m !! t_envp t)) /\ Z.of_nat (size ts) < 2 ^ 32.

(** The blocks [ext] belong to others. *)
Record env_inv (ext : list (Z * Z)) s (bl : list (Z * Z)) : Prop := EnvInv {
  ei_heap : heap_rep None (e_heap s) (bl ++ ext);
  ei_envs : envs_ok (users (e_tasks s)) (e_envs s) bl;
  ei_live : forall p, is_Some (e_envs s !! p) -> 0 < users (e_tasks s) p;
  ei_tasks : tasks_ok (e_tasks s) (e_envs s)
}.

(** What the environment of a task stands for. *)
Definition env_map s (x : Z) : envmap :=
  match e_tasks s !! x with
  | Some t => match e_envs s !! t_envp t with Some e => map_of (vars e) | None => ∅ end
  | None => ∅
  end.

(** A string at an address. *)
Definition string_at s (p : ptr) (v : list Z) : Prop :=
  exists envp e off rest, e_envs s !! envp = Some e /\ 0 <= off /\ p = envp + EV_ENV + off /\ at_offset (ev_env e) off = cstring v ++ rest.

Definition env_errno s (x : Z) : option Z := t_env_errno <$> e_tasks s !! x.

Section calls.
  Context (ext : list (Z * Z)) (s : env_sys HT) (bl : list (Z * Z)) (me : Z) (t : etask).
  Context (Hinv : env_inv ext s bl) (Hme : e_tasks s !! me = Some t) (Hpid : 0 <= me).

Lemma envs_null : e_envs s !! NULL = None.
Proof. destruct (e_envs s !! NULL) as [e|] eqn:E; [|done]. by destruct (envs_nonnull _ _ _ _ _ (ei_envs _ _ _ Hinv) E). Qed.

(** The environment of the task: none, or one with the variables [vs]. *)
Lemma my_env : (t_envp t = NULL /\ env_map s me = ∅)
  \/ exists e vs, t_envp t <> NULL /\ e_envs s !! t_envp t = Some e /\ env_rep e vs /\ ev_crefs e = users (e_tasks s) (t_envp t) /\ env_map s me = map_of vs.
Proof.
  unfold env_map. rewrite Hme. destruct (decide (t_envp t = NULL)) as [E0|E0]; [left; split; [done|by rewrite E0, envs_null]|right].
  destruct (proj1 (ei_tasks _ _ _ Hinv) me t Hme) as [|[e He]]; [done|]. destruct (eo_env _ _ _ (ei_envs _ _ _ Hinv) _ _ He) as [[vs Hrep] Hc].
  exists e, vs. rewrite He. split; [done|]. split; [done|]. split; [done|]. split; [done|]. by rewrite (env_rep_vars _ _ Hrep).
Qed.

Lemma env_task_me : env_task me s = Ok t.
Proof. unfold env_task. by rewrite Hme. Qed.

(** The calls that fail change errno. *)
Lemma inv_errno ts x y e : ts = e_tasks s -> ts !! x = Some y -> env_inv ext (with_etasks (<[x := ETask (t_envp y) e]> ts) s) bl.
Proof.
  intros -> Hx. pose proof Hinv as [A B C [D1 D2]]. assert (forall p, users (<[x := ETask (t_envp y) e]> (e_tasks s)) p = users (e_tasks s) p) as Hu.
  { intros p. rewrite (users_set _ _ y) by done. simpl. lia. }
  split; [done| | |split]; cbn.
  - eapply envs_users; [|done]. intros p _. apply Hu.
  - intros p Hp. rewrite Hu. by apply C.
  - intros z t' [[<- <-]|[_ Hz]]%lookup_insert_Some; [exact (D1 _ _ Hx)|by apply (D1 z)].
  - rewrite map_size_insert, Hx. done.
Qed.

Lemma map_errno x y e z : e_tasks s !! x = Some y -> env_map (with_etasks (<[x := ETask (t_envp y) e]> (e_tasks s)) s) z = env_map s z.
Proof. intros Hx. unfold env_map. cbn. rewrite lookup_insert. case_decide; [subst; by rewrite Hx|done]. Qed.

(** ** The search of a name *)

Lemma find_in_ok n :
  good_name n = true ->
  wp (find_in (t_envp t) n s) (fun o =>
    (o = None /\ env_map s me !! n = None)
    \/ exists e l1 v l2, e_envs s !! t_envp t = Some e /\ env_rep e (l1 ++ (n, v) :: l2) /\ n ∉ l1.*1 /\ o = Some (Z.of_nat (length (strings l1)))
         /\ env_map s me = map_of (l1 ++ (n, v) :: l2) /\ env_map s me !! n = Some v).
Proof.
  intros Hn. unfold find_in. destruct my_env as [[E0 Em]|(e & vs & E0 & He & Hrep & _ & Em)].
  - rewrite decide_True by done. left. by rewrite Em.
  - rewrite decide_False, (deref_Some _ _ _ E0 He) by done. cbn [mbind res_bind]. eapply wp_mono; [by apply (findvar_ok e vs)|].
    intros o [[-> Hni]|(l1 & v & l2 & -> & Hni & ->)]; [left; rewrite Em; split; [done|by apply map_none]|right].
    exists e, l1, v, l2. rewrite Em. repeat split; try done; try apply Hrep. apply map_found, Hrep.
Qed.

End calls.
End inv.
