(* ===== verification/EnvCalls.v ===== *)
(** * Environment variables: what each call does *)

From S2P Require Import Prelude Queue Sched Sem KHeap Inode Env EnvSpec.

Section calls.
  Context {HT : Type} {HK : KHeap HT} {HKS : KHeapSpec HT}.
  Implicit Types (s : env_sys HT).

(** The environment of the task is not shared. *)
Definition unshared s (t : etask) : Prop := t_envp t = NULL \/ users (e_tasks s) (t_envp t) = 1.

Section one.
  Context (ext : list (Z * Z)) (s : env_sys HT) (bl : list (Z * Z)) (me : Z) (t : etask).
  Context (Hinv : env_inv ext s bl) (Hme : e_tasks s !! me = Some t) (Hpid : 0 <= me).

(** ** The environment of the task in a new block *)

Lemma inv_moved h bl0 p sz e vs err :
  unshared s t -> envs_ok (users (e_tasks s)) (delete (t_envp t) (e_envs s)) bl0 -> heap_rep None h ((p, sz) :: bl0 ++ ext) -> p ∉ bl0.*1 -> 0 < p ->
  0 < sz -> EV_ENV + Z.of_nat (length (ev_env e)) <= sz -> env_rep e vs -> ev_crefs e = 1 ->
  let s' := EnvSys HT h (<[p := e]> (delete (t_envp t) (e_envs s))) (<[me := ETask p err]> (e_tasks s)) (e_delayed s) in
  env_inv ext s' ((p, sz) :: bl0) /\ env_map s' me = map_of vs /\ (forall x, x <> me -> env_map s' x = env_map s x).
Proof.
  intros Hun HO Hh Hp Hp0 Hsz Hlen Hrep Hc s'. unfold unshared in Hun. pose proof Hinv as [_ _ C [D1 D2]]. set (old := t_envp t) in *. set (m0 := delete old (e_envs s)) in *.
  assert (m0 !! p = None) as Hp1 by (apply eq_None_not_Some; rewrite (eo_dom _ _ _ HO); done).
  assert (forall q, users (e_tasks s') q = users (e_tasks s) q - (if decide (old = q) then 1 else 0) + (if decide (p = q) then 1 else 0)) as Hu
    by (intros q; cbn; by rewrite (users_set _ _ t)).
  assert (users (e_tasks s') p = 1) as Hup.
  { rewrite Hu. rewrite (decide_True (P := p = p)) by done. case_decide as Hd; [destruct Hun as [E0|E1]; [lia|rewrite <-Hd, E1; lia]|].
    rewrite users_zero; [done|]. intros x y Hx Hy. destruct (D1 x y Hx) as [E0|[e0 He0]]; [lia|]. rewrite Hy in He0. subst m0. rewrite lookup_delete_ne in Hp1 by done. congruence. }
  assert (forall q, is_Some (m0 !! q) -> users (e_tasks s') q = users (e_tasks s) q) as Hus.
  { intros q [x Hx]. rewrite Hu. assert (p <> q) by (intros ->; congruence). assert (old <> q) by (intros <-; subst m0; by rewrite lookup_delete_eq in Hx).
    rewrite !decide_False by done. lia. }
  assert (forall x y, x <> me -> e_tasks s !! x = Some y -> old <> NULL -> t_envp y <> old) as Hsole.
  { intros x y Hne Hx Hold. destruct Hun as [E0|E1]; [done|]. exact (users_sole _ me t x y _ E1 Hme eq_refl Hx Hne). }
  assert (env_inv ext s' ((p, sz) :: bl0)) as Hi.
  { split; [exact Hh| | |split].
    - cbn [e_envs e_tasks s']. eapply envs_insert; try done; [|rewrite Hc; symmetry; exact Hup]. by eapply envs_users.
    - intros q Hq. destruct (decide (q = p)) as [->|Hne]; [by rewrite Hup|]. cbn [e_envs s'] in Hq. rewrite lookup_insert_ne in Hq by done. rewrite Hus by done. apply C.
      destruct Hq as [x Hx]. apply lookup_delete_Some in Hx as [_ Hx]. eauto.
    - cbn [e_tasks s']. intros x y [[<- <-]|[Hne Hx]]%lookup_insert_Some; [right; cbn; rewrite lookup_insert_eq; eauto|].
      destruct (D1 x y Hx) as [E0|[e0 He0]]; [by left|right]. cbn [e_envs s']. apply lookup_insert_is_Some'. right. unfold m0.
      rewrite lookup_delete_ne; [eauto|]. intros E1. destruct (decide (old = NULL)) as [E2|E2]; [|by apply (Hsole x y)].
      rewrite <-E1, E2 in He0. pose proof (envs_null ext s bl Hinv). congruence.
    - cbn. rewrite map_size_insert, Hme. done. }
  split; [done|]. split.
  - unfold env_map. cbn. rewrite !lookup_insert_eq. by rewrite (env_rep_vars _ _ Hrep).
  - intros x Hne. unfold env_map. cbn. rewrite lookup_insert_ne by done. destruct (e_tasks s !! x) as [y|] eqn:Ey; [|done].
    destruct (D1 x y Ey) as [E0|[e0 He0]].
    + rewrite E0, (envs_null ext s bl Hinv), lookup_insert_ne by lia. unfold m0. rewrite (proj2 (lookup_delete_None _ _ _)); [done|right; apply (envs_null ext s bl Hinv)].
    + assert (t_envp y <> old) as Hyo.
      { intros E1. destruct (decide (old = NULL)) as [E2|E2]; [|by apply (Hsole x y)]. rewrite E1, E2 in He0. pose proof (envs_null ext s bl Hinv). congruence. }
      assert (p <> t_envp y) as Hyp by (intros ->; unfold m0 in Hp1; rewrite lookup_delete_ne in Hp1 by done; congruence).
      rewrite lookup_insert_ne by done. unfold m0. by rewrite lookup_delete_ne by done.
Qed.

(** ** The environment of the task changed in its block *)

Lemma inv_inplace h e e' vs y :
  unshared s t -> e_envs s !! t_envp t = Some e -> heap_rep None h (bl ++ ext) -> length (ev_env e') = length (ev_env e) -> env_rep e' vs -> ev_crefs e' = ev_crefs e ->
  let s' := EnvSys HT h (<[t_envp t := e']> (e_envs s)) (<[me := ETask (t_envp t) y]> (e_tasks s)) (e_delayed s) in
  env_inv ext s' bl /\ env_map s' me = map_of vs /\ (forall x, x <> me -> env_map s' x = env_map s x).
Proof.
  intros Hun He Hh Hlen Hrep Hc s'. pose proof Hinv as [_ B C [D1 D2]]. pose proof (envs_nonnull _ _ _ _ _ B He) as Hn.
  assert (users (e_tasks s) (t_envp t) = 1) as Hu1 by by destruct Hun.
  assert (forall q, users (e_tasks s') q = users (e_tasks s) q) as Hu by (intros q; cbn; rewrite (users_set _ _ t) by done; cbn; lia).
  assert (forall q, is_Some (e_envs s' !! q) <-> is_Some (e_envs s !! q)) as Hdom.
  { intros q. cbn. rewrite lookup_insert_is_Some. split; [intros [<-|[_ ?]]; eauto|]. intros ?. destruct (decide (t_envp t = q)); eauto. }
  split; [split; [done| | |split]|split].
  - cbn [e_envs s']. eapply (envs_update _ _ _ _ _ e e' vs B He); try done. rewrite Hc, Hu. by apply (eo_env _ _ _ B).
  - intros q Hq. rewrite Hu. apply C. by apply Hdom.
  - cbn [e_tasks s']. intros x z [[<- <-]|[Hne Hx]]%lookup_insert_Some; [right|rewrite Hdom; by apply (D1 x)]. rewrite Hdom. cbn. eauto.
  - cbn. rewrite map_size_insert, Hme. done.
  - unfold env_map. cbn. rewrite !lookup_insert_eq. by rewrite (env_rep_vars _ _ Hrep).
  - intros x Hne. unfold env_map. cbn. rewrite lookup_insert_ne by done. destruct (e_tasks s !! x) as [z|] eqn:Ez; [|done].
    rewrite lookup_insert_ne; [done|]. intros E. symmetry in E. revert E. exact (users_sole _ me t x z _ Hu1 Hme eq_refl Ez Hne).
Qed.

(** ** The blocks *)

Lemma size_small alloc : 0 <= alloc < ENV_LIMIT + 64 -> SIZEOF_ENVIRON_T alloc = 11 + alloc.
Proof. unfold ENV_LIMIT, SIZEOF_ENVIRON_T. intros ?. rewrite u32_id; lia. Qed.

Lemma new_env_ok alloc :
  0 <= alloc < ENV_LIMIT + 64 ->
  wp (new_env me alloc s) (fun '(p, s') =>
    (p = NULL /\ exists h, s' = with_eheap h s /\ heap_rep None h (bl ++ ext))
    \/ exists h sz, 0 < p /\ 11 + alloc <= sz /\ heap_rep None h ((p, sz) :: bl ++ ext) /\ p ∉ bl.*1
         /\ s' = with_envs (<[p := Environ 1 alloc (fresh_bytes (alloc + 3))]> (e_envs s)) (with_eheap h s)).
Proof.
  intros Ha. unfold new_env. rewrite size_small by done. apply wp_bind. eapply wp_mono.
  { apply (kmalloc_ok me (11 + alloc) (e_heap s) (bl ++ ext)); [done|lia|unfold ENV_LIMIT in *; lia|apply Hinv]. }
  intros [p h] [[-> Hh]|(sz & Hp & Hsz & Hh & Hd)].
  - rewrite decide_True by done. apply wp_ret. left. eauto.
  - rewrite decide_False by lia. apply wp_ret. right. exists h, sz. split; [done|]. split; [done|]. split; [done|]. split.
    + apply (fresh_block bl p sz); [apply (eo_block _ _ _ (ei_envs _ _ _ Hinv))|lia|]. intros d x Hd'. apply Hd, elem_of_app. by left.
    + replace (11 + alloc - EV_ENV) with (alloc + 3) by (unfold EV_ENV; lia). done.
Qed.

Lemma resize_length n b : 0 <= n -> Z.of_nat (length (resize_bytes n b)) = n.
Proof. intros Hn. unfold resize_bytes. rewrite length_app, length_take, length_replicate. lia. Qed.

(** The strings of an environment are kept, with room for [alloc] characters. *)
Lemma resize_strings alloc vs rest :
  Z.of_nat (length (strings vs)) <= alloc ->
  exists rest', resize_bytes (alloc + 3) ((Some <$> strings vs) ++ rest) = (Some <$> strings vs) ++ rest'
    /\ Z.of_nat (length rest') = alloc + 3 - Z.of_nat (length (strings vs)).
Proof.
  intros Ha. eexists. split.
  - unfold resize_bytes. rewrite take_app_ge by (rewrite length_fmap; lia). by rewrite <-app_assoc.
  - rewrite length_app, length_take, length_replicate, length_app, length_fmap. lia.
Qed.

Lemma realloc_env_ok m envp e alloc :
  envs_ok (users (e_tasks s)) m bl -> m !! envp = Some e -> 0 <= alloc < ENV_LIMIT + 64 ->
  wp (realloc_env me envp alloc (with_envs m s)) (fun '(p, s') =>
    (p = NULL /\ exists h, s' = with_eheap h (with_envs m s) /\ heap_rep None h (bl ++ ext))
    \/ exists h sz bl0, 0 < p /\ 11 + alloc <= sz /\ heap_rep None h ((p, sz) :: bl0 ++ ext) /\ p ∉ bl0.*1
         /\ envs_ok (users (e_tasks s)) (delete envp m) bl0
         /\ s' = with_envs (<[p := set_ev_env (resize_bytes (alloc + 3) (ev_env e)) e]> (delete envp m)) (with_eheap h s)).
Proof.
  intros HO He Ha. unfold realloc_env. rewrite size_small by done. cbn [e_envs with_envs]. rewrite (deref_Some _ _ e); [|by eapply envs_nonnull|done]. cbn [mbind res_bind].
  destruct (envs_pick _ _ _ _ _ HO He) as (szo & bl0 & Hp). apply (envs_perm _ _ _ _ Hp) in HO as HO1. apply envs_delete in HO1 as HO2.
  apply wp_bind. eapply wp_mono.
  { apply (krealloc_ok me (11 + alloc) (e_heap s) (envp, szo) (bl0 ++ ext)); [done|lia|unfold ENV_LIMIT in *; lia|].
    eapply heap_perm; [|apply Hinv]. by rewrite Hp. }
  intros [p h] [[-> Hh]|(sz & Hp0 & Hsz & Hh & Hd)].
  - rewrite decide_True by done. apply wp_ret. left. split; [done|]. exists h. split; [done|]. eapply heap_perm; [|done]. by rewrite Hp.
  - rewrite decide_False by lia. apply wp_ret. right. exists h, sz, bl0. split; [done|]. split; [done|]. split; [done|]. split; [|split; [done|]].
    + apply (fresh_block bl0 p sz); [apply (eo_block _ _ _ HO2)|lia|]. intros d x Hd'. apply Hd, elem_of_app. by left.
    + replace (11 + alloc - EV_ENV) with (alloc + 3) by (unfold EV_ENV; lia). done.
Qed.

(** ** unsetenv *)

Definition others s' : Prop := forall x, x <> me -> env_map s' x = env_map s x.

Lemma rep_resize e vs : env_rep e vs -> env_rep (set_ev_env (resize_bytes (ev_alloc e + 3) (ev_env e)) e) vs.
Proof.
  intros [[rest Eb] Ha Hl Hn Hg]. split; try done. cbn. rewrite Eb. destruct (resize_strings (ev_alloc e) vs rest) as (rest' & -> & _); [lia|]. eauto.
Qed.

(** A variable is removed from the environment of the task; its block stays. *)
Lemma removed_ok e l1 x l2 :
  unshared s t -> e_envs s !! t_envp t = Some e -> env_rep e (l1 ++ x :: l2) ->
  exists e1, env_removevar e (Z.of_nat (length (strings l1))) = Ok (0, e1) /\ env_rep e1 (l1 ++ l2) /\ ev_crefs e1 = 1 /\ ev_crefs e = 1
    /\ length (ev_env e1) = length (ev_env e) /\ 0 <= ev_alloc e1 <= ev_alloc e
    /\ store (fun _ => e1) (t_envp t) (e_envs s) = Ok (<[t_envp t := e1]> (e_envs s)) /\ envs_ok (users (e_tasks s)) (<[t_envp t := e1]> (e_envs s)) bl.
Proof.
  intros Hun He Hrep. destruct (removevar_ok _ _ _ _ Hrep) as (e1 & E1 & Hrep1 & Hc & Hlen & Ha). pose proof (ei_envs _ _ _ Hinv) as HO.
  pose proof (envs_nonnull _ _ _ _ _ HO He) as Hn. destruct (eo_env _ _ _ HO _ _ He) as [_ Hu].
  assert (ev_crefs e = 1) as Hc1 by (destruct Hun; [done|congruence]).
  pose proof (er_alloc _ _ Hrep1) as Ha1. exists e1. split; [done|]. split; [done|]. split; [congruence|]. split; [done|]. split; [done|]. split; [lia|]. split.
  - rewrite store_valid by (split; eauto). f_equal. by rewrite (alter_at _ _ _ _ He).
  - eapply (envs_update _ _ _ _ _ e e1); [exact HO|done|done|done|congruence|done].
Qed.

Lemma put_envp_me p m h : put_envp me p (with_envs m (with_eheap h s)) = Ok (EnvSys HT h m (<[me := ETask p (t_env_errno t)]> (e_tasks s)) (e_delayed s)).
Proof. unfold put_envp, env_task. cbn. by rewrite Hme. Qed.

Lemma errout_me err m h : env_errout me err (with_eheap h (with_envs m s)) = Ok (-1, EnvSys HT h m (<[me := ETask (t_envp t) err]> (e_tasks s)) (e_delayed s)).
Proof. unfold env_errout, put_env_errno, env_task. cbn. by rewrite Hme. Qed.

Lemma env_errno_set h m ts d x y : env_errno (EnvSys HT h m (<[x := y]> ts) d) x = Some (t_env_errno y).
Proof. unfold env_errno. cbn. by rewrite lookup_insert_eq. Qed.

Lemma delete_absent n : env_map s me !! n = None -> env_map s me = delete n (env_map s me).
Proof. intros H. by rewrite delete_id. Qed.

Lemma unsetenv_ok n :
  good_name n = true -> unshared s t ->
  wp (unsetenv me (Some n) s) (fun '(ret, s') => (exists bl', env_inv ext s' bl') /\ others s' /\ env_map s' me = delete n (env_map s me)
    /\ (ret = 0 \/ (ret = -1 /\ env_errno s' me = Some ENOMEM))).
Proof.
  intros Hn Hun. cbn [unsetenv]. rewrite (env_task_me s me t Hme). cbn [mbind res_bind]. apply wp_bind.
  eapply wp_mono; [by apply (find_in_ok ext s bl me t Hinv Hme n)|]. intros o [[-> Hno]|(e & l1 & v & l2 & He & Hrep & Hni & -> & Em & Ev)].
  { apply wp_ret. split; [eauto|]. split; [done|]. split; [by apply delete_absent|by left]. }
  pose proof (envs_nonnull _ _ _ _ _ (ei_envs _ _ _ Hinv) He) as Hnn. rewrite (deref_Some _ _ e) by done. cbn [mbind res_bind].
  destruct (removed_ok e l1 (n, v) l2 Hun He Hrep) as (e1 & -> & Hrep1 & Hc1 & Hc & Hlen & Ha & Hst & HO1). cbn [mbind res_bind]. rewrite Hst. cbn [mbind res_bind].
  assert (map_of (l1 ++ l2) = delete n (env_map s me)) as Hmap by (rewrite Em; apply map_remove, Hrep).
  apply wp_bind. eapply wp_mono.
  { apply (realloc_env_ok _ (t_envp t) e1 (ev_alloc e1) HO1); [apply lookup_insert_eq|]. pose proof (er_limit _ _ Hrep). lia. }
  intros [p s'] [[-> (h & -> & Hh)]|(h & sz & bl0 & Hp & Hsz & Hh & Hp0 & HO2 & ->)].
  - rewrite decide_True by done. rewrite errout_me. apply wp_ret.
    destruct (inv_inplace h e e1 (l1 ++ l2) ENOMEM Hun He Hh Hlen Hrep1) as (Hi & H1 & H2); [congruence|].
    split; [eauto|]. split; [done|]. split; [congruence|]. right. split; [done|]. apply env_errno_set.
  - rewrite decide_False by lia. rewrite put_envp_me. apply wp_ret. rewrite delete_insert_eq in HO2 |- *.
    destruct (inv_moved h bl0 p sz (set_ev_env (resize_bytes (ev_alloc e1 + 3) (ev_env e1)) e1) (l1 ++ l2) (t_env_errno t)) as (Hi & H1 & H2);
      [done|done|done|done|done|lia|cbn; rewrite resize_length by lia; unfold EV_ENV; lia|by apply rep_resize|done|].
    split; [eauto|]. split; [done|]. split; [congruence|by left].
Qed.

(** ** setenv *)

Definition varlen (n v : list Z) : Z := Z.of_nat (length n) + Z.of_nat (length v) + 2.

Lemma entry_varlen n v : Z.of_nat (length (entry (n, v))) = varlen n v.
Proof. rewrite entry_length. unfold varlen. rewrite length_app. simpl. lia. Qed.

(** The new variable behind the others. *)
Lemma rep_add c vs n v rest :
  n ∉ vs.*1 -> NoDup vs.*1 -> Forall good_var vs -> good_var (n, v) -> Z.of_nat (length (strings vs)) + varlen n v < ENV_LIMIT ->
  env_rep (Environ c (Z.of_nat (length (strings vs)) + varlen n v) ((Some <$> strings (vs ++ [(n, v)])) ++ rest)) (vs ++ [(n, v)]).
Proof.
  intros Hni Hnd Hg Hv Hl. split; cbn; [eauto| |done| |].
  - rewrite strings_app, length_app. unfold strings at 3. cbn [fmap list_fmap concat]. rewrite app_nil_r, <-entry_varlen. lia.
  - rewrite fmap_app. simpl. apply NoDup_app. split; [done|]. split; [set_solver|apply NoDup_singleton].
  - apply Forall_app. split; [done|]. by apply Forall_singleton.
Qed.

Lemma new_strings p h m b e :
  0 < p -> let s1 := with_envs (<[p := e]> m) (with_eheap h s) in
  store (set_ev_env b) p (e_envs s1) = Ok (<[p := set_ev_env b e]> m).
Proof.
  intros Hp s1. rewrite store_valid; [|split; [lia|]; cbn; rewrite lookup_insert_eq; eauto]. f_equal. apply alter_new.
Qed.

Definition added (n v : list Z) (vs : list var) (r : Z * env_sys HT) : Prop :=
  let '(ret, s') := r in (exists bl', env_inv ext s' bl') /\ others s'
  /\ ((ret = 0 /\ env_map s' me = <[n := v]> (map_of vs)) \/ (ret = -1 /\ env_errno s' me = Some ENOMEM /\ env_map s' me = map_of vs)).

Lemma add_first n v :
  t_envp t = NULL -> good_var (n, v) -> varlen n v < ENV_LIMIT -> wp (setenv_add me NULL n v s) (added n v []).
Proof.
  intros Et Hg Hl. unfold setenv_add. fold (varlen n v). assert (0 < varlen n v) as Hv by (unfold varlen; lia). rewrite s32_id by (unfold ENV_LIMIT, INT_MAX in *; lia).
  unfold setenv_room. rewrite decide_True by done. cbv zeta. apply wp_bind, wp_bind. eapply wp_mono; [apply (new_env_ok (varlen n v)); lia|].
  intros [p s'] [[-> (h & -> & Hh)]|(h & sz & Hp & Hsz & Hh & Hp0 & ->)]; apply wp_ret.
  - rewrite decide_True by done. change (with_eheap h s) with (with_eheap h (with_envs (e_envs s) s)). rewrite errout_me. apply wp_ret.
    set (y := ETask (t_envp t) ENOMEM). assert (env_inv ext (with_etasks (<[me := y]> (e_tasks s)) s) bl) as [A B C D] by by apply (inv_errno ext s bl Hinv).
    split; [exists bl; by split|]. split; [intros x _; apply (map_errno s me t ENOMEM x Hme)|]. right. split; [done|]. split; [apply env_errno_set|].
    etrans; [apply (map_errno s me t ENOMEM me Hme)|]. destruct (my_env ext s bl me t Hinv Hme) as [[_ ->]|(? & ? & ? & _)]; done.
  - rewrite decide_False by lia. cbn [e_envs with_envs]. rewrite (deref_Some _ _ (Environ 1 (varlen n v) (fresh_bytes (varlen n v + 3)))) by (rewrite ?lookup_insert_eq; done || lia).
    cbn [mbind res_bind ev_env]. destruct (put_ok [] n v (fresh_bytes (varlen n v + 3)) (fresh_bytes (varlen n v + 3)) eq_refl) as (b & rest & Eb & Hb & Hlen).
    { unfold fresh_bytes. rewrite length_replicate. pose proof (entry_varlen n v). lia. }
    change (Z.of_nat (length (strings []))) with 0 in Eb. rewrite Eb. cbn [mbind res_bind]. pose proof (new_strings p h (e_envs s) b (Environ 1 (varlen n v) (fresh_bytes (varlen n v + 3))) Hp) as Hst.
    cbv zeta in Hst. cbn [e_envs with_envs] in Hst. rewrite Hst. cbn [mbind res_bind].
    change (with_envs (<[p := ?e]> ?m) (with_envs _ (with_eheap h s))) with (with_envs (<[p := e]> m) (with_eheap h s)). rewrite put_envp_me. apply wp_ret.
    assert (delete (t_envp t) (e_envs s) = e_envs s) as Hdel by (rewrite Et; apply delete_id, (envs_null ext s bl Hinv)).
    destruct (inv_moved h bl p sz (set_ev_env b (Environ 1 (varlen n v) (fresh_bytes (varlen n v + 3)))) [(n, v)] (t_env_errno t)) as (Hi & H1 & H2); rewrite ?Hdel; try done.
    + by left.
    + apply Hinv.
    + lia.
    + cbn. rewrite Hlen. unfold fresh_bytes. rewrite length_replicate. unfold EV_ENV. lia.
    + subst b. apply (rep_add 1 [] n v rest); try done; [set_solver|constructor].
    + rewrite Hdel in *. split; [eauto|]. split; [done|]. left. split; [done|]. rewrite H1. done.
Qed.

(** Behind the variables [vs], which are those that are left of the environment. *)
Lemma add_behind e e1 vs n v :
  let m := <[t_envp t := e1]> (e_envs s) in
  unshared s t -> e_envs s !! t_envp t = Some e -> env_rep e1 vs -> n ∉ vs.*1 -> ev_crefs e1 = 1 -> ev_crefs e = 1 -> length (ev_env e1) = length (ev_env e) ->
  envs_ok (users (e_tasks s)) m bl -> good_var (n, v) -> ev_alloc e1 + varlen n v < ENV_LIMIT ->
  wp (setenv_add me (t_envp t) n v (with_envs m s)) (added n v vs).
Proof.
  intros m Hun He Hrep Hni Hc1 Hc Hlen HO Hg Hl. pose proof (envs_nonnull _ _ _ _ _ (ei_envs _ _ _ Hinv) He) as Hnn. pose proof Hrep as [[rest Eb] Ha _ Hnd Hgs].
  assert (0 < varlen n v) as Hv by (unfold varlen; lia). unfold setenv_add. fold (varlen n v). rewrite s32_id by (unfold ENV_LIMIT, INT_MAX in *; lia).
  unfold setenv_room. cbv zeta. rewrite decide_False by done. assert (m !! t_envp t = Some e1) as Hm by apply lookup_insert_eq.
  cbn [e_envs with_envs]. rewrite (deref_Some _ _ e1) by done. cbn [mbind res_bind]. rewrite s32_id by (unfold ENV_LIMIT, INT_MAX in *; lia).
  apply wp_bind, wp_bind. eapply wp_mono; [apply (realloc_env_ok m (t_envp t) e1 (ev_alloc e1 + varlen n v) HO Hm); lia|].
  intros [p s'] [[-> (h & -> & Hh)]|(h & sz & bl0 & Hp & Hsz & Hh & Hp0 & HO2 & ->)].
  - rewrite decide_True by done. apply wp_ret. rewrite decide_True by done. rewrite errout_me. apply wp_ret.
    destruct (inv_inplace h e e1 vs ENOMEM Hun He Hh Hlen Hrep) as (Hi & H1 & H2); [congruence|].
    split; [eauto|]. split; [done|]. right. split; [done|]. split; [apply env_errno_set|done].
  - rewrite decide_False by lia. cbn [e_envs with_envs]. unfold m in *. rewrite delete_insert_eq in *. set (m0 := delete (t_envp t) (e_envs s)) in *.
    set (e2 := set_ev_env (resize_bytes (ev_alloc e1 + varlen n v + 3) (ev_env e1)) e1). rewrite store_valid by (split; [lia|]; rewrite lookup_insert_eq; eauto).
    cbn [mbind res_bind]. apply wp_ret. rewrite decide_False by lia. rewrite u32_id by (unfold ENV_LIMIT in *; lia). set (e3 := set_ev_alloc (ev_alloc e1 + varlen n v) e2).
    cbn [e_envs with_envs]. rewrite alter_new.
    rewrite (deref_Some _ _ e3) by (rewrite ?lookup_insert_eq; done || lia). cbn [mbind res_bind].
    destruct (resize_strings (ev_alloc e1 + varlen n v) vs rest) as (rest' & Er & Hr'); [lia|]. rewrite <-Eb in Er.
    destruct (put_ok vs n v rest' (ev_env e3)) as (b & rest2 & Ep & Hb & Hlb); [exact Er|pose proof (entry_varlen n v); lia|]. rewrite <-Ha in Ep. rewrite Ep. cbn [mbind res_bind].
    rewrite store_valid by (split; [lia|]; rewrite lookup_insert_eq; eauto). cbn [mbind res_bind].
    rewrite alter_new.
    change (with_envs (<[p := ?x]> m0) (with_envs _ (with_envs _ (with_eheap h s)))) with (with_envs (<[p := x]> m0) (with_eheap h s)). rewrite put_envp_me. apply wp_ret.
    destruct (inv_moved h bl0 p sz (set_ev_env b e3) (vs ++ [(n, v)]) (t_env_errno t)) as (Hi & H1 & H2); try done.
    + lia.
    + cbn [ev_env set_ev_env]. rewrite Hlb. cbn. rewrite resize_length by lia. unfold EV_ENV. lia.
    + subst b. unfold e3, e2, set_ev_env, set_ev_alloc. cbn. rewrite Ha in Hl |- *. by apply rep_add.
    + split; [eauto|]. split; [done|]. left. split; [done|]. etrans; [exact H1|]. by apply map_add.
Qed.

Lemma with_envs_same : with_envs (e_envs s) s = s.
Proof. by destruct s. Qed.

Lemma setenv_ok n v ow :
  good_name n = true -> good_value v = true -> unshared s t -> (forall e, e_envs s !! t_envp t = Some e -> ev_alloc e + varlen n v < ENV_LIMIT) -> varlen n v < ENV_LIMIT ->
  wp (setenv me (Some n) (Some v) ow s) (fun '(ret, s') => (exists bl', env_inv ext s' bl') /\ others s'
    /\ if negb ow && (bool_decide (v = []) || bool_decide (is_Some (env_map s me !! n))) then ret = 0 /\ env_map s' me = env_map s me
       else let m := delete n (env_map s me) in
            (ret = 0 /\ env_map s' me = (if decide (v = []) then m else <[n := v]> m)) \/ (ret = -1 /\ env_errno s' me = Some ENOMEM /\ env_map s' me = m)).
Proof.
  intros Hn Hv Hun Hl Hl0. destruct v as [|c v].
  { cbn [setenv]. rewrite bool_decide_true by done. destruct ow; cbn [negb andb orb]; [|apply wp_ret; split; [eauto|done]].
    eapply wp_mono; [by apply (unsetenv_ok n)|]. intros [ret s'] (Hi & Ho & Hm & Hr). split; [done|]. split; [done|]. destruct Hr as [->|[-> He]]; [by left|by right]. }
  set (w := c :: v) in *. cbv zeta. rewrite (bool_decide_false (w = [])), (decide_False (P := w = [])) by done. cbn [orb]. unfold setenv. fold w. cbn beta iota. unfold w at 1. cbn iota. fold w.
  rewrite (env_task_me s me t Hme). cbn [mbind res_bind]. cbv zeta. apply wp_bind.
  eapply wp_mono; [by apply (find_in_ok ext s bl me t Hinv Hme n)|]. intros o [[-> Hno]|(e & l1 & x & l2 & He & Hrep & Hni & -> & Em & Ev)].
  - rewrite Hno, !bool_decide_false by (intros [? ?]; done). rewrite andb_false_r. cbn [andb mbind res_bind]. rewrite delete_id by done.
    assert (forall vs, env_map s me = map_of vs -> forall r, added n w vs r -> let '(ret, s') := r in (exists bl', env_inv ext s' bl') /\ others s' /\
      ((ret = 0 /\ env_map s' me = <[n := w]> (env_map s me)) \/ (ret = -1 /\ env_errno s' me = Some ENOMEM /\ env_map s' me = env_map s me))) as Hadd.
    { intros vs Hvs [ret s']. unfold added. by rewrite Hvs. }
    destruct (my_env ext s bl me t Hinv Hme) as [[E0 Em]|(e & vs & E0 & He & Hrep & Hc & Em)].
    + rewrite E0. eapply wp_mono; [by apply (add_first n w E0)|]. intros [ret s']. by apply (Hadd []).
    + assert (ev_crefs e = 1) as Hc1 by (destruct Hun; congruence).
      assert (n ∉ vs.*1) as Hni.
      { rewrite Em in Hno. intros Hin. apply list_elem_of_fmap in Hin as ([n' v'] & -> & Hin). apply elem_of_list_to_map in Hin; [|apply Hrep]. unfold map_of in Hno. simpl in Hno. congruence. }
      pose proof (add_behind e e vs n w Hun He Hrep Hni Hc1 Hc1 eq_refl) as Hw. cbv zeta in Hw. rewrite insert_id, with_envs_same in Hw by done.
      eapply wp_mono; [apply Hw; [apply Hinv|done|by apply Hl]|]. intros [ret s']. by apply (Hadd vs).
  - rewrite Ev, !bool_decide_true by eauto. rewrite andb_true_r. destruct ow; cbn [andb negb]; [|apply wp_ret; split; [eauto|done]].
    pose proof (envs_nonnull _ _ _ _ _ (ei_envs _ _ _ Hinv) He) as Hnn. rewrite (deref_Some _ _ e) by done. cbn [mbind res_bind].
    destruct (removed_ok e l1 (n, x) l2 Hun He Hrep) as (e1 & -> & Hrep1 & Hc1 & Hc & Hlen & Ha & Hst & HO1). cbn [mbind res_bind]. rewrite Hst. cbn [mbind res_bind].
    eapply wp_mono; [apply (add_behind e e1 (l1 ++ l2) n w); try done|].
    + pose proof (er_names _ _ Hrep) as Hnd. rewrite fmap_app, fmap_cons, <-Permutation_middle in Hnd. apply NoDup_cons in Hnd as [Hnd _]. by rewrite fmap_app.
    + specialize (Hl e He). lia.
    + intros [ret s'] (Hi & Ho & Hr). split; [done|]. split; [done|]. rewrite (map_remove l1 n x l2), <-Em in Hr by apply Hrep. done.
Qed.

(** ** getenv *)

Lemma getenv_ok n :
  good_name n = true ->
  wp (getenv me (Some n) s) (fun '(p, s') => env_inv ext s' bl /\ (forall x, env_map s' x = env_map s x)
    /\ match env_map s me !! n with
       | None => p = NULL /\ env_errno s' me = Some ENOENT
       | Some v => p <> NULL /\ s' = s /\ string_at s p v
       end).
Proof.
  intros Hn. cbn [getenv]. rewrite (env_task_me s me t Hme). cbn [mbind res_bind]. cbv zeta. apply wp_bind.
  eapply wp_mono; [by apply (find_in_ok ext s bl me t Hinv Hme n)|]. intros o [[-> Hno]|(e & l1 & v & l2 & He & Hrep & Hni & -> & Em & Ev)].
  - unfold put_env_errno. rewrite (env_task_me s me t Hme). cbn [mbind res_bind]. apply wp_ret. rewrite Hno.
    split; [by apply (inv_errno ext s bl Hinv)|]. split; [intros x; by apply map_errno|]. split; [done|]. unfold env_errno. cbn. by rewrite lookup_insert_eq.
  - pose proof (envs_nonnull _ _ _ _ _ (ei_envs _ _ _ Hinv) He) as Hnn. rewrite (deref_Some _ _ e) by done. cbn [mbind res_bind]. rewrite Ev.
    pose proof Hrep as [[rest Eb] _ _ _ Hg]. apply Forall_app in Hg as [_ [Hx _]%Forall_cons]. destruct Hx as [[H0 Heq]%good_nameP _]. cbn [fst snd] in *.
    assert (ev_env e = (Some <$> strings l1) ++ (Some <$> n) ++ Some EQUALS :: cstring v ++ (Some <$> strings l2) ++ rest) as Eb'.
    { rewrite Eb, strings_app, strings_cons. unfold entry, cstring. cbn [fst snd]. rewrite !fmap_app, !fmap_cons, !fmap_app, <-!app_assoc, <-?app_comm_cons, <-!app_assoc. done. }
    assert (at_offset (ev_env e) (Z.of_nat (length (strings l1))) = (Some <$> n) ++ Some EQUALS :: cstring v ++ (Some <$> strings l2) ++ rest) as ->.
    { unfold at_offset. rewrite Eb', Nat2Z.id, drop_app_length' by by rewrite length_fmap. done. }
    rewrite strchr_found by done. cbn [mbind res_bind]. apply wp_ret. split; [done|]. split; [done|].

    destruct (envs_pick _ _ _ _ _ (ei_envs _ _ _ Hinv) He) as (sz & bl0 & Hp). destruct (eo_block _ _ _ (ei_envs _ _ _ Hinv) (t_envp t, sz)) as [Hpos _]; [rewrite Hp; left|].
    cbn [fst] in Hpos. split; [unfold EV_ENV; lia|]. split; [done|].
    exists (t_envp t), e, (Z.of_nat (length (strings l1)) + Z.of_nat (length n) + 1), ((Some <$> strings l2) ++ rest). split; [done|]. split; [lia|]. split; [lia|].
    unfold at_offset. rewrite Eb'. replace (Z.to_nat _) with (length (strings l1) + S (length n))%nat by lia.
    rewrite drop_app_ge by (rewrite length_fmap; lia). rewrite length_fmap. replace (_ + _ - _)%nat with (S (length n)) by lia.
    rewrite drop_app_ge by (rewrite length_fmap; lia). rewrite length_fmap. replace (S _ - _)%nat with 1%nat by lia. done.
Qed.

Lemma split_equals (l : list Z) : EQUALS ∈ l -> exists n v, l = n ++ EQUALS :: v /\ EQUALS ∉ n.
Proof.
  induction l as [|c l IH]; [by intros ?%elem_of_nil|]. destruct (decide (c = EQUALS)) as [->|Hc]; [intros _; exists [], l; split; [done|by intros ?%elem_of_nil]|].
  intros [?|Hin]%elem_of_cons; [done|]. destruct (IH Hin) as (n & v & -> & Hn). exists (c :: n), v. split; [done|]. by apply not_elem_of_cons.
Qed.

End one.

(** ** putenv *)

Lemma inv_frame ext s bl b h : env_inv ext s bl -> heap_rep None h (b :: bl ++ ext) -> env_inv (b :: ext) (with_eheap h s) bl.
Proof. intros [A B C D] Hh. split; try done. cbn. eapply heap_perm; [|done]. by rewrite Permutation_middle. Qed.

(** The values that a string in the form of putenv stands for. *)
Definition put_result s s' (me : Z) (string : list Z) (ret : Z) : Prop :=
  (EQUALS ∉ string /\ ret = 0 /\ env_map s' me = env_map s me)
  \/ exists n v, string = n ++ EQUALS :: v /\ EQUALS ∉ n /\ let m := delete n (env_map s me) in
       (ret = 0 /\ env_map s' me = if decide (v = []) then m else <[n := v]> m) \/ (ret = -1 /\ env_errno s' me = Some ENOMEM /\ env_map s' me = m).

Lemma putenv_ok ext s bl me t string :
  env_inv ext s bl -> e_tasks s !! me = Some t -> 0 <= me -> good_value string = true -> unshared s t ->
  Z.of_nat (length string) + 1 < ENV_LIMIT -> (forall e, e_envs s !! t_envp t = Some e -> ev_alloc e + Z.of_nat (length string) + 1 < ENV_LIMIT) ->
  wp (putenv me (Some string) s) (fun '(ret, s') => (exists bl', env_inv ext s' bl') /\ others s me s'
    /\ ((ret = -1 /\ env_errno s' me = Some ENOMEM /\ env_map s' me = env_map s me) \/ put_result s s' me string ret)).
Proof.
  intros Hinv Hme Hpid Hs%good_valueP Hun Hl0 Hl. cbn [putenv]. rewrite u32_id by (unfold ENV_LIMIT in *; lia). apply wp_bind.
  eapply wp_mono; [apply (kmalloc_ok me _ (e_heap s) (bl ++ ext)); [done|lia|unfold ENV_LIMIT in *; lia|apply Hinv]|]. intros [p h] [[-> Hh]|(sz & Hp & Hsz & Hh & _)].
  { rewrite decide_True by done. assert (env_inv ext (with_eheap h s) bl) as Hi by (destruct Hinv; by split). unfold env_errout, put_env_errno, env_task. cbn [e_tasks with_eheap]. rewrite Hme.
    cbn [mbind res_bind]. apply wp_ret. split; [exists bl; by apply (inv_errno ext (with_eheap h s) bl Hi)|]. split; [intros x _; by apply (map_errno (with_eheap h s))|].
    left. split; [done|]. split; [unfold env_errno; cbn; by rewrite lookup_insert_eq|by apply (map_errno (with_eheap h s))]. }
  rewrite decide_False by lia. set (s1 := with_eheap h s). assert (env_inv ((p, sz) :: ext) s1 bl) as Hinv1 by by apply inv_frame.
  assert (forall ret s2 bl2, env_inv ((p, sz) :: ext) s2 bl2 -> others s me s2 -> put_result s s2 me string ret ->
    wp (h ← kfree me p (e_heap s2); Ok (ret, with_eheap h s2)) (fun '(ret, s') => (exists bl', env_inv ext s' bl') /\ others s me s'
      /\ ((ret = -1 /\ env_errno s' me = Some ENOMEM /\ env_map s' me = env_map s me) \/ put_result s s' me string ret))) as Hend.
  { intros ret s2 bl2 Hi2 Ho2 Hr2. apply wp_bind. eapply wp_mono; [apply (kfree_ok None me (e_heap s2) (p, sz) (bl2 ++ ext)); [done|by left|]|].
    - eapply heap_perm; [|apply Hi2]. by rewrite <-Permutation_middle.
    - intros h2 Hh2. apply wp_ret. split; [exists bl2; destruct Hi2; by split|]. split; [done|]. by right. }
  unfold cstring. rewrite fmap_app. destruct (decide (EQUALS ∈ string)) as [Hin|Hni].
  - destruct (split_equals string Hin) as (n & v & -> & Hn). rewrite fmap_app, fmap_cons, <-app_assoc, <-app_comm_cons. apply not_elem_of_app in Hs as [Hs1 [_ Hs2]%not_elem_of_cons].
    rewrite strchr_found by done. cbn [mbind res_bind]. rewrite Nat2Z.id, take_app_length, drop_app_ge by lia.
    replace (drop (S (length n) - length n) (EQUALS :: v)) with v by (replace (S (length n) - length n)%nat with 1%nat by lia; done).
    apply wp_bind. eapply wp_mono.
    { apply (setenv_ok ((p, sz) :: ext) s1 bl me t Hinv1 Hme Hpid n v true); [by apply good_nameP|by apply good_valueP|exact Hun| |].
      - intros e He. specialize (Hl e He). rewrite length_app in Hl. simpl in Hl. unfold varlen. lia.
      - rewrite length_app in Hl0. simpl in Hl0. unfold varlen. lia. }
    intros [ret s2] ([bl2 Hi2] & Ho2 & Hr2). apply (Hend ret s2 bl2 Hi2 Ho2). right. exists n, v. split; [done|]. split; [done|]. exact Hr2.
  - change (Some <$> [0]) with [Some 0]. rewrite strchr_none by done. cbn [mbind res_bind]. apply (Hend 0 s1 bl Hinv1); [done|]. by left.
Qed.

(** ** Tasks that begin and end *)

Definition others_of s (x : Z) s' : Prop := forall y, y <> x -> env_map s' y = env_map s y.

Lemma env_dup_ok ext s bl me t child y :
  env_inv ext s bl -> e_tasks s !! me = Some t -> 0 <= me -> e_tasks s !! child = Some y -> t_envp y = NULL -> child <> NULL ->
  wp (env_dup me child s) (fun '(ret, s') => (exists bl', env_inv ext s' bl') /\ others_of s child s'
    /\ ((ret = 0 /\ env_map s' child = env_map s me) \/ (ret = - ENOMEM /\ env_map s' child = ∅))).
Proof.
  intros Hinv Hme Hpid Hy Hy0 Hc. unfold env_dup. rewrite decide_False by done. rewrite (env_task_me s me t Hme). cbn [mbind res_bind].
  assert (forall h, heap_rep None h (bl ++ ext) -> exists s', put_envp child NULL (with_eheap h s) = Ok s' /\ env_inv ext s' bl /\ (forall z, env_map s' z = env_map s z)) as Hnull.
  { intros h Hh. unfold put_envp, env_task. cbn [e_tasks with_eheap]. rewrite Hy. cbn [mbind res_bind]. eexists. split; [done|].
    assert (env_inv ext (with_eheap h s) bl) as Hi by (destruct Hinv; by split). rewrite <-Hy0. split; [by apply (inv_errno ext (with_eheap h s) bl Hi)|].
    intros z. by apply (map_errno (with_eheap h s)). }
  assert (env_map s child = ∅) as Hce by (unfold env_map; by rewrite Hy, Hy0, (envs_null ext s bl Hinv)).
  destruct (my_env ext s bl me t Hinv Hme) as [[E0 Em]|(e & vs & E0 & He & Hrep & _ & Em)].
  { rewrite decide_True by done. cbn [mbind res_bind]. destruct (Hnull (e_heap s) (ei_heap _ _ _ Hinv)) as (s' & E & Hi & Hm). replace (with_eheap (e_heap s) s) with s in E by by destruct s.
    rewrite E. apply wp_ret. split; [eauto|]. split; [intros z _; apply Hm|]. left. split; [done|]. rewrite Hm. congruence. }
  rewrite decide_False, (deref_Some _ _ e) by done. cbn [mbind res_bind]. cbv zeta. pose proof Hrep as [[rest Eb] Ha Hl _ _]. apply wp_bind, wp_bind.
  eapply wp_mono; [apply (new_env_ok ext s bl me Hinv Hpid (ev_alloc e)); unfold ENV_LIMIT in *; lia|]. intros [p s1] [[-> (h & -> & Hh)]|(h & sz & Hp & Hsz & Hh & Hp0 & ->)].
  { rewrite decide_True by done. apply wp_ret. destruct (Hnull h Hh) as (s' & E & Hi & Hm). rewrite E. apply wp_ret. split; [eauto|]. split; [intros z _; apply Hm|]. right.
    split; [done|]. by rewrite Hm. }
  rewrite decide_False by lia. cbn [e_envs with_envs]. set (n := Environ 1 (ev_alloc e) (fresh_bytes (ev_alloc e + 3))).
  rewrite (deref_Some (<[p := n]> (e_envs s)) p n) by (rewrite ?lookup_insert_eq; done || lia). cbn [mbind res_bind].
  assert (p <> t_envp t) as Hpt by (intros ->; apply Hp0, (eo_dom _ _ _ (ei_envs _ _ _ Hinv)); eauto).
  rewrite (deref_Some _ _ e) by (rewrite ?lookup_insert_ne; done). cbn [mbind res_bind].
  assert (ev_env n = fresh_bytes (ev_alloc e + 3)) as En by done. assert (length (fresh_bytes (ev_alloc e + 3)) = Z.to_nat (ev_alloc e + 3)) as Hfl by apply length_replicate.
  rewrite (proj2 (Z.ltb_ge _ _)) by (rewrite Eb, length_app, length_fmap; lia). rewrite (proj2 (Z.ltb_ge _ _)) by (rewrite En; lia).
  set (b := take (Z.to_nat (ev_alloc e)) (ev_env e) ++ drop (Z.to_nat (ev_alloc e)) (ev_env n)).
  rewrite store_valid by (split; [lia|]; rewrite lookup_insert_eq; eauto). cbn [mbind res_bind]. apply wp_ret.
  rewrite alter_new.
  unfold put_envp, env_task. cbn [e_tasks with_envs with_eheap]. rewrite Hy. cbn [mbind res_bind]. apply wp_ret.
  assert (take (Z.to_nat (ev_alloc e)) (ev_env e) = Some <$> strings vs) as Htk by (rewrite Eb, Ha, Nat2Z.id; apply take_app_length'; by rewrite length_fmap).
  assert (delete (t_envp y) (e_envs s) = e_envs s) as Hdel by (rewrite Hy0; apply delete_id, (envs_null ext s bl Hinv)).
  destruct (inv_moved ext s bl child y Hinv Hy h bl p sz (set_ev_env b n) vs (t_env_errno y)) as (Hi & H1 & H2); rewrite ?Hdel; try done.
  + by left.
  + apply Hinv.
  + lia.
  + cbn [ev_env set_ev_env]. unfold b. rewrite Htk, length_app, length_fmap, length_drop, En, Hfl. unfold EV_ENV. lia.
  + destruct Hrep. split; try done. cbn. unfold b. rewrite Htk. eauto.
  + rewrite Hdel in *. split; [eauto|]. split; [done|]. left. split; [done|]. etrans; [exact H1|done].
Qed.

(** The pointer of a task is set and the count of one environment follows. *)
Lemma inv_count ext s bl x y p e c err :
  env_inv ext s bl -> e_tasks s !! x = Some y -> e_envs s !! p = Some e -> let ts := <[x := ETask c err]> (e_tasks s) in
  (c = NULL \/ c = p) -> (t_envp y = NULL \/ t_envp y = p) -> 0 < users ts p ->
  let s' := EnvSys HT (e_heap s) (<[p := set_ev_crefs (users ts p) e]> (e_envs s)) ts (e_delayed s) in
  env_inv ext s' bl /\ env_map s' x = (if decide (c = NULL) then ∅ else map_of (vars e)) /\ others_of s x s'.
Proof.
  intros Hinv Hx He ts Hc Hy Hu s'. pose proof Hinv as [A B C [D1 D2]]. pose proof (envs_nonnull _ _ _ _ _ B He) as Hp0. pose proof (envs_null ext s bl Hinv) as Hnull.
  destruct (eo_env _ _ _ B _ _ He) as [[vs Hrep] _].
  assert (forall q, is_Some (e_envs s' !! q) <-> is_Some (e_envs s !! q)) as Hdom.
  { intros q. cbn. rewrite lookup_insert_is_Some. split; [intros [<-|[_ ?]]; eauto|]. intros ?. destruct (decide (p = q)); eauto. }
  assert (forall q, q <> p -> is_Some (e_envs s !! q) -> users ts q = users (e_tasks s) q) as Hus.
  { intros q Hq [z Hz]. unfold ts. rewrite (users_set _ _ y) by done. cbn. assert (q <> NULL) by (intros ->; congruence).
    rewrite !decide_False by (intros <-; destruct Hc, Hy; done). lia. }
  assert (forall z w, e_envs s !! t_envp z = Some w -> e_envs s' !! t_envp z = Some (if decide (t_envp z = p) then set_ev_crefs (users ts p) e else w)) as Hlk.
  { intros z w Hw. cbn. rewrite lookup_insert. repeat case_decide; congruence. }
  split; [split; [done| | |split]|split].
  - cbn [e_envs e_tasks s']. eapply (envs_update _ _ _ _ p e (set_ev_crefs (users ts p) e) vs B He); try done. by destruct Hrep.
  - intros q Hq. cbn [e_tasks s']. destruct (decide (q = p)) as [->|Hne]; [done|]. apply Hdom in Hq. rewrite Hus by done. by apply C.
  - cbn [e_tasks s']. intros z w [[<- <-]|[Hne Hz]]%lookup_insert_Some; [|rewrite Hdom; by apply (D1 z)]. cbn [t_envp]. destruct Hc as [->| ->]; [by left|right].
    rewrite Hdom. eauto.
  - cbn [e_tasks s']. unfold ts. rewrite map_size_insert, Hx. done.
  - unfold env_map. cbn. unfold ts at 1. rewrite lookup_insert_eq. cbn. destruct Hc as [->| ->].
    + rewrite decide_True, lookup_insert_ne, Hnull by done. done.
    + rewrite decide_False, lookup_insert_eq by done. done.
  - intros z Hz. unfold env_map. cbn. unfold ts at 1. rewrite lookup_insert_ne by done. destruct (e_tasks s !! z) as [w|]; [|done].
    rewrite lookup_insert. case_decide as Hd; [rewrite <-Hd, He; done|done].
Qed.

Lemma env_share_ok ext s bl me t child y :
  env_inv ext s bl -> e_tasks s !! me = Some t -> e_tasks s !! child = Some y -> t_envp y = NULL -> child <> NULL ->
  wp (env_share me child s) (fun '(ret, s') => ret = 0 /\ (exists bl', env_inv ext s' bl') /\ others_of s child s' /\ env_map s' child = env_map s me
    /\ t_envp <$> e_tasks s' !! child = Some (t_envp t)).
Proof.
  intros Hinv Hme Hy Hy0 Hc. unfold env_share. rewrite decide_False by done. rewrite (env_task_me s me t Hme). cbn [mbind res_bind]. cbv zeta.
  destruct (my_env ext s bl me t Hinv Hme) as [[E0 Em]|(e & vs & E0 & He & Hrep & Hcr & Em)].
  - rewrite decide_True by done. cbn [mbind res_bind]. unfold put_envp, env_task. rewrite Hy. cbn [mbind res_bind]. apply wp_ret. rewrite E0, <-Hy0.
    split; [done|]. split; [exists bl; by apply (inv_errno ext s bl Hinv)|]. split; [intros z _; by apply map_errno|]. cbn. rewrite lookup_insert_eq. split; [|done].
    rewrite map_errno by done. rewrite Em. unfold env_map. by rewrite Hy, Hy0, (envs_null ext s bl Hinv).
  - rewrite decide_False, (deref_Some _ _ e) by done. cbn [mbind res_bind]. rewrite store_valid by (split; eauto). cbn [mbind res_bind]. unfold put_envp, env_task. cbn [e_tasks with_envs].
    rewrite Hy. cbn [mbind res_bind]. apply wp_ret. set (ts := <[child := ETask (t_envp t) (t_env_errno y)]> (e_tasks s)).
    assert (users ts (t_envp t) = users (e_tasks s) (t_envp t) + 1) as Hu.
    { unfold ts. rewrite (users_set _ _ y) by done. cbn. rewrite Hy0, (decide_False (P := NULL = t_envp t)), decide_True by done. lia. }
    assert (u32 (ev_crefs e + 1) = users ts (t_envp t)) as Eu.
    { rewrite Hcr, Hu. apply u32_id. pose proof (users_nonneg (e_tasks s) (t_envp t)). pose proof (users_bound ts (t_envp t)) as Hb. rewrite Hu in Hb.
      assert (size ts = size (e_tasks s)) as Hsz by (unfold ts; by rewrite map_size_insert, Hy). rewrite Hsz in Hb. pose proof (proj2 (ei_tasks _ _ _ Hinv)). lia. }
    destruct (inv_count ext s bl child y (t_envp t) e (t_envp t) (t_env_errno y) Hinv Hy He) as (Hi & H1 & H2); [by right|by left|fold ts; pose proof (users_nonneg (e_tasks s) (t_envp t)); lia|].
    fold ts in Hi, H1, H2. rewrite <-Eu in Hi, H1, H2. rewrite decide_False in H1 by done.
    rewrite (alter_at _ _ _ _ He).
    split; [done|]. split; [exists bl; exact Hi|]. split; [exact H2|]. split; [|cbn; unfold ts; by rewrite lookup_insert_eq].
    etrans; [exact H1|]. by rewrite (env_rep_vars _ _ Hrep).
Qed.

Lemma env_release_ok ext s bl me x y :
  env_inv ext s bl -> 0 <= me -> e_tasks s !! x = Some y -> x <> NULL ->
  wp (env_release me x s) (fun '(ret, s') => ret = 0 /\ (exists bl', env_inv ext s' bl') /\ others_of s x s' /\ env_map s' x = ∅
    /\ t_envp <$> e_tasks s' !! x = Some NULL /\ (t_envp y <> NULL -> is_Some (e_envs s' !! t_envp y) <-> users (e_tasks s) (t_envp y) <> 1)).
Proof.
  intros Hinv Hpid Hx Hx0. unfold env_release. rewrite decide_False by done. rewrite (env_task_me s x y Hx). cbn [mbind res_bind]. cbv zeta.
  destruct (my_env ext s bl x y Hinv Hx) as [[E0 Em]|(e & vs & E0 & He & Hrep & Hcr & Em)].
  { rewrite decide_True by done. apply wp_ret. split; [done|]. split; [eauto|]. split; [done|]. split; [done|]. rewrite Hx. cbn. rewrite E0. split; [done|]. by intros []. }
  rewrite decide_False, (deref_Some _ _ e) by done. cbn [mbind res_bind]. rewrite Hcr. set (p := t_envp y) in *. pose proof Hinv as [A B C [D1 D2]].
  pose proof (C p (ex_intro _ _ He)) as Hpos. pose proof (envs_null ext s bl Hinv) as Hnull. destruct (Z.leb_spec (users (e_tasks s) p) 1) as [H1|H1].
  - assert (users (e_tasks s) p = 1) as Hu1 by lia. destruct (envs_pick _ _ _ _ _ B He) as (sz & bl0 & Hp). unfold sched_free_env. cbv zeta. cbn [e_heap with_envs].
    destruct (ktry_ok me (e_heap s) (bl ++ ext) Hpid A) as (h1 & -> & Hh1). apply wp_bind, wp_bind.
    eapply wp_mono; [apply (kfree_ok (Some me) me h1 (p, sz) (bl0 ++ ext)); [done|by right|eapply heap_perm; [|exact Hh1]; by rewrite Hp]|].
    intros h2 Hh2. apply wp_bind. eapply wp_mono; [apply (kgive_ok me h2 (bl0 ++ ext) Hh2)|]. intros h3 Hh3. apply wp_ret. unfold put_envp, env_task. cbn [e_tasks with_envs with_eheap]. rewrite Hx.
    cbn [mbind res_bind]. apply wp_ret. set (ts := <[x := ETask NULL (t_env_errno y)]> (e_tasks s)).
    assert (forall z w, z <> x -> e_tasks s !! z = Some w -> t_envp w <> p) as Hsole by (intros z w Hz Hw; exact (users_sole _ x y z w _ Hu1 Hx eq_refl Hw Hz)).
    assert (forall q, q <> p -> is_Some (e_envs s !! q) -> users ts q = users (e_tasks s) q) as Hus.
    { intros q Hq [w Hw]. unfold ts. rewrite (users_set _ _ y) by done. cbn. fold p. assert (q <> NULL) by (intros ->; congruence). rewrite !decide_False by congruence. lia. }
    split; [done|]. split; [exists bl0; split; [done| | |split]|split; [|split; [|split]]]; cbn.
    + eapply envs_users; [|apply (envs_delete _ _ p sz); by apply (envs_perm _ _ _ _ Hp)]. intros q [w Hw]. apply lookup_delete_Some in Hw as [Hne Hw]. apply Hus; [done|eauto].
    + intros q [w Hw]. apply lookup_delete_Some in Hw as [Hne Hw]. fold ts. rewrite Hus by eauto. apply C. eauto.
    + intros z w [[<- <-]|[Hne Hz]]%lookup_insert_Some; [by left|]. destruct (D1 z w Hz) as [|Hw]; [by left|right]. rewrite lookup_delete_ne; [done|]. intros E. symmetry in E. by apply (Hsole z w).
    + unfold ts. rewrite map_size_insert, Hx. done.
    + intros z Hz. unfold env_map. cbn. unfold ts. rewrite lookup_insert_ne by done. destruct (e_tasks s !! z) as [w|] eqn:Ew; [|done]. rewrite lookup_delete_ne; [done|]. intros E. symmetry in E.
      by apply (Hsole z w).
    + unfold env_map. cbn. unfold ts. rewrite lookup_insert_eq. cbn. by rewrite lookup_delete_ne, Hnull by done.
    + unfold ts. by rewrite lookup_insert_eq.
    + intros _. rewrite lookup_delete_eq. split; [by intros [? ?]|done].
  - rewrite store_valid by (split; eauto). cbn [mbind res_bind]. unfold put_envp, env_task. cbn [e_tasks with_envs]. rewrite Hx. cbn [mbind res_bind]. apply wp_ret.
    set (ts := <[x := ETask NULL (t_env_errno y)]> (e_tasks s)).
    assert (users ts p = users (e_tasks s) p - 1) as Hu.
    { unfold ts. rewrite (users_set _ _ y) by done. cbn. fold p. rewrite (decide_False (P := NULL = p)), decide_True by done. lia. }
    assert (u32 (users (e_tasks s) p - 1) = users ts p) as Eu by (rewrite Hu; apply u32_id; pose proof (users_bound (e_tasks s) p); lia).
    destruct (inv_count ext s bl x y p e NULL (t_env_errno y) Hinv Hx He) as (Hi & H2 & H3); [by left|by right|fold ts; lia|].
    fold ts in Hi, H2, H3. rewrite <-Eu in Hi, H2, H3. rewrite decide_True in H2 by done.
    rewrite (alter_at _ _ _ _ He).
    split; [done|]. split; [exists bl; exact Hi|]. split; [exact H3|]. split; [exact H2|]. cbn. unfold ts. rewrite !lookup_insert_eq. split; [done|]. intros _. split; [intros _; lia|eauto].
Qed.

End calls.
