(* ===== verification/EnvThm.v ===== *)
(** * Environment variables: theorems

    The environment of a task is a map from names to values.  [env_spec] says
    what each call does to the maps of the tasks; the calls refine it along any
    sequence of legal calls.  A legal call has a name without '=', keeps the
    environment below [ENV_LIMIT], does not change or clear an environment that is
    shared, and does not share one that does not exist yet: the lemmas at the end
    show what happens otherwise. *)

From S2P Require Import Prelude Queue Sched Sem Mm MmSpec KHeap Inode Env EnvSpec EnvCalls.

Inductive env_call : Type :=
| ESetenv (name value : option (list Z)) (overwrite : bool)
| EUnsetenv (name : option (list Z))
| EPutenv (string : option (list Z))
| EGetenv (name : option (list Z))
| EClearenv
| EDup (child : Z)
| EShare (child : Z)
| ERelease (tcb : Z).

(** ** The specification *)

(** The map of one task changes. *)
Definition changes (a : Z -> envmap) (x : Z) (m : envmap) (a' : Z -> envmap) : Prop := forall y, a' y = if decide (y = x) then m else a y.
Definition unchanged (a a' : Z -> envmap) : Prop := forall y, a' y = a y.

(** An empty value stands for none.  Without memory the old value is lost. *)
Definition setenv_spec (n v : list Z) (ow : bool) (m : envmap) (ret : Z) (m' : envmap) : Prop :=
  if negb ow && (bool_decide (v = []) || bool_decide (is_Some (m !! n))) then ret = 0 /\ m' = m
  else (ret = 0 /\ m' = if decide (v = []) then delete n m else <[n := v]> (delete n m)) \/ (ret = -1 /\ m' = delete n m).

Definition env_spec (me : Z) (c : env_call) (a : Z -> envmap) (ret : Z) (a' : Z -> envmap) : Prop :=
  match c with
  | ESetenv None _ _ | EUnsetenv None | EPutenv None => ret = -1 /\ unchanged a a'
  | ESetenv (Some n) v ow => exists m', changes a me m' a' /\ setenv_spec n (default [] v) ow (a me) ret m'
  | EUnsetenv (Some n) => (ret = 0 \/ ret = -1) /\ changes a me (delete n (a me)) a'
  | EPutenv (Some string) =>
      ((ret = -1 \/ (ret = 0 /\ EQUALS ∉ string)) /\ unchanged a a')
      \/ exists n v m', string = n ++ EQUALS :: v /\ EQUALS ∉ n /\ changes a me m' a' /\ setenv_spec n v true (a me) ret m'
  | EGetenv n => (ret <> NULL <-> exists n', n = Some n' /\ is_Some (a me !! n')) /\ unchanged a a'
  | EClearenv => ret = 0 /\ changes a me ∅ a'
  | EDup child => (ret = 0 /\ changes a child (a me) a') \/ (ret = - ENOMEM /\ changes a child ∅ a')
  | EShare child => ret = 0 /\ changes a child (a me) a'
  | ERelease x => ret = 0 /\ changes a x ∅ a'
  end.

Fixpoint spec_run (cs : list (Z * env_call)) (a : Z -> envmap) (rets : list Z) (a' : Z -> envmap) : Prop :=
  match cs, rets with
  | [], [] => unchanged a a'
  | (me, c) :: cs, r :: rets => exists b, env_spec me c a r b /\ spec_run cs b rets a'
  | _, _ => False
  end.

Section thm.
  Context {HT : Type} {HK : KHeap HT} {HKS : KHeapSpec HT} (ext : list (Z * Z)).
  Implicit Types (s : env_sys HT).

Definition env_ok s : Prop := exists bl, env_inv ext s bl.

(** ** Calls *)

Definition env_exec (me : Z) (c : env_call) s : res (Z * env_sys HT) :=
  match c with
  | ESetenv n v ow => setenv me n v ow s
  | EUnsetenv n => unsetenv me n s
  | EPutenv l => putenv me l s
  | EGetenv n => getenv me n s
  | EClearenv => clearenv me s
  | EDup child => env_dup me child s
  | EShare child => env_share me child s
  | ERelease x => env_release me x s
  end.

Definition sole s (t : etask) : bool := (t_envp t =? 0) || match e_envs s !! t_envp t with Some e => ev_crefs e =? 1 | None => false end.
Definition fits s (t : etask) (n : Z) : bool := (n <? ENV_LIMIT) && match e_envs s !! t_envp t with Some e => ev_alloc e + n <? ENV_LIMIT | None => true end.
Definition new_task s (x : Z) : bool := negb (x =? 0) && match e_tasks s !! x with Some y => t_envp y =? 0 | None => false end.

Definition env_legal (me : Z) (c : env_call) s : bool :=
  (0 <? me) && match e_tasks s !! me with
  | None => false
  | Some t =>
      match c with
      | ESetenv (Some n) v _ => good_name n && good_value (default [] v) && sole s t && fits s t (varlen n (default [] v))
      | EUnsetenv (Some n) => good_name n && sole s t
      | EPutenv (Some l) => good_value l && sole s t && fits s t (Z.of_nat (length l) + 1)
      | EGetenv (Some n) => good_name n
      | ESetenv None _ _ | EUnsetenv None | EPutenv None | EGetenv None => true
      | EClearenv => sole s t
      | EDup x => new_task s x
      | EShare x => new_task s x && negb (t_envp t =? 0)
      | ERelease x => negb (x =? 0) && bool_decide (is_Some (e_tasks s !! x))
      end
  end.

(** The values returned and the last state; [None] when a call is not legal. *)
Fixpoint env_run (cs : list (Z * env_call)) s : res (option (list Z * env_sys HT)) :=
  match cs with
  | [] => Ok (Some ([], s))
  | (me, c) :: cs =>
      if env_legal me c s then
        '(r, s) ← env_exec me c s;
        o ← env_run cs s;
        Ok (option_map (fun '(rs, s) => (r :: rs, s)) o)
      else Ok None
  end.

(** ** Every call refines the specification *)

Lemma sole_unshared s bl t : env_inv ext s bl -> sole s t = true -> unshared s t.
Proof.
  intros Hinv. unfold sole. rewrite orb_true_iff. intros [E%Z.eqb_eq|E]; [by left|right]. destruct (e_envs s !! t_envp t) as [e|] eqn:He; [|done]. apply Z.eqb_eq in E.
  by rewrite <-(proj2 (eo_env _ _ _ (ei_envs _ _ _ Hinv) _ _ He)).
Qed.

Lemma fits_spec s t n : fits s t n = true -> n < ENV_LIMIT /\ (forall e, e_envs s !! t_envp t = Some e -> ev_alloc e + n < ENV_LIMIT).
Proof. unfold fits. rewrite andb_true_iff. intros [H1%Z.ltb_lt H2]. split; [done|]. intros e He. rewrite He in H2. by apply Z.ltb_lt. Qed.

Lemma others_changes s x s' m : others_of s x s' -> env_map s' x = m -> changes (env_map s) x m (env_map s').
Proof. intros Ho Hm y. case_decide; [by subst|by apply Ho]. Qed.

Lemma errout_spec s bl me t err : env_inv ext s bl -> e_tasks s !! me = Some t ->
  wp (env_errout me err s) (fun '(ret, s') => env_ok s' /\ ret = -1 /\ unchanged (env_map s) (env_map s')).
Proof.
  intros Hinv Hme. unfold env_errout, put_env_errno. rewrite (env_task_me s me t Hme). cbn [mbind res_bind]. apply wp_ret. split; [exists bl; by apply (inv_errno ext s bl Hinv)|].
  split; [done|]. intros y. by apply map_errno.
Qed.

Lemma setenv_refines s bl me t n v ow :
  env_inv ext s bl -> e_tasks s !! me = Some t -> 0 < me -> env_legal me (ESetenv (Some n) (Some v) ow) s = true ->
  wp (setenv me (Some n) (Some v) ow s) (fun '(ret, s') => env_ok s' /\ exists m', changes (env_map s) me m' (env_map s') /\ setenv_spec n v ow (env_map s me) ret m').
Proof.
  intros Hinv Hme Hp Hl. unfold env_legal in Hl. rewrite Hme in Hl. apply andb_true_iff in Hl as [_ Hl]. cbn [default] in Hl. rewrite !andb_true_iff in Hl. destruct Hl as [[[Hn Hv] Hs] Hf].
  apply fits_spec in Hf as [Hf1 Hf2]. eapply wp_mono; [apply (setenv_ok ext s bl me t Hinv Hme ltac:(lia) n v ow Hn Hv (sole_unshared _ _ _ Hinv Hs)); done|].
  intros [ret s'] (Hi & Ho & Hr). split; [done|]. exists (env_map s' me). split; [by apply others_changes|]. unfold setenv_spec. case_match; [done|]. naive_solver.
Qed.

Lemma env_exec_ok me c s : env_ok s -> env_legal me c s = true -> wp (env_exec me c s) (fun '(ret, s') => env_ok s' /\ env_spec me c (env_map s) ret (env_map s')).
Proof.
  intros [bl Hinv] Hl. pose proof Hl as Hl0. unfold env_legal in Hl. apply andb_true_iff in Hl as [Hp%Z.ltb_lt Hl]. destruct (e_tasks s !! me) as [t|] eqn:Hme; [|done].
  pose proof (fun err => errout_spec s bl me t err Hinv Hme) as Herr. assert (0 <= me) as Hp0 by lia.
  assert (forall x, new_task s x = true -> x <> NULL /\ exists y, e_tasks s !! x = Some y /\ t_envp y = NULL) as Hnew.
  { intros x Hx. apply andb_true_iff in Hx as [Hx%negb_true_iff%Z.eqb_neq Hy]. split; [done|]. destruct (e_tasks s !! x) as [y|]; [|done]. apply Z.eqb_eq in Hy. eauto. }
  assert (forall x, x <> NULL -> is_Some (e_tasks s !! x) -> wp (env_release me x s) (fun '(ret, s') => env_ok s' /\ ret = 0 /\ changes (env_map s) x ∅ (env_map s'))) as Hrel.
  { intros x Hx [y Hy]. eapply wp_mono; [by apply (env_release_ok ext s bl me x y)|]. intros [ret s'] (-> & Hi & Ho & Hm & _). split; [done|]. split; [done|]. by apply others_changes. }
  destruct c as [[n|] v ow|[n|]|[l|]|[n|]| |x|x|x]; cbn [env_exec env_spec]; try (apply Herr).
  - destruct v as [v|]; [|change (setenv me (Some n) None ow s) with (setenv me (Some n) (Some []) ow s)]; by apply (setenv_refines s bl me t).
  - apply andb_true_iff in Hl as [Hn Hs]. eapply wp_mono; [by apply (unsetenv_ok ext s bl me t Hinv Hme Hp0 n Hn), (sole_unshared _ bl)|].
    intros [ret s'] (Hi & Ho & Hm & Hr). split; [done|]. split; [naive_solver|]. by apply others_changes.
  - apply andb_true_iff in Hl as [[Hg Hs]%andb_true_iff [Hf1 Hf2]%fits_spec].
    eapply wp_mono; [apply (putenv_ok ext s bl me t l Hinv Hme Hp0 Hg (sole_unshared _ _ _ Hinv Hs) Hf1); intros e He; specialize (Hf2 e He); lia|].
    intros [ret s'] (Hi & Ho & Hr). split; [done|]. pose proof (others_changes s me s' _ Ho eq_refl) as Hc.
    assert (env_map s' me = env_map s me -> unchanged (env_map s) (env_map s')) as Hun by (intros E y; rewrite Hc; case_decide; by subst).
    destruct Hr as [(-> & _ & Hm)|[(Hne & -> & Hm)|(n & v & -> & Hn & Hr)]]; [left; split; [by left|by apply Hun]|left; split; [by right|by apply Hun]|right].
    exists n, v, (env_map s' me). split; [done|]. split; [done|]. split; [done|]. unfold setenv_spec. cbn [negb andb]. naive_solver.
  - eapply wp_mono; [by apply (getenv_ok ext s bl me t Hinv Hme n)|]. intros [p s'] (Hi & Hm & Hr). split; [by exists bl|]. split; [|done].
    destruct (env_map s me !! n) as [v|] eqn:E; [split; [intros _; exists n; eauto|naive_solver]|]. destruct Hr as [-> _]. split; [done|]. intros (n' & [= <-] & [? ?]). congruence.
  - cbn [getenv]. unfold put_env_errno. rewrite (env_task_me s me t Hme). cbn [mbind res_bind]. apply wp_ret. split; [exists bl; by apply (inv_errno ext s bl Hinv)|].
    split; [split; [done|by intros (? & ? & _)]|]. intros y. by apply map_errno.
  - apply Hrel; [lia|eauto].
  - destruct (Hnew x Hl) as (Hx & y & Hy & Hy0). eapply wp_mono; [by apply (env_dup_ok ext s bl me t x y)|]. intros [ret s'] (Hi & Ho & Hr). split; [done|].
    destruct Hr as [[-> Hm]|[-> Hm]]; [left|right]; (split; [done|]); by apply others_changes.
  - apply andb_true_iff in Hl as [Hl _]. destruct (Hnew x Hl) as (Hx & y & Hy & Hy0). eapply wp_mono; [by apply (env_share_ok ext s bl me t x y)|]. intros [ret s'] (-> & Hi & Ho & Hm & _). split; [done|].
    split; [done|]. by apply others_changes.
  - apply andb_true_iff in Hl as [Hx%negb_true_iff%Z.eqb_neq Hy%bool_decide_eq_true]. by apply Hrel.
Qed.

Lemma env_run_ok cs s : env_ok s -> wp (env_run cs s) (fun o => forall rs s', o = Some (rs, s') -> env_ok s' /\ spec_run cs (env_map s) rs (env_map s')).
Proof.
  revert s. induction cs as [|[me c] cs IH]; intros s Hs; cbn [env_run]; [intros rs s' [= <- <-]; done|]. destruct (env_legal me c s) eqn:El; [|done].
  apply wp_bind. eapply wp_mono; [by apply env_exec_ok|]. intros [r s1] [H1 Hspec]. apply wp_bind. eapply wp_mono; [by apply IH|]. intros o Ho. apply wp_ret.
  intros rs s' E. destruct o as [[rs1 s2]|]; [|done]. injection E as <- <-. destruct (Ho rs1 s2 eq_refl) as [H2 Hr]. split; [done|]. cbn [spec_run]. eauto.
Qed.

(** C31: along any sequence of legal calls by any tasks (setenv, unsetenv, putenv,
    getenv, clearenv, and the environments of new and ending tasks and threads) no
    call faults or reads a character that was not written, and the calls change
    the maps of names to values of the tasks as [env_spec] says: only the map of
    the task they are about, also when there is no memory.  Legal calls change and
    clear an environment only while one task uses it, and share one that exists:
    otherwise the threads that share it do not see the change, against the
    description ([clearenv_keeps_others], [share_of_nothing],
    [shared_environment_dangles]).  Between calls every
    environment is in its block of the heap, holds its strings, and counts exactly
    the tasks that refer to it, at least one. *)
Theorem env_calls_refine cs s :
  env_ok s -> wp (env_run cs s) (fun o => forall rs s', o = Some (rs, s') -> env_ok s' /\ spec_run cs (env_map s) rs (env_map s')).
Proof. apply env_run_ok. Qed.

(** C32: setenv with a value, then getenv of the name: getenv returns a pointer to
    a string that is the value; or setenv returned -1 with errno ENOMEM, and then
    the variable does not exist any more.  Other names are as before. *)
Theorem setenv_getenv_roundtrip me n v s :
  env_ok s -> env_legal me (ESetenv (Some n) (Some v) true) s = true -> v <> [] ->
  wp (setenv me (Some n) (Some v) true s) (fun '(ret, s1) => (forall n', n' <> n -> env_map s1 me !! n' = env_map s me !! n')
    /\ wp (getenv me (Some n) s1) (fun '(p, s2) =>
         (ret = 0 /\ s2 = s1 /\ string_at s1 p v) \/ (ret = -1 /\ env_errno s1 me = Some ENOMEM /\ p = NULL /\ env_errno s2 me = Some ENOENT))).
Proof.
  intros [bl Hinv] Hl Hv. pose proof Hl as Hl0. unfold env_legal in Hl. apply andb_true_iff in Hl as [Hp%Z.ltb_lt Hl]. destruct (e_tasks s !! me) as [t|] eqn:Hme; [|done].
  cbn [default] in Hl. rewrite !andb_true_iff in Hl. destruct Hl as [[[Hn Hg] Hs] [Hf1 Hf2]%fits_spec].
  eapply wp_mono; [apply (setenv_ok ext s bl me t Hinv Hme ltac:(lia) n v true Hn Hg (sole_unshared _ _ _ Hinv Hs)); done|].
  intros [ret s1] ([bl1 Hi] & _ & Hr). cbn [negb andb] in Hr. cbv zeta in Hr. rewrite decide_False in Hr by done.
  assert (is_Some (e_tasks s1 !! me)) as [t1 Ht1].
  { destruct (e_tasks s1 !! me) eqn:E; [eauto|]. destruct Hr as [[_ Hm]|(_ & He & _)]; [|unfold env_errno in He; by rewrite E in He].
    unfold env_map in Hm at 1. rewrite E in Hm. apply (f_equal (fun m => m !! n)) in Hm. by rewrite lookup_insert_eq in Hm. }
  split. { intros n' Hn'. destruct Hr as [[_ ->]|(_ & _ & ->)]; by rewrite ?lookup_insert_ne, lookup_delete_ne by done. }
  eapply wp_mono; [by apply (getenv_ok ext s1 bl1 me t1 Hi Ht1 n)|]. intros [p s2] (_ & _ & Hres). destruct Hr as [[-> Hm]|(-> & He & Hm)]; rewrite Hm in Hres.
  - rewrite lookup_insert_eq in Hres. left. naive_solver.
  - rewrite lookup_delete_eq in Hres. right. naive_solver.
Qed.

End thm.

(** ** A small system *)

Definition env_tasks0 : gmap Z etask := {[1 := ETask NULL 0; 2 := ETask NULL 0; 3 := ETask NULL 0]}.
Definition demo_env0 : env_sys mm_state := EnvSys mm_state demo_heap ∅ env_tasks0 [].

Lemma demo_env0_inv : env_inv [] demo_env0 [].
Proof.
  split; [| |by intros p [? ?]|split; [|done]].
  - exists demo_regions. split; [apply demo_ok|]. split; [vm_compute; done|vm_compute; reflexivity].
  - split; try done; try set_solver; [constructor|]. intros p. split; [by intros [? ?]|set_solver].
  - intros x t Hx. left. revert Hx. cbn. unfold env_tasks0. rewrite !lookup_insert_Some, lookup_singleton_Some. naive_solver.
Qed.

(** "A", "B", "1", "A=2" *)
Definition name_a : list Z := [65].
Definition name_b : list Z := [66].
Definition value_1 : list Z := [49].
Definition string_a2 : list Z := [65; 61; 50].

Definition demo_env_calls0 : list (Z * env_call) := [(1, ESetenv (Some name_a) (Some value_1) true); (1, ESetenv (Some name_b) (Some value_1) false)].
Definition demo_env : env_sys mm_state := match env_run demo_env_calls0 demo_env0 with Ok (Some (_, s)) => s | _ => demo_env0 end.

Lemma demo_env_ok : env_ok [] demo_env.
Proof.
  pose proof (env_run_ok [] demo_env_calls0 demo_env0 (ex_intro _ _ demo_env0_inv)) as H. unfold demo_env.
  destruct (env_run demo_env_calls0 demo_env0) as [[[rs s]|]|]; [by destruct (H rs s eq_refl)|exact (ex_intro _ _ demo_env0_inv)|done].
Qed.

Definition demo_env_calls : list (Z * env_call) :=
  [(1, EDup 2); (2, EPutenv (Some string_a2)); (2, EUnsetenv (Some name_b)); (1, EShare 3); (3, EGetenv (Some name_b)); (2, EGetenv (Some name_b));
   (1, ESetenv None None true); (1, ERelease 3); (1, ESetenv (Some name_a) None true); (1, EGetenv (Some name_a)); (1, EClearenv); (2, EClearenv)].

Lemma env_calls_refine_witness :
  (match env_run demo_env_calls demo_env with Ok (Some (rs, s)) => Some (bool_decide (e_envs s = ∅), Z.eqb 0 <$> rs) | _ => None end)
    = Some (true, [true; true; true; true; false; true; false; true; true; true; true; true])
  /\ wp (env_run demo_env_calls demo_env) (fun o => forall rs s', o = Some (rs, s') -> env_ok [] s' /\ spec_run demo_env_calls (env_map demo_env) rs (env_map s')).
Proof. split; [vm_compute; reflexivity|]. apply (env_calls_refine [] demo_env_calls demo_env). exact demo_env_ok. Defined.

Lemma setenv_getenv_roundtrip_witness :
  env_map demo_env 1 !! name_a = Some value_1
  /\ wp (setenv 1 (Some name_a) (Some [50; 51]) true demo_env) (fun '(ret, s1) => (forall n', n' <> name_a -> env_map s1 1 !! n' = env_map demo_env 1 !! n')
    /\ wp (getenv 1 (Some name_a) s1) (fun '(p, s2) =>
         (ret = 0 /\ s2 = s1 /\ string_at s1 p [50; 51]) \/ (ret = -1 /\ env_errno s1 1 = Some ENOMEM /\ p = NULL /\ env_errno s2 1 = Some ENOENT))).
Proof.
  split; [vm_compute; reflexivity|]. apply (setenv_getenv_roundtrip [] 1 name_a [50; 51] demo_env); [exact demo_env_ok|vm_compute; reflexivity|discriminate].
Defined.

(** ** Findings *)

(** Task 2 shares the environment of task 1 (a task 3 with a copy keeps the next
    block used); task 1 adds a long variable, its environment moves, and the
    pointer of task 2 dangles. *)
Lemma shared_environment_dangles :
  ('(_, s) ← env_share 1 2 demo_env; '(_, s) ← env_dup 1 3 s; '(_, s) ← setenv 1 (Some name_b) (Some (replicate 100 49)) true s; getenv 2 (Some name_a) s) = Err FWild.
Proof. vm_compute. reflexivity. Qed.

(** The user guide says that changes are visible to all threads of a task.  When
    thread 2, which shares the environment of task 1, clears it, task 1 keeps all
    its variables. *)
Lemma clearenv_keeps_others :
  (match ('(_, s) ← env_share 1 2 demo_env; clearenv 2 s) with Ok (_, s) => Some (env_map s 2 !! name_a, env_map s 1 !! name_a) | Err _ => None end)
  = Some (None, Some value_1).
Proof. vm_compute. reflexivity. Qed.

(** A thread that is created before its task has an environment never sees the
    variables that the task sets later. *)
Lemma share_of_nothing :
  (match ('(_, s) ← env_share 1 2 demo_env0; setenv 1 (Some name_a) (Some value_1) true s) with Ok (_, s) => Some (env_map s 1 !! name_a, env_map s 2 !! name_a) | Err _ => None end)
  = Some (Some value_1, None).
Proof. vm_compute. reflexivity. Qed.

(** A value that does not fit in the heap: setenv fails and the old value is gone. *)
Lemma setenv_loses_value :
  (match setenv 1 (Some name_a) (Some (replicate 2000 49)) true demo_env with Ok (r, s) => Some (r, env_map s 1 !! name_a) | Err _ => None end) = Some (-1, None).
Proof. vm_compute. reflexivity. Qed.

(** getenv of a name with an equals sign, for which there is a string, compares
    past the end of both strings. *)
Lemma getenv_reads_past_end : getenv 1 (Some [65; 61; 49]) demo_env = Err FWild.
Proof. vm_compute. reflexivity. Qed.
