(* ===== verification/Names.v ===== *)
(** * Objects with names

    The named semaphores and the named message queues are nodes that carry their
    names.  [naming] says that a map from names to what is known of a node agrees
    with the nodes; the lemmas say how the map follows the nodes. *)

From S2P Require Import Prelude.

Section naming.
  Context {N V : Type} (name : N -> list Z) (view : Z -> N -> V) (addr : V -> Z).
  Hypothesis Haddr : forall p n, addr (view p n) = p.
  Implicit Types (a : gmap (list Z) V) (m : gmap Z N).

Definition naming a m : Prop := forall nm v, a !! nm = Some v <-> exists p n, m !! p = Some n /\ name n = nm /\ v = view p n.

Lemma naming_inj a m p q n k : naming a m -> m !! p = Some n -> m !! q = Some k -> name n = name k -> p = q.
Proof.
  intros HV Hn Hk E. assert (a !! name n = Some (view p n)) as H1 by (apply HV; eauto). assert (a !! name n = Some (view q k)) as H2 by (apply HV; rewrite E; eauto).
  assert (view p n = view q k) as Hv by congruence. apply (f_equal addr) in Hv. by rewrite !Haddr in Hv.
Qed.

(** The node at [p] is the one with the name of [n]. *)
Lemma naming_put a m p n :
  naming a m -> (forall q k, m !! q = Some k -> q = p <-> name k = name n) -> naming (<[name n := view p n]> a) (<[p := n]> m).
Proof.
  intros HV Hp nm v. destruct (decide (name n = nm)) as [<-|Hne].
  - rewrite lookup_insert_eq. split; [intros [= <-]; exists p, n; by rewrite lookup_insert_eq|]. intros (q & k & Hk & Hkn & ->).
    apply lookup_insert_Some in Hk as [[<- <-]|[Hq Hk]]; [done|]. destruct Hq. symmetry. by apply (Hp q k Hk).
  - rewrite lookup_insert_ne by done. rewrite (HV nm v). split; intros (q & k & Hk & Hkn & ->).
    + exists q, k. rewrite lookup_insert_ne; [done|]. intros <-. apply Hne. rewrite <-Hkn. symmetry. by apply (Hp p k Hk).
    + apply lookup_insert_Some in Hk as [[<- <-]|[Hq Hk]]; [congruence|eauto].
Qed.

Lemma naming_update a m p n n' : naming a m -> m !! p = Some n -> name n' = name n -> naming (<[name n := view p n']> a) (<[p := n']> m).
Proof.
  intros HV Hn E. rewrite <-E. apply naming_put; [done|]. intros q k Hk. rewrite E. split; [intros ->; congruence|]. intros Ek. by eapply (naming_inj a m q p k n).
Qed.

Lemma naming_insert a m p n : naming a m -> m !! p = None -> a !! name n = None -> naming (<[name n := view p n]> a) (<[p := n]> m).
Proof.
  intros HV Hp Ha. apply naming_put; [done|]. intros q k Hk. split; [intros ->; congruence|]. intros Ek.
  assert (a !! name n = Some (view q k)) by (apply HV; eauto). congruence.
Qed.

Lemma naming_delete a m p n : naming a m -> m !! p = Some n -> naming (delete (name n) a) (delete p m).
Proof.
  intros HV Hn nm v. rewrite lookup_delete_Some, (HV nm v). split.
  - intros (Hne & q & k & Hk & Hkn & ->). exists q, k. rewrite lookup_delete_ne; [done|]. intros <-. congruence.
  - intros (q & k & Hk & Hkn & ->). apply lookup_delete_Some in Hk as [Hq Hk]. split; [|eauto]. intros E. apply Hq. by eapply (naming_inj a m p q n k); [| | |congruence].
Qed.

(** The nodes change in nothing that the map shows. *)
Lemma naming_ext a m m' :
  (forall p n, m !! p = Some n -> exists k, m' !! p = Some k /\ name k = name n /\ view p k = view p n) ->
  (forall p k, m' !! p = Some k -> exists n, m !! p = Some n /\ name k = name n /\ view p k = view p n) -> naming a m -> naming a m'.
Proof.
  intros H1 H2 HV nm v. rewrite (HV nm v). split; intros (p & n & Hn & Hnn & ->).
  - destruct (H1 p n Hn) as (k & Hk & E1 & E2). exists p, k. split; [done|]. split; congruence.
  - destruct (H2 p n Hn) as (k & Hk & E1 & E2). exists p, k. split; [done|]. split; congruence.
Qed.

End naming.
