(* ===== verification/NSem.v ===== *)
(** * Named semaphores: operations (src/nuttx/sched/sem_open.c, sem_close.c, sem_unlink.c)

    The named semaphores are a queue of blocks of the heap, each with the count
    of its connections, a name and the semaphore itself, whose address is the one
    tasks use.  The scheduler lock makes each call one step.  [me] is the running
    task; -1 is the return of an error. *)

From S2P Require Import Prelude Queue Sched Sem KHeap.

Record nsem_s : Type := NSem {
  ns_flink : ptr;
  ns_blink : ptr;
  nconnect : Z;
  ns_name : list Z;
  unlinked : bool
}.

#[export] Program Instance nsem_dlinked : DLinked nsem_s := {
  flink := ns_flink;
  blink := ns_blink;
  set_flink p n := NSem p (ns_blink n) (nconnect n) (ns_name n) (unlinked n);
  set_blink p n := NSem (ns_flink n) p (nconnect n) (ns_name n) (unlinked n)
}.
Solve All Obligations with done.

Definition set_nconnect (c : Z) (n : nsem_s) : nsem_s := NSem (ns_flink n) (ns_blink n) c (ns_name n) (unlinked n).
Definition set_unlinked (n : nsem_s) : nsem_s := NSem (ns_flink n) (ns_blink n) (nconnect n) (ns_name n) true.

(** [offsetof(nsem_t, sem)] and [sizeof(nsem_t)] *)
Definition NSEM_SEM : Z := 18.
Definition SIZEOF_NSEM : Z := 20.

Definition O_CREAT : Z := 4.
Definition O_EXCL : Z := 8.

Record nsem_sys {H : Type} : Type := NSemSys {
  ns_nodes : gmap Z nsem_s;
  g_nsems : dq_queue;
  ns_sems : sem_sys;
  ns_heap : H;
  ns_delayed : list ptr
}.
Arguments nsem_sys H : clear implicits.

(** ** lib_strcmp.c: strings with their final zero *)

Definition s8 (z : Z) : Z := (z + 2 ^ 7) mod 2 ^ 8 - 2 ^ 7.

Fixpoint strcmp (cs ct : list Z) : res Z :=
  match cs, ct with
  | c :: cs, d :: ct =>
      let result := s8 (c - d) in
      if negb (result =? 0) || (c =? 0) then Ok result else strcmp cs ct
  | _, _ => Err FWild
  end.

Section ops.
  Context {H : Type} {HK : KHeap H}.
  Implicit Types (s : nsem_sys H).

Definition with_ns_nodes (m : gmap Z nsem_s) s : nsem_sys H := NSemSys H m (g_nsems s) (ns_sems s) (ns_heap s) (ns_delayed s).
Definition with_ns_list (q : dq_queue) (m : gmap Z nsem_s) s : nsem_sys H := NSemSys H m q (ns_sems s) (ns_heap s) (ns_delayed s).
Definition with_ns_sems (x : sem_sys) s : nsem_sys H := NSemSys H (ns_nodes s) (g_nsems s) x (ns_heap s) (ns_delayed s).
Definition with_ns_heap (h : H) s : nsem_sys H := NSemSys H (ns_nodes s) (g_nsems s) (ns_sems s) h (ns_delayed s).

(** [sem_initialize]: the queue is empty. *)
Definition sem_initialize s : nsem_sys H := with_ns_list dq_init (ns_nodes s) s.

Fixpoint findnamed_loop (fuel : nat) (m : gmap Z nsem_s) (name : list Z) (psem : ptr) : res ptr :=
  match fuel with
  | O => Err FFuel
  | S fuel =>
      if decide (psem = NULL) then Ok NULL
      else
        n ← deref m psem;
        r ← strcmp (name ++ [0]) (ns_name n ++ [0]);
        if r =? 0 then Ok psem else findnamed_loop fuel m name (flink n)
  end.

Definition sem_findnamed (name : list Z) s : res ptr := findnamed_loop (list_fuel (ns_nodes s)) (ns_nodes s) name (dq_head (g_nsems s)).

(** The memory of a named semaphore goes away with the semaphore in it. *)
Definition free_nsem (me : Z) (psem : ptr) s : res (nsem_sys H) :=
  '(q, m) ← dq_rem psem (g_nsems s) (ns_nodes s);
  '(h, d) ← sched_free_block me psem (ns_heap s) (ns_delayed s);
  let sems := with_sems (delete (psem + NSEM_SEM) (s_sems (ns_sems s))) (ns_sems s) in
  Ok (NSemSys H (delete psem m) q sems h d).

(** [value] is the second optional argument. *)
Definition sem_open (me : Z) (name : option (list Z)) (oflag value : Z) s : res (ptr * nsem_sys H) :=
  match name with
  | None => Ok (-1, s)
  | Some name =>
      if 0 <? Z.of_nat (length name) then
        psem ← sem_findnamed name s;
        if decide (psem <> NULL) then
          if (Z.land oflag O_CREAT =? 0) || (Z.land oflag O_EXCL =? 0) then
            n ← deref (ns_nodes s) psem;
            m ← store (set_nconnect (u16 (nconnect n + 1))) psem (ns_nodes s);
            Ok (psem + NSEM_SEM, with_ns_nodes m s)
          else Ok (-1, s)
        else if negb (Z.land oflag O_CREAT =? 0) then
          if u32 value <=? SEM_VALUE_MAX then
            '(psem, h) ← kmalloc me (u32 (SIZEOF_NSEM + Z.of_nat (length name) + 1)) (ns_heap s);
            let s := with_ns_heap h s in
            if decide (psem = NULL) then Ok (-1, s)
            else
              '(_, x) ← sem_init (psem + NSEM_SEM) value (ns_sems s);
              let s := with_ns_sems x s in
              '(q, m) ← dq_addfirst psem (g_nsems s) (<[psem := NSem NULL NULL 1 name false]> (ns_nodes s));
              Ok (psem + NSEM_SEM, with_ns_list q m s)
          else Ok (-1, s)
        else Ok (-1, s)
      else Ok (-1, s)
  end.

Fixpoint close_search (fuel : nat) (m : gmap Z nsem_s) (sem psem : ptr) : res ptr :=
  match fuel with
  | O => Err FFuel
  | S fuel =>
      if decide (psem <> NULL /\ sem <> psem + NSEM_SEM) then n ← deref m psem; close_search fuel m sem (flink n)
      else Ok psem
  end.

Definition sem_close (me : Z) (sem : ptr) s : res (Z * nsem_sys H) :=
  if decide (sem = NULL) then Ok (-1, s)
  else
    psem ← close_search (list_fuel (ns_nodes s)) (ns_nodes s) sem (dq_head (g_nsems s));
    if decide (psem = NULL) then Ok (-1, s)
    else
      n ← deref (ns_nodes s) psem;
      m ← (if negb (nconnect n =? 0) then store (set_nconnect (u16 (nconnect n - 1))) psem (ns_nodes s) else Ok (ns_nodes s));
      let s := with_ns_nodes m s in
      n ← deref (ns_nodes s) psem;
      s ← (if (nconnect n =? 0) && unlinked n then free_nsem me psem s else Ok s);
      Ok (0, s).

Definition sem_unlink (me : Z) (name : option (list Z)) s : res (Z * nsem_sys H) :=
  match name with
  | None => Ok (-1, s)
  | Some name =>
      psem ← sem_findnamed name s;
      if decide (psem = NULL) then Ok (-1, s)
      else
        n ← deref (ns_nodes s) psem;
        s ← (if nconnect n =? 0 then free_nsem me psem s
             else m ← store set_unlinked psem (ns_nodes s); Ok (with_ns_nodes m s));
        Ok (0, s)
  end.

End ops.
