(* ===== verification/NSemThm.v ===== *)
(** * Named semaphores: the invariant and the theorems

    What the queue of named semaphores stands for is a map from names to an
    address, a number of connections and the mark of sem_unlink.  [nsem_spec] says
    what each call does to the map and to the counts of semaphores; the calls
    refine it. *)

From S2P Require Import Prelude Queue Sched Sem Mm MmSpec SemThm KHeap Names NSem.

(** ** strcmp *)

Definition good_char (c : Z) : Prop := 0 < c < 256.
#[export] Instance good_char_dec c : Decision (good_char c).
Proof. unfold good_char. apply _. Defined.

Lemma s8_zero a b : 0 <= a < 256 -> 0 <= b < 256 -> s8 (a - b) = 0 <-> a = b.
Proof.
  intros Ha Hb. unfold s8. split; [|intros ->; rewrite Z.sub_diag; done]. intros E.
  destruct (Z.lt_ge_cases (a - b + 2 ^ 7) 0) as [H1|H1].
  - rewrite <-(Z_mod_plus _ 1), Z.mod_small in E by lia. lia.
  - destruct (Z.lt_ge_cases (a - b + 2 ^ 7) (2 ^ 8)) as [H2|H2]; [rewrite Z.mod_small in E; lia|].
    rewrite <-(Z_mod_plus _ (-1)), Z.mod_small in E by lia. lia.
Qed.

Lemma strcmp_ok a b : Forall good_char a -> Forall good_char b -> exists r, strcmp (a ++ [0]) (b ++ [0]) = Ok r /\ (r = 0 <-> a = b).
Proof.
  intros Ha. revert b. induction Ha as [|c a Hc Ha IH]; intros [|d b] Hb; cbn [app strcmp].
  - exists (s8 (0 - 0)). done.
  - apply Forall_cons in Hb as [Hd _]. unfold good_char in Hd. pose proof (s8_zero 0 d) as E. exists (s8 (0 - d)). rewrite orb_true_r. split; [done|]. rewrite E by lia. split; [lia|done].
  - unfold good_char in Hc. pose proof (s8_zero c 0) as E. exists (s8 (c - 0)). destruct (Z.eqb_spec (s8 (c - 0)) 0) as [E0|E0]; [apply E in E0; lia|]. cbn [negb orb]. split; [done|]. split; [done|done].
  - apply Forall_cons in Hb as [Hd Hb]. unfold good_char in *. pose proof (s8_zero c d ltac:(lia) ltac:(lia)) as E. destruct (Z.eqb_spec (s8 (c - d)) 0) as [E0|E0]; cbn [negb orb].
    + apply E in E0 as <-. rewrite (proj2 (Z.eqb_neq c 0)) by lia. destruct (IH b Hb) as (r & -> & Hr). exists r. split; [done|]. rewrite Hr. split; [by intros ->|by intros [= ->]].
    + exists (s8 (c - d)). split; [done|]. split; [done|]. intros [= Ecd _]. by apply E.
Qed.

(** ** The invariant *)

(** Address, connections, mark. *)
Abbreviation nview := (Z * Z * bool)%type.
Definition view_of (p : Z) (n : nsem_s) : nview := (p, nconnect n, unlinked n).

Section inv.
  Context {HT : Type} {HK : KHeap HT} {HKS : KHeapSpec HT} (ext : list (Z * Z)).
  Implicit Types (s : nsem_sys HT) (a : gmap (list Z) nview) (bl : list (Z * Z)).

Abbreviation views := (naming ns_name view_of).

(** Every node is in the queue. *)
Definition linked (m : gmap Z nsem_s) (q : dq_queue) : Prop := exists l, dq_repr m q l /\ (forall p, is_Some (m !! p) <-> p ∈ l).

Record nsems_ok (m : gmap Z nsem_s) (sems : gmap Z Z) a bl : Prop := NSemsOk {
  no_nodup : NoDup bl.*1;
  no_block : forall b, b ∈ bl -> 0 < b.1 /\ 0 < b.2;
  no_dom : forall p, is_Some (m !! p) <-> p ∈ bl.*1;
  no_size : forall p sz n, (p, sz) ∈ bl -> m !! p = Some n -> SIZEOF_NSEM + Z.of_nat (length (ns_name n)) + 1 <= sz;
  no_node : forall p n, m !! p = Some n -> (ns_name n <> [] /\ Forall good_char (ns_name n)) /\ 0 <= nconnect n < 2 ^ 16 /\ is_Some (sems !! (p + NSEM_SEM));
  no_views : views a m
}.

Definition nsem_inv s a bl : Prop :=
  heap_rep None (ns_heap s) (bl ++ ext) /\ linked (ns_nodes s) (g_nsems s) /\ nsems_ok (ns_nodes s) (s_sems (ns_sems s)) a bl.

Lemma nodes_nonnull m sems a bl p n : nsems_ok m sems a bl -> m !! p = Some n -> 0 < p.
Proof.
  intros [_ B C _ _ _] E. assert (p ∈ bl.*1) as Hp by (apply C; eauto). apply list_elem_of_fmap in Hp as (b & -> & Hb). by destruct (B b Hb).
Qed.

Lemma list_bound (m : gmap Z nsem_s) l : NoDup l -> (forall p, is_Some (m !! p) <-> p ∈ l) -> (length l <= size m)%nat.
Proof.
  intros Hnd Hd. assert (list_to_set l = (dom m : gset Z)) as E.
  { apply set_eq. intros x. rewrite elem_of_list_to_set, elem_of_dom. by rewrite Hd. }
  rewrite <-size_dom, <-E, size_list_to_set by done. lia.
Qed.

(** ** The searches *)

Lemma findnamed_loop_ok m nm prev l fuel :
  Forall good_char nm -> NULL ∉ l -> (forall p n, m !! p = Some n -> Forall good_char (ns_name n)) -> dseg m prev l NULL -> (length l < fuel)%nat ->
  wp (findnamed_loop fuel m nm (hdp NULL l)) (fun p =>
    (p = NULL /\ forall x n, x ∈ l -> m !! x = Some n -> ns_name n <> nm) \/ (p ∈ l /\ exists n, m !! p = Some n /\ ns_name n = nm)).
Proof.
  intros Hnm H0 Hg. revert prev fuel. induction l as [|x l IH]; intros prev [|fuel] Hs Hf; try (simpl in Hf; lia); cbn [findnamed_loop head default].
  - rewrite decide_True by done. left. split; [done|]. set_solver.
  - apply not_elem_of_cons in H0 as [Hx0 H0]. destruct Hs as [(n & Hn & Hfl & _) Hs]. simpl. rewrite decide_False by done.
    rewrite (deref_Some _ _ n) by done. cbn [mbind res_bind]. destruct (strcmp_ok nm (ns_name n) Hnm (Hg x n Hn)) as (r & -> & Hr). cbn [mbind res_bind].
    destruct (Z.eqb_spec r 0) as [E|E].
    + right. split; [by left|]. exists n. split; [done|]. symmetry. by apply Hr.
    + cbn [flink nsem_dlinked] in Hfl. rewrite Hfl. eapply wp_mono; [apply (IH H0 x fuel Hs); simpl in Hf; lia|]. intros p [[-> Hno]|[Hp Hn']]; [left|right].
      * split; [done|]. intros y k [->|Hy]%elem_of_cons Hk; [|by eapply Hno]. assert (k = n) as -> by congruence. intros Hc. apply E, Hr. done.
      * split; [by right|done].
Qed.

Lemma findnamed_ok s a bl nm :
  nsem_inv s a bl -> Forall good_char nm ->
  wp (sem_findnamed nm s) (fun p =>
    (p = NULL /\ a !! nm = None) \/ exists n, 0 < p /\ ns_nodes s !! p = Some n /\ ns_name n = nm /\ a !! nm = Some (view_of p n)).
Proof.
  intros (_ & (l & Hq & Hl) & HO) Hnm. pose proof HO as [_ _ _ _ HN HV]. unfold sem_findnamed. rewrite (dqr_head _ _ _ Hq). eapply wp_mono.
  - apply (findnamed_loop_ok (ns_nodes s) nm NULL l); [done|apply Hq|intros p n E; apply (HN p n E)|apply Hq|].
    pose proof (list_bound _ l (dqr_nodup _ _ _ Hq) Hl). unfold list_fuel. lia.
  - intros p [[-> Hno]|[Hp (n & Hn & Hnn)]]; [left|right].
    + split; [done|]. destruct (a !! nm) as [v|] eqn:E; [|done]. apply HV in E as (p & n & Hn & Hnn & _). exfalso. apply (Hno p n); [apply Hl; eauto|done|done].
    + exists n. split; [by eapply nodes_nonnull|]. split; [done|]. split; [done|]. apply HV. eauto.
Qed.

Lemma close_search_ok m prev l sem fuel :
  NULL ∉ l -> dseg m prev l NULL -> (length l < fuel)%nat ->
  wp (close_search fuel m sem (hdp NULL l)) (fun p => (p = NULL /\ sem - NSEM_SEM ∉ l) \/ (p = sem - NSEM_SEM /\ p ∈ l)).
Proof.
  intros H0. revert prev fuel. induction l as [|x l IH]; intros prev [|fuel] Hs Hf; try (simpl in Hf; lia); cbn [close_search head default].
  - rewrite decide_False by (intros [? _]; done). left. split; [done|]. set_solver.
  - apply not_elem_of_cons in H0 as [Hx0 H0]. destruct Hs as [(n & Hn & Hfl & _) Hs]. simpl. destruct (decide (sem = x + NSEM_SEM)) as [->|Hne].
    + rewrite decide_False by (intros [_ ?]; done). right. split; [lia|by left].
    + rewrite decide_True by done. rewrite (deref_Some _ _ n) by done. cbn [mbind res_bind]. cbn [flink nsem_dlinked] in Hfl. rewrite Hfl.
      eapply wp_mono; [apply (IH H0 x fuel Hs); simpl in Hf; lia|]. intros p [[-> Hno]|[-> Hp]]; [left|right].
      * split; [done|]. apply not_elem_of_cons. split; [lia|done].
      * split; [done|by right].
Qed.

(** Links do not matter. *)
Lemma dunlink_fields (n k : nsem_s) : dunlink n = dunlink k -> ns_name n = ns_name k /\ nconnect n = nconnect k /\ unlinked n = unlinked k.
Proof. destruct n, k. cbn. by intros [= -> -> ->]. Qed.

Lemma views_frame a m m' x : frame dunlink x m m' -> views a m -> views a m'.
Proof.
  intros Hf. apply naming_ext; intros p n Hn; [destruct (frame_lookup _ _ _ _ _ _ Hf Hn) as (k & Hk & E)|destruct (frame_lookup_inv _ _ _ _ _ _ Hf Hn) as (k & Hk & E)];
    apply dunlink_fields in E as (E1 & E2 & E3); exists k; (split; [done|]); (split; [congruence|]); unfold view_of; congruence.
Qed.

(** ** Changes of the state *)

Lemma dseg_links (m m' : gmap Z nsem_s) p l x :
  (forall y n, y ∈ l -> m !! y = Some n -> exists n', m' !! y = Some n' /\ flink n' = flink n /\ blink n' = blink n) -> dseg m p l x -> dseg m' p l x.
Proof.
  revert p. induction l as [|y l IH]; intros p Hm; [done|]. intros [(n & Hn & H1 & H2) Hs]. split.
  - destruct (Hm y n ltac:(left) Hn) as (n' & Hn' & E1 & E2). exists n'. split; [done|]. split; congruence.
  - apply IH; [|done]. intros z k Hz. apply Hm. by right.
Qed.

Lemma insert_dom (m : gmap Z nsem_s) p n n' y : m !! p = Some n -> is_Some (<[p := n']> m !! y) <-> is_Some (m !! y).
Proof. intros Hn. rewrite lookup_insert_is_Some. split; [intros [<-|[_ ?]]; eauto|]. intros ?. destruct (decide (p = y)); eauto. Qed.

Lemma linked_update m q p n n' : linked m q -> m !! p = Some n -> flink n' = flink n -> blink n' = blink n -> linked (<[p := n']> m) q.
Proof.
  intros (l & Hq & Hl) Hn H1 H2. exists l. split; [|intros y; by rewrite (insert_dom m p n)]. destruct Hq as [Q1 Q2 Q3 Q4 Q5]. split; try done. eapply dseg_links; [|exact Q3].
  intros y k _ Hk. destruct (decide (p = y)) as [<-|Hne]; [exists n'; rewrite lookup_insert_eq; by simplify_eq|exists k; by rewrite lookup_insert_ne].
Qed.

(** The fields of one node that are not links. *)
Lemma nsems_update m sems a bl p n n' :
  nsems_ok m sems a bl -> m !! p = Some n -> ns_name n' = ns_name n -> 0 <= nconnect n' < 2 ^ 16 ->
  nsems_ok (<[p := n']> m) sems (<[ns_name n := view_of p n']> a) bl.
Proof.
  intros [A B C D E F] Hn H3 H4. split; try done.
  - intros y. by rewrite (insert_dom m p n).
  - intros y sz k Hb [[<- <-]|[_ Hk]]%lookup_insert_Some; [rewrite H3|]; by eapply D.
  - intros y k [[<- <-]|[_ Hk]]%lookup_insert_Some; [|by apply E]. destruct (E p n Hn) as (E1 & _ & E3). by rewrite H3.
  - by apply (naming_update _ _ (fun v => v.1.1)).
Qed.

Lemma nsems_frame m m' sems a bl x : nsems_ok m sems a bl -> frame dunlink x m m' -> nsems_ok m' sems a bl.
Proof.
  intros [A B C D E F] Hf.
  assert (forall y k, m' !! y = Some k -> exists n, m !! y = Some n /\ ns_name n = ns_name k /\ nconnect n = nconnect k) as Hlk.
  { intros y k Hk. destruct (frame_lookup_inv _ _ _ _ _ _ Hf Hk) as (n & Hn & E1). apply dunlink_fields in E1 as (? & ? & _). exists n. done. }
  split; try done.
  - intros p. rewrite <-C. destruct Hf as [_ Hf]. specialize (Hf p). destruct (m !! p), (m' !! p); try done; split; eauto.
  - intros p sz k Hb Hk. destruct (Hlk p k Hk) as (n & Hn & <- & _). by eapply D.
  - intros p k Hk. destruct (Hlk p k Hk) as (n & Hn & <- & <-). by apply E.
  - by eapply views_frame.
Qed.

(** A new node in a new block. *)
Lemma nsems_insert m sems a bl p sz n value :
  nsems_ok m sems a bl -> ns_name n <> [] -> Forall good_char (ns_name n) -> 0 <= nconnect n < 2 ^ 16 -> a !! ns_name n = None -> 0 < p -> p ∉ bl.*1 ->
  SIZEOF_NSEM + Z.of_nat (length (ns_name n)) + 1 <= sz ->
  nsems_ok (<[p := n]> m) (<[p + NSEM_SEM := value]> sems) (<[ns_name n := view_of p n]> a) ((p, sz) :: bl).
Proof.
  intros [A B C D E F] Hne Hnm Hc Ha Hp Hpb Hsz. split.
  - rewrite fmap_cons. by apply NoDup_cons.
  - intros b [->|Hb]%elem_of_cons; [|by apply B]. simpl. unfold SIZEOF_NSEM in Hsz. lia.
  - intros q. rewrite lookup_insert_is_Some, C, fmap_cons, elem_of_cons. simpl. destruct (decide (p = q)); naive_solver.
  - intros q sz' k [[= -> ->]|Hq]%elem_of_cons Hk; [by rewrite lookup_insert_eq in Hk; simplify_eq|].
    rewrite lookup_insert_ne in Hk; [by eapply D|]. intros ->. apply Hpb. apply (list_elem_of_fmap_2 fst) in Hq. done.
  - intros q k [[<- <-]|[_ Hk]]%lookup_insert_Some; [rewrite lookup_insert_eq; eauto|]. destruct (E q k Hk) as (E1 & E2 & E3). split; [done|]. split; [done|].
    apply lookup_insert_is_Some'. by right.
  - apply naming_insert; [done| |done]. apply eq_None_not_Some. by rewrite C.
Qed.

Lemma nsems_delete m sems a bl p sz n :
  nsems_ok m sems a ((p, sz) :: bl) -> m !! p = Some n -> nsems_ok (delete p m) (delete (p + NSEM_SEM) sems) (delete (ns_name n) a) bl.
Proof.
  intros [A B C D E F] Hn. rewrite fmap_cons in A. apply NoDup_cons in A as [A1 A2]. split; try done.
  - intros b Hb. apply B. by right.
  - intros q. rewrite lookup_delete_is_Some, C, fmap_cons, elem_of_cons. split; [intros [? [->|?]]; done|]. intros Hq. split; [intros <-; done|by right].
  - intros q sz' k Hq Hk. apply lookup_delete_Some in Hk as [_ Hk]. apply (D q sz' k); [by right|done].
  - intros q k Hk. apply lookup_delete_Some in Hk as [Hne Hk]. destruct (E q k Hk) as (E1 & E2 & E3). split; [done|]. split; [done|]. rewrite lookup_delete_ne by lia. done.
  - by apply (naming_delete _ _ (fun v => v.1.1)).
Qed.

Lemma nsems_perm m sems a bl bl' : bl ≡ₚ bl' -> nsems_ok m sems a bl -> nsems_ok m sems a bl'.
Proof.
  intros Hp [A B C D E F]. split; try done.
  - by rewrite <-Hp.
  - intros b Hb. apply B. by rewrite Hp.
  - intros p. by rewrite <-Hp.
  - intros p sz e Hb. apply D. by rewrite Hp.
Qed.

(** A node leaves the queue and the heap, and its semaphore with it. *)
Lemma free_nsem_ok me s a bl p n :
  0 <= me -> nsem_inv s a bl -> ns_nodes s !! p = Some n ->
  wp (free_nsem me p s) (fun s' => (exists bl', nsem_inv s' (delete (ns_name n) a) bl')
    /\ s_sems (ns_sems s') = delete (p + NSEM_SEM) (s_sems (ns_sems s)) /\ ns_delayed s' = ns_delayed s).
Proof.
  intros Hme (Hh & (l & Hq & Hl) & HO) Hn. unfold free_nsem. assert (p ∈ l) as Hp by (apply Hl; eauto). apply list_elem_of_split in Hp as (l1 & l2 & ->).
  apply wp_bind. eapply wp_mono; [by apply (dq_rem_spec _ _ l1 p l2)|]. intros [q m] [Hq' Hf].
  assert (p ∈ bl.*1) as Hpb by (apply (no_dom _ _ _ _ HO); eauto). apply list_elem_of_fmap in Hpb as ([p' sz] & -> & Hb). cbn [fst] in *. apply elem_of_Permutation in Hb as [bl0 Hb].
  apply wp_bind. eapply wp_mono; [apply (sched_free_block_ok me (ns_heap s) (p', sz) (bl0 ++ ext)); [done|eapply heap_perm; [|exact Hh]; by rewrite Hb]|].
  intros [h d] [Hh' ->]. apply wp_ret. split; [|done]. exists bl0. split; [done|]. cbn. pose proof (dqr_nodup _ _ _ Hq) as Hnd. apply NoDup_app in Hnd as (Hnd1 & Hnd2 & Hnd3).
  apply NoDup_cons in Hnd3 as [Hnd3 Hnd4]. destruct (frame_lookup _ _ _ _ _ _ Hf Hn) as (k & Hk & E). apply dunlink_fields in E as (E & _ & _). split.
  - exists (l1 ++ l2). split.
    + destruct Hq' as [Q1 Q2 Q3 Q4 Q5]. split; try done. eapply dseg_ext; [|exact Q3]. intros y Hy. rewrite lookup_delete_ne; [done|]. intros <-.
      apply elem_of_app in Hy as [Hy|Hy]; [|done]. apply (Hnd2 p' Hy). left.
    + intros y. rewrite lookup_delete_is_Some. destruct Hf as [_ Hf]. specialize (Hf y). assert (is_Some (m !! y) <-> is_Some (ns_nodes s !! y)) as ->.
      { destruct (ns_nodes s !! y), (m !! y); try done; split; eauto. }
      rewrite Hl, !elem_of_app, elem_of_cons. split; [intros [? [?|[->|?]]]; try done; auto|]. intros [Hy|Hy]; (split; [|auto]); intros <-; [apply (Hnd2 p' Hy); left|done].
  - rewrite <-E. apply (nsems_delete _ _ _ _ _ sz); [|done]. apply (nsems_perm _ _ _ bl); [done|]. by eapply nsems_frame.
Qed.

(** ** The specification *)

Inductive nsem_call : Type :=
| NOpen (name : option (list Z)) (oflag value : Z)
| NClose (sem : Z)
| NUnlink (name : option (list Z)).

Definition creates (oflag : Z) : bool := negb (Z.land oflag O_CREAT =? 0).
Definition excludes (oflag : Z) : bool := creates oflag && negb (Z.land oflag O_EXCL =? 0).

(** The map of the names and the counts of the semaphores. *)
Abbreviation nstate := (gmap (list Z) nview * gmap Z Z)%type.

Inductive nsem_spec : nsem_call -> nstate -> Z -> nstate -> Prop :=
| sp_open_null oflag value x : nsem_spec (NOpen None oflag value) x (-1) x
| sp_open_excl nm oflag value a sems v : a !! nm = Some v -> excludes oflag = true -> nsem_spec (NOpen (Some nm) oflag value) (a, sems) (-1) (a, sems)
| sp_open_connect nm oflag value a sems p c u : a !! nm = Some (p, c, u) -> excludes oflag = false ->
    nsem_spec (NOpen (Some nm) oflag value) (a, sems) (p + NSEM_SEM) (<[nm := (p, c + 1, u)]> a, sems)
| sp_open_none nm oflag value a sems : a !! nm = None -> nsem_spec (NOpen (Some nm) oflag value) (a, sems) (-1) (a, sems)
| sp_open_create nm oflag value a sems p : a !! nm = None -> nm <> [] -> creates oflag = true -> u32 value <= SEM_VALUE_MAX -> 0 < p ->
    (forall nm' q c u, a !! nm' = Some (q, c, u) -> q <> p) ->
    nsem_spec (NOpen (Some nm) oflag value) (a, sems) (p + NSEM_SEM) (<[nm := (p, 1, false)]> a, <[p + NSEM_SEM := u32 value]> sems)
| sp_close_none sem a sems : (forall nm p c u, a !! nm = Some (p, c, u) -> sem <> p + NSEM_SEM) -> nsem_spec (NClose sem) (a, sems) (-1) (a, sems)
| sp_close nm p c u a sems : a !! nm = Some (p, c, u) -> (1 < c \/ u = false) ->
    nsem_spec (NClose (p + NSEM_SEM)) (a, sems) 0 (<[nm := (p, Z.max 0 (c - 1), u)]> a, sems)
| sp_close_last nm p c a sems : a !! nm = Some (p, c, true) -> c <= 1 ->
    nsem_spec (NClose (p + NSEM_SEM)) (a, sems) 0 (delete nm a, delete (p + NSEM_SEM) sems)
| sp_unlink_null x : nsem_spec (NUnlink None) x (-1) x
| sp_unlink_none nm a sems : a !! nm = None -> nsem_spec (NUnlink (Some nm)) (a, sems) (-1) (a, sems)
| sp_unlink_free nm p u a sems : a !! nm = Some (p, 0, u) -> nsem_spec (NUnlink (Some nm)) (a, sems) 0 (delete nm a, delete (p + NSEM_SEM) sems)
| sp_unlink_mark nm p c u a sems : a !! nm = Some (p, c, u) -> 0 < c -> nsem_spec (NUnlink (Some nm)) (a, sems) 0 (<[nm := (p, c, true)]> a, sems).

Definition nsem_exec (me : Z) (c : nsem_call) s : res (Z * nsem_sys HT) :=
  match c with
  | NOpen nm oflag value => sem_open me nm oflag value s
  | NClose sem => sem_close me sem s
  | NUnlink nm => sem_unlink me nm s
  end.

(** Names are strings of a length that fits in memory. *)
Definition good_call (c : nsem_call) : bool :=
  match c with
  | NOpen (Some nm) _ _ => bool_decide (Forall good_char nm) && (Z.of_nat (length nm) <? 2 ^ 31)
  | NUnlink (Some nm) => bool_decide (Forall good_char nm)
  | _ => true
  end.

Abbreviation sems_of s := (s_sems (ns_sems s)).

(** The count of connections is 16 bits wide: every semaphore has room for one more. *)
Definition connections_room s : bool := bool_decide (map_Forall (fun _ n => nconnect n + 1 < 2 ^ 16) (ns_nodes s)).

Definition nsem_legal (me : Z) (c : nsem_call) s : bool :=
  (0 <=? me) && good_call c && match c with NOpen _ _ _ => connections_room s | _ => true end.

(** What a call promises in a state that stands for [a]. *)
Definition nsem_post (c : nsem_call) s a (r : Z * nsem_sys HT) : Prop :=
  let '(ret, s') := r in exists a' bl', nsem_inv s' a' bl' /\ nsem_spec c (a, sems_of s) ret (a', sems_of s').

Section calls.
  Context (me : Z) (Hme : 0 <= me).

(** A field of one node changes. *)
Lemma post_update s a bl p n f :
  nsem_inv s a bl -> ns_nodes s !! p = Some n -> flink (f n) = flink n -> blink (f n) = blink n -> ns_name (f n) = ns_name n -> 0 <= nconnect (f n) < 2 ^ 16 ->
  store f p (ns_nodes s) = Ok (<[p := f n]> (ns_nodes s)) /\ nsem_inv (with_ns_nodes (<[p := f n]> (ns_nodes s)) s) (<[ns_name n := view_of p (f n)]> a) bl.
Proof.
  intros (Hh & Hl & HO) Hn H1 H2 H3 H4. pose proof (nodes_nonnull _ _ _ _ _ _ HO Hn) as Hp. split.
  - rewrite store_valid by (split; [lia|eauto]). by rewrite (alter_at f _ _ n Hn).
  - split; [done|]. split; [by eapply linked_update|by eapply nsems_update].
Qed.

Lemma sem_unlink_ok s a bl nm : nsem_inv s a bl -> good_call (NUnlink nm) = true -> wp (sem_unlink me nm s) (nsem_post (NUnlink nm) s a).
Proof.
  intros Hinv Hg. destruct nm as [nm|]; cbn [sem_unlink]; [|apply wp_ret; exists a, bl; split; [done|constructor]]. apply bool_decide_eq_true in Hg.
  apply wp_bind. eapply wp_mono; [by eapply findnamed_ok|]. intros p [[-> Ha]|(n & Hp & Hn & Hnm & Ha)].
  { rewrite decide_True by done. apply wp_ret. exists a, bl. split; [done|by constructor]. }
  rewrite decide_False by lia. rewrite (deref_Some _ _ n) by (done || lia). cbn [mbind res_bind]. pose proof (no_node _ _ _ _ (proj2 (proj2 Hinv)) p n Hn) as (_ & Hc & _).
  destruct (Z.eqb_spec (nconnect n) 0) as [E|E]; apply wp_bind.
  - eapply wp_mono; [by eapply free_nsem_ok|]. intros s' ([bl' Hi] & Hs & _). apply wp_ret. exists (delete (ns_name n) a), bl'. split; [done|]. rewrite Hs, Hnm. eapply sp_unlink_free.
    rewrite Ha. unfold view_of. by rewrite E.
  - destruct (post_update s a bl p n set_unlinked Hinv Hn) as (-> & Hi); [done..|]. cbn [mbind res_bind]. apply wp_ret, wp_ret. eexists _, bl. split; [exact Hi|]. rewrite Hnm.
    eapply sp_unlink_mark; [exact Ha|cbn; lia].
Qed.

Lemma sem_close_ok s a bl sem : nsem_inv s a bl -> wp (sem_close me sem s) (nsem_post (NClose sem) s a).
Proof.
  intros Hinv. pose proof Hinv as (_ & (l & Hq & Hl) & HO). pose proof HO as [_ _ _ _ HN HV]. unfold sem_close.
  assert (sem - NSEM_SEM ∉ l -> nsem_spec (NClose sem) (a, sems_of s) (-1) (a, sems_of s)) as Hnone.
  { intros Hni. constructor. intros nm p c u Ha ->. apply Hni. replace (p + NSEM_SEM - NSEM_SEM) with p by lia. apply HV in Ha as (q & n & Hn & _ & [= -> _ _]). apply Hl. eauto. }
  destruct (decide (sem = NULL)) as [->|Hs0].
  { apply wp_ret. exists a, bl. split; [done|]. apply Hnone. intros Hin. assert (is_Some (ns_nodes s !! (NULL - NSEM_SEM))) as [n Hn] by by apply Hl.
    pose proof (nodes_nonnull _ _ _ _ _ _ HO Hn). unfold NSEM_SEM in *. lia. }
  apply wp_bind. rewrite (dqr_head _ _ _ Hq). eapply wp_mono.
  { apply (close_search_ok _ NULL l); [apply Hq|apply Hq|]. pose proof (list_bound _ l (dqr_nodup _ _ _ Hq) Hl). unfold list_fuel. lia. }
  intros p [[-> Hni]|[Ep Hp]]; [rewrite decide_True by done; apply wp_ret; exists a, bl; split; [done|by apply Hnone]|].
  assert (is_Some (ns_nodes s !! p)) as [n Hn] by by apply Hl. pose proof (nodes_nonnull _ _ _ _ _ _ HO Hn) as Hp0. rewrite decide_False by lia.
  rewrite (deref_Some _ _ n) by (done || lia). cbn [mbind res_bind]. replace sem with (p + NSEM_SEM) by lia. destruct (HN p n Hn) as (_ & Hc & _).
  assert (a !! ns_name n = Some (p, nconnect n, unlinked n)) as Ha by (apply HV; exists p, n; done). set (c' := Z.max 0 (nconnect n - 1)).
  assert ((if negb (nconnect n =? 0) then store (set_nconnect (u16 (nconnect n - 1))) p (ns_nodes s) else Ok (ns_nodes s)) = Ok (<[p := set_nconnect c' n]> (ns_nodes s))) as ->.
  { destruct (Z.eqb_spec (nconnect n) 0) as [E|E]; cbn [negb].
    - rewrite insert_id; [done|]. rewrite Hn. f_equal. unfold set_nconnect, c'. rewrite E. destruct n. cbn in *. by rewrite E.
    - rewrite u16_id by lia. unfold c'. rewrite Z.max_r by lia. rewrite store_valid by (split; [lia|eauto]). by rewrite (alter_at _ _ _ n Hn). }
  cbn [mbind res_bind]. cbv zeta. destruct (post_update s a bl p n (set_nconnect c') Hinv Hn) as (_ & Hi); [done..|cbn; lia|]. cbn [ns_nodes with_ns_nodes].
  rewrite (deref_Some _ _ (set_nconnect c' n)) by (rewrite ?lookup_insert_eq; done || lia). cbn [mbind res_bind nconnect set_nconnect unlinked].
  destruct (unlinked n) eqn:Eu; [destruct (Z.eqb_spec c' 0) as [E0|E0]|rewrite andb_false_r]; cbn [andb]; apply wp_bind.
  - eapply wp_mono; [apply (free_nsem_ok me _ _ bl p (set_nconnect c' n) Hme Hi); cbn; by rewrite lookup_insert_eq|]. intros s' ([bl' Hi'] & Hs & _). apply wp_ret. rewrite delete_insert_eq in Hi'.
    exists (delete (ns_name n) a), bl'. split; [done|]. rewrite Hs. cbn. eapply sp_close_last; [exact Ha|lia].
  - apply wp_ret, wp_ret. eexists _, bl. split; [exact Hi|]. unfold view_of. cbn. rewrite Eu. eapply sp_close; [exact Ha|lia].
  - apply wp_ret, wp_ret. eexists _, bl. split; [exact Hi|]. unfold view_of. cbn. rewrite Eu. eapply sp_close; [exact Ha|by right].
Qed.

Lemma sem_open_ok s a bl nm oflag value :
  nsem_inv s a bl -> good_call (NOpen nm oflag value) = true -> connections_room s = true -> wp (sem_open me nm oflag value s) (nsem_post (NOpen nm oflag value) s a).
Proof.
  intros Hinv Hg Hroom. apply bool_decide_eq_true in Hroom. destruct nm as [nm|]; cbn [sem_open]; [|apply wp_ret; exists a, bl; split; [done|constructor]].
  apply andb_true_iff in Hg as [Hg%bool_decide_eq_true Hlen%Z.ltb_lt]. pose proof Hinv as (Hh & (l & Hq & Hl) & HO). pose proof HO as [_ _ _ _ HN HV].
  destruct (Z.ltb_spec 0 (Z.of_nat (length nm))) as [H0|H0].
  2: { apply wp_ret. exists a, bl. split; [done|]. constructor. destruct (a !! nm) as [v|] eqn:E; [|done]. apply HV in E as (p & n & Hn & <- & _).
       destruct (HN p n Hn) as [[Hne _] _]. by destruct (ns_name n). }
  apply wp_bind. eapply wp_mono; [by eapply findnamed_ok|]. intros p [[-> Ha]|(n & Hp & Hn & Hnm & Ha)].
  - rewrite decide_False by (intros []; done). fold (creates oflag). destruct (creates oflag) eqn:Ec; [|apply wp_ret; exists a, bl; split; [done|by constructor]].
    destruct (Z.leb_spec (u32 value) SEM_VALUE_MAX) as [Hv|Hv]; [|apply wp_ret; exists a, bl; split; [done|by constructor]].
    rewrite u32_id by (unfold SIZEOF_NSEM; lia). apply wp_bind. eapply wp_mono; [apply (kmalloc_ok me _ (ns_heap s) (bl ++ ext)); [done|unfold SIZEOF_NSEM; lia|unfold SIZEOF_NSEM; lia|done]|].
    intros [p h] [[-> Hh']|(sz & Hp & Hsz & Hh' & Hd)]; [rewrite decide_True by done; apply wp_ret; exists a, bl; split; [split; [done|]; split; [by exists l|done]|by constructor]|].
    rewrite decide_False by lia. cbn [ns_sems with_ns_heap]. unfold sem_init. rewrite decide_True by (unfold NSEM_SEM; split; [lia|done]). cbn [mbind res_bind]. cbv zeta.
    cbn [g_nsems ns_nodes with_ns_sems with_ns_heap]. set (k := NSem NULL NULL 1 nm false).
    assert (p ∉ bl.*1) as Hpb by (apply (fresh_block bl p sz); [apply HO|unfold SIZEOF_NSEM in Hsz; lia|]; intros d x Hd'; apply Hd, elem_of_app; by left).
    assert (ns_nodes s !! p = None) as Hpm by (apply eq_None_not_Some; by rewrite (no_dom _ _ _ _ HO)). assert (p ∉ l) as Hpl by (rewrite <-Hl, Hpm; by intros [? ?]).
    assert (0 <= u32 value) as Hv0 by (apply Z.mod_pos_bound; lia). rewrite s16_id by (unfold SEM_VALUE_MAX in Hv; lia).
    apply wp_bind. eapply wp_mono.
    { apply (dq_addfirst_spec (<[p := k]> (ns_nodes s)) (g_nsems s) l p); [|apply valid_insert_eq; lia|done]. destruct Hq as [Q1 Q2 Q3 Q4 Q5]. split; try done. eapply dseg_ext; [|exact Q3].
      intros y Hy. rewrite lookup_insert_ne; [done|]. by intros <-. }
    intros [q' m'] [Hq' Hf]. apply wp_ret. exists (<[nm := (p, 1, false)]> a), ((p, sz) :: bl). split; [split; [done|split]|].
    + exists (p :: l). split; [done|]. cbn. intros y. destruct Hf as [_ Hf]. specialize (Hf y). assert (is_Some (m' !! y) <-> is_Some (<[p := k]> (ns_nodes s) !! y)) as ->.
      { destruct (<[p := k]> (ns_nodes s) !! y), (m' !! y); try done; split; eauto. }
      rewrite lookup_insert_is_Some, Hl, elem_of_cons. destruct (decide (p = y)); naive_solver.
    + cbn. eapply nsems_frame; [|exact Hf]. apply (nsems_insert _ _ _ _ p sz k (u32 value) HO); try done. cbn. by destruct nm.
    + cbn. eapply sp_open_create; try done; [by destruct nm|]. intros nm' r c u Hr ->. apply HV in Hr as (r & n' & Hn' & _ & [= -> _ _]). congruence.
  - rewrite decide_True by lia. replace ((Z.land oflag O_CREAT =? 0) || (Z.land oflag O_EXCL =? 0)) with (negb (excludes oflag)).
    2: { unfold excludes, creates. by destruct (Z.land oflag O_CREAT =? 0), (Z.land oflag O_EXCL =? 0). }
    destruct (excludes oflag) eqn:Ex; cbn [negb]; [apply wp_ret; exists a, bl; split; [done|by econstructor]|].
    rewrite (deref_Some _ _ n) by (done || lia). cbn [mbind res_bind]. destruct (HN p n Hn) as (_ & Hc & _). specialize (Hroom p n Hn). cbv beta in Hroom. rewrite u16_id by lia.
    destruct (post_update s a bl p n (set_nconnect (nconnect n + 1)) Hinv Hn) as (-> & Hi); [done..|cbn; lia|].
    cbn [mbind res_bind]. apply wp_ret. eexists _, bl. split; [exact Hi|]. rewrite Hnm. by eapply sp_open_connect.
Qed.

End calls.

(** ** Sequences of calls *)

Lemma nsem_exec_ok me c s a bl : nsem_inv s a bl -> nsem_legal me c s = true -> wp (nsem_exec me c s) (nsem_post c s a).
Proof.
  intros Hinv Hl. unfold nsem_legal in Hl. rewrite !andb_true_iff in Hl. destruct Hl as [[Hme%Z.leb_le Hg] Hr].
  destruct c; [by eapply sem_open_ok|by eapply sem_close_ok|by eapply sem_unlink_ok].
Qed.

(** The values returned and the last state; [None] when a call is not legal. *)
Fixpoint nsem_run (cs : list (Z * nsem_call)) s : res (option (list Z * nsem_sys HT)) :=
  match cs with
  | [] => Ok (Some ([], s))
  | (me, c) :: cs =>
      if nsem_legal me c s then
        '(r, s) ← nsem_exec me c s;
        o ← nsem_run cs s;
        Ok (option_map (fun '(rs, s) => (r :: rs, s)) o)
      else Ok None
  end.

Inductive nspec_run : list (Z * nsem_call) -> nstate -> list Z -> nstate -> Prop :=
| nr_nil x : nspec_run [] x [] x
| nr_cons me c cs x r y rs z : nsem_spec c x r y -> nspec_run cs y rs z -> nspec_run ((me, c) :: cs) x (r :: rs) z.

(** C33: along any sequence of sem_open, sem_close and sem_unlink calls by any tasks
    in which no semaphore gets more than 65535 connections (see
    [connections_wrap] for what happens then), no call faults, and the calls do
    what [nsem_spec] says to the map from names to an address, the number of
    connections, which sem_open and sem_close count, and the mark of sem_unlink: a
    name is open under one address until its semaphore goes away, which happens
    when the name has been unlinked and the last connection is closed (or there is
    none); a new semaphore has the initial value and memory of its own; no call
    touches another semaphore.  Between calls the queue links exactly the blocks of
    the map. *)
Theorem named_semaphores_refine cs s a bl :
  nsem_inv s a bl ->
  wp (nsem_run cs s) (fun o => forall rs s', o = Some (rs, s') ->
    exists a' bl', nsem_inv s' a' bl' /\ nspec_run cs (a, sems_of s) rs (a', sems_of s')).
Proof.
  revert s a bl. induction cs as [|[me c] cs IH]; intros s a bl Hinv; cbn [nsem_run].
  { intros rs s' [= <- <-]. exists a, bl. split; [done|constructor]. }
  destruct (nsem_legal me c s) eqn:El; [|done]. apply wp_bind. eapply wp_mono; [by eapply nsem_exec_ok|].
  intros [r s1] (a1 & bl1 & Hi1 & Hs1). apply wp_bind. eapply wp_mono; [by apply (IH s1 a1 bl1)|]. intros o Ho. apply wp_ret.
  intros rs s' E. destruct o as [[rs2 s2]|]; [|done]. injection E as <- <-. destruct (Ho rs2 s2 eq_refl) as (a2 & bl2 & Hi2 & Hs2).
  exists a2, bl2. split; [done|]. by econstructor.
Qed.

End inv.

(** ** A small system *)

Definition demo_nsems : nsem_sys mm_state := sem_initialize (NSemSys mm_state ∅ dq_init demo_sys demo_heap []).

Lemma demo_nsems_inv : nsem_inv [] demo_nsems ∅ [].
Proof.
  split; [exists demo_regions; split; [apply demo_ok|]; split; [vm_compute; done|vm_compute; reflexivity]|]. split.
  - exists []. split; [apply dq_repr_nil|]. intros p. split; [by intros [? ?]|set_solver].
  - split; try done; try set_solver; [constructor|intros p; split; [by intros [? ?]|set_solver]|]. intros nm v. split; [done|by intros (p & n & ? & _)].
Qed.

(** "s" and "t" *)
Definition name_s : list Z := [115].
Definition name_t : list Z := [116].

(** The address of the first semaphore. *)
Definition demo_sem_addr : Z := match nsem_run [(1, NOpen (Some name_s) O_CREAT 2)] demo_nsems with Ok (Some ([r], _)) => r | _ => 0 end.

Definition demo_nsem_calls : list (Z * nsem_call) :=
  [(1, NOpen (Some name_s) O_CREAT 2); (2, NOpen (Some name_t) 0 0); (2, NOpen (Some name_t) O_CREAT 40000); (2, NOpen (Some name_s) O_CREAT 5);
   (2, NOpen (Some name_s) (O_CREAT + O_EXCL) 5); (1, NClose demo_sem_addr); (1, NUnlink (Some name_s)); (2, NClose demo_sem_addr); (2, NClose demo_sem_addr); (1, NUnlink (Some name_s))].

Lemma named_semaphores_refine_witness :
  (match nsem_run demo_nsem_calls demo_nsems with Ok (Some (rs, s)) => Some (rs, bool_decide (ns_nodes s = ∅)) | _ => None end)
    = Some ([demo_sem_addr; -1; -1; demo_sem_addr; -1; 0; 0; 0; -1; -1], true)
  /\ wp (nsem_run demo_nsem_calls demo_nsems) (fun o => forall rs s', o = Some (rs, s') ->
       exists a' bl', nsem_inv [] s' a' bl' /\ nspec_run demo_nsem_calls (∅, s_sems (ns_sems demo_nsems)) rs (a', s_sems (ns_sems s'))).
Proof. split; [vm_compute; reflexivity|]. apply (named_semaphores_refine [] demo_nsem_calls demo_nsems ∅ []). exact demo_nsems_inv. Defined.

(** ** Findings *)

(** The name of a semaphore that was unlinked while it is open is still found:
    sem_open connects to the old semaphore, and fails with O_EXCL. *)
Lemma unlinked_name_is_found :
  (match nsem_run [(1, NOpen (Some name_s) O_CREAT 2); (1, NUnlink (Some name_s)); (1, NOpen (Some name_s) O_CREAT 7); (1, NOpen (Some name_s) (O_CREAT + O_EXCL) 7)] demo_nsems with
   | Ok (Some (rs, s)) => Some (rs, s_sems (ns_sems s) !! demo_sem_addr) | _ => None end) = Some ([demo_sem_addr; 0; demo_sem_addr; -1], Some 2).
Proof. vm_compute. reflexivity. Qed.

(** The semaphore with 65535 connections: one more and they are counted as none,
    so that sem_unlink frees it. *)
Definition demo_full : nsem_sys mm_state :=
  match nsem_run [(1, NOpen (Some name_s) O_CREAT 2)] demo_nsems with Ok (Some (_, s)) => with_ns_nodes (set_nconnect 65535 <$> ns_nodes s) s | _ => demo_nsems end.

Lemma connections_wrap :
  (match ('(p, s) ← sem_open 1 (Some name_s) 0 0 demo_full; '(r, s) ← sem_unlink 1 (Some name_s) s; Ok (p, r, s)) with
   | Ok (p, r, s) => Some (p, r, bool_decide (ns_nodes s = ∅)) | _ => None end) = Some (demo_sem_addr, 0, true).
Proof. vm_compute. reflexivity. Qed.
