(* ===== verification/MqName.v ===== *)
(** * Message queues by name: operations (src/nuttx/sched/mq_open.c, mq_close.c, mq_unlink.c, mq_descreate.c, mq_findnamed.c, mq_msgqfree.c)

    A task opens a queue by its name and gets a descriptor of its own; the queue
    lives until its name is unlinked and its last descriptor is closed.  The
    state extends the one of [Mq]: [n_names] has the fields of struct msgq_s that
    sending and receiving do not use, [n_links] the links of the descriptors
    and of the blocks they are carved from, [n_msgdesq] the list [msgdesq] of each
    task control block (empty for a task that has opened nothing).  A descriptor
    is in [q_des] from mq_descreate until mq_close. *)

From S2P Require Import Prelude Queue Sched Sem KHeap Mq NSem.

Record msgq_name : Type := MsgqName {
  mn_flink : ptr;
  mn_nconnect : Z;
  mn_unlinked : bool;
  mn_name : list Z
}.

#[export] Program Instance msgq_name_linked : SLinked msgq_name := {
  sflink := mn_flink;
  set_sflink p n := MsgqName p (mn_nconnect n) (mn_unlinked n) (mn_name n)
}.
Solve All Obligations with done.

Definition set_mn_nconnect (c : Z) (n : msgq_name) : msgq_name := MsgqName (mn_flink n) c (mn_unlinked n) (mn_name n).
Definition set_mn_unlinked (n : msgq_name) : msgq_name := MsgqName (mn_flink n) (mn_nconnect n) true (mn_name n).

(** [sizeof(struct mq_des)], the offset of [mqdes] in struct mq_des_block_s, and
    SIZEOF_MQ_HEADER, the offset of the name in struct msgq_s. *)
Definition SIZEOF_MQ_DES : Z := 12.
Definition DES_BLOCK_MQDES : Z := 4.
Definition SIZEOF_MQ_HEADER : Z := 24.

Definition NUM_MSG_DESCRIPTORS : Z := 24.
Definition SIZEOF_MQ_DES_BLOCK : Z := DES_BLOCK_MQDES + SIZEOF_MQ_DES * NUM_MSG_DESCRIPTORS.
Definition MQ_MAX_MSGS : Z := 16.

(** The attributes that mq_open reads. *)
Record mq_attr : Type := MqAttr { mq_maxmsg : Z; mq_msgsize : Z }.

Record mqn_sys {H : Type} : Type := MqnSys {
  n_mq : mq_sys H;
  n_names : gmap Z msgq_name;
  g_msgqueues : sq_queue;
  n_links : gmap Z sq_entry;
  g_desfree : sq_queue;
  g_desalloc : sq_queue;
  n_msgdesq : gmap Z sq_queue
}.
Arguments mqn_sys H : clear implicits.

Section ops.
  Context {H : Type} {HK : KHeap H} `{SchedConfig}.
  Implicit Types (s : mqn_sys H).

Definition with_mq (x : mq_sys H) s : mqn_sys H := MqnSys H x (n_names s) (g_msgqueues s) (n_links s) (g_desfree s) (g_desalloc s) (n_msgdesq s).
Definition with_names (q : sq_queue) (m : gmap Z msgq_name) s : mqn_sys H := MqnSys H (n_mq s) m q (n_links s) (g_desfree s) (g_desalloc s) (n_msgdesq s).
Definition with_desfree (q : sq_queue) (m : gmap Z sq_entry) s : mqn_sys H := MqnSys H (n_mq s) (n_names s) (g_msgqueues s) m q (g_desalloc s) (n_msgdesq s).
Definition with_desalloc (q : sq_queue) (m : gmap Z sq_entry) s : mqn_sys H := MqnSys H (n_mq s) (n_names s) (g_msgqueues s) m (g_desfree s) q (n_msgdesq s).
Definition with_msgdesq (t : ptr) (q : sq_queue) (m : gmap Z sq_entry) s : mqn_sys H := MqnSys H (n_mq s) (n_names s) (g_msgqueues s) m (g_desfree s) (g_desalloc s) (<[t := q]> (n_msgdesq s)).

Definition with_des (m : gmap Z mq_des) (x : mq_sys H) : mq_sys H :=
  MqSys H (q_sys x) (q_msgs x) (q_msgqs x) m (g_msgfree x) (g_msgfreeirq x) (g_delayeddeallocations x) (q_heap x).

Definition n_kernel s : kernel := q_kernel (n_mq s).
Definition with_n_kernel (k : kernel) s : mqn_sys H := with_mq (with_q_kernel k (n_mq s)) s.
Definition msgdesq (t : ptr) s : sq_queue := default sq_init (n_msgdesq s !! t).

(** ** mq_initialize.c *)

Fixpoint desblock_loop (n : nat) (mqdes : ptr) (q : sq_queue) (m : gmap Z sq_entry) : res (sq_queue * gmap Z sq_entry) :=
  match n with
  | O => Ok (q, m)
  | S n =>
      '(q, m) ← sq_addlast mqdes q (<[mqdes := SqEntry NULL]> m);
      desblock_loop n (mqdes + SIZEOF_MQ_DES) q m
  end.

Definition mq_desblockalloc s : res (mqn_sys H) :=
  pid ← getpid (n_kernel s);
  '(mqdesblock, h) ← kmalloc pid SIZEOF_MQ_DES_BLOCK (q_heap (n_mq s));
  let s := with_mq (with_heap h (n_mq s)) s in
  if decide (mqdesblock = NULL) then Ok s
  else
    '(q, m) ← sq_addlast mqdesblock (g_desalloc s) (<[mqdesblock := SqEntry NULL]> (n_links s));
    let s := with_desalloc q m s in
    '(q, m) ← desblock_loop (Z.to_nat NUM_MSG_DESCRIPTORS) (mqdesblock + DES_BLOCK_MQDES) (g_desfree s) (n_links s);
    Ok (with_desfree q m s).

Definition mq_initialize s : res (mqn_sys H) :=
  let s := with_names sq_init (n_names s) s in
  x ← init_msg_pools (n_mq s);
  mq_desblockalloc (with_desalloc sq_init (n_links s) (with_mq x s)).

(** ** mq_descreate.c *)

Definition mq_desalloc s : res (ptr * mqn_sys H) :=
  '(mqdes, (q, m)) ← sq_remfirst (g_desfree s) (n_links s);
  let s := with_desfree q m s in
  if decide (mqdes = NULL) then
    s ← mq_desblockalloc s;
    '(mqdes, (q, m)) ← sq_remfirst (g_desfree s) (n_links s);
    Ok (mqdes, with_desfree q m s)
  else Ok (mqdes, s).

Definition mq_descreate (mtcb msgq : ptr) (oflags : Z) s : res (ptr * mqn_sys H) :=
  '(mqdes, s) ← mq_desalloc s;
  if decide (mqdes = NULL) then Ok (NULL, s)
  else
    m ← store (fun _ => SqEntry NULL) mqdes (n_links s);
    let s := with_mq (with_des (<[mqdes := MqDes msgq oflags]> (q_des (n_mq s))) (n_mq s)) s in
    '(q, m) ← sq_addlast mqdes (msgdesq mtcb s) m;
    Ok (mqdes, with_msgdesq mtcb q m s).

(** ** mq_findnamed.c *)

Fixpoint mq_find_loop (fuel : nat) (m : gmap Z msgq_name) (mq_name : list Z) (msgq : ptr) : res ptr :=
  match fuel with
  | O => Err FFuel
  | S fuel =>
      if decide (msgq = NULL) then Ok NULL
      else
        n ← deref m msgq;
        r ← strcmp (mq_name ++ [0]) (mn_name n ++ [0]);
        if r =? 0 then Ok msgq else mq_find_loop fuel m mq_name (mn_flink n)
  end.

Definition mq_findnamed (mq_name : list Z) s : res ptr := mq_find_loop (list_fuel (n_names s)) (n_names s) mq_name (sq_head (g_msgqueues s)).

(** ** mq_msgqfree.c *)

Fixpoint msgqfree_loop (fuel : nat) (curr : ptr) (x : mq_sys H) : res (mq_sys H) :=
  match fuel with
  | O => Err FFuel
  | S fuel =>
      if decide (curr = NULL) then Ok x
      else
        n ← deref (q_msgs x) curr;
        let next := m_next n in
        x ← mq_msgfree curr x;
        msgqfree_loop fuel next x
  end.

(** sched_free takes the memory of the queue as an entry of the list of delayed
    deallocations, like that of a message. *)
Definition mq_msgqfree (msgq : ptr) s : res (mqn_sys H) :=
  g ← deref (q_msgqs (n_mq s)) msgq;
  x ← msgqfree_loop (list_fuel (q_msgs (n_mq s))) (sq_head (msglist g)) (n_mq s);
  let x := with_msgqs (delete msgq (q_msgqs x)) x in
  x ← sched_free msgq (with_msgs (<[msgq := set_type MQ_ALLOC_DYN raw_msg]> (q_msgs x)) x);
  Ok (with_mq x (with_names (g_msgqueues s) (delete msgq (n_names s)) s)).

(** What mq_close and mq_unlink do with a queue that nothing refers to. *)
Definition discard_msgq (msgq : ptr) s : res (mqn_sys H) :=
  '(q, m) ← sq_rem msgq (g_msgqueues s) (n_names s);
  mq_msgqfree msgq (with_names q m s).

(** ** mq_open.c *)

(** The fields that mq_open writes in the zeroed memory of a new queue. *)
Definition new_msgq (attr : option mq_attr) : msgq_s :=
  match attr with
  | Some attr =>
      Msgq sq_init (s16 (mq_maxmsg attr)) 0 0 0
        (if mq_msgsize attr <=? MQ_MAX_BYTES then u8 (s16 (mq_msgsize attr)) else MQ_MAX_BYTES)
  | None => Msgq sq_init MQ_MAX_MSGS 0 0 0 MQ_MAX_BYTES
  end.

(** The queue does not exist. *)
Definition create_msgq (rtcb : ptr) (mq_name : list Z) (oflags : Z) (attr : option mq_attr) s : res (ptr * mqn_sys H) :=
  pid ← getpid (n_kernel s);
  '(msgq, h) ← kzalloc pid (u32 (SIZEOF_MQ_HEADER + Z.of_nat (length mq_name) + 1)) (q_heap (n_mq s));
  let s := with_mq (with_heap h (n_mq s)) s in
  if decide (msgq = NULL) then Ok (NULL, s)
  else
    '(mqdes, s) ← mq_descreate rtcb msgq oflags s;
    if decide (mqdes = NULL) then
      x ← sched_free msgq (with_msgs (<[msgq := set_type MQ_ALLOC_DYN raw_msg]> (q_msgs (n_mq s))) (n_mq s));
      Ok (NULL, with_mq x s)
    else
      let s := with_mq (with_msgqs (<[msgq := new_msgq attr]> (q_msgqs (n_mq s))) (n_mq s)) s in
      '(q, m) ← sq_addlast msgq (g_msgqueues s) (<[msgq := MsgqName NULL 1 false mq_name]> (n_names s));
      Ok (mqdes, with_names q m s).

(** The queue [msgq] exists. *)
Definition connect_msgq (rtcb msgq : ptr) (oflags : Z) s : res (ptr * mqn_sys H) :=
  if (Z.land oflags O_CREAT =? 0) || (Z.land oflags O_EXCL =? 0) then
    '(mqdes, s) ← mq_descreate rtcb msgq oflags s;
    if decide (mqdes = NULL) then Ok (NULL, s)
    else
      n ← deref (n_names s) msgq;
      m ← store (set_mn_nconnect (s16 (mn_nconnect n + 1))) msgq (n_names s);
      Ok (mqdes, with_names (g_msgqueues s) m s)
  else Ok (NULL, s).

(** A call between sched_lock and sched_unlock. *)
Definition locked {B} (part : mqn_sys H -> res (B * mqn_sys H)) s : res (B * mqn_sys H) :=
  k ← sched_lock (n_kernel s);
  '(r, s) ← part (with_n_kernel k s);
  '(_, k) ← sched_unlock (n_kernel s);
  Ok (r, with_n_kernel k s).

Definition open_locked (rtcb : ptr) (mq_name : list Z) (oflags : Z) (attr : option mq_attr) s : res (ptr * mqn_sys H) :=
  if 0 <? Z.of_nat (length mq_name) then
    msgq ← mq_findnamed mq_name s;
    if decide (msgq <> NULL) then connect_msgq rtcb msgq oflags s
    else if negb (Z.land oflags O_CREAT =? 0) then create_msgq rtcb mq_name oflags attr s
    else Ok (NULL, s)
  else Ok (NULL, s).

Definition mq_open (mq_name : option (list Z)) (oflags : Z) (attr : option mq_attr) s : res (ptr * mqn_sys H) :=
  let rtcb := dq_head (g_readytorun (n_kernel s)) in
  '(mqdes, s) ←
    match mq_name with
    | None => Ok (NULL, s)
    | Some mq_name => locked (open_locked rtcb mq_name oflags attr) s
    end;
  if decide (mqdes = NULL) then Ok (-1, s) else Ok (mqdes, s).

(** ** mq_close.c *)

(** The fields of the descriptor are not read after its queue was found. *)
Definition close_locked (rtcb mqdes : ptr) s : res (Z * mqn_sys H) :=
  '(q, m) ← sq_rem mqdes (msgdesq rtcb s) (n_links s);
  let s := with_msgdesq rtcb q m s in
  d ← deref (q_des (n_mq s)) mqdes;
  let msgq := d_msgq d in
  let s := with_mq (with_des (delete mqdes (q_des (n_mq s))) (n_mq s)) s in
  n ← deref (n_names s) msgq;
  m ← (if negb (mn_nconnect n =? 0) then store (set_mn_nconnect (s16 (mn_nconnect n - 1))) msgq (n_names s) else Ok (n_names s));
  let s := with_names (g_msgqueues s) m s in
  n ← deref (n_names s) msgq;
  s ← (if (mn_nconnect n =? 0) && mn_unlinked n then discard_msgq msgq s else Ok s);
  '(q, m) ← sq_addlast mqdes (g_desfree s) (n_links s);
  Ok (0, with_desfree q m s).

Definition mq_close (mqdes : ptr) s : res (Z * mqn_sys H) :=
  let rtcb := dq_head (g_readytorun (n_kernel s)) in
  if decide (mqdes = NULL) then Ok (-1, s) else locked (close_locked rtcb mqdes) s.

(** ** mq_unlink.c *)

Definition unlink_locked (mq_name : list Z) s : res (Z * mqn_sys H) :=
  msgq ← mq_findnamed mq_name s;
  if decide (msgq = NULL) then Ok (-1, s)
  else
    n ← deref (n_names s) msgq;
    s ← (if mn_nconnect n =? 0 then discard_msgq msgq s
         else m ← store set_mn_unlinked msgq (n_names s); Ok (with_names (g_msgqueues s) m s));
    Ok (0, s).

Definition mq_unlink (mq_name : option (list Z)) s : res (Z * mqn_sys H) :=
  match mq_name with
  | None => Ok (-1, s)
  | Some mq_name => locked (unlink_locked mq_name) s
  end.

End ops.
