(* ===== verification/MqNameInv.v ===== *)
(** * Message queues by name: the invariant

    [mqn_inv] ties the state to an abstract one: a map from names to queues, the
    descriptors with their owners, and the capacity and the messages of each
    queue.  The memory of the queues and of the descriptors is apart from that of
    the messages. *)

From stdpp Require Import sorting.
From S2P Require Import Prelude Queue Sched SchedInv SchedOps SchedSpec Sem SemSpec KHeap Mq MqWait MqPool MqSpec MqInit NSem NSemThm MqName.

(** ** The number of descriptors of a queue *)

Definition conns (D : gmap Z mq_des) (q : Z) : nat := size (filter (fun kv => d_msgq kv.2 = q) D).

Lemma conns_insert D d e q : D !! d = None -> conns (<[d := e]> D) q = (conns D q + if decide (d_msgq e = q) then 1 else 0)%nat.
Proof.
  intros Hd. unfold conns. case_decide as E.
  - rewrite map_filter_insert_True by done. rewrite map_size_insert_None; [lia|]. rewrite map_lookup_filter_None. by left.
  - rewrite map_filter_insert_False by done. rewrite delete_id by done. lia.
Qed.

Lemma conns_delete D d e q : D !! d = Some e -> conns D q = (conns (delete d D) q + if decide (d_msgq e = q) then 1 else 0)%nat.
Proof. intros Hd. rewrite <-(insert_delete_id D d e) at 1 by done. apply conns_insert, lookup_delete_eq. Qed.

Lemma conns_zero D q d e : conns D q = 0%nat -> D !! d = Some e -> d_msgq e <> q.
Proof. intros H0 Hd E. rewrite (conns_delete D d e q Hd), decide_True in H0 by done. lia. Qed.

(** ** The lists of descriptors *)

Inductive dplace : Type :=
| DFree
| DAlloc
| DTask (t : Z).

#[export] Instance dplace_eq_dec : EqDecision dplace.
Proof. solve_decision. Defined.

Definition dplaces : Type := dplace -> list Z.
Definition dput {A} (p : dplace) (v : A) (f : dplace -> A) : dplace -> A := fun p' => if decide (p = p') then v else f p'.

Lemma dput_eq {A} p (v : A) f : dput p v f p = v.
Proof. unfold dput. by rewrite decide_True. Qed.

Lemma dput_ne {A} p p' (v : A) f : p <> p' -> dput p v f p' = f p'.
Proof. intros. unfold dput. by rewrite decide_False. Qed.

(** Every descriptor is in one list; those of the tasks are the open ones. *)
Record des_ok (m : gmap Z sq_entry) (Q : dplace -> sq_queue) (D : gmap Z mq_des) (dp : dplaces) (db : list (Z * Z)) : Prop := DesOk {
  do_repr : forall p, sq_repr m (Q p) (dp p);
  do_disj : forall p p' x, x ∈ dp p -> x ∈ dp p' -> p = p';
  do_all : forall x, is_Some (m !! x) -> exists p, x ∈ dp p;
  do_home : forall x, is_Some (m !! x) -> exists b, b ∈ db /\ owns b x;
  do_pos : forall b, b ∈ db -> 0 < b.1;
  do_open : forall d, is_Some (D !! d) <-> exists t, d ∈ dp (DTask t)
}.

Section des.
  Context (m : gmap Z sq_entry) (Q : dplace -> sq_queue) (D : gmap Z mq_des) (dp : dplaces) (db : list (Z * Z)).
  Hypothesis HD : des_ok m Q D dp db.

Lemma des_pos x : is_Some (m !! x) -> 0 < x.
Proof. intros Hx. destruct (do_home _ _ _ _ _ HD x Hx) as (b & Hb & Ho). pose proof (do_pos _ _ _ _ _ HD b Hb). unfold owns in Ho. lia. Qed.

(** The elements of [dp p1] and [dp p2] are arranged anew. *)
Lemma des_move m' Q' D' dp' p1 p2 S :
  frame sunlink S m m' -> (forall x, x ∈ S -> x ∈ dp p1 \/ x ∈ dp p2) ->
  (forall p, p <> p1 -> p <> p2 -> dp' p = dp p /\ Q' p = Q p) ->
  (forall x, x ∈ dp' p1 \/ x ∈ dp' p2 <-> x ∈ dp p1 \/ x ∈ dp p2) -> (forall x, x ∈ dp' p1 -> x ∈ dp' p2 -> p1 = p2) ->
  sq_repr m' (Q' p1) (dp' p1) -> sq_repr m' (Q' p2) (dp' p2) ->
  (forall d, is_Some (D' !! d) <-> exists t, d ∈ dp' (DTask t)) -> des_ok m' Q' D' dp' db.
Proof.
  intros Hf HS Ho Hsub Hdis H1 H2 HD'. pose proof HD as [A B C E F G].
  assert (forall x, is_Some (m' !! x) -> is_Some (m !! x)) as Hs by (intros x [n Hn]; destruct (frame_lookup_inv _ _ _ _ _ _ Hf Hn) as (k & Hk & _); eauto).
  assert (forall p x, x ∈ dp' p -> p <> p1 -> p <> p2 -> x ∈ dp p) as Hold by (intros p x Hx N1 N2; by rewrite <-(proj1 (Ho p N1 N2))).
  assert (forall p x, x ∈ dp' p -> p = p1 \/ p = p2 -> x ∈ dp p1 \/ x ∈ dp p2) as Hnew by (intros p x Hx [->| ->]; apply Hsub; auto).
  split; try done.
  - intros p. destruct (decide (p = p1)) as [->|N1]; [done|]. destruct (decide (p = p2)) as [->|N2]; [done|]. destruct (Ho p N1 N2) as [-> ->].
    eapply sq_repr_frame; [exact Hf| |apply A]. intros x Hx Hx'. destruct (HS x Hx) as [Hy|Hy]; [apply N1|apply N2]; by eapply B.
  - intros p p' x Hx Hx'. destruct (decide (p = p1 \/ p = p2)) as [Hp|Hp], (decide (p' = p1 \/ p' = p2)) as [Hp'|Hp'].
    + destruct Hp as [->| ->], Hp' as [->| ->]; try done; [by apply (Hdis x)|symmetry; by apply (Hdis x)].
    + exfalso. pose proof (Hold p' x Hx' ltac:(tauto) ltac:(tauto)) as Hy. destruct (Hnew p x Hx Hp) as [Hz|Hz]; [apply Hp'; left|apply Hp'; right]; by eapply B.
    + exfalso. pose proof (Hold p x Hx ltac:(tauto) ltac:(tauto)) as Hy. destruct (Hnew p' x Hx' Hp') as [Hz|Hz]; [apply Hp; left|apply Hp; right]; by eapply B.
    + eapply B; apply Hold; (done || tauto).
  - intros x Hx. destruct (C x (Hs x Hx)) as [p Hp]. destruct (decide (p = p1 \/ p = p2)) as [H12|H12].
    + destruct (proj2 (Hsub x)) as [?|?]; [destruct H12; subst; auto|eauto|eauto].
    + exists p. rewrite (proj1 (Ho p ltac:(tauto) ltac:(tauto))). done.
  - intros x Hx. by apply E, Hs.
Qed.

End des.

(** ** A new block of descriptors *)

Fixpoint daddrs (x : Z) (n : nat) : list Z :=
  match n with
  | O => []
  | S n => x :: daddrs (x + SIZEOF_MQ_DES) n
  end.

Lemma elem_of_daddrs y x n : y ∈ daddrs x n -> x <= y < x + SIZEOF_MQ_DES * Z.of_nat n.
Proof.
  revert x. induction n as [|n IH]; intros x; simpl; [set_solver|]. rewrite elem_of_cons. unfold SIZEOF_MQ_DES in *.
  intros [->|Hy]; [lia|]. specialize (IH _ Hy). lia.
Qed.

Lemma daddrs_length x n : length (daddrs x n) = n.
Proof. revert x. induction n as [|n IH]; intros x; simpl; [done|by rewrite IH]. Qed.

(** The links that a step may write or create. *)
Definition links_within (S N : list Z) (m m' : gmap Z sq_entry) : Prop :=
  (forall y, y ∉ S -> y ∉ N -> m' !! y = m !! y) /\ (forall y, is_Some (m' !! y) <-> is_Some (m !! y) \/ y ∈ N).

Lemma links_trans S N1 N2 m1 m2 m3 : links_within S N1 m1 m2 -> links_within (S ++ N1) N2 m2 m3 -> links_within S (N1 ++ N2) m1 m3.
Proof.
  intros [A B] [A' B']. split.
  - intros y H1. rewrite not_elem_of_app. intros [H2 H3]. rewrite A' by (done || set_solver). by apply A.
  - intros y. rewrite B', B, elem_of_app. tauto.
Qed.

(** A new entry at the end of a list. *)
Lemma link_new_ok m q l x :
  sq_repr m q l -> 0 < x -> x ∉ l ->
  wp (sq_addlast x q (<[x := SqEntry NULL]> m)) (fun '(q', m') => sq_repr m' q' (l ++ [x]) /\ links_within l [x] m m').
Proof.
  intros Hr Hx Hxl. eapply wp_mono; [apply (sq_addlast_spec (<[x := SqEntry NULL]> m) q l x)|].
  { destruct Hr as [A B C D E]. split; try done. eapply sseg_ext; [|exact C]. intros y Hy. apply lookup_insert_ne. by intros <-. }
  { apply valid_insert_eq. lia. } { done. }
  intros [q' m'] [Hr' [Hf1 Hf2]]. split; [done|]. split.
  - intros y H1 H2. rewrite Hf1 by set_solver. apply lookup_insert_ne. set_solver.
  - intros y. specialize (Hf2 y). rewrite list_elem_of_singleton. assert (is_Some (m' !! y) <-> is_Some (<[x := SqEntry NULL]> m !! y)) as ->.
    { destruct (m' !! y), (<[x := SqEntry NULL]> m !! y); try done; split; eauto. }
    rewrite lookup_insert_is_Some. destruct (decide (x = y)); naive_solver.
Qed.

Lemma desblock_loop_ok n x q m l :
  0 < x -> sq_repr m q l -> (forall y, y ∈ l -> y < x \/ x + SIZEOF_MQ_DES * Z.of_nat n <= y) ->
  wp (desblock_loop n x q m) (fun '(q', m') => sq_repr m' q' (l ++ daddrs x n) /\ links_within l (daddrs x n) m m').
Proof.
  revert x q m l. induction n as [|n IH]; intros x q m l Hx Hr Hl; cbn [desblock_loop daddrs].
  { rewrite app_nil_r. apply wp_ret. split; [done|]. split; [done|]. set_solver. }
  unfold SIZEOF_MQ_DES in Hl. assert (x ∉ l) as Hxl by (intros Hin; specialize (Hl _ Hin); lia).
  apply wp_bind. eapply wp_mono; [by apply link_new_ok|]. intros [q1 m1] [Hr1 Hw1].
  eapply wp_mono; [apply (IH _ q1 m1 (l ++ [x])); [unfold SIZEOF_MQ_DES; lia|done|]|].
  { intros y. unfold SIZEOF_MQ_DES. rewrite elem_of_app, list_elem_of_singleton. intros [Hy| ->]; [specialize (Hl _ Hy)|]; lia. }
  intros [q' m'] [Hr' Hw']. rewrite <-app_assoc in Hr'. split; [done|]. by apply (links_trans l [x] _ m m1 m').
Qed.

Lemma sq_repr_links (m m' : gmap Z sq_entry) q l S N : links_within S N m m' -> (forall x, x ∈ l -> x ∉ S /\ x ∉ N) -> sq_repr m q l -> sq_repr m' q l.
Proof. intros [A _] Hl [B C D E F]. split; try done. eapply sseg_ext; [|exact D]. intros y Hy. destruct (Hl y Hy). by apply A. Qed.

(** The descriptors [new] of the new block [b] join the free ones. *)
Lemma des_grow m Q D dp db b sz m' Q' new :
  des_ok m Q D dp db -> 0 < b -> (forall x, x ∈ b :: new -> owns (b, sz) x) -> b ∉ new -> (forall d x, d ∈ db -> owns (b, sz) x -> ~ owns d x) ->
  links_within (dp DAlloc ++ dp DFree) (b :: new) m m' ->
  sq_repr m' (Q' DFree) (dp DFree ++ new) -> sq_repr m' (Q' DAlloc) (dp DAlloc ++ [b]) -> (forall t, Q' (DTask t) = Q (DTask t)) ->
  des_ok m' Q' D (dput DFree (dp DFree ++ new) (dput DAlloc (dp DAlloc ++ [b]) dp)) ((b, sz) :: db).
Proof.
  intros [A B C E F G] Hb Hown Hbn Hd [W1 W2] HrF HrA HQ.
  assert (forall p x, x ∈ dp p -> is_Some (m !! x)) as Hv by (intros p x Hx; by apply (sq_repr_valid _ _ _ _ (A p) Hx)).
  assert (forall x, x ∈ b :: new -> m !! x = None) as Hfr.
  { intros x Hx. destruct (m !! x) as [n|] eqn:Ex; [|done]. destruct (E x ltac:(eauto)) as (c & Hc & Ho). by destruct (Hd c x Hc (Hown x Hx)). }
  set (dp' := dput DFree _ _). assert (forall p x, x ∈ dp' p <-> x ∈ dp p \/ (p = DFree /\ x ∈ new) \/ (p = DAlloc /\ x = b)) as Hin.
  { intros p x. unfold dp', dput. repeat case_decide; subst; rewrite ?elem_of_app, ?list_elem_of_singleton; naive_solver. }
  assert (forall p x, x ∈ b :: new -> x ∉ dp p) as Hno by (intros p x Hx Hp; destruct (Hv p x Hp); rewrite Hfr in *; done).
  split.
  - intros p. unfold dp', dput. repeat case_decide; subst; try done. destruct p as [| |t]; try done. rewrite HQ. eapply sq_repr_links; [by split| |apply A].
    intros x Hx. split; [|intros Hn; by apply (Hno (DTask t) x)]. rewrite not_elem_of_app. split; intros Hc; by discriminate (B _ _ _ Hx Hc).
  - assert (forall p x, x ∈ dp' p -> x ∈ b :: new -> p = if decide (x = b) then DAlloc else DFree) as Hw.
    { intros p x [Hx|[[-> Hx]|[-> ->]]]%Hin Hn; [by destruct (Hno p x Hn)|rewrite decide_False; [done|by intros ->]|by rewrite decide_True]. }
    intros p p' x Hx Hx'. destruct (decide (x ∈ b :: new)) as [Hn|Hn]; [by rewrite (Hw p x Hx Hn), (Hw p' x Hx' Hn)|].
    apply not_elem_of_cons in Hn as [Hn1 Hn2]. apply Hin in Hx, Hx'. eapply (B p p' x); naive_solver.
  - intros x Hx. apply W2 in Hx as [Hx|[->|Hx]%elem_of_cons]; [destruct (C x Hx) as [p Hp]; exists p|exists DAlloc|exists DFree]; apply Hin; auto.
  - intros x Hx. apply W2 in Hx as [Hx|Hx]; [destruct (E x Hx) as (c & Hc & Ho); exists c; split; [by right|done]|exists (b, sz); split; [by left|by apply Hown]].
  - intros c [->|Hc]%elem_of_cons; [done|by apply F].
  - intros d. rewrite G. apply exist_proper. intros t. rewrite Hin. naive_solver.
Qed.
