(* ===== verification/MqNameMem.v ===== *)
(** * Message queues by name: queues come and go

    What the calls by name do to the state of sending and receiving: blocks are
    taken from the heap and given back, a queue is added or dropped with its
    messages, and the descriptors change. *)

From stdpp Require Import sorting.
From S2P Require Import Prelude Queue Sched SchedInv SchedOps SchedSpec Sem SemSpec KHeap Mq MqWait MqPool MqSpec MqInit MqName.

Section mem.
  Context {HT : Type} {HK : KHeap HT} {HKS : KHeapSpec HT} {SC : SchedConfig}.
  Implicit Types (x : mq_sys HT) (E : list (Z * Z)).

(** The state of [Mq] when the blocks [E] of the heap belong to others. *)
Definition mq_at E (idle : Z) x (a : asched) (pl : places) : Prop := mq_state (HKS := framed E) idle x a pl /\ pl PHeld = [].

(** ** Blocks of the heap *)

(** The heap and what belongs to others change. *)
Lemma mq_at_heap E E' idle x a pl h' :
  mq_at E idle x a pl -> (forall bl, heap_rep None (q_heap x) (bl ++ E) -> heap_rep None h' (bl ++ E')) -> mq_at E' idle (with_heap h' x) a pl.
Proof.
  intros [(Hr & HI & [[A B C D L Al Lv (bl & blk & Hh & Hhm)] HQ HW HD]) Hheld] Hrep. split; [|done]. split; [done|]. split; [done|]. split; try done.
  split; try done. exists bl, blk. split; [by apply Hrep|done].
Qed.

(** What the two ways to allocate promise for a block of others. *)
Definition taken_post E idle x a pl (size : Z) (r : ptr * HT) : Prop :=
  let '(p, h') := r in
  (p = NULL /\ mq_at E idle (with_heap h' x) a pl)
  \/ exists sz, 0 < p /\ size <= sz /\ mq_at ((p, sz) :: E) idle (with_heap h' x) a pl /\ (forall d y, d ∈ E -> owns (p, sz) y -> ~ owns d y).

Lemma taken_ok E idle x a pl size (alloc : res (ptr * HT)) :
  mq_at E idle x a pl ->
  (forall bl, heap_rep None (q_heap x) bl -> wp alloc (fun '(p, h') =>
      (p = NULL /\ heap_rep None h' bl)
      \/ exists s, 0 < p /\ size <= s /\ heap_rep None h' ((p, s) :: bl) /\ (forall d y, d ∈ bl -> owns (p, s) y -> ~ owns d y))) ->
  wp alloc (taken_post E idle x a pl size).
Proof.
  intros [(Hr & HI & [[A B C D L Al Lv (bl & blk & Hh & Hhm)] HQ HW HD]) Hheld] Halloc. eapply wp_mono; [apply (Halloc (bl ++ E) Hh)|].
  intros [p h'] [[-> Hh']|(s & Hp & Hs & Hh' & Hd)]; [left; split; [done|]|right; exists s; split; [done|]; split; [done|]; split].
  - split; [|done]. split; [done|]. split; [done|]. split; try done. split; try done. by exists bl, blk.
  - split; [|done]. split; [done|]. split; [done|]. split; try done. split; try done. exists bl, blk. split; [|done].
    apply (@heap_perm HT HK HKS None h' ((p, s) :: bl ++ E)); [|exact Hh']. apply Permutation_middle.
  - intros d y Hy. apply Hd, elem_of_app. by right.
Qed.

Lemma take_block_ok E idle x a pl size :
  mq_at E idle x a pl -> 0 < size -> size + 23 < 2 ^ 32 -> wp (kmalloc (a_pid a (arun a)) size (q_heap x)) (taken_post E idle x a pl size).
Proof. intros HM H0 H1. apply taken_ok; [done|]. intros bl Hbl. apply kmalloc_ok; try done. apply (getpid_ok (HKS := framed E) _ _ _ _ (proj1 HM)). Qed.

Lemma take_zeroed_ok E idle x a pl size :
  mq_at E idle x a pl -> 0 < size -> size + 23 < 2 ^ 32 -> wp (kzalloc (a_pid a (arun a)) size (q_heap x)) (taken_post E idle x a pl size).
Proof. intros HM H0 H1. apply taken_ok; [done|]. intros bl Hbl. apply kzalloc_ok; try done. apply (getpid_ok (HKS := framed E) _ _ _ _ (proj1 HM)). Qed.

(** The block of a queue becomes an entry of the list of delayed deallocations. *)
Lemma adopt_ok E idle x a pl p sz :
  mq_at ((p, sz) :: E) idle x a pl -> 0 < p -> 0 < sz ->
  let x' := with_msgs (<[p := set_type MQ_ALLOC_DYN raw_msg]> (q_msgs x)) x in
  mq_state (HKS := framed E) idle x' a (put PHeld [p] pl) /\ queues_kept x x' pl (put PHeld [p] pl).
Proof.
  intros [(Hr & HI & HO) Hheld] Hp Hsz x'. pose proof HO as [HP HQ HW HD]. pose proof HP as [_ _ _ _ _ _ _ (bl & blk & Hh & Hhm)].
  assert (heap_rep None (q_heap x) ((p, sz) :: bl ++ E)) as Hh' by (apply (@heap_perm HT HK HKS None _ (bl ++ (p, sz) :: E)); [symmetry; apply Permutation_middle|exact Hh]).
  destruct (pool_adopt (HKS := framed E) (framed ((p, sz) :: E)) (q_msgs x) (heads x) (q_heap x) (q_heap x) pl p sz bl blk) as [Ep HP']; try done.
  { intros d Hd. apply (heap_apart _ _ _ _ Hh' d p); [apply elem_of_app; by left|unfold owns; simpl; lia]. }
  assert (queues_kept x x' pl (put PHeld [p] pl)) as Hk.
  { split; [intros q; by rewrite put_ne|]. split; [|done]. intros q y Hy. unfold mdata. simpl. rewrite lookup_insert_ne; [done|]. intros <-.
    destruct (po_valid _ _ _ _ HP _ _ Hy) as [_ [n En]]. congruence. }
  split; [|done]. split; [done|]. split; [done|]. destruct Hk as (K1 & K2 & _). split; [|clear HP'|done|done].
  - eapply pool_ext; [|done|exact HP']. by intros [].
  - intros q g Hg. rewrite put_ne by done. eapply queue_ok_ext; [|by apply HQ]. intros y Hy. rewrite !mprio_mdata. by rewrite (K2 q y Hy).
Qed.

(** The block is freed, now or later. *)
Lemma free_block_ok E idle x a pl p sz :
  mq_at ((p, sz) :: E) idle x a pl -> 0 < p -> 0 < sz ->
  wp (sched_free p (with_msgs (<[p := set_type MQ_ALLOC_DYN raw_msg]> (q_msgs x)) x)) (fun x' => exists pl', mq_at E idle x' a pl' /\ queues_kept x x' pl pl').
Proof.
  intros HM Hp Hsz. destruct (adopt_ok E idle x a pl p sz HM Hp Hsz) as [HM1 Hk1].
  eapply wp_mono; [apply (sched_free_ok (HKS := framed E) idle _ a _ p (set_type MQ_ALLOC_DYN raw_msg) HM1); [by rewrite put_eq|simpl; by rewrite lookup_insert_eq|done]|].
  intros x' (pl' & HM' & Hh' & Hk'). exists pl'. split; [by split|]. by eapply kept_trans.
Qed.

(** ** The messages of a queue are freed *)

(** mq_msgfree does not look at the queues. *)
Lemma msgfree_msgqs gs c x : mq_msgfree c (with_msgqs gs x) = (x' ← mq_msgfree c x; Ok (with_msgqs gs x')).
Proof.
  unfold mq_msgfree, sched_free. cbn [q_msgs with_msgqs g_msgfree g_msgfreeirq g_delayeddeallocations q_heap].
  change (q_kernel (with_msgqs gs x)) with (q_kernel x). destruct (deref (q_msgs x) c) as [n|]; [cbn [mbind res_bind]|done].
  destruct (m_type n =? MQ_ALLOC_FIXED); [by destruct (sq_addlast _ (g_msgfree x) _) as [[]|]|].
  destruct (m_type n =? MQ_ALLOC_IRQ); [by destruct (sq_addlast _ (g_msgfreeirq x) _) as [[]|]|].
  destruct (m_type n =? MQ_ALLOC_DYN); [|done].
  destruct (k_interrupt (q_kernel x)); [by destruct (sq_addlast _ (g_delayeddeallocations x) _) as [[]|]|].
  destruct (getpid (q_kernel x)) as [pid|]; [cbn [mbind res_bind]|done].
  destruct (kmm_trysemaphore pid (q_heap x)) as [[] h]; [|by destruct (sq_addlast _ (g_delayeddeallocations x) _) as [[]|]].
  destruct (kfree pid c h) as [h1|]; [cbn [mbind res_bind]|done]. by destruct (kmm_givesemaphore pid h1).
Qed.

Lemma msgfree_msgqs_wp gs c x P : wp (mq_msgfree c (with_msgqs gs x)) P -> wp (mq_msgfree c x) (fun x' => P (with_msgqs gs x') /\ q_msgqs x' = q_msgqs x).
Proof.
  intros Hw. rewrite msgfree_msgqs in Hw. pose proof (msgfree_msgqs (q_msgqs x) c x) as E.
  replace (with_msgqs (q_msgqs x) x) with x in E by by destruct x. destruct (mq_msgfree c x) as [x'|]; [|done]. split; [exact Hw|].
  injection E as E. by rewrite E.
Qed.

(** The first message of a queue is taken; the memory does not change. *)
Lemma grab_ok (K : KHeapSpec HT) idle x a pl gs q g c l :
  mq_state (HKS := K) idle (with_msgqs gs x) a pl -> pl PHeld = [] -> gs !! q = Some g -> pl (PQueue q) = c :: l ->
  sq_head (msglist g) = c /\ valid (q_msgs x) c /\ (forall n, q_msgs x !! c = Some n -> m_next n = hdp NULL l)
  /\ exists g', sq_head (msglist g') = hdp NULL l /\ nwaitnotempty g' = nwaitnotempty g /\ nwaitnotfull g' = nwaitnotfull g
     /\ mq_state (HKS := K) idle (with_msgqs (<[q := g']> gs) x) a (put PHeld [c] (put (PQueue q) l pl)).
Proof.
  intros HM Hh Hq Hl. pose proof HM as (_ & _ & HO). pose proof (mo_pool _ _ _ HO) as HP.
  assert (heads (with_msgqs gs x) (PQueue q) = Some (msglist g)) as Hhd by (simpl; by rewrite Hq).
  pose proof (po_repr _ _ _ _ HP _ _ Hhd) as Hr. rewrite Hl in Hr. cbn [q_msgs with_msgqs] in Hr. pose proof Hr as [R1 R2 R3 R4 R5].
  destruct R3 as [(n & En & Fn) Hs]. split; [done|]. split; [by eapply sq_repr_valid; [|left]|].
  split; [intros n' En'; assert (n' = n) as -> by congruence; done|].
  set (q2 := SqQueue (hdp NULL l) (lastp NULL l)).
  assert (sq_repr (q_msgs x) q2 l) as Hr2 by (apply NoDup_cons in R4 as [_ R4]; split; try done; set_solver).
  pose proof (took_state (HKS := K) idle (with_msgqs gs x) a pl q g q2 (q_msgs x) HM Hq (frame_refl _ _ _)) as Ht. rewrite Hl in Ht. cbv zeta in Ht.
  cbn [take tail] in Ht. eexists. split; [|split; [|split; [|apply Ht]]]; try done.
  apply (pool_move (HKS := K) (q_msgs x) (q_msgs x) (heads (with_msgqs gs x)) _ _ pl _ [] (PQueue q) PHeld HP (frame_refl _ _ _)).
  - set_solver.
  - intros p H1 H2. by rewrite !put_ne, qput_ne.
  - intros y. rewrite put_eq, put_ne, put_eq by done. rewrite Hl, Hh. set_solver.
  - intros _ y. rewrite put_eq, put_ne, put_eq by done. apply NoDup_cons in R4 as [R4 _]. set_solver.
  - intros p q' [->| ->]; [|done]. rewrite qput_eq, put_ne, put_eq by done. by intros [= <-].
  - intros p [->| ->] Hp; [rewrite qput_eq; eauto|done].
  - intros p y n' [->| ->]; [rewrite put_ne, put_eq by done|rewrite put_eq]; intros Hy; apply (po_type _ _ _ _ HP (PQueue q)); rewrite Hl; set_solver.
Qed.

(** What freeing the messages of [q] leaves of the others. *)
Definition others_kept (q : Z) x x' (pl pl' : places) : Prop :=
  (forall q', q' <> q -> pl' (PQueue q') = pl (PQueue q') /\ forall y, y ∈ pl (PQueue q') -> mdata (q_msgs x') y = mdata (q_msgs x) y)
  /\ q_kernel x' = q_kernel x /\ q_des x' = q_des x.

Lemma msgqfree_loop_ok (K : KHeapSpec HT) fuel idle x a pl gs q g :
  mq_state (HKS := K) idle (with_msgqs gs x) a pl -> pl PHeld = [] -> gs !! q = Some g -> (length (pl (PQueue q)) < fuel)%nat ->
  wp (msgqfree_loop fuel (sq_head (msglist g)) x) (fun x' => exists g' pl',
    mq_state (HKS := K) idle (with_msgqs (<[q := g']> gs) x') a pl' /\ pl' PHeld = [] /\ pl' (PQueue q) = [] /\ q_msgqs x' = q_msgqs x /\ others_kept q x x' pl pl').
Proof.
  revert x pl gs g. induction fuel as [|fuel IH]; intros x pl gs g HM Hh Hq Hf; [lia|]. cbn [msgqfree_loop]. destruct (pl (PQueue q)) as [|c l] eqn:El.
  - pose proof HM as (_ & _ & HO). assert (heads (with_msgqs gs x) (PQueue q) = Some (msglist g)) as Hhd by (simpl; by rewrite Hq).
    rewrite (sqr_head _ _ _ (po_repr _ _ _ _ (mo_pool _ _ _ HO) _ _ Hhd)), El. rewrite decide_True by done. apply wp_ret. exists g, pl.
    rewrite insert_id by done. done.
  - destruct (grab_ok K idle x a pl gs q g c l HM Hh Hq El) as (-> & Hv & Hn & g1 & Hg1 & W1 & W2 & HM1).
    rewrite decide_False by (by eapply valid_ne). apply wp_bind, wp_deref_valid; [done|]. intros n En. cbv zeta. rewrite (Hn n En), <-Hg1.
    apply wp_bind. eapply wp_mono.
    { apply (msgfree_msgqs_wp (<[q := g1]> gs)), (msgfree_ok (HKS := K) idle _ a _ c HM1). by rewrite put_eq. }
    intros x1 [(pl1 & HM2 & Hh2 & K1 & K2 & K3 & _ & K5) Eg]. eapply wp_mono.
    { apply (IH x1 pl1 (<[q := g1]> gs) g1 HM2 Hh2); [by rewrite lookup_insert_eq|]. rewrite K1, put_ne, put_eq by done. simpl in Hf. lia. }
    intros x' (g' & pl' & HM' & Hh' & Hq' & Eg' & K1' & K2' & K3'). exists g', pl'. rewrite insert_insert_eq in HM'. split; [done|]. split; [done|]. split; [done|].
    split; [congruence|]. split; [|split; [rewrite K2'; exact K3|rewrite K3'; exact K5]]. intros q' Hne. destruct (K1' q' Hne) as [E1 E2].
    assert (pl1 (PQueue q') = pl (PQueue q')) as E3 by (rewrite K1, !put_ne by congruence; done). split; [congruence|]. intros y Hy.
    rewrite E2 by (by rewrite E3). apply (K2 q'). by rewrite !put_ne by congruence.
Qed.

(** ** Queues and descriptors come and go *)

Lemma parked_alive gs a l q y : waits_ok gs a -> parked l -> y ∈ mqw l q a -> is_Some (gs !! q).
Proof. intros HW Hl [<- Hy]%list_elem_of_filter. by apply (wk_waits _ _ HW l y). Qed.

Lemma drop_queue_ok (K : KHeapSpec HT) idle x a pl q :
  mq_state (HKS := K) idle x a pl -> pl (PQueue q) = [] -> (forall l, parked l -> mqw l q a = []) -> (forall d e, q_des x !! d = Some e -> d_msgq e <> q) ->
  mq_state (HKS := K) idle (with_msgqs (delete q (q_msgqs x)) x) a pl.
Proof.
  intros (Hr & HI & [[A B C D L Al Lv Hh] HQ [W1 W2 W3 W4] HD]) Hpl Hw Hdes. split; [done|]. split; [done|]. split.
  - split; try done.
    + intros p k. destruct p as [| | | |q']; [exact (A PFree k)|exact (A PIrq k)|exact (A PDelayed k)|done|]. simpl. destruct (decide (q = q')) as [<-|Hne]; [by rewrite lookup_delete_eq|].
      rewrite lookup_delete_ne by done. apply (A (PQueue q')).
    + intros p Hp. destruct p as [| | | |q']; [done..|]. simpl. destruct (decide (q = q')) as [<-|Hne]; [done|].
      rewrite lookup_delete_ne by done. by apply (Lv (PQueue q')).
  - intros q' g. simpl. rewrite lookup_delete_Some. intros [Hne Hg]. by apply HQ.
  - simpl. split; try done.
    + intros l q' g Hl. rewrite lookup_delete_Some. intros [Hne Hg]. by apply W1.
    + intros l y Hl Hy. rewrite lookup_delete_ne; [by apply (W2 l)|]. intros E. specialize (Hw l Hl). assert (y ∈ mqw l q a) as Hin by by apply list_elem_of_filter.
      rewrite Hw in Hin. set_solver.
  - intros d e He. simpl in *. rewrite lookup_delete_ne; [by apply (HD d)|]. symmetry. by apply (Hdes d).
Qed.

(** A queue without messages and waiters. *)
Definition fresh_msgq (g : msgq_s) : Prop := msglist g = sq_init /\ nmsgs g = 0 /\ nwaitnotfull g = 0 /\ nwaitnotempty g = 0 /\ 0 <= maxmsgsize g <= MQ_MAX_BYTES.

Lemma add_queue_ok (K : KHeapSpec HT) idle x a pl q g :
  mq_state (HKS := K) idle x a pl -> q_msgqs x !! q = None -> q <> NULL -> fresh_msgq g ->
  mq_state (HKS := K) idle (with_msgqs (<[q := g]> (q_msgqs x)) x) a pl.
Proof.
  intros (Hr & HI & [[A B C D L Al Lv Hh] HQ HW HD]) Hq H0 (G1 & G2 & G3 & G4 & G5). pose proof HW as [W1 W2 W3 W4].
  assert (pl (PQueue q) = []) as Hpl by (apply Lv; [done|simpl; by rewrite Hq]). split; [done|]. split; [done|]. split.
  - split; try done.
    + intros p k. destruct p as [| | | |q']; [exact (A PFree k)|exact (A PIrq k)|exact (A PDelayed k)|done|]. simpl. rewrite lookup_insert. case_decide as E; [|apply (A (PQueue q'))].
      subst q'. intros [= <-]. rewrite G1, Hpl. apply sq_repr_nil.
    + intros p Hp. destruct p as [| | | |q']; [done..|]. simpl. rewrite lookup_insert. case_decide; [done|]. by apply (Lv (PQueue q')).
  - intros q' g'. simpl. rewrite lookup_insert. case_decide as E; [|by apply HQ]. subst q'. intros [= <-]. rewrite Hpl. split; [done|rewrite G2; done|constructor|done].
  - simpl. split; try done.
    + intros l q' g' Hl. rewrite lookup_insert. case_decide as E; [|by apply W1]. subst q'. intros [= <-]. split; [done|].
      assert (mqw l q a = []) as ->. { destruct (mqw l q a) as [|y w] eqn:Ew; [done|]. destruct (parked_alive _ _ l q y HW Hl) as [? ?]; [rewrite Ew; left|congruence]. }
      by destruct Hl; simpl; rewrite ?G3, ?G4.
    + intros l y Hl Hy. rewrite lookup_insert_is_Some'. right. by apply (W2 l).
  - intros d e He. simpl in *. rewrite lookup_insert_is_Some'. right. by apply (HD d).
Qed.

Lemma des_change_ok (K : KHeapSpec HT) idle x a pl D :
  mq_state (HKS := K) idle x a pl -> (forall d e, D !! d = Some e -> is_Some (q_msgqs x !! d_msgq e)) -> mq_state (HKS := K) idle (with_des D x) a pl.
Proof. intros (Hr & HI & [A B C D']) HD. split; [done|]. split; [done|]. by split. Qed.

Lemma kept_contents (K K' : KHeapSpec HT) idle x x' a pl pl' q :
  mq_state (HKS := K) idle x a pl -> mq_state (HKS := K') idle x' a pl' -> (is_Some (q_msgqs x !! q) <-> is_Some (q_msgqs x' !! q)) ->
  pl' (PQueue q) = pl (PQueue q) -> (forall y, y ∈ pl (PQueue q) -> mdata (q_msgs x') y = mdata (q_msgs x) y) -> mq_contents x' q = mq_contents x q.
Proof.
  intros (_ & _ & HO) (_ & _ & HO') Hi Hp Hd. destruct (q_msgqs x !! q) as [g|] eqn:Eq.
  - destruct (proj1 Hi ltac:(eauto)) as [g' Eq']. rewrite (contents_eq (HKS := K) x a pl q g), (contents_eq (HKS := K') x' a pl' q g') by done. rewrite Hp.
    apply list_fmap_ext. intros i y Hy. apply Hd. by eapply list_elem_of_lookup_2.
  - unfold mq_contents. rewrite Eq. destruct (q_msgqs x' !! q) eqn:Eq'; [|done]. destruct (proj2 Hi ltac:(eauto)) as [? ?]. done.
Qed.

(** ** mq_msgqfree *)

Lemma msgqfree_ok E idle (s : mqn_sys HT) a pl q sz :
  mq_at ((q, sz) :: E) idle (n_mq s) a pl -> 0 < q -> 0 < sz -> is_Some (q_msgqs (n_mq s) !! q) ->
  (forall l, parked l -> mqw l q a = []) -> (forall d e, q_des (n_mq s) !! d = Some e -> d_msgq e <> q) ->
  wp (mq_msgqfree q s) (fun s' => exists x' pl', s' = with_mq x' (with_names (g_msgqueues s) (delete q (n_names s)) s) /\ mq_at E idle x' a pl'
    /\ q_msgqs x' = delete q (q_msgqs (n_mq s)) /\ q_des x' = q_des (n_mq s) /\ q_kernel x' = q_kernel (n_mq s)
    /\ forall q', q' <> q -> mq_contents x' q' = mq_contents (n_mq s) q').
Proof.
  set (x := n_mq s). intros [HM Hh] Hq Hsz [g Hg] Hw Hdes. unfold mq_msgqfree. fold x. rewrite (deref_Some _ _ g) by (done || lia). cbn [mbind res_bind]. apply wp_bind.
  assert (x = with_msgqs (q_msgqs x) x) as Ex by by destruct x. rewrite Ex in HM. pose proof HM as (_ & _ & HO).
  assert (heads x (PQueue q) = Some (msglist g)) as Hhd by (simpl; by rewrite Hg). rewrite Ex in Hhd.
  pose proof (sq_repr_length _ _ _ (po_repr _ _ _ _ (mo_pool _ _ _ HO) _ _ Hhd)) as Hlen. cbn [q_msgs with_msgqs] in Hlen.
  eapply wp_mono; [apply (msgqfree_loop_ok _ _ idle x a pl (q_msgqs x) q g HM Hh Hg); unfold list_fuel; lia|].
  intros x1 (g' & pl1 & HM1 & Hh1 & Hq1 & Eg1 & K1 & K2 & K3). cbv zeta. rewrite Eg1.
  pose proof (drop_queue_ok _ idle _ a pl1 q HM1 Hq1 Hw) as HM2. cbn [q_msgqs with_msgqs q_des] in HM2. rewrite K3 in HM2. specialize (HM2 Hdes).
  rewrite delete_insert_eq in HM2. set (x2 := with_msgqs (delete q (q_msgqs x)) x1) in *. change (q_msgs x1) with (q_msgs x2).
  apply wp_bind. eapply wp_mono; [apply (free_block_ok E idle x2 a pl1 q sz); [by split|done|done]|].
  intros x3 (pl3 & [HM3 Hh3] & J1 & J2 & J3 & J4 & J5). apply wp_ret. exists x3, pl3. split; [done|]. split; [by split|]. split; [done|]. split; [rewrite J5; exact K3|].
  split; [rewrite J3; exact K2|]. intros q' Hne. destruct (K1 q' Hne) as [L1 L2]. transitivity (mq_contents (with_msgqs (q_msgqs x) x) q'); [|by rewrite <-Ex].
  eapply (kept_contents (framed ((q, sz) :: E)) (framed E)); [exact HM|exact HM3| |rewrite J1; exact L1|].
  - rewrite J4. cbn [q_msgqs with_msgqs x2]. by rewrite lookup_delete_ne.
  - intros y Hy. rewrite (J2 q' y) by (by rewrite L1). by apply L2.
Qed.

End mem.
