(* ===== verification/MqNameSpec.v ===== *)
(** * Message queues by name: what the calls promise

    The abstract state [aq] has the names, the open descriptors with their owners
    and the number of spare ones, and the capacity and the messages of each queue.
    [open_spec], [close_spec] and [unlink_spec] say what the calls do to it;
    [mqn_core] ties it to the concrete state. *)

From stdpp Require Import sorting.
From S2P Require Import Prelude Queue Sched SchedInv SchedOps SchedSpec Sem SemSpec KHeap Mq MqWait MqPool MqSpec MqInit Names NSem NSemThm MqName MqNameInv MqNameMem.

(** The most messages and the longest one. *)
Definition cap (g : msgq_s) : Z * Z := (maxmsgs g, maxmsgsize g).

Record aq : Type := AQ {
  aq_names : gmap (list Z) (Z * bool);
  aq_des : gmap Z mq_des;
  aq_caps : gmap Z (Z * Z);
  aq_own : Z -> list Z;
  aq_spare : nat;
  aq_msgs : Z -> list (Z * list Z)
}.

(** ** The specification *)

Record same_queues (A A' : aq) : Prop := SameQueues {
  sq_names : aq_names A' = aq_names A;
  sq_caps : aq_caps A' = aq_caps A;
  sq_msgs : forall q, aq_msgs A' q = aq_msgs A q
}.

Record same_des (A A' : aq) : Prop := SameDes {
  sd_des : aq_des A' = aq_des A;
  sd_own : forall t, aq_own A' t = aq_own A t;
  sd_spare : aq_spare A' = aq_spare A
}.

(** The call returns an error and changes nothing. *)
Definition refused (A : aq) (ret : Z) (A' : aq) : Prop := ret = -1 /\ same_des A A' /\ same_queues A A'.

(** The task [t] gets the descriptor [d]; a block of them is made when there is no spare one. *)
Record got_des (t d : Z) (e : mq_des) (A A' : aq) : Prop := GotDes {
  gd_fresh : 0 < d /\ aq_des A !! d = None;
  gd_des : aq_des A' = <[d := e]> (aq_des A);
  gd_own : aq_own A' t = aq_own A t ++ [d];
  gd_others : forall t', t' <> t -> aq_own A' t' = aq_own A t';
  gd_spare : aq_spare A' = pred (if decide (aq_spare A = 0%nat) then Z.to_nat NUM_MSG_DESCRIPTORS else aq_spare A)
}.

Definition capacity (attr : option mq_attr) : Z * Z :=
  match attr with
  | Some attr => (s16 (mq_maxmsg attr), Z.min (mq_msgsize attr) MQ_MAX_BYTES)
  | None => (MQ_MAX_MSGS, MQ_MAX_BYTES)
  end.

Definition open_spec (t : Z) (nm : option (list Z)) (oflags : Z) (attr : option mq_attr) (A : aq) (ret : Z) (A' : aq) : Prop :=
  match default [] nm with
  | [] => refused A ret A'
  | nm =>
      match aq_names A !! nm with
      | Some (q, _) =>
          if excludes oflags then refused A ret A'
          else (aq_spare A = 0%nat /\ refused A ret A') \/ (got_des t ret (MqDes q oflags) A A' /\ same_queues A A')
      | None =>
          refused A ret A'
          \/ (creates oflags = true /\ exists q, q <> NULL /\ aq_caps A !! q = None /\ got_des t ret (MqDes q oflags) A A'
              /\ aq_names A' = <[nm := (q, false)]> (aq_names A) /\ aq_caps A' = <[q := capacity attr]> (aq_caps A)
              /\ aq_msgs A' q = [] /\ forall q', aq_msgs A' q' = aq_msgs A q')
      end
  end.

(** The queue and its name go away. *)
Record gone (nm : list Z) (q : Z) (A A' : aq) : Prop := Gone {
  go_names : aq_names A' = delete nm (aq_names A);
  go_caps : aq_caps A' = delete q (aq_caps A);
  go_msgs : aq_msgs A' q = [] /\ forall q', q' <> q -> aq_msgs A' q' = aq_msgs A q'
}.

Definition close_spec (t d : Z) (A : aq) (ret : Z) (A' : aq) : Prop :=
  if decide (d = NULL) then refused A ret A'
  else
    ret = 0 /\ exists e nm u l1 l2, aq_des A !! d = Some e /\ aq_names A !! nm = Some (d_msgq e, u)
    /\ aq_des A' = delete d (aq_des A) /\ aq_own A t = l1 ++ d :: l2 /\ aq_own A' t = l1 ++ l2
    /\ (forall t', t' <> t -> aq_own A' t' = aq_own A t') /\ aq_spare A' = S (aq_spare A)
    /\ if decide (conns (aq_des A') (d_msgq e) = 0%nat /\ u = true) then gone nm (d_msgq e) A A' else same_queues A A'.

Definition unlink_spec (nm : option (list Z)) (A : aq) (ret : Z) (A' : aq) : Prop :=
  match nm with
  | None => refused A ret A'
  | Some nm =>
      match aq_names A !! nm with
      | None => refused A ret A'
      | Some (q, u) =>
          ret = 0 /\ same_des A A'
          /\ if decide (conns (aq_des A) q = 0%nat) then gone nm q A A'
             else aq_names A' = <[nm := (q, true)]> (aq_names A) /\ aq_caps A' = aq_caps A /\ forall q', aq_msgs A' q' = aq_msgs A q'
      end
  end.

(** ** The invariant *)

Section inv.
  Context {HT : Type} {HK : KHeap HT} {HKS : KHeapSpec HT} {SC : SchedConfig} (ext : list (Z * Z)).
  Implicit Types (s : mqn_sys HT) (N : gmap (list Z) (Z * bool)).

Definition dhead s (p : dplace) : sq_queue :=
  match p with
  | DFree => g_desfree s
  | DAlloc => g_desalloc s
  | DTask t => msgdesq t s
  end.

Abbreviation named := (naming mn_name (fun p n => (p, mn_unlinked n))).

(** The nodes are the queues, each has a block of its own and counts its descriptors. *)
Record nodes_ok (m : gmap Z msgq_name) (gs : gmap Z msgq_s) (D : gmap Z mq_des) (qb : list (Z * Z)) N : Prop := NodesOk {
  na_live : forall p, is_Some (m !! p) <-> is_Some (gs !! p);
  na_nodup : NoDup qb.*1;
  na_block : forall b, b ∈ qb -> 0 < b.1 /\ 0 < b.2;
  na_dom : forall p, is_Some (m !! p) <-> p ∈ qb.*1;
  na_size : forall p sz n, (p, sz) ∈ qb -> m !! p = Some n -> SIZEOF_MQ_HEADER + Z.of_nat (length (mn_name n)) + 1 <= sz;
  na_node : forall p n, m !! p = Some n ->
    mn_name n <> [] /\ Forall good_char (mn_name n) /\ mn_nconnect n = Z.of_nat (conns D p) /\ mn_nconnect n < 2 ^ 15;
  na_names : named N m
}.

Definition all_linked (m : gmap Z msgq_name) (q : sq_queue) : Prop := exists l, sq_repr m q l /\ (forall p, is_Some (m !! p) <-> p ∈ l).

Definition names_ok (m : gmap Z msgq_name) (q : sq_queue) (gs : gmap Z msgq_s) (D : gmap Z mq_des) (qb : list (Z * Z)) N : Prop :=
  all_linked m q /\ nodes_ok m gs D qb N.

(** Nobody waits for a queue that has no descriptor. *)
Definition unused_idle (D : gmap Z mq_des) (a : asched) : Prop := forall l q, parked l -> conns D q = 0%nat -> mqw l q a = [].

Record mqn_core (idle : Z) s (a : asched) (dp : dplaces) N : Prop := MqnCore {
  mc_state : exists pl qb db, mq_at (qb ++ db ++ ext) idle (n_mq s) a pl
    /\ des_ok (n_links s) (dhead s) (q_des (n_mq s)) dp db
    /\ names_ok (n_names s) (g_msgqueues s) (q_msgqs (n_mq s)) (q_des (n_mq s)) qb N;
  mc_idle : unused_idle (q_des (n_mq s)) a
}.

Definition abs s (dp : dplaces) N : aq :=
  AQ N (q_des (n_mq s)) (cap <$> q_msgqs (n_mq s)) (fun t => dp (DTask t)) (length (dp DFree)) (mq_contents (n_mq s)).

(** ** Reading the names *)

Lemma node_pos m gs D qb N p n : nodes_ok m gs D qb N -> m !! p = Some n -> 0 < p.
Proof.
  intros HN E. assert (p ∈ qb.*1) as Hp by (apply (na_dom _ _ _ _ _ HN); eauto). apply list_elem_of_fmap in Hp as (b & -> & Hb).
  by destruct (na_block _ _ _ _ _ HN b Hb).
Qed.

Lemma mq_find_loop_ok m nm l fuel :
  Forall good_char nm -> NULL ∉ l -> (forall p n, m !! p = Some n -> Forall good_char (mn_name n)) -> sseg m l NULL -> (length l < fuel)%nat ->
  wp (mq_find_loop fuel m nm (hdp NULL l)) (fun p =>
    (p = NULL /\ forall x n, x ∈ l -> m !! x = Some n -> mn_name n <> nm) \/ (p ∈ l /\ exists n, m !! p = Some n /\ mn_name n = nm)).
Proof.
  intros Hnm H0 Hg. revert fuel. induction l as [|x l IH]; intros [|fuel] Hs Hf; try (simpl in Hf; lia); cbn [mq_find_loop head default].
  - rewrite decide_True by done. left. split; [done|]. set_solver.
  - apply not_elem_of_cons in H0 as [Hx0 H0]. destruct Hs as [(n & Hn & Hfl) Hs]. simpl. rewrite decide_False by done.
    rewrite (deref_Some _ _ n) by done. cbn [mbind res_bind]. destruct (strcmp_ok nm (mn_name n) Hnm (Hg x n Hn)) as (r & -> & Hr). cbn [mbind res_bind].
    destruct (Z.eqb_spec r 0) as [E|E].
    + right. split; [by left|]. exists n. split; [done|]. symmetry. by apply Hr.
    + cbn [sflink msgq_name_linked] in Hfl. rewrite Hfl. eapply wp_mono; [apply (IH H0 fuel Hs); simpl in Hf; lia|]. intros p [[-> Hno]|[Hp Hn']]; [left|right].
      * split; [done|]. intros y k [->|Hy]%elem_of_cons Hk; [|by eapply Hno]. assert (k = n) as -> by congruence. intros Hc. apply E, Hr. done.
      * split; [by right|done].
Qed.

Lemma mq_findnamed_ok s gs D qb N nm :
  names_ok (n_names s) (g_msgqueues s) gs D qb N -> Forall good_char nm ->
  wp (mq_findnamed nm s) (fun p =>
    (p = NULL /\ N !! nm = None) \/ exists n, 0 < p /\ n_names s !! p = Some n /\ mn_name n = nm /\ N !! nm = Some (p, mn_unlinked n)).
Proof.
  intros [(l & Hq & Hl) HN] Hnm. pose proof (na_names _ _ _ _ _ HN) as HV. unfold mq_findnamed. rewrite (sqr_head _ _ _ Hq). eapply wp_mono.
  - apply (mq_find_loop_ok (n_names s) nm l); [done|apply Hq|intros p n E; apply (na_node _ _ _ _ _ HN p n E)|apply Hq|].
    pose proof (sq_repr_length _ _ _ Hq). unfold list_fuel. lia.
  - intros p [[-> Hno]|[Hp (n & Hn & Hnn)]]; [left|right].
    + split; [done|]. destruct (N !! nm) as [v|] eqn:E; [|done]. apply HV in E as (p & n & Hn & Hnn & _). exfalso. apply (Hno p n); [apply Hl; eauto|done|done].
    + exists n. split; [by eapply node_pos|]. split; [done|]. split; [done|]. apply HV. eauto.
Qed.

End inv.
