(* ===== verification/MqNameDes.v ===== *)
(** * Message queues by name: making descriptors

    mq_desalloc takes a descriptor from the free list, or from a new block of the
    heap when the list is empty; mq_descreate gives it to a task. *)

From stdpp Require Import sorting.
From S2P Require Import Prelude Queue Sched SchedInv SchedOps SchedSpec Sem SemSpec KHeap Mq MqWait MqPool MqSpec MqInit Names NSem NSemThm MqName MqNameInv MqNameMem MqNameSpec.

Section des.
  Context {HT : Type} {HK : KHeap HT} {HKS : KHeapSpec HT} {SC : SchedConfig}.
  Implicit Types (s : mqn_sys HT).

Lemma mq_at_perm E E' idle (x : mq_sys HT) a pl : E ≡ₚ E' -> mq_at E idle x a pl -> mq_at E' idle x a pl.
Proof.
  intros Hp HM. replace x with (with_heap (q_heap x) x) by by destruct x. eapply mq_at_heap; [exact HM|]. intros bl.
  apply (@heap_perm HT HK HKS). by rewrite Hp.
Qed.

(** The heads of the lists as a state without [p] in them sees them. *)
Lemma dhead_desfree q m s p : dhead (with_desfree q m s) p = dput DFree q (dhead s) p.
Proof. by destruct p. Qed.

Lemma dhead_desalloc q m s p : dhead (with_desalloc q m s) p = dput DAlloc q (dhead s) p.
Proof. by destruct p. Qed.

Lemma dhead_msgdesq t q m s p : dhead (with_msgdesq t q m s) p = dput (DTask t) q (dhead s) p.
Proof.
  destruct p as [| |t']; try done. unfold dput. cbn [dhead]. unfold msgdesq. cbn [n_msgdesq with_msgdesq].
  destruct (decide (t = t')) as [<-|Hne]; [by rewrite lookup_insert_eq, decide_True|rewrite lookup_insert_ne, decide_False by congruence; done].
Qed.

Lemma des_ok_ext m Q Q' D dp dp' db : (forall p, Q' p = Q p) -> (forall p, dp' p = dp p) -> des_ok m Q D dp db -> des_ok m Q' D dp' db.
Proof.
  intros E1 E2 [A B C E F G]. split; try done.
  - intros p. rewrite E1, E2. apply A.
  - intros p p' x. rewrite !E2. apply B.
  - intros x Hx. destruct (C x Hx) as [p Hp]. exists p. by rewrite E2.
  - intros d. rewrite G. apply exist_proper. intros t. by rewrite E2.
Qed.

(** What making descriptors leaves alone. *)
Definition names_kept s s' : Prop := n_names s' = n_names s /\ g_msgqueues s' = g_msgqueues s.

Lemma mq_desblockalloc_ok ext idle s a pl dp qb db :
  mq_at (qb ++ db ++ ext) idle (n_mq s) a pl -> des_ok (n_links s) (dhead s) (q_des (n_mq s)) dp db ->
  wp (mq_desblockalloc s) (fun s' => exists h' db' dp' new, mq_at (qb ++ db' ++ ext) idle (with_heap h' (n_mq s)) a pl /\ n_mq s' = with_heap h' (n_mq s)
    /\ names_kept s s' /\ des_ok (n_links s') (dhead s') (q_des (n_mq s)) dp' db' /\ (forall t, dp' (DTask t) = dp (DTask t))
    /\ dp' DFree = dp DFree ++ new /\ (new = [] \/ length new = Z.to_nat NUM_MSG_DESCRIPTORS)).
Proof.
  intros HM HD. unfold mq_desblockalloc. destruct (getpid_ok (HKS := framed _) _ _ _ _ (proj1 HM)) as [Hpid _]. unfold n_kernel. rewrite Hpid. apply wp_bind, wp_ret.
  apply wp_bind. eapply wp_mono; [apply (take_block_ok _ idle (n_mq s) a pl SIZEOF_MQ_DES_BLOCK HM); done|].
  intros [b h'] [[-> HM']|(sz & Hb & Hsz & HM' & Hd)].
  { rewrite decide_True by done. apply wp_ret. exists h', db, dp, []. rewrite app_nil_r. split; [done|]. split; [done|]. split; [done|]. split; [|by auto].
    eapply des_ok_ext; [| |exact HD]; [by intros []|done]. }
  rewrite decide_False by lia. cbv zeta. change SIZEOF_MQ_DES_BLOCK with 292 in Hsz. set (new := daddrs (b + DES_BLOCK_MQDES) (Z.to_nat NUM_MSG_DESCRIPTORS)).
  assert (forall x, x ∈ b :: new -> owns (b, sz) x) as Hown.
  { intros x [->|Hx%elem_of_daddrs]%elem_of_cons; unfold owns; cbn [fst snd]; [lia|]. unfold SIZEOF_MQ_DES, DES_BLOCK_MQDES, NUM_MSG_DESCRIPTORS in Hx. lia. }
  assert (b ∉ new) as Hbn by (intros Hx%elem_of_daddrs; unfold DES_BLOCK_MQDES in Hx; lia).
  assert (forall d x, d ∈ db -> owns (b, sz) x -> ~ owns d x) as Hdb by (intros d x Hin; apply Hd; set_solver).
  assert (forall p x, x ∈ b :: new -> x ∉ dp p) as Hno.
  { intros p x Hx Hp. destruct (sq_repr_valid _ _ _ _ (do_repr _ _ _ _ _ HD p) Hp) as [_ Hs]. destruct (do_home _ _ _ _ _ HD x Hs) as (c & Hc & Ho).
    by apply (Hdb c x Hc (Hown x Hx)). }
  apply wp_bind. cbn [g_desalloc n_links with_mq]. eapply wp_mono; [apply (link_new_ok _ _ (dp DAlloc) b); [apply (do_repr _ _ _ _ _ HD DAlloc)|lia|by apply Hno; left]|].
  intros [qa m1] [Hra Hw1]. cbn [g_desfree n_links with_desalloc with_mq]. apply wp_bind.
  assert (sq_repr m1 (g_desfree s) (dp DFree)) as HrF.
  { eapply sq_repr_links; [exact Hw1| |apply (do_repr _ _ _ _ _ HD DFree)]. intros x Hx. split; [intros Hc; by discriminate (do_disj _ _ _ _ _ HD _ _ _ Hx Hc)|].
    intros ->%list_elem_of_singleton. by apply (Hno DFree b); [left|]. }
  eapply wp_mono; [apply (desblock_loop_ok _ (b + DES_BLOCK_MQDES) (g_desfree s) m1 (dp DFree)); [unfold DES_BLOCK_MQDES; lia|done|]|].
  { intros y Hy. destruct (sq_repr_valid _ _ _ _ (do_repr _ _ _ _ _ HD DFree) Hy) as [_ Hs]. destruct (do_home _ _ _ _ _ HD y Hs) as (c & Hc & Ho).
    destruct (Z.lt_ge_cases y b) as [Hlt|Hge]; [left; unfold DES_BLOCK_MQDES; lia|right]. unfold SIZEOF_MQ_DES, DES_BLOCK_MQDES, NUM_MSG_DESCRIPTORS.
    destruct (Z.lt_ge_cases y (b + sz)) as [Hlt|Hge']; [destruct (Hdb c y Hc); [unfold owns; simpl; lia|done]|lia]. }
  intros [qf m2] [Hrf Hw2]. apply wp_ret. exists h', ((b, sz) :: db). eexists (dput DFree (dp DFree ++ new) (dput DAlloc (dp DAlloc ++ [b]) dp)), new.
  split; [eapply mq_at_perm; [|exact HM']; cbn [app]; by rewrite Permutation_middle|]. split; [done|]. split; [done|]. split.
  - eapply (des_grow (n_links s) (dhead s)); try done; try lia.
    + destruct Hw1 as [A1 B1], Hw2 as [A2 B2]. split.
      * intros y. rewrite not_elem_of_app, not_elem_of_cons. intros [H1 H2] [H3 H4]. cbn. rewrite A2, A1 by (done || set_solver). done.
      * intros y. cbn. rewrite B2, B1, !elem_of_cons, elem_of_nil. tauto.
    + cbn. eapply sq_repr_links; [exact Hw2| |exact Hra]. intros x [Hx| ->%list_elem_of_singleton]%elem_of_app.
      * split; [intros Hc; by discriminate (do_disj _ _ _ _ _ HD _ _ _ Hx Hc)|]. intros Hc. by apply (Hno DAlloc x); [right|].
      * split; [apply Hno; by left|done].
  - split; [done|]. split; [by rewrite dput_eq|]. right. apply daddrs_length.
Qed.

(** The descriptor [d] was taken from the free list, which was [d :: l]. *)
Record des_taken s D (dp : dplaces) db (d : Z) (l : list Z) : Prop := DesTaken {
  dt_free : dp DFree = d :: l;
  dt_repr : sq_repr (n_links s) (g_desfree s) l;
  dt_before : exists m Q, des_ok m Q D dp db /\ frame sunlink (d :: l) m (n_links s) /\ forall p, p <> DFree -> dhead s p = Q p
}.

(** The first free descriptor is taken, if there is one. *)
Lemma take_des_ok s D dp db :
  des_ok (n_links s) (dhead s) D dp db ->
  wp (sq_remfirst (g_desfree s) (n_links s)) (fun '(d, (q, m)) => d = hdp NULL (dp DFree) /\
    match dp DFree with
    | [] => des_ok m (dhead (with_desfree q m s)) D dp db
    | d :: l => des_taken (with_desfree q m s) D dp db d l
    end).
Proof.
  intros HD. eapply wp_mono; [apply (sq_remfirst_spec _ _ (dp DFree)); apply (do_repr _ _ _ _ _ HD DFree)|]. intros [d [q m]] (-> & Hr & Hf). split; [done|].
  destruct (dp DFree) as [|d l] eqn:El.
  - eapply (des_move _ _ _ _ _ HD m _ D dp DFree DFree []); try done; [set_solver| | | |apply (do_open _ _ _ _ _ HD)].
    + intros p Hp _. split; [done|]. by rewrite dhead_desfree, dput_ne.
    + by rewrite El.
    + by rewrite El.
  - split; [done|done|]. exists (n_links s), (dhead s). split; [done|]. split; [done|]. intros p Hp. by rewrite dhead_desfree, dput_ne.
Qed.

(** What making a descriptor leaves of the heap and of the queues. *)
Definition des_step ext idle s a pl qb s' db' : Prop :=
  exists h', mq_at (qb ++ db' ++ ext) idle (with_heap h' (n_mq s)) a pl /\ n_mq s' = with_heap h' (n_mq s) /\ names_kept s s'.

Lemma mq_desalloc_ok ext idle s a pl dp qb db :
  mq_at (qb ++ db ++ ext) idle (n_mq s) a pl -> des_ok (n_links s) (dhead s) (q_des (n_mq s)) dp db ->
  wp (mq_desalloc s) (fun '(d, s') => exists db' dp', des_step ext idle s a pl qb s' db' /\ (forall t, dp' (DTask t) = dp (DTask t))
    /\ ((d = NULL /\ dp DFree = [] /\ dp' DFree = [] /\ des_ok (n_links s') (dhead s') (q_des (n_mq s)) dp' db')
        \/ exists l, des_taken s' (q_des (n_mq s)) dp' db' d l
             /\ length (d :: l) = if decide (length (dp DFree) = 0%nat) then Z.to_nat NUM_MSG_DESCRIPTORS else length (dp DFree))).
Proof.
  intros HM HD. unfold mq_desalloc. apply wp_bind. eapply wp_mono; [by apply take_des_ok|]. intros [d [q m]] [-> Hd]. cbv zeta.
  assert (forall q m, des_step ext idle s a pl qb (with_desfree q m s) db) as Hst0.
  { intros q0 m0. exists (q_heap (n_mq s)). assert (with_heap (q_heap (n_mq s)) (n_mq s) = n_mq s) as -> by by destruct (n_mq s). done. }
  destruct (dp DFree) as [|d l] eqn:El; cbn [head default from_option id length].
  - rewrite decide_True by done. apply wp_bind. eapply wp_mono; [by apply (mq_desblockalloc_ok ext idle _ a pl dp qb db)|].
    intros s1 (h' & db' & dp' & new & HM' & E1 & E2 & HD' & Ht & Hnew & Hlen). rewrite El in Hnew. simpl in Hnew. apply wp_bind.
    eapply wp_mono; [apply (take_des_ok s1 _ dp' db' HD')|]. intros [d [q' m']] [-> Hd']. apply wp_ret. exists db', dp'. split; [by exists h'|]. split; [done|].
    destruct (dp' DFree) as [|d l] eqn:El'; cbn [head default from_option id].
    + left. split; [done|]. split; [done|]. split; [done|exact Hd'].
    + right. exists l. split; [done|]. rewrite decide_True by done. subst new. by destruct Hlen.
  - assert (valid (n_links s) d) as Hv by (eapply sq_repr_valid; [apply (do_repr _ _ _ _ _ HD DFree)|rewrite El; left]).
    rewrite decide_False by (by eapply valid_ne). apply wp_ret. exists db, dp. split; [done|]. split; [done|]. right. exists l. split; [done|]. by rewrite decide_False.
Qed.

(** The descriptor goes to the task [t]. *)
Lemma give_des_ok s D dp db d l t e :
  des_taken s D dp db d l -> 0 < d ->
  wp (m ← store (fun _ => SqEntry NULL) d (n_links s); sq_addlast d (msgdesq t s) m) (fun '(q, m) =>
    D !! d = None /\ des_ok m (dhead (with_msgdesq t q m s)) (<[d := e]> D) (dput DFree l (dput (DTask t) (dp (DTask t) ++ [d]) dp)) db).
Proof.
  intros [Hfree Hr (m0 & Q0 & HD & Hf0 & HQ)] Hd0. assert (d ∈ dp DFree) as Hdf by (rewrite Hfree; left).
  assert (valid m0 d) as Hv0 by (eapply sq_repr_valid; [apply (do_repr _ _ _ _ _ HD DFree)|done]).
  assert (valid (n_links s) d) as Hv by by eapply frame_valid. assert (d ∉ dp (DTask t)) as Hdt by (intros Hc; by discriminate (do_disj _ _ _ _ _ HD _ _ _ Hdf Hc)).
  assert (D !! d = None) as Hnone.
  { apply eq_None_not_Some. intros Hs. apply (do_open _ _ _ _ _ HD) in Hs as [t' Ht']. by discriminate (do_disj _ _ _ _ _ HD _ _ _ Hdf Ht'). }
  assert (frame sunlink [d] (n_links s) (alter (fun _ => SqEntry NULL) d (n_links s))) as Hf1.
  { split; [intros y Hy; apply lookup_alter_ne; set_solver|]. intros y. rewrite lookup_alter. case_decide; [subst|done]. by destruct (n_links s !! y). }
  assert (NoDup (d :: l)) as Hnd by (rewrite <-Hfree; apply (do_repr _ _ _ _ _ HD DFree)).
  assert (forall y, y ∈ dp (DTask t) -> y ∉ d :: l) as Hdis by (intros y Hy Hc; rewrite <-Hfree in Hc; by discriminate (do_disj _ _ _ _ _ HD _ _ _ Hy Hc)).
  apply wp_bind, wp_store; [done|]. eapply wp_mono; [apply (sq_addlast_spec _ _ (dp (DTask t)) d)|].
  { change (msgdesq t s) with (dhead s (DTask t)). rewrite HQ by done. eapply sq_repr_frame; [exact Hf1|intros y Hy Hc; destruct (Hdis y Hc); set_solver|].
    eapply sq_repr_frame; [exact Hf0|intros y Hy Hc; by destruct (Hdis y Hc)|apply (do_repr _ _ _ _ _ HD)]. }
  { by eapply frame_valid. } { done. }
  intros [q m] [Hr2 Hf2]. split; [done|]. apply NoDup_cons in Hnd as [Hdl _].
  assert (frame sunlink (dp DFree ++ dp (DTask t)) m0 m) as Hf.
  { rewrite Hfree. eapply frame_trans; [eapply frame_mono; [|exact Hf0]; set_solver|]. eapply frame_trans; [eapply frame_mono; [|exact Hf1]; set_solver|].
    eapply frame_mono; [|exact Hf2]. set_solver. }
  assert (dput DFree l (dput (DTask t) (dp (DTask t) ++ [d]) dp) (DTask t) = dp (DTask t) ++ [d]) as Ep by by rewrite dput_ne, dput_eq.
  eapply (des_move m0 Q0 D dp db HD m _ _ _ DFree (DTask t) _ Hf).
  - intros x. by rewrite elem_of_app.
  - intros p H1 H2. rewrite dhead_msgdesq, !dput_ne by done. split; [done|by apply HQ].
  - intros x. rewrite Ep, dput_eq, Hfree. set_solver.
  - intros x. rewrite Ep, dput_eq. intros H1 [H2| ->%list_elem_of_singleton]%elem_of_app; [|done]. destruct (Hdis x H2). by right.
  - rewrite dhead_msgdesq, dput_ne, dput_eq by done. eapply sq_repr_frame; [exact Hf2| |].
    + intros x [->|Hx]%elem_of_cons; [done|]. intros Hc. destruct (Hdis x Hx). by right.
    + eapply sq_repr_frame; [exact Hf1| |exact Hr]. set_solver.
  - rewrite Ep, dhead_msgdesq, dput_eq. exact Hr2.
  - intros y. rewrite lookup_insert_is_Some, (do_open _ _ _ _ _ HD). split.
    + intros [<-|[_ [t' Ht']]]; [exists t; rewrite Ep; set_solver|]. exists t'. destruct (decide (t' = t)) as [->|Hne]; [rewrite Ep; set_solver|].
      by rewrite !dput_ne by congruence.
    + intros [t' Ht']. destruct (decide (d = y)) as [->|Hne]; [by left|right]. split; [done|]. exists t'. destruct (decide (t' = t)) as [->|Hne']; [rewrite Ep in Ht'; set_solver|].
      by rewrite !dput_ne in Ht' by congruence.
Qed.

(** The descriptor [d] of a task, or none when there is no memory for one. *)
Definition created_post ext idle s a pl (dp : dplaces) qb (t : Z) (e : mq_des) (r : ptr * mqn_sys HT) : Prop :=
  let '(d, s') := r in exists h' db' dp', let D := q_des (n_mq s) in
  mq_at (qb ++ db' ++ ext) idle (with_heap h' (n_mq s)) a pl /\ names_kept s s' /\ (forall t', t' <> t -> dp' (DTask t') = dp (DTask t'))
  /\ ((d = NULL /\ dp DFree = [] /\ dp' DFree = [] /\ dp' (DTask t) = dp (DTask t)
       /\ n_mq s' = with_heap h' (n_mq s) /\ des_ok (n_links s') (dhead s') D dp' db')
      \/ (0 < d /\ D !! d = None /\ n_mq s' = with_des (<[d := e]> D) (with_heap h' (n_mq s))
         /\ des_ok (n_links s') (dhead s') (<[d := e]> D) dp' db' /\ dp' (DTask t) = dp (DTask t) ++ [d]
         /\ length (dp' DFree) = pred (if decide (length (dp DFree) = 0%nat) then Z.to_nat NUM_MSG_DESCRIPTORS else length (dp DFree)))).

Lemma mq_descreate_ok ext idle s a pl dp qb db t q oflags :
  mq_at (qb ++ db ++ ext) idle (n_mq s) a pl -> des_ok (n_links s) (dhead s) (q_des (n_mq s)) dp db ->
  wp (mq_descreate t q oflags s) (created_post ext idle s a pl dp qb t (MqDes q oflags)).
Proof.
  intros HM HD. unfold mq_descreate. apply wp_bind. eapply wp_mono; [by apply (mq_desalloc_ok ext idle s a pl dp qb db)|].
  intros [d s1] (db1 & dp1 & (h1 & HM1 & E1 & Ek) & Ht & Hd). destruct Hd as [(-> & Hf & Hf1 & HD1)|(l & Htk & Hlen)].
  { rewrite decide_True by done. apply wp_ret. exists h1, db1, dp1. split; [done|]. split; [done|]. split; [by intros|]. left. rewrite Ht. done. }
  assert (0 < d) as Hd0.
  { destruct Htk as [Hfree _ (m & Q & HD1 & _)]. apply (des_pos _ _ _ _ _ HD1). apply (sq_repr_valid _ _ _ d (do_repr _ _ _ _ _ HD1 DFree)). rewrite Hfree. left. }
  rewrite decide_False by lia. pose proof (give_des_ok s1 _ _ _ _ _ t (MqDes q oflags) Htk Hd0) as Hg.
  destruct (store (fun _ => SqEntry NULL) d (n_links s1)) as [m|]; [|done]. cbn [mbind res_bind] in *. cbv zeta. rewrite E1.
  change (msgdesq t (with_mq _ s1)) with (msgdesq t s1). apply wp_bind. eapply wp_mono; [exact Hg|]. intros [q2 m2] [Hnone HD2]. apply wp_ret.
  exists h1, db1. eexists. split; [done|]. split; [done|]. split; [|right; split; [done|]; split; [done|]; split; [done|]; split; [exact HD2|]].
  - intros t' Hne. by rewrite !dput_ne, Ht by congruence.
  - rewrite dput_ne, dput_eq, Ht by done. split; [done|]. rewrite dput_eq. rewrite <-Hlen. done.
Qed.

End des.
