(* ===== verification/MqNameCalls.v ===== *)
(** * Message queues by name: the calls

    mq_open, mq_close and mq_unlink keep the invariant and do what
    [open_spec], [close_spec] and [unlink_spec] say. *)

From stdpp Require Import sorting.
From S2P Require Import Prelude Queue Sched SchedInv SchedOps SchedSpec Sem SemSpec KHeap Mq MqWait MqPool MqSpec MqInit Names NSem NSemThm MqName MqNameInv MqNameMem MqNameSpec MqNameDes.

(** ** Changes of the nodes *)

Lemma sseg_update (m : gmap Z msgq_name) l x p n n' : m !! p = Some n -> sflink n' = sflink n -> sseg m l x -> sseg (<[p := n']> m) l x.
Proof.
  intros Hn E. revert l. induction l as [|y l IH]; [done|]. intros [(k & Hk & Hfl) Hs]. split; [|by apply IH].
  destruct (decide (p = y)) as [<-|Hne]; [exists n'; rewrite lookup_insert_eq; split; [done|congruence]|exists k; by rewrite lookup_insert_ne].
Qed.

Lemma linked_change m q p n n' : all_linked m q -> m !! p = Some n -> mn_flink n' = mn_flink n -> all_linked (<[p := n']> m) q.
Proof.
  intros (l & [A B C D E] & Hl) Hn Hf. exists l. split; [split; try done; by eapply sseg_update|]. intros y. rewrite lookup_insert_is_Some, <-Hl.
  destruct (decide (p = y)); [subst; split; eauto|naive_solver].
Qed.

Section nodes.
  Context (m : gmap Z msgq_name) (gs : gmap Z msgq_s) (D : gmap Z mq_des) (qb : list (Z * Z)) (N : gmap (list Z) (Z * bool)).

(** One node changes, with the descriptors it counts. *)
Lemma nodes_change gs' D' p n n' :
  nodes_ok m gs D qb N -> m !! p = Some n -> mn_name n' = mn_name n -> (forall q, q <> p -> conns D' q = conns D q) ->
  mn_nconnect n' = Z.of_nat (conns D' p) -> mn_nconnect n' < 2 ^ 15 -> (forall q, is_Some (gs' !! q) <-> is_Some (gs !! q)) ->
  nodes_ok (<[p := n']> m) gs' D' qb (<[mn_name n := (p, mn_unlinked n')]> N).
Proof.
  intros [A B C E F G I] Hn Enm Ec Ep Hlt Hgs. assert (forall y, is_Some (<[p := n']> m !! y) <-> is_Some (m !! y)) as Hd.
  { intros y. rewrite lookup_insert_is_Some. destruct (decide (p = y)); [subst; split; eauto|naive_solver]. }
  split; try done.
  - intros y. by rewrite Hd, Hgs.
  - intros y. by rewrite Hd.
  - intros y sz k Hb [[<- <-]|[_ Hk]]%lookup_insert_Some; [rewrite Enm|]; by eapply F.
  - intros y k [[<- <-]|[Hne Hk]]%lookup_insert_Some; [rewrite Enm; destruct (G p n Hn) as (H1 & H2 & _); done|]. rewrite Ec by done. by apply G.
  - by apply (naming_update _ (fun p n => (p, mn_unlinked n)) (fun v => v.1)).
Qed.

Lemma nodes_new gs' D' p sz n :
  nodes_ok m gs D qb N -> 0 < p -> SIZEOF_MQ_HEADER + Z.of_nat (length (mn_name n)) + 1 <= sz -> p ∉ qb.*1 ->
  mn_name n <> [] -> Forall good_char (mn_name n) -> N !! mn_name n = None -> (forall q, q <> p -> conns D' q = conns D q) ->
  mn_nconnect n = Z.of_nat (conns D' p) -> mn_nconnect n < 2 ^ 15 -> (forall q, is_Some (gs' !! q) <-> p = q \/ is_Some (gs !! q)) ->
  nodes_ok (<[p := n]> m) gs' D' ((p, sz) :: qb) (<[mn_name n := (p, mn_unlinked n)]> N).
Proof.
  intros [A B C E F G I] Hp Hsz Hpb Hne Hgc HN Ec Ep Hlt Hgs. assert (m !! p = None) as Hmp by (apply eq_None_not_Some; by rewrite E).
  assert (forall y, is_Some (<[p := n]> m !! y) <-> p = y \/ is_Some (m !! y)) as Hd by (intros y; rewrite lookup_insert_is_Some; destruct (decide (p = y)); naive_solver).
  split.
  - intros y. by rewrite Hd, Hgs, A.
  - rewrite fmap_cons. by apply NoDup_cons.
  - intros b [->|Hb]%elem_of_cons; [|by apply C]. simpl. unfold SIZEOF_MQ_HEADER in Hsz. lia.
  - intros y. rewrite Hd, E, fmap_cons, elem_of_cons. cbn. naive_solver.
  - intros y sz' k [[= -> ->]|Hy]%elem_of_cons Hk; [by rewrite lookup_insert_eq in Hk; simplify_eq|].
    rewrite lookup_insert_ne in Hk; [by eapply F|]. intros ->. apply Hpb. by apply (list_elem_of_fmap_2 fst) in Hy.
  - intros y k [[<- <-]|[Hny Hk]]%lookup_insert_Some; [done|]. rewrite Ec by done. by apply G.
  - by apply (naming_insert _ (fun p n => (p, mn_unlinked n))).
Qed.

Lemma nodes_drop p sz n :
  nodes_ok m gs D ((p, sz) :: qb) N -> m !! p = Some n -> nodes_ok (delete p m) (delete p gs) D qb (delete (mn_name n) N).
Proof.
  intros [A B C E F G I] Hn. rewrite fmap_cons in B. apply NoDup_cons in B as [B1 B2]. split; try done.
  - intros y. by rewrite !lookup_delete_is_Some, A.
  - intros b Hb. apply C. by right.
  - intros y. rewrite lookup_delete_is_Some, E, fmap_cons, elem_of_cons. cbn. split; [naive_solver|]. intros Hy. split; [intros <-; done|by right].
  - intros y sz' k Hy Hk. apply lookup_delete_Some in Hk as [_ Hk]. apply (F y sz' k); [by right|done].
  - intros y k Hk. apply lookup_delete_Some in Hk as [_ Hk]. by apply G.
  - by apply (naming_delete _ (fun p n => (p, mn_unlinked n)) (fun v => v.1)).
Qed.

(** Links do not matter. *)
Lemma nodes_frame m' S : nodes_ok m gs D qb N -> frame sunlink S m m' -> nodes_ok m' gs D qb N.
Proof.
  intros [A B C E F G I] Hf.
  assert (forall y k, m' !! y = Some k -> exists n, m !! y = Some n /\ mn_name k = mn_name n /\ mn_nconnect k = mn_nconnect n /\ mn_unlinked k = mn_unlinked n) as H1.
  { intros y k Hk. destruct (frame_lookup_inv _ _ _ _ _ _ Hf Hk) as (n & Hn & En). exists n. split; [done|]. destruct n, k. by injection En as -> -> ->. }
  assert (forall y n, m !! y = Some n -> exists k, m' !! y = Some k /\ mn_name k = mn_name n /\ mn_unlinked k = mn_unlinked n) as H2.
  { intros y n Hn. destruct (frame_lookup _ _ _ _ _ _ Hf Hn) as (k & Hk & En). exists k. split; [done|]. destruct n, k. by injection En as -> -> ->. }
  assert (forall y, is_Some (m' !! y) <-> is_Some (m !! y)) as Hd.
  { intros y. split; intros [k Hk]; [destruct (H1 y k Hk) as (n & Hn & _)|destruct (H2 y k Hk) as (n & Hn & _)]; eauto. }
  split; try done.
  - intros y. by rewrite Hd.
  - intros y. by rewrite Hd.
  - intros y sz k Hb Hk. destruct (H1 y k Hk) as (n & Hn & -> & _). by eapply F.
  - intros y k Hk. destruct (H1 y k Hk) as (n & Hn & -> & -> & _). by apply G.
  - eapply naming_ext; [..|exact I]; intros y n Hn; [destruct (H2 y n Hn) as (k & Hk & E1 & E2)|destruct (H1 y n Hn) as (k & Hk & E1 & _ & E2)]; exists k;
      (split; [done|]); split; congruence.
Qed.

End nodes.

Section calls.
  Context {HT : Type} {HK : KHeap HT} {HKS : KHeapSpec HT} {SC : SchedConfig} (ext : list (Z * Z)) (idle : Z) (a : asched).
  Implicit Types (s : mqn_sys HT) (N : gmap (list Z) (Z * bool)).

Abbreviation core s := (mqn_core ext idle s a).

(** The value that mq_open returns for a descriptor. *)
Definition open_ret (d : ptr) : Z := if decide (d = NULL) then -1 else d.

(** What a part of a call promises; [f] is the value it stands for. *)
Definition part_post (spec : aq -> Z -> aq -> Prop) s dp N {B} (f : B -> Z) (r : B * mqn_sys HT) : Prop :=
  exists dp' N', core r.2 dp' N' /\ spec (abs s dp N) (f r.1) (abs r.2 dp' N').

Lemma unused_insert (D : gmap Z mq_des) d e : D !! d = None -> unused_idle D a -> unused_idle (<[d := e]> D) a.
Proof. intros Hd HU l q Hl Hq. rewrite conns_insert in Hq by done. apply HU; [done|]. lia. Qed.

(** Nothing changed but the heap and the lists of spare descriptors. *)
Lemma refused_intro s dp N s' dp' :
  q_des (n_mq s') = q_des (n_mq s) -> (forall t, dp' (DTask t) = dp (DTask t)) -> length (dp' DFree) = length (dp DFree) ->
  q_msgqs (n_mq s') = q_msgqs (n_mq s) -> (forall q, mq_contents (n_mq s') q = mq_contents (n_mq s) q) -> refused (abs s dp N) (-1) (abs s' dp' N).
Proof. intros E1 E2 E3 E4 E5. split; [done|]. split; split; cbn; congruence || done. Qed.

Lemma got_des_intro s dp N s' dp' N' t d e :
  0 < d -> q_des (n_mq s) !! d = None -> q_des (n_mq s') = <[d := e]> (q_des (n_mq s)) -> dp' (DTask t) = dp (DTask t) ++ [d] ->
  (forall t', t' <> t -> dp' (DTask t') = dp (DTask t')) ->
  length (dp' DFree) = pred (if decide (length (dp DFree) = 0%nat) then Z.to_nat NUM_MSG_DESCRIPTORS else length (dp DFree)) ->
  got_des t d e (abs s dp N) (abs s' dp' N').
Proof. intros. by split. Qed.

(** ** mq_open *)

Lemma connect_msgq_ok s dp N t q n oflags :
  core s dp N -> n_names s !! q = Some n -> mn_nconnect n + 1 < 2 ^ 15 ->
  wp (connect_msgq t q oflags s) (part_post (fun A ret A' => if excludes oflags then refused A ret A'
    else (aq_spare A = 0%nat /\ refused A ret A') \/ (got_des t ret (MqDes q oflags) A A' /\ same_queues A A')) s dp N open_ret).
Proof.
  intros [(pl & qb & db & HM & HD & HL & HN) HU] Hn Hc. unfold connect_msgq.
  replace ((Z.land oflags O_CREAT =? 0) || (Z.land oflags O_EXCL =? 0)) with (negb (excludes oflags)).
  2: { unfold excludes, creates. by destruct (Z.land oflags O_CREAT =? 0), (Z.land oflags O_EXCL =? 0). }
  destruct (excludes oflags); cbn [negb]; [apply wp_ret; exists dp, N; split; [split; [by exists pl, qb, db|done]|by apply refused_intro]|].
  apply wp_bind. eapply wp_mono; [by apply (mq_descreate_ok ext idle s a pl dp qb db t q oflags)|].
  intros [d s1] (h & db1 & dp1 & HM1 & [K1 K2] & Ht & Hd). pose proof (node_pos _ _ _ _ _ _ _ HN Hn) as Hq.
  destruct Hd as [(-> & F0 & F1 & Et & Em & HD1)|(Hd0 & Hnone & Em & HD1 & Et & Hlen)].
  - rewrite decide_True by done. apply wp_ret. exists dp1, N. cbn [fst snd]. split.
    + split; [exists pl, qb, db1; rewrite Em, K1, K2; done|by rewrite Em].
    + left. split; [cbn; by rewrite F0|]. apply refused_intro; rewrite ?Em, ?F0, ?F1; try done. intros t'. destruct (decide (t' = t)) as [->|]; [done|by apply Ht].
  - rewrite decide_False by lia. rewrite K1. rewrite (deref_Some _ _ n) by (done || lia). cbn [mbind res_bind]. apply wp_bind, wp_store; [split; [lia|eauto]|]. apply wp_ret.
    rewrite (alter_insert _ _ _ n Hn). destruct (na_node _ _ _ _ _ HN q n Hn) as (_ & _ & Ec & _). rewrite s16_id by lia.
    set (D' := <[d := MqDes q oflags]> (q_des (n_mq s))) in *. assert (conns D' q = S (conns (q_des (n_mq s)) q)) as Ecq.
    { unfold D'. rewrite conns_insert, decide_True by done. lia. }
    exists dp1, N. cbn [fst snd]. split.
    + split; [|cbn; rewrite Em; by apply unused_insert]. exists pl, qb, db1. cbn. rewrite Em. split; [|split; [exact HD1|]].
      * destruct HM1 as [HM1 Hh]. split; [|done]. apply des_change_ok; [exact HM1|]. intros d' e' [[<- <-]|[_ Hd']]%lookup_insert_Some.
        -- cbn. apply (na_live _ _ _ _ _ HN). eauto.
        -- destruct HM1 as (_ & _ & HO). by apply (mo_des _ _ _ HO d').
      * rewrite K2. split; [by eapply linked_change|]. replace N with (<[mn_name n := (q, mn_unlinked n)]> N) at 1.
        2: { apply insert_id. apply (na_names _ _ _ _ _ HN). eauto. }
        apply (nodes_change _ (q_msgqs (n_mq s)) (q_des (n_mq s)) qb N _ D' q n (set_mn_nconnect (mn_nconnect n + 1) n)); try done.
        -- intros q' Hne. unfold D'. rewrite conns_insert, decide_False by (done || congruence). lia.
        -- cbn. rewrite Ecq. lia.
    + right. unfold open_ret. rewrite decide_False by lia. split; [apply got_des_intro; try done; cbn; by rewrite Em|]. split; cbn; rewrite ?Em; done.
Qed.

(** The memory of a queue is given back; [s] has no queue in it. *)
Lemma release_msgq_ok (x : mq_sys HT) pl qb db p sz :
  mq_at ((p, sz) :: qb ++ db ++ ext) idle x a pl -> 0 < p -> 0 < sz ->
  wp (sched_free p (with_msgs (<[p := set_type MQ_ALLOC_DYN raw_msg]> (q_msgs x)) x)) (fun x' => exists pl', mq_at (qb ++ db ++ ext) idle x' a pl'
    /\ q_msgqs x' = q_msgqs x /\ q_des x' = q_des x /\ forall q, mq_contents x' q = mq_contents x q).
Proof.
  intros HM Hp Hsz. eapply wp_mono; [by apply (free_block_ok (qb ++ db ++ ext) idle x a pl p sz)|]. intros x' (pl' & HM' & K1 & K2 & K3 & K4 & K5). exists pl'. split; [done|].
  split; [done|]. split; [done|]. intros q. eapply (kept_contents (framed ((p, sz) :: qb ++ db ++ ext)) (framed (qb ++ db ++ ext))); [apply HM|apply HM'|by rewrite K4|done|by apply K2].
Qed.

Definition create_spec (t : Z) (nm : list Z) (oflags : Z) (attr : option mq_attr) (A : aq) (ret : Z) (A' : aq) : Prop :=
  refused A ret A' \/ exists q, q <> NULL /\ aq_caps A !! q = None /\ got_des t ret (MqDes q oflags) A A'
    /\ aq_names A' = <[nm := (q, false)]> (aq_names A) /\ aq_caps A' = <[q := capacity attr]> (aq_caps A)
    /\ aq_msgs A' q = [] /\ forall q', aq_msgs A' q' = aq_msgs A q'.

Definition good_attr (attr : option mq_attr) : Prop := match attr with Some attr => 0 <= mq_msgsize attr | None => True end.

Lemma new_msgq_ok attr : good_attr attr -> fresh_msgq (new_msgq attr) /\ cap (new_msgq attr) = capacity attr.
Proof.
  unfold fresh_msgq, new_msgq, cap, capacity. destruct attr as [[mm sz]|]; cbn; [|done]. intros Hsz. unfold MQ_MAX_BYTES. destruct (Z.leb_spec sz 32).
  - assert (u8 (s16 sz) = sz) as -> by (rewrite s16_id by lia; apply Z.mod_small; lia). rewrite Z.min_l by lia. repeat split; lia.
  - rewrite Z.min_r by lia. repeat split; lia.
Qed.

(** The new queue is linked. *)
Lemma register_msgq_ok m q gs D D' qb N p sz nm g :
  names_ok m q gs D qb N -> 0 < p -> SIZEOF_MQ_HEADER + Z.of_nat (length nm) + 1 <= sz -> p ∉ qb.*1 -> nm <> [] -> Forall good_char nm -> N !! nm = None ->
  (forall q, q <> p -> conns D' q = conns D q) -> conns D' p = 1%nat ->
  wp (sq_addlast p q (<[p := MsgqName NULL 1 false nm]> m)) (fun '(q', m') => names_ok m' q' (<[p := g]> gs) D' ((p, sz) :: qb) (<[nm := (p, false)]> N)).
Proof.
  intros [(l & Hr & Hl) HN] Hp Hsz Hpb Hne Hgc Hnone Ec Ep. assert (m !! p = None) as Hmp by (apply eq_None_not_Some; by rewrite (na_dom _ _ _ _ _ HN)).
  assert (p ∉ l) as Hpl by (rewrite <-Hl, Hmp; by intros [? ?]). eapply wp_mono; [apply (sq_addlast_spec _ q l p)|].
  { destruct Hr as [A B C D0 E]. split; try done. eapply sseg_ext; [|exact C]. intros y Hy. apply lookup_insert_ne. by intros <-. }
  { apply valid_insert_eq. lia. } { done. }
  intros [q' m'] [Hr' Hf]. split.
  - exists (l ++ [p]). split; [done|]. intros y. destruct Hf as [_ Hf]. specialize (Hf y).
    assert (is_Some (m' !! y) <-> is_Some (<[p := MsgqName NULL 1 false nm]> m !! y)) as -> by (destruct (<[p := MsgqName NULL 1 false nm]> m !! y), (m' !! y); try done; split; eauto).
    rewrite lookup_insert_is_Some, Hl, elem_of_app, list_elem_of_singleton. destruct (decide (p = y)); naive_solver.
  - eapply nodes_frame; [|exact Hf]. apply (nodes_new m gs D qb N _ D' p sz (MsgqName NULL 1 false nm) HN); try done; [cbn; lia|].
    intros y. rewrite lookup_insert_is_Some. destruct (decide (p = y)); naive_solver.
Qed.

Lemma new_contents (x : mq_sys HT) p g :
  q_msgqs x !! p = None -> msglist g = sq_init ->
  let x' := with_msgqs (<[p := g]> (q_msgqs x)) x in mq_contents x' p = [] /\ forall q, mq_contents x' q = mq_contents x q.
Proof.
  intros Hp Hg x'. assert (mq_contents x' p = []) as Hnew by (unfold mq_contents, x'; cbn [q_msgqs with_msgqs q_msgs]; by rewrite lookup_insert_eq, Hg).
  split; [done|]. intros q. destruct (decide (q = p)) as [->|Hq]; [rewrite Hnew; unfold mq_contents; by rewrite Hp|].
  unfold mq_contents, x'. cbn [q_msgqs with_msgqs q_msgs]. by rewrite lookup_insert_ne.
Qed.

Lemma conns_dead K pl (x : mq_sys HT) p : mq_state (HKS := K) idle x a pl -> q_msgqs x !! p = None -> conns (q_des x) p = 0%nat.
Proof.
  intros (_ & _ & HO) Hp. unfold conns. apply map_size_empty_iff, map_empty. intros d. rewrite map_lookup_filter_None. right. intros e He Ec. cbn in Ec.
  destruct (mo_des _ _ _ HO d e He). congruence.
Qed.

Lemma create_msgq_ok s dp N t nm oflags attr :
  core s dp N -> nm <> [] -> Forall good_char nm -> Z.of_nat (length nm) < 2 ^ 31 -> good_attr attr -> N !! nm = None ->
  wp (create_msgq t nm oflags attr s) (part_post (create_spec t nm oflags attr) s dp N open_ret).
Proof.
  intros [(pl & qb & db & HM & HD & HN) HU] Hne Hgc Hlen Hattr Hnone. unfold create_msgq. destruct (getpid_ok (HKS := framed _) _ _ _ _ (proj1 HM)) as [Hpid _].
  unfold n_kernel. rewrite Hpid. apply wp_bind, wp_ret. rewrite u32_id by (unfold SIZEOF_MQ_HEADER; lia). apply wp_bind.
  eapply wp_mono; [apply (take_zeroed_ok _ idle (n_mq s) a pl _ HM); unfold SIZEOF_MQ_HEADER; lia|].
  intros [p h] [[-> HM1]|(sz & Hp & Hsz & HM1 & Hd)]; cbv zeta.
  { rewrite decide_True by done. apply wp_ret. exists dp, N. split; [split; [exists pl, qb, db; done|done]|left; by apply refused_intro]. }
  rewrite decide_False by lia. set (s1 := with_mq (with_heap h (n_mq s)) s). apply wp_bind. change ((p, sz) :: qb ++ db ++ ext) with (((p, sz) :: qb) ++ db ++ ext) in HM1.
  eapply wp_mono; [apply (mq_descreate_ok ext idle s1 a pl dp ((p, sz) :: qb) db t p oflags HM1)|].
  { eapply des_ok_ext; [| |exact HD]; [by intros []|done]. }
  intros [d s2] (h2 & db2 & dp2 & HM2 & [K1 K2] & Ht & Hdes). destruct Hdes as [(-> & F0 & F1 & Et & Em & HD2)|(Hd0 & Hdn & Em & HD2 & Et & Hln)].
  - rewrite decide_True by done. rewrite Em. apply wp_bind. eapply wp_mono; [apply (release_msgq_ok _ pl qb db2 p sz); [exact HM2|lia|unfold SIZEOF_MQ_HEADER in Hsz; lia]|].
    intros x' (pl' & HM' & E1 & E2 & E3). apply wp_ret. exists dp2, N. cbn [fst snd]. split.
    + split; [|cbn; by rewrite E2]. exists pl', qb, db2. split; [done|]. cbn. rewrite E1, E2, K1, K2. split; [|done].
      eapply des_ok_ext; [| |exact HD2]; [by intros []|done].
    + left. apply refused_intro; cbn; rewrite ?E1, ?E2, ?F0, ?F1; try done. intros t'. destruct (decide (t' = t)) as [->|]; [done|by apply Ht].
  - rewrite decide_False by lia. set (D' := <[d := MqDes p oflags]> (q_des (n_mq s))) in *. cbv zeta. cbn [g_msgqueues n_names with_mq]. rewrite K1, K2, Em.
    assert (p ∉ qb.*1) as Hpb.
    { apply (fresh_block qb p sz); [apply (na_block _ _ _ _ _ (proj2 HN))|unfold SIZEOF_MQ_HEADER in Hsz; lia|]. intros b y Hb. apply Hd, elem_of_app. by left. }
    assert (q_msgqs (n_mq s) !! p = None) as Hgp by (apply eq_None_not_Some; by rewrite <-(na_live _ _ _ _ _ (proj2 HN)), (na_dom _ _ _ _ _ (proj2 HN))).
    pose proof (conns_dead _ _ _ p (proj1 HM) Hgp) as Hc0.
    destruct (new_msgq_ok attr Hattr) as [Hfresh Hcap]. apply wp_bind. eapply wp_mono.
    { apply (register_msgq_ok (n_names s) (g_msgqueues s) (q_msgqs (n_mq s)) (q_des (n_mq s)) D' qb N p sz nm (new_msgq attr) HN); try done.
      - intros q Hq. unfold D'. rewrite conns_insert, decide_False by (done || cbn; congruence). lia.
      - unfold D'. rewrite conns_insert, decide_True by done. by rewrite Hc0. }
    intros [q' m'] HN'. apply wp_ret. exists dp2, (<[nm := (p, false)]> N). cbn [fst snd]. split.
    + split; [|cbn; by apply unused_insert]. exists pl, ((p, sz) :: qb), db2. split; [|split; [|exact HN']].
      * destruct HM2 as [HM2 Hh]. split; [|done]. cbn. pose proof (add_queue_ok _ idle _ a pl p (new_msgq attr) HM2 Hgp ltac:(lia) Hfresh) as HM3.
        apply (des_change_ok _ idle _ a pl D') in HM3; [exact HM3|]. intros d' e' [[<- <-]|[_ Hd']]%lookup_insert_Some; cbn; rewrite lookup_insert_is_Some'; [by left|right].
        destruct HM2 as (_ & _ & HO). by apply (mo_des _ _ _ HO d').
      * eapply des_ok_ext; [| |exact HD2]; [by intros []|done].
    + right. unfold open_ret. rewrite decide_False by lia. exists p. split; [lia|]. split; [cbn; by rewrite lookup_fmap, Hgp|]. split; [by apply got_des_intro|].
      split; [done|]. split; [cbn; by rewrite fmap_insert, Hcap|]. exact (new_contents (n_mq s) p (new_msgq attr) Hgp (proj1 Hfresh)).
Qed.

(** ** A queue that nothing refers to goes away *)

(** The lists of descriptors and the scheduler are as before. *)
Definition rest_kept s s' : Prop := n_links s' = n_links s /\ (forall p, dhead s' p = dhead s p) /\ q_des (n_mq s') = q_des (n_mq s).

(** The invariant without the lists of descriptors. *)
Definition nodes_core db s N : Prop := exists pl qb, mq_at (qb ++ db ++ ext) idle (n_mq s) a pl
  /\ names_ok (n_names s) (g_msgqueues s) (q_msgqs (n_mq s)) (q_des (n_mq s)) qb N /\ unused_idle (q_des (n_mq s)) a.

Lemma core_split s dp N : core s dp N <-> exists db, nodes_core db s N /\ des_ok (n_links s) (dhead s) (q_des (n_mq s)) dp db.
Proof.
  split; [intros [(pl & qb & db & HM & HD & HN) HU]; exists db; split; [by exists pl, qb|done]|].
  intros (db & (pl & qb & HM & HN & HU) & HD). split; [by exists pl, qb, db|done].
Qed.

Lemma discard_msgq_ok s dp dp' db N q n :
  nodes_core db s N -> n_names s !! q = Some n -> conns (q_des (n_mq s)) q = 0%nat ->
  wp (discard_msgq q s) (fun s' => nodes_core db s' (delete (mn_name n) N) /\ rest_kept s s' /\ gone (mn_name n) q (abs s dp N) (abs s' dp' (delete (mn_name n) N))).
Proof.
  intros (pl & qb & HM & ((l & Hr & Hl) & HN) & HU) Hn Hc. unfold discard_msgq.
  assert (q ∈ l) as Hql by (apply Hl; eauto). apply list_elem_of_split in Hql as (l1 & l2 & ->). apply wp_bind. eapply wp_mono; [by apply (sq_rem_spec _ _ l1 q l2)|].
  intros [q1 m1] [Hr1 Hf1]. destruct (frame_lookup _ _ _ _ _ _ Hf1 Hn) as (n1 & Hn1 & En1). assert (mn_name n1 = mn_name n) as Enm by (destruct n, n1; by injection En1 as -> -> ->).
  assert (q ∈ qb.*1) as Hqb by (apply (na_dom _ _ _ _ _ HN); eauto). apply list_elem_of_fmap in Hqb as ([q0 sz] & Eq & Hqb). cbn in Eq. subst q0.
  destruct (na_block _ _ _ _ _ HN _ Hqb) as [Hq0 Hsz]. cbn in Hq0, Hsz. apply elem_of_Permutation in Hqb as [qb' Hqb'].
  assert (nodes_ok (n_names s) (q_msgqs (n_mq s)) (q_des (n_mq s)) ((q, sz) :: qb') N) as HN2.
  { destruct HN as [A B C E F G I]. split; try done; [by rewrite <-Hqb'|intros b; rewrite <-Hqb'; apply C|intros y; rewrite <-Hqb'; apply E|intros y sz' k; rewrite <-Hqb'; apply F]. }
  pose proof (nodes_drop _ _ _ _ _ q sz n1 (nodes_frame _ _ _ _ _ _ _ HN2 Hf1) Hn1) as HN3. rewrite Enm in HN3.
  eapply wp_mono; [apply (msgqfree_ok (qb' ++ db ++ ext) idle (with_names q1 m1 s) a pl q sz)|].
  { eapply mq_at_perm; [|exact HM]. by rewrite Hqb'. }
  { done. } { done. } { apply (na_live _ _ _ _ _ HN). eauto. } { intros l Hlp. by apply HU. } { intros d e He. by eapply conns_zero. }
  intros s' (x' & pl' & -> & HM' & Eg & Ed & Ek & Hcont). cbn in Ed, Eg. split; [|split].
  - exists pl', qb'. split; [done|]. cbn. rewrite Ed, Eg. split; [|done]. split; [|done]. exists (l1 ++ l2). pose proof (sqr_nodup _ _ _ Hr) as Hnd. split.
    + destruct Hr1 as [A B C E F]. split; try done. eapply sseg_ext; [|exact C]. intros y Hy. apply lookup_delete_ne. intros <-.
      apply NoDup_app in Hnd as (_ & H1 & H2). apply NoDup_cons in H2 as [H2 _]. set_solver.
    + intros y. rewrite lookup_delete_is_Some. assert (is_Some (m1 !! y) <-> is_Some (n_names s !! y)) as ->.
      { destruct Hf1 as [_ Hf1]. specialize (Hf1 y). destruct (n_names s !! y), (m1 !! y); try done; split; eauto. }
      rewrite Hl. apply NoDup_app in Hnd as (_ & H1 & H2). apply NoDup_cons in H2 as [H2 _]. set_solver.
  - split; [done|]. split; [by intros []|done].
  - split; cbn; [done|by rewrite Eg, fmap_delete|]. split; [|done]. unfold mq_contents. by rewrite Eg, lookup_delete_eq.
Qed.

(** ** mq_unlink *)

Lemma unlink_locked_ok s dp N nm : core s dp N -> Forall good_char nm -> wp (unlink_locked nm s) (part_post (unlink_spec (Some nm)) s dp N id).
Proof.
  intros HC Hnm. pose proof HC as (db & HNC & HD)%core_split. pose proof HNC as (pl & qb & HM & HN & HU). unfold unlink_locked. apply wp_bind.
  eapply wp_mono; [by eapply mq_findnamed_ok|]. intros p [[-> HNn]|(n & Hp & Hn & Hnn & HNn)].
  { rewrite decide_True by done. apply wp_ret. exists dp, N. split; [done|]. unfold unlink_spec. cbn [aq_names abs]. rewrite HNn. by apply refused_intro. }
  rewrite decide_False by lia. rewrite (deref_Some _ _ n) by (done || lia). cbn [mbind res_bind]. destruct (na_node _ _ _ _ _ (proj2 HN) p n Hn) as (_ & _ & Ec & Hlt).
  apply wp_bind. destruct (Z.eqb_spec (mn_nconnect n) 0) as [E0|E0].
  - eapply wp_mono; [apply (discard_msgq_ok s dp dp db N p n HNC Hn); lia|]. intros s' (HNC' & (K1 & K2 & K3) & Hg). apply wp_ret. rewrite Hnn in *.
    exists dp, (delete nm N). split.
    + apply core_split. exists db. split; [done|]. cbn [fst snd]. rewrite K1, K3. eapply des_ok_ext; [exact K2|done|exact HD].
    + unfold unlink_spec. cbn [aq_names abs]. rewrite HNn. split; [done|]. split; [split; cbn; done|]. rewrite decide_True by (cbn; lia). exact Hg.
  - apply wp_bind, wp_store; [split; [lia|eauto]|]. apply wp_ret, wp_ret. rewrite (alter_insert _ _ _ n Hn). exists dp, (<[nm := (p, true)]> N). cbn [fst snd]. split.
    + apply core_split. exists db. split; [|eapply des_ok_ext; [| |exact HD]; [by intros []|done]]. exists pl, qb. split; [done|]. split; [|done]. split.
      * by eapply linked_change; [apply HN|..].
      * rewrite <-Hnn. by apply (nodes_change _ (q_msgqs (n_mq s)) (q_des (n_mq s)) qb N _ _ p n (set_mn_unlinked n) (proj2 HN)).
    + unfold unlink_spec. cbn [aq_names abs]. rewrite HNn. split; [done|]. split; [by split|]. rewrite decide_False by (cbn; lia). done.
Qed.

(** ** mq_close *)

(** The count of the queue of [d] after [d] is gone. *)
Lemma close_node_ok s db N d e n :
  nodes_core db s N -> q_des (n_mq s) !! d = Some e -> n_names s !! d_msgq e = Some n ->
  (conns (q_des (n_mq s)) (d_msgq e) = 1%nat -> forall l, parked l -> mqw l (d_msgq e) a = []) ->
  let D := delete d (q_des (n_mq s)) in
  let n' := set_mn_nconnect (Z.of_nat (conns D (d_msgq e))) n in
  (if negb (mn_nconnect n =? 0) then store (set_mn_nconnect (s16 (mn_nconnect n - 1))) (d_msgq e) (n_names s) else Ok (n_names s)) = Ok (<[d_msgq e := n']> (n_names s))
  /\ nodes_core db (with_names (g_msgqueues s) (<[d_msgq e := n']> (n_names s)) (with_mq (with_des D (n_mq s)) s)) N.
Proof.
  intros (pl & qb & HM & [HL HN] & HU) Hd Hn Hw D n'. destruct (na_node _ _ _ _ _ HN _ n Hn) as (_ & _ & Ec & Hlt). pose proof (node_pos _ _ _ _ _ _ _ HN Hn) as Hq.
  assert (conns (q_des (n_mq s)) (d_msgq e) = S (conns D (d_msgq e))) as Ecd by (unfold D; rewrite (conns_delete _ d e) by done; rewrite decide_True by done; lia). split.
  - destruct (Z.eqb_spec (mn_nconnect n) 0); [lia|]. cbn [negb]. rewrite store_valid by (split; [lia|eauto]). rewrite (alter_insert _ _ _ n Hn), s16_id by lia.
    unfold n'. do 4 f_equal. lia.
  - exists pl, qb. cbn. split; [|split; [split|]].
    + destruct HM as [HM Hh]. split; [|done]. apply des_change_ok; [exact HM|]. intros d' e' [_ Hd']%lookup_delete_Some. destruct HM as (_ & _ & HO). by apply (mo_des _ _ _ HO d').
    + by eapply linked_change.
    + replace N with (<[mn_name n := (d_msgq e, mn_unlinked n)]> N) at 1 by (apply insert_id, (na_names _ _ _ _ _ HN); eauto).
      apply (nodes_change _ (q_msgqs (n_mq s)) (q_des (n_mq s)) qb N _ D (d_msgq e) n n'); try done; [|cbn; lia].
      intros q Hq'. unfold D. rewrite (conns_delete (q_des (n_mq s)) d e) by done. rewrite decide_False by congruence. lia.
    + intros l q Hl Hc. destruct (decide (q = d_msgq e)) as [->|Hne]; [apply Hw; [|done]; by rewrite Ecd, Hc|]. apply HU; [done|].
      rewrite (conns_delete (q_des (n_mq s)) d e), decide_False by (done || congruence). fold D. lia.
Qed.

(** The descriptor moves from the list of its task to the free ones. *)
Lemma close_des_ok m Q D dp db t d l1 l2 m1 q1 m2 qf Q' :
  des_ok m Q D dp db -> dp (DTask t) = l1 ++ d :: l2 -> sq_repr m1 q1 (l1 ++ l2) -> frame sunlink (l1 ++ d :: l2) m m1 ->
  sq_repr m2 qf (dp DFree ++ [d]) -> frame sunlink (d :: dp DFree) m1 m2 -> (forall p, Q' p = dput DFree qf (dput (DTask t) q1 Q) p) ->
  des_ok m2 Q' (delete d D) (dput DFree (dp DFree ++ [d]) (dput (DTask t) (l1 ++ l2) dp)) db.
Proof.
  intros HD Ht H1 F1 H2 F2 HQ. set (dp' := dput DFree _ _). assert (dp' (DTask t) = l1 ++ l2) as Et by (unfold dp'; by rewrite dput_ne, dput_eq).
  assert (forall t', t' <> t -> dp' (DTask t') = dp (DTask t')) as Eo by (intros t' Hne; unfold dp'; by rewrite !dput_ne by congruence).
  pose proof (sqr_nodup _ _ _ (do_repr _ _ _ _ _ HD (DTask t))) as Hnd. rewrite Ht in Hnd.
  assert (d ∉ l1 ++ l2 /\ NoDup (l1 ++ l2)) as [Hd12 _] by (rewrite <-Permutation_middle in Hnd; by apply NoDup_cons in Hnd).
  assert (forall x, x ∈ dp (DTask t) -> x ∉ dp DFree) as Hdis by (intros x Hx Hf; by discriminate (do_disj _ _ _ _ _ HD _ _ _ Hx Hf)).
  assert (d ∈ dp (DTask t)) as Hdt by (rewrite Ht; set_solver).
  eapply (des_move m Q D dp db HD m2 _ _ dp' (DTask t) DFree (dp (DTask t) ++ dp DFree)).
  - rewrite Ht. eapply frame_trans; [eapply frame_mono; [|exact F1]; set_solver|eapply frame_mono; [|exact F2]; set_solver].
  - intros x. by rewrite elem_of_app.
  - intros p N1 N2. unfold dp'. rewrite HQ, !dput_ne by done. done.
  - intros x. rewrite Et, Ht. unfold dp'. rewrite dput_eq. set_solver.
  - intros x Hx Hf. exfalso. unfold dp' in Hf. rewrite Et in Hx. rewrite dput_eq in Hf. apply elem_of_app in Hf as [Hf| ->%list_elem_of_singleton]; [|done].
    apply (Hdis x); [rewrite Ht; set_solver|done].
  - rewrite HQ, Et, dput_ne, dput_eq by done. eapply sq_repr_frame; [exact F2| |exact H1]. intros x [->|Hx]%elem_of_cons; [done|]. intros Hc. apply (Hdis x); [rewrite Ht; set_solver|done].
  - unfold dp'. rewrite HQ, !dput_eq. exact H2.
  - intros x. rewrite lookup_delete_is_Some, (do_open _ _ _ _ _ HD). split.
    + intros [Hne [t' Hx]]. exists t'. destruct (decide (t' = t)) as [->|Hn]; [rewrite Et; rewrite Ht in Hx; set_solver|by rewrite Eo].
    + intros [t' Hx]. destruct (decide (t' = t)) as [->|Hn]; [rewrite Et in Hx; split; [by intros ->|exists t; rewrite Ht; set_solver]|]. rewrite Eo in Hx by done.
      split; [|by exists t']. intros <-. assert (DTask t' = DTask t) as [= ->] by by eapply (do_disj _ _ _ _ _ HD). done.
Qed.

Lemma close_locked_ok s dp N t d e :
  core s dp N -> d ∈ dp (DTask t) -> q_des (n_mq s) !! d = Some e ->
  (conns (q_des (n_mq s)) (d_msgq e) = 1%nat -> forall l, parked l -> mqw l (d_msgq e) a = []) ->
  wp (close_locked t d s) (part_post (close_spec t d) s dp N id).
Proof.
  intros HC Hdt He Hw. pose proof HC as (db & HNC & HD)%core_split. pose proof HNC as (pl & qb & HM & HN & HU). pose proof Hdt as (l1 & l2 & Ht)%list_elem_of_split.
  pose proof (do_repr _ _ _ _ _ HD (DTask t)) as Hrt. rewrite Ht in Hrt. assert (valid (n_links s) d) as Hv by (eapply sq_repr_valid; [exact Hrt|set_solver]).
  assert (is_Some (n_names s !! d_msgq e)) as [n Hn] by (apply (na_live _ _ _ _ _ (proj2 HN)); destruct HM as [(_ & _ & HO) _]; by apply (mo_des _ _ _ HO d)).
  assert (d ∉ dp DFree) as Hdf by (intros Hf; by discriminate (do_disj _ _ _ _ _ HD _ _ _ Hdt Hf)).
  pose proof (node_pos _ _ _ _ _ _ _ (proj2 HN) Hn) as Hq.
  unfold close_locked. apply wp_bind. eapply wp_mono; [by apply (sq_rem_spec _ _ l1 d l2)|]. intros [q1 m1] [Hr1 Hf1]. cbv zeta. cbn [n_mq with_msgdesq].
  rewrite (deref_Some _ _ e) by (done || apply Hv). cbn [mbind res_bind]. cbn [n_names n_mq q_des with_mq with_msgdesq with_des g_msgqueues].
  rewrite (deref_Some _ _ n) by (done || lia). cbn [mbind res_bind]. destruct (close_node_ok s db N d e n HNC He Hn Hw) as [-> HNC1]. cbn [mbind res_bind]. cbn [n_names with_names].
  erewrite deref_Some by (lia || apply lookup_insert_eq). cbn [mbind res_bind]. cbn [mn_nconnect mn_unlinked set_mn_nconnect].
  set (D := delete d (q_des (n_mq s))) in *. set (n' := set_mn_nconnect _ n) in *.
  set (s1 := with_names _ (<[d_msgq e := n']> (n_names s)) (with_mq (with_des D (n_mq s)) (with_msgdesq t q1 m1 s))).
  change (nodes_core db s1 N) in HNC1. set (dp' := dput DFree (dp DFree ++ [d]) (dput (DTask t) (l1 ++ l2) dp)).
  apply wp_bind. eapply (wp_mono _ (fun s2 => exists N', nodes_core db s2 N' /\ rest_kept s1 s2 /\
    if decide (conns D (d_msgq e) = 0%nat /\ mn_unlinked n = true) then gone (mn_name n) (d_msgq e) (abs s dp N) (abs s2 dp' N') else same_queues (abs s dp N) (abs s2 dp' N'))).
  { destruct (decide (conns D (d_msgq e) = 0%nat /\ mn_unlinked n = true)) as [[Hc0 Hu]|Hnot].
    - rewrite Hc0, Hu. cbn [Z.of_nat Z.eqb andb].
      eapply wp_mono; [apply (discard_msgq_ok s1 dp dp' db N (d_msgq e) n' HNC1); [cbn; by rewrite lookup_insert_eq|done]|].
      intros s2 (H1 & H2 & [G1 G2 G3]). exists (delete (mn_name n) N). split; [done|]. split; [done|]. by split.
    - replace (_ && _) with false; [apply wp_ret; by exists N|]. symmetry. apply andb_false_iff. destruct (mn_unlinked n); [left; apply Z.eqb_neq; naive_solver lia|by right]. }
  intros s2 (N' & HNC2 & (K1 & K2 & K3) & Hq'). apply wp_bind. rewrite K1. change (g_desfree s2) with (dhead s2 DFree). rewrite K2.
  eapply wp_mono; [apply (sq_addlast_spec m1 (g_desfree s) (dp DFree) d)|].
  { eapply sq_repr_frame; [exact Hf1| |apply (do_repr _ _ _ _ _ HD DFree)]. intros x Hx Hf. rewrite <-Ht in Hx. by discriminate (do_disj _ _ _ _ _ HD _ _ _ Hx Hf). }
  { by eapply frame_valid. } { done. }
  intros [qf m2] [Hr2 Hf2]. apply wp_ret. exists dp', N'. cbn [fst snd]. split.
  - apply core_split. exists db. split; [exact HNC2|]. cbn. rewrite K3. eapply close_des_ok; try done. intros p. rewrite dhead_desfree. destruct (decide (p = DFree)) as [->|Hp]; [by rewrite !dput_eq|]. rewrite !(dput_ne DFree) by done.
    rewrite K2. exact (dhead_msgdesq t q1 m1 s p).
  - unfold close_spec. rewrite decide_False by apply Hv. split; [done|]. exists e, (mn_name n), (mn_unlinked n), l1, l2. cbn [abs aq_des aq_names aq_own aq_spare].
    split; [done|]. split; [apply (na_names _ _ _ _ _ (proj2 HN)); eauto|]. cbn. rewrite K3. split; [done|]. split; [done|].
    split; [unfold dp'; by rewrite dput_ne, dput_eq|]. split; [intros t' Hne; unfold dp'; by rewrite !dput_ne by congruence|].
    split; [unfold dp'; rewrite dput_eq, length_app; cbn; lia|]. exact Hq'.
Qed.

Lemma open_locked_ok s dp N t nm oflags attr :
  core s dp N -> Forall good_char nm -> Z.of_nat (length nm) < 2 ^ 31 -> good_attr attr -> (forall q n, n_names s !! q = Some n -> mn_nconnect n + 1 < 2 ^ 15) ->
  wp (open_locked t nm oflags attr s) (part_post (open_spec t (Some nm) oflags attr) s dp N open_ret).
Proof.
  intros HC Hgc Hlen Hattr Hroom. pose proof HC as [(pl & qb & db & HM & HD & HN) HU]. unfold open_locked, open_spec. cbn [default from_option id].
  destruct nm as [|c nm]; [apply wp_ret; exists dp, N; split; [done|by apply refused_intro]|]. set (name := c :: nm) in *.
  rewrite (proj2 (Z.ltb_lt 0 _)) by (unfold name; cbn [length]; lia). apply wp_bind. eapply wp_mono; [by eapply mq_findnamed_ok|].
  intros p [[-> Hnone]|(n & Hp & Hn & Hnn & HNn)].
  - rewrite decide_False by (intros []; done). destruct (negb (Z.land oflags O_CREAT =? 0)) eqn:Ec.
    + eapply wp_mono; [by apply (create_msgq_ok s dp N t name oflags attr)|]. intros [d s'] (dp' & N' & HC' & Hs). exists dp', N'. split; [done|]. cbn [aq_names abs] in *. rewrite Hnone.
      destruct Hs as [Hs|Hs]; [by left|right]. split; [exact Ec|exact Hs].
    + apply wp_ret. exists dp, N. split; [done|]. cbn [aq_names abs]. rewrite Hnone. left. by apply refused_intro.
  - rewrite decide_True by lia. eapply wp_mono; [apply (connect_msgq_ok s dp N t p n oflags HC Hn); by eapply Hroom|].
    intros [d s'] (dp' & N' & HC' & Hs). exists dp', N'. split; [done|]. cbn [aq_names abs] in *. rewrite HNn. exact Hs.
Qed.

End calls.
