(* ===== verification/MqKeep.v ===== *)
(** * Message queues: what sending and receiving leave alone

    mq_send, mq_receive, mq_waitirq and the garbage collection change neither the
    descriptors nor which queues there are and how much they hold. *)

From stdpp Require Import sorting.
From S2P Require Import Prelude Queue Sched Sem KHeap Mq MqThm MqNameSpec.

(** What holds of the result, if there is one. *)
Definition yields {A} (r : res A) (P : A -> Prop) : Prop := match r with Ok x => P x | Err _ => True end.

Lemma yields_bind {A B} (r : res A) (f : A -> res B) P : yields r (fun x => yields (f x) P) -> yields (x ← r; f x) P.
Proof. by destruct r. Qed.

Lemma yields_mono {A} (r : res A) (P Q : A -> Prop) : yields r P -> (forall x, P x -> Q x) -> yields r Q.
Proof. destruct r; simpl; auto. Qed.

Lemma yields_any {A} (r : res A) (P : A -> Prop) : (forall x, P x) -> yields r P.
Proof. destruct r; simpl; auto. Qed.

Section keep.
  Context {HT : Type} {HK : KHeap HT} {SC : SchedConfig}.
  Implicit Types (s : mq_sys HT).

Record kept s s' : Prop := Kept {
  kp_des : q_des s' = q_des s;
  kp_caps : cap <$> q_msgqs s' = cap <$> q_msgqs s
}.

#[export] Instance kept_preorder : PreOrder kept.
Proof. split; [by split|]. intros s1 s2 s3 [A B] [A' B']. split; congruence. Qed.

(** Only the queues matter. *)
Lemma kept_fields s1 s2 s3 : kept s1 s2 -> q_des s3 = q_des s2 -> cap <$> q_msgqs s3 = cap <$> q_msgqs s2 -> kept s1 s3.
Proof. intros [A B] E1 E2. split; congruence. Qed.

Lemma store_caps f q (gs : gmap Z msgq_s) : (forall g, cap (f g) = cap g) -> yields (store f q gs) (fun gs' => cap <$> gs' = cap <$> gs).
Proof.
  intros Hf. unfold store. case_decide; [done|]. destruct (gs !! q); [|done]. cbn [yields]. apply map_eq. intros p. rewrite !lookup_fmap, lookup_alter.
  case_decide; [subst; destruct (gs !! p); simpl; [by rewrite Hf|done]|done].
Qed.

(** A part of a call that starts in [s] keeps it; [f] is the state in its result. *)
Definition keeps {B} (f : B -> mq_sys HT) s (r : res B) : Prop := yields r (fun x => kept s (f x)).

(** A part that starts in [s] keeps what the whole call started with. *)
Lemma keep_after {B} s0 s (r : res B) (f : B -> mq_sys HT) : kept s0 s -> keeps f s r -> yields r (fun x => kept s0 (f x)).
Proof. intros H0 H. eapply yields_mono; [exact H|]. intros x. apply transitivity, H0. Qed.

End keep.

(** A call is walked through part by part: of the parts that touch the queues the
    lemmas in the database say what they keep, of the others any result will do. *)
Create HintDb keep.

Ltac keep_end :=
  cbn [fst snd id w_sys q_des q_msgqs with_q_kernel with_sys with_msgqs with_msgs with_msgfree with_msgfreeirq with_delayed with_heap] in *;
  match goal with
  | H : kept _ _ |- kept _ _ => exact H
  | H : kept _ _ |- kept _ _ => eapply (kept_fields _ _ _ H); cbn [q_des q_msgqs with_q_kernel with_sys with_msgqs with_msgs with_msgfree with_msgfreeirq with_delayed with_heap]; congruence
  end.

Ltac keep_step := cbv zeta; match goal with
  | |- yields (mbind _ _) _ => apply yields_bind
  | |- yields (Ok _) _ => cbn [yields]; try keep_end
  | |- yields (Err _) _ => exact I
  | |- yields c_panic _ => exact I
  | |- yields (store ?f _ _) _ =>
      match f with
      | set_msglist _ => idtac | set_nmsgs _ => idtac | set_nwaitnotfull _ => idtac | set_nwaitnotempty _ => idtac
      end; eapply yields_mono; [by apply store_caps|intros ? ?]
  | |- yields (if ?b then _ else _) _ => destruct b
  | |- yields (match ?x with _ => _ end) _ => destruct x; cbn [fst snd id] in *
  | |- yields _ _ => eapply yields_mono; [eapply keep_after; [|solve [eauto with keep nocore]]; keep_end|intros ? ?; try keep_end]
  | |- yields _ _ => apply yields_any; intros ?
  end.

(** Walks through a call that starts in [s]. *)
Ltac keep s := assert (kept s s) by reflexivity; repeat keep_step.

Section calls.
  Context {HT : Type} {HK : KHeap HT} {SC : SchedConfig}.
  Implicit Types (s : mq_sys HT).

Lemma errno_keep e s : keeps id s (q_errno e s).
Proof. unfold keeps, q_errno. keep s. Qed.
#[local] Hint Resolve errno_keep : keep.

Lemma msgfree_keep x s : keeps id s (mq_msgfree x s).
Proof. unfold keeps, mq_msgfree, sched_free. keep s. Qed.
#[local] Hint Resolve msgfree_keep : keep.

Lemma msgalloc_keep s : keeps snd s (mq_msgalloc s).
Proof. unfold keeps, mq_msgalloc. keep s. Qed.
#[local] Hint Resolve msgalloc_keep : keep.

Lemma verifysend_keep d msg l p s : keeps snd s (mq_verifysend d msg l p s).
Proof. unfold keeps, mq_verifysend. keep s. Qed.
#[local] Hint Resolve verifysend_keep : keep.

Lemma verifyreceive_keep d msg l s : keeps snd s (mq_verifyreceive d msg l s).
Proof. unfold keeps, mq_verifyreceive. keep s. Qed.
#[local] Hint Resolve verifyreceive_keep : keep.

Lemma waitsend_block_keep q s : keeps snd s (waitsend_block q s).
Proof. unfold keeps, waitsend_block. keep s. Qed.
#[local] Hint Resolve waitsend_block_keep : keep.

Lemma waitsend_keep d s : keeps snd s (mq_waitsend d s).
Proof. unfold keeps, mq_waitsend. keep s. Qed.
#[local] Hint Resolve waitsend_keep : keep.

Lemma waitsend_resumed_keep d s : keeps snd s (mq_waitsend_resumed d s).
Proof. unfold keeps, mq_waitsend_resumed. keep s. Qed.
#[local] Hint Resolve waitsend_resumed_keep : keep.

Lemma wake_receiver_keep q s : keeps id s (wake_receiver q s).
Proof. unfold keeps, wake_receiver. keep s. Qed.
#[local] Hint Resolve wake_receiver_keep : keep.

Lemma wake_sender_keep q s : keeps id s (wake_sender q s).
Proof. unfold keeps, wake_sender. keep s. Qed.
#[local] Hint Resolve wake_sender_keep : keep.

Lemma dosend_keep d x msg l p s : keeps id s (mq_dosend d x msg l p s).
Proof. unfold keeps, mq_dosend. keep s. Qed.
#[local] Hint Resolve dosend_keep : keep.

Lemma send_finish_keep d msg l p r s : keeps snd s (send_finish d msg l p r s).
Proof. unfold keeps, send_finish. keep s. Qed.
#[local] Hint Resolve send_finish_keep : keep.

Lemma send_keep d msg l p s : keeps snd s (mq_send d msg l p s).
Proof. unfold keeps, mq_send. keep s. Qed.

Lemma send_resumed_keep d msg l p s : keeps snd s (mq_send_resumed d msg l p s).
Proof. unfold keeps, mq_send_resumed. keep s. Qed.

Lemma waitreceive_keep d s : keeps snd s (mq_waitreceive d s).
Proof. unfold keeps, mq_waitreceive. keep s. Qed.
#[local] Hint Resolve waitreceive_keep : keep.

Lemma waitreceive_resumed_keep d s : keeps snd s (mq_waitreceive_resumed d s).
Proof. unfold keeps, mq_waitreceive_resumed. keep s. Qed.
#[local] Hint Resolve waitreceive_resumed_keep : keep.

Lemma doreceive_keep d x s : keeps snd s (mq_doreceive d x s).
Proof. unfold keeps, mq_doreceive. keep s. Qed.
#[local] Hint Resolve doreceive_keep : keep.

Lemma receive_finish_keep d r s : keeps snd s (receive_finish d r s).
Proof. unfold keeps, receive_finish. keep s. Qed.
#[local] Hint Resolve receive_finish_keep : keep.

Lemma receive_keep d msg l s : keeps snd s (mq_receive d msg l s).
Proof. unfold keeps, mq_receive. keep s. Qed.

Lemma receive_resumed_keep d s : keeps snd s (mq_receive_resumed d s).
Proof. unfold keeps, mq_receive_resumed. keep s. Qed.

Lemma waitirq_keep x e s : keeps id s (mq_waitirq x e s).
Proof. unfold keeps, mq_waitirq. keep s. Qed.

Lemma garbage_keep fuel s : keeps id s (garbage_loop fuel s).
Proof.
  revert s. induction fuel as [|fuel IH]; intros s; [exact I|]. unfold keeps. cbn [garbage_loop]. keep s.
Qed.
#[local] Hint Resolve send_keep send_resumed_keep receive_keep receive_resumed_keep waitirq_keep garbage_keep : keep.

Lemma msgblockalloc_keep q n t s : keeps snd s (mq_msgblockalloc q n t s).
Proof. unfold keeps, mq_msgblockalloc. keep s. Qed.
#[local] Hint Resolve msgblockalloc_keep : keep.

Lemma init_pools_keep s : keeps id s (init_msg_pools s).
Proof. unfold keeps, init_msg_pools. keep s. Qed.

(** Any call of [mq_exec]. *)
Lemma exec_keep c (w : mq_world) : keeps w_sys (w_sys w) (mq_exec c w).
Proof. destruct w as [s pend], c; unfold keeps, mq_exec, sched_garbagecollection; cbn [w_sys w_pending]; keep s. Qed.

End calls.
