(* ===== verification/MqNameThm.v ===== *)
(** * Message queues by name: theorems

    Along any sequence of legal calls, by name and of sending and receiving, the
    calls refine the abstract queues of [MqNameSpec]. *)

From stdpp Require Import sorting.
From S2P Require Import Prelude Queue Mm MmInv MmBlocks MmSpec Sched SchedInv SchedOps SchedSpec SchedThm Sem SemSpec KHeap Mq MqWait MqPool MqSpec MqInit MqThm Names NSem NSemThm MqName MqNameInv MqNameMem MqNameSpec MqNameDes MqNameCalls MqKeep.

Section thm.
  Context {HT : Type} {HK : KHeap HT} {HKS : KHeapSpec HT} {SC : SchedConfig} (ext : list (Z * Z)) (idle : Z).
  Implicit Types (s : mqn_sys HT) (N : gmap (list Z) (Z * bool)).

(** ** The scheduler lock *)

Lemma core_kernel s a a' dp N k pl qb db :
  mq_at (qb ++ db ++ ext) idle (with_q_kernel k (n_mq s)) a' pl -> des_ok (n_links s) (dhead s) (q_des (n_mq s)) dp db ->
  names_ok (n_names s) (g_msgqueues s) (q_msgqs (n_mq s)) (q_des (n_mq s)) qb N -> unused_idle (q_des (n_mq s)) a -> same_waits a a' ->
  mqn_core ext idle (with_n_kernel k s) a' dp N.
Proof.
  intros HM HD HN HU Hw. split; [|intros l q Hl Hq; rewrite (mqw_same a a') by done; by apply HU].
  exists pl, qb, db. split; [done|]. split; [|done]. eapply des_ok_ext; [| |exact HD]; [by intros []|done].
Qed.

Lemma core_head s a dp N : mqn_core ext idle s a dp N -> dq_head (g_readytorun (n_kernel s)) = arun a.
Proof. intros [(pl & qb & db & [(Hr & _) _] & _) _]. by apply ref_run. Qed.

(** A call of the running task between sched_lock and sched_unlock. *)
Lemma locked_call_ok {B} (f : B -> Z) part spec s a dp N :
  mqn_core ext idle s a dp N -> as_int a = false -> alk a (arun a) < MAX_LOCK_COUNT ->
  (forall k a1, mqn_core ext idle (with_n_kernel k s) a1 dp N -> same_waits a a1 ->
     wp (part (with_n_kernel k s)) (part_post ext idle a1 spec (with_n_kernel k s) dp N f)) ->
  wp (locked part s) (fun '(r, s') => exists a' dp' N', mqn_core ext idle s' a' dp' N' /\ spec (abs s dp N) (f r) (abs s' dp' N')).
Proof.
  intros [(pl & qb & db & [HM Hh] & HD & HN) HU] Hint Hlk Hpart. unfold locked. apply wp_bind.
  eapply wp_mono; [apply (lock_ok (HKS := framed _) idle (n_mq s) a pl HM); done|]. intros k (a1 & HM1 & [Hw _ _] & _). apply wp_bind.
  eapply wp_mono; [apply (Hpart k a1); [by eapply core_kernel|done]|]. intros [r s1] (dp1 & N1 & HC1 & Hs1). cbn [fst snd] in *.
  destruct HC1 as [(pl1 & qb1 & db1 & [HM2 Hh2] & HD2 & HN2) HU2]. apply wp_bind.
  eapply wp_mono; [apply (unlock_ok (HKS := framed _) idle (n_mq s1) a1 pl1 HM2)|]. intros [b k2] (a2 & HM3 & [Hw2 _ _]). apply wp_ret.
  exists a2, dp1, N1. split; [by eapply core_kernel|exact Hs1].
Qed.

(** ** Sequences of calls *)

Inductive mqn_call : Type :=
| QCall (c : mq_call)
| QOpen (nm : option (list Z)) (oflags : Z) (attr : option mq_attr)
| QClose (d : ptr)
| QUnlink (nm : option (list Z)).

Record mqn_world : Type := NWorld { nw_sys : mqn_sys HT; nw_pending : gmap Z mq_pending }.

Definition mqn_exec (c : mqn_call) (w : mqn_world) : res (Z * mqn_world) :=
  let s := nw_sys w in
  match c with
  | QCall c => w' ← mq_exec c (World (n_mq s) (nw_pending w)); Ok (0, NWorld (with_mq (w_sys w') s) (w_pending w'))
  | QOpen nm oflags attr => '(r, s) ← mq_open nm oflags attr s; Ok (r, NWorld s (nw_pending w))
  | QClose d => '(r, s) ← mq_close d s; Ok (r, NWorld s (nw_pending w))
  | QUnlink nm => '(r, s) ← mq_unlink nm s; Ok (r, NWorld s (nw_pending w))
  end.

Fixpoint des_walk (fuel : nat) (m : gmap Z sq_entry) (p : ptr) : list Z :=
  match fuel with
  | O => []
  | S fuel => if decide (p = NULL) then [] else p :: des_walk fuel m (from_option se_flink NULL (m !! p))
  end.

(** The descriptors of a task. *)
Definition owned s (t : Z) : list Z := des_walk (list_fuel (n_links s)) (n_links s) (sq_head (msgdesq t s)).

Definition n_runner s : Z := dq_head (g_readytorun (n_kernel s)).

(** A descriptor may be closed by its task; when it is the last one of a queue, by
    the assumption of mq_close, nobody waits for the queue. *)
Definition close_legal s (d : ptr) : bool :=
  bool_decide (d ∈ owned s (n_runner s))
  && match q_des (n_mq s) !! d with
     | Some e =>
         match n_names s !! d_msgq e, q_msgqs (n_mq s) !! d_msgq e with
         | Some n, Some g => negb (mn_nconnect n =? 1) || ((nwaitnotfull g =? 0) && (nwaitnotempty g =? 0))
         | _, _ => false
         end
     | None => false
     end.

Definition good_name (nm : list Z) : bool := bool_decide (Forall good_char nm) && (Z.of_nat (length nm) <? 2 ^ 31).

(** Calls by name are made by tasks that may lock the scheduler; the counts of
    connections have room for one more. *)
Definition mqn_legal (c : mqn_call) (w : mqn_world) : bool :=
  let s := nw_sys w in
  let task := negb (k_interrupt (n_kernel s)) && bool_decide (nw_pending w !! n_runner s = None) && (locks (n_mq s) <? MAX_LOCK_COUNT) in
  match c with
  | QCall c => mq_legal idle c (World (n_mq s) (nw_pending w))
  | QOpen nm _ attr =>
      task && good_name (default [] nm) && (0 <=? from_option mq_msgsize 0 attr) && bool_decide (map_Forall (fun _ n => mn_nconnect n + 1 < 2 ^ 15) (n_names s))
  | QClose d => task && (bool_decide (d = NULL) || close_legal s d)
  | QUnlink nm => task && good_name (default [] nm)
  end.

(** The running tasks and the values returned, and the last state; nothing when a
    call is not legal. *)
Fixpoint mqn_run (cs : list mqn_call) (w : mqn_world) : res (option (list (Z * Z) * mqn_world)) :=
  match cs with
  | [] => Ok (Some ([], w))
  | c :: cs =>
      if mqn_legal c w then
        '(r, w') ← mqn_exec c w;
        o ← mqn_run cs w';
        Ok (match o with Some (rs, w'') => Some ((n_runner (nw_sys w), r) :: rs, w'') | None => None end)
      else Ok None
  end.

Definition mqn_spec (t : Z) (c : mqn_call) (A : aq) (r : Z) (A' : aq) : Prop :=
  match c with
  | QCall _ => same_des A A' /\ aq_names A' = aq_names A /\ aq_caps A' = aq_caps A
  | QOpen nm oflags attr => open_spec t nm oflags attr A r A'
  | QClose d => close_spec t d A r A'
  | QUnlink nm => unlink_spec nm A r A'
  end.

Inductive mqn_spec_run : list mqn_call -> aq -> list (Z * Z) -> aq -> Prop :=
| qr_nil A : mqn_spec_run [] A [] A
| qr_cons c cs A t r B rs C : mqn_spec t c A r B -> mqn_spec_run cs B rs C -> mqn_spec_run (c :: cs) A ((t, r) :: rs) C.

Lemma des_walk_repr (m : gmap Z sq_entry) q l : sq_repr m q l -> des_walk (list_fuel m) m (sq_head q) = l.
Proof.
  intros Hr. pose proof (sq_repr_length _ _ _ Hr) as Hlen. rewrite (sqr_head _ _ _ Hr). destruct Hr as [_ _ Hs _ H0].
  assert (length l < list_fuel m)%nat as Hf by (unfold list_fuel; lia). revert Hf. generalize (list_fuel m) as fuel. clear Hlen.
  induction l as [|x l IH]; intros [|fuel] Hf; try (simpl in Hf; lia); cbn [des_walk head default from_option id]; [by rewrite decide_True|].
  destruct Hs as [(n & En & Fn) Hs]. rewrite decide_False by set_solver. rewrite En. cbn [from_option]. change (se_flink n) with (sflink n). rewrite Fn.
  f_equal. apply IH; [done|set_solver|simpl in Hf; lia].
Qed.

Lemma core_owned s a dp N t : mqn_core ext idle s a dp N -> owned s t = dp (DTask t).
Proof. intros [(pl & qb & db & _ & HD & _) _]. apply des_walk_repr, (do_repr _ _ _ _ _ HD (DTask t)). Qed.

Lemma caps_dom (gs gs' : gmap Z msgq_s) q : cap <$> gs' = cap <$> gs -> is_Some (gs' !! q) <-> is_Some (gs !! q).
Proof. intros E. rewrite <-(fmap_is_Some cap), <-(fmap_is_Some cap (gs !! q)), <-!lookup_fmap. by rewrite E. Qed.

(** Sending and receiving keep the invariant. *)
Lemma call_core s pend a dp N c :
  mqn_core ext idle s a dp N -> mq_legal idle c (World (n_mq s) pend) = true ->
  wp (mq_exec c (World (n_mq s) pend)) (fun w' => exists a', mqn_core ext idle (with_mq (w_sys w') s) a' dp N /\ kept (n_mq s) (w_sys w')).
Proof.
  intros [(pl & qb & db & [HM Hh] & HD & HL & HN) HU] Hl. pose proof (mq_exec_ok (HKS := framed (qb ++ db ++ ext)) idle c (World (n_mq s) pend) a) as Hx.
  specialize (Hx ltac:(by exists pl) Hl). pose proof (exec_keep c (World (n_mq s) pend)) as Hk. unfold keeps in Hk.
  destruct (mq_exec c (World (n_mq s) pend)) as [w'|]; [|done]. cbn [yields w_sys] in Hk. destruct Hx as (a' & (pl' & Hh' & HM') & Hi).
  exists a'. split; [|done]. destruct Hk as [Ed Eg]. split.
  - exists pl', qb, db. split; [by split|]. cbn. rewrite Ed. split; [eapply des_ok_ext; [| |exact HD]; [by intros []|done]|]. split; [done|].
    destruct HN as [A B C E F G I]. split; try done. intros p. by rewrite A, (caps_dom _ _ p Eg).
  - cbn. rewrite Ed. intros l q Hl' Hq. apply (Hi l q Hl'); [intros d e He; by eapply conns_zero|by apply HU].
Qed.

(** What a legal call by name may rely on. *)
Lemma task_legal s a dp N (pend : gmap Z mq_pending) :
  mqn_core ext idle s a dp N ->
  (negb (k_interrupt (n_kernel s)) && bool_decide (pend !! n_runner s = None) && (locks (n_mq s) <? MAX_LOCK_COUNT)) = true ->
  as_int a = false /\ alk a (arun a) < MAX_LOCK_COUNT.
Proof.
  intros [(pl & qb & db & [(Hr & _) _] & _) _]. rewrite !andb_true_iff. intros [[Hi%negb_true_iff _] Hl%Z.ltb_lt]. pose proof Hr as (_ & _ & EI).
  split; [rewrite <-EI; exact Hi|]. by rewrite <-(locks_eq _ _ Hr).
Qed.

Lemma close_legal_ok s a dp N d :
  mqn_core ext idle s a dp N -> close_legal s d = true ->
  d ∈ dp (DTask (arun a)) /\ exists e, q_des (n_mq s) !! d = Some e /\ (conns (q_des (n_mq s)) (d_msgq e) = 1%nat -> forall l, parked l -> mqw l (d_msgq e) a = []).
Proof.
  intros HC [Hin%bool_decide_eq_true Hw]%andb_true_iff. unfold n_runner in Hin. rewrite (core_head s a dp N HC), (core_owned s a dp N _ HC) in Hin. split; [done|].
  destruct (q_des (n_mq s) !! d) as [e|] eqn:Ee; [|done]. exists e. split; [done|]. destruct (n_names s !! d_msgq e) as [n|] eqn:En; [|done].
  destruct (q_msgqs (n_mq s) !! d_msgq e) as [g|] eqn:Eg; [|done]. intros Hc l Hl. destruct HC as [(pl & qb & db & [(_ & _ & HO) _] & _ & _ & HN) _].
  destruct (na_node _ _ _ _ _ HN _ n En) as (_ & _ & Enc & _). rewrite Enc, Hc in Hw. cbn in Hw. apply andb_true_iff in Hw as [W1%Z.eqb_eq W2%Z.eqb_eq].
  destruct (wk_count _ _ (mo_waits _ _ _ HO) l _ g Hl Eg) as [_ Hn]. destruct (mqw l (d_msgq e) a) as [|y w]; [done|]. destruct Hl; simpl in Hn; lia.
Qed.

Lemma mqn_exec_ok w a dp N c :
  mqn_core ext idle (nw_sys w) a dp N -> mqn_legal c w = true ->
  wp (mqn_exec c w) (fun '(r, w') => exists a' dp' N', mqn_core ext idle (nw_sys w') a' dp' N' /\ mqn_spec (n_runner (nw_sys w)) c (abs (nw_sys w) dp N) r (abs (nw_sys w') dp' N')).
Proof.
  destruct w as [s pend]. cbn [nw_sys]. intros HC Hl. unfold n_runner. rewrite (core_head s a dp N HC).
  assert (forall r, r = -1 -> refused (abs s dp N) r (abs s dp N)) as Hrf by (intros r ->; by apply refused_intro).
  destruct c as [c|nm oflags attr|d|nm]; unfold mqn_legal, mqn_exec in *; cbn [nw_sys nw_pending] in *.
  - apply wp_bind. eapply wp_mono; [by apply (call_core s pend a dp N c)|]. intros w' (a' & HC' & [Ed Eg]). apply wp_ret. exists a', dp, N. split; [exact HC'|].
    split; [split; cbn; done|]. by cbn.
  - rewrite !andb_true_iff in Hl. destruct Hl as [[[Ht [Hg%bool_decide_eq_true Hlen%Z.ltb_lt]%andb_true_iff] Ha%Z.leb_le] Hroom%bool_decide_eq_true].
    destruct (task_legal s a dp N pend HC) as [Hi Hlk]; [by rewrite !andb_true_iff|]. apply wp_bind. unfold mq_open. rewrite (core_head s a dp N HC). apply wp_bind.
    destruct nm as [nm|]; cbn [default from_option id] in *.
    + eapply wp_mono; [apply (locked_call_ok open_ret _ (open_spec (arun a) (Some nm) oflags attr) s a dp N HC Hi Hlk)|].
      { intros k a1 HC1 Hw. apply open_locked_ok; try done. by destruct attr. }
      intros [d s'] (a' & dp' & N' & HC' & Hs). unfold open_ret in Hs. case_decide; repeat apply wp_ret; by exists a', dp', N'.
    + apply wp_ret. rewrite decide_True by done. repeat apply wp_ret. exists a, dp, N. split; [done|]. by apply Hrf.
  - apply andb_true_iff in Hl as [Ht Hd]. destruct (task_legal s a dp N pend HC Ht) as [Hi Hlk]. apply wp_bind. unfold mq_close. rewrite (core_head s a dp N HC).
    destruct (decide (d = NULL)) as [->|Hd0].
    + repeat apply wp_ret. exists a, dp, N. split; [done|]. cbn. unfold close_spec. rewrite decide_True by done. by apply Hrf.
    + apply orb_true_iff in Hd as [Hd|Hd]; [by apply bool_decide_eq_true in Hd|]. destruct (close_legal_ok s a dp N d HC Hd) as (Hin & e & He & Hw).
      eapply wp_mono; [apply (locked_call_ok id _ (close_spec (arun a) d) s a dp N HC Hi Hlk)|].
      { intros k a1 HC1 Hsw. apply (close_locked_ok ext idle a1 _ dp N (arun a) d e HC1 Hin He). intros Hc l Hl. rewrite (mqw_same a a1) by done. by apply Hw. }
      intros [r s'] (a' & dp' & N' & HC' & Hs). apply wp_ret. by exists a', dp', N'.
  - rewrite andb_true_iff in Hl. destruct Hl as [Ht [Hg%bool_decide_eq_true _]%andb_true_iff]. destruct (task_legal s a dp N pend HC Ht) as [Hi Hlk].
    apply wp_bind. destruct nm as [nm|]; cbn [mq_unlink default from_option id] in *.
    + eapply wp_mono; [apply (locked_call_ok id _ (unlink_spec (Some nm)) s a dp N HC Hi Hlk)|].
      { intros k a1 HC1 Hw. by apply unlink_locked_ok. }
      intros [r s'] (a' & dp' & N' & HC' & Hs). apply wp_ret. by exists a', dp', N'.
    + repeat apply wp_ret. exists a, dp, N. split; [done|]. by apply Hrf.
Qed.

(** ** mq_initialize *)

(** No queue, no descriptor and no free structure. *)
Record blank s : Prop := Blank {
  bk_names : n_names s = ∅ /\ q_msgqs (n_mq s) = ∅ /\ q_des (n_mq s) = ∅;
  bk_links : n_links s = ∅ /\ g_desfree s = sq_init /\ forall t, msgdesq t s = sq_init;
  bk_pools : sq_head (g_msgfree (n_mq s)) = NULL /\ sq_head (g_msgfreeirq (n_mq s)) = NULL
}.

Lemma mq_initialize_ok s a :
  mq_refines (HKS := framed ext) idle (n_mq s) a -> blank s ->
  wp (mq_initialize s) (fun s' => exists dp, mqn_core ext idle s' a dp ∅ /\ (forall t, dp (DTask t) = []) /\ (dp DFree = [] \/ length (dp DFree) = Z.to_nat NUM_MSG_DESCRIPTORS)).
Proof.
  intros HR [(N1 & N2 & N3) (L1 & L2 & L3) (P1 & P2)]. unfold mq_initialize. cbv zeta. apply wp_bind. pose proof (init_pools_keep (n_mq s)) as Hk. unfold keeps in Hk.
  pose proof (init_pools_ok (HKS := framed ext) idle (n_mq s) a HR P1 P2) as Hp. cbn [n_mq with_names]. destruct (init_msg_pools (n_mq s)) as [x|]; [|done].
  cbn [yields id] in Hk. destruct Hk as [Ed Eg]. destruct Hp as ((pl & Hh & HM) & _). rewrite N2, fmap_empty in Eg. apply fmap_empty_inv in Eg. rewrite N3 in Ed.
  apply wp_ret. set (s1 := with_desalloc _ _ _). assert (forall p, dhead s1 p = sq_init) as Hhd by (intros [| |t]; [exact L2|done|exact (L3 t)]).
  assert (des_ok (n_links s1) (dhead s1) (q_des (n_mq s1)) (fun _ => []) []) as HD.
  { cbn [n_links s1 with_desalloc with_mq with_names n_mq]. rewrite L1, Ed. split; try done; try set_solver.
    - intros p. rewrite Hhd. apply sq_repr_nil.
    - by intros y [? ?].
    - by intros y [? ?].
    - intros d. split; [by intros [? ?]|intros [t Ht]; set_solver]. }
  eapply wp_mono; [apply (mq_desblockalloc_ok ext idle s1 a pl (fun _ => []) [] []); [by split|exact HD]|].
  intros s' (h & db & dp & new & HM' & Em & [K1 K2] & HD' & Ht & Hf & Hlen). exists dp. split; [|split; [done|rewrite Hf; by destruct Hlen as [->|Hlen]; [left|right]]]. split.
  - exists pl, [], db. rewrite Em, K1, K2. split; [done|]. split; [exact HD'|]. cbn. rewrite Eg, Ed, N1. split.
    + exists []. split; [apply sq_repr_nil|]. intros p. split; [by intros [? ?]|set_solver].
    + split; try done; try set_solver; [intros p; split; by intros [? ?]|constructor|intros p; split; [by intros [? ?]|set_solver]|].
      intros nm v. split; [done|by intros (p & n & ? & _)].
  - intros l q Hl _. pose proof HM as (_ & _ & HO). destruct (mqw l q a) as [|y w] eqn:Ew; [done|].
    destruct (parked_alive (q_msgqs x) a l q y (mo_waits _ _ _ HO) Hl) as [? ?]; [rewrite Ew; left|]. by rewrite Eg in *.
Qed.

(** C19: along any sequence of legal calls of mq_open, mq_close and mq_unlink by
    tasks, mixed with mq_send, mq_receive, mq_waitirq and the garbage collection by
    tasks and interrupt handlers, no call faults or panics and the calls by name do
    what [mqn_spec] says: mq_open connects to the queue with the name or makes an
    empty one with the capacity asked for, and gives the task a new descriptor; a
    queue goes away exactly when its name is unlinked and no descriptor is left;
    nothing else changes.  Throughout, every message structure is in exactly one
    list, every queue is sorted and counts its messages, waiters and descriptors
    truly, every descriptor is free or owned by one task, and messages, queues and
    descriptors lie in live blocks of the heap, apart from each other. *)
Theorem message_queues_refine cs w a dp N :
  mqn_core ext idle (nw_sys w) a dp N ->
  wp (mqn_run cs w) (fun o => forall rs w', o = Some (rs, w') -> exists a' dp' N',
    mqn_core ext idle (nw_sys w') a' dp' N' /\ mqn_spec_run cs (abs (nw_sys w) dp N) rs (abs (nw_sys w') dp' N')).
Proof.
  revert w a dp N. induction cs as [|c cs IH]; intros w a dp N HC; cbn [mqn_run]; [intros rs w' [= <- <-]; exists a, dp, N; split; [done|constructor]|].
  destruct (mqn_legal c w) eqn:El; [|done]. apply wp_bind. eapply wp_mono; [by apply (mqn_exec_ok w a dp N c)|].
  intros [r w1] (a1 & dp1 & N1 & HC1 & Hs1). apply wp_bind. eapply wp_mono; [by apply (IH w1 a1 dp1 N1)|]. intros [[rs1 w2]|] Hr; apply wp_ret; [|done].
  intros rs w' [= <- <-]. destruct (Hr rs1 w2 eq_refl) as (a2 & dp2 & N2 & HC2 & Hs2). exists a2, dp2, N2. split; [done|]. by econstructor.
Qed.

End thm.

(** ** A small system *)

(** The kernel and the heap of [demo_mq] before mq_initialize. *)
Definition demo_blank : mqn_sys mm_state :=
  MqnSys mm_state (MqSys mm_state (SemSys (demo_kernel 0) ∅ 0) ∅ ∅ ∅ sq_init sq_init sq_init demo_heap) ∅ sq_init ∅ sq_init sq_init ∅.

Definition demo_mqn : mqn_sys mm_state := match mq_initialize demo_blank with Ok s => s | Err _ => demo_blank end.

Definition name_q : list Z := [113].

Definition demo_d1 : Z := match mqn_run 16 [QOpen (Some name_q) 7 (Some (MqAttr 2 100))] (NWorld demo_mqn ∅) with Ok (Some ([(_, r)], _)) => r | _ => 0 end.

Lemma demo_blank_ok : mq_refines (HKS := framed []) 16 (n_mq demo_blank) (demo_sched 0).
Proof.
  exists (fun _ => []). split; [done|]. split; [apply demo_refines|]. split; [apply demo_inv; lia|]. split; try done.
  - split; try done; try set_solver.
    + intros p q Hq. assert (q = sq_init) as -> by (destruct p; simpl in Hq; by simplify_eq). apply sq_repr_nil.
    + by intros x [? ?].
    + exists [], (fun _ => (0, 0)). split; [exists demo_regions; split; [apply demo_ok|split; [vm_compute; done|vm_compute; reflexivity]]|]. split; [by intros x [? ?]|done].
  - pose proof demo_mq_ok as (pl & _ & _ & _ & HO). destruct (mo_waits _ _ _ HO) as [_ _ W3 W4]. split; try done. intros l x Hl Hx. destruct Hl; simpl in Hx; set_solver.
Qed.

Lemma demo_mqn_core : exists dp, mqn_core [] 16 demo_mqn (demo_sched 0) dp ∅.
Proof.
  pose proof (mq_initialize_ok [] 16 demo_blank (demo_sched 0) demo_blank_ok) as H. specialize (H ltac:(by repeat split)). unfold demo_mqn.
  destruct (mq_initialize demo_blank) as [s|]; [|done]. destruct H as (dp & H & _). by exists dp.
Qed.

(** The task opens the queue twice, sends, receives and unlinks it; the queue lives
    until both descriptors and the one opened later are closed. *)
Definition demo_mqn_calls : list mqn_call :=
  [QOpen (Some name_q) 7 (Some (MqAttr 2 100)); QOpen (Some name_q) 15 None; QOpen (Some name_q) 3 None; QCall (MSend demo_d1 (Some [7; 8]) 2 5);
   QCall (MSend demo_d1 (Some [9]) 1 6); QCall (MReceive (demo_d1 + 12) true 32); QUnlink (Some name_q); QClose demo_d1; QOpen (Some name_q) 3 None;
   QClose (demo_d1 + 12); QUnlink (Some name_q); QUnlink None; QClose NULL; QClose (demo_d1 + 24); QUnlink (Some name_q); QOpen (Some name_q) 3 None].

Lemma message_queues_refine_witness :
  (match mqn_run 16 demo_mqn_calls (NWorld demo_mqn ∅) with
   | Ok (Some (rs, w)) => Some (rs.*2, bool_decide (n_names (nw_sys w) = ∅), bool_decide (q_msgqs (n_mq (nw_sys w)) = ∅)) | _ => None end)
    = Some ([demo_d1; -1; demo_d1 + 12; 0; 0; 0; 0; 0; demo_d1 + 24; 0; 0; -1; -1; 0; -1; -1], true, true)
  /\ exists dp, wp (mqn_run 16 demo_mqn_calls (NWorld demo_mqn ∅)) (fun o => forall rs w', o = Some (rs, w') -> exists a' dp' N',
       mqn_core [] 16 (nw_sys w') a' dp' N' /\ mqn_spec_run demo_mqn_calls (abs demo_mqn dp ∅) rs (abs (nw_sys w') dp' N')).
Proof.
  split; [vm_compute; reflexivity|]. destruct demo_mqn_core as [dp HC]. exists dp.
  apply (message_queues_refine [] 16 demo_mqn_calls (NWorld demo_mqn ∅) (demo_sched 0) dp ∅). exact HC.
Defined.

(** ** Findings *)

(** mq_maxmsg is cut to 16 bits: a queue for 40000 messages takes none, so that
    mq_send on a descriptor that may not wait fails at once. *)
Lemma maxmsg_wraps : capacity (Some (MqAttr 40000 8)) = (-25536, 8).
Proof. vm_compute. reflexivity. Qed.

(** The name of a queue that was unlinked while it is open is still found:
    mq_open connects to the old queue, and with O_EXCL it fails. *)
Lemma unlinked_queue_is_found :
  (match mqn_run 16 [QOpen (Some name_q) 7 None; QUnlink (Some name_q); QOpen (Some name_q) 7 None; QOpen (Some name_q) 15 None] (NWorld demo_mqn ∅) with
   | Ok (Some (rs, w)) => Some (rs.*2, bool_decide (d_msgq <$> q_des (n_mq (nw_sys w)) !! demo_d1 = d_msgq <$> q_des (n_mq (nw_sys w)) !! (demo_d1 + 12))) | _ => None end)
    = Some ([demo_d1; 0; demo_d1 + 12; -1], true).
Proof. vm_compute. reflexivity. Qed.
