(* ===== verification/Pid.v ===== *)
(** * Task IDs (src/nuttx/sched/task_setup.c, sched_gettcb.c, sched_releasetcb.c, ...)

    The table [g_pidhash] has one slot for each value of the low bits of a task
    ID, and gives the TCB of an ID; [g_lastpid] is the last ID that was assigned.
    The slot of ID 0 belongs to the idle task for ever.  What the table stands for
    is a map from IDs to TCBs. *)

From S2P Require Import Prelude.

Record pidhash_s : Type := PidHash { ph_tcb : ptr; ph_pid : Z }.

(** [p_tcbs] has the field [pid] of every TCB. *)
Record pid_sys : Type := PidSys {
  g_pidhash : list pidhash_s;
  g_lastpid : Z;
  p_tcbs : gmap Z Z
}.

Definition with_lastpid (p : Z) (s : pid_sys) : pid_sys := PidSys (g_pidhash s) p (p_tcbs s).
Definition with_pidhash (t : list pidhash_s) (s : pid_sys) : pid_sys := PidSys t (g_lastpid s) (p_tcbs s).
Definition with_pids (m : gmap Z Z) (s : pid_sys) : pid_sys := PidSys (g_pidhash s) (g_lastpid s) m.

Definition INVALID_PROCESS_ID : Z := 0.

(** CONFIG_MAX_TASKS is a power of two. *)
Class PidConfig : Type := { max_tasks_log : nat; max_tasks_range : (1 <= max_tasks_log <= 30)%nat }.
Definition CONFIG_MAX_TASKS `{PidConfig} : Z := 2 ^ Z.of_nat max_tasks_log.
Definition MAX_TASKS_MASK `{PidConfig} : Z := CONFIG_MAX_TASKS - 1.
Definition PIDHASH `{PidConfig} (pid : Z) : Z := Z.land pid MAX_TASKS_MASK.

Section ops.
  Context {PC : PidConfig}.
  Implicit Types (s : pid_sys).

Definition get_slot (i : Z) s : res pidhash_s :=
  if i <? 0 then Err FWild else match g_pidhash s !! Z.to_nat i with Some e => Ok e | None => Err FWild end.

Definition put_slot (i : Z) (e : pidhash_s) s : res pid_sys :=
  _ ← get_slot i s;
  Ok (with_pidhash (<[Z.to_nat i := e]> (g_pidhash s)) s).

(** [os_start]: an empty table, and the idle task. *)
Definition init_pids (g_idletcb : ptr) s : res pid_sys :=
  let s := with_lastpid 0 (with_pidhash (replicate (Z.to_nat CONFIG_MAX_TASKS) (PidHash NULL INVALID_PROCESS_ID)) s) in
  put_slot (PIDHASH 0) (PidHash g_idletcb 0) s.

(** [n] tries are left; [true] is a return of OK. *)
Fixpoint assign_loop (n : nat) (tcb : ptr) s : res (bool * pid_sys) :=
  match n with
  | O => Ok (false, s)
  | S n =>
      let next_pid := s32 (g_lastpid s + 1) in
      let next_pid := if next_pid <=? 0 then 1 else next_pid in
      let s := with_lastpid next_pid s in
      let hash_ndx := PIDHASH next_pid in
      e ← get_slot hash_ndx s;
      if decide (ph_tcb e = NULL) then
        s ← put_slot hash_ndx (PidHash tcb next_pid) s;
        m ← store (fun _ => next_pid) tcb (p_tcbs s);
        Ok (true, with_pids m s)
      else assign_loop n tcb s
  end.

Definition task_assignpid (tcb : ptr) s : res (bool * pid_sys) := assign_loop (Z.to_nat CONFIG_MAX_TASKS) tcb s.

Definition sched_gettcb (pid : Z) s : res ptr :=
  if 0 <=? pid then e ← get_slot (PIDHASH pid) s; Ok (if pid =? ph_pid e then ph_tcb e else NULL)
  else Ok NULL.

Definition sched_verifytcb (tcb : ptr) s : res bool :=
  pid ← deref (p_tcbs s) tcb;
  e ← get_slot (PIDHASH pid) s;
  Ok (tcb =? ph_tcb e).

Definition sched_releasepid (pid : Z) s : res pid_sys := put_slot (PIDHASH pid) (PidHash NULL INVALID_PROCESS_ID) s.

(** The part of [sched_releasetcb] about the ID, and the memory of the TCB. *)
Definition release_tcb_pid (tcb : ptr) s : res pid_sys :=
  pid ← deref (p_tcbs s) tcb;
  s ← (if negb (pid =? 0) then sched_releasepid pid s else Ok s);
  Ok (with_pids (delete tcb (p_tcbs s)) s).

(** The TCBs that the handler of [sched_foreach] is called with, in order. *)
Definition sched_foreach s : list ptr := omap (fun e => if decide (ph_tcb e = NULL) then None else Some (ph_tcb e)) (g_pidhash s).

(** ** The invariant *)

Definition slot s (i : Z) (e : pidhash_s) : Prop := 0 <= i /\ g_pidhash s !! Z.to_nat i = Some e.

(** The table stands for the map [live] from IDs to TCBs. *)
Record pid_inv s (live : gmap Z Z) (idle : ptr) : Prop := PidInv {
  pi_length : Z.of_nat (length (g_pidhash s)) = CONFIG_MAX_TASKS;
  pi_last : 0 <= g_lastpid s <= INT_MAX;
  pi_idle : live !! 0 = Some idle;
  pi_live : forall pid tcb, live !! pid = Some tcb <-> 0 <= pid <= INT_MAX /\ tcb <> NULL /\ slot s (PIDHASH pid) (PidHash tcb pid);
  pi_slot : forall i e, slot s i e -> ph_tcb e <> NULL -> PIDHASH (ph_pid e) = i /\ live !! ph_pid e = Some (ph_tcb e);
  pi_pids : forall pid tcb, live !! pid = Some tcb -> p_tcbs s !! tcb = Some pid
}.

Lemma max_tasks_pos : 2 <= CONFIG_MAX_TASKS <= 2 ^ 30.
Proof.
  unfold CONFIG_MAX_TASKS. pose proof max_tasks_range. split; [change 2 with (2 ^ 1) at 1|]; apply Z.pow_le_mono_r; lia.
Qed.

Lemma pidhash_mod pid : PIDHASH pid = pid mod CONFIG_MAX_TASKS.
Proof. unfold PIDHASH, MAX_TASKS_MASK, CONFIG_MAX_TASKS. rewrite <-Z.land_ones by lia. by rewrite Z.ones_equiv, <-Z.sub_1_r. Qed.

Lemma pidhash_range pid : 0 <= PIDHASH pid < CONFIG_MAX_TASKS.
Proof. rewrite pidhash_mod. apply Z.mod_pos_bound. pose proof max_tasks_pos. lia. Qed.

(** The largest ID is in the last slot. *)
Lemma int_max_slots : exists q, INT_MAX = q * CONFIG_MAX_TASKS + (CONFIG_MAX_TASKS - 1) /\ 1 <= q.
Proof.
  unfold CONFIG_MAX_TASKS, INT_MAX. pose proof max_tasks_range. set (k := Z.of_nat max_tasks_log). exists (2 ^ (31 - k) - 1).
  assert (2 ^ (31 - k) * 2 ^ k = 2 ^ 31) by (rewrite <-Z.pow_add_r by lia; f_equal; lia). assert (2 ^ 1 <= 2 ^ (31 - k)) by (apply Z.pow_le_mono_r; lia). split; [lia|]. lia.
Qed.

Lemma slot_exists s live idle i : pid_inv s live idle -> 0 <= i < CONFIG_MAX_TASKS -> exists e, slot s i e /\ get_slot i s = Ok e.
Proof.
  intros Hinv Hi. pose proof (pi_length _ _ _ Hinv). destruct (lookup_lt_is_Some_2 (g_pidhash s) (Z.to_nat i)) as [e He]; [lia|].
  exists e. split; [by split; [lia|]|]. unfold get_slot. rewrite (proj2 (Z.ltb_ge _ _)) by lia. by rewrite He.
Qed.

Lemma slot_inj s i e e' : slot s i e -> slot s i e' -> e = e'.
Proof. intros [_ H1] [_ H2]. congruence. Qed.

Lemma slot_put s i e j e' : 0 <= i -> (exists x, slot s i x) -> slot (with_pidhash (<[Z.to_nat i := e]> (g_pidhash s)) s) j e' <-> (j = i /\ e' = e) \/ (j <> i /\ slot s j e').
Proof.
  intros Hi [x [_ Hx]]. unfold slot. cbn. apply lookup_lt_Some in Hx. rewrite list_lookup_insert_Some. split.
  - intros [Hj [(E1 & <- & _)|[E1 E2]]]; [left; split; [lia|done]|right]. split; [|done]. intros ->. done.
  - intros [[-> ->]|(Hne & Hj & He)]; (split; [done|]); [by left|right]. split; [lia|done].
Qed.

Lemma free_slot s live idle i : pid_inv s live idle -> (exists e, slot s i e /\ ph_tcb e = NULL) -> forall pid tcb, live !! pid = Some tcb -> PIDHASH pid <> i.
Proof.
  intros Hinv (e & He & E0) pid tcb Hl Hi. apply (pi_live _ _ _ Hinv) in Hl as (_ & Ht & Hs). rewrite Hi in Hs. pose proof (slot_inj _ _ _ _ He Hs). by subst e.
Qed.

(** ** Assigning *)

(** A slot is free. *)
Definition has_room s : Prop := exists i e, slot s i e /\ ph_tcb e = NULL.

(** The ID that is tried after [p], and the [j]-th one. *)
Definition next_id (p : Z) : Z := if p =? INT_MAX then 1 else p + 1.
Definition id_after (p j : Z) : Z := if p + j <=? INT_MAX then p + j else p + j - INT_MAX.

Lemma next_id_spec p : 0 <= p <= INT_MAX -> (let n := s32 (p + 1) in if n <=? 0 then 1 else n) = next_id p.
Proof.
  intros Hp. unfold next_id. cbv zeta. destruct (Z.eqb_spec p INT_MAX) as [->|Hne]; [done|]. rewrite s32_id by lia. by rewrite (proj2 (Z.leb_gt _ _)) by lia.
Qed.

Lemma id_after_next p j : 0 <= p <= INT_MAX -> 1 <= j < INT_MAX -> id_after (next_id p) j = id_after p (j + 1).
Proof. unfold next_id, id_after. intros Hp Hj. destruct (Z.eqb_spec p INT_MAX); repeat case_match; lia. Qed.

(** Every slot but the first is tried. *)
Lemma all_slots_tried p i : 0 <= p <= INT_MAX -> 1 <= i < CONFIG_MAX_TASKS -> exists j, 1 <= j <= CONFIG_MAX_TASKS /\ PIDHASH (id_after p j) = i.
Proof.
  intros Hp Hi. pose proof max_tasks_pos as HM. destruct int_max_slots as (q & Hq & Hq1). set (M := CONFIG_MAX_TASKS) in *. setoid_rewrite pidhash_mod. fold M.
  assert (0 <= p mod M < M) as Hr by (apply Z.mod_pos_bound; lia). pose proof (Z.div_mod p M ltac:(lia)) as Hd. set (r := p mod M) in *. set (d := p / M) in *.
  set (j := if r <? i then i - r else i - r + M). assert (1 <= j <= M) as Hj by (unfold j; destruct (Z.ltb_spec r i); lia).
  destruct (Z.le_gt_cases (p + j) INT_MAX) as [Hle|Hgt].
  - exists j. split; [done|]. unfold id_after. rewrite (proj2 (Z.leb_le _ _)) by done. unfold j in *. symmetry. destruct (Z.ltb_spec r i).
    + apply (Z.mod_unique_pos _ _ d); lia.
    + apply (Z.mod_unique_pos _ _ (d + 1)); lia.
  - assert (d = q) as Edq by (unfold j in *; destruct (Z.ltb_spec r i); nia). exists (INT_MAX - p + i).
    assert (r >= i) as Hri by (unfold j in *; destruct (Z.ltb_spec r i); [nia|lia]). split; [subst d; lia|]. unfold id_after.
    rewrite (proj2 (Z.leb_gt _ _)) by lia. replace (p + (INT_MAX - p + i) - INT_MAX) with i by lia. apply Z.mod_small. lia.
Qed.

(** The slot of the next ID is free: it is assigned. *)
Lemma assign_now s live idle tcb p :
  pid_inv s live idle -> 1 <= p <= INT_MAX -> (exists e, slot s (PIDHASH p) e /\ ph_tcb e = NULL) -> tcb <> NULL -> is_Some (p_tcbs s !! tcb) -> (forall q, live !! q <> Some tcb) ->
  let s' := PidSys (<[Z.to_nat (PIDHASH p) := PidHash tcb p]> (g_pidhash s)) p (<[tcb := p]> (p_tcbs s)) in
  pid_inv s' (<[p := tcb]> live) idle /\ live !! p = None.
Proof.
  intros Hinv Hp Hfree Ht Hts Hnew s'. pose proof Hinv as [A B C D E F]. pose proof (pidhash_range p) as Hh. pose proof (free_slot _ _ _ _ Hinv Hfree) as Hno.
  assert (live !! p = None) as Hpn by (destruct (live !! p) as [y|] eqn:Ey; [|done]; by destruct (Hno p y Ey)).
  assert (forall i e, slot s' i e <-> (i = PIDHASH p /\ e = PidHash tcb p) \/ (i <> PIDHASH p /\ slot s i e)) as Hsl.
  { intros i e. destruct Hfree as (x & Hx & _). apply (slot_put s (PIDHASH p) (PidHash tcb p) i e); [lia|eauto]. }
  split; [|done]. split; cbn.
  - by rewrite length_insert.
  - lia.
  - rewrite lookup_insert_ne; [done|lia].
  - intros pid y. rewrite Hsl, lookup_insert_Some, (D pid y). split.
    + intros [[<- <-]|(Hne & H1 & H2 & H3)]; [split; [lia|]; split; [done|by left]|]. split; [done|]. split; [done|]. right. split; [|done].
      intros Hc. apply (Hno pid y); [by apply D|done].
    + intros (H1 & H2 & [[Hi [= -> ->]]|[Hi H3]]); [by left|right]. split; [by intros <-|done].
  - intros i e. rewrite Hsl. intros [[-> ->]|[Hi He]] Hne; [cbn; by rewrite lookup_insert_eq|]. destruct (E i e He Hne) as [E1 E2]. split; [done|].
    rewrite lookup_insert_ne; [done|]. intros E3. apply Hi. by rewrite E3, E1.
  - intros pid y. rewrite !lookup_insert_Some. intros [[<- <-]|[Hne Hl]]; [by left|right]. split; [|by apply F]. intros <-. by apply (Hnew pid).
Qed.

Lemma inv_lastpid s live idle p : pid_inv s live idle -> 0 <= p <= INT_MAX -> pid_inv (with_lastpid p s) live idle.
Proof. intros [A B C D E F] Hp. by split. Qed.

Definition assigned s live idle tcb (r : bool * pid_sys) : Prop :=
  let '(ok, s') := r in
  if ok then exists pid, 1 <= pid <= INT_MAX /\ live !! pid = None /\ pid_inv s' (<[pid := tcb]> live) idle /\ p_tcbs s' = <[tcb := pid]> (p_tcbs s)
  else pid_inv s' live idle /\ p_tcbs s' = p_tcbs s.

Lemma assign_loop_ok n tcb s live idle :
  pid_inv s live idle -> tcb <> NULL -> is_Some (p_tcbs s !! tcb) -> (forall q, live !! q <> Some tcb) -> Z.of_nat n <= INT_MAX ->
  wp (assign_loop n tcb s) (fun '(ok, s') => assigned s live idle tcb (ok, s')
    /\ (ok = false -> forall j e, 1 <= j <= Z.of_nat n -> slot s (PIDHASH (id_after (g_lastpid s) j)) e -> ph_tcb e <> NULL)).
Proof.
  revert s. induction n as [|n IH]; intros s Hinv Ht Hts Hnew Hn; cbn [assign_loop].
  { apply wp_ret. split; [done|]. intros _ j e Hj. lia. }
  pose proof (pi_last _ _ _ Hinv) as Hl. pose proof (next_id_spec (g_lastpid s) Hl) as En. cbv zeta in En |- *. rewrite En. set (p := next_id (g_lastpid s)).
  assert (1 <= p <= INT_MAX) as Hp by (unfold p, next_id; destruct (Z.eqb_spec (g_lastpid s) INT_MAX); unfold INT_MAX in *; lia).
  assert (id_after (g_lastpid s) 1 = p) as Ep by (unfold id_after, p, next_id; destruct (Z.eqb_spec (g_lastpid s) INT_MAX); destruct (Z.leb_spec (g_lastpid s + 1) INT_MAX); lia).
  pose proof (inv_lastpid s live idle p Hinv ltac:(lia)) as Hinv1. destruct (slot_exists _ _ _ _ Hinv1 (pidhash_range p)) as (e & He & ->). cbn [mbind res_bind].
  destruct (decide (ph_tcb e = NULL)) as [E0|E0].
  - unfold put_slot. destruct (slot_exists _ _ _ _ Hinv1 (pidhash_range p)) as (e' & _ & ->). cbn [mbind res_bind]. cbn [p_tcbs with_pidhash with_lastpid].
    rewrite store_valid by done. cbn [mbind res_bind]. apply wp_ret. destruct Hts as [y Hy]. rewrite (alter_at _ _ _ y Hy).
    destruct (assign_now s live idle tcb p Hinv Hp) as [Hi Hn0]; [exists e; done|done|eauto|done|]. split; [|done]. exists p. split; [done|]. split; [done|]. split; [exact Hi|done].
  - eapply wp_mono; [apply (IH (with_lastpid p s) Hinv1 Ht Hts Hnew); lia|]. intros [ok s'] (H1 & H3). split; [done|]. intros Hok j x Hj Hx.
    destruct (decide (j = 1)) as [->|Hj1]; [rewrite Ep in Hx; by rewrite (slot_inj _ _ _ _ Hx He)|].
    apply (H3 Hok (j - 1) x); [lia|]. cbn [g_lastpid with_lastpid]. unfold p. rewrite id_after_next by lia. by replace (j - 1 + 1) with j by lia.
Qed.

(** When no ID is found, every slot is taken. *)
Lemma assign_ok tcb s live idle :
  pid_inv s live idle -> tcb <> NULL -> is_Some (p_tcbs s !! tcb) -> (forall q, live !! q <> Some tcb) ->
  wp (task_assignpid tcb s) (fun '(ok, s') => assigned s live idle tcb (ok, s') /\ (ok = true <-> has_room s)).
Proof.
  intros Hinv Ht Hts Hnew. pose proof max_tasks_pos as HM. unfold task_assignpid. eapply wp_mono; [apply (assign_loop_ok _ tcb s live idle); [done..|unfold INT_MAX; lia]|].
  intros [ok s'] (H1 & H3). split; [done|]. split.
  - intros ->. destruct H1 as (pid & Hp & Hpn & Hi & _). destruct (slot_exists _ _ _ _ Hinv (pidhash_range pid)) as (e & He & _). exists (PIDHASH pid), e. split; [done|].
    destruct (decide (ph_tcb e = NULL)) as [|Hne]; [done|]. exfalso. destruct (pi_slot _ _ _ Hinv _ _ He Hne) as [Eh El].
    assert (ph_pid e <> pid) as Hd by (intros E; congruence).
    assert ((<[pid := tcb]> live) !! ph_pid e = Some (ph_tcb e)) as El' by by rewrite lookup_insert_ne.
    apply (pi_live _ _ _ Hi) in El' as (_ & _ & S1). assert ((<[pid := tcb]> live) !! pid = Some tcb) as El2 by by rewrite lookup_insert_eq.
    apply (pi_live _ _ _ Hi) in El2 as (_ & _ & S2). rewrite Eh in S1. pose proof (slot_inj _ _ _ _ S1 S2) as E. injection E as _ E. done.
  - intros (i & e & He & E0). destruct ok; [done|]. exfalso. pose proof He as [Hi0 Hi]. apply lookup_lt_Some in Hi. pose proof (pi_length _ _ _ Hinv).
    destruct (decide (i = 0)) as [->|Hi1].
    + pose proof (pi_idle _ _ _ Hinv) as Hid. apply (pi_live _ _ _ Hinv) in Hid as (_ & Hne & Hs). rewrite pidhash_mod, Z.mod_0_l in Hs by lia. by rewrite (slot_inj _ _ _ _ He Hs) in E0.
    + destruct (all_slots_tried (g_lastpid s) i (pi_last _ _ _ Hinv)) as (j & Hj & Ej); [lia|]. apply (H3 eq_refl j e); [lia|by rewrite Ej|done].
Qed.

(** ** Looking up and releasing *)

Lemma gettcb_ok pid s live idle : pid_inv s live idle -> pid <= INT_MAX -> sched_gettcb pid s = Ok (default NULL (live !! pid)).
Proof.
  intros Hinv Hp. unfold sched_gettcb. destruct (Z.leb_spec 0 pid) as [H0|H0].
  - destruct (slot_exists _ _ _ _ Hinv (pidhash_range pid)) as (e & He & ->). cbn [mbind res_bind]. f_equal. destruct (live !! pid) as [tcb|] eqn:El; cbn [default from_option id].
    + apply (pi_live _ _ _ Hinv) in El as (_ & _ & Hs). rewrite (slot_inj _ _ _ _ He Hs). cbn. by rewrite Z.eqb_refl.
    + destruct (Z.eqb_spec pid (ph_pid e)) as [E|E]; [|done]. destruct (decide (ph_tcb e = NULL)) as [|Hne]; [done|]. destruct (pi_slot _ _ _ Hinv _ _ He Hne) as [_ El']. congruence.
  - destruct (live !! pid) as [tcb|] eqn:El; [|done]. apply (pi_live _ _ _ Hinv) in El as (H1 & _). lia.
Qed.

Lemma release_pid_ok tcb pid s live idle :
  pid_inv s live idle -> live !! pid = Some tcb -> pid <> 0 -> wp (release_tcb_pid tcb s) (fun s' => pid_inv s' (delete pid live) idle /\ p_tcbs s' = delete tcb (p_tcbs s)).
Proof.
  intros Hinv Hl Hp0. pose proof Hinv as [A B C D E F]. unfold release_tcb_pid. pose proof (proj1 (D pid tcb) Hl) as (Hp & Ht & Hs). rewrite (deref_Some _ _ pid Ht (F pid tcb Hl)).
  cbn [mbind res_bind]. rewrite (proj2 (Z.eqb_neq pid 0)) by done. cbn [negb]. unfold sched_releasepid, put_slot. destruct (slot_exists _ _ _ _ Hinv (pidhash_range pid)) as (e & _ & ->).
  cbn [mbind res_bind]. apply wp_ret. set (s' := with_pids _ _). pose proof (pidhash_range pid) as Hh.
  assert (forall i e, slot s' i e <-> (i = PIDHASH pid /\ e = PidHash NULL INVALID_PROCESS_ID) \/ (i <> PIDHASH pid /\ slot s i e)) as Hsl.
  { intros i x. apply (slot_put s (PIDHASH pid) (PidHash NULL INVALID_PROCESS_ID) i x); [lia|eauto]. }
  assert (forall q y, live !! q = Some y -> q <> pid -> PIDHASH q <> PIDHASH pid) as Hhash.
  { intros q y Hq Hne Hc. apply D in Hq as (_ & _ & Hq). rewrite Hc in Hq. pose proof (slot_inj _ _ _ _ Hq Hs). congruence. }
  split; [|done]. split; cbn.
  - by rewrite length_insert.
  - done.
  - by rewrite lookup_delete_ne.
  - intros q y. rewrite lookup_delete_Some, Hsl. split.
    + intros [Hne Hq]. pose proof (Hhash q y Hq ltac:(done)). apply D in Hq as (H1 & H2 & H3). split; [done|]. split; [done|]. by right.
    + intros (H1 & H2 & [[_ [= -> _]]|[Hi H3]]); [done|]. split; [by intros <-|]. by apply D.
  - intros i x. rewrite Hsl. intros [[-> ->]|[Hi Hx]] Hne; [done|]. destruct (E i x Hx Hne) as [E1 E2]. split; [done|]. rewrite lookup_delete_ne; [done|]. intros E3. by rewrite <-E3 in E1.
  - intros q y [Hne Hq]%lookup_delete_Some. rewrite lookup_delete_ne; [by apply F|]. intros <-. apply F in Hq, Hl. congruence.
Qed.
(** A task that exists is recognised by its TCB. *)
Lemma verifytcb_ok tcb pid s live idle : pid_inv s live idle -> live !! pid = Some tcb -> sched_verifytcb tcb s = Ok true.
Proof.
  intros Hinv Hl. pose proof (proj1 (pi_live _ _ _ Hinv pid tcb) Hl) as (_ & Ht & Hs). unfold sched_verifytcb. rewrite (deref_Some _ _ pid Ht (pi_pids _ _ _ Hinv _ _ Hl)).
  cbn [mbind res_bind]. destruct (slot_exists _ _ _ _ Hinv (pidhash_range pid)) as (e & He & ->). cbn [mbind res_bind]. rewrite (slot_inj _ _ _ _ He Hs). cbn. by rewrite Z.eqb_refl.
Qed.

(** The handler of sched_foreach is called with the TCBs of the tasks that exist,
    and with each of them once. *)
Lemma foreach_ok s live idle : pid_inv s live idle -> NoDup (sched_foreach s) /\ (forall tcb, tcb ∈ sched_foreach s <-> exists pid, live !! pid = Some tcb).
Proof.
  intros Hinv. unfold sched_foreach. split.
  - assert (forall i j e e', g_pidhash s !! i = Some e -> g_pidhash s !! j = Some e' -> ph_tcb e <> NULL -> ph_tcb e = ph_tcb e' -> i = j) as Hinj.
    { intros i j e e' Hi Hj Hne E. destruct (pi_slot _ _ _ Hinv (Z.of_nat i) e) as [Ei Li]; [split; [lia|by rewrite Nat2Z.id]|done|].
      destruct (pi_slot _ _ _ Hinv (Z.of_nat j) e') as [Ej Lj]; [split; [lia|by rewrite Nat2Z.id]|congruence|]. apply (pi_pids _ _ _ Hinv) in Li, Lj. rewrite E in Li.
      assert (ph_pid e = ph_pid e') as Ep by congruence. lia || (rewrite Ep in Ei; lia). }
    revert Hinj. generalize (g_pidhash s) as t. induction t as [|e t IH]; intros Hinj; [constructor|]. cbn. assert (NoDup (omap (fun e => if decide (ph_tcb e = NULL) then None else Some (ph_tcb e)) t)) as Ht.
    { apply IH. intros i j x y Hi Hj Hne E. pose proof (Hinj (S i) (S j) x y Hi Hj Hne E). lia. }
    case_decide as Hd; [done|]. apply NoDup_cons. split; [|done]. rewrite list_elem_of_omap. intros (y & Hy & E). case_decide; [done|]. injection E as E.
    apply list_elem_of_lookup in Hy as [j Hj]. pose proof (Hinj 0%nat (S j) e y eq_refl Hj Hd ltac:(congruence)). lia.
  - intros tcb. rewrite list_elem_of_omap. split.
    + intros (e & He & E). case_decide as Hd; [done|]. injection E as <-. apply list_elem_of_lookup in He as [i Hi]. exists (ph_pid e).
      apply (pi_slot _ _ _ Hinv (Z.of_nat i) e); [split; [lia|by rewrite Nat2Z.id]|done].
    + intros [pid Hl]. apply (pi_live _ _ _ Hinv) in Hl as (_ & Ht & [_ Hs]). exists (PidHash tcb pid). split; [by eapply list_elem_of_lookup_2|]. cbn. by rewrite decide_False.
Qed.

(** ** Counting the tasks *)

(** The slots of the tasks. *)
Definition hashes (live : gmap Z Z) : list Z := (fun x => PIDHASH x.1) <$> map_to_list live.

Lemma hashes_spec s live idle : pid_inv s live idle -> NoDup (hashes live) /\ (forall i, i ∈ hashes live <-> exists e, slot s i e /\ ph_tcb e <> NULL).
Proof.
  intros Hinv. split.
  - apply NoDup_fmap_2_strong; [|apply NoDup_map_to_list]. intros [p x] [q y] Hp Hq E. cbn in E. apply elem_of_map_to_list in Hp, Hq.
    apply (pi_live _ _ _ Hinv) in Hp as (_ & _ & Hp), Hq as (_ & _ & Hq). rewrite E in Hp. pose proof (slot_inj _ _ _ _ Hp Hq). congruence.
  - intros i. unfold hashes. rewrite list_elem_of_fmap. split.
    + intros ([p x] & -> & Hp). apply elem_of_map_to_list in Hp. apply (pi_live _ _ _ Hinv) in Hp as (_ & Hx & Hp). eauto.
    + intros (e & He & Hne). destruct (pi_slot _ _ _ Hinv _ _ He Hne) as [E El]. exists (ph_pid e, ph_tcb e). split; [done|]. by apply elem_of_map_to_list.
Qed.

Lemma room_size s live idle : pid_inv s live idle -> has_room s <-> Z.of_nat (size live) < CONFIG_MAX_TASKS.
Proof.
  intros Hinv. destruct (hashes_spec _ _ _ Hinv) as [Hnd Hin]. pose proof max_tasks_pos as HM. pose proof (pi_length _ _ _ Hinv) as Hlen.
  assert (size live = length (hashes live)) as -> by (unfold hashes; by rewrite length_fmap, length_map_to_list). split.
  - intros (i & e & He & E0). assert (i ∉ hashes live) as Hi by (intros (e' & He' & Hne)%Hin; by rewrite (slot_inj _ _ _ _ He He') in E0).
    assert (i :: hashes live ⊆+ seqZ 0 CONFIG_MAX_TASKS) as Hs.
    { apply NoDup_submseteq; [by apply NoDup_cons|]. assert (forall j x, slot s j x -> j ∈ seqZ 0 CONFIG_MAX_TASKS) as Hr.
      { intros j x [Hj Hx]. apply lookup_lt_Some in Hx. apply elem_of_seqZ. lia. }
      intros j [->|Hj]%elem_of_cons; [by eapply Hr|]. apply Hin in Hj as (x & Hx & _). by eapply Hr. }
    apply submseteq_length in Hs. rewrite length_seqZ in Hs. simpl in Hs. lia.
  - intros Hlt. destruct (decide (Exists (fun i => i ∉ hashes live) (seqZ 0 CONFIG_MAX_TASKS))) as [Hex|Hex].
    + apply Exists_exists in Hex as (i & Hi & Hni). apply elem_of_seqZ in Hi. destruct (slot_exists _ _ _ i Hinv) as (e & He & _); [lia|]. exists i, e. split; [done|].
      destruct (decide (ph_tcb e = NULL)) as [|Hne]; [done|]. exfalso. apply Hni, Hin. eauto.
    + exfalso. assert (seqZ 0 CONFIG_MAX_TASKS ⊆+ hashes live) as Hs.
      { apply NoDup_submseteq; [apply NoDup_seqZ|]. intros i Hi. destruct (decide (i ∈ hashes live)); [done|]. destruct Hex. apply Exists_exists. eauto. }
      apply submseteq_length in Hs. rewrite length_seqZ in Hs. lia.
Qed.

(** ** Tasks that begin and end *)

Inductive pid_call : Type :=
| PStart (tcb : Z)
| PEnd (tcb : Z)
| PGet (pid : Z).

(** A TCB is allocated with ID zero, gets its ID, and is released when there is
    none (task_create, task_init).  The ID or -1 is returned. *)
Definition pid_exec (c : pid_call) s : res (Z * pid_sys) :=
  match c with
  | PStart tcb =>
      '(ok, s) ← task_assignpid tcb (with_pids (<[tcb := 0]> (p_tcbs s)) s);
      if (ok : bool) then pid ← deref (p_tcbs s) tcb; Ok (pid, s)
      else s ← release_tcb_pid tcb s; Ok (-1, s)
  | PEnd tcb => s ← release_tcb_pid tcb s; Ok (0, s)
  | PGet pid => p ← sched_gettcb pid s; Ok (p, s)
  end.

(** A task that begins has a TCB of its own; one that ends is not the idle task. *)
Definition pid_legal (c : pid_call) s : bool :=
  match c with
  | PStart tcb => negb (tcb =? 0) && bool_decide (p_tcbs s !! tcb = None)
  | PEnd tcb => match p_tcbs s !! tcb with Some pid => negb (pid =? 0) | None => false end
  | PGet pid => pid <=? INT_MAX
  end.

Inductive pid_spec : pid_call -> gmap Z Z -> Z -> gmap Z Z -> Prop :=
| ps_start tcb live pid : Z.of_nat (size live) < CONFIG_MAX_TASKS -> 1 <= pid <= INT_MAX -> live !! pid = None -> pid_spec (PStart tcb) live pid (<[pid := tcb]> live)
| ps_full tcb live : Z.of_nat (size live) = CONFIG_MAX_TASKS -> pid_spec (PStart tcb) live (-1) live
| ps_end tcb live pid : live !! pid = Some tcb -> pid <> 0 -> pid_spec (PEnd tcb) live 0 (delete pid live)
| ps_get pid live : pid_spec (PGet pid) live (default NULL (live !! pid)) live.

(** Every TCB in memory has an ID. *)
Definition pid_ok s (live : gmap Z Z) (idle : ptr) : Prop :=
  pid_inv s live idle /\ (forall tcb pid, p_tcbs s !! tcb = Some pid -> live !! pid = Some tcb).

Lemma size_bound s live idle : pid_inv s live idle -> Z.of_nat (size live) <= CONFIG_MAX_TASKS.
Proof.
  intros Hinv. destruct (hashes_spec _ _ _ Hinv) as [Hnd Hin]. pose proof (pi_length _ _ _ Hinv).
  assert (hashes live ⊆+ seqZ 0 CONFIG_MAX_TASKS) as Hs.
  { apply NoDup_submseteq; [done|]. intros j (x & [Hj Hx] & _)%Hin. apply lookup_lt_Some in Hx. apply elem_of_seqZ. lia. }
  apply submseteq_length in Hs. rewrite length_seqZ in Hs. unfold hashes in Hs. rewrite length_fmap, length_map_to_list in Hs. pose proof max_tasks_pos. lia.
Qed.

Lemma live_nonnull s live idle pid tcb : pid_inv s live idle -> live !! pid = Some tcb -> tcb <> NULL.
Proof. intros Hinv Hl. by apply (pi_live _ _ _ Hinv) in Hl as (_ & ? & _). Qed.
Lemma pid_exec_ok c s live idle :
  pid_ok s live idle -> pid_legal c s = true -> wp (pid_exec c s) (fun '(ret, s') => exists live', pid_ok s' live' idle /\ pid_spec c live ret live').
Proof.
  intros [Hinv Hts] Hl. destruct c as [tcb|tcb|pid]; cbn [pid_exec].
  - apply andb_true_iff in Hl as [Ht%negb_true_iff%Z.eqb_neq Hn%bool_decide_eq_true]. set (s1 := with_pids (<[tcb := 0]> (p_tcbs s)) s).
    assert (forall q, live !! q <> Some tcb) as Hnew by (intros q Hq; apply (pi_pids _ _ _ Hinv) in Hq; congruence).
    assert (pid_inv s1 live idle) as Hinv1.
    { destruct Hinv as [A B C D E F]. split; try done. intros q y Hq. cbn. rewrite lookup_insert_ne; [by apply F|]. intros <-. by apply (Hnew q). }
    apply wp_bind. eapply wp_mono; [apply (assign_ok tcb s1 live idle Hinv1 Ht); [cbn; rewrite lookup_insert_eq; eauto|done]|]. intros [ok s2] [Ha Hroom].
    rewrite (room_size _ _ _ Hinv1) in Hroom. destruct ok.
    + destruct Ha as (pid & Hp & Hpn & Hi & Es). rewrite Es. rewrite (deref_Some _ _ pid Ht) by apply lookup_insert_eq. cbn [mbind res_bind]. apply wp_ret.
      exists (<[pid := tcb]> live). split; [split; [done|]|]. 2: { apply ps_start; [by apply Hroom|done|done]. }
      rewrite Es. cbn. intros y q [[<- <-]|[Hne Hq]]%lookup_insert_Some; [by rewrite lookup_insert_eq|]. rewrite lookup_insert_ne in Hq by done. apply Hts in Hq. rewrite lookup_insert_ne; [done|].
      intros <-. congruence.
    + destruct Ha as [Hi Es]. unfold release_tcb_pid. rewrite Es. cbn [p_tcbs s1 with_pids]. rewrite (deref_Some _ _ 0 Ht) by apply lookup_insert_eq. cbn [mbind res_bind Z.eqb negb]. apply wp_ret.
      exists live. split; [split|].
      * destruct Hi as [A B C D E F]. split; try done. intros q y Hq. cbn. pose proof (F q y Hq) as Hy. rewrite lookup_delete_ne; [done|]. intros <-. by apply (Hnew q).
      * cbn. rewrite Es. cbn. rewrite delete_insert_id by done. done.
      * apply ps_full. pose proof (size_bound _ _ _ Hinv). destruct (Z.lt_ge_cases (Z.of_nat (size live)) CONFIG_MAX_TASKS) as [Hlt|]; [|lia]. by apply Hroom in Hlt.
  - unfold pid_legal in Hl. destruct (p_tcbs s !! tcb) as [pid|] eqn:Ep; [|done]. apply negb_true_iff, Z.eqb_neq in Hl. pose proof (Hts _ _ Ep) as Hlive.
    apply wp_bind. eapply wp_mono.
    { apply (release_pid_ok tcb pid s live idle Hinv Hlive Hl). }
    intros s' [Hi Es]. apply wp_ret. exists (delete pid live). split; [split; [done|]|by apply ps_end]. rewrite Es. intros y q [Hne Hq]%lookup_delete_Some. apply Hts in Hq.
    rewrite lookup_delete_ne; [done|]. intros <-. congruence.
  - apply Z.leb_le in Hl. rewrite (gettcb_ok pid s live idle Hinv Hl). cbn [mbind res_bind]. apply wp_ret. exists live. split; [done|constructor].
Qed.

(** The values returned and the last state; [None] when a call is not legal. *)
Fixpoint pid_run (cs : list pid_call) s : res (option (list Z * pid_sys)) :=
  match cs with
  | [] => Ok (Some ([], s))
  | c :: cs =>
      if pid_legal c s then
        '(r, s) ← pid_exec c s;
        o ← pid_run cs s;
        Ok (option_map (fun '(rs, s) => (r :: rs, s)) o)
      else Ok None
  end.

Inductive pid_runs : list pid_call -> gmap Z Z -> list Z -> gmap Z Z -> Prop :=
| pr_nil live : pid_runs [] live [] live
| pr_cons c cs l1 r l2 rs l3 : pid_spec c l1 r l2 -> pid_runs cs l2 rs l3 -> pid_runs (c :: cs) l1 (r :: rs) l3.

Lemma pid_run_ok cs s live idle :
  pid_ok s live idle -> wp (pid_run cs s) (fun o => forall rs s', o = Some (rs, s') -> exists live', pid_ok s' live' idle /\ pid_runs cs live rs live').
Proof.
  revert s live. induction cs as [|c cs IH]; intros s live Hok; cbn [pid_run]; [intros rs s' [= <- <-]; exists live; split; [done|constructor]|].
  destruct (pid_legal c s) eqn:El; [|done]. apply wp_bind. eapply wp_mono; [by apply (pid_exec_ok c s live idle)|]. intros [r s1] (l1 & H1 & Hs1).
  apply wp_bind. eapply wp_mono; [by apply (IH s1 l1)|]. intros o Ho. apply wp_ret. intros rs s' E. destruct o as [[rs1 s2]|]; [|done]. injection E as <- <-.
  destruct (Ho rs1 s2 eq_refl) as (l2 & H2 & Hs2). exists l2. split; [done|]. by econstructor.
Qed.

(** The table of [os_start]. *)
Lemma init_pids_ok s idle : idle <> NULL -> p_tcbs s = {[idle := 0]} -> wp (init_pids idle s) (fun s' => pid_ok s' {[0 := idle]} idle).
Proof.
  intros Hi Ht. pose proof max_tasks_pos as HM. unfold init_pids. set (M := CONFIG_MAX_TASKS) in *. set (s0 := with_lastpid 0 _). assert (PIDHASH 0 = 0) as E0 by (rewrite pidhash_mod; by apply Z.mod_0_l; fold M; lia).
  rewrite E0. unfold put_slot. assert (get_slot 0 s0 = Ok (PidHash NULL INVALID_PROCESS_ID)) as ->.
  { unfold get_slot. cbn [Z.ltb Z.compare]. cbn [g_pidhash s0 with_lastpid with_pidhash]. rewrite lookup_replicate_2 by lia. done. }
  cbn [mbind res_bind]. apply wp_ret. set (s' := with_pidhash _ _).
  assert (forall i e, slot s' i e <-> (i = 0 /\ e = PidHash idle 0) \/ (1 <= i < M /\ e = PidHash NULL INVALID_PROCESS_ID)) as Hsl.
  { intros i e. unfold s'. rewrite slot_put; [|lia|]. 2: { exists (PidHash NULL INVALID_PROCESS_ID). split; [lia|]. cbn [g_pidhash s0 with_lastpid with_pidhash]. apply lookup_replicate_2. lia. }
    apply or_iff_compat_l. unfold slot. cbn [g_pidhash s0 with_lastpid with_pidhash]. rewrite lookup_replicate. split; [intros (? & ? & -> & ?); split; [lia|done]|]. intros [? ->]. repeat split; lia || done. }
  split; [split|].
  - cbn. rewrite length_insert, length_replicate. fold M. lia.
  - cbn. unfold INT_MAX. lia.
  - apply lookup_singleton_eq.
  - intros pid tcb. rewrite lookup_singleton_Some, Hsl. split.
    + intros [<- <-]. split; [unfold INT_MAX; lia|]. split; [done|]. by left.
    + intros (_ & Hne & [[_ [= -> ->]]|[_ [= -> _]]]); done.
  - intros i e. rewrite Hsl. intros [[-> ->]|[_ ->]] Hne; [|done]. cbn. split; [done|apply lookup_singleton_eq].
  - intros pid tcb. rewrite lookup_singleton_Some. intros [<- <-]. cbn. rewrite Ht. apply lookup_singleton_eq.
  - cbn. rewrite Ht. intros tcb pid. rewrite !lookup_singleton_Some. intros [<- <-]. done.
Qed.

(** C34: from the table of os_start on, along any sequence of tasks that begin and
    end, the table stands for a map from IDs to the TCBs of the tasks that exist: a
    new task gets a positive ID that no task has, also when the counter of IDs
    wraps around, and it fails to get one exactly when CONFIG_MAX_TASKS tasks
    exist; sched_gettcb gives the TCB of an ID, or NULL. *)
Theorem task_ids_refine cs s idle :
  idle <> NULL -> p_tcbs s = {[idle := 0]} ->
  wp (init_pids idle s) (fun s0 => wp (pid_run cs s0) (fun o => forall rs s', o = Some (rs, s') ->
    exists live', pid_ok s' live' idle /\ pid_runs cs {[0 := idle]} rs live')).
Proof. intros Hi Ht. eapply wp_mono; [by apply init_pids_ok|]. intros s0 H0. by apply pid_run_ok. Qed.

End ops.

(** ** A small system: four slots, the idle task has the TCB 4096 *)

#[export] Program Instance demo_pid_config : PidConfig := { max_tasks_log := 2 }.
Next Obligation. lia. Qed.

Definition demo_pids : pid_sys := PidSys [] 0 {[4096 := 0]}.
Definition demo_pid_calls : list pid_call := [PStart 8192; PStart 8448; PStart 8704; PStart 8960; PGet 2; PEnd 8448; PGet 2; PStart 8960; PGet 10; PGet 0].

Lemma task_ids_refine_witness :
  (s0 ← init_pids 4096 demo_pids; o ← pid_run demo_pid_calls s0; Ok (option_map fst o)) = Ok (Some [1; 2; 3; -1; 8448; 0; 0; 10; 8960; 4096])
  /\ wp (init_pids 4096 demo_pids) (fun s0 => wp (pid_run demo_pid_calls s0) (fun o => forall rs s', o = Some (rs, s') ->
       exists live', pid_ok s' live' 4096 /\ pid_runs demo_pid_calls {[0 := 4096]} rs live')).
Proof. split; [vm_compute; reflexivity|]. apply (task_ids_refine demo_pid_calls demo_pids 4096); [lia|reflexivity]. Defined.

(** The counter wraps to 1, not to the slot of the idle task. *)
Lemma ids_wrap :
  (s0 ← init_pids 4096 demo_pids; '(r, _) ← pid_exec (PStart 8192) (with_lastpid INT_MAX s0); Ok r) = Ok 1.
Proof. vm_compute. reflexivity. Qed.
