(* ===== verification/SemTimed.v ===== *)
(** * Timed waits for semaphores: operations (src/nuttx/sched/sem_timedwait.c, sched_processtimer.c)

    sem_timedwait joins four components: it takes a watchdog from the pool,
    tries the semaphore, turns the absolute time into ticks of the clock, starts
    the watchdog and waits; the watchdog's function [sem_timeout] finds the task
    by its ID and ends the wait.  The state outside the watchdogs is [tw_env].

    The call is cut where [sem_wait] suspends its caller: it returns
    [TwBlocked wdog], where [wdog] is the local variable of the suspended call,
    and [sem_timedwait_resumed] is the rest.  In the calls made here wd_start,
    wd_delete and clock_gettime set no errno, so the one errno that matters is
    that of [e_sem]. *)

From S2P Require Import Prelude Queue Sched Sem Wdog Clock Pid.

Record tw_env : Type := TwEnv {
  e_sem : sem_sys;
  e_clock : clock_s;
  e_pids : pid_sys
}.

Definition with_sem (s : sem_sys) (e : tw_env) : tw_env := TwEnv s (e_clock e) (e_pids e).
Definition with_clock (c : clock_s) (e : tw_env) : tw_env := TwEnv (e_sem e) c (e_pids e).

Abbreviation tw_sys := (wd_sys tw_env) (only parsing).

Definition tsem (s : tw_sys) : sem_sys := e_sem (w_env s).
Definition put_sem (m : sem_sys) (s : tw_sys) : tw_sys := with_env (with_sem m (w_env s)) s.

Inductive tw_result : Type :=
| TwRet (ok : bool)
| TwBlocked (wdog : ptr).

Section ops.
  Context `{SchedConfig} `{PidConfig}.

(** The functions of watchdogs are called through pointers: [sem_timeout_ptr] is
    the address of sem_timeout and [others] the effect of any other function. *)
  Context (sem_timeout_ptr : ptr) (others : ptr -> Z -> list Z -> tw_sys -> res tw_sys).

(** The argument is a uint32_t, which is cast to pid_t. *)
Definition sem_timeout (pid : Z) (e : tw_env) : res tw_env :=
  wtcb ← sched_gettcb (s32 pid) (e_pids e);
  if decide (wtcb = NULL) then Ok e
  else
    t ← deref (k_tcbs (s_kernel (e_sem e))) wtcb;
    if decide (task_state t = TSTATE_WAIT_SEM) then
      '(_, m) ← sem_waitirq wtcb ETIMEDOUT (e_sem e);
      Ok (with_sem m e)
    else Ok e.

Definition tw_entry (f : ptr) (argc : Z) (parms : list Z) (s : tw_sys) : res tw_sys :=
  if decide (f = sem_timeout_ptr) then
    e ← sem_timeout (nth 0 parms 0) (w_env s);
    Ok (with_env e s)
  else others f argc parms s.

(** [timedwait_errout:] and [errout_disabled:] *)
Definition timedwait_errout (err : Z) (s : tw_sys) : res (tw_result * tw_sys) :=
  m ← set_errno err (tsem s);
  Ok (TwRet false, put_sem m s).

Definition errout_disabled (wdog : ptr) (err : Z) (s : tw_sys) : res (tw_result * tw_sys) :=
  '(_, s) ← wd_delete wdog s;
  timedwait_errout err s.

(** What follows the blocking wait. *)
Definition timedwait_done (wdog : ptr) (ret : bool) (s : tw_sys) : res (tw_result * tw_sys) :=
  '(_, s) ← wd_cancel wdog s;
  '(_, s) ← wd_delete wdog s;
  Ok (TwRet ret, s).

(** From the check of the timeout on, when the semaphore is not available. *)
Definition timedwait_block (wdog sem : ptr) (abstime : timespec) (s : tw_sys) : res (tw_result * tw_sys) :=
  if (tv_sec abstime <? 0) || (tv_nsec abstime >? 1000000000) then errout_disabled wdog EINVAL s
  else
    match clock_abstime2ticks CLOCK_REALTIME abstime (e_clock (w_env s)) with
    | (inl err, c) => errout_disabled wdog err (with_env (with_clock c (w_env s)) s)
    | (inr ticks, c) =>
        let s := with_env (with_clock c (w_env s)) s in
        if ticks <=? 0 then errout_disabled wdog ETIMEDOUT s
        else
          pid ← getpid (s_kernel (tsem s));
          '(_, s) ← wd_start wdog ticks sem_timeout_ptr 1 [pid] s;
          '(r, m) ← sem_wait sem (tsem s);
          let s := put_sem m s in
          match r with
          | WaitRet ret => timedwait_done wdog ret s
          | WaitBlocked => Ok (TwBlocked wdog, s)
          end
    end.

Definition sem_timedwait (sem : ptr) (abstime : option timespec) (s : tw_sys) : res (tw_result * tw_sys) :=
  _ ← c_assert (negb (k_interrupt (s_kernel (tsem s))));
  match abstime with
  | None => timedwait_errout EINVAL s
  | Some abstime =>
      if decide (sem = NULL) then timedwait_errout EINVAL s
      else
        '(wdog, s) ← wd_create s;
        if decide (wdog = NULL) then timedwait_errout ENOMEM s
        else
          '(ret, m) ← sem_trywait sem (tsem s);
          let s := put_sem m s in
          if ret : bool then
            '(_, s) ← wd_delete wdog s;
            Ok (TwRet true, s)
          else timedwait_block wdog sem abstime s
  end.

Definition sem_timedwait_resumed (wdog : ptr) (s : tw_sys) : res (tw_result * tw_sys) :=
  ret ← sem_wait_resumed (tsem s);
  timedwait_done wdog ret s.

(** The timer interrupt: the clock, the watchdogs, the time slice. *)
Definition sched_process_timer (s : tw_sys) : res tw_sys :=
  let s := with_env (with_clock (clock_timer (e_clock (w_env s))) (w_env s)) s in
  s ← wd_timer tw_entry s;
  '(_, k) ← sched_process_timeslice (s_kernel (tsem s));
  Ok (put_sem (with_kernel k (tsem s)) s).

Fixpoint timer_ticks (n : nat) (s : tw_sys) : res tw_sys :=
  match n with
  | O => Ok s
  | S n => s ← sched_process_timer s; timer_ticks n s
  end.

End ops.
