(* ===== verification/SemTimedSpec.v ===== *)
(** * Timed waits for semaphores: invariant and lemmas

    Where a task is: [waits] for a semaphore or [runnable] after a wait, and how
    the functions of expiring watchdogs, the time slice and the calls move it. *)

From stdpp Require Import sorting.
From S2P Require Import Prelude Queue Sched SchedInv SchedOps SchedSpec Sem SemSpec Wdog WdogSpec WdogThm Clock Pid SemTimed.

(** ** Tasks that may run *)

Definition runnable (a : asched) (y : Z) : Prop := y ∈ as_lists a TL_readytorun \/ y ∈ as_lists a TL_pendingtasks.
Definition listed (a : asched) (y : Z) : Prop := exists l, y ∈ as_lists a l.

(** A list of blocked tasks. *)
Definition block_list (l : tasklist) : Prop := l <> TL_readytorun /\ l <> TL_pendingtasks.

Lemma list_rem_ne x y l : y <> x -> y ∈ list_rem x l <-> y ∈ l.
Proof.
  intros Hne. split; [apply list_rem_elem|]. induction l as [|z l IH]; [done|]. simpl. intros [->|Hy]%elem_of_cons.
  - rewrite decide_False by done. left.
  - case_decide; [done|]. right. by apply IH.
Qed.

Lemma enter_lists x a l : block_list l -> as_lists (a_enter x a) l = as_lists a l.
Proof. intros [H1 H2]. unfold a_enter. case_match; simpl; by rewrite upd_ne. Qed.

Lemma enter_runnable x a y : runnable (a_enter x a) y <-> runnable a y \/ y = x.
Proof.
  unfold runnable, a_enter. case_match; simpl; unfold upd; repeat case_decide; try done; rewrite ins_elem; tauto.
Qed.

Lemma drop_runnable x a y : y <> x -> runnable (a_drop x a) y <-> runnable a y.
Proof. intros Hne. unfold runnable. simpl. by rewrite !list_rem_ne. Qed.

Lemma merge_runnable a y : runnable (a_merge a) y <-> runnable a y.
Proof.
  unfold runnable, a_merge, merge_lists. simpl. rewrite upd_ne, !upd_eq, merged_perm, elem_of_app by done. set_solver.
Qed.

Lemma merge_lists_blocked a l : block_list l -> as_lists (a_merge a) l = as_lists a l.
Proof. intros [H1 H2]. unfold a_merge, merge_lists. simpl. by rewrite !upd_ne. Qed.

Lemma unblock_may_run `{SchedConfig} x a y : runnable a y \/ y = x -> runnable (a_unblock x a) y.
Proof.
  intros Hy. apply enter_runnable. destruct (decide (y = x)) as [|Hne]; [by right|]. left. destruct Hy as [Hy|]; [|done].
  by apply (drop_runnable x a).
Qed.

Lemma unblock_blocked `{SchedConfig} x a l : block_list l -> as_lists (a_unblock x a) l = list_rem x (as_lists a l).
Proof. intros Hl. unfold a_unblock. by rewrite enter_lists. Qed.

(** The time slice moves a task within the ready tasks only. *)
Lemma reprio_runnable x p a y : x ∈ as_lists a TL_readytorun -> runnable (a_reprio x p a) y <-> runnable a y.
Proof.
  intros Hx. unfold a_reprio. assert (runnable (a_enter x (a_set (set_sched_priority p) x (a_drop x a))) y <-> runnable a y) as H1.
  { rewrite enter_runnable. destruct (decide (y = x)) as [->|Hne]; [unfold runnable; tauto|]. rewrite <- (drop_runnable x a y Hne). unfold runnable. simpl. tauto. }
  case_decide; [done|]. by rewrite merge_runnable.
Qed.

Lemma reprio_blocked k a x p l : refines k a -> x ∈ as_lists a TL_readytorun -> block_list l -> as_lists (a_reprio x p a) l = as_lists a l.
Proof.
  intros (HR & _ & _) Hx Hl. assert (list_rem x (as_lists a l) = as_lists a l) as E.
  { apply list_rem_absent. intros Hc. destruct Hl as [Hl _]. by destruct (Hl (sr_disj _ _ HR _ _ _ Hc Hx)). }
  unfold a_reprio. case_decide; rewrite ?merge_lists_blocked, enter_lists by done; exact E.
Qed.

Lemma tick_moves `{SchedConfig} k a idle :
  refines k a -> core_inv idle a ->
  (forall l, block_list l -> as_lists (a_tick a) l = as_lists a l) /\ (forall y, runnable (a_tick a) y <-> runnable a y).
Proof.
  intros Hr HC. pose proof (core_run _ _ HC) as Hx. unfold a_tick. repeat case_match; try done.
  pose proof (ref_slice k a (arun a) RR_TICKS Hr) as Hr'. split.
  - intros l Hl. by rewrite (reprio_blocked _ _ _ _ _ Hr' Hx Hl).
  - intros y. by rewrite reprio_runnable.
Qed.

(** Fields of tasks that the time slice does not change. *)
Lemma tick_fields `{SchedConfig} a {A} (g : TCB -> A) d y :
  (forall t c, g (set_timeslice c t) = g t) -> (forall t c, g (set_sched_priority c t) = g t) ->
  from_option g d (as_tasks (a_tick a) !! y) = from_option g d (as_tasks a !! y) /\ size (as_tasks (a_tick a)) = size (as_tasks a).
Proof.
  intros H1 H2. unfold a_tick. repeat case_match; try done; [split; [by apply field_set|apply size_set]| |split; [by apply field_set|apply size_set]].
  assert (forall x p b, as_tasks (a_reprio x p b) = as_tasks (a_set (set_sched_priority p) x b)) as -> by (intros; unfold a_reprio, a_enter; by repeat case_match).
  rewrite field_set, size_set by done. split; [by apply field_set|apply size_set].
Qed.

(** ** The invariant of the semaphores when tasks move among the runnable *)

Lemma sem_inv_moves sems a a' :
  as_lists a' TL_waitingforsemaphore = as_lists a TL_waitingforsemaphore ->
  (forall l y, l <> TL_waitingforsemaphore -> y ∈ as_lists a' l -> exists l', l' <> TL_waitingforsemaphore /\ y ∈ as_lists a l') ->
  (forall y, a_wait a' y = a_wait a y) -> size (as_tasks a') = size (as_tasks a) -> sem_inv sems a -> sem_inv sems a'.
Proof.
  intros EL EO EW ES [A B C D]. assert (forall s, waiters s a' = waiters s a) as Ew.
  { intros s. unfold waiters. rewrite EL. apply filter_same. intros y _. by rewrite EW. }
  split.
  - intros s c Hs. rewrite Ew. by apply A.
  - intros x. rewrite EL, EW. apply B.
  - intros l x Hl Hx. destruct (EO l x Hl Hx) as (l' & Hl' & Hx'). rewrite EW. by apply (C l').
  - by rewrite ES.
Qed.

(** ** The state outside the watchdogs *)

(** The task [y] waits for the semaphore [sem], with errno cleared as sem_wait
    does; it is runnable with errno [err]. *)
Definition waits (y sem : Z) (e : tw_env) : Prop :=
  let k := s_kernel (e_sem e) in
  y ∈ members TL_waitingforsemaphore k /\ from_option waitsem NULL (k_tcbs k !! y) = sem /\ from_option pterrno 0 (k_tcbs k !! y) = 0.

Definition woken (y err : Z) (e : tw_env) : Prop :=
  let k := s_kernel (e_sem e) in
  (y ∈ members TL_readytorun k \/ y ∈ members TL_pendingtasks k) /\ from_option pterrno 0 (k_tcbs k !! y) = err.

Section env.
  Context `{SC : SchedConfig} `{PC : PidConfig}.
  Context (idle : ptr) (live : gmap Z Z).

(** The semaphores are sound, [live] is the table of task IDs, and every live
    task has its ID and is in a task list. *)
Record env_ok (e : tw_env) (a : asched) : Prop := EnvOk {
  eo_sem : sem_refines idle (e_sem e) a;
  eo_pids : pid_inv (e_pids e) live idle;
  eo_live : forall pid x, live !! pid = Some x -> a_pid a x = pid /\ listed a x
}.

Definition env_inv (e : tw_env) : Prop := exists a, env_ok e a.

Lemma field_ref {A} (g : TCB -> A) d k a y : (forall t, g (tbody t) = g t) -> refines k a ->
  from_option g d (k_tcbs k !! y) = from_option g d (as_tasks a !! y).
Proof. intros Hg (_ & ET & _). rewrite <- ET, lookup_fmap. destruct (k_tcbs k !! y); simpl; by rewrite ?Hg. Qed.

Lemma waits_iff y sem e a : env_ok e a -> waits y sem e <-> y ∈ as_lists a TL_waitingforsemaphore /\ a_wait a y = sem /\ a_errno a y = 0.
Proof. intros [(Hr & _) _ _]. unfold waits. by rewrite (members_list _ _ _ Hr), (field_ref waitsem NULL _ a), (field_ref pterrno 0 _ a). Qed.

Lemma woken_iff y err e a : env_ok e a -> woken y err e <-> runnable a y /\ a_errno a y = err.
Proof. intros [(Hr & _) _ _]. unfold woken. by rewrite !(members_list _ _ _ Hr), (field_ref pterrno 0 _ a). Qed.

(** ** sem_timeout *)

Definition a_timeout (pid : Z) (a : asched) : asched :=
  match live !! pid with
  | Some x => if decide (x ∈ as_lists a TL_waitingforsemaphore) then a_cancel x ETIMEDOUT a else a
  | None => a
  end.

Lemma listed_runnable a y : listed a y <-> runnable a y \/ exists l, block_list l /\ y ∈ as_lists a l.
Proof.
  split.
  - intros [l Hl]. destruct (decide (l = TL_readytorun)) as [->|]; [by left; left|]. destruct (decide (l = TL_pendingtasks)) as [->|]; [by left; right|].
    right. by exists l.
  - intros [[Hy|Hy]|(l & _ & Hy)]; by eexists.
Qed.

Lemma unblock_listed x a y : listed a y -> listed (a_unblock x a) y.
Proof.
  rewrite !listed_runnable. destruct (decide (y = x)) as [->|Hne]; [left; apply unblock_may_run; by right|].
  intros [Hy|(l & Hl & Hy)]; [left; apply unblock_may_run; by left|]. right. exists l. split; [done|]. by rewrite unblock_blocked, list_rem_ne.
Qed.

Lemma cancel_fields x err a {A} (g : TCB -> A) d y :
  (forall t c, g (set_timeslice c t) = g t) -> (forall t c, g (set_waitsem c t) = g t) -> (forall t c, g (set_pterrno c t) = g t) ->
  from_option g d (as_tasks (a_cancel x err a) !! y) = from_option g d (as_tasks a !! y).
Proof.
  intros H1 H2 H3. unfold a_cancel. rewrite unblock_tasks.
  change (alter _ x _) with (as_tasks (a_set (set_timeslice RR_TICKS) x (a_set (set_pterrno err) x (a_set (set_waitsem NULL) x a)))).
  by rewrite !field_set.
Qed.

Lemma cancel_other x err a y : y <> x -> as_tasks (a_cancel x err a) !! y = as_tasks a !! y.
Proof. intros Hne. unfold a_cancel. rewrite unblock_tasks. simpl. by rewrite !lookup_alter_ne. Qed.

Lemma state_listed k a x : refines k a -> listed a x -> state_of (k_tcbs k) x = TSTATE_WAIT_SEM <-> x ∈ as_lists a TL_waitingforsemaphore.
Proof.
  intros Hr [l Hl]. pose proof Hr as (HR & _ & _). split; [|intros Hx; by apply (sr_state _ _ HR TL_waitingforsemaphore)].
  destruct (decide (l = TL_readytorun)) as [->|Hne].
  - rewrite (ref_state_ready _ _ _ Hr Hl). by case_decide.
  - rewrite (sr_state _ _ HR l x Hne Hl). by destruct l.
Qed.

Lemma s32_max z : s32 z <= INT_MAX.
Proof. unfold s32, INT_MAX. pose proof (Z.mod_pos_bound (z + 2 ^ 31) (2 ^ 32) ltac:(lia)). lia. Qed.

Lemma sem_timeout_ok e a pid :
  env_ok e a ->
  wp (sem_timeout pid e) (fun e' => env_ok e' (a_timeout (s32 pid) a) /\ e_clock e' = e_clock e /\ e_pids e' = e_pids e).
Proof.
  intros He. pose proof He as [Hs Hp Hl]. unfold sem_timeout, a_timeout. rewrite (gettcb_ok _ _ live idle Hp (s32_max pid)).
  apply wp_bind, wp_ret. destruct (live !! s32 pid) as [x|] eqn:El; cbn [default from_option id]; [|rewrite decide_True by done; by apply wp_ret].
  rewrite decide_False by (by eapply live_nonnull). destruct (Hl _ _ El) as [_ [l Hx]]. pose proof Hs as (Hr & HI & HS).
  apply wp_bind, wp_deref_valid; [by eapply ref_valid|]. intros t Et. cbv beta.
  pose proof (state_listed _ a x Hr ltac:(by exists l)) as Hst. rewrite (state_lookup _ _ _ Et) in Hst.
  case_decide as Hw; [|rewrite decide_False by tauto; by apply wp_ret]. apply Hst in Hw. rewrite decide_True by done.
  apply wp_bind. eapply wp_mono; [by apply (sem_waitirq_ok idle (e_sem e) a x ETIMEDOUT)|].
  intros [b s'] (a' & HSR & _ & _ & _ & _ & _ & _ & ->). apply wp_ret. split; [|done]. split; [done|done|].
  intros p y Hy. destruct (Hl p y Hy) as [<- Hly]. split; [by apply cancel_fields|]. by apply unblock_listed.
Qed.

Lemma cancel_moves x y a :
  y <> x -> (y ∈ as_lists a TL_waitingforsemaphore -> y ∈ as_lists (a_cancel x ETIMEDOUT a) TL_waitingforsemaphore)
  /\ (runnable a y -> runnable (a_cancel x ETIMEDOUT a) y).
Proof.
  intros Hne. unfold a_cancel. split.
  - rewrite unblock_blocked by done. by rewrite list_rem_ne.
  - intros Hy. apply unblock_may_run. by left.
Qed.

Lemma cancel_self x a : is_Some (as_tasks a !! x) -> runnable (a_cancel x ETIMEDOUT a) x /\ a_errno (a_cancel x ETIMEDOUT a) x = ETIMEDOUT.
Proof.
  intros [t Et]. split; [apply unblock_may_run; by right|]. unfold a_errno, a_cancel. rewrite unblock_tasks. simpl. by rewrite !lookup_alter_eq, Et.
Qed.

(** ** The functions of watchdogs *)

  Context (sem_timeout_ptr : ptr) (others : ptr -> Z -> list Z -> tw_sys -> res tw_sys).

(** No task stops waiting, and none that may run is stopped or gets another errno. *)
Definition keeps (e e' : tw_env) : Prop :=
  e_clock e' = e_clock e /\ (forall y sem, waits y sem e -> waits y sem e') /\ (forall y err, woken y err e -> woken y err e').

(** The functions of other watchdogs wake no task that waits for a semaphore. *)
Definition others_ok : Prop := forall f n p s, f <> sem_timeout_ptr -> env_inv (w_env s) ->
  wp (others f n p s) (fun s' => exists e', s' = with_env e' s /\ keeps (w_env s) e' /\ env_inv e').

(** The call [c] is a timeout of the task [y]. *)
Definition targets (y : Z) (c : ptr * Z * list Z) : Prop := c.1.1 = sem_timeout_ptr /\ live !! s32 (nth 0 c.2 0) = Some y.

#[export] Instance targets_dec y c : Decision (targets y c).
Proof. unfold targets. apply _. Defined.

Definition tw_step (c : ptr * Z * list Z) (e e' : tw_env) : Prop :=
  e_clock e' = e_clock e /\ (forall y err, woken y err e -> woken y err e')
  /\ (forall y sem, waits y sem e -> if decide (targets y c) then woken y ETIMEDOUT e' else waits y sem e').

Lemma timeout_step n p e a e' :
  env_ok e a -> env_ok e' (a_timeout (s32 (nth 0 p 0)) a) -> e_clock e' = e_clock e -> tw_step (sem_timeout_ptr, n, p) e e'.
Proof.
  intros He He' Hc. split; [done|]. pose proof (eo_sem _ _ He) as (Hr & _). unfold a_timeout in He'. split.
  - intros y err. rewrite (woken_iff y err e a He). intros [Hy Herr]. destruct (live !! s32 (nth 0 p 0)) as [x|] eqn:El; [|by rewrite (woken_iff _ _ _ _ He')].
    case_decide as Hx; [|by rewrite (woken_iff _ _ _ _ He')]. rewrite (woken_iff _ _ _ _ He'). destruct (decide (y = x)) as [->|Hne].
    + exfalso. destruct Hr as (HR & _). by destruct Hy as [Hy|Hy]; pose proof (sr_disj _ _ HR _ _ _ Hx Hy).
    + split; [by apply cancel_moves|]. unfold a_errno. by rewrite cancel_other.
  - intros y sem. rewrite (waits_iff y sem e a He). intros (Hy & Hsem & Herr). assert (targets y (sem_timeout_ptr, n, p) <-> live !! s32 (nth 0 p 0) = Some y) as Ht by (unfold targets; simpl; tauto).
    destruct (live !! s32 (nth 0 p 0)) as [x|] eqn:El.
    + destruct (decide (y = x)) as [->|Hne].
      * rewrite decide_True in He' by done. rewrite decide_True by tauto. rewrite (woken_iff _ _ _ _ He'). apply cancel_self.
        eapply (ref_is_Some _ _ _ Hr). by eapply ref_valid.
      * rewrite decide_False by naive_solver. case_decide; rewrite (waits_iff _ _ _ _ He'); [|done]. split; [by apply cancel_moves|].
        unfold a_wait, a_errno. by rewrite cancel_other.
    + rewrite decide_False by naive_solver. by rewrite (waits_iff _ _ _ _ He').
Qed.

Lemma tw_entry_acts : others_ok -> entry_acts env_inv tw_step (tw_entry sem_timeout_ptr others).
Proof.
  intros Ho f n p s [a Ha]. unfold tw_entry. case_decide as Ef.
  - subst f. apply wp_bind. eapply wp_mono; [by apply (sem_timeout_ok (w_env s) a)|]. intros e' (He' & Hc & _). apply wp_ret.
    exists e'. split; [done|]. split; [by apply (timeout_step n p _ a)|]. by eexists.
  - eapply wp_mono; [apply (Ho f n p s Ef); by exists a|]. intros s' (e' & -> & (K1 & K2 & K3) & He'). exists e'. split; [done|].
    split; [|done]. split; [done|]. split; [done|]. intros y sem Hy. rewrite decide_False by (unfold targets; naive_solver). by apply K2.
Qed.

(** ** Several calls *)

Lemma calls_clock cs e e' : calls tw_step cs e e' -> e_clock e' = e_clock e.
Proof. induction 1 as [|c cs e e1 e2 (Hc & _) _ IH]; [done|]. congruence. Qed.

Lemma calls_woken cs e e' y err : calls tw_step cs e e' -> woken y err e -> woken y err e'.
Proof. induction 1 as [|c cs e e1 e2 (_ & Hw & _) _ IH]; [done|]. auto. Qed.

Lemma calls_waits cs e e' y sem :
  calls tw_step cs e e' -> waits y sem e -> if decide (Exists (targets y) cs) then woken y ETIMEDOUT e' else waits y sem e'.
Proof.
  induction 1 as [e|c cs e e1 e2 (Hc & Hw & Hs) Hcs IH]; intros Hy.
  - rewrite decide_False; [done|]. intros Hc. inversion Hc.
  - specialize (Hs y sem Hy). destruct (decide (targets y c)) as [Ht|Ht].
    + rewrite decide_True by (by constructor). by apply (calls_woken cs e1).
    + specialize (IH Hs). destruct (decide (Exists (targets y) cs)) as [He|He]; [rewrite decide_True by (by apply Exists_cons_tl); done|].
      rewrite decide_False; [done|]. rewrite Exists_cons. tauto.
Qed.

(** ** The timer interrupt *)

Lemma timeslice_ok e a :
  env_ok e a ->
  wp (sched_process_timeslice (s_kernel (e_sem e))) (fun '(_, k') =>
    let e' := with_sem (with_kernel k' (e_sem e)) e in env_ok e' (a_tick a) /\ keeps e e').
Proof.
  intros He. pose proof He as [(Hr & HI & HS) Hp Hl]. pose proof HI as [HC _].
  eapply wp_mono; [by apply (tick_ok _ a idle)|]. intros [b k'] (Hr' & HI' & _). cbv zeta.
  destruct (tick_moves _ _ _ Hr HC) as [T1 T2].
  assert (env_ok (with_sem (with_kernel k' (e_sem e)) e) (a_tick a)) as He'.
  { split; [split; [done|split; [done|]]|done|].
    - apply (sem_inv_moves _ a); [by apply T1| | | |done].
      + intros l y Hne Hy. assert (l = TL_readytorun \/ l = TL_pendingtasks \/ block_list l) as Hl3 by (unfold block_list; destruct l; auto).
        assert (block_list l -> exists l', l' <> TL_waitingforsemaphore /\ y ∈ as_lists a l') as Hb by (intros Hb; exists l; by rewrite <- T1).
        destruct Hl3 as [->|[->|Hl3]]; [| |by apply Hb];
          (assert (runnable (a_tick a) y) as [H1|H1]%T2 by (unfold runnable; tauto)); (eexists; split; [|exact H1]; done).
      + intros y. by apply tick_fields.
      + by apply (tick_fields a t_pid 0 0).
    - intros pid y Hy. destruct (Hl pid y Hy) as [<- Hly]. split; [by apply tick_fields|]. rewrite listed_runnable in *. rewrite T2.
      destruct Hly as [Hly|(l & Hb & Hly)]; [by left|]. right. exists l. by rewrite T1. }
  split; [done|]. split; [done|]. split.
  - intros y sem. rewrite (waits_iff _ _ _ _ He), (waits_iff _ _ _ _ He'). rewrite T1 by done. intros (H1 & <- & <-). split; [done|]. split; by apply tick_fields.
  - intros y err. rewrite (woken_iff _ _ _ _ He), (woken_iff _ _ _ _ He'). rewrite T2. intros [H1 <-]. split; [done|]. by apply tick_fields.
Qed.

Lemma env_clock e a c : env_ok e a <-> env_ok (with_clock c e) a.
Proof. split; intros [A B C]; by split. Qed.

(** Watchdogs, clock and tasks across a timer interrupt; [due_now y] says that a
    timeout of [y] is due. *)
Definition due_now (y : Z) (s : tw_sys) (l : list Z) : Prop :=
  Exists (fun w => targets y (called (wentry (w_mem s) w))) (expired (queue s l)).

#[export] Instance due_now_dec y s l : Decision (due_now y s l).
Proof. unfold due_now. apply _. Defined.

Lemma process_timer_ok s l fr :
  others_ok -> env_inv (w_env s) -> wd_ok s l fr -> armed s l ->
  wp (sched_process_timer sem_timeout_ptr others s) (fun s' => exists l',
    wd_ok s' l' fr /\ armed s' l' /\ queue s' l' = tick (queue s l) /\ (forall w, wentry (w_mem s') w = wentry (w_mem s) w)
    /\ env_inv (w_env s') /\ e_clock (w_env s') = clock_timer (e_clock (w_env s))
    /\ (forall y err, woken y err (w_env s) -> woken y err (w_env s'))
    /\ (forall y sem, waits y sem (w_env s) -> if decide (due_now y s l) then woken y ETIMEDOUT (w_env s') else waits y sem (w_env s'))).
Proof.
  intros Ho [a0 Ha] HW Har. unfold sched_process_timer. set (s0 := with_env _ s).
  assert (env_inv (w_env s0)) as Hi0 by (exists a0; by apply env_clock). assert (wd_ok s0 l fr) as HW0 by (by destruct HW; split).
  apply wp_bind. eapply wp_mono; [by apply (wd_timer_acts _ _ _ s0 l fr (tw_entry_acts Ho))|].
  intros s1 (l1 & HW1 & Har1 & Eq1 & Hen1 & Hcs & a1 & Ha1).
  apply wp_bind. eapply wp_mono; [by apply (timeslice_ok (w_env s1) a1)|]. intros [b k'] (Ha2 & Kc & Kw & Ko). apply wp_ret.
  exists l1. split; [by destruct HW1; split|]. split; [done|]. split; [done|]. split; [done|]. split; [by eexists|].
  split; [etransitivity; [exact Kc|]; exact (calls_clock _ _ _ Hcs)|]. split.
  - intros y err Hy. apply Ko. by apply (calls_woken _ _ _ y err Hcs).
  - intros y sem Hy. pose proof (calls_waits _ _ _ y sem Hcs Hy) as Hres.
    assert (Exists (targets y) ((fun w => called (wentry (w_mem s0) w)) <$> expired (queue s0 l)) <-> due_now y s l) as Hd by by rewrite Exists_fmap.
    repeat case_decide; try tauto; [by apply Ko|by apply Kw].
Qed.

(** ** Many interrupts *)

(** What a sequence of timer interrupts keeps. *)
Definition ticked (n : nat) (s s' : tw_sys) (l fr : list Z) : Prop := exists l',
  wd_ok s' l' fr /\ armed s' l' /\ queue s' l' = countdown (Z.of_nat n) (queue s l) /\ (forall w, wentry (w_mem s') w = wentry (w_mem s) w)
  /\ env_inv (w_env s') /\ e_clock (w_env s') = Nat.iter n clock_timer (e_clock (w_env s))
  /\ (forall y err, woken y err (w_env s) -> woken y err (w_env s')).

Lemma ticked_0 s l fr : env_inv (w_env s) -> wd_ok s l fr -> armed s l -> ticked 0 s s l fr.
Proof.
  intros Hi HW Har. exists l. split; [done|]. split; [done|]. split; [|done]. symmetry. by apply countdown_0, (armed_times s l fr).
Qed.

Lemma ticked_S n s s1 s' l l1 fr :
  queue s1 l1 = tick (queue s l) -> (forall w, wentry (w_mem s1) w = wentry (w_mem s) w) ->
  e_clock (w_env s1) = clock_timer (e_clock (w_env s)) -> (forall y err, woken y err (w_env s) -> woken y err (w_env s1)) ->
  ticked n s1 s' l1 fr -> ticked (S n) s s' l fr.
Proof.
  intros Eq1 Hen1 Hc1 Hw1 (l' & H1 & H2 & H3 & H4 & H5 & H6 & H7). exists l'. split; [done|]. split; [done|].
  split; [rewrite H3, Eq1, countdown_tick by lia; f_equal; lia|]. split; [intros w; by rewrite H4|]. split; [done|].
  split; [by rewrite H6, Hc1, Nat.iter_succ_r|]. auto.
Qed.

Lemma ticks_ok n s l fr :
  others_ok -> env_inv (w_env s) -> wd_ok s l fr -> armed s l ->
  wp (timer_ticks sem_timeout_ptr others n s) (fun s' => ticked n s s' l fr).
Proof.
  intros Ho. revert s l. induction n as [|n IH]; intros s l Hi HW Har; cbn [timer_ticks]; [apply wp_ret; by apply ticked_0|].
  apply wp_bind. eapply wp_mono; [by apply (process_timer_ok s l fr)|]. intros s1 (l1 & HW1 & Har1 & Eq1 & Hen1 & Hi1 & Hc1 & Hw1 & _).
  eapply wp_mono; [by apply (IH s1 l1)|]. intros s' Ht. by apply (ticked_S n s s1 s' l l1).
Qed.

(** The watchdog [w], with [d] ticks left, is the only one with a timeout of [y]. *)
Record timer_of (y w d : Z) (s : tw_sys) (l : list Z) : Prop := TimerOf {
  to_queued : (w, d) ∈ queue s l;
  to_target : targets y (called (wentry (w_mem s) w));
  to_only : forall w', w' ∈ l -> targets y (called (wentry (w_mem s) w')) -> w' = w
}.

Lemma queue_unique {E} (s : wd_sys E) l fr x d d' : wd_ok s l fr -> (x, d) ∈ queue s l -> (x, d') ∈ queue s l -> d' = d.
Proof.
  intros HW H1 H2. assert (NoDup (queue s l).*1) as Hnd by (unfold queue; rewrite timers_fst; apply (sqr_nodup _ _ _ (wo_active _ _ _ HW))).
  revert H1 H2 Hnd. generalize (queue s l). intros q H1 H2 Hnd. induction q as [|[z c] q IH]; [by apply not_elem_of_nil in H1|].
  rewrite fmap_cons in Hnd. apply NoDup_cons in Hnd as [Hz Hnd]. apply elem_of_cons in H1, H2.
  destruct H1 as [[= -> ->]|H1], H2 as [[= Ez]|H2]; subst; [done| | |by apply IH].
  - exfalso. apply Hz. apply list_elem_of_fmap. by exists (z, d').
  - exfalso. apply Hz. apply list_elem_of_fmap. by exists (z, d).
Qed.

Lemma due_iff y w d s l fr : wd_ok s l fr -> timer_of y w d s l -> due_now y s l <-> d <= 1.
Proof.
  intros HW [Hq Ht Hu]. unfold due_now, expired. rewrite Exists_exists. split.
  - intros (w' & Hw' & Ht'). apply list_elem_of_fmap in Hw' as ([w2 d2] & -> & [Hd Hw']%list_elem_of_filter). simpl in *.
    assert (w2 = w) as ->.
    { apply Hu; [|done]. assert (w2 ∈ (queue s l).*1) as Hin by (apply list_elem_of_fmap; by exists (w2, d2)). unfold queue in Hin. by rewrite timers_fst in Hin. }
    by rewrite <- (queue_unique _ _ _ _ _ _ HW Hq Hw').
  - intros Hd. exists w. split; [|done]. apply list_elem_of_fmap. exists (w, d). split; [done|]. by apply list_elem_of_filter.
Qed.

Lemma timer_of_tick y w d s s1 l l1 :
  queue s1 l1 = tick (queue s l) -> (forall w, wentry (w_mem s1) w = wentry (w_mem s) w) -> 1 < d ->
  timer_of y w d s l -> timer_of y w (d - 1) s1 l1.
Proof.
  intros Eq1 Hen1 Hd [Hq Ht Hu]. split.
  - rewrite Eq1. unfold tick. apply list_elem_of_fmap. exists (w, d). split; [done|]. by apply list_elem_of_filter.
  - by rewrite Hen1.
  - intros w' Hw'. rewrite Hen1. apply Hu. assert (w' ∈ (queue s1 l1).*1) as Hin by (unfold queue; by rewrite timers_fst). rewrite Eq1 in Hin.
    apply list_elem_of_fmap in Hin as ([w2 d2] & -> & Hin). unfold tick in Hin. apply list_elem_of_fmap in Hin as ([w3 d3] & [= -> ->] & [_ Hin]%list_elem_of_filter).
    assert (w3 ∈ (queue s l).*1) as H3 by (apply list_elem_of_fmap; by exists (w3, d3)). unfold queue in H3. by rewrite timers_fst in H3.
Qed.

(** A waiting task waits until its watchdog expires, and is then woken by it. *)
Lemma ticks_wait n s l fr y w d sem :
  others_ok -> env_inv (w_env s) -> wd_ok s l fr -> armed s l -> timer_of y w d s l -> waits y sem (w_env s) ->
  wp (timer_ticks sem_timeout_ptr others n s) (fun s' => ticked n s s' l fr
    /\ if Z.of_nat n <? d then waits y sem (w_env s') else woken y ETIMEDOUT (w_env s')).
Proof.
  intros Ho. revert s l d. induction n as [|n IH]; intros s l d Hi HW Har Hto Hy; cbn [timer_ticks].
  - apply wp_ret. split; [by apply ticked_0|]. pose proof (armed_times s l fr HW Har) as Hd. rewrite Forall_forall in Hd.
    specialize (Hd _ (to_queued _ _ _ _ _ Hto)). simpl in Hd. destruct (Z.ltb_spec (Z.of_nat 0) d); [done|lia].
  - apply wp_bind. eapply wp_mono; [by apply (process_timer_ok s l fr)|]. intros s1 (l1 & HW1 & Har1 & Eq1 & Hen1 & Hi1 & Hc1 & Hw1 & Hs1).
    specialize (Hs1 y sem Hy). pose proof (due_iff y w d s l fr HW Hto) as Hd. destruct (decide (due_now y s l)) as [Hdue|Hdue]; rewrite Hd in Hdue.
    + eapply wp_mono; [by apply (ticks_ok n s1 l1 fr)|]. intros s' Ht. split; [by apply (ticked_S n s s1 s' l l1)|].
      destruct (Z.ltb_spec (Z.of_nat (S n)) d); [lia|]. destruct Ht as (_ & _ & _ & _ & _ & _ & _ & Hw). by apply Hw.
    + eapply wp_mono; [apply (IH s1 l1 (d - 1)); try done; apply (timer_of_tick y w d s s1 l l1); try done; lia|].
      intros s' [Ht Hres]. split; [by apply (ticked_S n s s1 s' l l1)|].
      destruct (Z.ltb_spec (Z.of_nat n) (d - 1)), (Z.ltb_spec (Z.of_nat (S n)) d); done || lia.
Qed.

End env.
