(* ===== verification/SemTimedCalls.v ===== *)
(** * Timed waits for semaphores: the calls

    What each call does to the watchdogs and to the tasks, and the invariant
    that ties the suspended calls to their watchdogs. *)

From stdpp Require Import sorting.
From S2P Require Import Prelude Queue Sched SchedInv SchedOps SchedSpec Sem SemSpec Wdog WdogSpec WdogThm Clock Pid SemTimed SemTimedSpec.

(** ** Changes to the running task *)

(** The tasks but [x] stay where they are. *)
Definition keeps_but (x : Z) (e e' : tw_env) : Prop :=
  (forall y sem, y <> x -> waits y sem e -> waits y sem e') /\ (forall y err, y <> x -> woken y err e -> woken y err e').

Lemma keeps_but_trans x e1 e2 e3 : keeps_but x e1 e2 -> keeps_but x e2 e3 -> keeps_but x e1 e3.
Proof. intros [A B] [C D]. split; eauto. Qed.

Section calls.
  Context `{SC : SchedConfig} `{PC : PidConfig}.
  Context (idle : ptr) (live : gmap Z Z).
  Abbreviation env_ok := (env_ok idle live).

(** The abstract scheduler changes so for the tasks but [x]. *)
Record moves_but (x : Z) (a a' : asched) : Prop := MovesBut {
  mb_waiting : forall y, y <> x -> y ∈ as_lists a TL_waitingforsemaphore -> y ∈ as_lists a' TL_waitingforsemaphore;
  mb_runnable : forall y, y <> x -> runnable a y -> runnable a' y;
  mb_listed : forall y, listed a y -> listed a' y;
  mb_pid : forall y, a_pid a' y = a_pid a y;
  mb_tasks : forall y, y <> x -> as_tasks a' !! y = as_tasks a !! y
}.

Lemma moves_keeps x e e' a a' : env_ok e a -> env_ok e' a' -> moves_but x a a' -> keeps_but x e e'.
Proof.
  intros He He' [A B C D F]. split.
  - intros y sem Hne. rewrite (waits_iff _ _ _ _ _ _ He), (waits_iff _ _ _ _ _ _ He'). intros (H1 & <- & <-). split; [by apply A|]. unfold a_wait, a_errno. by rewrite F.
  - intros y err Hne. rewrite (woken_iff _ _ _ _ _ _ He), (woken_iff _ _ _ _ _ _ He'). intros [H1 <-]. split; [by apply B|]. unfold a_errno. by rewrite F.
Qed.

Lemma moves_env x e a m a' :
  env_ok e a -> sem_refines idle m a' -> moves_but x a a' -> env_ok (with_sem m e) a' /\ keeps_but x e (with_sem m e).
Proof.
  intros He Hm Hmb. assert (env_ok (with_sem m e) a') as He'; [|split; [done|by apply (moves_keeps x _ _ a a')]].
  destruct He as [_ Hp Hl]. split; [done|done|]. intros pid y Hy. destruct (Hl pid y Hy) as [<- Hly]. split; [by apply (mb_pid _ _ _ Hmb)|by apply (mb_listed _ _ _ Hmb)].
Qed.

Lemma moves_refl x a : moves_but x a a.
Proof. by split. Qed.

Lemma moves_trans x a1 a2 a3 : moves_but x a1 a2 -> moves_but x a2 a3 -> moves_but x a1 a3.
Proof.
  intros [A B C D F] [A' B' C' D' F']. split; eauto; intros y; [by rewrite D', D|]. intros Hne. by rewrite F', F.
Qed.

Lemma moves_set f x a : (forall t, t_pid (f t) = t_pid t) -> moves_but x a (a_set f x a).
Proof. intros Hf. split; try done; [intros y; by apply field_set|]. intros y Hne. simpl. by rewrite lookup_alter_ne. Qed.

Lemma moves_try b a : moves_but (arun a) a (a_try b a).
Proof.
  assert (moves_but (arun a) a (a_try false a)) as H1.
  { unfold a_try. apply (moves_trans _ _ (a_set (set_pterrno EINVAL) (arun a) a)); by apply moves_set. }
  destruct b; [|done]. apply (moves_trans _ _ _ _ H1). by apply moves_set.
Qed.

(** The running task blocks. *)
Lemma moves_block x a : x = arun a -> moves_but x a (a_block TL_waitingforsemaphore a).
Proof.
  intros ->. unfold a_block. set (x := arun a). set (q := enqueue _ _ _ _).
  assert (forall y, y ∈ q <-> y = x \/ y ∈ list_rem x (as_lists a TL_waitingforsemaphore)) as Hq.
  { intros y. unfold q. rewrite enqueue_perm. simpl. by rewrite elem_of_cons. }
  assert (forall y, y <> x -> runnable a y -> runnable (a_merge (a_upd TL_waitingforsemaphore q (a_drop x a))) y) as Hrun.
  { intros y Hne Hy. rewrite merge_runnable. apply (drop_runnable x a y Hne) in Hy. unfold runnable in *. simpl in *. by rewrite !upd_ne. }
  assert (forall l, block_list l -> as_lists (a_merge (a_upd TL_waitingforsemaphore q (a_drop x a))) l = upd TL_waitingforsemaphore q (as_lists (a_drop x a)) l) as Hbl
    by (intros l Hl; by rewrite merge_lists_blocked).
  split; try done.
  - intros y Hne Hy. rewrite Hbl, upd_eq, Hq by done. right. by apply list_rem_ne.
  - intros y. rewrite !listed_runnable. destruct (decide (y = x)) as [->|Hne].
    + intros _. right. exists TL_waitingforsemaphore. split; [done|]. rewrite Hbl, upd_eq, Hq by done. by left.
    + intros [Hy|(l & Hl & Hy)]; [left; by apply Hrun|]. right. exists l. split; [done|]. rewrite Hbl by done. unfold upd. case_decide.
      * subst l. apply Hq. right. by apply list_rem_ne.
      * simpl. by apply list_rem_ne.
Qed.

Lemma moves_sleep sem a : moves_but (arun a) a (a_sleep sem a).
Proof.
  unfold a_sleep. set (a1 := a_set _ _ (a_set _ _ (a_set _ _ a))). apply (moves_trans _ _ a1).
  - unfold a1. eapply moves_trans; [by apply (moves_set (set_pterrno EINVAL))|]. eapply moves_trans; by apply moves_set.
  - by apply moves_block.
Qed.

(** ** Failing and giving the watchdog back *)

  Context (sem_timeout_ptr : ptr).
  Implicit Types (s : tw_sys).

(** A call that returns at once: the running task gets the errno [err], the task
    lists and the timer queue stay, and the pool is [fr]. *)
Record at_once (s s' : tw_sys) (l fr : list Z) (a : asched) (err : Z) : Prop := AtOnce {
  ao_wd : exists l', wd_ok s' l' fr /\ armed s' l' /\ queue s' l' = queue s l;
  ao_env : exists a', env_ok (w_env s') a' /\ a_errno a' (arun a) = err /\ (forall k, as_lists a' k = as_lists a k) /\ as_int a' = as_int a
    /\ moves_but (arun a) a a';
  ao_keeps : keeps_but (arun a) (w_env s) (w_env s');
  ao_clock : e_clock (w_env s') = e_clock (w_env s);
  ao_entry : forall w, w ∉ fr -> wentry (w_mem s') w = wentry (w_mem s) w;
  ao_valid : forall w, valid (w_mem s') w <-> valid (w_mem s) w
}.

Lemma env_errno e a err :
  env_ok e a -> as_int a = false ->
  wp (set_errno err (e_sem e)) (fun m => env_ok (with_sem m e) (a_set (set_pterrno err) (arun a) a) /\ keeps_but (arun a) e (with_sem m e)
    /\ s_sems m = s_sems (e_sem e)).
Proof.
  intros He Hi. destruct (set_errno_ok idle err _ a (eo_sem _ _ _ _ He) Hi) as (-> & H1 & _). apply wp_ret.
  destruct (moves_env (arun a) e a _ _ He H1) as [H2 H3]; [by apply moves_set|]. done.
Qed.

Lemma run_task_env e a : env_ok e a -> is_Some (as_tasks a !! arun a).
Proof. intros He. destruct (eo_sem _ _ _ _ He) as (Hr & [HC _] & _). eapply (ref_is_Some _ _ _ Hr). by eapply ref_run_valid. Qed.

Lemma errno_set err e a : env_ok e a -> a_errno (a_set (set_pterrno err) (arun a) a) (arun a) = err.
Proof. intros He. destruct (run_task_env e a He) as [t Et]. unfold a_errno. simpl. by rewrite lookup_alter_eq, Et. Qed.

Lemma timedwait_errout_ok s l fr a err :
  wd_ok s l fr -> armed s l -> env_ok (w_env s) a -> as_int a = false ->
  wp (timedwait_errout err s) (fun '(r, s') => r = TwRet false /\ at_once s s' l fr a err /\ s_sems (tsem s') = s_sems (tsem s)).
Proof.
  intros HW Har He Hi. unfold timedwait_errout. apply wp_bind. eapply wp_mono; [by apply (env_errno (w_env s) a err)|].
  intros m (H1 & H2 & H3). apply wp_ret. split; [done|]. split; [|done]. split; try done.
  - exists l. split; [by destruct HW; split|]. done.
  - eexists. split; [exact H1|]. split; [by apply (errno_set err (w_env s))|]. split; [done|]. split; [done|]. by apply moves_set.
Qed.

Lemma errout_disabled_ok s l fr a w err :
  wd_ok s l fr -> armed s l -> env_ok (w_env s) a -> as_int a = false -> valid (w_mem s) w -> w ∉ fr -> w ∉ l ->
  wp (errout_disabled w err s) (fun '(r, s') => r = TwRet false /\ at_once s s' l (fr ++ [w]) a err /\ s_sems (tsem s') = s_sems (tsem s)).
Proof.
  intros HW Har He Hi Hv Hfr Hl. unfold errout_disabled. apply wp_bind. eapply wp_mono; [by apply (wd_delete_ok s l fr w)|].
  intros [r s1] (-> & l1 & HW1 & Eq1 & Har1 & Hen1 & Hev1 & Hv1). rewrite remove_timer_absent in Eq1 by (unfold queue; by rewrite timers_fst).
  eapply wp_mono; [apply (timedwait_errout_ok s1 l1 (fr ++ [w]) a err HW1 (Har1 Har)); [by rewrite Hev1|done]|].
  intros [r2 s2] (-> & [A B C D F G] & Hs). split; [done|]. unfold tsem in *. rewrite Hev1 in *. split; [|done]. split; try done.
  - destruct A as (l2 & H1 & H2 & H3). exists l2. split; [done|]. split; [done|]. by rewrite H3.
  - intros w' Hw'. rewrite F by done. apply Hen1. set_solver.
  - intros w'. by rewrite G.
Qed.

(** ** Waiting with a watchdog *)

(** The call suspended the running task, with the watchdog [w] running. *)
Record suspended (s s' : tw_sys) (l fr : list Z) (a : asched) (w sem ticks : Z) : Prop := Suspended {
  su_wd : exists l', wd_ok s' l' fr /\ armed s' l' /\ queue s' l' = insert_timer w (started_delay ticks) (queue s l);
  su_own : wentry (w_mem s') w = (sem_timeout_ptr, 1, load_parms 1 [a_pid a (arun a)]);
  su_entry : forall w', w' <> w -> wentry (w_mem s') w' = wentry (w_mem s) w';
  su_valid : forall w', valid (w_mem s') w' <-> valid (w_mem s) w';
  su_env : exists a', env_ok (w_env s') a';
  su_waits : waits (arun a) sem (w_env s');
  su_keeps : keeps_but (arun a) (w_env s) (w_env s');
  su_clock : e_clock (w_env s') = e_clock (w_env s)
}.

Lemma getpid_env e a : env_ok e a -> getpid (s_kernel (e_sem e)) = Ok (a_pid a (arun a)).
Proof.
  intros He. destruct (eo_sem _ _ _ _ He) as (Hr & [HC _] & _). unfold getpid. rewrite (ref_run _ _ Hr).
  destruct (ref_run_valid _ _ _ Hr HC) as [Hn [t Et]]. rewrite (deref_Some _ _ t) by done. cbn [mbind res_bind]. f_equal.
  unfold a_pid. rewrite <- (field_ref t_pid 0 _ a) by done. by rewrite Et.
Qed.

(** sem_wait of a caller for whom there is no count. *)
Lemma wait_suspends e a sem c :
  env_ok e a -> as_int a = false -> s_sems (e_sem e) !! sem = Some c -> c <= 0 -> arun a <> idle ->
  wp (sem_wait sem (e_sem e)) (fun '(r, m) => r = WaitBlocked /\ env_ok (with_sem m e) (a_sleep sem a) /\ waits (arun a) sem (with_sem m e)
    /\ keeps_but (arun a) e (with_sem m e)).
Proof.
  intros He Hi Hc Hneg Hid. eapply wp_mono; [by apply (sem_wait_ok idle (e_sem e) a sem c (eo_sem _ _ _ _ He))|].
  intros [r m] (a' & HSR & _ & _ & Hres & _ & ->). destruct (Z.ltb_spec 0 c); [lia|]. destruct Hres as (-> & Hw & Hs). split; [done|].
  destruct (moves_env (arun a) e a m _ He HSR (moves_sleep sem a)) as [H1 H2]. split; [done|]. split; [|done].
  rewrite (waits_iff _ _ _ _ _ _ H1). split; [done|]. split; [done|]. destruct (run_task_env e a He) as [t Et].
  unfold a_errno, a_sleep. simpl. by rewrite !lookup_alter_eq, Et.
Qed.

(** The ticks left until [abstime], and the outcome of the call when the
    semaphore is not available; [None] when it suspends its caller. *)
Definition ticks_until (abstime : timespec) (c : clock_s) : Z :=
  match fst (clock_abstime2ticks CLOCK_REALTIME abstime c) with inl _ => 0 | inr ticks => ticks end.

Definition block_verdict (abstime : timespec) (c : clock_s) : option (bool * Z) :=
  if (tv_sec abstime <? 0) || (tv_nsec abstime >? 1000000000) then Some (false, EINVAL)
  else if ticks_until abstime c <=? 0 then Some (false, ETIMEDOUT) else None.

Lemma abstime2ticks_clock t c :
  clock_abstime2ticks CLOCK_REALTIME t c = (inr (ticks_until t c), c) /\ ticks_until t c <= INT_MAX.
Proof.
  unfold ticks_until. assert (exists ticks, clock_abstime2ticks CLOCK_REALTIME t c = (inr ticks, c) /\ ticks <= INT_MAX) as (ticks & -> & Ht); [|done].
  unfold clock_abstime2ticks, clock_gettime, CLOCK_REALTIME. rewrite Z.eqb_refl. repeat case_match; simplify_eq; eexists; (split; [done|]);
    unfold clock_time2ticks; set (u := u32 _); pose proof (s32_max u); assert (- 2 ^ 31 <= s32 u) by (unfold s32; pose proof (Z.mod_pos_bound (u + 2 ^ 31) (2 ^ 32)); lia);
    clock_unfold; unfold INT_MAX in *; Z.to_euclidean_division_equations; lia.
Qed.

Lemma timedwait_block_ok s l fr a w sem abstime c :
  wd_ok s l fr -> armed s l -> env_ok (w_env s) a -> as_int a = false -> valid (w_mem s) w -> w ∉ fr -> w ∉ l ->
  s_sems (tsem s) !! sem = Some c -> c <= 0 -> (block_verdict abstime (e_clock (w_env s)) = None -> arun a <> idle) ->
  wp (timedwait_block sem_timeout_ptr w sem abstime s) (fun '(r, s') =>
    match block_verdict abstime (e_clock (w_env s)) with
    | Some (ok, err) => r = TwRet ok /\ ok = false /\ at_once s s' l (fr ++ [w]) a err /\ s_sems (tsem s') = s_sems (tsem s)
    | None => r = TwBlocked w /\ suspended s s' l fr a w sem (ticks_until abstime (e_clock (w_env s)))
    end).
Proof.
  intros HW Har He Hi Hv Hfr Hl Hc Hneg Hid. unfold timedwait_block, block_verdict in *.
  destruct ((tv_sec abstime <? 0) || (tv_nsec abstime >? 1000000000)).
  { eapply wp_mono; [by apply (errout_disabled_ok s l fr a w EINVAL)|]. intros [r s'] (-> & H1 & H2). done. }
  destruct (abstime2ticks_clock abstime (e_clock (w_env s))) as [-> Ht]. cbv zeta. set (s0 := with_env _ s).
  assert (s0 = s) as -> by (unfold s0; by destruct s as [? ? ? ? []]). set (n := ticks_until abstime (e_clock (w_env s))) in *.
  destruct (Z.leb_spec n 0) as [Hle|Hgt].
  { eapply wp_mono; [by apply (errout_disabled_ok s l fr a w ETIMEDOUT)|]. intros [r s'] (-> & H1 & H2). done. }
  unfold tsem. rewrite (getpid_env (w_env s) a He). apply wp_bind, wp_ret.
  apply wp_bind. eapply wp_mono; [apply (wd_start_ok s l fr w n sem_timeout_ptr 1 [a_pid a (arun a)] HW Hv Hfr ltac:(lia)); unfold MAX_WDOGPARMS; lia|].
  intros [r1 s1] (_ & l1 & HW1 & Eq1 & Har1 & Hown & Hen1 & Hev1 & Hv1). rewrite Hev1.
  rewrite remove_timer_absent in Eq1 by (unfold queue; by rewrite timers_fst).
  apply wp_bind. eapply wp_mono; [apply (wait_suspends (w_env s) a sem c He Hi Hc Hneg); by apply Hid|].
  intros [r2 m] (-> & H1 & H2 & H3). apply wp_ret. split; [done|]. unfold put_sem. rewrite Hev1.
  split; try done; [|by eexists]. exists l1. split; [by destruct HW1; split|]. split; [by apply Har1|done].
Qed.

(** ** The whole call *)

Definition tw_verdict (sem : ptr) (abstime : option timespec) (fr : list Z) (c : Z) (clk : clock_s) : option (bool * Z) :=
  match abstime with
  | None => Some (false, EINVAL)
  | Some t =>
      if decide (sem = NULL) then Some (false, EINVAL)
      else if decide (fr = []) then Some (false, ENOMEM)
      else if 0 <? c then Some (true, EAGAIN)
      else block_verdict t clk
  end.

(** From [s] to [s1] a watchdog was taken and the semaphore tried. *)
Record prepared (s s1 : tw_sys) (l : list Z) (a a1 : asched) : Prop := Prepared {
  pr_queue : queue s1 l = queue s l;
  pr_entry : forall w, wentry (w_mem s1) w = wentry (w_mem s) w;
  pr_valid : forall w, valid (w_mem s1) w <-> valid (w_mem s) w;
  pr_lists : forall k, as_lists a1 k = as_lists a k;
  pr_int : as_int a1 = as_int a;
  pr_moves : moves_but (arun a) a a1;
  pr_keeps : keeps_but (arun a) (w_env s) (w_env s1);
  pr_clock : e_clock (w_env s1) = e_clock (w_env s)
}.

Lemma prepared_run s s1 l a a1 : prepared s s1 l a a1 -> arun a1 = arun a.
Proof. intros HP. unfold arun. by rewrite (pr_lists _ _ _ _ _ HP). Qed.

Lemma at_once_prepared s s1 s' l fr a a1 err : prepared s s1 l a a1 -> at_once s1 s' l fr a1 err -> at_once s s' l fr a err.
Proof.
  intros HP [A B C D F G]. rewrite (prepared_run _ _ _ _ _ HP) in *. destruct HP as [P1 P2 P3 P4 P5 P6 P7 P8]. split.
  - destruct A as (l' & ? & ? & E). exists l'. by rewrite E.
  - destruct B as (a' & ? & ? & HL & HI & HM). exists a'. split; [done|]. split; [done|]. split; [intros k; by rewrite HL|]. split; [congruence|].
    by apply (moves_trans _ _ a1).
  - by apply (keeps_but_trans _ _ (w_env s1)).
  - congruence.
  - intros w Hw. by rewrite F.
  - intros w. by rewrite G.
Qed.

Lemma suspended_prepared s s1 s' l fr a a1 w sem n : prepared s s1 l a a1 -> suspended s1 s' l fr a1 w sem n -> suspended s s' l fr a w sem n.
Proof.
  intros HP [A B C D F G K L]. rewrite (prepared_run _ _ _ _ _ HP) in *. destruct HP as [P1 P2 P3 P4 P5 P6 P7 P8]. split; try done.
  - by rewrite P1 in A.
  - by rewrite (mb_pid _ _ _ P6) in B.
  - intros w' Hw. by rewrite C.
  - intros w'. by rewrite D.
  - by apply (keeps_but_trans _ _ (w_env s1)).
  - congruence.
Qed.

Lemma try_errno b e a : env_ok e a -> a_errno (a_try b a) (arun a) = EAGAIN.
Proof. intros He. destruct (run_task_env e a He) as [t Et]. unfold a_errno, a_try. destruct b; simpl; by rewrite !lookup_alter_eq, Et. Qed.

(** The semaphore was available: the watchdog goes back to the pool. *)
Lemma timedwait_taken_ok s l fr a w :
  wd_ok s l fr -> armed s l -> env_ok (w_env s) a -> valid (w_mem s) w -> w ∉ fr -> w ∉ l -> a_errno a (arun a) = EAGAIN ->
  wp ('(_, s) ← wd_delete w s; Ok (TwRet true, s)) (fun '(r, s') =>
    r = TwRet true /\ at_once s s' l (fr ++ [w]) a EAGAIN /\ w_env s' = w_env s).
Proof.
  intros HW Har He Hv Hfr Hl Herr. apply wp_bind. eapply wp_mono; [by apply (wd_delete_ok s l fr w)|].
  intros [r s3] (_ & l3 & HW3 & Eq3 & Har3 & Hen3 & Hev3 & Hv3). rewrite remove_timer_absent in Eq3 by (unfold queue; by rewrite timers_fst).
  apply wp_ret. split; [done|]. split; [|done]. split; rewrite ?Hev3.
  - exists l3. split; [done|]. split; [by apply Har3|done].
  - exists a. repeat (split; [done|]). apply moves_refl.
  - by split.
  - done.
  - intros w' Hw'. apply Hen3. set_solver.
  - done.
Qed.

Lemma timedwait_ok s l fr a sem abstime c :
  wd_ok s l fr -> armed s l -> env_ok (w_env s) a -> as_int a = false -> (sem <> NULL -> s_sems (tsem s) !! sem = Some c) ->
  (tw_verdict sem abstime fr c (e_clock (w_env s)) = None -> arun a <> idle) ->
  wp (sem_timedwait sem_timeout_ptr sem abstime s) (fun '(r, s') =>
    match tw_verdict sem abstime fr c (e_clock (w_env s)) with
    | Some (ok, err) => r = TwRet ok /\ (exists fr', fr' ≡ₚ fr /\ at_once s s' l fr' a err)
        /\ s_sems (tsem s') = if ok then <[sem := c - 1]> (s_sems (tsem s)) else s_sems (tsem s)
    | None => exists w fr' t, fr = w :: fr' /\ abstime = Some t /\ c <= 0 /\ r = TwBlocked w
        /\ suspended s s' l fr' a w sem (ticks_until t (e_clock (w_env s)))
    end).
Proof.
  intros HW Har He Hi Hc Hid. unfold sem_timedwait, tw_verdict in *. pose proof (eo_sem _ _ _ _ He) as ((_ & _ & EI) & _).
  apply wp_bind, wp_assert; [unfold tsem; by rewrite EI, Hi|].
  assert (forall err, wp (timedwait_errout err s) (fun '(r, s') => r = TwRet false /\ (exists fr', fr' ≡ₚ fr /\ at_once s s' l fr' a err)
    /\ s_sems (tsem s') = s_sems (tsem s))) as Herr.
  { intros err. eapply wp_mono; [by apply (timedwait_errout_ok s l fr a err)|]. intros [r s'] (-> & H1 & H2). split; [done|]. split; [by exists fr|done]. }
  destruct abstime as [t|]; [|apply Herr]. destruct (decide (sem = NULL)) as [|Hs]; [apply Herr|]. specialize (Hc Hs).
  apply wp_bind. eapply wp_mono; [by apply (wd_create_ok s l fr)|]. intros [w s1] (-> & HW1 & Eq1 & Har1 & _ & Hv1 & Hen1 & Hev1).
  destruct fr as [|w fr]; cbn [head default from_option id tail] in *.
  { rewrite !decide_True by done. eapply wp_mono; [apply (timedwait_errout_ok s1 l [] a ENOMEM HW1 (Har1 Har)); [by rewrite Hev1|done]|].
    intros [r s'] (-> & H1 & H2). unfold tsem in *. rewrite Hev1 in *. split; [done|]. split; [|done]. exists []. split; [done|].
    apply (at_once_prepared s s1 s' l [] a a); [|done]. split; try done; rewrite Hev1; by split. }
  pose proof (wo_free _ _ _ HW) as HF. pose proof (sqr_nodup _ _ _ HF) as [Hwf _]%NoDup_cons.
  assert (w <> NULL) as Hw0 by (intros ->; apply (sqr_nonnull _ _ _ HF); left). rewrite !decide_False in * by done.
  assert (w ∉ l) as Hwl by (intros Hx; apply (wo_disj _ _ _ HW w Hx); left).
  assert (valid (w_mem s) w) as Hvw by (eapply sq_repr_valid; [exact HF|left]).
  unfold tsem at 1. rewrite Hev1. apply wp_bind. eapply wp_mono; [by apply (sem_trywait_ok idle (e_sem (w_env s)) a sem c (eo_sem _ _ _ _ He) Hi)|].
  intros [r m] (a1 & HSR & HL & _ & _ & -> & _ & Hsm & Ea). cbv zeta. destruct (moves_env (arun a) (w_env s) a m a1 He HSR) as [He1 Hk1]; [subst a1; apply moves_try|].
  set (s2 := put_sem m s1). assert (w_env s2 = with_sem m (w_env s)) as Hev2 by (unfold s2, put_sem; simpl; by rewrite Hev1).
  assert (wd_ok s2 l fr) as HW2 by (by destruct HW1; split). assert (armed s2 l) as Har2 by (by apply Har1).
  assert (as_int a1 = false) as Hi1 by (subst a1; unfold a_try; by destruct (0 <? c)).
  assert (prepared s s2 l a a1) as HP by (split; rewrite ?Hev2; try done; [congruence|subst a1; apply moves_try]).
  destruct (Z.ltb_spec 0 c) as [Hpos|Hneg].
  - eapply wp_mono; [apply (timedwait_taken_ok s2 l fr a1 w HW2 Har2); rewrite ?Hev2; try done; [by apply Hv1|]|].
    + rewrite (prepared_run _ _ _ _ _ HP). subst a1. by apply (try_errno true (w_env s)).
    + intros [r s3] (-> & H1 & H2). split; [done|]. split; [|unfold tsem; rewrite H2, Hev2; simpl; by rewrite Hsm].
      exists (fr ++ [w]). split; [by rewrite (Permutation_app_comm fr)|]. by apply (at_once_prepared s s2 s3 l _ a a1).
  - eapply wp_mono; [apply (timedwait_block_ok s2 l fr a1 w sem t c HW2 Har2); rewrite ?Hev2; try done; [by apply Hv1|unfold tsem; by rewrite Hev2; simpl; rewrite Hsm|]|].
    + rewrite (prepared_run _ _ _ _ _ HP). exact Hid.
    + intros [r s'] Hres. rewrite Hev2 in Hres. cbn [with_sem e_clock] in Hres. destruct (block_verdict t (e_clock (w_env s))) as [[ok err]|].
      * destruct Hres as (-> & -> & H1 & H2). split; [done|]. split; [|rewrite H2; unfold tsem; rewrite Hev2; simpl; by rewrite Hsm].
        exists (fr ++ [w]). split; [by rewrite (Permutation_app_comm fr)|]. by apply (at_once_prepared s s2 s' l _ a a1).
      * destruct Hres as (-> & H1). exists w, fr, t. repeat (split; [done|]). by apply (suspended_prepared s s2 s' l fr a a1).
Qed.

(** ** After the wait *)

Lemma get_errno_env e a : env_ok e a -> as_int a = false -> get_errno (e_sem e) = Ok (a_errno a (arun a)).
Proof.
  intros He Hi. destruct (eo_sem _ _ _ _ He) as (Hr & HI & _). unfold get_errno. rewrite (errno_ptr_ok idle _ a) by done. cbn [mbind res_bind].
  destruct (ref_run_valid _ _ _ Hr (proj1 HI)) as [Hn [t Et]]. rewrite (deref_Some _ _ t) by done. cbn [mbind res_bind]. f_equal.
  unfold a_errno. rewrite <- (field_ref pterrno 0 _ a) by done. by rewrite Et.
Qed.

Lemma resumed_errno e a : env_ok e a -> as_int a = false ->
  sem_wait_resumed (e_sem e) = Ok (negb (a_errno a (arun a) =? EINTR) && negb (a_errno a (arun a) =? ETIMEDOUT)).
Proof. intros He Hi. unfold sem_wait_resumed. rewrite (get_errno_env _ a He Hi). cbn [mbind res_bind]. by case_match. Qed.

(** The watchdog is stopped, if it has not expired, and goes back to the pool. *)
Lemma resumed_ok s l fr a w :
  wd_ok s l fr -> armed s l -> env_ok (w_env s) a -> as_int a = false -> valid (w_mem s) w -> w ∉ fr ->
  wp (sem_timedwait_resumed w s) (fun '(r, s') =>
    r = TwRet (negb (a_errno a (arun a) =? EINTR) && negb (a_errno a (arun a) =? ETIMEDOUT))
    /\ w_env s' = w_env s /\ (forall w', w' <> w -> wentry (w_mem s') w' = wentry (w_mem s) w') /\ (forall w', valid (w_mem s') w' <-> valid (w_mem s) w')
    /\ exists l', wd_ok s' l' (fr ++ [w]) /\ armed s' l' /\ queue s' l' = remove_timer w (queue s l)).
Proof.
  intros HW Har He Hi Hv Hfr. unfold sem_timedwait_resumed, tsem. rewrite (resumed_errno _ a He Hi). apply wp_bind, wp_ret. unfold timedwait_done.
  apply wp_bind. eapply wp_mono; [by apply (wd_cancel_any s l fr w)|]. intros [r1 s1] (_ & _ & l1 & HW1 & Eq1 & Har1 & Hen1 & Hev1 & Hv1).
  apply wp_bind. eapply wp_mono; [apply (wd_delete_ok s1 l1 fr w HW1); [by apply Hv1|done]|].
  intros [r2 s2] (_ & l2 & HW2 & Eq2 & Har2 & Hen2 & Hev2 & Hv2). apply wp_ret. split; [done|]. split; [congruence|].
  split; [intros w' Hw'; by rewrite Hen2, Hen1|]. split; [intros w'; by rewrite Hv2|]. exists l2. split; [done|]. split; [by apply Har2, Har1|].
  rewrite Eq2, Eq1. apply remove_timer_absent. intros (p & -> & [Hp _]%list_elem_of_filter)%list_elem_of_fmap. by apply Hp.
Qed.

(** ** sem_post and sem_wait *)

Lemma wait_moves e a sem c :
  env_ok e a -> as_int a = false -> s_sems (e_sem e) !! sem = Some c -> arun a <> idle ->
  wp (sem_wait sem (e_sem e)) (fun '(_, m) => (exists a', env_ok (with_sem m e) a') /\ keeps_but (arun a) e (with_sem m e)).
Proof.
  intros He Hi Hc Hid. eapply wp_mono; [by apply (sem_wait_ok idle (e_sem e) a sem c (eo_sem _ _ _ _ He))|].
  intros [r m] (a' & HSR & _ & _ & _ & _ & Ea). destruct (moves_env (arun a) e a m a' He HSR) as [H1 H2]; [|split; [by eexists|done]].
  subst a'. destruct (0 <? c); [|apply moves_sleep]. unfold a_take. eapply moves_trans; by apply moves_set.
Qed.

(** A post wakes at most one waiter, whose errno stays clear. *)
Lemma post_moves e a sem c :
  env_ok e a -> s_sems (e_sem e) !! sem = Some c -> c < SEM_VALUE_MAX ->
  wp (sem_post sem (e_sem e)) (fun '(_, m) => (exists a', env_ok (with_sem m e) a')
    /\ (forall y err, woken y err e -> woken y err (with_sem m e))
    /\ (forall y sm2, waits y sm2 e -> waits y sm2 (with_sem m e) \/ woken y 0 (with_sem m e))).
Proof.
  intros He Hc Hm. eapply wp_mono; [by apply (sem_post_ok idle (e_sem e) a sem c (eo_sem _ _ _ _ He))|].
  intros [[ret b] m] (_ & a' & HSR & _ & _ & _ & _ & _ & Ea). unfold a_wake in Ea. destruct (waiters sem a) as [|x q] eqn:Ew.
  - subst a'. destruct (moves_env 0 e a m a He HSR (moves_refl 0 a)) as [H1 _]. split; [by eexists|].
    split; [intros y err|intros y sm2]; rewrite ?(woken_iff _ _ _ _ _ _ He), ?(woken_iff _ _ _ _ _ _ H1), ?(waits_iff _ _ _ _ _ _ He), ?(waits_iff _ _ _ _ _ _ H1); tauto.
  - assert (x ∈ as_lists a TL_waitingforsemaphore) as Hx by (assert (x ∈ waiters sem a) as Hxw by (rewrite Ew; left); by apply list_elem_of_filter in Hxw as [_ ?]).
    set (a1 := a_set (set_waitsem NULL) x a) in *.
    assert (forall y, y <> x -> as_tasks a' !! y = as_tasks a !! y) as Eo by (intros y Hne; subst a'; rewrite unblock_tasks; simpl; by rewrite !lookup_alter_ne).
    assert (forall y, a_errno a' y = a_errno a y) as Ee.
    { intros y. subst a'. unfold a_errno. rewrite unblock_tasks. change (alter _ x (as_tasks a1)) with (as_tasks (a_set (set_timeslice RR_TICKS) x a1)). unfold a1. by rewrite !field_set. }
    assert (moves_but x a a') as Hmb.
    { split; [| |intros y; subst a'; by apply (unblock_listed x a1)| |done].
      - intros y Hne Hy. subst a'. rewrite unblock_blocked by done. by apply list_rem_ne.
      - intros y _ Hy. subst a'. apply unblock_may_run. by left.
      - intros y. subst a'. unfold a_pid. rewrite unblock_tasks. change (alter _ x (as_tasks a1)) with (as_tasks (a_set (set_timeslice RR_TICKS) x a1)). unfold a1. by rewrite !field_set. }
    destruct (moves_env x e a m a' He HSR Hmb) as [H1 [K1 K2]]. split; [by eexists|]. split.
    + intros y err. rewrite (woken_iff _ _ _ _ _ _ He), (woken_iff _ _ _ _ _ _ H1), Ee. intros [Hy Herr]. split; [|done]. subst a'. apply unblock_may_run. by left.
    + intros y sm2 Hy. destruct (decide (y = x)) as [->|Hne]; [|left; by apply K1]. right. rewrite (woken_iff _ _ _ _ _ _ H1), Ee.
      rewrite (waits_iff _ _ _ _ _ _ He) in Hy. split; [subst a'; apply unblock_may_run; by right|tauto].
Qed.

End calls.
