(* ===== verification/SemTimedThm.v ===== *)
(** * Timed waits for semaphores: theorems

    Suspended calls and their watchdogs along any sequence of calls and timer
    interrupts, the moment at which a wait times out, and what a call returns. *)

From stdpp Require Import sorting.
From S2P Require Import Prelude Queue Sched SchedInv SchedOps SchedSpec SchedThm Sem SemSpec SemThm Wdog WdogSpec WdogThm Clock Pid SemTimed SemTimedSpec SemTimedCalls.

(** ** Times and ticks *)

Lemma now_ticks n c : clock_ok c -> elapsed c + Z.of_nat n < 2 ^ 32 -> now (Nat.iter n clock_timer c) = now c + Z.of_nat n * NSEC_PER_TICK.
Proof.
  intros Hc Hn. destruct (ticks_elapsed n c Hc) as (_ & _ & Hb & Ee). unfold now. rewrite Hb, Ee.
  assert (0 <= elapsed c) by (apply Z.mod_pos_bound; lia). rewrite Z.mod_small by lia. lia.
Qed.

(** The ticks until a time that is at least a tick ahead, and what they say about the clock. *)
Lemma deadline_ticks abstime clk :
  timespec_ok abstime -> clock_ok clk -> elapsed clk * MSEC_PER_TICK < 2 ^ 32 -> now clk + NSEC_PER_TICK <= nanos abstime ->
  (nanos abstime - now clk) / NSEC_PER_USEC <= INT_MAX ->
  let ticks := ticks_until abstime clk in
  1 <= ticks < INT_MAX /\ block_verdict abstime clk = None
  /\ (forall n, n < ticks + 1 <-> now clk + n * NSEC_PER_TICK <= nanos abstime).
Proof.
  intros Hts Hclk He Hfut Hmax. assert (0 < NSEC_PER_TICK) as Ht0 by done. set (D := nanos abstime - now clk) in *.
  destruct (clock_ticks_exact clk abstime 0 Hclk He Hts ltac:(lia) Hmax ltac:(lia)) as (_ & _ & Eab). fold D in Eab.
  assert (ticks_until abstime clk = D / NSEC_PER_TICK) as Etu by (unfold ticks_until; by rewrite Eab). cbv zeta. unfold block_verdict. rewrite Etu.
  assert (1 <= D / NSEC_PER_TICK) as H1 by (apply Z.div_le_lower_bound; lia). split; [|split].
  - split; [done|]. clear -Hmax. clock_unfold. unfold INT_MAX in *. Z.to_euclidean_division_equations; lia.
  - destruct Hts as [H2 H3]. unfold NSEC_PER_SEC in H3. rewrite (proj2 (Z.ltb_ge _ 0)), (proj2 (Z.leb_gt _ 0)) by lia. simpl.
    destruct (Z.gtb_spec (tv_nsec abstime) 1000000000); [lia|done].
  - intros n. split; intros Hn.
    + pose proof (Z.mul_div_le D NSEC_PER_TICK Ht0). unfold D in *. nia.
    + assert (n <= D / NSEC_PER_TICK); [|lia]. apply Z.div_le_lower_bound; unfold D; lia.
Qed.







(** ** Sequences of calls *)

(** The system and the local variable [wdog] of each suspended call. *)
Record tw_state : Type := TwState { t_sys : tw_sys; t_calls : gmap Z Z }.

Inductive tw_call : Type :=
| TTimedWait (sem : Z) (abstime : option timespec)
| TResume
| TWait (sem : Z)
| TPost (sem : Z)
| TTick.

Section seq.
  Context `{SC : SchedConfig} `{PC : PidConfig}.
  Context (sem_timeout_ptr : ptr) (others : ptr -> Z -> list Z -> tw_sys -> res tw_sys).

Definition running (st : tw_state) : Z := dq_head (g_readytorun (s_kernel (tsem (t_sys st)))).

Definition tw_exec (c : tw_call) (st : tw_state) : res tw_state :=
  let s := t_sys st in
  match c with
  | TTimedWait sem abstime =>
      '(r, s) ← sem_timedwait sem_timeout_ptr sem abstime s;
      Ok (TwState s match r with TwRet _ => t_calls st | TwBlocked wdog => <[running st := wdog]> (t_calls st) end)
  | TResume =>
      match t_calls st !! running st with
      | Some wdog => '(_, s) ← sem_timedwait_resumed wdog s; Ok (TwState s (delete (running st) (t_calls st)))
      | None => Ok st
      end
  | TWait sem => '(_, m) ← sem_wait sem (tsem s); Ok (TwState (put_sem m s) (t_calls st))
  | TPost sem => '(_, m) ← sem_post sem (tsem s); Ok (TwState (put_sem m s) (t_calls st))
  | TTick => s ← sched_process_timer sem_timeout_ptr others s; Ok (TwState s (t_calls st))
  end.

(** The callers' contract.  Calls other than posts are made by a task that is
    not the idle task, is in the table of IDs and is not inside another call; a
    suspended call goes on when its task runs again; a semaphore exists. *)
Definition sem_exists (sem : Z) (s : tw_sys) : bool := bool_decide (is_Some (s_sems (tsem s) !! sem)).

Definition caller_ok (idle : Z) (st : tw_state) : bool :=
  let k := s_kernel (tsem (t_sys st)) in
  negb (k_interrupt k) && bool_decide (running st <> idle) && bool_decide (t_calls st !! running st = None)
  && bool_decide ((pid ← getpid k; sched_gettcb pid (e_pids (w_env (t_sys st)))) = Ok (running st)).

Definition tw_legal (idle : Z) (c : tw_call) (st : tw_state) : bool :=
  match c with
  | TTimedWait sem _ => caller_ok idle st && ((sem =? NULL) || sem_exists sem (t_sys st))
  | TResume => negb (k_interrupt (s_kernel (tsem (t_sys st))))
  | TWait sem => caller_ok idle st && sem_exists sem (t_sys st)
  | TPost sem => match s_sems (tsem (t_sys st)) !! sem with Some n => n <? SEM_VALUE_MAX | None => false end
  | TTick => true
  end.

(** Run the calls in turn; [None] when one breaks the contract. *)
Fixpoint tw_run (idle : Z) (cs : list tw_call) (st : tw_state) : res (option tw_state) :=
  match cs with
  | [] => Ok (Some st)
  | c :: cs => if tw_legal idle c st then st ← tw_exec c st; tw_run idle cs st else Ok None
  end.

(** ** The invariant *)

  Context (idle : ptr) (live : gmap Z Z).
  Abbreviation env_ok := (env_ok idle live).
  Abbreviation targets := (targets live sem_timeout_ptr).

Definition timeout_entry (pid : Z) : ptr * Z * list Z := (sem_timeout_ptr, 1, load_parms 1 [pid]).

(** [l] are the active and [fr] the free watchdogs, [pool] all those that timed
    waits may use.  A suspended call waits with its watchdog active, or its task
    was woken by a post or by its timeout; an active watchdog with a timeout of
    a task is the one of that task's suspended call. *)
Record timed_inv (st : tw_state) (pool l fr : list Z) (a : asched) : Prop := TimedInv {
  ti_wd : wd_ok (t_sys st) l fr;
  ti_armed : armed (t_sys st) l;
  ti_env : env_ok (w_env (t_sys st)) a;
  ti_nodup : NoDup pool;
  ti_pool : fr ++ (map_to_list (t_calls st)).*2 ≡ₚ pool;
  ti_owner : forall x w, t_calls st !! x = Some w -> valid (w_mem (t_sys st)) w
    /\ exists pid, live !! pid = Some x /\ wentry (w_mem (t_sys st)) w = timeout_entry pid;
  ti_active : forall y w, w ∈ l -> targets y (called (wentry (w_mem (t_sys st)) w)) -> t_calls st !! y = Some w;
  ti_state : forall x w, t_calls st !! x = Some w -> (w ∈ l /\ exists sem, waits x sem (w_env (t_sys st)))
    \/ woken x 0 (w_env (t_sys st)) \/ woken x ETIMEDOUT (w_env (t_sys st))
}.

Lemma timeout_pid pid : 0 <= pid <= INT_MAX -> s32 (nth 0 (called (timeout_entry pid)).2 0) = pid.
Proof.
  intros Hp. change (s32 (u32 pid) = pid). unfold INT_MAX in Hp. rewrite u32_id by lia. apply s32_id. unfold INT_MAX. lia.
Qed.

Lemma live_range s a pid x : env_ok s a -> live !! pid = Some x -> 0 <= pid <= INT_MAX.
Proof. intros He Hl. by apply (pi_live _ _ _ (eo_pids _ _ _ _ He)) in Hl as [? _]. Qed.

Lemma own_target e a pid x y : env_ok e a -> live !! pid = Some x -> targets y (called (timeout_entry pid)) <-> y = x.
Proof.
  intros He Hl. unfold targets. rewrite timeout_pid by (by eapply live_range). rewrite Hl. simpl. split; [intros [_ [= ->]]; done|by intros ->].
Qed.

Section inv.
  Context (st : tw_state) (pool l fr : list Z) (a : asched).
  Hypothesis HT : timed_inv st pool l fr a.

Lemma call_not_free x w : t_calls st !! x = Some w -> w ∉ fr.
Proof.
  intros Hx Hw. pose proof (ti_nodup _ _ _ _ _ HT) as Hnd. rewrite <- (ti_pool _ _ _ _ _ HT) in Hnd. apply NoDup_app in Hnd as (_ & Hd & _).
  apply (Hd w Hw). apply list_elem_of_fmap. exists (x, w). split; [done|]. by apply elem_of_map_to_list.
Qed.

Lemma calls_inj x x' w : t_calls st !! x = Some w -> t_calls st !! x' = Some w -> x = x'.
Proof.
  intros Hx Hx'. destruct (ti_owner _ _ _ _ _ HT x w Hx) as (_ & pid & Hl & He). destruct (ti_owner _ _ _ _ _ HT x' w Hx') as (_ & pid' & Hl' & He').
  rewrite He in He'. pose proof (live_range _ _ _ _ (ti_env _ _ _ _ _ HT) Hl) as H1. pose proof (live_range _ _ _ _ (ti_env _ _ _ _ _ HT) Hl') as H2.
  assert (pid = pid') as ->; [|congruence]. rewrite <- (timeout_pid pid H1), <- (timeout_pid pid' H2). by rewrite He'.
Qed.

Lemma run_ok : running st = arun a.
Proof. destruct (eo_sem _ _ _ _ (ti_env _ _ _ _ _ HT)) as (Hr & _). apply (ref_run _ _ Hr). Qed.

Lemma int_ok : k_interrupt (s_kernel (tsem (t_sys st))) = as_int a.
Proof. by destruct (eo_sem _ _ _ _ (ti_env _ _ _ _ _ HT)) as ((_ & _ & E) & _). Qed.

Lemma caller_facts : caller_ok idle st = true ->
  as_int a = false /\ arun a <> idle /\ t_calls st !! arun a = None /\ live !! a_pid a (arun a) = Some (arun a).
Proof.
  unfold caller_ok. rewrite run_ok, int_ok. intros H1. apply andb_true_iff in H1 as [H1 H2]. apply andb_true_iff in H1 as [H1 H3].
  apply andb_true_iff in H1 as [H1 H4]. apply negb_true_iff in H1. apply bool_decide_eq_true in H2, H3, H4. split; [done|]. split; [done|]. split; [done|].
  pose proof (ti_env _ _ _ _ _ HT) as He. unfold tsem in H2. rewrite (getpid_env idle live _ a He) in H2. cbn [mbind res_bind] in H2.
  assert (a_pid a (arun a) <= INT_MAX \/ INT_MAX < a_pid a (arun a)) as [Hle|Hgt] by lia.
  - rewrite (gettcb_ok _ _ _ _ (eo_pids _ _ _ _ He) Hle) in H2. destruct (live !! a_pid a (arun a)) as [x|]; simpl in H2; [by injection H2 as ->|].
    injection H2 as H2. exfalso. destruct (eo_sem _ _ _ _ He) as (Hr & [HC _] & _). by destruct (ref_run_valid _ _ _ Hr HC).
  - exfalso. revert H2. unfold sched_gettcb. destruct (Z.leb_spec 0 (a_pid a (arun a))) as [H0|H0]; [|unfold INT_MAX in *; lia].
    destruct (slot_exists _ _ _ _ (eo_pids _ _ _ _ He) (pidhash_range (a_pid a (arun a)))) as (e & Hs & ->). cbn [mbind res_bind].
    destruct (eo_sem _ _ _ _ He) as (Hr & [HC _] & _). destruct (ref_run_valid _ _ _ Hr HC) as [Hn _].
    destruct (Z.eqb_spec (a_pid a (arun a)) (ph_pid e)) as [E|E]; [|intros [= E0]; congruence]. intros [= Et].
    destruct (pi_slot _ _ _ (eo_pids _ _ _ _ He) _ _ Hs) as [_ Hl]; [congruence|]. rewrite <- E in Hl.
    pose proof (live_range _ _ _ _ He Hl). lia.
Qed.

(** ** The invariant is kept *)

(** Where the task of a suspended call is. *)
Definition call_state (e : tw_env) (act : list Z) (x w : Z) : Prop :=
  (w ∈ act /\ exists sem, waits x sem e) \/ woken x 0 e \/ woken x ETIMEDOUT e.

Lemma state_keeps z e e' q q' x w : keeps_but z e e' -> x <> z -> (w ∈ q -> w ∈ q') -> call_state e q x w -> call_state e' q' x w.
Proof. intros [K1 K2] Hne Hl [[Hw [sem Hs]]|[Hw|Hw]]; [left; split; [auto|]; exists sem|right; left|right; right]; auto. Qed.

(** Only the state outside the watchdogs changes. *)
Lemma inv_env e' a' :
  env_ok e' a' -> (forall x w, t_calls st !! x = Some w -> call_state e' l x w) ->
  timed_inv (TwState (with_env e' (t_sys st)) (t_calls st)) pool l fr a'.
Proof. intros He Hst. destruct HT as [[A1 A2 A3 A4 A5 A6 A7] B C D E F G H]. by split. Qed.

Lemma same_list {E} (s s' : wd_sys E) l1 l2 : queue s' l2 = queue s l1 -> l2 = l1.
Proof. intros Hq. unfold queue in Hq. rewrite <- (timers_fst (wlag (w_mem s')) 0 l2), Hq. apply timers_fst. Qed.

Lemma queue_elem {E} (s : wd_sys E) l1 w : w ∈ l1 <-> exists d, (w, d) ∈ queue s l1.
Proof.
  rewrite <- (timers_fst (wlag (w_mem s)) 0 l1) at 1. fold (queue s l1). rewrite list_elem_of_fmap. split.
  - intros ([w' d] & -> & Hin). by exists d.
  - intros [d Hin]. by exists (w, d).
Qed.

(** A call returned at once. *)
Lemma inv_at_once s' fr' err :
  t_calls st !! arun a = None -> fr' ≡ₚ fr -> at_once idle live (t_sys st) s' l fr' a err ->
  exists a', timed_inv (TwState s' (t_calls st)) pool l fr' a' /\ queue s' l = queue (t_sys st) l.
Proof.
  intros Hx Hfr [(l' & HW & Har & Hq) (a' & He & _) Hk Hc Hen Hv]. pose proof (same_list _ _ _ _ Hq) as El. subst l'.
  assert (forall x w, t_calls st !! x = Some w -> w ∉ fr') as Hnf by (intros x w Hw; rewrite Hfr; by eapply call_not_free).
  exists a'. split; [|done]. split; simpl; try done.
  - by apply HT.
  - rewrite Hfr. by apply HT.
  - intros x w Hw. destruct (ti_owner _ _ _ _ _ HT x w Hw) as (H1 & pid & H2 & H3). split; [by apply Hv|]. exists pid. rewrite Hen; [done|by eapply Hnf].
  - intros y w Hw. rewrite Hen by (by apply (wo_disj _ _ _ HW)). by apply HT.
  - intros x w Hw. apply (state_keeps (arun a) (w_env (t_sys st)) _ l); [done|congruence|done|]. by apply HT.
Qed.

(** A call was suspended. *)
Lemma inv_suspended s' fr' w sem n :
  t_calls st !! arun a = None -> live !! a_pid a (arun a) = Some (arun a) -> fr = w :: fr' ->
  suspended idle live sem_timeout_ptr (t_sys st) s' l fr' a w sem n ->
  exists l' a', timed_inv (TwState s' (<[arun a := w]> (t_calls st))) pool l' fr' a'
    /\ queue s' l' = insert_timer w (started_delay n) (queue (t_sys st) l).
Proof.
  intros Hx Hlive Efr [(l' & HW & Har & Hq) Hown Hen Hv [a' He] Hw Hk Hc].
  assert (forall z, z ∈ l' <-> z = w \/ z ∈ l) as Hl'.
  { intros z. rewrite (queue_elem s'), Hq, (queue_elem (t_sys st)). setoid_rewrite insert_timer_elem. naive_solver. }
  assert (forall x w', t_calls st !! x = Some w' -> w' <> w) as Hne by (intros x w' Hc' ->; apply (call_not_free _ _ Hc'); rewrite Efr; left).
  assert (w ∉ l) as Hwl by (intros Hc'; apply (wo_disj _ _ _ (ti_wd _ _ _ _ _ HT) w Hc'); rewrite Efr; left).
  exists l', a'. split; [|done]. split; simpl; try done.
  - by apply HT.
  - rewrite map_to_list_insert by done. rewrite fmap_cons. simpl. rewrite <- Permutation_middle, <- (ti_pool _ _ _ _ _ HT), Efr. done.
  - intros x w' [[<- <-]|[Hne' Hx']]%lookup_insert_Some.
    + split; [|by eexists]. apply Hv. eapply sq_repr_valid; [apply (wo_free _ _ _ (ti_wd _ _ _ _ _ HT))|]. rewrite Efr. left.
    + destruct (ti_owner _ _ _ _ _ HT x w' Hx') as (H1 & pid & H2 & H3). split; [by apply Hv|]. exists pid. rewrite Hen; [done|by eapply Hne].
  - intros y w' [->|Hw']%Hl'.
    + rewrite Hown. intros Hy. apply (own_target _ a' _ _ _ He Hlive) in Hy as ->. apply lookup_insert_eq.
    + rewrite Hen by congruence. intros Hy. pose proof (ti_active _ _ _ _ _ HT y w' Hw' Hy) as Hcy. rewrite lookup_insert_ne by congruence. done.
  - intros x w' [[<- <-]|[Hne' Hx']]%lookup_insert_Some.
    + left. split; [apply Hl'; by left|by eexists].
    + apply (state_keeps (arun a) (w_env (t_sys st)) _ l); [done|congruence|intros; apply Hl'; by right|]. by apply HT.
Qed.

(** A suspended call returned. *)
Lemma inv_resumed s' l' x w :
  t_calls st !! x = Some w -> w_env s' = w_env (t_sys st) -> (forall w', w' <> w -> wentry (w_mem s') w' = wentry (w_mem (t_sys st)) w') ->
  (forall w', valid (w_mem s') w' <-> valid (w_mem (t_sys st)) w') -> wd_ok s' l' (fr ++ [w]) -> armed s' l' ->
  queue s' l' = remove_timer w (queue (t_sys st) l) ->
  timed_inv (TwState s' (delete x (t_calls st))) pool l' (fr ++ [w]) a.
Proof.
  intros Hx Hev Hen Hv HW Har Hq.
  assert (forall z, z ∈ l' <-> z <> w /\ z ∈ l) as Hl'.
  { intros z. rewrite (queue_elem s'), Hq, (queue_elem (t_sys st)). unfold remove_timer. setoid_rewrite list_elem_of_filter. simpl. naive_solver. }
  assert (forall y w', y <> x -> t_calls st !! y = Some w' -> w' <> w) as Hne by (intros y w' Hy Hc ->; apply Hy; by apply (calls_inj _ _ w)).
  split; simpl; try done.
  - rewrite Hev. by apply HT.
  - by apply HT.
  - rewrite <- (ti_pool _ _ _ _ _ HT), <- app_assoc. f_equiv. simpl. rewrite <- (map_to_list_delete (t_calls st) x w) by done. done.
  - intros y w' [Hy Hc]%lookup_delete_Some. destruct (ti_owner _ _ _ _ _ HT y w' Hc) as (H1 & pid & H2 & H3). split; [by apply Hv|].
    exists pid. rewrite Hen; [done|]. apply (Hne y); [congruence|done].
  - intros y w' [Hw' Hin]%Hl'. rewrite Hen by done. intros Hy. pose proof (ti_active _ _ _ _ _ HT y w' Hin Hy) as Hc.
    rewrite lookup_delete_ne; [done|]. intros ->. congruence.
  - intros y w' [Hy Hc]%lookup_delete_Some. rewrite Hev. pose proof (ti_state _ _ _ _ _ HT y w' Hc) as Hs.
    assert (w' <> w) by (apply (Hne y); [congruence|done]). destruct Hs as [[Hin Hs]|Hs]; [left|by right]. split; [by apply Hl'|done].
Qed.

(** The watchdog of a suspended call that waits. *)
Lemma inv_timer x w d : t_calls st !! x = Some w -> (w, d) ∈ queue (t_sys st) l -> timer_of live sem_timeout_ptr x w d (t_sys st) l.
Proof.
  intros Hx Hq. destruct (ti_owner _ _ _ _ _ HT x w Hx) as (_ & pid & Hl & He). split; [done| |].
  - rewrite He. by apply (own_target _ a pid x x (ti_env _ _ _ _ _ HT)).
  - intros w' Hw' Ht. pose proof (ti_active _ _ _ _ _ HT x w' Hw' Ht). congruence.
Qed.

Lemma inv_tick :
  others_ok idle live sem_timeout_ptr others ->
  wp (sched_process_timer sem_timeout_ptr others (t_sys st)) (fun s' => exists l' a', timed_inv (TwState s' (t_calls st)) pool l' fr a').
Proof.
  intros Ho. pose proof (ti_env _ _ _ _ _ HT) as He. eapply wp_mono; [apply (process_timer_ok idle live sem_timeout_ptr others (t_sys st) l fr Ho); [by exists a|apply HT|apply HT]|].
  intros s' (l' & HW & Har & Hq & Hen & [a' He'] & Hc & Hw & Hs). exists l', a'.
  assert (forall z, z ∈ l' -> z ∈ l) as Hl'.
  { intros z. rewrite (queue_elem s'), Hq, (queue_elem (t_sys st)). intros [d Hd]. unfold tick in Hd. apply list_elem_of_fmap in Hd as ([z' d'] & [= -> ->] & [_ Hd]%list_elem_of_filter). by exists d'. }
  split; simpl; try done.
  - by apply HT.
  - by apply HT.
  - intros x w Hx. destruct (ti_owner _ _ _ _ _ HT x w Hx) as (H1 & pid & H2 & H3). split; [|exists pid; by rewrite Hen].
    assert (w_mem s' !! w <> None) as Hsome.
    { intros E. specialize (Hen w). rewrite H3 in Hen. unfold wentry in Hen. rewrite E in Hen. simpl in Hen. unfold timeout_entry in Hen. naive_solver. }
    split; [by apply H1|]. destruct (w_mem s' !! w); by eauto.
  - intros y w Hin. rewrite Hen. apply HT. by apply Hl'.
  - intros x w Hx. destruct (ti_state _ _ _ _ _ HT x w Hx) as [[Hin [sem Hy]]|[Hy|Hy]]; [|right; left; by apply Hw|right; right; by apply Hw].
    specialize (Hs x sem Hy). apply (queue_elem (t_sys st)) in Hin as [d Hd]. pose proof (inv_timer x w d Hx Hd) as Hto.
    pose proof (due_iff live sem_timeout_ptr x w d _ l fr (ti_wd _ _ _ _ _ HT) Hto) as Hdue. case_decide as Hdn; [right; by right|left].
    split; [|by exists sem]. rewrite Hdue in Hdn. apply (queue_elem s'). exists (d - 1).
    by apply (timer_of_tick live sem_timeout_ptr x w d (t_sys st) s' l l'); [| |lia|].
Qed.

End inv.

Lemma tw_exec_ok c st pool l fr a :
  others_ok idle live sem_timeout_ptr others -> timed_inv st pool l fr a -> tw_legal idle c st = true ->
  wp (tw_exec c st) (fun st' => exists l' fr' a', timed_inv st' pool l' fr' a').
Proof.
  intros Ho HT Hl. pose proof (run_ok _ _ _ _ _ HT) as Er. pose proof HT as [HW Har He _ _ _ _ Hst]. destruct c as [sem abstime| |sem|sem|]; cbn [tw_legal tw_exec] in *.
  - apply andb_true_iff in Hl as [Hl Hs]. destruct (caller_facts _ _ _ _ _ HT Hl) as (Hi & Hid & Hx & Hlive).
    assert (exists c, sem <> NULL -> s_sems (tsem (t_sys st)) !! sem = Some c) as [c Hc].
    { apply orb_true_iff in Hs as [Hs|Hs]; [apply Z.eqb_eq in Hs; by exists 0|]. apply bool_decide_eq_true in Hs as [c Hc]. by exists c. }
    apply wp_bind. eapply wp_mono; [apply (timedwait_ok idle live sem_timeout_ptr (t_sys st) l fr a sem abstime c); auto|].
    intros [r s'] Hres. rewrite Er. destruct (tw_verdict sem abstime fr c (e_clock (w_env (t_sys st)))) as [[ok err]|].
    + destruct Hres as (-> & (fr' & Hfr & Hao) & _). apply wp_ret. destruct (inv_at_once _ _ _ _ _ HT s' fr' err Hx Hfr Hao) as (a' & H & _). by exists l, fr', a'.
    + destruct Hres as (w & fr' & t & Efr & _ & _ & -> & Hsu). apply wp_ret.
      destruct (inv_suspended _ _ _ _ _ HT s' fr' w sem _ Hx Hlive Efr Hsu) as (l' & a' & H & _). by exists l', fr', a'.
  - rewrite Er. apply negb_true_iff in Hl. rewrite (int_ok _ _ _ _ _ HT) in Hl. destruct (t_calls st !! arun a) as [w|] eqn:Hx; [|apply wp_ret; eauto].
    destruct (ti_owner _ _ _ _ _ HT _ _ Hx) as (Hv & _). apply wp_bind.
    eapply wp_mono; [by apply (resumed_ok idle live (t_sys st) l fr a w HW Har He Hl Hv), (call_not_free _ _ _ _ _ HT (arun a))|].
    intros [r s'] (_ & Hev & Hen & Hvv & l' & HW' & Har' & Hq'). apply wp_ret. exists l', (fr ++ [w]), a. by apply (inv_resumed _ _ _ _ _ HT).
  - apply andb_true_iff in Hl as [Hl Hs]. destruct (caller_facts _ _ _ _ _ HT Hl) as (Hi & Hid & Hx & Hlive). apply bool_decide_eq_true in Hs as [c Hc].
    apply wp_bind. eapply wp_mono; [by apply (wait_moves idle live (w_env (t_sys st)) a sem c)|]. intros [r m] ([a' He'] & Hk). apply wp_ret.
    exists l, fr, a'. apply (inv_env _ _ _ _ _ HT); [done|]. intros x w Hxw. apply (state_keeps (arun a) (w_env (t_sys st)) _ l); [done|congruence|done|]. by apply Hst.
  - destruct (s_sems (tsem (t_sys st)) !! sem) as [c|] eqn:Hc; [|done]. apply Z.ltb_lt in Hl.
    apply wp_bind. eapply wp_mono; [by apply (post_moves idle live (w_env (t_sys st)) a sem c)|]. intros [r m] ([a' He'] & Hw & Hs). apply wp_ret.
    exists l, fr, a'. apply (inv_env _ _ _ _ _ HT); [done|]. intros x w Hxw. destruct (Hst x w Hxw) as [[Hin [sm Hy]]|[Hy|Hy]]; [|right; left; by apply Hw|right; right; by apply Hw].
    destruct (Hs x sm Hy) as [Hy'|Hy']; [left; split; [done|by exists sm]|by right; left].
  - apply wp_bind. eapply wp_mono; [by apply (inv_tick _ _ _ _ _ HT)|]. intros s' (l' & a' & H). apply wp_ret. by exists l', fr, a'.
Qed.

(** ** Theorems *)

(** C14: Along any sequence of timed waits, plain waits, posts, resumptions and timer interrupts that respects
    the callers' contract, no call faults, and at every point: a suspended sem_timedwait either waits with its own
    watchdog running (so it cannot wait for ever) or has been woken by a post or by its timeout; a timeout that
    is still to come belongs to the suspended call of its task (so none reaches a task after its call has
    returned); and the watchdogs in the pool and those of suspended calls are together always the same. *)
Theorem timed_waits_safe cs st pool l fr a :
  others_ok idle live sem_timeout_ptr others -> timed_inv st pool l fr a ->
  wp (tw_run idle cs st) (fun o => forall st', o = Some st' -> exists l' fr' a', timed_inv st' pool l' fr' a').
Proof.
  intros Ho. revert st l fr a. induction cs as [|c cs IH]; intros st l fr a HT; simpl; [intros st' [= <-]; eauto|].
  destruct (tw_legal idle c st) eqn:El; [|done]. apply wp_bind. eapply wp_mono; [by apply (tw_exec_ok c st pool l fr a)|].
  intros st1 (l1 & fr1 & a1 & HT1). by apply (IH st1 l1 fr1 a1).
Qed.

(** C13: A timed wait ends at its deadline.  When a task calls sem_timedwait for a semaphore without a count and a
    time [abstime] at least one tick and at most INT_MAX microseconds ahead, and there is a watchdog, it is
    suspended; after any number of timer interrupts in which nobody posts, it still waits as long as the clock
    is before [abstime], so the wait is never cut short, and it is runnable with errno ETIMEDOUT once the clock is
    past [abstime].  The tick at which the clock shows exactly [abstime] is left open: the description has the
    timeout expire there, the code one tick later ([deadline_one_tick_late]). *)
Theorem timedwait_deadline n st pool l fr a sem c abstime :
  others_ok idle live sem_timeout_ptr others -> timed_inv st pool l fr a -> caller_ok idle st = true -> fr <> [] ->
  s_sems (tsem (t_sys st)) !! sem = Some c -> c <= 0 -> timespec_ok abstime ->
  let clk := e_clock (w_env (t_sys st)) in
  clock_ok clk -> elapsed clk * MSEC_PER_TICK < 2 ^ 32 -> now clk + NSEC_PER_TICK <= nanos abstime ->
  (nanos abstime - now clk) / NSEC_PER_USEC <= INT_MAX -> elapsed clk + Z.of_nat n < 2 ^ 32 ->
  wp ('(r, s) ← sem_timedwait sem_timeout_ptr sem (Some abstime) (t_sys st); s ← timer_ticks sem_timeout_ptr others n s; Ok (r, s))
     (fun '(r, s') => (exists wdog, r = TwBlocked wdog) /\ now (e_clock (w_env s')) = now clk + Z.of_nat n * NSEC_PER_TICK
        /\ (now (e_clock (w_env s')) < nanos abstime -> waits (running st) sem (w_env s'))
        /\ (nanos abstime < now (e_clock (w_env s')) -> woken (running st) ETIMEDOUT (w_env s'))).
Proof.
  intros Ho HT Hcal Hfr Hc Hneg Hts clk Hclk He Hfut Hmax Hn. destruct (caller_facts _ _ _ _ _ HT Hcal) as (Hi & Hid & Hx & Hlive).
  assert (sem <> NULL) as Hs0 by (destruct (eo_sem _ _ _ _ (ti_env _ _ _ _ _ HT)) as (Hr & _ & HS); by eapply (count_range _ _ _ _ _ Hr HS)).
  destruct (deadline_ticks abstime clk Hts Hclk He Hfut Hmax) as (Hticks & Hbv & Hiff). set (ticks := ticks_until abstime clk) in *.
  assert (tw_verdict sem (Some abstime) fr c clk = None) as Ev by (unfold tw_verdict; rewrite !decide_False by done; by rewrite (proj2 (Z.ltb_ge 0 c)) by lia).
  apply wp_bind. eapply wp_mono; [apply (timedwait_ok idle live sem_timeout_ptr (t_sys st) l fr a sem (Some abstime) c); try done; apply HT|].
  intros [r s1] Hres. fold clk in Hres. rewrite Ev in Hres. destruct Hres as (w & fr' & t & Efr & [= <-] & _ & -> & Hsu). fold ticks in Hsu.
  destruct (inv_suspended _ _ _ _ _ HT s1 fr' w sem ticks Hx Hlive Efr Hsu) as (l' & a' & HT1 & Hq1). set (st1 := TwState s1 _) in *.
  destruct Hsu as [_ _ _ _ _ Hw1 _ Hc1]. apply wp_bind.
  eapply wp_mono; [apply (ticks_wait idle live sem_timeout_ptr others n s1 l' fr' (arun a) w (ticks + 1) sem Ho); [exists a'; apply HT1|apply HT1|apply HT1| |done]|].
  - apply (inv_timer _ _ _ _ _ HT1); [apply lookup_insert_eq|]. simpl. rewrite Hq1, insert_timer_elem. left. unfold started_delay. by rewrite Z.min_l by lia.
  - intros s' [(l3 & _ & _ & _ & _ & _ & Hck & _) Hres]. apply wp_ret. split; [by eexists|]. rewrite Hck, Hc1. fold clk.
    rewrite now_ticks by done. split; [done|]. rewrite (run_ok _ _ _ _ _ HT). specialize (Hiff (Z.of_nat n)).
    destruct (Z.ltb_spec (Z.of_nat n) (ticks + 1)); (split; intros Hnow; done || (exfalso; lia)).
Qed.


(** A suspended call returns OK when its task was woken by a post and ERROR when it was woken by the timeout; its
    watchdog is stopped and free again, and the other watchdogs expire as before. *)
Theorem timedwait_resumes st pool l fr a w :
  timed_inv st pool l fr a -> k_interrupt (s_kernel (tsem (t_sys st))) = false -> t_calls st !! running st = Some w ->
  wp (sem_timedwait_resumed w (t_sys st)) (fun '(r, s') => exists err l',
    woken (running st) err (w_env (t_sys st)) /\ (err = 0 \/ err = ETIMEDOUT) /\ r = TwRet (err =? 0) /\ w_env s' = w_env (t_sys st)
    /\ queue s' l' = remove_timer w (queue (t_sys st) l) /\ timed_inv (TwState s' (delete (running st) (t_calls st))) pool l' (fr ++ [w]) a).
Proof.
  intros HT Hi Hx. rewrite (int_ok _ _ _ _ _ HT) in Hi. rewrite (run_ok _ _ _ _ _ HT) in *. pose proof HT as [HW Har He _ _ _ _ Hst].
  destruct (ti_owner _ _ _ _ _ HT _ _ Hx) as (Hv & _). specialize (Hst _ _ Hx).
  assert (exists err, woken (arun a) err (w_env (t_sys st)) /\ (err = 0 \/ err = ETIMEDOUT)) as (err & Hw & Herr).
  { destruct Hst as [[_ [sem Hs]]|[Hs|Hs]]; [exfalso|by exists 0; auto|by exists ETIMEDOUT; auto]. rewrite (waits_iff _ _ _ _ _ _ He) in Hs.
    destruct (eo_sem _ _ _ _ He) as ((HR & _) & [HC _] & _). by pose proof (sr_disj _ _ HR _ _ _ (proj1 Hs) (core_run _ _ HC)). }
  eapply wp_mono; [by apply (resumed_ok idle live (t_sys st) l fr a w HW Har He Hi Hv), (call_not_free _ _ _ _ _ HT (arun a))|].
  intros [r s'] (-> & Hev & Hen & Hvv & l' & HW' & Har' & Hq'). exists err, l'. split; [done|]. split; [done|]. rewrite (woken_iff _ _ _ _ _ _ He) in Hw.
  destruct Hw as [_ ->]. split; [by destruct Herr as [->| ->]|]. split; [done|]. split; [done|]. by apply (inv_resumed _ _ _ _ _ HT).
Qed.

End seq.

(** ** A system with six tasks and one free watchdog *)

#[local] Program Instance tw_pid_config : PidConfig := { max_tasks_log := 3 }.
Next Obligation. lia. Qed.

(** The tasks and semaphores of [demo_sys] and the watchdogs of [demo_wd], whose
    two running watchdogs belong to others; the time is 7 s. *)
Definition tw_live : gmap Z Z := list_to_map [(0, 16); (1, 32); (2, 48); (3, 64); (4, 80); (5, 96)].
Definition tw_pids : pid_sys :=
  PidSys [PidHash 16 0; PidHash 32 1; PidHash 48 2; PidHash 64 3; PidHash 80 4; PidHash 96 5; PidHash 0 0; PidHash 0 0] 5
    (list_to_map [(16, 0); (32, 1); (48, 2); (64, 3); (80, 4); (96, 5)]).
Definition tw_clock : clock_s := ClockS 130 0 (Timespec 5 700000000) 0.
Definition tw_demo_env : tw_env := TwEnv demo_sys tw_clock tw_pids.
Definition tw_demo : tw_state := TwState (WdSys tw_env demo_wmem (SqQueue 64 96) (SqQueue 160 160) 0 tw_demo_env) ∅.
Definition tw_others (f n : Z) (p : list Z) (s : tw_sys) : res tw_sys := Ok s.

Lemma tw_others_ok : others_ok 16 tw_live 5000 tw_others.
Proof. intros f n p s Hf He. exists (w_env s). split; [by destruct s|]. by split. Qed.

Lemma tw_pids_ok : pid_inv tw_pids tw_live 16.
Proof.
  assert (forall pid tcb, tw_live !! pid = Some tcb <-> (pid, tcb) ∈ [(0, 16); (1, 32); (2, 48); (3, 64); (4, 80); (5, 96)]) as Hl.
  { intros pid tcb. symmetry. apply elem_of_list_to_map. apply (bool_decide_unpack _). by vm_compute. }
  split; [done|by vm_compute; split|done| | |].
  - intros pid tcb. rewrite Hl, pidhash_mod. change CONFIG_MAX_TASKS with 8. split.
    + intros Hin. set_unfold in Hin. repeat (destruct Hin as [[= -> ->]|Hin]; [by vm_compute|]). done.
    + intros (Hp & Ht & _ & Hs). assert (0 <= pid mod 8 < 8) as Hm by (apply Z.mod_pos_bound; lia).
      assert (pid mod 8 ∈ [0; 1; 2; 3; 4; 5; 6; 7]) as Hc by (set_unfold; lia). revert Hs. set_unfold in Hc.
      repeat (destruct Hc as [->|Hc]; [intros [= <- <-]; (set_solver by done) || done|]). done.
  - intros i [tcb pid] [Hi Hs] Hne. assert (i ∈ [0; 1; 2; 3; 4; 5; 6; 7]) as Hc.
    { apply lookup_lt_Some in Hs. simpl in Hs. set_unfold. lia. }
    set_unfold in Hc. repeat (destruct Hc as [->|Hc]; [injection Hs as <- <-; by vm_compute|]). done.
  - intros pid tcb. rewrite Hl. intros Hin. set_unfold in Hin. repeat (destruct Hin as [[= -> ->]|Hin]; [by vm_compute|]). done.
Qed.

Lemma tw_demo_ok : timed_inv 5000 16 tw_live tw_demo [160] [64; 96] [160] demo_sem_sched.
Proof.
  split; try done.
  - destruct demo_wd_ok. by split.
  - split; [apply demo_sys_ok|apply tw_pids_ok|]. intros pid x Hx. apply elem_of_list_to_map_2 in Hx. set_unfold in Hx.
    destruct Hx as [[= -> ->]|[[= -> ->]|[[= -> ->]|[[= -> ->]|[[= -> ->]|[[= -> ->]|[]]]]]]]; (split; [by vm_compute|]);
      [exists TL_readytorun|exists TL_readytorun|exists TL_readytorun|exists TL_readytorun|exists TL_waitingforsemaphore|exists TL_waitingforsignal]; simpl; set_solver.
  - apply NoDup_singleton.
  - intros y w Hw [Hf _]. exfalso. set_unfold in Hw. destruct Hw as [->|[->|[]]]; by vm_compute in Hf.
Qed.

(** Task 32 waits until 7.035 s and times out, 48 finds no watchdog and, like 64, waits without a timeout; 32
    returns, posts, and the head of the waiters, 80, runs. *)
Definition tw_demo_calls : list tw_call :=
  [TTimedWait 512 (Some (Timespec 7 35000000)); TTick; TTick; TTick; TTick; TTimedWait 512 (Some (Timespec 8 0)); TWait 512; TWait 512;
   TResume; TPost 512].

Lemma timed_waits_safe_witness :
  (o ← tw_run 5000 tw_others 16 tw_demo_calls tw_demo; Ok (option_map (fun st => (running st, map_to_list (t_calls st), s_sems (tsem (t_sys st)) !! 512)) o))
    = Ok (Some (80, [], Some (-2)))
  /\ wp (tw_run 5000 tw_others 16 tw_demo_calls tw_demo) (fun o => forall st', o = Some st' ->
       exists l' fr' a', timed_inv 5000 16 tw_live st' [160] l' fr' a').
Proof.
  split; [vm_compute; reflexivity|].
  apply (timed_waits_safe 5000 tw_others 16 tw_live tw_demo_calls tw_demo [160] [64; 96] [160] demo_sem_sched); [apply tw_others_ok|apply tw_demo_ok].
Defined.

Lemma timedwait_deadline_witness :
  wp ('(r, s) ← sem_timedwait 5000 512 (Some (Timespec 7 35000000)) (t_sys tw_demo); s ← timer_ticks 5000 tw_others 4 s; Ok (r, s))
     (fun '(r, s') => (exists wdog, r = TwBlocked wdog) /\ now (e_clock (w_env s')) = now tw_clock + Z.of_nat 4 * NSEC_PER_TICK
        /\ (now (e_clock (w_env s')) < nanos (Timespec 7 35000000) -> waits 32 512 (w_env s'))
        /\ (nanos (Timespec 7 35000000) < now (e_clock (w_env s')) -> woken 32 ETIMEDOUT (w_env s')))
  /\ now tw_clock + 3 * NSEC_PER_TICK < nanos (Timespec 7 35000000) < now tw_clock + Z.of_nat 4 * NSEC_PER_TICK.
Proof.
  split; [|vm_compute; split; reflexivity].
  apply (timedwait_deadline 5000 tw_others 16 tw_live 4 tw_demo [160] [64; 96] [160] demo_sem_sched 512 (-1) (Timespec 7 35000000));
    [apply tw_others_ok|apply tw_demo_ok|vm_compute; reflexivity|done|reflexivity|lia|repeat split; simpl; unfold NSEC_PER_SEC; lia
    |repeat split; simpl; unfold NSEC_PER_SEC; lia|vm_compute; reflexivity|vm_compute; discriminate|vm_compute; discriminate|vm_compute; reflexivity].
Defined.


(** ** Departures from the description of the call *)

(** A wait of 2150 s ends at once: the microseconds of the delay overflow an int32_t. *)
Lemma long_wait_times_out :
  (match sem_timedwait 5000 512 (Some (Timespec 2157 0)) (t_sys tw_demo) with
   | Ok (r, s) => Some (r, get_errno (tsem s))
   | Err _ => None
   end) = Some (TwRet false, Ok ETIMEDOUT).
Proof. vm_compute. reflexivity. Qed.

(** A time 9 ms ahead, less than a tick, has not come but times out at once. *)
Lemma less_than_a_tick :
  now tw_clock < nanos (Timespec 7 9000000)
  /\ (match sem_timedwait 5000 512 (Some (Timespec 7 9000000)) (t_sys tw_demo) with
      | Ok (r, s) => Some (r, get_errno (tsem s))
      | Err _ => None
      end) = Some (TwRet false, Ok ETIMEDOUT).
Proof. vm_compute. done. Qed.

(** A wait until 30 ms ahead: at the third tick the clock shows that time and the task still waits; it is runnable
    again after the fourth. *)
Lemma deadline_one_tick_late :
  now tw_clock + 3 * NSEC_PER_TICK = nanos (Timespec 7 30000000)
  /\ ((fun n => match '(_, s) ← sem_timedwait 5000 512 (Some (Timespec 7 30000000)) (t_sys tw_demo); timer_ticks 5000 tw_others n s with
                | Ok s => task_state <$> k_tcbs (s_kernel (tsem s)) !! 32
                | Err _ => None
                end) <$> [3%nat; 4%nat]) = [Some TSTATE_WAIT_SEM; Some TSTATE_TASK_READYTORUN].
Proof. vm_compute. done. Qed.

(** 10^9 nanoseconds, which are a whole second, and negative ones are accepted. *)
Lemma nanoseconds_not_checked :
  (match sem_timedwait 5000 512 (Some (Timespec 8 1000000000)) (t_sys tw_demo), sem_timedwait 5000 512 (Some (Timespec 8 (-5))) (t_sys tw_demo) with
   | Ok (r1, _), Ok (r2, _) => Some (r1, r2)
   | _, _ => None
   end) = Some (TwBlocked 160, TwBlocked 160).
Proof. vm_compute. reflexivity. Qed.

(** A time 3000 s ago is taken for one 1294.96 s ahead: the caller waits. *)
Lemma past_time_waits : ticks_until (Timespec 1000 0) (ClockS 0 0 (Timespec 4000 0) 0) = 129496.
Proof. vm_compute. reflexivity. Qed.
