(* ===== verification/Pthread.v ===== *)
(** * Mutexes and condition variables: operations (src/nuttx/sched/pthread_mutex*.c, pthread_cond*.c)

    Pthread mutexes of a build with CONFIG_MUTEX_TYPES, and condition
    variables, over the semaphores of [Sem].  A mutex is three words beside its
    semaphore, which is the member behind the holder's pid; a condition
    variable is a semaphore.  A call that waits is cut where its task is
    suspended and returns [PtBlocked]; pthread_cond_wait is also cut where
    sched_unlock lets another task run and then returns [PtPreempted].  The
    [_resumed] definitions are what the task runs when it is the running task
    again. *)

From S2P Require Import Prelude Queue Sched Sem.

Definition OK : Z := 0.
Definition ERROR : Z := -1.
Definition EDEADLK : Z := 35.

Definition PTHREAD_MUTEX_NORMAL : Z := 0.
Definition PTHREAD_MUTEX_ERRORCHECK : Z := 1.
Definition PTHREAD_MUTEX_RECURSIVE : Z := 2.
Definition PTHREAD_MUTEX_DEFAULT : Z := PTHREAD_MUTEX_NORMAL.

(** ** Data *)

(** The members of pthread_mutex_t but the semaphore. *)
Record pthread_mutex_s : Type := Mutex {
  m_pid : Z;
  m_type : Z;
  m_nlocks : Z
}.

Definition set_m_pid (p : Z) (m : pthread_mutex_s) : pthread_mutex_s := Mutex p (m_type m) (m_nlocks m).
Definition set_m_type (t : Z) (m : pthread_mutex_s) : pthread_mutex_s := Mutex (m_pid m) t (m_nlocks m).
Definition set_m_nlocks (n : Z) (m : pthread_mutex_s) : pthread_mutex_s := Mutex (m_pid m) (m_type m) n.

(** [&mutex->sem]: the semaphore follows the pid, an int. *)
Definition mutex_sem (mutex : ptr) : ptr := mutex + 4.

(** [&cond->sem], the only member. *)
Definition cond_sem (cond : ptr) : ptr := cond.

Record pthread_mutexattr_s : Type := MutexAttr { ma_pshared : Z; ma_type : Z }.

Record pt_sys : Type := PtSys { p_sem : sem_sys; p_mutexes : gmap Z pthread_mutex_s }.

Definition with_p_sem (x : sem_sys) (s : pt_sys) : pt_sys := PtSys x (p_mutexes s).
Definition p_kernel (s : pt_sys) : kernel := s_kernel (p_sem s).
Definition with_p_kernel (k : kernel) (s : pt_sys) : pt_sys := with_p_sem (with_kernel k (p_sem s)) s.

(** An assignment to a member of a mutex. *)
Definition set_mutex (f : pthread_mutex_s -> pthread_mutex_s) (mutex : ptr) (s : pt_sys) : res pt_sys :=
  m ← store f mutex (p_mutexes s);
  Ok (PtSys (p_sem s) m).

Inductive pt_result : Type :=
| PtRet (code : Z)
| PtBlocked
| PtPreempted.

(** ** pthread_initialize.c: taking and giving a semaphore *)

Definition take_fail (s : sem_sys) : res (wait_result * sem_sys) :=
  s ← set_errno EINVAL s;
  Ok (WaitRet false, s).

(** [while (sem_wait(sem) != OK)]: a wait that ends with EINTR is begun again.
    Between two suspensions the body runs at most once. *)
Fixpoint take_loop (fuel : nat) (sem : ptr) (s : sem_sys) : res (wait_result * sem_sys) :=
  match fuel with
  | O => Err FFuel
  | S fuel =>
      '(r, s) ← sem_wait sem s;
      match r with
      | WaitBlocked => Ok (WaitBlocked, s)
      | WaitRet true => Ok (WaitRet true, s)
      | WaitRet false =>
          e ← get_errno s;
          if negb (e =? EINTR) then take_fail s else take_loop fuel sem s
      end
  end.

Definition pthread_takesemaphore (sem : ptr) (s : sem_sys) : res (wait_result * sem_sys) :=
  if decide (sem <> NULL) then take_loop 1 sem s else take_fail s.

(** The rest of pthread_takesemaphore, after its task was restarted. *)
Definition takesemaphore_resumed (sem : ptr) (s : sem_sys) : res (wait_result * sem_sys) :=
  ok ← sem_wait_resumed s;
  if ok : bool then Ok (WaitRet true, s)
  else
    e ← get_errno s;
    if negb (e =? EINTR) then take_fail s else take_loop 1 sem s.

Definition pthread_givesemaphore `{SchedConfig} (sem : ptr) (s : sem_sys) : res (Z * sem_sys) :=
  if decide (sem <> NULL) then
    '((ok, _), s) ← sem_post sem s;
    if ok : bool then Ok (OK, s)
    else
      s ← set_errno EINVAL s;
      Ok (ERROR, s)
  else
    s ← set_errno EINVAL s;
    Ok (ERROR, s).

(** ** pthread_mutexinit.c and pthread_mutexdestroy.c *)

Definition pthread_mutex_init (mutex : ptr) (attr : option pthread_mutexattr_s) (s : pt_sys) : res (Z * pt_sys) :=
  if decide (mutex = NULL) then Ok (EINVAL, s)
  else
    let type := match attr with Some at_ => ma_type at_ | None => PTHREAD_MUTEX_DEFAULT end in
    s ← set_mutex (set_m_pid 0) mutex s;
    '(status, x) ← sem_init (mutex_sem mutex) 1 (p_sem s);
    let ret := if status : bool then OK else EINVAL in
    s ← set_mutex (set_m_type type) mutex (with_p_sem x s);
    s ← set_mutex (set_m_nlocks 0) mutex s;
    Ok (ret, s).

Definition pthread_mutex_destroy (mutex : ptr) (s : pt_sys) : res (Z * pt_sys) :=
  if decide (mutex = NULL) then Ok (EINVAL, s)
  else
    k ← sched_lock (p_kernel s);
    let s := with_p_kernel k s in
    m ← deref (p_mutexes s) mutex;
    '(ret, s) ←
      (if negb (m_pid m =? 0) then Ok (EBUSY, s)
       else
         '(status, x) ← sem_destroy (mutex_sem mutex) (p_sem s);
         Ok (if status : bool then OK else EINVAL, with_p_sem x s));
    '(_, k) ← sched_unlock (p_kernel s);
    Ok (ret, with_p_kernel k s).

(** ** pthread_mutexlock.c, pthread_mutextrylock.c, pthread_mutexunlock.c *)

(** What pthread_mutex_lock does after pthread_takesemaphore. *)
Definition mutex_lock_taken (mutex : ptr) (mypid : Z) (r : wait_result) (s : pt_sys) : res (pt_result * pt_sys) :=
  match r with
  | WaitBlocked => Ok (PtBlocked, s)
  | WaitRet ok =>
      s ←
        (if ok : bool then
           s ← set_mutex (set_m_pid mypid) mutex s;
           set_mutex (set_m_nlocks 1) mutex s
         else Ok s);
      '(_, k) ← sched_unlock (p_kernel s);
      Ok (PtRet (if ok then OK else ERROR), with_p_kernel k s)
  end.

Definition pthread_mutex_lock (mutex : ptr) (s : pt_sys) : res (pt_result * pt_sys) :=
  mypid ← getpid (p_kernel s);
  if decide (mutex = NULL) then Ok (PtRet EINVAL, s)
  else
    k ← sched_lock (p_kernel s);
    let s := with_p_kernel k s in
    m ← deref (p_mutexes s) mutex;
    if m_pid m =? mypid then
      '(ret, s) ←
        (if m_type m =? PTHREAD_MUTEX_RECURSIVE then
           s ← set_mutex (set_m_nlocks (s32 (m_nlocks m + 1))) mutex s;
           Ok (OK, s)
         else Ok (EDEADLK, s));
      '(_, k) ← sched_unlock (p_kernel s);
      Ok (PtRet ret, with_p_kernel k s)
    else
      '(r, x) ← pthread_takesemaphore (mutex_sem mutex) (p_sem s);
      mutex_lock_taken mutex mypid r (with_p_sem x s).

(** [mypid] is the local variable of the call, read before the wait. *)
Definition pthread_mutex_lock_resumed (mutex : ptr) (mypid : Z) (s : pt_sys) : res (pt_result * pt_sys) :=
  '(r, x) ← takesemaphore_resumed (mutex_sem mutex) (p_sem s);
  mutex_lock_taken mutex mypid r (with_p_sem x s).

Definition pthread_mutex_trylock (mutex : ptr) (s : pt_sys) : res (Z * pt_sys) :=
  if decide (mutex = NULL) then Ok (EINVAL, s)
  else
    k ← sched_lock (p_kernel s);
    let s := with_p_kernel k s in
    '(ok, x) ← sem_trywait (mutex_sem mutex) (p_sem s);
    let s := with_p_sem x s in
    '(ret, s) ←
      (if ok : bool then
         pid ← getpid (p_kernel s);
         s ← set_mutex (set_m_pid pid) mutex s;
         Ok (OK, s)
       else
         e ← get_errno (p_sem s);
         Ok (if e =? EAGAIN then EBUSY else EINVAL, s));
    '(_, k) ← sched_unlock (p_kernel s);
    Ok (ret, with_p_kernel k s).

Definition pthread_mutex_unlock `{SchedConfig} (mutex : ptr) (s : pt_sys) : res (Z * pt_sys) :=
  if decide (mutex = NULL) then Ok (EINVAL, s)
  else
    k ← sched_lock (p_kernel s);
    let s := with_p_kernel k s in
    m ← deref (p_mutexes s) mutex;
    pid ← getpid (p_kernel s);
    '(ret, s) ←
      (if negb (m_pid m =? pid) then Ok (EPERM, s)
       else if (m_type m =? PTHREAD_MUTEX_RECURSIVE) && (1 <? m_nlocks m) then
         s ← set_mutex (set_m_nlocks (m_nlocks m - 1)) mutex s;
         Ok (OK, s)
       else
         s ← set_mutex (set_m_pid 0) mutex s;
         s ← set_mutex (set_m_nlocks 0) mutex s;
         '(ret, x) ← pthread_givesemaphore (mutex_sem mutex) (p_sem s);
         Ok (ret, with_p_sem x s));
    '(_, k) ← sched_unlock (p_kernel s);
    Ok (ret, with_p_kernel k s).

(** ** pthread_condinit.c and pthread_conddestroy.c *)

Definition pthread_cond_init (cond : ptr) (s : pt_sys) : res (Z * pt_sys) :=
  if decide (cond = NULL) then Ok (EINVAL, s)
  else
    '(status, x) ← sem_init (cond_sem cond) 0 (p_sem s);
    Ok (if status : bool then OK else EINVAL, with_p_sem x s).

Definition pthread_cond_destroy (cond : ptr) (s : pt_sys) : res (Z * pt_sys) :=
  if decide (cond = NULL) then Ok (EINVAL, s)
  else
    '(status, x) ← sem_destroy (cond_sem cond) (p_sem s);
    Ok (if status : bool then OK else EINVAL, with_p_sem x s).

(** ** pthread_condwait.c *)

(** [ret |= pthread_takesemaphore(...)] *)
Definition or_ret (ret : Z) (ok : bool) : Z := Z.lor ret (if ok then OK else ERROR).

(** After the second pthread_takesemaphore. *)
Definition cond_wait_taken (mutex : ptr) (ret : Z) (r : wait_result) (s : pt_sys) : res (pt_result * pt_sys) :=
  match r with
  | WaitBlocked => Ok (PtBlocked, s)
  | WaitRet ok =>
      let ret := or_ret ret ok in
      if ret =? 0 then
        pid ← getpid (p_kernel s);
        s ← set_mutex (set_m_pid pid) mutex s;
        Ok (PtRet ret, s)
      else Ok (PtRet ret, s)
  end.

(** "Reacquire the mutex" *)
Definition cond_wait_reacquire (mutex : ptr) (ret : Z) (s : pt_sys) : res (pt_result * pt_sys) :=
  '(r, x) ← pthread_takesemaphore (mutex_sem mutex) (p_sem s);
  cond_wait_taken mutex ret r (with_p_sem x s).

Definition cond_wait_reacquire_resumed (mutex : ptr) (ret : Z) (s : pt_sys) : res (pt_result * pt_sys) :=
  '(r, x) ← takesemaphore_resumed (mutex_sem mutex) (p_sem s);
  cond_wait_taken mutex ret r (with_p_sem x s).

(** Where a pthread_cond_wait stands when its task does not run, with the value
    of [ret]: it waits for the condition, was preempted before it takes the
    mutex, or waits for the mutex. *)
Inductive cond_stage : Type :=
| CondSignal (ret : Z)
| CondPreempted (ret : Z)
| CondMutex (ret : Z).

(** After the first pthread_takesemaphore. *)
Definition cond_wait_signalled (mutex : ptr) (ret : Z) (r : wait_result) (s : pt_sys) : res ((pt_result * cond_stage) * pt_sys) :=
  match r with
  | WaitBlocked => Ok (PtBlocked, CondSignal ret, s)
  | WaitRet ok =>
      let ret := or_ret ret ok in
      '(switched, k) ← sched_unlock (p_kernel s);
      let s := with_p_kernel k s in
      if switched : bool then Ok (PtPreempted, CondPreempted ret, s)
      else
        '(r, s) ← cond_wait_reacquire mutex ret s;
        Ok (r, CondMutex ret, s)
  end.

Definition pthread_cond_wait `{SchedConfig} (cond mutex : ptr) (s : pt_sys) : res ((pt_result * cond_stage) * pt_sys) :=
  if decide (cond = NULL \/ mutex = NULL) then Ok (PtRet EINVAL, CondSignal 0, s)
  else
    m ← deref (p_mutexes s) mutex;
    pid ← getpid (p_kernel s);
    if negb (m_pid m =? pid) then Ok (PtRet EPERM, CondSignal 0, s)
    else
      k ← sched_lock (p_kernel s);
      let s := with_p_kernel k s in
      s ← set_mutex (set_m_pid 0) mutex s;
      '(ret, x) ← pthread_givesemaphore (mutex_sem mutex) (p_sem s);
      '(r, x) ← pthread_takesemaphore (cond_sem cond) x;
      cond_wait_signalled mutex ret r (with_p_sem x s).

(** The task of a pthread_cond_wait goes on. *)
Definition pthread_cond_wait_resumed (cond mutex : ptr) (stage : cond_stage) (s : pt_sys) : res ((pt_result * cond_stage) * pt_sys) :=
  match stage with
  | CondSignal ret =>
      '(r, x) ← takesemaphore_resumed (cond_sem cond) (p_sem s);
      cond_wait_signalled mutex ret r (with_p_sem x s)
  | CondPreempted ret =>
      '(r, s) ← cond_wait_reacquire mutex ret s;
      Ok (r, CondMutex ret, s)
  | CondMutex ret =>
      '(r, s) ← cond_wait_reacquire_resumed mutex ret s;
      Ok (r, CondMutex ret, s)
  end.

(** ** pthread_condsignal.c and pthread_condbroadcast.c *)

Definition pthread_cond_signal `{SchedConfig} (cond : ptr) (s : pt_sys) : res (Z * pt_sys) :=
  if decide (cond = NULL) then Ok (EINVAL, s)
  else
    '((ok, sval), x) ← sem_getvalue (cond_sem cond) (Some 0) (p_sem s);
    if negb ok then Ok (EINVAL, with_p_sem x s)
    else if default 0 sval <? 0 then
      '(ret, x) ← pthread_givesemaphore (cond_sem cond) x;
      Ok (ret, with_p_sem x s)
    else Ok (OK, with_p_sem x s).

(** [while (sval < 0)] *)
Fixpoint broadcast_loop `{SchedConfig} (fuel : nat) (cond : ptr) (sval ret : Z) (s : sem_sys) : res (Z * sem_sys) :=
  match fuel with
  | O => Err FFuel
  | S fuel =>
      if sval <? 0 then
        '(ret, s) ← pthread_givesemaphore (cond_sem cond) s;
        broadcast_loop fuel cond (sval + 1) ret s
      else Ok (ret, s)
  end.

Definition pthread_cond_broadcast `{SchedConfig} (cond : ptr) (s : pt_sys) : res (Z * pt_sys) :=
  if decide (cond = NULL) then Ok (EINVAL, s)
  else
    k ← sched_lock (p_kernel s);
    let s := with_p_kernel k s in
    '((ok, sval), x) ← sem_getvalue (cond_sem cond) (Some 0) (p_sem s);
    '(ret, x) ←
      (if negb ok then Ok (EINVAL, x)
       else let sval := default 0 sval in broadcast_loop (S (Z.to_nat (- sval))) cond sval OK x);
    let s := with_p_sem x s in
    '(_, k) ← sched_unlock (p_kernel s);
    Ok (ret, with_p_kernel k s).
