(* ===== verification/PthreadSpec.v ===== *)
(** * Mutexes and condition variables: invariant and steps

    [pt_inv] ties each mutex to its semaphore and to the tasks inside
    pthread_mutex_lock and pthread_cond_wait: a mutex is free, or a count of its
    semaphore was handed to a waiter that has not run yet, or a task holds it.
    The lemmas follow the semaphore operations through it. *)

From stdpp Require Import sorting.
From S2P Require Import Prelude Queue Sched SchedInv SchedOps SchedSpec Sem SemSpec Pthread.

(** ** What an operation changes in the tasks *)

Lemma alter_twice {A} (f g : A -> A) x (m : gmap Z A) : alter f x (alter g x m) = alter (f ∘ g) x m.
Proof.
  apply map_eq. intros i. destruct (decide (x = i)) as [<-|]; [|by rewrite !lookup_alter_ne].
  rewrite !lookup_alter_eq. by destruct (m !! x).
Qed.

(** Of the fields that matter here only errno and waitsem of [x] change, to [e] and [w]. *)
Record task_step (x e w : Z) (a a' : asched) : Prop := TaskStep {
  ts_pid : forall y, a_pid a' y = a_pid a y;
  ts_dom : forall y, is_Some (as_tasks a' !! y) <-> is_Some (as_tasks a !! y);
  ts_other : forall y, y <> x -> a_errno a' y = a_errno a y /\ a_wait a' y = a_wait a y;
  ts_errno : a_errno a' x = e;
  ts_wait : a_wait a' x = w
}.

#[global] Arguments ts_pid {x e w a a'} _.
#[global] Arguments ts_dom {x e w a a'} _.
#[global] Arguments ts_other {x e w a a'} _.
#[global] Arguments ts_errno {x e w a a'} _.
#[global] Arguments ts_wait {x e w a a'} _.

Lemma step_alter x e w a a' f :
  as_tasks a' = alter f x (as_tasks a) -> (forall t, t_pid (f t) = t_pid t) -> is_Some (as_tasks a !! x) ->
  (forall t, as_tasks a !! x = Some t -> pterrno (f t) = e /\ waitsem (f t) = w) -> task_step x e w a a'.
Proof.
  intros E Hp [t Et] Hf. destruct (Hf t Et) as [He Hw]. split; unfold a_pid, a_errno, a_wait; rewrite E.
  - intros y. destruct (decide (x = y)) as [<-|]; [|by rewrite lookup_alter_ne]. rewrite lookup_alter_eq, Et. simpl. apply Hp.
  - intros y. rewrite lookup_alter_is_Some. done.
  - intros y Hy. by rewrite lookup_alter_ne.
  - by rewrite lookup_alter_eq, Et.
  - by rewrite lookup_alter_eq, Et.
Qed.

(** Nothing that matters here changes in any task. *)
Definition still (a a' : asched) : Prop := forall x, is_Some (as_tasks a !! x) -> task_step x (a_errno a x) (a_wait a x) a a'.

Lemma still_alter a a' f x :
  as_tasks a' = alter f x (as_tasks a) -> (forall t, t_pid (f t) = t_pid t) -> (forall t, pterrno (f t) = pterrno t) ->
  (forall t, waitsem (f t) = waitsem t) -> still a a'.
Proof.
  intros E Hp He Hw y Hy. unfold a_errno, a_wait.
  assert (forall {B} (g : TCB -> B) d z, (forall t, g (f t) = g t) -> from_option g d (as_tasks a' !! z) = from_option g d (as_tasks a !! z)) as Hg.
  { intros B g d z H. rewrite E. by apply (field_set g d f x a z). }
  split; unfold a_pid, a_errno, a_wait; intros; rewrite ?Hg by done; try done. rewrite E. apply lookup_alter_is_Some.
Qed.

Lemma still_lock a : still a (a_lock a).
Proof. by eapply still_alter. Qed.

Lemma still_unlock a : still a (a_unlock a).
Proof.
  apply (still_alter _ _ (set_lockcount (Z.max 0 (alk a (arun a) - 1))) (arun a)); try done. unfold a_unlock. by case_match.
Qed.

Section steps.
  Context (k : kernel) (a : asched) (idle : Z).
  Hypothesis Hr : refines k a.
  Hypothesis HI : core_inv idle a.

Lemma run_task : is_Some (as_tasks a !! arun a).
Proof. eapply (ref_is_Some k a); [done|]. by eapply ref_run_valid. Qed.

Lemma step_take : task_step (arun a) EINVAL NULL a (a_take a).
Proof. eapply step_alter; [apply alter_twice|done|apply run_task|done]. Qed.

Lemma step_errno e : task_step (arun a) e (a_wait a (arun a)) a (a_set (set_pterrno e) (arun a) a).
Proof. eapply step_alter; [done|done|apply run_task|]. intros t Et. split; [done|]. unfold a_wait. by rewrite Et. Qed.

Lemma step_sleep sem : task_step (arun a) 0 sem a (a_sleep sem a).
Proof.
  eapply (step_alter _ _ _ _ _ (set_pterrno 0 ∘ (set_waitsem sem ∘ set_pterrno EINVAL))); [|done|apply run_task|done].
  by rewrite <-!alter_twice.
Qed.

Lemma step_try ok : a_wait a (arun a) = NULL -> task_step (arun a) EAGAIN NULL a (a_try ok a).
Proof.
  intros Hw. destruct ok.
  - eapply (step_alter _ _ _ _ _ (set_waitsem NULL ∘ (set_pterrno EAGAIN ∘ set_pterrno EINVAL))); [by rewrite <-!alter_twice|done|apply run_task|done].
  - eapply (step_alter _ _ _ _ _ (set_pterrno EAGAIN ∘ set_pterrno EINVAL)); [by rewrite <-!alter_twice|done|apply run_task|].
    intros t Et. split; [done|]. rewrite <-Hw. unfold a_wait. by rewrite Et.
Qed.

Context `{SchedConfig}.

Lemma wait_task l x : x ∈ as_lists a l -> is_Some (as_tasks a !! x).
Proof. intros Hx. eapply (ref_is_Some k a); [done|]. by eapply ref_valid. Qed.

Lemma step_cancel e x : x ∈ as_lists a TL_waitingforsemaphore -> task_step x e NULL a (a_cancel x e a).
Proof.
  intros Hx. eapply (step_alter _ _ _ _ _ (set_timeslice RR_TICKS ∘ (set_pterrno e ∘ set_waitsem NULL))); [|done|by eapply wait_task|done].
  unfold a_cancel. rewrite unblock_tasks. simpl. by rewrite <-!alter_twice.
Qed.

Lemma step_wake sem x q : waiters sem a = x :: q -> task_step x (a_errno a x) NULL a (a_wake sem a).
Proof.
  intros Hw. assert (x ∈ waiters sem a) as [_ Hx]%list_elem_of_filter by (rewrite Hw; left). unfold a_wake. rewrite Hw.
  eapply (step_alter _ _ _ _ _ (set_timeslice RR_TICKS ∘ set_waitsem NULL)); [|done|by eapply wait_task|].
  - rewrite unblock_tasks. simpl. by rewrite <-alter_twice.
  - intros t Et. split; [|done]. unfold a_errno. by rewrite Et.
Qed.

End steps.

(** ** The scheduler lock and errno *)

(** The waiting list and what tasks wait for stay; tasks move between other lists. *)
Lemma sem_inv_move sems a a' :
  as_lists a' TL_waitingforsemaphore = as_lists a TL_waitingforsemaphore -> (forall y, a_wait a' y = a_wait a y) ->
  size (as_tasks a') = size (as_tasks a) ->
  (forall l y, l <> TL_waitingforsemaphore -> y ∈ as_lists a' l -> exists l', l' <> TL_waitingforsemaphore /\ y ∈ as_lists a l') ->
  sem_inv sems a -> sem_inv sems a' /\ (forall s, waiters s a' = waiters s a).
Proof.
  intros EL EW ES EM [A B C D]. assert (forall s, waiters s a' = waiters s a) as Ew.
  { intros s. unfold waiters. rewrite EL. apply filter_same. intros y _. by rewrite EW. }
  split; [|done]. split.
  - intros s c Hs. rewrite Ew. by apply A.
  - intros x. rewrite EL, EW. apply B.
  - intros l x Hl Hx. rewrite EW. destruct (EM l x Hl Hx) as (l' & Hl' & Hx'). by apply (C l').
  - by rewrite ES.
Qed.

Section sem_steps.
  Context (idle : Z).

Lemma locked_ok s a :
  sem_refines idle s a -> as_int a = false -> alk a (arun a) < MAX_LOCK_COUNT ->
  wp (sched_lock (s_kernel s)) (fun k' => sem_refines idle (with_kernel k' s) (a_lock a) /\ (forall q, waiters q (a_lock a) = waiters q a)
    /\ 0 < alk (a_lock a) (arun (a_lock a))).
Proof.
  intros (Hr & HI & HS) Hint Hlk. eapply wp_mono; [by apply (sched_lock_ok _ a idle)|]. intros k' [Hr' HI'].
  destruct (sem_inv_wait (s_sems s) a (a_lock a)) as [HS' Ew]; [done|intros y; by apply wait_set_same|apply size_set|done|].
  split; [by split|]. split; [done|]. change (arun (a_lock a)) with (arun a). unfold a_lock. rewrite alk_set_lock.
  rewrite decide_True by (split; [done|eapply (run_task _ a idle Hr); apply HI]).
  destruct HI as [HC _]. destruct (ci_lock _ _ HC _ _ (core_run _ _ HC)). lia.
Qed.

Lemma unlock_members a l y : l <> TL_waitingforsemaphore -> y ∈ as_lists (a_unlock a) l ->
  exists l', l' <> TL_waitingforsemaphore /\ y ∈ as_lists a l'.
Proof.
  intros Hl. unfold a_unlock. case_match; [|by exists l]. unfold a_merge, merge_lists, a_set. cbn [as_lists].
  unfold upd at 1. case_decide; [set_solver|]. unfold upd. case_decide; [|by exists l].
  rewrite merged_perm, elem_of_app. intros [Hy|Hy]; (eexists; split; [|exact Hy]; done).
Qed.

Lemma unlocked_ok s a :
  sem_refines idle s a -> as_int a = false ->
  wp (sched_unlock (s_kernel s)) (fun '(b, k') => sem_refines idle (with_kernel k' s) (a_unlock a) /\ (forall q, waiters q (a_unlock a) = waiters q a)
    /\ (b = false -> arun (a_unlock a) = arun a) /\ as_int (a_unlock a) = false).
Proof.
  intros (Hr & HI & HS) Hint. eapply wp_mono; [by apply (sched_unlock_ok _ a idle)|]. intros [b k'] (Hr' & HI' & Hb).
  destruct (sem_inv_move (s_sems s) a (a_unlock a)) as [HS' Ew]; [| | |by apply unlock_members|done|].
  - unfold a_unlock. case_match; [|done]. unfold a_merge, merge_lists. simpl. by rewrite !upd_ne.
  - assert (forall y, a_wait (a_set (set_lockcount (Z.max 0 (alk a (arun a) - 1))) (arun a) a) y = a_wait a y) as E by (intros y; by apply wait_set_same).
    intros y. rewrite <-E. unfold a_unlock. by case_match.
  - etransitivity; [|apply (size_set a (set_lockcount (Z.max 0 (alk a (arun a) - 1))) (arun a))]. unfold a_unlock. by case_match.
  - split; [by split|]. split; [done|]. split; [done|]. unfold a_unlock. by case_match.
Qed.

Lemma errno_read s a : sem_refines idle s a -> as_int a = false -> get_errno s = Ok (a_errno a (arun a)).
Proof.
  intros (Hr & HI & _) Hint. unfold get_errno. rewrite (errno_ptr_ok idle _ a) by done. cbn.
  destruct (ref_run_valid _ _ idle Hr (proj1 HI)) as [Hn [t Et]]. rewrite (deref_Some _ _ t) by done. cbn.
  destruct Hr as (_ & ET & _). unfold a_errno. by rewrite <-ET, lookup_fmap, Et.
Qed.

Lemma pid_read s a : sem_refines idle s a -> getpid (s_kernel s) = Ok (a_pid a (arun a)).
Proof.
  intros (Hr & HI & _). unfold getpid. rewrite (ref_run _ a Hr).
  destruct (ref_run_valid _ _ idle Hr (proj1 HI)) as [Hn [t Et]]. rewrite (deref_Some _ _ t) by done. cbn.
  destruct Hr as (_ & ET & _). unfold a_pid. by rewrite <-ET, lookup_fmap, Et.
Qed.

Lemma run_waits_not s a : sem_refines idle s a -> a_wait a (arun a) = NULL.
Proof. intros (_ & [HC _] & HS). apply (sv_others _ _ HS TL_readytorun); [done|by apply (core_run idle)]. Qed.

(** ** Taking and giving a semaphore *)

Lemma take_at_once s a sem c :
  sem_refines idle s a -> as_int a = false -> s_sems s !! sem = Some c -> (c <= 0 -> arun a <> idle) ->
  let a' := if 0 <? c then a_take a else a_sleep sem a in
  wp (take_loop 1 sem s) (fun '(r, s') =>
    r = (if 0 <? c then WaitRet true else WaitBlocked) /\ s_sems s' = <[sem := c - 1]> (s_sems s)
    /\ sem_refines idle s' a' /\ as_int a' = false
    /\ waiters sem a' = (if 0 <? c then waiters sem a else ins (apr a) (arun a) (waiters sem a))
    /\ (forall q, q <> sem -> waiters q a' = waiters q a)).
Proof.
  intros HSR Hint Hc Hid a'. cbn [take_loop]. apply wp_bind. eapply wp_mono; [by apply (sem_wait_ok idle s a sem c)|].
  intros [r s'] (a'' & H1 & H2 & H3 & H4 & H5 & H6). change (a'' = a') in H6. subst a''.
  assert (as_int a' = false) as Hint' by (unfold a', a_take, a_sleep; by case_match).
  assert (waiters sem a' = (if 0 <? c then waiters sem a else ins (apr a) (arun a) (waiters sem a))) as Ew.
  { apply (f_equal cs_queue) in H2. simpl in H2. rewrite H2. unfold cs_wait, sem_view. rewrite Hc. simpl.
    destruct (Z.ltb_spec 0 c), (Z.ltb_spec 0 (Z.max 0 c)); try lia; done. }
  assert (forall q, q <> sem -> waiters q a' = waiters q a) as Eo by (intros q Hq; specialize (H3 q Hq); by apply (f_equal cs_queue) in H3).
  destruct (0 <? c); [destruct H4 as [-> _]|destruct H4 as [-> _]]; apply wp_ret;
    (split; [done|]; split; [done|]; split; [done|]; split; [done|]; by split).
Qed.

Lemma takesemaphore_ok s a sem c :
  sem_refines idle s a -> s_sems s !! sem = Some c -> pthread_takesemaphore sem s = take_loop 1 sem s.
Proof.
  intros (Hr & _ & HS) Hc. destruct (count_range _ _ _ _ _ Hr HS Hc) as [_ Hn]. unfold pthread_takesemaphore. by rewrite decide_True.
Qed.

(** A task that was restarted has been given a count, or begins to wait again. *)
Lemma resumed_given s a sem :
  sem_refines idle s a -> as_int a = false -> a_errno a (arun a) = 0 -> takesemaphore_resumed sem s = Ok (WaitRet true, s).
Proof. intros HSR Hint He. unfold takesemaphore_resumed, sem_wait_resumed. rewrite (errno_read s a HSR Hint). cbn. by rewrite He. Qed.

Lemma resumed_again s a sem :
  sem_refines idle s a -> as_int a = false -> a_errno a (arun a) = EINTR -> takesemaphore_resumed sem s = take_loop 1 sem s.
Proof. intros HSR Hint He. unfold takesemaphore_resumed, sem_wait_resumed. rewrite (errno_read s a HSR Hint). cbn [mbind res_bind]. by rewrite He. Qed.

Context `{SchedConfig}.

Lemma givesemaphore_ok s a sem c :
  sem_refines idle s a -> s_sems s !! sem = Some c -> c < SEM_VALUE_MAX ->
  wp (pthread_givesemaphore sem s) (fun '(r, s') =>
    r = OK /\ s_sems s' = <[sem := c + 1]> (s_sems s) /\ sem_refines idle s' (a_wake sem a) /\ as_int (a_wake sem a) = as_int a
    /\ waiters sem (a_wake sem a) = tail (waiters sem a) /\ (forall q, q <> sem -> waiters q (a_wake sem a) = waiters q a)).
Proof.
  intros HSR Hc Hm. destruct HSR as (Hr & HI & HS). destruct (count_range _ _ _ _ _ Hr HS Hc) as [_ Hn].
  unfold pthread_givesemaphore. rewrite decide_True by done. apply wp_bind. eapply wp_mono; [by apply (sem_post_ok idle s a sem c)|].
  intros [[ok b] s'] (-> & a' & H1 & H2 & H3 & _ & _ & H5 & ->). apply wp_ret. split; [done|]. split; [done|]. split; [done|].
  split; [unfold a_wake, a_unblock, a_enter; repeat case_match; done|]. split.
  - apply (f_equal cs_queue) in H2. simpl in H2. rewrite H2. unfold cs_post, sem_view. simpl. by destruct (waiters sem a).
  - intros q Hq. specialize (H3 q Hq). by apply (f_equal cs_queue) in H3.
Qed.

(** Under the scheduler lock the running task stays the running task. *)
Lemma wake_locked k a sem : refines k a -> core_inv idle a -> 0 < alk a (arun a) ->
  arun (a_wake sem a) = arun a /\ alk (a_wake sem a) (arun a) = alk a (arun a).
Proof.
  intros Hr HC Hlk. unfold a_wake. destruct (waiters sem a) as [|x q] eqn:Ew; [done|].
  assert (x ∈ waiters sem a) as [_ Hx]%list_elem_of_filter by (rewrite Ew; left). pose proof (core_run _ _ HC) as Hrun.
  assert (x ∉ as_lists a TL_readytorun) as Hxr. { intros Hx'. destruct Hr as (HR & _ & _). by pose proof (sr_disj _ _ HR _ _ _ Hx Hx'). }
  assert (x <> arun a) as Hne by (intros ->; done). set (a2 := a_set (set_timeslice RR_TICKS) x (a_drop x (a_set (set_waitsem NULL) x a))).
  assert (arun a2 = arun a) as E2. { unfold arun, a2. simpl. by rewrite list_rem_absent. }
  assert (as_lists a2 TL_readytorun = as_lists a TL_readytorun) as EL by (unfold a2; simpl; by apply list_rem_absent).
  assert (alk a2 (arun a) = alk a (arun a)) as Ek by (unfold a2; rewrite alk_set by done; change (alk (a_set (set_waitsem NULL) x a) (arun a) = alk a (arun a)); by apply alk_set).
  change (a_unblock x (a_set (set_waitsem NULL) x a)) with (a_enter x a2). unfold a_enter. rewrite E2, Ek.
  destruct (Z.eqb_spec (alk a (arun a)) 0); [lia|]. cbn [negb andb]. case_match eqn:Ep; [by split|]. apply Z.ltb_ge in Ep.
  split; [|done]. unfold arun at 1. simpl. rewrite upd_eq. change (list_rem x (as_lists a TL_readytorun)) with (as_lists a2 TL_readytorun). rewrite EL.
  unfold arun in Ep |- *. destruct (as_lists a TL_readytorun) as [|h t]; [by apply not_elem_of_nil in Hrun|]. simpl in *. destruct (Z.leb_spec (apr a2 x) (apr a2 h)); [done|lia].
Qed.

End sem_steps.

(** ** The tasks inside a call, and who holds which mutex *)

(** A pthread_mutex_lock with its local [mypid], or a pthread_cond_wait, that its task will go on with. *)
Inductive pt_pend : Type :=
| PendLock (mutex mypid : Z)
| PendCond (cond mutex : Z) (stage : cond_stage).

(** The semaphore in whose wait the task was suspended. *)
Definition wants (p : pt_pend) : option Z :=
  match p with
  | PendLock m _ => Some (mutex_sem m)
  | PendCond c _ (CondSignal _) => Some (cond_sem c)
  | PendCond _ _ (CondPreempted _) => None
  | PendCond _ m (CondMutex _) => Some (mutex_sem m)
  end.

Definition stage_ret (st : cond_stage) : Z :=
  match st with CondSignal r => r | CondPreempted r => r | CondMutex r => r end.

(** A task was given a mutex, or gave it up, as the calls it made report. *)
Inductive pt_event : Type :=
| Acquire (x m : Z)
| Release (x m : Z).

(** The holder of each held mutex and how often it has locked it. *)
Notation holders := (gmap Z (Z * Z)).

(** What an event makes of the holders; [None] when another task holds the
    mutex that is acquired, or the task does not hold the mutex it releases. *)
Definition replay1 (e : pt_event) (g : holders) : option holders :=
  match e with
  | Acquire x m =>
      match g !! m with
      | None => Some (<[m := (x, 1)]> g)
      | Some (y, n) => if decide (y = x) then Some (<[m := (x, n + 1)]> g) else None
      end
  | Release x m =>
      match g !! m with
      | None => None
      | Some (y, n) => if decide (y = x) then Some (if 1 <? n then <[m := (x, n - 1)]> g else delete m g) else None
      end
  end.

Fixpoint replay (es : list pt_event) (g : holders) : option holders :=
  match es with
  | [] => Some g
  | e :: es => g ← replay1 e g; replay es g
  end.

(** ** The invariant *)

Definition pwants (pend : gmap Z pt_pend) (x : Z) : option Z := pend !! x ≫= wants.

(** The task [y] got a count of the semaphore [q] and has not run since. *)
Definition handed (pend : gmap Z pt_pend) (a : asched) (q y : Z) : Prop :=
  pwants pend y = Some q /\ a_wait a y = NULL /\ a_errno a y = 0.

Inductive slot : Type :=
| Free
| Handed (x : Z)
| Held (x n : Z).

Record slot_ok (idle : Z) (a : asched) (pend : gmap Z pt_pend) (g : holders) (c m : Z) (mu : pthread_mutex_s) (sl : slot) : Prop := SlotOk {
  sl_count : match sl with Free => c = 1 | _ => c <= 0 end;
  sl_pid : m_pid mu = match sl with Held x _ => a_pid a x | _ => 0 end;
  sl_holder : g !! m = match sl with Held x n => Some (x, n) | _ => None end;
  sl_handed : forall y, handed pend a (mutex_sem m) y <-> sl = Handed y;
  sl_depth : match sl with
    | Held x n => is_Some (as_tasks a !! x) /\ x <> idle /\ 1 <= n
        /\ if m_type mu =? PTHREAD_MUTEX_RECURSIVE then m_nlocks mu = n else n = 1
    | _ => True
    end
}.

Definition pend_form (s : pt_sys) (a : asched) (x : Z) (p : pt_pend) : Prop :=
  match p with
  | PendLock m pid => is_Some (p_mutexes s !! m) /\ pid = a_pid a x
  | PendCond c m st =>
      (exists mu, p_mutexes s !! m = Some mu /\ m_type mu <> PTHREAD_MUTEX_RECURSIVE)
      /\ is_Some (s_sems (p_sem s) !! cond_sem c) /\ (forall m', is_Some (p_mutexes s !! m') -> cond_sem c <> mutex_sem m') /\ stage_ret st = 0
  end.

Record pend_ok (idle : Z) (s : pt_sys) (a : asched) (x : Z) (p : pt_pend) : Prop := PendOk {
  pd_idle : x <> idle;
  pd_task : is_Some (as_tasks a !! x);
  pd_form : pend_form s a x p;
  pd_wait : forall q, wants p = Some q ->
    a_wait a x = q /\ a_errno a x = 0 \/ a_wait a x = NULL /\ (a_errno a x = 0 \/ a_errno a x = EINTR)
}.

Record pt_inv (idle : Z) (s : pt_sys) (pend : gmap Z pt_pend) (g : holders) (a : asched) : Prop := PtInv {
  pi_sem : sem_refines idle (p_sem s) a;
  pi_int : as_int a = false;
  pi_pids : forall x y, is_Some (as_tasks a !! x) -> is_Some (as_tasks a !! y) -> a_pid a x = a_pid a y -> x = y;
  pi_pid0 : forall x, is_Some (as_tasks a !! x) -> x <> idle -> a_pid a x <> 0;
  pi_mutex : forall m mu, p_mutexes s !! m = Some mu -> m <> NULL
    /\ exists c sl, s_sems (p_sem s) !! mutex_sem m = Some c /\ slot_ok idle a pend g c m mu sl;
  pi_pend : forall x p, pend !! x = Some p -> pend_ok idle s a x p;
  pi_waiters : forall m x, is_Some (p_mutexes s !! m) -> x ∈ waiters (mutex_sem m) a -> pwants pend x = Some (mutex_sem m)
}.

Lemma mutex_sem_inj m m' : mutex_sem m = mutex_sem m' -> m = m'.
Proof. unfold mutex_sem. lia. Qed.

Lemma slot_carry idle x e w a a' pend pend' g g' c c' m mu sl :
  task_step x e w a a' -> match sl with Free => c' = 1 | _ => c' <= 0 end -> g' !! m = g !! m ->
  (forall y, handed pend' a' (mutex_sem m) y <-> handed pend a (mutex_sem m) y) ->
  slot_ok idle a pend g c m mu sl -> slot_ok idle a' pend' g' c' m mu sl.
Proof.
  intros HT Hc' Hg Hh [A B C D E]. split.
  - done.
  - rewrite B. destruct sl; try done. by rewrite (ts_pid HT).
  - by rewrite Hg.
  - intros y. by rewrite Hh.
  - destruct sl; try done. by rewrite (ts_dom HT).
Qed.

(** ** One task and at most one mutex change *)

Record pt_change (x e w m : Z) (s s' : pt_sys) (pend pend' : gmap Z pt_pend) (g g' : holders) (a a' : asched) : Prop := PtChange {
  ch_task : task_step x e w a a';
  ch_mutexes : forall m', m' <> m -> p_mutexes s' !! m' = p_mutexes s !! m';
  ch_type : m_type <$> p_mutexes s' !! m = m_type <$> p_mutexes s !! m;
  ch_sems : forall m', m' <> m -> is_Some (p_mutexes s !! m') -> s_sems (p_sem s') !! mutex_sem m' = s_sems (p_sem s) !! mutex_sem m';
  ch_sems_some : forall q, is_Some (s_sems (p_sem s) !! q) -> is_Some (s_sems (p_sem s') !! q);
  ch_holders : forall m', m' <> m -> g' !! m' = g !! m';
  ch_pend : forall y, y <> x -> pend' !! y = pend !! y;
  ch_handed : forall m', m' <> m -> is_Some (p_mutexes s !! m') -> handed pend' a' (mutex_sem m') x <-> handed pend a (mutex_sem m') x;
  ch_waiters : forall q y, y <> x -> y ∈ waiters q a' -> y ∈ waiters q a;
  ch_wants : w = NULL \/ pwants pend' x = Some w
}.

#[global] Arguments pi_sem {idle s pend g a} _.
#[global] Arguments pi_int {idle s pend g a} _.
#[global] Arguments pi_pids {idle s pend g a} _.
#[global] Arguments pi_pid0 {idle s pend g a} _.
#[global] Arguments pi_mutex {idle s pend g a} _.
#[global] Arguments pi_pend {idle s pend g a} _.
#[global] Arguments pi_waiters {idle s pend g a} _.
#[global] Arguments ch_task {x e w m s s' pend pend' g g' a a'} _.
#[global] Arguments ch_mutexes {x e w m s s' pend pend' g g' a a'} _.
#[global] Arguments ch_type {x e w m s s' pend pend' g g' a a'} _.
#[global] Arguments ch_sems {x e w m s s' pend pend' g g' a a'} _.
#[global] Arguments ch_sems_some {x e w m s s' pend pend' g g' a a'} _.
#[global] Arguments ch_holders {x e w m s s' pend pend' g g' a a'} _.
#[global] Arguments ch_pend {x e w m s s' pend pend' g g' a a'} _.
#[global] Arguments ch_handed {x e w m s s' pend pend' g g' a a'} _.
#[global] Arguments ch_waiters {x e w m s s' pend pend' g g' a a'} _.
#[global] Arguments ch_wants {x e w m s s' pend pend' g g' a a'} _.

Section change.
  Context (idle x e w m : Z) (s s' : pt_sys) (pend pend' : gmap Z pt_pend) (g g' : holders) (a a' : asched).
  Hypothesis HI : pt_inv idle s pend g a.
  Hypothesis HC : pt_change x e w m s s' pend pend' g g' a a'.

Lemma change_handed q y : y <> x -> handed pend' a' q y <-> handed pend a q y.
Proof.
  intros Hy. unfold handed, pwants. rewrite (ch_pend HC y Hy).
  destruct (ts_other (ch_task HC) y Hy) as [-> ->]. done.
Qed.

Lemma change_known m' : is_Some (p_mutexes s' !! m') <-> is_Some (p_mutexes s !! m').
Proof.
  destruct (decide (m' = m)) as [->|Hne]; [|by rewrite (ch_mutexes HC)].
  pose proof (ch_type HC) as Ht. rewrite <-!(fmap_is_Some m_type). by rewrite Ht.
Qed.

Lemma change_form y p : pend_form s a y p -> pend_form s' a' y p.
Proof.
  intros C. pose proof (ch_task HC) as HT. unfold pend_form in *. rewrite (ts_pid HT). destruct p as [m' pid|c m' st].
  - destruct C as [C1 C2]. split; [by apply change_known|done].
  - destruct C as ((mu & C1 & C2) & C3 & C4 & C5). split; [|split; [by apply (ch_sems_some HC)|split; [|done]]].
    + destruct (decide (m' = m)) as [->|Hne]; [|exists mu; by rewrite (ch_mutexes HC)].
      pose proof (ch_type HC) as Ht. rewrite C1 in Ht. destruct (p_mutexes s' !! m) as [mu'|]; [|done].
      exists mu'. split; [done|]. simpl in Ht. congruence.
    + intros m2 Hm2. apply C4. by apply change_known.
Qed.

Lemma change_pend y p : a_errno a' y = a_errno a y /\ a_wait a' y = a_wait a y -> pend_ok idle s a y p -> pend_ok idle s' a' y p.
Proof.
  intros [Ee Ew] [A B C D]. pose proof (ch_task HC) as HT. split.
  - done.
  - by apply (ts_dom HT).
  - by apply change_form.
  - intros q Hq. rewrite Ee, Ew. auto.
Qed.

Lemma change_slot m' mu c sl : m' <> m -> is_Some (p_mutexes s !! m') -> slot_ok idle a pend g c m' mu sl -> slot_ok idle a' pend' g' c m' mu sl.
Proof.
  intros Hne Hm' Hsl. apply (slot_carry idle x e w a a' pend pend' g g' c); [apply HC|apply Hsl|by rewrite (ch_holders HC)| |done].
  intros y. destruct (decide (y = x)) as [->|Hy]; [by apply (ch_handed HC)|by apply change_handed].
Qed.

Lemma change_inv :
  sem_refines idle (p_sem s') a' -> as_int a' = false ->
  (forall mu', p_mutexes s' !! m = Some mu' -> exists c sl, s_sems (p_sem s') !! mutex_sem m = Some c /\ slot_ok idle a' pend' g' c m mu' sl) ->
  (forall p, pend' !! x = Some p -> pend_ok idle s' a' x p) -> pt_inv idle s' pend' g' a'.
Proof.
  intros HSR Hint Hm Hx. pose proof (ch_task HC) as HT. split.
  - done.
  - done.
  - intros y z. rewrite !(ts_dom HT), !(ts_pid HT). apply (pi_pids HI).
  - intros y. rewrite (ts_dom HT), (ts_pid HT). apply (pi_pid0 HI).
  - intros m' mu' Hm'. assert (is_Some (p_mutexes s !! m')) as [mu Hmu] by (apply change_known; eauto).
    destruct (pi_mutex HI _ _ Hmu) as (Hn & c & sl & Hc & Hsl). split; [done|].
    destruct (decide (m' = m)) as [->|Hne]; [by apply Hm|]. rewrite (ch_mutexes HC) in Hm' by done.
    rewrite (ch_sems HC) by eauto. simplify_eq. exists c, sl. split; [done|]. apply change_slot; eauto.
  - intros y p Hp. destruct (decide (y = x)) as [->|Hy]; [by apply Hx|]. rewrite (ch_pend HC) in Hp by done.
    apply change_pend; [by apply (ts_other HT)|]. by apply (pi_pend HI).
  - intros m' y Hm' Hy. apply change_known in Hm'. destruct (decide (y = x)) as [->|Hne].
    + apply list_elem_of_filter in Hy as [Hy _]. rewrite (ts_wait HT) in Hy.
      destruct (ch_wants HC) as [Hw|Hw]; [|congruence].
      destruct Hm' as [mu Hmu]. destruct (pi_mutex HI _ _ Hmu) as (_ & c & _ & Hc & _).
      destruct (pi_sem HI) as (_ & _ & HS). destruct (sv_count _ _ HS _ _ Hc) as [Hn _]. congruence.
    + unfold pwants. rewrite (ch_pend HC) by done. apply (pi_waiters HI); [done|].
      by apply (ch_waiters HC).
Qed.

End change.

(** ** The steps of the calls *)

Section calls.
  Context (idle : Z).

Lemma inv_still s pend g a k' a' :
  pt_inv idle s pend g a -> still a a' -> sem_refines idle (with_kernel k' (p_sem s)) a' -> as_int a' = false ->
  (forall q, waiters q a' = waiters q a) -> pt_inv idle (with_p_kernel k' s) pend g a'.
Proof.
  intros HI Hst HSR Hint Hw. pose proof (pi_sem HI) as (Hr & [HC _] & _). pose proof (run_task _ a idle Hr HC) as Hrun.
  pose proof (run_waits_not idle _ a (pi_sem HI)) as Hwn. pose proof (Hst _ Hrun) as HT.
  assert (pt_change (arun a) (a_errno a (arun a)) (a_wait a (arun a)) NULL s (with_p_kernel k' s) pend pend g g a a') as HCh.
  { split; try done.
    - intros m' _ _. unfold handed. by rewrite (ts_errno HT), (ts_wait HT).
    - intros q y _. by rewrite Hw.
    - by left. }
  apply (change_inv _ _ _ _ _ _ _ _ _ _ _ _ _ HI HCh); try done.
  - intros mu' Hmu. by destruct (pi_mutex HI _ _ Hmu) as [? _].
  - intros p Hp. apply (change_pend _ _ _ _ _ _ _ _ _ _ _ _ _ HCh); [by rewrite (ts_errno HT), (ts_wait HT)|]. by apply (pi_pend HI).
Qed.

Lemma inv_lock s pend g a :
  pt_inv idle s pend g a -> alk a (arun a) < MAX_LOCK_COUNT ->
  wp (sched_lock (p_kernel s)) (fun k' => pt_inv idle (with_p_kernel k' s) pend g (a_lock a) /\ 0 < alk (a_lock a) (arun a)
    /\ (forall q, waiters q (a_lock a) = waiters q a)).
Proof.
  intros HI Hlk. eapply wp_mono; [by apply (locked_ok idle _ a (pi_sem HI) (pi_int HI))|]. intros k' (H1 & H2 & H3).
  split; [|by split]. eapply inv_still; [done|apply still_lock|done|apply HI|done].
Qed.

Lemma inv_unlock s pend g a :
  pt_inv idle s pend g a ->
  wp (sched_unlock (p_kernel s)) (fun '(b, k') => pt_inv idle (with_p_kernel k' s) pend g (a_unlock a)
    /\ (b = false -> arun (a_unlock a) = arun a) /\ (forall q, waiters q (a_unlock a) = waiters q a)).
Proof.
  intros HI. eapply wp_mono; [by apply (unlocked_ok idle _ a (pi_sem HI) (pi_int HI))|]. intros [b k'] (H1 & H2 & H3 & H4).
  split; [|done]. eapply inv_still; [done|apply still_unlock|done|done|done].
Qed.

Section mutex_step.
  Context (s : pt_sys) (pend : gmap Z pt_pend) (g : holders) (a : asched) (m c : Z) (mu : pthread_mutex_s) (sl : slot).
  Hypothesis HI : pt_inv idle s pend g a.
  Hypothesis Hm : p_mutexes s !! m = Some mu.
  Hypothesis Hc : s_sems (p_sem s) !! mutex_sem m = Some c.
  Hypothesis Hsl : slot_ok idle a pend g c m mu sl.

(** The mutex gets a holder: the task took a count or was handed one. *)
Lemma inv_hold x e xs a' c' f :
  sl = Free \/ sl = Handed x -> x <> idle -> is_Some (as_tasks a !! x) -> (forall q, q <> mutex_sem m -> ~ handed pend a q x) ->
  task_step x e NULL a a' -> sem_refines idle xs a' -> as_int a' = false ->
  s_sems xs = <[mutex_sem m := c']> (s_sems (p_sem s)) -> c' <= 0 -> (forall q y, y ∈ waiters q a' -> y ∈ waiters q a) ->
  m_pid (f mu) = a_pid a x -> m_type (f mu) = m_type mu -> (m_type mu = PTHREAD_MUTEX_RECURSIVE -> m_nlocks (f mu) = 1) ->
  pt_inv idle (PtSys xs (alter f m (p_mutexes s))) (delete x pend) (<[m := (x, 1)]> g) a'.
Proof.
  intros Hs Hxi Hxt Hnh HT HSR Hint Exs Hc' Hw Hp Ht Hn.
  assert (forall q, ~ handed (delete x pend) a' q x) as Hdel by (intros q [Hq _]; unfold pwants in Hq; by rewrite lookup_delete_eq in Hq).
  assert (pt_change x e NULL m s (PtSys xs (alter f m (p_mutexes s))) pend (delete x pend) g (<[m := (x, 1)]> g) a a') as HCh.
  { split; try done; cbn [p_mutexes p_sem].
    - intros m' Hne. by rewrite lookup_alter_ne.
    - rewrite lookup_alter_eq, Hm. simpl. congruence.
    - intros m' Hne _. rewrite Exs, lookup_insert_ne; [done|]. by intros ?%mutex_sem_inj.
    - intros q Hq. rewrite Exs, lookup_insert. case_decide; eauto.
    - intros m' Hne. by rewrite lookup_insert_ne.
    - intros y Hy. by rewrite lookup_delete_ne.
    - intros m' Hne _. split; intros Hh; exfalso; revert Hh; [apply Hdel|]. apply Hnh. by intros ?%mutex_sem_inj.
    - intros q y _. apply Hw.
    - by left. }
  apply (change_inv _ _ _ _ _ _ _ _ _ _ _ _ _ HI HCh); try done; cbn [p_mutexes p_sem].
  - rewrite lookup_alter_eq, Hm. intros mu' [= <-]. exists c', (Held x 1). rewrite Exs, lookup_insert_eq. split; [done|]. split; try done.
    + by rewrite (ts_pid HT).
    + by rewrite lookup_insert_eq.
    + intros y. split; [|done]. destruct (decide (y = x)) as [->|Hy]; [by intros ?%Hdel|].
      rewrite (change_handed _ _ _ _ _ _ _ _ _ _ _ _ HCh) by done. rewrite (sl_handed _ _ _ _ _ _ _ _ Hsl). destruct Hs; congruence.
    + split; [by apply (ts_dom HT)|]. split; [done|]. split; [lia|]. rewrite Ht. case_match; [|done]. apply Hn. lia.
  - intros p. by rewrite lookup_delete_eq.
Qed.

(** The running task, which was handed nothing, begins to wait for a semaphore. *)
Lemma inv_sleep q cq xs p :
  let x := arun a in
  x <> idle -> (forall m', is_Some (p_mutexes s !! m') -> ~ handed pend a (mutex_sem m') x) -> wants p = Some q -> pend_form s a x p -> s_sems (p_sem s) !! q = Some cq ->
  cq <= 0 -> (forall m' mu', p_mutexes s !! m' = Some mu' -> mutex_sem m' = q -> m' = m) ->
  s_sems xs = <[q := cq - 1]> (s_sems (p_sem s)) -> sem_refines idle xs (a_sleep q a) -> as_int (a_sleep q a) = false ->
  (forall q' y, y <> x -> y ∈ waiters q' (a_sleep q a) -> y ∈ waiters q' a) ->
  pt_inv idle (with_p_sem xs s) (<[x := p]> pend) g (a_sleep q a).
Proof.
  intros x Hxi Hnh Hwp Hform Hq Hneg Hqm Exs HSR Hint Hw. pose proof (pi_sem HI) as (Hr & [HCo _] & HS).
  pose proof (step_sleep _ a idle Hr HCo q) as HT. fold x in HT. destruct (sv_count _ _ HS _ _ Hq) as [Hqn _].
  assert (forall q', ~ handed (<[x := p]> pend) (a_sleep q a) q' x) as Hna by (intros q' (_ & Hh & _); rewrite (ts_wait HT) in Hh; done).
  assert (pt_change x 0 q m s (with_p_sem xs s) pend (<[x := p]> pend) g g a (a_sleep q a)) as HCh.
  { split; try done; cbn [p_mutexes p_sem with_p_sem].
    - intros m' Hne [mu' Hmu']. rewrite Exs, lookup_insert_ne; [done|]. intros E. by destruct Hne; eapply Hqm.
    - intros q' Hq'. rewrite Exs, lookup_insert. case_decide; eauto.
    - intros y Hy. by rewrite lookup_insert_ne.
    - intros m' Hne Hk. split; intros Hh; exfalso; revert Hh; [apply Hna|by apply Hnh].
    - right. unfold pwants. by rewrite lookup_insert_eq. }
  apply (change_inv _ _ _ _ _ _ _ _ _ _ _ _ _ HI HCh); try done; cbn [p_mutexes p_sem with_p_sem].
  - rewrite Hm. intros mu' [= <-]. exists (if decide (q = mutex_sem m) then c - 1 else c), sl. split.
    + rewrite Exs, lookup_insert. repeat case_decide; subst; congruence.
    + apply (slot_carry idle x 0 q a _ pend _ g g c); try done.
      * pose proof (sl_count _ _ _ _ _ _ _ _ Hsl) as Hcnt. case_decide; [simplify_eq; destruct sl; lia|done].
      * intros y. destruct (decide (y = x)) as [->|Hy]; [|by apply (change_handed _ _ _ _ _ _ _ _ _ _ _ _ HCh)].
        split; intros Hh; exfalso; revert Hh; [apply Hna|apply Hnh; eauto].
  - rewrite lookup_insert_eq. intros p' [= <-]. split; [done| |by apply (change_form _ _ _ _ _ _ _ _ _ _ _ _ HCh)|].
    + apply (ts_dom HT). by apply (run_task _ a idle Hr).
    + intros q' Hq'. assert (q' = q) as -> by congruence. left. by rewrite (ts_wait HT), (ts_errno HT).
Qed.

Lemma waiter_pend x q : x ∈ waiters q a -> q <> NULL -> pwants pend x = Some q -> a_errno a x = 0.
Proof.
  intros [Hw _]%list_elem_of_filter Hq Hp. unfold pwants in Hp. destruct (pend !! x) as [p|] eqn:Ep; [|done]. simpl in Hp.
  destruct (pd_wait _ _ _ _ _ (pi_pend HI _ _ Ep) _ Hp) as [[_ ?]|[? _]]; [done|congruence].
Qed.

Context {SC : SchedConfig}.

(** The holder gives the mutex up: it becomes free, or its first waiter is handed the count. *)
Lemma inv_release x n xs f :
  let q := mutex_sem m in
  sl = Held x n -> s_sems xs = <[q := c + 1]> (s_sems (p_sem s)) -> sem_refines idle xs (a_wake q a) -> as_int (a_wake q a) = false ->
  (forall q' y, y ∈ waiters q' (a_wake q a) -> y ∈ waiters q' a) -> m_pid (f mu) = 0 -> m_type (f mu) = m_type mu ->
  pt_inv idle (PtSys xs (alter f m (p_mutexes s))) pend (delete m g) (a_wake q a).
Proof.
  intros q -> Exs HSR Hint Hw Hp Ht. pose proof (pi_sem HI) as (Hr & [HCo _] & HS). pose proof Hsl as [A _ _ D _].
  destruct (sv_count _ _ HS _ _ Hc) as (Hqn & _ & Hlen). fold q in Hqn, Hlen.
  assert (exists y e, task_step y e NULL a (a_wake q a)
    /\ (forall m', m' <> m -> handed pend (a_wake q a) (mutex_sem m') y <-> handed pend a (mutex_sem m') y)
    /\ (forall p, pend !! y = Some p -> a_errno (a_wake q a) y = a_errno a y)
    /\ exists sl', (forall z, handed pend (a_wake q a) q z <-> sl' = Handed z) /\ match sl' with Free => c + 1 = 1 | Handed _ => c + 1 <= 0 | Held _ _ => False end)
    as (y & e & HT & Hh & He & sl' & Hsl1 & Hsl2).
  { destruct (waiters q a) as [|y l] eqn:Ew.
    - exists (arun a), (a_errno a (arun a)). unfold a_wake. rewrite Ew. split; [|split; [done|split; [done|]]].
      + rewrite <-(run_waits_not idle _ a (pi_sem HI)). split; done.
      + exists Free. simpl in Hlen. split; [intros z; split; [by intros ?%D|done]|lia].
    - assert (y ∈ waiters q a) as Hy by (rewrite Ew; left). pose proof Hy as [Hwy _]%list_elem_of_filter.
      pose proof (pi_waiters HI m y ltac:(eauto) Hy) as Hwant. pose proof (waiter_pend y q Hy Hqn Hwant) as He0.
      pose proof (step_wake _ a Hr q y l Ew) as HT. exists y, (a_errno a y). split; [done|]. split; [|split; [by rewrite (ts_errno HT)|]].
      + intros m' Hne. split; intros [Hq _]; exfalso; apply Hne, mutex_sem_inj; congruence.
      + exists (Handed y). simpl length in Hlen. split; [|lia]. intros z. destruct (decide (z = y)) as [->|Hz].
        * split; [done|]. intros _. split; [done|]. by rewrite (ts_wait HT), (ts_errno HT).
        * split; [|congruence]. intros (H1 & H2 & H3). destruct (ts_other HT z Hz) as [E1 E2].
          assert (handed pend a q z) as Hz' by (split; [done|]; split; congruence). by apply D in Hz'. }
  assert (pt_change y e NULL m s (PtSys xs (alter f m (p_mutexes s))) pend pend g (delete m g) a (a_wake q a)) as HCh.
  { split; try done; cbn [p_mutexes p_sem].
    - intros m' Hne. by rewrite lookup_alter_ne.
    - rewrite lookup_alter_eq, Hm. simpl. congruence.
    - intros m' Hne _. rewrite Exs, lookup_insert_ne; [done|]. by intros ?%mutex_sem_inj.
    - intros q' Hq'. rewrite Exs, lookup_insert. case_decide; eauto.
    - intros m' Hne. by rewrite lookup_delete_ne.
    - intros m' Hne _. by apply Hh.
    - intros q' z _. apply Hw.
    - by left. }
  apply (change_inv _ _ _ _ _ _ _ _ _ _ _ _ _ HI HCh); try done; cbn [p_mutexes p_sem].
  - rewrite lookup_alter_eq, Hm. intros mu' [= <-]. exists (c + 1), sl'. fold q. rewrite Exs, lookup_insert_eq. split; [done|].
    split; [by destruct sl'|rewrite Hp; by destruct sl'|rewrite lookup_delete_eq; by destruct sl'|done|by destruct sl'].
  - intros p Hpp. pose proof (pi_pend HI _ _ Hpp) as [P1 P2 P3 P4].
    split; [done|by apply (ts_dom HT)|by apply (change_form _ _ _ _ _ _ _ _ _ _ _ _ HCh)|].
    intros q' Hq'. rewrite (ts_wait HT), (He p Hpp). right. split; [done|]. destruct (P4 q' Hq') as [[_ ?]|[_ ?]]; auto.
Qed.

End mutex_step.

(** The running task goes on: its errno changes, counts that are not a mutex's
    may change, and so may the call it is inside of. *)
Lemma inv_run s pend g a xs a' e pend' :
  pt_inv idle s pend g a -> task_step (arun a) e NULL a a' ->
  (forall m, is_Some (p_mutexes s !! m) -> s_sems xs !! mutex_sem m = s_sems (p_sem s) !! mutex_sem m) ->
  (forall q, is_Some (s_sems (p_sem s) !! q) -> is_Some (s_sems xs !! q)) ->
  (forall y, y <> arun a -> pend' !! y = pend !! y) ->
  (forall m, is_Some (p_mutexes s !! m) -> ~ handed pend a (mutex_sem m) (arun a) /\ ~ handed pend' a' (mutex_sem m) (arun a)) ->
  (forall p, pend' !! arun a = Some p -> pend_ok idle (with_p_sem xs s) a' (arun a) p) ->
  sem_refines idle xs a' -> as_int a' = false -> (forall q y, y ∈ waiters q a' -> y ∈ waiters q a) -> pt_inv idle (with_p_sem xs s) pend' g a'.
Proof.
  intros HI HT Exs Hdom Hpe Hh Hx HSR Hint Hw.
  assert (pt_change (arun a) e NULL NULL s (with_p_sem xs s) pend pend' g g a a') as HCh.
  { split; try done; cbn [p_mutexes p_sem with_p_sem].
    - intros m' _. apply Exs.
    - intros m' _ Hm'. destruct (Hh m' Hm'). by split.
    - intros q y _. apply Hw.
    - by left. }
  apply (change_inv _ _ _ _ _ _ _ _ _ _ _ _ _ HI HCh); try done; cbn [p_mutexes p_sem with_p_sem].
  intros mu' Hmu. by destruct (pi_mutex HI _ _ Hmu) as [? _].
Qed.

Section waiters.
  Context {SC : SchedConfig} (s : pt_sys) (pend : gmap Z pt_pend) (g : holders) (a : asched).
  Hypothesis HI : pt_inv idle s pend g a.

(** The only semaphore a waiting task can be inside the wait of is the one it waits for. *)
Lemma waiting_pend x q p : a_wait a x <> NULL -> pend !! x = Some p -> wants p = Some q -> a_wait a x = q /\ a_errno a x = 0.
Proof. intros Hn Hp Hw. by destruct (pd_wait _ _ _ _ _ (pi_pend HI _ _ Hp) _ Hw) as [?|[? _]]. Qed.

Lemma waiting_sem x : x ∈ as_lists a TL_waitingforsemaphore -> a_wait a x <> NULL /\ is_Some (s_sems (p_sem s) !! a_wait a x).
Proof.
  intros Hx. pose proof (pi_sem HI) as (_ & _ & HS). destruct (sv_waits _ _ HS x Hx) as [c Hc]. by destruct (sv_count _ _ HS _ _ Hc); eauto.
Qed.

(** A signal ends the wait of a task. *)
Lemma inv_cancel x xs :
  x ∈ as_lists a TL_waitingforsemaphore ->
  s_sems xs = <[a_wait a x := default 0 (s_sems (p_sem s) !! a_wait a x) + 1]> (s_sems (p_sem s)) ->
  sem_refines idle xs (a_cancel x EINTR a) -> as_int (a_cancel x EINTR a) = false ->
  (forall q y, y ∈ waiters q (a_cancel x EINTR a) -> y ∈ waiters q a) -> pt_inv idle (with_p_sem xs s) pend g (a_cancel x EINTR a).
Proof.
  intros Hx Exs HSR Hint Hw. pose proof (pi_sem HI) as (Hr & _ & HS). pose proof (step_cancel _ a Hr EINTR x Hx) as HT.
  destruct (waiting_sem x Hx) as [Hqn [c Hc]]. set (q := a_wait a x) in *. rewrite Hc in Exs. simpl in Exs.
  assert (forall q', handed pend (a_cancel x EINTR a) q' x <-> handed pend a q' x) as Hh.
  { intros q'. split; intros (H1 & H2 & H3); exfalso; [by rewrite (ts_errno HT) in H3|done]. }
  assert (pt_change x EINTR NULL (q - 4) s (with_p_sem xs s) pend pend g g a (a_cancel x EINTR a)) as HCh.
  { split; try done; cbn [p_mutexes p_sem with_p_sem].
    - intros m' Hne _. rewrite Exs, lookup_insert_ne; [done|]. unfold mutex_sem. lia.
    - intros q' Hq'. rewrite Exs, lookup_insert. case_decide; eauto.
    - intros q' y _. apply Hw.
    - by left. }
  apply (change_inv _ _ _ _ _ _ _ _ _ _ _ _ _ HI HCh); try done; cbn [p_mutexes p_sem with_p_sem].
  - intros mu Hmu. destruct (pi_mutex HI _ _ Hmu) as (_ & c' & sl & Hc' & Hsl). assert (mutex_sem (q - 4) = q) as Eq by (unfold mutex_sem; lia).
    rewrite Eq in Hc'. assert (c' = c) as -> by congruence. exists (c + 1), sl. rewrite Eq, Exs, lookup_insert_eq. split; [done|].
    assert (c < 0) as Hneg. { destruct (sv_count _ _ HS _ _ Hc) as (_ & _ & Hl). assert (x ∈ waiters q a) as Hxw by by apply list_elem_of_filter.
      destruct (waiters q a); [by apply not_elem_of_nil in Hxw|]. simpl in Hl. lia. }
    apply (slot_carry idle x EINTR NULL a _ pend _ g g c); try done; [pose proof (sl_count _ _ _ _ _ _ _ _ Hsl); destruct sl; lia|].
    intros y. destruct (decide (y = x)) as [->|Hy]; [apply Hh|by apply (change_handed _ _ _ _ _ _ _ _ _ _ _ _ HCh)].
  - intros p Hp. pose proof (pi_pend HI _ _ Hp) as [P1 P2 P3 P4].
    split; [done|by apply (ts_dom HT)|by apply (change_form _ _ _ _ _ _ _ _ _ _ _ _ HCh)|].
    intros q' Hq'. rewrite (ts_wait HT), (ts_errno HT). auto.
Qed.

(** A count of a semaphore that is not a mutex's is given. *)
Lemma inv_signal q c xs :
  s_sems (p_sem s) !! q = Some c -> (forall m, is_Some (p_mutexes s !! m) -> q <> mutex_sem m) ->
  s_sems xs = <[q := c + 1]> (s_sems (p_sem s)) -> sem_refines idle xs (a_wake q a) -> as_int (a_wake q a) = false ->
  (forall q' y, y ∈ waiters q' (a_wake q a) -> y ∈ waiters q' a) -> pt_inv idle (with_p_sem xs s) pend g (a_wake q a).
Proof.
  intros Hc Hq Exs HSR Hint Hw. pose proof (pi_sem HI) as (Hr & [HCo _] & HS).
  assert (exists y e, task_step y e NULL a (a_wake q a)
    /\ (forall m', is_Some (p_mutexes s !! m') -> handed pend (a_wake q a) (mutex_sem m') y <-> handed pend a (mutex_sem m') y)
    /\ a_errno (a_wake q a) y = a_errno a y) as (y & e & HT & Hh & He).
  { destruct (waiters q a) as [|y l] eqn:Ew.
    - exists (arun a), (a_errno a (arun a)). unfold a_wake. rewrite Ew. split; [|done].
      rewrite <-(run_waits_not idle _ a (pi_sem HI)). by split.
    - assert (y ∈ waiters q a) as [Hwy Hy]%list_elem_of_filter by (rewrite Ew; left). destruct (waiting_sem y Hy) as [Hn _].
      pose proof (step_wake _ a Hr q y l Ew) as HT. exists y, (a_errno a y). split; [done|]. split; [|by rewrite (ts_errno HT)].
      intros m' Hm'. split; intros (H1 & H2 & H3); exfalso; [|done]. unfold pwants in H1. destruct (pend !! y) as [p|] eqn:Ep; [|done].
      destruct (waiting_pend y _ p Hn Ep H1) as [E _]. apply (Hq m' Hm'). congruence. }
  assert (pt_change y e NULL NULL s (with_p_sem xs s) pend pend g g a (a_wake q a)) as HCh.
  { split; try done; cbn [p_mutexes p_sem with_p_sem].
    - intros m' _ Hm'. rewrite Exs, lookup_insert_ne; [done|]. by apply Hq.
    - intros q' Hq'. rewrite Exs, lookup_insert. case_decide; eauto.
    - intros m' _. apply Hh.
    - intros q' z _. apply Hw.
    - by left. }
  apply (change_inv _ _ _ _ _ _ _ _ _ _ _ _ _ HI HCh); try done; cbn [p_mutexes p_sem with_p_sem].
  - intros mu' Hmu. by destruct (pi_mutex HI _ _ Hmu) as [? _].
  - intros p Hp. pose proof (pi_pend HI _ _ Hp) as [P1 P2 P3 P4].
    split; [done|by apply (ts_dom HT)|by apply (change_form _ _ _ _ _ _ _ _ _ _ _ _ HCh)|].
    intros q' Hq'. rewrite (ts_wait HT), He. right. split; [done|]. destruct (P4 q' Hq') as [[_ ?]|[_ ?]]; auto.
Qed.

End waiters.

End calls.
