(* ===== verification/PthreadCalls.v ===== *)
(** * Mutexes and condition variables: the calls

    Each call, from a state with the invariant of [PthreadSpec] to the next one,
    with what it returns in every case. *)

From stdpp Require Import sorting.
From S2P Require Import Prelude Queue Sched SchedInv SchedOps SchedSpec Sem SemSpec Pthread PthreadSpec.

Section calls.
  Context (idle : Z) {SC : SchedConfig}.

(** What becomes of a mutex the task [x] has taken. *)
Record takes (f : pthread_mutex_s -> pthread_mutex_s) (mu : pthread_mutex_s) (pid : Z) : Prop := Takes {
  tk_pid : m_pid (f mu) = pid;
  tk_type : m_type (f mu) = m_type mu;
  tk_nlocks : m_type mu = PTHREAD_MUTEX_RECURSIVE -> m_nlocks (f mu) = 1
}.

(** The mutex can be taken at once. *)
Definition is_free (s : pt_sys) (m : Z) : bool := match s_sems (p_sem s) !! mutex_sem m with Some c => 0 <? c | None => false end.

Lemma slot_free s pend g a m mu : pt_inv idle s pend g a -> p_mutexes s !! m = Some mu ->
  exists c sl, m <> NULL /\ s_sems (p_sem s) !! mutex_sem m = Some c /\ slot_ok idle a pend g c m mu sl /\ (sl = Free <-> 0 < c) /\ is_free s m = (0 <? c).
Proof.
  intros HI Hm. destruct (pi_mutex HI _ _ Hm) as (Hn & c & sl & Hc & Hsl). exists c, sl. split; [done|]. split; [done|]. split; [done|].
  split; [|unfold is_free; by rewrite Hc]. pose proof (sl_count _ _ _ _ _ _ _ _ Hsl) as Hs. destruct sl; split; (done || lia).
Qed.

(** The running task, which was handed nothing, takes a mutex or begins to wait for it. *)
Lemma take_mutex_ok s pend g a m mu p :
  let x := arun a in
  pt_inv idle s pend g a -> p_mutexes s !! m = Some mu -> x <> idle -> (forall q, ~ handed pend a q x) ->
  wants p = Some (mutex_sem m) -> pend_form s a x p ->
  wp (take_loop 1 (mutex_sem m) (p_sem s)) (fun '(r, xs) => exists a',
    match r with
    | WaitRet ok => ok = true /\ is_free s m = true /\ g !! m = None /\ arun a' = x /\ a_pid a' x = a_pid a x /\ sem_refines idle xs a'
        /\ forall f, takes f mu (a_pid a x) -> pt_inv idle (PtSys xs (alter f m (p_mutexes s))) (delete x pend) (<[m := (x, 1)]> g) a'
    | WaitBlocked => is_free s m = false /\ pt_inv idle (with_p_sem xs s) (<[x := p]> pend) g a' /\ x ∈ waiters (mutex_sem m) a'
    end).
Proof.
  intros x HI Hm Hxi Hnh Hwp Hf. destruct (slot_free _ _ _ _ _ _ HI Hm) as (c & sl & _ & Hc & Hsl & Hfree & Ef).
  pose proof (pi_sem HI) as HSR. pose proof HSR as (Hr & [HC _] & _).
  eapply wp_mono; [apply (take_at_once idle _ a (mutex_sem m) c HSR (pi_int HI) Hc); done|].
  intros [r xs] (-> & Exs & HSR' & Hint' & Ew & Eo). rewrite Ef. destruct (Z.ltb_spec 0 c) as [Hpos|Hneg].
  - exists (a_take a). pose proof (step_take _ a idle Hr HC) as HT. assert (sl = Free) as -> by by apply Hfree.
    split; [done|]. split; [done|]. split; [apply (sl_holder _ _ _ _ _ _ _ _ Hsl)|]. split; [done|]. split; [apply (ts_pid HT)|]. split; [done|].
    intros f [Hp Ht Hn]. assert (c = 1) as -> by apply (sl_count _ _ _ _ _ _ _ _ Hsl).
    apply (inv_hold idle s pend g a m 1 mu Free HI Hm Hsl x EINVAL xs (a_take a) 0 f); try done; auto.
    + by apply (run_task _ a idle Hr).
    + intros q y. destruct (decide (q = mutex_sem m)) as [->|Hq]; [by rewrite Ew|by rewrite Eo].
  - exists (a_sleep (mutex_sem m) a). split; [done|]. split.
    + apply (inv_sleep idle s pend g a m c mu sl HI Hm Hc Hsl (mutex_sem m) c xs p); try done.
      * intros m' mu' _. apply mutex_sem_inj.
      * intros q y Hy. destruct (decide (q = mutex_sem m)) as [->|Hq]; [|by rewrite Eo]. rewrite Ew, ins_elem. by intros [->|?].
    + rewrite Ew. apply ins_elem. by left.
Qed.

(** ** pthread_mutex_lock *)

Definition mutex_set f m s : pt_sys := PtSys (p_sem s) (alter f m (p_mutexes s)).

Lemma set_mutex_ok f m s mu : p_mutexes s !! m = Some mu -> m <> NULL -> set_mutex f m s = Ok (mutex_set f m s).
Proof. intros Hm Hn. unfold set_mutex. by rewrite store_valid by (by split; eauto). Qed.

Lemma unlock_ret {B} (r : B) s pend g a :
  pt_inv idle s pend g a ->
  wp ('(_, k) ← sched_unlock (p_kernel s); Ok (r, with_p_kernel k s)) (fun '(r', s') => r' = r
    /\ pt_inv idle s' pend g (a_unlock a) /\ (forall q, waiters q (a_unlock a) = waiters q a)).
Proof.
  intros HI. apply wp_bind. eapply wp_mono; [by apply (inv_unlock idle s pend g a)|]. intros [b k'] (H1 & _ & H2). by apply wp_ret.
Qed.

Lemma lock_taken_ok xs m mu pid s pend g a x :
  p_mutexes s !! m = Some mu -> m <> NULL ->
  (forall f, takes f mu pid -> pt_inv idle (PtSys xs (alter f m (p_mutexes s))) (delete x pend) (<[m := (x, 1)]> g) a) ->
  wp (mutex_lock_taken m pid (WaitRet true) (with_p_sem xs s)) (fun '(r, s') => r = PtRet OK
    /\ exists a', pt_inv idle s' (delete x pend) (<[m := (x, 1)]> g) a').
Proof.
  intros Hm Hn Hinv. cbn [mutex_lock_taken]. apply wp_bind. rewrite (set_mutex_ok _ m _ mu) by done. cbn [mbind res_bind].
  rewrite (set_mutex_ok _ m _ (set_m_pid pid mu)) by (done || (simpl; by rewrite lookup_alter_eq, Hm)). apply wp_ret.
  unfold mutex_set. cbn [p_sem p_mutexes with_p_sem]. rewrite alter_twice.
  eapply wp_mono; [apply (unlock_ret (PtRet OK)), Hinv; by split|]. intros [r s'] (-> & H1 & _). eauto.
Qed.

Definition holds (g : holders) (m x : Z) : bool := match g !! m with Some (y, _) => bool_decide (y = x) | None => false end.

Lemma holds_true g m x : holds g m x = true -> exists n, g !! m = Some (x, n).
Proof. unfold holds. destruct (g !! m) as [[y n]|]; [|done]. intros ->%bool_decide_eq_true. eauto. Qed.

(** The pid in a mutex tells its holder. *)
Lemma pid_holder s pend g a m mu c sl x :
  pt_inv idle s pend g a -> slot_ok idle a pend g c m mu sl -> is_Some (as_tasks a !! x) -> x <> idle -> (m_pid mu =? a_pid a x) = holds g m x.
Proof.
  intros HI [_ Hp Hg _ Hd] Hx Hi. unfold holds. rewrite Hp, Hg. destruct sl as [|y|y n].
  1, 2: apply Z.eqb_neq; intros E; by apply (pi_pid0 HI x Hx Hi).
  destruct Hd as [Hy _]. destruct (Z.eqb_spec (a_pid a y) (a_pid a x)) as [E|E].
  - symmetry. apply bool_decide_true. by apply (pi_pids HI).
  - symmetry. apply bool_decide_false. congruence.
Qed.

(** The holder of a recursive mutex changes the number of its locks. *)
Lemma inv_relock s pend g a m mu x n n' :
  pt_inv idle s pend g a -> p_mutexes s !! m = Some mu -> g !! m = Some (x, n) -> m_type mu = PTHREAD_MUTEX_RECURSIVE -> 1 <= n' ->
  pt_inv idle (mutex_set (set_m_nlocks n') m s) pend (<[m := (x, n')]> g) a.
Proof.
  intros HI Hm Hg Ht Hn'. destruct (pi_mutex HI _ _ Hm) as (_ & c & sl & Hc & [A B C D E]). rewrite Hg in C.
  destruct sl as [| |y k]; [done|done|]. simplify_eq. pose proof (pi_sem HI) as (Hr & _ & _).
  assert (pt_change (arun a) (a_errno a (arun a)) NULL m s (mutex_set (set_m_nlocks n') m s) pend pend g (<[m := (y, n')]> g) a a) as HCh.
  { split; try done; cbn [p_mutexes mutex_set].
    - rewrite <-(run_waits_not idle _ a (pi_sem HI)). by split.
    - intros m' Hne. by rewrite lookup_alter_ne.
    - by rewrite lookup_alter_eq, Hm.
    - intros m' Hne. by rewrite lookup_insert_ne.
    - by left. }
  apply (change_inv _ _ _ _ _ _ _ _ _ _ _ _ _ HI HCh); [apply HI|apply HI| |].
  - cbn [p_mutexes mutex_set]. rewrite lookup_alter_eq, Hm. intros mu' [= <-]. exists c, (Held y n'). split; [done|]. split; try done.
    + by rewrite lookup_insert_eq.
    + intros z. rewrite D. done.
    + destruct E as (E1 & E2 & E3 & E4). cbn [m_type set_m_nlocks m_nlocks]. rewrite Ht. by repeat split.
  - intros p Hp. apply (change_pend _ _ _ _ _ _ _ _ _ _ _ _ _ HCh); [done|]. by apply (pi_pend HI).
Qed.

Lemma not_handed (pend : gmap Z pt_pend) (a : asched) x : pend !! x = None -> forall q, ~ handed pend a q x.
Proof. intros Hp q [Hq _]. unfold pwants in Hq. by rewrite Hp in Hq. Qed.

Lemma mutex_lock_ok s pend g a m mu :
  let x := arun a in
  pt_inv idle s pend g a -> p_mutexes s !! m = Some mu -> x <> idle -> pend !! x = None -> alk a x < MAX_LOCK_COUNT -> m_nlocks mu < 2 ^ 31 - 1 ->
  wp (pthread_mutex_lock m s) (fun '(r, s') => exists a',
    if holds g m x then
      if m_type mu =? PTHREAD_MUTEX_RECURSIVE then r = PtRet OK /\ exists g', replay1 (Acquire x m) g = Some g' /\ pt_inv idle s' pend g' a'
      else r = PtRet EDEADLK /\ pt_inv idle s' pend g a'
    else if is_free s m then r = PtRet OK /\ exists g', replay1 (Acquire x m) g = Some g' /\ pt_inv idle s' pend g' a'
    else r = PtBlocked /\ pt_inv idle s' (<[x := PendLock m (a_pid a x)]> pend) g a' /\ x ∈ waiters (mutex_sem m) a').
Proof.
  intros x HI Hm Hxi Hpx Hlk Hnl. pose proof (pi_sem HI) as (Hr & [HC _] & _). pose proof (run_task _ a idle Hr HC) as Hxt.
  destruct (slot_free _ _ _ _ _ _ HI Hm) as (c & sl & Hmn & Hc & Hsl & Hfree & Ef).
  unfold pthread_mutex_lock. apply wp_bind. unfold p_kernel. rewrite (pid_read idle _ a (pi_sem HI)). apply wp_ret. rewrite decide_False by done.
  apply wp_bind. eapply wp_mono; [by apply (inv_lock idle s pend g a)|]. intros k (HI1 & Hlk1 & Ew1). set (s1 := with_p_kernel k s) in *. cbv zeta.
  apply wp_bind. eapply wp_deref; [done|exact Hm|]. fold x. rewrite (pid_holder s pend g a m mu c sl x) by done.
  destruct (holds g m x) eqn:Eh.
  - destruct (holds_true _ _ _ Eh) as [n Hg]. apply wp_bind. destruct (Z.eqb_spec (m_type mu) PTHREAD_MUTEX_RECURSIVE) as [Et|Et].
    + rewrite (set_mutex_ok _ m _ mu) by done. cbn [mbind res_bind]. apply wp_ret.
      destruct Hsl as [_ _ Hg' _ Hd]. rewrite Hg in Hg'. destruct sl as [| |y n2]; [done|done|].
      assert (y = x /\ n2 = n) as [-> ->] by (split; congruence). rewrite Et, Z.eqb_refl in Hd.
      destruct Hd as (_ & _ & Hn1 & Hnn). rewrite s32_id by (unfold INT_MAX; lia).
      eapply wp_mono; [apply (unlock_ret (PtRet OK)); apply (inv_relock s1 pend g (a_lock a) m mu x n (m_nlocks mu + 1)); try done; lia|].
      intros [r s'] (-> & HI' & _). eexists. split; [done|]. eexists. split; [|exact HI']. unfold replay1. rewrite Hg. rewrite decide_True by done. by rewrite Hnn.
    + apply wp_ret. eapply wp_mono; [by apply (unlock_ret (PtRet EDEADLK))|]. intros [r s'] (-> & HI' & _). eauto.
  - assert (pend_form s1 (a_lock a) x (PendLock m (a_pid a x))) as Hform.
    { split; [by exists mu|]. symmetry. apply (ts_pid (still_lock a _ Hxt)). }
    destruct (slot_free _ _ _ _ _ _ HI1 Hm) as (c1 & sl1 & _ & Hc1 & Hsl1 & _ & Ef1).
    apply wp_bind. rewrite (takesemaphore_ok idle _ (a_lock a) _ c1) by (done || apply HI1).
    eapply wp_mono; [apply (take_mutex_ok s1 pend g (a_lock a) m mu (PendLock m (a_pid a x))); try done; by apply not_handed|].
    intros [r xs] (a' & Hr'). change (is_free s1 m) with (is_free s m) in Hr'. destruct r as [ok|].
    + destruct Hr' as (-> & -> & Hg & _ & _ & _ & Hinv). eapply wp_mono; [apply (lock_taken_ok xs m mu (a_pid a x) s1 pend g a' x); try done|].
      * intros f Hf. apply Hinv. by rewrite (ts_pid (still_lock a _ Hxt)).
      * intros [r s'] (-> & a2 & HI2). exists a2. split; [done|]. rewrite delete_id in HI2 by done. eexists. split; [|exact HI2].
        unfold replay1. by rewrite Hg.
    + destruct Hr' as (-> & HI2 & Hw). apply wp_ret. by exists a'.
Qed.

(** ** Going on after a wait for a mutex *)

Lemma resumed_mutex_ok s pend g a m mu p :
  let x := arun a in
  pt_inv idle s pend g a -> p_mutexes s !! m = Some mu -> pend !! x = Some p -> wants p = Some (mutex_sem m) ->
  wp (takesemaphore_resumed (mutex_sem m) (p_sem s)) (fun '(r, xs) => exists a',
    match r with
    | WaitRet ok => ok = true /\ g !! m = None /\ arun a' = x /\ a_pid a' x = a_pid a x /\ sem_refines idle xs a'
        /\ forall f, takes f mu (a_pid a x) -> pt_inv idle (PtSys xs (alter f m (p_mutexes s))) (delete x pend) (<[m := (x, 1)]> g) a'
    | WaitBlocked => pt_inv idle (with_p_sem xs s) pend g a'
    end).
Proof.
  intros x HI Hm Hp Hw. pose proof (pi_sem HI) as HSR. pose proof (pi_pend HI _ _ Hp) as [P1 P2 P3 P4].
  destruct (slot_free _ _ _ _ _ _ HI Hm) as (c & sl & Hmn & Hc & Hsl & Hfree & Ef). pose proof (run_waits_not idle _ a HSR) as Hwn. fold x in Hwn.
  pose proof HSR as (_ & _ & HS). destruct (sv_count _ _ HS _ _ Hc) as [Hqn _].
  assert (pwants pend x = Some (mutex_sem m)) as Hpw by (unfold pwants; by rewrite Hp).
  destruct (P4 _ Hw) as [[? _]|[_ [He|He]]]; [congruence| |].
  - rewrite (resumed_given idle _ a) by (done || apply HI). apply wp_ret. exists a.
    assert (sl = Handed x) as -> by (by apply (sl_handed _ _ _ _ _ _ _ _ Hsl)). split; [done|]. split; [apply (sl_holder _ _ _ _ _ _ _ _ Hsl)|].
    split; [done|]. split; [done|]. split; [done|]. intros f [Hf1 Hf2 Hf3].
    apply (inv_hold idle s pend g a m c mu (Handed x) HI Hm Hsl x (a_errno a x) (p_sem s) a c f); try done; [by right| | |by rewrite insert_id|].
    + intros q Hq [Hq' _]. congruence.
    + apply HI.
    + apply (sl_count _ _ _ _ _ _ _ _ Hsl).
  - rewrite (resumed_again idle _ a) by (done || apply HI).
    eapply wp_mono; [apply (take_mutex_ok s pend g a m mu p); try done; intros q (_ & _ & Hq); fold x in Hq; by rewrite He in Hq|].
    intros [r xs] (a' & Hr). exists a'. destruct r as [ok|].
    + by destruct Hr as (-> & _ & Hr).
    + destruct Hr as (_ & Hr & _). fold x in Hr. by rewrite insert_id in Hr.
Qed.

(** What a call that goes on returns: the mutex, or it waits again. *)
Definition goes_on (pend : gmap Z pt_pend) (g : holders) (x m : Z) (stay : pt_pend -> Prop) (r : pt_result) (s' : pt_sys) (a' : asched) : Prop :=
  match r with
  | PtRet code => code = OK /\ exists g', replay1 (Acquire x m) g = Some g' /\ pt_inv idle s' (delete x pend) g' a'
  | _ => exists p, stay p /\ pt_inv idle s' (<[x := p]> pend) g a'
  end.

Lemma mutex_lock_resumed_ok s pend g a m pid :
  let x := arun a in
  pt_inv idle s pend g a -> pend !! x = Some (PendLock m pid) ->
  wp (pthread_mutex_lock_resumed m pid s) (fun '(r, s') => r <> PtPreempted /\ exists a', goes_on pend g x m (eq (PendLock m pid)) r s' a').
Proof.
  intros x HI Hp. destruct (pd_form _ _ _ _ _ (pi_pend HI _ _ Hp)) as [[mu Hm] ->]. destruct (pi_mutex HI _ _ Hm) as [Hmn _].
  unfold pthread_mutex_lock_resumed. apply wp_bind. eapply wp_mono; [by apply (resumed_mutex_ok s pend g a m mu _ HI Hm Hp)|].
  intros [r xs] (a' & Hr). destruct r as [ok|].
  - destruct Hr as (-> & Hg & _ & _ & _ & Hinv). eapply wp_mono; [by apply (lock_taken_ok xs m mu (a_pid a x) s pend g a' x)|].
    intros [r s'] (-> & a2 & HI2). split; [done|]. exists a2. split; [done|]. eexists. split; [|exact HI2]. unfold replay1. by rewrite Hg.
  - apply wp_ret. split; [done|]. exists a'. eexists. split; [done|]. fold x in Hp. by rewrite insert_id.
Qed.

(** ** pthread_mutex_trylock *)

Lemma mutex_trylock_ok s pend g a m mu :
  let x := arun a in
  pt_inv idle s pend g a -> p_mutexes s !! m = Some mu -> x <> idle -> pend !! x = None -> alk a x < MAX_LOCK_COUNT ->
  m_type mu <> PTHREAD_MUTEX_RECURSIVE ->
  wp (pthread_mutex_trylock m s) (fun '(r, s') => exists a',
    if is_free s m then r = OK /\ exists g', replay1 (Acquire x m) g = Some g' /\ pt_inv idle s' pend g' a'
    else r = EBUSY /\ pt_inv idle s' pend g a').
Proof.
  intros x HI Hm Hxi Hpx Hlk Ht.
  destruct (pi_mutex HI _ _ Hm) as [Hmn _]. unfold pthread_mutex_trylock. rewrite decide_False by done.
  apply wp_bind. eapply wp_mono; [by apply (inv_lock idle s pend g a)|]. intros k (HI1 & _ & Ew1). set (s1 := with_p_kernel k s) in *. cbv zeta.
  change (is_free s m) with (is_free s1 m). set (a1 := a_lock a) in *. change x with (arun a1) in *. clear x. set (x := arun a1) in *.
  destruct (slot_free _ _ _ _ _ _ HI1 Hm) as (c & sl & _ & Hc & Hsl & Hfree & Ef). rewrite Ef. pose proof (pi_sem HI1) as HSR. pose proof HSR as (Hr1 & [HC1 _] & _).
  apply wp_bind. eapply wp_mono; [by apply (sem_trywait_ok idle _ a1 (mutex_sem m) c HSR (pi_int HI1))|].
  intros [ok xs] (a2 & HSR2 & El & Ev & Evo & -> & He & Exs & Ea).
  assert (task_step x EAGAIN NULL a1 a2) as HT by (subst a2; apply (step_try _ a1 idle Hr1 HC1); by apply (run_waits_not idle (p_sem s1))).
  assert (as_int a2 = false) as Hint by (subst a2; unfold a_try; case_match; apply (pi_int HI1)).
  assert (forall q y, y ∈ waiters q a2 -> y ∈ waiters q a1) as Hw.
  { intros q y. unfold waiters. rewrite El. rewrite !list_elem_of_filter. intros [H1 H2]. split; [|done].
    destruct (decide (y = x)) as [->|Hy]; [|by rewrite <-(proj2 (ts_other HT y Hy))]. exfalso. destruct HSR as ((HR & _ & _) & _ & _).
    by pose proof (sr_disj _ _ HR _ _ _ H2 (core_run _ _ HC1)). }
  assert (arun a2 = x) as Ex by (unfold x, arun; by rewrite El). apply wp_bind. destruct (Z.ltb_spec 0 c) as [Hpos|Hneg].
  - unfold p_kernel. cbn [p_sem with_p_sem]. rewrite (pid_read idle _ a2 HSR2), Ex, (ts_pid HT). cbn [mbind res_bind].
    rewrite (set_mutex_ok _ m _ mu) by done. apply wp_ret. assert (sl = Free) as -> by by apply Hfree. pose proof (sl_count _ _ _ _ _ _ _ _ Hsl) as Hc1. simpl in Hc1. subst c.
    pose proof (inv_hold idle s1 pend g a1 m 1 mu Free HI1 Hm Hsl x EAGAIN xs a2 0 (set_m_pid (a_pid a1 x))) as HI2.
    specialize (HI2 ltac:(by left) ltac:(done) (run_task _ a1 idle Hr1 HC1) ltac:(intros; by apply not_handed) HT HSR2 Hint Exs ltac:(lia) Hw ltac:(done) ltac:(done) ltac:(done)).
    eapply wp_mono; [apply (unlock_ret OK); exact HI2|]. intros [r s'] (-> & H1 & _). eexists. split; [done|]. rewrite delete_id in H1 by done.
    eexists. split; [|exact H1]. unfold replay1. by rewrite (sl_holder _ _ _ _ _ _ _ _ Hsl).
  - cbn [p_sem with_p_sem]. rewrite (errno_read idle _ a2 HSR2 Hint), Ex, (ts_errno HT). apply wp_ret.
    eapply wp_mono; [apply (unlock_ret EBUSY), (inv_run idle s1 pend g a1 xs a2 EAGAIN pend); try done|].
    + intros m' _. by rewrite Exs.
    + intros q. by rewrite Exs.
    + intros m' _. split; by apply not_handed.
    + intros p Hp. fold x in Hp. congruence.
    + intros [r s'] (-> & H1 & _). eauto.
Qed.

(** ** Giving a mutex up *)

(** The first waiter is handed the mutex, the others go on waiting. *)
Definition hands_over (pend : gmap Z pt_pend) (m : Z) (a a' : asched) : Prop :=
  match waiters (mutex_sem m) a with
  | [] => waiters (mutex_sem m) a' = []
  | y :: l => handed pend a' (mutex_sem m) y /\ waiters (mutex_sem m) a' = l
  end.

Lemma handed_still pend a a' q y : still a a' -> is_Some (as_tasks a !! y) -> handed pend a q y -> handed pend a' q y.
Proof. intros Hs Hy (H1 & H2 & H3). pose proof (Hs y Hy) as HT. split; [done|]. by rewrite (ts_wait HT), (ts_errno HT). Qed.

Lemma give_mutex_ok s pend g a m mu n f :
  let x := arun a in
  pt_inv idle s pend g a -> p_mutexes s !! m = Some mu -> g !! m = Some (x, n) -> 0 < alk a x ->
  m_pid (f mu) = 0 -> m_type (f mu) = m_type mu ->
  wp (pthread_givesemaphore (mutex_sem m) (p_sem s)) (fun '(r, xs) => exists a', r = OK
    /\ pt_inv idle (PtSys xs (alter f m (p_mutexes s))) pend (delete m g) a' /\ arun a' = x /\ 0 < alk a' x /\ hands_over pend m a a'
    /\ (forall q, q <> mutex_sem m -> s_sems xs !! q = s_sems (p_sem s) !! q)).
Proof.
  intros x HI Hm Hg Hlk Hf1 Hf2. destruct (slot_free _ _ _ _ _ _ HI Hm) as (c & sl & Hmn & Hc & Hsl & Hfree & _).
  pose proof (sl_holder _ _ _ _ _ _ _ _ Hsl) as Hsg. rewrite Hg in Hsg. destruct sl as [| |y n']; [done|done|].
  assert (y = x /\ n' = n) as [-> ->] by (split; congruence). pose proof (sl_count _ _ _ _ _ _ _ _ Hsl) as Hc0. cbn in Hc0.
  pose proof (pi_sem HI) as HSR. pose proof HSR as (Hr & [HC _] & HS).
  eapply wp_mono; [apply (givesemaphore_ok idle _ a (mutex_sem m) c HSR Hc); unfold SEM_VALUE_MAX; lia|].
  intros [r xs] (-> & Exs & HSR' & Hint & Ew & Eo). exists (a_wake (mutex_sem m) a). split; [done|].
  destruct (wake_locked idle _ a (mutex_sem m) Hr HC Hlk) as [Ex Ek]. split; [|split; [done|split; [unfold x; by rewrite Ek|split]]].
  - apply (inv_release idle s pend g a m c mu (Held x n) HI Hm Hc Hsl x n xs f); try done; [by rewrite Hint, (pi_int HI)|].
    intros q y. destruct (decide (q = mutex_sem m)) as [->|Hq]; [|by rewrite Eo]. rewrite Ew. destruct (waiters (mutex_sem m) a); [done|]. by right.
  - unfold hands_over. rewrite Ew. destruct (waiters (mutex_sem m) a) as [|y l] eqn:El; [done|]. split; [|done].
    assert (y ∈ waiters (mutex_sem m) a) as Hy by (rewrite El; left). pose proof (pi_waiters HI m y ltac:(eauto) Hy) as Hwant.
    pose proof (step_wake _ a Hr _ y l El) as HT. split; [done|]. rewrite (ts_wait HT), (ts_errno HT). split; [done|].
    apply (waiter_pend idle s pend g a HI y (mutex_sem m)); try done. by destruct (sv_count _ _ HS _ _ Hc).
  - intros q Hq. by rewrite Exs, lookup_insert_ne.
Qed.


(** ** pthread_mutex_unlock *)

Lemma mutex_unlock_ok s pend g a m mu :
  let x := arun a in
  pt_inv idle s pend g a -> p_mutexes s !! m = Some mu -> x <> idle -> alk a x < MAX_LOCK_COUNT ->
  wp (pthread_mutex_unlock m s) (fun '(r, s') => exists a',
    if holds g m x then r = OK /\ exists g', replay1 (Release x m) g = Some g' /\ pt_inv idle s' pend g' a'
      /\ (g' !! m = None -> hands_over pend m a a')
    else r = EPERM /\ pt_inv idle s' pend g a').
Proof.
  intros x HI Hm Hxi Hlk. pose proof (pi_sem HI) as (Hr & [HC _] & _). pose proof (run_task _ a idle Hr HC) as Hxt.
  destruct (slot_free _ _ _ _ _ _ HI Hm) as (c & sl & Hmn & Hc & Hsl & _ & _).
  unfold pthread_mutex_unlock. rewrite decide_False by done.
  apply wp_bind. eapply wp_mono; [by apply (inv_lock idle s pend g a)|]. intros k (HI1 & Hlk1 & Ew1). set (s1 := with_p_kernel k s) in *. cbv zeta.
  apply wp_bind. eapply wp_deref; [done|exact Hm|]. cbv beta. change (getpid (p_kernel s1)) with (getpid (s_kernel (p_sem s1))). rewrite (pid_read idle _ (a_lock a) (pi_sem HI1)). cbn [mbind res_bind].
  change (arun (a_lock a)) with x. rewrite (ts_pid (still_lock a _ Hxt)). rewrite (pid_holder s pend g a m mu c sl x) by done.
  apply wp_bind. destruct (holds g m x) eqn:Eh; cbn [negb].
  - destruct (holds_true _ _ _ Eh) as [n Hg]. destruct Hsl as [_ _ Hg' _ Hd]. rewrite Hg in Hg'. destruct sl as [| |y n2]; [done|done|].
    assert (y = x /\ n2 = n) as [-> ->] by (split; congruence). destruct Hd as (_ & _ & Hn1 & Hnn).
    destruct ((m_type mu =? PTHREAD_MUTEX_RECURSIVE) && (1 <? m_nlocks mu)) eqn:Erec.
    + apply andb_true_iff in Erec as [Et En]. rewrite Et in Hnn. apply Z.eqb_eq in Et. subst n.
      rewrite (set_mutex_ok _ m _ mu) by done. cbn [mbind res_bind]. apply wp_ret.
      eapply wp_mono; [apply (unlock_ret OK); apply (inv_relock s1 pend g (a_lock a) m mu x (m_nlocks mu) (m_nlocks mu - 1)); try done; apply Z.ltb_lt in En; lia|].
      intros [r s'] (-> & HI' & _). eexists. split; [done|]. eexists. split; [|split; [exact HI'|by rewrite lookup_insert_eq]].
      unfold replay1. rewrite Hg, decide_True by done. by rewrite En.
    + assert (n <= 1) as Hn. { destruct (m_type mu =? PTHREAD_MUTEX_RECURSIVE); [|lia]. simpl in Erec. apply Z.ltb_ge in Erec. lia. }
      rewrite (set_mutex_ok _ m _ mu) by done. cbn [mbind res_bind].
      rewrite (set_mutex_ok _ m _ (set_m_pid 0 mu)) by (done || (simpl; by rewrite lookup_alter_eq, Hm)). cbn [mbind res_bind].
      apply wp_bind. eapply wp_mono; [apply (give_mutex_ok s1 pend g (a_lock a) m mu n (set_m_nlocks 0 ∘ set_m_pid 0)); done|].
      intros [r xs] (a2 & -> & HI2 & _ & _ & Hh & _). apply wp_ret. unfold with_p_sem, mutex_set. cbn [p_mutexes]. rewrite alter_twice.
      eapply wp_mono; [apply (unlock_ret OK); exact HI2|]. intros [r s'] (-> & HI' & Ew'). eexists. split; [done|]. exists (delete m g).
      split; [|split; [exact HI'|]].
      * unfold replay1. rewrite Hg, decide_True by done. destruct (Z.ltb_spec 1 n); [lia|done].
      * intros _. unfold hands_over in *. rewrite Ew', <-Ew1. destruct (waiters (mutex_sem m) (a_lock a)) as [|y l]; [done|].
        destruct Hh as [Hh ->]. split; [|done]. eapply handed_still; [apply still_unlock| |done].
        destruct Hh as [Hh _]. unfold pwants in Hh. destruct (pend !! y) as [p|] eqn:Ep; [|done]. apply (pi_pend HI2 _ _ Ep).
  - apply wp_ret. eapply wp_mono; [by apply (unlock_ret EPERM)|]. intros [r s'] (-> & HI' & _). eauto.
Qed.

(** ** pthread_cond_wait *)

Lemma cond_taken_ok xs m mu s pend g a x :
  p_mutexes s !! m = Some mu -> m <> NULL -> m_type mu <> PTHREAD_MUTEX_RECURSIVE -> g !! m = None -> arun a = x -> sem_refines idle xs a ->
  (forall f, takes f mu (a_pid a x) -> pt_inv idle (PtSys xs (alter f m (p_mutexes s))) (delete x pend) (<[m := (x, 1)]> g) a) ->
  wp (cond_wait_taken m 0 (WaitRet true) (with_p_sem xs s)) (fun '(r, s') =>
    r = PtRet OK /\ exists g', replay1 (Acquire x m) g = Some g' /\ pt_inv idle s' (delete x pend) g' a).
Proof.
  intros Hm Hn Ht Hg Hx HSR Hinv. cbn [cond_wait_taken]. change (or_ret 0 true) with 0. cbn [Z.eqb]. apply wp_bind.
  unfold p_kernel. cbn [p_sem with_p_sem]. rewrite (pid_read idle _ a HSR), Hx. apply wp_ret.
  rewrite (set_mutex_ok _ m _ mu) by done. apply wp_bind, wp_ret, wp_ret. split; [done|]. exists (<[m := (x, 1)]> g).
  split; [unfold replay1; by rewrite Hg|]. by apply (Hinv (set_m_pid (a_pid a x))).
Qed.

Lemma reacquire_ok s pend g a c m :
  let x := arun a in
  pt_inv idle s pend g a -> pend !! x = Some (PendCond c m (CondPreempted 0)) ->
  wp (cond_wait_reacquire m 0 s) (fun '(r, s') => r <> PtPreempted /\ exists a', goes_on pend g x m (eq (PendCond c m (CondMutex 0))) r s' a').
Proof.
  intros x HI Hp. pose proof (pi_pend HI _ _ Hp) as [P1 P2 P3 P4]. destruct P3 as ((mu & Hm & Ht) & Hc & Hcm & _).
  destruct (slot_free _ _ _ _ _ _ HI Hm) as (n & sl & Hmn & Hn & _). unfold cond_wait_reacquire. apply wp_bind.
  rewrite (takesemaphore_ok idle _ a _ n) by (done || apply HI).
  eapply wp_mono; [apply (take_mutex_ok s pend g a m mu (PendCond c m (CondMutex 0))); try done; [|by split; [exists mu|]]|].
  { intros q [Hq _]. unfold pwants, x in *. by rewrite Hp in Hq. }
  intros [r xs] (a' & Hr). destruct r as [ok|].
  - destruct Hr as (-> & _ & Hg & Hx & Hpid & HSR & Hinv). eapply wp_mono; [apply (cond_taken_ok xs m mu s pend g a' x); try done|].
    + intros f Hf. apply Hinv. by rewrite <-Hpid.
    + intros [r s'] (-> & Hr'). split; [done|]. by exists a'.
  - destruct Hr as (_ & HI' & _). apply wp_ret. split; [done|]. exists a'. eexists. by split.
Qed.

(** The task, which got a count of the condition's semaphore, lets others run and takes the mutex. *)
Lemma signalled_ok s pend g a c m :
  let x := arun a in
  pt_inv idle s pend g a -> pend !! x = Some (PendCond c m (CondPreempted 0)) ->
  wp (cond_wait_signalled m 0 (WaitRet true) s) (fun '((r, st), s') => exists a', goes_on pend g x m (eq (PendCond c m st)) r s' a').
Proof.
  intros x HI Hp. cbn [cond_wait_signalled]. change (or_ret 0 true) with 0. cbv zeta. apply wp_bind.
  eapply wp_mono; [by apply (inv_unlock idle s pend g a)|]. intros [b k'] (HI1 & Hb & _). destruct b.
  - apply wp_ret. eexists. eexists. split; [done|]. unfold x. by rewrite insert_id.
  - specialize (Hb eq_refl). apply wp_bind. eapply wp_mono; [apply (reacquire_ok _ pend g (a_unlock a) c m HI1); by rewrite Hb|].
    intros [r s'] [_ (a' & H)]. apply wp_ret. rewrite Hb in H. by exists a'.
Qed.

(** The running task, inside no wait for a mutex, takes a count of the
    condition's semaphore or begins to wait for one. *)
Lemma cond_take_ok s pend g a c m mu n :
  let x := arun a in
  pt_inv idle s pend g a -> p_mutexes s !! m = Some mu -> x <> idle -> s_sems (p_sem s) !! cond_sem c = Some n ->
  (forall m', is_Some (p_mutexes s !! m') -> ~ handed pend a (mutex_sem m') x) -> pend_form s a x (PendCond c m (CondSignal 0)) ->
  wp (take_loop 1 (cond_sem c) (p_sem s)) (fun '(r, xs) => exists a',
    if 0 <? n then r = WaitRet true /\ arun a' = x /\ pt_inv idle (with_p_sem xs s) (<[x := PendCond c m (CondPreempted 0)]> pend) g a'
    else r = WaitBlocked /\ pt_inv idle (with_p_sem xs s) (<[x := PendCond c m (CondSignal 0)]> pend) g a' /\ x ∈ waiters (cond_sem c) a'
      /\ (forall q, q <> cond_sem c -> waiters q a' = waiters q a) /\ task_step x 0 (cond_sem c) a a').
Proof.
  intros x HI Hm Hxi Hn Hnh Hf. pose proof (pi_sem HI) as HSR. pose proof HSR as (Hr & [HC _] & _).
  destruct (slot_free _ _ _ _ _ _ HI Hm) as (k & sl & _ & Hk & Hsl & _). pose proof Hf as (Hf1 & Hf2 & Hf3 & Hf4).
  eapply wp_mono; [apply (take_at_once idle _ a (cond_sem c) n HSR (pi_int HI) Hn); done|].
  intros [r xs] (-> & Exs & HSR' & Hint' & Ew & Eo). destruct (Z.ltb_spec 0 n) as [Hpos|Hneg].
  - exists (a_take a). split; [done|]. split; [done|]. pose proof (step_take _ a idle Hr HC) as HT. fold x in HT.
    apply (inv_run idle s pend g a xs (a_take a) EINVAL); try done; fold x.
    + intros m' Hm'. rewrite Exs, lookup_insert_ne; [done|]. by apply Hf3.
    + intros q Hq. rewrite Exs, lookup_insert. case_decide; eauto.
    + intros y Hy. by rewrite lookup_insert_ne.
    + intros m' Hm'. split; [by apply Hnh|]. intros [Hh _]. unfold pwants in Hh. by rewrite lookup_insert_eq in Hh.
    + rewrite lookup_insert_eq. intros p [= <-]. split; [done|apply (ts_dom HT); by apply (run_task _ a idle Hr)| |done].
      split; [done|]. split; [simpl; rewrite Exs, lookup_insert; case_decide; eauto|]. done.
    + intros q y. destruct (decide (q = cond_sem c)) as [->|Hq]; [by rewrite Ew|by rewrite Eo].
  - exists (a_sleep (cond_sem c) a). split; [done|]. split; [|split; [rewrite Ew; apply ins_elem; by left|split; [done|by apply (step_sleep _ a idle Hr HC)]]].
    apply (inv_sleep idle s pend g a m k mu sl HI Hm Hk Hsl (cond_sem c) n xs (PendCond c m (CondSignal 0))); try done.
    + intros m' mu' Hm' E. exfalso. by apply (Hf3 m'); eauto.
    + intros q y Hy. destruct (decide (q = cond_sem c)) as [->|Hq]; [|by rewrite Eo]. rewrite Ew, ins_elem. by intros [->|?].
Qed.

Lemma goes_on_insert pend g x m stay r s' a' p : goes_on (<[x := p]> pend) g x m stay r s' a' -> goes_on pend g x m stay r s' a'.
Proof.
  unfold goes_on. rewrite delete_insert_eq. destruct r; [done|..]; intros (p' & Hs & HI); exists p'; by rewrite insert_insert_eq in HI.
Qed.

(** The caller gives the mutex up and, without another task having run in
    between, waits for the condition; when the condition's semaphore has a
    count it goes on to take the mutex again. *)
Lemma cond_wait_ok s pend g a c m mu n :
  let x := arun a in
  pt_inv idle s pend g a -> p_mutexes s !! m = Some mu -> m_type mu <> PTHREAD_MUTEX_RECURSIVE -> c <> NULL ->
  s_sems (p_sem s) !! cond_sem c = Some n -> (forall m', is_Some (p_mutexes s !! m') -> cond_sem c <> mutex_sem m') ->
  x <> idle -> pend !! x = None -> alk a x < MAX_LOCK_COUNT ->
  wp (pthread_cond_wait c m s) (fun '((r, st), s') => exists a',
    if holds g m x then exists g1, replay1 (Release x m) g = Some g1 /\ g1 !! m = None /\
      if 0 <? n then goes_on pend g1 x m (eq (PendCond c m st)) r s' a'
      else r = PtBlocked /\ st = CondSignal 0 /\ pt_inv idle s' (<[x := PendCond c m (CondSignal 0)]> pend) g1 a'
        /\ x ∈ waiters (cond_sem c) a' /\ hands_over pend m a a'
    else r = PtRet EPERM /\ s' = s).
Proof.
  intros x HI Hm Ht Hcn Hn Hcm Hxi Hpx Hlk. pose proof (pi_sem HI) as (Hr & [HC _] & _). pose proof (run_task _ a idle Hr HC) as Hxt.
  destruct (slot_free _ _ _ _ _ _ HI Hm) as (k0 & sl & Hmn & Hk0 & Hsl & _ & _).
  unfold pthread_cond_wait. rewrite decide_False by (intros [?|?]; done). apply wp_bind. eapply wp_deref; [done|exact Hm|].
  apply wp_bind. unfold p_kernel at 1. rewrite (pid_read idle _ a (pi_sem HI)). apply wp_ret. fold x. rewrite (pid_holder s pend g a m mu k0 sl x) by done.
  destruct (holds g m x) eqn:Eh; cbn [negb]; [|apply wp_ret; by exists a].
  destruct (holds_true _ _ _ Eh) as [d Hg]. destruct Hsl as [_ _ Hg' _ Hd]. rewrite Hg in Hg'. destruct sl as [| |y d2]; [done|done|].
  assert (y = x /\ d2 = d) as [-> ->] by (split; congruence). destruct Hd as (_ & _ & _ & Hd). destruct (Z.eqb_spec (m_type mu) PTHREAD_MUTEX_RECURSIVE); [done|]. subst d.
  apply wp_bind. eapply wp_mono; [by apply (inv_lock idle s pend g a)|]. intros k (HI1 & Hlk1 & Ew1). set (s1 := with_p_kernel k s) in *. cbv zeta.
  rewrite (set_mutex_ok _ m _ mu) by done. apply wp_bind, wp_ret. apply wp_bind.
  eapply wp_mono; [by apply (give_mutex_ok s1 pend g (a_lock a) m mu 1 (set_m_pid 0))|]. intros [r1 x1] (a2 & -> & HI2 & Ex & Hlk2 & Hh & Esem).
  change (arun (a_lock a)) with x in *. set (s2 := PtSys x1 (alter (set_m_pid 0) m (p_mutexes s1))) in *.
  assert (p_mutexes s2 !! m = Some (set_m_pid 0 mu)) as Hm2 by (simpl; by rewrite lookup_alter_eq, Hm).
  assert (forall m', is_Some (p_mutexes s2 !! m') <-> is_Some (p_mutexes s !! m')) as Hkn by (intros m'; simpl; apply lookup_alter_is_Some).
  assert (s_sems (p_sem s2) !! cond_sem c = Some n) as Hn2 by (simpl; by rewrite Esem by (apply Hcm; eauto)).
  apply wp_bind. rewrite (takesemaphore_ok idle x1 a2 _ n) by (done || apply (pi_sem HI2)).
  eapply wp_mono; [apply (cond_take_ok s2 pend (delete m g) a2 c m (set_m_pid 0 mu) n HI2 Hm2); rewrite ?Ex; try done|].
  { intros m' _. by apply not_handed. }
  { split; [by exists (set_m_pid 0 mu)|]. split; [eauto|]. split; [|done]. intros m' Hm'. by apply Hcm, Hkn. }
  rewrite Ex. intros [r xs] (a3 & Hr3). assert (replay1 (Release x m) g = Some (delete m g)) as Erel by (unfold replay1; by rewrite Hg, decide_True).
  assert (delete m g !! m = None) as Hdel by apply lookup_delete_eq. destruct (0 <? n).
  - destruct Hr3 as (-> & Ex3 & HI3). eapply wp_mono; [apply (signalled_ok (with_p_sem xs s2) _ (delete m g) a3 c m HI3); by rewrite Ex3, lookup_insert_eq|].
    rewrite Ex3. intros [[r st] s'] (a' & Hgo). exists a', (delete m g). split; [done|]. split; [done|]. by eapply goes_on_insert.
  - destruct Hr3 as (-> & HI3 & Hw3 & Eo3 & HT3). apply wp_ret. exists a3, (delete m g). split; [done|]. split; [done|].
    split; [done|]. split; [done|]. split; [done|]. split; [done|]. unfold hands_over in *. rewrite <-Ew1, Eo3 by (symmetry; apply Hcm; eauto).
    destruct (waiters (mutex_sem m) (a_lock a)) as [|y l]; [done|]. destruct Hh as [Hy ->]. split; [|done].
    assert (y <> x) as Hne by (intros ->; by apply (not_handed pend a2 x Hpx (mutex_sem m))).
    destruct Hy as (Hy1 & Hy2 & Hy3), (ts_other HT3 y Hne) as [E1 E2]. split; [done|]. by rewrite E1, E2.
Qed.

Lemma cond_signal_resumed s pend g a c m :
  let x := arun a in
  pt_inv idle s pend g a -> pend !! x = Some (PendCond c m (CondSignal 0)) ->
  wp ('(r, xs) ← takesemaphore_resumed (cond_sem c) (p_sem s); cond_wait_signalled m 0 r (with_p_sem xs s))
    (fun '((r, st), s') => exists a', goes_on pend g x m (eq (PendCond c m st)) r s' a').
Proof.
  intros x HI Hp. pose proof (pi_sem HI) as HSR. pose proof (pi_pend HI _ _ Hp) as [P1 P2 P3 P4]. pose proof P3 as ((mu & Hm & Ht) & [n Hn] & Hcm & _).
  pose proof (run_waits_not idle _ a HSR) as Hwn. fold x in Hwn. pose proof HSR as (_ & _ & HS). destruct (sv_count _ _ HS _ _ Hn) as [Hqn _].
  assert (forall m', is_Some (p_mutexes s !! m') -> ~ handed pend a (mutex_sem m') x) as Hnh.
  { intros m' Hm' [Hq _]. unfold pwants in Hq. unfold x in Hp, Hq. rewrite Hp in Hq. apply (Hcm m' Hm'). by injection Hq. }
  destruct (P4 _ eq_refl) as [[? _]|[_ [He|He]]]; [congruence| |]; apply wp_bind.
  - rewrite (resumed_given idle _ a) by (done || apply HI). apply wp_ret. destruct s as [xs ms]. cbn [p_sem with_p_sem p_mutexes] in *.
    assert (pt_inv idle (with_p_sem xs (PtSys xs ms)) (<[x := PendCond c m (CondPreempted 0)]> pend) g a) as HI2.
    { apply (inv_run idle (PtSys xs ms) pend g a xs a (a_errno a x)); try done; fold x.
      - intros y Hy. by rewrite lookup_insert_ne.
      - intros m' Hm'. split; [by apply Hnh|]. intros [Hh _]. unfold pwants in Hh. by rewrite lookup_insert_eq in Hh.
      - rewrite lookup_insert_eq. intros p [= <-]. split; [done|done| |done]. split; [by exists mu|]. by split; [exists n|].
      - apply HI. }
    eapply wp_mono; [apply (signalled_ok _ _ g a c m HI2); by rewrite lookup_insert_eq|].
    intros [[r st] s'] (a' & Hgo). exists a'. by eapply goes_on_insert.
  - rewrite (resumed_again idle _ a) by (done || apply HI). eapply wp_mono; [by apply (cond_take_ok s pend g a c m mu n HI Hm)|].
    intros [r xs] (a3 & Hr3). destruct (0 <? n).
    + destruct Hr3 as (-> & Ex3 & HI3). eapply wp_mono; [apply (signalled_ok (with_p_sem xs s) _ g a3 c m HI3); by rewrite Ex3, lookup_insert_eq|].
      rewrite Ex3. intros [[r st] s'] (a' & Hgo). exists a'. by eapply goes_on_insert.
    + destruct Hr3 as (-> & HI3 & _). apply wp_ret. exists a3. eexists. by split.
Qed.

Lemma cond_wait_resumed_ok s pend g a c m st :
  let x := arun a in
  pt_inv idle s pend g a -> pend !! x = Some (PendCond c m st) ->
  wp (pthread_cond_wait_resumed c m st s) (fun '((r, st'), s') => exists a', goes_on pend g x m (eq (PendCond c m st')) r s' a').
Proof.
  intros x HI Hp. pose proof (pi_pend HI _ _ Hp) as [P1 P2 P3 P4]. pose proof P3 as ((mu & Hm & Ht) & _ & _ & Hst).
  destruct (pi_mutex HI _ _ Hm) as [Hmn _]. destruct st as [ret|ret|ret]; simpl in Hst; subst ret; cbn [pthread_cond_wait_resumed].
  - by apply cond_signal_resumed.
  - apply wp_bind. eapply wp_mono; [by apply (reacquire_ok s pend g a c m HI)|]. intros [r s'] [_ (a' & H)]. apply wp_ret. by exists a'.
  - unfold cond_wait_reacquire_resumed. apply wp_bind, wp_bind. eapply wp_mono; [by apply (resumed_mutex_ok s pend g a m mu _ HI Hm Hp)|].
    intros [r xs] (a' & Hr). destruct r as [ok|].
    + destruct Hr as (-> & Hg & Hx & Hpid & HSR & Hinv). eapply wp_mono; [apply (cond_taken_ok xs m mu s pend g a' x); try done|].
      * intros f Hf. apply Hinv. by rewrite <-Hpid.
      * intros [r s'] (-> & Hr'). apply wp_ret. by exists a'.
    + apply wp_ret, wp_ret. exists a'. eexists. split; [done|]. unfold x. by rewrite insert_id.
Qed.

(** ** pthread_cond_signal and pthread_cond_broadcast *)

Section cond_give.
  Context (s0 : pt_sys) (pend : gmap Z pt_pend) (g : holders) (c : Z).
  Hypothesis Hcm : forall m', is_Some (p_mutexes s0 !! m') -> cond_sem c <> mutex_sem m'.

(** The task is inside a pthread_cond_wait for [c] and waits or was woken. *)
Definition served (a : asched) (y : Z) : Prop := pwants pend y = Some (cond_sem c) /\ (y ∈ waiters (cond_sem c) a \/ handed pend a (cond_sem c) y).

Lemma served_wake s a y : pt_inv idle s pend g a -> waiters (cond_sem c) (a_wake (cond_sem c) a) = tail (waiters (cond_sem c) a) ->
  served a y -> served (a_wake (cond_sem c) a) y.
Proof.
  intros HI Etl [Hp Hy]. split; [done|]. pose proof (pi_sem HI) as (Hr & _ & HS).
  destruct (waiters (cond_sem c) a) as [|z l] eqn:Ew; [|rewrite Etl].
  { unfold a_wake. rewrite Ew. destruct Hy as [Hy|Hy]; [by apply not_elem_of_nil in Hy|by right]. }
  pose proof (step_wake _ a Hr _ z l Ew) as HT. assert (z ∈ waiters (cond_sem c) a) as Hz by (rewrite Ew; left).
  pose proof Hz as [Hwz Hz2]%list_elem_of_filter. destruct (waiting_sem idle s pend g a HI z Hz2) as [Hn _].
  destruct (decide (y = z)) as [->|Hne].
  - right. split; [done|]. rewrite (ts_wait HT), (ts_errno HT). split; [done|]. apply (waiter_pend idle s pend g a HI z (cond_sem c)); [done|congruence|done].
  - destruct Hy as [Hy|(H1 & H2 & H3)]; [left; by apply elem_of_cons in Hy as [?|?]|]. right. split; [done|].
    destruct (ts_other HT y Hne) as [-> ->]. done.
Qed.

Lemma cond_give_ok xs a n :
  pt_inv idle (with_p_sem xs s0) pend g a -> s_sems xs !! cond_sem c = Some n -> n < 0 ->
  wp (pthread_givesemaphore (cond_sem c) xs) (fun '(r, xs') => r = OK /\ s_sems xs' !! cond_sem c = Some (n + 1)
    /\ pt_inv idle (with_p_sem xs' s0) pend g (a_wake (cond_sem c) a) /\ waiters (cond_sem c) (a_wake (cond_sem c) a) = tail (waiters (cond_sem c) a)
    /\ (forall q, q <> cond_sem c -> waiters q (a_wake (cond_sem c) a) = waiters q a)
    /\ (0 < alk a (arun a) -> arun (a_wake (cond_sem c) a) = arun a /\ 0 < alk (a_wake (cond_sem c) a) (arun a))
    /\ (forall y, served a y -> served (a_wake (cond_sem c) a) y)).
Proof.
  intros HI Hn Hneg. pose proof (pi_sem HI) as HSR. cbn [p_sem with_p_sem] in HSR. pose proof HSR as (Hr & [HC _] & _).
  eapply wp_mono; [apply (givesemaphore_ok idle xs a (cond_sem c) n HSR Hn); unfold SEM_VALUE_MAX; lia|].
  intros [r xs'] (-> & Exs & HSR' & Hint & Ew & Eo). split; [done|]. split; [by rewrite Exs, lookup_insert_eq|].
  split; [|split; [done|split; [done|split]]].
  - apply (inv_signal idle (with_p_sem xs s0) pend g a HI (cond_sem c) n xs'); try done; [by rewrite Hint, (pi_int HI)|].
    intros q y. destruct (decide (q = cond_sem c)) as [->|Hq]; [|by rewrite Eo]. rewrite Ew. destruct (waiters (cond_sem c) a); [done|]. by right.
  - intros Hlk. destruct (wake_locked idle _ a (cond_sem c) Hr HC Hlk) as [-> ->]. done.
  - intros y. by eapply served_wake.
Qed.

(** The loop of a broadcast gives one count for each waiter. *)
Lemma broadcast_loop_ok fuel xs a n ret :
  pt_inv idle (with_p_sem xs s0) pend g a -> s_sems xs !! cond_sem c = Some n -> (Z.to_nat (- n) < fuel)%nat -> n <= 0 -> 0 < alk a (arun a) ->
  wp (broadcast_loop fuel c n ret xs) (fun '(r, xs') => (r = ret \/ r = OK) /\ exists a', pt_inv idle (with_p_sem xs' s0) pend g a'
    /\ s_sems xs' !! cond_sem c = Some 0 /\ waiters (cond_sem c) a' = [] /\ (forall q, q <> cond_sem c -> waiters q a' = waiters q a) /\ arun a' = arun a
    /\ forall y, served a y -> served a' y).
Proof.
  revert xs a n ret. induction fuel as [|fuel IH]; intros xs a n ret HI Hn Hf Hle Hlk; [lia|]. cbn [broadcast_loop].
  destruct (Z.ltb_spec n 0) as [Hneg|Hpos].
  - apply wp_bind. eapply wp_mono; [by apply (cond_give_ok xs a n HI Hn Hneg)|]. intros [r xs'] (-> & Hn' & HI' & _ & Eo & Hrun & Hs).
    destruct (Hrun Hlk) as [Ex Hlk']. eapply wp_mono; [apply (IH xs' _ (n + 1) OK HI' Hn'); [lia|lia|by rewrite Ex]|].
    intros [r xs2] (Hr & a2 & HI2 & Hc2 & Hw2 & Eo2 & Ex2 & Hs2). split; [right; by destruct Hr|]. exists a2. split; [done|]. split; [done|]. split; [done|].
    split; [intros q Hq; by rewrite Eo2, Eo|]. split; [by rewrite Ex2|auto].
  - apply wp_ret. assert (n = 0) as -> by lia. split; [by left|]. exists a. split; [done|]. split; [done|]. split; [|done].
    pose proof (pi_sem HI) as (_ & _ & HS). destruct (sv_count _ _ HS _ _ Hn) as (_ & _ & Hl). by destruct (waiters (cond_sem c) a).
Qed.

End cond_give.

Lemma getvalue_ok xs sem n : s_sems xs !! sem = Some n -> sem <> NULL -> sem_getvalue sem (Some 0) xs = Ok (true, Some n, xs).
Proof. intros Hn H0. unfold sem_getvalue. rewrite decide_True by done. by rewrite (deref_Some _ _ n). Qed.

Lemma cond_signal_ok s pend g a c n :
  pt_inv idle s pend g a -> c <> NULL -> s_sems (p_sem s) !! cond_sem c = Some n -> (forall m', is_Some (p_mutexes s !! m') -> cond_sem c <> mutex_sem m') ->
  wp (pthread_cond_signal c s) (fun '(r, s') => r = OK /\ exists a', pt_inv idle s' pend g a'
    /\ waiters (cond_sem c) a' = tail (waiters (cond_sem c) a) /\ (forall q, q <> cond_sem c -> waiters q a' = waiters q a)
    /\ forall y, served pend c a y -> served pend c a' y).
Proof.
  intros HI Hc Hn Hcm. destruct s as [xs ms]. cbn [p_sem p_mutexes] in *. unfold pthread_cond_signal. rewrite decide_False by done.
  cbn [p_sem]. rewrite (getvalue_ok _ _ n) by done. apply wp_bind, wp_ret. cbn [negb default from_option id]. destruct (Z.ltb_spec n 0) as [Hneg|Hpos].
  - apply wp_bind. eapply wp_mono; [by apply (cond_give_ok (PtSys xs ms) pend g c Hcm xs a n)|].
    intros [r xs'] (-> & _ & HI' & Ew & Eo & _ & Hs). apply wp_ret. split; [done|]. by exists (a_wake (cond_sem c) a).
  - apply wp_ret. split; [done|]. exists a. split; [done|]. split; [|done].
    pose proof (pi_sem HI) as (_ & _ & HS). destruct (sv_count _ _ HS _ _ Hn) as (_ & _ & Hl). destruct (waiters (cond_sem c) a); [done|simpl in Hl; lia].
Qed.

Lemma cond_broadcast_ok s pend g a c n :
  pt_inv idle s pend g a -> c <> NULL -> s_sems (p_sem s) !! cond_sem c = Some n -> (forall m', is_Some (p_mutexes s !! m') -> cond_sem c <> mutex_sem m') ->
  alk a (arun a) < MAX_LOCK_COUNT ->
  wp (pthread_cond_broadcast c s) (fun '(r, s') => r = OK /\ exists a', pt_inv idle s' pend g a'
    /\ waiters (cond_sem c) a' = [] /\ (forall q, q <> cond_sem c -> waiters q a' = waiters q a)
    /\ forall y, pwants pend y = Some (cond_sem c) -> y ∈ waiters (cond_sem c) a -> handed pend a' (cond_sem c) y).
Proof.
  intros HI Hc Hn Hcm Hlk. unfold pthread_cond_broadcast. rewrite decide_False by done.
  apply wp_bind. eapply wp_mono; [by apply (inv_lock idle s pend g a)|]. intros k (HI1 & Hlk1 & Ew1). cbv zeta.
  destruct s as [xs ms]. cbn [p_sem p_mutexes with_p_kernel with_p_sem] in *. set (x1 := with_kernel k xs) in *.
  rewrite (getvalue_ok x1 _ n) by done. apply wp_bind, wp_ret. cbn [negb default from_option id]. apply wp_bind.
  apply wp_mono with (P := fun '(r, xs') => r = OK /\ exists a', pt_inv idle (with_p_sem xs' (PtSys x1 ms)) pend g a'
    /\ waiters (cond_sem c) a' = [] /\ (forall q, q <> cond_sem c -> waiters q a' = waiters q (a_lock a)) /\ forall y, served pend c (a_lock a) y -> served pend c a' y).
  - destruct (Z.le_gt_cases n 0) as [Hle|Hgt].
    + eapply wp_mono; [apply (broadcast_loop_ok (PtSys x1 ms) pend g c Hcm _ x1 (a_lock a) n OK); try done; lia|].
      intros [r xs'] ([-> | ->] & a' & H1 & _ & H2 & H3 & _ & H4); (split; [done|]; by exists a').
    + cbn [broadcast_loop]. destruct (Z.ltb_spec n 0); [lia|]. apply wp_ret. split; [done|]. exists (a_lock a). split; [done|]. split; [|done].
      pose proof (pi_sem HI1) as (_ & _ & HS). destruct (sv_count _ _ HS (cond_sem c) n Hn) as (_ & _ & Hl). destruct (waiters (cond_sem c) (a_lock a)); [done|simpl in Hl; lia].
  - intros [r xs'] (-> & a' & HI2 & Hw & Eo & Hs). eapply wp_mono; [by apply (unlock_ret OK _ pend g a' HI2)|].
    intros [r s'] (-> & HI3 & Ew3). split; [done|]. exists (a_unlock a'). split; [done|]. split; [by rewrite Ew3|].
    split; [intros q Hq; by rewrite Ew3, Eo|]. intros y Hp Hy. destruct (Hs y) as [_ [Hy'|Hy']]; [split; [done|left; by rewrite Ew1]| |].
    + rewrite Hw in Hy'. by apply not_elem_of_nil in Hy'.
    + eapply handed_still; [apply still_unlock| |done]. unfold pwants in Hp. destruct (pend !! y) as [p|] eqn:Ep; [|done]. apply (pi_pend HI2 _ _ Ep).
Qed.

(** ** pthread_mutex_init and pthread_mutex_destroy *)

(** A semaphore nobody knew of begins with a count. *)
Lemma sem_inv_new sems a q n : sem_inv sems a -> sems !! q = None -> q <> NULL -> 0 <= n <= SEM_VALUE_MAX -> sem_inv (<[q := n]> sems) a.
Proof.
  intros [A B C D] Hq Hn Hr. split; [|intros x Hx; rewrite lookup_insert; case_decide; eauto|done|done].
  intros s c. rewrite lookup_insert. case_decide as E; [subst s; intros [= <-]|by apply A]. split; [done|]. split; [lia|].
  destruct (waiters q a) as [|x l] eqn:Ew; [simpl; lia|]. exfalso. assert (x ∈ waiters q a) as [Hx1 Hx2]%list_elem_of_filter by (rewrite Ew; left).
  destruct (B x Hx2) as [c Hc]. congruence.
Qed.

Lemma mutex_init_ok s ms pend g a m mu0 attr :
  p_mutexes s = <[m := mu0]> ms -> ms !! m = None -> pt_inv idle (PtSys (p_sem s) ms) pend g a -> m <> NULL -> mutex_sem m <> NULL ->
  s_sems (p_sem s) !! mutex_sem m = None -> g !! m = None ->
  wp (pthread_mutex_init m attr s) (fun '(r, s') => r = OK /\ pt_inv idle s' pend g a /\ is_free s' m = true
    /\ p_mutexes s' = <[m := Mutex 0 (from_option ma_type PTHREAD_MUTEX_DEFAULT attr) 0]> ms).
Proof.
  intros Em Hm HI Hn Hqn Hq Hg. destruct s as [xs ms0]. cbn [p_sem p_mutexes] in *. subst ms0. unfold pthread_mutex_init. rewrite decide_False by done. cbv zeta.
  rewrite (set_mutex_ok _ m _ mu0) by (done || apply lookup_insert_eq). apply wp_bind, wp_ret. cbn [mutex_set p_sem p_mutexes].
  unfold sem_init. rewrite decide_True by (by split). apply wp_bind, wp_ret.
  rewrite (set_mutex_ok _ m _ (set_m_pid 0 mu0)) by (done || (simpl; by rewrite lookup_alter_eq, lookup_insert_eq)). apply wp_bind, wp_ret.
  unfold mutex_set, with_p_sem. cbn [p_sem p_mutexes]. rewrite alter_twice.
  rewrite (set_mutex_ok _ m _ (Mutex 0 (match attr with Some at_ => ma_type at_ | None => PTHREAD_MUTEX_DEFAULT end) (m_nlocks mu0))) by (done || (simpl; by rewrite lookup_alter_eq, lookup_insert_eq)).
  apply wp_bind, wp_ret, wp_ret. unfold mutex_set. cbn [p_sem p_mutexes]. rewrite alter_twice.
  assert (forall f : pthread_mutex_s -> pthread_mutex_s, alter f m (<[m := mu0]> ms) = <[m := f mu0]> ms) as Ea.
  { intros f. apply map_eq. intros i. destruct (decide (m = i)) as [<-|]; [by rewrite lookup_alter_eq, !lookup_insert_eq|by rewrite lookup_alter_ne, !lookup_insert_ne]. }
  rewrite Ea. split; [done|]. split; [|split; [unfold is_free; simpl; by rewrite lookup_insert_eq|by destruct attr]].
  assert (forall y, ~ handed pend a (mutex_sem m) y) as Hnh.
  { intros y [Hw _]. unfold pwants in Hw. destruct (pend !! y) as [p|] eqn:Ep; [|done]. simpl in Hw. pose proof (pd_form _ _ _ _ _ (pi_pend HI _ _ Ep)) as Hf.
    destruct p as [m' pid|c m' st]; simpl in Hf.
    - destruct Hf as [[mu Hmu] _]. injection Hw as Hw%mutex_sem_inj. simplify_eq.
    - destruct Hf as ((mu & Hmu & _) & [n Hc] & _). destruct st; simpl in Hw; [congruence|done|]. injection Hw as Hw%mutex_sem_inj. simplify_eq. }
  destruct HI as [A B C D E F G]. destruct A as (A1 & A2 & A3). cbn [p_sem p_mutexes] in *. split; cbn [p_sem p_mutexes].
  - split; [done|]. split; [done|]. by apply sem_inv_new.
  - done.
  - done.
  - done.
  - intros m' mu'. rewrite lookup_insert. case_decide as Em.
    + subst m'. intros [= <-]. split; [done|]. exists 1, Free. split; [simpl; by rewrite lookup_insert_eq|]. split; try done.
      intros y. split; [by intros ?%Hnh|done].
    + intros Hm'. destruct (E m' mu' Hm') as (E1 & c & sl & E2 & E3). split; [done|]. exists c, sl. split; [|done].
      simpl. rewrite lookup_insert_ne; [done|]. by intros ?%mutex_sem_inj.
  - intros y p Hp. destruct (F y p Hp) as [F1 F2 F3 F4]. split; [done|done| |done]. destruct p as [m' pid|c m' st]; simpl in F3 |- *.
    + destruct F3 as [F3 F5]. split; [|done]. rewrite lookup_insert. case_decide; eauto.
    + destruct F3 as ((mu & F5 & F6) & F7 & F8 & F9). split; [exists mu; by rewrite lookup_insert_ne by congruence|].
      split; [rewrite lookup_insert; case_decide; eauto|]. split; [|done]. intros m2. rewrite lookup_insert. case_decide as E2; [|by apply F8].
      subst m2. intros _ Ec. destruct F7 as [? F7]. congruence.
  - intros m' y. rewrite lookup_insert. case_decide as E2; [|by apply G]. subst m'. intros _ Hy. exfalso.
    apply list_elem_of_filter in Hy as [Hy1 Hy2]. destruct (sv_waits _ _ A3 y Hy2) as [n Hn']. congruence.
Qed.

(** A mutex that is held cannot be destroyed; one that is free can. *)
Lemma mutex_destroy_ok s pend g a m mu :
  pt_inv idle s pend g a -> p_mutexes s !! m = Some mu -> alk a (arun a) < MAX_LOCK_COUNT -> is_free s m = true \/ is_Some (g !! m) ->
  wp (pthread_mutex_destroy m s) (fun '(r, s') => r = (if is_free s m then OK else EBUSY) /\ exists a', pt_inv idle s' pend g a').
Proof.
  intros HI Hm Hlk Hst. destruct (slot_free _ _ _ _ _ _ HI Hm) as (c & sl & Hmn & Hc & Hsl & Hfree & Ef).
  unfold pthread_mutex_destroy. rewrite decide_False by done.
  apply wp_bind. eapply wp_mono; [by apply (inv_lock idle s pend g a)|]. intros k (HI1 & Hlk1 & Ew1). set (s1 := with_p_kernel k s) in *. cbv zeta.
  apply wp_bind. eapply wp_deref; [done|exact Hm|]. pose proof (sl_pid _ _ _ _ _ _ _ _ Hsl) as Hp. rewrite Ef in Hst |- *. apply wp_bind. destruct sl as [|y|y n].
  - rewrite Hp. cbn [Z.eqb negb]. assert (c = 1) as -> by apply (sl_count _ _ _ _ _ _ _ _ Hsl). unfold sem_destroy.
    destruct (sv_count _ _ (proj2 (proj2 (pi_sem HI))) _ _ Hc) as [Hqn _]. rewrite decide_True by done. change (s_sems (p_sem s1)) with (s_sems (p_sem s)).
    rewrite (deref_Some _ _ 1) by done. cbn [mbind res_bind]. cbn [Z.leb Z.compare]. rewrite store_valid by (by split; eauto). cbn [mbind res_bind]. apply wp_ret.
    assert (with_p_sem (with_sems (alter (fun _ => 1) (mutex_sem m) (s_sems (p_sem s))) (p_sem s1)) s1 = s1) as ->.
    { rewrite (alter_count _ _ 1) by done. rewrite insert_id by done. unfold s1. by destruct s as [[]]. }
    eapply wp_mono; [by apply (unlock_ret OK)|]. intros [r s'] (-> & HI' & _). eauto.
  - exfalso. destruct Hst as [Hst|[? Hst]]; [by apply Z.ltb_lt, Hfree in Hst|]. by rewrite (sl_holder _ _ _ _ _ _ _ _ Hsl) in Hst.
  - destruct (sl_depth _ _ _ _ _ _ _ _ Hsl) as (Hy1 & Hy2 & _). pose proof (pi_pid0 HI y Hy1 Hy2) as Hp0. rewrite <-Hp in Hp0.
    destruct (Z.eqb_spec (m_pid mu) 0) as [|_]; [done|]. apply wp_ret. pose proof (sl_count _ _ _ _ _ _ _ _ Hsl) as Hc0. cbn in Hc0.
    destruct (Z.ltb_spec 0 c); [lia|]. eapply wp_mono; [by apply (unlock_ret EBUSY)|]. intros [r s'] (-> & HI' & _). eauto.
Qed.

End calls.
