(* ===== verification/PthreadThm.v ===== *)
(** * Mutexes and condition variables: theorems

    Mutual exclusion along any sequence of calls by any tasks, with waits that
    signals interrupt; what each call returns and whom it wakes; and runs of the
    code in which a recursive mutex or a destroyed one lets two tasks in. *)

From stdpp Require Import sorting.
From S2P Require Import Prelude Queue Sched SchedInv SchedOps SchedSpec SchedThm Sem SemSpec SemThm Pthread PthreadSpec PthreadCalls.

Section thm.
  Context {SC : SchedConfig}.

(** ** Sequences of calls *)

Record pt_world : Type := PtWorld { pw_sys : pt_sys; pw_pend : gmap Z pt_pend }.

(** The calls of the running task; [PResume] goes on with the call it is inside
    of, and [PInterrupt x] is a signal that ends the wait of the task [x]. *)
Inductive pt_call : Type :=
| PLock (m : ptr)
| PTryLock (m : ptr)
| PUnlock (m : ptr)
| PDestroy (m : ptr)
| PWait (c m : ptr)
| PSignal (c : ptr)
| PBroadcast (c : ptr)
| PResume
| PInterrupt (x : Z).

Definition pt_self (s : pt_sys) : Z := sched_self (p_kernel s).

Definition acquired (x m code : Z) : list pt_event := if code =? OK then [Acquire x m] else [].

(** Run a call; the events are read off what the call returns. *)
Definition pt_exec (c : pt_call) (w : pt_world) : res (list pt_event * pt_world) :=
  let s := pw_sys w in
  let x := pt_self s in
  match c with
  | PLock m =>
      '(r, s) ← pthread_mutex_lock m s;
      pid ← getpid (p_kernel (pw_sys w));
      Ok (match r with
          | PtRet code => (acquired x m code, PtWorld s (pw_pend w))
          | _ => ([], PtWorld s (<[x := PendLock m pid]> (pw_pend w)))
          end)
  | PTryLock m => '(code, s) ← pthread_mutex_trylock m s; Ok (acquired x m code, PtWorld s (pw_pend w))
  | PUnlock m =>
      '(code, s) ← pthread_mutex_unlock m s;
      Ok (if code =? OK then [Release x m] else [], PtWorld s (pw_pend w))
  | PDestroy m => '(_, s) ← pthread_mutex_destroy m s; Ok ([], PtWorld s (pw_pend w))
  | PWait c m =>
      '((r, st), s) ← pthread_cond_wait c m s;
      Ok (match r with
          | PtRet code =>
              (if (code =? EINVAL) || (code =? EPERM) then [] else Release x m :: acquired x m code, PtWorld s (pw_pend w))
          | _ => ([Release x m], PtWorld s (<[x := PendCond c m st]> (pw_pend w)))
          end)
  | PSignal c => '(_, s) ← pthread_cond_signal c s; Ok ([], PtWorld s (pw_pend w))
  | PBroadcast c => '(_, s) ← pthread_cond_broadcast c s; Ok ([], PtWorld s (pw_pend w))
  | PResume =>
      match pw_pend w !! x with
      | Some (PendLock m pid) =>
          '(r, s) ← pthread_mutex_lock_resumed m pid s;
          Ok (match r with
              | PtRet code => (acquired x m code, PtWorld s (delete x (pw_pend w)))
              | _ => ([], PtWorld s (pw_pend w))
              end)
      | Some (PendCond c m st) =>
          '((r, st), s) ← pthread_cond_wait_resumed c m st s;
          Ok (match r with
              | PtRet code => (acquired x m code, PtWorld s (delete x (pw_pend w)))
              | _ => ([], PtWorld s (<[x := PendCond c m st]> (pw_pend w)))
              end)
      | None => Ok ([], w)
      end
  | PInterrupt x => '(_, xs) ← sem_waitirq x EINTR (p_sem s); Ok ([], PtWorld (with_p_sem xs s) (pw_pend w))
  end.

Definition pt_locks (s : pt_sys) : Z := from_option lockcount 0 (k_tcbs (p_kernel s) !! pt_self s).

(** A condition variable: a semaphore that is not a mutex's. *)
Definition cond_known (s : pt_sys) (c : ptr) : bool :=
  bool_decide (is_Some (s_sems (p_sem s) !! cond_sem c)) && bool_decide (p_mutexes s !! (cond_sem c - 4) = None).

(** The callers' contract: a task inside a call makes no other, and the idle
    task waits for nothing; mutexes and condition variables are initialised; the
    lock counters have room; only mutexes that are not recursive are tried or
    used with condition variables; and a mutex on its way to a waiter is not
    destroyed. *)
Definition pt_legal (idle : Z) (c : pt_call) (w : pt_world) : bool :=
  let s := pw_sys w in
  let x := pt_self s in
  let ready := bool_decide (pw_pend w !! x = None) && (pt_locks s <? MAX_LOCK_COUNT) in
  let task := ready && negb (bool_decide (x = idle)) in
  let known m := match p_mutexes s !! m with Some mu => m_nlocks mu <? 2 ^ 31 - 1 | None => false end in
  let plain m := match p_mutexes s !! m with Some mu => negb (m_type mu =? PTHREAD_MUTEX_RECURSIVE) | None => false end in
  match c with
  | PLock m => task && (bool_decide (m = NULL) || known m)
  | PTryLock m => task && (bool_decide (m = NULL) || plain m)
  | PUnlock m => task && (bool_decide (m = NULL) || known m)
  | PDestroy m => ready && (bool_decide (m = NULL) || match p_mutexes s !! m with Some mu => is_free s m || negb (m_pid mu =? 0) | None => false end)
  | PWait c m => task && (bool_decide (c = NULL) || bool_decide (m = NULL) || cond_known s c && plain m)
  | PSignal c => ready && (bool_decide (c = NULL) || cond_known s c)
  | PBroadcast c => ready && (bool_decide (c = NULL) || cond_known s c)
  | PResume => bool_decide (is_Some (pw_pend w !! x))
  | PInterrupt x => bool_decide (x ∈ members TL_waitingforsemaphore (p_kernel s))
  end.

Fixpoint pt_run (idle : Z) (cs : list pt_call) (w : pt_world) : res (option (list pt_event * pt_world)) :=
  match cs with
  | [] => Ok (Some ([], w))
  | c :: cs =>
      if pt_legal idle c w then
        '(es, w) ← pt_exec c w;
        r ← pt_run idle cs w;
        Ok (match r with Some (es', w) => Some (es ++ es', w) | None => None end)
      else Ok None
  end.

Lemma self_eq s a : refines (p_kernel s) a -> pt_self s = arun a.
Proof. intros Hr. apply (ref_run _ a Hr). Qed.

Lemma pt_locks_eq s a : refines (p_kernel s) a -> pt_locks s = alk a (arun a).
Proof.
  intros Hr. unfold pt_locks. rewrite (self_eq s a Hr). destruct Hr as (_ & ET & _). unfold alk, lockc. rewrite <-ET, lookup_fmap.
  by destruct (k_tcbs (p_kernel s) !! arun a).
Qed.

Lemma cond_known_ok s c : cond_known s c = true ->
  (exists n, s_sems (p_sem s) !! cond_sem c = Some n) /\ (forall m', is_Some (p_mutexes s !! m') -> cond_sem c <> mutex_sem m').
Proof.
  intros [[n Hn]%bool_decide_eq_true H2%bool_decide_eq_true]%andb_true_iff. split; [by exists n|]. intros m' [mu Hm'] E.
  rewrite E in H2. unfold mutex_sem in H2. replace (m' + 4 - 4) with m' in H2 by lia. congruence.
Qed.

Lemma replay_app es1 es2 g : replay (es1 ++ es2) g = (g ← replay es1 g; replay es2 g).
Proof. revert g. induction es1 as [|e es1 IH]; intros g; [done|]. simpl. destruct (replay1 e g); [|done]. simpl. apply IH. Qed.

(** ** One call *)

Definition world_ok (idle : Z) (w : pt_world) (g : holders) : Prop := exists a, pt_inv idle (pw_sys w) (pw_pend w) g a.

Definition step_ok (idle : Z) (g : holders) (r : list pt_event * pt_world) : Prop := exists g', replay r.1 g = Some g' /\ world_ok idle r.2 g'.

Lemma step_quiet idle g s pend a : pt_inv idle s pend g a -> step_ok idle g ([], PtWorld s pend).
Proof. intros HI. exists g. split; [done|]. by exists a. Qed.

Lemma step_one idle g g' e s pend a : replay1 e g = Some g' -> pt_inv idle s pend g' a -> step_ok idle g ([e], PtWorld s pend).
Proof. intros He HI. exists g'. simpl. rewrite He. split; [done|]. by exists a. Qed.

(** A call goes on and returns the mutex or waits. *)
Lemma step_goes idle g s pend x m p0 r a : goes_on idle pend g x m (eq p0) r s a ->
  step_ok idle g (match r with PtRet code => (acquired x m code, PtWorld s (delete x pend)) | _ => ([], PtWorld s (<[x := p0]> pend)) end).
Proof.
  unfold goes_on. destruct r as [code| |].
  - intros (-> & g' & He & HI). by eapply step_one.
  - intros (p & <- & HI). by eapply step_quiet.
  - intros (p & <- & HI). by eapply step_quiet.
Qed.

Section exec.
  Context (idle : Z) (s : pt_sys) (pend : gmap Z pt_pend) (g : holders) (a : asched).
  Hypothesis HI : pt_inv idle s pend g a.
  Notation x := (arun a).

Lemma exec_lock m mu : p_mutexes s !! m = Some mu -> x <> idle -> pend !! x = None -> alk a x < MAX_LOCK_COUNT -> m_nlocks mu < 2 ^ 31 - 1 ->
  wp ('(r, s') ← pthread_mutex_lock m s; pid ← getpid (p_kernel s);
      Ok (match r with PtRet code => (acquired x m code, PtWorld s' pend) | _ => ([], PtWorld s' (<[x := PendLock m pid]> pend)) end)) (step_ok idle g).
Proof.
  intros Hm Hi Hp Hlk Hn. unfold p_kernel. rewrite (pid_read idle _ a (pi_sem HI)). apply wp_bind.
  eapply wp_mono; [by apply (mutex_lock_ok idle s pend g a m mu)|]. intros [r s'] (a' & Hr). cbn [mbind res_bind]. apply wp_ret.
  destruct (holds g m x); [destruct (m_type mu =? PTHREAD_MUTEX_RECURSIVE)|destruct (is_free s m)].
  - destruct Hr as (-> & g' & He & HI'). by eapply step_one.
  - destruct Hr as (-> & HI'). by eapply step_quiet.
  - destruct Hr as (-> & g' & He & HI'). by eapply step_one.
  - destruct Hr as (-> & HI' & _). by eapply step_quiet.
Qed.

Lemma exec_trylock m mu : p_mutexes s !! m = Some mu -> x <> idle -> pend !! x = None -> alk a x < MAX_LOCK_COUNT -> m_type mu <> PTHREAD_MUTEX_RECURSIVE ->
  wp ('(code, s') ← pthread_mutex_trylock m s; Ok (acquired x m code, PtWorld s' pend)) (step_ok idle g).
Proof.
  intros Hm Hi Hp Hlk Ht. apply wp_bind. eapply wp_mono; [by apply (mutex_trylock_ok idle s pend g a m mu)|]. intros [r s'] (a' & Hr). apply wp_ret.
  destruct (is_free s m); [destruct Hr as (-> & g' & He & HI'); by eapply step_one|destruct Hr as (-> & HI'); by eapply step_quiet].
Qed.

Lemma exec_unlock m mu : p_mutexes s !! m = Some mu -> x <> idle -> alk a x < MAX_LOCK_COUNT ->
  wp ('(code, s') ← pthread_mutex_unlock m s; Ok (if code =? OK then [Release x m] else [], PtWorld s' pend)) (step_ok idle g).
Proof.
  intros Hm Hi Hlk. apply wp_bind. eapply wp_mono; [by apply (mutex_unlock_ok idle s pend g a m mu)|]. intros [r s'] (a' & Hr). apply wp_ret.
  destruct (holds g m x); [destruct Hr as (-> & g' & He & HI' & _); by eapply step_one|destruct Hr as (-> & HI'); by eapply step_quiet].
Qed.

Lemma exec_wait c m mu n : p_mutexes s !! m = Some mu -> m_type mu <> PTHREAD_MUTEX_RECURSIVE -> c <> NULL -> s_sems (p_sem s) !! cond_sem c = Some n ->
  (forall m', is_Some (p_mutexes s !! m') -> cond_sem c <> mutex_sem m') -> x <> idle -> pend !! x = None -> alk a x < MAX_LOCK_COUNT ->
  wp ('((r, st), s') ← pthread_cond_wait c m s;
      Ok (match r with
          | PtRet code => (if (code =? EINVAL) || (code =? EPERM) then [] else Release x m :: acquired x m code, PtWorld s' pend)
          | _ => ([Release x m], PtWorld s' (<[x := PendCond c m st]> pend))
          end)) (step_ok idle g).
Proof.
  intros Hm Ht Hc Hn Hcm Hi Hp Hlk. apply wp_bind. eapply wp_mono; [by apply (cond_wait_ok idle s pend g a c m mu n)|].
  intros [[r st] s'] (a' & Hr). apply wp_ret. destruct (holds g m x); [|destruct Hr as [-> ->]; by eapply step_quiet].
  destruct Hr as (g1 & He & _ & Hr).
  assert (forall es w', step_ok idle g1 (es, w') -> step_ok idle g (Release x m :: es, w')) as Hcons.
  { intros es w' (g' & Hg' & Hw). exists g'. split; [|done]. cbn [fst replay]. by rewrite He. }
  destruct (0 <? n).
  - pose proof (step_goes idle g1 s' pend x m (PendCond c m st) r a' Hr) as Hs. destruct r as [code| |]; [|by apply Hcons..].
    destruct Hr as [-> _]. rewrite delete_id in Hs by done. by apply Hcons.
  - destruct Hr as (-> & -> & HI' & _). apply Hcons. by eapply step_quiet.
Qed.

Lemma exec_resume p : pend !! x = Some p -> wp (pt_exec PResume (PtWorld s pend)) (step_ok idle g).
Proof.
  intros Hp. cbn [pt_exec pw_sys pw_pend]. rewrite (self_eq s a) by apply (pi_sem HI). rewrite Hp. destruct p as [m pid|c m st]; apply wp_bind.
  - eapply wp_mono; [by apply (mutex_lock_resumed_ok idle s pend g a m pid)|]. intros [r s'] (_ & a' & Hr). apply wp_ret.
    apply step_goes in Hr. by rewrite insert_id in Hr.
  - eapply wp_mono; [by apply (cond_wait_resumed_ok idle s pend g a c m st)|]. intros [[r st'] s'] (a' & Hr). apply wp_ret. by apply step_goes in Hr.
Qed.

Lemma exec_interrupt y : y ∈ as_lists a TL_waitingforsemaphore -> wp (pt_exec (PInterrupt y) (PtWorld s pend)) (step_ok idle g).
Proof.
  intros Hy. cbn [pt_exec pw_sys pw_pend]. apply wp_bind. eapply wp_mono; [by apply (sem_waitirq_ok idle (p_sem s) a y EINTR (pi_sem HI))|].
  intros [b xs] (a' & H1 & H2 & H3 & _ & _ & _ & Exs & ->). apply wp_ret. eapply step_quiet. apply (inv_cancel idle s pend g a HI y xs); try done.
  - unfold a_cancel, a_unblock, a_enter. case_match; apply (pi_int HI).
  - intros q z. destruct (decide (q = a_wait a y)) as [->|Hq].
    + apply (f_equal cs_queue) in H2. simpl in H2. rewrite H2. apply list_rem_elem.
    + specialize (H3 q Hq). apply (f_equal cs_queue) in H3. simpl in H3. by rewrite H3.
Qed.

End exec.

Lemma exec_destroy idle s pend g a (HI : pt_inv idle s pend g a) m mu : p_mutexes s !! m = Some mu -> alk a (arun a) < MAX_LOCK_COUNT ->
  is_free s m || negb (m_pid mu =? 0) = true -> wp ('(_, s') ← pthread_mutex_destroy m s; Ok ([], PtWorld s' pend)) (step_ok idle g).
Proof.
  intros Hm Hlk Hf. apply wp_bind. eapply wp_mono; [apply (mutex_destroy_ok idle s pend g a m mu HI Hm Hlk)|].
  - apply orb_true_iff in Hf as [Hf|Hf]; [by left|right]. apply negb_true_iff, Z.eqb_neq in Hf.
    destruct (pi_mutex HI _ _ Hm) as (_ & c & sl & _ & [_ B C _ _]). destruct sl; [done|done|]. rewrite C. eauto.
  - intros [r s'] (_ & a' & HI'). apply wp_ret. by eapply step_quiet.
Qed.

Lemma legal_ready s (pend : gmap Z pt_pend) a : refines (p_kernel s) a ->
  bool_decide (pend !! pt_self s = None) && (pt_locks s <? MAX_LOCK_COUNT) = true -> pend !! arun a = None /\ alk a (arun a) < MAX_LOCK_COUNT.
Proof.
  intros Hr [H1%bool_decide_eq_true H2%Z.ltb_lt]%andb_true_iff. rewrite (self_eq s a Hr) in H1. by rewrite (pt_locks_eq s a Hr) in H2.
Qed.

Lemma pt_exec_ok idle c s pend g a :
  pt_inv idle s pend g a -> pt_legal idle c (PtWorld s pend) = true -> wp (pt_exec c (PtWorld s pend)) (step_ok idle g).
Proof.
  intros HI Hl. pose proof (pi_sem HI) as (Hr & _ & _). unfold pt_legal in Hl. cbn [pw_sys pw_pend] in Hl.
  pose proof (legal_ready s pend a Hr) as Hrd. pose proof (self_eq s a Hr) as Ex.
  assert (forall b, bool_decide (pend !! pt_self s = None) && (pt_locks s <? MAX_LOCK_COUNT) && negb (bool_decide (pt_self s = idle)) && b = true ->
    pend !! arun a = None /\ alk a (arun a) < MAX_LOCK_COUNT /\ arun a <> idle /\ b = true) as Htask.
  { intros b [[H1 H2]%andb_true_iff Hb]%andb_true_iff. destruct (Hrd H1). rewrite Ex in H2. by apply negb_true_iff, bool_decide_eq_false in H2. }
  pose proof (step_quiet idle g s pend a HI) as Hq.
  destruct c as [m|m|m|m|c m|c|c| |y].
  - apply Htask in Hl as (Hp & Hk & Hi & [->%bool_decide_eq_true|Hm]%orb_true_iff).
    + cbn [pt_exec pw_sys pw_pend]. unfold pthread_mutex_lock, p_kernel. by rewrite (pid_read idle _ a (pi_sem HI)).
    + destruct (p_mutexes s !! m) as [mu|] eqn:Em; [|done]. apply Z.ltb_lt in Hm. cbn [pt_exec pw_sys pw_pend]. rewrite Ex. by apply (exec_lock idle s pend g a HI m mu).
  - apply Htask in Hl as (Hp & Hk & Hi & [->%bool_decide_eq_true|Hm]%orb_true_iff); [done|].
    destruct (p_mutexes s !! m) as [mu|] eqn:Em; [|done]. apply negb_true_iff, Z.eqb_neq in Hm. cbn [pt_exec pw_sys pw_pend]. rewrite Ex. by apply (exec_trylock idle s pend g a HI m mu).
  - apply Htask in Hl as (Hp & Hk & Hi & [->%bool_decide_eq_true|Hm]%orb_true_iff); [done|].
    destruct (p_mutexes s !! m) as [mu|] eqn:Em; [|done]. cbn [pt_exec pw_sys pw_pend]. rewrite Ex. by apply (exec_unlock idle s pend g a HI m mu).
  - apply andb_true_iff in Hl as [[Hp Hk]%Hrd [->%bool_decide_eq_true|Hm]%orb_true_iff]; [done|].
    destruct (p_mutexes s !! m) as [mu|] eqn:Em; [|done]. cbn [pt_exec pw_sys pw_pend]. by apply (exec_destroy idle s pend g a HI m mu).
  - apply Htask in Hl as (Hp & Hk & Hi & [[->%bool_decide_eq_true | ->%bool_decide_eq_true]%orb_true_iff|[Hc Hm]%andb_true_iff]%orb_true_iff).
    + done.
    + cbn [pt_exec pw_sys pw_pend]. unfold pthread_cond_wait. by rewrite decide_True by by right.
    + destruct (decide (c = NULL)) as [->|Hcn]; [done|]. destruct (cond_known_ok _ _ Hc) as [[n Hn] Hcm]. destruct (p_mutexes s !! m) as [mu|] eqn:Em; [|done].
      apply negb_true_iff, Z.eqb_neq in Hm. cbn [pt_exec pw_sys pw_pend]. rewrite Ex. by apply (exec_wait idle s pend g a HI c m mu n).
  - apply andb_true_iff in Hl as [[Hp Hk]%Hrd [->%bool_decide_eq_true|Hc]%orb_true_iff]; [done|]. destruct (decide (c = NULL)) as [->|Hcn]; [done|].
    destruct (cond_known_ok _ _ Hc) as [[n Hn] Hcm]. cbn [pt_exec pw_sys pw_pend]. apply wp_bind.
    eapply wp_mono; [by apply (cond_signal_ok idle s pend g a c n HI)|]. intros [r s'] (_ & a' & HI' & _). apply wp_ret. by eapply step_quiet.
  - apply andb_true_iff in Hl as [[Hp Hk]%Hrd [->%bool_decide_eq_true|Hc]%orb_true_iff]; [done|]. destruct (decide (c = NULL)) as [->|Hcn]; [done|].
    destruct (cond_known_ok _ _ Hc) as [[n Hn] Hcm]. cbn [pt_exec pw_sys pw_pend]. apply wp_bind.
    eapply wp_mono; [by apply (cond_broadcast_ok idle s pend g a c n HI)|]. intros [r s'] (_ & a' & HI' & _). apply wp_ret. by eapply step_quiet.
  - apply bool_decide_eq_true in Hl as [p Hp]. rewrite Ex in Hp. by eapply exec_resume.
  - apply bool_decide_eq_true in Hl. rewrite (members_list _ _ a Hr) in Hl. by eapply exec_interrupt.
Qed.

Lemma pt_run_ok idle cs w g :
  world_ok idle w g -> wp (pt_run idle cs w) (fun o => forall es w', o = Some (es, w') -> step_ok idle g (es, w')).
Proof.
  revert w g. induction cs as [|c cs IH]; intros [s pend] g HW; simpl.
  - intros es w' [= <- <-]. by exists g.
  - destruct (pt_legal idle c (PtWorld s pend)) eqn:El; [|done]. destruct HW as [a HI]. apply wp_bind. eapply wp_mono; [by apply (pt_exec_ok idle c s pend g a)|].
    intros [es1 w1] (g1 & He1 & HW1). apply wp_bind. eapply wp_mono; [by apply (IH w1 g1)|]. intros [[es2 w2]|] Ho; [|done].
    intros es w' [= <- <-]. destruct (Ho _ _ eq_refl) as (g2 & He2 & HW2). exists g2. split; [|done]. cbn [fst] in *. rewrite replay_app, He1. done.
Qed.

(** C22: mutual exclusion: along any sequence of legal calls by any tasks, with
    tasks that wait for mutexes and condition variables, are woken, interrupted
    by signals and preempted, no call faults, and whenever pthread_mutex_lock,
    pthread_mutex_trylock or pthread_cond_wait returns success to a task, no
    other task holds the mutex; a mutex is released only by its holder. *)
Theorem mutex_exclusion idle cs w g :
  world_ok idle w g ->
  wp (pt_run idle cs w) (fun o => forall es w', o = Some (es, w') -> exists g', replay es g = Some g' /\ world_ok idle w' g').
Proof. intros HW. eapply wp_mono; [by apply (pt_run_ok idle cs w g)|]. intros o Ho es w' Hw. apply (Ho es w' Hw). Qed.

(** C23: pthread_mutex_lock by a task that holds the mutex succeeds when the mutex
    is recursive and returns EDEADLK when it checks errors; by another task it
    takes a free mutex of any type at once and otherwise makes the caller wait, in
    the queue of the mutex.  A task that locks a PTHREAD_MUTEX_NORMAL mutex again
    is left out: the description has it deadlock, see [normal_relock_returns]. *)
Theorem mutex_lock_verdict idle s pend g a m mu :
  let x := arun a in
  pt_inv idle s pend g a -> p_mutexes s !! m = Some mu -> x <> idle -> pend !! x = None -> alk a x < MAX_LOCK_COUNT -> m_nlocks mu < 2 ^ 31 - 1 ->
  (holds g m x = true -> m_type mu = PTHREAD_MUTEX_RECURSIVE \/ m_type mu = PTHREAD_MUTEX_ERRORCHECK) ->
  wp (pthread_mutex_lock m s) (fun '(r, s') => exists a',
    if holds g m x then
      if m_type mu =? PTHREAD_MUTEX_RECURSIVE then r = PtRet OK /\ exists g', replay1 (Acquire x m) g = Some g' /\ pt_inv idle s' pend g' a'
      else r = PtRet EDEADLK /\ pt_inv idle s' pend g a'
    else if is_free s m then r = PtRet OK /\ exists g', replay1 (Acquire x m) g = Some g' /\ pt_inv idle s' pend g' a'
    else r = PtBlocked /\ pt_inv idle s' (<[x := PendLock m (a_pid a x)]> pend) g a' /\ x ∈ waiters (mutex_sem m) a').
Proof. intros x HI Hm Hi Hp Hlk Hn _. by apply (mutex_lock_ok idle s pend g a m mu). Qed.

(** Pthread_mutex_unlock by the holder releases one lock, and with the last
    one hands the mutex to the first waiter, which has the highest priority
    among the waiters, while the others keep waiting; by any other task it
    returns EPERM and changes nothing. *)
Theorem mutex_unlock_hands_over idle s pend g a m mu :
  let x := arun a in
  pt_inv idle s pend g a -> p_mutexes s !! m = Some mu -> x <> idle -> alk a x < MAX_LOCK_COUNT ->
  wp (pthread_mutex_unlock m s) (fun '(r, s') => exists a',
    if holds g m x then r = OK /\ exists g', replay1 (Release x m) g = Some g' /\ pt_inv idle s' pend g' a'
      /\ (g' !! m = None -> hands_over pend m a a' /\ sorted (apr a) (waiters (mutex_sem m) a))
    else r = EPERM /\ pt_inv idle s' pend g a').
Proof.
  intros x HI Hm Hi Hlk. pose proof (waiters_sorted idle a (mutex_sem m) (proj1 (proj1 (proj2 (pi_sem HI))))) as Hs.
  eapply wp_mono; [by apply (mutex_unlock_ok idle s pend g a m mu)|]. intros [r s'] (a' & Hr). exists a'. fold x in Hr. destruct (holds g m x); [|done].
  destruct Hr as (-> & g' & He & HI' & Hh). split; [done|]. exists g'. split; [done|]. split; [done|]. intros Hg. by split; [apply Hh|].
Qed.

(** A task that was handed a mutex returns from pthread_mutex_lock with it as
    soon as it runs: it never waits again and never fails, whatever other tasks
    did in between. *)
Theorem mutex_handed_acquires idle s pend g a m pid :
  let x := arun a in
  pt_inv idle s pend g a -> pend !! x = Some (PendLock m pid) -> handed pend a (mutex_sem m) x ->
  wp (pthread_mutex_lock_resumed m pid s) (fun '(r, s') => r = PtRet OK /\ exists a', pt_inv idle s' (delete x pend) (<[m := (x, 1)]> g) a').
Proof.
  intros x HI Hp (_ & _ & He). destruct (pd_form _ _ _ _ _ (pi_pend HI _ _ Hp)) as [[mu Hm] ->]. destruct (pi_mutex HI _ _ Hm) as [Hmn _].
  pose proof (resumed_mutex_ok idle s pend g a m mu _ HI Hm Hp eq_refl) as Hr. unfold pthread_mutex_lock_resumed.
  rewrite (resumed_given idle _ a) in Hr |- * by (done || apply HI). destruct Hr as (a' & _ & _ & _ & _ & _ & Hinv).
  apply wp_bind, wp_ret. by apply (lock_taken_ok idle (p_sem s) m mu (a_pid a x) s pend g a' x).
Qed.

(** pthread_cond_wait on a condition variable without counts releases the
    mutex, hands it to its first waiter and makes the caller wait for the
    condition in one step, so that no signal sent after the release is lost;
    without the mutex it returns EPERM and changes nothing. *)
Theorem cond_wait_atomic idle s pend g a c m mu n :
  let x := arun a in
  pt_inv idle s pend g a -> p_mutexes s !! m = Some mu -> m_type mu <> PTHREAD_MUTEX_RECURSIVE -> c <> NULL ->
  s_sems (p_sem s) !! cond_sem c = Some n -> n <= 0 -> (forall m', is_Some (p_mutexes s !! m') -> cond_sem c <> mutex_sem m') ->
  x <> idle -> pend !! x = None -> alk a x < MAX_LOCK_COUNT ->
  wp (pthread_cond_wait c m s) (fun '((r, st), s') =>
    if holds g m x then r = PtBlocked /\ st = CondSignal 0 /\ exists g' a', replay1 (Release x m) g = Some g'
      /\ pt_inv idle s' (<[x := PendCond c m st]> pend) g' a' /\ x ∈ waiters (cond_sem c) a' /\ hands_over pend m a a'
    else r = PtRet EPERM /\ s' = s).
Proof.
  intros x HI Hm Ht Hc Hn Hle Hcm Hi Hp Hlk. eapply wp_mono; [by apply (cond_wait_ok idle s pend g a c m mu n)|].
  intros [[r st] s'] (a' & Hr). fold x in Hr. destruct (holds g m x); [|done]. destruct Hr as (g1 & He & _ & Hr).
  destruct (Z.ltb_spec 0 n); [lia|]. destruct Hr as (-> & -> & HI' & Hw & Hh). eauto 10.
Qed.

(** A call of pthread_cond_broadcast wakes every task that waits for the condition and
    no other task: the queue of the condition is empty afterwards, each task
    that was in it has been given a count, and the queues of all other
    semaphores and mutexes are as before. *)
Theorem cond_broadcast_wakes_all idle s pend g a c n :
  pt_inv idle s pend g a -> c <> NULL -> s_sems (p_sem s) !! cond_sem c = Some n -> (forall m', is_Some (p_mutexes s !! m') -> cond_sem c <> mutex_sem m') ->
  alk a (arun a) < MAX_LOCK_COUNT ->
  wp (pthread_cond_broadcast c s) (fun '(r, s') => r = OK /\ exists a', pt_inv idle s' pend g a'
    /\ waiters (cond_sem c) a' = [] /\ (forall q, q <> cond_sem c -> waiters q a' = waiters q a)
    /\ forall y, pwants pend y = Some (cond_sem c) -> y ∈ waiters (cond_sem c) a -> handed pend a' (cond_sem c) y).
Proof. apply cond_broadcast_ok. Qed.

End thm.

(** ** A system with two mutexes and a condition variable *)

(** The kernel of [demo_kernel]: the running task is 32, with pid 1; the task 80
    waits for the condition variable 512, to take the mutex 1000 again; nobody
    waits for 520.  That
    mutex is free, held by 32, or was handed to 32, as [sl] says; the recursive
    mutex 1100 is free. *)
Definition demo_count (sl : slot) : Z := match sl with Free => 1 | _ => 0 end.
Definition demo_pid (sl : slot) : Z := match sl with Held _ _ => 1 | _ => 0 end.
Definition demo_pt (sl : slot) : pt_sys :=
  PtSys (SemSys (set_tcbs demo_sem_tcbs (demo_kernel 0)) (list_to_map [(512, -1); (520, 0); (1004, demo_count sl); (1104, 1)]) 0)
    (list_to_map [(1000, Mutex (demo_pid sl) PTHREAD_MUTEX_NORMAL 0); (1100, Mutex 0 PTHREAD_MUTEX_RECURSIVE 0)]).
Definition demo_pend (sl : slot) : gmap Z pt_pend :=
  match sl with
  | Handed x => <[x := PendLock 1000 1]> {[80 := PendCond 512 1000 (CondSignal 0)]}
  | _ => {[80 := PendCond 512 1000 (CondSignal 0)]}
  end.
Definition demo_holders (sl : slot) : holders := match sl with Held x n => {[1000 := (x, n)]} | _ => ∅ end.

Definition demo_slot (sl : slot) : Prop := sl = Free \/ sl = Handed 32 \/ sl = Held 32 1.

Lemma demo_keys x : is_Some (as_tasks demo_sem_sched !! x) -> x ∈ [16; 32; 48; 64; 80; 96].
Proof.
  intros Hx. apply elem_of_dom in Hx. assert (dom (as_tasks demo_sem_sched) ⊆ (list_to_set [16; 32; 48; 64; 80; 96] : gset Z)) as Hs
    by (apply (bool_decide_unpack _); vm_compute; exact I).
  apply Hs in Hx. by apply elem_of_list_to_set in Hx.
Qed.

Lemma demo_pt_sem sl : demo_slot sl -> sem_refines 16 (p_sem (demo_pt sl)) demo_sem_sched.
Proof.
  intros Hsl. destruct demo_sys_ok as (H1 & H2 & [A B C D]). split; [exact H1|]. split; [exact H2|]. split.
  - intros q c Hq. apply elem_of_list_to_map_2 in Hq. set_unfold in Hq. destruct Hq as [[= -> ->]|[[= -> ->]|[[= -> ->]|[[= -> ->]|[]]]]];
      destruct Hsl as [-> |[-> | ->]]; vm_compute; by repeat split.
  - intros x Hx. simpl in Hx. apply list_elem_of_singleton in Hx as ->. vm_compute. eauto.
  - exact C.
  - exact D.
Qed.

#[local] Ltac keys H := apply demo_keys in H; repeat (apply elem_of_cons in H as [->|H]); try (by apply not_elem_of_nil in H).

Lemma demo_handed sl q y : demo_slot sl -> handed (demo_pend sl) demo_sem_sched q y <-> sl = Handed y /\ q = 1004.
Proof.
  intros Hsl. unfold handed, pwants, demo_pend. destruct Hsl as [-> |[-> | ->]].
  - destruct (decide (y = 80)) as [->|Hy]; [split; [intros (_ & H & _); by vm_compute in H|by intros [? _]]|].
    rewrite lookup_singleton_ne by done. split; [by intros [? _]|by intros [? _]].
  - destruct (decide (y = 32)) as [->|Hy].
    + rewrite lookup_insert_eq. cbn. split; [intros ([= <-] & _); done|]. intros [_ ->]. by vm_compute.
    + rewrite lookup_insert_ne by done. destruct (decide (y = 80)) as [->|Hy2]; [split; [intros (_ & H & _); by vm_compute in H|intros [[=] _]]|].
      rewrite lookup_singleton_ne by done. split; [by intros [? _]|intros [[= ?] _]; congruence].
  - destruct (decide (y = 80)) as [->|Hy]; [split; [intros (_ & H & _); by vm_compute in H|by intros [? _]]|].
    rewrite lookup_singleton_ne by done. split; [by intros [? _]|by intros [? _]].
Qed.

Lemma demo_pt_ok sl : demo_slot sl -> pt_inv 16 (demo_pt sl) (demo_pend sl) (demo_holders sl) demo_sem_sched.
Proof.
  intros Hsl. split.
  - by apply demo_pt_sem.
  - done.
  - intros x y Hx Hy. keys Hx; keys Hy; vm_compute; congruence.
  - intros x Hx. keys Hx; vm_compute; congruence.
  - intros m mu Hm. apply elem_of_list_to_map_2 in Hm. set_unfold in Hm. destruct Hm as [[= -> ->]|[[= -> ->]|[]]]; (split; [done|]).
    + exists (demo_count sl), sl. split; [by destruct Hsl as [-> |[-> | ->]]|]. split.
      * by destruct Hsl as [-> |[-> | ->]].
      * by destruct Hsl as [-> |[-> | ->]].
      * by destruct Hsl as [-> |[-> | ->]].
      * intros y. rewrite demo_handed by done. by split; [intros [? _]|].
      * destruct Hsl as [-> |[-> | ->]]; [done|done|]. split; [vm_compute; eauto|]. by repeat split.
    + exists 1, Free. split; [by destruct Hsl as [-> |[-> | ->]]|]. split; try done.
      * by destruct Hsl as [-> |[-> | ->]].
      * intros y. rewrite demo_handed by done. by split; [intros [_ ?]|].
  - intros x p Hp. assert (x = 80 /\ p = PendCond 512 1000 (CondSignal 0) \/ x = 32 /\ p = PendLock 1000 1 /\ sl = Handed 32) as [[-> ->]|(-> & -> & ->)].
    { destruct Hsl as [-> |[-> | ->]]; cbn [demo_pend] in Hp; [apply lookup_singleton_Some in Hp as [<- <-]; auto| |apply lookup_singleton_Some in Hp as [<- <-]; auto].
      apply lookup_insert_Some in Hp as [[<- <-]|[_ Hp]]; [auto|]. apply lookup_singleton_Some in Hp as [<- <-]; auto. }
    + split; [done|vm_compute; eauto| |intros q [= <-]; left; by vm_compute]. split; [|split; [vm_compute; eauto|split; [|done]]].
      * eexists. split; [apply elem_of_list_to_map_1; [apply (bool_decide_unpack _); by vm_compute|left]|done].
      * intros m' [mu Hm]. apply elem_of_list_to_map_2 in Hm. set_unfold in Hm. by destruct Hm as [[= -> _]|[[= -> _]|[]]].
    + split; [done|vm_compute; eauto|split; [vm_compute; eauto|done]|intros q [= <-]; right; vm_compute; auto].
  - intros m x [mu Hm] Hx. apply elem_of_list_to_map_2 in Hm. set_unfold in Hm. destruct Hm as [[= -> _]|[[= -> _]|[]]]; vm_compute in Hx; by apply not_elem_of_nil in Hx.
Qed.

(** ** Where mutual exclusion is lost *)

(** The calls in turn, legal or not. *)
Fixpoint pt_trace `{SchedConfig} (cs : list pt_call) (w : pt_world) : res (list pt_event * pt_world) :=
  match cs with
  | [] => Ok ([], w)
  | c :: cs => '(es, w) ← pt_exec c w; '(es', w) ← pt_trace cs w; Ok (es ++ es', w)
  end.

Definition demo_events (cs : list pt_call) : list pt_event :=
  match pt_trace cs (PtWorld (demo_pt Free) (demo_pend Free)) with Ok (es, _) => es | Err _ => [] end.

(** pthread_mutex_trylock leaves nlocks at 0: a recursive mutex that was taken
    with it and locked once more is free after one unlock, and the task 48 gets
    it while 32 still has a lock. *)
Definition trylock_calls : list pt_call := [PTryLock 1100; PLock 1100; PUnlock 1100; PLock 1000; PWait 520 1000; PTryLock 1100].

Lemma trylock_loses_lock :
  demo_events trylock_calls = [Acquire 32 1100; Acquire 32 1100; Release 32 1100; Acquire 32 1000; Release 32 1000; Acquire 48 1100]
  /\ replay (demo_events trylock_calls) ∅ = None.
Proof. split; vm_compute; reflexivity. Qed.

(** pthread_cond_wait does not restore nlocks when it takes a recursive mutex
    again: after another task used the mutex, one more lock and one unlock free
    it, and the task 48 gets it while 32 still has a lock. *)
Definition cond_calls : list pt_call :=
  [PLock 1100; PWait 520 1100; PLock 1100; PUnlock 1100; PSignal 520; PLock 1000; PWait 520 1000; PLock 1000; PWait 520 1000;
   PResume; PLock 1100; PUnlock 1100; PLock 1000; PBroadcast 520; PWait 512 1000; PResume; PLock 1100].

Lemma cond_wait_loses_lock :
  last (demo_events cond_calls) = Some (Acquire 48 1100) /\ replay (demo_events (take 16 cond_calls)) ∅ <> None
  /\ replay (demo_events cond_calls) ∅ = None.
Proof. vm_compute. repeat split; discriminate. Qed.

(** pthread_mutex_destroy takes a mutex that was handed to the task 48, which has
    not run yet, for an available one: it gives the semaphore a count, so that 32
    takes the mutex and 48 has it too. *)
Definition destroy_calls : list pt_call :=
  [PLock 1000; PLock 1100; PWait 520 1100; PLock 1000; PSignal 520; PLock 1100; PWait 520 1100; PResume; PUnlock 1000; PDestroy 1000;
   PTryLock 1000; PWait 520 1100; PResume].

Lemma destroy_lets_two_in :
  last (demo_events destroy_calls) = Some (Acquire 48 1000) /\ replay (demo_events (take 12 destroy_calls)) ∅ <> None
  /\ replay (demo_events destroy_calls) ∅ = None.
Proof. vm_compute. repeat split; discriminate. Qed.

(** ** Witnesses *)

Definition demo_pt_calls : list pt_call :=
  [PLock 1000; PLock 1000; PBroadcast 512; PResume; PUnlock 1000; PResume; PUnlock 1000; PLock 1100; PLock 1100; PWait 520 1000;
   PTryLock 1000; PWait 520 1000; PInterrupt 80; PResume; PSignal 520; PResume; PUnlock 1000; PDestroy 1000; PSignal 0].

Definition pt_length (r : res (option (list pt_event * pt_world))) : nat := match r with Ok (Some (es, _)) => length es | _ => 0 end.

Lemma mutex_exclusion_witness :
  pt_length (pt_run 16 demo_pt_calls (PtWorld (demo_pt Free) (demo_pend Free))) = 10%nat
  /\ wp (pt_run 16 demo_pt_calls (PtWorld (demo_pt Free) (demo_pend Free))) (fun o => forall es w', o = Some (es, w') ->
       exists g', replay es ∅ = Some g' /\ world_ok 16 w' g').
Proof.
  split; [vm_compute; reflexivity|]. apply (mutex_exclusion 16 demo_pt_calls (PtWorld (demo_pt Free) (demo_pend Free)) ∅).
  exists demo_sem_sched. apply (demo_pt_ok Free). by left.
Defined.

Lemma mutex_lock_verdict_witness :
  wp (pthread_mutex_lock 1000 (demo_pt Free)) (fun '(r, s') => exists a',
    if holds ∅ 1000 32 then
      if PTHREAD_MUTEX_NORMAL =? PTHREAD_MUTEX_RECURSIVE then r = PtRet OK /\ exists g', replay1 (Acquire 32 1000) ∅ = Some g' /\ pt_inv 16 s' (demo_pend Free) g' a'
      else r = PtRet EDEADLK /\ pt_inv 16 s' (demo_pend Free) ∅ a'
    else if is_free (demo_pt Free) 1000 then r = PtRet OK /\ exists g', replay1 (Acquire 32 1000) ∅ = Some g' /\ pt_inv 16 s' (demo_pend Free) g' a'
    else r = PtBlocked /\ pt_inv 16 s' (<[32 := PendLock 1000 (a_pid demo_sem_sched 32)]> (demo_pend Free)) ∅ a' /\ 32 ∈ waiters (mutex_sem 1000) a').
Proof.
  apply (mutex_lock_verdict 16 (demo_pt Free) (demo_pend Free) ∅ demo_sem_sched 1000 (Mutex 0 PTHREAD_MUTEX_NORMAL 0));
    [apply (demo_pt_ok Free); by left|by vm_compute..].
Defined.

(** A PTHREAD_MUTEX_NORMAL mutex that the caller holds: no deadlock but an error. *)
Lemma normal_relock_returns :
  m_type <$> p_mutexes (demo_pt (Held 32 1)) !! 1000 = Some PTHREAD_MUTEX_NORMAL
  /\ (match pthread_mutex_lock 1000 (demo_pt (Held 32 1)) with Ok (r, _) => Some r | Err _ => None end) = Some (PtRet EDEADLK).
Proof. vm_compute. done. Qed.

Lemma mutex_unlock_hands_over_witness :
  wp (pthread_mutex_unlock 1000 (demo_pt (Held 32 1))) (fun '(r, s') => exists a',
    if holds (demo_holders (Held 32 1)) 1000 32 then r = OK /\ exists g', replay1 (Release 32 1000) (demo_holders (Held 32 1)) = Some g'
      /\ pt_inv 16 s' (demo_pend (Held 32 1)) g' a'
      /\ (g' !! 1000 = None -> hands_over (demo_pend (Held 32 1)) 1000 demo_sem_sched a' /\ sorted (apr demo_sem_sched) (waiters (mutex_sem 1000) demo_sem_sched))
    else r = EPERM /\ pt_inv 16 s' (demo_pend (Held 32 1)) (demo_holders (Held 32 1)) a').
Proof.
  apply (mutex_unlock_hands_over 16 (demo_pt (Held 32 1)) (demo_pend (Held 32 1)) (demo_holders (Held 32 1)) demo_sem_sched 1000 (Mutex 1 PTHREAD_MUTEX_NORMAL 0));
    [apply (demo_pt_ok (Held 32 1)); by right; right|by vm_compute..].
Defined.

Lemma mutex_handed_acquires_witness :
  wp (pthread_mutex_lock_resumed 1000 1 (demo_pt (Handed 32))) (fun '(r, s') => r = PtRet OK
    /\ exists a', pt_inv 16 s' (delete 32 (demo_pend (Handed 32))) (<[1000 := (32, 1)]> ∅) a').
Proof.
  apply (mutex_handed_acquires 16 (demo_pt (Handed 32)) (demo_pend (Handed 32)) ∅ demo_sem_sched 1000 1);
    [apply (demo_pt_ok (Handed 32)); by right; left|by vm_compute..].
Defined.

Lemma cond_wait_atomic_witness :
  holds (demo_holders (Held 32 1)) 1000 32 = true /\
  wp (pthread_cond_wait 512 1000 (demo_pt (Held 32 1))) (fun '((r, st), s') =>
    if holds (demo_holders (Held 32 1)) 1000 32 then r = PtBlocked /\ st = CondSignal 0
      /\ exists g' a', replay1 (Release 32 1000) (demo_holders (Held 32 1)) = Some g'
      /\ pt_inv 16 s' (<[32 := PendCond 512 1000 st]> (demo_pend (Held 32 1))) g' a' /\ 32 ∈ waiters (cond_sem 512) a'
      /\ hands_over (demo_pend (Held 32 1)) 1000 demo_sem_sched a'
    else r = PtRet EPERM /\ s' = demo_pt (Held 32 1)).
Proof.
  split; [reflexivity|]. apply (cond_wait_atomic 16 (demo_pt (Held 32 1)) (demo_pend (Held 32 1)) (demo_holders (Held 32 1)) demo_sem_sched 512 1000
    (Mutex 1 PTHREAD_MUTEX_NORMAL 0) (-1)); [apply (demo_pt_ok (Held 32 1)); by right; right|by vm_compute|by vm_compute|by vm_compute|by vm_compute|by vm_compute| |by vm_compute..].
  intros m' [mu Hm]. apply elem_of_list_to_map_2 in Hm. set_unfold in Hm. by destruct Hm as [[= -> _]|[[= -> _]|[]]].
Defined.

Lemma cond_broadcast_wakes_all_witness :
  80 ∈ waiters (cond_sem 512) demo_sem_sched /\
  wp (pthread_cond_broadcast 512 (demo_pt Free)) (fun '(r, s') => r = OK /\ exists a', pt_inv 16 s' (demo_pend Free) ∅ a'
    /\ waiters (cond_sem 512) a' = [] /\ (forall q, q <> cond_sem 512 -> waiters q a' = waiters q demo_sem_sched)
    /\ forall y, pwants (demo_pend Free) y = Some (cond_sem 512) -> y ∈ waiters (cond_sem 512) demo_sem_sched -> handed (demo_pend Free) a' (cond_sem 512) y).
Proof.
  split; [vm_compute; left|]. apply (cond_broadcast_wakes_all 16 (demo_pt Free) (demo_pend Free) ∅ demo_sem_sched 512 (-1));
    [apply (demo_pt_ok Free); by left|by vm_compute|by vm_compute| |by vm_compute].
  intros m' [mu Hm]. apply elem_of_list_to_map_2 in Hm. set_unfold in Hm. by destruct Hm as [[= -> _]|[[= -> _]|[]]].
Defined.
