(* ===== verification/Bytes.v ===== *)
(** * Memory as bytes

    Objects of several bytes in a memory that maps addresses to bytes: reading and
    writing them, and what parts of memory hold. *)

From S2P Require Import Prelude.

(** Reading and writing an object of several bytes. *)
Fixpoint load (n : nat) (p : ptr) (m : gmap Z Z) : res (list Z) :=
  match n with
  | O => Ok []
  | S n =>
      b ← deref m p;
      bs ← load n (p + 1) m;
      Ok (b :: bs)
  end.

Fixpoint save (bs : list Z) (p : ptr) (m : gmap Z Z) : res (gmap Z Z) :=
  match bs with
  | [] => Ok m
  | b :: bs =>
      m ← store (fun _ => b) p m;
      save bs (p + 1) m
  end.

(** The memory [m] with the bytes [bs] written from [p] on. *)
Fixpoint fill (p : ptr) (bs : list Z) (m : gmap Z Z) : gmap Z Z :=
  match bs with
  | [] => m
  | b :: bs => fill (p + 1) bs (<[p := b]> m)
  end.

(** The memory [m] has the bytes [bs] from [p] on. *)
Definition holds (p : ptr) (bs : list Z) (m : gmap Z Z) : Prop := forall j b, bs !! j = Some b -> m !! (p + Z.of_nat j) = Some b.

Implicit Types (m : gmap Z Z) (bs u w : list Z) (p q : ptr).

Lemma lookup_fill p bs m q : fill p bs m !! q = if decide (p <= q < p + Z.of_nat (length bs)) then bs !! Z.to_nat (q - p) else m !! q.
Proof.
  revert p m. induction bs as [|b bs IH]; intros p m; cbn [fill length]; [rewrite decide_False by lia; done|].
  rewrite IH. destruct (decide (q = p)) as [->|Hne].
  - rewrite decide_False by lia. rewrite lookup_insert_eq, decide_True by lia. by rewrite Z.sub_diag.
  - rewrite lookup_insert_ne by done. destruct (decide (p <= q < p + Z.of_nat (S (length bs)))) as [Hq|Hq].
    + rewrite decide_True by lia. by replace (Z.to_nat (q - p)) with (S (Z.to_nat (q - (p + 1)))) by lia.
    + by rewrite decide_False by lia.
Qed.

Lemma lookup_fill_in p bs m q : p <= q < p + Z.of_nat (length bs) -> fill p bs m !! q = bs !! Z.to_nat (q - p).
Proof. intros. by rewrite lookup_fill, decide_True. Qed.

Lemma lookup_fill_out p bs m q : ~ (p <= q < p + Z.of_nat (length bs)) -> fill p bs m !! q = m !! q.
Proof. intros. by rewrite lookup_fill, decide_False. Qed.

(** Two parts of memory that do not overlap. *)
Definition apart p n q k : Prop := p + n <= q \/ q + k <= p.

Lemma fill_app p bs bs' m : fill p (bs ++ bs') m = fill (p + Z.of_nat (length bs)) bs' (fill p bs m).
Proof.
  revert p m. induction bs as [|b bs IH]; intros p m; cbn [fill app length]; [by rewrite Z.add_0_r|]. rewrite IH. f_equal. lia.
Qed.

Lemma fill_comm p bs q bs' m : apart p (Z.of_nat (length bs)) q (Z.of_nat (length bs')) -> fill p bs (fill q bs' m) = fill q bs' (fill p bs m).
Proof. unfold apart. intros H. apply map_eq. intros x. rewrite !lookup_fill. repeat case_decide; done || lia. Qed.

Lemma fill_fill p bs bs' m : length bs = length bs' -> fill p bs (fill p bs' m) = fill p bs m.
Proof. intros H. apply map_eq. intros x. rewrite !lookup_fill, H. by case_decide. Qed.

Lemma fill_id p bs m : holds p bs m -> fill p bs m = m.
Proof.
  intros H. apply map_eq. intros x. rewrite lookup_fill. case_decide as Hx; [|done]. destruct (bs !! Z.to_nat (x - p)) as [b|] eqn:E.
  - specialize (H _ _ E). rewrite <-H. f_equal. lia.
  - apply lookup_ge_None in E. lia.
Qed.

Lemma holds_fill p bs m : holds p bs (fill p bs m).
Proof. intros j b E. pose proof (lookup_lt_Some _ _ _ E). rewrite lookup_fill_in by lia. rewrite <-E. f_equal. lia. Qed.

Lemma holds_apart p bs q bs' m : apart p (Z.of_nat (length bs)) q (Z.of_nat (length bs')) -> holds p bs m -> holds p bs (fill q bs' m).
Proof. unfold apart. intros Ha H j b E. pose proof (lookup_lt_Some _ _ _ E). rewrite lookup_fill_out by lia. by apply H. Qed.

Lemma holds_app p bs bs' m : holds p (bs ++ bs') m <-> holds p bs m /\ holds (p + Z.of_nat (length bs)) bs' m.
Proof.
  split.
  - intros H. split; intros j b E.
    + apply H. rewrite lookup_app_l; [done|by eapply lookup_lt_Some].
    + rewrite <-Z.add_assoc, <-Nat2Z.inj_add. apply H. rewrite lookup_app_r by lia. rewrite <-E. f_equal. lia.
  - intros [H1 H2] j b E. apply lookup_app_Some in E as [E|[Hl E]]; [by apply H1|]. specialize (H2 _ _ E). rewrite <-H2. f_equal. lia.
Qed.

(** A part in the middle of what was written. *)
Lemma fill_over p l1 u w l2 m : length u = length w -> fill (p + Z.of_nat (length l1)) w (fill p (l1 ++ u ++ l2) m) = fill p (l1 ++ w ++ l2) m.
Proof. intros H. rewrite !fill_app, H, fill_comm, fill_fill; [done|done|unfold apart; lia]. Qed.

Lemma holds_mid p l1 u l2 m : holds (p + Z.of_nat (length l1)) u (fill p (l1 ++ u ++ l2) m).
Proof. rewrite !fill_app. apply holds_apart; [unfold apart; lia|apply holds_fill]. Qed.

(** ** Reading and writing objects *)

Lemma load_ok p bs m : 0 < p -> holds p bs m -> load (length bs) p m = Ok bs.
Proof.
  revert p. induction bs as [|b bs IH]; intros p Hp H; cbn [load length]; [done|]. rewrite (deref_Some m p b) by (try lia; rewrite <-(H 0%nat b eq_refl); f_equal; lia).
  rewrite bind_Ok, IH; [done|lia|]. intros j c E. rewrite <-(H (S j) c E). f_equal. lia.
Qed.

Lemma save_ok p bs m : 0 < p -> (forall j, (j < length bs)%nat -> is_Some (m !! (p + Z.of_nat j))) -> save bs p m = Ok (fill p bs m).
Proof.
  revert p m. induction bs as [|b bs IH]; intros p m Hp H; cbn [save fill]; [done|]. destruct (H 0%nat) as [c Hc]; [simpl; lia|]. rewrite Z.add_0_r in Hc.
  rewrite store_valid by (split; [lia|by exists c]). rewrite bind_Ok, (alter_at _ _ _ c) by done. apply IH; [lia|]. intros j Hj.
  destruct (H (S j)) as [d Hd]; [simpl; lia|]. exists d. rewrite lookup_insert_ne by lia. rewrite <-Hd. f_equal. lia.
Qed.
