(* ===== verification/Qsort.v ===== *)
(** * Sorting of arrays: operations (src/nuttx/lib/stdlib/lib_qsort.c)

    The memory is a map from addresses to bytes.  An array has [nmemb] elements of
    [size] bytes; the comparison is a function of the contents of two elements (its
    arguments are pointers to const in C).  Swaps move the elements by longs of four
    bytes or by single bytes; a long is the list of its bytes. *)

From S2P Require Import Prelude Bytes.

Definition SIZEOF_LONG : Z := 4.
Definition SIZEOF_CHAR : Z := 1.

(** ** Swaps *)

Definition exchange (w : Z) (pi pj : ptr) (m : gmap Z Z) : res (gmap Z Z) :=
  t ← load (Z.to_nat w) pi m;
  u ← load (Z.to_nat w) pj m;
  m ← save u pi m;
  save t pj m.

(** The loop of the macro swapcode, [do ... while (--i > 0)]; [w] is the size of
    its type. *)
Fixpoint swapcode_loop (fuel : nat) (w i : Z) (pi pj : ptr) (m : gmap Z Z) : res (gmap Z Z) :=
  match fuel with
  | O => Err FFuel
  | S fuel =>
      m ← exchange w pi pj m;
      let i := i - 1 in
      if 0 <? i then swapcode_loop fuel w i (pi + w) (pj + w) m else Ok m
  end.

Definition swapcode (w : Z) (parmi parmj : ptr) (n : Z) (m : gmap Z Z) : res (gmap Z Z) :=
  swapcode_loop (S (Z.to_nat (u32 n))) w (s32 (u32 n / w)) parmi parmj m.

Definition swapfunc (a b : ptr) (n swaptype : Z) (m : gmap Z Z) : res (gmap Z Z) :=
  if swaptype <=? 1 then swapcode SIZEOF_LONG a b n m else swapcode SIZEOF_CHAR a b n m.

Definition vecswap (a b : ptr) (n swaptype : Z) (m : gmap Z Z) : res (gmap Z Z) :=
  if 0 <? n then swapfunc a b n swaptype m else Ok m.

Section qsort.
  Context (size : Z) (compar : list Z -> list Z -> Z).

Definition SWAPINIT (a : ptr) : Z :=
  if negb (a mod SIZEOF_LONG =? 0) || negb (size mod SIZEOF_LONG =? 0) then 2
  else if size =? SIZEOF_LONG then 0
  else 1.

Definition swap (swaptype : Z) (a b : ptr) (m : gmap Z Z) : res (gmap Z Z) :=
  if swaptype =? 0 then exchange SIZEOF_LONG a b m
  else swapfunc a b (s32 size) swaptype m.

(** The call [compar(a, b)]. *)
Definition cmp (a b : ptr) (m : gmap Z Z) : res Z :=
  x ← load (Z.to_nat size) a m;
  y ← load (Z.to_nat size) b m;
  Ok (compar x y).

Definition med3 (a b c : ptr) (m : gmap Z Z) : res ptr :=
  r ← cmp a b m;
  if r <? 0 then
    r ← cmp b c m;
    if r <? 0 then Ok b
    else r ← cmp a c m; Ok (if r <? 0 then c else a)
  else
    r ← cmp b c m;
    if 0 <? r then Ok b
    else r ← cmp a c m; Ok (if r <? 0 then a else c).

(** ** Insertion sort *)

Fixpoint insert_loop (fuel : nat) (swaptype : Z) (base pl : ptr) (m : gmap Z Z) : res (gmap Z Z) :=
  match fuel with
  | O => Err FFuel
  | S fuel =>
      if base <? pl then
        r ← cmp (pl - size) pl m;
        if 0 <? r then
          m ← swap swaptype pl (pl - size) m;
          insert_loop fuel swaptype base (pl - size) m
        else Ok m
      else Ok m
  end.

Fixpoint isort_loop (fuel n : nat) (swaptype : Z) (base lim pm : ptr) (m : gmap Z Z) : res (gmap Z Z) :=
  match fuel with
  | O => Err FFuel
  | S fuel =>
      if pm <? lim then
        m ← insert_loop n swaptype base pm m;
        isort_loop fuel n swaptype base lim (pm + size) m
      else Ok m
  end.

Definition insertion_sort (swaptype : Z) (base : ptr) (nmemb : Z) (m : gmap Z Z) : res (gmap Z Z) :=
  isort_loop (S (Z.to_nat nmemb)) (S (Z.to_nat nmemb)) swaptype base (base + u32 (nmemb * size)) (base + size) m.

(** ** Partition around the element at [base] *)

Record cursors : Type := Cursors { c_pa : ptr; c_pb : ptr; c_pc : ptr; c_pd : ptr; swap_cnt : Z }.

Fixpoint scan_up (fuel : nat) (swaptype : Z) (base : ptr) (c : cursors) (m : gmap Z Z) : res (cursors * gmap Z Z) :=
  match fuel with
  | O => Err FFuel
  | S fuel =>
      let '(Cursors pa pb pc pd cnt) := c in
      if pb <=? pc then
        r ← cmp pb base m;
        if r <=? 0 then
          if r =? 0 then
            m ← swap swaptype pa pb m;
            scan_up fuel swaptype base (Cursors (pa + size) (pb + size) pc pd 1) m
          else scan_up fuel swaptype base (Cursors pa (pb + size) pc pd cnt) m
        else Ok (c, m)
      else Ok (c, m)
  end.

Fixpoint scan_down (fuel : nat) (swaptype : Z) (base : ptr) (c : cursors) (m : gmap Z Z) : res (cursors * gmap Z Z) :=
  match fuel with
  | O => Err FFuel
  | S fuel =>
      let '(Cursors pa pb pc pd cnt) := c in
      if pb <=? pc then
        r ← cmp pc base m;
        if 0 <=? r then
          if r =? 0 then
            m ← swap swaptype pc pd m;
            scan_down fuel swaptype base (Cursors pa pb (pc - size) (pd - size) 1) m
          else scan_down fuel swaptype base (Cursors pa pb (pc - size) pd cnt) m
        else Ok (c, m)
      else Ok (c, m)
  end.

(** The loop [for (;;)]; [n] bounds the iterations of each of its loops. *)
Fixpoint partition (fuel n : nat) (swaptype : Z) (base : ptr) (c : cursors) (m : gmap Z Z) : res (cursors * gmap Z Z) :=
  match fuel with
  | O => Err FFuel
  | S fuel =>
      '(c, m) ← scan_up n swaptype base c m;
      '(c, m) ← scan_down n swaptype base c m;
      let '(Cursors pa pb pc pd _) := c in
      if pc <? pb then Ok (c, m)
      else
        m ← swap swaptype pb pc m;
        partition fuel n swaptype base (Cursors pa (pb + size) (pc - size) pd 1) m
  end.

(** ** qsort *)

(** The element around which the array is divided. *)
Definition pivot (base : ptr) (nmemb : Z) (m : gmap Z Z) : res ptr :=
  let pm := base + u32 (nmemb / 2 * size) in
  if 7 <? nmemb then
    let pl := base in
    let pn := base + u32 ((nmemb - 1) * size) in
    '(pl, pm, pn) ←
      (if 40 <? nmemb then
         let d := s32 (u32 (nmemb / 8 * size)) in
         pl ← med3 pl (pl + d) (pl + 2 * d) m;
         pm ← med3 (pm - d) pm (pm + d) m;
         pn ← med3 (pn - 2 * d) (pn - d) pn m;
         Ok (pl, pm, pn)
       else Ok (pl, pm, pn));
    med3 pl pm pn m
  else Ok pm.

Definition min (a b : Z) : Z := if a <? b then a else b.

(** What follows the partition: the elements equal to the pivot go to the middle,
    then both sides are sorted.  [qsort] is the recursive call; the jump back to
    [loop] is the last one. *)
Definition sort_sides (qsort : ptr -> Z -> gmap Z Z -> res (gmap Z Z)) (swaptype : Z) (base : ptr) (nmemb : Z) (c : cursors) (m : gmap Z Z) : res (gmap Z Z) :=
  let '(Cursors pa pb pc pd _) := c in
  let pn := base + u32 (nmemb * size) in
  let r := s32 (min (pa - base) (pb - pa)) in
  m ← vecswap base (pb - r) r swaptype m;
  let r := s32 (min (u32 (pd - pc)) (u32 (pn - pd - size))) in
  m ← vecswap pb (pn - r) r swaptype m;
  let r := s32 (pb - pa) in
  m ← (if size <? u32 r then qsort base (u32 r / size) m else Ok m);
  let r := s32 (pd - pc) in
  if size <? u32 r then qsort (pn - r) (u32 r / size) m else Ok m.

Fixpoint qsort_loop (fuel : nat) (base : ptr) (nmemb : Z) (m : gmap Z Z) : res (gmap Z Z) :=
  match fuel with
  | O => Err FFuel
  | S fuel =>
      let swaptype := SWAPINIT base in
      if nmemb <? 7 then insertion_sort swaptype base nmemb m
      else
        pm ← pivot base nmemb m;
        m ← swap swaptype base pm m;
        let pa := base + size in
        let pc := base + u32 ((nmemb - 1) * size) in
        let n := S (Z.to_nat nmemb) in
        '(c, m) ← partition n n swaptype base (Cursors pa pa pc pc 0) m;
        if swap_cnt c =? 0 then insertion_sort swaptype base nmemb m
        else sort_sides (qsort_loop fuel) swaptype base nmemb c m
  end.

Definition qsort (base : ptr) (nmemb : Z) (m : gmap Z Z) : res (gmap Z Z) := qsort_loop (S (Z.to_nat nmemb)) base nmemb m.

End qsort.
