(* ===== verification/QsortMem.v ===== *)
(** * Sorting of arrays: memory

    An array of elements as the contents of a part of memory, and what swaps and
    comparisons do to it. *)

From S2P Require Import Prelude Bytes Qsort.

Implicit Types (m : gmap Z Z) (bs u w : list Z) (p q : ptr).

(** ** Exchanging objects *)

(** Two parts that an operation exchanges: they are the same or do not overlap. *)
Record swappable (a b : ptr) u w m : Prop := Swappable {
  sw_pos : 0 < a /\ 0 < b;
  sw_len : length u = length w;
  sw_here : holds a u m /\ holds b w m;
  sw_apart : a = b \/ apart a (Z.of_nat (length u)) b (Z.of_nat (length w))
}.

Lemma exchange_ok k a b u w m : swappable a b u w m -> Z.of_nat (length u) = k -> exchange k a b m = Ok (fill b u (fill a w m)).
Proof.
  intros [[Ha Hb] Hl [Hu Hw] Hs] <-. unfold exchange. rewrite Nat2Z.id, (load_ok a u) by done. rewrite bind_Ok, Hl, (load_ok b w) by done. rewrite bind_Ok.
  rewrite (save_ok a w); [|done|]; [rewrite bind_Ok; apply save_ok; [done|]|].
  - intros j Hj. rewrite lookup_fill. case_decide as Hd; [apply lookup_lt_is_Some; lia|]. destruct (lookup_lt_is_Some_2 w j) as [c Hc]; [lia|]. exists c. by apply Hw.
  - intros j Hj. destruct (lookup_lt_is_Some_2 u j) as [c Hc]; [lia|]. exists c. by apply Hu.
Qed.

Lemma swappable_split a b u u' w w' m :
  swappable a b (u ++ u') (w ++ w') m -> length u = length w ->
  swappable a b u w m /\ swappable (a + Z.of_nat (length u)) (b + Z.of_nat (length u)) u' w' (fill b u (fill a w m)).
Proof.
  intros [[Ha Hb] Hl [Hu Hw] Hs] Hlen. rewrite !length_app in *. apply holds_app in Hu as [Hu Hu'], Hw as [Hw Hw']. rewrite <-Hlen in *. unfold apart in *.
  split; [split; unfold apart; try done; lia|]. split; unfold apart; try lia. split; (apply holds_apart; [unfold apart; lia|]); by (apply holds_apart; [unfold apart; lia|]).
Qed.

Lemma fill_swapped a b u u' w w' m :
  swappable a b (u ++ u') (w ++ w') m -> length u = length w ->
  fill (b + Z.of_nat (length u)) u' (fill (a + Z.of_nat (length u)) w' (fill b u (fill a w m))) = fill b (u ++ u') (fill a (w ++ w') m).
Proof.
  intros [[Ha Hb] Hl [Hu Hw] Hs] Hlen. rewrite !fill_app, <-Hlen. f_equal. rewrite !length_app in *. apply fill_comm. unfold apart in *. lia.
Qed.

Lemma swapcode_loop_ok k n : (0 < k)%nat -> forall fuel a b u w m,
  swappable a b u w m -> length u = (k * S n)%nat -> (n < fuel)%nat ->
  swapcode_loop fuel (Z.of_nat k) (Z.of_nat (S n)) a b m = Ok (fill b u (fill a w m)).
Proof.
  intros Hk. induction n as [|n IH]; intros [|fuel] a b u w m Hs Hl Hf; try lia; cbn [swapcode_loop].
  - rewrite (exchange_ok _ a b u w) by (done || lia). by rewrite bind_Ok.
  - rewrite <-(take_drop k u), <-(take_drop k w) in Hs |- *. pose proof (sw_len _ _ _ _ _ Hs) as Hlen. rewrite !take_drop in Hlen.
    assert (length (take k u) = k /\ length (take k w) = k) as [E1 E2] by (rewrite !length_take; lia).
    destruct (swappable_split _ _ _ _ _ _ _ Hs) as [H1 H2]; [lia|]. rewrite (exchange_ok _ a b (take k u) (take k w)) by (done || lia). rewrite bind_Ok.
    rewrite (proj2 (Z.ltb_lt _ _)) by lia. replace (Z.of_nat (S (S n)) - 1) with (Z.of_nat (S n)) by lia. rewrite <-fill_swapped by (done || lia). rewrite E1 in *.
    apply IH; [done|rewrite length_drop; lia|lia].
Qed.

Lemma swapfunc_ok a b u w swaptype m :
  swappable a b u w m -> u <> [] -> Z.of_nat (length u) <= INT_MAX -> (swaptype <= 1 -> (SIZEOF_LONG | Z.of_nat (length u))) ->
  swapfunc a b (Z.of_nat (length u)) swaptype m = Ok (fill b u (fill a w m)).
Proof.
  intros Hs Hne Hmax Hd. unfold INT_MAX in Hmax. assert (0 < length u)%nat as Hpos by (destruct u; [done|simpl; lia]).
  assert (forall k, (0 < k)%nat -> (Z.of_nat k | Z.of_nat (length u)) -> swapcode (Z.of_nat k) a b (Z.of_nat (length u)) m = Ok (fill b u (fill a w m))) as Hc.
  { intros k Hk [c Hc]. unfold swapcode. rewrite u32_id by lia. rewrite Hc, Z.div_mul by lia. assert (0 < c) by nia.
    destruct (Z.to_nat c) as [|n] eqn:En; [lia|]. rewrite s32_id by (unfold INT_MAX; nia). replace c with (Z.of_nat (S n)) by lia. apply swapcode_loop_ok; nia || done. }
  unfold swapfunc. destruct (swaptype <=? 1) eqn:E; [apply (Hc 4%nat); [lia|apply Hd; lia]|apply (Hc 1%nat); [lia|apply Z.divide_1_l]].
Qed.

(** ** Arrays *)

Section arr.
  Context (size : Z) (compar : list Z -> list Z -> Z) (Hsize : 0 < size <= INT_MAX).
  Implicit Types (xs ys : list (list Z)) (x y : list Z).

Definition sized xs : Prop := Forall (fun x => Z.of_nat (length x) = size) xs.

(** The memory [m] with the array [xs] at [base]. *)
Definition arr (base : ptr) m xs : gmap Z Z := fill base (concat xs) m.

(** The address of an element. *)
Definition elt (base : ptr) (i : nat) : ptr := base + Z.of_nat i * size.

Lemma concat_length xs : sized xs -> Z.of_nat (length (concat xs)) = Z.of_nat (length xs) * size.
Proof. induction 1 as [|x xs Hx _ IH]; [done|]. cbn [concat length]. rewrite length_app. lia. Qed.

Lemma sized_app xs ys : sized (xs ++ ys) <-> sized xs /\ sized ys.
Proof. apply Forall_app. Qed.

Lemma sized_perm xs ys : xs ≡ₚ ys -> sized xs -> sized ys.
Proof. intros E H. unfold sized. by rewrite <-E. Qed.

Lemma arr_app base m xs ys : sized xs -> arr base m (xs ++ ys) = arr (elt base (length xs)) (arr base m xs) ys.
Proof. intros H. unfold arr, elt. rewrite concat_app, fill_app. by rewrite concat_length. Qed.

(** The first part of an array as the array. *)
Lemma arr_front base m xs ys : sized xs -> sized ys -> arr base m (xs ++ ys) = arr base (arr (elt base (length xs)) m ys) xs.
Proof. intros Hx Hy. rewrite arr_app by done. unfold arr, elt. apply fill_comm. unfold apart. rewrite !concat_length by done. lia. Qed.

Lemma elt_add base i j : elt (elt base i) j = elt base (i + j).
Proof. unfold elt. lia. Qed.

Lemma arr_holds base m xs i x : sized xs -> xs !! i = Some x -> holds (elt base i) x (arr base m xs).
Proof.
  intros Hs Hx. rewrite <-(take_drop_middle xs i x Hx) in Hs |- *. pose proof (lookup_lt_Some _ _ _ Hx). apply sized_app in Hs as [H1 H2].
  unfold arr, elt. rewrite concat_app. cbn [concat]. replace (Z.of_nat i) with (Z.of_nat (length (take i xs))) by (rewrite length_take; lia).
  rewrite <-concat_length by done. apply holds_mid.
Qed.

Lemma arr_update base m xs i x y : sized xs -> xs !! i = Some x -> length y = length x -> fill (elt base i) y (arr base m xs) = arr base m (<[i := y]> xs).
Proof.
  intros Hs Hx Hl. pose proof (lookup_lt_Some _ _ _ Hx). rewrite insert_take_drop by done. rewrite <-(take_drop_middle xs i x Hx) in Hs |- * at 1.
  apply sized_app in Hs as [H1 H2]. unfold arr, elt. rewrite !concat_app. cbn [concat]. replace (Z.of_nat i) with (Z.of_nat (length (take i xs))) by (rewrite length_take; lia).
  rewrite <-concat_length by done. by apply fill_over.
Qed.

Lemma sized_lookup xs i x : sized xs -> xs !! i = Some x -> Z.of_nat (length x) = size.
Proof. intros Hs Hx. exact (Forall_lookup_1 _ _ _ _ Hs Hx). Qed.

Lemma cmp_arr base m xs i j x y :
  0 < base -> sized xs -> xs !! i = Some x -> xs !! j = Some y -> cmp size compar (elt base i) (elt base j) (arr base m xs) = Ok (compar x y).
Proof.
  intros Hb Hs Hx Hy. unfold cmp. pose proof (sized_lookup _ _ _ Hs Hx) as Lx. pose proof (sized_lookup _ _ _ Hs Hy) as Ly.
  replace (Z.to_nat size) with (length x) by lia. rewrite (load_ok (elt base i) x); [|unfold elt; lia|by apply arr_holds]. rewrite bind_Ok.
  replace (length x) with (length y) by lia. rewrite (load_ok _ y); [done|unfold elt; lia|by apply arr_holds].
Qed.

Lemma elt_apart base i j : i <> j -> apart (elt base i) size (elt base j) size.
Proof. unfold apart, elt. nia. Qed.

Lemma swapinit_long base : SWAPINIT size base <= 1 -> (SIZEOF_LONG | size).
Proof.
  unfold SWAPINIT. destruct (negb (base mod SIZEOF_LONG =? 0)); cbn [orb]; [lia|]. destruct (size mod SIZEOF_LONG =? 0) eqn:E; cbn [negb]; [|lia].
  intros _. apply Z.mod_divide; [done|]. by apply Z.eqb_eq.
Qed.

Lemma swap_arr base m xs i j x y :
  0 < base -> sized xs -> xs !! i = Some x -> xs !! j = Some y ->
  swap size (SWAPINIT size base) (elt base i) (elt base j) (arr base m xs) = Ok (arr base m (<[j := x]> (<[i := y]> xs))).
Proof.
  intros Hb Hs Hx Hy. pose proof (sized_lookup _ _ _ Hs Hx) as Lx. pose proof (sized_lookup _ _ _ Hs Hy) as Ly.
  assert (swappable (elt base i) (elt base j) x y (arr base m xs)) as Hw.
  { split; [unfold elt; lia|lia|split; by apply arr_holds|]. rewrite Lx, Ly. destruct (decide (i = j)) as [->|Hne]; [by left|right; by apply elt_apart]. }
  rewrite <-(arr_update base m (<[i := y]> xs) j y x).
  - rewrite <-(arr_update base m xs i x y) by (done || lia). unfold swap. destruct (SWAPINIT size base =? 0) eqn:E.
    + apply exchange_ok; [done|]. revert E. unfold SWAPINIT. destruct (_ || _); [done|]. destruct (size =? SIZEOF_LONG) eqn:F; [|done]. intros _. lia.
    + rewrite s32_id by (unfold INT_MAX in *; lia). rewrite <-Lx. apply swapfunc_ok; [done| |lia|].
      * intros ->. simpl in Lx. lia.
      * rewrite Lx. apply swapinit_long.
  - unfold sized. apply Forall_insert; [done|]. lia.
  - destruct (decide (i = j)) as [->|Hne]; [rewrite list_lookup_insert_eq; [done|by eapply lookup_lt_Some]|by rewrite list_lookup_insert_ne].
  - lia.
Qed.

Lemma list_insert_mid (l1 : list (list Z)) x y l2 : <[length l1 := y]> (l1 ++ x :: l2) = l1 ++ y :: l2.
Proof. rewrite insert_app_r_alt by lia. by rewrite Nat.sub_diag. Qed.

(** A swap of two elements, by what is around them. *)
Lemma swap_mid base m l1 x l2 y l3 :
  0 < base -> sized (l1 ++ x :: l2 ++ y :: l3) ->
  let i := length l1 in let j := (length l1 + S (length l2))%nat in
  swap size (SWAPINIT size base) (elt base i) (elt base j) (arr base m (l1 ++ x :: l2 ++ y :: l3)) = Ok (arr base m (l1 ++ y :: l2 ++ x :: l3))
  /\ swap size (SWAPINIT size base) (elt base j) (elt base i) (arr base m (l1 ++ x :: l2 ++ y :: l3)) = Ok (arr base m (l1 ++ y :: l2 ++ x :: l3)).
Proof.
  intros Hb Hs i j. assert ((l1 ++ x :: l2 ++ y :: l3) !! i = Some x) as Hx by (apply list_lookup_middle; done).
  assert (l1 ++ x :: l2 ++ y :: l3 = (l1 ++ x :: l2) ++ y :: l3) as E by (by rewrite <-app_assoc).
  assert ((l1 ++ x :: l2 ++ y :: l3) !! j = Some y) as Hy by (rewrite E; apply list_lookup_middle; rewrite length_app; done).
  assert (forall z z', <[j := z']> (<[i := z]> (l1 ++ x :: l2 ++ y :: l3)) = l1 ++ z :: l2 ++ z' :: l3) as Hu.
  { intros z z'. unfold i, j. rewrite list_insert_mid. replace (length l1 + S (length l2))%nat with (length (l1 ++ z :: l2)) by (by rewrite length_app).
    change (z :: l2 ++ y :: l3) with ((z :: l2) ++ y :: l3). rewrite app_assoc, list_insert_mid. by rewrite <-app_assoc. }
  split; [rewrite (swap_arr base m _ i j x y) by done; by rewrite Hu|]. rewrite (swap_arr base m _ j i y x) by done. rewrite list_insert_insert_ne by lia. by rewrite Hu.
Qed.

Lemma swap_self base m xs i : 0 < base -> sized xs -> (i < length xs)%nat ->
  swap size (SWAPINIT size base) (elt base i) (elt base i) (arr base m xs) = Ok (arr base m xs).
Proof.
  intros Hb Hs [x Hx]%lookup_lt_is_Some_2. rewrite (swap_arr base m xs i i x x) by done. by rewrite list_insert_insert_eq, list_insert_id by done.
Qed.

(** The exchange of two runs of elements. *)
Lemma vecswap_arr base m (l1 u l2 w l3 : list (list Z)) :
  0 < base -> sized (l1 ++ u ++ l2 ++ w ++ l3) -> length u = length w -> Z.of_nat (length u) * size <= INT_MAX ->
  vecswap (elt base (length l1)) (elt base (length l1 + length u + length l2)) (Z.of_nat (length u) * size) (SWAPINIT size base) (arr base m (l1 ++ u ++ l2 ++ w ++ l3))
    = Ok (arr base m (l1 ++ w ++ l2 ++ u ++ l3)).
Proof.
  intros Hb Hs Hl Hmax. apply sized_app in Hs as [S1 [Su [S2 [Sw S3]%sized_app]%sized_app]%sized_app]. unfold vecswap.
  destruct (decide (u = [])) as [->|Hne]; [by destruct w|].
  assert (0 < length u)%nat by (destruct u; [done|simpl; lia]). rewrite (proj2 (Z.ltb_lt _ _)) by lia.
  pose proof (concat_length u Su) as Lu. pose proof (concat_length w Sw) as Lw. pose proof (concat_length l1 S1) as L1. pose proof (concat_length l2 S2) as L2.
  assert (elt base (length l1) = base + Z.of_nat (length (concat l1))) as -> by (unfold elt; lia).
  assert (elt base (length l1 + length u + length l2) = base + Z.of_nat (length (concat l1 ++ concat u ++ concat l2))) as -> by (rewrite !length_app; unfold elt; lia).
  assert (length (concat u) = length (concat w)) as Hlen by nia. unfold arr. rewrite !concat_app, <-Lu.
  rewrite (swapfunc_ok _ _ (concat u) (concat w)); [| |intros E; rewrite E in Lu; simpl in Lu; nia|lia|].
  - f_equal. rewrite fill_over by done. pose proof (fill_over base (concat l1 ++ concat w ++ concat l2) (concat w) (concat u) (concat l3) m) as E.
    rewrite !length_app in *. rewrite <-!app_assoc, Hlen in *. by apply E.
  - split; [lia|done|split|right; unfold apart; rewrite !length_app; lia].
    + apply holds_mid.
    + pose proof (holds_mid base (concat l1 ++ concat u ++ concat l2) (concat w) (concat l3) m) as E. by rewrite <-!app_assoc in E.
  - rewrite Lu. intros H1. apply Z.divide_mul_r. by eapply swapinit_long.
Qed.

End arr.
