(* ===== verification/QsortThm.v ===== *)
(** * Sorting of arrays: theorems

    qsort keeps the elements of the array and touches nothing else, whatever the
    comparison does, and sorts them when the comparison is a total preorder. *)

From stdpp Require Import sorting.
From S2P Require Import Prelude Bytes Qsort QsortMem.

(** What the standard asks of a comparison. *)
Record comparison (compar : list Z -> list Z -> Z) : Prop := Comparison {
  cmp_flip : forall x y, compar x y <= 0 <-> 0 <= compar y x;
  cmp_trans : forall x y z, compar x y <= 0 -> compar y z <= 0 -> compar x z <= 0
}.

Section thm.
  Context (size : Z) (compar : list Z -> list Z -> Z) (Hsize : 0 < size <= INT_MAX).
  Implicit Types (xs ys : list (list Z)) (x y v : list Z) (base : ptr) (m : gmap Z Z).

Notation sized := (sized size).
Notation elt := (elt size).
Notation le := (fun x y : list Z => compar x y <= 0).
Notation ordered := (StronglySorted (fun x y : list Z => compar x y <= 0)).

Lemma elt_0 base : elt base 0 = base.
Proof. unfold QsortMem.elt. lia. Qed.

Lemma elt_pred base i : elt base (S i) - size = elt base i.
Proof. unfold QsortMem.elt. lia. Qed.

Lemma elt_pred_of base i : (0 < i)%nat -> elt base i - size = elt base (i - 1).
Proof. unfold QsortMem.elt. nia. Qed.

Lemma elt_succ base i : elt base i + size = elt base (S i).
Proof. unfold QsortMem.elt. lia. Qed.

Lemma elt_le base i j : (elt base i <=? elt base j) = (i <=? j)%nat.
Proof. unfold QsortMem.elt. destruct (Nat.leb_spec i j); [apply Z.leb_le|apply Z.leb_gt]; nia. Qed.

Lemma elt_lt base i j : (elt base i <? elt base j) = (i <? j)%nat.
Proof. unfold QsortMem.elt. destruct (Nat.ltb_spec i j); [apply Z.ltb_lt|apply Z.ltb_ge]; nia. Qed.

Lemma elt_pos base i : (base <? elt base i) = (0 <? i)%nat.
Proof. rewrite <-elt_lt with (base := base). by rewrite elt_0. Qed.

Lemma elt_sub base i j : (j <= i)%nat -> elt base i - elt base j = Z.of_nat (i - j) * size.
Proof. unfold QsortMem.elt. nia. Qed.

(** ** Insertion sort *)

Section insertion.
  Context (base : ptr) (m : gmap Z Z) (Hb : 0 < base).

Lemma insert_loop_ok xs : forall fuel x r,
  sized (xs ++ x :: r) -> (length xs < fuel)%nat ->
  exists p q, xs = p ++ q
    /\ insert_loop size compar fuel (SWAPINIT size base) base (elt base (length xs)) (arr base m (xs ++ x :: r)) = Ok (arr base m (p ++ x :: q ++ r))
    /\ Forall (fun y => 0 < compar y x) q /\ (forall y, last p = Some y -> compar y x <= 0).
Proof.
  induction xs as [|y xs IH] using rev_ind; intros [|fuel] x r Hs Hf; try lia; cbn [insert_loop]; rewrite elt_pos.
  - exists [], []. by repeat split.
  - rewrite length_app, Nat.add_1_r in *. cbn [Nat.ltb Nat.leb]. rewrite elt_pred. rewrite <-app_assoc in *. cbn [app] in *.
    rewrite (cmp_arr size compar Hsize base m _ (length xs) (S (length xs)) y x); [|done|done|by apply list_lookup_middle|].
    2: { rewrite (cons_middle y xs), app_assoc. apply list_lookup_middle. rewrite length_app. simpl. lia. }
    rewrite bind_Ok. destruct (0 <? compar y x) eqn:E.
    + destruct (swap_mid size Hsize base m xs y [] x r Hb Hs) as [_ Hw]. cbn [length app] in Hw. rewrite Nat.add_1_r in Hw. rewrite Hw, bind_Ok.
      destruct (IH fuel x (y :: r)) as (p & q & -> & Hi & Hq & Hp); [eapply (sized_perm size); [|exact Hs]; by rewrite (Permutation_swap y x)|lia|].
      exists p, (q ++ [y]). rewrite Hi, <-!app_assoc. split; [done|]. split; [done|]. split; [|done]. apply Forall_app. split; [done|]. by constructor; [apply Z.ltb_lt|].
    + exists (xs ++ [y]), []. rewrite app_nil_r, <-app_assoc. split; [done|]. split; [done|]. split; [done|]. intros z. rewrite last_snoc. intros [= <-]. by apply Z.ltb_ge.
Qed.

Lemma insert_ordered p q x :
  comparison compar -> ordered (p ++ q) -> Forall (fun y => 0 < compar y x) q -> (forall y, last p = Some y -> compar y x <= 0) -> ordered (p ++ x :: q).
Proof.
  intros HC Ho Hq Hp. apply StronglySorted_app in Ho as (Hpq & Ho1 & Ho2). apply StronglySorted_app. split; [|split; [done|]].
  - intros y z Hy [->|Hz]%elem_of_cons; [|by apply Hpq]. destruct p as [|w p _] using rev_ind; [set_solver|]. rewrite last_snoc in Hp.
    apply StronglySorted_app in Ho1 as (Hw & _ & _). apply elem_of_app in Hy as [Hy|Hy%list_elem_of_singleton]; [|subst; by apply Hp].
    apply (cmp_trans _ HC y w x); [apply Hw; set_solver|by apply Hp].
  - constructor; [done|]. eapply Forall_impl; [exact Hq|]. intros y Hy. apply (proj2 (cmp_flip _ HC x y)). cbn in Hy. lia.
Qed.

Lemma isort_loop_ok ys : forall xs fuel n,
  sized (xs ++ ys) -> (length ys < fuel)%nat -> (length (xs ++ ys) <= n)%nat ->
  exists zs, isort_loop size compar fuel n (SWAPINIT size base) base (elt base (length (xs ++ ys))) (elt base (length xs)) (arr base m (xs ++ ys)) = Ok (arr base m zs)
    /\ zs ≡ₚ xs ++ ys /\ (comparison compar -> ordered xs -> ordered zs).
Proof.
  induction ys as [|y ys IH]; intros xs [|fuel] n Hs Hf Hn; try (simpl in Hf; lia); cbn [isort_loop]; rewrite elt_lt.
  - rewrite app_nil_r. rewrite (proj2 (Nat.ltb_ge _ _)) by done. by exists xs.
  - rewrite (proj2 (Nat.ltb_lt _ _)) by (rewrite length_app; simpl; lia). destruct (insert_loop_ok xs n y ys Hs) as (p & q & -> & Hi & Hq & Hp); [rewrite length_app in Hn; simpl in Hn; lia|].
    rewrite Hi, bind_Ok, elt_succ. assert (p ++ y :: q ++ ys ≡ₚ (p ++ q) ++ y :: ys) as Hperm by solve_Permutation.
    destruct (IH (p ++ y :: q) fuel n) as (zs & Hr & Hz & Ho); [eapply (sized_perm size); [|exact Hs]; rewrite <-Hperm; by rewrite <-app_assoc|simpl in Hf; lia|rewrite !length_app in *; simpl in *; lia|].
    exists zs. split; [|split].
    + replace (S (length (p ++ q))) with (length (p ++ y :: q)) by (rewrite !length_app; simpl; lia).
      replace (length ((p ++ q) ++ y :: ys)) with (length ((p ++ y :: q) ++ ys)) by (rewrite !length_app; simpl; lia). by rewrite <-Hr, <-app_assoc.
    + rewrite Hz, <-Hperm. by rewrite <-app_assoc.
    + intros HC H. apply (Ho HC). by apply insert_ordered.
Qed.

Lemma insertion_sort_ok xs :
  sized xs -> Z.of_nat (length xs) * size <= INT_MAX ->
  exists zs, insertion_sort size compar (SWAPINIT size base) base (Z.of_nat (length xs)) (arr base m xs) = Ok (arr base m zs) /\ zs ≡ₚ xs /\ (comparison compar -> ordered zs).
Proof.
  intros Hs Hmax. unfold INT_MAX in Hmax. unfold insertion_sort. rewrite u32_id, Nat2Z.id by lia. destruct xs as [|x xs].
  - exists []. split; [|split; [done|constructor]]. cbn [isort_loop length]. by rewrite (proj2 (Z.ltb_ge _ _)) by lia.
  - destruct (isort_loop_ok xs [x] (S (length (x :: xs))) (S (length (x :: xs))) Hs) as (zs & Hr & Hz & Ho); [simpl; lia..|]. exists zs. split; [|split; [done|]].
    + rewrite <-Hr. do 2 f_equal. unfold QsortMem.elt. simpl. lia.
    + intros HC. apply (Ho HC). repeat constructor.
Qed.

End insertion.

(** ** Partition *)

Section partition.
  Context (base : ptr) (m : gmap Z Z) (v : list Z) (Hb : 0 < base).
  Implicit Types (E L U G F : list (list Z)).

(** The array during the partition: the pivot, elements equal to it, smaller ones,
    those not looked at, larger ones, and again equal ones; and the cursors. *)
Definition parts E L U G F : list (list Z) := v :: E ++ L ++ U ++ G ++ F.

Definition cursors_at E L U G (cnt : Z) : cursors :=
  Cursors (elt base (S (length E))) (elt base (S (length E + length L))) (elt base (length E + length L + length U)) (elt base (length E + length L + length U + length G)) cnt.

Definition equals : list (list Z) -> Prop := Forall (fun x => compar x v = 0).
Definition smaller : list (list Z) -> Prop := Forall (fun x => compar x v < 0).
Definition larger : list (list Z) -> Prop := Forall (fun x => 0 < compar x v).

Lemma cmp_pivot E L U1 x U2 G F :
  sized (parts E L (U1 ++ x :: U2) G F) ->
  cmp size compar (elt base (S (length E + length L + length U1))) base (arr base m (parts E L (U1 ++ x :: U2) G F)) = Ok (compar x v).
Proof.
  intros Hs. rewrite <-(elt_0 base) at 2. apply (cmp_arr size compar Hsize); try done. unfold parts. cbn.
  replace (E ++ L ++ (U1 ++ x :: U2) ++ G ++ F) with ((E ++ L ++ U1) ++ x :: U2 ++ G ++ F) by (by rewrite <-!app_assoc).
  apply list_lookup_middle. rewrite !length_app. lia.
Qed.

(** An element equal to the pivot changes places with the first of the smaller
    ones, or with the last of the larger ones. *)
Lemma swap_up E L x U G F :
  sized (parts E L (x :: U) G F) ->
  exists L', swap size (SWAPINIT size base) (elt base (S (length E))) (elt base (S (length E + length L))) (arr base m (parts E L (x :: U) G F)) = Ok (arr base m (parts (E ++ [x]) L' U G F))
    /\ L' ≡ₚ L.
Proof.
  intros Hs. destruct L as [|l L].
  - exists []. split; [|done]. cbn [length]. rewrite Nat.add_0_r, swap_self; [|done..|].
    + unfold parts. by rewrite <-app_assoc.
    + unfold parts. simpl. rewrite !length_app. simpl. lia.
  - exists (L ++ [l]). split; [|by rewrite Permutation_app_comm]. destruct (swap_mid size Hsize base m (v :: E) l L x (U ++ G ++ F) Hb Hs) as [Hw _].
    cbn [length app] in Hw. rewrite Nat.add_succ_l in Hw. unfold parts. cbn [app length]. rewrite Hw. by rewrite <-!app_assoc.
Qed.

Lemma swap_down E L U x G F :
  sized (parts E L (U ++ [x]) G F) ->
  exists G', swap size (SWAPINIT size base) (elt base (S (length E + length L + length U))) (elt base (S (length E + length L + length U + length G))) (arr base m (parts E L (U ++ [x]) G F))
      = Ok (arr base m (parts E L U G' (x :: F))) /\ G' ≡ₚ G.
Proof.
  intros Hs. destruct G as [|g G _] using rev_ind.
  - exists []. split; [|done]. cbn [length]. rewrite Nat.add_0_r, swap_self; [|done..|].
    + unfold parts. by rewrite <-app_assoc.
    + unfold parts. simpl. rewrite !length_app. simpl. lia.
  - exists (g :: G). split; [|by rewrite Permutation_app_comm]. unfold parts in *. rewrite <-!app_assoc in *.
    destruct (swap_mid size Hsize base m (v :: E ++ L ++ U) x G g F Hb) as [Hw _]; [cbn; by rewrite <-!app_assoc|]. cbn [app] in *. rewrite <-!app_assoc in Hw. cbn [app] in Hw.
    rewrite <-Hw. f_equal; f_equal; cbn [length]; rewrite ?length_app; cbn [length]; lia.
Qed.

Lemma scan_up_ok U : forall fuel E L G F cnt,
  sized (parts E L U G F) -> (length U < fuel)%nat -> equals E -> smaller L ->
  exists E' L' U' cnt', scan_up size compar fuel (SWAPINIT size base) base (cursors_at E L U G cnt) (arr base m (parts E L U G F)) = Ok (cursors_at E' L' U' G cnt', arr base m (parts E' L' U' G F))
    /\ parts E' L' U' G F ≡ₚ parts E L U G F /\ (length U' <= length U)%nat /\ equals E' /\ smaller L' /\ (forall x, head U' = Some x -> 0 < compar x v).
Proof.
  induction U as [|x U IH]; intros [|fuel] E L G F cnt Hs Hf HE HL; try (simpl in Hf; lia); cbn [scan_up cursors_at]; rewrite elt_le.
  - exists E, L, [], cnt. rewrite (proj2 (Nat.leb_gt _ _)) by (simpl; lia). by repeat split.
  - rewrite (proj2 (Nat.leb_le _ _)) by (simpl; lia). pose proof (cmp_pivot E L [] x U G F Hs) as Hc. cbn [length app] in Hc. rewrite Nat.add_0_r in Hc. rewrite Hc, bind_Ok.
    destruct (compar x v <=? 0) eqn:E1; [destruct (compar x v =? 0) eqn:E2|].
    + destruct (swap_up E L x U G F Hs) as (L1 & Hw & HL1). rewrite Hw, bind_Ok, !elt_succ. assert (parts (E ++ [x]) L1 U G F ≡ₚ parts E L (x :: U) G F) as Hp by (unfold parts; rewrite HL1; solve_Permutation).
      destruct (IH fuel (E ++ [x]) L1 G F 1) as (E' & L' & U' & cnt' & Hr & Hp' & Hl & HE' & HL' & Hx).
      * by eapply (sized_perm size).
      * simpl in Hf. lia.
      * apply Forall_app. split; [done|]. by constructor; [apply Z.eqb_eq|].
      * unfold smaller. by rewrite HL1.
      * exists E', L', U', cnt'. split; [|split; [by rewrite Hp'|split; [simpl; lia|done]]]. rewrite <-Hr. unfold cursors_at. rewrite length_app, (Permutation_length HL1). cbn [length].
        do 2 f_equal; f_equal; lia.
    + rewrite elt_succ. destruct (IH fuel E (L ++ [x]) G F cnt) as (E' & L' & U' & cnt' & Hr & Hp' & Hl & HE' & HL' & Hx).
      * unfold parts in *. by rewrite <-app_assoc.
      * simpl in Hf. lia.
      * done.
      * apply Forall_app. split; [done|]. constructor; [lia|done].
      * exists E', L', U', cnt'. unfold parts in *. rewrite <-app_assoc in *. split; [|split; [by rewrite Hp'|split; [simpl; lia|done]]]. rewrite <-Hr. unfold cursors_at. rewrite length_app. cbn [length].
        do 2 f_equal; f_equal; lia.
    + exists E, L, (x :: U), cnt. repeat split; try done. intros y [= <-]. lia.
Qed.

Lemma scan_down_ok U : forall fuel E L G F cnt,
  sized (parts E L U G F) -> (length U < fuel)%nat -> larger G -> equals F ->
  exists U' W G' F' cnt', scan_down size compar fuel (SWAPINIT size base) base (cursors_at E L U G cnt) (arr base m (parts E L U G F)) = Ok (cursors_at E L U' G' cnt', arr base m (parts E L U' G' F'))
    /\ parts E L U' G' F' ≡ₚ parts E L U G F /\ U = U' ++ W /\ larger G' /\ equals F' /\ (forall x, last U' = Some x -> compar x v < 0).
Proof.
  induction U as [|x U IH] using rev_ind; intros [|fuel] E L G F cnt Hs Hf HG HF; try (rewrite length_app in Hf; simpl in Hf; lia); try (simpl in Hf; lia); cbn [scan_down cursors_at]; rewrite elt_le.
  - exists [], [], G, F, cnt. rewrite (proj2 (Nat.leb_gt _ _)) by (simpl; lia). by repeat split.
  - rewrite length_app, Nat.add_1_r in *. rewrite (proj2 (Nat.leb_le _ _)) by lia. rewrite Nat.add_succ_r, (cmp_pivot E L U x [] G F Hs), bind_Ok.
    destruct (0 <=? compar x v) eqn:E1; [destruct (compar x v =? 0) eqn:E2|].
    + destruct (swap_down E L U x G F Hs) as (G1 & Hw & HG1). rewrite Nat.add_succ_l, Hw, bind_Ok, !elt_pred.
      assert (parts E L U G1 (x :: F) ≡ₚ parts E L (U ++ [x]) G F) as Hp by (unfold parts; rewrite HG1; solve_Permutation).
      destruct (IH fuel E L G1 (x :: F) 1) as (U' & W & G' & F' & cnt' & Hr & Hp' & -> & HG' & HF' & Hx).
      * by eapply (sized_perm size).
      * lia.
      * unfold larger. by rewrite HG1.
      * by constructor; [apply Z.eqb_eq|].
      * exists U', (W ++ [x]), G', F', cnt'. split; [|split; [by rewrite Hp'|split; [by rewrite app_assoc|done]]]. rewrite <-Hr. unfold cursors_at. rewrite (Permutation_length HG1). done.
    + rewrite Nat.add_succ_l, elt_pred. destruct (IH fuel E L (x :: G) F cnt) as (U' & W & G' & F' & cnt' & Hr & Hp' & -> & HG' & HF' & Hx).
      * unfold parts in *. by rewrite <-app_assoc in Hs.
      * lia.
      * constructor; [lia|done].
      * done.
      * exists U', (W ++ [x]), G', F', cnt'. unfold parts in *. rewrite <-(app_assoc _ [x]) in *. split; [|split; [by rewrite Hp'|split; [by rewrite app_assoc|done]]]. rewrite <-Hr. unfold cursors_at. cbn [length].
        do 2 f_equal; f_equal; lia.
    + exists (U ++ [x]), [], G, F, cnt. rewrite app_nil_r. unfold cursors_at. rewrite length_app, Nat.add_1_r, Nat.add_succ_r. repeat split; try done. intros y. rewrite last_snoc. intros [= <-]. lia.
Qed.

(** The elements that stop both scans change places. *)
Lemma swap_across E L x U y G F :
  sized (parts E L (x :: U ++ [y]) G F) ->
  swap size (SWAPINIT size base) (elt base (S (length E + length L))) (elt base (length E + length L + length (x :: U ++ [y]))) (arr base m (parts E L (x :: U ++ [y]) G F))
    = Ok (arr base m (parts E (L ++ [y]) U (x :: G) F)).
Proof.
  intros Hs. destruct (swap_mid size Hsize base m (v :: E ++ L) x U y (G ++ F) Hb) as [Hw _]; unfold parts in *; cbn [app] in *; rewrite <-!app_assoc in *; cbn [app] in *; [done|].
  rewrite <-Hw. f_equal; f_equal; cbn [length]; rewrite ?length_app; cbn [length]; lia.
Qed.

Lemma partition_ok n fuel : forall E L U G F cnt,
  sized (parts E L U G F) -> (length U < fuel)%nat -> (length U < n)%nat -> equals E -> smaller L -> larger G -> equals F ->
  exists E' L' G' F' cnt', partition size compar fuel n (SWAPINIT size base) base (cursors_at E L U G cnt) (arr base m (parts E L U G F)) = Ok (cursors_at E' L' [] G' cnt', arr base m (parts E' L' [] G' F'))
    /\ parts E' L' [] G' F' ≡ₚ parts E L U G F /\ equals E' /\ smaller L' /\ larger G' /\ equals F'.
Proof.
  induction fuel as [|fuel IH]; intros E L U G F cnt Hs Hf Hn HE HL HG HF; [lia|]. cbn [partition].
  destruct (scan_up_ok U n E L G F cnt Hs Hn HE HL) as (E1 & L1 & U1 & c1 & H1 & P1 & Hl1 & HE1 & HL1 & Hx). rewrite H1, bind_Ok.
  assert (sized (parts E1 L1 U1 G F)) as Hs1 by (by eapply (sized_perm size)).
  destruct (scan_down_ok U1 n E1 L1 G F c1 Hs1) as (U2 & W & G1 & F1 & c2 & H2 & P2 & EU & HG1 & HF1 & Hy); [lia|done..|]. rewrite H2, bind_Ok. cbn [cursors_at]. rewrite elt_lt.
  assert (sized (parts E1 L1 U2 G1 F1)) as Hs2 by (by eapply (sized_perm size)).
  destruct U2 as [|x U2]; [rewrite (proj2 (Nat.ltb_lt _ _)) by (simpl; lia); exists E1, L1, G1, F1, c2; split; [done|]; split; [by rewrite P2, P1|done]|].
  rewrite (proj2 (Nat.ltb_ge _ _)) by (simpl; lia). subst U1. specialize (Hx x eq_refl). destruct U2 as [|y U2 _] using rev_ind; [specialize (Hy x eq_refl); lia|].
  specialize (Hy y). rewrite app_comm_cons, last_snoc in Hy. specialize (Hy eq_refl). rewrite swap_across, bind_Ok by done. rewrite !elt_succ.
  assert (parts E1 (L1 ++ [y]) U2 (x :: G1) F1 ≡ₚ parts E1 L1 (x :: U2 ++ [y]) G1 F1) as P3 by (unfold parts; solve_Permutation).
  rewrite length_app in Hl1. cbn [length] in Hl1. rewrite length_app in Hl1. cbn [length] in Hl1.
  destruct (IH E1 (L1 ++ [y]) U2 (x :: G1) F1 1) as (E' & L' & G' & F' & c' & Hr & P' & HA); [by eapply (sized_perm size)|lia|lia|done|..].
  - apply Forall_app. split; [done|]. by constructor.
  - by constructor.
  - done.
  - exists E', L', G', F', c'. split; [|split; [by rewrite P', P3, P2, P1|done]]. rewrite <-Hr. unfold cursors_at. rewrite !length_app. cbn [length]. rewrite length_app. cbn [length].
    rewrite elt_pred_of by lia. do 2 f_equal; f_equal; lia.
Qed.

End partition.

(** ** The pivot and the exchange of runs *)

Lemma med3_ok base m xs i j k :
  0 < base -> sized xs -> (i < length xs)%nat -> (j < length xs)%nat -> (k < length xs)%nat ->
  exists l, (l < length xs)%nat /\ med3 size compar (elt base i) (elt base j) (elt base k) (arr base m xs) = Ok (elt base l).
Proof.
  intros Hb Hs Hi Hj Hk. destruct (lookup_lt_is_Some_2 _ _ Hi) as [x Hx], (lookup_lt_is_Some_2 _ _ Hj) as [y Hy], (lookup_lt_is_Some_2 _ _ Hk) as [z Hz].
  unfold med3. rewrite (cmp_arr size compar Hsize base m xs i j x y), (cmp_arr size compar Hsize base m xs j k y z), (cmp_arr size compar Hsize base m xs i k x z) by done.
  cbn. destruct (compar x y <? 0), (compar x z <? 0), (compar y z <? 0), (0 <? compar y z); eauto.
Qed.

Lemma pivot_ok base m xs :
  0 < base -> sized xs -> Z.of_nat (length xs) * size <= INT_MAX -> (7 <= length xs)%nat ->
  exists i, (i < length xs)%nat /\ pivot size compar base (Z.of_nat (length xs)) (arr base m xs) = Ok (elt base i).
Proof.
  intros Hb Hs Hmax Hn. unfold INT_MAX in Hmax. unfold pivot. set (n := length xs) in *.
  pose proof (Nat.div_mod n 2). pose proof (Nat.mod_upper_bound n 2). pose proof (Nat.div_mod n 8). pose proof (Nat.mod_upper_bound n 8).
  change 2 with (Z.of_nat 2). change 8 with (Z.of_nat 8). rewrite <-!Nat2Z.inj_div. rewrite !u32_id by nia. rewrite s32_id by (unfold INT_MAX; nia).
  change (base + Z.of_nat (n / 2) * size) with (elt base (n / 2)). replace (base + (Z.of_nat n - 1) * size) with (elt base (n - 1)) by (unfold QsortMem.elt; nia).
  assert (forall k i, elt base i + Z.of_nat k * size = elt base (i + k)) as Ha by (intros; unfold QsortMem.elt; lia).
  assert (forall k i, (k <= i)%nat -> elt base i - Z.of_nat k * size = elt base (i - k)) as Hd by (intros; unfold QsortMem.elt; nia).
  destruct (7 <? Z.of_nat n) eqn:E7; [|exists (n / 2)%nat; split; [lia|done]]. destruct (40 <? Z.of_nat n) eqn:E40.
  - rewrite !Z.mul_assoc. rewrite <-!Nat2Z.inj_mul.
    destruct (med3_ok base m xs 0 (0 + n / 8) (0 + 2 * (n / 8))) as (i1 & Hi1 & E1); [done|done|lia..|]. rewrite <-!Ha, elt_0 in E1. rewrite E1, bind_Ok, !Ha, !Hd by lia.
    destruct (med3_ok base m xs (n / 2 - n / 8) (n / 2) (n / 2 + n / 8)) as (i2 & Hi2 & E2); [done|done|lia..|]. rewrite E2, bind_Ok.
    destruct (med3_ok base m xs (n - 1 - 2 * (n / 8)) (n - 1 - n / 8) (n - 1)) as (i3 & Hi3 & E3); [done|done|lia..|]. rewrite E3, !bind_Ok. by apply med3_ok.
  - cbn. destruct (med3_ok base m xs 0 (n / 2) (n - 1)) as (i1 & Hi1 & E1); [done|done|lia..|]. rewrite elt_0 in E1. by exists i1.
Qed.

(** Two neighbouring runs change places, up to the order within each. *)
Lemma vecswap_runs base m l1 A B l3 :
  0 < base -> sized (l1 ++ A ++ B ++ l3) -> Z.of_nat (length (A ++ B)) * size <= INT_MAX ->
  let r := Z.of_nat (Nat.min (length A) (length B)) * size in
  exists B' A', vecswap (elt base (length l1)) (elt base (length l1 + length A + length B) - r) r (SWAPINIT size base) (arr base m (l1 ++ A ++ B ++ l3)) = Ok (arr base m (l1 ++ B' ++ A' ++ l3))
    /\ B' ≡ₚ B /\ A' ≡ₚ A.
Proof.
  intros Hb Hs Hmax r. rewrite length_app in Hmax. destruct (decide (length A <= length B)%nat) as [Hl|Hl].
  - set (k := (length B - length A)%nat). assert (length (take k B) = k /\ length (drop k B) = length A) as [Lt Ld] by (rewrite length_take, length_drop; lia).
    exists (drop k B ++ take k B), A. split; [|split; [by rewrite Permutation_app_comm, take_drop|done]].
    pose proof (vecswap_arr size Hsize base m l1 A (take k B) (drop k B) l3) as Hw. rewrite (app_assoc (take k B) (drop k B)), take_drop, Lt, Ld in Hw.
    rewrite <-app_assoc, <-Hw by (done || nia). unfold r. rewrite Nat.min_l by done. f_equal; unfold QsortMem.elt; nia.
  - set (k := length B). assert (length (take k A) = k /\ length (drop k A) = (length A - k)%nat) as [Lt Ld] by (rewrite length_take, length_drop; lia).
    exists B, (drop k A ++ take k A). split; [|split; [done|by rewrite Permutation_app_comm, take_drop]].
    pose proof (vecswap_arr size Hsize base m l1 (take k A) (drop k A) B l3) as Hw. rewrite (app_assoc (take k A) (drop k A)), take_drop, Lt, Ld in Hw.
    rewrite <-app_assoc, <-Hw by (done || nia). unfold r. rewrite Nat.min_r by lia. f_equal; unfold QsortMem.elt; nia.
Qed.

(** The pivot goes to the front. *)
Lemma swap_front base m xs i :
  0 < base -> sized xs -> (i < length xs)%nat ->
  exists v ys, swap size (SWAPINIT size base) base (elt base i) (arr base m xs) = Ok (arr base m (v :: ys)) /\ v :: ys ≡ₚ xs.
Proof.
  intros Hb Hs Hi. destruct xs as [|x xs]; [simpl in Hi; lia|]. destruct i as [|i].
  - exists x, xs. split; [|done]. rewrite <-(elt_0 base) at 2. by apply swap_self.
  - simpl in Hi. destruct (lookup_lt_is_Some_2 xs i) as [y Hy]; [lia|]. apply list_elem_of_split_length in Hy as (l & r & -> & ->). exists y, (l ++ x :: r).
    destruct (swap_mid size Hsize base m [] x l y r Hb Hs) as [Hw _]. cbn [length app] in Hw. rewrite elt_0, Nat.add_0_l in Hw. split; [exact Hw|].
    rewrite <-!Permutation_middle. apply Permutation_swap.
Qed.

(** The two sides of the pivot, once sorted. *)
Lemma sides_ordered v A B C :
  comparison compar -> ordered A -> ordered C -> smaller v A -> equals v B -> larger v C -> ordered (A ++ B ++ C).
Proof.
  intros HC HA HO2 Hs He Hl. unfold smaller, equals, larger in *. rewrite Forall_forall in Hs, He, Hl. assert (forall x y, x ∈ A ++ B -> y ∈ B ++ C -> compar x y <= 0) as Hv.
  { intros x y Hx Hy. apply (cmp_trans _ HC x v y).
    - apply elem_of_app in Hx as [Hx|Hx]; [specialize (Hs x Hx)|specialize (He x Hx)]; lia.
    - apply (proj2 (cmp_flip _ HC v y)). apply elem_of_app in Hy as [Hy|Hy]; [specialize (He y Hy)|specialize (Hl y Hy)]; lia. }
  apply StronglySorted_app. split; [intros x y Hx Hy; apply Hv; set_solver|]. split; [done|]. apply StronglySorted_app. split; [intros x y Hx Hy; apply Hv; set_solver|]. split; [|done].
  assert (forall l, (forall x, x ∈ l -> x ∈ B) -> ordered l) as Hl'; [|by apply Hl'].
  induction l as [|x l IH]; intros H; constructor; [apply IH; set_solver|]. apply Forall_forall. intros y Hy. apply Hv; set_solver.
Qed.

(** What the recursive call has to do for arrays of less than [n] elements. *)
Definition sorts (n : nat) (qsort : ptr -> Z -> gmap Z Z -> res (gmap Z Z)) : Prop :=
  forall base m xs, 0 < base -> sized xs -> Z.of_nat (length xs) * size <= INT_MAX -> (length xs < n)%nat ->
  exists zs, qsort base (Z.of_nat (length xs)) (arr base m xs) = Ok (arr base m zs) /\ zs ≡ₚ xs /\ (comparison compar -> ordered zs).

(** One of the two calls on a side. *)
Lemma side_ok n qsort base m xs r :
  sorts n qsort -> 0 < base -> sized xs -> (length xs < n)%nat -> r = Z.of_nat (length xs) * size -> r <= INT_MAX ->
  exists zs, (if size <? u32 r then qsort base (u32 r / size) (arr base m xs) else Ok (arr base m xs)) = Ok (arr base m zs)
    /\ zs ≡ₚ xs /\ (comparison compar -> ordered zs).
Proof.
  intros IH Hb Hs Hf -> Hmax. pose proof Hmax as Hm. unfold INT_MAX in Hm. rewrite u32_id, Z.div_mul by nia. destruct (Z.ltb_spec size (Z.of_nat (length xs) * size)) as [Hlt|Hge].
  - by apply IH.
  - exists xs. split; [done|]. split; [done|]. intros _. destruct xs as [|x [|y xs]]; [constructor|repeat constructor|simpl in Hge; nia].
Qed.

Lemma two_sides n qsort base m A B C :
  sorts n qsort -> 0 < base -> sized (A ++ B ++ C) -> Z.of_nat (length (A ++ B ++ C)) * size <= INT_MAX -> (length A < n /\ length C < n)%nat ->
  exists A' C',
    (m1 ← (if size <? u32 (Z.of_nat (length A) * size) then qsort base (u32 (Z.of_nat (length A) * size) / size) (arr base m (A ++ B ++ C)) else Ok (arr base m (A ++ B ++ C)));
     if size <? u32 (Z.of_nat (length C) * size) then qsort (elt base (length (A ++ B ++ C)) - Z.of_nat (length C) * size) (u32 (Z.of_nat (length C) * size) / size) m1 else Ok m1)
      = Ok (arr base m (A' ++ B ++ C'))
    /\ A' ≡ₚ A /\ C' ≡ₚ C /\ (comparison compar -> ordered A' /\ ordered C').
Proof.
  intros IH Hb Hs Hmax [HA HC]. apply sized_app in Hs as [SA SBC]. rewrite length_app in *. pose proof Hmax as Hm. unfold INT_MAX in Hm.
  rewrite (arr_front size base m A (B ++ C)) by done.
  destruct (side_ok n qsort base (arr (elt base (length A)) m (B ++ C)) A (Z.of_nat (length A) * size) IH Hb SA) as (A' & E1 & PA & OA); [done|done|unfold INT_MAX; nia|].
  rewrite E1, bind_Ok. assert (sized A') as SA' by (by eapply (sized_perm size)). rewrite <-(Permutation_length PA). rewrite <-(arr_front size base m A' (B ++ C)) by done.
  apply sized_app in SBC as [SB SC]. rewrite app_assoc, (arr_app size base m (A' ++ B) C) by (by apply sized_app). rewrite length_app in *.
  replace (elt base (length A' + (length B + length C)) - Z.of_nat (length C) * size) with (elt base (length (A' ++ B))) by (rewrite length_app; unfold QsortMem.elt; lia).
  destruct (side_ok n qsort (elt base (length (A' ++ B))) (arr base m (A' ++ B)) C (Z.of_nat (length C) * size) IH) as (C' & E2 & PC & OC); [unfold QsortMem.elt; nia|done|done|done|unfold INT_MAX; nia|].
  rewrite E2. exists A', C'. split; [|split; [done|split; [done|intros HCo; split; [by apply OA|by apply OC]]]]. rewrite app_assoc, (arr_app size base m (A' ++ B) C') by (by apply sized_app). done.
Qed.

Lemma min_size (a b : nat) : min (Z.of_nat a * size) (Z.of_nat b * size) = Z.of_nat (Nat.min a b) * size.
Proof. unfold min. destruct (Z.ltb_spec (Z.of_nat a * size) (Z.of_nat b * size)); [rewrite Nat.min_l by nia|rewrite Nat.min_r by nia]; done. Qed.

Lemma sort_sides_ok n qsort base m v E L G F cnt :
  let xs := parts v E L [] G F in
  sorts n qsort -> 0 < base -> sized xs -> Z.of_nat (length xs) * size <= INT_MAX -> (length xs <= n)%nat -> equals v E -> smaller v L -> larger v G -> equals v F ->
  exists zs, sort_sides size qsort (SWAPINIT size base) base (Z.of_nat (length xs)) (cursors_at base E L [] G cnt) (arr base m xs) = Ok (arr base m zs)
    /\ zs ≡ₚ xs /\ (comparison compar -> ordered zs).
Proof.
  intros xs IH Hb Hs Hmax Hn HE HL HG HF. assert (length xs = S (length E + length L + length G + length F)) as Hlen by (unfold xs, parts; simpl; rewrite !length_app; lia).
  unfold sort_sides, cursors_at. cbn [length]. rewrite !Nat.add_0_r. pose proof Hmax as Hm. unfold INT_MAX in Hm. rewrite (u32_id (Z.of_nat (length xs) * size)) by nia.
  change (base + Z.of_nat (length xs) * size) with (elt base (length xs)).
  assert (elt base (S (length E)) - base = Z.of_nat (S (length E)) * size) as -> by (unfold QsortMem.elt; lia).
  rewrite !elt_sub by lia. replace (S (length E + length L) - S (length E))%nat with (length L) by lia. replace (length E + length L + length G - (length E + length L))%nat with (length G) by lia.
  assert (Z.of_nat (length xs - (length E + length L + length G)) * size - size = Z.of_nat (length F) * size) as -> by nia.
  assert (forall k, (k <= length xs)%nat -> 0 <= Z.of_nat k * size <= INT_MAX) as Hk by (unfold INT_MAX; nia).
  assert (forall k, (k <= length xs)%nat -> u32 (Z.of_nat k * size) = Z.of_nat k * size) as Hu by (intros k Hl; apply u32_id; specialize (Hk k Hl); unfold INT_MAX in Hk; lia).
  assert (forall k, (k <= length xs)%nat -> s32 (Z.of_nat k * size) = Z.of_nat k * size) as Hi by (intros k Hl; apply s32_id; specialize (Hk k Hl); lia).
  rewrite !Hu, !min_size, !Hi by lia.
  destruct (vecswap_runs base m [] (v :: E) L (G ++ F) Hb Hs) as (L1 & A1 & Ew1 & PL & PA); [apply Hk; rewrite length_app; cbn [length]; lia|]. cbn [length] in Ew1. rewrite elt_0, Nat.add_0_l, Nat.add_succ_l in Ew1.
  change (arr base m xs) with (arr base m ([] ++ (v :: E) ++ L ++ G ++ F)). rewrite Ew1, bind_Ok. cbn [app].
  assert (length L1 = length L /\ length A1 = S (length E)) as [LL LA] by (by rewrite PL, PA).
  assert ((L1 ++ A1) ++ G ++ F ≡ₚ xs) as P1 by (rewrite PL, PA; unfold xs, parts; solve_Permutation).
  destruct (vecswap_runs base m (L1 ++ A1) G F [] Hb) as (F1 & G1 & Ew2 & PF & PG); [rewrite app_nil_r; by eapply (sized_perm size)|apply Hk; rewrite length_app; lia|].
  rewrite !app_nil_r in Ew2. rewrite length_app in Ew2. replace (length L1 + length A1 + length G + length F)%nat with (length xs) in Ew2 by lia.
  replace (length L1 + length A1)%nat with (S (length E + length L)) in Ew2 by lia. rewrite (app_assoc L1), Ew2, bind_Ok.
  assert (length G1 = length G /\ length F1 = length F) as [LG LF] by (by rewrite PG, PF).
  assert (L1 ++ (A1 ++ F1) ++ G1 ≡ₚ xs) as P2 by (rewrite <-P1, PF, PG; solve_Permutation).
  destruct (two_sides n qsort base m L1 (A1 ++ F1) G1 IH Hb) as (L2 & G2 & Er & PL2 & PG2 & Ho); [by eapply (sized_perm size)|by rewrite P2|lia|].
  rewrite (Permutation_length P2), LL, LG, <-!app_assoc in Er. rewrite <-!app_assoc, Er. exists (L2 ++ A1 ++ F1 ++ G2). split; [done|]. split; [rewrite <-P2, PL2, PG2; solve_Permutation|].
  intros HC. destruct (Ho HC) as [HoL HoG]. rewrite (app_assoc A1). apply (sides_ordered v); try done; unfold smaller, equals, larger in *.
  - by rewrite PL2, PL.
  - rewrite PA, PF. constructor; [|by apply Forall_app]. pose proof (cmp_flip _ HC v v). destruct (Z.le_gt_cases (compar v v) 0); lia.
  - by rewrite PG2, PG.
Qed.

Lemma qsort_loop_ok fuel : sorts fuel (qsort_loop size compar fuel).
Proof.
  induction fuel as [|fuel IH]; intros base m xs Hb Hs Hmax Hf; [lia|]. cbn [qsort_loop]. destruct (Z.ltb_spec (Z.of_nat (length xs)) 7) as [H7|H7]; [by apply insertion_sort_ok|].
  destruct (pivot_ok base m xs Hb Hs Hmax) as (i & Hi & Ep); [lia|]. rewrite Ep, bind_Ok. destruct (swap_front base m xs i Hb Hs Hi) as (v & U & Ew & Pw). rewrite Ew, bind_Ok.
  rewrite <-(Permutation_length Pw) in *. assert (sized (v :: U)) as Hs0 by (by eapply (sized_perm size)). set (n := length (v :: U)) in *. assert (n = S (length U)) as Hn by done.
  pose proof Hmax as Hm. unfold INT_MAX in Hm.
  destruct (partition_ok base m v Hb (S n) (S n) [] [] U [] [] 0) as (E & L & G & F & cnt & Er & Pr & HE & HL & HG & HF); [|lia|lia|constructor..|].
  { unfold parts. cbn [app]. by rewrite app_nil_r. }
  rewrite (u32_id ((Z.of_nat n - 1) * size)), Nat2Z.id by nia. unfold parts at 1, cursors_at at 1 in Er. unfold parts at 2 in Pr. cbn [app length] in Er, Pr. rewrite !app_nil_r in Er, Pr.
  rewrite !Nat.add_0_r, !Nat.add_0_l in Er. replace (base + (Z.of_nat n - 1) * size) with (elt base (length U)) by (unfold QsortMem.elt; nia).
  replace (base + size) with (elt base 1) by (unfold QsortMem.elt; lia). rewrite Er, bind_Ok. cbn [swap_cnt cursors_at].
  assert (sized (parts v E L [] G F)) as Hs1 by (by eapply (sized_perm size)). assert (n = length (parts v E L [] G F)) as El by (by rewrite Pr).
  destruct (cnt =? 0).
  - destruct (insertion_sort_ok base m Hb (parts v E L [] G F) Hs1) as (zs & Hz & Pz & Ho); [by rewrite <-El|]. rewrite <-El in Hz. exists zs. split; [done|]. split; [by rewrite Pz, Pr|done].
  - destruct (sort_sides_ok fuel (qsort_loop size compar fuel) base m v E L G F cnt IH Hb Hs1) as (zs & Hz & Pz & Ho); [by rewrite <-El|lia|done..|].
    rewrite <-El in Hz. exists zs. split; [done|]. split; [by rewrite Pz, Pr|done].
Qed.

(** C35: qsort returns for every array whose size in bytes is at most INT_MAX and for
    every comparison, consistent or not; it permutes the elements and changes no
    byte outside the array, and when the comparison is a total preorder the result
    is in order. *)
Theorem qsort_sorts base xs m :
  0 < base -> sized xs -> Z.of_nat (length xs) * size <= INT_MAX -> holds base (concat xs) m ->
  wp (qsort size compar base (Z.of_nat (length xs)) m) (fun m' => exists zs,
    holds base (concat zs) m' /\ zs ≡ₚ xs /\ (comparison compar -> ordered zs)
    /\ forall a, ~ (base <= a < base + Z.of_nat (length xs) * size) -> m' !! a = m !! a).
Proof.
  intros Hb Hs Hmax Hm. unfold qsort. rewrite Nat2Z.id. rewrite <-(fill_id base (concat xs) m) at 1 by done.
  destruct (qsort_loop_ok (S (length xs)) base m xs Hb Hs Hmax) as (zs & Hr & Hp & Ho); [lia|]. unfold arr in Hr. rewrite Hr. exists zs. split; [apply holds_fill|]. do 2 (split; [done|]).
  intros a Ha. apply lookup_fill_out. rewrite (concat_length size), (Permutation_length Hp) by (by eapply (sized_perm size)). done.
Qed.

End thm.

(** ** An example *)

(** Elements of two bytes, compared by the first one. *)
Definition by_first (x y : list Z) : Z := default 0 (head x) - default 0 (head y).

Lemma by_first_comparison : comparison by_first.
Proof. unfold by_first. split; intros; lia. Qed.

Definition demo_array : list (list Z) := [[5; 0]; [3; 1]; [9; 2]; [3; 3]; [7; 4]; [1; 5]; [5; 6]; [8; 7]; [2; 8]].

Lemma qsort_sorts_witness :
  (match qsort 2 by_first 100 9 (fill 100 (concat demo_array) ∅) with Ok m => load 18 100 m | Err f => Err f end)
    = Ok [1; 5; 2; 8; 3; 1; 3; 3; 5; 0; 5; 6; 7; 4; 8; 7; 9; 2]
  /\ wp (qsort 2 by_first 100 9 (fill 100 (concat demo_array) ∅)) (fun m' => exists zs,
       holds 100 (concat zs) m' /\ zs ≡ₚ demo_array /\ (comparison by_first -> StronglySorted (fun x y => by_first x y <= 0) zs)
       /\ forall a, ~ (100 <= a < 100 + 9 * 2) -> m' !! a = fill 100 (concat demo_array) ∅ !! a).
Proof.
  split; [vm_compute; reflexivity|]. apply (qsort_sorts 2 by_first ltac:(unfold INT_MAX; lia) 100 demo_array (fill 100 (concat demo_array) ∅)); [lia|by repeat constructor|done|apply holds_fill].
Defined.
