(* ===== verification/Crc.v ===== *)
(** * Cyclic redundancy check (src/nuttx/lib/misc/lib_crc32.c)

    The table-driven computation of a 32-bit CRC, eight bits at a time, and the
    shift register of the comment at the top of the file, which it stands for. *)

From S2P Require Import Prelude Bytes.

Definition crc32_tab : list Z :=
  [0x00000000; 0x77073096; 0xee0e612c; 0x990951ba; 0x076dc419; 0x706af48f; 0xe963a535; 0x9e6495a3;
   0x0edb8832; 0x79dcb8a4; 0xe0d5e91e; 0x97d2d988; 0x09b64c2b; 0x7eb17cbd; 0xe7b82d07; 0x90bf1d91;
   0x1db71064; 0x6ab020f2; 0xf3b97148; 0x84be41de; 0x1adad47d; 0x6ddde4eb; 0xf4d4b551; 0x83d385c7;
   0x136c9856; 0x646ba8c0; 0xfd62f97a; 0x8a65c9ec; 0x14015c4f; 0x63066cd9; 0xfa0f3d63; 0x8d080df5;
   0x3b6e20c8; 0x4c69105e; 0xd56041e4; 0xa2677172; 0x3c03e4d1; 0x4b04d447; 0xd20d85fd; 0xa50ab56b;
   0x35b5a8fa; 0x42b2986c; 0xdbbbc9d6; 0xacbcf940; 0x32d86ce3; 0x45df5c75; 0xdcd60dcf; 0xabd13d59;
   0x26d930ac; 0x51de003a; 0xc8d75180; 0xbfd06116; 0x21b4f4b5; 0x56b3c423; 0xcfba9599; 0xb8bda50f;
   0x2802b89e; 0x5f058808; 0xc60cd9b2; 0xb10be924; 0x2f6f7c87; 0x58684c11; 0xc1611dab; 0xb6662d3d;
   0x76dc4190; 0x01db7106; 0x98d220bc; 0xefd5102a; 0x71b18589; 0x06b6b51f; 0x9fbfe4a5; 0xe8b8d433;
   0x7807c9a2; 0x0f00f934; 0x9609a88e; 0xe10e9818; 0x7f6a0dbb; 0x086d3d2d; 0x91646c97; 0xe6635c01;
   0x6b6b51f4; 0x1c6c6162; 0x856530d8; 0xf262004e; 0x6c0695ed; 0x1b01a57b; 0x8208f4c1; 0xf50fc457;
   0x65b0d9c6; 0x12b7e950; 0x8bbeb8ea; 0xfcb9887c; 0x62dd1ddf; 0x15da2d49; 0x8cd37cf3; 0xfbd44c65;
   0x4db26158; 0x3ab551ce; 0xa3bc0074; 0xd4bb30e2; 0x4adfa541; 0x3dd895d7; 0xa4d1c46d; 0xd3d6f4fb;
   0x4369e96a; 0x346ed9fc; 0xad678846; 0xda60b8d0; 0x44042d73; 0x33031de5; 0xaa0a4c5f; 0xdd0d7cc9;
   0x5005713c; 0x270241aa; 0xbe0b1010; 0xc90c2086; 0x5768b525; 0x206f85b3; 0xb966d409; 0xce61e49f;
   0x5edef90e; 0x29d9c998; 0xb0d09822; 0xc7d7a8b4; 0x59b33d17; 0x2eb40d81; 0xb7bd5c3b; 0xc0ba6cad;
   0xedb88320; 0x9abfb3b6; 0x03b6e20c; 0x74b1d29a; 0xead54739; 0x9dd277af; 0x04db2615; 0x73dc1683;
   0xe3630b12; 0x94643b84; 0x0d6d6a3e; 0x7a6a5aa8; 0xe40ecf0b; 0x9309ff9d; 0x0a00ae27; 0x7d079eb1;
   0xf00f9344; 0x8708a3d2; 0x1e01f268; 0x6906c2fe; 0xf762575d; 0x806567cb; 0x196c3671; 0x6e6b06e7;
   0xfed41b76; 0x89d32be0; 0x10da7a5a; 0x67dd4acc; 0xf9b9df6f; 0x8ebeeff9; 0x17b7be43; 0x60b08ed5;
   0xd6d6a3e8; 0xa1d1937e; 0x38d8c2c4; 0x4fdff252; 0xd1bb67f1; 0xa6bc5767; 0x3fb506dd; 0x48b2364b;
   0xd80d2bda; 0xaf0a1b4c; 0x36034af6; 0x41047a60; 0xdf60efc3; 0xa867df55; 0x316e8eef; 0x4669be79;
   0xcb61b38c; 0xbc66831a; 0x256fd2a0; 0x5268e236; 0xcc0c7795; 0xbb0b4703; 0x220216b9; 0x5505262f;
   0xc5ba3bbe; 0xb2bd0b28; 0x2bb45a92; 0x5cb36a04; 0xc2d7ffa7; 0xb5d0cf31; 0x2cd99e8b; 0x5bdeae1d;
   0x9b64c2b0; 0xec63f226; 0x756aa39c; 0x026d930a; 0x9c0906a9; 0xeb0e363f; 0x72076785; 0x05005713;
   0x95bf4a82; 0xe2b87a14; 0x7bb12bae; 0x0cb61b38; 0x92d28e9b; 0xe5d5be0d; 0x7cdcefb7; 0x0bdbdf21;
   0x86d3d2d4; 0xf1d4e242; 0x68ddb3f8; 0x1fda836e; 0x81be16cd; 0xf6b9265b; 0x6fb077e1; 0x18b74777;
   0x88085ae6; 0xff0f6a70; 0x66063bca; 0x11010b5c; 0x8f659eff; 0xf862ae69; 0x616bffd3; 0x166ccf45;
   0xa00ae278; 0xd70dd2ee; 0x4e048354; 0x3903b3c2; 0xa7672661; 0xd06016f7; 0x4969474d; 0x3e6e77db;
   0xaed16a4a; 0xd9d65adc; 0x40df0b66; 0x37d83bf0; 0xa9bcae53; 0xdebb9ec5; 0x47b2cf7f; 0x30b5ffe9;
   0xbdbdf21c; 0xcabac28a; 0x53b39330; 0x24b4a3a6; 0xbad03605; 0xcdd70693; 0x54de5729; 0x23d967bf;
   0xb3667a2e; 0xc4614ab8; 0x5d681b02; 0x2a6f2b94; 0xb40bbe37; 0xc30c8ea1; 0x5a05df1b; 0x2d02ef8d].

(** A byte of the table; the index is below 256. *)
Definition crc32_entry (i : Z) : res Z :=
  match crc32_tab !! Z.to_nat i with
  | Some x => Ok x
  | None => Err FWild
  end.

Definition crc32_step (crc32val b : Z) : res Z :=
  x ← crc32_entry (Z.land (Z.lxor crc32val b) 0xff);
  Ok (Z.lxor x (Z.shiftr crc32val 8)).

(** The loop over the [n] bytes that are left from [src] on. *)
Fixpoint crc32_loop (n : nat) (src : ptr) (crc32val : Z) (m : gmap Z Z) : res Z :=
  match n with
  | O => Ok crc32val
  | S n =>
      b ← deref m src;
      crc32val ← crc32_step crc32val b;
      crc32_loop n (src + 1) crc32val m
  end.

Definition crc32part (src : ptr) (len crc32val : Z) (m : gmap Z Z) : res Z := crc32_loop (Z.to_nat len) src crc32val m.

Definition crc32 (src : ptr) (len : Z) (m : gmap Z Z) : res Z := crc32part src len 0 m.

(** ** The shift register *)

(** The polynomial, with the coefficient of X^31 in the lowest bit. *)
Definition POLY : Z := 0xedb88320.

(** One bit leaves the register; when it is set the polynomial is subtracted. *)
Definition shift_bit (c : Z) : Z := if Z.odd c then Z.lxor (Z.shiftr c 1) POLY else Z.shiftr c 1.

Definition shift_byte (c b : Z) : Z := Nat.iter 8 shift_bit (Z.lxor c b).

Definition shift_bytes (c : Z) (bs : list Z) : Z := foldl shift_byte c bs.

Definition byte (b : Z) : Prop := 0 <= b < 256.

Lemma crc32_tab_entries : crc32_tab = map (fun i => Nat.iter 8 shift_bit (Z.of_nat i)) (seq 0 256).
Proof. vm_compute. reflexivity. Qed.

Lemma crc32_entry_ok i : byte i -> crc32_entry i = Ok (Nat.iter 8 shift_bit i).
Proof.
  intros Hi. unfold byte in Hi. unfold crc32_entry. rewrite crc32_tab_entries, list_lookup_fmap, lookup_seq_lt by lia. cbn [fmap option_fmap option_map]. do 2 f_equal. lia.
Qed.

(** *** The register is linear *)

Lemma shift_bit_lxor a b : shift_bit (Z.lxor a b) = Z.lxor (shift_bit a) (shift_bit b).
Proof.
  unfold shift_bit. rewrite <-!Z.bit0_odd, Z.lxor_spec, Z.shiftr_lxor. destruct (Z.testbit a 0), (Z.testbit b 0); cbn [xorb].
  - rewrite (Z.lxor_comm (Z.shiftr b 1)), Z.lxor_assoc, <-(Z.lxor_assoc POLY), Z.lxor_nilpotent. by rewrite Z.lxor_0_l.
  - rewrite !Z.lxor_assoc. f_equal. apply Z.lxor_comm.
  - by rewrite Z.lxor_assoc.
  - done.
Qed.

Lemma shift_bits_lxor n a b : Nat.iter n shift_bit (Z.lxor a b) = Z.lxor (Nat.iter n shift_bit a) (Nat.iter n shift_bit b).
Proof. induction n as [|n IH]; [done|]. rewrite !Nat.iter_succ, IH. apply shift_bit_lxor. Qed.

Lemma shift_bits_shiftl n h : Nat.iter n shift_bit (Z.shiftl h (Z.of_nat n)) = h.
Proof.
  induction n as [|n IH]; [apply Z.shiftl_0_r|]. rewrite Nat.iter_succ_r. rewrite <-IH at 2. f_equal. unfold shift_bit.
  rewrite <-Z.bit0_odd, Z.shiftl_spec_low by lia. rewrite Z.shiftr_shiftl_l by lia. f_equal. lia.
Qed.

Lemma split_low c n : 0 <= n -> Z.lxor (Z.land c (Z.ones n)) (Z.shiftl (Z.shiftr c n) n) = c.
Proof.
  intros Hn. apply Z.bits_inj'. intros k Hk. rewrite Z.lxor_spec, Z.land_spec, Z.testbit_ones_nonneg by lia. destruct (Z.ltb_spec k n).
  - rewrite Z.shiftl_spec_low by lia. by rewrite andb_true_r, xorb_false_r.
  - rewrite Z.shiftl_spec, Z.shiftr_spec by lia. rewrite andb_false_r, xorb_false_l. f_equal. lia.
Qed.

Lemma byte_bits b k : byte b -> 8 <= k -> Z.testbit b k = false.
Proof. intros Hb Hk. rewrite <-(Z.mod_small b (2 ^ 8)) by exact Hb. by apply Z.mod_pow2_bits_high. Qed.

Lemma byte_shiftr b : byte b -> Z.shiftr b 8 = 0.
Proof. intros Hb. apply Z.bits_inj'. intros k Hk. rewrite Z.shiftr_spec, Z.bits_0 by done. apply byte_bits; [done|lia]. Qed.

(** Eight steps of the register at once. *)
Lemma crc32_step_ok c b : byte b -> crc32_step c b = Ok (shift_byte c b).
Proof.
  intros Hb. unfold crc32_step, shift_byte. set (x := Z.lxor c b). assert (Z.land x 255 = x mod 2 ^ 8) as Ex by (apply (Z.land_ones x 8); lia).
  rewrite crc32_entry_ok by (unfold byte; rewrite Ex; apply Z.mod_pos_bound; lia). rewrite bind_Ok. f_equal.
  rewrite <-(split_low x 8) at 2 by lia. rewrite shift_bits_lxor. f_equal. pose proof (shift_bits_shiftl 8 (Z.shiftr x 8)) as E. change (Z.of_nat 8) with 8 in E. rewrite E.
  unfold x. by rewrite Z.shiftr_lxor, (byte_shiftr b), Z.lxor_0_r by done.
Qed.

Lemma crc32_loop_ok bs : forall src c m,
  0 < src -> holds src bs m -> Forall byte bs -> crc32_loop (length bs) src c m = Ok (shift_bytes c bs).
Proof.
  induction bs as [|b bs IH]; intros src c m Hs Hm Hb; [done|]. cbn [crc32_loop length]. apply Forall_cons in Hb as [Hb Hbs].
  rewrite (deref_Some m src b), bind_Ok, crc32_step_ok, bind_Ok by (done || lia || (rewrite <-(Hm 0%nat b eq_refl); f_equal; lia)).
  apply IH; [lia| |done]. intros j x Hj. rewrite <-(Hm (S j) x Hj). f_equal. lia.
Qed.

(** *** The register does not forget *)

Lemma shift_bit_kernel c : 0 <= c < 2 ^ 32 -> shift_bit c = 0 -> c = 0.
Proof.
  intros Hc. unfold shift_bit. pose proof (Z.div_mod c 2). rewrite !Z.shiftr_div_pow2 by lia. change (2 ^ 1) with 2. rewrite Zodd_mod. destruct (Zeq_bool (c mod 2) 1) eqn:E.
  - intros E2%Z.lxor_eq. unfold POLY in E2. pose proof (Z.div_lt_upper_bound c 2 (2 ^ 31)). lia.
  - apply Zeq_bool_neq in E. pose proof (Z.mod_pos_bound c 2). lia.
Qed.

Definition word32 (c : Z) : Prop := 0 <= c < 2 ^ 32.

Lemma word32_bits c : 0 <= c -> word32 c <-> forall k, 32 <= k -> Z.testbit c k = false.
Proof.
  intros Hc. split.
  - intros Hw k Hk. rewrite <-(Z.mod_small c (2 ^ 32)) by exact Hw. by apply Z.mod_pow2_bits_high.
  - intros H. split; [done|].  assert (c = c mod 2 ^ 32) as E; [|rewrite E; by apply Z.mod_pos_bound].
    apply Z.bits_inj'. intros k Hk. destruct (Z.lt_ge_cases k 32); [by rewrite Z.mod_pow2_bits_low|]. rewrite Z.mod_pow2_bits_high by done. by apply H.
Qed.

Lemma word32_lxor a b : word32 a -> word32 b -> word32 (Z.lxor a b).
Proof.
  intros Ha Hb. assert (0 <= Z.lxor a b) as H0 by (apply Z.lxor_nonneg; unfold word32 in *; lia). apply word32_bits; [done|]. intros k Hk.
  rewrite Z.lxor_spec, (proj1 (word32_bits a ltac:(unfold word32 in *; lia)) Ha), (proj1 (word32_bits b ltac:(unfold word32 in *; lia)) Hb) by done. done.
Qed.

Lemma word32_shift_bit c : word32 c -> word32 (shift_bit c).
Proof.
  intros Hc. assert (word32 (Z.shiftr c 1)) as H by (unfold word32 in *; rewrite Z.shiftr_div_pow2 by lia; pose proof (Z.div_mod c 2); pose proof (Z.mod_pos_bound c 2); change (2 ^ 1) with 2; lia).
  unfold shift_bit. destruct (Z.odd c); [apply word32_lxor; [done|by vm_compute]|done].
Qed.

Lemma word32_shift_bits n c : word32 c -> word32 (Nat.iter n shift_bit c).
Proof. intros Hc. induction n as [|n IH]; [done|]. rewrite Nat.iter_succ. by apply word32_shift_bit. Qed.

Lemma shift_bits_kernel n c : word32 c -> Nat.iter n shift_bit c = 0 -> c = 0.
Proof.
  intros Hc. induction n as [|n IH]; [done|]. rewrite Nat.iter_succ. intros H%shift_bit_kernel; [by apply IH|by apply word32_shift_bits].
Qed.

(** The bytes as one number, the first in the lowest bits. *)
Fixpoint le_bytes (bs : list Z) : Z :=
  match bs with
  | [] => 0
  | b :: bs => Z.lxor b (Z.shiftl (le_bytes bs) 8)
  end.

Lemma shift_bytes_le bs : forall c, shift_bytes c bs = Nat.iter (8 * length bs) shift_bit (Z.lxor c (le_bytes bs)).
Proof.
  induction bs as [|b bs IH]; intros c; [symmetry; apply Z.lxor_0_r|]. cbn [shift_bytes foldl length le_bytes]. change (foldl shift_byte (shift_byte c b) bs) with (shift_bytes (shift_byte c b) bs).
  rewrite IH. replace (8 * S (length bs))%nat with (8 * length bs + 8)%nat by lia. rewrite Nat.iter_add. f_equal. unfold shift_byte. rewrite <-Z.lxor_assoc, (shift_bits_lxor 8 (Z.lxor c b)). f_equal.
  symmetry. exact (shift_bits_shiftl 8 (le_bytes bs)).
Qed.

Lemma le_bytes_bits bs k : Forall byte bs -> 8 * Z.of_nat (length bs) <= k -> Z.testbit (le_bytes bs) k = false.
Proof.
  intros Hb. revert k. induction Hb as [|b bs Hb _ IH]; intros k Hk; [apply Z.bits_0|]. cbn [le_bytes length] in *.
  rewrite Z.lxor_spec, (byte_bits b), xorb_false_l by (done || lia). rewrite Z.shiftl_spec by lia. apply IH. lia.
Qed.

Lemma le_bytes_nonneg bs : Forall byte bs -> 0 <= le_bytes bs.
Proof. induction 1 as [|b bs Hb _ IH]; [done|]. cbn [le_bytes]. apply Z.lxor_nonneg. pose proof (proj2 (Z.shiftl_nonneg (le_bytes bs) 8) IH). unfold byte in Hb. lia. Qed.

Lemma le_bytes_inj bs cs : Forall byte bs -> Forall byte cs -> length bs = length cs -> le_bytes bs = le_bytes cs -> bs = cs.
Proof.
  intros Hb. revert cs. induction Hb as [|b bs Hb _ IH]; intros [|c cs] Hc Hl E; try done. apply Forall_cons in Hc as [Hc Hcs]. cbn [le_bytes] in E.
  assert (forall x y k, byte x -> 0 <= k -> Z.testbit (Z.lxor x (Z.shiftl y 8)) k = if k <? 8 then Z.testbit x k else Z.testbit y (k - 8)) as Ht.
  { intros x y k Hx Hk. rewrite Z.lxor_spec, Z.shiftl_spec by done. destruct (Z.ltb_spec k 8); [by rewrite (Z.testbit_neg_r y), xorb_false_r by lia|by rewrite (byte_bits x), xorb_false_l by done]. }
  f_equal.
  - apply Z.bits_inj'. intros k Hk. destruct (Z.lt_ge_cases k 8) as [H8|H8]; [|by rewrite !byte_bits by done].
    pose proof (f_equal (fun z => Z.testbit z k) E) as Ek. cbn beta in Ek. rewrite !Ht in Ek by done. by rewrite (proj2 (Z.ltb_lt k 8)) in Ek by done.
  - apply IH; [done|by simplify_eq/=|]. apply Z.bits_inj'. intros k Hk. pose proof (f_equal (fun z => Z.testbit z (k + 8)) E) as Ek. cbn beta in Ek.
    rewrite !Ht in Ek by (done || lia). rewrite (proj2 (Z.ltb_ge (k + 8) 8)) in Ek by lia. by replace (k + 8 - 8) with k in Ek by lia.
Qed.

Lemma word32_le_bytes bs : Forall byte bs -> (length bs <= 4)%nat -> word32 (le_bytes bs).
Proof. intros Hb Hl. apply word32_bits; [by apply le_bytes_nonneg|]. intros k Hk. apply le_bytes_bits; [done|lia]. Qed.

Lemma word32_shift_bytes bs : forall c, word32 c -> Forall byte bs -> word32 (shift_bytes c bs).
Proof.
  induction bs as [|b bs IH]; intros c Hc Hb; [done|]. apply Forall_cons in Hb as [Hb Hbs]. apply IH; [|done]. apply word32_shift_bits, word32_lxor; [done|]. unfold byte, word32 in *. lia.
Qed.

(** Equal registers after the same bytes were equal before. *)
Lemma shift_bits_inj n a b : word32 a -> word32 b -> Nat.iter n shift_bit a = Nat.iter n shift_bit b -> a = b.
Proof.
  intros Ha Hb E. apply Z.lxor_eq. apply (shift_bits_kernel n); [by apply word32_lxor|]. rewrite shift_bits_lxor, E. apply Z.lxor_nilpotent.
Qed.

Lemma shift_bytes_inj bs : forall a b, word32 a -> word32 b -> Forall byte bs -> shift_bytes a bs = shift_bytes b bs -> a = b.
Proof.
  induction bs as [|x bs IH]; intros a b Ha Hb Hbs E; [done|]. apply Forall_cons in Hbs as [Hx Hbs].
  assert (word32 x) as Hx' by (unfold byte, word32 in *; lia). assert (shift_byte a x = shift_byte b x) as E2 by (apply IH; [apply word32_shift_bits; by apply word32_lxor..|done|done]).
  apply shift_bits_inj in E2; [|by apply word32_lxor..]. apply (f_equal (fun z => Z.lxor z x)) in E2. by rewrite !Z.lxor_assoc, Z.lxor_nilpotent, !Z.lxor_0_r in E2.
Qed.

(** C38: crc32part runs over the buffer without fault and returns what the shift
    register of the polynomial holds after the bits of the buffer, starting from
    the given value; a check continued over two buffers is the check of both; and
    two buffers that differ only within four consecutive bytes have different
    checks. *)
Theorem crc32_is_shift_register src bs c m :
  0 < src -> holds src bs m -> Forall byte bs -> word32 c ->
  crc32part src (Z.of_nat (length bs)) c m = Ok (shift_bytes c bs)
  /\ (forall u w, bs = u ++ w -> shift_bytes c bs = shift_bytes (shift_bytes c u) w)
  /\ (forall u x y w, bs = u ++ x ++ w -> Forall byte y -> length y = length x -> (length x <= 4)%nat -> x <> y -> shift_bytes c bs <> shift_bytes c (u ++ y ++ w)).
Proof.
  intros Hs Hm Hb Hc. unfold crc32part. rewrite Nat2Z.id. split; [by apply crc32_loop_ok|]. split; [intros u w ->; apply foldl_app|].
  intros u x y w -> Hy Hl H4 Hne E. apply Forall_app in Hb as [Hu [Hx Hw]%Forall_app]. unfold shift_bytes in E. rewrite !foldl_app in E.
  assert (word32 (foldl shift_byte c u)) as Hcu by (by apply word32_shift_bytes). apply (shift_bytes_inj w) in E; [|by apply word32_shift_bytes..|done].
  set (d := foldl shift_byte c u) in *. clearbody d. change (shift_bytes d x = shift_bytes d y) in E. rewrite !shift_bytes_le, Hl in E.
  apply shift_bits_inj in E; [|apply word32_lxor; [done|apply word32_le_bytes; [done|lia]]..]. apply Hne, le_bytes_inj; try done.
  apply (f_equal (Z.lxor d)) in E. by rewrite <-!Z.lxor_assoc, Z.lxor_nilpotent, !Z.lxor_0_l in E.
Qed.

(** The bytes of the digits from 1 to 9, one of them changed. *)
Lemma crc32_is_shift_register_witness :
  let bs := [49; 50; 51; 52; 53; 54; 55; 56; 57] in
  crc32part 100 9 0xffffffff (fill 100 bs ∅) = Ok (Z.lxor 0xcbf43926 0xffffffff) /\ shift_bytes 0xffffffff bs <> shift_bytes 0xffffffff [49; 50; 51; 53; 53; 54; 55; 56; 57].
Proof.
  intros bs. destruct (crc32_is_shift_register 100 bs 0xffffffff (fill 100 bs ∅)) as (H1 & _ & H3); [lia|apply holds_fill|repeat constructor; unfold byte; lia|unfold word32; lia|].
  split; [etrans; [exact H1|vm_compute; reflexivity]|]. apply (H3 [49; 50; 51] [52] [53] [53; 54; 55; 56; 57]); [done|repeat constructor; unfold byte; lia|done|simpl; lia|done].
Defined.
