(* ===== verification/Printf.v ===== *)
(** * Formatted output: operations (src/nuttx/lib/stdio/lib_libvsprintf.c, lib_memoutstream.c, lib_nulloutstream.c, lib_sprintf.c, lib_snprintf.c)

    The format, the strings it refers to and the buffers of memory streams are in
    one memory of bytes.  An argument list is the list of its words.  A stream is an
    instance of the class [OutStream]; a method gets the memory and returns it.  The
    build has field widths, ints and longs of 32 bits, and neither long long nor
    floating point. *)

From Stdlib Require Import Ascii.
From S2P Require Import Prelude Bytes.

(** A character constant. *)
Definition ch (a : ascii) : Z := Z.of_N (N_of_ascii a).
Arguments ch a%_char_scope.

(** ** Output streams *)

(** struct lib_outstream_s: the method [put] and the field [nput]. *)
Class OutStream (S : Type) : Type := {
  put : Z -> S -> gmap Z Z -> res (S * gmap Z Z);
  nput : S -> Z
}.

(** The stream that counts only. *)
Record nulloutstream : Type := NullOut { no_nput : Z }.

Definition nulloutstream_putc (c : Z) (this : nulloutstream) (m : gmap Z Z) : res (nulloutstream * gmap Z Z) := Ok (NullOut (s32 (no_nput this + 1)), m).

#[export] Instance nulloutstream_out : OutStream nulloutstream := {| put := nulloutstream_putc; nput := no_nput |}.

Definition lib_nulloutstream : nulloutstream := NullOut 0.

(** The stream that writes to a buffer of fixed size. *)
Record memoutstream : Type := MemOut { mo_nput : Z; mo_buffer : ptr; mo_buflen : Z }.

Definition memoutstream_putc (c : Z) (this : memoutstream) (m : gmap Z Z) : res (memoutstream * gmap Z Z) :=
  let '(MemOut nput buffer buflen) := this in
  if nput <? buflen then
    m ← store (fun _ => u8 c) (buffer + nput) m;
    let nput := s32 (nput + 1) in
    m ← store (fun _ => 0) (buffer + nput) m;
    Ok (MemOut nput buffer buflen, m)
  else Ok (this, m).

#[export] Instance memoutstream_out : OutStream memoutstream := {| put := memoutstream_putc; nput := mo_nput |}.

Definition lib_memoutstream (bufstart : ptr) (buflen : Z) (m : gmap Z Z) : res (memoutstream * gmap Z Z) :=
  m ← store (fun _ => 0) bufstart m;
  Ok (MemOut 0 bufstart (s32 (buflen - 1)), m).

(** ** Flags *)

Definition FLAG_SHOWPLUS : Z := 0x01.
Definition FLAG_ALTFORM : Z := 0x02.
Definition FLAG_HASDOT : Z := 0x04.
Definition FLAG_HASASTERISKWIDTH : Z := 0x08.
Definition FLAG_HASASTERISKTRUNC : Z := 0x10.
Definition FLAG_LONGPRECISION : Z := 0x20.
Definition FLAG_LONGLONGPRECISION : Z := 0x40.
Definition FLAG_NEGATE : Z := 0x80.

(** SET_x(f), CLR_x(f) and IS_x(f) for the flag or flags [x]. *)
Definition set_flag (x f : Z) : Z := Z.lor f x.
Definition clr_flag (x f : Z) : Z := Z.land f (Z.lnot x).
Definition is_flag (x f : Z) : bool := negb (Z.land f x =? 0).

Definition FLAG_SIGNED : Z := Z.lor FLAG_SHOWPLUS FLAG_NEGATE.

Inductive just : Type := FMT_RJUST | FMT_LJUST | FMT_RJUST0.

Section stream.
  Context {S : Type} {OS : OutStream S}.
  Implicit Types (obj : S) (m : gmap Z Z).

(** ** Integers to ASCII *)

Definition UINT_BITS : nat := 32.

Fixpoint utodec_rec (fuel : nat) (n : Z) obj m : res (S * gmap Z Z) :=
  match fuel with
  | O => Err FFuel
  | Datatypes.S fuel =>
      let remainder := n mod 10 in
      let dividend := n / 10 in
      '(obj, m) ← (if negb (dividend =? 0) then utodec_rec fuel dividend obj m else Ok (obj, m));
      put (remainder + ch "0") obj m
  end.

Fixpoint utooct_rec (fuel : nat) (n : Z) obj m : res (S * gmap Z Z) :=
  match fuel with
  | O => Err FFuel
  | Datatypes.S fuel =>
      let remainder := Z.land n 0x7 in
      let dividend := Z.shiftr n 3 in
      '(obj, m) ← (if negb (dividend =? 0) then utooct_rec fuel dividend obj m else Ok (obj, m));
      put (remainder + ch "0") obj m
  end.

Fixpoint utobin_rec (fuel : nat) (n : Z) obj m : res (S * gmap Z Z) :=
  match fuel with
  | O => Err FFuel
  | Datatypes.S fuel =>
      let remainder := Z.land n 1 in
      let dividend := Z.shiftr n 1 in
      '(obj, m) ← (if negb (dividend =? 0) then utobin_rec fuel dividend obj m else Ok (obj, m));
      put (remainder + ch "0") obj m
  end.

Definition utodec : Z -> S -> gmap Z Z -> res (S * gmap Z Z) := utodec_rec UINT_BITS.
Definition utooct : Z -> S -> gmap Z Z -> res (S * gmap Z Z) := utooct_rec UINT_BITS.
Definition utobin : Z -> S -> gmap Z Z -> res (S * gmap Z Z) := utobin_rec UINT_BITS.

(** The loop over the nibbles; [bits] is four times [k]. *)
Fixpoint utohex_loop (k : nat) (n a : Z) (nonzero : bool) obj m : res (bool * S * gmap Z Z) :=
  match k with
  | O => Ok (nonzero, obj, m)
  | Datatypes.S k =>
      let nibble := Z.land (Z.shiftr n (4 * Z.of_nat k)) 0xf in
      if negb (nibble =? 0) || nonzero then
        '(obj, m) ← (if nibble <? 10 then put (nibble + ch "0") obj m else put (nibble + a - 10) obj m);
        utohex_loop k n a true obj m
      else utohex_loop k n a nonzero obj m
  end.

Definition utohex (n a : Z) obj m : res (S * gmap Z Z) :=
  '(nonzero, obj, m) ← utohex_loop (UINT_BITS / 4) n a false obj m;
  if (nonzero : bool) then Ok (obj, m) else put (ch "0") obj m.

Definition utoascii (fmt flags n : Z) obj m : res (S * gmap Z Z) :=
  if (fmt =? ch "d") || (fmt =? ch "i") || (fmt =? ch "u") then utodec n obj m
  else if (fmt =? ch "p") || (fmt =? ch "x") || (fmt =? ch "X") then
    '(obj, m) ←
      (if is_flag FLAG_ALTFORM flags then
         '(obj, m) ← put (ch "0") obj m;
         put (ch "x") obj m
       else Ok (obj, m));
    if fmt =? ch "X" then utohex n (ch "A") obj m else utohex n (ch "a") obj m
  else if fmt =? ch "o" then
    '(obj, m) ← (if is_flag FLAG_ALTFORM flags then put (ch "0") obj m else Ok (obj, m));
    utooct n obj m
  else if fmt =? ch "b" then utobin n obj m
  else Ok (obj, m).

(** ** Justification *)

(** A loop that puts the same character [i] times. *)
Fixpoint put_times (i : nat) (c : Z) obj m : res (S * gmap Z Z) :=
  match i with
  | O => Ok (obj, m)
  | Datatypes.S i =>
      '(obj, m) ← put c obj m;
      put_times i c obj m
  end.

Definition put_sign (flags : Z) obj m : res (S * gmap Z Z) :=
  if is_flag FLAG_NEGATE flags then put (ch "-") obj m
  else if is_flag FLAG_SHOWPLUS flags then put (ch "+") obj m
  else Ok (obj, m).

Definition prejustify (fmt : just) (flags fieldwidth numwidth : Z) obj m : res (S * gmap Z Z) :=
  match fmt with
  | FMT_RJUST =>
      let numwidth := if is_flag FLAG_SIGNED flags then numwidth + 1 else numwidth in
      '(obj, m) ← put_times (Z.to_nat (s32 (fieldwidth - numwidth))) (ch " ") obj m;
      put_sign flags obj m
  | FMT_RJUST0 =>
      '(obj, m) ← put_sign flags obj m;
      let numwidth := if is_flag FLAG_NEGATE flags then numwidth + 1 else if is_flag FLAG_SHOWPLUS flags then numwidth + 1 else numwidth in
      put_times (Z.to_nat (s32 (fieldwidth - numwidth))) (ch "0") obj m
  | FMT_LJUST => put_sign flags obj m
  end.

Definition postjustify (fmt : just) (flags fieldwidth numwidth : Z) obj m : res (S * gmap Z Z) :=
  match fmt with
  | FMT_RJUST | FMT_RJUST0 => Ok (obj, m)
  | FMT_LJUST =>
      let numwidth := if is_flag FLAG_SIGNED flags then numwidth + 1 else numwidth in
      put_times (Z.to_nat (s32 (fieldwidth - numwidth))) (ch " ") obj m
  end.

End stream.

Definition fixup (fmt flags n : Z) : Z * Z :=
  if (fmt =? ch "d") || (fmt =? ch "i") then
    if n <? 0 then (clr_flag FLAG_SHOWPLUS (set_flag FLAG_NEGATE flags), s32 (- n)) else (flags, n)
  else if fmt =? ch "u" then (flags, n)
  else if (fmt =? ch "p") || (fmt =? ch "x") || (fmt =? ch "X") || (fmt =? ch "o") || (fmt =? ch "b") then (clr_flag FLAG_SIGNED flags, n)
  else (flags, n).

Definition getusize (fmt flags n : Z) (m : gmap Z Z) : res Z :=
  '(nulloutstream, _) ← utoascii fmt flags n lib_nulloutstream m;
  Ok (nput nulloutstream).

(** ** The format *)

(** The strings of the calls to strchr; the function does not find the final zero
    (src/nuttx/lib/string/lib_strchr.c). *)
Fixpoint strchr (s : list Z) (c : Z) : bool :=
  match s with
  | [] => false
  | d :: s => if d =? c then true else strchr s c
  end.

Definition conversions : list Z := [ch "d"; ch "i"; ch "u"; ch "x"; ch "X"; ch "p"; ch "o"; ch "b"; ch "e"; ch "E"; ch "f"; ch "g"; ch "G"; ch "l"; ch "L"; ch "s"; ch "c"; ch "%"].
Definition integer_conversions : list Z := [ch "d"; ch "i"; ch "u"; ch "x"; ch "X"; ch "p"; ch "o"; ch "b"].

Definition g_nullstring : list Z := [ch "("; ch "n"; ch "u"; ch "l"; ch "l"; ch ")"].

(** What the qualifiers of a conversion set. *)
Record quals : Type := Quals { q_flags : Z; q_fmt : just; q_width : Z; q_trunc : Z }.

Definition quals_init : quals := Quals 0 FMT_RJUST 0 0.
Definition set_q_flags (f : Z) (q : quals) : quals := Quals f (q_fmt q) (q_width q) (q_trunc q).
Definition set_q_fmt (f : just) (q : quals) : quals := Quals (q_flags q) f (q_width q) (q_trunc q).

(** A number is the truncation after a dot and the width before. *)
Definition set_number (n : Z) (q : quals) : quals :=
  if is_flag FLAG_HASDOT (q_flags q) then Quals (q_flags q) (q_fmt q) (q_width q) n
  else Quals (q_flags q) (q_fmt q) n (q_trunc q).

Definition va_arg (ap : list Z) : res (Z * list Z) :=
  match ap with
  | a :: ap => Ok (a, ap)
  | [] => Err FWild
  end.

Definition va_int (ap : list Z) : res (Z * list Z) := '(a, ap) ← va_arg ap; Ok (s32 a, ap).

Definition is_digit (c : Z) : bool := (ch "0" <=? c) && (c <=? ch "9").

(** The loop over the digits of a width; [src] is at the last one read. *)
Fixpoint width_loop (fuel : nat) (src : ptr) (n : Z) (m : gmap Z Z) : res (Z * ptr) :=
  match fuel with
  | O => Err FFuel
  | S fuel =>
      let src := src + 1 in
      c ← deref m src;
      if is_digit c then width_loop fuel src (s32 (10 * n + (c - ch "0"))) m
      else Ok (n, src)
  end.

Fixpoint qualify (fuel : nat) (src : ptr) (q : quals) (ap : list Z) (m : gmap Z Z) : res (ptr * quals * list Z) :=
  match fuel with
  | O => Err FFuel
  | S fuel =>
      c ← deref m src;
      if c =? 0 then Ok (src, q, ap)
      else if strchr conversions c then Ok (src, q, ap)
      else if c =? ch "-" then qualify fuel (src + 1) (set_q_fmt FMT_LJUST q) ap m
      else if c =? ch "0" then qualify fuel (src + 1) (set_q_fmt FMT_RJUST0 q) ap m
      else if c =? ch "*" then
        '(value, ap) ← va_int ap;
        let x := if is_flag FLAG_HASDOT (q_flags q) then FLAG_HASASTERISKTRUNC else FLAG_HASASTERISKWIDTH in
        let q := set_number value q in
        qualify fuel (src + 1) (set_q_flags (set_flag x (q_flags q)) q) ap m
      else if (ch "1" <=? c) && (c <=? ch "9") then
        '(n, src) ← width_loop fuel src (c - ch "0") m;
        let src := src - 1 in
        qualify fuel (src + 1) (set_number n q) ap m
      else if c =? ch "." then qualify fuel (src + 1) (set_q_flags (set_flag FLAG_HASDOT (q_flags q)) q) ap m
      else if c =? ch "+" then qualify fuel (src + 1) (set_q_flags (set_flag FLAG_SHOWPLUS (q_flags q)) q) ap m
      else if c =? ch "#" then qualify fuel (src + 1) (set_q_flags (set_flag FLAG_ALTFORM (q_flags q)) q) ap m
      else qualify fuel (src + 1) q ap m
  end.

(** The prefixes for long and long long. *)
Definition skip_prefix (src : ptr) (q : quals) (m : gmap Z Z) : res (ptr * quals) :=
  c ← deref m src;
  if c =? ch "L" then Ok (src + 1, set_q_flags (set_flag FLAG_LONGLONGPRECISION (q_flags q)) q)
  else if c =? ch "l" then
    let q := set_q_flags (set_flag FLAG_LONGPRECISION (q_flags q)) q in
    let src := src + 1 in
    c ← deref m src;
    if c =? ch "l" then Ok (src + 1, set_q_flags (set_flag FLAG_LONGLONGPRECISION (q_flags q)) q)
    else Ok (src, q)
  else Ok (src, q).

Section vsprintf.
  Context {S : Type} {OS : OutStream S}.
  Implicit Types (obj : S) (m : gmap Z Z) (ap : list Z).

Fixpoint put_string (fuel : nat) (ptmp : ptr) obj m : res (S * gmap Z Z) :=
  match fuel with
  | O => Err FFuel
  | Datatypes.S fuel =>
      c ← deref m ptmp;
      if negb (c =? 0) then
        '(obj, m) ← put c obj m;
        put_string fuel (ptmp + 1) obj m
      else Ok (obj, m)
  end.

Fixpoint put_chars (cs : list Z) obj m : res (S * gmap Z Z) :=
  match cs with
  | [] => Ok (obj, m)
  | c :: cs =>
      '(obj, m) ← put c obj m;
      put_chars cs obj m
  end.

(** An integer conversion with the format character [c]. *)
Definition put_integer (c : Z) (q : quals) (n : Z) obj m : res (S * gmap Z Z) :=
  let '(flags, n) := fixup c (q_flags q) n in
  uwidth ← getusize c flags (u32 n) m;
  '(obj, m) ← prejustify (q_fmt q) flags (q_width q) uwidth obj m;
  '(obj, m) ← utoascii c flags (u32 n) obj m;
  postjustify (q_fmt q) flags (q_width q) uwidth obj m.

(** A conversion, after its qualifiers; [src] is at its last character then. *)
Definition convert (fuel : nat) (src : ptr) (q : quals) ap obj m : res (ptr * list Z * S * gmap Z Z) :=
  c ← deref m src;
  if c =? ch "%" then '(obj, m) ← put (ch "%") obj m; Ok (src, ap, obj, m)
  else if c =? ch "s" then
    '(ptmp, ap) ← va_arg ap;
    '(obj, m) ← (if decide (ptmp = NULL) then put_chars g_nullstring obj m else put_string fuel ptmp obj m);
    Ok (src, ap, obj, m)
  else if c =? ch "c" then
    '(n, ap) ← va_int ap;
    '(obj, m) ← put n obj m;
    Ok (src, ap, obj, m)
  else
    '(src, q) ← skip_prefix src q m;
    c ← deref m src;
    if strchr integer_conversions c then
      '(n, ap) ← va_int ap;
      '(obj, m) ← put_integer c q n obj m;
      Ok (src, ap, obj, m)
    else Ok (src, ap, obj, m).

Fixpoint vsprintf_loop (fuel n : nat) (src : ptr) ap obj m : res (S * gmap Z Z) :=
  match fuel with
  | O => Err FFuel
  | Datatypes.S fuel =>
      c ← deref m src;
      if c =? 0 then Ok (obj, m)
      else if negb (c =? ch "%") then
        '(obj, m) ← put c obj m;
        vsprintf_loop fuel n (src + 1) ap obj m
      else
        '(src, q, ap) ← qualify n (src + 1) quals_init ap m;
        '(src, ap, obj, m) ← convert n src q ap obj m;
        vsprintf_loop fuel n (src + 1) ap obj m
  end.

(** A loop visits an address of the memory at most once. *)
Definition lib_vsprintf (src : ptr) ap obj m : res (Z * S * gmap Z Z) :=
  '(obj, m) ← vsprintf_loop (Datatypes.S (size m)) (Datatypes.S (size m)) src ap obj m;
  Ok (nput obj, obj, m).

End vsprintf.

(** ** Output to a buffer *)

Definition snprintf (buf : ptr) (size : Z) (format : ptr) (ap : list Z) (m : gmap Z Z) : res (Z * gmap Z Z) :=
  '(memoutstream, m) ← lib_memoutstream buf (s32 size) m;
  '(n, _, m) ← lib_vsprintf format ap memoutstream m;
  Ok (n, m).

Definition sprintf (buf fmt : ptr) (ap : list Z) (m : gmap Z Z) : res (Z * gmap Z Z) :=
  '(memoutstream, m) ← lib_memoutstream buf INT_MAX m;
  '(n, _, m) ← lib_vsprintf fmt ap memoutstream m;
  Ok (n, m).
