(* ===== verification/PrintfNum.v ===== *)
(** * Formatted output: numerals

    The digits of a number, and that the conversion routines put exactly them. *)

From Stdlib Require Import Ascii.
From S2P Require Import Prelude Bytes Printf.

(** ** Digits *)

(** The digits of [n] in base [b], the last one first; [fuel] is more than the bits
    of [n]. *)
Fixpoint digits_rev (fuel : nat) (b n : Z) : list Z :=
  match fuel with
  | O => []
  | S fuel => n mod b :: (if n / b =? 0 then [] else digits_rev fuel b (n / b))
  end.

Definition digits (b n : Z) : list Z := rev (digits_rev 33 b n).

(** The value of a list of digits. *)
Definition value (b : Z) (ds : list Z) : Z := foldl (fun acc d => acc * b + d) 0 ds.

(** The character of a digit, with [a] for ten. *)
Definition digit_char (a d : Z) : Z := if d <? 10 then d + ch "0" else d + a - 10.

Definition uint (n : Z) : Prop := 0 <= n < 2 ^ 32.

Lemma div_half b n k : 2 <= b -> 0 <= n < 2 ^ (k + 1) -> 0 <= k -> 0 <= n / b < 2 ^ k.
Proof.
  intros Hb Hn Hk. rewrite Z.pow_add_r in Hn by lia. change (2 ^ 1) with 2 in Hn. split; [apply Z.div_pos; lia|]. apply Z.div_lt_upper_bound; nia.
Qed.

Lemma digits_rev_fuel b f : 2 <= b -> forall g n, 0 <= n < 2 ^ Z.of_nat f -> 0 <= n < 2 ^ Z.of_nat g -> digits_rev (S f) b n = digits_rev (S g) b n.
Proof.
  intros Hb. induction f as [|f IH]; intros g n Hf Hg; cbn [digits_rev]; f_equal; destruct (n / b =? 0) eqn:E; try done; apply Z.eqb_neq in E.
  - simpl in Hf. assert (n = 0) as -> by lia. by rewrite Z.div_0_l in E by lia.
  - destruct g as [|g]; [simpl in Hg; assert (n = 0) as -> by lia; by rewrite Z.div_0_l in E by lia|]. apply IH; apply div_half; lia || (rewrite Nat2Z.inj_succ in *; done).
Qed.

Lemma digits_step b n : 2 <= b -> uint n -> digits b n = (if n / b =? 0 then [] else digits b (n / b)) ++ [n mod b].
Proof.
  intros Hb Hn. unfold digits at 1. change (digits_rev 33 b n) with (n mod b :: (if n / b =? 0 then [] else digits_rev 32 b (n / b))). cbn [rev]. f_equal.
  destruct (n / b =? 0); [done|]. unfold digits. pose proof (div_half b n 31 Hb Hn ltac:(lia)) as Hd.
  apply (f_equal (@rev Z)), (digits_rev_fuel b 31 Hb 32); [change (Z.of_nat 31) with 31; lia|change (Z.of_nat 32) with 32; lia].
Qed.

Lemma uint_div b n : 2 <= b -> uint n -> uint (n / b) /\ (n <> 0 -> n / b < n).
Proof. unfold uint. intros Hb Hn. split; [split; [apply Z.div_pos; lia|apply Z.div_lt_upper_bound; nia]|]. intros. apply Z.div_lt; lia. Qed.

(** Induction on the digits of a number. *)
Lemma digits_ind (P : Z -> Prop) b :
  2 <= b -> (forall n, uint n -> (n / b <> 0 -> P (n / b)) -> P n) -> forall n, uint n -> P n.
Proof.
  intros Hb H n Hn. assert (0 <= n) as H0 by (unfold uint in Hn; lia). revert Hn. apply (Zlt_0_ind (fun n => uint n -> P n)); [|done].
  intros x IH Hx0 Hx. apply H; [done|]. intros Hne. destruct (uint_div b x Hb Hx) as [Hu Hlt]. apply IH; [|done]. split; [unfold uint in Hu; lia|]. apply Hlt. intros ->. by rewrite Z.div_0_l in Hne by lia.
Qed.

Lemma value_snoc b ds d : value b (ds ++ [d]) = value b ds * b + d.
Proof. unfold value. by rewrite foldl_app. Qed.

(** What makes a list of digits the numeral of [n]: its digits are below the base,
    they have the value [n], and the first is a zero only in the numeral of zero. *)
Record numeral (b n : Z) (ds : list Z) : Prop := Numeral {
  num_range : Forall (fun d => 0 <= d < b) ds;
  num_value : value b ds = n;
  num_head : exists d ds', ds = d :: ds' /\ (d = 0 -> n = 0)
}.

Lemma digits_numeral b n : 2 <= b -> uint n -> numeral b n (digits b n).
Proof.
  intros Hb. revert n. apply (digits_ind (fun n => numeral b n (digits b n)) b Hb). intros n Hn IH. rewrite digits_step by done.
  pose proof (Z.mod_pos_bound n b ltac:(lia)) as Hm. pose proof (Z.div_mod n b ltac:(lia)) as Hd. destruct (Z.eqb_spec (n / b) 0) as [E|E].
  - cbn [app]. split; [by apply Forall_singleton| |exists (n mod b), []; split; [done|lia]]. cbn. lia.
  - destruct (IH E) as [I1 I2 (d & ds & I3 & I4)]. split; [apply Forall_app; split; [done|by apply Forall_singleton]|rewrite value_snoc, I2; lia|].
    rewrite I3. exists d, (ds ++ [n mod b]). split; [done|]. intros. tauto.
Qed.

Lemma digits_length b n : 2 <= b -> uint n -> (length (digits b n) <= 33)%nat.
Proof.
  intros Hb Hn. unfold digits. rewrite length_rev. generalize 33%nat as f. clear Hn. intros f. revert n. induction f as [|f IH]; intros n; [done|]. cbn [digits_rev length].
  destruct (n / b =? 0); [simpl; lia|]. specialize (IH (n / b)). lia.
Qed.

(** ** Nibbles *)

(** The [k] lowest nibbles, the highest first. *)
Fixpoint nibbles (k : nat) (n : Z) : list Z :=
  match k with
  | O => []
  | S k => Z.land (Z.shiftr n (4 * Z.of_nat k)) 0xf :: nibbles k n
  end.

Fixpoint strip (ds : list Z) : list Z :=
  match ds with
  | [] => []
  | d :: ds' => if d =? 0 then strip ds' else ds
  end.

Lemma nibbles_snoc k n : nibbles (S k) n = nibbles k (n / 16) ++ [n mod 16].
Proof.
  assert (forall x, Z.land x 0xf = x mod 16) as Hl by (intros x; apply (Z.land_ones x 4); lia).
  induction k as [|k IH]; [cbn [nibbles app]; by rewrite Hl, Z.shiftr_0_r|]. change (nibbles (S (S k)) n) with (Z.land (Z.shiftr n (4 * Z.of_nat (S k))) 0xf :: nibbles (S k) n).
  rewrite IH. cbn [nibbles app]. f_equal. f_equal. rewrite !Z.shiftr_div_pow2 by lia. replace (4 * Z.of_nat (S k)) with (4 + 4 * Z.of_nat k) by lia.
  rewrite Z.pow_add_r, Z.div_div by lia. done.
Qed.

Lemma strip_snoc ds d : strip (ds ++ [d]) = match strip ds with [] => strip [d] | _ => strip ds ++ [d] end.
Proof. induction ds as [|e ds IH]; [by cbn; destruct (d =? 0)|]. cbn [strip app]. by destruct (e =? 0). Qed.

Lemma strip_nibbles k n : 0 <= n < 2 ^ (4 * Z.of_nat k) -> uint n -> strip (nibbles k n) = if n =? 0 then [] else digits 16 n.
Proof.
  revert n. induction k as [|k IH]; intros n Hk Hn; [simpl in Hk; by replace n with 0 by lia|]. rewrite nibbles_snoc, strip_snoc. replace (4 * Z.of_nat (S k)) with (4 + 4 * Z.of_nat k) in Hk by lia.
  rewrite Z.pow_add_r in Hk by lia. change (2 ^ 4) with 16 in Hk. destruct (uint_div 16 n ltac:(lia) Hn) as [Hd _].
  pose proof (Z.div_mod n 16 ltac:(lia)) as E. pose proof (Z.mod_pos_bound n 16 ltac:(lia)) as Hm. rewrite IH; [|split; [apply Z.div_pos; lia|apply Z.div_lt_upper_bound; lia]|done].
  destruct (Z.eqb_spec n 0) as [->|Hne]; [done|]. rewrite (digits_step 16 n) by (done || lia). destruct (Z.eqb_spec (n / 16) 0) as [E0|E0].
  - cbn [strip app]. destruct (Z.eqb_spec (n mod 16) 0); [lia|done].
  - destruct (digits_numeral 16 (n / 16) ltac:(lia) Hd) as [_ _ (d & ds & -> & _)]. done.
Qed.

(** ** The conversion routines *)

Section put.
  Context {S : Type} {OS : OutStream S}.
  Implicit Types (obj : S) (m : gmap Z Z) (cs : list Z).

Lemma bind_ret (e : res (S * gmap Z Z)) : ('(obj, m) ← e; Ok (obj, m)) = e.
Proof. by destruct e as [[]|]. Qed.

Lemma put_chars_app cs cs' obj m : put_chars (cs ++ cs') obj m = ('(obj, m) ← put_chars cs obj m; put_chars cs' obj m).
Proof. revert obj m. induction cs as [|c cs IH]; intros obj m; [done|]. cbn [put_chars app]. destruct (put c obj m) as [[obj' m']|]; [|done]. rewrite !bind_Ok. apply IH. Qed.

Lemma put_chars_single c obj m : put_chars [c] obj m = put c obj m.
Proof. cbn [put_chars]. apply bind_ret. Qed.

Lemma put_times_chars i c obj m : put_times i c obj m = put_chars (repeat c i) obj m.
Proof. revert obj m. induction i as [|i IH]; intros obj m; [done|]. cbn [put_times put_chars repeat]. destruct (put c obj m) as [[obj' m']|]; [|done]. rewrite !bind_Ok. apply IH. Qed.

(** The three recursive routines, for a base of which every digit is one of 0 to 9. *)
Lemma uto_rec_ok b (rec : nat -> Z -> S -> gmap Z Z -> res (S * gmap Z Z)) :
  2 <= b <= 10 ->
  (forall f n obj m, 0 <= n -> rec (Datatypes.S f) n obj m = ('(obj, m) ← (if negb (n / b =? 0) then rec f (n / b) obj m else Ok (obj, m)); put (n mod b + ch "0") obj m)) ->
  forall n obj m a, uint n -> rec UINT_BITS n obj m = put_chars (map (digit_char a) (digits b n)) obj m.
Proof.
  intros Hb Hrec n obj m a Hn. assert (forall f n, 0 <= n < 2 ^ Z.of_nat (Datatypes.S f) -> uint n -> rec (Datatypes.S f) n obj m = put_chars (map (digit_char a) (digits b n)) obj m) as H;
    [|apply (H 31%nat); [exact Hn|done]].
  clear n Hn. induction f as [|f IH]; intros n Hf Hn; rewrite Hrec by lia; rewrite digits_step by (done || lia); rewrite map_app, put_chars_app; cbn [map];
    pose proof (Z.mod_pos_bound n b ltac:(lia)) as Hm; assert (digit_char a (n mod b) = n mod b + ch "0") as -> by (unfold digit_char; by rewrite (proj2 (Z.ltb_lt _ _)) by lia);
    destruct (Z.eqb_spec (n / b) 0) as [E|E]; cbn [negb map put_chars]; rewrite ?bind_Ok; try (symmetry; apply bind_ret).
  - rewrite Z.div_small in E; [done|]. change (2 ^ Z.of_nat 1) with 2 in Hf. lia.
  - rewrite IH; [destruct (put_chars _ obj m) as [[o1 m1]|]; [|done]; rewrite !bind_Ok; symmetry; apply bind_ret| |].
    + apply div_half; [lia| |lia]. rewrite (Nat2Z.inj_succ (Datatypes.S f)) in Hf. exact Hf.
    + apply uint_div; [lia|done].
Qed.

Lemma utodec_ok n obj m : uint n -> utodec n obj m = put_chars (map (digit_char 0) (digits 10 n)) obj m.
Proof. intros Hn. by apply (uto_rec_ok 10 utodec_rec). Qed.

Lemma utooct_ok n obj m : uint n -> utooct n obj m = put_chars (map (digit_char 0) (digits 8 n)) obj m.
Proof.
  intros Hn. apply (uto_rec_ok 8 utooct_rec); [lia| |done]. intros f x o m' Hx. cbn [utooct_rec]. change 7 with (Z.ones 3). rewrite Z.land_ones, Z.shiftr_div_pow2 by lia. done.
Qed.

Lemma utobin_ok n obj m : uint n -> utobin n obj m = put_chars (map (digit_char 0) (digits 2 n)) obj m.
Proof.
  intros Hn. apply (uto_rec_ok 2 utobin_rec); [lia| |done]. intros f x o m' Hx. cbn [utobin_rec]. change (Z.land x 1) with (Z.land x (Z.ones 1)). rewrite Z.land_ones, Z.shiftr_div_pow2 by lia. done.
Qed.

Lemma utohex_loop_ok k n a nonzero obj m :
  let ds := if (nonzero : bool) then nibbles k n else strip (nibbles k n) in
  utohex_loop k n a nonzero obj m = ('(obj, m) ← put_chars (map (digit_char a) ds) obj m; Ok (nonzero || negb (bool_decide (ds = [])), obj, m)).
Proof.
  revert nonzero obj m. induction k as [|k IH]; intros nz obj m; [destruct nz; done|]. cbn [utohex_loop nibbles strip].
  set (d := Z.land (Z.shiftr n (4 * Z.of_nat k)) 15).
  assert (forall ds nz', ('(obj, m) ← (if d <? 10 then put (d + ch "0") obj m else put (d + a - 10) obj m); '(obj, m) ← put_chars (map (digit_char a) ds) obj m; Ok (nz', obj, m))
    = ('(obj, m) ← put_chars (map (digit_char a) (d :: ds)) obj m; Ok (nz' : bool, obj, m))) as Hd.
  { intros ds nz'. cbn [map put_chars]. destruct (d <? 10) eqn:E.
    - assert (digit_char a d = d + ch "0") as -> by (unfold digit_char; by rewrite E). by destruct (put _ obj m) as [[o1 m1]|].
    - assert (digit_char a d = d + a - 10) as -> by (unfold digit_char; by rewrite E). by destruct (put _ obj m) as [[o1 m1]|]. }
  destruct nz; [rewrite orb_true_r|rewrite orb_false_r; destruct (d =? 0) eqn:E; cbn [negb]].
  - rewrite <-Hd. destruct (if d <? 10 then _ else _) as [[o1 m1]|]; [|done]. rewrite !bind_Ok. apply IH.
  - apply (IH false).
  - rewrite <-Hd. destruct (if d <? 10 then _ else _) as [[o1 m1]|]; [|done]. rewrite !bind_Ok. rewrite IH. cbn [orb]. by rewrite bool_decide_false.
Qed.

Lemma utohex_ok n a obj m : uint n -> utohex n a obj m = put_chars (map (digit_char a) (digits 16 n)) obj m.
Proof.
  intros Hn. unfold utohex. change (UINT_BITS / 4)%nat with 8%nat. rewrite utohex_loop_ok. cbv zeta. rewrite strip_nibbles by (done || exact Hn). cbn [orb].
  destruct (Z.eqb_spec n 0) as [->|Hne].
  - cbn [map put_chars]. rewrite !bind_Ok. symmetry. apply put_chars_single.
  - destruct (digits_numeral 16 n ltac:(lia) Hn) as [_ _ (d & ds & -> & _)]. rewrite bool_decide_false by done. destruct (put_chars _ obj m) as [[o1 m1]|]; done.
Qed.

End put.
