(* ===== verification/PrintfSpec.v ===== *)
(** * Formatted output: specification

    What an integer conversion puts on a stream. *)

From Stdlib Require Import Ascii.
From S2P Require Import Prelude Bytes Printf PrintfNum.

(** ** Fields *)

(** The sign and the rest of a number, as the code puts them for the conversion
    [c]: decimal, hexadecimal, octal or binary, with the prefix of the alternate
    form.  What they should be is [field] of PrintfFmt. *)
Definition is_signed (c : Z) : bool := (c =? ch "d") || (c =? ch "i").

Definition put_sign_of (c : Z) (plus : bool) (n : Z) : list Z :=
  if is_signed c && (n <? 0) then [ch "-"]
  else if (is_signed c || (c =? ch "u")) && plus then [ch "+"]
  else [].

Definition magnitude (c n : Z) : Z := if is_signed c then Z.abs n else u32 n.

Definition body (c : Z) (alt : bool) (n : Z) : list Z :=
  if is_signed c || (c =? ch "u") then map (digit_char 0) (digits 10 n)
  else if c =? ch "o" then (if alt then [ch "0"] else []) ++ map (digit_char 0) (digits 8 n)
  else if c =? ch "b" then map (digit_char 0) (digits 2 n)
  else (if alt then [ch "0"; ch "x"] else []) ++ map (digit_char (if c =? ch "X" then ch "A" else ch "a")) (digits 16 n).

(** The padding to [width]. *)
Definition padded (j : just) (width : Z) (sg bd : list Z) : list Z :=
  let pad := Z.to_nat (width - Z.of_nat (length sg + length bd)) in
  match j with
  | FMT_RJUST => repeat (ch " ") pad ++ sg ++ bd
  | FMT_RJUST0 => sg ++ repeat (ch "0") pad ++ bd
  | FMT_LJUST => sg ++ bd ++ repeat (ch " ") pad
  end.

Definition int (n : Z) : Prop := - 2 ^ 31 <= n <= INT_MAX.

(** Widths for which the padding of a number is an int. *)
Definition width_ok (w : Z) : Prop := - 2 ^ 31 + 64 <= w <= INT_MAX.

(** ** Flags *)

Lemma is_flag_bit k f : 0 <= k -> is_flag (2 ^ k) f = Z.testbit f k.
Proof.
  intros Hk. unfold is_flag. destruct (Z.testbit f k) eqn:E.
  - rewrite (proj2 (Z.eqb_neq _ _)); [done|]. intros H. apply (f_equal (fun z => Z.testbit z k)) in H. rewrite Z.land_spec, E, Z.pow2_bits_true, Z.bits_0 in H by done. done.
  - rewrite (proj2 (Z.eqb_eq _ _)); [done|]. apply Z.bits_inj'. intros i Hi. rewrite Z.land_spec, Z.bits_0, Z.pow2_bits_eqb by done.
    destruct (Z.eqb_spec k i) as [<-|]; [by rewrite E|apply andb_false_r].
Qed.

Lemma is_flag_set k l f : 0 <= k -> 0 <= l -> is_flag (2 ^ k) (set_flag (2 ^ l) f) = is_flag (2 ^ k) f || (k =? l).
Proof. intros Hk Hl. rewrite !is_flag_bit by done. unfold set_flag. rewrite Z.lor_spec, Z.pow2_bits_eqb by done. by rewrite (Z.eqb_sym l). Qed.

Lemma is_flag_clr k x f : 0 <= k -> is_flag (2 ^ k) (clr_flag x f) = is_flag (2 ^ k) f && negb (Z.testbit x k).
Proof. intros Hk. rewrite !is_flag_bit by done. unfold clr_flag. rewrite Z.land_spec, Z.lnot_spec by done. done. Qed.

Lemma is_flag_signed f : is_flag FLAG_SIGNED f = is_flag FLAG_SHOWPLUS f || is_flag FLAG_NEGATE f.
Proof.
  unfold is_flag, FLAG_SIGNED. rewrite Z.land_lor_distr_r. destruct (Z.eqb_spec (Z.land f FLAG_SHOWPLUS) 0) as [->|H1], (Z.eqb_spec (Z.land f FLAG_NEGATE) 0) as [->|H2]; try done; cbn [negb orb];
    apply negb_true_iff, Z.eqb_neq; rewrite Z.lor_eq_0_iff; tauto.
Qed.

(** The flags that matter to the conversion of an integer. *)
Record flags_are (plus alt negate : bool) (f : Z) : Prop := FlagsAre {
  fl_plus : is_flag FLAG_SHOWPLUS f = plus;
  fl_alt : is_flag FLAG_ALTFORM f = alt;
  fl_negate : is_flag FLAG_NEGATE f = negate
}.

(** ** One conversion *)

Ltac conversions H := unfold integer_conversions in H; repeat (apply elem_of_cons in H as [->|H]); [..|by apply elem_of_nil in H].

Lemma fixup_ok c plus alt f n :
  c ∈ integer_conversions -> int n -> flags_are plus alt false f ->
  exists f' n' plus' neg', fixup c f n = (f', n') /\ u32 n' = magnitude c n /\ flags_are plus' alt neg' f'
    /\ put_sign_of c plus n = (if neg' then [ch "-"] else if plus' then [ch "+"] else []).
Proof.
  intros Hc Hn [Hp Ha Hg]. unfold int, INT_MAX in Hn.
  assert (is_signed c = true \/ c = ch "u" \/ (is_signed c = false /\ (c =? ch "u") = false /\ fixup c f n = (clr_flag FLAG_SIGNED f, n))) as [Hs|[->|(Hs & Hu & E)]].
  { conversions Hc; try (by left); try (by right; left); by right; right. }
  - unfold put_sign_of, magnitude, fixup. rewrite Hs. unfold is_signed in Hs. rewrite Hs. cbn [andb orb]. destruct (Z.ltb_spec n 0) as [H0|H0].
    + exists (clr_flag FLAG_SHOWPLUS (set_flag FLAG_NEGATE f)), (s32 (- n)), false, true. split; [done|]. split; [|split; [|done]].
      * rewrite Z.abs_neq by lia. unfold u32, s32. destruct (Z.eq_dec n (- 2 ^ 31)) as [->|Hne]; [done|]. rewrite (Z.mod_small (- n + 2 ^ 31)) by lia. rewrite Z.mod_small by lia. lia.
      * split; [rewrite (is_flag_clr 0) by done; apply andb_false_r|rewrite (is_flag_clr 1), andb_true_r, (is_flag_set 1 7) by done; by rewrite orb_false_r|].
        rewrite (is_flag_clr 7), (is_flag_set 7 7) by done. by rewrite orb_true_r.
    + exists f, n, plus, false. split; [done|]. split; [rewrite Z.abs_eq by lia; apply u32_id; lia|]. by split.
  - exists f, n, plus, false. by repeat split.
  - exists (clr_flag FLAG_SIGNED f), n, false, false. split; [done|]. unfold magnitude, put_sign_of. rewrite Hs, Hu. split; [done|]. split; [|done].
    split; [rewrite (is_flag_clr 0) by done; apply andb_false_r|rewrite (is_flag_clr 1) by done; by rewrite andb_true_r|rewrite (is_flag_clr 7) by done; apply andb_false_r].
Qed.

Lemma magnitude_uint c n : int n -> uint (magnitude c n).
Proof. unfold int, uint, magnitude, INT_MAX, u32. intros Hn. destruct (is_signed c); [lia|apply Z.mod_pos_bound; lia]. Qed.

Lemma body_length c alt n : uint n -> (length (body c alt n) <= 35)%nat.
Proof.
  intros Hn. assert (forall b, 2 <= b -> (length (digits b n) <= 33)%nat) as H by (intros; by apply digits_length). unfold body.
  destruct (_ || _); [rewrite length_map; specialize (H 10); lia|]. destruct (c =? ch "o"); [rewrite length_app, length_map; specialize (H 8); destruct alt; simpl; lia|].
  destruct (c =? ch "b"); [rewrite length_map; specialize (H 2); lia|]. rewrite length_app, length_map. specialize (H 16). destruct alt; simpl; lia.
Qed.

Lemma null_put_chars cs k m : 0 <= k -> k + Z.of_nat (length cs) <= INT_MAX -> put_chars cs (NullOut k) m = Ok (NullOut (k + Z.of_nat (length cs)), m).
Proof.
  revert k. induction cs as [|c cs IH]; intros k Hk Hm; cbn [put_chars length] in *; [by rewrite Z.add_0_r|]. unfold put, nulloutstream_out, nulloutstream_putc. cbn [no_nput].
  unfold INT_MAX in *. rewrite s32_id, bind_Ok, IH by (unfold INT_MAX; lia). do 3 f_equal. lia.
Qed.

Section put.
  Context {S : Type} {OS : OutStream S}.
  Implicit Types (obj : S) (m : gmap Z Z) (cs : list Z).

Lemma utoascii_ok c plus alt neg f n obj m :
  c ∈ integer_conversions -> uint n -> flags_are plus alt neg f -> utoascii c f n obj m = put_chars (body c alt n) obj m.
Proof.
  intros Hc Hn [_ Ha _].
  assert (forall a, ('(obj, m) ← (if is_flag FLAG_ALTFORM f then '(obj, m) ← put (ch "0") obj m; put (ch "x") obj m else Ok (obj, m)); utohex n a obj m)
    = put_chars ((if alt then [ch "0"; ch "x"] else []) ++ map (digit_char a) (digits 16 n)) obj m) as Hx.
  { intros a. rewrite Ha, put_chars_app. destruct alt; cbn [put_chars]; [|rewrite !bind_Ok; by apply utohex_ok].
    destruct (put (ch "0") obj m) as [[o1 m1]|]; [|done]. rewrite !bind_Ok. destruct (put (ch "x") o1 m1) as [[o2 m2]|]; [|done]. rewrite !bind_Ok. by apply utohex_ok. }
  conversions Hc.
  - exact (utodec_ok n obj m Hn).
  - exact (utodec_ok n obj m Hn).
  - exact (utodec_ok n obj m Hn).
  - exact (Hx (ch "a")).
  - exact (Hx (ch "A")).
  - exact (Hx (ch "a")).
  - change (body (ch "o") alt n) with ((if alt then [ch "0"] else []) ++ map (digit_char 0) (digits 8 n)). rewrite put_chars_app.
    change (utoascii (ch "o") f n obj m) with ('(obj, m) ← (if is_flag FLAG_ALTFORM f then put (ch "0") obj m else Ok (obj, m)); utooct n obj m). rewrite Ha.
    destruct alt; [rewrite put_chars_single; destruct (put _ obj m) as [[o1 m1]|]; [|done]|cbn [put_chars]]; rewrite !bind_Ok; by apply utooct_ok.
  - exact (utobin_ok n obj m Hn).
Qed.

End put.

Lemma getusize_ok c plus alt neg f n m :
  c ∈ integer_conversions -> uint n -> flags_are plus alt neg f -> getusize c f n m = Ok (Z.of_nat (length (body c alt n))).
Proof.
  intros Hc Hn Hf. unfold getusize, lib_nulloutstream. pose proof (body_length c alt n Hn). rewrite (utoascii_ok c plus alt neg) by done.
  rewrite null_put_chars by (unfold INT_MAX; lia). done.
Qed.

Section field.
  Context {S : Type} {OS : OutStream S}.
  Implicit Types (obj : S) (m : gmap Z Z) (cs : list Z).

Lemma put_sign_ok plus alt neg f obj m :
  flags_are plus alt neg f -> put_sign f obj m = put_chars (if neg then [ch "-"] else if plus then [ch "+"] else []) obj m.
Proof. intros [Hp _ Hg]. unfold put_sign. rewrite Hp, Hg. destruct neg; [by rewrite put_chars_single|]. destruct plus; [by rewrite put_chars_single|done]. Qed.

(** A conversion puts its number with sign and padding. *)
Lemma put_integer_ok c q plus alt n obj m :
  c ∈ integer_conversions -> int n -> flags_are plus alt false (q_flags q) -> width_ok (q_width q) ->
  put_integer c q n obj m = put_chars (padded (q_fmt q) (q_width q) (put_sign_of c plus n) (body c alt (magnitude c n))) obj m.
Proof.
  intros Hc Hn Hf Hw. unfold put_integer. destruct (fixup_ok c plus alt (q_flags q) n Hc Hn Hf) as (f' & n' & plus' & neg' & -> & En & Hf' & Es).
  pose proof (magnitude_uint c n Hn) as Hu. rewrite En, (getusize_ok c plus' alt neg' f' _ m Hc Hu Hf'), bind_Ok. unfold prejustify, postjustify.
  pose proof (body_length c alt _ Hu) as Hl. set (bd := body c alt (magnitude c n)) in *. rewrite !is_flag_signed. pose proof Hf' as [Hp' _ Hg']. rewrite Hp', Hg'.
  assert (length (put_sign_of c plus n) = if plus' || neg' then 1%nat else 0%nat) as Hsl by (rewrite Es; by destruct neg', plus').
  unfold padded. set (pad := Z.to_nat (q_width q - Z.of_nat (length (put_sign_of c plus n) + length bd))).
  assert (Z.to_nat (s32 (q_width q - (if plus' || neg' then Z.of_nat (length bd) + 1 else Z.of_nat (length bd)))) = pad) as Hpad.
  { unfold pad. rewrite Hsl. unfold width_ok, INT_MAX in Hw. rewrite s32_id by (unfold INT_MAX; destruct (plus' || neg'); lia). destruct (plus' || neg'); lia. }
  assert ((if neg' then Z.of_nat (length bd) + 1 else if plus' then Z.of_nat (length bd) + 1 else Z.of_nat (length bd)) = if plus' || neg' then Z.of_nat (length bd) + 1 else Z.of_nat (length bd)) as -> by (by destruct neg', plus').
  rewrite !Hpad. assert (forall o m, put_sign f' o m = put_chars (put_sign_of c plus n) o m) as Hsg by (intros; rewrite Es; by apply (put_sign_ok plus' alt)).
  assert (forall o m, utoascii c f' (magnitude c n) o m = put_chars bd o m) as Hbd by (intros; by apply (utoascii_ok c plus' alt neg')).
  destruct (q_fmt q); rewrite ?put_times_chars, ?Hsg, put_chars_app; (destruct (put_chars _ obj m) as [[o1 m1]|]; [|done]); rewrite !bind_Ok, ?put_times_chars, ?Hsg, put_chars_app;
    (destruct (put_chars _ o1 m1) as [[o2 m2]|] eqn:E2); rewrite ?bind_Ok, ?Hbd, ?E2, ?bind_Ok, ?put_times_chars; try done; apply bind_ret.
Qed.

End field.
