(* ===== verification/PrintfFmt.v ===== *)
(** * Formatted output: formats

    A format as a list of items, the arguments and the characters each item stands
    for, and how the loop over the qualifiers reads it. *)

From Stdlib Require Import Ascii.
From S2P Require Import Prelude Bytes Printf PrintfNum PrintfSpec.

(** ** Items *)

Inductive flag : Type := FMinus | FZero | FPlus | FAlt.
#[export] Instance flag_eq_dec : EqDecision flag.
Proof. solve_decision. Defined.

Inductive width : Type := WNone | WNum (w : Z) | WArg.

Inductive item : Type :=
| ILit (c : Z)
| IPercent
| IChar
| IString
| IInt (fs : list flag) (w : width) (prefix : list Z) (c : Z).

Definition flag_char (f : flag) : Z :=
  match f with
  | FMinus => ch "-"
  | FZero => ch "0"
  | FPlus => ch "+"
  | FAlt => ch "#"
  end.

Definition decimal (n : Z) : list Z := map (digit_char 0) (digits 10 n).

Definition show_width (w : width) : list Z :=
  match w with
  | WNone => []
  | WNum w => decimal w
  | WArg => [ch "*"]
  end.

Definition show (i : item) : list Z :=
  match i with
  | ILit c => [c]
  | IPercent => [ch "%"; ch "%"]
  | IChar => [ch "%"; ch "c"]
  | IString => [ch "%"; ch "s"]
  | IInt fs w prefix c => ch "%" :: map flag_char fs ++ show_width w ++ prefix ++ [c]
  end.

Definition prefixes : list (list Z) := [[]; [ch "l"]; [ch "l"; ch "l"]; [ch "L"]].

Definition item_ok (i : item) : Prop :=
  match i with
  | ILit c => c <> 0 /\ c <> ch "%"
  | IInt fs w prefix c => c ∈ integer_conversions /\ prefix ∈ prefixes /\ match w with WNum n => 1 <= n <= INT_MAX | _ => True end
  | _ => True
  end.

(** ** What an item stands for *)

(** The last of the flags for the side of the padding, which is how the code
    reads them. *)
Definition set_just (j : just) (f : flag) : just :=
  match f with
  | FMinus => FMT_LJUST
  | FZero => FMT_RJUST0
  | _ => j
  end.

Definition justification (fs : list flag) : just := foldl set_just FMT_RJUST fs.
Definition has (f : flag) (fs : list flag) : bool := bool_decide (f ∈ fs).

(** The flags that fprintf defines: the zeros of the flag 0 go between the prefix
    and the digits, and the flag - takes precedence over the flag 0. *)
Definition justify (fs : list flag) : just := if has FMinus fs then FMT_LJUST else if has FZero fs then FMT_RJUST0 else FMT_RJUST.

(** A signed number has its sign, an unsigned one none. *)
Definition sign (c : Z) (plus : bool) (n : Z) : list Z :=
  if is_signed c then if n <? 0 then [ch "-"] else if plus then [ch "+"] else [] else [].

Definition radix (c : Z) : Z := if is_signed c || (c =? ch "u") then 10 else if c =? ch "o" then 8 else if c =? ch "b" then 2 else 16.
Definition letter (c : Z) : Z := if c =? ch "X" then ch "A" else ch "a".
Definition numerals (c n : Z) : list Z := map (digit_char (letter c)) (digits (radix c) n).

(** The prefix of the alternate form; zero has none. *)
Definition alt_prefix (c n : Z) : list Z :=
  if n =? 0 then []
  else if c =? ch "o" then [ch "0"]
  else if (c =? ch "x") || (c =? ch "p") then [ch "0"; ch "x"]
  else if c =? ch "X" then [ch "0"; ch "X"]
  else [].

(** A field at least [width] wide. *)
Definition field (j : just) (width : Z) (sg pre ds : list Z) : list Z :=
  let pad := Z.to_nat (width - Z.of_nat (length (sg ++ pre ++ ds))) in
  match j with
  | FMT_RJUST => repeat (ch " ") pad ++ sg ++ pre ++ ds
  | FMT_RJUST0 => sg ++ pre ++ repeat (ch "0") pad ++ ds
  | FMT_LJUST => sg ++ pre ++ ds ++ repeat (ch " ") pad
  end.

(** The flags for which the code does that with the magnitude [n]: not - with 0, not
    + with %u, and the alternate form neither of zero in octal and hexadecimal, nor
    with %X, nor in hexadecimal with the flag 0. *)
Definition flags_ok (fs : list flag) (c n : Z) : bool :=
  negb (has FMinus fs && has FZero fs)
  && negb (has FPlus fs && (c =? ch "u"))
  && (negb (has FAlt fs) || (is_signed c || (c =? ch "u") || (c =? ch "b")) || (negb (n =? 0) && negb (c =? ch "X") && ((c =? ch "o") || negb (has FZero fs)))).

(** The width and the arguments that are left; an argument is not negative. *)
Definition width_of (w : width) (ap : list Z) : option (Z * list Z) :=
  match w, ap with
  | WNone, _ => Some (0, ap)
  | WNum w, _ => Some (w, ap)
  | WArg, a :: ap => if bool_decide (0 <= s32 a) then Some (s32 a, ap) else None
  | WArg, [] => None
  end.

(** The characters and the arguments that are left; [strs] are the strings in
    memory. [None] where nothing is claimed. *)
Definition render (strs : gmap Z (list Z)) (i : item) (ap : list Z) : option (list Z * list Z) :=
  match i, ap with
  | ILit c, _ => Some ([c], ap)
  | IPercent, _ => Some ([ch "%"], ap)
  | IChar, a :: ap => Some ([s32 a], ap)
  | IString, p :: ap => if decide (p = NULL) then Some (g_nullstring, ap) else option_map (fun cs => (cs, ap)) (strs !! p)
  | IInt fs w _ c, _ =>
      match width_of w ap with
      | Some (w, a :: ap) =>
          let n := magnitude c (s32 a) in
          if flags_ok fs c n
          then Some (field (justify fs) w (sign c (has FPlus fs) (s32 a)) (if has FAlt fs then alt_prefix c n else []) (numerals c n), ap)
          else None
      | _ => None
      end
  | _, [] => None
  end.

Fixpoint render_all (strs : gmap Z (list Z)) (its : list item) (ap : list Z) : option (list Z) :=
  match its with
  | [] => Some []
  | i :: its =>
      match render strs i ap with
      | Some (cs, ap) => option_map (app cs) (render_all strs its ap)
      | None => None
      end
  end.

Definition format (its : list item) : list Z := concat (map show its).

(** ** The code does what the flags say *)

Lemma has_cons f g fs : has f (g :: fs) = bool_decide (f = g) || has f fs.
Proof. unfold has. do 3 case_bool_decide; try done; set_solver. Qed.

Lemma justification_from j fs :
  has FMinus fs && has FZero fs = false -> foldl set_just j fs = if has FMinus fs then FMT_LJUST else if has FZero fs then FMT_RJUST0 else j.
Proof.
  revert j. induction fs as [|f fs IH]; intros j H; [done|]. rewrite !has_cons in *. cbn [foldl].
  rewrite IH by (destruct (has FMinus fs), (has FZero fs); rewrite ?orb_true_r in H; done).
  destruct f, (has FMinus fs), (has FZero fs); done.
Qed.

Lemma sign_put c plus n : plus && (c =? ch "u") = false -> put_sign_of c plus n = sign c plus n.
Proof. unfold put_sign_of, sign. destruct (is_signed c); cbn [andb orb]; [by destruct (n <? 0)|]. by rewrite andb_comm; intros ->. Qed.

Lemma digit_char_small a b ds : Forall (fun d => 0 <= d < 10) ds -> map (digit_char a) ds = map (digit_char b) ds.
Proof. induction 1 as [|d ds Hd _ IH]; [done|]. cbn [map]. rewrite IH. unfold digit_char. by rewrite (proj2 (Z.ltb_lt d 10)) by lia. Qed.

Lemma numerals_small c n a : radix c <= 10 -> uint n -> numerals c n = map (digit_char a) (digits (radix c) n).
Proof.
  intros Hr Hn. assert (2 <= radix c) as H2 by (unfold radix; repeat case_match; lia). apply digit_char_small.
  destruct (digits_numeral (radix c) n H2 Hn) as [Hd _ _]. eapply Forall_impl; [exact Hd|]. cbn. lia.
Qed.

Lemma body_numerals c alt n :
  c ∈ integer_conversions -> uint n -> (alt = true -> is_signed c || (c =? ch "u") || (c =? ch "b") = false -> n <> 0 /\ c <> ch "X") ->
  body c alt n = (if alt then alt_prefix c n else []) ++ numerals c n.
Proof.
  intros Hc Hn Ha. conversions Hc.
  - rewrite (numerals_small _ n 0) by done. unfold alt_prefix, body. by destruct alt, (n =? 0).
  - rewrite (numerals_small _ n 0) by done. unfold alt_prefix, body. by destruct alt, (n =? 0).
  - rewrite (numerals_small _ n 0) by done. unfold alt_prefix, body. by destruct alt, (n =? 0).
  - destruct alt; [|done]. destruct (Ha eq_refl eq_refl) as [H0 _]. unfold alt_prefix. by rewrite (proj2 (Z.eqb_neq n 0) H0).
  - destruct alt; [|done]. by destruct (Ha eq_refl eq_refl) as [_ []].
  - destruct alt; [|done]. destruct (Ha eq_refl eq_refl) as [H0 _]. unfold alt_prefix. by rewrite (proj2 (Z.eqb_neq n 0) H0).
  - rewrite (numerals_small _ n 0) by done. destruct alt; [|done]. destruct (Ha eq_refl eq_refl) as [H0 _]. unfold alt_prefix. by rewrite (proj2 (Z.eqb_neq n 0) H0).
  - rewrite (numerals_small _ n 0) by done. unfold alt_prefix, body. by destruct alt, (n =? 0).
Qed.

(** Zeros before or behind the prefix. *)
Lemma padded_field j w sg pre ds :
  (j = FMT_RJUST0 -> pre = [] \/ pre = [ch "0"]) -> padded j w sg (pre ++ ds) = field j w sg pre ds.
Proof.
  intros Hj. unfold padded, field. rewrite <- (length_app sg). set (pad := Z.to_nat _). destruct j; [done|by rewrite <- app_assoc|].
  destruct (Hj eq_refl) as [->| ->]; [done|]. cbn [app]. do 2 f_equal. change (ch "0" :: ds) with ([ch "0"] ++ ds). rewrite app_assoc. change (ch "0" :: repeat (ch "0") pad ++ ds) with ((ch "0" :: repeat (ch "0") pad) ++ ds).
  f_equal. symmetry. apply (repeat_cons pad (ch "0")).
Qed.

(** What the code puts for an integer is its field. *)
Lemma put_field fs w c n :
  c ∈ integer_conversions -> uint (magnitude c n) -> flags_ok fs c (magnitude c n) = true ->
  padded (justification fs) w (put_sign_of c (has FPlus fs) n) (body c (has FAlt fs) (magnitude c n))
  = field (justify fs) w (sign c (has FPlus fs) n) (if has FAlt fs then alt_prefix c (magnitude c n) else []) (numerals c (magnitude c n)).
Proof.
  intros Hc Hu Hf. unfold flags_ok in Hf. rewrite !andb_true_iff, !negb_true_iff in Hf. destruct Hf as [[H1 H2] H3].
  unfold justification. rewrite justification_from, sign_put by done. fold (justify fs). rewrite body_numerals.
  - apply padded_field. unfold justify. intros Hj. assert (has FZero fs = true) as Hz by (by destruct (has FMinus fs), (has FZero fs)). rewrite Hz in H3.
    destruct (has FAlt fs); [|by left]. cbn [negb orb] in H3. rewrite orb_false_r in H3. unfold alt_prefix. destruct (_ =? 0); [by left|].
    conversions Hc; cbn in H3; rewrite ?andb_false_r in H3; try done; (by left) || by right.
  - done.
  - done.
  - intros Ea Es. rewrite Ea, Es in H3. cbn [negb orb] in H3. rewrite !andb_true_iff, !negb_true_iff, !Z.eqb_neq in H3. tauto.
Qed.

(** ** Reading memory *)

Lemma holds_cons p b bs m : 0 < p -> holds p (b :: bs) m <-> deref m p = Ok b /\ holds (p + 1) bs m.
Proof.
  intros Hp. change (b :: bs) with ([b] ++ bs). rewrite holds_app. change (Z.of_nat (length [b])) with 1. split; intros [H1 H2]; (split; [|done]).
  - apply deref_Some; [lia|]. rewrite <-(H1 0%nat b eq_refl). f_equal. lia.
  - intros [|j] c Hc; [|done]. injection Hc as <-. rewrite Z.add_0_r. by apply deref_Ok in H1 as [_ H1].
Qed.

Lemma holds_size p bs m : holds p bs m -> (length bs <= size m)%nat.
Proof.
  intros H. assert (length bs = size (list_to_set (map (fun j => p + Z.of_nat j) (seq 0 (length bs))) : gset Z)) as ->.
  - rewrite size_list_to_set; [by rewrite length_map, length_seq|]. apply NoDup_fmap_2; [intros i j; lia|apply NoDup_seq].
  - rewrite <-size_dom. apply subseteq_size. intros x Hx. apply elem_of_list_to_set, list_elem_of_fmap in Hx as (j & -> & Hj). apply elem_of_seq in Hj.
    destruct (lookup_lt_is_Some_2 bs j) as [b Hb]; [lia|]. apply elem_of_dom. exists b. by apply H.
Qed.

(** ** The qualifiers *)

Record quals_are (plus alt : bool) (j : just) (w : Z) (q : quals) : Prop := QualsAre {
  qu_flags : flags_are plus alt false (q_flags q);
  qu_dot : is_flag FLAG_HASDOT (q_flags q) = false;
  qu_fmt : q_fmt q = j;
  qu_width : q_width q = w
}.

Definition apply_flag (q : quals) (f : flag) : quals :=
  match f with
  | FMinus => set_q_fmt FMT_LJUST q
  | FZero => set_q_fmt FMT_RJUST0 q
  | FPlus => set_q_flags (set_flag FLAG_SHOWPLUS (q_flags q)) q
  | FAlt => set_q_flags (set_flag FLAG_ALTFORM (q_flags q)) q
  end.

(** Setting a flag that does not matter, or one of the two that do. *)
Lemma quals_set k plus alt j w q :
  quals_are plus alt j w q -> 0 <= k -> k <> 2 -> k <> 7 -> quals_are (plus || (k =? 0)) (alt || (k =? 1)) j w (set_q_flags (set_flag (2 ^ k) (q_flags q)) q).
Proof.
  intros [[Hp Ha Hg] Hd Hf Hw] Hk H2 H7. split; [split|..]; try done; cbn [q_flags set_q_flags].
  - change FLAG_SHOWPLUS with (2 ^ 0) in *. by rewrite is_flag_set, Hp, (Z.eqb_sym 0 k) by lia.
  - change FLAG_ALTFORM with (2 ^ 1) in *. by rewrite is_flag_set, Ha, (Z.eqb_sym 1 k) by lia.
  - change FLAG_NEGATE with (2 ^ 7) in *. by rewrite is_flag_set, Hg, (proj2 (Z.eqb_neq 7 k)) by lia.
  - change FLAG_HASDOT with (2 ^ 2) in *. by rewrite is_flag_set, Hd, (proj2 (Z.eqb_neq 2 k)) by lia.
Qed.

Lemma apply_flags_ok fs : forall plus alt j w q,
  quals_are plus alt j w q -> quals_are (plus || has FPlus fs) (alt || has FAlt fs) (foldl set_just j fs) w (foldl apply_flag q fs).
Proof.
  induction fs as [|f fs IH]; intros plus alt j w q Hq; cbn [foldl]; [unfold has; rewrite !bool_decide_false, !orb_false_r by set_solver; done|].
  rewrite !has_cons, !orb_assoc. apply IH. destruct f; cbn [apply_flag set_just]; rewrite ?(bool_decide_false (_ = _)), ?(bool_decide_true (_ = _)), ?orb_false_r by done.
  - destruct Hq as [[? ? ?] ? ? ?]. by repeat split.
  - destruct Hq as [[? ? ?] ? ? ?]. by repeat split.
  - pose proof (quals_set 0 _ _ _ _ _ Hq ltac:(lia) ltac:(lia) ltac:(lia)) as H. by rewrite orb_false_r in H.
  - pose proof (quals_set 1 _ _ _ _ _ Hq ltac:(lia) ltac:(lia) ltac:(lia)) as H. by rewrite orb_false_r in H.
Qed.

Lemma qualify_flags fs : forall fuel src q ap m rest,
  0 < src -> holds src (map flag_char fs ++ rest) m ->
  qualify (length fs + fuel) src q ap m = qualify fuel (src + Z.of_nat (length fs)) (foldl apply_flag q fs) ap m.
Proof.
  induction fs as [|f fs IH]; intros fuel src q ap m rest Hs Hm; cbn [length foldl map app Nat.add]; [by rewrite Z.add_0_r|].
  apply holds_cons in Hm as [Hd Hm]; [|done]. cbn [qualify]. rewrite Hd, bind_Ok. replace (src + Z.of_nat (S (length fs))) with (src + 1 + Z.of_nat (length fs)) by lia.
  rewrite <-(IH fuel (src + 1) (apply_flag q f) ap m rest) by (done || lia). by destruct f.
Qed.

(** ** Widths *)

(** The value of the digits read so far and of those that follow. *)
Lemma value_from_le n ds : 0 <= n -> Forall (fun d => 0 <= d < 10) ds -> n <= foldl (fun acc d => acc * 10 + d) n ds.
Proof. intros Hn Hd. revert n Hn. induction Hd as [|d ds Hd _ IH]; intros n Hn; cbn [foldl]; [lia|]. specialize (IH (n * 10 + d)). lia. Qed.

Lemma digit_char_digit d a : 0 <= d < 10 -> digit_char a d = d + 48 /\ is_digit (d + 48) = true.
Proof. intros Hd. unfold digit_char, is_digit. rewrite (proj2 (Z.ltb_lt d 10)) by lia. change (ch "0") with 48. change (ch "9") with 57. split; [done|]. rewrite !(proj2 (Z.leb_le _ _)) by lia. done. Qed.

Lemma width_loop_ok ds : forall fuel src n m c rest,
  0 < src -> holds (src + 1) (map (digit_char 0) ds ++ c :: rest) m -> Forall (fun d => 0 <= d < 10) ds -> is_digit c = false -> (length ds < fuel)%nat ->
  0 <= n -> foldl (fun acc d => acc * 10 + d) n ds <= INT_MAX ->
  width_loop fuel src n m = Ok (foldl (fun acc d => acc * 10 + d) n ds, src + 1 + Z.of_nat (length ds)).
Proof.
  induction ds as [|d ds IH]; intros [|fuel] src n m c rest Hs Hm Hds Hc Hf Hn Hmax; try (simpl in Hf; lia); cbn [width_loop map app] in *;
    (apply holds_cons in Hm as [Hd Hm]; [|lia]); rewrite Hd, bind_Ok; cbv zeta.
  - rewrite Hc. cbn [foldl length]. do 2 f_equal. lia.
  - apply Forall_cons in Hds as [Hd1 Hds]. destruct (digit_char_digit d 0 Hd1) as [-> ->]. cbn [foldl] in *. pose proof (value_from_le (n * 10 + d) ds ltac:(lia) Hds).
    change (ch "0") with 48. rewrite s32_id by lia. replace (10 * n + (d + 48 - 48)) with (n * 10 + d) by lia. rewrite (IH fuel (src + 1) _ m c rest) by (done || simpl in Hf; lia). do 2 f_equal. cbn [length]. lia.
Qed.

(** A character that ends the qualifiers. *)
Lemma qualify_end fuel src q ap m c : deref m src = Ok c -> c ∈ conversions -> qualify (S fuel) src q ap m = Ok (src, q, ap).
Proof.
  intros Hd Hc. cbn [qualify]. rewrite Hd, bind_Ok. assert (c <> 0 /\ strchr conversions c = true) as [H0 H1].
  { unfold conversions in Hc. repeat (apply elem_of_cons in Hc as [->|Hc]; [done|]). by apply elem_of_nil in Hc. }
  rewrite (proj2 (Z.eqb_neq c 0)) by done. by rewrite H1.
Qed.

Lemma conversion_not_digit c : c ∈ conversions -> is_digit c = false.
Proof. intros Hc. unfold conversions in Hc. repeat (apply elem_of_cons in Hc as [->|Hc]; [done|]). by apply elem_of_nil in Hc. Qed.

Lemma quals_width plus alt j w q w' : quals_are plus alt j w q -> quals_are plus alt j w' (set_number w' q).
Proof. intros [? Hd ? ?]. unfold set_number. rewrite Hd. by split. Qed.

Lemma qualify_width w fuel src q ap m c rest plus alt j w' ap' :
  0 < src -> holds src (show_width w ++ c :: rest) m -> c ∈ conversions -> (length (show_width w) < fuel)%nat ->
  match w with WNum n => 1 <= n <= INT_MAX | _ => True end -> quals_are plus alt j 0 q -> width_of w ap = Some (w', ap') ->
  exists q', qualify (S fuel) src q ap m = Ok (src + Z.of_nat (length (show_width w)), q', ap') /\ quals_are plus alt j w' q'.
Proof.
  intros Hs Hm Hc Hf Hw Hq Hwo. destruct w as [|n|]; cbn [show_width width_of] in *.
  - injection Hwo as <- <-. apply holds_cons in Hm as [Hd _]; [|done]. exists q. rewrite (qualify_end _ _ _ _ _ c) by done. cbn [length]. by rewrite Z.add_0_r.
  - injection Hwo as <- <-. unfold INT_MAX in Hw. assert (uint n) as Hu by (unfold uint; lia). destruct (digits_numeral 10 n ltac:(lia) Hu) as [Hr Hv (d & ds & E & H0)].
    unfold decimal in *. rewrite E in *. cbn [map app length] in *. rewrite length_map in *. apply Forall_cons in Hr as [Hd1 Hds]. destruct (digit_char_digit d 0 Hd1) as [Ed Hdig].
    apply holds_cons in Hm as [Hd Hm]; [|done]. rewrite Ed in Hd. assert (d <> 0) as Hdn by (intros ->; specialize (H0 eq_refl); lia).
    assert (1 <= d <= 9) as H19 by lia. cbn [qualify]. rewrite Hd, bind_Ok.
    assert ((d + 48 =? 0) = false /\ strchr conversions (d + 48) = false /\ (d + 48 =? ch "-") = false /\ (d + 48 =? ch "0") = false /\ (d + 48 =? ch "*") = false /\ (ch "1" <=? d + 48) && (d + 48 <=? ch "9") = true) as (-> & -> & -> & -> & -> & ->).
    { assert (d = 1 \/ d = 2 \/ d = 3 \/ d = 4 \/ d = 5 \/ d = 6 \/ d = 7 \/ d = 8 \/ d = 9) as Hcases by lia. by repeat (destruct Hcases as [->|Hcases]; [done|]); subst. }
    unfold value in Hv. cbn [foldl] in Hv. rewrite (width_loop_ok ds fuel src _ m c rest); [|done|done|done|by apply conversion_not_digit|lia|change (ch "0") with 48; lia|].
    + rewrite bind_Ok. cbv zeta. replace (src + 1 + Z.of_nat (length ds) - 1 + 1) with (src + Z.of_nat (S (length ds))) by lia.
      replace (d + 48 - ch "0") with (0 * 10 + d) by (change (ch "0") with 48; lia). rewrite Hv. destruct fuel as [|fuel]; [lia|]. exists (set_number n q). split; [|by eapply quals_width].
      apply (qualify_end _ _ _ _ _ c); [|done]. apply holds_app in Hm as [_ Hm]. rewrite length_map in Hm. apply holds_cons in Hm as [Hm _]; [|lia]. rewrite <-Hm. f_equal. lia.
    + replace (d + 48 - ch "0") with (0 * 10 + d) by (change (ch "0") with 48; lia). rewrite Hv. unfold INT_MAX. lia.
  - destruct ap as [|a ap]; [done|]. destruct (bool_decide _) eqn:Eb; [|done]. injection Hwo as <- <-. cbn [app length] in *. apply holds_cons in Hm as [Hd Hm]; [|done]. apply holds_cons in Hm as [Hd2 _]; [|lia].
    destruct fuel as [|fuel]; [lia|]. set (q1 := set_number (s32 a) q).
    exists (set_q_flags (set_flag (2 ^ 3) (q_flags q1)) q1). split.
    + transitivity (qualify (S fuel) (src + 1) (set_q_flags (set_flag (if is_flag FLAG_HASDOT (q_flags q) then FLAG_HASASTERISKTRUNC else FLAG_HASASTERISKWIDTH) (q_flags q1)) q1) ap m).
      { cbn [qualify]. rewrite Hd. reflexivity. }
      rewrite (qu_dot _ _ _ _ _ Hq). by apply (qualify_end _ _ _ _ _ c).
    + pose proof (quals_set 3 _ _ _ _ q1 (quals_width _ _ _ _ _ (s32 a) Hq) ltac:(lia) ltac:(lia) ltac:(lia)) as H. by rewrite !orb_false_r in H.
Qed.

(** The qualifiers of an integer conversion. *)
Lemma qualify_ok fs w fuel src ap m c rest w' ap' :
  0 < src -> holds src (map flag_char fs ++ show_width w ++ c :: rest) m -> c ∈ conversions -> (length fs + length (show_width w) + 1 < fuel)%nat ->
  match w with WNum n => 1 <= n <= INT_MAX | _ => True end -> width_of w ap = Some (w', ap') ->
  exists q', qualify fuel src quals_init ap m = Ok (src + Z.of_nat (length (map flag_char fs ++ show_width w)), q', ap')
    /\ quals_are (has FPlus fs) (has FAlt fs) (justification fs) w' q'.
Proof.
  intros Hs Hm Hc Hf Hw Hwo. assert (quals_are false false FMT_RJUST 0 quals_init) as H0 by (by repeat split). pose proof (apply_flags_ok fs _ _ _ _ _ H0) as Hq. cbn [orb] in Hq.
  replace fuel with (length fs + S (fuel - S (length fs)))%nat by lia. rewrite (qualify_flags fs _ src _ ap m (show_width w ++ c :: rest)) by done.
  apply holds_app in Hm as [_ Hm]. rewrite length_map in Hm.
  destruct (qualify_width w (fuel - S (length fs)) (src + Z.of_nat (length fs)) _ ap m c rest _ _ _ w' ap' ltac:(lia) Hm Hc ltac:(lia) Hw Hq Hwo) as (q' & E & Hq').
  exists q'. split; [|done]. rewrite E, length_app, length_map. do 3 f_equal. lia.
Qed.

Lemma skip_prefix_ok prefix c src plus alt j w q m rest :
  0 < src -> holds src (prefix ++ c :: rest) m -> prefix ∈ prefixes -> c ∈ integer_conversions -> quals_are plus alt j w q ->
  exists q', skip_prefix src q m = Ok (src + Z.of_nat (length prefix), q') /\ quals_are plus alt j w q'.
Proof.
  intros Hs Hm Hp Hc Hq. assert ((c =? ch "L") = false /\ (c =? ch "l") = false) as [HL Hl] by (conversions Hc; done).
  pose proof (quals_set 5 _ _ _ _ _ Hq ltac:(lia) ltac:(lia) ltac:(lia)) as H5. rewrite !orb_false_r in H5. pose proof (quals_set 6 _ _ _ _ _ Hq ltac:(lia) ltac:(lia) ltac:(lia)) as H6. rewrite !orb_false_r in H6.
  pose proof (quals_set 6 _ _ _ _ _ H5 ltac:(lia) ltac:(lia) ltac:(lia)) as H56. rewrite !orb_false_r in H56.
  unfold skip_prefix. unfold prefixes in Hp. repeat (apply elem_of_cons in Hp as [->|Hp]); [..|by apply elem_of_nil in Hp]; cbn [app length] in *;
    (apply holds_cons in Hm as [Hd Hm]; [|done]); rewrite Hd, bind_Ok.
  - rewrite HL, Hl. exists q. split; [|done]. by rewrite Z.add_0_r.
  - apply holds_cons in Hm as [Hd2 _]; [|lia]. eexists. split; [cbn; rewrite Hd2, bind_Ok, Hl; reflexivity|exact H5].
  - apply holds_cons in Hm as [Hd2 _]; [|lia]. eexists. split; [cbn; rewrite Hd2, bind_Ok|exact H56]. cbn. do 2 f_equal. lia.
  - eexists. split; [reflexivity|exact H6].
Qed.
