(* ===== verification/PrintfThm.v ===== *)
(** * Formatted output: theorems

    lib_vsprintf puts, on any stream, the characters its format stands for; in a
    buffer they end with a zero, within the size of the buffer. *)

From Stdlib Require Import Ascii.
From S2P Require Import Prelude Bytes Printf PrintfNum PrintfSpec PrintfFmt.

(** ** Any stream *)

(** What a stream promises to lib_vsprintf: when [ok k] holds, [k] more characters
    can be put, and the format [fmt] at [src0] and the strings [strs] are in memory. *)
Class StreamOk {S : Type} {OS : OutStream S} (src0 : ptr) (fmt : list Z) (strs : gmap Z (list Z)) (ok : nat -> S -> gmap Z Z -> Prop) : Prop := {
  so_put c k obj m : ok (Datatypes.S k) obj m -> exists obj' m', put c obj m = Ok (obj', m') /\ ok k obj' m';
  so_fmt k obj m : ok k obj m -> holds src0 (fmt ++ [0]) m;
  so_str k obj m p cs : ok k obj m -> strs !! p = Some cs -> holds p (cs ++ [0]) m;
  so_size k obj m k' obj' m' : ok k obj m -> ok k' obj' m' -> size m = size m';
  so_pos : 0 < src0;
  so_chars p cs : strs !! p = Some cs -> 0 <= p /\ Forall (fun c => c <> 0) cs
}.

Section any.
  Context {S : Type} {OS : OutStream S} {src0 : ptr} {fmt : list Z} {strs : gmap Z (list Z)} {ok : nat -> S -> gmap Z Z -> Prop} {SO : StreamOk src0 fmt strs ok}.
  Implicit Types (obj : S) (m : gmap Z Z) (cs out : list Z) (its : list item).

Lemma put_chars_ok cs k obj m : ok (length cs + k) obj m -> exists obj' m', put_chars cs obj m = Ok (obj', m') /\ ok k obj' m'.
Proof.
  revert obj m. induction cs as [|c cs IH]; intros obj m Hok; [by exists obj, m|]. destruct (so_put c (length cs + k) obj m Hok) as (o1 & m1 & E1 & H1). cbn [put_chars]. rewrite E1, bind_Ok. by apply IH.
Qed.

Lemma put_string_ok p cs1 cs k : forall fuel obj m,
  0 < p -> (forall k obj m, ok k obj m -> holds p ((cs1 ++ cs) ++ [0]) m) -> Forall (fun c => c <> 0) cs -> (length cs < fuel)%nat -> ok (length cs + k) obj m ->
  put_string fuel (p + Z.of_nat (length cs1)) obj m = put_chars cs obj m.
Proof.
  revert cs1. induction cs as [|c cs IH]; intros cs1 [|fuel] obj m Hp Hs Hc Hf Hok; try (simpl in Hf; lia); cbn [put_string put_chars];
    pose proof (Hs _ obj m Hok) as Hm; rewrite <-app_assoc in Hm; apply holds_app in Hm as [_ Hm]; cbn [app] in Hm; (apply holds_cons in Hm as [Hd _]; [|lia]); rewrite Hd, bind_Ok.
  - done.
  - apply Forall_cons in Hc as [Hc Hcs]. rewrite (proj2 (Z.eqb_neq c 0)) by done. cbn [negb]. destruct (so_put c (length cs + k) obj m Hok) as (o1 & m1 & E1 & H1). rewrite E1, !bind_Ok.
    replace (p + Z.of_nat (length cs1) + 1) with (p + Z.of_nat (length (cs1 ++ [c]))) by (rewrite length_app; simpl; lia). apply IH; try done; [|simpl in Hf; lia].
    intros k' o m' Ho. specialize (Hs k' o m' Ho). by rewrite <-(app_assoc cs1 [c]).
Qed.

Lemma int_s32 a : int (s32 a).
Proof. unfold int, s32, INT_MAX. pose proof (Z.mod_pos_bound (a + 2 ^ 31) (2 ^ 32) ltac:(lia)). lia. Qed.

Lemma width_of_ok w ap w' ap' : match w with WNum n => 1 <= n <= INT_MAX | _ => True end -> width_of w ap = Some (w', ap') -> width_ok w'.
Proof.
  unfold width_ok, INT_MAX. intros Hw H. destruct w as [|n|]; cbn [width_of] in H; [injection H as <- _; lia|injection H as <- _; lia|].
  destruct ap as [|a ap]; [done|]. destruct (bool_decide _) eqn:E; [|done]. apply bool_decide_eq_true in E. injection H as <- _. pose proof (int_s32 a). unfold int, INT_MAX in *. lia.
Qed.

(** An integer conversion, from its prefix on. *)
Lemma convert_integer n src q ap a obj m plus alt j w prefix c rest :
  0 < src -> holds src (prefix ++ c :: rest) m -> prefix ∈ prefixes -> c ∈ integer_conversions -> quals_are plus alt j w q -> width_ok w ->
  convert n src q (a :: ap) obj m
    = ('(obj, m) ← put_chars (padded j w (put_sign_of c plus (s32 a)) (body c alt (magnitude c (s32 a)))) obj m; Ok (src + Z.of_nat (length prefix), ap, obj, m)).
Proof.
  intros Hs Hm Hp Hc Hq Hw. destruct (skip_prefix_ok prefix c src plus alt j w q m rest Hs Hm Hp Hc Hq) as (q' & E & [Hf _ Hj Hw']).
  assert (exists c0, deref m src = Ok c0 /\ (c0 =? ch "%") = false /\ (c0 =? ch "s") = false /\ (c0 =? ch "c") = false) as (c0 & Hd & H1 & H2 & H3).
  { unfold prefixes in Hp. repeat (apply elem_of_cons in Hp as [->|Hp]); [..|by apply elem_of_nil in Hp]; cbn [app] in Hm; (apply holds_cons in Hm as [Hd _]; [|done]); (eexists; split; [exact Hd|]); [|done..].
    conversions Hc; done. }
  unfold convert. rewrite Hd, bind_Ok, H1, H2, H3, E, bind_Ok. apply holds_app in Hm as [_ Hm]. apply holds_cons in Hm as [Hd' _]; [|lia]. rewrite Hd', bind_Ok.
  assert (strchr integer_conversions c = true) as -> by (conversions Hc; done). change (va_int (a :: ap)) with (Ok (s32 a, ap)). rewrite bind_Ok.
  rewrite (put_integer_ok c q' plus alt (s32 a)) by (done || apply int_s32 || by rewrite Hw'). by rewrite Hj, Hw'.
Qed.

(** A conversion from its percent sign on: [src] comes to its last character. *)
Lemma conversion_ok i n pre rest ap cs ap' k obj m :
  fmt ++ [0] = pre ++ show i ++ rest -> (forall c, i <> ILit c) -> item_ok i -> render strs i ap = Some (cs, ap') -> ok (length cs + k) obj m -> (size m < n)%nat ->
  let src := src0 + Z.of_nat (length pre) in
  deref m src = Ok (ch "%") /\
  ('(src, q, ap) ← qualify n (src + 1) quals_init ap m; convert n src q ap obj m)
    = ('(obj, m) ← put_chars cs obj m; Ok (src + Z.of_nat (length (show i)) - 1, ap', obj, m)).
Proof.
  intros Hfmt Hlit Hi Hr Hok Hn src. pose proof (so_fmt _ obj m Hok) as Hm. pose proof (holds_size _ _ _ Hm) as Hsz. pose proof so_pos as Hpos. rewrite Hfmt in Hm, Hsz.
  rewrite !length_app in Hsz. apply holds_app in Hm as [_ Hm]. fold src in Hm. assert (0 < src) as Hs by (unfold src; lia).
  destruct i as [c| | | |fs w prefix c]; [by destruct (Hlit c)|..]; cbn [show app length] in *; (apply holds_cons in Hm as [Hd Hm]; [|done]); (split; [done|]).
  - injection Hr as <- <-. apply holds_cons in Hm as [Hd2 _]; [|lia]. destruct n as [|n]; [lia|]. rewrite (qualify_end _ _ _ _ _ (ch "%")), bind_Ok by (done || set_solver).
    unfold convert. rewrite Hd2, bind_Ok, put_chars_single. change (ch "%" =? ch "%") with true. cbn match. destruct (put _ obj m) as [[o1 m1]|]; [|done]. rewrite !bind_Ok. do 4 f_equal. lia.
  - destruct ap as [|a ap]; [done|]. injection Hr as <- <-. apply holds_cons in Hm as [Hd2 _]; [|lia]. destruct n as [|n]; [lia|]. rewrite (qualify_end _ _ _ _ _ (ch "c")), bind_Ok by (done || set_solver).
    unfold convert. rewrite Hd2, bind_Ok, put_chars_single. change (ch "c" =? ch "%") with false. change (ch "c" =? ch "s") with false. change (ch "c" =? ch "c") with true. cbn match.
    change (va_int (a :: ap)) with (Ok (s32 a, ap)). rewrite bind_Ok. destruct (put _ obj m) as [[o1 m1]|]; [|done]. rewrite !bind_Ok. do 4 f_equal. lia.
  - destruct ap as [|p ap]; [done|]. apply holds_cons in Hm as [Hd2 _]; [|lia]. destruct n as [|n]; [lia|]. rewrite (qualify_end _ _ _ _ _ (ch "s")), bind_Ok by (done || set_solver).
    unfold convert. rewrite Hd2, bind_Ok. change (ch "s" =? ch "%") with false. change (ch "s" =? ch "s") with true. cbn [va_arg]. rewrite bind_Ok. cbn [render] in Hr.
    assert ((if decide (p = NULL) then put_chars g_nullstring obj m else put_string (Datatypes.S n) p obj m) = put_chars cs obj m /\ ap' = ap) as [-> ->].
    { destruct (decide (p = NULL)) as [->|Hp]; [by injection Hr as <- <-|]. destruct (strs !! p) as [cs'|] eqn:Es; [|done]. injection Hr as <- <-. split; [|done].
      destruct (so_chars p cs' Es) as [Hp0 Hc]. replace p with (p + Z.of_nat (length (@nil Z))) by (simpl; lia). apply (put_string_ok p [] cs' k); try done; [lia|intros; by eapply so_str|].
      pose proof (holds_size _ _ _ (so_str _ obj m p cs' Hok Es)) as Hl. rewrite length_app in Hl. simpl in Hl. lia. }
    destruct (put_chars cs obj m) as [[o1 m1]|]; [|done]. rewrite !bind_Ok. do 4 f_equal. lia.
  - destruct Hi as (Hc & Hp & Hw). cbn [render] in Hr. destruct (width_of w ap) as [[w' [|a ap1]]|] eqn:Ew; [done| |done]. cbv zeta in Hr.
    destruct (flags_ok fs c (magnitude c (s32 a))) eqn:Efl; [|done]. injection Hr as <- <-. rewrite <-put_field by (done || by apply magnitude_uint, int_s32).
    rewrite <-!app_assoc in Hm. cbn [app] in Hm.
    assert (exists c0 r0, prefix ++ c :: rest = c0 :: r0 /\ c0 ∈ conversions) as (c0 & r0 & E0 & Hc0).
    { unfold prefixes in Hp. repeat (apply elem_of_cons in Hp as [->|Hp]); [..|by apply elem_of_nil in Hp]; cbn [app]; do 2 eexists; (split; [done|]); [conversions Hc|..]; set_solver. }
    pose proof Hm as Hm0. rewrite E0 in Hm0. cbn [length] in Hsz. rewrite !length_app, length_map in Hsz.
    destruct (qualify_ok fs w n (src + 1) ap m c0 r0 w' (a :: ap1) ltac:(lia) Hm0 Hc0 ltac:(simpl in Hsz; lia) Hw Ew) as (q' & -> & Hq). rewrite bind_Ok.
    rewrite app_assoc in Hm. apply holds_app in Hm as [_ Hm]. rewrite (convert_integer n (src + 1 + Z.of_nat (length (map flag_char fs ++ show_width w))) q' ap1 a obj m _ _ _ _ prefix c rest ltac:(lia) Hm Hp Hc Hq (width_of_ok _ _ _ _ Hw Ew)).
    destruct (put_chars _ obj m) as [[o1 m1]|]; [|done]. rewrite !bind_Ok. rewrite !length_app. cbn [length]. do 4 f_equal. lia.
Qed.

(** The whole format. *)
Lemma vsprintf_loop_ok its k : forall pre fuel n ap out obj m,
  fmt ++ [0] = pre ++ format its ++ [0] -> Forall item_ok its -> render_all strs its ap = Some out -> ok (length out + k) obj m -> (length its < fuel)%nat ->
  (size m < n)%nat ->
  vsprintf_loop fuel n (src0 + Z.of_nat (length pre)) ap obj m = put_chars out obj m.
Proof.
  induction its as [|i its IH]; intros pre [|fuel] n ap out obj m Hfmt Hi Hr Hok Hf Hn; try (simpl in Hf; lia); cbn [vsprintf_loop render_all] in *.
  - injection Hr as <-. pose proof (so_fmt _ obj m Hok) as Hm. rewrite Hfmt in Hm. apply holds_app in Hm as [_ Hm]. pose proof so_pos. apply holds_cons in Hm as [Hd _]; [|lia]. by rewrite Hd.
  - apply Forall_cons in Hi as [Hi Hits]. destruct (render strs i ap) as [[cs ap1]|] eqn:Er; [|done]. destruct (render_all strs its ap1) as [out1|] eqn:Er1; [|done]. injection Hr as <-.
    unfold format in Hfmt. cbn [map concat] in Hfmt. rewrite <-app_assoc in Hfmt. rewrite put_chars_app.
    assert (fmt ++ [0] = (pre ++ show i) ++ format its ++ [0]) as Hfmt1 by (rewrite Hfmt; by rewrite <-app_assoc).
    rewrite length_app, <-Nat.add_assoc in Hok. destruct (put_chars_ok cs (length out1 + k) obj m Hok) as (o1 & m1 & E1 & Hok1). pose proof (IH (pre ++ show i) fuel n ap1 out1 o1 m1 Hfmt1 Hits Er1 Hok1 ltac:(simpl in Hf; lia) ltac:(by rewrite (so_size _ o1 m1 _ obj m Hok1 Hok))) as IH1.
    rewrite E1, bind_Ok, <-IH1. rewrite length_app, Nat2Z.inj_add. assert ((exists c, i = ILit c) \/ (forall c, i <> ILit c)) as [[c ->]|Hnl] by (destruct i; eauto).
    + destruct Hi as [Hc0 Hcp]. injection Er as <- <-. rewrite put_chars_single in E1. pose proof (so_fmt _ obj m Hok) as Hm. rewrite Hfmt in Hm. apply holds_app in Hm as [_ Hm]. pose proof so_pos.
      cbn [show app] in Hm. apply holds_cons in Hm as [Hd _]; [|lia]. rewrite Hd, bind_Ok, (proj2 (Z.eqb_neq c 0)), (proj2 (Z.eqb_neq c (ch "%"))) by done. cbn [negb]. rewrite E1, bind_Ok. f_equal. simpl. lia.
    + destruct (conversion_ok i n pre _ ap cs ap1 (length out1 + k) obj m Hfmt Hnl Hi Er Hok Hn) as [Hd Hc]. rewrite Hd, bind_Ok.
      change (ch "%" =? 0) with false. change (ch "%" =? ch "%") with true. cbn [negb]. rewrite E1, bind_Ok in Hc.
      destruct (qualify n _ quals_init ap m) as [[[s1 q1] a1]|]; [|done]. rewrite !bind_Ok in *. rewrite Hc, bind_Ok. f_equal. lia.
Qed.

Lemma format_length its : (length its <= length (format its))%nat.
Proof. induction its as [|i its IH]; [done|]. unfold format in *. cbn [map concat length]. rewrite length_app. destruct i; simpl; lia. Qed.

(** lib_vsprintf on any stream. *)
Lemma lib_vsprintf_ok its ap out k obj m :
  fmt = format its -> Forall item_ok its -> render_all strs its ap = Some out -> ok (length out + k) obj m ->
  lib_vsprintf src0 ap obj m = ('(obj, m) ← put_chars out obj m; Ok (nput obj, obj, m)).
Proof.
  intros Hfmt Hi Hr Hok. unfold lib_vsprintf. pose proof (holds_size _ _ _ (so_fmt _ obj m Hok)) as Hl. rewrite length_app, Hfmt in Hl. pose proof (format_length its).
  rewrite <-(vsprintf_loop_ok its k [] (Datatypes.S (size m)) (Datatypes.S (size m)) ap out obj m) by (rewrite ?Hfmt; done || lia). cbn [length]. by rewrite Z.add_0_r.
Qed.

End any.

(** ** Buffers *)

(** The arguments of a call: the format and the strings in memory, apart from the
    [len] bytes at [buf], which are part of the memory. *)
Record call_ok (buf len src0 : Z) (fmt : list Z) (strs : gmap Z (list Z)) (m : gmap Z Z) : Prop := CallOk {
  co_buf : 0 < buf /\ forall a, buf <= a < buf + len -> is_Some (m !! a);
  co_fmt : 0 < src0 /\ holds src0 (fmt ++ [0]) m /\ apart src0 (Z.of_nat (length fmt) + 1) buf len;
  co_str p cs : strs !! p = Some cs -> 0 <= p /\ Forall (fun c => c <> 0) cs /\ holds p (cs ++ [0]) m /\ apart p (Z.of_nat (length cs) + 1) buf len
}.

Lemma size_fill p bs m : (forall a, p <= a < p + Z.of_nat (length bs) -> is_Some (m !! a)) -> size (fill p bs m) = size m.
Proof.
  intros H. rewrite <-!size_dom. f_equal. apply set_eq. intros a. rewrite !elem_of_dom, lookup_fill. case_decide as Ha; [|done].
  split; intros _; [by apply H|]. apply lookup_lt_is_Some. lia.
Qed.

Section buffer.
  Context (buf src0 : Z) (fmt : list Z) (strs : gmap Z (list Z)) (m0 : gmap Z Z) (buflen : Z) (room : nat).
  Context (Hcall : call_ok buf (Z.of_nat room + 1) src0 fmt strs m0) (Hlen : 0 <= buflen < INT_MAX).

(** The stream has put [cs] and can put [k] characters more, unless it is full. *)
Definition mem_ok (k : nat) (obj : memoutstream) (m : gmap Z Z) : Prop :=
  exists cs, obj = MemOut (Z.of_nat (length cs)) buf buflen /\ m = fill buf (cs ++ [0]) m0 /\ Z.of_nat (length cs) <= buflen /\ (length cs <= room)%nat
    /\ Z.min (Z.of_nat (length cs + k)) buflen <= Z.of_nat room.

Lemma mem_put_ok c cs :
  Z.of_nat (length cs) < buflen -> (length cs < room)%nat ->
  memoutstream_putc c (MemOut (Z.of_nat (length cs)) buf buflen) (fill buf (cs ++ [0]) m0) = Ok (MemOut (Z.of_nat (length (cs ++ [u8 c]))) buf buflen, fill buf ((cs ++ [u8 c]) ++ [0]) m0).
Proof.
  intros Hl Hr. destruct (co_buf _ _ _ _ _ _ Hcall) as [Hb Hm]. unfold memoutstream_putc. rewrite (proj2 (Z.ltb_lt _ _)) by done. unfold INT_MAX in Hlen.
  assert (fill buf (cs ++ [0]) m0 !! (buf + Z.of_nat (length cs)) = Some 0) as E0.
  { pose proof (holds_fill buf (cs ++ [0]) m0) as Hh. apply holds_app in Hh as [_ Hh]. rewrite <-(Hh 0%nat 0 eq_refl). f_equal. lia. }
  rewrite store_valid by (split; [lia|by eexists]). rewrite bind_Ok, (alter_at _ _ _ 0) by done. rewrite s32_id by (unfold INT_MAX; lia).
  destruct (Hm (buf + (Z.of_nat (length cs) + 1))) as [b Hbm]; [lia|].
  assert (<[buf + Z.of_nat (length cs) := u8 c]> (fill buf (cs ++ [0]) m0) = fill buf (cs ++ [u8 c]) m0) as E1.
  { rewrite !fill_app. cbn [fill]. by rewrite insert_insert_eq. }
  rewrite E1. assert (fill buf (cs ++ [u8 c]) m0 !! (buf + (Z.of_nat (length cs) + 1)) = Some b) as E2 by (rewrite lookup_fill_out; [done|rewrite length_app; simpl; lia]).
  rewrite store_valid by (split; [lia|by eexists]). rewrite bind_Ok, (alter_at _ _ _ b) by done. f_equal. f_equal; [f_equal; rewrite length_app; simpl; lia|].
  rewrite (fill_app buf (cs ++ [u8 c])). cbn [fill]. f_equal. rewrite length_app. simpl. lia.
Qed.

#[local] Instance mem_stream_ok : StreamOk src0 fmt strs mem_ok.
Proof.
  assert (forall cs, (length cs <= room)%nat -> forall p bs, apart p (Z.of_nat (length bs)) buf (Z.of_nat room + 1) -> holds p bs m0 -> holds p bs (fill buf (cs ++ [0]) m0)) as Hh.
  { intros cs Hl p bs Ha H. apply holds_apart; [|done]. unfold apart in *. rewrite length_app. simpl. lia. }
  split.
  - intros c k obj m (cs & -> & -> & Hc & Hr & Hk). destruct (Z.lt_ge_cases (Z.of_nat (length cs)) buflen) as [Hlt|Hge].
    + assert (length cs < room)%nat as Hr' by lia. do 2 eexists. split; [by apply mem_put_ok|]. exists (cs ++ [u8 c]). rewrite length_app. simpl. repeat split; lia.
    + exists (MemOut (Z.of_nat (length cs)) buf buflen), (fill buf (cs ++ [0]) m0). split; [cbn; unfold memoutstream_putc; by rewrite (proj2 (Z.ltb_ge _ _))|]. exists cs. repeat split; lia || done.
  - intros k obj m (cs & -> & -> & _ & Hr & _). destruct (co_fmt _ _ _ _ _ _ Hcall) as (_ & Hf & Ha). apply Hh; [done| |done]. rewrite length_app. simpl. by rewrite Nat2Z.inj_add.
  - intros k obj m p cs' (cs & -> & -> & _ & Hr & _) Hs. destruct (co_str _ _ _ _ _ _ Hcall p cs' Hs) as (_ & _ & Hf & Ha). apply Hh; [done| |done]. rewrite length_app. simpl. by rewrite Nat2Z.inj_add.
  - intros k obj m k' obj' m' (cs & -> & -> & _ & Hr & _) (cs' & -> & -> & _ & Hr' & _). destruct (co_buf _ _ _ _ _ _ Hcall) as [_ Hm].
    rewrite !size_fill; [done|..]; intros a Ha; apply Hm; rewrite length_app in Ha; simpl in Ha; lia.
  - apply (co_fmt _ _ _ _ _ _ Hcall).
  - intros p cs Hs. by destruct (co_str _ _ _ _ _ _ Hcall p cs Hs) as (? & ? & _).
Qed.

Lemma mem_put_chars out : forall cs,
  Z.of_nat (length cs) <= buflen -> (length cs <= room)%nat -> Z.min (Z.of_nat (length cs + length out)) buflen <= Z.of_nat room ->
  put_chars out (MemOut (Z.of_nat (length cs)) buf buflen) (fill buf (cs ++ [0]) m0)
    = (let s := take (Z.to_nat buflen) (cs ++ map u8 out) in Ok (MemOut (Z.of_nat (length s)) buf buflen, fill buf (s ++ [0]) m0)).
Proof.
  induction out as [|c out IH]; intros cs Hc Hr Hk; cbn [put_chars map length] in *; cbv zeta.
  - rewrite app_nil_r, take_ge by lia. done.
  - destruct (Z.lt_ge_cases (Z.of_nat (length cs)) buflen) as [Hlt|Hge].
    + change (put c) with (memoutstream_putc c). rewrite mem_put_ok, bind_Ok by lia. rewrite IH by (rewrite length_app; simpl; lia). by rewrite <-(app_assoc cs [u8 c]).
    + change (put c) with (memoutstream_putc c). unfold memoutstream_putc. rewrite (proj2 (Z.ltb_ge _ _)), bind_Ok by done. rewrite IH by lia. cbv zeta.
      rewrite !take_app_le by lia. done.
Qed.

(** lib_vsprintf on a memory stream that was just opened. *)
Lemma vsprintf_buffer its ap out :
  fmt = format its -> Forall item_ok its -> render_all strs its ap = Some out -> Z.min (Z.of_nat (length out)) buflen <= Z.of_nat room ->
  let s := take (Z.to_nat buflen) (map u8 out) in
  ('(memoutstream, m) ← lib_memoutstream buf (buflen + 1) m0; '(n, _, m) ← lib_vsprintf src0 ap memoutstream m; Ok (n, m)) = Ok (Z.of_nat (length s), fill buf (s ++ [0]) m0).
Proof.
  intros Hfmt Hi Hr Hk. destruct (co_buf _ _ _ _ _ _ Hcall) as [Hb Hm]. destruct (Hm buf) as [b Hbm]; [lia|]. unfold lib_memoutstream.
  rewrite store_valid by (split; [lia|by eexists]). rewrite bind_Ok, (alter_at _ _ _ b), bind_Ok by done. unfold INT_MAX in Hlen. rewrite Z.add_simpl_r, s32_id by (unfold INT_MAX; lia).
  pose proof (mem_put_chars out [] ltac:(simpl; lia) ltac:(simpl; lia) Hk) as Hp. cbn [app length fill] in Hp.
  rewrite (lib_vsprintf_ok its ap out 0 (MemOut 0 buf buflen) (<[buf := 0]> m0) Hfmt Hi Hr).
  - change (Z.of_nat 0) with 0 in Hp. rewrite Hp. done.
  - exists []. simpl. repeat split; lia || (rewrite Nat.add_0_r; lia).
Qed.

End buffer.

(** ** The stream that counts *)

Definition null_ok (m0 : gmap Z Z) (k : nat) (obj : nulloutstream) (m : gmap Z Z) : Prop := m = m0 /\ 0 <= no_nput obj /\ no_nput obj + Z.of_nat k <= INT_MAX.

Lemma null_stream_ok buf len src0 fmt strs m0 : call_ok buf len src0 fmt strs m0 -> StreamOk src0 fmt strs (null_ok m0).
Proof.
  intros HC. split.
  - intros c k [n] m (-> & Hn & Hk). cbn in Hn, Hk. do 2 eexists. split; [reflexivity|]. unfold null_ok. cbn. rewrite s32_id by (unfold INT_MAX in *; lia). repeat split; lia.
  - intros k obj m (-> & _). apply (co_fmt _ _ _ _ _ _ HC).
  - intros k obj m p cs (-> & _) Hs. apply (co_str _ _ _ _ _ _ HC p cs Hs).
  - by intros k obj m k' obj' m' (-> & _) (-> & _).
  - apply (co_fmt _ _ _ _ _ _ HC).
  - intros p cs Hs. by destruct (co_str _ _ _ _ _ _ HC p cs Hs) as (? & ? & _).
Qed.

(** ** The theorem *)

(** sprintf to a buffer that is long enough. *)
Lemma sprintf_ok buf src0 its ap strs out m :
  call_ok buf (Z.of_nat (length out) + 1) src0 (format its) strs m -> Forall item_ok its -> render_all strs its ap = Some out -> Z.of_nat (length out) < INT_MAX ->
  sprintf buf src0 ap m = Ok (Z.of_nat (length out), fill buf (map u8 out ++ [0]) m).
Proof.
  intros HC Hi Hr Hl. unfold INT_MAX in Hl. pose proof (vsprintf_buffer buf src0 (format its) strs m (INT_MAX - 1) (length out) HC ltac:(unfold INT_MAX; lia) its ap out eq_refl Hi Hr ltac:(lia)) as H.
  cbv zeta in H. rewrite Z.sub_add, take_ge in H by (rewrite length_map; unfold INT_MAX; lia). rewrite length_map in H. exact H.
Qed.

(** C36: for every format made of literal characters, %%, %c, %s and integer
    conversions with flags, width and length prefix, and for arguments that fit it,
    [render] says what the format stands for: the padding, the sign, the prefix of the
    alternate form, the zeros and the digits of each number, where fprintf defines
    them, for the combinations of [flags_ok] (the others are in the findings below:
    the flags - and 0 together, + with %u, and # for a zero in octal or hexadecimal,
    for %X, and for a hexadecimal number with the flag 0) and for widths from an
    argument that are not negative.  For a buffer of at least one byte snprintf writes
    that text, cut to leave room for the final zero, changes no byte outside the
    buffer, and returns the length of the text when the text fits; sprintf writes all
    of it and returns its length when the buffer is long enough; and on the stream
    that only counts lib_vsprintf returns exactly the length that sprintf writes, so
    that the buffer asprintf allocates fits. *)
Theorem printf_renders buf len src0 its ap strs out m :
  call_ok buf len src0 (format its) strs m -> Forall item_ok its -> render_all strs its ap = Some out ->
  (1 <= len <= INT_MAX -> exists r,
     snprintf buf len src0 ap m = Ok (r, fill buf (take (Z.to_nat (len - 1)) (map u8 out) ++ [0]) m) /\ (Z.of_nat (length out) < len -> r = Z.of_nat (length out)))
  /\ (len = Z.of_nat (length out) + 1 -> len <= INT_MAX -> sprintf buf src0 ap m = Ok (Z.of_nat (length out), fill buf (map u8 out ++ [0]) m))
  /\ (Z.of_nat (length out) <= INT_MAX -> lib_vsprintf src0 ap lib_nulloutstream m = Ok (Z.of_nat (length out), NullOut (Z.of_nat (length out)), m)).
Proof.
  intros HC Hi Hr. unfold INT_MAX. split; [|split].
  - intros Hl. unfold snprintf. rewrite s32_id by (unfold INT_MAX; lia). assert (call_ok buf (Z.of_nat (Z.to_nat (len - 1)) + 1) src0 (format its) strs m) as HC' by (by replace (Z.of_nat (Z.to_nat (len - 1)) + 1) with len by lia).
    pose proof (vsprintf_buffer buf src0 (format its) strs m (len - 1) (Z.to_nat (len - 1)) HC' ltac:(unfold INT_MAX; lia) its ap out eq_refl Hi Hr ltac:(lia)) as H.
    rewrite Z.sub_add in H. eexists. split; [exact H|]. intros Hfit. rewrite take_ge by (rewrite length_map; lia). by rewrite length_map.
  - intros -> Hl. apply (sprintf_ok buf src0 its ap strs out m); try done. unfold INT_MAX. lia.
  - intros Hl. pose proof (null_stream_ok buf len src0 _ strs m HC) as HS. rewrite (lib_vsprintf_ok its ap out 0 lib_nulloutstream m eq_refl Hi Hr) by (split; [done|split; [done|unfold INT_MAX; cbn; lia]]).
    unfold lib_nulloutstream. by rewrite null_put_chars by (unfold INT_MAX; lia).
Qed.

(** ** An example *)

(** "%5d|%-4x|%s%%" and the string "ab". *)
Definition demo_items : list item := [IInt [] (WNum 5) [] (ch "d"); ILit (ch "|"); IInt [FMinus] (WNum 4) [ch "l"] (ch "x"); ILit (ch "|"); IString; IPercent].
Definition demo_strs : gmap Z (list Z) := {[ 200 := [97; 98] ]}.
Definition demo_memory : gmap Z Z := fill 200 [97; 98; 0] (fill 100 (format demo_items ++ [0]) (fill 300 (repeat 1 20) ∅)).

Lemma demo_call : call_ok 300 20 100 (format demo_items) demo_strs demo_memory.
Proof.
  split.
  - split; [lia|]. intros a Ha. unfold demo_memory. rewrite !lookup_fill_out by (cbn [length]; simpl; lia). rewrite lookup_fill_in by (simpl; lia). apply lookup_lt_is_Some. simpl. lia.
  - split; [lia|]. split; [|left; simpl; lia]. unfold demo_memory. apply holds_apart; [left; simpl; lia|apply holds_fill].
  - intros p cs Hp. unfold demo_strs in Hp. apply lookup_singleton_Some in Hp as [<- <-]. split; [lia|]. split; [by repeat constructor|]. split; [apply holds_fill|left; simpl; lia].
Qed.

Lemma printf_renders_witness :
  let out := [32; 32; 45; 52; 50; 124; 102; 102; 32; 32; 124; 97; 98; 37] in
  render_all demo_strs demo_items [-42; 255; 200] = Some out
  /\ (exists r, snprintf 300 10 100 [-42; 255; 200] demo_memory = Ok (r, fill 300 (take 9 out ++ [0]) demo_memory))
  /\ sprintf 300 100 [-42; 255; 200] demo_memory = Ok (14, fill 300 (out ++ [0]) demo_memory).
Proof.
  intros out. assert (render_all demo_strs demo_items [-42; 255; 200] = Some out) as Hr by (vm_compute; reflexivity). split; [exact Hr|].
  assert (forall n, 0 <= n <= 20 -> call_ok 300 n 100 (format demo_items) demo_strs demo_memory) as HC.
  { intros n Hn. destruct demo_call as [[H1 H2] (H3 & H4 & H5) H6]. split; [split; [done|intros a Ha; apply H2; lia]|split; [done|split; [done|left; simpl; lia]]|].
    intros p cs Hp. destruct (H6 p cs Hp) as (? & ? & ? & ?). unfold demo_strs in Hp. apply lookup_singleton_Some in Hp as [<- <-]. split; [done|]. split; [done|]. split; [done|left; simpl; lia]. }
  assert (Forall item_ok demo_items) as Hi by (repeat constructor; done || set_solver). split.
  - destruct (printf_renders 300 10 100 demo_items [-42; 255; 200] demo_strs out demo_memory (HC 10 ltac:(lia)) Hi Hr) as (H & _ & _).
    destruct (H ltac:(unfold INT_MAX; lia)) as (r & E & _). exists r. exact E.
  - destruct (printf_renders 300 15 100 demo_items [-42; 255; 200] demo_strs out demo_memory (HC 15 ltac:(lia)) Hi Hr) as (_ & H & _).
    apply H; [reflexivity|unfold INT_MAX; lia].
Defined.

(** ** Findings *)

Definition run_sprintf (format : list Z) (ap : list Z) : res (Z * list Z) :=
  '(n, m) ← sprintf 300 100 ap (fill 100 (format ++ [0]) (fill 300 (repeat 1 20) ∅));
  s ← load (Z.to_nat n) 300 m;
  Ok (n, s).

(** A format that ends within a conversion is read past its final zero. *)
Lemma format_read_past_end : run_sprintf [ch "a"; ch "%"] [] = Err FWild /\ run_sprintf [ch "a"; ch "%"; ch "5"] [] = Err FWild.
Proof. split; vm_compute; reflexivity. Qed.

(** Zero padding goes before the prefix of the alternate form: 0000x1f. *)
Lemma zeros_before_prefix : run_sprintf [ch "%"; ch "#"; ch "0"; ch "7"; ch "x"] [31] = Ok (7, [ch "0"; ch "0"; ch "0"; ch "0"; ch "x"; ch "1"; ch "f"]).
Proof. vm_compute. reflexivity. Qed.

(** The flags - and 0 together: the last one counts, where fprintf ignores the
    flag 0. *)
Lemma last_justification_wins : run_sprintf [ch "%"; ch "-"; ch "0"; ch "5"; ch "d"] [42] = Ok (5, [ch "0"; ch "0"; ch "0"; ch "4"; ch "2"]).
Proof. vm_compute. reflexivity. Qed.

(** An unsigned number gets a plus sign. *)
Lemma unsigned_plus : run_sprintf [ch "%"; ch "+"; ch "u"] [7] = Ok (2, [ch "+"; ch "7"]).
Proof. vm_compute. reflexivity. Qed.

(** The alternate form of zero has the prefix, and an octal zero two digits; the
    prefix of %X is written in lower case. *)
Lemma alternate_forms :
  run_sprintf [ch "%"; ch "#"; ch "x"] [0] = Ok (3, [ch "0"; ch "x"; ch "0"])
  /\ run_sprintf [ch "%"; ch "#"; ch "o"] [0] = Ok (2, [ch "0"; ch "0"])
  /\ run_sprintf [ch "%"; ch "#"; ch "X"] [171] = Ok (4, [ch "0"; ch "x"; ch "A"; ch "B"]).
Proof. repeat split; vm_compute; reflexivity. Qed.

(** A negative width from an argument does not justify to the left: it is ignored. *)
Lemma negative_width_ignored : run_sprintf [ch "%"; ch "*"; ch "d"] [-5; 42] = Ok (2, [ch "4"; ch "2"]).
Proof. vm_compute. reflexivity. Qed.

(** snprintf to a buffer of no bytes writes a byte, and it returns the number of
    characters written, not of those wanted. *)
Lemma snprintf_writes_to_nothing :
  (match snprintf 300 0 100 [] (fill 100 [ch "a"; ch "b"; 0] (fill 300 (repeat 1 20) ∅)) with Ok (n, m) => Some (n, m !! 300) | _ => None end) = Some (0, Some 0)
  /\ (match snprintf 300 2 100 [] (fill 100 [ch "a"; ch "b"; 0] (fill 300 (repeat 1 20) ∅)) with Ok (n, m) => Some n | _ => None end) = Some 1.
Proof. split; vm_compute; reflexivity. Qed.

(** The precision of a string is ignored. *)
Lemma string_precision_ignored :
  (match sprintf 300 100 [200] (fill 200 [97; 98; 0] (fill 100 [ch "%"; ch "."; ch "1"; ch "s"; 0] (fill 300 (repeat 1 20) ∅))) with Ok (n, m) => Some n | _ => None end) = Some 2.
Proof. vm_compute. reflexivity. Qed.
