(* ===== verification/Strto.v ===== *)
(** * Numbers from strings (src/nuttx/lib/string/lib_strtoul.c, lib_strtol.c, lib_checkbase.c, lib_isbasedigit.c, lib_skipspace.c)

    strtol and strtoul, and that they read back what sprintf wrote. *)

From Stdlib Require Import Ascii.
From S2P Require Import Prelude Bytes Printf PrintfNum PrintfSpec PrintfFmt PrintfThm.

(** ** Operations *)

(** isspace of include/ctype.h: space, tab, newline, return, form feed, vertical tab. *)
Definition isspace (c : Z) : bool := (c =? 32) || (c =? 9) || (c =? 10) || (c =? 13) || (c =? 12) || (c =? 11).

Fixpoint skipspace_loop (fuel : nat) (p : ptr) (m : gmap Z Z) : res ptr :=
  match fuel with
  | O => Err FFuel
  | S fuel =>
      c ← deref m p;
      if isspace c then skipspace_loop fuel (p + 1) m else Ok p
  end.

Definition lib_skipspace (p : ptr) (m : gmap Z Z) : res ptr := skipspace_loop (S (size m)) p m.

(** The value of the digit, or none. *)
Definition lib_isbasedigit (c base : Z) : option Z :=
  if base <=? 10 then
    if (ch "0" <=? c) && (c <=? base + ch "0" - 1) then Some (c - ch "0") else None
  else if base <=? 36 then
    if (ch "0" <=? c) && (c <=? ch "9") then Some (c - ch "0")
    else if (ch "a" <=? c) && (c <=? ch "a" + base - 11) then Some (c - ch "a" + 10)
    else if (ch "A" <=? c) && (c <=? ch "A" + base - 11) then Some (c - ch "A" + 10)
    else None
  else None.

Definition is_x (c : Z) : bool := (c =? ch "X") || (c =? ch "x").

Definition lib_checkbase (base : Z) (p : ptr) (m : gmap Z Z) : res (Z * ptr) :=
  if base =? 0 then
    c ← deref m p;
    if c =? ch "0" then
      let p := p + 1 in
      c ← deref m p;
      if is_x c then
        d ← deref m (p + 1);
        match lib_isbasedigit d 16 with
        | Some _ => Ok (16, p + 1)
        | None => Ok (8, p)
        end
      else Ok (8, p)
    else Ok (10, p)
  else if base =? 16 then
    c ← deref m p;
    if c =? ch "0" then
      d ← deref m (p + 1);
      if is_x d then Ok (base, p + 2) else Ok (base, p)
    else Ok (base, p)
  else Ok (base, p).

Fixpoint digit_loop (fuel : nat) (p : ptr) (base accum : Z) (m : gmap Z Z) : res (Z * ptr) :=
  match fuel with
  | O => Err FFuel
  | S fuel =>
      c ← deref m p;
      match lib_isbasedigit c base with
      | Some value => digit_loop fuel (p + 1) base (u32 (accum * base + value)) m
      | None => Ok (accum, p)
      end
  end.

(** The result and the value of [*endptr]; for a null pointer nothing is stored. *)
Definition strtoul (nptr : ptr) (base : Z) (m : gmap Z Z) : res (Z * option ptr) :=
  if decide (nptr = NULL) then Ok (0, None)
  else
    nptr ← lib_skipspace nptr m;
    '(base, nptr) ← lib_checkbase base nptr m;
    '(accum, nptr) ← digit_loop (S (size m)) nptr base 0 m;
    Ok (accum, Some nptr).

Definition strtol (nptr : ptr) (base : Z) (m : gmap Z Z) : res (Z * option ptr) :=
  if decide (nptr = NULL) then Ok (0, None)
  else
    nptr ← lib_skipspace nptr m;
    c ← deref m nptr;
    let '(negate, nptr) := if c =? ch "-" then (true, nptr + 1) else if c =? ch "+" then (false, nptr + 1) else (false, nptr) in
    '(accum, endptr) ← strtoul nptr base m;
    Ok (if (negate : bool) then s32 (- s32 accum) else s32 accum, endptr).

(** ** Digits and spaces in memory *)

Implicit Types (p : ptr) (m : gmap Z Z) (ds : list Z).

Lemma skipspace_ok n p c rest m :
  0 < p -> holds p (repeat (ch " ") n ++ c :: rest) m -> isspace c = false -> lib_skipspace p m = Ok (p + Z.of_nat n).
Proof.
  intros Hp Hm Hc. unfold lib_skipspace. pose proof (holds_size _ _ _ Hm) as Hs. rewrite length_app, repeat_length in Hs. cbn [length] in Hs.
  assert (n < S (size m))%nat as Hf by lia. revert p Hp Hm Hf. generalize (S (size m)) as fuel. clear Hs. induction n as [|n IH]; intros [|fuel] p Hp Hm Hf; try lia; cbn [skipspace_loop repeat app] in *;
    (apply holds_cons in Hm as [Hd Hm]; [|done]); rewrite Hd, bind_Ok.
  - rewrite Hc. f_equal. simpl. lia.
  - change (isspace (ch " ")) with true. rewrite (IH fuel (p + 1)) by (done || lia). f_equal. lia.
Qed.

(** A letter case for a base: any for the bases up to ten. *)
Definition letter_ok (base a : Z) : Prop := 2 <= base <= 10 \/ (base <= 36 /\ 10 < base /\ (a = ch "a" \/ a = ch "A")).

Lemma isbasedigit_digit base a d : letter_ok base a -> 0 <= d < base -> lib_isbasedigit (digit_char a d) base = Some d.
Proof.
  intros Hb Hd. unfold lib_isbasedigit, digit_char. change (ch "0") with 48. change (ch "9") with 57. change (ch "a") with 97. change (ch "A") with 65. unfold letter_ok in Hb. change (ch "a") with 97 in Hb. change (ch "A") with 65 in Hb.
  destruct (Z.leb_spec base 10).
  - rewrite (proj2 (Z.ltb_lt d 10)) by lia. rewrite !(proj2 (Z.leb_le _ _)) by lia. cbn [andb]. f_equal. lia.
  - rewrite (proj2 (Z.leb_le base 36)) by lia. destruct (Z.ltb_spec d 10).
    + rewrite (proj2 (Z.leb_le 48 (d + 48))), (proj2 (Z.leb_le (d + 48) 57)) by lia. cbn [andb]. f_equal. lia.
    + destruct Hb as [Hb|(H36 & _ & [->| ->])]; [lia|..].
      * rewrite (proj2 (Z.leb_gt (d + 97 - 10) 57)), andb_false_r by lia. rewrite (proj2 (Z.leb_le 97 _)), (proj2 (Z.leb_le (d + 97 - 10) (97 + base - 11))) by lia. cbn [andb]. f_equal. lia.
      * rewrite (proj2 (Z.leb_gt (d + 65 - 10) 57)), andb_false_r, (proj2 (Z.leb_gt 97 (d + 65 - 10))) by lia. cbn [andb].
        rewrite (proj2 (Z.leb_le 65 _)), (proj2 (Z.leb_le (d + 65 - 10) (65 + base - 11))) by lia. cbn [andb]. f_equal. lia.
Qed.

Lemma value_from_nonneg base n ds : 0 <= base -> 0 <= n -> Forall (fun d => 0 <= d < base) ds -> 0 <= foldl (fun acc d => acc * base + d) n ds.
Proof. intros Hb Hn Hd. revert n Hn. induction Hd as [|d ds Hd _ IH]; intros n Hn; [done|]. cbn [foldl]. apply IH. nia. Qed.

Lemma digit_loop_ok ds : forall fuel p base a accum c rest m,
  0 < p -> letter_ok base a -> Forall (fun d => 0 <= d < base) ds -> holds p (map (digit_char a) ds ++ c :: rest) m -> lib_isbasedigit c base = None -> (length ds < fuel)%nat -> uint accum ->
  digit_loop fuel p base accum m = Ok (u32 (foldl (fun acc d => acc * base + d) accum ds), p + Z.of_nat (length ds)).
Proof.
  induction ds as [|d ds IH]; intros [|fuel] p base a accum c rest m Hp Hb Hds Hm Hc Hf Ha; try (simpl in Hf; lia); cbn [digit_loop map app foldl length] in *;
    (apply holds_cons in Hm as [Hd Hm]; [|done]); rewrite Hd, bind_Ok.
  - rewrite Hc, Z.add_0_r, u32_id by exact Ha. done.
  - apply Forall_cons in Hds as [Hd1 Hds]. rewrite (isbasedigit_digit base a d) by done. rewrite (IH fuel (p + 1) base a _ c rest m) by (done || lia || apply Z.mod_pos_bound; lia). do 2 f_equal; [|lia].
    assert (forall x y, u32 x = u32 y -> u32 (foldl (fun acc d => acc * base + d) x ds) = u32 (foldl (fun acc d => acc * base + d) y ds)) as Hcong.
    { clear. induction ds as [|d ds IH]; intros x y E; [done|]. cbn [foldl]. apply IH. unfold u32 in *. rewrite (Z.add_mod (x * base)), (Z.mul_mod x), E, <-Z.mul_mod, <-Z.add_mod by done. done. }
    apply Hcong. unfold u32. by rewrite Z.mod_mod.
Qed.

(** ** Numerals *)

Lemma digit_char_range base a d : letter_ok base a -> 0 <= d < base -> 48 <= digit_char a d < 128 /\ (base = 16 -> is_x (digit_char a d) = false).
Proof.
  unfold letter_ok, digit_char, is_x. change (ch "0") with 48. change (ch "a") with 97. change (ch "A") with 65. change (ch "x") with 120. change (ch "X") with 88.
  intros Hb Hd. destruct (Z.ltb_spec d 10); (split; [lia|]); intros ->; rewrite orb_false_iff, !Z.eqb_neq; lia.
Qed.

Lemma isspace_range c : 48 <= c -> isspace c = false.
Proof. intros Hc. unfold isspace. by rewrite !(proj2 (Z.eqb_neq _ _)) by lia. Qed.

Lemma checkbase_number p base a ds c rest m :
  0 < p -> letter_ok base a -> Forall (fun d => 0 <= d < base) ds -> ds <> [] -> holds p (map (digit_char a) ds ++ c :: rest) m -> is_x c = false ->
  lib_checkbase base p m = Ok (base, p).
Proof.
  intros Hp Hb Hds Hne Hm Hx. unfold lib_checkbase. assert (base <> 0) as H0 by (unfold letter_ok in Hb; lia). rewrite (proj2 (Z.eqb_neq base 0)) by done.
  destruct (Z.eqb_spec base 16) as [->|]; [|done]. destruct ds as [|d ds]; [done|]. apply Forall_cons in Hds as [_ Hds]. cbn [map app] in Hm. apply holds_cons in Hm as [-> Hm]; [|done].
  rewrite bind_Ok. destruct (_ =? ch "0"); [|done]. assert (exists c1, deref m (p + 1) = Ok c1 /\ is_x c1 = false) as (c1 & -> & E1); [|by rewrite bind_Ok, E1].
  destruct ds as [|d1 ds]; cbn [map app] in Hm; (apply holds_cons in Hm as [Hd2 _]; [|lia]); eexists; (split; [exact Hd2|]); [done|].
  apply Forall_cons in Hds as [Hd2' _]. by apply (digit_char_range 16 a d1).
Qed.

(** A prefix that strtoul takes in the base: none, or that of the base 16. *)
Definition prefix_of (base : Z) (pre : list Z) : Prop := pre = [] \/ (base = 16 /\ exists x, pre = [ch "0"; x] /\ is_x x = true).

Lemma checkbase_prefix p base a pre ds c rest m :
  0 < p -> letter_ok base a -> prefix_of base pre -> Forall (fun d => 0 <= d < base) ds -> ds <> [] -> holds p (pre ++ map (digit_char a) ds ++ c :: rest) m -> is_x c = false ->
  lib_checkbase base p m = Ok (base, p + Z.of_nat (length pre)).
Proof.
  intros Hp Hb [->|(-> & x & -> & Hx)] Hds Hne Hm Hc; [rewrite (checkbase_number p base a ds c rest m) by done; cbn [length]; by rewrite Z.add_0_r|].
  cbn [app length] in *. apply holds_cons in Hm as [Hd Hm]; [|done]. apply holds_cons in Hm as [Hd2 _]; [|lia]. unfold lib_checkbase. change (16 =? 0) with false. change (16 =? 16) with true. cbn match.
  rewrite Hd, bind_Ok. change (ch "0" =? ch "0") with true. cbn match. by rewrite Hd2, bind_Ok, Hx.
Qed.

(** A number after some spaces. *)
Lemma strtoul_number n p base a pre ds c rest m :
  0 < p -> letter_ok base a -> prefix_of base pre -> Forall (fun d => 0 <= d < base) ds -> ds <> [] -> holds p (repeat (ch " ") n ++ pre ++ map (digit_char a) ds ++ c :: rest) m ->
  lib_isbasedigit c base = None -> is_x c = false ->
  strtoul p base m = Ok (u32 (value base ds), Some (p + Z.of_nat n + Z.of_nat (length pre) + Z.of_nat (length ds))).
Proof.
  intros Hp Hb Hpre Hds Hne Hm Hc Hx. pose proof (holds_size _ _ _ Hm) as Hs. rewrite !length_app, length_map in Hs. cbn [length] in Hs. unfold strtoul. rewrite decide_False by lia.
  assert (lib_skipspace p m = Ok (p + Z.of_nat n)) as ->.
  { destruct ds as [|d ds]; [done|]. apply Forall_cons in Hds as [Hd1 _]. destruct Hpre as [->|(-> & x & -> & _)]; cbn [map app] in Hm; apply (skipspace_ok n p _ _ m Hp Hm); [|done].
    apply isspace_range. pose proof (digit_char_range base a d Hb Hd1). lia. }
  apply holds_app in Hm as [_ Hm]. rewrite repeat_length in Hm. rewrite bind_Ok, (checkbase_prefix _ base a pre ds c rest m), bind_Ok by (done || lia).
  apply holds_app in Hm as [_ Hm]. rewrite (digit_loop_ok ds _ _ base a 0 c rest m) by (done || lia || (unfold uint; lia)). done.
Qed.

Lemma zeros_range base n : 2 <= base -> Forall (fun d => 0 <= d < base) (repeat 0 n).
Proof. intros Hb. induction n as [|n IH]; [done|]. constructor; [lia|done]. Qed.

Lemma value_zeros base n ds : value base (repeat 0 n ++ ds) = value base ds.
Proof. unfold value. rewrite foldl_app. f_equal. induction n as [|n IH]; [done|]. exact IH. Qed.

Lemma field_shape j w sg pre ds : exists n1 n2 n3, field j w sg pre ds = repeat (ch " ") n1 ++ sg ++ pre ++ repeat (ch "0") n2 ++ ds ++ repeat (ch " ") n3.
Proof.
  unfold field. set (pad := Z.to_nat _). destruct j; [exists pad, 0%nat, 0%nat|exists 0%nat, 0%nat, pad|exists 0%nat, pad, 0%nat]; cbn [repeat app]; by rewrite ?app_nil_r.
Qed.

Lemma zeros_digits a n ds : repeat (ch "0") n ++ map (digit_char a) ds = map (digit_char a) (repeat 0 n ++ ds).
Proof. rewrite map_app. f_equal. induction n as [|n IH]; [done|]. cbn [repeat map]. by rewrite IH. Qed.

(** What follows the digits of a field. *)
Lemma after_field n : exists c rest, repeat (ch " ") n ++ [0] = c :: rest /\ (c = ch " " \/ c = 0).
Proof. destruct n as [|n]; [exists 0, []; split; [done|by right]|exists (ch " "), (repeat (ch " ") n ++ [0]); split; [done|by left]]. Qed.

Lemma not_digit_after base c : c = ch " " \/ c = 0 -> 2 <= base <= 36 -> lib_isbasedigit c base = None /\ is_x c = false.
Proof.
  intros Hc Hb. split; [|by destruct Hc as [->| ->]]. unfold lib_isbasedigit.
  assert ((ch "0" <=? c) = false /\ (ch "a" <=? c) = false /\ (ch "A" <=? c) = false) as (-> & -> & ->) by (by destruct Hc as [->| ->]).
  cbn [andb]. destruct (base <=? 10), (base <=? 36); done.
Qed.

(** ** Fields read back *)

(** The prefix of the alternate form is one that strtoul takes, or a zero. *)
Lemma alt_prefix_of c n : c ∈ integer_conversions -> prefix_of (radix c) (alt_prefix c n) \/ alt_prefix c n = [ch "0"].
Proof.
  intros Hc. unfold alt_prefix. destruct (n =? 0); [by left; left|].
  conversions Hc; solve [by right|by left; left|left; right; split; [done|eexists; by split]].
Qed.

Lemma radix_letter c : c ∈ integer_conversions -> letter_ok (radix c) (letter c).
Proof. intros Hc. conversions Hc; solve [left; by vm_compute|right; repeat split; solve [by vm_compute|by left|by right]]. Qed.

(** A field is a number after spaces, a sign and a prefix, followed by what is no
    digit. *)
Lemma field_number j w sg pre base a n ds :
  letter_ok base a -> numeral base n ds -> prefix_of base pre \/ pre = [ch "0"] ->
  exists k px es c rest, field j w sg pre (map (digit_char a) ds) ++ [0] = repeat (ch " ") k ++ sg ++ px ++ map (digit_char a) es ++ c :: rest
    /\ prefix_of base px /\ (pre = [] -> px = []) /\ es <> [] /\ Forall (fun d => 0 <= d < base) es /\ value base es = n /\ lib_isbasedigit c base = None /\ is_x c = false.
Proof.
  intros Hb [Hds Hv (d & ds' & Hne & _)] Hpre. destruct (field_shape j w sg pre (map (digit_char a) ds)) as (n1 & n2 & n3 & E). destruct (after_field n3) as (c & rest & Ec & Hc).
  assert (2 <= base <= 36) as Hb2 by (unfold letter_ok in Hb; lia). destruct (not_digit_after base c Hc Hb2) as [Hc1 Hc2].
  assert (forall k, Forall (fun d => 0 <= d < base) (repeat 0 k ++ ds) /\ repeat 0 k ++ ds <> [] /\ value base (repeat 0 k ++ ds) = n) as Hz.
  { intros k. split; [apply Forall_app; split; [apply zeros_range; lia|done]|]. split; [subst ds; by destruct k|by rewrite value_zeros]. }
  destruct Hpre as [Hpre| ->].
  - exists n1, pre, (repeat 0 n2 ++ ds), c, rest. destruct (Hz n2) as (H1 & H2 & H3).
    split; [by rewrite E, <-!app_assoc, Ec, (app_assoc (repeat (ch "0") n2)), zeros_digits|]. by repeat split.
  - exists n1, [], (repeat 0 (S n2) ++ ds), c, rest. destruct (Hz (S n2)) as (H1 & H2 & H3).
    split; [rewrite E, <-!app_assoc, Ec; do 2 f_equal; cbn [app]; rewrite <-(zeros_digits a (S n2) ds); cbn [repeat app]; by rewrite <-app_assoc|]. repeat split; try done. by left.
Qed.

Lemma strtoul_field p j w pre base a n ds m :
  0 < p -> letter_ok base a -> numeral base n ds -> prefix_of base pre \/ pre = [ch "0"] -> uint n -> holds p (field j w [] pre (map (digit_char a) ds) ++ [0]) m ->
  exists e, strtoul p base m = Ok (n, e).
Proof.
  intros Hp Hb Hn Hpre Hu Hm. destruct (field_number j w [] pre base a n ds Hb Hn Hpre) as (k & px & es & c & rest & E & Hpx & _ & Hne & Hes & Hv & Hc & Hx). rewrite E in Hm. cbn [app] in Hm.
  eexists. rewrite (strtoul_number k p base a px es c rest m) by done. by rewrite Hv, u32_id by exact Hu.
Qed.

Lemma strtol_field p j w c plus n m :
  0 < p -> int n -> is_signed c = true -> holds p (field j w (sign c plus n) [] (map (digit_char (letter c)) (digits 10 (Z.abs n))) ++ [0]) m ->
  exists e, strtol p 10 m = Ok (n, e).
Proof.
  intros Hp Hn Hs Hm. assert (letter_ok 10 (letter c)) as Hb by (left; lia). assert (uint (Z.abs n)) as Hu by (unfold int, uint, INT_MAX in *; lia). generalize dependent (letter c). intros x Hm Hb.
  destruct (field_number j w (sign c plus n) [] 10 x _ _ Hb (digits_numeral 10 (Z.abs n) ltac:(lia) Hu) ltac:(by left; left)) as (k & px & es & d0 & rest & E & _ & Hpx & Hne & Hes & Hv & Hc & Hx).
  rewrite E, Hpx in Hm by done. clear E Hpx px. cbn [app] in Hm. assert (prefix_of 10 []) as Hp0 by by left.
  unfold strtol. rewrite decide_False by lia. destruct es as [|d es]; [done|]. pose proof Hes as [Hd _]%Forall_cons. destruct (digit_char_range 10 x d Hb Hd) as [Hr _].
  unfold sign in *. rewrite Hs in *. unfold int, INT_MAX in Hn.
  assert (forall q, 0 < q -> holds q (map (digit_char x) (d :: es) ++ d0 :: rest) m -> exists e, strtoul q 10 m = Ok (Z.abs n, e)) as Hnum.
  { intros q Hq Hmq. rewrite (strtoul_number 0 q 10 x [] (d :: es) d0 rest m) by done. rewrite Hv, u32_id by exact Hu. by eexists. }
  destruct (Z.ltb_spec n 0) as [H0|H0]; [|destruct plus]; cbn [app] in Hm.
  - rewrite (skipspace_ok k p (ch "-") (map (digit_char x) (d :: es) ++ d0 :: rest) m) by done. rewrite bind_Ok. apply holds_app in Hm as [_ Hm]. rewrite repeat_length in Hm.
    apply holds_cons in Hm as [-> Hm]; [|lia]. rewrite bind_Ok. change (ch "-" =? ch "-") with true. cbv iota zeta. apply Hnum in Hm as [e ->]; [|lia].
    rewrite bind_Ok. eexists. do 2 f_equal. rewrite Z.abs_neq by lia. destruct (Z.eq_dec n (- 2 ^ 31)) as [->|Hne2]; [done|]. rewrite (s32_id (- n)), s32_id by (unfold INT_MAX; lia). lia.
  - rewrite (skipspace_ok k p (ch "+") (map (digit_char x) (d :: es) ++ d0 :: rest) m) by done. rewrite bind_Ok. apply holds_app in Hm as [_ Hm]. rewrite repeat_length in Hm.
    apply holds_cons in Hm as [-> Hm]; [|lia]. rewrite bind_Ok. change (ch "+" =? ch "-") with false. change (ch "+" =? ch "+") with true. cbv iota zeta. apply Hnum in Hm as [e ->]; [|lia].
    rewrite bind_Ok. eexists. do 2 f_equal. rewrite Z.abs_eq by lia. apply s32_id. unfold INT_MAX. lia.
  - rewrite (skipspace_ok k p (digit_char x d) (map (digit_char x) es ++ d0 :: rest) m) by (done || (apply isspace_range; lia)). rewrite bind_Ok. apply holds_app in Hm as [_ Hm]. rewrite repeat_length in Hm.
    pose proof Hm as Hm2. cbn [map app] in Hm2. apply holds_cons in Hm2 as [-> _]; [|lia]. rewrite bind_Ok. rewrite (proj2 (Z.eqb_neq _ (ch "-"))), (proj2 (Z.eqb_neq _ (ch "+"))) by (change (ch "-") with 45 || change (ch "+") with 43; lia). cbv iota zeta.
    apply Hnum in Hm as [e ->]; [|lia]. rewrite bind_Ok. eexists. do 2 f_equal. rewrite Z.abs_eq by lia. apply s32_id. unfold INT_MAX. lia.
Qed.

(** ** Round trip *)

Lemma bytes_u8 l : Forall (fun c => 0 <= c < 256) l -> map u8 l = l.
Proof. induction 1 as [|c l Hc _ IH]; [done|]. cbn [map]. by rewrite IH, (u8_id c Hc). Qed.

Lemma field_bytes j w sg pre ds :
  Forall (fun c => 0 <= c < 256) sg -> Forall (fun c => 0 <= c < 256) pre -> Forall (fun c => 0 <= c < 256) ds -> map u8 (field j w sg pre ds) = field j w sg pre ds.
Proof.
  intros Hs Hp Hb. destruct (field_shape j w sg pre ds) as (n1 & n2 & n3 & E). apply bytes_u8. rewrite E.
  assert (forall c n, 0 <= c < 256 -> Forall (fun c => 0 <= c < 256) (repeat c n)) as Hr by (intros c n Hc; induction n; by constructor).
  rewrite !Forall_app. repeat split; try done; apply Hr; by vm_compute.
Qed.

Lemma digits_bytes b a n : letter_ok b a -> uint n -> Forall (fun c => 0 <= c < 256) (map (digit_char a) (digits b n)).
Proof.
  intros Hb Hn. destruct (digits_numeral b n ltac:(unfold letter_ok in Hb; lia) Hn) as [Hd _ _]. apply Forall_map. eapply Forall_impl; [exact Hd|].
  intros d Hd'. pose proof (digit_char_range b a d Hb Hd'). cbn. lia.
Qed.

(** C37: what sprintf writes for an integer is read back: for every int, every
    integer conversion and all the flags, widths and length prefixes for which C36
    says what is written, strtol in base ten gives the int that %d or %i wrote, and
    strtoul in the base of the conversion gives the unsigned value that %u, %x, %X, %p,
    %o or %b wrote, whatever spaces, zeros, sign or prefix the field has. *)
Theorem sprintf_strtol_roundtrip buf src0 fs w prefix c ap w' a out m :
  let i := IInt fs w prefix c in
  item_ok i -> width_of w ap = Some (w', [a]) -> render ∅ i ap = Some (out, []) -> Z.of_nat (length out) < INT_MAX ->
  call_ok buf (Z.of_nat (length out) + 1) src0 (format [i]) ∅ m ->
  exists m', sprintf buf src0 ap m = Ok (Z.of_nat (length out), m')
    /\ (if is_signed c then exists e, strtol buf 10 m' = Ok (s32 a, e) else exists e, strtoul buf (radix c) m' = Ok (u32 (s32 a), e)).
Proof.
  intros i Hi Hw Hr Hl HC. pose proof HC as [[Hb _] _ _]. assert (render_all ∅ [i] ap = Some out) as Hra by (cbn [render_all]; rewrite Hr; cbn; by rewrite app_nil_r).
  eexists. split; [apply (sprintf_ok buf src0 [i] ap ∅ out m HC); [by apply Forall_singleton|done|done]|].
  unfold i in Hr. cbn [render] in Hr. rewrite Hw in Hr. cbv zeta in Hr. destruct (flags_ok _ _ _); [|done]. injection Hr as <-. destruct Hi as (Hc & _ & _).
  pose proof (int_s32 a) as Hn. pose proof (magnitude_uint c (s32 a) Hn) as Hu. pose proof (radix_letter c Hc) as Hx.
  set (pre := if has FAlt fs then _ else _). assert (prefix_of (radix c) pre \/ pre = [ch "0"]) as Hpre by (unfold pre; destruct (has FAlt fs); [by apply alt_prefix_of|by left; left]).
  rewrite field_bytes; [|unfold sign; repeat case_match; by repeat constructor| |by apply digits_bytes].
  2:{ unfold pre, alt_prefix. repeat case_match; by repeat constructor. }
  destruct (is_signed c) eqn:Es.
  - assert (pre = []) as -> by (unfold pre, alt_prefix; destruct (has FAlt fs), (magnitude c (s32 a) =? 0); try done; by conversions Hc).
    unfold numerals. assert (radix c = 10) as -> by (unfold radix; by rewrite Es). assert (magnitude c (s32 a) = Z.abs (s32 a)) as -> by (unfold magnitude; by rewrite Es).
    by apply (strtol_field buf (justify fs) w' c (has FPlus fs)); [..|apply holds_fill].
  - assert (sign c (has FPlus fs) (s32 a) = []) as -> by (unfold sign; by rewrite Es). assert (magnitude c (s32 a) = u32 (s32 a)) as E by (unfold magnitude; by rewrite Es). rewrite E in *.
    apply (strtoul_field buf (justify fs) w' pre _ (letter c) _ (digits (radix c) (u32 (s32 a)))); [done|done| |done|done|apply holds_fill]. apply digits_numeral; [unfold letter_ok in Hx; lia|done].
Qed.

(** ** An example *)

Definition demo_signed : item := IInt [FPlus; FZero] (WNum 6) [ch "l"] (ch "d").
Definition demo_prefixed : item := IInt [FAlt] (WNum 6) [] (ch "x").
Definition demo_number_memory (i : item) : gmap Z Z := fill 100 (format [i] ++ [0]) (fill 300 (repeat 1 7) ∅).

Lemma demo_number_call i : (length (format [i]) <= 20)%nat -> call_ok 300 7 100 (format [i]) ∅ (demo_number_memory i).
Proof.
  intros Hl. split.
  - split; [lia|]. intros a Ha. unfold demo_number_memory. rewrite lookup_fill_out by (rewrite length_app; simpl in *; lia). rewrite lookup_fill_in by (simpl in *; lia). apply lookup_lt_is_Some. simpl in *. lia.
  - split; [lia|]. split; [apply holds_fill|left; simpl in *; lia].
  - intros p cs Hp. by rewrite lookup_empty in Hp.
Qed.

(** "%+06ld" of -42 is "-00042", and "%#6x" of 42 is "  0x2a". *)
Lemma sprintf_strtol_roundtrip_witness :
  (exists m', sprintf 300 100 [-42] (demo_number_memory demo_signed) = Ok (6, m') /\ exists e, strtol 300 10 m' = Ok (-42, e))
  /\ (exists m', sprintf 300 100 [42] (demo_number_memory demo_prefixed) = Ok (6, m') /\ exists e, strtoul 300 16 m' = Ok (42, e)).
Proof.
  split.
  - apply (sprintf_strtol_roundtrip 300 100 [FPlus; FZero] (WNum 6) [ch "l"] (ch "d") [-42] 6 (-42) [ch "-"; ch "0"; ch "0"; ch "0"; ch "4"; ch "2"] (demo_number_memory demo_signed)).
    + split; [set_solver|split; [set_solver|unfold INT_MAX; lia]].
    + reflexivity.
    + vm_compute. reflexivity.
    + unfold INT_MAX. simpl. lia.
    + apply demo_number_call. simpl. lia.
  - apply (sprintf_strtol_roundtrip 300 100 [FAlt] (WNum 6) [] (ch "x") [42] 6 42 [ch " "; ch " "; ch "0"; ch "x"; ch "2"; ch "a"] (demo_number_memory demo_prefixed)).
    + split; [set_solver|split; [set_solver|unfold INT_MAX; lia]].
    + reflexivity.
    + vm_compute. reflexivity.
    + unfold INT_MAX. simpl. lia.
    + apply demo_number_call. simpl. lia.
Defined.

(** ** Findings *)

Definition strto_of (f : ptr -> Z -> gmap Z Z -> res (Z * option ptr)) (s : list Z) (base : Z) : res (Z * option ptr) := f 100 base (fill 100 (s ++ [0]) ∅).

(** strtol skips spaces again after the sign. *)
Lemma strtol_space_after_sign : strto_of strtol [ch "-"; ch " "; ch "5"] 10 = Ok (-5, Some 103).
Proof. vm_compute. reflexivity. Qed.

(** In base 16 the letter of a prefix without digits is taken, although only the
    zero is a number. *)
Lemma strtoul_bare_prefix : strto_of strtoul [ch "0"; ch "x"; ch "g"] 16 = Ok (0, Some 102) /\ strto_of strtoul [ch "0"; ch "x"; ch "g"] 0 = Ok (0, Some 101).
Proof. split; vm_compute; reflexivity. Qed.
